(* ===== verification/_CoqProject ===== *)
-Q . S2P
Xv6.v
Prelude.v
CString.v
Kalloc.v
Spinlock.v
ProcDef.v
Proc.v
ProcFacts.v
Sched.v
ProcLife.v
ProcInv.v
ProcTable.v
ProcFork.v
ProcRuns.v
Sysutil.v
Sysproc.v
Trap.v
Timer.v
Block.v
Log.v
LogSafe.v
Bio.v
BioUse.v
Vm.v
VmFacts.v
VmOps.v
Kvm.v
VmFrame.v
UserMem.v
Initcode.v
FirstProc.v
Hart.v
Ring.v
Virtio.v
VirtioInv.v
Pipe.v
Console.v
Fs.v
FsAlloc.v
FsInode.v
FsDinode.v
FsFile.v
FsWrite.v
FsTrunc.v
FsDir.v
FsName.v
FsPath.v
Mkfs.v
MkfsFile.v
MkfsImage.v
MkfsBoot.v
File.v
Sysfile.v
FileWrite.v
FileRefs.v
FileInv.v
Exec.v
ExecArgs.v
ExecLoad.v
Grep.v
Umalloc.v
UmallocInv.v
Sh.v
ShParse.v
ShRun.v
Printf.v
Ulib.v
Commands.v
ShMain.v
Ls.v
Multi.v
MultiSafe.v
Proctests.v
Userprog.v
Usertests.v
Boot.v
BootSpec.v
