(* ===== verification/Xv6.v ===== *)
(** * A verification of xv6 with its commands, system calls and schedulers

    The repository is the RISC-V teaching kernel xv6 ([xv6-riscv/kernel/]) with
    its user programs ([xv6-riscv/user/]), extended by new system calls
    ([getppid], [getptable], [sysrand], [datetime], [kbdint], [countsyscall],
    [setpriority], [schedstats], [wait_stat]), new commands, and a scheduler
    with three modes.  This library translates the C code into functions on
    explicit states and proves what makes the parts correct.

    ** How the parts fit together

    A process enters the kernel through [trap.c], which counts clock ticks and
    calls [syscall.c]; the handlers ([sysproc.c], [sysutil.c], [sysfile.c])
    work on processes ([proc.c]), address spaces ([vm.c], over the pages of
    [kalloc.c]) and files ([file.c]).  A file is an inode of the file system
    ([fs.c]), a pipe ([pipe.c]) or a device ([console.c], [uart.c]).  The file
    system reads and writes blocks through the log ([log.c]) and the buffer
    cache ([bio.c]), which uses the disk driver ([virtio_disk.c]).  Spin locks
    and sleep locks ([spinlock.c], [sleeplock.c]) make the operations atomic.
    User programs are linked with [ulib.c], [printf.c] and [umalloc.c]; the
    shell starts them with [fork] and [exec] ([exec.c]).  The disk image that
    the kernel mounts is made on the build machine by [mkfs/mkfs.c].  A machine
    starts in [start.c] on every hart, which enters [main.c]; the first process
    runs [initcode], which executes [init].

    ** Files

    Every file models what its name says; [X.v] holds definitions and the
    files listed with it their theorems.

    - [Xv6]: the constants of [param.h], [riscv.h], [memlayout.h].
    - [Prelude]: fixed-width integers, the monad [M] of computations that may
      [panic], byte memories, record setters, tactics.
    - [CString]: [string.c] and the string functions of [ulib.c].
    - [Kalloc]: the page allocator; the links of the free list are in the pages.
    - [Spinlock]: locks and interrupt nesting, interleaved over all CPUs.
    - [ProcDef], [Proc]: [struct proc] and every function of [proc.c];
      [ProcFacts], [ProcLife], [ProcInv], [ProcTable]; [ProcFork] ([fork] and
      [wait] as equations), [ProcRuns] (when its functions return).  The
      services of other files that [proc.c] uses are the class [Services].
    - [Sched]: the scan and dispatch of [scheduler] in its three modes.
    - [Sysutil], [Sysproc]: the handlers of [sysutil.c] and [sysproc.c].
    - [Trap]: dispatch of system calls, [usertrap], [kerneltrap], the clock;
      [Timer]: timer interrupts of a running process, up to its next dispatch.
    - [Block], [Log], [LogSafe]: blocks as bytes, and the write-ahead log.
    - [Bio]: the buffer cache and sleep locks; [BioUse]: processes that use it
      at the same time.
    - [Ring], [Virtio], [VirtioInv]: the disk driver with its rings.
    - [Vm], [VmFacts], [VmOps]: page tables in memory, and copying to and from
      user memory; [UserMem] is the interface (class) its clients use.
      [Kvm]: the kernel's own page table; [VmFrame]: what the operations leave
      alone.
    - [Initcode], [FirstProc]: the first program, as bytes run by an interpreter
      of its instructions, and the process that [userinit] makes for it, with
      [vm.c] as an instance of [Services].
    - [Hart]: the registers of a hart ([riscv.h]) and [start.c]; [Boot]: [main.c],
      [plic.c] and the set-up of the devices; [BootSpec].
    - [Pipe], [Console]: pipes, the console and the UART, on [Ring].
    - [Fs]: all of [fs.c]; [FsAlloc] (blocks), [FsInode], [FsDinode] (inodes),
      [FsFile], [FsWrite], [FsTrunc] (contents), [FsDir], [FsName], [FsPath] (names).
    - [Mkfs]: the program that makes the image; [MkfsFile] (one file),
      [MkfsImage] (the image), [MkfsBoot] (the kernel started on it).
    - [File], [Sysfile]: open files and the file system calls; [FileWrite],
      [FileRefs], [FileInv].
    - [Exec]: [exec.c], [elf.h] and [sys_exec]; [ExecArgs], [ExecLoad].
    - [Grep]; [Umalloc], [UmallocInv]: two user programs, the searcher and the
      memory allocator.
    - [Sh]: the parser and [runcmd] of [sh.c]; [ShParse], [ShRun]; [ShMain]
      has the loop of the shell and that of [init.c].
    - [Printf], [Ulib], [Commands], [Ls]: formatted output, library functions
      and small commands.
    - [Multi]: one CPU that runs user processes under [scheduler], [usertrap]
      and the clock, for any [Services]; [MultiSafe].
    - [Proctests], [Userprog], [Usertests]: validation by execution.  Tests that
      the authors of the kernel wrote for processes and files, run on the model.

    ** States and operations

    A component's state is a record with the fields of the C structures (or the
    global variables) and an operation is a function with the guards, order of
    effects and early returns of the source.  Kernel code runs in [M]: it
    returns a value and a new state or calls [panic].  Pointers into tables are
    indices.  Code under a spin lock is one step; a function that can sleep is
    split where it sleeps, and step relations interleave the pieces.  Machine
    integers are [Z] with the wrap-around written out.  Code that is not in the
    repository (the disk, the clock, console input, the contents of devices)
    is an argument.

    ** What is proved

    - Invariants over all reachable states: the process table
      ([ProcTable.table_ok_reachable]), the log ([LogSafe.log_ok_reachable]),
      references of open files ([FileInv.file_refs_count_descriptors]), pages
      ([Kalloc.allocator_never_aliases]), mutual exclusion ([Spinlock]), buffers
      ([BioUse.block_exclusive]), inode table entries ([FsPath]), disk requests
      ([VirtioInv.virtio_transfers]), blocks of the user heap ([UmallocInv]).
    - Crash safety: a crash at any point of a commit or a recovery leaves a
      transaction done or not done ([LogSafe]); data written through a
      descriptor is on disk when the call returns ([FileWrite]).
    - Functional correctness of each layer of the file system, from the block
      bitmap to path names, of page tables and user copies, of [fork], [wait],
      [exec]'s arguments and loading, of pipes as FIFOs, of the console's line
      discipline, of the schedulers' choices.
    - Equivalence with reference definitions: the shell's parser and its
      grammar ([ShParse]), the pattern matcher and its language ([Grep]), path
      resolution and a walk of the directory tree ([FsPath]).
    - From [mkfs] to the kernel: [mkfs] puts every file on the image
      ([MkfsImage]), and the kernel that starts on it finds each by its name,
      with its contents ([MkfsBoot]).
    - From reset to the scheduler: any harts in any interleaving set the kernel
      up before one of them schedules ([BootSpec]), with a page table that maps
      what it should ([Kvm]), and the first process executes [/init]
      ([FirstProc]).
    - The running system: whatever user processes do with the process system
      calls and whenever the clock interrupts, the composition of traps, system
      calls and scheduler never panics, save for the exit of init
      ([MultiSafe.system_never_panics]); no sleeper misses its wakeup on a pipe
      ([Pipe.pipe_no_lost_wakeup]); a process that the scheduler prefers keeps
      the CPU over every tick, in all three modes
      ([Timer.preempted_process_runs_again]).
    - Errors: unknown system calls and unexpected traps, [exec] with too many
      arguments, commands whose system calls fail.

    The computations in [Usertests] (22 tests of the file system from the image
    of [mkfs], which leave no block, inode, reference or page behind) and in
    [Proctests] (process tests with the timer ticking, one of which shows the
    unfair choice of two scheduler modes) check the definitions on concrete
    inputs; they are not among the theorems above.

    ** Bounds and fuel

    A C loop that is not over a fixed range has a fuel argument.  Where the
    bound is not visible in the code it is justified by a theorem: paths and
    lines shrink at each step ([FsName], [ShParse]), a round of the free list
    visits each header once ([UmallocInv]), a search of the process table
    visits [NPROC] slots, a directory has [size / 16] entries, a chain of
    descriptors has three.  A parser that runs out of fuel returns a separate
    value ([OutOfFuel], [None]) which the theorems show not to occur; the loops
    over blocks ([readi], [writei], [iappend]) would stop early, and their
    theorems say that with the fuel their callers pass they treat every byte.
    The wait for the UART's transmitter has the parameter [patience]; a hardware
    that answers within it is a hypothesis of [BootSpec].

    ** Not modelled

    - Assembly ([entry.S], [kernelvec.S], [trampoline.S], [swtch.S],
      [usys.pl]): saving and restoring registers is part of the operations
      that call it.
    - Tests that need [exec], memory faults or [sbrk] ([grind.c],
      [stressfs.c], the rest of [usertests.c]), and programs that only print
      the result of one system call.
    - Memory and files under a running system at once: [Multi] takes them as
      services that do not panic, and has no file system calls.
    - Weak memory: accesses are sequentially consistent, as the barriers of
      [spinlock.c] and [virtio_disk.c] intend.
    - Messages on standard error, and those of [mkfs] on the terminal. *)

From Stdlib Require Import ZArith.
#[local] Open Scope Z_scope.

(** Machine and system parameters of [kernel/param.h]. *)
Module Param.
Definition NPROC : nat := 64.
Definition NCPU : nat := 8.
Definition NOFILE : nat := 16.
Definition NFILE : nat := 100.
Definition NINODE : nat := 50.
Definition NDEV : Z := 10.
Definition ROOTDEV : Z := 1.
Definition MAXARG : nat := 32.
Definition MAXOPBLOCKS : Z := 10.
Definition LOGSIZE : Z := MAXOPBLOCKS * 3.
Definition NBUF : nat := 30.
Definition FSSIZE : Z := 2000.
Definition MAXPATH : Z := 128.
Definition USERSTACK : Z := 1.
Definition USERBASE : Z := 0x00000000.
Definition USERTOP : Z := 0x40000000.
End Param.

(** Paging constants and macros of [kernel/riscv.h]; every macro works on
    64-bit unsigned values, so results are reduced modulo [2^64] where the C
    expression can leave that range. *)
Module Riscv.
Definition PGSIZE : Z := 4096.
Definition PGSHIFT : Z := 12.
Definition PGROUNDUP (sz : Z) : Z :=
  Z.land ((sz + PGSIZE - 1) mod 2 ^ 64) (2 ^ 64 - PGSIZE).
Definition PGROUNDDOWN (a : Z) : Z := Z.land a (2 ^ 64 - PGSIZE).
Definition PTE_V : Z := Z.shiftl 1 0.
Definition PTE_R : Z := Z.shiftl 1 1.
Definition PTE_W : Z := Z.shiftl 1 2.
Definition PTE_X : Z := Z.shiftl 1 3.
Definition PTE_U : Z := Z.shiftl 1 4.
Definition PA2PTE (pa : Z) : Z := (Z.shiftl (Z.shiftr pa 12) 10) mod 2 ^ 64.
Definition PTE2PA (pte : Z) : Z := (Z.shiftl (Z.shiftr pte 10) 12) mod 2 ^ 64.
Definition PTE_FLAGS (pte : Z) : Z := Z.land pte 0x3FF.
Definition PXMASK : Z := 0x1FF.
Definition PXSHIFT (level : Z) : Z := PGSHIFT + 9 * level.
Definition PX (level va : Z) : Z := Z.land (Z.shiftr va (PXSHIFT level)) PXMASK.
Definition MAXVA : Z := Z.shiftl 1 (9 + 9 + 9 + 12 - 1).
End Riscv.

(** Physical and virtual memory layout of [kernel/memlayout.h]. *)
Module Memlayout.
Definition UART0 : Z := 0x10000000.
Definition UART0_IRQ : Z := 10.
Definition VIRTIO0 : Z := 0x10001000.
Definition VIRTIO0_IRQ : Z := 1.
Definition PLIC : Z := 0x0c000000.
Definition KERNBASE : Z := 0x80000000.
Definition PHYSTOP : Z := KERNBASE + 128 * 1024 * 1024.
Definition TRAMPOLINE : Z := Riscv.MAXVA - Riscv.PGSIZE.
Definition KSTACK (p : Z) : Z := TRAMPOLINE - (p + 1) * 2 * Riscv.PGSIZE.
Definition TRAPFRAME : Z := TRAMPOLINE - Riscv.PGSIZE.
End Memlayout.

Export Param Riscv Memlayout.
