(* ===== verification/Prelude.v ===== *)
(** * Prelude: machine integers, the error-state monad, shared lemmas and tactics

    Every component file imports this one.  It fixes
    - the fixed-width integer conversions of C on RV64 ([u8], [u16], [u32],
      [u64], [s32]; [char] is unsigned in the RISC-V ABI);
    - [result]/[M]: state-passing computations that may reach [panic];
    - byte memories as functions from addresses to bytes, with 64-bit
      little-endian accesses;
    - generic lemmas about scans over index ranges, and the tactics and hint
      databases the components use. *)

From stdpp Require Export base list strings sets relations.
From Stdlib Require Export ZArith Lia.
From S2P Require Export Xv6.
#[global] Open Scope Z_scope.
#[export] Set Warnings "-clear-no-such-hyp".

(** ** Fixed-width integers *)

Definition u8 (z : Z) : Z := z mod 2 ^ 8.
Definition u16 (z : Z) : Z := z mod 2 ^ 16.
Definition u32 (z : Z) : Z := z mod 2 ^ 32.
Definition u64 (z : Z) : Z := z mod 2 ^ 64.
(** Conversion to [int]: two's complement. *)
Definition s32 (z : Z) : Z := (z + 2 ^ 31) mod 2 ^ 32 - 2 ^ 31.

Lemma u32_range z : 0 <= u32 z < 2 ^ 32.
Proof. apply Z.mod_pos_bound. lia. Qed.
Lemma u64_range z : 0 <= u64 z < 2 ^ 64.
Proof. apply Z.mod_pos_bound. lia. Qed.
Lemma u8_range z : 0 <= u8 z < 2 ^ 8.
Proof. apply Z.mod_pos_bound. lia. Qed.
Lemma s32_range z : - 2 ^ 31 <= s32 z < 2 ^ 31.
Proof. unfold s32. pose proof (Z.mod_pos_bound (z + 2 ^ 31) (2 ^ 32)). lia. Qed.
Lemma u8_small z : 0 <= z < 2 ^ 8 -> u8 z = z.
Proof. apply Z.mod_small. Qed.
Lemma u32_small z : 0 <= z < 2 ^ 32 -> u32 z = z.
Proof. apply Z.mod_small. Qed.
Lemma u64_small z : 0 <= z < 2 ^ 64 -> u64 z = z.
Proof. apply Z.mod_small. Qed.
Lemma s32_small z : - 2 ^ 31 <= z < 2 ^ 31 -> s32 z = z.
Proof. intros. unfold s32. rewrite Z.mod_small; lia. Qed.

Create HintDb ints discriminated.
#[export] Hint Resolve u8_range u32_range u64_range s32_range : ints.

(** ** Computations that may panic *)

(** [Done a s]: the function returned [a] in state [s].  [Panic msg]: the
    kernel called [panic(msg)], which never returns. *)
Inductive result (S A : Type) : Type :=
| Done (a : A) (s : S)
| Panic (msg : string).
Arguments Done {S A} a s.
Arguments Panic {S A} msg.

Definition M (S A : Type) : Type := S -> result S A.

Definition ret {S A} (a : A) : M S A := fun s => Done a s.
Definition panic {S A} (msg : string) : M S A := fun _ => Panic msg.
Definition bind {S A B} (c : M S A) (k : A -> M S B) : M S B := fun s =>
  match c s with
  | Done a s' => k a s'
  | Panic msg => Panic msg
  end.
Definition gets {S A} (f : S -> A) : M S A := fun s => Done (f s) s.
Definition modify {S} (f : S -> S) : M S unit := fun s => Done tt (f s).

Declare Scope xv6_scope.
Delimit Scope xv6_scope with xv6.
Notation "'let!' x := c 'in' k" := (bind c (fun x => k))
  (at level 100, x pattern, c at next level, k at level 200, right associativity)
  : xv6_scope.
Notation "c ;; k" := (bind c (fun _ => k))
  (at level 100, k at level 200, only parsing, right associativity) : xv6_scope.
#[global] Open Scope xv6_scope.

Definition when {S} (b : bool) (c : M S unit) : M S unit := if b then c else ret tt.

(** [for_each f l]: a C [for] loop whose body [f] runs once per element. *)
Fixpoint for_each {S A} (f : A -> M S unit) (l : list A) : M S unit :=
  match l with
  | [] => ret tt
  | a :: l' => f a ;; for_each f l'
  end.

(** [for_until f l]: a [for] loop whose body may leave the loop with a value. *)
Fixpoint for_until {S A B} (f : A -> M S (option B)) (l : list A) : M S (option B) :=
  match l with
  | [] => ret None
  | a :: l' =>
      let! r := f a in
      match r with
      | Some b => ret (Some b)
      | None => for_until f l'
      end
  end.

Lemma bind_Done {S A B} (c : M S A) (k : A -> M S B) s a s' :
  c s = Done a s' -> bind c k s = k a s'.
Proof. intros H. unfold bind. by rewrite H. Qed.

Lemma bind_assoc {S A B C} (c : M S A) (k : A -> M S B) (h : B -> M S C) s :
  bind (bind c k) h s = bind c (fun a => bind (k a) h) s.
Proof. unfold bind. by destruct (c s). Qed.

Lemma bind_Done_inv {S A B} (c : M S A) (k : A -> M S B) s b s'' :
  bind c k s = Done b s'' -> exists a s', c s = Done a s' /\ k a s' = Done b s''.
Proof. unfold bind. destruct (c s); naive_solver. Qed.

Lemma bind_gets {S A B} (f : S -> A) (k : A -> M S B) s : bind (gets f) k s = k (f s) s.
Proof. done. Qed.
Lemma bind_modify {S B} (f : S -> S) (k : unit -> M S B) s : bind (modify f) k s = k tt (f s).
Proof. done. Qed.
Lemma bind_ret {S A B} (a : A) (k : A -> M S B) s : bind (ret a) k s = k a s.
Proof. done. Qed.

(** [step_monad] runs the pure glue of a computation applied to a state. *)
Ltac step_monad :=
  cbn [bind ret gets modify when panic].

(** ** Byte memories *)

(** Physical memory: a byte per address. *)
Definition mem := Z -> Z.

Definition store8 (m : mem) (a v : Z) : mem :=
  fun x => if x =? a then u8 v else m x.

(** A 64-bit little-endian load, [*(uint64* )a]. *)
Definition load64 (m : mem) (a : Z) : Z :=
  m a + 2 ^ 8 * m (a + 1) + 2 ^ 16 * m (a + 2) + 2 ^ 24 * m (a + 3)
  + 2 ^ 32 * m (a + 4) + 2 ^ 40 * m (a + 5) + 2 ^ 48 * m (a + 6) + 2 ^ 56 * m (a + 7).

Definition byte_of (v i : Z) : Z := (v / 2 ^ (8 * i)) mod 2 ^ 8.

Definition store64 (m : mem) (a v : Z) : mem :=
  fun x => if (a <=? x) && (x <? a + 8) then byte_of v (x - a) else m x.

Lemma store64_out m a v x : x < a \/ a + 8 <= x -> store64 m a v x = m x.
Proof.
  intros H. unfold store64.
  destruct (Z.leb_spec a x), (Z.ltb_spec x (a + 8)); cbn; lia || done.
Qed.

Lemma store64_in m a v i : 0 <= i < 8 -> store64 m a v (a + i) = byte_of v i.
Proof.
  intros H. unfold store64.
  destruct (Z.leb_spec a (a + i)), (Z.ltb_spec (a + i) (a + 8)); try lia.
  cbn. f_equal. lia.
Qed.

Lemma store64_at m a v : store64 m a v a = byte_of v 0.
Proof. pose proof (store64_in m a v 0). rewrite Z.add_0_r in *. auto with lia. Qed.

Lemma bytes_sum v : 0 <= v < 2 ^ 64 ->
  byte_of v 0 + 2 ^ 8 * byte_of v 1 + 2 ^ 16 * byte_of v 2 + 2 ^ 24 * byte_of v 3
  + 2 ^ 32 * byte_of v 4 + 2 ^ 40 * byte_of v 5 + 2 ^ 48 * byte_of v 6
  + 2 ^ 56 * byte_of v 7 = v.
Proof.
  intros Hv. unfold byte_of.
  change (8 * 0) with 0; change (8 * 1) with 8; change (8 * 2) with 16;
  change (8 * 3) with 24; change (8 * 4) with 32; change (8 * 5) with 40;
  change (8 * 6) with 48; change (8 * 7) with 56.
  assert (Hs : forall i, 0 <= i ->
            (v / 2 ^ i) = (v / 2 ^ i) mod 2 ^ 8 + 2 ^ 8 * (v / 2 ^ (i + 8))).
  { intros i Hi. rewrite Z.pow_add_r, <- Z.div_div by lia.
    pose proof (Z.div_mod (v / 2 ^ i) (2 ^ 8)). lia. }
  pose proof (Hs 0); pose proof (Hs 8); pose proof (Hs 16); pose proof (Hs 24);
  pose proof (Hs 32); pose proof (Hs 40); pose proof (Hs 48); pose proof (Hs 56).
  change (0 + 8) with 8 in *; change (8 + 8) with 16 in *;
  change (16 + 8) with 24 in *; change (24 + 8) with 32 in *;
  change (32 + 8) with 40 in *; change (40 + 8) with 48 in *;
  change (48 + 8) with 56 in *; change (56 + 8) with 64 in *.
  assert (v / 2 ^ 64 = 0) by (apply Z.div_small; lia).
  rewrite Z.pow_0_r, Z.div_1_r in *. clear Hs.
  generalize dependent (v / 2 ^ 8). generalize dependent (v / 2 ^ 16).
  generalize dependent (v / 2 ^ 24). generalize dependent (v / 2 ^ 32).
  generalize dependent (v / 2 ^ 40). generalize dependent (v / 2 ^ 48).
  generalize dependent (v / 2 ^ 56). generalize dependent (v / 2 ^ 64).
  intros. lia.
Qed.

Lemma load64_ext m1 m2 a :
  (forall i, 0 <= i < 8 -> m1 (a + i) = m2 (a + i)) -> load64 m1 a = load64 m2 a.
Proof.
  intros H. unfold load64. pose proof (H 0) as H0. rewrite Z.add_0_r in H0.
  rewrite H0, !H by lia. done.
Qed.

Lemma load_store64 m a v : 0 <= v < 2 ^ 64 -> load64 (store64 m a v) a = v.
Proof.
  intros Hv. unfold load64. rewrite store64_at, !store64_in by lia.
  by apply bytes_sum.
Qed.

Lemma load_store64_out m a v b :
  b + 8 <= a \/ a + 8 <= b -> load64 (store64 m a v) b = load64 m b.
Proof. intros H. apply load64_ext. intros i Hi. apply store64_out. lia. Qed.

(** ** Lists and scans *)

Lemma lookup_seq_Some (n i : nat) : (i < n)%nat -> seq 0 n !! i = Some i.
Proof. intros. by apply lookup_seq. Qed.

(** Pointwise update of a list, by index. *)
Lemma imap_insert_ext {A} (f g : nat -> A -> A) (l : list A) :
  (forall i x, l !! i = Some x -> f i x = g i x) -> imap f l = imap g l.
Proof. intros H. apply imap_ext. intros. by apply H. Qed.

Lemma nth_lookup_eq {A} (l : list A) i x d : (i < length l)%nat -> nth i (<[i := x]> l) d = x.
Proof.
  intros Hi. apply nth_lookup_Some with (d := d). by apply list_lookup_insert_eq.
Qed.
Lemma nth_lookup_ne {A} (l : list A) i j x d : j <> i -> nth j (<[i := x]> l) d = nth j l d.
Proof. intros Hne. by rewrite !nth_lookup, list_lookup_insert_ne by done. Qed.

(** ** Page rounding *)

Lemma pgrounddown_eq a : 0 <= a < 2 ^ 64 -> PGROUNDDOWN a = a / PGSIZE * PGSIZE.
Proof.
  intros Ha. unfold PGROUNDDOWN, PGSIZE.
  change (2 ^ 64 - 4096) with (Z.land (Z.ones 64) (Z.lnot (Z.ones 12))).
  rewrite Z.land_assoc, Z.land_ones, Z.mod_small by lia.
  rewrite <- Z.ldiff_land, Z.ldiff_ones_r by lia.
  rewrite Z.shiftl_mul_pow2, Z.shiftr_div_pow2 by lia. done.
Qed.

Lemma pgroundup_eq a :
  0 <= a -> a + PGSIZE - 1 < 2 ^ 64 -> PGROUNDUP a = (a + PGSIZE - 1) / PGSIZE * PGSIZE.
Proof.
  intros H1 H2. unfold PGROUNDUP, PGSIZE in *. rewrite Z.mod_small by lia.
  apply pgrounddown_eq. unfold PGSIZE. lia.
Qed.

(** Page-aligned addresses. *)
Definition page_aligned (a : Z) : Prop := a mod PGSIZE = 0.

Lemma page_aligned_apart a b x :
  page_aligned a -> page_aligned b -> a <> b ->
  a <= x < a + PGSIZE -> x < b \/ b + PGSIZE <= x.
Proof.
  unfold page_aligned, PGSIZE. intros Ha Hb Hne Hx.
  pose proof (Z.div_mod a 4096). pose proof (Z.div_mod b 4096). lia.
Qed.

(** [lia_pages]: linear arithmetic after unfolding the page constants. *)
Ltac lia_pages := unfold PGSIZE, PHYSTOP, KERNBASE in *; lia.

(** ** Finite functions *)

(** Functional update, for arrays indexed by CPU or lock number. *)
Definition upd {A} (f : nat -> A) (i : nat) (a : A) : nat -> A :=
  fun j => if decide (j = i) then a else f j.

Lemma upd_eq {A} (f : nat -> A) i a : upd f i a i = a.
Proof. unfold upd. by destruct (decide (i = i)). Qed.
Lemma upd_ne {A} (f : nat -> A) i a j : j <> i -> upd f i a j = f j.
Proof. intros. unfold upd. by destruct (decide (j = i)). Qed.

(** [upd_case]: split on whether each updated index is the one looked up. *)
Ltac upd_case :=
  repeat match goal with
  | |- context [upd _ ?i _ ?j] =>
      destruct (decide (j = i)) as [?|?];
      [subst; rewrite ?upd_eq in *|rewrite ?(upd_ne _ i) in * by done]
  | H : context [upd _ ?i _ ?j] |- _ =>
      destruct (decide (j = i)) as [?|?];
      [subst; rewrite ?upd_eq in *|rewrite ?(upd_ne _ i) in * by done]
  end.

(** ** Byte lists *)

Fixpoint bytes_of_string (s : string) : list Z :=
  match s with
  | EmptyString => []
  | String a s' => Z.of_N (Ascii.N_of_ascii a) :: bytes_of_string s'
  end.

(** [n] little-endian bytes of [v]. *)
Fixpoint le_bytes (n : nat) (v : Z) : list Z :=
  match n with
  | O => []
  | S n' => v mod 2 ^ 8 :: le_bytes n' (v / 2 ^ 8)
  end.

Lemma length_le_bytes n v : length (le_bytes n v) = n.
Proof. revert v; induction n; intros; cbn; auto. Qed.

(** ** Record setters *)

(** [mk_setter eta get]: the function updating field [get] of a record, where
    [eta] rebuilds the record from its projections. *)
Ltac mk_setter eta get :=
  let v := fresh "v" in
  let r := fresh "r" in
  intros v r;
  let e := eval cbv beta delta [eta] in (eta r) in
  let e' := eval pattern (get r) in e in
  lazymatch e' with
  | ?f _ => let b := eval cbv beta in (f v) in exact b
  end.
