(* ===== verification/CString.v ===== *)
(** * Byte-string routines: [kernel/string.c] and the string part of [user/ulib.c]

    Pointers are addresses into a byte memory ([Prelude.mem]); each C loop is
    a recursion on its counter, performing the same stores in the same order,
    so that overlapping arguments behave as in the source.  [char] is unsigned
    (RISC-V ABI), which makes the kernel's [uchar] casts identities.

    Theorems: [memmove] (both the kernel's and the user library's version) is
    correct for arbitrarily overlapping regions, [strncmp] compares the
    NUL-terminated prefixes, [strncpy] pads with NULs and [safestrcpy] always
    terminates its destination and never writes past it. *)

From S2P Require Import Prelude.

(** Memory holds bytes. *)
Definition mem_ok (m : mem) : Prop := forall a, 0 <= m a < 2 ^ 8.

Lemma store8_ok m a v : mem_ok m -> mem_ok (store8 m a v).
Proof. intros Hm x. unfold store8. destruct (x =? a); [apply u8_range | apply Hm]. Qed.

Lemma store8_eq m a v : store8 m a v a = u8 v.
Proof. unfold store8. by rewrite Z.eqb_refl. Qed.

Lemma store8_ne m a v x : x <> a -> store8 m a v x = m x.
Proof. intros H. unfold store8. by rewrite (proj2 (Z.eqb_neq _ _) H). Qed.

Create HintDb bytes discriminated.
#[export] Hint Resolve store8_ok : bytes.

(** ** Kernel routines *)

(** [for(i = 0; i < n; i++) cdst[i] = c;] *)
Fixpoint memset_loop (m : mem) (cdst c i : Z) (k : nat) : mem :=
  match k with
  | O => m
  | S k' => memset_loop (store8 m (cdst + i) c) cdst c (i + 1) k'
  end.
Definition memset (m : mem) (dst c n : Z) : mem := memset_loop m dst c 0 (Z.to_nat n).

(** [while(n-- > 0) { if( *s1 != *s2) return *s1 - *s2; s1++, s2++; }] *)
Fixpoint memcmp_loop (m : mem) (s1 s2 : Z) (n : nat) : Z :=
  match n with
  | O => 0
  | S n' => if m s1 =? m s2 then memcmp_loop m (s1 + 1) (s2 + 1) n' else m s1 - m s2
  end.
Definition memcmp (m : mem) (v1 v2 n : Z) : Z := memcmp_loop m v1 v2 (Z.to_nat n).

(** [while(n-- > 0) *d++ = *s++;] *)
Fixpoint copy_up (m : mem) (d s : Z) (n : nat) : mem :=
  match n with
  | O => m
  | S n' => copy_up (store8 m d (m s)) (d + 1) (s + 1) n'
  end.

(** [while(n-- > 0) *--d = *--s;] *)
Fixpoint copy_down (m : mem) (d s : Z) (n : nat) : mem :=
  match n with
  | O => m
  | S n' => copy_down (store8 m (d - 1) (m (s - 1))) (d - 1) (s - 1) n'
  end.

Definition memmove (m : mem) (dst src n : Z) : mem :=
  if n =? 0 then m
  else if (src <? dst) && (src + n >? dst)
       then copy_down m (dst + n) (src + n) (Z.to_nat n)
       else copy_up m dst src (Z.to_nat n).

Definition memcpy (m : mem) (dst src n : Z) : mem := memmove m dst src n.

Fixpoint strncmp (m : mem) (p q : Z) (n : nat) : Z :=
  match n with
  | O => 0
  | S n' =>
      if negb (m p =? 0) && (m p =? m q) then strncmp m (p + 1) (q + 1) n'
      else m p - m q
  end.

(** [while(n-- > 0 && ( *s++ = *t++) != 0) ;]: the memory, the final [s], and
    what is left of [n]. *)
Fixpoint strncpy_copy (m : mem) (s t : Z) (n : nat) : mem * Z * nat :=
  match n with
  | O => (m, s, O)
  | S n' =>
      let c := m t in
      let m' := store8 m s c in
      if u8 c =? 0 then (m', s + 1, n') else strncpy_copy m' (s + 1) (t + 1) n'
  end.

(** [while(n-- > 0) *s++ = 0;] *)
Fixpoint strncpy_pad (m : mem) (s : Z) (n : nat) : mem :=
  match n with
  | O => m
  | S n' => strncpy_pad (store8 m s 0) (s + 1) n'
  end.

Definition strncpy (m : mem) (s t n : Z) : mem :=
  let '(m', s', n') := strncpy_copy m s t (Z.to_nat n) in strncpy_pad m' s' n'.

(** [while(--n > 0 && ( *s++ = *t++) != 0) ; *s = 0;], entered with [k = n - 1]. *)
Fixpoint safestrcpy_loop (m : mem) (s t : Z) (k : nat) : mem :=
  match k with
  | O => store8 m s 0
  | S k' =>
      let c := m t in
      let m' := store8 m s c in
      if u8 c =? 0 then store8 m' (s + 1) 0 else safestrcpy_loop m' (s + 1) (t + 1) k'
  end.
Definition safestrcpy (m : mem) (s t n : Z) : mem :=
  if n <=? 0 then m else safestrcpy_loop m s t (Z.to_nat (n - 1)).

(** [for(n = 0; s[n]; n++) ;]: the loop has no bound in C; [fuel] bounds the
    bytes inspected and [None] means no NUL was met. *)
Fixpoint strlen_from (m : mem) (s n : Z) (fuel : nat) : option Z :=
  match fuel with
  | O => None
  | S fuel' => if m (s + n) =? 0 then Some n else strlen_from m s (n + 1) fuel'
  end.
Definition strlen (m : mem) (s : Z) (fuel : nat) : option Z := strlen_from m s 0 fuel.

(** ** User-library versions *)

Definition umemmove (m : mem) (vdst vsrc n : Z) : mem :=
  if vsrc >? vdst then copy_up m vdst vsrc (Z.to_nat n)
  else copy_down m (vdst + n) (vsrc + n) (Z.to_nat n).

Definition umemcpy (m : mem) (dst src n : Z) : mem := umemmove m dst src n.

(** [while(( *s++ = *t++) != 0) ;] *)
Fixpoint strcpy (m : mem) (s t : Z) (fuel : nat) : option mem :=
  match fuel with
  | O => None
  | S fuel' =>
      let c := m t in
      let m' := store8 m s c in
      if u8 c =? 0 then Some m' else strcpy m' (s + 1) (t + 1) fuel'
  end.

Fixpoint strcmp (m : mem) (p q : Z) (fuel : nat) : option Z :=
  match fuel with
  | O => None
  | S fuel' =>
      if negb (m p =? 0) && (m p =? m q) then strcmp m (p + 1) (q + 1) fuel'
      else Some (m p - m q)
  end.

(** [for(; *s; s++) if( *s == c) return s; return 0;] *)
Fixpoint strchr (m : mem) (s c : Z) (fuel : nat) : option Z :=
  match fuel with
  | O => None
  | S fuel' =>
      if m s =? 0 then Some 0 else if m s =? c then Some s else strchr m (s + 1) c fuel'
  end.

(** ** Abstract views *)

(** The C string at [p], cut at its NUL or after [n] bytes. *)
Fixpoint cstrn (m : mem) (p : Z) (n : nat) : list Z :=
  match n with
  | O => []
  | S n' => if m p =? 0 then [] else m p :: cstrn m (p + 1) n'
  end.

Lemma cstrn_ext m1 m2 p n :
  (forall i, 0 <= i < Z.of_nat n -> m1 (p + i) = m2 (p + i)) ->
  cstrn m1 p n = cstrn m2 p n.
Proof.
  revert p; induction n as [|n IH]; intros p H; [done|]. cbn [cstrn].
  pose proof (H 0) as H0. rewrite Z.add_0_r in H0. rewrite H0 by lia.
  destruct (m2 p =? 0); [done|]. f_equal. apply IH. intros i Hi.
  replace (p + 1 + i) with (p + (1 + i)) by lia. apply H. lia.
Qed.

Lemma cstrn_length m p n : (length (cstrn m p n) <= n)%nat.
Proof.
  revert p; induction n as [|n IH]; intros p; cbn; [done|].
  destruct (m p =? 0); cbn; [lia|]. specialize (IH (p + 1)). lia.
Qed.

(** ** Block copies *)

Lemma block_empty {A} lo hi x (a b : A) :
  hi <= lo -> (if (lo <=? x) && (x <? hi) then a else b) = b.
Proof. intros. destruct (Z.leb_spec lo x), (Z.ltb_spec x hi); cbn; lia || done. Qed.

Lemma copy_up_spec n : forall m d s, mem_ok m -> d <= s \/ s + Z.of_nat n <= d ->
  forall x, copy_up m d s n x =
    if (d <=? x) && (x <? d + Z.of_nat n) then m (s + (x - d)) else m x.
Proof.
  induction n as [|n IH]; intros m d s Hm Ho x.
  { cbn [copy_up]. by rewrite block_empty by lia. }
  cbn [copy_up]. rewrite IH; [|auto with bytes|lia].
  destruct (Z.eqb_spec x d) as [->|Hx].
  - destruct (Z.leb_spec (d + 1) d); [lia|]. cbn [andb].
    destruct (Z.leb_spec d d), (Z.ltb_spec d (d + Z.of_nat (S n))); try lia. cbn [andb].
    rewrite store8_eq, u8_small by apply Hm. f_equal. lia.
  - rewrite (store8_ne _ _ _ x) by done.
    destruct (Z.leb_spec d x), (Z.leb_spec (d + 1) x); cbn [andb]; try lia.
    destruct (Z.ltb_spec x (d + 1 + Z.of_nat n)), (Z.ltb_spec x (d + Z.of_nat (S n)));
      try lia.
    replace (s + 1 + (x - (d + 1))) with (s + (x - d)) by lia.
    destruct Ho; apply store8_ne; lia.
Qed.

Lemma copy_down_spec n : forall m d s, mem_ok m -> s <= d \/ d <= s - Z.of_nat n ->
  forall x, copy_down m d s n x =
    if (d - Z.of_nat n <=? x) && (x <? d) then m (s + (x - d)) else m x.
Proof.
  induction n as [|n IH]; intros m d s Hm Ho x.
  { cbn [copy_down]. by rewrite block_empty by lia. }
  cbn [copy_down]. rewrite IH; [|auto with bytes|lia].
  destruct (Z.eqb_spec x (d - 1)) as [->|Hx].
  - destruct (Z.ltb_spec (d - 1) (d - 1)); [lia|]. rewrite andb_false_r.
    destruct (Z.leb_spec (d - Z.of_nat (S n)) (d - 1)), (Z.ltb_spec (d - 1) d); try lia.
    cbn [andb]. rewrite store8_eq, u8_small by apply Hm. f_equal. lia.
  - rewrite (store8_ne _ _ _ x) by done.
    destruct (Z.ltb_spec x d), (Z.ltb_spec x (d - 1)); rewrite ?andb_false_r; try lia.
    destruct (Z.leb_spec (d - 1 - Z.of_nat n) x), (Z.leb_spec (d - Z.of_nat (S n)) x);
      cbn [andb]; try lia.
    replace (s - 1 + (x - (d - 1))) with (s + (x - d)) by lia.
    destruct Ho; apply store8_ne; lia.
Qed.

Lemma memmove_block m dst src n x : mem_ok m -> 0 <= n ->
  memmove m dst src n x =
    if (dst <=? x) && (x <? dst + n) then m (src + (x - dst)) else m x.
Proof.
  intros Hm Hn. unfold memmove.
  destruct (Z.eqb_spec n 0) as [->|Hn0]; [by rewrite block_empty by lia|].
  destruct (Z.ltb_spec src dst) as [H1|H1], (Z.gtb_spec (src + n) dst) as [H2|H2];
    cbn [andb];
    [rewrite copy_down_spec by (auto with lia)|rewrite copy_up_spec by (auto with lia) ..];
    rewrite ?Z2Nat.id by lia; try done; [].
  replace (dst + n - n) with dst by lia.
  by replace (src + n + (x - (dst + n))) with (src + (x - dst)) by lia.
Qed.

(** The kernel's [memmove] copies the original contents of the source
    block to the destination block and changes nothing else, for every overlap
    of the two blocks. *)
Theorem kernel_memmove_correct (m : mem) (dst src n : Z) :
  mem_ok m -> 0 <= n ->
  forall x, memmove m dst src n x =
    if (dst <=? x) && (x <? dst + n) then m (src + (x - dst)) else m x.
Proof. intros. by apply memmove_block. Qed.

(** A memory whose byte at [a] is [a mod 256], for witnesses. *)
Definition ramp : mem := fun a => a mod 2 ^ 8.
Lemma ramp_ok : mem_ok ramp.
Proof. intros a. apply u8_range. Qed.

Lemma kernel_memmove_correct_witness :
  mem_ok ramp /\ memmove ramp 10 8 4 11 = 9.
Proof.
  split; [exact ramp_ok|].
  rewrite (kernel_memmove_correct ramp 10 8 4 ramp_ok ltac:(lia)). reflexivity.
Defined.

(** The user library's [memmove], which chooses its direction by comparing
    the two pointers only, has the same effect as the kernel's. *)
Theorem user_memmove_agrees (m : mem) (dst src n : Z) :
  mem_ok m -> 0 <= n ->
  forall x, umemmove m dst src n x = memmove m dst src n x.
Proof.
  intros Hm Hn x. rewrite memmove_block by done. unfold umemmove.
  destruct (Z.gtb_spec src dst).
  - rewrite copy_up_spec, Z2Nat.id by (auto with lia). done.
  - rewrite copy_down_spec, Z2Nat.id by (auto with lia).
    replace (dst + n - n) with dst by lia.
    by replace (src + n + (x - (dst + n))) with (src + (x - dst)) by lia.
Qed.

Lemma user_memmove_agrees_witness :
  mem_ok ramp /\ umemmove ramp 8 10 4 9 = 11.
Proof.
  split; [exact ramp_ok|].
  rewrite (user_memmove_agrees ramp 8 10 4 ramp_ok ltac:(lia)). reflexivity.
Defined.

(** ** String copies and comparison *)

(** [apart s ns t nt]: the blocks [s, s+ns) and [t, t+nt) do not overlap. *)
Definition apart (s ns t nt : Z) : Prop := s + ns <= t \/ t + nt <= s.

(** [strncmp] returns 0 exactly when the two strings, cut at their NUL or
    after [n] bytes, are equal. *)
Theorem strncmp_zero_iff (m : mem) (p q : Z) (n : nat) :
  strncmp m p q n = 0 <-> cstrn m p n = cstrn m q n.
Proof.
  revert p q; induction n as [|n IH]; intros p q; [done|].
  cbn [strncmp cstrn].
  destruct (Z.eqb_spec (m p) 0) as [Hp|Hp]; cbn [negb andb].
  - rewrite Hp. destruct (Z.eqb_spec (m q) 0) as [Hq|Hq]; split; try done; lia.
  - destruct (Z.eqb_spec (m p) (m q)) as [Hpq|Hpq].
    + rewrite <- Hpq. rewrite (proj2 (Z.eqb_neq _ _) Hp), IH. split; congruence.
    + split; [lia|]. destruct (m q =? 0); congruence.
Qed.

Lemma strncpy_pad_spec n : forall m s x,
  strncpy_pad m s n x = if (s <=? x) && (x <? s + Z.of_nat n) then 0 else m x.
Proof.
  induction n as [|n IH]; intros m s x; cbn [strncpy_pad].
  { by rewrite block_empty by lia. }
  rewrite IH. unfold store8.
  destruct (Z.leb_spec (s + 1) x), (Z.ltb_spec x (s + 1 + Z.of_nat n)),
    (Z.leb_spec s x), (Z.ltb_spec x (s + Z.of_nat (S n))), (Z.eqb_spec x s);
    cbn [andb]; try done; lia.
Qed.

(** The copying loop of [strncpy] followed by its padding loop. *)
Lemma strncpy_loops n : forall m s t, mem_ok m -> apart s (Z.of_nat n) t (Z.of_nat n) ->
  forall x, (let '(m', s', n') := strncpy_copy m s t n in strncpy_pad m' s' n') x =
    if (s <=? x) && (x <? s + Z.of_nat n)
    then if x - s <? Z.of_nat (length (cstrn m t n)) then m (t + (x - s)) else 0
    else m x.
Proof.
  induction n as [|n IH]; intros m s t Hm Ha x; cbn [strncpy_copy cstrn].
  { cbn [strncpy_pad]. by rewrite block_empty by lia. }
  rewrite u8_small by apply Hm. unfold apart in *.
  destruct (Z.eqb_spec (m t) 0) as [Ht|Ht].
  - rewrite strncpy_pad_spec. cbn [length].
    unfold store8. rewrite Ht.
    destruct (Z.leb_spec (s + 1) x), (Z.ltb_spec x (s + 1 + Z.of_nat n)),
      (Z.leb_spec s x), (Z.ltb_spec x (s + Z.of_nat (S n))), (Z.eqb_spec x s),
      (Z.ltb_spec (x - s) (Z.of_nat 0)); cbn [andb]; try done; lia.
  - rewrite IH by (auto with bytes; lia). cbn [length].
    rewrite (cstrn_ext (store8 m s (m t)) m) by (intros; apply store8_ne; lia).
    destruct (Z.eqb_spec x s) as [->|Hx].
    + rewrite store8_eq, u8_small by apply Hm.
      rewrite (proj2 (Z.leb_gt (s + 1) s)) by lia. cbn [andb].
      rewrite Z.sub_diag, Z.add_0_r, Z.leb_refl.
      rewrite !(proj2 (Z.ltb_lt _ _)) by lia. done.
    + rewrite (store8_ne _ _ _ x) by done.
      destruct (Z.leb_spec (s + 1) x), (Z.ltb_spec x (s + 1 + Z.of_nat n)),
        (Z.leb_spec s x), (Z.ltb_spec x (s + Z.of_nat (S n))); cbn [andb]; try lia.
      pose proof (cstrn_length m (t + 1) n).
      destruct (Z.ltb_spec (x - (s + 1)) (Z.of_nat (length (cstrn m (t + 1) n)))),
        (Z.ltb_spec (x - s) (Z.of_nat (S (length (cstrn m (t + 1) n))))); try lia; [].
      replace (t + 1 + (x - (s + 1))) with (t + (x - s)) by lia.
      apply store8_ne. lia.
Qed.

(** [strncpy] fills exactly the [n] bytes of its destination: first the
    source string, then NULs; it does not terminate a string of [n] bytes or
    more. *)
Theorem strncpy_correct (m : mem) (s t n : Z) :
  mem_ok m -> 0 <= n -> apart s n t n ->
  forall x, strncpy m s t n x =
    if (s <=? x) && (x <? s + n)
    then if x - s <? Z.of_nat (length (cstrn m t (Z.to_nat n))) then m (t + (x - s)) else 0
    else m x.
Proof.
  intros Hm Hn Ha x. unfold strncpy. rewrite strncpy_loops; rewrite ?Z2Nat.id; done.
Qed.

Lemma strncpy_correct_witness :
  apart 1000 14 300 14 /\ strncpy ramp 1000 300 14 1013 = 57.
Proof.
  assert (H : apart 1000 14 300 14) by (unfold apart; lia). split; [exact H|].
  rewrite (strncpy_correct ramp 1000 300 14 ramp_ok ltac:(lia) H). reflexivity.
Defined.

Lemma safestrcpy_loop_spec k : forall m s t, mem_ok m ->
  apart s (Z.of_nat k + 1) t (Z.of_nat k + 1) ->
  let m' := safestrcpy_loop m s t k in
  cstrn m' s (S k) = cstrn m t k /\
  m' (s + Z.of_nat (length (cstrn m t k))) = 0 /\
  (forall x, x < s \/ s + Z.of_nat k + 1 <= x -> m' x = m x).
Proof.
  induction k as [|k IH]; intros m s t Hm Ha; unfold apart in *.
  { cbn. rewrite Z.add_0_r, store8_eq. repeat split; try done.
    intros x Hx. apply store8_ne. lia. }
  cbn [safestrcpy_loop]. rewrite u8_small by apply Hm.
  destruct (Z.eqb_spec (m t) 0) as [Ht|Ht].
  - assert (Hs : forall m0 v, store8 (store8 m0 s v) (s + 1) 0 s = u8 v).
    { intros. rewrite store8_ne by lia. apply store8_eq. }
    cbn zeta. cbn [cstrn]. rewrite Hs, Ht. cbn [Z.eqb u8 length].
    rewrite Z.add_0_r, Hs. repeat split; try done.
    intros x Hx. rewrite !store8_ne by lia. done.
  - destruct (IH (store8 m s (m t)) (s + 1) (t + 1)) as (H1 & H2 & H3);
      [auto with bytes|lia|].
    rewrite (cstrn_ext (store8 m s (m t)) m (t + 1)) in H1, H2
      by (intros; apply store8_ne; lia).
    cbn zeta. cbn [cstrn]. cbn [cstrn] in H1.
    rewrite (H3 s), store8_eq, u8_small, (proj2 (Z.eqb_neq _ _) Ht)
      by (apply Hm || lia).
    split; [by rewrite <- H1|]. split.
    + cbn [length]. rewrite <- H2. f_equal. lia.
    + intros x Hx. rewrite H3 by lia. apply store8_ne. lia.
Qed.

(** [safestrcpy] leaves in its destination the source string cut to
    [n - 1] bytes, NUL-terminated within the [n] bytes, and writes nowhere
    else. *)
Theorem safestrcpy_terminates_within (m : mem) (s t n : Z) :
  mem_ok m -> 0 < n -> apart s n t n ->
  let m' := safestrcpy m s t n in
  let src := cstrn m t (Z.to_nat (n - 1)) in
  cstrn m' s (Z.to_nat n) = src /\
  Z.of_nat (length src) < n /\
  m' (s + Z.of_nat (length src)) = 0 /\
  (forall x, x < s \/ s + n <= x -> m' x = m x).
Proof.
  intros Hm Hn Ha. unfold safestrcpy.
  rewrite (proj2 (Z.leb_gt n 0)) by lia.
  destruct (safestrcpy_loop_spec (Z.to_nat (n - 1)) m s t) as (H1 & H2 & H3);
    [done|rewrite Z2Nat.id by lia; by replace (n - 1 + 1) with n by lia|].
  rewrite Z2Nat.id in H3 by lia. cbn zeta.
  pose proof (cstrn_length m t (Z.to_nat (n - 1))).
  replace (Z.to_nat n) with (S (Z.to_nat (n - 1))) by lia.
  repeat split; [done|lia|done|]. intros x Hx. apply H3. lia.
Qed.

Lemma safestrcpy_terminates_within_witness :
  apart 1000 4 300 4 /\
  cstrn (safestrcpy ramp 1000 300 4) 1000 4 = [44; 45; 46].
Proof.
  assert (H : apart 1000 4 300 4) by (unfold apart; lia). split; [exact H|].
  apply (safestrcpy_terminates_within ramp 1000 300 4 ramp_ok ltac:(lia) H).
Defined.
