(* ===== verification/Kalloc.v ===== *)
(** * The physical page allocator: [kernel/kalloc.c]

    The allocator's state is the physical memory and the head of the free
    list; the links of the list live in the free pages themselves, as in the
    source ([r->next] is the 64-bit word at the page's address).  The linker
    symbol [end] is the parameter [kend].  Each function's critical section
    under [kmem.lock] is one atomic step.

    Theorems: [kalloc] and [kfree] refine pop and push on an abstract stack of
    pages, bad frees panic, [kinit] puts every whole page of the managed range
    on the list exactly once, and no interleaving of allocations, frees and
    client writes to owned pages loses, duplicates or overlaps a page. *)

From S2P Require Import Prelude CString.

Record kmem := mkkmem {
  pmem : mem;          (* physical memory *)
  freelist : Z         (* kmem.freelist, 0 for the null pointer *)
}.

Section Kalloc.
Context (kend : Z).

Definition kfree (pa : Z) : M kmem unit := fun s =>
  if negb (pa mod PGSIZE =? 0) || (pa <? kend) || (pa >=? PHYSTOP) then Panic "kfree"
  else
    let m := memset (pmem s) pa 1 PGSIZE in
    Done tt (mkkmem (store64 m pa (freelist s)) pa).

Definition kalloc : M kmem Z := fun s =>
  let r := freelist s in
  if r =? 0 then Done 0 s
  else
    let fl := load64 (pmem s) r in
    Done r (mkkmem (memset (pmem s) r 5 PGSIZE) fl).

(** [for(; p + PGSIZE <= pa_end; p += PGSIZE) kfree(p);] with a bound on the
    number of iterations. *)
Fixpoint freerange_loop (p pa_end : Z) (fuel : nat) : M kmem unit :=
  match fuel with
  | O => ret tt
  | S fuel' =>
      if p + PGSIZE <=? pa_end
      then kfree p ;; freerange_loop (p + PGSIZE) pa_end fuel'
      else ret tt
  end.

(** The loop runs at most once per page of the range. *)
Definition freerange (pa_start pa_end : Z) : M kmem unit :=
  let p := PGROUNDUP pa_start in
  freerange_loop p pa_end (Z.to_nat ((pa_end - p) / PGSIZE + 1)).

Definition kinit : M kmem unit := freerange kend PHYSTOP.

(** ** The abstract free list *)

Definition managed (pa : Z) : Prop :=
  page_aligned pa /\ 0 < pa /\ kend <= pa < PHYSTOP.

(** [free_pages m h l]: following the links from [h] visits the pages [l]. *)
Inductive free_pages (m : mem) : Z -> list Z -> Prop :=
| free_pages_nil : free_pages m 0 []
| free_pages_cons pa l :
    managed pa -> free_pages m (load64 m pa) l -> free_pages m pa (pa :: l).

Definition kmem_inv (s : kmem) (l : list Z) : Prop :=
  mem_ok (pmem s) /\ free_pages (pmem s) (freelist s) l /\ NoDup l.

Lemma memset_loop_spec k : forall m d c i, forall x,
  memset_loop m d c i k x =
    if (d + i <=? x) && (x <? d + i + Z.of_nat k) then u8 c else m x.
Proof.
  induction k as [|k IH]; intros m d c i x; cbn [memset_loop].
  { by rewrite block_empty by lia. }
  rewrite IH. unfold store8.
  destruct (Z.leb_spec (d + (i + 1)) x), (Z.ltb_spec x (d + (i + 1) + Z.of_nat k)),
    (Z.leb_spec (d + i) x), (Z.ltb_spec x (d + i + Z.of_nat (S k))),
    (Z.eqb_spec x (d + i)); cbn [andb]; try done; lia.
Qed.

Lemma memset_spec m d c n x : 0 <= n ->
  memset m d c n x = if (d <=? x) && (x <? d + n) then u8 c else m x.
Proof.
  intros. unfold memset.
  by rewrite memset_loop_spec, Z.add_0_r, Z2Nat.id by lia.
Qed.

#[global] Opaque memset.

Lemma memset_ok m d c n : 0 <= n -> mem_ok m -> mem_ok (memset m d c n).
Proof.
  intros Hn Hm x. rewrite memset_spec by done.
  destruct ((d <=? x) && (x <? d + n)); [apply u8_range | apply Hm].
Qed.

Lemma memset_in m d c n x :
  0 <= n -> d <= x < d + n -> memset m d c n x = u8 c.
Proof.
  intros. rewrite memset_spec by done.
  by rewrite (proj2 (Z.leb_le _ _)), (proj2 (Z.ltb_lt _ _)) by lia.
Qed.

Lemma memset_out m d c n x :
  0 <= n -> x < d \/ d + n <= x -> memset m d c n x = m x.
Proof.
  intros. rewrite memset_spec by done.
  destruct (Z.leb_spec d x), (Z.ltb_spec x (d + n)); cbn; lia || done.
Qed.

Lemma store64_ok m a v : mem_ok m -> mem_ok (store64 m a v).
Proof.
  intros Hm x. unfold store64.
  destruct ((a <=? x) && (x <? a + 8)); [|apply Hm].
  unfold byte_of. apply Z.mod_pos_bound. lia.
Qed.

(** The list is unaffected by writes outside its pages. *)
Lemma free_pages_frame m m' h l :
  free_pages m h l ->
  (forall pa i, In pa l -> 0 <= i < PGSIZE -> m' (pa + i) = m (pa + i)) ->
  free_pages m' h l.
Proof.
  induction 1 as [|pa l Hpa Hl IH]; intros Hf; constructor; [done|].
  rewrite (load64_ext m' m pa).
  - apply IH. intros pb i Hb Hi. apply Hf; [by right|done].
  - intros i Hi. apply Hf; [by left|lia_pages].
Qed.

Lemma free_pages_managed m h l pa : free_pages m h l -> In pa l -> managed pa.
Proof. induction 1; intros Hin; destruct Hin; subst; auto. Qed.

Lemma free_pages_head m h l : free_pages m h l -> h = 0 <-> l = [].
Proof. destruct 1 as [|pa l [_ [H _]]]; split; intros; try done. lia. Qed.

Lemma managed_range pa : managed pa -> 0 <= pa < 2 ^ 64.
Proof. intros (_ & ? & ?). lia_pages. Qed.

(** A page other than [pb] is untouched by a change confined to [pb]. *)
Lemma other_page_out pa pb i :
  managed pa -> managed pb -> pa <> pb -> 0 <= i < PGSIZE ->
  pa + i < pb \/ pb + PGSIZE <= pa + i.
Proof.
  intros [Ha _] [Hb _] Hne Hi. apply (page_aligned_apart pa pb); try done. lia.
Qed.

Lemma kfree_push s l pa :
  kmem_inv s l -> managed pa -> pa ∉ l ->
  exists s', kfree pa s = Done tt s' /\ kmem_inv s' (pa :: l) /\
    (forall x, x < pa \/ pa + PGSIZE <= x -> pmem s' x = pmem s x).
Proof.
  intros (Hm & Hl & Hnd) Hpa Hni.
  assert (Hout : forall x, x < pa \/ pa + PGSIZE <= x ->
    store64 (memset (pmem s) pa 1 PGSIZE) pa (freelist s) x = pmem s x).
  { intros x Hx. rewrite store64_out, memset_out by lia_pages. done. }
  assert (Hfl : 0 <= freelist s < 2 ^ 64).
  { destruct Hl as [|pb l' Hpb _]; [lia|by apply managed_range]. }
  destruct Hpa as (Hal & Hpos & Hlo & Hhi). unfold kfree, page_aligned in *.
  rewrite Hal, (proj2 (Z.ltb_ge pa kend)) by lia.
  rewrite Z.geb_leb, (proj2 (Z.leb_gt PHYSTOP pa)) by lia.
  cbn [negb orb Z.eqb]. eexists; split; [done|]. cbn [pmem freelist].
  split; [|done]. split; [|split].
  - cbn [pmem]. apply store64_ok, memset_ok; [lia_pages|done].
  - cbn [pmem freelist]. constructor; [done|]. rewrite load_store64 by done.
    eapply free_pages_frame; [done|]. intros pb i Hb Hi. apply Hout.
    eapply other_page_out; [by eapply free_pages_managed|done| |done].
    intros ->. by apply Hni, list_elem_of_In.
  - by constructor.
Qed.

Lemma kalloc_pop s pa l :
  kmem_inv s (pa :: l) ->
  exists s', kalloc s = Done pa s' /\ kmem_inv s' l /\
    (forall x, x < pa \/ pa + PGSIZE <= x -> pmem s' x = pmem s x) /\
    (forall x, pa <= x < pa + PGSIZE -> pmem s' x = 5).
Proof.
  intros (Hm & Hl & Hnd). inversion Hl as [|? ? Hpa Hl' Heq]; subst.
  apply NoDup_cons in Hnd as [Hni Hnd].
  unfold kalloc. rewrite (proj2 (Z.eqb_neq _ _)) by (destruct Hpa; lia).
  eexists; split; [done|]. cbn [pmem freelist].
  assert (Hout : forall x, x < freelist s \/ freelist s + PGSIZE <= x ->
    memset (pmem s) (freelist s) 5 PGSIZE x = pmem s x)
    by (intros; apply memset_out; [lia_pages|done]).
  split; [split; [|split]|split]; cbn [pmem freelist]; [| |done|done|].
  - by apply memset_ok.
  - eapply free_pages_frame; [done|]. intros pb i Hb Hi. apply Hout.
    eapply other_page_out; [by eapply free_pages_managed|done| |done].
    intros ->. by apply Hni, list_elem_of_In.
  - intros x Hx. by rewrite memset_in.
Qed.

Lemma kalloc_empty s : kmem_inv s [] -> kalloc s = Done 0 s.
Proof.
  intros (_ & Hl & _). inversion Hl as [Heq|]. unfold kalloc. by rewrite <- Heq.
Qed.

(** ** Refinement of the abstract stack *)

(** [kalloc] pops the abstract free list: it returns the null pointer only
    when no page is free; otherwise the head page, filled with the junk byte 5,
    while every byte outside that page keeps its value. *)
Theorem kalloc_refines_pop (s : kmem) (l : list Z) :
  kmem_inv s l ->
  match l with
  | [] => kalloc s = Done 0 s
  | pa :: l' =>
      exists s', kalloc s = Done pa s' /\ kmem_inv s' l' /\ managed pa /\
        (forall x, x < pa \/ pa + PGSIZE <= x -> pmem s' x = pmem s x) /\
        (forall x, pa <= x < pa + PGSIZE -> pmem s' x = 5)
  end.
Proof.
  intros Hs. destruct l as [|pa l]; [by apply kalloc_empty|].
  destruct (kalloc_pop s pa l Hs) as (s' & H1 & H2 & H3 & H4).
  exists s'. repeat split; try done; try apply H2.
  all: destruct Hs as (_ & Hl & _); inversion Hl as [|? ? (? & ? & ?)]; subst; done || lia.
Qed.

(** [kfree] of a managed page that is not already free pushes it, and
    panics on an address that is unaligned, below [end] or above [PHYSTOP]. *)
Theorem kfree_refines_push (s : kmem) (l : list Z) (pa : Z) :
  kmem_inv s l -> 0 < kend ->
  (managed pa -> pa ∉ l ->
     exists s', kfree pa s = Done tt s' /\ kmem_inv s' (pa :: l) /\
       (forall x, x < pa \/ pa + PGSIZE <= x -> pmem s' x = pmem s x)) /\
  (~ managed pa -> kfree pa s = Panic "kfree").
Proof.
  intros Hs Hk. split; [by apply kfree_push|]. intros Hn. unfold kfree.
  destruct (Z.eqb_spec (pa mod PGSIZE) 0) as [Ha|]; [|done].
  destruct (Z.ltb_spec pa kend); [done|].
  rewrite Z.geb_leb. destruct (Z.leb_spec PHYSTOP pa); [done|].
  exfalso. apply Hn. repeat split; done || lia.
Qed.

(** ** Initialisation *)

(** The whole pages of a range, in the order [freerange] visits them. *)
Definition pages_from (p : Z) (n : nat) : list Z :=
  (fun i => p + Z.of_nat i * PGSIZE) <$> seq 0 n.

Lemma pages_from_S p n : pages_from p (S n) = p :: pages_from (p + PGSIZE) n.
Proof.
  unfold pages_from. cbn [seq fmap list_fmap]. f_equal; [lia|].
  rewrite <- fmap_S_seq, <- list_fmap_compose. apply list_fmap_ext. intros i x _. cbn. lia_pages.
Qed.

Lemma elem_of_pages_from p n x :
  x ∈ pages_from p n <-> exists i : nat, (i < n)%nat /\ x = p + Z.of_nat i * PGSIZE.
Proof.
  unfold pages_from. rewrite list_elem_of_fmap. setoid_rewrite elem_of_seq.
  split; intros (i & H1 & H2); exists i; split; done || lia.
Qed.

Lemma managed_step p n i :
  page_aligned p -> 0 < p -> kend <= p -> p + Z.of_nat n * PGSIZE <= PHYSTOP ->
  (i < n)%nat -> managed (p + Z.of_nat i * PGSIZE).
Proof.
  intros Ha H0 Hk Hn Hi. unfold managed, page_aligned in *.
  rewrite Z.mod_add by lia_pages. repeat split; done || lia_pages.
Qed.

Lemma freerange_loop_spec n : forall fuel s l p pa_end,
  kmem_inv s l -> page_aligned p -> 0 < p -> kend <= p -> pa_end <= PHYSTOP ->
  p + Z.of_nat n * PGSIZE <= pa_end < p + (Z.of_nat n + 1) * PGSIZE ->
  (n < fuel)%nat -> (forall x, x ∈ l -> x < p) ->
  exists s', freerange_loop p pa_end fuel s = Done tt s' /\
    kmem_inv s' (reverse (pages_from p n) ++ l).
Proof.
  induction n as [|n IH]; intros fuel s l p pa_end Hs Ha H0 Hk He Hn Hf Hl;
    destruct fuel as [|fuel]; try lia; cbn [freerange_loop].
  { rewrite (proj2 (Z.leb_gt _ _)) by lia_pages. by exists s. }
  rewrite (proj2 (Z.leb_le _ _)) by lia_pages.
  destruct (kfree_push s l p) as (s1 & Hs1 & Hi1 & _); [done| | |].
  { pose proof (managed_step p 1 0) as Hm. rewrite Z.add_0_r in Hm.
    apply Hm; done || lia_pages. }
  { intros Hin. apply Hl in Hin. lia. }
  rewrite (bind_Done _ _ _ _ _ Hs1).
  destruct (IH fuel s1 (p :: l) (p + PGSIZE) pa_end) as (s2 & Hs2 & Hi2);
    try done; try lia_pages.
  - unfold page_aligned in *. rewrite <- (Z.mul_1_l PGSIZE) at 1.
    rewrite Z.mod_add by lia_pages. done.
  - intros x [->|Hx]%elem_of_cons; [lia_pages|]. apply Hl in Hx. lia_pages.
  - exists s2. split; [done|]. by rewrite pages_from_S, reverse_cons, <- app_assoc.
Qed.

(** [kinit] on an empty list frees every whole page between [end] and
    [PHYSTOP] exactly once and never panics; the list ends up in descending
    address order. *)
Theorem kinit_frees_all_pages (m : mem) :
  mem_ok m -> KERNBASE <= kend <= PHYSTOP ->
  let base := PGROUNDUP kend in
  let npages := Z.to_nat ((PHYSTOP - base) / PGSIZE) in
  exists s', kinit (mkkmem m 0) = Done tt s' /\
    kmem_inv s' (reverse (pages_from base npages)) /\
    (forall pa, managed pa -> pa ∈ pages_from base npages).
Proof.
  intros Hm Hk base npages.
  assert (Hb : base = (kend + PGSIZE - 1) / PGSIZE * PGSIZE)
    by (apply pgroundup_eq; lia_pages).
  pose proof (Z.div_mod (kend + PGSIZE - 1) PGSIZE ltac:(lia_pages)) as Hd1.
  pose proof (Z.mod_pos_bound (kend + PGSIZE - 1) PGSIZE ltac:(lia_pages)) as Hd2.
  assert (Hba : page_aligned base) by (rewrite Hb; apply Z.mod_mul; lia_pages).
  assert (Hrange : kend <= base <= PHYSTOP).
  { rewrite Hb. unfold PHYSTOP, KERNBASE, PGSIZE in *. lia. }
  unfold kinit, freerange. fold base.
  assert (Hn : Z.of_nat npages = (PHYSTOP - base) / PGSIZE).
  { subst npages. apply Z2Nat.id, Z.div_pos; lia_pages. }
  clearbody base npages. rewrite <- Hn.
  pose proof (Z.div_mod (PHYSTOP - base) PGSIZE ltac:(lia_pages)) as Hd3.
  pose proof (Z.mod_pos_bound (PHYSTOP - base) PGSIZE ltac:(lia_pages)) as Hd4.
  destruct (freerange_loop_spec npages (Z.to_nat (Z.of_nat npages + 1))
    (mkkmem m 0) [] base PHYSTOP) as (s' & Hs' & Hi); try lia_pages; [|done| |].
  { split; [done|]. split; constructor. }
  { intros x Hx. by apply elem_of_nil in Hx. }
  rewrite app_nil_r in Hi. exists s'. split; [done|]. split; [done|].
  intros pa (Hpa & Hp0 & Hp1). apply elem_of_pages_from.
  unfold page_aligned in Hba, Hpa.
  pose proof (Z.div_mod pa PGSIZE ltac:(lia_pages)).
  pose proof (Z.div_mod base PGSIZE ltac:(lia_pages)).
  exists (Z.to_nat (pa / PGSIZE - base / PGSIZE)). lia_pages.
Qed.

(** ** Clients *)

(** What the rest of the kernel can do with the allocator: allocate, free a
    page it owns, and write to pages it owns. *)
Inductive kstep : kmem * list Z -> kmem * list Z -> Prop :=
| kstep_alloc s owned pa s' :
    kalloc s = Done pa s' -> pa <> 0 -> kstep (s, owned) (s', pa :: owned)
| kstep_alloc_fail s owned s' :
    kalloc s = Done 0 s' -> kstep (s, owned) (s', owned)
| kstep_free s owned1 pa owned2 s' :
    kfree pa s = Done tt s' -> kstep (s, owned1 ++ pa :: owned2) (s', owned1 ++ owned2)
| kstep_write s owned pa i v :
    pa ∈ owned -> 0 <= i < PGSIZE ->
    kstep (s, owned) (mkkmem (store8 (pmem s) (pa + i) v) (freelist s), owned).

(** The free list and the owned pages partition the managed pages. *)
Definition partition_inv (pages : list Z) (st : kmem * list Z) : Prop :=
  exists free, kmem_inv st.1 free /\ st.2 ++ free ≡ₚ pages.

Section Partition.
Context (pages : list Z) (Hnd : NoDup pages) (Hman : forall pa, pa ∈ pages -> managed pa).

Lemma kstep_preserves st st' :
  kstep st st' -> partition_inv pages st -> partition_inv pages st'.
Proof.
  intros Hstep (free & Hs & Hp). destruct Hstep as
    [s owned pa s' Ha Hpa|s owned s' Ha|s owned1 pa owned2 s' Hf|s owned pa i v Hin Hi];
    cbn [fst snd] in *.
  - destruct free as [|pb free].
    { rewrite kalloc_empty in Ha by done. congruence. }
    destruct (kalloc_pop s pb free Hs) as (s1 & Ha1 & Hs1 & _).
    assert (pb = pa /\ s1 = s') as [-> ->] by (split; congruence).
    exists free. split; [done|]. cbn. rewrite <- Hp. by rewrite Permutation_middle.
  - destruct free as [|pb free].
    { rewrite kalloc_empty in Ha by done. simplify_eq. by exists []. }
    destruct (kalloc_pop s pb free Hs) as (s1 & Ha1 & _).
    assert (pb = 0) by congruence. subst. destruct Hs as (_ & Hl & _).
    inversion Hl as [|? ? (_ & ? & _)]; lia.
  - assert (managed pa /\ pa ∉ free) as [Hm Hni].
    { split; [apply Hman; rewrite <- Hp; set_solver|].
      rewrite <- Hp in Hnd. apply NoDup_app in Hnd as (_ & Hd & _). apply Hd. set_solver. }
    destruct (kfree_push s free pa) as (s1 & Hs1 & Hi1 & _); [done|done|done|].
    assert (s1 = s') as -> by congruence.
    exists (pa :: free). split; [done|]. cbn. rewrite <- Hp.
    rewrite <- !app_assoc. cbn. by rewrite <- Permutation_middle, Permutation_middle.
  - exists free. split; [|done]. destruct Hs as (Hm & Hl & Hn).
    split; [by apply store8_ok|split; [|done]]. cbn [pmem freelist].
    eapply free_pages_frame; [done|]. intros pb j Hb Hj. apply store8_ne.
    assert (pb <> pa).
    { intros ->. rewrite <- Hp in Hnd. apply NoDup_app in Hnd as (_ & Hd & _).
      apply (Hd pa); [done|by apply list_elem_of_In]. }
    assert (managed pa) by (apply Hman; rewrite <- Hp; set_solver).
    destruct (other_page_out pb pa j); try done; [by eapply free_pages_managed|lia|lia].
Qed.

End Partition.

(** C8: whatever sequence of allocations, frees and writes to owned pages the
    kernel performs after [kinit], the pages it owns and the free pages always
    partition the managed pages: no page is handed out twice, lost, or leaked
    to the free list while in use. *)
Theorem allocator_never_aliases (pages : list Z) (s0 : kmem) (st : kmem * list Z) :
  kmem_inv s0 pages -> rtc kstep (s0, []) st ->
  exists free, kmem_inv st.1 free /\ st.2 ++ free ≡ₚ pages /\ NoDup (st.2 ++ free).
Proof.
  intros Hs0 Hrtc.
  assert (Hnd : NoDup pages) by apply Hs0.
  assert (Hman : forall pa, pa ∈ pages -> managed pa).
  { intros pa Hpa. destruct Hs0 as (_ & Hl & _).
    eapply free_pages_managed; [done|by apply list_elem_of_In]. }
  assert (Hinv : partition_inv pages (s0, [])) by (by exists pages).
  remember (s0, []) as st0. clear Heqst0.
  induction Hrtc as [st|st st1 st2 Hstep _ IH].
  - destruct Hinv as (free & H1 & H2). exists free. repeat split; try apply H1; try done.
    by rewrite H2.
  - apply IH. by eapply kstep_preserves.
Qed.

End Kalloc.

(** ** Concrete instances *)

(** A machine whose kernel image ends one page below [PHYSTOP]. *)
Definition kend1 : Z := PHYSTOP - PGSIZE.
Definition one_page : kmem := mkkmem (store64 ramp kend1 0) kend1.

Lemma one_page_inv : kmem_inv kend1 one_page [kend1].
Proof.
  split; [apply store64_ok, ramp_ok|]. split; [|apply NoDup_singleton].
  constructor.
  - repeat split; unfold kend1; lia_pages.
  - cbn [one_page pmem freelist]. rewrite load_store64 by lia. constructor.
Qed.

Lemma kalloc_refines_pop_witness :
  exists s', kalloc one_page = Done kend1 s' /\ kmem_inv kend1 s' [].
Proof.
  destruct (kalloc_refines_pop kend1 one_page [kend1] one_page_inv) as (s' & H1 & H2 & _).
  exists s'. split; [exact H1|exact H2].
Defined.

Lemma kfree_refines_push_witness :
  kmem_inv kend1 (mkkmem ramp 0) [] /\
  (exists s', kfree kend1 kend1 (mkkmem ramp 0) = Done tt s' /\ kmem_inv kend1 s' [kend1]) /\
  kfree kend1 (kend1 + 8) (mkkmem ramp 0) = Panic "kfree".
Proof.
  assert (H : kmem_inv kend1 (mkkmem ramp 0) []).
  { split; [exact ramp_ok|]. split; constructor. }
  destruct (kfree_refines_push kend1 (mkkmem ramp 0) [] kend1 H) as [H1 _].
  { unfold kend1; lia_pages. }
  destruct (kfree_refines_push kend1 (mkkmem ramp 0) [] (kend1 + 8) H) as [_ H2].
  { unfold kend1; lia_pages. }
  split; [exact H|]. split.
  - destruct H1 as (s' & ? & ? & _); [|apply not_elem_of_nil|by exists s'].
    repeat split; unfold kend1; lia_pages.
  - apply H2. intros [Ha _]. vm_compute in Ha. discriminate Ha.
Defined.

Lemma kinit_frees_all_pages_witness :
  exists s', kinit kend1 (mkkmem ramp 0) = Done tt s' /\
    kmem_inv kend1 s' (reverse (pages_from kend1 1)).
Proof.
  destruct (kinit_frees_all_pages kend1 ramp ramp_ok) as (s' & H1 & H2 & _).
  { unfold kend1; lia_pages. }
  exists s'. split; [exact H1|]. exact H2.
Defined.

Lemma allocator_never_aliases_witness :
  exists s' free, rtc (kstep kend1) (one_page, []) (s', [kend1]) /\
    kmem_inv kend1 s' free /\ [kend1] ++ free ≡ₚ [kend1].
Proof.
  destruct (kalloc_pop kend1 one_page kend1 [] one_page_inv) as (s' & H1 & _).
  assert (Hr : rtc (kstep kend1) (one_page, []) (s', [kend1])).
  { apply rtc_once. constructor; [exact H1|]. unfold kend1; lia_pages. }
  destruct (allocator_never_aliases kend1 [kend1] one_page (s', [kend1]) one_page_inv Hr)
    as (free & H2 & H3 & _).
  exists s', free. split; [exact Hr|]. split; [exact H2|exact H3].
Defined.
