(* ===== verification/Spinlock.v ===== *)
(** * Spin locks and interrupt masking: [kernel/spinlock.c]

    The machine has any number of CPUs and locks.  [push_off]/[pop_off] act on
    a CPU's [noff], [intena] and interrupt-enable flag.  [acquire] and
    [release] are split at the points where another CPU can interleave: the
    entry check, the atomic swap on [lk->locked] (which may fail and spin), and
    the plain stores to [lk->cpu].  [step] interleaves these phases over all
    CPUs.

    Theorems: mutual exclusion at every interleaving, [holding] is exact even
    though it reads a field other CPUs write, [noff] counts the locks held,
    interrupts stay off while any lock is held, and the phases of a correct
    client never reach a panic of [pop_off]. *)

From S2P Require Import Prelude.

(** [struct spinlock]; [cpu] is the debugging owner field. *)
Record spinlock := mkspinlock { locked : bool; lk_cpu : option nat }.

(** The part of [struct cpu] that [push_off] uses, with the hart's SIE flag. *)
Record cpu := mkcpu { noff : Z; intena : bool; intr : bool }.

Definition initlock : spinlock := mkspinlock false None.

Definition holding (lk : spinlock) (c : nat) : bool :=
  locked lk && bool_decide (lk_cpu lk = Some c).

Definition push_off (c : cpu) : cpu :=
  let old := intr c in
  mkcpu (noff c + 1) (if noff c =? 0 then old else intena c) false.

Definition pop_off (c : cpu) : result cpu unit :=
  if intr c then Panic "pop_off - interruptible"
  else if noff c <? 1 then Panic "pop_off"
  else
    let n := noff c - 1 in
    Done tt (mkcpu n (intena c) (if (n =? 0) && intena c then true else intr c)).

(** Where a CPU stands between the atomic actions of [acquire]/[release]. *)
Inductive phase :=
| Run                      (* outside acquire and release *)
| AcqSpin (l : nat)        (* in the test-and-set loop of acquire(l) *)
| AcqSet (l : nat)         (* swap succeeded, lk->cpu not yet set *)
| RelUnlock (l : nat)      (* lk->cpu cleared, lk->locked not yet *)
| RelPop (l : nat).        (* lk->locked cleared, pop_off pending *)

Record machine := mkmachine {
  locks : nat -> spinlock;
  cpus : nat -> cpu;
  pc : nat -> phase;
  owns : nat -> list nat   (* locks each CPU has acquired and not released *)
}.

(** First part of [acquire]: [push_off(); if(holding(lk)) panic("acquire");] *)
Definition acquire_enter (c l : nat) (s : machine) : result machine unit :=
  let cpus' := upd (cpus s) c (push_off (cpus s c)) in
  if holding (locks s l) c then Panic "acquire"
  else Done tt (mkmachine (locks s) cpus' (upd (pc s) c (AcqSpin l)) (owns s)).

(** One [__sync_lock_test_and_set(&lk->locked, 1)]: leaves the loop when the old
    value was 0. *)
Definition acquire_swap (c l : nat) (s : machine) : machine :=
  if locked (locks s l) then s
  else mkmachine (upd (locks s) l (mkspinlock true (lk_cpu (locks s l))))
         (cpus s) (upd (pc s) c (AcqSet l)) (owns s).

(** [lk->cpu = mycpu();] *)
Definition acquire_set (c l : nat) (s : machine) : machine :=
  mkmachine (upd (locks s) l (mkspinlock (locked (locks s l)) (Some c)))
    (cpus s) (upd (pc s) c Run) (upd (owns s) c (l :: owns s c)).

(** [if(!holding(lk)) panic("release"); lk->cpu = 0;] *)
Definition release_enter (c l : nat) (s : machine) : result machine unit :=
  if negb (holding (locks s l) c) then Panic "release"
  else Done tt (mkmachine (upd (locks s) l (mkspinlock (locked (locks s l)) None))
         (cpus s) (upd (pc s) c (RelUnlock l))
         (upd (owns s) c (filter (fun l' => l' <> l) (owns s c)))).

(** [__sync_lock_release(&lk->locked);] *)
Definition release_unlock (c l : nat) (s : machine) : machine :=
  mkmachine (upd (locks s) l (mkspinlock false (lk_cpu (locks s l))))
    (cpus s) (upd (pc s) c (RelPop l)) (owns s).

(** [pop_off();] *)
Definition release_pop (c : nat) (s : machine) : result machine unit :=
  match pop_off (cpus s c) with
  | Done _ k => Done tt (mkmachine (locks s) (upd (cpus s) c k) (upd (pc s) c Run) (owns s))
  | Panic msg => Panic msg
  end.

(** Interleaving of all CPUs.  Clients call [acquire] and [release] in any
    order (misuse ends in a panic, not in a step) and toggle interrupts only
    outside critical sections, as [intr_on] and [intr_off] are used. *)
Inductive step : machine -> machine -> Prop :=
| step_acquire_enter c l s s' :
    pc s c = Run -> acquire_enter c l s = Done tt s' -> step s s'
| step_acquire_swap c l s :
    pc s c = AcqSpin l -> step s (acquire_swap c l s)
| step_acquire_set c l s :
    pc s c = AcqSet l -> step s (acquire_set c l s)
| step_release_enter c l s s' :
    pc s c = Run -> release_enter c l s = Done tt s' -> step s s'
| step_release_unlock c l s :
    pc s c = RelUnlock l -> step s (release_unlock c l s)
| step_release_pop c l s s' :
    pc s c = RelPop l -> release_pop c s = Done tt s' -> step s s'
| step_intr c b s :
    pc s c = Run -> noff (cpus s c) = 0 ->
    step s (mkmachine (locks s)
      (upd (cpus s) c (mkcpu (noff (cpus s c)) (intena (cpus s c)) b)) (pc s) (owns s)).

(** All locks initialised, no CPU in a critical section. *)
Definition initial (s : machine) : Prop :=
  (forall l, locks s l = initlock) /\ (forall c, pc s c = Run) /\
  (forall c, owns s c = []) /\ (forall c, noff (cpus s c) = 0).

Definition reachable (s : machine) : Prop := exists s0, initial s0 /\ rtc step s0 s.

(** CPU [c] is between the successful swap and the clearing of [locked]. *)
Definition critical (s : machine) (c l : nat) : Prop :=
  l ∈ owns s c \/ pc s c = AcqSet l \/ pc s c = RelUnlock l.

(** Depth that the phase adds to the locks owned. *)
Definition pending (p : phase) : Z := match p with Run => 0 | _ => 1 end.

Record inv (s : machine) : Prop := {
  inv_excl c c' l : critical s c l -> critical s c' l -> c = c';
  inv_locked l : locked (locks s l) = true <-> exists c, critical s c l;
  inv_owner c l : lk_cpu (locks s l) = Some c <-> l ∈ owns s c;
  inv_set_new c l : pc s c = AcqSet l \/ pc s c = RelUnlock l -> l ∉ owns s c;
  inv_nodup c : NoDup (owns s c);
  inv_noff c : noff (cpus s c) = Z.of_nat (length (owns s c)) + pending (pc s c);
  inv_intr c : 0 < noff (cpus s c) -> intr (cpus s c) = false
}.

(** ** The invariant *)

Lemma inv_initial s : initial s -> inv s.
Proof.
  intros (Hl & Hp & Ho & Hn). split; unfold critical; intros.
  - rewrite Ho, Hp in *. set_solver.
  - rewrite Hl. split; [done|]. intros [c H]. rewrite Ho, Hp in H. set_solver.
  - rewrite Hl, Ho. split; [done|set_solver].
  - rewrite Hp in *. naive_solver.
  - rewrite Ho. constructor.
  - by rewrite Hn, Ho, Hp.
  - rewrite Hn in *. lia.
Qed.

(** A step that does not change [critical], the owner fields or [owns]. *)
Lemma inv_same s s' :
  inv s -> (forall c l, critical s' c l <-> critical s c l) -> locks s' = locks s ->
  owns s' = owns s ->
  (forall c l, pc s' c = AcqSet l \/ pc s' c = RelUnlock l ->
     pc s c = AcqSet l \/ pc s c = RelUnlock l) ->
  (forall c, noff (cpus s' c) = Z.of_nat (length (owns s c)) + pending (pc s' c)) ->
  (forall c, 0 < noff (cpus s' c) -> intr (cpus s' c) = false) ->
  inv s'.
Proof.
  intros [H1 H2 H3 H4 H5 H6 H7] Hc Hl Ho Hp Hn Hi. split; rewrite ?Hl, ?Ho; auto.
  - intros c c' l. rewrite !Hc. apply H1.
  - intros l. setoid_rewrite Hc. apply H2.
Qed.

Lemma acquire_enter_inv c l s s' :
  inv s -> pc s c = Run -> acquire_enter c l s = Done tt s' -> inv s'.
Proof.
  intros Hi Hc He. unfold acquire_enter in He.
  destruct (holding (locks s l) c); simplify_eq. pose proof Hi as [_ _ _ _ _ H6 H7].
  apply (inv_same s); try done; cbn; unfold critical; cbn; intros; upd_case; cbn; auto.
  - rewrite Hc. naive_solver.
  - naive_solver.
  - rewrite H6, Hc. cbn. lia.
Qed.

Lemma acquire_swap_inv c l s : inv s -> pc s c = AcqSpin l -> inv (acquire_swap c l s).
Proof.
  intros Hi Hc. unfold acquire_swap. destruct (locked (locks s l)) eqn:Hl; [done|].
  destruct Hi as [H1 H2 H3 H4 H5 H6 H7].
  assert (Hno : forall c', ~ critical s c' l).
  { intros c' Hc'. assert (locked (locks s l) = true) by (apply H2; eauto). congruence. }
  assert (Hcr : forall c' l', critical (mkmachine
    (upd (locks s) l (mkspinlock true (lk_cpu (locks s l)))) (cpus s)
    (upd (pc s) c (AcqSet l)) (owns s)) c' l' <->
    critical s c' l' \/ (c' = c /\ l' = l)).
  { intros c' l'. unfold critical; cbn. upd_case; rewrite ?Hc; naive_solver. }
  split; cbn.
  - intros c1 c2 l'. rewrite !Hcr. naive_solver.
  - intros l'. setoid_rewrite Hcr. upd_case; cbn; [naive_solver|]. rewrite H2. naive_solver.
  - intros c' l'. upd_case; cbn; apply H3.
  - intros c' l'. upd_case; [|apply H4]. intros [?|?]; simplify_eq.
    intros Hin. by eapply Hno; left.
  - apply H5.
  - intros c'. upd_case; [|apply H6]. by rewrite H6, Hc.
  - apply H7.
Qed.

Lemma acquire_set_inv c l s : inv s -> pc s c = AcqSet l -> inv (acquire_set c l s).
Proof.
  intros [H1 H2 H3 H4 H5 H6 H7] Hc.
  assert (Hmine : critical s c l) by (unfold critical; auto).
  assert (Hcr : forall c' l', critical (acquire_set c l s) c' l' <-> critical s c' l').
  { intros c' l'. unfold critical, acquire_set; cbn. upd_case; rewrite ?Hc; set_solver. }
  split; cbn.
  - intros c1 c2 l'. rewrite !Hcr. apply H1.
  - intros l'. setoid_rewrite Hcr. upd_case; cbn; apply H2.
  - intros c' l'. upd_case; cbn.
    + set_solver.
    + split; [congruence|]. intros Hin. exfalso. apply n. eapply H1; [|done]. by left.
    + rewrite H3. set_solver.
    + apply H3.
  - intros c' l'. upd_case; [naive_solver|apply H4].
  - intros c'. upd_case; [|apply H5]. constructor; [apply H4; auto|apply H5].
  - intros c'. upd_case; [|apply H6]. rewrite H6, Hc. cbn [length pending]. lia.
  - apply H7.
Qed.

Lemma filter_remove_length (l : nat) (L : list nat) :
  NoDup L -> l ∈ L -> length L = S (length (filter (fun l' => l' <> l) L)).
Proof.
  intros Hnd Hin. apply list_elem_of_split in Hin as (l1 & l2 & ->).
  apply NoDup_app in Hnd as (_ & Hd & Hnd). apply NoDup_cons in Hnd as [Hni _].
  rewrite filter_app, filter_cons_False by naive_solver.
  assert (Hall : forall L' : list nat, l ∉ L' -> filter (fun l' => l' <> l) L' = L').
  { intros L' HL. induction L' as [|x L' IH]; [done|].
    rewrite filter_cons_True by set_solver. f_equal. apply IH. set_solver. }
  rewrite !Hall; [rewrite !length_app; cbn; lia|done|].
  intros Hl1. apply (Hd l Hl1). set_solver.
Qed.

Lemma release_enter_inv c l s s' :
  inv s -> pc s c = Run -> release_enter c l s = Done tt s' -> inv s'.
Proof.
  intros [H1 H2 H3 H4 H5 H6 H7] Hc He. unfold release_enter, holding in He.
  destruct (locked (locks s l)) eqn:Hl; [|done].
  case_bool_decide as Hcpu; simplify_eq/=.
  assert (Hown : l ∈ owns s c) by (by apply H3).
  set (s' := mkmachine _ _ _ _).
  assert (Hcr : forall c' l', critical s' c' l' <-> critical s c' l').
  { intros c' l'. unfold critical, s'; cbn. upd_case; [|done].
    rewrite list_elem_of_filter, Hc. split; [naive_solver|].
    intros [Hin|[|]]; [|done|done]. destruct (decide (l' = l)); naive_solver. }
  split; subst s'; cbn.
  - intros c1 c2 l'. rewrite !Hcr. apply H1.
  - intros l'. setoid_rewrite Hcr. upd_case; cbn; [|apply H2].
    split; [intros _; by apply H2|done].
  - intros c' l'. upd_case; cbn; rewrite ?list_elem_of_filter.
    + naive_solver.
    + split; [done|]. intros Hin. apply H3 in Hin. congruence.
    + rewrite H3. naive_solver.
    + apply H3.
  - intros c' l'. upd_case; [|apply H4]. rewrite list_elem_of_filter. naive_solver.
  - intros c'. upd_case; [|apply H5]. by apply NoDup_filter.
  - intros c'. upd_case; [|apply H6].
    rewrite H6, Hc, (filter_remove_length l) by done. cbn [pending]. lia.
  - apply H7.
Qed.

Lemma release_unlock_inv c l s : inv s -> pc s c = RelUnlock l -> inv (release_unlock c l s).
Proof.
  intros [H1 H2 H3 H4 H5 H6 H7] Hc.
  assert (Hcr : forall c' l',
    critical (release_unlock c l s) c' l' <-> critical s c' l' /\ l' <> l).
  { intros c' l'. unfold critical, release_unlock; cbn.
    assert (critical s c l) by (unfold critical; auto).
    assert (l ∉ owns s c) by (apply H4; auto). upd_case.
    - rewrite Hc. split; [|naive_solver]. intros [|[|]]; [|done|done].
      split; [by left|naive_solver].
    - split; [|naive_solver]. intros Hcr. split; [done|]. intros ->.
      apply n. eapply H1; [|done]. done. }
  split; cbn.
  - intros c1 c2 l'. rewrite !Hcr. naive_solver.
  - intros l'. setoid_rewrite Hcr. upd_case; cbn; [naive_solver|]. rewrite H2. naive_solver.
  - intros c' l'. upd_case; cbn; apply H3.
  - intros c' l'. upd_case; [naive_solver|apply H4].
  - apply H5.
  - intros c'. upd_case; [|apply H6]. by rewrite H6, Hc.
  - apply H7.
Qed.

Lemma pop_off_ok k : intr k = false -> 1 <= noff k ->
  pop_off k = Done tt (mkcpu (noff k - 1) (intena k) ((noff k - 1 =? 0) && intena k)).
Proof.
  intros Hi Hn. unfold pop_off. rewrite Hi, (proj2 (Z.ltb_ge _ _)) by lia.
  by destruct ((noff k - 1 =? 0) && intena k).
Qed.

(** In a reachable phase [RelPop] the matching [pop_off] cannot panic. *)
Lemma release_pop_total c l s : inv s -> pc s c = RelPop l ->
  exists s', release_pop c s = Done tt s'.
Proof.
  intros Hi Hc. unfold release_pop.
  pose proof (inv_noff s Hi c) as Hn. rewrite Hc in Hn. cbn [pending] in Hn.
  rewrite pop_off_ok; [by eexists|apply (inv_intr s Hi); lia|lia].
Qed.

Lemma release_pop_inv c l s s' :
  inv s -> pc s c = RelPop l -> release_pop c s = Done tt s' -> inv s'.
Proof.
  intros Hi Hc He. pose proof Hi as [_ _ _ _ _ H6 H7].
  pose proof (H6 c) as Hn. rewrite Hc in Hn. cbn [pending] in Hn.
  unfold release_pop in He. rewrite pop_off_ok in He by (apply H7 || lia; lia).
  simplify_eq. apply (inv_same s); try done; cbn; unfold critical; cbn; intros; upd_case; auto.
  - rewrite Hc. naive_solver.
  - naive_solver.
  - cbn. lia.
  - cbn in *. destruct (Z.eqb_spec (noff (cpus s c) - 1) 0); [lia|done].
Qed.

Lemma step_inv s s' : inv s -> step s s' -> inv s'.
Proof.
  intros Hi Hs. destruct Hs; eauto using acquire_enter_inv, acquire_swap_inv,
    acquire_set_inv, release_enter_inv, release_unlock_inv, release_pop_inv.
  apply (inv_same s); try done; cbn; intros; upd_case; cbn in *; try by apply Hi.
  lia.
Qed.

Lemma reachable_inv s : reachable s -> inv s.
Proof.
  intros (s0 & H0 & Hr). apply inv_initial in H0.
  induction Hr; eauto using step_inv.
Qed.
#[export] Hint Resolve reachable_inv : core.

(** ** Theorems *)

(** C15: in every reachable interleaving, two CPUs are never inside a critical
    section of the same lock. *)
Theorem mutual_exclusion (s : machine) (c c' l : nat) :
  reachable s -> critical s c l -> critical s c' l -> c = c'.
Proof. intros Hr. apply (inv_excl s). auto. Qed.

(** [holding] is exact: for a CPU outside [acquire] and [release], it
    returns true iff that CPU acquired the lock and has not released it,
    although other CPUs write [lk->cpu] and [lk->locked] concurrently. *)
Theorem holding_exact (s : machine) (c l : nat) :
  reachable s -> holding (locks s l) c = true <-> l ∈ owns s c.
Proof.
  intros Hr%reachable_inv. unfold holding.
  rewrite andb_true_iff, bool_decide_eq_true, (inv_owner s Hr).
  split; [naive_solver|]. intros Hin. split; [|done].
  apply (inv_locked s Hr). exists c. by left.
Qed.

(** [noff] of a CPU that is not inside [acquire] or [release] is the number
    of locks it holds, interrupts are masked while it holds any, and the
    [pop_off] of a [release] never panics. *)
Theorem noff_counts_locks (s : machine) (c : nat) :
  reachable s ->
  (pc s c = Run -> noff (cpus s c) = Z.of_nat (length (owns s c))) /\
  (owns s c <> [] -> intr (cpus s c) = false) /\
  (forall l, pc s c = RelPop l -> exists s', release_pop c s = Done tt s').
Proof.
  intros Hr%reachable_inv. split; [|split].
  - intros Hc. rewrite (inv_noff s Hr), Hc. cbn. lia.
  - intros Ho. apply (inv_intr s Hr). rewrite (inv_noff s Hr).
    destruct (owns s c); [done|]. cbn [length]. destruct (pc s c); cbn [pending]; lia.
  - intros l Hc. by eapply release_pop_total.
Qed.

(** Balanced [push_off]/[pop_off] pairs nest: after any number of pushes and
    as many pops, a CPU that started at depth 0 has its interrupt flag back, and
    interrupts are off at every depth in between. *)
Theorem push_pop_nest (k : cpu) (n : nat) :
  noff k = 0 ->
  let deep := Nat.iter (S n) push_off k in
  intr deep = false /\
  Nat.iter (S n) (fun r => match r with Done _ k' => pop_off k' | Panic m => Panic m end)
    (Done tt deep) = Done tt (mkcpu 0 (intr k) (intr k)).
Proof.
  intros H0 deep.
  assert (Hd : forall j, Nat.iter (S j) push_off k = mkcpu (Z.of_nat j + 1) (intr k) false).
  { induction j as [|j IHj]; [cbn; unfold push_off; by rewrite H0|].
    change (Nat.iter (S (S j)) push_off k) with (push_off (Nat.iter (S j) push_off k)).
    rewrite IHj. unfold push_off; cbn [noff intena intr].
    rewrite (proj2 (Z.eqb_neq _ _)) by lia. f_equal. lia. }
  unfold deep. rewrite Hd. split; [done|]. clear deep Hd H0.
  induction n as [|n IHn].
  - cbn. unfold pop_off; cbn. by destruct (intr k).
  - rewrite Nat.iter_succ_r. rewrite pop_off_ok by (cbn; done || lia). cbn [noff intena].
    rewrite (proj2 (Z.eqb_neq _ _)) by lia. cbn [andb].
    replace (Z.of_nat (S n) + 1 - 1) with (Z.of_nat n + 1) by lia. apply IHn.
Qed.

(** ** Concrete instances *)

Definition boot : machine :=
  mkmachine (fun _ => initlock) (fun _ => mkcpu 0 false true) (fun _ => Run) (fun _ => []).

(** CPU 0 has taken lock 3 and CPU 1 spins on it. *)
Definition contended : machine :=
  let s1 := match acquire_enter 0 3 boot with Done _ s => s | _ => boot end in
  let s2 := acquire_set 0 3 (acquire_swap 0 3 s1) in
  let s3 := match acquire_enter 1 3 s2 with Done _ s => s | _ => s2 end in
  acquire_swap 1 3 s3.

Lemma contended_reachable : reachable contended.
Proof.
  exists boot. split; [by repeat split|].
  eapply rtc_l; [by eapply (step_acquire_enter 0 3)|].
  eapply rtc_l; [by eapply (step_acquire_swap 0 3)|].
  eapply rtc_l; [by eapply (step_acquire_set 0 3)|].
  eapply rtc_l; [by eapply (step_acquire_enter 1 3)|].
  eapply rtc_l; [by eapply (step_acquire_swap 1 3)|].
  apply rtc_refl.
Qed.

Lemma mutual_exclusion_witness :
  reachable contended /\ critical contended 0 3 /\
  (forall c, critical contended c 3 -> c = 0%nat).
Proof.
  assert (H : critical contended 0 3) by (left; apply list_elem_of_here).
  split; [exact contended_reachable|]. split; [exact H|].
  intros c Hc. exact (mutual_exclusion contended c 0 3 contended_reachable Hc H).
Defined.

Lemma holding_exact_witness : reachable contended /\ holding (locks contended 3) 0 = true.
Proof.
  split; [exact contended_reachable|].
  apply (holding_exact contended 0 3 contended_reachable). apply list_elem_of_here.
Defined.

Lemma noff_counts_locks_witness :
  reachable contended /\ noff (cpus contended 0) = 1 /\ intr (cpus contended 0) = false.
Proof.
  destruct (noff_counts_locks contended 0 contended_reachable) as (H1 & H2 & _).
  split; [exact contended_reachable|].
  split; [exact (H1 eq_refl)|apply H2; discriminate].
Defined.

Lemma push_pop_nest_witness :
  intr (Nat.iter 3 push_off (mkcpu 0 false true)) = false.
Proof. exact (proj1 (push_pop_nest (mkcpu 0 false true) 2 eq_refl)). Defined.
