(* ===== verification/ProcDef.v ===== *)
(** * Processes: data model of [kernel/proc.h] and the kernel state

    [proc] has the fields of [struct proc]; pointers into the process table are
    table indices, other kernel objects (page tables, trapframe pages, files,
    inodes) are addresses.  [kernel] collects the global variables of
    [kernel/proc.c] with the locks held by the executing CPU, that CPU's
    [c->proc] and the console output.

    The memory and file services that [proc.c] calls are the class [Services]:
    an abstract state with the operations of [vm.c], [kalloc.c], [file.c],
    [fs.c] and [log.c].  Every theorem about processes holds for any
    implementation of them. *)

From S2P Require Import Prelude.

(** [enum procstate] *)
Inductive procstate := UNUSED | USED | SLEEPING | RUNNABLE | RUNNING | ZOMBIE.
#[export] Instance procstate_eq_dec : EqDecision procstate.
Proof. solve_decision. Defined.

Definition procstate_num (s : procstate) : Z :=
  match s with
  | UNUSED => 0 | USED => 1 | SLEEPING => 2 | RUNNABLE => 3 | RUNNING => 4 | ZOMBIE => 5
  end.

(** Sleep channels: the kernel uses addresses of distinct objects. *)
Inductive channel :=
| NullChan              (* the null pointer *)
| ProcChan (i : nat)    (* &proc[i] *)
| TicksChan             (* &ticks *)
| ObjChan (a : Z).      (* any other kernel object *)
#[export] Instance channel_eq_dec : EqDecision channel.
Proof. solve_decision. Defined.

Definition chan_of_proc (o : option nat) : channel :=
  match o with Some i => ProcChan i | None => NullChan end.

Definition SCHED_ROUND_ROBIN : Z := 0.
Definition SCHED_FCFS : Z := 1.
Definition SCHED_PRIORITY : Z := 2.

(** [struct context]: [ra], [sp] and the callee-saved registers [s0]..[s11]. *)
Record context := mkcontext { ctx_ra : Z; ctx_sp : Z; ctx_s : list Z }.
Definition context0 : context := mkcontext 0 0 (replicate 12 0).

(** [struct trapframe] as its 36 words; offsets are byte offsets / 8. *)
Definition trapframe := list Z.
Definition TF_kernel_satp : nat := 0.
Definition TF_kernel_sp : nat := 1.
Definition TF_kernel_trap : nat := 2.
Definition TF_epc : nat := 3.
Definition TF_kernel_hartid : nat := 4.
Definition TF_sp : nat := 6.
Definition TF_a0 : nat := 14.
Definition TF_a1 : nat := 15.
Definition TF_a7 : nat := 21.

(** [struct proc] *)
Record proc := mkproc {
  state : procstate;
  chan : channel;
  killed : Z;
  xstate : Z;
  pid : Z;
  ctime : Z;
  rtime : Z;
  starttime : Z;
  completetime : Z;
  is_benchmark_process : Z;
  priority : Z;
  turnaround_time : Z;
  waiting_time : Z;
  responded : Z;
  parent : option nat;
  kstack : Z;
  sz : Z;
  pagetable : Z;
  tf_page : Z;            (* p->trapframe, 0 for null *)
  tf : trapframe;         (* the contents of that page *)
  ctx : context;
  ofile : list Z;         (* NOFILE file pointers, 0 for none *)
  cwd : Z;
  name : list Z           (* 16 bytes *)
}.

Definition eta_proc (p : proc) : proc :=
  mkproc (state p) (chan p) (killed p) (xstate p) (pid p) (ctime p) (rtime p) (starttime p)
    (completetime p) (is_benchmark_process p) (priority p) (turnaround_time p)
    (waiting_time p) (responded p) (parent p) (kstack p) (sz p) (pagetable p) (tf_page p)
    (tf p) (ctx p) (ofile p) (cwd p) (name p).

Definition set_state : procstate -> proc -> proc := ltac:(mk_setter eta_proc state).
Definition set_chan : channel -> proc -> proc := ltac:(mk_setter eta_proc chan).
Definition set_killed : Z -> proc -> proc := ltac:(mk_setter eta_proc killed).
Definition set_xstate : Z -> proc -> proc := ltac:(mk_setter eta_proc xstate).
Definition set_pid : Z -> proc -> proc := ltac:(mk_setter eta_proc pid).
Definition set_ctime : Z -> proc -> proc := ltac:(mk_setter eta_proc ctime).
Definition set_rtime : Z -> proc -> proc := ltac:(mk_setter eta_proc rtime).
Definition set_starttime : Z -> proc -> proc := ltac:(mk_setter eta_proc starttime).
Definition set_completetime : Z -> proc -> proc := ltac:(mk_setter eta_proc completetime).
Definition set_is_benchmark_process : Z -> proc -> proc :=
  ltac:(mk_setter eta_proc is_benchmark_process).
Definition set_priority : Z -> proc -> proc := ltac:(mk_setter eta_proc priority).
Definition set_turnaround_time : Z -> proc -> proc := ltac:(mk_setter eta_proc turnaround_time).
Definition set_waiting_time : Z -> proc -> proc := ltac:(mk_setter eta_proc waiting_time).
Definition set_responded : Z -> proc -> proc := ltac:(mk_setter eta_proc responded).
Definition set_parent : option nat -> proc -> proc := ltac:(mk_setter eta_proc parent).
Definition set_kstack : Z -> proc -> proc := ltac:(mk_setter eta_proc kstack).
Definition set_sz : Z -> proc -> proc := ltac:(mk_setter eta_proc sz).
Definition set_pagetable : Z -> proc -> proc := ltac:(mk_setter eta_proc pagetable).
Definition set_tf_page : Z -> proc -> proc := ltac:(mk_setter eta_proc tf_page).
Definition set_tf : trapframe -> proc -> proc := ltac:(mk_setter eta_proc tf).
Definition set_ctx : context -> proc -> proc := ltac:(mk_setter eta_proc ctx).
Definition set_ofile : list Z -> proc -> proc := ltac:(mk_setter eta_proc ofile).
Definition set_cwd : Z -> proc -> proc := ltac:(mk_setter eta_proc cwd).
Definition set_name : list Z -> proc -> proc := ltac:(mk_setter eta_proc name).

(** A slot of the zero-initialised array [proc[NPROC]]. *)
Definition proc0 : proc :=
  mkproc UNUSED NullChan 0 0 0 0 0 0 0 0 0 0 0 0 None 0 0 0 0 (replicate 36 0) context0
    (replicate NOFILE 0) 0 (replicate 16 0).

(** Locks that [proc.c] and its callers take. *)
Inductive lockid :=
| LProc (i : nat)     (* proc[i].lock *)
| LWait               (* wait_lock *)
| LPid                (* pid_lock *)
| LTicks              (* tickslock *)
| LPtable             (* ptable.lock *)
| LOther (n : nat).   (* locks of other components *)
#[export] Instance lockid_eq_dec : EqDecision lockid.
Proof. solve_decision. Defined.

(** The services of the memory and file layers, over their own state [E]. *)
Class Services (E : Type) := {
  kalloc_page : E -> Z * E;                          (* 0: out of memory *)
  kfree_page : Z -> E -> result E unit;
  make_pagetable : Z -> E -> result E Z;             (* proc_pagetable: 0 on failure *)
  free_pagetable : Z -> Z -> E -> result E unit;     (* proc_freepagetable *)
  uvm_copy : Z -> Z -> Z -> E -> result E Z;         (* uvmcopy: 0 or -1 *)
  uvm_alloc : Z -> Z -> Z -> Z -> E -> result E Z;   (* uvmalloc *)
  uvm_dealloc : Z -> Z -> Z -> E -> result E Z;      (* uvmdealloc *)
  uvm_first : Z -> E -> result E unit;               (* uvmfirst with initcode *)
  copy_out : Z -> Z -> list Z -> E -> result E Z;    (* copyout: 0 or -1 *)
  file_dup : Z -> E -> result E Z;
  file_close : Z -> E -> result E (list channel);    (* channels it wakes up *)
  inode_dup : Z -> E -> result E Z;
  inode_put : Z -> E -> result E (list channel);     (* begin_op; iput; end_op *)
  root_inode : E -> result E Z;                      (* namei("/") *)
  uninit_byte : Z;                                   (* contents of uninitialised stack *)
  forkret_pc : Z                                     (* link address of forkret *)
}.

Lemma set_tf_tf (a b : trapframe) q : set_tf a (set_tf b q) = set_tf a q.
Proof. by destruct q. Qed.

(** Global state of [kernel/proc.c]. *)
Record kernel (E : Type) := mkkernel {
  procs : list proc;
  held : list lockid;           (* spin locks held by this CPU *)
  curproc : option nat;         (* mycpu()->proc *)
  initproc : option nat;
  nextpid : Z;
  ticks : Z;
  sched_mode : Z;
  global_turnaround_time : Z;
  global_waiting_time : Z;
  total_benchmark_processes : Z;
  completed_benchmark_processes : Z;
  output : list (string * list Z);   (* printf calls, latest first *)
  env : E
}.
Arguments mkkernel {E}.
Arguments procs {E}. Arguments held {E}. Arguments curproc {E}. Arguments initproc {E}.
Arguments nextpid {E}. Arguments ticks {E}. Arguments sched_mode {E}.
Arguments global_turnaround_time {E}. Arguments global_waiting_time {E}.
Arguments total_benchmark_processes {E}. Arguments completed_benchmark_processes {E}.
Arguments output {E}. Arguments env {E}.

Section Setters.
Context {E : Type}.

Definition eta_kernel (s : kernel E) : kernel E :=
  mkkernel (procs s) (held s) (curproc s) (initproc s) (nextpid s) (ticks s) (sched_mode s)
    (global_turnaround_time s) (global_waiting_time s) (total_benchmark_processes s)
    (completed_benchmark_processes s) (output s) (env s).

Definition set_procs : list proc -> kernel E -> kernel E := ltac:(mk_setter eta_kernel (@procs E)).
Definition set_held : list lockid -> kernel E -> kernel E := ltac:(mk_setter eta_kernel (@held E)).
Definition set_curproc : option nat -> kernel E -> kernel E :=
  ltac:(mk_setter eta_kernel (@curproc E)).
Definition set_initproc : option nat -> kernel E -> kernel E :=
  ltac:(mk_setter eta_kernel (@initproc E)).
Definition set_nextpid : Z -> kernel E -> kernel E := ltac:(mk_setter eta_kernel (@nextpid E)).
Definition set_ticks : Z -> kernel E -> kernel E := ltac:(mk_setter eta_kernel (@ticks E)).
Definition set_sched_mode : Z -> kernel E -> kernel E :=
  ltac:(mk_setter eta_kernel (@sched_mode E)).
Definition set_global_turnaround_time : Z -> kernel E -> kernel E :=
  ltac:(mk_setter eta_kernel (@global_turnaround_time E)).
Definition set_global_waiting_time : Z -> kernel E -> kernel E :=
  ltac:(mk_setter eta_kernel (@global_waiting_time E)).
Definition set_total_benchmark_processes : Z -> kernel E -> kernel E :=
  ltac:(mk_setter eta_kernel (@total_benchmark_processes E)).
Definition set_completed_benchmark_processes : Z -> kernel E -> kernel E :=
  ltac:(mk_setter eta_kernel (@completed_benchmark_processes E)).
Definition set_output : list (string * list Z) -> kernel E -> kernel E :=
  ltac:(mk_setter eta_kernel (@output E)).
Definition set_env : E -> kernel E -> kernel E := ltac:(mk_setter eta_kernel (@env E)).

End Setters.

Lemma kernel_ext {E} (s1 s2 : kernel E) :
  procs s1 = procs s2 -> held s1 = held s2 -> curproc s1 = curproc s2 ->
  initproc s1 = initproc s2 -> nextpid s1 = nextpid s2 -> ticks s1 = ticks s2 ->
  sched_mode s1 = sched_mode s2 ->
  global_turnaround_time s1 = global_turnaround_time s2 ->
  global_waiting_time s1 = global_waiting_time s2 ->
  total_benchmark_processes s1 = total_benchmark_processes s2 ->
  completed_benchmark_processes s1 = completed_benchmark_processes s2 ->
  output s1 = output s2 -> env s1 = env s2 -> s1 = s2.
Proof. destruct s1, s2; cbn; intros; subst; reflexivity. Qed.

(** [kproj]: compute projections of states built by setters. *)
Ltac kproj :=
  cbn [set_procs set_held set_curproc set_initproc set_nextpid set_ticks
    set_sched_mode set_global_turnaround_time set_global_waiting_time
    set_total_benchmark_processes set_completed_benchmark_processes set_output set_env
    procs held curproc initproc nextpid ticks sched_mode global_turnaround_time
    global_waiting_time total_benchmark_processes completed_benchmark_processes output env].

(** [kernel_eq]: two kernel states built by setters are equal if the fields
    they set are. *)
Ltac kernel_eq := apply kernel_ext; kproj; try reflexivity.

(** ** A small concrete instance of the services *)

(** The state is a pool of free pages; page tables are single pages, files and
    inodes are not reference-counted. *)
Definition pool_alloc (pool : list Z) : Z * list Z :=
  match pool with [] => (0, []) | pa :: pool' => (pa, pool') end.

#[export] Instance pool_services : Services (list Z) := {|
  kalloc_page := pool_alloc;
  kfree_page := fun pa pool => Done tt (pa :: pool);
  make_pagetable := fun _ pool => let '(pa, pool') := pool_alloc pool in Done pa pool';
  free_pagetable := fun pt _ pool => Done tt (pt :: pool);
  uvm_copy := fun _ _ _ pool => Done 0 pool;
  uvm_alloc := fun _ _ newsz _ pool => Done newsz pool;
  uvm_dealloc := fun _ _ newsz pool => Done newsz pool;
  uvm_first := fun _ pool => Done tt pool;
  copy_out := fun _ addr _ pool => Done (if addr =? 0 then -1 else 0) pool;
  file_dup := fun f pool => Done f pool;
  file_close := fun f pool => Done [ObjChan f] pool;
  inode_dup := fun ip pool => Done ip pool;
  inode_put := fun _ pool => Done [] pool;
  root_inode := fun pool => Done 1 pool;
  uninit_byte := 0;
  forkret_pc := 0x80001000
|}.

(** A kernel with the given table, with the given process running. *)
Definition demo_state (ps : list proc) (cur : option nat) (mode : Z) : kernel (list Z) :=
  mkkernel ps [] cur (Some 0%nat) 10 100 mode 0 0 0 0 [] [0x87000000; 0x87001000; 0x87002000].

(** A table whose first slots are [l]. *)
Definition demo_table (l : list proc) : list proc := l ++ replicate (NPROC - length l) proc0.

Definition demo_proc (st : procstate) (p ct prio : Z) (par : option nat) : proc :=
  set_starttime 1 (set_parent par (set_priority prio (set_ctime ct (set_pid p
    (set_state st proc0))))).
