(* ===== verification/Proc.v ===== *)
(** * Process management: [kernel/proc.c]

    One definition per function, in the error-state monad over [kernel].
    [acquire] and [release] track the set of locks this CPU holds, with the
    panics of the source; [Spinlock.v] proves that on the real machine this set
    is exact and that [noff] is its size, which is how [sched] tests it here.

    A function that can switch away ([sleep], [wait], [exit], [yield]) is split
    at its call of [sched]: [sleep_enter] runs up to the context switch and
    [sleep_return] from the point where the scheduler resumes the process. *)

From S2P Require Import Prelude ProcDef.

Section Proc.
Context {E : Type} `{!Services E}.
Abbreviation K := (M (kernel E)).

Definition all_procs : list nat := seq 0 NPROC.

(** ** Accessors *)

(** A wild or null process pointer faults in the kernel, which panics. *)
Definition getp (i : nat) : K proc := fun s =>
  match procs s !! i with Some p => Done p s | None => Panic "kerneltrap" end.
Definition modp (i : nat) (f : proc -> proc) : K unit :=
  modify (fun s => set_procs (alter f i (procs s)) s).
Definition svc {A} (f : E -> result E A) : K A := fun s =>
  match f (env s) with
  | Done a e => Done a (set_env e s)
  | Panic msg => Panic msg
  end.
Definition printf (fmt : string) (args : list Z) : K unit :=
  modify (fun s => set_output ((fmt, args) :: output s) s).

Definition myproc : K (option nat) := gets curproc.
(** [myproc()] where the caller dereferences the result. *)
Definition cur : K nat := fun s =>
  match curproc s with Some i => Done i s | None => Panic "kerneltrap" end.

(** ** Locks *)

Definition acquire (l : lockid) : K unit := fun s =>
  if decide (l ∈ held s) then Panic "acquire" else Done tt (set_held (l :: held s) s).
Definition release (l : lockid) : K unit := fun s =>
  if decide (l ∈ held s)
  then Done tt (set_held (filter (fun l' => l' <> l) (held s)) s)
  else Panic "release".

(** ** Strings in fixed-size fields *)

(** [safestrcpy(dst, src, k + 1)] on arrays. *)
Fixpoint safestrcpy_arr (dst src : list Z) (k : nat) : list Z :=
  match dst with
  | [] => []
  | _ :: d =>
      match k with
      | O => 0 :: d
      | S k' =>
          let c := hd 0 src in
          c :: (if c =? 0 then match d with [] => [] | _ :: d' => 0 :: d' end
                else safestrcpy_arr d (tl src) k')
      end
  end.

(** [strncmp(p, q, n)] on arrays, reading NUL past their end. *)
Fixpoint strncmp_arr (p q : list Z) (n : nat) : Z :=
  match n with
  | O => 0
  | S n' =>
      let a := hd 0 p in
      let b := hd 0 q in
      if negb (a =? 0) && (a =? b) then strncmp_arr (tl p) (tl q) n' else a - b
  end.

(** ** Sleep and wakeup *)

Definition wakeup (c : channel) : K unit :=
  for_each (fun i =>
    let! me := myproc in
    if decide (Some i = me) then ret tt
    else
      acquire (LProc i) ;;
      let! p := getp i in
      when (bool_decide (state p = SLEEPING) && bool_decide (chan p = c))
        (modp i (set_state RUNNABLE)) ;;
      release (LProc i)) all_procs.

(** The checks of [sched]; the context switch itself follows. *)
Definition sched : K unit := fun s =>
  match curproc s with
  | None => Panic "kerneltrap"
  | Some i =>
      match procs s !! i with
      | None => Panic "kerneltrap"
      | Some p =>
          if decide (LProc i ∉ held s) then Panic "sched p->lock"
          else if decide (length (held s) <> 1%nat) then Panic "sched locks"
          else if decide (state p = RUNNING) then Panic "sched running"
          else Done tt s
      end
  end.

(** [yield] up to the switch, and after it. *)
Definition yield_enter : K unit :=
  let! i := cur in
  acquire (LProc i) ;; modp i (set_state RUNNABLE) ;; sched.
Definition yield_return : K unit := let! i := cur in release (LProc i).

Definition sleep_enter (c : channel) (lk : lockid) : K unit :=
  let! i := cur in
  acquire (LProc i) ;;
  release lk ;;
  modp i (set_chan c) ;;
  modp i (set_state SLEEPING) ;;
  sched.
Definition sleep_return (lk : lockid) : K unit :=
  let! i := cur in
  modp i (set_chan NullChan) ;;
  release (LProc i) ;;
  acquire lk.

(** ** Kill *)

Definition kill (kpid : Z) : K Z :=
  let! r := for_until (fun i =>
    acquire (LProc i) ;;
    let! p := getp i in
    if pid p =? kpid then
      modp i (set_killed 1) ;;
      when (bool_decide (state p = SLEEPING)) (modp i (set_state RUNNABLE)) ;;
      release (LProc i) ;;
      ret (Some 0)
    else release (LProc i) ;; ret None) all_procs in
  ret (default (-1) r).

Definition setkilled (i : nat) : K unit :=
  acquire (LProc i) ;; modp i (set_killed 1) ;; release (LProc i).

Definition is_killed (i : nat) : K Z :=
  acquire (LProc i) ;;
  let! p := getp i in
  release (LProc i) ;;
  ret (killed p).

(** ** Allocation of process slots *)

Definition procinit : K unit :=
  let initlock l := modify (fun s : kernel E => set_held (filter (fun l' => l' <> l) (held s)) s) in
  initlock LPid ;;
  initlock LWait ;;
  for_each (fun i =>
    initlock (LProc i) ;;
    modp i (set_state UNUSED) ;;
    modp i (set_kstack (KSTACK (Z.of_nat i)))) all_procs.

Definition allocpid : K Z :=
  acquire LPid ;;
  let! p := gets nextpid in
  modify (fun s => set_nextpid (s32 (p + 1)) s) ;;
  release LPid ;;
  ret p.

Definition freeproc (i : nat) : K unit :=
  let! p := getp i in
  when (negb (tf_page p =? 0)) (svc (kfree_page (tf_page p))) ;;
  modp i (set_tf_page 0) ;;
  when (negb (pagetable p =? 0)) (svc (free_pagetable (pagetable p) (sz p))) ;;
  modp i (set_pagetable 0) ;;
  modp i (set_sz 0) ;;
  modp i (set_pid 0) ;;
  modp i (set_parent None) ;;
  modp i (fun p => set_name (<[0%nat := 0]> (name p)) p) ;;
  modp i (set_chan NullChan) ;;
  modp i (set_killed 0) ;;
  modp i (set_xstate 0) ;;
  modp i (set_state UNUSED) ;;
  modp i (set_responded 0) ;;
  let! t := gets ticks in
  modp i (set_completetime t).

(** A page just returned by [kalloc], read as a trapframe. *)
Definition junk_tf : trapframe := replicate 36 0x0505050505050505.

Definition allocproc : K (option nat) :=
  let! r := for_until (fun i =>
    acquire (LProc i) ;;
    let! p := getp i in
    if decide (state p = UNUSED) then ret (Some i)
    else release (LProc i) ;; ret None) all_procs in
  match r with
  | None => ret None
  | Some i =>
      let! newpid := allocpid in
      modp i (set_pid newpid) ;;
      modp i (set_state USED) ;;
      let! pa := svc (fun e => let '(pa, e') := kalloc_page e in Done pa e') in
      modp i (set_tf_page pa) ;;
      if pa =? 0 then freeproc i ;; release (LProc i) ;; ret None
      else
        modp i (set_tf junk_tf) ;;
        let! pt := svc (make_pagetable pa) in
        modp i (set_pagetable pt) ;;
        if pt =? 0 then freeproc i ;; release (LProc i) ;; ret None
        else
          modp i (fun p => set_ctx (mkcontext forkret_pc (kstack p + PGSIZE) (replicate 12 0)) p) ;;
          let! t := gets ticks in
          modp i (set_ctime t) ;;
          modp i (set_completetime 0) ;;
          modp i (set_priority 0) ;;
          modp i (set_rtime 0) ;;
          ret (Some i)
  end.

Definition userinit : K unit :=
  let! r := allocproc in
  modify (set_initproc r) ;;
  match r with
  | None => panic "kerneltrap"       (* p == 0 is dereferenced *)
  | Some i =>
      let! p := getp i in
      svc (uvm_first (pagetable p)) ;;
      modp i (set_sz PGSIZE) ;;
      modp i (fun p => set_tf (<[TF_epc := 0]> (tf p)) p) ;;
      modp i (fun p => set_tf (<[TF_sp := PGSIZE]> (tf p)) p) ;;
      modp i (fun p => set_name (safestrcpy_arr (name p) (bytes_of_string "initcode") 15) p) ;;
      let! root := svc root_inode in
      modp i (set_cwd root) ;;
      modp i (set_state RUNNABLE) ;;
      release (LProc i)
  end.

Definition growproc (n : Z) : K Z :=
  let! i := cur in
  let! p := getp i in
  if n >? 0 then
    let! sz' := svc (uvm_alloc (pagetable p) (sz p) (u64 (sz p + n)) PTE_W) in
    if sz' =? 0 then ret (-1) else modp i (set_sz sz') ;; ret 0
  else if n <? 0 then
    let! sz' := svc (uvm_dealloc (pagetable p) (sz p) (u64 (sz p + n))) in
    modp i (set_sz sz') ;; ret 0
  else modp i (set_sz (sz p)) ;; ret 0.

(** ** Fork *)

Definition fork_files (n : nat) (p : proc) : K unit :=
  for_each (fun fd =>
    match ofile p !! fd with
    | Some f =>
        if f =? 0 then ret tt
        else
          let! f' := svc (file_dup f) in
          modp n (fun np => set_ofile (<[fd := f']> (ofile np)) np)
    | None => ret tt
    end) (seq 0 NOFILE).

Definition fork : K Z :=
  let! me := cur in
  let! r := allocproc in
  match r with
  | None => ret (-1)
  | Some n =>
      let! p := getp me in
      let! np := getp n in
      let! c := svc (uvm_copy (pagetable p) (pagetable np) (sz p)) in
      if c <? 0 then freeproc n ;; release (LProc n) ;; ret (-1)
      else
        modp n (set_sz (sz p)) ;;
        modp n (set_tf (tf p)) ;;
        modp n (fun np => set_tf (<[TF_a0 := 0]> (tf np)) np) ;;
        fork_files n p ;;
        let! ip := svc (inode_dup (cwd p)) in
        modp n (set_cwd ip) ;;
        modp n (fun np => set_name (safestrcpy_arr (name np) (name p) 15) np) ;;
        when (strncmp_arr (name p) (bytes_of_string "schedbench") 16 =? 0)
          (modp n (set_is_benchmark_process 1) ;;
           modify (fun s => set_total_benchmark_processes
             (s32 (total_benchmark_processes s + 1)) s)) ;;
        let! np := getp n in
        release (LProc n) ;;
        acquire LWait ;;
        modp n (set_parent (Some me)) ;;
        release LWait ;;
        acquire (LProc n) ;;
        modp n (set_state RUNNABLE) ;;
        release (LProc n) ;;
        ret (pid np)
  end.

(** ** Exit *)

Definition reparent (p : nat) : K unit :=
  for_each (fun i =>
    let! pp := getp i in
    when (bool_decide (parent pp = Some p))
      (let! ini := gets initproc in
       modp i (set_parent ini) ;;
       wakeup (chan_of_proc ini))) all_procs.

(** The accounting part of [exit]: completion, turnaround and waiting time of
    [p], and the benchmark totals, reported when the last child finished. *)
Definition exit_metrics (i : nat) : K unit :=
  let! t := gets ticks in
  modp i (set_completetime t) ;;
  modp i (fun p => set_turnaround_time (u64 (completetime p - ctime p)) p) ;;
  modp i (fun p => set_waiting_time (u64 (turnaround_time p - rtime p)) p) ;;
  let! p := getp i in
  when (negb (is_benchmark_process p =? 0))
    (modify (fun s => set_global_turnaround_time
       (u64 (global_turnaround_time s + turnaround_time p)) s) ;;
     modify (fun s => set_global_waiting_time
       (u64 (global_waiting_time s + waiting_time p)) s) ;;
     modify (fun s => set_completed_benchmark_processes
       (s32 (completed_benchmark_processes s + 1)) s) ;;
     let! done := gets completed_benchmark_processes in
     let! total := gets total_benchmark_processes in
     when (done =? total)
       (let! ta := gets global_turnaround_time in
        let! wt := gets global_waiting_time in
        let! mode := gets sched_mode in
        let avg_ta := s32 (ta / u64 total) in
        let avg_wait := s32 (wt / u64 total) in
        printf "\n[Scheduler Benchmark Results]\n" [] ;;
        printf "Scheduler Mode: %d\n" [mode] ;;
        printf "Average Turnaround Time: %d ticks\n" [avg_ta] ;;
        printf "Average Waiting Time: %d ticks\n" [avg_wait] ;;
        printf "-----------------------------\n" [] ;;
        modify (set_global_turnaround_time 0) ;;
        modify (set_global_waiting_time 0) ;;
        modify (set_total_benchmark_processes 0) ;;
        modify (set_completed_benchmark_processes 0))).

(** Run the wakeups a file-layer call performed. *)
Definition wakeups (cs : list channel) : K unit := for_each wakeup cs.

Definition exit_files (i : nat) : K unit :=
  for_each (fun fd =>
    let! p := getp i in
    match ofile p !! fd with
    | Some f =>
        if f =? 0 then ret tt
        else
          let! cs := svc (file_close f) in
          wakeups cs ;;
          modp i (fun p => set_ofile (<[fd := 0]> (ofile p)) p)
    | None => ret tt
    end) (seq 0 NOFILE).

(** [exit], up to its final call of [sched], which does not return. *)
Definition exit (status : Z) : K unit :=
  let! i := cur in
  let! ini := gets initproc in
  if decide (Some i = ini) then panic "init exiting"
  else
    exit_files i ;;
    let! p := getp i in
    let! cs := svc (inode_put (cwd p)) in
    wakeups cs ;;
    modp i (set_cwd 0) ;;
    acquire LWait ;;
    exit_metrics i ;;
    reparent i ;;
    let! p := getp i in
    wakeup (chan_of_proc (parent p)) ;;
    acquire (LProc i) ;;
    modp i (set_xstate status) ;;
    modp i (set_state ZOMBIE) ;;
    release LWait ;;
    sched.

(** ** Wait *)

(** One scan of the table by [wait]: [inl v] when [wait] returns [v] from
    inside the loop, [inr havekids] at the end of the loop. *)
Fixpoint wait_scan (addr : Z) (me : nat) (l : list nat) (havekids : bool) : K (Z + bool) :=
  match l with
  | [] => ret (inr havekids)
  | i :: l' =>
      let! pp := getp i in
      if decide (parent pp = Some me) then
        acquire (LProc i) ;;
        if decide (state pp = ZOMBIE) then
          let! p := getp me in
          let! c := (if addr =? 0 then ret 0
                     else svc (copy_out (pagetable p) addr (le_bytes 4 (xstate pp)))) in
          if c <? 0 then release (LProc i) ;; release LWait ;; ret (inl (-1))
          else
            freeproc i ;;
            release (LProc i) ;;
            release LWait ;;
            ret (inl (pid pp))
        else release (LProc i) ;; wait_scan addr me l' true
      else wait_scan addr me l' havekids
  end.

(** One round of the [for(;;)] of [wait]: [Some v] when it returns [v], [None]
    when it went to sleep on its own process structure. *)
Definition wait_round (addr : Z) : K (option Z) :=
  let! me := cur in
  let! r := wait_scan addr me all_procs false in
  match r with
  | inl v => ret (Some v)
  | inr havekids =>
      let! stop := (if havekids then let! k := is_killed me in ret (negb (k =? 0))
                    else ret true) in
      if (stop : bool) then release LWait ;; ret (Some (-1))
      else sleep_enter (ProcChan me) LWait ;; ret None
  end.

Definition wait (addr : Z) : K (option Z) := acquire LWait ;; wait_round addr.
Definition wait_resume (addr : Z) : K (option Z) := sleep_return LWait ;; wait_round addr.

(** [struct perf] *)
Record perf := mkperf {
  perf_ctime : Z; perf_completetime : Z; perf_rtime : Z;
  perf_turnaround_time : Z; perf_waiting_time : Z
}.

(** The scan of [wait_stat_internal]: on a zombie child, its pid, exit status
    and statistics.  The child's lock is released before [freeproc]. *)
Fixpoint wait_stat_scan (me : nat) (l : list nat) (havekids : bool)
    : K ((Z * Z * perf) + bool) :=
  match l with
  | [] => ret (inr havekids)
  | i :: l' =>
      let! p := getp i in
      if decide (parent p = Some me) then
        acquire (LProc i) ;;
        if decide (state p = ZOMBIE) then
          release (LProc i) ;;
          freeproc i ;;
          release LWait ;;
          ret (inl (pid p, xstate p,
            mkperf (ctime p) (completetime p) (rtime p) (turnaround_time p) (waiting_time p)))
        else release (LProc i) ;; wait_stat_scan me l' true
      else wait_stat_scan me l' havekids
  end.

(** One round of [wait_stat_internal]; the round itself acquires [wait_lock].
    [Some None] is the error return -1; [None] means asleep. *)
Definition wait_stat_internal : K (option (option (Z * Z * perf))) :=
  let! me := cur in
  acquire LWait ;;
  let! r := wait_stat_scan me all_procs false in
  match r with
  | inl v => ret (Some (Some v))
  | inr havekids =>
      let! pp := getp me in
      if negb havekids || negb (killed pp =? 0) then release LWait ;; ret (Some None)
      else
        printf "About to sleep in wait_stat_internal\n" [] ;;
        sleep_enter (ProcChan me) LWait ;;
        ret None
  end.
Definition wait_stat_resume : K (option (option (Z * Z * perf))) :=
  sleep_return LWait ;; wait_stat_internal.

(** ** Accounting and reporting *)

Definition update_time : K unit :=
  for_each (fun i =>
    acquire (LProc i) ;;
    let! p := getp i in
    when (bool_decide (state p = RUNNING)) (modp i (set_rtime (u64 (rtime p + 1)))) ;;
    release (LProc i)) all_procs.

(** [clockintr] of [kernel/trap.c] on CPU 0; the other CPUs only rearm their
    timer. *)
Definition clockintr (cpuid : Z) : K unit :=
  when (cpuid =? 0)
    (acquire LTicks ;;
     modify (fun s => set_ticks (u32 (ticks s + 1)) s) ;;
     update_time ;;
     wakeup TicksChan ;;
     release LTicks).

(** [struct proc_info] *)
Record proc_info := mkinfo {
  pi_pid : Z; pi_ppid : Z; pi_state : Z; pi_name : list Z; pi_sz : Z
}.

(** Its 40 bytes in memory; 4 bytes of padding are left uninitialised. *)
Definition info_bytes (x : proc_info) : list Z :=
  le_bytes 4 (pi_pid x) ++ le_bytes 4 (pi_ppid x) ++ le_bytes 4 (pi_state x) ++
  pi_name x ++ replicate 4 uninit_byte ++ le_bytes 8 (pi_sz x).

Definition info_of (ps : list proc) (p : proc) : proc_info :=
  mkinfo (pid p)
    (match parent p with
     | Some j => default (-1) (pid <$> ps !! j)
     | None => -1
     end)
    (procstate_num (state p))
    (safestrcpy_arr (replicate 16 uninit_byte) (name p) 15)
    (sz p).

(** The table scan of [getptable]: at most [n] entries of used slots. *)
Fixpoint getptable_scan (ps l : list proc) (n : nat) : list proc_info :=
  match l, n with
  | [], _ | _, O => []
  | p :: l', S n' =>
      if decide (state p = UNUSED) then getptable_scan ps l' n
      else info_of ps p :: getptable_scan ps l' n'
  end.

Definition getptable (n addr : Z) : K Z :=
  if n <? 1 then ret 0
  else
    acquire LPtable ;;
    let! ps := gets procs in
    let pi := getptable_scan ps ps (Z.to_nat n) in
    release LPtable ;;
    let! i := cur in
    let! p := getp i in
    let! c := svc (copy_out (pagetable p) addr (concat (info_bytes <$> pi))) in
    ret (if c <? 0 then 0 else 1).

Definition state_name (s : procstate) : string :=
  match s with
  | UNUSED => "unused" | USED => "used" | SLEEPING => "sleep "
  | RUNNABLE => "runble" | RUNNING => "run   " | ZOMBIE => "zombie"
  end.

(** [procdump] prints [pid state name] for every used slot, without locks. *)
Definition procdump : K unit :=
  printf "\n" [] ;;
  for_each (fun i =>
    let! p := getp i in
    if decide (state p = UNUSED) then ret tt
    else
      printf "%d %s %s" ([pid p] ++ bytes_of_string (state_name (state p)) ++ name p) ;;
      printf "\n" []) all_procs.

End Proc.
