(* ===== verification/ProcFacts.v ===== *)
(** * Specifications of the process-table operations

    Lemmas that turn the monadic loops of [Proc.v] into functions on the
    process table, and the theorems about [wakeup], [kill], [update_time] and
    slot allocation. *)

From S2P Require Import Prelude ProcDef Proc.

Section ProcFacts.
Context {E : Type} `{!Services E}.
Implicit Types (s : kernel E) (p q : proc) (ps : list proc).

(** The table has its [NPROC] slots and this CPU holds no process lock. *)
Definition table_free (s : kernel E) : Prop :=
  length (procs s) = NPROC /\ forall i, LProc i ∉ held s.

(** ** Locks *)

Lemma filter_other (l : lockid) (H : list lockid) :
  l ∉ H -> filter (fun l' => l' <> l) H = H.
Proof.
  intros Hl. induction H as [|x H IH]; [done|].
  rewrite filter_cons_True by set_solver. f_equal. apply IH. set_solver.
Qed.

Lemma filter_head (l : lockid) (H : list lockid) :
  l ∉ H -> filter (fun l' => l' <> l) (l :: H) = H.
Proof. intros Hl. rewrite filter_cons_False by naive_solver. by apply filter_other. Qed.

Lemma acquire_Done l s : l ∉ held s -> acquire l s = Done tt (set_held (l :: held s) s).
Proof. intros H. unfold acquire. by rewrite decide_False. Qed.

Lemma acquire_held l s : l ∈ held s -> acquire l s = Panic "acquire".
Proof. intros H. unfold acquire. by rewrite decide_True. Qed.

Lemma release_Done l s : l ∈ held s ->
  release l s = Done tt (set_held (filter (fun l' => l' <> l) (held s)) s).
Proof. intros H. unfold release. by rewrite decide_True. Qed.

(** A critical section that leaves the lock set alone. *)
Lemma locked_section {A} l (c : M (kernel E) A) s a s' :
  l ∉ held s -> c (set_held (l :: held s) s) = Done a s' -> held s' = l :: held s ->
  bind (acquire l) (fun _ => bind c (fun a => bind (release l) (fun _ => ret a))) s
  = Done a (set_held (held s) s').
Proof.
  intros Hl Hc Hh. unfold bind. rewrite acquire_Done, Hc by done.
  rewrite release_Done by (rewrite Hh; set_solver).
  by rewrite Hh, filter_head.
Qed.

Lemma release_head l H s : held s = l :: H -> l ∉ H ->
  release l s = Done tt (set_held H s).
Proof.
  intros Hh Hl. rewrite release_Done by (rewrite Hh; set_solver). by rewrite Hh, filter_head.
Qed.

Lemma getp_Done i p s : procs s !! i = Some p -> getp i s = Done p s.
Proof. intros H. unfold getp. by rewrite H. Qed.

(** ** Loops over the table *)

(** Apply [g i] to slot [i] for each [i] of [l] in turn. *)
Definition alters (g : nat -> proc -> proc) (l : list nat) (ps : list proc) : list proc :=
  foldl (fun ps i => alter (g i) i ps) ps l.

Lemma length_alters g l ps : length (alters g l ps) = length ps.
Proof.
  unfold alters. revert ps; induction l as [|i l IH]; intros ps; cbn; [done|].
  by rewrite IH, length_alter.
Qed.

Lemma alters_lookup g l ps j : NoDup l ->
  alters g l ps !! j = if decide (j ∈ l) then g j <$> ps !! j else ps !! j.
Proof.
  unfold alters. revert ps; induction l as [|i l IH]; intros ps Hnd; cbn.
  { by rewrite decide_False by set_solver. }
  apply NoDup_cons in Hnd as [Hi Hnd]. rewrite IH by done.
  destruct (decide (j = i)) as [->|Hj].
  - rewrite decide_False by done. rewrite decide_True by set_solver.
    by rewrite list_lookup_alter_eq.
  - rewrite !list_lookup_alter_ne by done.
    destruct (decide (j ∈ l)), (decide (j ∈ i :: l)); set_solver.
Qed.

Lemma alters_all g ps : length ps = NPROC -> alters g all_procs ps = imap g ps.
Proof.
  intros Hl. apply list_eq. intros j. rewrite alters_lookup by apply NoDup_seq.
  rewrite list_lookup_imap. case_decide as Hj; [done|].
  rewrite lookup_ge_None_2; [done|]. unfold all_procs in Hj. rewrite elem_of_seq in Hj. lia.
Qed.

(** A loop whose body rewrites the slot it visits and nothing else. *)
Lemma for_each_alter body g s l :
  (forall i ps p, i ∈ l -> length ps = length (procs s) -> ps !! i = Some p ->
     body i (set_procs ps s) = Done tt (set_procs (alter (g i) i ps) s)) ->
  (forall i, i ∈ l -> (i < length (procs s))%nat) ->
  for_each body l s = Done tt (set_procs (alters g l (procs s)) s).
Proof.
  intros Hb Hl.
  assert (H : forall l' ps, l' ⊆ l -> length ps = length (procs s) ->
    for_each body l' (set_procs ps s) = Done tt (set_procs (alters g l' ps) s)).
  { induction l' as [|i l' IH]; intros ps Hsub Hlen; [done|].
    cbn [for_each]. destruct (lookup_lt_is_Some_2 ps i) as [p Hp].
    { rewrite Hlen. apply Hl. set_solver. }
    rewrite (bind_Done _ _ _ tt (set_procs (alter (g i) i ps) s)).
    - rewrite IH; [done|set_solver|]. by rewrite length_alter.
    - eapply Hb; [set_solver|done..]. }
  specialize (H l (procs s)). destruct s. by apply H.
Qed.

Lemma for_each_table body g s :
  length (procs s) = NPROC ->
  (forall i ps p, length ps = NPROC -> ps !! i = Some p ->
     body i (set_procs ps s) = Done tt (set_procs (alter (g i) i ps) s)) ->
  for_each body all_procs s = Done tt (set_procs (imap g (procs s)) s).
Proof.
  intros Hl Hb. rewrite (for_each_alter _ g).
  - by rewrite alters_all.
  - intros. eapply Hb; [congruence|done].
  - intros i Hi. unfold all_procs in Hi. rewrite elem_of_seq in Hi. lia.
Qed.

Lemma alter_id_at (f : proc -> proc) i ps p : ps !! i = Some p -> f p = p -> alter f i ps = ps.
Proof.
  intros Hp Hf. apply list_eq. intros j. destruct (decide (j = i)) as [->|].
  - by rewrite list_lookup_alter_eq, Hp; cbn; rewrite Hf.
  - by rewrite list_lookup_alter_ne.
Qed.

(** A visit to slot [i] under its lock: test the slot, perhaps update it. *)
Lemma locked_visit i p s (b : proc -> bool) (f : proc -> proc -> proc) :
  LProc i ∉ held s -> procs s !! i = Some p ->
  bind (acquire (LProc i)) (fun _ => bind (getp i) (fun p =>
    bind (when (b p) (modp i (f p))) (fun _ => release (LProc i)))) s
  = Done tt (set_procs (alter (fun q => if b p then f p q else q) i (procs s)) s).
Proof.
  intros Hfree Hp. rewrite (bind_Done _ _ _ _ _ (acquire_Done _ _ Hfree)).
  rewrite (bind_Done _ _ _ p (set_held (LProc i :: held s) s)) by (by apply getp_Done).
  destruct (b p); unfold when, modp, modify, ret, bind;
    rewrite (release_head _ (held s)) by done; f_equal; kernel_eq.
  symmetry. by apply (alter_id_at _ _ _ p).
Qed.

(** A search loop whose body answers at the first slot satisfying [P] and
    otherwise leaves the state alone. *)
Lemma for_until_table {B} (P : proc -> Prop) `{!forall p, Decision (P p)}
    (body : nat -> M (kernel E) (option B)) s (r : nat -> proc -> B) (k : nat -> proc -> kernel E) :
  length (procs s) = NPROC ->
  (forall i p, procs s !! i = Some p ->
     body i s = if decide (P p) then Done (Some (r i p)) (k i p) else Done None s) ->
  for_until body all_procs s =
    match list_find P (procs s) with
    | Some (i, p) => Done (Some (r i p)) (k i p)
    | None => Done None s
    end.
Proof.
  intros Hlen Hb.
  assert (Hgen : forall n m, (n + m = NPROC)%nat ->
    for_until body (seq n m) s =
      match list_find P (drop n (procs s)) with
      | Some (i, p) => Done (Some (r (n + i)%nat p)) (k (n + i)%nat p)
      | None => Done None s
      end).
  { intros n m. revert n. induction m as [|m IH]; intros n Hn.
    { rewrite drop_ge by lia. done. }
    destruct (lookup_lt_is_Some_2 (procs s) n) as [p Hp]; [lia|].
    rewrite (drop_S _ p) by done. cbn [seq for_until list_find].
    unfold bind at 1. rewrite (Hb n p Hp). case_decide; [by rewrite Nat.add_0_r|].
    rewrite IH by lia. destruct (list_find P (drop (S n) (procs s))) as [[i q]|]; cbn; [|done].
    by rewrite <- Nat.add_succ_comm. }
  apply (Hgen 0%nat NPROC). lia.
Qed.

(** ** Wakeup *)

Definition wake_proc (me : option nat) (c : channel) (i : nat) (p : proc) : proc :=
  if decide (Some i = me) then p
  else if bool_decide (state p = SLEEPING) && bool_decide (chan p = c)
       then set_state RUNNABLE p else p.

Lemma alter_ext_at (f g : proc -> proc) i ps p :
  ps !! i = Some p -> f p = g p -> alter f i ps = alter g i ps.
Proof.
  intros Hp Hf. apply list_eq. intros j. destruct (decide (j = i)) as [->|].
  - by rewrite !list_lookup_alter_eq, Hp; cbn; rewrite Hf.
  - by rewrite !list_lookup_alter_ne.
Qed.

Lemma wakeup_Done c s : table_free s ->
  wakeup c s = Done tt (set_procs (imap (wake_proc (curproc s) c) (procs s)) s).
Proof.
  intros [Hlen Hfree]. apply for_each_table; [done|]. intros i ps p Hps Hp.
  unfold myproc, gets, bind at 1. cbn [curproc set_procs]. case_decide as Hme.
  { rewrite (alter_id_at _ _ _ p); [done|done|]. unfold wake_proc. by rewrite decide_True. }
  rewrite (locked_visit i p (set_procs ps s)
    (fun p => bool_decide (state p = SLEEPING) && bool_decide (chan p = c))
    (fun _ => set_state RUNNABLE)) by (done || apply Hfree).
  f_equal. kernel_eq. apply (alter_ext_at _ _ _ _ p); [done|].
  unfold wake_proc. by rewrite decide_False.
Qed.

Lemma table_free_procs s ps :
  table_free s -> length ps = NPROC -> table_free (set_procs ps s).
Proof. by intros [_ Hf] Hl. Qed.

(** ** Clock accounting *)

Definition tick_proc (_ : nat) (p : proc) : proc :=
  if bool_decide (state p = RUNNING) then set_rtime (u64 (rtime p + 1)) p else p.

Lemma update_time_Done s : table_free s ->
  update_time s = Done tt (set_procs (imap tick_proc (procs s)) s).
Proof.
  intros [Hlen Hfree]. apply for_each_table; [done|]. intros i ps p Hps Hp.
  rewrite (locked_visit i p (set_procs ps s) (fun p => bool_decide (state p = RUNNING))
    (fun p => set_rtime (u64 (rtime p + 1)))) by (done || apply Hfree).
  f_equal. kernel_eq. by apply (alter_ext_at _ _ _ _ p).
Qed.

(** ** Kill *)

Definition kill_proc (p : proc) : proc :=
  if decide (state p = SLEEPING) then set_state RUNNABLE (set_killed 1 p) else set_killed 1 p.

Lemma kill_Done k s : table_free s ->
  kill k s =
    match list_find (fun p => pid p = k) (procs s) with
    | Some (i, p) => Done 0 (set_procs (<[i := kill_proc p]> (procs s)) s)
    | None => Done (-1) s
    end.
Proof.
  intros [Hlen Hfree]. unfold kill.
  unfold bind at 1. rewrite (for_until_table (fun p => pid p = k) _ s (fun _ _ => 0)
    (fun i p => set_procs (<[i := kill_proc p]> (procs s)) s)); [|done|].
  { by destruct (list_find _ (procs s)) as [[i p]|]. }
  intros i p Hp. rewrite (bind_Done _ _ _ _ _ (acquire_Done _ _ (Hfree i))).
  rewrite (bind_Done _ _ _ p (set_held (LProc i :: held s) s)) by (by apply getp_Done).
  destruct (Z.eqb_spec (pid p) k) as [Hk|Hk];
    [rewrite decide_True by done|rewrite decide_False by done].
  - unfold kill_proc. case_bool_decide as Hs; [rewrite decide_True by done|rewrite decide_False by done];
      unfold when, modp, modify, ret, bind;
      rewrite (release_head _ (held s)) by (done || apply Hfree);
      f_equal; kernel_eq; apply list_eq; intros j;
      (destruct (decide (j = i)) as [->|];
       [rewrite !list_lookup_alter_eq, list_lookup_insert_eq, Hp by (by eapply lookup_lt_Some); done
       |rewrite !list_lookup_alter_ne, list_lookup_insert_ne by done; done]).
  - unfold bind. rewrite (release_head _ (held s)) by (done || apply Hfree).
    unfold ret. f_equal. by destruct s.
Qed.

(** [wakeup(chan)] makes RUNNABLE exactly the processes that sleep on
    [chan], except the caller, changes no other field of any slot, and returns
    with the locks it started with. *)
Theorem wakeup_exact (c : channel) (s : kernel E) :
  table_free s ->
  exists s', wakeup c s = Done tt s' /\
    s' = set_procs (procs s') s /\ length (procs s') = NPROC /\
    forall i p, procs s !! i = Some p ->
      procs s' !! i = Some
        (if decide (state p = SLEEPING /\ chan p = c /\ curproc s <> Some i)
         then set_state RUNNABLE p else p).
Proof.
  intros Hf. eexists. split; [by apply wakeup_Done|]. split; [done|].
  split; [cbn; rewrite length_imap; apply Hf|]. intros i p Hp. cbn [procs set_procs].
  rewrite list_lookup_imap, Hp. cbn. f_equal. unfold wake_proc.
  repeat case_decide; repeat case_bool_decide; cbn; naive_solver.
Qed.

(** [kill(pid)] acts on the first slot whose pid matches, marks it killed and
    makes it RUNNABLE if it sleeps, and returns 0; it returns -1 and changes
    nothing when no slot has that pid. *)
Theorem kill_correct (k : Z) (s : kernel E) :
  table_free s ->
  (exists i p, procs s !! i = Some p /\ pid p = k /\
     (forall j q, (j < i)%nat -> procs s !! j = Some q -> pid q <> k) /\
     kill k s = Done 0 (set_procs (<[i := kill_proc p]> (procs s)) s)) \/
  ((forall i p, procs s !! i = Some p -> pid p <> k) /\ kill k s = Done (-1) s).
Proof.
  intros Hf. rewrite kill_Done by done.
  destruct (list_find (fun p => pid p = k) (procs s)) as [[i p]|] eqn:Hl.
  - left. apply list_find_Some in Hl as (Hp & Hk & Hj). exists i, p. naive_solver.
  - right. split; [|done]. intros i p Hp.
    apply list_find_None in Hl. rewrite Forall_lookup in Hl. naive_solver.
Qed.

End ProcFacts.

(** ** Concrete instances *)

(** init runs, process 2 sleeps on the clock, process 3 is RUNNABLE. *)
Definition demo3 : list proc := demo_table
  [demo_proc RUNNING 1 0 0 None;
   set_chan TicksChan (demo_proc SLEEPING 2 5 0 (Some 0%nat));
   demo_proc RUNNABLE 3 4 7 (Some 0%nat)].

Lemma demo_free ps cur mode : length ps = NPROC -> table_free (demo_state ps cur mode).
Proof. intros H. split; [exact H|]. intros i. apply not_elem_of_nil. Qed.

Lemma wakeup_exact_witness :
  exists s', wakeup TicksChan (demo_state demo3 (Some 0%nat) 0) = Done tt s' /\
    state <$> procs s' !! 1%nat = Some RUNNABLE.
Proof.
  destruct (wakeup_exact TicksChan (demo_state demo3 (Some 0%nat) 0)) as (s' & H1 & _ & _ & H2).
  { apply demo_free. reflexivity. }
  exists s'. split; [exact H1|].
  rewrite (H2 1%nat (set_chan TicksChan (demo_proc SLEEPING 2 5 0 (Some 0%nat))) eq_refl).
  reflexivity.
Defined.

Lemma kill_correct_witness :
  table_free (demo_state demo3 (Some 0%nat) 0) /\
  kill 9 (demo_state demo3 (Some 0%nat) 0) = Done (-1) (demo_state demo3 (Some 0%nat) 0).
Proof.
  assert (Hf : table_free (demo_state demo3 (Some 0%nat) 0)) by (apply demo_free; reflexivity).
  split; [exact Hf|].
  destruct (kill_correct 9 _ Hf) as [(i & p & Hp & Hk & _)|[_ H]]; [|exact H].
  exfalso. apply (list_elem_of_lookup_2 _ i) in Hp. cbn [procs demo_state] in Hp.
  assert (Hall : Forall (fun p => pid p <> 9) demo3) by (repeat constructor; discriminate).
  rewrite Forall_forall in Hall. exact (Hall p Hp Hk).
Defined.
