(* ===== verification/Sched.v ===== *)
(** * The CPU scheduler: [scheduler] of [kernel/proc.c]

    One iteration of the scheduler loop: the scan of the process table in each
    of the three modes, with the lock of the candidate kept across the scan,
    the dispatch of the chosen process, and the cleanup after the process has
    switched back.

    Theorems: the scan never panics and returns holding exactly the lock of the
    chosen process; FCFS mode picks the RUNNABLE process with the earliest
    creation time and priority mode the one with the largest priority, both
    breaking ties by table position; "round robin" mode picks the lowest
    RUNNABLE slot, whoever ran last ([Timer.v] draws the consequence). *)

From S2P Require Import Prelude ProcDef Proc ProcFacts.

Section Sched.
Context {E : Type} `{!Services E}.
Abbreviation K := (M (kernel E)).

(** The scan of [SCHED_ROUND_ROBIN]: stop at the first RUNNABLE slot. *)
Definition pick_round_robin : K (option nat) :=
  for_until (fun i =>
    acquire (LProc i) ;;
    let! p := getp i in
    if decide (state p = RUNNABLE) then ret (Some i)
    else release (LProc i) ;; ret None) all_procs.

(** The scan of [SCHED_FCFS] and [SCHED_PRIORITY], which differ in the test
    [better p chosen]; [chosen]'s lock stays held. *)
Fixpoint pick_best (better : proc -> proc -> bool) (l : list nat) (chosen : option nat)
    : K (option nat) :=
  match l with
  | [] => ret chosen
  | i :: l' =>
      acquire (LProc i) ;;
      let! p := getp i in
      if decide (state p = RUNNABLE) then
        let! take := match chosen with
                     | None => ret true
                     | Some c => let! q := getp c in ret (better p q)
                     end in
        if (take : bool) then
          match chosen with Some c => release (LProc c) | None => ret tt end ;;
          pick_best better l' (Some i)
        else release (LProc i) ;; pick_best better l' chosen
      else release (LProc i) ;; pick_best better l' chosen
  end.

Definition fcfs_better (p chosen : proc) : bool := ctime p <? ctime chosen.
Definition priority_better (p chosen : proc) : bool := priority p >? priority chosen.

Definition scheduler_choose : K (option nat) :=
  let! mode := gets sched_mode in
  if mode =? SCHED_ROUND_ROBIN then pick_round_robin
  else if mode =? SCHED_FCFS then pick_best fcfs_better all_procs None
  else if mode =? SCHED_PRIORITY then pick_best priority_better all_procs None
  else ret None.

(** [chosen->state = RUNNING; c->proc = chosen; ...] before [swtch]. *)
Definition scheduler_dispatch (i : nat) : K unit :=
  modp i (set_state RUNNING) ;;
  modify (set_curproc (Some i)) ;;
  let! t := gets ticks in
  modp i (fun p => if starttime p =? 0 then set_starttime t p else p).

(** [release(&chosen->lock); c->proc = 0;] after [swtch] came back. *)
Definition scheduler_return (i : nat) : K unit :=
  release (LProc i) ;; modify (set_curproc None).

(** One iteration of the loop up to [swtch] ([None]: [wfi]). *)
Definition scheduler_iter : K (option nat) :=
  let! chosen := scheduler_choose in
  match chosen with
  | Some i => scheduler_dispatch i ;; ret (Some i)
  | None => ret None
  end.

(** ** What the scans compute *)

(** [r] is the best RUNNABLE slot below [n]: smallest key, then smallest index. *)
Definition best_below (key : proc -> Z) (ps : list proc) (n : nat) (r : option nat) : Prop :=
  match r with
  | None => forall j q, (j < n)%nat -> ps !! j = Some q -> state q <> RUNNABLE
  | Some c => exists p, (c < n)%nat /\ ps !! c = Some p /\ state p = RUNNABLE /\
      forall j q, (j < n)%nat -> ps !! j = Some q -> state q = RUNNABLE ->
        key p <= key q /\ ((j < c)%nat -> key p < key q)
  end.

Lemma best_below_unique key ps n r1 r2 :
  best_below key ps n r1 -> best_below key ps n r2 -> r1 = r2.
Proof.
  destruct r1 as [c1|], r2 as [c2|]; cbn; intros H1 H2; [| | |done].
  - destruct H1 as (p1 & ? & ? & ? & H1), H2 as (p2 & ? & ? & ? & H2). f_equal.
    destruct (H1 c2 p2) as [? Hlt1]; [done..|]. destruct (H2 c1 p1) as [? Hlt2]; [done..|].
    destruct (lt_eq_lt_dec c1 c2) as [[Hc|Hc]|Hc]; [|done|]; [specialize (Hlt2 Hc)|specialize (Hlt1 Hc)]; lia.
  - destruct H1 as (p1 & ? & ? & ? & _). naive_solver.
  - destruct H2 as (p2 & ? & ? & ? & _). naive_solver.
Qed.

Lemma best_below_skip key ps n r p :
  best_below key ps n r -> ps !! n = Some p -> state p <> RUNNABLE ->
  best_below key ps (S n) r.
Proof.
  intros Hr Hp Hs. destruct r as [c|]; cbn in *.
  - destruct Hr as (pc & ? & ? & ? & Hr). exists pc.
    split; [lia|]. split; [done|]. split; [done|]. intros j q Hj Hq Hrun.
    destruct (decide (j = n)) as [->|]; [naive_solver|]. apply Hr; done || lia.
  - intros j q Hj Hq. destruct (decide (j = n)) as [->|]; [naive_solver|]. apply (Hr j); done || lia.
Qed.

Lemma best_below_keep key ps n c p pc :
  best_below key ps n (Some c) -> ps !! c = Some pc -> ps !! n = Some p ->
  key pc <= key p -> best_below key ps (S n) (Some c).
Proof.
  intros (pc' & Hc & Hpc & Hs & Hr) Hpc' Hp Hle.
  assert (pc' = pc) by congruence. subst pc'. exists pc.
  split; [lia|]. split; [done|]. split; [done|]. intros j q Hj Hq Hrun.
  destruct (decide (j = n)) as [->|]; [simplify_eq; split; lia|]. apply Hr; done || lia.
Qed.

Lemma best_below_take key ps n r p :
  best_below key ps n r -> ps !! n = Some p -> state p = RUNNABLE ->
  (forall c pc, r = Some c -> ps !! c = Some pc -> key p < key pc) ->
  best_below key ps (S n) (Some n).
Proof.
  intros Hr Hp Hs Hlt. exists p. split; [lia|]. split; [done|]. split; [done|].
  intros j q Hj Hq Hrun. destruct (decide (j = n)) as [->|]; [simplify_eq; split; lia|].
  destruct r as [c|]; cbn in Hr.
  - destruct Hr as (pc & Hc & Hpc & _ & Hr). specialize (Hlt c pc eq_refl Hpc).
    destruct (Hr j q) as [? _]; [lia|done..|]. split; lia.
  - exfalso. apply (Hr j q); done || lia.
Qed.

(** Locks held while [r] is the current choice. *)
Definition with_choice (r : option nat) (s : kernel E) : kernel E :=
  set_held (match r with Some c => LProc c :: held s | None => held s end) s.

Lemma release_second i c H (s : kernel E) :
  held s = LProc i :: LProc c :: H -> LProc c ∉ H -> i <> c ->
  release (LProc c) s = Done tt (set_held (LProc i :: H) s).
Proof.
  intros Hh Hc Hne. rewrite release_Done by (rewrite Hh; set_solver).
  rewrite Hh, filter_cons_True, filter_head by (done || congruence). done.
Qed.

Lemma pick_best_spec better key (s : kernel E) :
  table_free s ->
  (forall p q, better p q = (key p <? key q)) ->
  exists r, pick_best better all_procs None s = Done r (with_choice r s) /\
    best_below key (procs s) NPROC r.
Proof.
  intros [Hlen Hfree] Hbet.
  assert (Hgen : forall m n chosen, (n + m = NPROC)%nat -> best_below key (procs s) n chosen ->
    exists r, pick_best better (seq n m) chosen (with_choice chosen s) = Done r (with_choice r s) /\
      best_below key (procs s) NPROC r).
  { induction m as [|m IH]; intros n chosen Hn Hch.
    { exists chosen. replace NPROC with n by lia. done. }
    destruct (lookup_lt_is_Some_2 (procs s) n) as [p Hp]; [lia|]. cbn [seq pick_best].
    assert (Hni : LProc n ∉ held (with_choice chosen s)).
    { destruct chosen as [c|]; cbn; [|apply Hfree].
      destruct Hch as (pc & ? & _). pose proof (Hfree n). set_solver by lia. }
    rewrite (bind_Done _ _ _ _ _ (acquire_Done _ _ Hni)).
    erewrite bind_Done by (by apply getp_Done).
    assert (Hrel : forall X : M (kernel E) (option nat),
      bind (release (LProc n)) (fun _ => X)
        (set_held (LProc n :: held (with_choice chosen s)) (with_choice chosen s))
      = X (with_choice chosen s)).
    { intros X. erewrite bind_Done by (by apply (release_head _ (held (with_choice chosen s)))).
      f_equal. }
    case_decide as Hrun.
    2:{ rewrite Hrel. apply IH; [lia|]. by eapply best_below_skip. }
    destruct chosen as [c|].
    - destruct Hch as (pc & Hc & Hpc & Hcr & Hbest).
      assert (Hch : best_below key (procs s) n (Some c)) by (by exists pc).
      rewrite (bind_Done _ _ _ (better p pc)
        (set_held (LProc n :: held (with_choice (Some c) s)) (with_choice (Some c) s)))
        by (unfold bind; by rewrite (getp_Done c pc)).
      rewrite Hbet. destruct (Z.ltb_spec (key p) (key pc)).
      + erewrite bind_Done.
        2:{ eapply (release_second n c (held s)); [done|apply Hfree|lia]. }
        apply IH; [lia|]. eapply best_below_take; [done..|]. naive_solver.
      + rewrite Hrel. apply IH; [lia|]. by eapply best_below_keep.
    - unfold bind at 1, ret at 1. cbn iota. unfold bind at 1, ret at 1.
      apply IH; [lia|]. eapply best_below_take; [done..|]. naive_solver. }
  destruct (Hgen NPROC 0%nat None) as (r & Hr & Hb); [lia|cbn; lia|].
  exists r. split; [|done]. rewrite <- Hr. unfold with_choice, all_procs. by destruct s.
Qed.

Lemma pick_round_robin_spec (s : kernel E) :
  table_free s ->
  exists r, pick_round_robin s = Done r (with_choice r s) /\
    best_below (fun _ => 0) (procs s) NPROC r.
Proof.
  intros [Hlen Hfree]. unfold pick_round_robin.
  rewrite (for_until_table (fun p => state p = RUNNABLE) _ s (fun i _ => i)
    (fun i _ => with_choice (Some i) s)); [|done|].
  - destruct (list_find _ (procs s)) as [[i p]|] eqn:Hf.
    + apply list_find_Some in Hf as (Hp & Hr & Hj). exists (Some i). split; [done|].
      exists p. split; [apply lookup_lt_Some in Hp; lia|]. split; [done|]. split; [done|].
      intros j q _ Hq Hrun. split; [lia|]. intros Hlt. by destruct (Hj j q).
    + apply list_find_None in Hf. rewrite Forall_lookup in Hf. exists None.
      split; [by destruct s|]. cbn. naive_solver.
  - intros i p Hp. rewrite (bind_Done _ _ _ _ _ (acquire_Done _ _ (Hfree i))).
    erewrite bind_Done by (by apply getp_Done). case_decide; [done|].
    erewrite bind_Done by (by apply (release_head _ (held s))). by destruct s.
Qed.

(** The ordering each mode schedules by. *)
Definition mode_key (mode : Z) (p : proc) : Z :=
  if mode =? SCHED_FCFS then ctime p
  else if mode =? SCHED_PRIORITY then - priority p
  else 0.

Lemma scheduler_choose_spec (s : kernel E) :
  table_free s -> 0 <= sched_mode s <= 2 ->
  exists r, scheduler_choose s = Done r (with_choice r s) /\
    best_below (mode_key (sched_mode s)) (procs s) NPROC r.
Proof.
  intros Hf Hm. unfold scheduler_choose, gets, bind, mode_key.
  unfold SCHED_ROUND_ROBIN, SCHED_FCFS, SCHED_PRIORITY.
  destruct (Z.eqb_spec (sched_mode s) 0) as [->|]; [by apply pick_round_robin_spec|].
  destruct (Z.eqb_spec (sched_mode s) 1) as [_|].
  { apply (pick_best_spec fcfs_better ctime); done. }
  destruct (Z.eqb_spec (sched_mode s) 2) as [_|]; [|lia].
  apply (pick_best_spec priority_better (fun p => - priority p)); [done|].
  intros p q. unfold priority_better.
  destruct (Z.gtb_spec (priority p) (priority q)), (Z.ltb_spec (- priority p) (- priority q)); lia || done.
Qed.

(** C14: in FCFS mode the scheduler picks, among the RUNNABLE processes, the one
    created earliest, and the lowest slot among those created in the same tick;
    it idles only when none is RUNNABLE.  It keeps exactly the chosen process's
    lock, and the scan itself changes nothing else. *)
Theorem fcfs_picks_oldest (s : kernel E) :
  table_free s -> sched_mode s = SCHED_FCFS ->
  exists r, scheduler_choose s = Done r (with_choice r s) /\
    best_below ctime (procs s) NPROC r.
Proof.
  intros Hf Hm. destruct (scheduler_choose_spec s Hf) as (r & H1 & H2).
  { rewrite Hm. unfold SCHED_FCFS. lia. }
  exists r. split; [exact H1|]. rewrite Hm in H2. exact H2.
Qed.

(** In priority mode the scheduler picks a RUNNABLE process of maximal
    priority number, the lowest slot among equals, holding exactly its lock. *)
Theorem priority_picks_highest (s : kernel E) :
  table_free s -> sched_mode s = SCHED_PRIORITY ->
  exists r, scheduler_choose s = Done r (with_choice r s) /\
    match r with
    | Some c => exists p, procs s !! c = Some p /\ state p = RUNNABLE /\
        forall j q, procs s !! j = Some q -> state q = RUNNABLE ->
          priority q <= priority p /\ ((j < c)%nat -> priority q < priority p)
    | None => forall j q, procs s !! j = Some q -> state q <> RUNNABLE
    end.
Proof.
  intros Hf Hm. destruct (scheduler_choose_spec s Hf) as (r & H1 & H2).
  { rewrite Hm. unfold SCHED_PRIORITY. lia. }
  exists r. split; [exact H1|]. rewrite Hm in H2. unfold mode_key in H2. cbn in H2.
  assert (Hlt : forall j q, procs s !! j = Some q -> (j < NPROC)%nat).
  { intros j q Hq. apply lookup_lt_Some in Hq. destruct Hf as [<- _]. done. }
  clear H1. destruct r as [c|]; cbn in H2.
  - destruct H2 as (p & _ & Hp & Hr & Hb). exists p. split; [done|]. split; [done|].
    intros j q Hq Hrun. destruct (Hb j q) as [? Hs]; [by eapply Hlt|done..|].
    split; [lia|]. intros Hj. specialize (Hs Hj). lia.
  - intros j q Hq. eapply H2; [by eapply Hlt|done].
Qed.

(** "round robin" mode does not look at who ran last: it always picks the
    lowest-numbered RUNNABLE slot, so a RUNNABLE process is never picked while a
    lower slot stays RUNNABLE. *)
Theorem round_robin_picks_lowest_slot (s : kernel E) :
  table_free s -> sched_mode s = SCHED_ROUND_ROBIN ->
  exists r, scheduler_choose s = Done r (with_choice r s) /\
    match r with
    | Some c => exists p, procs s !! c = Some p /\ state p = RUNNABLE /\
        forall j q, (j < c)%nat -> procs s !! j = Some q -> state q <> RUNNABLE
    | None => forall j q, procs s !! j = Some q -> state q <> RUNNABLE
    end.
Proof.
  intros Hf Hm. destruct (scheduler_choose_spec s Hf) as (r & H1 & H2).
  { rewrite Hm. unfold SCHED_ROUND_ROBIN. lia. }
  exists r. split; [exact H1|]. rewrite Hm in H2. unfold mode_key in H2. cbn in H2.
  assert (Hlt : forall j q, procs s !! j = Some q -> (j < NPROC)%nat).
  { intros j q Hq. apply lookup_lt_Some in Hq. destruct Hf as [<- _]. done. }
  clear H1. destruct r as [c|]; cbn in H2.
  - destruct H2 as (p & Hc & Hp & Hr & Hb). exists p. split; [done|]. split; [done|].
    intros j q Hj Hq Hrun. destruct (Hb j q) as [_ Hs]; [lia|done..|].
    specialize (Hs Hj). lia.
  - intros j q Hq. eapply H2; [by eapply Hlt|done].
Qed.

(** ** Preemption *)

Lemma yield_enter_Done i p (s : kernel E) :
  curproc s = Some i -> held s = [] -> procs s !! i = Some p ->
  yield_enter s = Done tt
    (set_held [LProc i] (set_procs (alter (set_state RUNNABLE) i (procs s)) s)).
Proof.
  intros Hc Hh Hp. unfold yield_enter, cur, bind at 1. rewrite Hc.
  erewrite bind_Done by (apply acquire_Done; rewrite Hh; apply not_elem_of_nil).
  unfold modp, modify, bind, sched. cbn [curproc set_procs set_held procs held].
  rewrite Hc, list_lookup_alter_eq, Hp, Hh. cbn.
  rewrite decide_False by (intros Hn; apply Hn; set_solver).
  repeat case_decide; try done.
Qed.

End Sched.

(** ** Concrete instances *)

(** Three RUNNABLE processes: slot 0 youngest, slot 1 oldest, slot 2 most
    important. *)
Definition demo_queue : list proc := demo_table
  [demo_proc RUNNABLE 1 9 0 None;
   demo_proc RUNNABLE 2 3 1 (Some 0%nat);
   demo_proc RUNNABLE 3 5 7 (Some 0%nat)].

Lemma demo_queue_free cur mode : table_free (demo_state demo_queue cur mode).
Proof. apply demo_free. reflexivity. Qed.

Lemma demo_queue_cases j q : demo_queue !! j = Some q -> state q = RUNNABLE ->
  (j = 0%nat /\ q = demo_proc RUNNABLE 1 9 0 None) \/
  (j = 1%nat /\ q = demo_proc RUNNABLE 2 3 1 (Some 0%nat)) \/
  (j = 2%nat /\ q = demo_proc RUNNABLE 3 5 7 (Some 0%nat)).
Proof.
  intros Hq Hrun. destruct j as [|[|[|j]]]; try (injection Hq as <-; naive_solver).
  exfalso. apply (list_elem_of_lookup_2 _ j), elem_of_replicate_inv in Hq.
  subst. discriminate Hrun.
Qed.

Lemma fcfs_picks_oldest_witness :
  exists s', scheduler_choose (demo_state demo_queue None 1) = Done (Some 1%nat) s'.
Proof.
  destruct (fcfs_picks_oldest (demo_state demo_queue None 1) (demo_queue_free None 1) eq_refl)
    as (r & H1 & H2).
  assert (Hb : best_below ctime demo_queue NPROC (Some 1%nat)).
  { exists (demo_proc RUNNABLE 2 3 1 (Some 0%nat)).
    split; [unfold NPROC; lia|]. split; [reflexivity|]. split; [reflexivity|].
    intros j q _ Hq Hrun.
    destruct (demo_queue_cases j q Hq Hrun) as [[-> ->]|[[-> ->]|[-> ->]]]; cbn; lia. }
  exists (with_choice r (demo_state demo_queue None 1)).
  rewrite (best_below_unique _ _ _ _ _ Hb H2). exact H1.
Defined.

Lemma priority_picks_highest_witness :
  exists s', scheduler_choose (demo_state demo_queue None 2) = Done (Some 2%nat) s'.
Proof.
  destruct (priority_picks_highest (demo_state demo_queue None 2) (demo_queue_free None 2) eq_refl)
    as (r & H1 & H2).
  exists (with_choice r (demo_state demo_queue None 2)). rewrite H1. f_equal.
  destruct r as [c|].
  - destruct H2 as (p & Hp & Hr & Hb).
    destruct (Hb 2%nat (demo_proc RUNNABLE 3 5 7 (Some 0%nat)) eq_refl eq_refl) as [H _].
    destruct (demo_queue_cases c p Hp Hr) as [[-> ->]|[[-> ->]|[-> ->]]];
      [cbn in H; lia|cbn in H; lia|reflexivity].
  - exfalso. exact (H2 2%nat (demo_proc RUNNABLE 3 5 7 (Some 0%nat)) eq_refl eq_refl).
Defined.

Lemma round_robin_picks_lowest_slot_witness :
  exists s', scheduler_choose (demo_state demo_queue None 0) = Done (Some 0%nat) s'.
Proof.
  destruct (round_robin_picks_lowest_slot (demo_state demo_queue None 0)
    (demo_queue_free None 0) eq_refl) as (r & H1 & H2).
  exists (with_choice r (demo_state demo_queue None 0)). rewrite H1. f_equal.
  destruct r as [c|].
  - destruct H2 as (p & Hp & Hr & Hb). destruct c as [|c]; [reflexivity|].
    exfalso. apply (Hb 0%nat (demo_proc RUNNABLE 1 9 0 None)); [lia|reflexivity|reflexivity].
  - exfalso. exact (H2 0%nat (demo_proc RUNNABLE 1 9 0 None) eq_refl eq_refl).
Defined.
