(* ===== verification/ProcLife.v ===== *)
(** * The life of a process: allocation, fork, exit, wait

    Effects of [freeproc], [allocproc], [fork], [exit] and [wait] on the process
    table, each as an equation or an inversion lemma for every outcome, used by
    the table invariant of [ProcInv.v]. *)

From S2P Require Import Prelude ProcDef Proc ProcFacts.

Section ProcLife.
Context {E : Type} `{!Services E}.
Implicit Types (s : kernel E) (p q : proc) (ps : list proc).

(** [alter] chains on one slot collapse to one insertion. *)
Lemma alter_insert_at (f : proc -> proc) i ps p :
  ps !! i = Some p -> alter f i ps = <[i := f p]> ps.
Proof.
  intros Hp. apply list_eq. intros j. destruct (decide (j = i)) as [->|].
  - rewrite list_lookup_alter_eq, list_lookup_insert_eq, Hp; [done|by eapply lookup_lt_Some].
  - by rewrite list_lookup_alter_ne, list_lookup_insert_ne.
Qed.

Lemma alter_insert_same (f : proc -> proc) i ps x :
  alter f i (<[i := x]> ps) = <[i := f x]> ps.
Proof.
  apply list_eq. intros j. destruct (decide (j = i)) as [->|].
  - rewrite list_lookup_alter_eq. destruct (decide (i < length ps)%nat).
    + by rewrite !list_lookup_insert_eq.
    + by rewrite !lookup_ge_None_2 by (rewrite ?length_insert; lia).
  - by rewrite list_lookup_alter_ne, !list_lookup_insert_ne.
Qed.

(** [slot_updates i p]: rewrite a chain of updates of slot [i], which holds [p]. *)
Ltac slot_updates Hp :=
  rewrite ?(alter_insert_at _ _ _ _ Hp), ?alter_insert_same.

Lemma svc_Done_inv {A} (f : E -> result E A) s a s' :
  svc f s = Done a s' -> exists e, f (env s) = Done a e /\ s' = set_env e s.
Proof. unfold svc. destruct (f (env s)) eqn:Hf; naive_solver. Qed.

Lemma when_svc_inv b (f : E -> result E unit) s s' :
  when b (svc f) s = Done tt s' -> exists e, s' = set_env e s.
Proof.
  destruct b; cbn [when]; intros H.
  - apply svc_Done_inv in H as (e & _ & ->). by exists e.
  - injection H as <-. exists (env s). by destruct s.
Qed.

(** The slot after [freeproc]. *)
Definition freed (t : Z) (p : proc) : proc :=
  set_completetime t (set_responded 0 (set_state UNUSED (set_xstate 0 (set_killed 0
    (set_chan NullChan (set_name (<[0%nat := 0]> (name p)) (set_parent None (set_pid 0
    (set_sz 0 (set_pagetable 0 (set_tf_page 0 p))))))))))).

Lemma freeproc_inv i p s s' :
  procs s !! i = Some p -> freeproc i s = Done tt s' ->
  exists e, s' = set_env e (set_procs (<[i := freed (ticks s) p]> (procs s)) s).
Proof.
  intros Hp Hf. unfold freeproc in Hf.
  rewrite (bind_Done _ _ _ _ _ (getp_Done i p s Hp)) in Hf.
  apply bind_Done_inv in Hf as ([] & s1 & H1 & Hf).
  assert (exists e, s1 = set_env e s) as [e1 ->].
  { by apply when_svc_inv in H1. }
  unfold modp at 1, modify at 1, bind at 1 in Hf.
  apply bind_Done_inv in Hf as ([] & s2 & H2 & Hf).
  assert (exists e, s2 = set_env e (set_procs (alter (set_tf_page 0) i (procs s)) s)) as [e2 ->].
  { apply when_svc_inv in H2 as [e2 ->]. exists e2. kernel_eq. }
  unfold modp, modify, bind, gets in Hf. injection Hf as <-.
  exists e2. kernel_eq. slot_updates Hp. done.
Qed.

(** The failure paths of [allocproc] and [fork]: free the slot and unlock it. *)
Lemma drop_slot_inv {A} i q H (v r : A) s s' :
  procs s !! i = Some q -> held s = LProc i :: H -> LProc i ∉ H ->
  (bind (freeproc i) (fun _ => bind (release (LProc i)) (fun _ => ret v))) s = Done r s' ->
  r = v /\ exists e, s' = set_env e (set_held H (set_procs (<[i := freed (ticks s) q]> (procs s)) s)).
Proof.
  intros Hq Hh Hn Hd. apply bind_Done_inv in Hd as ([] & s1 & H1 & Hd).
  apply (freeproc_inv _ q) in H1 as [e' ->]; [|done].
  apply bind_Done_inv in Hd as ([] & s2 & H2 & Hd).
  rewrite (release_head _ H) in H2 by done.
  injection H2 as <-. injection Hd as <- <-. split; [done|]. exists e'. kernel_eq.
Qed.

(** Searching for an unused slot keeps the lock of the slot found. *)
Lemma alloc_search s :
  table_free s ->
  for_until (fun i =>
    bind (acquire (LProc i)) (fun _ => bind (getp i) (fun p =>
      if decide (state p = UNUSED) then ret (Some i)
      else bind (release (LProc i)) (fun _ => ret None)))) all_procs s =
  match list_find (fun p => state p = UNUSED) (procs s) with
  | Some (i, _) => Done (Some i) (set_held (LProc i :: held s) s)
  | None => Done None s
  end.
Proof.
  intros [Hlen Hfree].
  rewrite (for_until_table (fun p => state p = UNUSED) _ s (fun i _ => i)
    (fun i _ => set_held (LProc i :: held s) s)); [|done|].
  - by destruct (list_find _ _) as [[i p]|].
  - intros i p Hp. rewrite (bind_Done _ _ _ _ _ (acquire_Done _ _ (Hfree i))).
    erewrite bind_Done by (by apply getp_Done). case_decide; [done|].
    erewrite bind_Done by (by apply (release_head _ (held s))). by destruct s.
Qed.

Lemma allocpid_Done s : LPid ∉ held s ->
  allocpid s = Done (nextpid s) (set_nextpid (s32 (nextpid s + 1)) s).
Proof.
  intros Hl. unfold allocpid. rewrite (bind_Done _ _ _ _ _ (acquire_Done _ _ Hl)).
  unfold gets, modify, bind at 1 2.
  erewrite bind_Done by (by apply (release_head _ (held s))).
  unfold ret. f_equal; kernel_eq.
Qed.

(** The slot [allocproc] hands out: its previous contents [p] with a new
    identity; [killed], [xstate], [chan], [starttime], [is_benchmark_process],
    files and name are not reset. *)
Definition fresh (np pa pt t : Z) (p : proc) : proc :=
  set_rtime 0 (set_priority 0 (set_completetime 0 (set_ctime t
    (set_ctx (mkcontext forkret_pc (kstack p + PGSIZE) (replicate 12 0))
    (set_pagetable pt (set_tf junk_tf (set_tf_page pa (set_state USED (set_pid np p))))))))).

(** An unused slot after a failed allocation. *)
Definition dropped (t : Z) (p p' : proc) : Prop :=
  exists q, p' = freed t q /\ state p = UNUSED.

Lemma allocproc_inv s r s' :
  table_free s -> LPid ∉ held s -> allocproc s = Done r s' ->
  match r with
  | Some i => exists p pa pt e, list_find (fun p => state p = UNUSED) (procs s) = Some (i, p) /\
      procs s !! i = Some p /\ state p = UNUSED /\ pt <> 0 /\
      s' = set_env e (set_held (LProc i :: held s) (set_nextpid (s32 (nextpid s + 1))
             (set_procs (<[i := fresh (nextpid s) pa pt (ticks s) p]> (procs s)) s)))
  | None =>
      s' = s \/
      exists i p p' e, procs s !! i = Some p /\ dropped (ticks s) p p' /\
        s' = set_env e (set_nextpid (s32 (nextpid s + 1))
               (set_procs (<[i := p']> (procs s)) s))
  end.
Proof.
  intros Hf Hpid Ha. unfold allocproc, bind at 1 in Ha. rewrite alloc_search in Ha by done.
  destruct (list_find _ (procs s)) as [[i p]|] eqn:Hl;
    [|unfold ret in Ha; simplify_eq; by left].
  pose proof Hl as (Hp & Hu & _)%list_find_Some. destruct Hf as [Hlen Hfree].
  rewrite (bind_Done _ _ _ _ _ (allocpid_Done (set_held (LProc i :: held s) s)
    ltac:(kproj; set_solver))) in Ha.
  unfold modp at 1 2, modify at 1 2, bind at 1 2 in Ha.
  apply bind_Done_inv in Ha as (pa & s1 & H1 & Ha).
  apply svc_Done_inv in H1 as (e1 & _ & ->).
  unfold modp at 1, modify at 1, bind at 1 in Ha.
  destruct (Z.eqb_spec pa 0) as [->|Hpa].
  { match type of Ha with _ ?st = _ => replace st with
      (set_env e1 (set_held (LProc i :: held s) (set_nextpid (s32 (nextpid s + 1))
        (set_procs (<[i := set_tf_page 0 (set_state USED (set_pid (nextpid s) p))]> (procs s)) s))))
      in Ha by (kernel_eq; by slot_updates Hp) end.
    eapply drop_slot_inv in Ha; [|kproj; apply list_lookup_insert_eq; by eapply lookup_lt_Some|kproj; done|apply Hfree].
    destruct Ha as (-> & e' & ->). right. exists i, p. eexists _, e'.
    split; [done|]. split; [by eexists|]. kernel_eq. by rewrite list_insert_insert_eq. }
  unfold modp at 1, modify at 1, bind at 1 in Ha.
  apply bind_Done_inv in Ha as (pt & s2 & H2 & Ha).
  apply svc_Done_inv in H2 as (e2 & _ & ->).
  unfold modp at 1, modify at 1, bind at 1 in Ha.
  destruct (Z.eqb_spec pt 0) as [->|Hpt].
  { match type of Ha with _ ?st = _ => replace st with
      (set_env e2 (set_held (LProc i :: held s) (set_nextpid (s32 (nextpid s + 1))
        (set_procs (<[i := set_pagetable 0 (set_tf junk_tf (set_tf_page pa
          (set_state USED (set_pid (nextpid s) p))))]> (procs s)) s))))
      in Ha by (kernel_eq; by slot_updates Hp) end.
    eapply drop_slot_inv in Ha; [|kproj; apply list_lookup_insert_eq; by eapply lookup_lt_Some|kproj; done|apply Hfree].
    destruct Ha as (-> & e' & ->). right. exists i, p. eexists _, e'.
    split; [done|]. split; [by eexists|]. kernel_eq. by rewrite list_insert_insert_eq. }
  unfold modp, modify, gets, bind, ret in Ha. injection Ha as <- <-.
  exists p, pa, pt, e2. split; [done|]. split; [done|]. split; [done|]. split; [done|].
  kernel_eq. by slot_updates Hp.
Qed.

End ProcLife.
