(* ===== verification/ProcInv.v ===== *)
(** * Effects of fork, exit and wait on the process table

    A relational reading of the operations that create and destroy processes:
    every completed run of [fork] is one of the outcomes [fork_outcome], every
    completed [exit] has [exit_effect], every scan of [wait] one of
    [scan_outcome].  [keeps R c] says that all completed runs of [c] stay within
    the preorder [R]; [quiet] is the preorder of the calls into the file layer. *)

From S2P Require Import Prelude ProcDef Proc ProcFacts Sched ProcLife.

Section ProcInv.
Context {E : Type} `{!Services E}.
Implicit Types (s t : kernel E) (p q : proc) (ps : list proc).

Lemma bind_release {A} l H (k : unit -> M (kernel E) A) s :
  held s = l :: H -> (l ∉ H) -> bind (release l) k s = k tt (set_held H s).
Proof. intros. by erewrite bind_Done by (by apply (release_head _ H)). Qed.

(** ** Quiet computations *)

(** What file-layer calls and wakeups may do to slot [i]: wake it up, or change
    fields the table invariant does not speak of. *)
Definition quiet_slot (me : option nat) (i : nat) (p p' : proc) : Prop :=
  pid p' = pid p /\ parent p' = parent p /\ xstate p' = xstate p /\ chan p' = chan p /\
  (state p' = state p \/ (state p = SLEEPING /\ state p' = RUNNABLE /\ me <> Some i)).

Definition same_globals (s t : kernel E) : Prop :=
  curproc t = curproc s /\ initproc t = initproc s /\ nextpid t = nextpid s /\
  length (procs t) = length (procs s).

Definition quiet (s t : kernel E) : Prop :=
  same_globals s t /\ held t = held s /\
  forall i p, procs s !! i = Some p ->
    exists p', procs t !! i = Some p' /\ quiet_slot (curproc s) i p p'.

(** Every completed run of [c] relates its states by [R]. *)
Definition keeps {A} (R : kernel E -> kernel E -> Prop) (c : M (kernel E) A) : Prop :=
  forall s a t, c s = Done a t -> R s t.

#[global] Instance quiet_preorder : PreOrder quiet.
Proof.
  split.
  - intros s. split; [done|]. split; [done|]. intros i p Hp. exists p. unfold quiet_slot. auto 10.
  - intros s t u (Hg1 & Hh1 & H1) (Hg2 & Hh2 & H2). unfold same_globals in *.
    destruct Hg1 as (Hc & ? & ? & ?), Hg2 as (? & ? & ? & ?).
    split; [split_and!; congruence|]. split; [congruence|]. intros i p Hp.
    destruct (H1 i p Hp) as (p1 & Hp1 & Q1). destruct (H2 i p1 Hp1) as (p2 & Hp2 & Q2).
    exists p2. split; [done|]. rewrite Hc in Q2.
    unfold quiet_slot in *. destruct Q1 as (? & ? & ? & ? & [?|(? & ? & ?)]), Q2 as (? & ? & ? & ? & [?|(? & ? & ?)]);
      repeat split; try congruence;
      first [left; congruence | right; split_and!; congruence].
Qed.

Section Keeps.
Context (R : kernel E -> kernel E -> Prop) `{!PreOrder R}.

Lemma keeps_ret {A} (a : A) : keeps R (ret a).
Proof. intros s b t H. injection H as _ <-. reflexivity. Qed.

Lemma keeps_bind {A B} (c : M (kernel E) A) (k : A -> M (kernel E) B) :
  keeps R c -> (forall a, keeps R (k a)) -> keeps R (bind c k).
Proof.
  intros Hc Hk s b u H. apply bind_Done_inv in H as (a & t & H1 & H2).
  transitivity t; [by eapply Hc|by eapply Hk].
Qed.

Lemma keeps_for_each {A} (f : A -> M (kernel E) unit) l :
  (forall a, keeps R (f a)) -> keeps R (for_each f l).
Proof. intros Hf. induction l; [apply keeps_ret|]. cbn. by apply keeps_bind. Qed.

Lemma keeps_when b (c : M (kernel E) unit) : keeps R c -> keeps R (when b c).
Proof. intros H. destruct b; [done|apply keeps_ret]. Qed.

Lemma keeps_gets {A} (f : kernel E -> A) : keeps R (gets f).
Proof. intros s a t H. injection H as _ <-. reflexivity. Qed.
End Keeps.

Lemma keeps_getp i : keeps quiet (getp i).
Proof.
  intros s a t H. unfold getp in H. destruct (procs s !! i); [|done].
  injection H as _ <-. reflexivity.
Qed.

Lemma keeps_svc {A} (f : E -> result E A) : keeps quiet (svc f).
Proof.
  intros s a t H. apply svc_Done_inv in H as (e & _ & ->). split; [done|]. split; [done|].
  intros i p Hp. exists p. unfold quiet_slot. auto 10.
Qed.

Lemma keeps_modp i (f : proc -> proc) :
  (forall p, quiet_slot (Some i) i p (f p)) -> keeps quiet (modp i f).
Proof.
  intros Hf s a t H. injection H as _ <-. split.
  { split_and!; try done. cbn. by rewrite length_alter. }
  split; [done|]. intros j p Hp. cbn [procs set_procs]. destruct (decide (j = i)) as [->|Hne].
  - rewrite list_lookup_alter_eq, Hp. eexists. split; [done|].
    destruct (Hf p) as (? & ? & ? & ? & [?|(? & ? & ?)]); unfold quiet_slot; naive_solver.
  - rewrite list_lookup_alter_ne by done. exists p. unfold quiet_slot. auto 10.
Qed.

(** A global counter or the console is not part of the table. *)
Lemma keeps_modify (f : kernel E -> kernel E) :
  (forall s, same_globals s (f s) /\ held (f s) = held s /\ procs (f s) = procs s) ->
  keeps quiet (modify f).
Proof.
  intros Hf s a t H. injection H as _ <-. destruct (Hf s) as (Hg & Hh & Hp).
  split; [done|]. split; [done|]. intros i p Hi. rewrite Hp. exists p. unfold quiet_slot. auto 10.
Qed.

Lemma acquire_inv l s a t : acquire l s = Done a t ->
  (l ∉ held s) /\ t = set_held (l :: held s) s.
Proof. unfold acquire. case_decide; naive_solver. Qed.

Lemma keeps_wakeup c : keeps quiet (wakeup c).
Proof.
  apply (keeps_for_each _). intros i s a t H. unfold myproc, gets, bind at 1 in H.
  case_decide as Hme; [by apply (keeps_ret quiet _ _ _ _ H)|].
  assert (Hl : LProc i ∉ held s).
  { apply bind_Done_inv in H as (? & ? & H & _). by apply acquire_inv in H as []. }
  destruct (procs s !! i) as [p|] eqn:Hp; last first.
  { rewrite (bind_Done _ _ _ _ _ (acquire_Done _ _ Hl)) in H.
    unfold bind, getp in H. cbn [procs set_held] in H. by rewrite Hp in H. }
  rewrite (locked_visit i p s
    (fun p => bool_decide (state p = SLEEPING) && bool_decide (chan p = c))
    (fun _ => set_state RUNNABLE)) in H by done.
  injection H as _ <-. split.
  { split_and!; try done. cbn. by rewrite length_alter. }
  split; [done|]. intros j q Hq. cbn [procs set_procs]. destruct (decide (j = i)) as [->|Hne].
  - rewrite list_lookup_alter_eq, Hq. eexists. split; [done|].
    assert (q = p) as -> by congruence. unfold quiet_slot.
    case_bool_decide; cbn; [|by auto 10]. case_bool_decide; cbn; [|by auto 10].
    repeat split; try done. right. naive_solver.
  - rewrite list_lookup_alter_ne by done. exists q. unfold quiet_slot. auto 10.
Qed.

Create HintDb quiet discriminated.
#[local] Hint Resolve keeps_getp keeps_svc keeps_wakeup : quiet.

(** [quiet_tac]: decompose a computation whose pieces are all quiet. *)
Ltac quiet_tac :=
  repeat match goal with
  | |- keeps quiet (bind _ _) => apply (keeps_bind _); [|intros ?]
  | |- keeps quiet (for_each _ _) => apply (keeps_for_each _); intros ?
  | |- keeps quiet (when _ _) => apply (keeps_when _)
  | |- keeps quiet (modp _ _) => apply keeps_modp; intros ?; unfold quiet_slot; cbn; by auto 10
  | |- keeps quiet (modify _) => apply keeps_modify; intros ?; unfold same_globals; cbn; by auto 10
  | |- keeps quiet (match ?x with _ => _ end) => destruct x
  | |- keeps quiet (ret _) => apply (keeps_ret _)
  | |- keeps quiet (gets _) => apply (keeps_gets _)
  | |- _ => by auto with quiet
  end.

Lemma keeps_exit_files i : keeps quiet (exit_files i).
Proof. unfold exit_files, wakeups. quiet_tac. Qed.

Lemma keeps_exit_metrics i : keeps quiet (exit_metrics i).
Proof. unfold exit_metrics, printf. quiet_tac. Qed.


(** ** Fork *)

(** Only the [ofile] table of slot [n] and the file layer change. *)
Definition files_only (n : nat) (s t : kernel E) : Prop :=
  (exists e, t = set_env e (set_procs (procs t) s)) /\
  (forall j, j <> n -> procs t !! j = procs s !! j) /\
  (procs s !! n = None -> procs t !! n = None) /\
  (forall p, procs s !! n = Some p -> exists o, procs t !! n = Some (set_ofile o p)).

#[local] Instance files_only_preorder n : PreOrder (files_only n).
Proof.
  split.
  - intros s. split; [exists (env s); by destruct s|]. split; [done|]. split; [done|].
    intros p Hp. exists (ofile p). by destruct p.
  - intros s t u ([e He] & Ho1 & Hn1 & H1) ([e' He'] & Ho2 & Hn2 & H2). split.
    { exists e'. rewrite He', He. kernel_eq. }
    split; [intros j Hj; by rewrite Ho2, Ho1|]. split; [by auto|].
    intros p Hp. destruct (H1 p Hp) as [o1 Hp1]. destruct (H2 _ Hp1) as [o2 Hp2].
    exists o2. by destruct p.
Qed.

Lemma keeps_fork_files n p : keeps (files_only n) (fork_files n p).
Proof.
  apply (keeps_for_each _). intros fd. destruct (ofile p !! fd) as [f|]; [|apply (keeps_ret _)].
  destruct (f =? 0); [apply (keeps_ret _)|]. apply (keeps_bind _).
  - intros s a t H. apply svc_Done_inv in H as (e & _ & ->).
    split; [by exists e|]. split; [done|]. split; [done|].
    intros q Hq. exists (ofile q). kproj. rewrite Hq. by destruct q.
  - intros f' s a t H. injection H as _ <-. split; [exists (env s); by destruct s|].
    cbn [procs set_procs]. split; [intros; by apply list_lookup_alter_ne|].
    rewrite list_lookup_alter_eq. split; [by intros ->|]. intros q Hq. rewrite Hq. by eexists.
Qed.

(** The test by which [fork] recognises children of the benchmark. *)
Definition is_schedbench (p : proc) : bool :=
  strncmp_arr (name p) (bytes_of_string "schedbench") 16 =? 0.

(** The child's slot when [fork] returns: the slot [q0] that [allocproc] filled
    ([q1]), with the parent's image [p]. *)
Definition child_of (me : nat) (p q1 : proc) (o : list Z) (ip : Z) : proc :=
  set_state RUNNABLE (set_parent (Some me)
    (set_is_benchmark_process (if is_schedbench p then 1 else is_benchmark_process q1)
    (set_name (safestrcpy_arr (name q1) (name p) 15) (set_cwd ip (set_ofile o
      (set_tf (<[TF_a0 := 0]> (tf p)) (set_sz (sz p) q1))))))).

(** Outcomes of [fork] by process [me] with image [p]. *)
Inductive fork_outcome (me : nat) (p : proc) (s : kernel E) : Z -> kernel E -> Prop :=
| fork_no_slot :
    fork_outcome me p s (-1) s
| fork_no_memory n q q' e :
    procs s !! n = Some q -> state q = UNUSED ->
    fork_outcome me p s (-1)
      (set_env e (set_nextpid (s32 (nextpid s + 1))
        (set_procs (<[n := freed (ticks s) q']> (procs s)) s)))
| fork_child n q pa pt o ip e :
    procs s !! n = Some q -> state q = UNUSED -> pt <> 0 ->
    fork_outcome me p s (nextpid s)
      (set_env e (set_total_benchmark_processes
        (if is_schedbench p then s32 (total_benchmark_processes s + 1)
         else total_benchmark_processes s)
        (set_nextpid (s32 (nextpid s + 1))
        (set_procs (<[n := child_of me p (fresh (nextpid s) pa pt (ticks s) q) o ip]>
          (procs s)) s)))).

(** The state while [fork] works on slot [n], now holding [q]. *)
Definition at_slot (s : kernel E) (n : nat) (q : proc) (H : list lockid) (tot : Z) (e : E)
    : kernel E :=
  set_env e (set_total_benchmark_processes tot (set_held H (set_nextpid (s32 (nextpid s + 1))
    (set_procs (<[n := q]> (procs s)) s)))).

Section AtSlot.
Context (s : kernel E) (n : nat) (Hn : (n < length (procs s))%nat).
Context {A : Type}.
Implicit Types (H : list lockid) (tot : Z) (e : E).

Lemma at_slot_getp q H tot e (k : proc -> M (kernel E) A) :
  bind (getp n) k (at_slot s n q H tot e) = k q (at_slot s n q H tot e).
Proof. apply bind_Done, getp_Done. by apply list_lookup_insert_eq. Qed.

Lemma at_slot_getp_ne i p q H tot e (k : proc -> M (kernel E) A) :
  i <> n -> procs s !! i = Some p ->
  bind (getp i) k (at_slot s n q H tot e) = k p (at_slot s n q H tot e).
Proof.
  intros Hi Hp. apply bind_Done, getp_Done.
  unfold at_slot. kproj. by rewrite list_lookup_insert_ne.
Qed.

Lemma at_slot_modp f q H tot e (k : unit -> M (kernel E) A) :
  bind (modp n f) k (at_slot s n q H tot e) = k tt (at_slot s n (f q) H tot e).
Proof.
  apply bind_Done. unfold modp, modify. f_equal. unfold at_slot. kernel_eq.
  apply alter_insert_same.
Qed.

Lemma at_slot_acquire l q H tot e (k : unit -> M (kernel E) A) :
  (l ∉ H) ->
  bind (acquire l) k (at_slot s n q H tot e) = k tt (at_slot s n q (l :: H) tot e).
Proof.
  intros Hl. by erewrite bind_Done by (by apply acquire_Done).
Qed.

Lemma at_slot_release l q H tot e (k : unit -> M (kernel E) A) :
  (l ∉ H) ->
  bind (release l) k (at_slot s n q (l :: H) tot e) = k tt (at_slot s n q H tot e).
Proof.
  intros Hl. by erewrite bind_Done by (by apply (release_head _ H)).
Qed.
End AtSlot.

Lemma at_slot_fork_files s n p q H tot e u t :
  (n < length (procs s))%nat ->
  fork_files n p (at_slot s n q H tot e) = Done u t ->
  exists o e', t = at_slot s n (set_ofile o q) H tot e'.
Proof.
  intros Hn Hf. apply keeps_fork_files in Hf as ([e' He] & Hj & _ & Hq).
  destruct (Hq q) as [o Ho]; [by apply list_lookup_insert_eq|].
  exists o, e'. rewrite He. unfold at_slot in *. kernel_eq. apply list_eq. intros j.
  destruct (decide (j = n)) as [->|Hne].
  - by rewrite Ho, list_lookup_insert_eq.
  - rewrite Hj by done. kproj. by rewrite !list_lookup_insert_ne.
Qed.

(** The benchmark bookkeeping of [fork]. *)
Lemma at_slot_benchmark c s n q H tot e u t :
  when c (bind (modp n (set_is_benchmark_process 1)) (fun _ =>
    modify (fun s => set_total_benchmark_processes (s32 (total_benchmark_processes s + 1)) s)))
    (at_slot s n q H tot e) = Done u t ->
  t = at_slot s n (set_is_benchmark_process (if c then 1 else is_benchmark_process q) q) H
        (if c then s32 (tot + 1) else tot) e.
Proof.
  destruct c; cbn [when]; intros Hc.
  - rewrite at_slot_modp in Hc. by injection Hc as _ <-.
  - injection Hc as _ <-. by destruct q.
Qed.

Lemma fork_inv me p s v s' :
  curproc s = Some me -> procs s !! me = Some p -> state p <> UNUSED ->
  table_free s -> (LPid ∉ held s) -> (LWait ∉ held s) ->
  fork s = Done v s' -> fork_outcome me p s v s'.
Proof.
  intros Hcur Hp Hused Hf Hpid Hwait H. pose proof Hf as [Hlen Hfree].
  unfold fork, cur, bind at 1 in H. rewrite Hcur in H.
  apply bind_Done_inv in H as (r & s1 & H1 & H). apply allocproc_inv in H1; [|done..].
  destruct r as [n|]; last first.
  { injection H as <- <-. destruct H1 as [->|(n & q & q' & e & Hq & Hd & ->)].
    - apply fork_no_slot.
    - destruct Hd as (q'' & -> & Hu). by apply (fork_no_memory _ _ _ n q). }
  destruct H1 as (q & pa & pt & e & _ & Hq & Hu & Hpt & ->).
  set (q1 := fresh (nextpid s) pa pt (ticks s) q) in *.
  assert (Hne : me <> n) by congruence.
  assert (Hn : (n < length (procs s))%nat) by (by eapply lookup_lt_Some).
  match type of H with _ ?st = _ => replace st with
    (at_slot s n q1 (LProc n :: held s) (total_benchmark_processes s) e) in H
    by (unfold at_slot; kernel_eq) end.
  rewrite (at_slot_getp_ne s n me p), at_slot_getp in H by done.
  apply bind_Done_inv in H as (c & s2 & H2 & H). apply svc_Done_inv in H2 as (e2 & _ & ->).
  change (set_env e2 (at_slot s n q1 (LProc n :: held s) (total_benchmark_processes s) e))
    with (at_slot s n q1 (LProc n :: held s) (total_benchmark_processes s) e2) in H.
  destruct (c <? 0).
  { eapply (drop_slot_inv _ q1 (held s)) in H;
      [|by apply list_lookup_insert_eq|done|apply Hfree].
    destruct H as (-> & e' & ->).
    match goal with |- fork_outcome _ _ _ _ ?st => replace st with
      (set_env e' (set_nextpid (s32 (nextpid s + 1))
        (set_procs (<[n := freed (ticks s) q1]> (procs s)) s))) end.
    - by apply (fork_no_memory _ _ _ n q).
    - unfold at_slot. kernel_eq. by rewrite list_insert_insert_eq. }
  rewrite !at_slot_modp in H.
  apply bind_Done_inv in H as ([] & s3 & H3 & H).
  apply at_slot_fork_files in H3 as (o & e3 & ->); [|done].
  apply bind_Done_inv in H as (ip & s4 & H4 & H). apply svc_Done_inv in H4 as (e4 & _ & ->).
  match type of H with _ (set_env _ (at_slot _ _ ?x ?y ?z _)) = _ =>
    change (set_env e4 (at_slot s n x y z e3)) with (at_slot s n x y z e4) in H end.
  rewrite !at_slot_modp in H.
  apply bind_Done_inv in H as ([] & s5 & H5 & H).
  apply at_slot_benchmark in H5 as ->. fold (is_schedbench p) in H.
  rewrite at_slot_getp, at_slot_release, at_slot_acquire, at_slot_modp, at_slot_release,
    at_slot_acquire, at_slot_modp, at_slot_release in H by (done || apply Hfree).
  injection H as <- <-.
  match goal with |- fork_outcome _ _ _ ?v ?st => change v with (nextpid s); replace st with
    (set_env e4 (set_total_benchmark_processes (if is_schedbench p
       then s32 (total_benchmark_processes s + 1) else total_benchmark_processes s)
      (set_nextpid (s32 (nextpid s + 1))
      (set_procs (<[n := child_of me p q1 o ip]> (procs s)) s)))) end.
  - by apply (fork_child _ _ _ n q).
  - unfold at_slot. kernel_eq.
Qed.

(** ** Exit *)

(** [quiet] up to children of [me] being handed to init. *)
Definition adopt_slot (me : nat) (ini cp : option nat) (i : nat) (p p' : proc) : Prop :=
  pid p' = pid p /\ xstate p' = xstate p /\ chan p' = chan p /\
  (parent p' = parent p \/ (parent p = Some me /\ parent p' = ini)) /\
  (state p' = state p \/ (state p = SLEEPING /\ state p' = RUNNABLE /\ cp <> Some i)).

Definition adopt (me : nat) (s t : kernel E) : Prop :=
  same_globals s t /\ held t = held s /\
  forall i p, procs s !! i = Some p ->
    exists p', procs t !! i = Some p' /\ adopt_slot me (initproc s) (curproc s) i p p'.

Lemma quiet_adopt me s t : quiet s t -> adopt me s t.
Proof.
  intros (Hg & Hh & Hs). split; [done|]. split; [done|]. intros i p Hp.
  destruct (Hs i p Hp) as (p' & Hp' & ? & ? & ? & ? & ?). exists p'. unfold adopt_slot. auto 10.
Qed.

Lemma adopt_trans me s t u :
  initproc s <> Some me -> adopt me s t -> adopt me t u -> adopt me s u.
Proof.
  intros Hini ((Hc & Hi & Hn & Hl) & Hh1 & H1) ((Hc' & Hi' & Hn' & Hl') & Hh2 & H2).
  split; [split_and!; congruence|]. split; [congruence|]. intros i p Hp.
  destruct (H1 i p Hp) as (p1 & Hp1 & Q1). destruct (H2 i p1 Hp1) as (p2 & Hp2 & Q2).
  exists p2. split; [done|]. rewrite Hc, Hi in Q2. unfold adopt_slot in *.
  destruct Q1 as (? & ? & ? & HP1 & HS1), Q2 as (? & ? & ? & HP2 & HS2).
  split_and!; try congruence.
  - destruct HP1 as [?|[? ?]], HP2 as [?|[? ?]]; try (left; congruence);
      right; split; congruence.
  - destruct HS1 as [?|(? & ? & ?)], HS2 as [?|(? & ? & ?)];
      first [left; congruence | right; split_and!; congruence].
Qed.

Lemma adopt_no_children me s t i p p' :
  initproc s <> Some me -> adopt me s t ->
  procs s !! i = Some p -> procs t !! i = Some p' -> parent p <> Some me -> parent p' <> Some me.
Proof.
  intros Hini (_ & _ & H) Hp Hp' Hne. destruct (H i p Hp) as (p1 & Hp1 & _ & _ & _ & [?|[? ?]] & _);
    congruence.
Qed.

Lemma adopt_pull me s t i p' :
  adopt me s t -> procs t !! i = Some p' ->
  exists p, procs s !! i = Some p /\ adopt_slot me (initproc s) (curproc s) i p p'.
Proof.
  intros ((_ & _ & _ & Hl) & _ & H) Hp'.
  destruct (lookup_lt_is_Some_2 (procs s) i) as [p Hp].
  { rewrite <- Hl. by eapply lookup_lt_Some. }
  exists p. split; [done|]. destruct (H i p Hp) as (p1 & ? & ?). congruence.
Qed.

(** The body of the loop of [reparent]. *)
Lemma reparent_step me i s t p :
  initproc s <> Some me -> procs s !! i = Some p ->
  (bind (getp i) (fun pp => when (bool_decide (parent pp = Some me))
    (bind (gets initproc) (fun ini => bind (modp i (set_parent ini)) (fun _ =>
      wakeup (chan_of_proc ini)))))) s = Done tt t ->
  adopt me s t /\ forall p', procs t !! i = Some p' -> parent p' <> Some me.
Proof.
  intros Hini Hp H. rewrite (bind_Done _ _ _ _ _ (getp_Done i p s Hp)) in H.
  case_bool_decide as Hme; cbn [when] in H; last first.
  { injection H as <-. split; [apply quiet_adopt; reflexivity|]. congruence. }
  unfold gets, modp, modify, bind in H. set (s1 := set_procs _ s) in H.
  assert (H1 : adopt me s s1).
  { split; [split_and!; try done; cbn; by rewrite length_alter|]. split; [done|].
    intros j q Hq. cbn [procs set_procs s1]. destruct (decide (j = i)) as [->|Hj].
    - rewrite list_lookup_alter_eq, Hq. eexists. split; [done|].
      assert (q = p) as -> by congruence. unfold adopt_slot. cbn. auto 10.
    - rewrite list_lookup_alter_ne by done. exists q. unfold adopt_slot. auto 10. }
  apply keeps_wakeup in H. split.
  - apply (adopt_trans _ _ s1); [done|done|by apply quiet_adopt].
  - intros p' Hp'. destruct (adopt_pull me s1 t i p') as (q & Hq & _ & _ & _ & Hpar & _);
      [by apply quiet_adopt|done|].
    cbn [procs set_procs s1] in Hq. rewrite list_lookup_alter_eq, Hp in Hq. injection Hq as <-.
    cbn in Hpar. destruct Hpar as [->|[? _]]; congruence.
Qed.

Lemma reparent_inv me s t :
  initproc s <> Some me -> length (procs s) = NPROC -> reparent me s = Done tt t ->
  adopt me s t /\ forall i p', procs t !! i = Some p' -> parent p' <> Some me.
Proof.
  intros Hini Hlen H. unfold reparent in H.
  enough (Hg : forall l s, initproc s <> Some me -> (forall i, i ∈ l -> i < length (procs s))%nat ->
    for_each (fun i => bind (getp i) (fun pp => when (bool_decide (parent pp = Some me))
      (bind (gets initproc) (fun ini => bind (modp i (set_parent ini)) (fun _ =>
        wakeup (chan_of_proc ini)))))) l s = Done tt t ->
    adopt me s t /\ forall i p', i ∈ l -> procs t !! i = Some p' -> parent p' <> Some me).
  { apply Hg in H as [Ha Hn]; [|done|]; last first.
    { intros i Hi. apply elem_of_seq in Hi. lia. }
    split; [done|]. intros i p' Hp'. apply (Hn i p'); [|done]. apply elem_of_seq.
    destruct Ha as ((_ & _ & _ & Hl) & _). apply lookup_lt_Some in Hp'. lia. }
  clear. induction l as [|i l IH]; intros s Hini Hl H; cbn [for_each] in H.
  { injection H as <-. split; [apply quiet_adopt; reflexivity|]. set_solver. }
  apply bind_Done_inv in H as ([] & s1 & H1 & H).
  destruct (lookup_lt_is_Some_2 (procs s) i) as [p Hp]; [apply Hl; set_solver|].
  apply (reparent_step me i s s1 p) in H1 as [Ha Hc]; [|done..].
  pose proof Ha as ((Hcur & Hi & _ & Hlen) & _).
  apply IH in H as [Ha2 Hc2]; [|congruence|rewrite Hlen; set_solver].
  split; [by apply (adopt_trans _ _ s1)|]. intros j p' Hj Hp'. apply elem_of_cons in Hj as [->|Hj].
  - destruct (adopt_pull _ _ _ _ _ Ha2 Hp') as (q & Hq & _).
    apply (adopt_no_children me s1 t i q p'); [congruence|done|done|done|by apply Hc].
  - by apply (Hc2 j).
Qed.

Lemma quiet_set_held H s t : quiet s t -> quiet (set_held H s) (set_held H t).
Proof. by intros (Hg & _ & Hs). Qed.

(** The effect of [exit(status)] by process [me], up to its switch to the
    scheduler: only the lock of [me] is held. *)
Record exit_effect (me : nat) (status : Z) (s t : kernel E) : Prop := {
  exit_globals : same_globals s t;
  exit_held : held t = [LProc me];
  exit_slots i p : procs s !! i = Some p -> exists p', procs t !! i = Some p' /\
    pid p' = pid p /\ parent p' <> Some me /\
    (parent p' = parent p \/ (parent p = Some me /\ parent p' = initproc s)) /\
    (if decide (i = me) then state p' = ZOMBIE /\ xstate p' = status
     else xstate p' = xstate p /\ chan p' = chan p /\
       (state p' = state p \/ (state p = SLEEPING /\ state p' = RUNNABLE)))
}.

Lemma sched_inv s u t : sched s = Done u t -> t = s.
Proof. unfold sched. repeat case_match; naive_solver. Qed.

Lemma exit_tail me status s s8 u t :
  curproc s = Some me -> initproc s <> Some me ->
  adopt me (set_held [LWait] s) s8 ->
  (forall i p', procs s8 !! i = Some p' -> parent p' <> Some me) ->
  held s8 = [LWait] ->
  bind (modp me (set_xstate status)) (fun _ => bind (modp me (set_state ZOMBIE)) (fun _ =>
    bind (release LWait) (fun _ => sched))) (set_held [LProc me; LWait] s8) = Done u t ->
  exit_effect me status s t.
Proof.
  intros Hcur Hini (Hg & Hh & Hs) Hc Hh8 H. unfold modp, modify, bind at 1 2 in H.
  apply bind_Done_inv in H as ([] & s9 & H9 & H). apply sched_inv in H as ->.
  rewrite release_Done in H9 by set_solver. injection H9 as <-.
  split; [by destruct Hg as (?&?&?&?); split_and!; cbn; rewrite ?length_alter|done|].
  intros i p Hp. destruct (Hs i p Hp) as (p8 & Hp8 & Q). cbn in Q.
  specialize (Hc i p8 Hp8). destruct Q as (? & ? & ? & ? & Hst).
  kproj. case_decide as Hi.
  - subst i. rewrite !list_lookup_alter_eq, Hp8. eexists. split; [done|]. by cbn.
  - rewrite !list_lookup_alter_ne by done. exists p8. naive_solver.
Qed.

Lemma exit_inv me status s u t :
  curproc s = Some me -> initproc s <> Some me -> length (procs s) = NPROC -> held s = [] ->
  exit status s = Done u t -> exit_effect me status s t.
Proof.
  intros Hcur Hini Hlen Hh H. unfold exit, cur, bind at 1 in H. rewrite Hcur in H.
  unfold gets, bind at 1 in H. rewrite decide_False in H by done.
  (* the file layer *)
  apply bind_Done_inv in H as ([] & s1 & H1 & H). apply keeps_exit_files in H1.
  apply bind_Done_inv in H as (p1 & s1' & H1' & H). apply keeps_getp in H1'.
  apply bind_Done_inv in H as (cs & s2 & H2 & H). apply keeps_svc in H2.
  apply bind_Done_inv in H as ([] & s3 & H3 & H).
  assert (Q3 : quiet s2 s3) by (eapply keeps_for_each; [apply _|apply keeps_wakeup|exact H3]).
  apply bind_Done_inv in H as ([] & s4 & H4 & H).
  assert (Q4 : quiet s3 s4).
  { revert H4. apply keeps_modp. intros q. unfold quiet_slot. cbn. auto 10. }
  assert (Q : quiet s s4) by (by rewrite H1, H1', H2, Q3, Q4).
  clear H1 H1' H2 H3 Q3 H4 Q4.
  (* accounting and reparenting, under wait_lock *)
  apply bind_Done_inv in H as ([] & s5 & H5 & H). apply acquire_inv in H5 as [Hw ->].
  apply bind_Done_inv in H as ([] & s6 & H6 & H). apply keeps_exit_metrics in H6.
  apply bind_Done_inv in H as ([] & s7 & H7 & H).
  set (s0 := set_held [LWait] s).
  assert (A : adopt me s0 s7 /\ forall i p', procs s7 !! i = Some p' -> parent p' <> Some me).
  { assert (Q6 : quiet s0 s6).
    { rewrite <- H6. pose proof Q as (_ & -> & _). rewrite Hh. by apply quiet_set_held. }
    pose proof Q6 as ((_ & Hi6 & _ & Hl6) & _).
    apply reparent_inv in H7 as [A7 C7]; [|rewrite Hi6; exact Hini|rewrite Hl6; exact Hlen].
    split; [|done]. apply (adopt_trans _ _ s6); [exact Hini|by apply quiet_adopt|done]. }
  clear H6 H7 Q Hw.
  (* the parent is woken up, and [me] becomes a zombie *)
  apply bind_Done_inv in H as (p7 & s7' & H7' & H). apply keeps_getp in H7'.
  apply bind_Done_inv in H as ([] & s8 & H8 & H). apply keeps_wakeup in H8.
  rewrite <- H7' in H8. clear H7'. destruct A as [A C].
  apply bind_Done_inv in H as ([] & s9 & H9 & H). apply acquire_inv in H9 as [Hl9 ->].
  pose proof H8 as (_ & Hh8 & _). pose proof A as (_ & Hh7 & _). rewrite Hh7 in Hh8.
  apply (exit_tail _ _ _ s8 u _ Hcur); [done| | |done|].
  - apply (adopt_trans _ _ s7); [done|done|by apply quiet_adopt].
  - intros i p' Hp'. destruct (adopt_pull me s7 s8 i p') as (q & Hq & _);
      [by apply quiet_adopt|done|].
    destruct A as ((_ & Hi & _) & _).
    apply (adopt_no_children me s7 s8 i q p'); [by rewrite Hi|by apply quiet_adopt|done..|by apply (C i)].
  - by rewrite Hh8 in H.
Qed.

(** ** Wait *)

(** Results of one scan of [wait] by process [me], which holds [wait_lock] and
    the locks [H], over the slots [l]. *)
Inductive scan_outcome (me : nat) (H : list lockid) (s : kernel E) (l : list nat) (hk : bool)
    : Z + bool -> kernel E -> Prop :=
| scan_reaped i p e :
    i ∈ l -> procs s !! i = Some p -> parent p = Some me -> state p = ZOMBIE ->
    scan_outcome me H s l hk (inl (pid p))
      (set_env e (set_held H (set_procs (<[i := freed (ticks s) p]> (procs s)) s)))
| scan_fault i p e :
    i ∈ l -> procs s !! i = Some p -> parent p = Some me -> state p = ZOMBIE ->
    scan_outcome me H s l hk (inl (-1)) (set_env e (set_held H s))
| scan_none b :
    (forall i p, i ∈ l -> procs s !! i = Some p -> parent p = Some me -> state p <> ZOMBIE) ->
    (b = true <-> hk = true \/ exists i p, i ∈ l /\ procs s !! i = Some p /\ parent p = Some me) ->
    scan_outcome me H s l hk (inr b) s.

(** Skipping a slot, either not a child or a live child. *)
Lemma scan_outcome_skip me H s i p l hk hk' r t :
  procs s !! i = Some p -> (parent p = Some me -> state p <> ZOMBIE) ->
  hk' = hk || bool_decide (parent p = Some me) ->
  scan_outcome me H s l hk' r t -> scan_outcome me H s (i :: l) hk r t.
Proof.
  intros Hp Hz -> Ho. destruct Ho as [j q e|j q e|b Hn Hb].
  - eapply scan_reaped; eauto. set_solver.
  - eapply scan_fault; eauto. set_solver.
  - apply scan_none.
    + intros j q Hj Hq. apply elem_of_cons in Hj as [->|Hj]; [|by eauto].
      assert (q = p) as -> by congruence. done.
    + rewrite Hb, orb_true_iff, bool_decide_eq_true. split.
      * intros [[?|?]|(j & q & ? & ?)]; [by left|right; exists i, p; set_solver|].
        right. exists j, q. set_solver.
      * intros [?|(j & q & Hj & Hq & ?)]; [by auto|]. apply elem_of_cons in Hj as [->|Hj]; [|right; by exists j, q].
        left. right. congruence.
Qed.

Lemma wait_scan_inv addr me H s r t :
  (forall i, LProc i ∉ H) -> (LWait ∉ H) -> held s = LWait :: H -> forall l hk,
  (forall i, i ∈ l -> i < length (procs s))%nat ->
  wait_scan addr me l hk s = Done r t -> scan_outcome me H s l hk r t.
Proof.
  intros Hf Hw Hh. induction l as [|i l IH]; intros hk Hl Hs; cbn [wait_scan] in Hs.
  { injection Hs as <- <-. apply scan_none; [set_solver|]. set_solver. }
  destruct (lookup_lt_is_Some_2 (procs s) i) as [p Hp]; [apply Hl; set_solver|].
  rewrite (bind_Done _ _ _ _ _ (getp_Done i p s Hp)) in Hs.
  assert (Hl' : forall j, j ∈ l -> (j < length (procs s))%nat) by set_solver.
  case_decide as Hpar; last first.
  { eapply scan_outcome_skip; [done|done| |by apply IH].
    by rewrite bool_decide_eq_false_2, orb_false_r. }
  assert (Hi : LProc i ∉ LWait :: H) by (rewrite not_elem_of_cons; split; [done|apply Hf]).
  rewrite (bind_Done _ _ _ _ _ (acquire_Done (LProc i) s ltac:(by rewrite Hh))) in Hs.
  case_decide as Hz; last first.
  { rewrite (bind_release (LProc i) (LWait :: H)) in Hs by (done || (kproj; by rewrite Hh)).
    match type of Hs with _ ?st = _ => replace st with s in Hs by (kernel_eq; exact Hh) end.
    eapply scan_outcome_skip; [done|done| |by apply IH].
    by rewrite bool_decide_eq_true_2, orb_true_r. }
  apply bind_Done_inv in Hs as (p' & s1 & H1 & Hs).
  apply bind_Done_inv in Hs as (c & s2 & H2 & Hs).
  assert (exists e, s2 = set_env e (set_held (LProc i :: LWait :: H) s)) as [e ->].
  { assert (s1 = set_held (LProc i :: held s) s) as ->.
    { unfold getp in H1. destruct (procs _ !! me); [|done]. by injection H1. }
    rewrite Hh in H2. destruct (addr =? 0).
    - injection H2 as _ <-. exists (env s). kernel_eq.
    - apply svc_Done_inv in H2 as (e & _ & ->). by exists e. }
  clear H1 H2. destruct (c <? 0).
  - rewrite (bind_release (LProc i) (LWait :: H)) in Hs by done.
    rewrite (bind_release LWait H) in Hs by done.
    injection Hs as <- <-.
    match goal with |- scan_outcome _ _ _ _ _ _ ?st =>
      replace st with (set_env e (set_held H s)) by kernel_eq end.
    apply (scan_fault _ _ _ _ _ i p); [set_solver|done..].
  - apply bind_Done_inv in Hs as ([] & s3 & H3 & Hs).
    apply (freeproc_inv i p) in H3 as [e' ->]; [|done].
    rewrite (bind_release (LProc i) (LWait :: H)) in Hs by done.
    rewrite (bind_release LWait H) in Hs by done.
    injection Hs as <- <-.
    match goal with |- scan_outcome _ _ _ _ _ _ ?st => replace st with
      (set_env e' (set_held H (set_procs (<[i := freed (ticks s) p]> (procs s)) s))) by kernel_eq end.
    apply (scan_reaped _ _ _ _ _ i p); [set_solver|done..].
Qed.

(** ** Going to sleep *)

Lemma sleep_enter_inv me c lk s u t :
  curproc s = Some me -> held s = [lk] -> (lk <> LProc me) ->
  sleep_enter c lk s = Done u t ->
  t = set_held [LProc me]
        (set_procs (alter (fun p => set_state SLEEPING (set_chan c p)) me (procs s)) s).
Proof.
  intros Hcur Hh Hlk H. unfold sleep_enter, cur, bind at 1 in H. rewrite Hcur in H.
  apply bind_Done_inv in H as ([] & s1 & H1 & H). apply acquire_inv in H1 as [_ ->].
  apply bind_Done_inv in H as ([] & s2 & H2 & H).
  rewrite release_Done in H2 by (kproj; rewrite Hh; set_solver). injection H2 as <-.
  unfold modp, modify, bind in H. apply sched_inv in H as ->. kernel_eq.
  - by rewrite list_alter_alter_eq.
  - rewrite Hh, !filter_cons, decide_True, decide_False by (congruence || tauto). done.
Qed.

Lemma is_killed_inv i s k t : is_killed i s = Done k t -> t = s.
Proof.
  unfold is_killed. intros H.
  apply bind_Done_inv in H as ([] & s1 & H1 & H). apply acquire_inv in H1 as [Hi ->].
  apply bind_Done_inv in H as (p & s2 & H2 & H).
  unfold getp in H2. destruct (procs _ !! i); [|done]. injection H2 as -> <-.
  rewrite (bind_release _ (held s)) in H by done. injection H as _ <-. by destruct s.
Qed.

(** Results of a round of [wait] by [me], entered with [wait_lock] held. *)
Inductive wait_outcome (me : nat) (s : kernel E) : option Z -> kernel E -> Prop :=
| wait_reaped i p e :
    procs s !! i = Some p -> parent p = Some me -> state p = ZOMBIE ->
    wait_outcome me s (Some (pid p))
      (set_env e (set_held [] (set_procs (<[i := freed (ticks s) p]> (procs s)) s)))
| wait_fault i p e :
    procs s !! i = Some p -> parent p = Some me -> state p = ZOMBIE ->
    wait_outcome me s (Some (-1)) (set_env e (set_held [] s))
| wait_none :
    (forall i p, procs s !! i = Some p -> parent p = Some me -> state p <> ZOMBIE) ->
    wait_outcome me s (Some (-1)) (set_held [] s)
| wait_sleep i p :
    procs s !! i = Some p -> parent p = Some me ->
    (forall i p, procs s !! i = Some p -> parent p = Some me -> state p <> ZOMBIE) ->
    wait_outcome me s None
      (set_held [LProc me] (set_procs
        (alter (fun p => set_state SLEEPING (set_chan (ProcChan me) p)) me (procs s)) s)).

Lemma wait_round_inv addr me s r t :
  curproc s = Some me -> length (procs s) = NPROC -> held s = [LWait] ->
  wait_round addr s = Done r t -> wait_outcome me s r t.
Proof.
  intros Hcur Hlen Hh H. unfold wait_round, cur, bind at 1 in H. rewrite Hcur in H.
  apply bind_Done_inv in H as (x & s1 & H1 & H).
  apply (wait_scan_inv _ _ []) in H1;
    [|intros i; apply not_elem_of_nil|apply not_elem_of_nil|exact Hh|]; last first.
  { intros i Hi. apply elem_of_seq in Hi. lia. }
  assert (Hall : forall i p, procs s !! i = Some p -> i ∈ all_procs).
  { intros i p Hp. apply elem_of_seq. apply lookup_lt_Some in Hp. lia. }
  destruct H1 as [i p e _ ? ? ?|i p e _ ? ? ?|b Hn Hb].
  - injection H as <- <-. by apply (wait_reaped _ _ i).
  - injection H as <- <-. by apply (wait_fault _ _ i p).
  - apply bind_Done_inv in H as (stop & s2 & H2 & H).
    assert (s2 = s) as ->.
    { destruct b; [|by injection H2]. apply bind_Done_inv in H2 as (k & s3 & H3 & H2).
      injection H2 as _ <-. by apply is_killed_inv in H3. }
    destruct stop.
    + rewrite (bind_release _ []) in H by (done || set_solver). injection H as <- <-.
      apply wait_none. naive_solver.
    + apply bind_Done_inv in H as ([] & s3 & H3 & H). injection H as <- <-.
      apply (sleep_enter_inv me) in H3 as ->; [|done..].
      destruct b; [|by injection H2].
      destruct (proj1 Hb eq_refl) as [?|(i & p & _ & ? & ?)]; [done|].
      apply (wait_sleep _ _ i p); [done|done|]. naive_solver.
Qed.

End ProcInv.
