(* ===== verification/ProcTable.v ===== *)
(** * The process table over whole kernel executions

    [kstep] runs the kernel on one CPU, one operation at a time: a step is what
    the kernel does between two points where no spin lock is held, that is a
    system call or interrupt of the running process up to its return or its
    switch to the scheduler, or the scheduler's dispatch of a process up to the
    point where it has left the sleep or yield it was in.

    Theorem [table_ok_reachable]: in every reachable state the table invariant
    [table_ok] holds.  [ProcFork.v] states what [fork] and [wait] do in such a state. *)

From S2P Require Import Prelude ProcDef Proc ProcFacts Sched ProcLife ProcInv.

Section ProcTable.
Context {E : Type} `{!Services E}.
Implicit Types (s t : kernel E) (p q : proc) (ps : list proc).

(** ** The invariant *)

Definition live (p : proc) : Prop := state p <> UNUSED /\ state p <> ZOMBIE.

Record table_ok (s : kernel E) : Prop := {
  ok_len : length (procs s) = NPROC;
  ok_held : held s = [];
  ok_nextpid : 1 <= nextpid s < 2 ^ 31;
  ok_unused i p : procs s !! i = Some p -> state p = UNUSED -> pid p = 0 /\ parent p = None;
  ok_pid i p : procs s !! i = Some p -> state p <> UNUSED -> 1 <= pid p < nextpid s;
  ok_unique i j p q : procs s !! i = Some p -> procs s !! j = Some q ->
    state p <> UNUSED -> pid p = pid q -> i = j;
  ok_init : exists ini p, initproc s = Some ini /\ procs s !! ini = Some p /\ live p /\
    parent p = None;
  ok_parent i p : procs s !! i = Some p -> state p <> UNUSED -> initproc s <> Some i ->
    exists j q, parent p = Some j /\ procs s !! j = Some q /\ live q;
  ok_running i p : procs s !! i = Some p -> (state p = RUNNING <-> curproc s = Some i);
  ok_curproc i : curproc s = Some i -> (i < NPROC)%nat;
  ok_settled i p : procs s !! i = Some p -> state p <> USED
}.

Lemma table_ok_free s : table_ok s -> table_free s.
Proof. intros []. split; [done|]. intros i. rewrite ok_held0. apply not_elem_of_nil. Qed.

Lemma table_ok_current s me : table_ok s -> curproc s = Some me ->
  exists p, procs s !! me = Some p /\ state p = RUNNING.
Proof.
  intros Hok Hc. destruct (lookup_lt_is_Some_2 (procs s) me) as [p Hp].
  { rewrite ok_len by done. by apply (ok_curproc s). }
  exists p. split; [done|]. by apply (ok_running s Hok me p).
Qed.

(** Steps that only move live processes between live states. *)
Definition relabel (s t : kernel E) : Prop :=
  length (procs t) = length (procs s) /\ nextpid t = nextpid s /\ initproc t = initproc s /\
  forall i p', procs t !! i = Some p' -> exists p, procs s !! i = Some p /\
    pid p' = pid p /\ parent p' = parent p /\
    (state p' = state p \/
     (state p' = RUNNABLE \/ state p' = SLEEPING \/ state p' = RUNNING) /\ live p).

Lemma relabel_push s t i p : relabel s t -> procs s !! i = Some p ->
  exists p', procs t !! i = Some p' /\ pid p' = pid p /\ parent p' = parent p /\
    (state p' = state p \/
     (state p' = RUNNABLE \/ state p' = SLEEPING \/ state p' = RUNNING) /\ live p).
Proof.
  intros (Hl & _ & _ & H) Hp. destruct (lookup_lt_is_Some_2 (procs t) i) as [p' Hp'].
  { rewrite Hl. by eapply lookup_lt_Some. }
  exists p'. split; [done|]. destruct (H i p' Hp') as (q & Hq & ?). by simplify_eq.
Qed.

Lemma table_ok_relabel s t :
  table_ok s -> relabel s t -> held t = [] ->
  (forall i p', procs t !! i = Some p' -> (state p' = RUNNING <-> curproc t = Some i)) ->
  (forall i, curproc t = Some i -> (i < NPROC)%nat) ->
  table_ok t.
Proof.
  intros Hok Hr Hh Hrun Hcur. pose proof Hr as (Hl & Hn & Hi & H).
  split; try done.
  - rewrite Hl. by apply ok_len.
  - rewrite Hn. by apply ok_nextpid.
  - intros i p' Hp' Hs. destruct (H i p' Hp') as (p & Hp & -> & -> & [E1|[E1 _]]).
    + apply (ok_unused s Hok i p Hp). congruence.
    + destruct E1 as [?|[?|?]]; congruence.
  - intros i p' Hp' Hs. rewrite Hn. destruct (H i p' Hp') as (p & Hp & -> & _ & [E1|[_ [? ?]]]);
      apply (ok_pid s Hok i p Hp); congruence.
  - intros i j p' q' Hp' Hq' Hs He.
    destruct (H i p' Hp') as (p & Hp & Hpp & _ & Hps), (H j q' Hq') as (q & Hq & Hqp & _).
    apply (ok_unique s Hok i j p q Hp Hq); [|congruence].
    destruct Hps as [?|[_ [? ?]]]; congruence.
  - destruct (ok_init s Hok) as (ini & p & Hini & Hp & [Hlive1 Hlive2] & Hpar).
    destruct (relabel_push s t ini p Hr Hp) as (p' & Hp' & _ & Hpar' & Hst).
    exists ini, p'. split; [congruence|]. split; [done|]. split; [|congruence].
    unfold live. destruct Hst as [->|[[->|[->| ->]] _]]; done.
  - intros i p' Hp' Hs Hini. destruct (H i p' Hp') as (p & Hp & _ & Hpar & Hps).
    destruct (ok_parent s Hok i p Hp) as (j & q & Hj & Hq & Hlive).
    { destruct Hps as [?|[_ [? ?]]]; congruence. }
    { congruence. }
    destruct (relabel_push s t j q Hr Hq) as (q' & Hq' & _ & _ & Hst). exists j, q'.
    split; [congruence|]. split; [done|]. destruct Hlive. unfold live.
    destruct Hst as [->|[[->|[->| ->]] _]]; done.
  - intros i p' Hp'. destruct (H i p' Hp') as (p & Hp & _ & _ & [->|[[->|[->| ->]] _]]); try done.
    by apply (ok_settled s Hok i p).
Qed.

(** ** Creation and destruction of processes *)

(** Case analysis on a slot of an updated table. *)
Ltac slot_cases Hp i n :=
  destruct (decide (i = n)) as [->|?];
  [rewrite list_lookup_insert_eq in Hp by (by eapply lookup_lt_Some); injection Hp as <-
  |rewrite list_lookup_insert_ne in Hp by done].

(** A slot that stays or becomes unused. *)
Lemma table_ok_clean s t n q q' :
  table_ok s -> procs s !! n = Some q ->
  (state q = UNUSED \/ (state q = ZOMBIE)) ->
  pid q' = 0 -> parent q' = None -> state q' = UNUSED ->
  procs t = <[n := q']> (procs s) -> held t = [] -> curproc t = curproc s ->
  initproc t = initproc s -> nextpid s <= nextpid t < 2 ^ 31 -> table_ok t.
Proof.
  intros Hok Hq Hs Hpid' Hpar' Hs' Hps Hh Hc Hi Hn.
  assert (Hlive : forall j p, procs s !! j = Some p -> live p -> procs t !! j = Some p).
  { intros j p Hp Hl. rewrite Hps, list_lookup_insert_ne; [done|]. intros <-.
    unfold live in Hl. destruct Hs; simplify_eq; tauto. }
  split; try rewrite Hps; try done.
  - rewrite length_insert. by apply ok_len.
  - pose proof (ok_nextpid s Hok). lia.
  - intros i p Hp Hu. slot_cases Hp i n; [done|by apply (ok_unused s Hok i p)].
  - intros i p Hp Hu. slot_cases Hp i n; [done|]. pose proof (ok_pid s Hok i p Hp Hu). lia.
  - intros i j p p2 Hp Hp2 Hu He. slot_cases Hp i n; [done|]. pose proof (ok_pid s Hok i p Hp Hu).
    slot_cases Hp2 j n; [lia|]. by apply (ok_unique s Hok i j p p2).
  - destruct (ok_init s Hok) as (ini & p & Hini & Hp & Hl & Hpar). exists ini, p.
    rewrite <- Hps. split; [congruence|]. auto.
  - intros i p Hp Hu Hini. slot_cases Hp i n; [done|].
    destruct (ok_parent s Hok i p Hp Hu) as (j & r & ? & ? & ?); [congruence|].
    exists j, r. rewrite <- Hps. auto.
  - intros i p Hp. rewrite Hc. slot_cases Hp i n; [|by apply (ok_running s Hok)].
    rewrite Hs'. split; [done|]. intros Hcn. apply (ok_running s Hok n q Hq) in Hcn.
    destruct Hs; congruence.
  - intros i. rewrite Hc. by apply (ok_curproc s Hok).
  - intros i p Hp. slot_cases Hp i n; [congruence|by apply (ok_settled s Hok i p)].
Qed.

(** A new RUNNABLE child of the running process, with the next pid. *)
Lemma table_ok_child s t n q q' me :
  table_ok s -> procs s !! n = Some q -> state q = UNUSED ->
  curproc s = Some me -> nextpid s < 2 ^ 31 - 1 ->
  pid q' = nextpid s -> parent q' = Some me -> state q' = RUNNABLE ->
  procs t = <[n := q']> (procs s) -> held t = [] -> curproc t = curproc s ->
  initproc t = initproc s -> nextpid t = nextpid s + 1 -> table_ok t.
Proof.
  intros Hok Hq Hs Hcur Hmax Hpid' Hpar' Hs' Hps Hh Hc Hi Hn.
  assert (Hlive : forall j p, procs s !! j = Some p -> live p -> procs t !! j = Some p).
  { intros j p Hp Hl. rewrite Hps, list_lookup_insert_ne; [done|]. intros <-.
    unfold live in Hl. simplify_eq; tauto. }
  destruct (table_ok_current s me Hok Hcur) as (pm & Hpm & Hrun).
  assert (live pm) by (unfold live; rewrite Hrun; done).
  pose proof (ok_nextpid s Hok).
  split; try rewrite Hps; try done.
  - rewrite length_insert. by apply ok_len.
  - lia.
  - intros i p Hp Hu. slot_cases Hp i n; [congruence|by apply (ok_unused s Hok i p)].
  - intros i p Hp Hu. slot_cases Hp i n; [lia|]. pose proof (ok_pid s Hok i p Hp Hu). lia.
  - intros i j p p2 Hp Hp2 Hu He. slot_cases Hp i n; slot_cases Hp2 j n; [done| | |].
    + exfalso. destruct (decide (state p2 = UNUSED)) as [Hu2|Hu2].
      * destruct (ok_unused s Hok j p2 Hp2 Hu2). lia.
      * pose proof (ok_pid s Hok j p2 Hp2 Hu2). lia.
    + pose proof (ok_pid s Hok i p Hp Hu). lia.
    + by apply (ok_unique s Hok i j p p2).
  - destruct (ok_init s Hok) as (ini & p & Hini & Hp & Hl & Hpar). exists ini, p.
    rewrite <- Hps. split; [congruence|]. auto.
  - intros i p Hp Hu Hini. rewrite <- Hps. slot_cases Hp i n; [by exists me, pm; auto|].
    destruct (ok_parent s Hok i p Hp Hu) as (j & r & ? & ? & ?); [congruence|].
    exists j, r. auto.
  - intros i p Hp. rewrite Hc. slot_cases Hp i n; [|by apply (ok_running s Hok)].
    rewrite Hs'. split; [done|]. intros Hcn. apply (ok_running s Hok n q Hq) in Hcn. congruence.
  - intros i. rewrite Hc. by apply (ok_curproc s Hok).
  - intros i p Hp. slot_cases Hp i n; [congruence|by apply (ok_settled s Hok i p)].
Qed.

Lemma table_ok_fork me s v t :
  table_ok s -> curproc s = Some me -> nextpid s < 2 ^ 31 - 1 ->
  fork s = Done v t -> table_ok t.
Proof.
  intros Hok Hcur Hmax Hf. destruct (table_ok_current s me Hok Hcur) as (p & Hp & Hrun).
  pose proof (ok_nextpid s Hok). pose proof (ok_held s Hok) as Hh.
  assert (Hnp : s32 (nextpid s + 1) = nextpid s + 1) by (apply s32_small; lia).
  apply (fork_inv me p) in Hf; [|done|done|congruence|by apply table_ok_free|rewrite Hh; set_solver..].
  destruct Hf as [|n q q' e Hq Hu|n q pa pt o ip e Hq Hu Hpt]; [done| |].
  - apply (table_ok_clean s _ n q (freed (ticks s) q')); [done|exact Hq|by left|reflexivity|reflexivity|reflexivity
      |reflexivity|exact Hh|reflexivity|reflexivity|].
    kproj. rewrite Hnp. lia.
  - eapply (table_ok_child s _ n q (child_of me p (fresh (nextpid s) pa pt (ticks s) q) o ip) me);
      [done|exact Hq|done|done|done|reflexivity|reflexivity|reflexivity
      |reflexivity|exact Hh|reflexivity|reflexivity|].
    exact Hnp.
Qed.

Lemma exit_effect_pull me status s t i p' :
  exit_effect me status s t -> procs t !! i = Some p' ->
  exists p, procs s !! i = Some p /\ pid p' = pid p /\ parent p' <> Some me /\
    (parent p' = parent p \/ (parent p = Some me /\ parent p' = initproc s)) /\
    (if decide (i = me) then state p' = ZOMBIE
     else state p' = state p \/ (state p = SLEEPING /\ state p' = RUNNABLE)).
Proof.
  intros Hx Hp'. destruct (exit_globals _ _ _ _ Hx) as (_ & _ & _ & Hl).
  destruct (lookup_lt_is_Some_2 (procs s) i) as [p Hp].
  { rewrite <- Hl. by eapply lookup_lt_Some. }
  destruct (exit_slots _ _ _ _ Hx i p Hp) as (p1 & Hp1 & ? & ? & ? & Hs).
  assert (p1 = p') as -> by congruence. exists p. repeat (split; [done|]).
  case_decide; naive_solver.
Qed.

Lemma table_ok_exited me status s t :
  table_ok s -> curproc s = Some me -> initproc s <> Some me ->
  exit_effect me status s t -> table_ok (set_curproc None (set_held [] t)).
Proof.
  intros Hok Hcur Hini Hx.
  destruct (table_ok_current s me Hok Hcur) as (pm & Hpm & Hrun).
  pose proof (fun i p' => exit_effect_pull me status s t i p' Hx) as Hpull.
  destruct (exit_globals _ _ _ _ Hx) as (Hc & Hi & Hn & Hl).
  assert (Hused : forall i p p', procs s !! i = Some p -> procs t !! i = Some p' ->
    state p' <> UNUSED -> state p <> UNUSED).
  { intros i p p' Hp Hp' Hu. destruct (Hpull i p' Hp') as (q & Hq & _ & _ & _ & Hs).
    simplify_eq. case_decide; [|destruct Hs as [?|[? ?]]; congruence].
    subst i. simplify_eq. congruence. }
  assert (Hlive : forall j q, procs s !! j = Some q -> live q -> j <> me ->
    exists q', procs t !! j = Some q' /\ live q').
  { intros j q Hq [? ?] Hne. destruct (exit_slots _ _ _ _ Hx j q Hq) as (q' & Hq' & _ & _ & _ & Hs).
    exists q'. split; [done|]. rewrite decide_False in Hs by done. unfold live.
    destruct Hs as (_ & _ & [->|[_ ->]]); done. }
  split; kproj; try done.
  - rewrite Hl. by apply ok_len.
  - rewrite Hn. by apply ok_nextpid.
  - intros i p' Hp' Hu. destruct (Hpull i p' Hp') as (p & Hp & -> & _ & Hpar & Hs).
    case_decide; [congruence|]. destruct Hs as [Hs|[_ Hs]]; [|congruence].
    destruct (ok_unused s Hok i p Hp) as [? Hnone]; [congruence|]. split; [done|].
    destruct Hpar as [?|[? _]]; congruence.
  - intros i p' Hp' Hu. destruct (Hpull i p' Hp') as (p & Hp & -> & _).
    rewrite Hn. apply (ok_pid s Hok i p Hp). by apply (Hused i p p').
  - intros i j p' q' Hp' Hq' Hu He. destruct (Hpull i p' Hp') as (p & Hp & Hpe & _).
    destruct (Hpull j q' Hq') as (q & Hq & Hqe & _).
    apply (ok_unique s Hok i j p q Hp Hq); [by apply (Hused i p p')|congruence].
  - destruct (ok_init s Hok) as (ini & p & Hie & Hp & Hlv & Hpar).
    destruct (Hlive ini p Hp Hlv) as (p' & Hp' & Hlv'); [congruence|].
    exists ini, p'. split; [congruence|]. split; [done|]. split; [done|].
    destruct (Hpull ini p' Hp') as (p2 & Hp2 & _ & _ & [?|[? _]] & _); congruence.
  - intros i p' Hp' Hu Hne. destruct (Hpull i p' Hp') as (p & Hp & _ & Hnm & Hpar & _).
    destruct (ok_init s Hok) as (ini & pi & Hie & Hpi & Hlv & _).
    destruct (ok_parent s Hok i p Hp) as (j & q & Hj & Hq & Hqv);
      [by apply (Hused i p p')|congruence|].
    destruct Hpar as [Hpar|[_ Hpar]].
    + destruct (Hlive j q Hq Hqv) as (q' & ? & ?); [congruence|]. exists j, q'. split; [congruence|done].
    + destruct (Hlive ini pi Hpi Hlv) as (q' & ? & ?); [congruence|].
      exists ini, q'. split; [congruence|done].
  - intros i p' Hp'. split; [|done]. intros Hr. exfalso.
    destruct (Hpull i p' Hp') as (p & Hp & _ & _ & _ & Hs). case_decide as Hi'; [congruence|].
    destruct Hs as [Hs|[_ Hs]]; [|congruence]. rewrite Hs in Hr.
    apply (ok_running s Hok i p Hp) in Hr. congruence.
  - intros i p' Hp'. destruct (Hpull i p' Hp') as (p & Hp & _ & _ & _ & Hs).
    case_decide; [congruence|]. pose proof (ok_settled s Hok i p Hp).
    destruct Hs as [?|[? ?]]; congruence.
Qed.

Lemma exit_init_panics status s me :
  curproc s = Some me -> initproc s = Some me -> exit status s = Panic "init exiting".
Proof.
  intros Hc Hi. unfold exit, cur, gets, bind. rewrite Hc, Hi. by rewrite decide_True.
Qed.

Lemma scheduler_return_inv i s u t :
  held s = [LProc i] -> scheduler_return i s = Done u t -> t = set_curproc None (set_held [] s).
Proof.
  intros Hh H. unfold scheduler_return in H.
  rewrite (bind_release _ []) in H by (done || set_solver). by injection H.
Qed.

Lemma table_ok_exit me status s u t v t' :
  table_ok s -> curproc s = Some me ->
  exit status s = Done u t -> scheduler_return me t = Done v t' -> table_ok t'.
Proof.
  intros Hok Hcur Hx Hr.
  destruct (decide (initproc s = Some me)) as [Hi|Hi].
  { by rewrite (exit_init_panics _ _ me) in Hx. }
  apply (exit_inv me) in Hx; [|done|done|by apply ok_len|by apply ok_held].
  apply scheduler_return_inv in Hr as ->; [|by apply (exit_held _ _ _ _ Hx)].
  by apply (table_ok_exited me status s).
Qed.

(** ** Leaving and getting the CPU *)

Definition waiting_state (p : proc) : Prop := state p = RUNNABLE \/ state p = SLEEPING.

Lemma table_ok_switch_out me s t f :
  table_ok s -> curproc s = Some me ->
  (forall p, pid (f p) = pid p /\ parent (f p) = parent p /\ waiting_state (f p)) ->
  procs t = alter f me (procs s) -> nextpid t = nextpid s -> initproc t = initproc s ->
  curproc t = None -> held t = [] -> table_ok t.
Proof.
  intros Hok Hcur Hf Hps Hn Hi Hc Hh.
  destruct (table_ok_current s me Hok Hcur) as (pm & Hpm & Hrun).
  assert (Hslot : forall i p', procs t !! i = Some p' -> exists p, procs s !! i = Some p /\
    if decide (i = me) then p' = f p else p' = p).
  { intros i p' Hp'. rewrite Hps in Hp'. destruct (decide (i = me)) as [->|?].
    - rewrite list_lookup_alter_eq, Hpm in Hp'. injection Hp' as <-. eauto.
    - rewrite list_lookup_alter_ne in Hp' by done. eauto. }
  apply (table_ok_relabel s); [done| |done| |by rewrite Hc].
  - split; [by rewrite Hps, length_alter|]. split; [done|]. split; [done|]. intros i p' Hp'.
    destruct (Hslot i p' Hp') as (p & Hp & Hd). exists p. split; [done|].
    case_decide; subst; [|by auto]. simplify_eq. destruct (Hf pm) as (? & ? & [?|?]);
      repeat (split; [done|]); right; (split; [tauto|]); unfold live; rewrite Hrun; done.
  - intros i p' Hp'. rewrite Hc. split; [|done]. intros Hr. exfalso.
    destruct (Hslot i p' Hp') as (p & Hp & Hd). case_decide; subst.
    + destruct (Hf p) as (_ & _ & [?|?]); congruence.
    + apply (ok_running s Hok i p Hp) in Hr. congruence.
Qed.

(** A dispatched process: RUNNING and current, nothing else changed but
    [starttime]. *)
Lemma scheduler_iter_inv s i t :
  table_free s -> scheduler_iter s = Done (Some i) t ->
  exists p f, procs s !! i = Some p /\ state p = RUNNABLE /\
    (forall q, pid (f q) = pid q /\ parent (f q) = parent q /\ state (f q) = RUNNING) /\
    t = set_curproc (Some i) (set_held (LProc i :: held s) (set_procs (alter f i (procs s)) s)).
Proof.
  intros Hf H. unfold scheduler_iter in H. apply bind_Done_inv in H as (r & s1 & H1 & H).
  destruct r as [c|]; [|done]. apply bind_Done_inv in H as ([] & s2 & H2 & H).
  injection H as -> <-.
  assert (Hm : 0 <= sched_mode s <= 2).
  { destruct (decide (0 <= sched_mode s <= 2)) as [|Hm]; [done|]. exfalso. revert H1.
    unfold scheduler_choose, gets, bind, SCHED_ROUND_ROBIN, SCHED_FCFS, SCHED_PRIORITY.
    destruct (Z.eqb_spec (sched_mode s) 0), (Z.eqb_spec (sched_mode s) 1),
      (Z.eqb_spec (sched_mode s) 2); lia || discriminate. }
  destruct (scheduler_choose_spec s Hf Hm) as (r & Hr & Hb). rewrite Hr in H1.
  injection H1 as -> <-. destruct Hb as (p & _ & Hp & Hs & _).
  unfold scheduler_dispatch, modp, modify, gets, bind in H2. injection H2 as <-.
  exists p, (fun p => if starttime p =? 0 then set_starttime (ticks s) (set_state RUNNING p)
                      else set_state RUNNING p).
  split; [done|]. split; [done|]. split.
  - intros q. by destruct (starttime q =? 0).
  - kernel_eq. rewrite list_alter_alter_eq. done.
Qed.

Lemma table_ok_dispatched s i p f t :
  table_ok s -> curproc s = None -> procs s !! i = Some p -> state p = RUNNABLE ->
  (forall q, pid (f q) = pid q /\ parent (f q) = parent q /\ state (f q) = RUNNING) ->
  procs t = alter f i (procs s) -> curproc t = Some i -> held t = [] ->
  nextpid t = nextpid s -> initproc t = initproc s -> table_ok t.
Proof.
  intros Hok Hnone Hp Hs Hf Hps Hc Hh Hn Hi.
  apply (table_ok_relabel s); [done| |done| |].
  - split; [by rewrite Hps, length_alter|]. split; [done|]. split; [done|]. intros j p' Hp'.
    rewrite Hps in Hp'. destruct (decide (j = i)) as [->|?].
    + rewrite list_lookup_alter_eq, Hp in Hp'. injection Hp' as <-. exists p.
      destruct (Hf p) as (? & ? & ?). repeat (split; [done|]). right. split; [tauto|].
      unfold live. rewrite Hs. done.
    + rewrite list_lookup_alter_ne in Hp' by done. exists p'. auto.
  - intros j p' Hp'. rewrite Hc. rewrite Hps in Hp'. destruct (decide (j = i)) as [->|?].
    + rewrite list_lookup_alter_eq, Hp in Hp'. injection Hp' as <-.
      destruct (Hf p) as (_ & _ & ->). naive_solver.
    + rewrite list_lookup_alter_ne in Hp' by done. rewrite (ok_running s Hok j p' Hp'). naive_solver.
  - intros j Hj. assert (j = i) as -> by congruence. apply lookup_lt_Some in Hp.
    by rewrite ok_len in Hp.
Qed.

(** ** Kernel steps *)

(** How a dispatched process continues: it leaves [yield] (or [forkret], which
    also only releases its lock), it leaves [sleep], or it goes on with [wait]. *)
Inductive resume (i : nat) (s t : kernel E) : Prop :=
| resume_yield :
    yield_return s = Done tt t -> resume i s t
| resume_sleep lk :
    (forall j, lk <> LProc j) ->
    bind (sleep_return lk) (fun _ => release lk) s = Done tt t -> resume i s t
| resume_wait addr v :
    wait_resume addr s = Done (Some v) t -> resume i s t
| resume_wait_again addr s' :
    wait_resume addr s = Done None s' -> scheduler_return i s' = Done tt t -> resume i s t.

Inductive kstep (s t : kernel E) : Prop :=
| step_dispatch i s' :
    curproc s = None -> scheduler_iter s = Done (Some i) s' -> resume i s' t -> kstep s t
| step_yield me s' :
    curproc s = Some me -> yield_enter s = Done tt s' -> scheduler_return me s' = Done tt t ->
    kstep s t
| step_sleep me c lk s' :
    curproc s = Some me -> (forall j, lk <> LProc j) ->
    bind (acquire lk) (fun _ => sleep_enter c lk) s = Done tt s' ->
    scheduler_return me s' = Done tt t -> kstep s t
| step_fork me v :
    curproc s = Some me -> nextpid s < 2 ^ 31 - 1 -> fork s = Done v t -> kstep s t
| step_exit me status s' :
    curproc s = Some me -> exit status s = Done tt s' -> scheduler_return me s' = Done tt t ->
    kstep s t
| step_wait me addr v :
    curproc s = Some me -> wait addr s = Done (Some v) t -> kstep s t
| step_wait_sleep me addr s' :
    curproc s = Some me -> wait addr s = Done None s' -> scheduler_return me s' = Done tt t ->
    kstep s t
| step_wakeup c :
    wakeup c s = Done tt t -> kstep s t
| step_kill k v :
    kill k s = Done v t -> kstep s t
| step_clock :
    clockintr 0 s = Done tt t -> kstep s t.

(** States whose slots differ only in ways the invariant does not see. *)
Lemma table_ok_quiet s t : table_ok s -> quiet s t -> table_ok t.
Proof.
  intros Hok ((Hc & Hi & Hn & Hl) & Hh & Hs).
  assert (Hpull : forall i p', procs t !! i = Some p' -> exists p, procs s !! i = Some p /\
    quiet_slot (curproc s) i p p').
  { intros i p' Hp'. destruct (lookup_lt_is_Some_2 (procs s) i) as [p Hp].
    { rewrite <- Hl. by eapply lookup_lt_Some. }
    exists p. split; [done|]. destruct (Hs i p Hp) as (p1 & ? & ?). congruence. }
  apply (table_ok_relabel s); [done| |rewrite Hh; by apply ok_held| |].
  - split; [done|]. split; [done|]. split; [done|]. intros i p' Hp'.
    destruct (Hpull i p' Hp') as (p & Hp & ? & ? & _ & _ & Hst). exists p.
    repeat (split; [done|]). destruct Hst as [?|(Hsl & ? & _)]; [by left|right].
    split; [by left|]. unfold live. rewrite Hsl. done.
  - intros i p' Hp'. rewrite Hc. destruct (Hpull i p' Hp') as (p & Hp & _ & _ & _ & _ & Hst).
    rewrite <- (ok_running s Hok i p Hp). destruct Hst as [->|(? & ? & _)]; naive_solver congruence.
  - intros i. rewrite Hc. by apply (ok_curproc s Hok).
Qed.

Lemma table_ok_wait me s r t :
  table_ok (set_held [] s) -> curproc s = Some me -> wait_outcome me s (Some r) t -> table_ok t.
Proof.
  intros Hok Hcur Hw. inversion Hw as [i p e Hp Hpar Hz|i p e Hp Hpar Hz|Hn|]; subst.
  - apply (table_ok_clean (set_held [] s) _ i p (freed (ticks s) p)); try done; [by right|].
    pose proof (ok_nextpid _ Hok). cbn in *. lia.
  - apply (table_ok_quiet (set_held [] s)); [done|]. by apply (keeps_svc (fun _ => Done tt e) _ tt).
  - done.
Qed.

Lemma table_ok_wait_sleep me s s' u t :
  table_ok (set_held [] s) -> curproc s = Some me -> wait_outcome me s None s' ->
  scheduler_return me s' = Done u t -> table_ok t.
Proof.
  intros Hok Hcur Hw Hr. inversion Hw; subst. apply scheduler_return_inv in Hr as ->; [|done].
  apply (table_ok_switch_out me (set_held [] s) _
    (fun p => set_state SLEEPING (set_chan (ProcChan me) p))); try done.
  intros q. repeat split. by right.
Qed.

(** The state in which a dispatched process continues: with its lock held. *)
Lemma table_ok_resume s i p f t :
  table_ok s -> curproc s = None -> procs s !! i = Some p -> state p = RUNNABLE ->
  (forall q, pid (f q) = pid q /\ parent (f q) = parent q /\ state (f q) = RUNNING) ->
  resume i (set_curproc (Some i) (set_held (LProc i :: held s)
    (set_procs (alter f i (procs s)) s))) t ->
  table_ok t.
Proof.
  intros Hok Hnone Hp Hs Hf. rewrite (ok_held s Hok).
  set (s1 := set_curproc _ _).
  set (s2 := fun H => set_held H (set_procs (alter (set_chan NullChan) i (procs s1)) s1)).
  assert (Hok1 : table_ok (set_held [] s1)) by (by apply (table_ok_dispatched s i p f)).
  assert (Hok2 : table_ok (s2 [])).
  { apply (table_ok_dispatched s i p (fun q => set_chan NullChan (f q))); try done.
    cbn [procs set_procs set_held set_curproc s1 s2]. by rewrite list_alter_alter_eq. }
  assert (Hsleep : forall lk, (forall j, lk <> LProc j) ->
    sleep_return lk s1 = Done tt (s2 [lk])).
  { intros lk Hlk. unfold sleep_return, cur, bind at 1. cbn [curproc set_curproc s1].
    unfold modp, modify, bind at 1. rewrite (bind_release _ []) by (done || apply not_elem_of_nil).
    by rewrite acquire_Done by apply not_elem_of_nil. }
  intros [Hr|lk Hlk Hr|addr v Hr|addr s' Hr Hret].
  - unfold yield_return, cur, bind in Hr. cbn [curproc set_curproc s1] in Hr.
    rewrite (release_head _ []) in Hr by (done || apply not_elem_of_nil). by injection Hr as <-.
  - rewrite (bind_Done _ _ _ _ _ (Hsleep lk Hlk)) in Hr.
    rewrite (release_head _ []) in Hr by (done || apply not_elem_of_nil). by injection Hr as <-.
  - unfold wait_resume in Hr. rewrite (bind_Done _ _ _ _ _ (Hsleep LWait ltac:(done))) in Hr.
    apply (wait_round_inv _ i) in Hr; [|done| |done]; last by apply (ok_len _ Hok2).
    exact (table_ok_wait i (s2 [LWait]) v t Hok2 eq_refl Hr).
  - unfold wait_resume in Hr. rewrite (bind_Done _ _ _ _ _ (Hsleep LWait ltac:(done))) in Hr.
    apply (wait_round_inv _ i) in Hr; [|done| |done].
    + exact (table_ok_wait_sleep i (s2 [LWait]) s' tt t Hok2 eq_refl Hr Hret).
    + by apply (ok_len _ Hok2).
Qed.

Lemma wait_inv addr me s r t :
  table_ok s -> curproc s = Some me -> wait addr s = Done r t ->
  wait_outcome me (set_held [LWait] s) r t.
Proof.
  intros Hok Hcur Hw. unfold wait in Hw.
  rewrite (bind_Done _ _ _ _ _ (acquire_Done LWait s
    ltac:(rewrite (ok_held s Hok); apply not_elem_of_nil))) in Hw.
  rewrite (ok_held s Hok) in Hw. apply (wait_round_inv _ me) in Hw; [done..|apply (ok_len s Hok)|done].
Qed.

Lemma table_ok_drop_held s H : table_ok s -> table_ok (set_held [] (set_held H s)).
Proof. intros Hok. pose proof (ok_held s Hok). destruct s. by cbn in *; subst. Qed.

Lemma table_ok_kill k s v t : table_ok s -> kill k s = Done v t -> table_ok t.
Proof.
  intros Hok Hk. rewrite kill_Done in Hk by (by apply table_ok_free).
  destruct (list_find _ (procs s)) as [[i p]|] eqn:Hl; [|by injection Hk as _ <-].
  apply list_find_Some in Hl as (Hp & _). injection Hk as _ <-.
  assert (Hk : pid (kill_proc p) = pid p /\ parent (kill_proc p) = parent p /\
    (state (kill_proc p) = state p \/ state (kill_proc p) = RUNNABLE /\ state p = SLEEPING)).
  { unfold kill_proc. case_decide; cbn; auto. }
  destruct Hk as (Hpid & Hpar & Hst).
  apply (table_ok_relabel s); [done| |exact (ok_held s Hok)| |exact (ok_curproc s Hok)].
  - split; [cbn [procs set_procs]; by rewrite length_insert|]. split; [done|]. split; [done|]. intros j p' Hj.
    cbn [procs set_procs] in Hj. slot_cases Hj j i; [|by exists p'; auto]. exists p.
    repeat (split; [done|]). destruct Hst as [?|[? Hsl]]; [by left|right].
    split; [by left|]. unfold live. rewrite Hsl. done.
  - intros j p' Hj. cbn [procs set_procs curproc] in *. slot_cases Hj j i.
    + rewrite <- (ok_running s Hok i p Hp). destruct Hst as [->|[-> ->]]; done.
    + by apply (ok_running s Hok).
Qed.

Lemma table_ok_clock s t : table_ok s -> clockintr 0 s = Done tt t -> table_ok t.
Proof.
  intros Hok H. change (clockintr 0) with (bind (acquire LTicks) (fun _ =>
    bind (modify (fun s : kernel E => set_ticks (u32 (ticks s + 1)) s)) (fun _ =>
    bind update_time (fun _ => bind (wakeup TicksChan) (fun _ => release LTicks))))) in H.
  rewrite (bind_Done _ _ _ _ _ (acquire_Done LTicks s
    ltac:(rewrite (ok_held s Hok); apply not_elem_of_nil))) in H.
  unfold modify, bind at 1 in H. rewrite (ok_held s Hok) in H. set (s1 := set_ticks _ _) in H.
  assert (Hf1 : table_free s1).
  { split; [by apply (ok_len s Hok)|]. intros i. cbn. set_solver. }
  rewrite (bind_Done _ _ _ _ _ (update_time_Done s1 Hf1)) in H.
  apply bind_Done_inv in H as ([] & s2 & H2 & H). apply keeps_wakeup in H2.
  pose proof H2 as (_ & Hh2 & _). rewrite (release_head _ []) in H by (done || apply not_elem_of_nil).
  injection H as <-. apply (quiet_set_held []) in H2. revert H2. apply table_ok_quiet.
  assert (Htick : forall i p, pid (tick_proc i p) = pid p /\ parent (tick_proc i p) = parent p /\
    state (tick_proc i p) = state p).
  { intros i p. unfold tick_proc. by case_bool_decide. }
  apply (table_ok_relabel s); [done| |done| |exact (ok_curproc s Hok)].
  - split; [cbn [procs set_procs set_held]; by rewrite length_imap|]. split; [done|]. split; [done|].
    intros i p' Hp'. cbn [procs set_procs set_held s1 set_ticks] in Hp'. rewrite list_lookup_imap in Hp'.
    destruct (procs s !! i) as [p|] eqn:Hp; [|done]. injection Hp' as <-. exists p.
    destruct (Htick i p) as (? & ? & ?). auto.
  - intros i p' Hp'. cbn [procs set_procs set_held s1 set_ticks] in Hp'. rewrite list_lookup_imap in Hp'.
    destruct (procs s !! i) as [p|] eqn:Hp; [|done]. injection Hp' as <-.
    destruct (Htick i p) as (_ & _ & ->). by apply (ok_running s Hok).
Qed.

Lemma table_ok_step s t : table_ok s -> kstep s t -> table_ok t.
Proof.
  intros Hok [i s' Hc Hi Hr|me s' Hc Hy Hr|me c lk s' Hc Hlk Hs Hr|me v Hc Hm Hf|me st s' Hc Hx Hr
    |me a v Hc Hw|me a s' Hc Hw Hr|c Hw|k v Hk|Hk].
  - apply scheduler_iter_inv in Hi as (p & f & Hp & Hs & Hf & ->); [|by apply table_ok_free].
    by apply (table_ok_resume s i p f).
  - destruct (table_ok_current s me Hok Hc) as (p & Hp & _).
    rewrite (yield_enter_Done me p) in Hy by (done || by apply ok_held). injection Hy as <-.
    apply scheduler_return_inv in Hr as ->; [|done].
    apply (table_ok_switch_out me s _ (set_state RUNNABLE)); try done. intros q. repeat split. by left.
  - rewrite (bind_Done _ _ _ _ _ (acquire_Done lk s
      ltac:(rewrite (ok_held s Hok); apply not_elem_of_nil))), (ok_held s Hok) in Hs.
    apply (sleep_enter_inv me) in Hs as ->; [|done|done|done].
    apply scheduler_return_inv in Hr as ->; [|done].
    apply (table_ok_switch_out me s _ (fun p => set_state SLEEPING (set_chan c p))); try done.
    intros q. repeat split. by right.
  - by apply (table_ok_fork me s v).
  - by apply (table_ok_exit me st s tt s' tt).
  - apply (wait_inv _ me) in Hw; [|done..].
    by apply (table_ok_wait me (set_held [LWait] s) v t (table_ok_drop_held s _ Hok)).
  - apply (wait_inv _ me) in Hw; [|done..].
    by apply (table_ok_wait_sleep me (set_held [LWait] s) s' tt t (table_ok_drop_held s _ Hok)).
  - apply (table_ok_quiet s); [done|]. by apply (keeps_wakeup c s tt t).
  - by apply (table_ok_kill k s v).
  - by apply (table_ok_clock s).
Qed.

(** ** Boot *)

(** The zero-initialised globals of [kernel/proc.c]. *)
Definition kernel0 (e : E) : kernel E :=
  mkkernel (replicate NPROC proc0) [] None None 1 0 SCHED_ROUND_ROBIN 0 0 0 0 [] e.

(** [main]'s process-table initialisation. *)
Definition boot_procs : M (kernel E) unit := bind procinit (fun _ => userinit).

Definition init_slot (i : nat) (p : proc) : proc :=
  set_kstack (KSTACK (Z.of_nat i)) (set_state UNUSED p).

Lemma procinit_Done s : length (procs s) = NPROC -> held s = [] ->
  procinit s = Done tt (set_procs (imap init_slot (procs s)) s).
Proof.
  intros Hl Hh.
  assert (Hx : forall l, set_held (filter (fun l' => l' <> l) (held s)) s = s).
  { intros l. rewrite Hh. destruct s. cbn in *. by subst. }
  unfold procinit, modify, bind at 1 2. rewrite !Hx.
  apply for_each_table; [done|]. intros i ps p Hps Hp.
  unfold modp, modify, bind. f_equal. kernel_eq; [by rewrite list_alter_alter_eq|].
  by rewrite Hh.
Qed.

Lemma userinit_inv s0 s :
  length (procs s0) = NPROC -> held s0 = [] -> userinit s0 = Done tt s ->
  exists i p q, procs s0 !! i = Some q /\ procs s = <[i := p]> (procs s0) /\
    state p = RUNNABLE /\ pid p = nextpid s0 /\ parent p = parent q /\
    held s = [] /\ curproc s = curproc s0 /\ initproc s = Some i /\
    nextpid s = s32 (nextpid s0 + 1).
Proof.
  intros Hlen Hh H. unfold userinit in H.
  apply bind_Done_inv in H as (r & s1 & H1 & H). apply allocproc_inv in H1;
    [|split; [done|intros; rewrite Hh; apply not_elem_of_nil]|rewrite Hh; apply not_elem_of_nil].
  unfold modify, bind at 1 in H. destruct r as [i|]; [|done].
  destruct H1 as (q & pa & pt & e1 & _ & Hq & Hu & Hpt & ->).
  assert (Hi : (i < length (procs s0))%nat) by (by eapply lookup_lt_Some).
  rewrite Hh in H. set (q1 := fresh _ _ _ _ _) in H.
  set (s0' := set_initproc (Some i) s0).
  replace (set_initproc (Some i) _) with
    (at_slot s0' i q1 [LProc i] (total_benchmark_processes s0) e1) in H
    by (unfold at_slot, s0'; kernel_eq).
  rewrite at_slot_getp in H by done.
  apply bind_Done_inv in H as ([] & s2 & H2 & H). apply svc_Done_inv in H2 as (e2 & _ & ->).
  replace (set_env e2 _) with (at_slot s0' i q1 [LProc i] (total_benchmark_processes s0) e2) in H
    by (unfold at_slot; kernel_eq).
  rewrite !at_slot_modp in H.
  apply bind_Done_inv in H as (root & s3 & H3 & H). apply svc_Done_inv in H3 as (e3 & _ & ->).
  match type of H with _ (set_env _ (at_slot _ _ ?q ?h ?n _)) = _ =>
    change (set_env e3 (at_slot s0' i q h n e2)) with (at_slot s0' i q h n e3) in H end.
  rewrite !at_slot_modp in H. rewrite (release_head _ []) in H by (done || apply not_elem_of_nil).
  injection H as <-. eexists i, _, q. split; [done|]. split; [reflexivity|]. done.
Qed.

Lemma boot_eq s : length (procs s) = NPROC -> held s = [] ->
  boot_procs s = userinit (set_procs (imap init_slot (procs s)) s).
Proof. intros Hl Hh. exact (bind_Done _ _ _ _ _ (procinit_Done s Hl Hh)). Qed.

(** What [procinit] and [userinit] need of the globals: they are zero. *)
Definition zeroed (s : kernel E) : Prop :=
  length (procs s) = NPROC /\ held s = [] /\ curproc s = None /\ nextpid s = 1 /\
  forall i p, procs s !! i = Some p -> pid p = 0 /\ parent p = None.

Lemma kernel0_zeroed e : zeroed (kernel0 e).
Proof.
  split; [exact (length_replicate NPROC proc0)|]. repeat (split; [reflexivity|]).
  intros i p Hp. apply lookup_replicate in Hp as [-> _]. done.
Qed.

Lemma boot_inv s0 s : zeroed s0 -> boot_procs s0 = Done tt s ->
  exists i p, (i < NPROC)%nat /\ procs s = <[i := p]> (imap init_slot (procs s0)) /\
    state p = RUNNABLE /\ pid p = 1 /\ parent p = None /\
    held s = [] /\ curproc s = None /\ initproc s = Some i /\ nextpid s = 2.
Proof.
  intros (Hl & Hh & Hc & Hn & Hz) H. rewrite boot_eq in H by done.
  apply userinit_inv in H as (i & p & q & Hq & Hps & Hs & Hpid & Hpar & Hh' & Hc' & Hi & Hn');
    [|kproj; by rewrite length_imap|exact Hh].
  exists i, p. revert Hq Hps Hpid Hc' Hn'. kproj. rewrite Hc, Hn. intros Hq Hps Hpid Hc' Hn'.
  rewrite list_lookup_imap in Hq. destruct (procs s0 !! i) as [q0|] eqn:Hq0; [|done].
  injection Hq as <-. destruct (Hz i q0 Hq0) as [_ Hpar0].
  apply lookup_lt_Some in Hq0. split; [lia|]. repeat (split; [done|]).
  split; [by rewrite Hpar|]. done.
Qed.

Lemma table_ok_boot s0 s : zeroed s0 -> boot_procs s0 = Done tt s -> table_ok s.
Proof.
  intros Hz H. pose proof Hz as (Hl0 & _ & _ & _ & Hz0).
  apply (boot_inv s0) in H as (i & p & Hi & Hps & Hs & Hpid & Hpar & Hh & Hc & Hini & Hn); [|done].
  set (ps := imap init_slot (procs s0)) in *.
  assert (Hlen : length ps = NPROC) by (unfold ps; by rewrite length_imap).
  assert (Hclean : forall j q, ps !! j = Some q -> state q = UNUSED /\ pid q = 0 /\ parent q = None).
  { intros j q Hq. unfold ps in Hq. rewrite list_lookup_imap in Hq.
    destruct (procs s0 !! j) eqn:Hr; [|done]. injection Hq as <-. split; [done|].
    exact (Hz0 _ _ Hr). }
  assert (Hslot : forall j q, procs s !! j = Some q ->
    (j = i /\ q = p) \/ (j <> i /\ state q = UNUSED /\ pid q = 0 /\ parent q = None)).
  { intros j q Hq. rewrite Hps in Hq. destruct (decide (j = i)) as [->|Hj].
    - rewrite list_lookup_insert_eq in Hq by lia. naive_solver.
    - rewrite list_lookup_insert_ne in Hq by done. right. eauto. }
  assert (Hp : procs s !! i = Some p) by (rewrite Hps; apply list_lookup_insert_eq; lia).
  split; rewrite ?Hn, ?Hc, ?Hini; try done.
  - by rewrite Hps, length_insert.
  - intros j q Hq Hu. destruct (Hslot j q Hq) as [[-> ->]|(_ & _ & ? & ?)]; [congruence|done].
  - intros j q Hq Hu. destruct (Hslot j q Hq) as [[-> ->]|(_ & ? & _)]; [lia|congruence].
  - intros j k q r Hq Hr Hu He. destruct (Hslot j q Hq) as [[-> ->]|(_ & ? & _)]; [|congruence].
    destruct (Hslot k r Hr) as [[-> ->]|(_ & _ & ? & _)]; [done|congruence].
  - exists i, p. unfold live. rewrite Hs. done.
  - intros j q Hq Hu Hne. destruct (Hslot j q Hq) as [[-> ->]|(_ & ? & _)]; congruence.
  - intros j q Hq. split; [|done]. destruct (Hslot j q Hq) as [[-> ->]|(_ & ? & _)]; congruence.
  - intros j q Hq. destruct (Hslot j q Hq) as [[-> ->]|(_ & ? & _)]; congruence.
Qed.

(** C1: the process table stays consistent over every execution of the kernel
    operations [fork], [exit], [wait], [sleep], [yield], [wakeup], [kill], clock
    ticks and dispatches: live processes have distinct positive pids, unused
    slots are clean, init never dies, every other process (zombies included)
    has a live parent to collect it, and RUNNING is exactly the current
    process; spin locks are balanced at the end of every operation. *)
Theorem table_ok_reachable (e : E) (s t : kernel E) :
  boot_procs (kernel0 e) = Done tt s -> rtc kstep s t -> table_ok t.
Proof.
  intros Hb Hr. apply (table_ok_boot _ _ (kernel0_zeroed e)) in Hb. induction Hr; [done|]. eauto using table_ok_step.
Qed.

(** [kill(0)] reports success although no process has pid 0: it marks the
    first unused slot killed, and since [allocproc] does not clear the mark, the
    next process to be allocated is born killed. *)
Theorem kill_zero_poisons_next_process (s t t' : kernel E) (v : Z) (n : nat) :
  table_ok s -> Exists (fun p => state p = UNUSED) (procs s) ->
  kill 0 s = Done v t -> allocproc t = Done (Some n) t' ->
  v = 0 /\ exists p, procs t' !! n = Some p /\ state p = USED /\ killed p = 1.
Proof.
  intros Hok Hex Hk Ha. pose proof (table_ok_kill _ _ _ _ Hok Hk) as Hok'.
  rewrite kill_Done in Hk by (by apply table_ok_free).
  assert (Hiff : forall i p, procs s !! i = Some p -> (pid p = 0 <-> state p = UNUSED)).
  { intros i p Hp. split; [|by intros; apply (ok_unused s Hok i p)]. intros H0.
    destruct (decide (state p = UNUSED)) as [|Hne]; [done|]. pose proof (ok_pid s Hok i p Hp Hne). lia. }
  destruct (list_find (fun p => pid p = 0) (procs s)) as [[i p]|] eqn:Hl; last first.
  { apply list_find_None in Hl. exfalso. apply Exists_exists in Hex as (p & Hin & Hu).
    apply list_elem_of_lookup in Hin as [i Hp]. rewrite Forall_lookup in Hl.
    apply (Hl i p Hp). by apply (Hiff i p). }
  apply list_find_Some in Hl as (Hp & H0 & Hfirst). injection Hk as <- <-. split; [done|].
  assert (Hu : state p = UNUSED) by (by apply (Hiff i p)).
  assert (Hkp : kill_proc p = set_killed 1 p).
  { unfold kill_proc. rewrite decide_False by congruence. done. }
  rewrite Hkp in *.
  apply allocproc_inv in Ha as (q & pa & pt & e & Hfind & Hq & Hqu & _ & ->);
    [|by apply table_ok_free|rewrite (ok_held _ Hok'); apply not_elem_of_nil].
  assert (list_find (fun p => state p = UNUSED) (<[i := set_killed 1 p]> (procs s))
    = Some (i, set_killed 1 p)) as Hfind'.
  { apply list_find_Some. split; [apply list_lookup_insert_eq; by eapply lookup_lt_Some|].
    split; [done|]. intros j q' Hq' Hj. rewrite list_lookup_insert_ne in Hq' by lia.
    rewrite <- (Hiff j q' Hq'). by apply (Hfirst j q'). }
  cbn [procs set_procs] in Hfind. rewrite Hfind' in Hfind. injection Hfind as <- <-.
  eexists. split; [kproj; apply list_lookup_insert_eq; by eapply lookup_lt_Some|]. done.
Qed.

(** A process that went to sleep inside [wait_stat_internal] panics the kernel
    when it is woken up: [sleep] returns with [wait_lock] held and the next round
    acquires it again. *)
Theorem wait_stat_panics_after_sleep (me : nat) (s : kernel E) :
  curproc s = Some me -> held s = [LProc me] -> wait_stat_resume s = Panic "acquire".
Proof.
  intros Hc Hh. unfold wait_stat_resume, sleep_return, cur, bind at 1 2. rewrite Hc.
  unfold modp, modify, bind at 1. rewrite (bind_release _ []) by (done || apply not_elem_of_nil).
  rewrite acquire_Done by apply not_elem_of_nil.
  unfold wait_stat_internal, cur, bind at 1. kproj. rewrite Hc.
  unfold bind. rewrite acquire_held by (kproj; set_solver). done.
Qed.

(** The accounting of [exit] stores completion time [ticks], turnaround
    [ticks - ctime] and waiting time [turnaround - rtime] (modulo 2^64) in the
    exiting slot; it adds them to the benchmark totals exactly when the process
    is marked as a benchmark child, and when the last one completes, it prints
    the averages and resets the totals. *)
Theorem exit_metrics_correct (i : nat) (p : proc) (s : kernel E) :
  procs s !! i = Some p ->
  let ta := u64 (ticks s - ctime p) in
  let wt := u64 (ta - rtime p) in
  let p' := set_waiting_time wt (set_turnaround_time ta (set_completetime (ticks s) p)) in
  let done := s32 (completed_benchmark_processes s + 1) in
  exists s', exit_metrics i s = Done tt s' /\ procs s' = <[i := p']> (procs s) /\
    (if is_benchmark_process p =? 0 then s' = set_procs (procs s') s
     else if done =? total_benchmark_processes s then
       global_turnaround_time s' = 0 /\ global_waiting_time s' = 0 /\
       total_benchmark_processes s' = 0 /\ completed_benchmark_processes s' = 0 /\
       In ("Average Turnaround Time: %d ticks\n",
           [s32 (u64 (global_turnaround_time s + ta) / u64 (total_benchmark_processes s))])
          (output s') /\
       In ("Average Waiting Time: %d ticks\n",
           [s32 (u64 (global_waiting_time s + wt) / u64 (total_benchmark_processes s))])
          (output s')
     else global_turnaround_time s' = u64 (global_turnaround_time s + ta) /\
       global_waiting_time s' = u64 (global_waiting_time s + wt) /\
       completed_benchmark_processes s' = done /\ output s' = output s).
Proof.
  intros Hp ta wt p' dn. unfold exit_metrics, gets, modp, modify, bind at 1 2 3 4.
  set (s1 := set_procs _ _).
  assert (Hs1 : s1 = set_procs (<[i := p']> (procs s)) s).
  { unfold s1. kernel_eq. rewrite (alter_insert_at _ _ _ _ Hp), !alter_insert_same. done. }
  rewrite Hs1. clear s1 Hs1. unfold bind at 1.
  rewrite (getp_Done i p') by (kproj; apply list_lookup_insert_eq; by eapply lookup_lt_Some).
  change (is_benchmark_process p') with (is_benchmark_process p).
  destruct (is_benchmark_process p =? 0); cbn [negb when].
  { eexists. split; [reflexivity|]. done. }
  unfold bind. kproj. destruct (_ =? total_benchmark_processes s); cbn [when].
  - unfold printf, modify. eexists. split; [reflexivity|]. kproj. repeat (split; [done|]).
    split; cbn [In]; auto 10.
  - eexists. split; [reflexivity|]. done.
Qed.

End ProcTable.

(** ** A concrete run *)

(** The final state of a run that completed. *)
Definition state_after {E A} (r : result (kernel E) A) (s : kernel E) : kernel E :=
  match r with Done _ t => t | Panic _ => s end.

Definition pool0 : list Z := [0x87000000; 0x87001000; 0x87002000; 0x87003000; 0x87004000; 0x87005000; 0x87006000].

(** Boot, dispatch init, init forks, init waits (and sleeps), the child runs and
    exits, init is dispatched again and its [wait] returns. *)
Definition run_boot : kernel (list Z) := state_after (boot_procs (kernel0 pool0)) (kernel0 pool0).
Definition run_init : kernel (list Z) :=
  state_after (bind scheduler_iter (fun _ => yield_return) run_boot) run_boot.
Definition run_fork : kernel (list Z) := state_after (fork run_init) run_init.
Definition run_wait : kernel (list Z) :=
  state_after (bind (wait 0) (fun _ => scheduler_return 0) run_fork) run_fork.
Definition run_child : kernel (list Z) :=
  state_after (bind scheduler_iter (fun _ => yield_return) run_wait) run_wait.
Definition run_exit : kernel (list Z) :=
  state_after (bind (exit 7) (fun _ => scheduler_return 1) run_child) run_child.
Definition run_reap : kernel (list Z) :=
  state_after (bind scheduler_iter (fun _ => wait_resume 0) run_exit) run_exit.

Lemma run_boots : boot_procs (kernel0 pool0) = Done tt run_boot.
Proof. vm_compute. reflexivity. Qed.

Lemma run_fork_step : rtc kstep run_boot run_fork.
Proof.
  eapply rtc_l; [|eapply rtc_once].
  - eapply (step_dispatch run_boot run_init 0); [vm_compute; reflexivity..|].
    apply resume_yield. vm_compute. reflexivity.
  - apply (step_fork run_init run_fork 0 2); [vm_compute; reflexivity..].
Qed.

Lemma run_reap_step : rtc kstep run_fork run_reap.
Proof.
  eapply rtc_l; [|eapply rtc_l; [|eapply rtc_l; [|eapply rtc_once]]].
  - eapply (step_wait_sleep run_fork run_wait 0 0); [vm_compute; reflexivity..].
  - eapply (step_dispatch run_wait run_child 1); [vm_compute; reflexivity..|].
    apply resume_yield. vm_compute. reflexivity.
  - eapply (step_exit run_child run_exit 1 7); [vm_compute; reflexivity..].
  - eapply (step_dispatch run_exit run_reap 0); [vm_compute; reflexivity..|].
    apply (resume_wait _ _ _ 0 2). vm_compute. reflexivity.
Qed.

Lemma table_ok_reachable_witness :
  table_ok run_reap /\ state <$> procs run_fork !! 1%nat = Some RUNNABLE /\
  state <$> procs run_exit !! 1%nat = Some ZOMBIE /\
  state <$> procs run_reap !! 1%nat = Some UNUSED.
Proof.
  split; [|vm_compute; done].
  apply (table_ok_reachable pool0 run_boot run_reap); [exact run_boots|].
  etransitivity; [exact run_fork_step|exact run_reap_step].
Defined.

Lemma run_ok_steps t : rtc kstep run_boot t -> table_ok t.
Proof.
  intros Hr. assert (Hok : table_ok run_boot).
  { exact (table_ok_boot _ _ (kernel0_zeroed pool0) run_boots). }
  induction Hr; [done|]. eauto using table_ok_step.
Qed.

Lemma run_ok_init : table_ok run_init.
Proof.
  apply run_ok_steps. apply rtc_once.
  eapply (step_dispatch run_boot run_init 0); [vm_compute; reflexivity..|].
  apply resume_yield. vm_compute. reflexivity.
Qed.

Lemma run_ok_fork : table_ok run_fork.
Proof. apply run_ok_steps. exact run_fork_step. Qed.

Lemma kill_zero_poisons_next_process_witness :
  exists t t' p, kill 0 run_fork = Done 0 t /\ allocproc t = Done (Some 2%nat) t' /\
    procs t' !! 2%nat = Some p /\ killed p = 1.
Proof.
  assert (Hex : Exists (fun p => state p = UNUSED) (procs run_fork)).
  { destruct (procs run_fork !! 2%nat) as [p|] eqn:Hp; [|by vm_compute in Hp].
    apply Exists_exists. exists p. split; [by eapply list_elem_of_lookup_2|].
    vm_compute in Hp. by injection Hp as <-. }
  set (t := state_after (kill 0 run_fork) run_fork).
  set (t' := state_after (allocproc t) t).
  assert (Hk : kill 0 run_fork = Done 0 t) by (vm_compute; reflexivity).
  assert (Ha : allocproc t = Done (Some 2%nat) t') by (vm_compute; reflexivity).
  destruct (kill_zero_poisons_next_process run_fork t t' 0 2 run_ok_fork Hex Hk Ha)
    as (_ & p & Hp & _ & Hkd).
  exists t, t', p. auto.
Defined.

Lemma wait_stat_panics_after_sleep_witness :
  wait_stat_resume (set_held [LProc 0] run_fork) = Panic "acquire".
Proof. apply (wait_stat_panics_after_sleep 0); vm_compute; reflexivity. Defined.

Lemma exit_metrics_correct_witness :
  exists s', exit_metrics 1 (demo_state demo3 (Some 1%nat) 0) = Done tt s' /\
    turnaround_time <$> procs s' !! 1%nat = Some 95.
Proof.
  destruct (exit_metrics_correct 1 (set_chan TicksChan (demo_proc SLEEPING 2 5 0 (Some 0%nat)))
    (demo_state demo3 (Some 1%nat) 0)) as (s' & H1 & H2 & _); [vm_compute; reflexivity|].
  exists s'. split; [exact H1|]. rewrite H2. vm_compute. reflexivity.
Defined.
