(* ===== verification/ProcFork.v ===== *)
(** * What [fork] and [wait] do, exactly

    The process table only sees its services (page allocator, page tables, file
    table, inode table) through the class [Services].  This file states [fork] and [wait] as
    equations: which slot they work on, which service calls they make, in which
    order and with which arguments, and the state for each result of those
    calls.  [resources] are the calls [fork] makes for the child, [free_image] those of
    [freeproc]. *)

From S2P Require Import Prelude ProcDef Proc ProcFacts Sched ProcLife ProcInv ProcTable.

Section ProcFork.
Context {E : Type} `{!Services E}.
Implicit Types (s t : kernel E) (p q c : proc) (e : E).

(** ** The service calls *)

(** [freeproc]: the trapframe page, then the page table with the memory below [sz]. *)
Definition free_image (q : proc) : M E unit :=
  when (negb (tf_page q =? 0)) (kfree_page (tf_page q)) ;;
  when (negb (pagetable q =? 0)) (free_pagetable (pagetable q) (sz q)).

(** The descriptors of the child: the open ones of the caller, duplicated in order. *)
Fixpoint dup_files (fds : list nat) (from to : list Z) : M E (list Z) :=
  match fds with
  | [] => ret to
  | fd :: fds' =>
      match from !! fd with
      | Some f => if f =? 0 then dup_files fds' from to
                  else let! f' := file_dup f in dup_files fds' from (<[fd := f']> to)
      | None => dup_files fds' from to
      end
  end.

(** [allocproc]: a trapframe page and an empty page table for the slot [q]; [None] after giving
    back what was allocated. *)
Definition slot_pages (q : proc) : M E (option (Z * Z)) :=
  let! pa := (fun e => let '(pa, e') := kalloc_page e in Done pa e') in
  if pa =? 0 then free_image (set_tf_page 0 q) ;; ret None
  else
    let! pt := make_pagetable pa in
    if pt =? 0 then free_image (set_pagetable 0 (set_tf_page pa q)) ;; ret None
    else ret (Some (pa, pt)).

(** [fork]: those pages, a copy of the caller's memory, its files and its directory. *)
Definition resources (p q : proc) : M E (option (Z * Z * list Z * Z)) :=
  let! pages := slot_pages q in
  match pages with
  | None => ret None
  | Some (pa, pt) =>
      let! r := uvm_copy (pagetable p) pt (sz p) in
      if r <? 0 then free_image (set_pagetable pt (set_tf_page pa q)) ;; ret None
      else
        let! files := dup_files (seq 0 NOFILE) (ofile p) (ofile q) in
        let! dir := inode_dup (cwd p) in
        ret (Some (pa, pt, files, dir))
  end.

(** ** Service calls inside kernel code *)

Lemma bind_svc {A B} (f : E -> result E A) (k : A -> M (kernel E) B) s :
  bind (svc f) k s = match f (env s) with Done a e => k a (set_env e s) | Panic msg => Panic msg end.
Proof. unfold bind, svc. by destruct (f (env s)). Qed.

Lemma bind_match {A B} (c : M E A) (k : A -> M E B) e :
  bind c k e = match c e with Done a e' => k a e' | Panic msg => Panic msg end.
Proof. done. Qed.

Lemma bind_when_svc {B} b (f : E -> result E unit) (k : unit -> M (kernel E) B) s :
  bind (when b (svc f)) k s = match when b f (env s) with Done a e => k a (set_env e s) | Panic msg => Panic msg end.
Proof. destruct b; cbn [when]; [apply bind_svc|]. unfold bind, ret. f_equal. by destruct s. Qed.

Lemma free_image_eq q e : free_image q e =
  match when (negb (tf_page q =? 0)) (kfree_page (tf_page q)) e with
  | Done _ e1 => when (negb (pagetable q =? 0)) (free_pagetable (pagetable q) (sz q)) e1
  | Panic msg => Panic msg
  end.
Proof. done. Qed.

Lemma freeproc_eq i q s : procs s !! i = Some q ->
  freeproc i s = match free_image q (env s) with
    | Done _ e => Done tt (set_env e (set_procs (<[i := freed (ticks s) q]> (procs s)) s))
    | Panic msg => Panic msg
    end.
Proof.
  intros Hq. unfold freeproc. rewrite (bind_Done _ _ _ _ _ (getp_Done i q s Hq)), free_image_eq, bind_when_svc.
  destruct (when _ (kfree_page _) _) as [[] e1|]; [|done].
  unfold modp at 1. rewrite bind_modify, bind_when_svc. kproj.
  destruct (when _ (free_pagetable _ _) e1) as [[] e2|]; [|done].
  unfold modp, modify, bind, gets. f_equal. kernel_eq. by rewrite (alter_insert_at _ _ _ _ Hq), !alter_insert_same.
Qed.

(** Giving up a slot: free it and unlock it. *)
Lemma drop_slot_eq {A} i q H (v : A) s : procs s !! i = Some q -> held s = LProc i :: H -> (LProc i ∉ H) ->
  bind (freeproc i) (fun _ => bind (release (LProc i)) (fun _ => ret v)) s =
    match free_image q (env s) with
    | Done _ e => Done v (set_env e (set_held H (set_procs (<[i := freed (ticks s) q]> (procs s)) s)))
    | Panic msg => Panic msg
    end.
Proof.
  intros Hq Hh Hn. unfold bind at 1. rewrite (freeproc_eq i q) by done. destruct (free_image q (env s)) as [u e|]; [|done].
  rewrite (bind_release _ H) by done. done.
Qed.

(** ** [wait] *)

(** The caller's slot [p], the first zombie child [c] in slot [i]. *)
Definition reap (addr : Z) (p : proc) (i : nat) (c : proc) (s : kernel E) : result (kernel E) (Z + bool) :=
  match (if addr =? 0 then Done 0 (env s) else copy_out (pagetable p) addr (le_bytes 4 (xstate c)) (env s)) with
  | Panic msg => Panic msg
  | Done r e =>
      if r <? 0 then Done (inl (-1)) (set_env e (set_held [] s))
      else
        match free_image c e with
        | Panic msg => Panic msg
        | Done _ e => Done (inl (pid c)) (set_env e (set_held [] (set_procs (<[i := freed (ticks s) c]> (procs s)) s)))
        end
  end.

Definition child (me : nat) (c : proc) : Prop := parent c = Some me.
Definition zombie_child (me : nat) (c : proc) : Prop := parent c = Some me /\ state c = ZOMBIE.
#[export] Instance child_dec me c : Decision (child me c).
Proof. unfold child. apply _. Defined.
#[export] Instance zombie_child_dec me c : Decision (zombie_child me c).
Proof. unfold zombie_child. apply _. Defined.

Lemma wait_scan_eq addr me p s : procs s !! me = Some p -> held s = [LWait] -> forall n k hk, length (procs s) = (k + n)%nat ->
  wait_scan addr me (seq k n) hk s =
    match list_find (zombie_child me) (drop k (procs s)) with
    | Some (j, c) => reap addr p (k + j) c s
    | None => Done (inr (hk || bool_decide (Exists (child me) (drop k (procs s))))) s
    end.
Proof.
  intros Hp Hh. induction n as [|n IH]; intros k hk Hlen; cbn [seq wait_scan].
  { rewrite drop_ge by lia. cbn [list_find]. rewrite bool_decide_eq_false_2 by (intros HE; inversion HE). by rewrite orb_false_r. }
  destruct (lookup_lt_is_Some_2 (procs s) k) as [c Hc]; [lia|].
  rewrite (bind_Done _ _ _ _ _ (getp_Done k c s Hc)), (drop_S _ _ _ Hc). cbn [list_find].
  assert (Hcons : bool_decide (Exists (child me) (c :: drop (S k) (procs s))) =
    bool_decide (child me c) || bool_decide (Exists (child me) (drop (S k) (procs s)))).
  { rewrite <- bool_decide_or. apply bool_decide_ext. apply Exists_cons. }
  assert (Hnext : forall hk', ~ zombie_child me c -> hk' = hk || bool_decide (child me c) -> wait_scan addr me (seq (S k) n) hk' s =
    match (if decide (zombie_child me c) then Some (0%nat, c) else prod_map S id <$> list_find (zombie_child me) (drop (S k) (procs s))) with
    | Some (j, c) => reap addr p (k + j) c s
    | None => Done (inr (hk || bool_decide (Exists (child me) (c :: drop (S k) (procs s))))) s
    end).
  { intros hk' Hz ->. rewrite IH, decide_False by (done || lia). destruct (list_find _ _) as [[j d]|]; cbn.
    - by rewrite Nat.add_succ_r.
    - by rewrite Hcons, orb_assoc. }
  destruct (decide (parent c = Some me)) as [Hpar|Hpar].
  2: { apply Hnext; [by intros [? _]|]. by rewrite (bool_decide_eq_false_2 (child me c)), orb_false_r. }
  rewrite (bind_Done _ _ _ _ _ (acquire_Done (LProc k) s ltac:(rewrite Hh; set_solver))). rewrite Hh.
  destruct (decide (state c = ZOMBIE)) as [Hz|Hz].
  2: { rewrite (bind_release (LProc k) [LWait]) by (done || set_solver).
    replace (set_held [LWait] (set_held [LProc k; LWait] s)) with s by (rewrite <- Hh; by destruct s).
    apply Hnext; [by intros [_ ?]|]. by rewrite bool_decide_eq_true_2, orb_true_r. }
  rewrite decide_True by (by split). rewrite Nat.add_0_r.
  rewrite (bind_Done _ _ _ _ _ (getp_Done me p (set_held [LProc k; LWait] s) Hp)). unfold reap.
  assert (Hcopy : forall (K : Z -> M (kernel E) (Z + bool)), bind (if addr =? 0 then ret 0 else svc (copy_out (pagetable p) addr (le_bytes 4 (xstate c)))) K
      (set_held [LProc k; LWait] s) =
    match (if addr =? 0 then Done 0 (env s) else copy_out (pagetable p) addr (le_bytes 4 (xstate c)) (env s)) with
    | Panic msg => Panic msg | Done r e => K r (set_env e (set_held [LProc k; LWait] s)) end).
  { intros K. destruct (addr =? 0); [|by rewrite bind_svc; kproj; destruct (copy_out _ _ _ _)]. unfold bind, ret. by destruct s. }
  rewrite Hcopy. destruct (if addr =? 0 then _ else _) as [r e|]; [|done]. destruct (r <? 0).
  - rewrite (bind_release (LProc k) [LWait]), (bind_release LWait []) by (done || set_solver). done.
  - unfold bind at 1. rewrite (freeproc_eq k c) by done. kproj. destruct (free_image c e) as [u e'|]; [|done].
    rewrite (bind_release (LProc k) [LWait]), (bind_release LWait []) by (done || set_solver). done.
Qed.

(** Putting the caller to sleep on its own slot, with [wait_lock] given back. *)
Lemma sleep_enter_eq me (ch : channel) p s : curproc s = Some me -> procs s !! me = Some p -> held s = [LWait] ->
  sleep_enter ch LWait s = Done tt (set_held [LProc me] (set_procs (<[me := set_state SLEEPING (set_chan ch p)]> (procs s)) s)).
Proof.
  intros Hcur Hp Hh. unfold sleep_enter, cur, bind at 1. rewrite Hcur.
  rewrite (bind_Done _ _ _ _ _ (acquire_Done (LProc me) s ltac:(rewrite Hh; set_solver))). rewrite Hh.
  rewrite (bind_Done _ _ _ _ _ (release_Done LWait (set_held [LProc me; LWait] s) ltac:(kproj; set_solver))). kproj.
  rewrite filter_cons_True, filter_cons_False by (done || tauto). cbn [filter list_filter]. unfold modp. rewrite !bind_modify. kproj.
  rewrite (alter_insert_at _ _ _ _ Hp), alter_insert_same. unfold sched. kproj. rewrite Hcur, list_lookup_insert_eq by (by eapply lookup_lt_Some).
  rewrite decide_False by set_solver. rewrite decide_False by (cbn; lia). rewrite decide_False by done. f_equal.
Qed.

Lemma is_killed_eq me p s : procs s !! me = Some p -> (LProc me ∉ held s) -> is_killed me s = Done (killed p) s.
Proof.
  intros Hp Hh. unfold is_killed. rewrite (bind_Done _ _ _ _ _ (acquire_Done (LProc me) s Hh)).
  rewrite (bind_Done _ _ _ _ _ (getp_Done me p (set_held (LProc me :: held s) s) Hp)), (bind_release _ (held s)) by done.
  unfold ret. f_equal. by destruct s.
Qed.

(** C30: [wait], entered with no spin lock held.  It takes the first zombie child of the caller in
    table order: with [addr] not null it copies the four bytes of its exit status to [addr] in the caller's memory, gives -1 if
    that fails, and otherwise frees the child's trapframe page and memory, makes its slot unused and returns its pid.
    Without a zombie child it returns -1 at once if the caller has no child or was
    killed, and otherwise goes to sleep on its own slot.  Nothing else changes, and it panics only
    when one of those service calls does. *)
Theorem wait_reaps_zombie_child (addr : Z) (me : nat) (p : proc) (s : kernel E) :
  table_ok s -> curproc s = Some me -> procs s !! me = Some p ->
  match list_find (zombie_child me) (procs s) with
  | Some (i, c) =>
      0 < pid c /\
      match (if addr =? 0 then Done 0 (env s) else copy_out (pagetable p) addr (le_bytes 4 (xstate c)) (env s)) with
      | Panic msg => wait addr s = Panic msg
      | Done r e =>
          if r <? 0 then wait addr s = Done (Some (-1)) (set_env e s)
          else
            match free_image c e with
            | Panic msg => wait addr s = Panic msg
            | Done _ e => exists c', wait addr s = Done (Some (pid c)) (set_env e (set_procs (<[i := c']> (procs s)) s)) /\
                state c' = UNUSED /\ pid c' = 0 /\ parent c' = None /\ killed c' = 0 /\ xstate c' = 0 /\
                chan c' = NullChan /\ sz c' = 0 /\ pagetable c' = 0 /\ tf_page c' = 0
            end
      end
  | None =>
      match list_find (child me) (procs s) with
      | None => wait addr s = Done (Some (-1)) s
      | Some _ =>
          if killed p =? 0
          then wait addr s = Done None (set_held [LProc me] (set_procs (<[me := set_state SLEEPING (set_chan (ProcChan me) p)]> (procs s)) s))
          else wait addr s = Done (Some (-1)) s
      end
  end.
Proof.
  intros Hok Hcur Hp. pose proof (ok_held s Hok) as Hh. set (s1 := set_held [LWait] s).
  assert (Hw : wait addr s = wait_round addr s1).
  { unfold wait. rewrite (bind_Done _ _ _ _ _ (acquire_Done LWait s ltac:(rewrite Hh; set_solver))). by rewrite Hh. }
  assert (Hback : set_held [] s1 = s) by (unfold s1; rewrite <- Hh; by destruct s).
  pose proof (wait_scan_eq addr me p s1 Hp eq_refl NPROC 0 false ltac:(exact (ok_len s Hok))) as Hscan. rewrite drop_0 in Hscan.
  change (procs s1) with (procs s) in Hscan. cbn [orb] in Hscan.
  assert (Hround : wait addr s = match wait_scan addr me (seq 0 NPROC) false s1 with
    | Done (inl v) t => Done (Some v) t
    | Done (inr hk) t => (let! stop := (if hk then let! k := is_killed me in ret (negb (k =? 0)) else ret true) in
        if (stop : bool) then release LWait ;; ret (Some (-1)) else sleep_enter (ProcChan me) LWait ;; ret None) t
    | Panic msg => Panic msg end).
  { rewrite Hw. unfold wait_round, cur, bind at 1. change (curproc s1) with (curproc s). rewrite Hcur.
    unfold all_procs, bind at 1. by destruct (wait_scan _ _ _ _ _) as [[v|hk] t|]. }
  rewrite Hscan in Hround. clear Hscan Hw. destruct (list_find (zombie_child me) (procs s)) as [[i c]|] eqn:Hf.
  - apply list_find_Some in Hf as (Hc & [_ Hz] & _). assert (1 <= pid c < nextpid s) by (apply (ok_pid s Hok i c Hc); congruence).
    split; [lia|]. unfold reap in Hround. change (env s1) with (env s) in Hround.
    destruct (if addr =? 0 then Done 0 (env s) else copy_out (pagetable p) addr (le_bytes 4 (xstate c)) (env s)) as [r e|msg]; [|done].
    destruct (r <? 0); [rewrite Hround; by rewrite Hback|]. destruct (free_image c e) as [u e'|]; [|done].
    exists (freed (ticks s) c). split; [|done]. rewrite Hround. cbn [Nat.add]. f_equal. unfold s1. kernel_eq. by rewrite Hh.
  - destruct (list_find (child me) (procs s)) as [[i c]|] eqn:Hc.
    + rewrite bool_decide_eq_true_2 in Hround.
      2: { apply list_find_Some in Hc as (Hc & Hch & _). apply Exists_exists. exists c. split; [by eapply list_elem_of_lookup_2|done]. }
      rewrite bind_assoc, (bind_Done _ _ _ _ _ (is_killed_eq me p s1 Hp ltac:(cbn; set_solver))), bind_ret in Hround.
      destruct (killed p =? 0); cbn [negb] in Hround; rewrite Hround.
      * by rewrite (bind_Done _ _ _ _ _ (sleep_enter_eq me (ProcChan me) p s1 Hcur Hp eq_refl)).
      * rewrite (bind_release LWait []) by (done || set_solver). unfold ret. by rewrite Hback.
    + rewrite bool_decide_eq_false_2 in Hround.
      2: { apply list_find_None in Hc. rewrite Exists_exists. intros (c & Hin & Hch). rewrite Forall_forall in Hc. by apply (Hc c). }
      rewrite bind_ret in Hround. rewrite Hround, (bind_release LWait []) by (done || set_solver). unfold ret. by rewrite Hback.
Qed.

(** ** [fork] *)

Lemma at_slot_svc {A B} (f : E -> result E A) (k : A -> M (kernel E) B) s n q H tot e :
  bind (svc f) k (at_slot s n q H tot e) =
    match f e with Done a e' => k a (at_slot s n q H tot e') | Panic msg => Panic msg end.
Proof. rewrite bind_svc. done. Qed.

Lemma set_ofile_same q : set_ofile (ofile q) q = q.
Proof. by destruct q. Qed.

Lemma at_slot_dup_files s n p q H tot e : (n < length (procs s))%nat ->
  fork_files n p (at_slot s n q H tot e) =
    match dup_files (seq 0 NOFILE) (ofile p) (ofile q) e with
    | Done files e' => Done tt (at_slot s n (set_ofile files q) H tot e')
    | Panic msg => Panic msg
    end.
Proof.
  intros Hn. unfold fork_files. generalize (seq 0 NOFILE) as fds. intros fds. revert q e.
  induction fds as [|fd fds IH]; intros q e; cbn [for_each dup_files]; [unfold ret; by rewrite set_ofile_same|].
  destruct (ofile p !! fd) as [f|]; [|rewrite bind_ret; apply IH]. destruct (f =? 0); [rewrite bind_ret; apply IH|].
  rewrite bind_assoc, at_slot_svc, bind_match. destruct (file_dup f e) as [f' e'|]; [|done].
  rewrite at_slot_modp by done. rewrite IH. cbn [ofile set_ofile]. by destruct (dup_files _ _ _ e').
Qed.

(** Giving up the slot. *)
Lemma at_slot_drop {A} s n q e (v : A) : (n < length (procs s))%nat -> (LProc n ∉ held s) ->
  bind (freeproc n) (fun _ => bind (release (LProc n)) (fun _ => ret v))
    (at_slot s n q (LProc n :: held s) (total_benchmark_processes s) e) =
  match free_image q e with
  | Done _ e' => Done v (at_slot s n (freed (ticks s) q) (held s) (total_benchmark_processes s) e')
  | Panic msg => Panic msg
  end.
Proof.
  intros Hn Hh. rewrite (drop_slot_eq n q (held s)); [|by apply list_lookup_insert_eq|done|done].
  change (env (at_slot s n q (LProc n :: held s) (total_benchmark_processes s) e)) with e.
  destruct (free_image q e) as [u e'|]; [|done]. f_equal. unfold at_slot. kernel_eq. by rewrite list_insert_insert_eq.
Qed.

Section Slot.
Context (s : kernel E) (n : nat) (q : proc).
Context (Hf : table_free s) (Hpid : LPid ∉ held s) (Hfind : list_find (fun p => state p = UNUSED) (procs s) = Some (n, q)).
Let tot : Z := total_benchmark_processes s.

Lemma slot_valid : (n < length (procs s))%nat /\ (LProc n ∉ held s) /\ procs s !! n = Some q /\ state q = UNUSED.
Proof.
  pose proof Hfind as (Hq & Hu & _)%list_find_Some. destruct Hf as [_ Hfree].
  split; [by eapply lookup_lt_Some|]. done.
Qed.

(** The slot of a failed allocation. *)
Lemma allocproc_eq :
  match slot_pages q (env s) with
  | Panic msg => allocproc s = Panic msg
  | Done None e => exists q', allocproc s = Done None (at_slot s n (freed (ticks s) q') (held s) tot e)
  | Done (Some (pa, pt)) e =>
      allocproc s = Done (Some n) (at_slot s n (fresh (nextpid s) pa pt (ticks s) q) (LProc n :: held s) tot e)
  end.
Proof.
  destruct slot_valid as (Hn & Hl & Hq & Hu). set (q1 := set_state USED (set_pid (nextpid s) q)).
  assert (Heq : allocproc s = let '(pa, e0) := kalloc_page (env s) in
    if pa =? 0 then
      match free_image (set_tf_page 0 q) e0 with
      | Done _ e => Done None (at_slot s n (freed (ticks s) (set_tf_page 0 q1)) (held s) tot e) | Panic msg => Panic msg end
    else match make_pagetable pa e0 with
      | Panic msg => Panic msg
      | Done pt e1 =>
          if pt =? 0 then
            match free_image (set_pagetable 0 (set_tf_page pa q)) e1 with
            | Done _ e => Done None (at_slot s n (freed (ticks s) (set_pagetable 0 (set_tf junk_tf (set_tf_page pa q1)))) (held s) tot e)
            | Panic msg => Panic msg end
          else Done (Some n) (at_slot s n (fresh (nextpid s) pa pt (ticks s) q) (LProc n :: held s) tot e1)
      end).
  { unfold allocproc, bind at 1. rewrite alloc_search, Hfind by done.
    rewrite (bind_Done _ _ _ _ _ (allocpid_Done (set_held (LProc n :: held s) s) ltac:(kproj; set_solver))).
    unfold modp at 1 2. rewrite !bind_modify.
    match goal with |- _ ?st = _ => replace st with (at_slot s n q1 (LProc n :: held s) tot (env s))
      by (unfold at_slot, tot; kernel_eq; by rewrite (alter_insert_at _ _ _ _ Hq), alter_insert_same) end.
    rewrite at_slot_svc. destruct (kalloc_page (env s)) as [pa e0]. rewrite at_slot_modp by done.
    destruct (Z.eqb_spec pa 0) as [->|Hpa]; [by rewrite at_slot_drop|].
    rewrite at_slot_modp, at_slot_svc by done. destruct (make_pagetable pa e0) as [pt e1|]; [|done].
    rewrite at_slot_modp by done. destruct (Z.eqb_spec pt 0) as [->|Hpt]; [by rewrite at_slot_drop|].
    rewrite at_slot_modp by done. unfold gets at 1, bind at 1. by rewrite !at_slot_modp. }
  rewrite Heq. unfold slot_pages. rewrite bind_match. destruct (kalloc_page (env s)) as [pa e0]. destruct (pa =? 0).
  { rewrite bind_match. destruct (free_image _ e0) as [u e1|]; [|done]. by eexists. }
  rewrite bind_match. destruct (make_pagetable pa e0) as [pt e1|]; [|done]. destruct (pt =? 0); [|done].
  rewrite bind_match. destruct (free_image _ e1) as [u e2|]; [|done]. by eexists.
Qed.

(** [fork] from the slot that [allocproc] filled ([q1]). *)
Definition fork_rest (me : nat) (p q1 : proc) (e : E) : result (kernel E) Z :=
  match uvm_copy (pagetable p) (pagetable q1) (sz p) e with
  | Panic msg => Panic msg
  | Done r e2 =>
      if r <? 0 then
        match free_image q1 e2 with Done _ e => Done (-1) (at_slot s n (freed (ticks s) q1) (held s) tot e) | Panic msg => Panic msg end
      else match dup_files (seq 0 NOFILE) (ofile p) (ofile q1) e2 with
      | Panic msg => Panic msg
      | Done files e3 =>
          match inode_dup (cwd p) e3 with
          | Panic msg => Panic msg
          | Done dir e4 => Done (pid q1) (at_slot s n (child_of me p q1 files dir) (held s) (if is_schedbench p then s32 (tot + 1) else tot) e4)
          end
      end
  end.

Lemma fork_allocated me p q1 e : (LWait ∉ held s) -> curproc s = Some me -> procs s !! me = Some p -> state p <> UNUSED ->
  allocproc s = Done (Some n) (at_slot s n q1 (LProc n :: held s) tot e) -> fork s = fork_rest me p q1 e.
Proof.
  intros Hwait Hcur Hp Hused Ha. destruct slot_valid as (Hn & Hl & Hq & Hu). assert (Hne : me <> n) by congruence.
  unfold fork, cur, bind at 1. rewrite Hcur. rewrite (bind_Done _ _ _ _ _ Ha), (at_slot_getp_ne s n me p), at_slot_getp, at_slot_svc by done.
  unfold fork_rest. destruct (uvm_copy (pagetable p) (pagetable q1) (sz p) e) as [r e2|]; [|done].
  destruct (r <? 0); [by rewrite at_slot_drop|]. rewrite !at_slot_modp by done. unfold bind at 1. rewrite at_slot_dup_files by done.
  change (ofile (set_tf _ _)) with (ofile q1). destruct (dup_files _ _ (ofile q1) e2) as [files e3|]; [|done].
  rewrite at_slot_svc. destruct (inode_dup (cwd p) e3) as [dir e4|]; [|done]. rewrite !at_slot_modp by done.
  unfold bind at 1. fold (is_schedbench p). destruct (when (is_schedbench p) _ _) as [[] t|] eqn:Hw.
  - apply at_slot_benchmark in Hw as ->.
    rewrite at_slot_getp, at_slot_release, at_slot_acquire, at_slot_modp, at_slot_release,
      at_slot_acquire, at_slot_modp, at_slot_release by done.
    unfold ret, child_of. rewrite set_tf_tf. reflexivity.
  - exfalso. destruct (is_schedbench p); cbn [when] in Hw; [by rewrite at_slot_modp in Hw|done].
Qed.

(** [fork] with that slot. *)
Lemma fork_eq me p : (LWait ∉ held s) -> curproc s = Some me -> procs s !! me = Some p -> state p <> UNUSED ->
  match resources p q (env s) with
  | Panic msg => fork s = Panic msg
  | Done None e => exists q', fork s = Done (-1) (at_slot s n (freed (ticks s) q') (held s) tot e)
  | Done (Some (pa, pt, files, dir)) e =>
      fork s = Done (nextpid s) (at_slot s n (child_of me p (fresh (nextpid s) pa pt (ticks s) q) files dir) (held s)
        (if is_schedbench p then s32 (tot + 1) else tot) e)
  end.
Proof.
  intros Hwait Hcur Hp Hused. pose proof allocproc_eq as Ha. unfold resources. rewrite bind_match.
  destruct (slot_pages q (env s)) as [[[pa pt]|] e1|msg].
  2: { destruct Ha as [q' Ha]. exists q'. unfold fork, cur, bind at 1. rewrite Hcur. by rewrite (bind_Done _ _ _ _ _ Ha). }
  2: { unfold fork, cur, bind at 1. rewrite Hcur. unfold bind. by rewrite Ha. }
  rewrite (fork_allocated me p _ _ Hwait Hcur Hp Hused Ha). clear Ha. unfold fork_rest.
  remember (fresh (nextpid s) pa pt (ticks s) q) as q1 eqn:E1.
  assert (Q1 : pid q1 = nextpid s) by (by rewrite E1). assert (Q2 : pagetable q1 = pt) by (by rewrite E1).
  assert (Q3 : ofile q1 = ofile q) by (by rewrite E1).
  assert (Q4 : free_image q1 = free_image (set_pagetable pt (set_tf_page pa q))) by (by rewrite E1).
  rewrite Q1, Q2, Q3, Q4, bind_match. destruct (uvm_copy _ _ _ e1) as [r e2|]; [|done]. destruct (r <? 0).
  { rewrite bind_match. destruct (free_image (set_pagetable pt (set_tf_page pa q)) e2) as [u e3|]; [|done]. by eexists. }
  rewrite bind_match. destruct (dup_files _ _ _ e2) as [files e3|]; [|done]. rewrite bind_match.
  destruct (inode_dup _ e3) as [dir e4|]; [|done]. unfold ret. by rewrite E1.
Qed.
End Slot.

(** [filedup] and [idup] return their argument. *)
Definition dup_returns : Prop :=
  (forall f e f' e', file_dup f e = Done f' e' -> f' = f) /\ (forall i e i' e', inode_dup i e = Done i' e' -> i' = i).

Lemma dup_files_spec fds from : dup_returns -> NoDup fds -> forall to e files e', dup_files fds from to e = Done files e' ->
  length files = length to /\
  forall fd f, from !! fd = Some f -> (fd < length to)%nat ->
    files !! fd = if decide (fd ∈ fds) then (if f =? 0 then to !! fd else Some f) else to !! fd.
Proof.
  intros [Hdup _] Hnd. induction Hnd as [|x fds Hx Hnd IH]; intros to e files e' H; cbn [dup_files] in H.
  { injection H as <- _. split; [done|]. intros fd f _ _. by rewrite decide_False by apply not_elem_of_nil. }
  assert (Hskip : dup_files fds from to e = Done files e' -> (forall f, from !! x = Some f -> f = 0) -> length files = length to /\
    forall fd f, from !! fd = Some f -> (fd < length to)%nat ->
      files !! fd = if decide (fd ∈ x :: fds) then (if f =? 0 then to !! fd else Some f) else to !! fd).
  { intros Hd H0. destruct (IH _ _ _ _ Hd) as [Hlen Hall]. split; [done|]. intros fd f Hf Hfd. rewrite (Hall fd f Hf Hfd).
    destruct (decide (fd = x)) as [->|Hne].
    - rewrite (H0 f Hf). by repeat case_decide.
    - destruct (decide (fd ∈ fds)); [rewrite decide_True by set_solver|rewrite decide_False by set_solver]; done. }
  destruct (from !! x) as [g|] eqn:Hg; [|apply Hskip; [done|congruence]].
  destruct (Z.eqb_spec g 0) as [->|Hg0]; [apply Hskip; [done|congruence]|].
  apply bind_Done_inv in H as (g' & e1 & H1 & H). apply Hdup in H1 as ->. destruct (IH _ _ _ _ H) as [Hlen Hall].
  rewrite length_insert in Hlen, Hall. split; [done|]. intros fd f Hf Hfd. rewrite (Hall fd f Hf Hfd).
  destruct (decide (fd = x)) as [->|Hne].
  - rewrite decide_False, decide_True by set_solver. rewrite list_lookup_insert_eq by done. assert (f = g) as -> by congruence.
    by destruct (Z.eqb_spec g 0).
  - rewrite list_lookup_insert_ne by done.
    destruct (decide (fd ∈ fds)); [rewrite decide_True by set_solver|rewrite decide_False by set_solver]; done.
Qed.

(** C29: [fork], entered with no spin lock held.  Without an unused slot it returns -1 and
    changes nothing.  Otherwise it takes the first unused slot and a new pid and makes the calls of
    [resources]: a trapframe page, a page table, a copy of the caller's memory into it, one more
    reference to each of its open files and to its directory.  If the page, the page table or the copy cannot
    be had, it gives back what it had, the slot is unused again, and the result is -1.  Otherwise the slot becomes a
    RUNNABLE child of the caller that owns those resources and has the caller's size, registers (with [a0 = 0]) and name,
    and the result is its pid; where [filedup] and [idup] return their argument, its descriptors are the caller's open ones
    and its directory is the caller's.  No other slot changes. *)
Theorem fork_creates_child (me : nat) (p : proc) (s : kernel E) :
  table_ok s -> curproc s = Some me -> procs s !! me = Some p ->
  match list_find (fun q => state q = UNUSED) (procs s) with
  | None => fork s = Done (-1) s
  | Some (n, q) =>
      match resources p q (env s) with
      | Panic msg => fork s = Panic msg
      | Done None e => exists q', fork s = Done (-1) (set_env e (set_nextpid (s32 (nextpid s + 1)) (set_procs (<[n := q']> (procs s)) s))) /\
          state q' = UNUSED /\ pid q' = 0 /\ parent q' = None
      | Done (Some (pa, pt, files, dir)) e => exists c,
          fork s = Done (nextpid s) (set_env e (set_total_benchmark_processes
            (if is_schedbench p then s32 (total_benchmark_processes s + 1) else total_benchmark_processes s)
            (set_nextpid (s32 (nextpid s + 1)) (set_procs (<[n := c]> (procs s)) s)))) /\
          state c = RUNNABLE /\ pid c = nextpid s /\ parent c = Some me /\
          sz c = sz p /\ tf_page c = pa /\ pagetable c = pt /\ tf c = <[TF_a0 := 0]> (tf p) /\
          ofile c = files /\ cwd c = dir /\ name c = safestrcpy_arr (name q) (name p) 15 /\
          ctime c = ticks s /\ rtime c = 0 /\ priority c = 0 /\
          (dup_returns -> dir = cwd p /\
             forall fd f, (fd < NOFILE)%nat -> (fd < length (ofile q))%nat -> ofile p !! fd = Some f ->
               files !! fd = if f =? 0 then ofile q !! fd else Some f)
      end
  end.
Proof.
  intros Hok Hcur Hp. pose proof (table_ok_free s Hok) as Hfree. pose proof (ok_held s Hok) as Hh.
  destruct (table_ok_current s me Hok Hcur) as (p' & Hp' & Hrun). assert (p' = p) as -> by congruence.
  destruct (list_find _ (procs s)) as [[n q]|] eqn:Hfind.
  - pose proof (fork_eq s n q Hfree ltac:(rewrite Hh; apply not_elem_of_nil) Hfind me p ltac:(rewrite Hh; apply not_elem_of_nil) Hcur Hp ltac:(congruence)) as H.
    destruct (resources p q (env s)) as [[[[[pa pt] files] dir]|] e|msg] eqn:Hres; [| |done].
    + eexists. split; [rewrite H; f_equal; unfold at_slot; kernel_eq; by rewrite Hh|]. repeat (split; [done|]).
      intros Hdup. unfold resources in Hres. apply bind_Done_inv in Hres as (pages & e1 & _ & Hres). destruct pages as [[pa' pt']|]; [|done].
      apply bind_Done_inv in Hres as (r & e2 & _ & Hres). destruct (r <? 0); [by apply bind_Done_inv in Hres as (? & ? & _ & ?)|].
      apply bind_Done_inv in Hres as (files' & e3 & Hfiles & Hres). apply bind_Done_inv in Hres as (dir' & e4 & Hdir & Hres).
      injection Hres as <- <- <- <- _. split; [by apply (proj2 Hdup) in Hdir|]. intros fd f Hfd Hlen Hf.
      destruct (dup_files_spec (seq 0 NOFILE) (ofile p) Hdup (NoDup_seq 0 NOFILE) _ _ _ _ Hfiles) as [_ Hall].
      rewrite (Hall fd f Hf Hlen), decide_True by (apply elem_of_seq; lia). done.
    + destruct H as [q' H]. eexists. split; [rewrite H; f_equal; unfold at_slot; kernel_eq; by rewrite Hh|]. done.
  - unfold fork, cur, bind at 1. rewrite Hcur. rewrite (bind_Done _ _ _ None s); [done|].
    unfold allocproc, bind at 1. by rewrite alloc_search, Hfind by done.
Qed.
End ProcFork.

(** ** Init forks, and reaps its child *)

Definition init_slot : proc := default proc0 (procs run_init !! 0%nat).
Definition free_slot : proc := default proc0 (procs run_init !! 1%nat).

Lemma fork_creates_child_witness :
  dup_returns (E := list Z) /\
  exists pa pt files dir e c t, resources init_slot free_slot (env run_init) = Done (Some (pa, pt, files, dir)) e /\
    fork run_init = Done 2 t /\ env t = e /\ procs t !! 1%nat = Some c /\ state c = RUNNABLE /\ parent c = Some 0%nat /\
    pagetable c = pt /\ pt <> pagetable init_slot.
Proof.
  assert (Hdup : dup_returns (E := list Z)) by (split; intros x e x' e' H; by injection H).
  split; [exact Hdup|].
  assert (Hp : procs run_init !! 0%nat = Some init_slot) by (vm_compute; reflexivity).
  assert (Hf : list_find (fun q => state q = UNUSED) (procs run_init) = Some (1%nat, free_slot)) by (vm_compute; reflexivity).
  pose proof (fork_creates_child 0 init_slot run_init run_ok_init ltac:(vm_compute; reflexivity) Hp) as H. rewrite Hf in H.
  do 5 eexists. assert (Hres : resources init_slot free_slot (env run_init) = Done (Some (_, _, _, _)) _) by (vm_compute; reflexivity).
  rewrite Hres in H. destruct H as (c & Hfork & H1 & _ & H2 & _ & _ & H3 & _). exists c. eexists. split; [exact Hres|].
  split; [exact Hfork|]. split; [reflexivity|]. split.
  { apply list_lookup_insert_eq. vm_compute. lia. }
  split; [exact H1|]. split; [exact H2|]. split; [exact H3|]. vm_compute. discriminate.
Defined.

(** Init sleeps on the clock, its child exits with status 7, the clock wakes init up: it has a zombie child. *)
Definition run_nap : kernel (list Z) :=
  state_after (bind (bind (acquire LTicks) (fun _ => sleep_enter TicksChan LTicks)) (fun _ => scheduler_return 0) run_fork) run_fork.
Definition run_kid : kernel (list Z) := state_after (bind scheduler_iter (fun _ => yield_return) run_nap) run_nap.
Definition run_dead : kernel (list Z) := state_after (bind (exit 7) (fun _ => scheduler_return 1) run_kid) run_kid.
Definition run_tick : kernel (list Z) := state_after (wakeup TicksChan run_dead) run_dead.
Definition run_zombie : kernel (list Z) :=
  state_after (bind scheduler_iter (fun _ => bind (sleep_return LTicks) (fun _ => release LTicks)) run_tick) run_tick.

Lemma run_ok_zombie : table_ok run_zombie.
Proof.
  apply run_ok_steps. etransitivity; [exact run_fork_step|].
  eapply rtc_l; [|eapply rtc_l; [|eapply rtc_l; [|eapply rtc_l; [|eapply rtc_once]]]].
  - eapply (step_sleep run_fork run_nap 0 TicksChan LTicks); [vm_compute; reflexivity|done|vm_compute; reflexivity..].
  - eapply (step_dispatch run_nap run_kid 1); [vm_compute; reflexivity..|]. apply resume_yield. vm_compute. reflexivity.
  - eapply (step_exit run_kid run_dead 1 7); [vm_compute; reflexivity..].
  - apply (step_wakeup run_dead run_tick TicksChan). vm_compute. reflexivity.
  - eapply (step_dispatch run_tick run_zombie 0); [vm_compute; reflexivity..|]. apply (resume_sleep _ _ _ LTicks); [done|]. vm_compute. reflexivity.
Qed.

Definition init_slot' : proc := default proc0 (procs run_zombie !! 0%nat).
Definition zombie_slot : proc := default proc0 (procs run_zombie !! 1%nat).

(** [wait(4096)] stores 7 at address 4096 and frees the child; earlier, it would have slept. *)
Lemma wait_reaps_zombie_child_witness :
  (exists e c', xstate zombie_slot = 7 /\ copy_out (pagetable init_slot') 4096 [7; 0; 0; 0] (env run_zombie) = Done 0 e /\
    match free_image zombie_slot e with
    | Done _ e => wait 4096 run_zombie = Done (Some 2) (set_env e (set_procs (<[1%nat := c']> (procs run_zombie)) run_zombie))
    | Panic _ => False end /\ state c' = UNUSED) /\
  wait 0 run_fork = Done None (set_held [LProc 0] (set_procs (<[0%nat := set_state SLEEPING (set_chan (ProcChan 0) init_slot)]> (procs run_fork)) run_fork)).
Proof.
  split.
  - assert (Hp : procs run_zombie !! 0%nat = Some init_slot') by (vm_compute; reflexivity).
    assert (Hf : list_find (zombie_child 0) (procs run_zombie) = Some (1%nat, zombie_slot)) by (vm_compute; reflexivity).
    pose proof (wait_reaps_zombie_child 4096 0 init_slot' run_zombie run_ok_zombie ltac:(vm_compute; reflexivity) Hp) as H. rewrite Hf in H.
    destruct H as [_ H]. assert (Hx : xstate zombie_slot = 7) by (vm_compute; reflexivity).
    assert (Hc : copy_out (pagetable init_slot') 4096 (le_bytes 4 (xstate zombie_slot)) (env run_zombie) = Done 0 (env run_zombie)) by (vm_compute; reflexivity).
    change (4096 =? 0) with false in H. cbv iota in H. rewrite Hc in H. change (0 <? 0) with false in H. cbv iota in H.
    exists (env run_zombie). destruct (free_image zombie_slot (env run_zombie)) as [u e|msg] eqn:Hfree; [|vm_compute in Hfree; discriminate Hfree].
    destruct H as (c' & Hw & Hs & _). exists c'. split; [exact Hx|]. split; [rewrite <- Hc; rewrite Hx; reflexivity|]. split; [|exact Hs].
    assert (Hpid : pid zombie_slot = 2) by (vm_compute; reflexivity). rewrite <- Hpid. exact Hw.
  - assert (Hp : procs run_fork !! 0%nat = Some init_slot) by (vm_compute; reflexivity).
    assert (Hz : list_find (zombie_child 0) (procs run_fork) = None) by (vm_compute; reflexivity).
    pose proof (wait_reaps_zombie_child 0 0 init_slot run_fork run_ok_fork ltac:(vm_compute; reflexivity) Hp) as H. rewrite Hz in H.
    destruct (list_find (child 0) (procs run_fork)) as [[i c]|] eqn:Hc; [|vm_compute in Hc; discriminate Hc].
    assert (Hk : (killed init_slot =? 0) = true) by (vm_compute; reflexivity). rewrite Hk in H. exact H.
Defined.
