(* ===== verification/ProcRuns.v ===== *)
(** * The process functions never panic

    The functions of [proc.c] end in [panic] when a lock is taken twice or
    released without being held, when [sched] is called with the wrong locks or
    in the wrong state, and on a wild process pointer.  [runs P c Q]: from every
    state with [P], [c] returns, in a state with [Q].  The assertions are about
    what those tests look at: the locks this CPU holds, the current process and
    the length of the table ([shape]).  The services are assumed to return. *)

From S2P Require Import Prelude ProcDef Proc ProcFacts Sched ProcLife ProcInv.

Definition returns {E A} (f : E -> result E A) : Prop := forall e, exists a e', f e = Done a e'.

(** Services that never panic. *)
Class TotalServices (E : Type) `{!Services E} : Prop := {
  total_kfree pa : returns (kfree_page pa);
  total_make tf : returns (make_pagetable tf);
  total_free pt sz : returns (free_pagetable pt sz);
  total_copy a b n : returns (uvm_copy a b n);
  total_copy_out pt a bs : returns (copy_out pt a bs);
  total_dup f : returns (file_dup f);
  total_close f : returns (file_close f);
  total_idup ip : returns (inode_dup ip);
  total_iput ip : returns (inode_put ip)
}.

Section Runs.
Context {E : Type} `{!Services E, !TotalServices E}.
Abbreviation K := (M (kernel E)).
Implicit Types (s t : kernel E) (H : list lockid) (me : option nat).

Definition runs {A} (P : kernel E -> Prop) (c : K A) (Q : A -> kernel E -> Prop) : Prop :=
  forall s, P s -> exists a t, c s = Done a t /\ Q a t.

Definition shape me H s : Prop := length (procs s) = NPROC /\ held s = H /\ curproc s = me.

(** ** Rules *)

Lemma runs_ret {A} P (a : A) (Q : A -> kernel E -> Prop) : (forall s, P s -> Q a s) -> runs P (ret a) Q.
Proof. intros H s Hs. exists a, s. auto. Qed.

Lemma runs_bind {A B} P (c : K A) (k : A -> K B) Q R :
  runs P c R -> (forall a, runs (R a) (k a) Q) -> runs P (bind c k) Q.
Proof.
  intros Hc Hk s Hs. destruct (Hc s Hs) as (a & t & Ha & Ht). destruct (Hk a t Ht) as (b & u & Hb & Hu).
  exists b, u. split; [|done]. by rewrite (bind_Done _ _ _ _ _ Ha).
Qed.

Lemma runs_post {A} P (c : K A) (Q R : A -> kernel E -> Prop) :
  runs P c R -> (forall a s, R a s -> Q a s) -> runs P c Q.
Proof. intros Hc Hq s Hs. destruct (Hc s Hs) as (a & t & Ha & Ht). exists a, t. auto. Qed.

Lemma runs_pre {A} (P P' : kernel E -> Prop) (c : K A) Q : (forall s, P s -> P' s) -> runs P' c Q -> runs P c Q.
Proof. intros Hp Hc s Hs. apply Hc. auto. Qed.

Lemma runs_pure {A} (P : kernel E -> Prop) (X : Prop) (c : K A) Q : (X -> runs P c Q) -> runs (fun s => P s /\ X) c Q.
Proof. intros Hc s [Hs Hx]. by apply Hc. Qed.

(** [next R]: the first computation of a sequence, and its postcondition. *)
Ltac next R := apply (runs_bind _ _ _ _ R); [|intros ?].

(** Computations that keep the shape. *)
Definition steady {A} me H (c : K A) : Prop := runs (shape me H) c (fun _ => shape me H).

Lemma steady_ret {A} me H (a : A) : steady me H (ret a).
Proof. by apply runs_ret. Qed.
Lemma steady_bind {A B} me H (c : K A) (k : A -> K B) :
  steady me H c -> (forall a, steady me H (k a)) -> steady me H (bind c k).
Proof. intros Hc Hk. by apply (runs_bind _ _ _ _ (fun _ => shape me H)). Qed.
Lemma runs_skip {A B} me H (c : K A) (k : A -> K B) Q :
  steady me H c -> (forall a, runs (shape me H) (k a) Q) -> runs (shape me H) (bind c k) Q.
Proof. apply runs_bind. Qed.
Lemma steady_getp me H i : (i < NPROC)%nat -> steady me H (getp i).
Proof.
  intros Hi s Hs. destruct (lookup_lt_is_Some_2 (procs s) i) as [p Hp]; [by destruct Hs as [-> _]|].
  exists p, s. by rewrite (getp_Done i p).
Qed.
Lemma steady_modp me H i f : steady me H (modp i f).
Proof. intros s (Hl & Hh & Hc). eexists tt, _. split; [reflexivity|]. split; [cbn; by rewrite length_alter|done]. Qed.
Lemma steady_svc {A} me H (f : E -> result E A) : returns f -> steady me H (svc f).
Proof. intros Hf s Hs. destruct (Hf (env s)) as (a & e & He). exists a, (set_env e s). unfold svc. by rewrite He. Qed.
Lemma steady_gets {A} me H (f : kernel E -> A) : steady me H (gets f).
Proof. intros s Hs. by exists (f s), s. Qed.
Lemma steady_modify me H (f : kernel E -> kernel E) :
  (forall s, procs (f s) = procs s /\ held (f s) = held s /\ curproc (f s) = curproc s) -> steady me H (modify f).
Proof.
  intros Hf s (Hl & Hh & Hc). destruct (Hf s) as (H1 & H2 & H3). exists tt, (f s). split; [done|].
  unfold shape. by rewrite H1, H2, H3.
Qed.
Lemma steady_for_each {A} me H (f : A -> K unit) l : (forall a, a ∈ l -> steady me H (f a)) -> steady me H (for_each f l).
Proof.
  induction l as [|a l IH]; intros Hf; [by apply steady_ret|]. cbn. apply steady_bind; [apply Hf, list_elem_of_here|].
  intros _. apply IH. intros b Hb. by apply Hf, list_elem_of_further.
Qed.
Lemma steady_when me H b (c : K unit) : steady me H c -> steady me H (when b c).
Proof. destruct b; [done|]. intros _. apply steady_ret. Qed.

Lemma runs_acquire me H l : (l ∉ H) -> runs (shape me H) (acquire l) (fun _ => shape me (l :: H)).
Proof. intros Hl s (Hn & Hh & Hc). eexists tt, _. rewrite acquire_Done by (by rewrite Hh). split; [done|]. by rewrite Hh. Qed.
Lemma runs_release me H l : (l ∉ H) -> runs (shape me (l :: H)) (release l) (fun _ => shape me H).
Proof. intros Hl s (Hn & Hh & Hc). eexists tt, _. by rewrite (release_head _ H). Qed.

Definition no_proc_lock H : Prop := forall i, LProc i ∉ H.
Lemma shape_free me H s : no_proc_lock H -> shape me H s -> table_free s.
Proof. intros Hn (Hl & Hh & _). split; [done|]. intros i. rewrite Hh. apply Hn. Qed.

Lemma steady_wakeup me H c : no_proc_lock H -> steady me H (wakeup c).
Proof.
  intros Hn s Hs. eexists tt, _. rewrite (wakeup_Done c s) by (by apply (shape_free me H)).
  split; [done|]. destruct Hs as (Hl & Hh & Hc). split; [cbn; by rewrite length_imap|done].
Qed.
Lemma steady_is_killed me H i : (i < NPROC)%nat -> (LProc i ∉ H) -> steady me H (is_killed i).
Proof.
  intros Hi Hn. unfold is_killed. next (fun _ : unit => shape me (LProc i :: H)); [by apply runs_acquire|].
  next (fun _ : proc => shape me (LProc i :: H)); [by apply steady_getp|].
  next (fun _ : unit => shape me H); [by apply runs_release|]. apply steady_ret.
Qed.

Create HintDb steady discriminated.
#[local] Hint Resolve steady_ret steady_getp steady_modp steady_svc steady_gets steady_wakeup steady_is_killed : steady.
#[local] Hint Resolve total_kfree total_make total_free total_copy total_copy_out total_dup total_close total_idup total_iput : steady.

(** [steady_tac]: a computation all of whose pieces keep the shape. *)
Ltac steady_tac :=
  repeat match goal with
  | |- steady _ _ (bind _ _) => apply steady_bind; [|intros ?]
  | |- steady _ _ (for_each _ _) => apply steady_for_each; intros ? ?
  | |- steady _ _ (when _ _) => apply steady_when
  | |- steady _ _ (modify _) => apply steady_modify; intros ?; by repeat split
  | |- steady _ _ (match ?x with _ => _ end) => destruct x
  | |- _ => solve [auto with steady]
  end.

(** [walk]: past the computations that keep the shape. *)
Ltac walk := repeat (apply runs_skip; [solve [steady_tac]|intros ?]).

Lemma all_procs_lt i : i ∈ all_procs -> (i < NPROC)%nat.
Proof. unfold all_procs. rewrite elem_of_seq. lia. Qed.

(** ** Allocation *)

Lemma steady_freeproc me H i : (i < NPROC)%nat -> steady me H (freeproc i).
Proof. intros Hi. unfold freeproc. steady_tac. Qed.
#[local] Hint Resolve steady_freeproc : steady.

Lemma steady_drop {A} me H i (v : A) : (i < NPROC)%nat -> (LProc i ∉ H) ->
  runs (shape me (LProc i :: H)) (freeproc i ;; release (LProc i) ;; ret v) (fun r s => r = v /\ shape me H s).
Proof.
  intros Hi Hn. next (fun _ : unit => shape me (LProc i :: H)); [by apply steady_freeproc|].
  next (fun _ : unit => shape me H); [by apply runs_release|]. by apply runs_ret.
Qed.

Definition allocated me H (r : option nat) s : Prop :=
  match r with None => shape me H s | Some n => shape me (LProc n :: H) s /\ (n < NPROC)%nat end.

Lemma runs_alloc_search me H : no_proc_lock H ->
  runs (shape me H) (for_until (fun i =>
    bind (acquire (LProc i)) (fun _ => bind (getp i) (fun p =>
      if decide (state p = UNUSED) then ret (Some i)
      else bind (release (LProc i)) (fun _ => ret None)))) all_procs) (allocated me H).
Proof.
  intros Hn s Hs. pose proof (alloc_search s (shape_free me H s Hn Hs)) as Ha.
  destruct Hs as (Hl & Hh & Hc).
  destruct (list_find _ (procs s)) as [[i p]|] eqn:Hf; eexists _, _; (split; [exact Ha|]); [|by repeat split].
  apply list_find_Some in Hf as (Hp & _). apply lookup_lt_Some in Hp. rewrite Hh. cbn. unfold shape. cbn. rewrite <- Hl. auto.
Qed.

Lemma steady_allocpid me H : (LPid ∉ H) -> steady me H allocpid.
Proof.
  intros Hn s (Hl & Hh & Hc). eexists _, _. rewrite allocpid_Done by (by rewrite Hh). by repeat split.
Qed.

Lemma steady_kalloc me H : steady me H (svc (fun e => let '(pa, e') := kalloc_page e in Done pa e')).
Proof. apply steady_svc. intros e. destruct (kalloc_page e) as [pa e']. eauto. Qed.
#[local] Hint Resolve steady_allocpid steady_kalloc : steady.

Lemma runs_allocproc me H : no_proc_lock H -> (LPid ∉ H) -> runs (shape me H) allocproc (allocated me H).
Proof.
  intros Hn Hp. unfold allocproc. next (allocated me H); [by apply runs_alloc_search|].
  destruct a as [i|]; [|by apply runs_ret]. apply runs_pure. intros Hi.
  assert (Hd : runs (shape me (LProc i :: H)) (freeproc i ;; release (LProc i) ;; ret None) (allocated me H)).
  { eapply runs_post; [by apply steady_drop|]. by intros r s [-> Hs]. }
  assert (Hpid : LPid ∉ LProc i :: H) by (rewrite not_elem_of_cons; auto).
  walk. destruct (_ =? 0); [done|]. walk. destruct (_ =? 0); [done|]. walk. apply runs_ret. by split.
Qed.

(** ** Fork *)

Lemma steady_fork_files me H n p : steady me H (fork_files n p).
Proof. unfold fork_files. steady_tac. Qed.
#[local] Hint Resolve steady_fork_files : steady.

Lemma runs_acquire_then {A} me H l (k : unit -> K A) Q :
  (l ∉ H) -> runs (shape me (l :: H)) (k tt) Q -> runs (shape me H) (bind (acquire l) k) Q.
Proof. intros Hl Hk. next (fun _ : unit => shape me (l :: H)); [by apply runs_acquire|by destruct a]. Qed.
Lemma runs_release_then {A} me H l (k : unit -> K A) Q :
  (l ∉ H) -> runs (shape me H) (k tt) Q -> runs (shape me (l :: H)) (bind (release l) k) Q.
Proof. intros Hl Hk. next (fun _ : unit => shape me H); [by apply runs_release|by destruct a]. Qed.

Lemma runs_fork i : (i < NPROC)%nat -> runs (shape (Some i) []) fork (fun _ => shape (Some i) []).
Proof.
  intros Hi. unfold fork. next (fun x s => shape (Some i) [] s /\ x = i).
  { intros s Hs. exists i, s. unfold cur. destruct Hs as (Hl & Hh & Hc). by rewrite Hc. }
  apply runs_pure. intros ->. next (allocated (Some i) []).
  { apply runs_allocproc; [intros ?|]; apply not_elem_of_nil. }
  destruct a as [n|]; [|by apply runs_ret]. apply runs_pure. intros Hn. walk.
  destruct (_ <? 0).
  { eapply runs_post; [apply steady_drop; [done|apply not_elem_of_nil]|]. by intros r s [_ Hs]. }
  walk. apply runs_release_then; [apply not_elem_of_nil|]. apply runs_acquire_then; [apply not_elem_of_nil|]. walk.
  apply runs_release_then; [apply not_elem_of_nil|]. apply runs_acquire_then; [apply not_elem_of_nil|]. walk.
  apply runs_release_then; [apply not_elem_of_nil|]. by apply runs_ret.
Qed.

(** ** Exit *)

Lemma sched_Done i p s :
  curproc s = Some i -> procs s !! i = Some p -> held s = [LProc i] -> state p <> RUNNING -> sched s = Done tt s.
Proof.
  intros Hc Hp Hh Hs. unfold sched. rewrite Hc, Hp, Hh. rewrite decide_False by (intros Hn; apply Hn; set_solver).
  rewrite decide_False by (intros Hx; by apply Hx). by rewrite decide_False.
Qed.

Lemma steady_exit_files me H i : (i < NPROC)%nat -> no_proc_lock H -> steady me H (exit_files i).
Proof. intros Hi Hn. unfold exit_files, wakeups. steady_tac. Qed.
Lemma steady_exit_metrics me H i : (i < NPROC)%nat -> steady me H (exit_metrics i).
Proof. intros Hi. unfold exit_metrics, printf. steady_tac. Qed.
Lemma steady_reparent me H i : no_proc_lock H -> steady me H (Proc.reparent i).
Proof.
  intros Hn. unfold Proc.reparent. apply steady_for_each. intros j Hj%all_procs_lt. steady_tac.
Qed.
#[local] Hint Resolve steady_exit_files steady_exit_metrics steady_reparent : steady.

Lemma runs_cur {A} i H (k : nat -> K A) Q :
  runs (shape (Some i) H) (k i) Q -> runs (shape (Some i) H) (bind cur k) Q.
Proof. intros Hk s Hs. destruct (Hk s Hs) as (a & t & Ha & Ht). exists a, t. split; [|done]. unfold bind, cur. by destruct Hs as (_ & _ & ->). Qed.

(** [exit] of any process but init reaches the scheduler. *)
Lemma runs_exit i status : (i < NPROC)%nat ->
  runs (fun s => shape (Some i) [] s /\ initproc s <> Some i) (exit status) (fun _ => shape (Some i) [LProc i]).
Proof.
  intros Hi s [Hs Hini]. unfold exit.
  assert (Hnil : no_proc_lock []) by (intros ?; apply not_elem_of_nil).
  assert (HW : no_proc_lock [LWait]) by (intros ?; set_solver).
  pose proof Hs as (_ & _ & Hc). unfold cur, gets, bind at 1 2. rewrite Hc, decide_False by congruence. clear Hini Hc.
  revert s Hs. match goal with |- forall s, _ -> exists a t, ?c s = _ /\ _ => change (runs (shape (Some i) []) c (fun _ => shape (Some i) [LProc i])) end.
  walk. next (fun _ : unit => shape (Some i) []); [apply steady_for_each; by auto with steady|].
  walk. apply runs_acquire_then; [apply not_elem_of_nil|]. walk. apply runs_acquire_then; [apply HW|].
  intros s (Hl & Hh & Hc). unfold modp, modify. unfold bind at 1 2.
  rewrite (bind_Done _ _ _ tt (set_held [LProc i] (set_procs (alter (set_state ZOMBIE) i (alter (set_xstate status) i (procs s))) s))).
  2: { rewrite release_Done by (cbn; rewrite Hh; set_solver). f_equal. kernel_eq. by rewrite Hh. }
  destruct (lookup_lt_is_Some_2 (procs s) i) as [p Hp]; [by rewrite Hl|].
  eexists tt, _. split; [apply (sched_Done i (set_state ZOMBIE (set_xstate status p))); kproj; try done|].
  - by rewrite !list_lookup_alter_eq, Hp.
  - split; [kproj; by rewrite !length_alter|done].
Qed.

(** ** Sleep, yield, wait *)

Lemma runs_sleep_enter i c lk : (i < NPROC)%nat -> (lk <> LProc i) ->
  runs (shape (Some i) [lk]) (sleep_enter c lk) (fun _ => shape (Some i) [LProc i]).
Proof.
  intros Hi Hlk. unfold sleep_enter. apply runs_cur. apply runs_acquire_then; [set_solver|].
  intros s (Hl & Hh & Hc).
  rewrite (bind_Done _ _ _ tt (set_held [LProc i] s)).
  2: { rewrite release_Done by (rewrite Hh; set_solver). f_equal. kernel_eq. rewrite Hh.
       rewrite filter_cons_True by congruence. by rewrite filter_head by apply not_elem_of_nil. }
  destruct (lookup_lt_is_Some_2 (procs s) i) as [p Hp]; [by rewrite Hl|]. unfold modp, modify, bind.
  eexists tt, _. split; [apply (sched_Done i (set_state SLEEPING (set_chan c p))); kproj; try done|].
  - by rewrite !list_lookup_alter_eq, Hp.
  - split; [kproj; by rewrite !length_alter|done].
Qed.

Lemma runs_sleep_return i lk : (lk <> LProc i) ->
  runs (shape (Some i) [LProc i]) (sleep_return lk) (fun _ => shape (Some i) [lk]).
Proof.
  intros Hlk. unfold sleep_return. apply runs_cur. walk. apply runs_release_then; [apply not_elem_of_nil|].
  apply runs_acquire, not_elem_of_nil.
Qed.

Lemma runs_yield_return i : runs (shape (Some i) [LProc i]) yield_return (fun _ => shape (Some i) []).
Proof. unfold yield_return. apply runs_cur, runs_release, not_elem_of_nil. Qed.

Lemma runs_wait_scan i addr l : (i < NPROC)%nat -> (forall j, j ∈ l -> (j < NPROC)%nat) -> forall hk,
  runs (shape (Some i) [LWait]) (wait_scan addr i l hk)
    (fun r : Z + bool => match r with inl _ => shape (Some i) [] | inr _ => shape (Some i) [LWait] end).
Proof.
  intros Hi. induction l as [|j l IH]; intros Hl hk; cbn [wait_scan]; [by apply runs_ret|].
  assert (Hj : (j < NPROC)%nat) by (apply Hl, list_elem_of_here).
  assert (Hl' : forall k, k ∈ l -> (k < NPROC)%nat) by (intros k Hk; by apply Hl, list_elem_of_further).
  assert (HW : LProc j ∉ [LWait]) by set_solver.
  walk. case_decide; [|by apply IH]. apply runs_acquire_then; [done|].
  case_decide; [|apply runs_release_then; [done|by apply IH]].
  walk. destruct (_ <? 0); walk; (apply runs_release_then; [done|]); (apply runs_release_then; [apply not_elem_of_nil|]); by apply runs_ret.
Qed.

Definition switched i (r : option Z) : kernel E -> Prop := shape (Some i) (match r with Some _ => [] | None => [LProc i] end).

Lemma runs_wait_round i addr : (i < NPROC)%nat -> runs (shape (Some i) [LWait]) (wait_round addr) (switched i).
Proof.
  intros Hi. unfold wait_round. apply runs_cur.
  next (fun r : Z + bool => match r with inl _ => shape (Some i) [] | inr _ => shape (Some i) [LWait] end).
  { apply runs_wait_scan; [done|]. by apply all_procs_lt. }
  destruct a as [v|hk]; [by apply runs_ret|]. assert (LProc i ∉ [LWait]) by set_solver.
  apply runs_skip; [steady_tac|]. intros stop. destruct stop.
  - apply runs_release_then; [apply not_elem_of_nil|]. by apply runs_ret.
  - next (fun _ : unit => shape (Some i) [LProc i]); [by apply runs_sleep_enter|]. by apply runs_ret.
Qed.

Lemma runs_wait i addr : (i < NPROC)%nat -> runs (shape (Some i) []) (wait addr) (switched i).
Proof. intros Hi. apply runs_acquire_then; [apply not_elem_of_nil|]. by apply runs_wait_round. Qed.
Lemma runs_wait_resume i addr : (i < NPROC)%nat -> runs (shape (Some i) [LProc i]) (wait_resume addr) (switched i).
Proof. intros Hi. next (fun _ : unit => shape (Some i) [LWait]); [by apply runs_sleep_return|]. by apply runs_wait_round. Qed.

Lemma runs_scheduler_return i : runs (shape (Some i) [LProc i]) (scheduler_return i) (fun _ => shape None []).
Proof. apply runs_release_then; [apply not_elem_of_nil|]. intros s (Hl & Hh & _). by eexists tt, _. Qed.
End Runs.
