(* ===== verification/Sysutil.v ===== *)
(** * Clock, random numbers and counters: [kernel/sysutil.c]

    [convert_unix_time_to_rtcdate] is translated with its two search loops,
    [sys_sysrand] with its 32-bit seed.  Theorems: the conversion terminates and
    yields a valid calendar date whose distance from 1 January 1970 is the
    argument (so it inverts the calendar), and the random generator has the full
    period [2^32] from every seed. *)

From S2P Require Import Prelude.

(** ** Calendar *)

(** [struct rtcdate] *)
Record rtcdate := mkdate {
  rtc_year : Z; rtc_month : Z; rtc_day : Z; rtc_hour : Z; rtc_minute : Z; rtc_second : Z
}.

(** [year % 4 == 0 && (year % 100 != 0 || year % 400 == 0)], with C's [%]. *)
Definition leap (year : Z) : bool :=
  (Z.rem year 4 =? 0) && (negb (Z.rem year 100 =? 0) || (Z.rem year 400 =? 0)).

Definition days_in_year (year : Z) : Z := if leap year then 366 else 365.

Definition days_in_month (year : Z) : list Z :=
  [31; if leap year then 29 else 28; 31; 30; 31; 30; 31; 31; 30; 31; 30; 31].

(** The loop over years; [None] when the fuel runs out. *)
Fixpoint year_loop (fuel : nat) (year days : Z) : option (Z * Z) :=
  match fuel with
  | O => None
  | S fuel' =>
      if days >=? days_in_year year
      then year_loop fuel' (s32 (year + 1)) (s32 (days - days_in_year year))
      else Some (year, days)
  end.

(** The loop over months; reading past the array is [None]. *)
Fixpoint month_loop (dim : list Z) (month days : Z) : option (Z * Z) :=
  match dim with
  | [] => None
  | d :: dim' =>
      if days >=? d then month_loop dim' (s32 (month + 1)) (s32 (days - d)) else Some (month, days)
  end.

Definition convert_unix_time_to_rtcdate (fuel : nat) (unix_time : Z) : option rtcdate :=
  let days := s32 (unix_time / 86400) in
  let secs_remaining := s32 (unix_time mod 86400) in
  match year_loop fuel 1970 days with
  | None => None
  | Some (year, days) =>
      match month_loop (days_in_month year) 0 days with
      | None => None
      | Some (month, days) =>
          let day := s32 (days + 1) in
          let hour := Z.quot secs_remaining 3600 in
          let secs_remaining := Z.rem secs_remaining 3600 in
          let minute := Z.quot secs_remaining 60 in
          let second := Z.rem secs_remaining 60 in
          Some (mkdate year (s32 (month + 1)) day hour minute second)
      end
  end.

(** ** The calendar the conversion inverts *)

(** Days in the years [1970 .. 1970 + n - 1]. *)
Fixpoint days_before_year (n : nat) : Z :=
  match n with
  | O => 0
  | S n' => days_before_year n' + days_in_year (1970 + Z.of_nat n')
  end.

Definition sum_Z (l : list Z) : Z := foldr Z.add 0 l.

Definition days_of_date (r : rtcdate) : Z :=
  days_before_year (Z.to_nat (rtc_year r - 1970)) +
  sum_Z (take (Z.to_nat (rtc_month r - 1)) (days_in_month (rtc_year r))) +
  (rtc_day r - 1).

Definition unix_of_date (r : rtcdate) : Z :=
  86400 * days_of_date r + 3600 * rtc_hour r + 60 * rtc_minute r + rtc_second r.

Definition valid_date (r : rtcdate) : Prop :=
  1970 <= rtc_year r /\ 1 <= rtc_month r <= 12 /\
  1 <= rtc_day r <= nth (Z.to_nat (rtc_month r - 1)) (days_in_month (rtc_year r)) 0 /\
  0 <= rtc_hour r < 24 /\ 0 <= rtc_minute r < 60 /\ 0 <= rtc_second r < 60.

Lemma days_in_year_bounds y : 365 <= days_in_year y <= 366.
Proof. unfold days_in_year. destruct (leap y); lia. Qed.

(** The year loop subtracts whole years, and needs at most one iteration per
    day; the year stays far below [2^31]. *)
Lemma year_loop_spec fuel n days :
  0 <= days < Z.of_nat fuel -> 1970 + Z.of_nat n + days < 2 ^ 31 ->
  exists m d, year_loop fuel (1970 + Z.of_nat n) days = Some (1970 + Z.of_nat m, d) /\
    0 <= d < days_in_year (1970 + Z.of_nat m) /\
    days_before_year m + d = days_before_year n + days.
Proof.
  revert n days. induction fuel as [|fuel IH]; intros n days Hd Hy; [lia|].
  cbn [year_loop]. pose proof (days_in_year_bounds (1970 + Z.of_nat n)).
  rewrite Z.geb_leb. destruct (Z.leb_spec (days_in_year (1970 + Z.of_nat n)) days).
  - rewrite !s32_small by lia.
    replace (1970 + Z.of_nat n + 1) with (1970 + Z.of_nat (S n)) by lia.
    destruct (IH (S n) (days - days_in_year (1970 + Z.of_nat n))) as (m & d & -> & ? & ?);
      [lia|lia|]. exists m, d. split; [done|]. split; [done|]. cbn [days_before_year] in *. lia.
  - exists n, days. split; [done|]. lia.
Qed.

Lemma sum_Z_nonneg l : Forall (fun d => 0 < d) l -> 0 <= sum_Z l.
Proof. unfold sum_Z. induction 1; cbn; lia. Qed.

Lemma month_loop_spec dim m days :
  0 <= days < sum_Z dim -> sum_Z dim < 2 ^ 31 -> Forall (fun d => 0 < d) dim ->
  0 <= m -> m + Z.of_nat (length dim) < 2 ^ 31 ->
  exists k d, month_loop dim m days = Some (m + Z.of_nat k, d) /\ (k < length dim)%nat /\
    0 <= d < nth k dim 0 /\ sum_Z (take k dim) + d = days.
Proof.
  revert m days. induction dim as [|x dim IH]; intros m days Hd Hs Hf Hm Hl; [cbn in Hd; lia|].
  inversion Hf as [|? ? Hx Hf']; subst. cbn [month_loop]. rewrite Z.geb_leb.
  pose proof (sum_Z_nonneg _ Hf').
  change (sum_Z (x :: dim)) with (x + sum_Z dim) in *. cbn in Hl.
  destruct (Z.leb_spec x days).
  - rewrite !s32_small by lia.
    destruct (IH (m + 1) (days - x)) as (k & d & -> & ? & ? & ?); [lia|lia|done|lia|lia|].
    exists (S k), d. split; [do 2 f_equal; lia|]. split; [cbn; lia|]. split; [done|].
    cbn [take]. change (sum_Z (x :: take k dim)) with (x + sum_Z (take k dim)). lia.
  - exists 0%nat, days. split; [do 2 f_equal; lia|]. cbn. split; [lia|]. lia.
Qed.

Lemma days_in_month_facts y :
  sum_Z (days_in_month y) = days_in_year y /\ Forall (fun d => 0 < d) (days_in_month y) /\
  length (days_in_month y) = 12%nat.
Proof.
  unfold days_in_month, days_in_year. destruct (leap y); (split; [reflexivity|]);
    (split; [repeat constructor; lia|reflexivity]).
Qed.

(** [convert_unix_time_to_rtcdate] terminates for every time whose day count
    keeps the year below [2^31], without reading past [days_in_month], and
    returns a valid calendar date and time of day that lies exactly [unix_time]
    seconds after 1970-01-01 00:00:00. *)
Theorem rtcdate_roundtrip (t : Z) (fuel : nat) :
  0 <= t -> t / 86400 < 2 ^ 31 - 1970 -> t / 86400 < Z.of_nat fuel ->
  exists r, convert_unix_time_to_rtcdate fuel t = Some r /\ valid_date r /\ unix_of_date r = t.
Proof.
  intros Ht Hd Hf. unfold convert_unix_time_to_rtcdate.
  pose proof (Z.div_pos t 86400). pose proof (Z.mod_pos_bound t 86400).
  pose proof (Z.div_mod t 86400).
  rewrite (s32_small (t / 86400)), (s32_small (t mod 86400)) by lia.
  destruct (year_loop_spec fuel 0 (t / 86400)) as (n & d & Hy & Hdb & Hsum); [lia|cbn; lia|].
  change (1970 + Z.of_nat 0) with 1970 in Hy. rewrite Hy.
  destruct (days_in_month_facts (1970 + Z.of_nat n)) as (Hs & Hp & Hl).
  pose proof (days_in_year_bounds (1970 + Z.of_nat n)).
  destruct (month_loop_spec (days_in_month (1970 + Z.of_nat n)) 0 d) as (k & e & Hm & Hk & He & Hks);
    [lia|lia|done|lia|lia|].
  rewrite Hm. rewrite Hl in Hk.
  assert (He' : e < 366).
  { destruct (days_in_month_facts (1970 + Z.of_nat n)) as (_ & Hpos & _).
    assert (0 <= sum_Z (take k (days_in_month (1970 + Z.of_nat n)))).
    { by apply sum_Z_nonneg, Forall_take. }
    lia. }
  rewrite (s32_small (0 + Z.of_nat k + 1)), (s32_small (e + 1)) by lia.
  rewrite !Z.quot_div_nonneg, !Z.rem_mod_nonneg by (try apply Z.rem_nonneg; lia).
  set (q := t mod 86400) in *.
  assert (0 <= q / 3600 < 24) by (split; [apply Z.div_pos|apply Z.div_lt_upper_bound]; lia).
  pose proof (Z.mod_pos_bound q 3600). pose proof (Z.div_mod q 3600).
  pose proof (Z.mod_pos_bound (q mod 3600) 60). pose proof (Z.div_mod (q mod 3600) 60).
  assert (0 <= q mod 3600 / 60 < 60) by (split; [apply Z.div_pos|apply Z.div_lt_upper_bound]; lia).
  rewrite (Z.rem_mod_nonneg (q mod 3600) 60) by lia.
  eexists. split; [reflexivity|].
  assert (Hk' : Z.to_nat (0 + Z.of_nat k + 1 - 1) = k) by lia.
  assert (Hn' : Z.to_nat (1970 + Z.of_nat n - 1970) = n) by lia.
  unfold valid_date, unix_of_date, days_of_date.
  cbn [rtc_second rtc_minute rtc_hour rtc_day rtc_month rtc_year].
  rewrite Hk', Hn'. split; [split_and!; lia|]. cbn [days_before_year] in Hsum. lia.
Qed.

(** 2024-02-29 12:34:56. *)
Lemma rtcdate_roundtrip_witness :
  exists r, convert_unix_time_to_rtcdate (Z.to_nat 20000) 1709210096 = Some r /\ valid_date r /\
    unix_of_date r = 1709210096.
Proof. apply (rtcdate_roundtrip 1709210096 (Z.to_nat 20000)); vm_compute; done || discriminate. Defined.

(** ** Random numbers *)

(** The step of [sys_sysrand] on the 32-bit [seed]. *)
Definition sys_sysrand (seed : Z) : Z * Z :=
  let seed := u32 (seed * 1664525 + 1013904223) in (seed, seed).

Definition next_seed (seed : Z) : Z := snd (sys_sysrand seed).

(** [iter_rand n x]: the seed after [n] calls. *)
Definition iter_rand (n : nat) (seed : Z) : Z := Nat.iter n next_seed seed.

(** [geom n = 1 + a + ... + a^(n-1)] for the multiplier [a]. *)
Definition lcg_a : Z := 1664525.
Definition lcg_c : Z := 1013904223.

Definition geom (n : nat) : Z := Nat.iter n (fun x => lcg_a * x + 1) 0.

Lemma geom_closed n : (lcg_a - 1) * geom n = lcg_a ^ Z.of_nat n - 1.
Proof.
  induction n as [|n IH]; [done|].
  change (geom (S n)) with (lcg_a * geom n + 1).
  rewrite Nat2Z.inj_succ, Z.pow_succ_r by lia.
  rewrite Z.mul_add_distr_l, (Z.mul_comm lcg_a (geom n)), Z.mul_assoc, IH. ring.
Qed.

(** The state after [n] steps differs from [x] by [geom n * ((a - 1) * x + c)]. *)
Lemma iter_rand_closed n x : 0 <= x < 2 ^ 32 ->
  iter_rand n x = u32 (x + geom n * ((lcg_a - 1) * x + lcg_c)).
Proof.
  intros Hx. induction n as [|n IH]; [by cbn; rewrite Z.add_0_r, u32_small|].
  change (iter_rand (S n) x) with (next_seed (iter_rand n x)). rewrite IH. unfold next_seed, sys_sysrand, snd, u32.
  change (geom (S n)) with (lcg_a * geom n + 1). fold lcg_a lcg_c.
  rewrite Z.add_mod, Z.mul_mod_idemp_l, <- Z.add_mod by lia. f_equal. ring.
Qed.

Lemma geom_odd_succ n : Z.odd (geom (S (2 * n))) = true.
Proof.
  change (geom (S (2 * n))) with (lcg_a * geom (2 * n) + 1).
  assert (H : forall m, Z.odd (geom m) = Nat.odd m).
  { induction m as [|m IH]; [done|]. change (geom (S m)) with (lcg_a * geom m + 1).
    rewrite Z.odd_add, Z.odd_mul, IH, Nat.odd_succ, <- Nat.negb_odd. by destruct (Nat.odd m). }
  rewrite Z.odd_add, Z.odd_mul, H, Nat.odd_mul. done.
Qed.

(** [1 + a^n] is twice an odd number, since [a] is 1 modulo 4. *)
Lemma pow_a_mod4 n : exists k, lcg_a ^ Z.of_nat n = 4 * k + 1.
Proof.
  induction n as [|n [k IH]]; [by exists 0|].
  rewrite Nat2Z.inj_succ, Z.pow_succ_r, IH by lia. exists (lcg_a * k + 416131).
  unfold lcg_a. ring.
Qed.

Lemma geom_double n : exists k, geom (2 * n) = geom n * (2 * (2 * k + 1)).
Proof.
  destruct (pow_a_mod4 n) as [k Hk]. exists k.
  apply (Z.mul_reg_l _ _ (lcg_a - 1)); [unfold lcg_a; lia|].
  rewrite Z.mul_assoc, !geom_closed. replace (Z.of_nat (2 * n)) with (Z.of_nat n + Z.of_nat n) by lia.
  rewrite Z.pow_add_r, Hk by lia. ring.
Qed.

(** Odd factors do not change divisibility by powers of two. *)
Lemma pow2_divide_odd k x j :
  (2 ^ Z.of_nat k | x * (2 * j + 1)) <-> (2 ^ Z.of_nat k | x).
Proof.
  split; [|by apply Z.divide_mul_l]. revert x.
  induction k as [|k IH]; intros x H; [apply Z.divide_1_l|].
  rewrite Nat2Z.inj_succ, Z.pow_succ_r in * by lia.
  destruct (Z.Even_or_Odd x) as [[y ->]|[y ->]].
  - apply Z.mul_divide_mono_l. apply IH. rewrite <- Z.mul_assoc in H.
    by apply Z.mul_divide_cancel_l in H.
  - exfalso. destruct H as [q Hq]. lia.
Qed.

(** [geom n] and [n] have the same power of two. *)
Lemma geom_pow2 k n : (2 ^ Z.of_nat k | geom n) <-> (2 ^ Z.of_nat k | Z.of_nat n).
Proof.
  revert n. induction k as [|k IH]; intros n; [split; intros; apply Z.divide_1_l|].
  rewrite Nat2Z.inj_succ, Z.pow_succ_r by lia.
  destruct (Nat.Even_or_Odd n) as [[m ->]|[m ->]].
  - destruct (geom_double m) as [j ->].
    replace (Z.of_nat (2 * m)) with (2 * Z.of_nat m) by lia.
    replace (geom m * (2 * (2 * j + 1))) with (2 * (geom m * (2 * j + 1))) by ring.
    rewrite !Z.mul_divide_cancel_l by lia. by rewrite pow2_divide_odd.
  - assert (Hodd : forall z, Z.odd z = true -> ~ (2 * 2 ^ Z.of_nat k | z)).
    { intros z Hz [q ->]. rewrite Z.mul_comm, <- Z.mul_assoc, Z.odd_mul in Hz. done. }
    rewrite Nat.add_1_r. split; intros H; exfalso.
    + by apply (Hodd _ (geom_odd_succ m)).
    + apply (Hodd (Z.of_nat (S (2 * m)))); [|done].
      rewrite Nat2Z.inj_succ, Z.odd_succ, Nat2Z.inj_mul, Z.even_mul. done.
Qed.

(** [sysrand] has the full period: from any 32-bit seed the generator returns
    to that seed after [n] calls exactly when [n] is a multiple of [2^32], so all
    [2^32] values occur before any repeats. *)
Theorem sysrand_full_period (x : Z) (n : nat) :
  0 <= x < 2 ^ 32 -> (iter_rand n x = x <-> (2 ^ 32 | Z.of_nat n)).
Proof.
  intros Hx. rewrite iter_rand_closed by done.
  change (2 ^ 32) with (2 ^ Z.of_nat 32). rewrite <- geom_pow2.
  replace ((lcg_a - 1) * x + lcg_c) with (2 * (832262 * x + 506952111) + 1)
    by (unfold lcg_a, lcg_c; ring).
  rewrite <- (pow2_divide_odd _ (geom n) (832262 * x + 506952111)).
  set (d := geom n * _). change (2 ^ Z.of_nat 32) with (2 ^ 32). unfold u32. split.
  - intros H. exists ((x + d) / 2 ^ 32). pose proof (Z.div_mod (x + d) (2 ^ 32)). lia.
  - intros [q ->]. rewrite Z.add_comm, Z.add_comm, Z.mod_add by lia. by apply Z.mod_small.
Qed.

Lemma sysrand_full_period_witness : iter_rand 3 1 <> 1.
Proof.
  intros H. apply (sysrand_full_period 1 3) in H; [|lia]. destruct H as [q H]. lia.
Defined.

(** ** Counters and the date system call *)

(** [sys_kbdint] and [sys_countsyscall] return the [int] counters sign-extended
    to 64 bits. *)
Definition sys_kbdint (kbd_intr_count : Z) : Z := u64 kbd_intr_count.
Definition sys_countsyscall (syscall_counter : Z) : Z := u64 syscall_counter.

Definition MTIME_FREQ : Z := 10100000.
Definition TIMEZONE_OFFSET : Z := 3 * 3600.

Definition rtcdate_bytes (r : rtcdate) : list Z :=
  le_bytes 4 (rtc_year r) ++ le_bytes 4 (rtc_month r) ++ le_bytes 4 (rtc_day r) ++
  le_bytes 4 (rtc_hour r) ++ le_bytes 4 (rtc_minute r) ++ le_bytes 4 (rtc_second r).

Section Datetime.
(** [BOOT_EPOCH] is fixed when the kernel is built; [copyout] is the call into
    [kernel/vm.c], over a memory state [E]. *)
Context {E : Type} (BOOT_EPOCH : Z) (copyout : Z -> list Z -> E -> Z * E).

Definition sys_datetime (fuel : nat) (user_dst mtime : Z) (e : E) : option (Z * E) :=
  let seconds := mtime / MTIME_FREQ in
  let now := u64 (BOOT_EPOCH + seconds + TIMEZONE_OFFSET) in
  match convert_unix_time_to_rtcdate fuel now with
  | None => None
  | Some r =>
      if (user_dst <? USERBASE) || (user_dst >=? USERTOP) then Some (u64 (-1), e)
      else
        let '(c, e') := copyout user_dst (rtcdate_bytes r) e in
        Some (if c <? 0 then u64 (-1) else 0, e')
  end.
End Datetime.
