(* ===== verification/Sysproc.v ===== *)
(** * Process system calls: [kernel/sysproc.c] and the argument fetching of
    [kernel/syscall.c]

    Handlers run in the monad of [Proc.v].  A handler that can give up the CPU
    answers [Switched]; its continuation is the corresponding [_resume]
    definition, which starts when the scheduler has dispatched the process. *)

From S2P Require Import Prelude ProcDef Proc ProcFacts ProcLife ProcInv.

(** What a handler did: return a [uint64], or switch to the scheduler. *)
Inductive outcome := Returns (v : Z) | Switched.

Section Sysproc.
Context {E : Type} `{!Services E}.
Abbreviation K := (M (kernel E)).
Implicit Types (s : kernel E) (p q : proc).

(** ** Arguments *)

(** [argraw]: registers [a0]..[a5] of the saved trapframe. *)
Definition argraw (n : nat) : K Z :=
  let! i := cur in
  let! p := getp i in
  if (n <? 6)%nat then ret (default 0 (tf p !! (TF_a0 + n)%nat))
  else panic "argraw".

(** The conversions of [argint] ([uint64] to [int]) and [argaddr]. *)
Definition argint (n : nat) : K Z := let! v := argraw n in ret (s32 v).
Definition argaddr (n : nat) : K Z := argraw n.

(** ** Handlers *)

Definition sys_exit : K outcome :=
  let! n := argint 0 in exit n ;; ret Switched.

Definition sys_getpid : K outcome :=
  let! i := cur in let! p := getp i in ret (Returns (u64 (pid p))).

(** [myproc()->parent->pid]: a null parent faults. *)
Definition sys_getppid : K outcome :=
  let! i := cur in
  let! p := getp i in
  match parent p with
  | None => panic "kerneltrap"
  | Some j => let! q := getp j in ret (Returns (u64 (pid q)))
  end.

Definition sys_fork : K outcome := let! v := fork in ret (Returns (u64 v)).

Definition of_wait (r : option Z) : outcome :=
  match r with Some v => Returns (u64 v) | None => Switched end.
Definition sys_wait : K outcome :=
  let! a := argaddr 0 in let! r := wait a in ret (of_wait r).
Definition sys_wait_resume (a : Z) : K outcome := let! r := wait_resume a in ret (of_wait r).

Definition sys_sbrk : K outcome :=
  let! n := argint 0 in
  let! i := cur in
  let! p := getp i in
  let addr := sz p in
  let! r := growproc n in
  ret (Returns (if r <? 0 then u64 (-1) else addr)).

(** One test of the loop of [sys_sleep], with [tickslock] held. *)
Definition sleep_round (n ticks0 : Z) : K outcome :=
  let! t := gets ticks in
  if u32 (t - ticks0) <? n then
    let! i := cur in
    let! k := is_killed i in
    if negb (k =? 0) then release LTicks ;; ret (Returns (u64 (-1)))
    else sleep_enter TicksChan LTicks ;; ret Switched
  else release LTicks ;; ret (Returns 0).
Definition sys_sleep : K outcome :=
  let! n := argint 0 in
  let n := if n <? 0 then 0 else n in
  acquire LTicks ;;
  let! ticks0 := gets ticks in
  sleep_round n ticks0.
Definition sys_sleep_resume (n ticks0 : Z) : K outcome :=
  sleep_return LTicks ;; sleep_round n ticks0.

Definition sys_kill : K outcome :=
  let! k := argint 0 in let! r := kill k in ret (Returns (u64 r)).

Definition sys_uptime : K outcome :=
  acquire LTicks ;;
  let! t := gets ticks in
  release LTicks ;;
  ret (Returns t).

Definition sys_schedstats : K outcome :=
  let! mode := argint 0 in
  if (mode <? 0) || (mode >? 2) then ret (Returns (u64 (-1)))
  else
    modify (set_sched_mode mode) ;;
    modify (set_global_turnaround_time 0) ;;
    modify (set_global_waiting_time 0) ;;
    modify (set_total_benchmark_processes 0) ;;
    modify (set_completed_benchmark_processes 0) ;;
    (if mode =? SCHED_ROUND_ROBIN then printf "Scheduler mode set to: Round Robin\n" []
     else if mode =? SCHED_FCFS then printf "Scheduler mode set to: FCFS\n" []
     else if mode =? SCHED_PRIORITY then printf "Scheduler mode set to: Priority\n" []
     else printf "Unknown scheduler mode!\n" []) ;;
    ret (Returns 0).

(** [struct perf] as five 64-bit words. *)
Definition perf_bytes (x : perf) : list Z :=
  le_bytes 8 (perf_ctime x) ++ le_bytes 8 (perf_completetime x) ++ le_bytes 8 (perf_rtime x) ++
  le_bytes 8 (perf_turnaround_time x) ++ le_bytes 8 (perf_waiting_time x).

Definition sys_wait_stat : K outcome :=
  let! status_addr := argaddr 0 in
  let! perf_addr := argaddr 1 in
  let! r := wait_stat_internal in
  match r with
  | None => ret Switched
  | Some None => ret (Returns (u64 (-1)))
  | Some (Some (v, status, x)) =>
      let! i := cur in
      let! p := getp i in
      let! c := svc (copy_out (pagetable p) status_addr (le_bytes 4 status)) in
      if c <? 0 then ret (Returns (u64 (-1)))
      else
        let! c := svc (copy_out (pagetable p) perf_addr (perf_bytes x)) in
        if c <? 0 then ret (Returns (u64 (-1))) else ret (Returns (u64 v))
  end.

Definition sys_getptable : K outcome :=
  let! n := argint 0 in
  let! addr := argaddr 1 in
  let! r := getptable n addr in
  ret (Returns (u64 r)).

Definition sys_setpriority : K outcome :=
  let! spid := argint 0 in
  let! prio := argint 1 in
  let! r := for_until (fun i =>
    acquire (LProc i) ;;
    let! p := getp i in
    if pid p =? spid then
      modp i (set_priority prio) ;; release (LProc i) ;; ret (Some 0)
    else release (LProc i) ;; ret None) all_procs in
  ret (Returns (match r with Some v => v | None => u64 (-1) end)).

(** ** Facts *)

Lemma argint_Done n i p s :
  curproc s = Some i -> procs s !! i = Some p -> (n < 6)%nat ->
  argint n s = Done (s32 (default 0 (tf p !! (TF_a0 + n)%nat))) s.
Proof.
  intros Hc Hp Hn. unfold argint, argraw, cur, bind at 1 2. rewrite Hc.
  unfold bind at 1. rewrite (getp_Done i p s Hp). apply Nat.ltb_lt in Hn. by rewrite Hn.
Qed.

(** [schedstats(mode)] selects one of the three schedulers and clears the
    benchmark statistics when [mode] is 0, 1 or 2; any other argument is refused
    with -1 and changes nothing. *)
Theorem schedstats_validates (i : nat) (p : proc) (s : kernel E) :
  curproc s = Some i -> procs s !! i = Some p ->
  let mode := s32 (default 0 (tf p !! TF_a0)) in
  exists s' v, sys_schedstats s = Done (Returns v) s' /\ procs s' = procs s /\ held s' = held s /\
    (if decide (0 <= mode <= 2)
     then v = 0 /\ sched_mode s' = mode /\ global_turnaround_time s' = 0 /\
       global_waiting_time s' = 0 /\ total_benchmark_processes s' = 0 /\
       completed_benchmark_processes s' = 0
     else v = 2 ^ 64 - 1 /\ s' = s).
Proof.
  intros Hc Hp mode. unfold sys_schedstats.
  rewrite (bind_Done _ _ _ _ _ (argint_Done 0 i p s Hc Hp ltac:(lia))).
  change (TF_a0 + 0)%nat with TF_a0. fold mode.
  rewrite Z.gtb_ltb.
  destruct (Z.ltb_spec mode 0), (Z.ltb_spec 2 mode); cbn [orb];
    try (eexists _, _; split; [reflexivity|]; rewrite decide_False by lia; done).
  unfold modify, bind.
  destruct (mode =? SCHED_ROUND_ROBIN); [|destruct (mode =? SCHED_FCFS);
    [|destruct (mode =? SCHED_PRIORITY)]];
    (eexists _, _; split; [reflexivity|]; rewrite decide_True by lia; done).
Qed.

(** [sleep(n)] returns 0 only when at least [n] ticks (of the 32-bit tick
    counter) have passed since it started, returns -1 only to a killed process,
    and otherwise is asleep on [ticks] again; no lock is left held in any case
    but the sleeper's own. *)
Theorem sleep_waits_n_ticks (n ticks0 : Z) (i : nat) (p : proc) (s t : kernel E) (r : outcome) :
  curproc s = Some i -> procs s !! i = Some p -> held s = [LTicks] ->
  sleep_round n ticks0 s = Done r t ->
  match r with
  | Returns v =>
      t = set_held [] s /\
      ((v = 0 /\ n <= u32 (ticks s - ticks0)) \/
       (v = 2 ^ 64 - 1 /\ u32 (ticks s - ticks0) < n /\ killed p <> 0))
  | Switched =>
      u32 (ticks s - ticks0) < n /\ killed p = 0 /\
      t = set_held [LProc i] (set_procs
            (alter (fun p => set_state SLEEPING (set_chan TicksChan p)) i (procs s)) s)
  end.
Proof.
  intros Hc Hp Hh H. unfold sleep_round, gets, bind at 1 in H.
  destruct (Z.ltb_spec (u32 (ticks s - ticks0)) n) as [Hlt|Hge].
  - unfold cur, bind at 1 in H. rewrite Hc in H.
    apply bind_Done_inv in H as (k & s1 & H1 & H). pose proof (is_killed_inv _ _ _ _ H1) as ->.
    assert (k = killed p) as ->.
    { unfold is_killed in H1.
      rewrite (bind_Done _ _ _ _ _ (acquire_Done (LProc i) s ltac:(rewrite Hh; set_solver))) in H1.
      unfold bind at 1 in H1. rewrite (getp_Done i p) in H1 by done.
      rewrite (bind_release _ (held s)) in H1 by (done || rewrite Hh; set_solver).
      by injection H1 as <-. }
    destruct (Z.eqb_spec (killed p) 0) as [Hk|Hk]; cbn [negb] in H.
    + apply bind_Done_inv in H as ([] & s2 & H2 & H). injection H as <- <-.
      apply (sleep_enter_inv i) in H2 as ->; done.
    + rewrite (bind_release _ []) in H by (done || set_solver). injection H as <- <-.
      split; [done|]. right. done.
  - rewrite (bind_release _ []) in H by (done || set_solver). injection H as <- <-.
    split; [done|]. left. done.
Qed.

(** [setpriority(pid, prio)] sets the priority of the first slot with that pid
    and returns 0, or returns -1 and changes nothing when there is none. *)
Theorem setpriority_correct (i : nat) (p : proc) (s : kernel E) :
  table_free s -> curproc s = Some i -> procs s !! i = Some p ->
  let spid := s32 (default 0 (tf p !! TF_a0)) in
  let prio := s32 (default 0 (tf p !! TF_a1)) in
  sys_setpriority s =
    match list_find (fun q => pid q = spid) (procs s) with
    | Some (j, q) => Done (Returns 0) (set_procs (<[j := set_priority prio q]> (procs s)) s)
    | None => Done (Returns (2 ^ 64 - 1)) s
    end.
Proof.
  intros [Hlen Hfree] Hc Hp spid prio. unfold sys_setpriority.
  rewrite (bind_Done _ _ _ _ _ (argint_Done 0 i p s Hc Hp ltac:(lia))).
  rewrite (bind_Done _ _ _ _ _ (argint_Done 1 i p s Hc Hp ltac:(lia))).
  change (TF_a0 + 0)%nat with TF_a0. change (TF_a0 + 1)%nat with TF_a1. fold spid prio.
  unfold bind at 1. rewrite (for_until_table (fun q => pid q = spid) _ s (fun _ _ => 0)
    (fun j q => set_procs (<[j := set_priority prio q]> (procs s)) s)); [|done|].
  { by destruct (list_find _ (procs s)) as [[j q]|]. }
  intros j q Hq. rewrite (bind_Done _ _ _ _ _ (acquire_Done _ _ (Hfree j))).
  unfold bind at 1. rewrite (getp_Done j q) by done.
  destruct (Z.eqb_spec (pid q) spid);
    [rewrite decide_True by done|rewrite decide_False by done].
  - unfold modp, modify, bind at 1. rewrite (bind_release _ (held s)) by (done || apply Hfree).
    unfold ret. f_equal. kernel_eq. by apply alter_insert_at.
  - rewrite (bind_release _ (held s)) by (done || apply Hfree). unfold ret. by destruct s.
Qed.

End Sysproc.

(** ** Concrete instances *)

(** A caller in slot 0 with arguments [a0 = 2], [a1 = 9]. *)
Definition demo_caller : proc :=
  set_tf (<[TF_a0 := 2]> (<[TF_a1 := 9]> (replicate 36 0))) (demo_proc RUNNING 1 0 0 None).
Definition demo_call : kernel (list Z) :=
  demo_state (demo_table [demo_caller; demo_proc RUNNABLE 2 5 0 (Some 0%nat)]) (Some 0%nat) 0.

Lemma schedstats_validates_witness :
  exists s' v, sys_schedstats demo_call = Done (Returns v) s' /\ sched_mode s' = 2.
Proof.
  destruct (schedstats_validates 0 demo_caller demo_call eq_refl eq_refl)
    as (s' & v & H1 & _ & _ & H2).
  exists s', v. split; [exact H1|]. rewrite decide_True in H2 by (vm_compute; split; discriminate).
  exact (proj1 (proj2 H2)).
Defined.

Lemma sleep_waits_n_ticks_witness :
  exists t, sleep_round 5 100 (set_held [LTicks] demo_call) = Done Switched t /\
    held t = [LProc 0].
Proof.
  destruct (sleep_round 5 100 (set_held [LTicks] demo_call)) as [r t|m] eqn:H;
    [|vm_compute in H; discriminate].
  assert (r = Switched) as ->.
  { change r with (match @Done (kernel (list Z)) _ r t with Done r _ => r | Panic _ => Switched end).
    rewrite <- H. vm_compute. reflexivity. }
  exists t. split; [reflexivity|].
  destruct (sleep_waits_n_ticks 5 100 0 demo_caller (set_held [LTicks] demo_call) t Switched eq_refl eq_refl eq_refl H)
    as (_ & _ & ->). reflexivity.
Defined.

Lemma setpriority_correct_witness :
  exists s', sys_setpriority demo_call = Done (Returns 0) s' /\
    priority <$> procs s' !! 1%nat = Some 9.
Proof.
  rewrite (setpriority_correct 0 demo_caller demo_call); [|apply demo_free; reflexivity|reflexivity..].
  eexists. split; vm_compute; reflexivity.
Defined.
