(* ===== verification/Trap.v ===== *)
(** * System-call dispatch and traps: [kernel/syscall.c], [kernel/trap.c]

    [sysstate] adds the counters of [syscall.c] and [sysutil.c] to the kernel
    state.  [syscall] looks its number up in the table of [syscall.c] and runs
    the handler; the handlers of [sysproc.c] and [sysutil.c] are the definitions
    of [Sysproc.v] and [Sysutil.v], the file system calls are an argument
    ([file_call]).  [usertrap] and [kerneltrap] follow the source, with the trap
    registers as inputs. *)

From S2P Require Import Prelude ProcDef Proc ProcFacts ProcLife ProcInv Sysproc Sysutil.

Section Trap.
Context {E : Type} `{!Services E}.

Record sysstate := mksys {
  kern : kernel E;
  syscall_counter : Z;       (* int *)
  kbd_intr_count : Z;        (* int *)
  seed : Z                   (* uint *)
}.
Abbreviation Sys := (M sysstate).
Implicit Types (s : sysstate).

Definition lift {A} (c : M (kernel E) A) : Sys A := fun s =>
  match c (kern s) with
  | Done a k => Done a (mksys k (syscall_counter s) (kbd_intr_count s) (seed s))
  | Panic msg => Panic msg
  end.

(** ** The system-call table *)

(** The handlers, in the order of [kernel/syscall.h]. *)
Inductive sysfn :=
| Sys_fork | Sys_exit | Sys_wait | Sys_pipe | Sys_read | Sys_kill | Sys_exec | Sys_fstat
| Sys_chdir | Sys_dup | Sys_getpid | Sys_sbrk | Sys_sleep | Sys_uptime | Sys_open | Sys_write
| Sys_mknod | Sys_unlink | Sys_link | Sys_mkdir | Sys_close | Sys_kbdint | Sys_countsyscall
| Sys_getppid | Sys_datetime | Sys_getptable | Sys_sysrand | Sys_schedstats | Sys_wait_stat
| Sys_setpriority.

(** [syscalls[]]: entry 0 is null. *)
Definition syscalls : list (option sysfn) :=
  [None; Some Sys_fork; Some Sys_exit; Some Sys_wait; Some Sys_pipe; Some Sys_read;
   Some Sys_kill; Some Sys_exec; Some Sys_fstat; Some Sys_chdir; Some Sys_dup; Some Sys_getpid;
   Some Sys_sbrk; Some Sys_sleep; Some Sys_uptime; Some Sys_open; Some Sys_write; Some Sys_mknod;
   Some Sys_unlink; Some Sys_link; Some Sys_mkdir; Some Sys_close; Some Sys_kbdint;
   Some Sys_countsyscall; Some Sys_getppid; Some Sys_datetime; Some Sys_getptable;
   Some Sys_sysrand; Some Sys_schedstats; Some Sys_wait_stat; Some Sys_setpriority].

(** The file system calls and [datetime], which live in other components. *)
Context (file_call : sysfn -> Sys outcome).

Definition handler (f : sysfn) : Sys outcome :=
  match f with
  | Sys_fork => lift sys_fork
  | Sys_exit => lift sys_exit
  | Sys_wait => lift sys_wait
  | Sys_kill => lift sys_kill
  | Sys_getpid => lift sys_getpid
  | Sys_sbrk => lift sys_sbrk
  | Sys_sleep => lift sys_sleep
  | Sys_uptime => lift sys_uptime
  | Sys_kbdint => fun s => Done (Returns (sys_kbdint (kbd_intr_count s))) s
  | Sys_countsyscall => fun s => Done (Returns (sys_countsyscall (syscall_counter s))) s
  | Sys_getppid => lift sys_getppid
  | Sys_getptable => lift sys_getptable
  | Sys_sysrand => fun s =>
      let '(v, sd) := sys_sysrand (seed s) in
      Done (Returns v) (mksys (kern s) (syscall_counter s) (kbd_intr_count s) sd)
  | Sys_schedstats => lift sys_schedstats
  | Sys_wait_stat => lift sys_wait_stat
  | Sys_setpriority => lift sys_setpriority
  | Sys_pipe | Sys_read | Sys_exec | Sys_fstat | Sys_chdir | Sys_dup | Sys_open | Sys_write
  | Sys_mknod | Sys_unlink | Sys_link | Sys_mkdir | Sys_close | Sys_datetime => file_call f
  end.

(** Entry [num] of the table, with the tests of [syscall]. *)
Definition lookup_syscall (num : Z) : option sysfn :=
  if (num >? 0) && (num <? Z.of_nat (length syscalls))
  then match syscalls !! Z.to_nat num with Some r => r | None => None end
  else None.

Definition set_tf_word (i w : nat) (v : Z) : M (kernel E) unit :=
  modp i (fun p => set_tf (<[w := u64 v]> (tf p)) p).

Definition syscall : Sys outcome :=
  modify (fun s => mksys (kern s) (s32 (syscall_counter s + 1)) (kbd_intr_count s) (seed s)) ;;
  let! i := lift cur in
  let! p := lift (getp i) in
  let num := s32 (default 0 (tf p !! TF_a7)) in
  match lookup_syscall num with
  | Some f =>
      let! r := handler f in
      match r with
      | Returns v => lift (set_tf_word i TF_a0 v) ;; ret (Returns v)
      | Switched => ret Switched
      end
  | None =>
      lift (printf "%d %s: unknown sys call %d\n" ([pid p] ++ name p ++ [num])) ;;
      lift (set_tf_word i TF_a0 (-1)) ;;
      ret (Returns (u64 (-1)))
  end.

(** ** Device interrupts *)

(** The drivers' interrupt handlers. *)
Context (uartintr virtio_disk_intr : Sys unit).

(** Inputs of a trap: the supervisor registers, the hart, the interrupt number
    that [plic_claim] would return, and the code addresses in the registers. *)
Record trapregs := mkregs {
  r_sepc : Z; r_scause : Z; r_stval : Z; r_sstatus : Z; r_satp : Z; r_tp : Z; claim : Z
}.

Definition devintr (g : trapregs) : Sys Z :=
  if r_scause g =? 0x8000000000000009 then
    (if claim g =? UART0_IRQ then uartintr
     else if claim g =? VIRTIO0_IRQ then virtio_disk_intr
     else if negb (claim g =? 0) then lift (printf "unexpected interrupt irq=%d\n" [claim g])
     else ret tt) ;;
    ret 1
  else if r_scause g =? 0x8000000000000005 then lift (clockintr (r_tp g)) ;; ret 2
  else ret 0.

(** ** Traps from user space *)

Definition SSTATUS_SPP : Z := Z.shiftl 1 8.
Definition SSTATUS_SPIE : Z := Z.shiftl 1 5.
Definition SATP_SV39 : Z := Z.shiftl 8 60.
Definition MAKE_SATP (pt : Z) : Z := Z.lor SATP_SV39 (Z.shiftr pt 12).

(** Addresses of [usertrap] and, in the trampoline page, [uservec]. *)
Context (usertrap_addr uservec_addr : Z).

(** The registers user mode is entered with. *)
Record userregs := mkuser { u_stvec : Z; u_sstatus : Z; u_sepc : Z; u_satp : Z }.

Definition usertrapret (g : trapregs) : M (kernel E) userregs :=
  let! i := cur in
  let! p := getp i in
  set_tf_word i TF_kernel_satp (r_satp g) ;;
  set_tf_word i TF_kernel_sp (kstack p + PGSIZE) ;;
  set_tf_word i TF_kernel_trap usertrap_addr ;;
  set_tf_word i TF_kernel_hartid (r_tp g) ;;
  let x := Z.lor (Z.ldiff (r_sstatus g) SSTATUS_SPP) SSTATUS_SPIE in
  let! p := getp i in
  ret (mkuser uservec_addr x (default 0 (tf p !! TF_epc)) (MAKE_SATP (pagetable p))).

(** What became of a trap: back to user mode, or away to the scheduler. *)
Inductive trapped := ToUser (u : userregs) | Away.

Definition usertrap (g : trapregs) : Sys trapped :=
  if negb (Z.land (r_sstatus g) SSTATUS_SPP =? 0) then panic "usertrap: not from user mode"
  else
    let! i := lift cur in
    lift (set_tf_word i TF_epc (r_sepc g)) ;;
    let finish (which_dev : Z) : Sys trapped :=
      let! k := lift (is_killed i) in
      if negb (k =? 0) then lift (exit (-1)) ;; ret Away
      else if which_dev =? 2 then lift yield_enter ;; ret Away
      else let! u := lift (usertrapret g) in ret (ToUser u) in
    if r_scause g =? 8 then
      let! k := lift (is_killed i) in
      if negb (k =? 0) then lift (exit (-1)) ;; ret Away
      else
        let! p := lift (getp i) in
        lift (set_tf_word i TF_epc (default 0 (tf p !! TF_epc) + 4)) ;;
        let! r := syscall in
        match r with Returns _ => finish 0 | Switched => ret Away end
    else
      let! which_dev := devintr g in
      if negb (which_dev =? 0) then finish which_dev
      else
        let! p := lift (getp i) in
        lift (printf "usertrap(): unexpected scause 0x%lx pid=%d\n" [r_scause g; pid p]) ;;
        lift (printf "            sepc=0x%lx stval=0x%lx\n" [r_sepc g; r_stval g]) ;;
        lift (setkilled i) ;;
        finish 0.

(** ** Traps from the kernel *)

(** [intr_on]: whether interrupts were on, which must not be. *)
Definition kerneltrap (intr_on : bool) (g : trapregs) : Sys bool :=
  if Z.land (r_sstatus g) SSTATUS_SPP =? 0 then panic "kerneltrap: not from supervisor mode"
  else if intr_on then panic "kerneltrap: interrupts enabled"
  else
    let! which_dev := devintr g in
    if which_dev =? 0 then panic "kerneltrap"
    else
      let! me := lift myproc in
      if (which_dev =? 2) && bool_decide (is_Some me) then lift yield_enter ;; ret true
      else ret false.

(** The first run of a process: [first] is the static flag of [forkret], and
    [fsinit] the file system's initialisation. *)
Definition forkret (first : bool) (fsinit : M (kernel E) unit) (g : trapregs)
    : M (kernel E) userregs :=
  let! i := cur in
  release (LProc i) ;;
  when first fsinit ;;
  usertrapret g.

(** ** Facts *)

Lemma lift_Done {A} (c : M (kernel E) A) s a k :
  c (kern s) = Done a k ->
  lift c s = Done a (mksys k (syscall_counter s) (kbd_intr_count s) (seed s)).
Proof. intros H. unfold lift. by rewrite H. Qed.

Lemma lift_Done_inv {A} (c : M (kernel E) A) s a t :
  lift c s = Done a t -> exists k, c (kern s) = Done a k /\
    t = mksys k (syscall_counter s) (kbd_intr_count s) (seed s).
Proof. unfold lift. destruct (c (kern s)) as [a' k|]; naive_solver. Qed.

Lemma lift_cur {A} i (k : nat -> Sys A) s :
  curproc (kern s) = Some i -> bind (lift cur) k s = k i s.
Proof. intros H. apply bind_Done. unfold lift, cur. rewrite H. by destruct s. Qed.

Lemma lift_getp {A} i p (k : proc -> Sys A) s :
  procs (kern s) !! i = Some p -> bind (lift (getp i)) k s = k p s.
Proof. intros H. apply bind_Done. unfold lift. rewrite (getp_Done i p) by done. by destruct s. Qed.

(** A kernel operation that always succeeds. *)
Lemma lift_modify {A} (f : kernel E -> kernel E) (k : unit -> Sys A) s :
  bind (lift (modify f)) k s =
  k tt (mksys (f (kern s)) (syscall_counter s) (kbd_intr_count s) (seed s)).
Proof. done. Qed.

Lemma is_killed_Done i p (k : kernel E) :
  procs k !! i = Some p -> LProc i ∉ held k -> is_killed i k = Done (killed p) k.
Proof.
  intros Hp Hl. unfold is_killed. rewrite (bind_Done _ _ _ _ _ (acquire_Done _ _ Hl)).
  unfold bind at 1. rewrite (getp_Done i p) by done.
  rewrite (bind_release _ (held k)) by done. unfold ret. by destruct k.
Qed.

Lemma setkilled_Done i (k : kernel E) :
  LProc i ∉ held k -> setkilled i k = Done tt (set_procs (alter (set_killed 1) i (procs k)) k).
Proof.
  intros Hl. unfold setkilled. rewrite (bind_Done _ _ _ _ _ (acquire_Done _ _ Hl)).
  unfold modp, modify, bind at 1. rewrite (release_head _ (held k)) by done.
  by destruct k.
Qed.

(** A CPU in kernel mode for process [i], with no lock held. *)
Definition in_process (i : nat) (p : proc) (s : sysstate) : Prop :=
  curproc (kern s) = Some i /\ procs (kern s) !! i = Some p /\ held (kern s) = [] /\
  length (procs (kern s)) = NPROC.


(** The tail of [usertrap] for a process marked killed. *)
Lemma exit_of_killed i (status : Z) s r t :
  curproc (kern s) = Some i -> held (kern s) = [] -> length (procs (kern s)) = NPROC ->
  bind (lift (exit status)) (fun _ => ret Away) s = Done r t ->
  r = Away /\ syscall_counter t = syscall_counter s /\
  exit_effect i status (kern s) (kern t).
Proof.
  intros Hc Hh Hl H. apply bind_Done_inv in H as ([] & s1 & H1 & H). injection H as <- <-.
  apply lift_Done_inv in H1 as (k & Hk & ->). split; [done|]. split; [done|].
  apply (exit_inv i _ _ tt); try done. intros Hi.
  unfold exit, cur, gets, bind in Hk. rewrite Hc, Hi in Hk. by rewrite decide_True in Hk.
Qed.

(** A process that traps for a reason the kernel does not know is killed: if
    [usertrap] completes at all, it ends in [exit(-1)], never back in user
    mode. *)
Theorem unexpected_trap_kills (i : nat) (p : proc) (g : trapregs) (s t : sysstate) (r : trapped) :
  in_process i p s -> Z.land (r_sstatus g) SSTATUS_SPP = 0 ->
  r_scause g <> 8 -> r_scause g <> 0x8000000000000009 -> r_scause g <> 0x8000000000000005 ->
  usertrap g s = Done r t ->
  r = Away /\ exists p', procs (kern t) !! i = Some p' /\ state p' = ZOMBIE /\ xstate p' = -1.
Proof.
  intros (Hc & Hp & Hh & Hl) Hspp H8 H9 H5 H. unfold usertrap in H.
  rewrite Hspp in H. cbn [negb Z.eqb] in H. rewrite (lift_cur i) in H by done.
  unfold set_tf_word, modp in H. rewrite lift_modify in H.
  rewrite (proj2 (Z.eqb_neq _ _) H8) in H.
  unfold bind at 1, devintr in H.
  rewrite (proj2 (Z.eqb_neq _ _) H9), (proj2 (Z.eqb_neq _ _) H5) in H.
  unfold ret at 1 in H. cbn [negb Z.eqb] in H.
  assert (Hp1 : procs (set_procs (alter (fun q => set_tf (<[TF_epc := u64 (r_sepc g)]> (tf q)) q) i
    (procs (kern s))) (kern s)) !! i = Some (set_tf (<[TF_epc := u64 (r_sepc g)]> (tf p)) p)).
  { kproj. by rewrite list_lookup_alter_eq, Hp. }
  rewrite (lift_getp i (set_tf (<[TF_epc := u64 (r_sepc g)]> (tf p)) p)) in H by exact Hp1.
  unfold printf in H. rewrite !lift_modify in H.
  unfold bind at 1 in H. erewrite lift_Done in H
    by (apply setkilled_Done; cbn [kern]; kproj; rewrite Hh; apply not_elem_of_nil).
  unfold bind at 1 in H. erewrite lift_Done in H
    by (apply is_killed_Done; [cbn [kern]; kproj; rewrite list_lookup_alter_eq, list_lookup_alter_eq, Hp; reflexivity
        |cbn [kern]; kproj; rewrite Hh; apply not_elem_of_nil]).
  cbn [killed set_killed negb Z.eqb] in H.
  apply (exit_of_killed i) in H; [|done|done|cbn [kern]; kproj; by rewrite !length_alter].
  destruct H as (-> & _ & Hx). split; [done|].
  eapply exit_slots in Hx; [|cbn [kern]; kproj; rewrite !list_lookup_alter_eq, Hp; reflexivity].
  destruct Hx as (p' & Hp' & _ & _ & _ & Hd). rewrite decide_True in Hd by done.
  exists p'. tauto.
Qed.

End Trap.

(** ** Concrete instances *)

Definition no_file_call (f : sysfn) : M (@sysstate (list Z)) outcome := ret (Returns 0).

(** Slot 0 runs and issues system call 99. *)
Definition demo_trapper : proc := set_tf (<[TF_a7 := 99]> (replicate 36 0)) demo_caller.
Definition demo_sys : @sysstate (list Z) :=
  mksys (demo_state (demo_table [demo_proc SLEEPING 1 0 0 None; demo_trapper]) (Some 1%nat) 0) 5 0 1.


Lemma unexpected_trap_kills_witness :
  exists t, usertrap no_file_call (ret tt) (ret tt) 0 0 (mkregs 100 13 0 0 0 0 0) demo_sys
    = Done Away t /\ state <$> procs (kern t) !! 1%nat = Some ZOMBIE.
Proof.
  destruct (usertrap no_file_call (ret tt) (ret tt) 0 0 (mkregs 100 13 0 0 0 0 0) demo_sys)
    as [r t|m] eqn:H; [|vm_compute in H; discriminate].
  destruct (unexpected_trap_kills no_file_call (ret tt) (ret tt) 0 0 1 demo_trapper
    (mkregs 100 13 0 0 0 0 0) demo_sys t r) as (-> & p' & Hp' & Hz & _);
    [split_and!; reflexivity|reflexivity|discriminate|discriminate|discriminate|exact H|].
  exists t. split; [reflexivity|]. rewrite Hp'. cbn. by rewrite Hz.
Defined.
