(* ===== verification/Timer.v ===== *)
(** * Timer interrupts of a running process

    [timer_tick] is a timer interrupt that hart 0 takes while it runs user code of process [i]: the whole of
    [usertrap] ([devintr] with [clockintr], the test of [killed], [yield] up to the switch), the scheduler's
    cleanup and its next iteration, and, when it picks [i] again, the rest of [yield] and [usertrapret].

    Theorem: as long as [i] is the slot the scheduler prefers, every tick ends with [i] running again. *)

From S2P Require Import Prelude ProcDef Proc ProcFacts Sched ProcLife ProcInv Sysproc Sysutil Trap.

Section Timer.
Context {E : Type} `{!Services E}.
Context (file_call : sysfn -> M (sysstate (E := E)) outcome) (uartintr virtio_disk_intr : M (sysstate (E := E)) unit).
Context (usertrap_addr uservec_addr : Z).
Abbreviation Sys := (M (sysstate (E := E))).
Implicit Types (k : kernel E) (s : sysstate (E := E)) (p q : proc).

Definition timer_tick (i : nat) (g : trapregs) : Sys (option nat) :=
  let! r := usertrap file_call uartintr virtio_disk_intr usertrap_addr uservec_addr g in
  match r with
  | ToUser _ => ret (Some i)
  | Away =>
      lift (scheduler_return i) ;;
      let! c := lift scheduler_iter in
      (if decide (c = Some i)
       then lift yield_return ;; let! _ := lift (usertrapret usertrap_addr uservec_addr g) in ret tt
       else ret tt) ;;
      ret c
  end.

(** Several ticks in a row, with the trap registers of each: the processes that were dispatched. *)
Fixpoint timer_ticks (i : nat) (gs : list trapregs) : Sys (list (option nat)) :=
  match gs with
  | [] => ret []
  | g :: gs' => let! c := timer_tick i g in let! cs := timer_ticks i gs' in ret (c :: cs)
  end.

(** The registers of a timer interrupt from user mode on hart 0. *)
Definition timer_regs (g : trapregs) : Prop :=
  r_scause g = 0x8000000000000005 /\ Z.land (r_sstatus g) SSTATUS_SPP = 0 /\ r_tp g = 0.

(** Processes that are RUNNABLE after the tick. *)
Definition ready (q : proc) : Prop := state q = RUNNABLE \/ (state q = SLEEPING /\ chan q = TicksChan).

(** [i], running, is preferred to every process that could run instead. *)
Record preferred (i : nat) (p : proc) (k : kernel E) : Prop := {
  pr_len : length (procs k) = NPROC;
  pr_held : held k = [];
  pr_cur : curproc k = Some i;
  pr_slot : procs k !! i = Some p;
  pr_run : state p = RUNNING;
  pr_alive : killed p = 0;
  pr_mode : 0 <= sched_mode k <= 2;
  pr_others j q : procs k !! j = Some q -> j <> i -> state q <> RUNNING;
  pr_best j q : procs k !! j = Some q -> j <> i -> ready q ->
    mode_key (sched_mode k) p <= mode_key (sched_mode k) q /\
    ((j < i)%nat -> mode_key (sched_mode k) p < mode_key (sched_mode k) q)
}.

(** The effect of a tick on another slot. *)
Definition woken (q : proc) : proc :=
  if decide (state q = SLEEPING /\ chan q = TicksChan) then set_state RUNNABLE q else q.

Lemma clockintr_eq i p k : preferred i p k ->
  clockintr 0 k = Done tt (set_ticks (u32 (ticks k + 1))
    (set_procs (<[i := set_rtime (u64 (rtime p + 1)) p]> (woken <$> procs k)) k)).
Proof.
  intros [Hl Hh Hc Hp Hr Ha _ Ho _]. unfold clockintr. cbn [when Z.eqb].
  rewrite (bind_Done _ _ _ _ _ (acquire_Done LTicks k ltac:(rewrite Hh; apply not_elem_of_nil))), bind_modify. rewrite Hh. kproj.
  set (k1 := set_ticks _ _).
  assert (Hf : forall ps, length ps = NPROC -> table_free (set_procs ps k1)).
  { intros ps Hps. split; [done|]. intros j. cbn. intros [H|H]%elem_of_cons; [discriminate H|by apply not_elem_of_nil in H]. }
  replace k1 with (set_procs (procs k) k1) by (by destruct k). rewrite (bind_Done _ _ _ _ _ (update_time_Done _ (Hf _ Hl))). kproj.
  rewrite (bind_Done _ _ _ _ _ (wakeup_Done TicksChan _ (Hf (imap tick_proc (procs k)) ltac:(by rewrite length_imap)))). kproj.
  change (curproc k1) with (curproc k). rewrite Hc. rewrite (release_head _ []) by (done || apply not_elem_of_nil).
  f_equal. unfold k1. kernel_eq; [|by rewrite Hh]. apply list_eq. intros j. rewrite !list_lookup_imap.
  destruct (decide (j = i)) as [->|Hne].
  - rewrite list_lookup_insert_eq by (rewrite length_fmap; by eapply lookup_lt_Some). rewrite Hp. cbn. f_equal.
    unfold tick_proc, wake_proc. rewrite bool_decide_eq_true_2 by done. by rewrite decide_True.
  - rewrite list_lookup_insert_ne, list_lookup_fmap by done. destruct (procs k !! j) as [q|] eqn:Hq; [|done]. cbn. f_equal.
    unfold tick_proc, wake_proc, woken. rewrite bool_decide_eq_false_2 by (by apply (Ho j)). rewrite decide_False by congruence.
    destruct (decide (state q = SLEEPING /\ chan q = TicksChan)) as [[H1 H2]|Hn].
    + by rewrite !bool_decide_eq_true_2.
    + destruct (bool_decide_reflect (state q = SLEEPING)), (bool_decide_reflect (chan q = TicksChan)); cbn; naive_solver.
Qed.

(** The scheduler picks [i] from a table in which it is RUNNABLE and preferred. *)
Lemma scheduler_iter_eq i p k : length (procs k) = NPROC -> held k = [] -> 0 <= sched_mode k <= 2 ->
  procs k !! i = Some p -> state p = RUNNABLE ->
  (forall j q, procs k !! j = Some q -> j <> i -> state q = RUNNABLE ->
    mode_key (sched_mode k) p <= mode_key (sched_mode k) q /\
    ((j < i)%nat -> mode_key (sched_mode k) p < mode_key (sched_mode k) q)) ->
  scheduler_iter k = Done (Some i) (set_held [LProc i] (set_curproc (Some i) (set_procs
    (<[i := set_starttime (if starttime p =? 0 then ticks k else starttime p) (set_state RUNNING p)]> (procs k)) k))).
Proof.
  intros Hl Hh Hm Hp Hr Hbest.
  assert (Hf : table_free k) by (split; [done|]; intros j; rewrite Hh; apply not_elem_of_nil).
  destruct (scheduler_choose_spec k Hf Hm) as (r & H1 & H2).
  assert (Hb : best_below (mode_key (sched_mode k)) (procs k) NPROC (Some i)).
  { exists p. split; [rewrite <- Hl; by eapply lookup_lt_Some|]. split; [done|]. split; [done|]. intros j q _ Hq Hrun.
    destruct (decide (j = i)) as [->|Hne]; [assert (q = p) as -> by congruence; split; lia|by apply Hbest]. }
  rewrite (best_below_unique _ _ _ _ _ H2 Hb) in H1. unfold scheduler_iter. rewrite (bind_Done _ _ _ _ _ H1).
  unfold scheduler_dispatch, modp, modify, gets, bind, ret. f_equal. unfold with_choice. rewrite Hh. kernel_eq.
  rewrite (alter_insert_at _ _ _ _ Hp), alter_insert_same. f_equal. cbn. by destruct (starttime p =? 0); destruct p.
Qed.

(** What is left of [p] in its slot: the time it ran, the registers saved and the time it first ran may differ. *)
Definition ran (p p' : proc) : Prop := exists tf' st', p' = set_tf tf' (set_starttime st' (set_rtime (rtime p') p)).

Lemma usertrapret_eq i p g k : curproc k = Some i -> procs k !! i = Some p ->
  exists u tf', usertrapret usertrap_addr uservec_addr g k = Done u (set_procs (<[i := set_tf tf' p]> (procs k)) k).
Proof.
  intros Hc Hp. unfold usertrapret, cur, bind at 1. rewrite Hc. rewrite (bind_Done _ _ _ _ _ (getp_Done i p k Hp)).
  unfold set_tf_word, modp. rewrite !bind_modify. kproj. rewrite (alter_insert_at _ _ _ _ Hp), !alter_insert_same.
  match goal with |- context [<[i := ?x]> (procs k)] => set (p4 := x) end.
  assert (H4 : exists tf', p4 = set_tf tf' p) by (eexists; unfold p4; by rewrite !set_tf_tf). destruct H4 as [tf' ->].
  erewrite bind_Done by (apply getp_Done; kproj; apply list_lookup_insert_eq; by eapply lookup_lt_Some).
  eexists _, tf'. reflexivity.
Qed.

(** A timer interrupt up to the switch to the scheduler. *)
Lemma usertrap_timer i p g s : preferred i p (kern s) -> timer_regs g ->
  exists p1, state p1 = RUNNING /\ ran p p1 /\ rtime p1 = u64 (rtime p + 1) /\
    usertrap file_call uartintr virtio_disk_intr usertrap_addr uservec_addr g s =
      Done Away (mksys (set_held [LProc i] (set_ticks (u32 (ticks (kern s) + 1)) (set_procs (<[i := set_state RUNNABLE p1]> (woken <$> procs (kern s))) (kern s))))
        (syscall_counter s) (kbd_intr_count s) (seed s)).
Proof.
  intros Hpr (Hcause & Hspp & Htp). pose proof Hpr as [Hl Hh Hc Hp Hr Ha Hm Ho Hb].
  destruct s as [k sc kb sd]. cbn [kern syscall_counter kbd_intr_count seed] in *.
  assert (Hi : (i < length (procs k))%nat) by (by eapply lookup_lt_Some).
  set (pe := set_tf (<[TF_epc := u64 (r_sepc g)]> (tf p)) p). set (ke := set_procs (<[i := pe]> (procs k)) k).
  assert (Hpe : preferred i pe ke).
  { assert (Hkey : forall m, mode_key m pe = mode_key m p) by done. split; try done.
    - cbn. by rewrite length_insert.
    - cbn. by apply list_lookup_insert_eq.
    - intros j q Hq Hne. cbn in Hq. rewrite list_lookup_insert_ne in Hq by done. by apply (Ho j).
    - intros j q Hq Hne. cbn in Hq. rewrite list_lookup_insert_ne in Hq by done. rewrite Hkey. by apply (Hb j). }
  exists (set_rtime (u64 (rtime p + 1)) pe). split; [done|].
  split; [exists (<[TF_epc := u64 (r_sepc g)]> (tf p)), (starttime p); by destruct p|]. split; [done|].
  unfold usertrap. rewrite Hspp. cbn [Z.eqb negb]. rewrite (lift_cur i) by done.
  unfold set_tf_word at 1, modp at 1. rewrite lift_modify. cbn [kern syscall_counter kbd_intr_count seed].
  rewrite (alter_insert_at _ _ _ _ Hp). fold pe ke. rewrite Hcause. cbn [Z.eqb Pos.eqb].
  unfold devintr. rewrite Hcause, Htp. cbn [Z.eqb Pos.eqb].
  set (k1 := set_ticks (u32 (ticks k + 1)) (set_procs (<[i := set_rtime (u64 (rtime p + 1)) pe]> (woken <$> procs k)) k)).
  assert (Hk1 : clockintr 0 ke = Done tt k1).
  { rewrite (clockintr_eq i pe ke Hpe). f_equal. unfold k1, ke. kernel_eq. rewrite list_fmap_insert. by rewrite list_insert_insert_eq. }
  rewrite bind_assoc, (bind_Done _ _ _ _ _ (lift_Done _ (mksys ke sc kb sd) _ _ Hk1)), bind_ret. cbn [Z.eqb negb].
  assert (Hs1 : procs k1 !! i = Some (set_rtime (u64 (rtime p + 1)) pe)) by (apply list_lookup_insert_eq; by rewrite length_fmap).
  rewrite (bind_Done _ _ _ _ _ (lift_Done _ (mksys k1 sc kb sd) _ _ (is_killed_Done i _ k1 Hs1 ltac:(cbn; rewrite Hh; apply not_elem_of_nil)))).
  change (killed (set_rtime (u64 (rtime p + 1)) pe)) with (killed p). rewrite Ha. cbn [Z.eqb negb Pos.eqb].
  rewrite (bind_Done _ _ _ _ _ (lift_Done _ (mksys k1 sc kb sd) _ _ (yield_enter_Done i _ k1 Hc Hh Hs1))). unfold ret. f_equal. f_equal.
  rewrite (alter_insert_at _ _ _ _ Hs1). unfold k1. kernel_eq. by rewrite list_insert_insert_eq.
Qed.

Lemma woken_ready q : state (woken q) = RUNNABLE -> ready q.
Proof. unfold woken, ready. case_decide; [by right|by left]. Qed.

Lemma ran_trans p1 p2 p3 : ran p1 p2 -> ran p2 p3 -> ran p1 p3.
Proof.
  intros (t1 & s1 & ->) (t2 & s2 & ->). exists t2, s2. by destruct p1.
Qed.

Lemma woken_key m q : mode_key m (woken q) = mode_key m q.
Proof. unfold woken. by destruct (decide _). Qed.

(** One tick. *)
Lemma timer_tick_eq i p g s : preferred i p (kern s) -> timer_regs g ->
  exists k' p', timer_tick i g s = Done (Some i) (mksys k' (syscall_counter s) (kbd_intr_count s) (seed s)) /\
    preferred i p' k' /\ ran p p' /\ rtime p' = u64 (rtime p + 1) /\ ticks k' = u32 (ticks (kern s) + 1) /\
    sched_mode k' = sched_mode (kern s) /\ procs k' = <[i := p']> (woken <$> procs (kern s)).
Proof.
  intros Hpr Hg. destruct (usertrap_timer i p g s Hpr Hg) as (p1 & Hr1 & Hran & Hrt & Htrap).
  pose proof Hpr as [Hl Hh Hc Hp Hr Ha Hm Ho Hb]. destruct s as [k sc kb sd]. cbn [kern syscall_counter kbd_intr_count seed] in *.
  assert (Hi : (i < length (woken <$> procs k))%nat) by (rewrite length_fmap; by eapply lookup_lt_Some).
  unfold timer_tick. rewrite (bind_Done _ _ _ _ _ Htrap). cbv beta iota.
  set (k2 := set_curproc None (set_ticks (u32 (ticks k + 1)) (set_procs (<[i := set_state RUNNABLE p1]> (woken <$> procs k)) k))).
  assert (Hret : scheduler_return i (set_held [LProc i] (set_ticks (u32 (ticks k + 1)) (set_procs (<[i := set_state RUNNABLE p1]> (woken <$> procs k)) k))) = Done tt k2).
  { unfold scheduler_return. rewrite (bind_release _ []) by (done || apply not_elem_of_nil). unfold modify, k2. f_equal. kernel_eq. done. }
  rewrite (bind_Done _ _ _ _ _ (lift_Done _ (mksys _ sc kb sd) _ _ Hret)). cbn [syscall_counter kbd_intr_count seed].
  assert (Hkey : mode_key (sched_mode k) p1 = mode_key (sched_mode k) p) by (destruct Hran as (? & ? & ->); done).
  assert (Hs2 : procs k2 !! i = Some (set_state RUNNABLE p1)) by (by apply list_lookup_insert_eq).
  assert (Hoth : forall j q, procs k2 !! j = Some q -> j <> i -> exists q0, procs k !! j = Some q0 /\ q = woken q0 /\
    mode_key (sched_mode k) q = mode_key (sched_mode k) q0).
  { intros j q Hq Hne. cbn in Hq. rewrite list_lookup_insert_ne in Hq by done. apply list_lookup_fmap_Some in Hq as (q0 & -> & Hq0).
    exists q0. split; [done|]. split; [done|]. apply woken_key. }
  pose proof (scheduler_iter_eq i (set_state RUNNABLE p1) k2) as Hit. rewrite Hs2 in Hit.
  specialize (Hit ltac:(cbn; by rewrite length_insert, length_fmap) Hh Hm eq_refl eq_refl).
  assert (Hit2 := Hit ltac:(intros j q Hq Hne Hrun; destruct (Hoth j q Hq Hne) as (q0 & Hq0 & -> & Hk0);
    change (sched_mode k2) with (sched_mode k); change (mode_key (sched_mode k) (set_state RUNNABLE p1)) with (mode_key (sched_mode k) p1);
    rewrite Hkey, Hk0; apply (Hb j q0 Hq0 Hne); by apply woken_ready)). clear Hit.
  rewrite (bind_Done _ _ _ _ _ (lift_Done _ (mksys k2 sc kb sd) _ _ Hit2)), decide_True by done.
  clear Htrap Hret. set (p2 := set_starttime _ _) in *. set (k3 := set_held [LProc i] _) in *. set (k4 := set_held [] k3).
  assert (Hy : yield_return k3 = Done tt k4).
  { unfold yield_return, cur, bind. change (curproc k3) with (Some i). cbv iota beta. by rewrite (release_head _ []) by (done || apply not_elem_of_nil). }
  rewrite bind_assoc, (bind_Done _ _ _ _ _ (lift_Done _ (mksys k3 sc kb sd) _ _ Hy)). cbn [syscall_counter kbd_intr_count seed].
  destruct (usertrapret_eq i p2 g k4) as (u & tf' & Hu); [done|cbn; apply list_lookup_insert_eq; by rewrite length_insert|].
  rewrite bind_assoc, (bind_Done _ _ _ _ _ (lift_Done _ (mksys k4 sc kb sd) _ _ Hu)), !bind_ret.
  eexists _, (set_tf tf' p2). split; [reflexivity|].
  assert (Hran2 : ran p (set_tf tf' p2)).
  { destruct Hran as (t1 & s1 & E1). unfold ran. eexists tf', _. unfold p2. rewrite E1. clear - Hr. destruct p; cbn in *. rewrite Hr. reflexivity. }
  assert (Hps : procs (set_procs (<[i := set_tf tf' p2]> (procs k4)) k4) = <[i := set_tf tf' p2]> (woken <$> procs k)).
  { cbn. by rewrite !list_insert_insert_eq. }
  split; [|by repeat (split; [done|])].
  split; try done.
  - rewrite Hps. by rewrite length_insert, length_fmap.
  - rewrite Hps. by apply list_lookup_insert_eq.
  - destruct Hran2 as (? & ? & ->). done.
  - intros j q. rewrite Hps. intros Hq Hne. rewrite list_lookup_insert_ne in Hq by done. apply list_lookup_fmap_Some in Hq as (q0 & -> & Hq0).
    unfold woken. case_decide; [done|by apply (Ho j)].
  - intros j q. rewrite Hps. intros Hq Hne Hrd. rewrite list_lookup_insert_ne in Hq by done. apply list_lookup_fmap_Some in Hq as (q0 & -> & Hq0).
    change (sched_mode _) with (sched_mode k). assert (Hk2 : mode_key (sched_mode k) (set_tf tf' p2) = mode_key (sched_mode k) p) by (destruct Hran2 as (? & ? & ->); done).
    rewrite Hk2, woken_key. apply (Hb j q0 Hq0 Hne). unfold woken, ready in *. case_decide; [by right|done].
Qed.

Lemma woken_woken q : woken (woken q) = woken q.
Proof.
  unfold woken at 2 3. destruct (decide (state q = SLEEPING /\ chan q = TicksChan)) as [H|H]; unfold woken.
  - rewrite decide_False; [done|]. by intros [? _].
  - by rewrite decide_False.
Qed.

End Timer.

(** ** Slot 0 keeps the CPU in round-robin mode *)

(** Slot 0 runs; slot 1 is RUNNABLE, slot 2 sleeps on the clock. *)
Definition timer_table : list proc := demo_table
  [demo_proc RUNNING 1 9 0 None;
   demo_proc RUNNABLE 2 3 1 (Some 0%nat);
   set_chan TicksChan (demo_proc SLEEPING 3 5 7 (Some 0%nat))].
Definition timer_sys : sysstate := mksys (demo_state timer_table (Some 0%nat) 0) 0 0 0.
Definition demo_tick : trapregs := mkregs 4096 0x8000000000000005 0 0 0 0 0.

Lemma timer_table_preferred : preferred 0 (demo_proc RUNNING 1 9 0 None) (kern timer_sys).
Proof.
  split; try done.
  - intros j q Hq Hne. destruct j as [|[|[|j]]]; [done|injection Hq as <-; done..|].
    apply (list_elem_of_lookup_2 _ j), elem_of_replicate_inv in Hq. by subst.
  - intros j q _ Hne _. split; [done|lia].
Qed.

