(* ===== verification/Block.v ===== *)
(** * Disk blocks: bytes, 32-bit words, and functions on block numbers

    A block is the list of its [BSIZE] bytes; [rd32] and [wr32] access it as an
    array of little-endian words, the way the file system's C code casts
    [b->data].  The constants are those of [kernel/fs.h]. *)

From S2P Require Import Prelude.

Definition BSIZE : Z := 1024.
Abbreviation block := (list Z).

Definition bsize (b : block) : Prop := length b = Z.to_nat BSIZE.

(** ** Little-endian values *)

Fixpoint of_le (l : list Z) : Z :=
  match l with
  | [] => 0
  | b :: l' => b + 2 ^ 8 * of_le l'
  end.

Lemma of_le_le_bytes n v : of_le (le_bytes n v) = v mod 2 ^ (8 * Z.of_nat n).
Proof.
  revert v. induction n as [|n IH]; intros v.
  - change (2 ^ (8 * Z.of_nat 0)) with 1. by rewrite Z.mod_1_r.
  - cbn [le_bytes of_le]. rewrite IH.
    replace (8 * Z.of_nat (S n)) with (8 + 8 * Z.of_nat n) by lia.
    rewrite Z.pow_add_r, Z.rem_mul_r by lia. lia.
Qed.

Lemma of_le_le_bytes_small n v :
  0 <= v < 2 ^ (8 * Z.of_nat n) -> of_le (le_bytes n v) = v.
Proof. intros. rewrite of_le_le_bytes. by apply Z.mod_small. Qed.

Lemma le_bytes_range n v : Forall (fun b => 0 <= b < 256) (le_bytes n v).
Proof.
  revert v. induction n as [|n IH]; intros v; [done|]. cbn [le_bytes].
  apply Forall_cons. split; [apply Z.mod_pos_bound; lia|apply IH].
Qed.

(** ** Overwriting part of a list *)

(** [splice off new l]: [new] stored at offset [off] of [l]. *)
Definition splice (off : nat) (new l : list Z) : list Z :=
  take off l ++ new ++ drop (off + length new) l.

Lemma length_splice off new l :
  (off + length new <= length l)%nat -> length (splice off new l) = length l.
Proof. intros. unfold splice. rewrite !length_app, length_take, length_drop. lia. Qed.

Lemma splice_lookup off new l i :
  (off + length new <= length l)%nat ->
  splice off new l !! i =
    if decide (off <= i < off + length new)%nat then new !! (i - off)%nat else l !! i.
Proof.
  intros Hl. unfold splice. case_decide as Hi.
  - rewrite lookup_app_r by (rewrite length_take; lia).
    rewrite lookup_app_l by (rewrite length_take; lia). rewrite length_take. f_equal. lia.
  - destruct (decide (i < off)%nat).
    + rewrite lookup_app_l by (rewrite length_take; lia). by rewrite lookup_take_lt by lia.
    + rewrite lookup_app_r by (rewrite length_take; lia).
      rewrite lookup_app_r by (rewrite length_take; lia).
      rewrite lookup_drop, length_take. f_equal. lia.
Qed.

Lemma take_drop_splice off new l :
  (off + length new <= length l)%nat -> take (length new) (drop off (splice off new l)) = new.
Proof.
  intros Hl. unfold splice. rewrite drop_app_length' by (rewrite length_take; lia).
  by rewrite take_app_length.
Qed.

Lemma take_drop_splice_other off new l o n :
  (off + length new <= length l)%nat -> (o + n <= off \/ off + length new <= o)%nat ->
  take n (drop o (splice off new l)) = take n (drop o l).
Proof.
  intros Hl Ho. apply list_eq. intros i. destruct (decide (i < n)%nat).
  - rewrite !lookup_take_lt, !lookup_drop by lia. rewrite splice_lookup by done.
    rewrite decide_False by lia. done.
  - by rewrite !lookup_take_ge by lia.
Qed.

(** ** Words of a block *)

Definition rd32 (b : block) (i : nat) : Z := of_le (take 4 (drop (4 * i) b)).
Definition wr32 (b : block) (i : nat) (v : Z) : block := splice (4 * i) (le_bytes 4 v) b.

Lemma length_wr32 b i v : (4 * i + 4 <= length b)%nat -> length (wr32 b i v) = length b.
Proof. intros. unfold wr32. apply length_splice. rewrite length_le_bytes. lia. Qed.

Lemma rd32_wr32 b i v :
  (4 * i + 4 <= length b)%nat -> 0 <= v < 2 ^ 32 -> rd32 (wr32 b i v) i = v.
Proof.
  intros Hl Hv. unfold rd32, wr32.
  pose proof (take_drop_splice (4 * i) (le_bytes 4 v) b) as H. rewrite length_le_bytes in H.
  rewrite H by lia. by apply of_le_le_bytes_small.
Qed.

Lemma rd32_wr32_ne b i j v :
  (4 * i + 4 <= length b)%nat -> i <> j -> rd32 (wr32 b i v) j = rd32 b j.
Proof.
  intros Hl Hij. unfold rd32, wr32.
  rewrite take_drop_splice_other; rewrite ?length_le_bytes; [done|lia|lia].
Qed.

(** Words [i], [i + 1], ... overwritten by [vs]. *)
Fixpoint wr32s (b : block) (i : nat) (vs : list Z) : block :=
  match vs with
  | [] => b
  | v :: vs' => wr32s (wr32 b i v) (S i) vs'
  end.

Lemma length_wr32s b i vs :
  (4 * (i + length vs) <= length b)%nat -> length (wr32s b i vs) = length b.
Proof.
  revert b i. induction vs as [|v vs IH]; intros b i Hl; [done|]. cbn [wr32s length] in *.
  rewrite IH; rewrite ?length_wr32; lia.
Qed.

Lemma rd32_wr32s_lt b i vs j :
  (4 * (i + length vs) <= length b)%nat -> (j < i)%nat -> rd32 (wr32s b i vs) j = rd32 b j.
Proof.
  revert b i. induction vs as [|v vs IH]; intros b i Hl Hj; [done|]. cbn [wr32s length] in *.
  rewrite IH; rewrite ?length_wr32; try lia. apply rd32_wr32_ne; lia.
Qed.

Lemma rd32_wr32s b i vs k v :
  (4 * (i + length vs) <= length b)%nat -> Forall (fun v => 0 <= v < 2 ^ 32) vs ->
  vs !! k = Some v -> rd32 (wr32s b i vs) (i + k) = v.
Proof.
  revert b i k. induction vs as [|x vs IH]; intros b i k Hl Hf Hk; [done|].
  apply Forall_cons in Hf as [Hx Hf]. cbn [wr32s length] in *. destruct k as [|k]; cbn in Hk.
  - injection Hk as ->. rewrite Nat.add_0_r, rd32_wr32s_lt by (rewrite ?length_wr32; lia).
    apply rd32_wr32; [lia|done].
  - rewrite <- Nat.add_succ_comm. apply IH; [rewrite length_wr32; lia|done|done].
Qed.

(** ** Functions on block numbers *)

Definition updb {A} (f : Z -> A) (b : Z) (a : A) : Z -> A := fun x => if x =? b then a else f x.

Lemma updb_eq {A} (f : Z -> A) b a : updb f b a b = a.
Proof. unfold updb. by rewrite Z.eqb_refl. Qed.
Lemma updb_ne {A} (f : Z -> A) b a x : x <> b -> updb f b a x = f x.
Proof. intros H. unfold updb. by rewrite (proj2 (Z.eqb_neq _ _) H). Qed.

(** [updb_case]: split on whether the block looked up is the one updated. *)
Ltac updb_case :=
  repeat match goal with
  | |- context [updb _ ?b _ ?x] =>
      destruct (decide (x = b)) as [?|?];
      [subst; rewrite ?updb_eq in *|rewrite ?(updb_ne _ b) in * by done]
  end.
