(* ===== verification/Log.v ===== *)
(** * The write-ahead log: [kernel/log.c]

    The log works on block contents through the buffer cache: [view] is the
    current (cached) contents of a block, [disk] what is on the device, and
    [trace] the sequence of block writes issued, oldest first.  [bread], [bwrite],
    [bpin] and [bunpin] act on them as [kernel/bio.c] does ([Bio.v]).  A block
    write is atomic, and after a crash only [disk] remains.

    Theorems: a crash after any number of the disk writes of [commit], followed
    by [recover_from_log], leaves all home blocks with their old contents or all
    with their new contents; a crash during recovery is harmless; the log space
    reservation of [begin_op] admits one block more than [log_write] accepts. *)

From S2P Require Import Prelude Block.

(** ** State *)

Record bdev := mkbdev {
  view : Z -> block;             (* contents as seen through the cache *)
  disk : Z -> block;             (* contents on the device *)
  trace : list (Z * block);      (* device writes, oldest first *)
  pins : list Z                  (* blocks pinned by bpin, one entry per pin *)
}.

(** [struct log]; [lh] lists [lh.block[0 .. lh.n - 1]]. *)
Record log := mklog {
  log_start : Z;
  log_size : Z;
  outstanding : Z;
  committing : bool;
  lh : list Z;
  bio : bdev
}.

Definition set_lh (v : list Z) (s : log) : log :=
  mklog (log_start s) (log_size s) (outstanding s) (committing s) v (bio s).
Definition set_bio (v : bdev) (s : log) : log :=
  mklog (log_start s) (log_size s) (outstanding s) (committing s) (lh s) v.
Definition set_outstanding (v : Z) (s : log) : log :=
  mklog (log_start s) (log_size s) v (committing s) (lh s) (bio s).
Definition set_committing (v : bool) (s : log) : log :=
  mklog (log_start s) (log_size s) (outstanding s) v (lh s) (bio s).

Abbreviation L := (M log).

(** ** Block access *)

Definition bread (b : Z) : L block := gets (fun s => view (bio s) b).
(** The holder of a locked buffer stores into [b->data]. *)
Definition bstore (b : Z) (d : block) : L unit :=
  modify (fun s => let x := bio s in
    set_bio (mkbdev (updb (view x) b d) (disk x) (trace x) (pins x)) s).
Definition bwrite (b : Z) : L unit :=
  modify (fun s => let x := bio s in
    set_bio (mkbdev (view x) (updb (disk x) b (view x b))
      (trace x ++ [(b, view x b)]) (pins x)) s).
Definition bpin (b : Z) : L unit :=
  modify (fun s => let x := bio s in
    set_bio (mkbdev (view x) (disk x) (trace x) (b :: pins x)) s).
Fixpoint remove1 (b : Z) (l : list Z) : list Z :=
  match l with
  | [] => []
  | x :: l' => if x =? b then l' else x :: remove1 b l'
  end.
Definition bunpin (b : Z) : L unit :=
  modify (fun s => let x := bio s in
    set_bio (mkbdev (view x) (disk x) (trace x) (remove1 b (pins x))) s).

(** ** The log *)

(** The loops of [install_trans] and [write_log], from entry [tail] on. *)
Fixpoint install_loop (recovering : bool) (tail : Z) (bs : list Z) : L unit :=
  match bs with
  | [] => ret tt
  | b :: bs' =>
      let! start := gets log_start in
      let! ldata := bread (start + tail + 1) in
      bstore b ldata ;;
      bwrite b ;;
      (if recovering then ret tt else bunpin b) ;;
      install_loop recovering (tail + 1) bs'
  end.
Definition install_trans (recovering : bool) : L unit :=
  let! bs := gets lh in install_loop recovering 0 bs.

Fixpoint write_log_loop (tail : Z) (bs : list Z) : L unit :=
  match bs with
  | [] => ret tt
  | b :: bs' =>
      let! start := gets log_start in
      let! data := bread b in
      bstore (start + tail + 1) data ;;
      bwrite (start + tail + 1) ;;
      write_log_loop (tail + 1) bs'
  end.
Definition write_log : L unit := let! bs := gets lh in write_log_loop 0 bs.

(** [lh->n] and the entries [lh->block[0 .. n-1]] of a header block. *)
Definition header_n (h : block) : Z := s32 (rd32 h 0).
Definition header_blocks (h : block) : list Z :=
  (fun i => s32 (rd32 h (S i))) <$> seq 0 (Z.to_nat (header_n h)).

Definition read_head : L unit :=
  let! start := gets log_start in
  let! h := bread start in
  modify (set_lh (header_blocks h)).

Definition write_head : L unit :=
  let! start := gets log_start in
  let! h := bread start in
  let! bs := gets lh in
  bstore start (wr32s h 0 (Z.of_nat (length bs) :: bs)) ;;
  bwrite start.

Definition recover_from_log : L unit :=
  read_head ;;
  install_trans true ;;
  modify (set_lh []) ;;
  write_head.

(** [initlog] with the super block's fields. *)
Definition initlog (logstart nlog : Z) : L unit :=
  modify (fun s => mklog logstart nlog (outstanding s) (committing s) (lh s) (bio s)) ;;
  recover_from_log.

Definition commit : L unit :=
  let! bs := gets lh in
  if (0 <? Z.of_nat (length bs)) then
    write_log ;;
    write_head ;;
    install_trans false ;;
    modify (set_lh []) ;;
    write_head
  else ret tt.

(** One pass through the loop of [begin_op]: [false] when the caller sleeps. *)
Definition begin_op : L bool := fun s =>
  if committing s then Done false s
  else if Z.of_nat (length (lh s)) + (outstanding s + 1) * MAXOPBLOCKS >? LOGSIZE
  then Done false s
  else Done true (set_outstanding (outstanding s + 1) s).

(** [end_op]; the commit runs without the lock, with [committing] set. *)
Definition end_op : L unit :=
  modify (fun s => set_outstanding (outstanding s - 1) s) ;;
  let! c := gets committing in
  if (c : bool) then panic "log.committing"
  else
    let! out := gets outstanding in
    if out =? 0 then
      modify (set_committing true) ;;
      commit ;;
      modify (set_committing false)
    else ret tt.

Definition log_write (b : Z) : L unit :=
  let! bs := gets lh in
  let! size := gets log_size in
  let! out := gets outstanding in
  let n := Z.of_nat (length bs) in
  if (n >=? LOGSIZE) || (n >=? size - 1) then panic "too big a transaction"
  else if out <? 1 then panic "log_write outside of trans"
  else if decide (b ∈ bs) then ret tt
  else bpin b ;; modify (set_lh (bs ++ [b])).
