(* ===== verification/LogSafe.v ===== *)
(** * Crash safety of the log

    What the loops of [Log.v] write, the invariant [log_ok] of the log between
    operations, and the crash theorems. *)

From S2P Require Import Prelude Block Log.

(** ** Sequences of block writes *)

Definition apply_writes (ws : list (Z * block)) (d : Z -> block) : Z -> block :=
  foldl (fun d w => updb d (fst w) (snd w)) d ws.

#[global] Arguments apply_writes : simpl never.

Lemma apply_writes_cons b v ws d :
  apply_writes ((b, v) :: ws) d = apply_writes ws (updb d b v).
Proof. done. Qed.

Lemma apply_writes_cons' w ws d :
  apply_writes (w :: ws) d = apply_writes ws (updb d (fst w) (snd w)).
Proof. done. Qed.
Lemma apply_writes_nil d : apply_writes [] d = d.
Proof. done. Qed.

Lemma apply_writes_app ws1 ws2 d :
  apply_writes (ws1 ++ ws2) d = apply_writes ws2 (apply_writes ws1 d).
Proof. apply foldl_app. Qed.

Lemma apply_writes_out ws d b : b ∉ ws.*1 -> apply_writes ws d b = d b.
Proof.
  revert d. induction ws as [|[x v] ws IH]; intros d Hb; [done|].
  rewrite apply_writes_cons. cbn in Hb. rewrite IH by set_solver. apply updb_ne. set_solver.
Qed.

(** The writes of [write_log]: block [pos + i] gets the contents of [bs[i]]. *)
Fixpoint log_writes (f : Z -> block) (pos : Z) (bs : list Z) : list (Z * block) :=
  match bs with
  | [] => []
  | b :: bs' => (pos, f b) :: log_writes f (pos + 1) bs'
  end.

(** The writes of [install_trans]: block [bs[i]] gets the contents of [pos + i]. *)
Fixpoint install_writes (f : Z -> block) (pos : Z) (bs : list Z) : list (Z * block) :=
  match bs with
  | [] => []
  | b :: bs' => (b, f pos) :: install_writes f (pos + 1) bs'
  end.

Lemma log_writes_ext f g pos bs :
  (forall b, b ∈ bs -> f b = g b) -> log_writes f pos bs = log_writes g pos bs.
Proof.
  revert pos. induction bs as [|b bs IH]; intros pos H; [done|]. cbn.
  rewrite (H b), IH; set_solver.
Qed.

Lemma install_writes_ext f g pos bs :
  (forall x, pos <= x < pos + Z.of_nat (length bs) -> f x = g x) ->
  install_writes f pos bs = install_writes g pos bs.
Proof.
  revert pos. induction bs as [|b bs IH]; intros pos H; [done|]. cbn in *.
  rewrite (H pos), IH; [done|intros; apply H; lia|lia].
Qed.

Lemma log_writes_fst f pos bs x :
  x ∈ (log_writes f pos bs).*1 <-> pos <= x < pos + Z.of_nat (length bs).
Proof.
  revert pos. induction bs as [|b bs IH]; intros pos; cbn.
  - split; [set_solver|lia].
  - rewrite elem_of_cons, IH. lia.
Qed.

Lemma install_writes_fst f pos bs : (install_writes f pos bs).*1 = bs.
Proof. revert pos. induction bs as [|b bs IH]; intros pos; cbn; [done|]. by rewrite IH. Qed.

Lemma apply_log_in f pos bs d i b :
  bs !! i = Some b -> apply_writes (log_writes f pos bs) d (pos + Z.of_nat i) = f b.
Proof.
  revert pos d i. induction bs as [|x bs IH]; intros pos d i Hi; [done|].
  destruct i as [|i]; cbn [lookup list_lookup] in Hi.
  - injection Hi as ->. cbn. rewrite apply_writes_cons, apply_writes_out.
    + rewrite Z.add_0_r. apply updb_eq.
    + rewrite log_writes_fst. lia.
  - replace (pos + Z.of_nat (S i)) with (pos + 1 + Z.of_nat i) by lia. cbn. rewrite apply_writes_cons. by apply IH.
Qed.

Lemma apply_install_in f pos bs d i b :
  NoDup bs -> bs !! i = Some b ->
  apply_writes (install_writes f pos bs) d b = f (pos + Z.of_nat i).
Proof.
  revert pos d i. induction bs as [|x bs IH]; intros pos d i Hnd Hi; [done|].
  apply NoDup_cons in Hnd as [Hx Hnd]. destruct i as [|i]; cbn [lookup list_lookup] in Hi.
  - injection Hi as ->. cbn. rewrite apply_writes_cons, apply_writes_out.
    + rewrite Z.add_0_r. apply updb_eq.
    + by rewrite install_writes_fst.
  - replace (pos + Z.of_nat (S i)) with (pos + 1 + Z.of_nat i) by lia. cbn. rewrite apply_writes_cons. by apply IH.
Qed.

Lemma apply_install_out f pos bs d b :
  b ∉ bs -> apply_writes (install_writes f pos bs) d b = d b.
Proof. intros. apply apply_writes_out. by rewrite install_writes_fst. Qed.

Lemma take_install_writes f pos bs k :
  take k (install_writes f pos bs) = install_writes f pos (take k bs).
Proof.
  revert pos k. induction bs as [|b bs IH]; intros pos k; [by destruct k|].
  destruct k as [|k]; [done|]. cbn. by rewrite IH.
Qed.

(** ** What the loops do *)

Definition after_writes (ws : list (Z * block)) (x : bdev) : bdev :=
  mkbdev (apply_writes ws (view x)) (apply_writes ws (disk x)) (trace x ++ ws) (pins x).

Lemma after_writes_app ws1 ws2 x :
  after_writes ws2 (after_writes ws1 x) = after_writes (ws1 ++ ws2) x.
Proof. unfold after_writes. cbn. by rewrite !apply_writes_app, app_assoc. Qed.

(** Storing and writing one block. *)
Lemma store_write {A} b d (k : unit -> M log A) s :
  bind (bstore b d) (fun _ => bind (bwrite b) k) s =
  k tt (set_bio (after_writes [(b, d)] (bio s)) s).
Proof.
  unfold bstore, bwrite, modify, bind, after_writes, set_bio. cbn. by rewrite updb_eq.
Qed.

Lemma write_log_loop_eq bs : forall tail s,
  let pos := log_start s + tail + 1 in
  (forall b, b ∈ bs -> ~ (pos <= b < pos + Z.of_nat (length bs))) ->
  write_log_loop tail bs s =
  Done tt (set_bio (after_writes (log_writes (view (bio s)) pos bs) (bio s)) s).
Proof.
  induction bs as [|b bs IH]; intros tail s pos Hd.
  { cbn. unfold after_writes. cbn. rewrite app_nil_r. by destruct s as [? ? ? ? ? []]. }
  cbn [write_log_loop]. unfold bread. rewrite !bind_gets, store_write.
  set (s1 := set_bio _ s). cbn [length] in Hd.
  assert (Hp : log_start s1 + (tail + 1) + 1 = pos + 1) by (cbn; lia).
  rewrite IH; rewrite Hp; [|intros x Hx; specialize (Hd x ltac:(set_solver)); lia].
  cbn [log_writes s1 set_bio bio after_writes view]. f_equal.
  rewrite (log_writes_ext _ (view (bio s)) (pos + 1)).
  - unfold s1, set_bio. cbn -[after_writes]. by rewrite after_writes_app.
  - intros x Hx. apply updb_ne. specialize (Hd x ltac:(set_solver)). unfold pos in *. cbn [fst]. lia.
Qed.

(** Pins dropped by [install_trans] outside recovery. *)
Definition unpin_all (bs pins : list Z) : list Z := foldl (fun l b => remove1 b l) pins bs.

Definition set_pins (v : list Z) (x : bdev) : bdev := mkbdev (view x) (disk x) (trace x) v.

Lemma install_loop_eq rec bs : forall tail s,
  let pos := log_start s + tail + 1 in
  (forall b, b ∈ bs -> ~ (pos <= b < pos + Z.of_nat (length bs))) ->
  install_loop rec tail bs s =
  Done tt (set_bio (after_writes (install_writes (view (bio s)) pos bs)
    (set_pins (if rec then pins (bio s) else unpin_all bs (pins (bio s))) (bio s))) s).
Proof.
  induction bs as [|b bs IH]; intros tail s pos Hd.
  { cbn. unfold after_writes. cbn. rewrite app_nil_r. by destruct rec, s as [? ? ? ? ? []]. }
  cbn [install_loop]. unfold bread. rewrite !bind_gets, store_write.
  set (x1 := after_writes [(b, view (bio s) (log_start s + tail + 1))]
    (set_pins (if rec then pins (bio s) else remove1 b (pins (bio s))) (bio s))).
  rewrite (bind_Done _ _ _ tt (set_bio x1 s)) by (by destruct rec). cbn [length] in Hd.
  assert (Hp : log_start (set_bio x1 s) + (tail + 1) + 1 = pos + 1) by (cbn; unfold pos; lia).
  rewrite IH; rewrite Hp; [|intros x Hx; specialize (Hd x ltac:(set_solver)); lia].
  cbn [set_bio bio]. f_equal. rewrite (install_writes_ext _ (view (bio s)) (pos + 1)).
  - cbn [install_writes]. unfold set_bio. cbn [log_start log_size outstanding committing lh].
    f_equal. unfold x1, after_writes, set_pins. cbn [view disk trace pins].
    rewrite !apply_writes_cons, <- app_assoc. by destruct rec.
  - intros x Hx. cbn. unfold apply_writes. cbn. apply updb_ne.
    specialize (Hd b ltac:(set_solver)). lia.
Qed.

(** ** Headers *)

Lemma header_of_words h bs :
  bsize h -> (length bs <= 30)%nat -> Forall (fun b => 0 <= b < 2 ^ 31) bs ->
  header_n (wr32s h 0 (Z.of_nat (length bs) :: bs)) = Z.of_nat (length bs) /\
  header_blocks (wr32s h 0 (Z.of_nat (length bs) :: bs)) = bs.
Proof.
  intros Hs Hl Hf. set (vs := Z.of_nat (length bs) :: bs).
  assert (Hlen : (4 * (0 + length vs) <= length h)%nat).
  { rewrite Hs. unfold vs. cbn [length]. change (Z.to_nat BSIZE) with 1024%nat. lia. }
  assert (Hvs : Forall (fun v => 0 <= v < 2 ^ 32) vs).
  { apply Forall_cons. split; [lia|]. eapply Forall_impl; [done|]. cbn; intros; lia. }
  assert (Hn : header_n (wr32s h 0 vs) = Z.of_nat (length bs)).
  { unfold header_n. pose proof (rd32_wr32s h 0 vs 0 _ Hlen Hvs eq_refl) as H0.
    cbn [Nat.add] in H0. rewrite H0.
    apply s32_small. lia. }
  split; [done|]. unfold header_blocks. rewrite Hn, Nat2Z.id.
  apply list_eq. intros i. rewrite list_lookup_fmap.
  destruct (bs !! i) as [b|] eqn:Hb.
  - assert (i < length bs)%nat by (by eapply lookup_lt_Some).
    rewrite lookup_seq_Some by done. cbn [fmap option_fmap option_map]. f_equal.
    pose proof (rd32_wr32s h 0 vs (S i) b Hlen Hvs Hb) as H0. cbn [Nat.add] in H0. rewrite H0.
    apply s32_small. rewrite Forall_lookup in Hf. specialize (Hf i b Hb). lia.
  - apply lookup_ge_None in Hb. by rewrite lookup_seq_ge by lia.
Qed.

Lemma bsize_header h vs : bsize h -> (length vs <= 31)%nat -> bsize (wr32s h 0 vs).
Proof.
  intros Hs Hl. unfold bsize in *. rewrite length_wr32s; [done|].
  rewrite Hs. change (Z.to_nat BSIZE) with 1024%nat. lia.
Qed.

Lemma header_empty h : header_n h = 0 -> header_blocks h = [].
Proof. intros H. unfold header_blocks. by rewrite H. Qed.

(** ** Commit and recovery as sequences of writes *)

(** The blocks [bs] fit in the log at [start], of [size] blocks, and lie outside. *)
Definition fits (start size : Z) (bs : list Z) : Prop :=
  NoDup bs /\ (length bs <= 30)%nat /\ Z.of_nat (length bs) < size /\
  forall b, b ∈ bs -> 0 <= b < 2 ^ 31 /\ ~ (start <= b < start + size).

Definition home_writes (v : Z -> block) (bs : list Z) : list (Z * block) :=
  (fun b => (b, v b)) <$> bs.

Lemma install_writes_home (v1 v : Z -> block) pos bs :
  (forall i b, bs !! i = Some b -> v1 (pos + Z.of_nat i) = v b) ->
  install_writes v1 pos bs = home_writes v bs.
Proof.
  revert pos. induction bs as [|b bs IH]; intros pos H; [done|]. cbn. f_equal.
  - rewrite <- (H 0%nat b eq_refl). by rewrite Z.add_0_r.
  - apply IH. intros i x Hx. rewrite <- (H (S i) x Hx). f_equal. lia.
Qed.

Lemma home_writes_fst v bs : (home_writes v bs).*1 = bs.
Proof. unfold home_writes. rewrite <- list_fmap_compose. apply list_fmap_id. Qed.

Definition header_write (st : Z) (h : block) (bs : list Z) : Z * block :=
  (st, wr32s h 0 (Z.of_nat (length bs) :: bs)).

Lemma write_head_eq s :
  write_head s = Done tt (set_bio
    (after_writes [header_write (log_start s) (view (bio s) (log_start s)) (lh s)] (bio s)) s).
Proof.
  unfold write_head, bread. rewrite !bind_gets.
  pose proof (store_write (log_start s) (snd (header_write (log_start s)
    (view (bio s) (log_start s)) (lh s))) (fun u => ret u) s) as H.
  unfold header_write in *. cbn [snd] in H.
  unfold bind in *. unfold bstore, bwrite, modify, ret in *. exact H.
Qed.

(** The writes of a commit of [bs], where blocks have contents [v]: the log
    blocks, the header, the home blocks, the empty header. *)
Definition commit_writes (st : Z) (v : Z -> block) (bs : list Z) : list (Z * block) :=
  let h1 := wr32s (v st) 0 (Z.of_nat (length bs) :: bs) in
  log_writes v (st + 1) bs ++ header_write st (v st) bs :: home_writes v bs ++
  [header_write st h1 []].

Lemma fits_pos st size bs b :
  fits st size bs -> b ∈ bs -> ~ (st + 1 <= b < st + 1 + Z.of_nat (length bs)).
Proof. intros (_ & _ & Hl & Hb) Hin. destruct (Hb b Hin). lia. Qed.

Lemma fits_start st size bs : fits st size bs -> st ∉ bs.
Proof. intros (_ & _ & Hl & Hb) Hin. destruct (Hb st Hin). lia. Qed.

Lemma commit_eq s :
  fits (log_start s) (log_size s) (lh s) -> lh s <> [] ->
  commit s = Done tt (set_lh [] (set_bio
    (after_writes (commit_writes (log_start s) (view (bio s)) (lh s))
      (set_pins (unpin_all (lh s) (pins (bio s))) (bio s))) s)).
Proof.
  intros Hf Hne. unfold commit. rewrite bind_gets.
  destruct (Z.ltb_spec 0 (Z.of_nat (length (lh s)))) as [_|Hl];
    [|destruct (lh s); [done|cbn in Hl; lia]].
  set (st := log_start s). set (bs := lh s) in *. set (v := view (bio s)).
  pose proof (fun b => fits_pos _ _ _ b Hf) as Hpos.
  pose proof (fits_start _ _ _ Hf) as Hst.
  assert (HL : forall x d, x ∉ (log_writes v (st + 1) bs).*1 ->
    apply_writes (log_writes v (st + 1) bs) d x = d x) by (intros; by apply apply_writes_out).
  (* write_log *)
  unfold write_log. rewrite bind_assoc, bind_gets. fold bs.
  unfold bind at 1. rewrite write_log_loop_eq by (cbn; rewrite Z.add_0_r; exact Hpos).
  rewrite Z.add_0_r. fold st v. set (s1 := set_bio _ s).
  (* write_head *)
  assert (Hv1 : view (bio s1) st = v st).
  { cbn. apply HL. rewrite log_writes_fst. lia. }
  unfold bind at 1. rewrite write_head_eq. change (log_start s1) with st.
  change (lh s1) with bs. rewrite Hv1. set (s2 := set_bio _ s1).
  (* install_trans *)
  unfold install_trans. rewrite bind_assoc, bind_gets. change (lh s2) with bs.
  unfold bind at 1. rewrite install_loop_eq by (cbn; rewrite Z.add_0_r; exact Hpos).
  change (log_start s2) with st. rewrite Z.add_0_r.
  rewrite (install_writes_home _ v); last first.
  { intros i b Hi. cbn. rewrite apply_writes_cons', apply_writes_nil.
    rewrite updb_ne by (cbn; lia). by apply apply_log_in. }
  rewrite bind_modify, write_head_eq. set (s3 := set_lh [] _).
  assert (Hv3 : view (bio s3) st = wr32s (v st) 0 (Z.of_nat (length bs) :: bs)).
  { cbn. rewrite apply_writes_out by (by rewrite home_writes_fst).
    rewrite apply_writes_cons', apply_writes_nil. cbn [header_write fst snd].
    by rewrite updb_eq. }
  change (log_start s3) with st. change (lh s3) with (@nil Z). rewrite Hv3. f_equal.
  unfold s3, set_bio, set_lh. cbn -[after_writes commit_writes]. f_equal.
  unfold commit_writes, after_writes, set_pins. cbn [view disk trace pins].
  rewrite !apply_writes_app, !apply_writes_cons', !apply_writes_app, <- !app_assoc. done.
Qed.

(** ** Recovery *)

(** The log right after a reboot with disk contents [d]. *)
Definition boot_log (st size : Z) (d : Z -> block) : log :=
  mklog st size 0 false [] (mkbdev d d [] []).

Definition recover_writes (st : Z) (d : Z -> block) : list (Z * block) :=
  install_writes d (st + 1) (header_blocks (d st)) ++ [header_write st (d st) []].

Lemma recover_eq st size d :
  fits st size (header_blocks (d st)) ->
  recover_from_log (boot_log st size d) =
  Done tt (mklog st size 0 false [] (after_writes (recover_writes st d) (mkbdev d d [] []))).
Proof.
  intros Hf. unfold recover_from_log, read_head, bread.
  rewrite bind_assoc, bind_gets, bind_assoc, bind_gets, bind_modify. cbn [log_start boot_log bio view].
  set (bs := header_blocks (d st)) in *.
  unfold install_trans. rewrite bind_assoc, bind_gets. cbn [lh set_lh].
  unfold bind at 1. rewrite install_loop_eq.
  2:{ cbn. rewrite Z.add_0_r. intros b Hb. by apply (fits_pos _ _ _ _ Hf). }
  rewrite bind_modify, write_head_eq. unfold set_bio, set_lh, boot_log. cbn -[after_writes].
  rewrite Z.add_0_r. f_equal. f_equal.
  unfold recover_writes. fold bs. unfold after_writes, set_pins. cbn [view disk trace pins].
  rewrite apply_install_out by (by apply (fits_start _ _ _ Hf)). by rewrite !apply_writes_app.
Qed.

(** Block [b] after recovery. *)
Definition recovered (st : Z) (d : Z -> block) : Z -> block := apply_writes (recover_writes st d) d.

Lemma recovered_nothing st d b :
  header_n (d st) = 0 -> b <> st -> recovered st d b = d b.
Proof.
  intros H0 Hb. unfold recovered, recover_writes. rewrite header_empty by done.
  apply apply_writes_out. cbn. set_solver.
Qed.

Lemma recovered_installed st size d bs i b :
  header_blocks (d st) = bs -> fits st size bs -> bs !! i = Some b ->
  recovered st d b = d (st + 1 + Z.of_nat i).
Proof.
  intros Hh Hf Hi. unfold recovered, recover_writes. rewrite Hh, apply_writes_app.
  pose proof (fits_start _ _ _ Hf).
  rewrite apply_writes_out by (cbn; apply list_elem_of_lookup_2 in Hi; set_solver).
  destruct Hf as (Hnd & _). by apply apply_install_in.
Qed.

Lemma recovered_other st d bs b :
  header_blocks (d st) = bs -> b ∉ bs -> b <> st -> recovered st d b = d b.
Proof.
  intros Hh Hb Hs. unfold recovered, recover_writes. rewrite Hh, apply_writes_app.
  rewrite apply_writes_out by (cbn; set_solver). by apply apply_install_out.
Qed.

(** ** Crash safety *)

(** The log between operations: the transaction so far fits; the on-disk header is
    empty; blocks outside the transaction are clean. *)
Record log_ok (s : log) : Prop := {
  lo_fits : fits (log_start s) (log_size s) (lh s);
  lo_size : bsize (view (bio s) (log_start s));
  lo_head : view (bio s) (log_start s) = disk (bio s) (log_start s);
  lo_empty : header_n (disk (bio s) (log_start s)) = 0;
  lo_clean b : ~ (log_start s <= b < log_start s + log_size s) -> b ∉ lh s ->
    view (bio s) b = disk (bio s) b
}.

Lemma length_log_writes v pos bs : length (log_writes v pos bs) = length bs.
Proof. revert pos. induction bs as [|b bs IH]; intros pos; cbn; [done|]. by rewrite IH. Qed.

Lemma length_home_writes v bs : length (home_writes v bs) = length bs.
Proof. apply length_fmap. Qed.

(** The disk after the log blocks, the header and the first [k] home blocks of the
    transaction have been written recovers to the new contents. *)
Lemma recovered_committed s k b :
  log_ok s -> let st := log_start s in let v := view (bio s) in
  ~ (st <= b < st + log_size s) ->
  let d := apply_writes (log_writes v (st + 1) (lh s) ++ header_write st (v st) (lh s) ::
    home_writes v (take k (lh s))) (disk (bio s)) in
  header_blocks (d st) = lh s /\ recovered st d b = v b.
Proof.
  intros Hok st v Hb d. pose proof (lo_fits s Hok) as Hf.
  pose proof (fits_start _ _ _ Hf) as Hst. destruct Hf as (Hnd & H30 & Hn & Hh).
  assert (Hsub : forall x, x ∈ take k (lh s) -> x ∈ lh s).
  { intros x Hx. by eapply elem_of_take in Hx as (? & ? & _); eapply list_elem_of_lookup_2. }
  assert (Hd : d st = wr32s (v st) 0 (Z.of_nat (length (lh s)) :: lh s)).
  { unfold d. rewrite apply_writes_app, apply_writes_cons'.
    rewrite apply_writes_out by (rewrite home_writes_fst; set_solver). apply updb_eq. }
  assert (Hhb : header_blocks (d st) = lh s).
  { rewrite Hd. apply header_of_words; [by apply lo_size|done|].
    apply Forall_forall. intros x Hx. by destruct (Hh x Hx). }
  split; [done|]. destruct (decide (b ∈ lh s)) as [Hin|Hout].
  - apply list_elem_of_lookup in Hin as [i Hi].
    rewrite (recovered_installed _ (log_size s) _ _ i b Hhb (lo_fits s Hok) Hi).
    unfold d. rewrite apply_writes_app, apply_writes_cons'. apply lookup_lt_Some in Hi as Hlt.
    rewrite apply_writes_out.
    + rewrite updb_ne by (cbn; lia). by apply apply_log_in.
    + rewrite home_writes_fst. intros Hx%Hsub. destruct (Hh _ Hx). unfold st in *. lia.
  - assert (b <> st) by (destruct Hok; unfold st; intros ->; lia).
    rewrite (recovered_other _ _ _ b Hhb) by done. unfold d.
    rewrite apply_writes_out; [symmetry; by apply lo_clean|].
    rewrite fmap_app. cbn. rewrite home_writes_fst. rewrite elem_of_app, elem_of_cons, log_writes_fst.
    intros [?|[?|?%Hsub]]; [unfold st in *; lia|done|done].
Qed.

(** A crash point in a commit: how many writes have reached the disk. *)
Lemma crash_prefix st v bs W' :
  W' `prefix_of` commit_writes st v bs ->
  (exists k, W' = take k (log_writes v (st + 1) bs) /\ (length W' <= length bs)%nat) \/
  (exists k, W' = log_writes v (st + 1) bs ++ header_write st (v st) bs ::
     home_writes v (take k bs) /\ (length bs < length W')%nat) \/
  (W' = commit_writes st v bs /\ (length bs < length W')%nat).
Proof.
  intros [rest Hr]. unfold commit_writes in Hr. symmetry in Hr.
  assert (HW' : W' = take (length W') (commit_writes st v bs)).
  { unfold commit_writes. rewrite <- Hr. by rewrite take_app_length. }
  unfold commit_writes in HW'. set (h0 := header_write st _ []) in *.
  set (k := length W') in *. rewrite take_app, length_log_writes in HW'.
  destruct (decide (k <= length bs)%nat) as [Hk|Hk].
  - left. exists k. split; [|done]. rewrite HW' at 1.
    replace (k - length bs)%nat with 0%nat by lia. by rewrite take_0, app_nil_r.
  - right. rewrite take_ge in HW' by (rewrite length_log_writes; lia).
    destruct (k - length bs)%nat as [|j] eqn:Hj; [lia|]. cbn [take] in HW'.
    rewrite take_app, length_home_writes in HW'.
    destruct (decide (j <= length bs)%nat) as [Hjl|Hjl].
    + left. exists j. split; [|lia]. rewrite HW'. do 2 f_equal.
      replace (j - length bs)%nat with 0%nat by lia. rewrite take_0, app_nil_r.
      unfold home_writes. by rewrite fmap_take.
    + right. split; [|lia]. rewrite HW'. unfold commit_writes. fold h0. do 3 f_equal.
      * by rewrite take_ge by (rewrite length_home_writes; lia).
      * rewrite take_ge; [done|]. cbn. lia.
Qed.

(** A crash before the header write leaves the header empty and the home blocks alone. *)
Lemma crash_before_header s k :
  log_ok s -> let st := log_start s in
  let d := apply_writes (take k (log_writes (view (bio s)) (st + 1) (lh s))) (disk (bio s)) in
  header_n (d st) = 0 /\ forall b, ~ (st <= b < st + log_size s) -> d b = disk (bio s) b.
Proof.
  intros Hok st d. destruct (lo_fits s Hok) as (_ & _ & Hr & _).
  assert (Hfst : forall x, x ∈ (take k (log_writes (view (bio s)) (st + 1) (lh s))).*1 ->
    st < x < st + log_size s).
  { intros x Hx. rewrite fmap_take in Hx.
    apply elem_of_take in Hx as (i & Hi & _). apply list_elem_of_lookup_2 in Hi.
    apply log_writes_fst in Hi. unfold st in *. lia. }
  split; [|intros b Hb; apply apply_writes_out; intros Hx%Hfst; lia].
  unfold d. rewrite apply_writes_out by (intros Hx%Hfst; lia). by apply lo_empty.
Qed.

(** After all its writes the header is empty again and every block is home. *)
Lemma crash_after_clear s :
  log_ok s -> let st := log_start s in
  let d := apply_writes (commit_writes st (view (bio s)) (lh s)) (disk (bio s)) in
  header_n (d st) = 0 /\ forall b, ~ (st <= b < st + log_size s) -> d b = view (bio s) b.
Proof.
  intros Hok st d. destruct (lo_fits s Hok) as (Hnd & Hl & Hr & _). set (v := view (bio s)) in *.
  unfold d, commit_writes.
  rewrite apply_writes_app, apply_writes_cons', apply_writes_app, apply_writes_cons', apply_writes_nil.
  split.
  - cbn [header_write fst snd]. rewrite updb_eq. apply (header_of_words _ []); [|cbn; lia|constructor].
    apply bsize_header; [by apply lo_size|]. cbn. lia.
  - intros b Hb. assert (Hst : b <> st) by (intros ->; unfold st in *; lia).
    rewrite updb_ne by (cbn; auto). destruct (decide (b ∈ lh s)) as [Hin|Hout].
    + apply list_elem_of_lookup in Hin as [i Hi].
      rewrite <- (install_writes_home (fun x => v (default 0 (lh s !! Z.to_nat x))) v 0).
      * rewrite (apply_install_in _ _ _ _ i b) by done. by rewrite Z.add_0_l, Nat2Z.id, Hi.
      * intros j x Hx. by rewrite Z.add_0_l, Nat2Z.id, Hx.
    + rewrite apply_writes_out by (by rewrite home_writes_fst).
      rewrite updb_ne by (cbn; auto). rewrite apply_writes_out; [symmetry; by apply lo_clean|].
      rewrite log_writes_fst. unfold st in *. lia.
Qed.

(** Recovery of a disk whose log is empty changes no home block. *)
Lemma recover_empty_log st size d :
  header_n (d st) = 0 -> 0 < size ->
  exists r, recover_from_log (boot_log st size d) = Done tt r /\
    forall b, ~ (st <= b < st + size) -> disk (bio r) b = d b.
Proof.
  intros H0 Hs. eexists. split.
  - apply recover_eq. rewrite header_empty by done.
    split; [constructor|]. split; [cbn; lia|]. split; [cbn; lia|]. intros b Hb. by apply not_elem_of_nil in Hb.
  - intros b Hb. cbn [bio after_writes disk]. fold (recovered st d).
    apply recovered_nothing; [done|]. intros ->. lia.
Qed.

(** C2: a crash after any number of the disk writes of [commit] followed by
    [recover_from_log] leaves every home block as it was before the transaction
    if the header write was not reached, and every home block with the
    transaction's contents if it was: transactions are atomic. *)
Theorem commit_crash_safe (s s' : log) (W W' : list (Z * block)) :
  log_ok s -> lh s <> [] -> commit s = Done tt s' ->
  trace (bio s') = trace (bio s) ++ W -> W' `prefix_of` W ->
  exists r, recover_from_log (boot_log (log_start s) (log_size s)
              (apply_writes W' (disk (bio s)))) = Done tt r /\
    forall b, ~ (log_start s <= b < log_start s + log_size s) ->
      disk (bio r) b = if decide (length (lh s) < length W')%nat
                       then view (bio s) b else disk (bio s) b.
Proof.
  intros Hok Hne Hc Htr Hpre. pose proof (lo_fits s Hok) as Hf.
  rewrite commit_eq in Hc by done. injection Hc as <-. cbn in Htr. apply app_inv_head in Htr as <-.
  assert (Hsz : 0 < log_size s) by (destruct Hf as (_ & _ & ? & _); lia).
  apply crash_prefix in Hpre as [(k & -> & Hlen)|[(k & -> & Hlen)|[-> Hlen]]].
  - destruct (crash_before_header s k Hok) as [H0 Hd].
    destruct (recover_empty_log _ (log_size s) _ H0 Hsz) as (r & Hr & Hrd).
    exists r. split; [done|]. intros b Hb. rewrite decide_False by lia. by rewrite Hrd, Hd.
  - set (d := apply_writes _ _).
    assert (Hh : header_blocks (d (log_start s)) = lh s).
    { apply (recovered_committed s k (log_start s - 1) Hok). lia. }
    eexists. split; [apply recover_eq; by rewrite Hh|]. intros b Hb.
    rewrite decide_True by lia. cbn [bio after_writes disk]. fold (recovered (log_start s) d).
    by apply (recovered_committed s k b Hok).
  - destruct (crash_after_clear s Hok) as [H0 Hd].
    destruct (recover_empty_log _ (log_size s) _ H0 Hsz) as (r & Hr & Hrd).
    exists r. split; [done|]. intros b Hb. rewrite decide_True by lia. by rewrite Hrd, Hd.
Qed.

(** C31: recovery may itself be interrupted: after a crash following any number of
    its writes, running it again gives every home block the same contents as an
    uninterrupted recovery. *)
Theorem recovery_crash_safe (st size : Z) (d : Z -> block) (s : log) (W' : list (Z * block)) :
  fits st size (header_blocks (d st)) -> bsize (d st) ->
  recover_from_log (boot_log st size d) = Done tt s -> W' `prefix_of` trace (bio s) ->
  exists r, recover_from_log (boot_log st size (apply_writes W' d)) = Done tt r /\
    forall b, ~ (st <= b < st + size) -> disk (bio r) b = disk (bio s) b.
Proof.
  intros Hf Hsz Hs Hpre. rewrite (recover_eq st size d Hf) in Hs. injection Hs as <-.
  cbn [bio after_writes disk trace app] in *. fold (recovered st d).
  set (bs := header_blocks (d st)) in *. destruct Hpre as [rest Hr].
  assert (HW' : W' = take (length W') (recover_writes st d)) by (rewrite Hr; by rewrite take_app_length).
  unfold recover_writes in HW'. fold bs in HW'. rewrite take_app in HW'.
  destruct (decide (length W' <= length (install_writes d (st + 1) bs))%nat) as [Hk|Hk].
  - replace (length W' - _)%nat with 0%nat in HW' by lia.
    rewrite take_0, app_nil_r, take_install_writes in HW'. rewrite HW'. set (d' := apply_writes _ d).
    assert (Hsub : forall x, x ∈ take (length W') bs -> x ∈ bs).
    { intros x Hx. by eapply elem_of_take in Hx as (? & ? & _); eapply list_elem_of_lookup_2. }
    assert (Hd' : forall x, x ∉ bs -> d' x = d x).
    { intros x Hx. apply apply_install_out. auto. }
    pose proof (fits_start _ _ _ Hf) as Hst.
    assert (Hh : header_blocks (d' st) = bs) by (rewrite Hd' by done; done).
    eexists. split; [apply recover_eq; by rewrite Hh|]. intros b Hb.
    cbn [bio after_writes disk]. fold (recovered st d').
    destruct (decide (b ∈ bs)) as [Hin|Hout].
    + apply list_elem_of_lookup in Hin as [i Hi].
      rewrite (recovered_installed st size d' bs i b Hh Hf Hi).
      rewrite (recovered_installed st size d bs i b eq_refl Hf Hi). apply Hd'.
      intros Hx. apply (fits_pos _ _ _ _ Hf Hx). apply lookup_lt_Some in Hi. lia.
    + assert (b <> st) by (intros ->; destruct Hf as (_ & _ & ? & _); lia).
      rewrite (recovered_other st d' bs b Hh), (recovered_other st d bs b) by done. by apply Hd'.
  - rewrite (take_ge (install_writes _ _ _)), take_ge in HW' by (cbn; lia). rewrite HW'.
    set (d' := apply_writes _ d).
    assert (H0 : header_n (d' st) = 0).
    { unfold d'. rewrite apply_writes_app, apply_writes_cons'. cbn [header_write fst snd].
      rewrite apply_writes_nil, updb_eq. by apply (header_of_words _ []); [|cbn; lia|constructor]. }
    eexists. split.
    + apply recover_eq. rewrite header_empty by done. split; [constructor|]. split; [cbn; lia|].
      split; [|set_solver]. destruct Hf as (_ & _ & ? & _). cbn. lia.
    + intros b Hb. cbn [bio after_writes disk]. fold (recovered st d').
      rewrite recovered_nothing; [done|done|]. intros ->. destruct Hf as (_ & _ & ? & _). lia.
Qed.

(** ** The log between operations *)

(** Steps of the file system calls: entering, modifying a home block inside a
    transaction, leaving (and, for the last one out, committing). *)
Inductive lstep (s t : log) : Prop :=
| step_begin : begin_op s = Done true t -> lstep s t
| step_write b d :
    0 <= b < 2 ^ 31 -> ~ (log_start s <= b < log_start s + log_size s) ->
    bind (bstore b d) (fun _ => log_write b) s = Done tt t -> lstep s t
| step_end : end_op s = Done tt t -> lstep s t.

Lemma log_ok_committed s :
  log_ok s -> lh s <> [] -> forall t, commit s = Done tt t -> log_ok t.
Proof.
  intros Hok Hne t Hc. pose proof (lo_fits s Hok) as Hf. rewrite commit_eq in Hc by done.
  injection Hc as <-. set (st := log_start s). set (v := view (bio s)).
  assert (Hst : forall g, apply_writes (commit_writes st v (lh s)) g st =
    wr32s (wr32s (v st) 0 (Z.of_nat (length (lh s)) :: lh s)) 0 [0]).
  { intros g. unfold commit_writes. rewrite apply_writes_app, apply_writes_cons', apply_writes_app,
      apply_writes_cons'. apply updb_eq. }
  assert (Hsz : bsize (wr32s (v st) 0 (Z.of_nat (length (lh s)) :: lh s))).
  { apply bsize_header; [by apply lo_size|]. destruct Hf as (_ & ? & _). cbn. lia. }
  split; cbn [lh set_lh log_start log_size bio set_bio after_writes view disk].
  - split; [constructor|]. split; [cbn; lia|]. split; [|set_solver].
    destruct Hf as (_ & _ & ? & _). cbn. lia.
  - rewrite Hst. apply bsize_header; [done|cbn; lia].
  - by rewrite !Hst.
  - rewrite Hst. by apply (header_of_words _ []); [|cbn; lia|constructor].
  - intros b Hb _. unfold set_pins. cbn [view disk].
    assert (Hw : forall ws, b ∈ ws.*1 \/ v b = disk (bio s) b ->
      apply_writes ws v b = apply_writes ws (disk (bio s)) b).
    { intros ws. generalize v (disk (bio s)). induction ws as [|[x y] ws IH]; intros f g.
      - intros [Hx|Hx]; [set_solver|done].
      - rewrite !apply_writes_cons. intros Hx. apply IH. updb_case; [by right|].
        destruct Hx as [Hx|Hx]; [|by right]. cbn in Hx. apply elem_of_cons in Hx as [?|?]; [done|by left]. }
    apply Hw. destruct (decide (b ∈ lh s)) as [Hin|Hout]; [left|right; by apply lo_clean].
    unfold commit_writes. rewrite fmap_app, fmap_cons, fmap_app, home_writes_fst. set_solver.
Qed.

Lemma log_ok_step s t : log_ok s -> lstep s t -> log_ok t.
Proof.
  intros Hok [Hb|b d Hr Hh Hw|He].
  - unfold begin_op in Hb. destruct (committing s); [done|]. case_match; [done|].
    injection Hb as <-. by destruct Hok.
  - unfold log_write, bind at 1, bstore, modify in Hw. rewrite !bind_gets in Hw.
    cbn [lh set_bio log_size outstanding] in Hw. case_match eqn:Hfull; [done|].
    case_match; [done|]. apply orb_false_iff in Hfull as [Hf1 Hf2].
    rewrite Z.geb_leb in Hf1, Hf2. apply Z.leb_gt in Hf1, Hf2.
    assert (Hbs : b <> log_start s).
    { intros ->. apply Hh. destruct (lo_fits s Hok) as (_ & _ & ? & _). lia. }
    destruct Hok as [Hf Hs Hv He Hc]. case_decide as Hin.
    + injection Hw as <-. split; cbn; rewrite ?updb_ne by done; try done.
      intros x Hx Hn. rewrite updb_ne; [by apply Hc|]. set_solver.
    + injection Hw as <-. split; cbn; rewrite ?updb_ne by done; try done.
      * destruct Hf as (Hnd & _ & _ & Hhome). unfold fits. rewrite length_app. cbn.
        change LOGSIZE with 30 in Hf1. split; [|split; [lia|split; [lia|]]].
        -- apply NoDup_app. split; [done|]. split; [set_solver|]. apply NoDup_singleton.
        -- intros x Hx. apply elem_of_app in Hx as [Hx|Hx]; [by apply Hhome|].
           apply list_elem_of_singleton in Hx as ->. done.
      * intros x Hx Hn. rewrite updb_ne; [apply Hc; set_solver|set_solver].
  - unfold end_op in He. rewrite bind_modify, bind_gets in He.
    destruct (committing _); [done|]. rewrite bind_gets in He. destruct (_ =? 0).
    + rewrite bind_modify in He. set (s1 := set_committing true _) in He.
      assert (Hok1 : log_ok s1) by (by destruct Hok).
      apply bind_Done_inv in He as ([] & s2 & Hc & He). injection He as <-.
      assert (Hok2 : log_ok s2); [|by destruct Hok2].
      destruct (decide (lh s1 = [])) as [Hnil|Hne]; [|by apply (log_ok_committed s1)].
      unfold commit in Hc. rewrite bind_gets, Hnil in Hc. cbn in Hc. by injection Hc as <-.
    + injection He as <-. by destruct Hok.
Qed.

Lemma log_ok_recovered st size d s :
  fits st size (header_blocks (d st)) -> bsize (d st) ->
  recover_from_log (boot_log st size d) = Done tt s -> log_ok s.
Proof.
  intros Hf Hsz Hs. rewrite (recover_eq st size d Hf) in Hs. injection Hs as <-.
  assert (Hst : apply_writes (recover_writes st d) d st = wr32s (d st) 0 [0]).
  { unfold recover_writes. rewrite apply_writes_app, apply_writes_cons'. apply updb_eq. }
  split; cbn [lh log_start log_size bio after_writes view disk]; rewrite ?Hst; try done.
  - split; [constructor|]. split; [cbn; lia|]. split; [|set_solver].
    destruct Hf as (_ & _ & ? & _). cbn. lia.
  - apply bsize_header; [done|cbn; lia].
Qed.

(** C6: from recovery at boot on, between any file system operations the log is
    in a state from which a commit is crash safe: the open transaction fits in
    the log and consists of distinct home blocks, the on-disk header is empty, and
    every block outside the transaction agrees with the disk. *)
Theorem log_ok_reachable (st size : Z) (d : Z -> block) (s t : log) :
  fits st size (header_blocks (d st)) -> bsize (d st) ->
  recover_from_log (boot_log st size d) = Done tt s -> rtc lstep s t -> log_ok t.
Proof.
  intros Hf Hsz Hs Hr. pose proof (log_ok_recovered _ _ _ _ Hf Hsz Hs) as Hok.
  clear -Hok Hr. induction Hr; eauto using log_ok_step.
Qed.

(** ** Log space *)

(** Write the given blocks in the current transaction. *)
Definition log_writes_op (bs : list Z) : M log unit := for_each log_write bs.

(** [begin_op] reserves one block more than the log can take.  With the on-disk
    log of [LOGSIZE] blocks that mkfs makes, three operations are admitted at
    once, each entitled to [MAXOPBLOCKS] blocks, but after 29 distinct blocks the
    thirtieth [log_write] panics, although no operation exceeded its share. *)
Theorem log_reservation_overcommits (st : Z) (d : Z -> block) :
  exists s, bind begin_op (fun a => bind begin_op (fun b => bind begin_op (fun c =>
      bind (log_writes_op (Z.of_nat <$> seq 100 10)) (fun _ =>
      bind (log_writes_op (Z.of_nat <$> seq 110 10)) (fun _ =>
      bind (log_writes_op (Z.of_nat <$> seq 120 9)) (fun _ => ret (a && b && c)))))))
      (boot_log st LOGSIZE d) = Done true s /\
    forall b, log_write b s = Panic "too big a transaction".
Proof.
  exists (mklog st LOGSIZE 3 false (Z.of_nat <$> seq 100 29)
    (mkbdev d d [] (rev (Z.of_nat <$> seq 100 29)))).
  split; [vm_compute; reflexivity|]. intros b. vm_compute. reflexivity.
Qed.

(** ** Concrete instances *)

Definition zero_disk : Z -> block := fun _ => replicate (Z.to_nat BSIZE) 0.
Definition one_block : block := replicate (Z.to_nat BSIZE) 1.

Lemma zero_disk_fits : fits 2 30 (header_blocks (zero_disk 2)).
Proof.
  rewrite header_empty by (vm_compute; reflexivity).
  split; [constructor|]. split; [cbn; lia|]. split; [cbn; lia|set_solver].
Qed.

(** A transaction that changes block 50. *)
Definition demo_log : log :=
  mklog 2 30 1 false [50] (mkbdev (updb zero_disk 50 one_block) zero_disk [] [50]).

Lemma demo_log_ok : log_ok demo_log.
Proof.
  split; [|vm_compute; reflexivity|reflexivity|vm_compute; reflexivity|].
  - split; [apply NoDup_singleton|]. split; [cbn; lia|]. split; [cbn; lia|].
    intros b Hb. apply list_elem_of_singleton in Hb as ->. cbn. lia.
  - intros b _ Hb. cbn. apply updb_ne. set_solver.
Qed.

(** A crash right after the header write recovers the new contents. *)
Lemma commit_crash_safe_witness :
  exists r, recover_from_log (boot_log 2 30 (apply_writes
      [(3, one_block); header_write 2 (zero_disk 2) [50]] zero_disk)) = Done tt r /\
    disk (bio r) 50 = one_block.
Proof.
  destruct (commit demo_log) as [[] s'|m] eqn:Hc.
  2:{ rewrite commit_eq in Hc by (apply demo_log_ok || done). discriminate. }
  assert (Htr : trace (bio s') = trace (bio demo_log) ++ commit_writes 2 (view (bio demo_log)) [50]).
  { rewrite commit_eq in Hc by (apply demo_log_ok || done). by injection Hc as <-. }
  destruct (commit_crash_safe demo_log s' _ [(3, one_block); header_write 2 (zero_disk 2) [50]]
    demo_log_ok ltac:(done) Hc Htr) as (r & H1 & H2).
  { exists [(50, one_block); header_write 2 (wr32s (zero_disk 2) 0 [1; 50]) []]. reflexivity. }
  exists r. split; [exact H1|]. rewrite (H2 50) by (cbn; lia). reflexivity.
Defined.

(** A disk with a committed transaction on blocks 50 and 60. *)
Definition two_block : block := replicate (Z.to_nat BSIZE) 2.
Definition logged_disk : Z -> block :=
  apply_writes [(3, one_block); (4, two_block); header_write 2 (zero_disk 2) [50; 60]] zero_disk.

Lemma logged_disk_header : header_blocks (logged_disk 2) = [50; 60].
Proof. vm_compute. reflexivity. Qed.
Lemma logged_disk_fits : fits 2 30 (header_blocks (logged_disk 2)).
Proof.
  rewrite logged_disk_header. split; [|split; [cbn; lia|split; [cbn; lia|]]].
  - apply NoDup_cons. split; [|apply NoDup_singleton]. intros H. apply list_elem_of_singleton in H. lia.
  - intros b Hb. apply list_elem_of_In in Hb as [<-|[<-|[]]]; lia.
Qed.

(** Recovery crashes after it installed the first of the two blocks. *)
Lemma recovery_crash_safe_witness :
  exists r, recover_from_log (boot_log 2 30 (apply_writes [(50, one_block)] logged_disk)) = Done tt r /\
    disk (bio r) 50 = one_block /\ disk (bio r) 60 = two_block.
Proof.
  destruct (recover_from_log (boot_log 2 30 logged_disk)) as [[] s|m] eqn:Hs.
  2:{ rewrite recover_eq in Hs by exact logged_disk_fits. discriminate. }
  assert (Hb : s = mklog 2 30 0 false [] (after_writes (recover_writes 2 logged_disk) (mkbdev logged_disk logged_disk [] []))).
  { rewrite recover_eq in Hs by exact logged_disk_fits. congruence. }
  destruct (recovery_crash_safe 2 30 logged_disk s [(50, one_block)] logged_disk_fits) as (r & H1 & H2);
    [vm_compute; reflexivity|exact Hs| |].
  { exists [(60, two_block); header_write 2 (logged_disk 2) []]. rewrite Hb. vm_compute. reflexivity. }
  exists r. split; [exact H1|]. rewrite (H2 50), (H2 60) by lia. rewrite Hb. split; vm_compute; reflexivity.
Defined.

Definition after {A} (c : M log A) (s : log) : log := match c s with Done _ t => t | Panic _ => s end.
Definition gives {A} (c : M log A) (s : log) : option A := match c s with Done a _ => Some a | Panic _ => None end.
Lemma after_Done {A} (c : M log A) s a : gives c s = Some a -> c s = Done a (after c s).
Proof. unfold gives, after. destruct (c s); congruence. Qed.

(** An operation that changes blocks 50 and 60 and commits. *)
Definition recovered_log : log := after recover_from_log (boot_log 2 30 zero_disk).
Definition begun_log : log := after begin_op recovered_log.
Definition written_log : log := after (bind (bstore 50 one_block) (fun _ => log_write 50)) begun_log.
Definition full_log : log := after (bind (bstore 60 two_block) (fun _ => log_write 60)) written_log.
Definition committed_log : log := after end_op full_log.

Lemma log_ok_reachable_witness :
  log_ok full_log /\ lh full_log = [50; 60] /\
  log_ok committed_log /\ disk (bio committed_log) 50 = one_block /\ disk (bio committed_log) 60 = two_block.
Proof.
  assert (H1 : rtc lstep recovered_log full_log).
  { eapply rtc_l; [apply (step_begin _ begun_log), after_Done; vm_compute; reflexivity|].
    eapply rtc_l; [apply (step_write _ written_log 50 one_block); [lia|vm_compute; intros [_ Hw]; discriminate Hw|apply after_Done; vm_compute; reflexivity]|].
    apply rtc_once, (step_write _ _ 60 two_block); [lia|vm_compute; intros [_ Hw]; discriminate Hw|apply after_Done; vm_compute; reflexivity]. }
  assert (H2 : rtc lstep recovered_log committed_log).
  { eapply rtc_r; [exact H1|]. apply (step_end full_log committed_log), (after_Done end_op full_log tt). vm_compute. reflexivity. }
  assert (H0 : recover_from_log (boot_log 2 30 zero_disk) = Done tt recovered_log) by (apply after_Done; vm_compute; reflexivity).
  assert (Hb : bsize (zero_disk 2)) by (vm_compute; reflexivity).
  split; [exact (log_ok_reachable 2 30 zero_disk _ _ zero_disk_fits Hb H0 H1)|].
  split; [vm_compute; reflexivity|].
  split; [exact (log_ok_reachable 2 30 zero_disk _ _ zero_disk_fits Hb H0 H2)|].
  split; vm_compute; reflexivity.
Defined.
