(* ===== verification/Bio.v ===== *)
(** * The buffer cache: [kernel/bio.c], with [kernel/sleeplock.c]

    The cache is the array of buffers and the recency list (most recent first),
    which abstracts the [prev]/[next] links.  Operations take the calling
    process's pid, for the sleep locks.  [acquiresleep] on a locked buffer makes
    the caller sleep, so [bread] answers [None] then, with the reference already
    taken.  The disk driver's [virtio_disk_rw] copies a whole block between the
    buffer and the [device], returning when the transfer is complete.

    Theorem: [bread] returns the current contents.  [BioUse.v] proves that the
    sleep lock gives exclusive access to the block. *)

From S2P Require Import Prelude Block.

Record sleeplock := mksleep { sl_locked : bool; sl_pid : Z }.

(** [struct buf] without the list links. *)
Record buf := mkbuf {
  valid : bool; bdevno : Z; blockno : Z; block_lock : sleeplock; refcnt : Z; data : block
}.

Record bcache := mkbcache {
  bufs : list buf;
  lru : list nat;                   (* head.next first *)
  device : Z -> Z -> block
}.
Abbreviation C := (M bcache).

(** ** Sleep locks *)

Definition initsleeplock : sleeplock := mksleep false 0.
(** One pass of the loop of [acquiresleep]: [None] when the caller sleeps. *)
Definition acquiresleep (me : Z) (lk : sleeplock) : option sleeplock :=
  if sl_locked lk then None else Some (mksleep true me).
Definition releasesleep (lk : sleeplock) : sleeplock := mksleep false 0.
Definition holdingsleep (me : Z) (lk : sleeplock) : bool := sl_locked lk && (sl_pid lk =? me).

(** ** Buffers *)

Definition set_refcnt (v : Z) (b : buf) : buf :=
  mkbuf (valid b) (bdevno b) (blockno b) (block_lock b) v (data b).
Definition set_lock (v : sleeplock) (b : buf) : buf :=
  mkbuf (valid b) (bdevno b) (blockno b) v (refcnt b) (data b).
Definition set_data (v : block) (b : buf) : buf :=
  mkbuf (valid b) (bdevno b) (blockno b) (block_lock b) (refcnt b) v.

Definition getb (i : nat) : C buf := fun s =>
  match bufs s !! i with Some b => Done b s | None => Panic "kerneltrap" end.
Definition putb (i : nat) (b : buf) : C unit :=
  modify (fun s => mkbcache (<[i := b]> (bufs s)) (lru s) (device s)).

Definition buf0 : buf := mkbuf false 0 0 initsleeplock 0 [].

(** [binit] pushes every buffer at the head of the list. *)
Definition binit (dev : Z -> Z -> block) : bcache :=
  mkbcache (replicate NBUF buf0) (foldl (fun l i => i :: l) [] (seq 0 NBUF)) dev.

(** The first buffer along [l] that satisfies [P]. *)
Fixpoint find_buf (P : buf -> bool) (bs : list buf) (l : list nat) : option nat :=
  match l with
  | [] => None
  | i :: l' =>
      match bs !! i with
      | Some b => if P b then Some i else find_buf P bs l'
      | None => find_buf P bs l'
      end
  end.

Definition is_block (dev bno : Z) (b : buf) : bool := (bdevno b =? dev) && (blockno b =? bno).

(** [bget] up to its [acquiresleep]. *)
Definition bget (dev bno : Z) : C nat := fun s =>
  match find_buf (is_block dev bno) (bufs s) (lru s) with
  | Some i => (let! b := getb i in putb i (set_refcnt (u32 (refcnt b + 1)) b) ;; ret i) s
  | None =>
      match find_buf (fun b => refcnt b =? 0) (bufs s) (rev (lru s)) with
      | Some i =>
          (let! b := getb i in
           putb i (mkbuf false dev bno (block_lock b) 1 (data b)) ;; ret i) s
      | None => Panic "bget: no buffers"
      end
  end.

(** Lock the buffer ([None]: asleep). *)
Definition block_acquire (me : Z) (i : nat) : C (option nat) :=
  let! b := getb i in
  match acquiresleep me (block_lock b) with
  | None => ret None
  | Some lk => putb i (set_lock lk b) ;; ret (Some i)
  end.

(** [virtio_disk_rw(b, 0)] and [virtio_disk_rw(b, 1)]. *)
Definition disk_read (i : nat) : C unit :=
  let! b := getb i in
  let! dv := gets device in
  putb i (set_data (dv (bdevno b) (blockno b)) b).
Definition disk_write (i : nat) : C unit :=
  let! b := getb i in
  modify (fun s => mkbcache (bufs s) (lru s)
    (fun dv n => if (dv =? bdevno b) && (n =? blockno b) then data b else device s dv n)).

(** [bread] from the point where it holds the buffer's lock. *)
Definition bread_locked (i : nat) : C unit :=
  let! b := getb i in
  if valid b then ret tt
  else
    disk_read i ;;
    let! b := getb i in
    putb i (mkbuf true (bdevno b) (blockno b) (block_lock b) (refcnt b) (data b)).

Definition bread (me dev bno : Z) : C (option nat) :=
  let! i := bget dev bno in
  let! r := block_acquire me i in
  match r with
  | None => ret None
  | Some i => bread_locked i ;; ret (Some i)
  end.

Definition bwrite (me : Z) (i : nat) : C unit :=
  let! b := getb i in
  if holdingsleep me (block_lock b) then disk_write i else panic "bwrite".

(** [brelse]: the sleep lock first, then the reference, under [bcache.lock]. *)
Definition brelse_unlock (me : Z) (i : nat) : C unit :=
  let! b := getb i in
  if holdingsleep me (block_lock b) then putb i (set_lock (releasesleep (block_lock b)) b) else panic "brelse".
Definition brelse_unref (i : nat) : C unit :=
  let! b := getb i in
  let b' := set_refcnt (u32 (refcnt b - 1)) b in
  putb i b' ;;
  when (refcnt b' =? 0)
    (modify (fun s => mkbcache (bufs s) (i :: filter (fun j => j <> i) (lru s)) (device s))).
Definition brelse (me : Z) (i : nat) : C unit := brelse_unlock me i ;; brelse_unref i.

Definition bpin (i : nat) : C unit :=
  let! b := getb i in putb i (set_refcnt (u32 (refcnt b + 1)) b).
Definition bunpin (i : nat) : C unit :=
  let! b := getb i in putb i (set_refcnt (u32 (refcnt b - 1)) b).

(** The holder stores into the buffer. *)
Definition bmodify (me : Z) (i : nat) (d : block) : C unit :=
  let! b := getb i in putb i (set_data d b).

(** ** The invariant *)

(** The contents of a block as the kernel sees it. *)
Definition view (s : bcache) (dev bno : Z) : block :=
  match list_find (fun b => is_block dev bno b && valid b = true) (bufs s) with
  | Some (_, b) => data b
  | None => device s dev bno
  end.

Record cache_ok (s : bcache) : Prop := {
  co_len : length (bufs s) = NBUF;
  co_lru : forall i, (i < NBUF)%nat -> i ∈ lru s;
  co_unique i j b c : bufs s !! i = Some b -> bufs s !! j = Some c ->
    bdevno b <> 0 -> bdevno b = bdevno c -> blockno b = blockno c -> i = j;
  co_range i b : bufs s !! i = Some b -> 0 <= refcnt b < 2 ^ 32;
  co_locked i b : bufs s !! i = Some b -> sl_locked (block_lock b) = true -> 0 < refcnt b;
  co_clean i b : bufs s !! i = Some b -> refcnt b = 0 -> valid b = true -> bdevno b <> 0 ->
    data b = device s (bdevno b) (blockno b)
}.

Lemma getb_Done i b s : bufs s !! i = Some b -> getb i s = Done b s.
Proof. intros H. unfold getb. by rewrite H. Qed.

Lemma getb_inv i s b t : getb i s = Done b t -> bufs s !! i = Some b /\ t = s.
Proof. unfold getb. destruct (bufs s !! i); naive_solver. Qed.

Lemma find_buf_Some P bs l i : find_buf P bs l = Some i ->
  i ∈ l /\ exists b, bs !! i = Some b /\ P b = true.
Proof.
  induction l as [|j l IH]; cbn; [done|]. intros H.
  destruct (bs !! j) as [b|] eqn:Hb.
  - destruct (P b) eqn:HP; [injection H as <-; split; [set_solver|eauto]|].
    destruct (IH H). split; [set_solver|done].
  - destruct (IH H). split; [set_solver|done].
Qed.

Lemma find_buf_None P bs l i b :
  find_buf P bs l = None -> i ∈ l -> bs !! i = Some b -> P b = false.
Proof.
  induction l as [|j l IH]; cbn; [set_solver|]. intros H Hi Hb.
  apply elem_of_cons in Hi as [<-|Hi].
  - rewrite Hb in H. by destruct (P b).
  - destruct (bs !! j) as [c|]; [destruct (P c); [done|]|]; by apply IH.
Qed.

Lemma is_block_true dev bno b :
  is_block dev bno b = true <-> bdevno b = dev /\ blockno b = bno.
Proof. unfold is_block. rewrite andb_true_iff, !Z.eqb_eq. done. Qed.

(** [view] by cases, thanks to uniqueness. *)
Lemma view_cached s dev bno i b :
  cache_ok s -> dev <> 0 -> bufs s !! i = Some b -> is_block dev bno b = true ->
  valid b = true -> view s dev bno = data b.
Proof.
  intros Hok Hd Hi Hb Hv. unfold view.
  destruct (list_find _ (bufs s)) as [[j c]|] eqn:Hf.
  - apply list_find_Some in Hf as (Hj & Hc & _). apply andb_true_iff in Hc as [Hc _].
    apply is_block_true in Hb as [? ?], Hc as [? ?].
    assert (i = j) by (apply (co_unique s Hok i j b c); congruence). congruence.
  - apply list_find_None in Hf. rewrite Forall_lookup in Hf.
    exfalso. apply (Hf i b Hi). by rewrite Hb, Hv.
Qed.

Lemma view_uncached s dev bno :
  (forall i b, bufs s !! i = Some b -> is_block dev bno b = true -> valid b = false) ->
  view s dev bno = device s dev bno.
Proof.
  intros H. unfold view. destruct (list_find _ (bufs s)) as [[j c]|] eqn:Hf; [|done].
  apply list_find_Some in Hf as (Hj & Hc & _). apply andb_true_iff in Hc as [Hc Hv].
  by rewrite (H j c Hj Hc) in Hv.
Qed.

(** An update of one buffer that keeps its block and validity rules. *)
Lemma cache_ok_put s i b b' :
  cache_ok s -> bufs s !! i = Some b ->
  bdevno b' = bdevno b -> blockno b' = blockno b -> 0 <= refcnt b' < 2 ^ 32 ->
  (sl_locked (block_lock b') = true -> 0 < refcnt b') ->
  (refcnt b' = 0 -> valid b' = true -> bdevno b' <> 0 ->
     data b' = device s (bdevno b') (blockno b')) ->
  cache_ok (mkbcache (<[i := b']> (bufs s)) (lru s) (device s)).
Proof.
  intros Hok Hi Hd Hn Hr Hl Hc. pose proof (lookup_lt_Some _ _ _ Hi) as Hlt.
  assert (Hslot : forall j c, <[i := b']> (bufs s) !! j = Some c ->
    (j = i /\ c = b') \/ (j <> i /\ bufs s !! j = Some c)).
  { intros j c. destruct (decide (j = i)) as [->|Hne].
    - rewrite list_lookup_insert_eq by done. naive_solver.
    - rewrite list_lookup_insert_ne by done. naive_solver. }
  split; cbn [bufs lru device].
  - rewrite length_insert. exact (co_len s Hok).
  - exact (co_lru s Hok).
  - intros j k c e Hj Hk. destruct (Hslot j c Hj) as [[-> ->]|[Hji Hj']], (Hslot k e Hk) as [[-> ->]|[Hki Hk']];
      intros; [done| | |by apply (co_unique s Hok j k c e)].
    + exfalso. apply Hki. symmetry. apply (co_unique s Hok i k b e); congruence.
    + exfalso. apply Hji. apply (co_unique s Hok j i c b); congruence.
  - intros j c Hj. destruct (Hslot j c Hj) as [[-> ->]|[_ Hj']]; [done|by apply (co_range s Hok j)].
  - intros j c Hj. destruct (Hslot j c Hj) as [[-> ->]|[_ Hj']]; [done|by apply (co_locked s Hok j)].
  - intros j c Hj. destruct (Hslot j c Hj) as [[-> ->]|[_ Hj']]; [done|by apply (co_clean s Hok j)].
Qed.

(** An update of one buffer that keeps its block, validity and data keeps [view]. *)
Lemma view_put s i b b' dev bno :
  cache_ok s -> dev <> 0 -> bufs s !! i = Some b ->
  bdevno b' = bdevno b -> blockno b' = blockno b -> valid b' = valid b -> data b' = data b ->
  cache_ok (mkbcache (<[i := b']> (bufs s)) (lru s) (device s)) ->
  view (mkbcache (<[i := b']> (bufs s)) (lru s) (device s)) dev bno = view s dev bno.
Proof.
  intros Hok Hd Hi Hbd Hbn Hv Hda Hok'. set (s' := mkbcache _ _ _) in *.
  assert (Hib : is_block dev bno b' = is_block dev bno b) by (unfold is_block; congruence).
  destruct (list_find (fun b => is_block dev bno b && valid b = true) (bufs s)) as [[j c]|] eqn:Hf.
  - apply list_find_Some in Hf as (Hj & Hc & _). apply andb_true_iff in Hc as [Hc Hcv].
    rewrite (view_cached s dev bno j c) by done.
    destruct (decide (j = i)) as [->|Hne].
    + assert (c = b) as -> by congruence. rewrite <- Hda.
      apply (view_cached s' dev bno i b'); [done|done| |congruence|congruence].
      apply list_lookup_insert_eq. by eapply lookup_lt_Some.
    + apply (view_cached s' dev bno j c); [done|done| |done|done].
      cbn. by rewrite list_lookup_insert_ne.
  - rewrite !view_uncached; [done| |].
    + intros j c Hj Hc. apply list_find_None in Hf. rewrite Forall_lookup in Hf.
      specialize (Hf j c Hj). cbn in Hf. rewrite Hc in Hf. by destruct (valid c).
    + intros j c Hj Hc. cbn [bufs s'] in Hj. apply list_find_None in Hf. rewrite Forall_lookup in Hf.
      destruct (decide (j = i)) as [->|Hne].
      * rewrite list_lookup_insert_eq in Hj by (by eapply lookup_lt_Some). injection Hj as <-.
        specialize (Hf i b Hi). cbn in Hf. rewrite Hib in Hc. rewrite Hc in Hf. rewrite Hv. by destruct (valid b).
      * rewrite list_lookup_insert_ne in Hj by done. specialize (Hf j c Hj). cbn in Hf.
        rewrite Hc in Hf. by destruct (valid c).
Qed.

(** No valid buffer for a block: neither found by [list_find]. *)
Lemma find_valid_None dev bno bs :
  list_find (fun b => is_block dev bno b && valid b = true) bs = None ->
  forall i b, bs !! i = Some b -> is_block dev bno b = true -> valid b = false.
Proof.
  intros Hl i b Hi Hb. apply list_find_None in Hl. rewrite Forall_lookup in Hl.
  specialize (Hl i b Hi). cbn in Hl. rewrite Hb in Hl. by destruct (valid b).
Qed.

(** Giving the unused buffer [j] to the uncached block [dev], [bno]. *)
Section Recycle.
Context (s : bcache) (dev bno : Z) (j : nat) (b b' : buf).
Context (Hok : cache_ok s) (Hd : dev <> 0) (Hj : bufs s !! j = Some b) (Hb : refcnt b = 0).
Context (Hnone : forall k c, bufs s !! k = Some c -> is_block dev bno c = false).
Context (Hnew : bdevno b' = dev /\ blockno b' = bno /\ valid b' = false /\ refcnt b' = 1).
Let s' := mkbcache (<[j := b']> (bufs s)) (lru s) (device s).

Lemma recycle_slot k c : bufs s' !! k = Some c ->
  (k = j /\ c = b') \/ (k <> j /\ bufs s !! k = Some c).
Proof.
  pose proof (lookup_lt_Some _ _ _ Hj). unfold s'. cbn [bufs]. destruct (decide (k = j)) as [->|Hne].
  - rewrite list_lookup_insert_eq by done. naive_solver.
  - rewrite list_lookup_insert_ne by done. naive_solver.
Qed.

Lemma recycle_fresh k c : bufs s !! k = Some c -> ~ (bdevno b' = bdevno c /\ blockno b' = blockno c).
Proof.
  intros Hk [E1 E2]. specialize (Hnone k c Hk). destruct Hnew as (<- & <- & _).
  unfold is_block in Hnone. rewrite E1, E2, !Z.eqb_refl in Hnone. done.
Qed.

Lemma cache_ok_recycle : cache_ok s'.
Proof.
  destruct Hnew as (_ & _ & Hv & Hr).
  split; unfold s' in *.
  - cbn [bufs]. rewrite length_insert. exact (co_len s Hok).
  - exact (co_lru s Hok).
  - intros k l c e Hk Hl.
    destruct (recycle_slot k c Hk) as [[-> ->]|[? Hk']], (recycle_slot l e Hl) as [[-> ->]|[? Hl']];
      intros; [done| | |by apply (co_unique s Hok k l c e)].
    + exfalso. by apply (recycle_fresh l e Hl').
    + exfalso. by apply (recycle_fresh k c Hk').
  - intros k c Hk. destruct (recycle_slot k c Hk) as [[-> ->]|[_ Hk']]; [lia|by apply (co_range s Hok k)].
  - intros k c Hk. destruct (recycle_slot k c Hk) as [[-> ->]|[_ Hk']]; [lia|by apply (co_locked s Hok k)].
  - intros k c Hk. destruct (recycle_slot k c Hk) as [[-> ->]|[_ Hk']]; [lia|by apply (co_clean s Hok k)].
Qed.

Lemma view_recycle d n : d <> 0 -> view s' d n = view s d n.
Proof.
  intros Hdn. pose proof cache_ok_recycle as Hok'. destruct Hnew as (_ & _ & Hv & _).
  destruct (list_find (fun b => is_block d n b && valid b = true) (bufs s)) as [[k c]|] eqn:Hl.
  - apply list_find_Some in Hl as (Hk & Hc & _). apply andb_true_iff in Hc as [Hc Hcv].
    rewrite (view_cached s d n k c) by done. destruct (decide (k = j)) as [->|Hne].
    + assert (c = b) as -> by congruence. apply is_block_true in Hc as [<- <-].
      rewrite (co_clean s Hok j b) by done. etransitivity; [apply view_uncached|done].
      intros k c Hk' Hc'. destruct (recycle_slot k c Hk') as [[-> ->]|[Hkj Hk'']]; [done|].
      exfalso. apply Hkj. apply is_block_true in Hc' as [? ?].
      apply (co_unique s Hok k j c b); congruence.
    + apply (view_cached _ d n k c); [done|done| |done|done].
      unfold s'. cbn [bufs]. by rewrite list_lookup_insert_ne.
  - rewrite (view_uncached s) by (by apply find_valid_None).
    etransitivity; [apply view_uncached|done].
    intros k c Hk Hc. destruct (recycle_slot k c Hk) as [[-> ->]|[_ Hk']]; [done|].
    by apply (find_valid_None _ _ _ Hl k c).
Qed.
End Recycle.

(** References do not overflow: there are far fewer than [2^32] holders. *)
Definition few_refs (s : bcache) : Prop :=
  forall i b, bufs s !! i = Some b -> refcnt b < 2 ^ 32 - 1.

(** [bget]: a referenced buffer for the block, with all contents unchanged. *)
Lemma bget_inv s dev bno i t :
  cache_ok s -> few_refs s -> dev <> 0 -> bget dev bno s = Done i t ->
  cache_ok t /\ device t = device s /\
  (forall d n, d <> 0 -> view t d n = view s d n) /\
  exists b, bufs t !! i = Some b /\ is_block dev bno b = true /\ 0 < refcnt b.
Proof.
  intros Hok Hfew Hd H. unfold bget in H.
  destruct (find_buf (is_block dev bno) (bufs s) (lru s)) as [j|] eqn:Hf.
  - apply find_buf_Some in Hf as (_ & b & Hj & Hb).
    rewrite (bind_Done _ _ _ _ _ (getb_Done _ _ _ Hj)) in H. unfold putb in H.
    rewrite bind_modify in H. injection H as <- <-.
    pose proof (co_range s Hok j b Hj). pose proof (Hfew j b Hj).
    assert (Hu : u32 (refcnt b + 1) = refcnt b + 1) by (apply u32_small; lia). rewrite Hu.
    set (b' := set_refcnt _ b).
    assert (Hok' : cache_ok (mkbcache (<[j := b']> (bufs s)) (lru s) (device s))).
    { apply (cache_ok_put s j b b'); try done; cbn; lia. }
    split; [done|]. split; [done|]. split.
    + intros d n Hdn. by apply (view_put s j b b').
    + exists b'. split; [apply list_lookup_insert_eq; by eapply lookup_lt_Some|].
      split; [done|cbn; lia].
  - destruct (find_buf (fun b => refcnt b =? 0) (bufs s) (rev (lru s))) as [j|] eqn:Hf2; [|done].
    apply find_buf_Some in Hf2 as (_ & b & Hj & Hb). apply Z.eqb_eq in Hb.
    rewrite (bind_Done _ _ _ _ _ (getb_Done _ _ _ Hj)) in H. unfold putb in H.
    rewrite bind_modify in H. injection H as <- <-.
    assert (Hnone : forall k c, bufs s !! k = Some c -> is_block dev bno c = false).
    { intros k c Hk. apply (find_buf_None _ _ _ k c Hf); [|done]. apply co_lru; [done|].
      rewrite <- (co_len s Hok). by eapply lookup_lt_Some. }
    split; [by apply (cache_ok_recycle s dev bno j b)|]. split; [done|].
    split; [by apply (view_recycle s dev bno j b)|].
    eexists. split; [apply list_lookup_insert_eq; by eapply lookup_lt_Some|].
    split; [|cbn; lia]. unfold is_block. cbn. by rewrite !Z.eqb_refl.
Qed.

(** Locking keeps everything but the lock. *)
Lemma block_acquire_inv s me i b r t :
  cache_ok s -> bufs s !! i = Some b -> 0 < refcnt b -> block_acquire me i s = Done r t ->
  cache_ok t /\ device t = device s /\ (forall d n, d <> 0 -> view t d n = view s d n) /\
  match r with
  | None => t = s /\ sl_locked (block_lock b) = true
  | Some j => j = i /\ sl_locked (block_lock b) = false /\
      bufs t !! i = Some (set_lock (mksleep true me) b)
  end.
Proof.
  intros Hok Hi Hr H. unfold block_acquire in H.
  rewrite (bind_Done _ _ _ _ _ (getb_Done _ _ _ Hi)) in H. unfold acquiresleep in H.
  destruct (sl_locked (block_lock b)) eqn:Hl; [by injection H as <- <-|].
  unfold putb in H. rewrite bind_modify in H. injection H as <- <-.
  assert (Hok' : cache_ok (mkbcache (<[i := set_lock (mksleep true me) b]> (bufs s)) (lru s) (device s))).
  { apply (cache_ok_put s i b); try done; [exact (co_range s Hok i b Hi)|].
    exact (co_clean s Hok i b Hi). }
  split; [done|]. split; [done|]. split.
  - intros d n Hd. by apply (view_put s i b).
  - split; [done|]. split; [done|]. apply list_lookup_insert_eq. by eapply lookup_lt_Some.
Qed.

(** Filling an invalid buffer from the device does not change contents. *)
Lemma bread_locked_inv s i b u t :
  cache_ok s -> bufs s !! i = Some b -> bdevno b <> 0 -> bread_locked i s = Done u t ->
  cache_ok t /\ device t = device s /\ (forall d n, d <> 0 -> view t d n = view s d n) /\
  exists b', bufs t !! i = Some b' /\ valid b' = true /\ bdevno b' = bdevno b /\
    blockno b' = blockno b /\ block_lock b' = block_lock b /\ refcnt b' = refcnt b.
Proof.
  intros Hok Hi Hd H. unfold bread_locked in H.
  rewrite (bind_Done _ _ _ _ _ (getb_Done _ _ _ Hi)) in H.
  pose proof (lookup_lt_Some _ _ _ Hi) as Hlt.
  destruct (valid b) eqn:Hv; [injection H as _ <-; split; [done|]; split; [done|]; split; [done|];
    by exists b|].
  unfold disk_read, putb in H. rewrite bind_assoc in H.
  rewrite (bind_Done _ _ _ _ _ (getb_Done _ _ _ Hi)) in H. rewrite bind_assoc, bind_gets, bind_modify in H.
  erewrite bind_Done in H by (apply getb_Done; cbn [bufs]; by apply list_lookup_insert_eq).
  unfold modify in H. injection H as _ <-. cbn [bufs lru device]. rewrite list_insert_insert_eq.
  set (b' := mkbuf true _ _ _ _ _).
  assert (Hok' : cache_ok (mkbcache (<[i := b']> (bufs s)) (lru s) (device s))).
  { apply (cache_ok_put s i b b'); try done; [exact (co_range s Hok i b Hi)|].
    exact (co_locked s Hok i b Hi). }
  split; [done|]. split; [done|]. split.
  - intros d n Hdn. destruct (is_block d n b) eqn:Hb.
    + apply is_block_true in Hb as [<- <-].
      rewrite (view_cached _ _ _ i b'); [|done|done|cbn; by apply list_lookup_insert_eq
        |by apply is_block_true|done].
      cbn [data b' set_data]. symmetry. apply view_uncached. intros k c Hk Hc.
      apply is_block_true in Hc as [? ?].
      assert (k = i) as -> by (apply (co_unique s Hok k i c b); congruence). congruence.
    + destruct (list_find (fun b => is_block d n b && valid b = true) (bufs s)) as [[k c]|] eqn:Hl.
      * apply list_find_Some in Hl as (Hk & Hc & _). apply andb_true_iff in Hc as [Hc Hcv].
        assert (k <> i) by congruence.
        rewrite (view_cached s d n k c) by done. apply (view_cached _ d n k c); [done|done| |done|done].
        cbn. by rewrite list_lookup_insert_ne.
      * rewrite (view_uncached s) by (by apply find_valid_None).
        etransitivity; [apply view_uncached|done]. cbn [bufs]. intros k c Hk Hc.
        destruct (decide (k = i)) as [->|Hne].
        -- rewrite list_lookup_insert_eq in Hk by done. injection Hk as <-.
           unfold is_block in *. cbn in Hc. congruence.
        -- rewrite list_lookup_insert_ne in Hk by done. by apply (find_valid_None _ _ _ Hl k c).
  - exists b'. split; [by apply list_lookup_insert_eq|]. done.
Qed.

(** [bread] returns a buffer locked by the caller that holds the current
    contents of the block (the cached copy if there is one, else the disk's);
    whether it hits, recycles a buffer, reads the disk or has to sleep, no
    block's contents change and the cache invariant is kept. *)
Theorem bread_current (me dev bno : Z) (s t : bcache) (r : option nat) :
  cache_ok s -> few_refs s -> dev <> 0 -> bread me dev bno s = Done r t ->
  cache_ok t /\ (forall d n, d <> 0 -> view t d n = view s d n) /\
  match r with
  | Some i => exists b, bufs t !! i = Some b /\ bdevno b = dev /\ blockno b = bno /\
      block_lock b = mksleep true me /\ valid b = true /\ data b = view s dev bno
  | None => exists i b, bufs t !! i = Some b /\ bdevno b = dev /\ blockno b = bno /\
      sl_locked (block_lock b) = true /\ 0 < refcnt b
  end.
Proof.
  intros Hok Hfew Hd H. unfold bread in H.
  apply bind_Done_inv in H as (i & s1 & H1 & H).
  apply bget_inv in H1 as (Hok1 & _ & Hv1 & b & Hi & Hb & Hr); [|done..].
  apply bind_Done_inv in H as (r2 & s2 & H2 & H).
  apply (block_acquire_inv s1 me i b) in H2 as (Hok2 & _ & Hv2 & Hr2); [|done..].
  pose proof Hb as [Hbd Hbn]%is_block_true.
  destruct r2 as [j|].
  - destruct Hr2 as (-> & _ & Hi2). apply bind_Done_inv in H as ([] & s3 & H3 & H).
    injection H as <- <-.
    apply (bread_locked_inv s2 i (set_lock (mksleep true me) b)) in H3
      as (Hok3 & _ & Hv3 & b' & Hi3 & Hval & Hbd' & Hbn' & Hlk & _); [|done|done|by cbn; congruence].
    cbn in Hbd', Hbn', Hlk. split; [done|]. split; [intros; rewrite Hv3, Hv2, Hv1; done|].
    exists b'. split; [done|]. split; [congruence|]. split; [congruence|]. split; [done|].
    split; [done|]. rewrite <- Hv1, <- Hv2, <- Hv3 by done. symmetry.
    apply (view_cached s3 dev bno i b'); [done|done|done| |done]. apply is_block_true. split; congruence.
  - destruct Hr2 as [-> Hl]. injection H as <- <-. split; [done|]. split; [done|].
    by exists i, b.
Qed.

Lemma binit_ok dev : cache_ok (binit dev).
Proof.
  assert (Hz : forall i b, bufs (binit dev) !! i = Some b -> b = buf0).
  { intros i b Hi. by apply lookup_replicate in Hi as [-> _]. }
  split.
  - exact (length_replicate NBUF buf0).
  - intros i Hi. cbn [lru binit].
    assert (Hl : forall l acc, i ∈ l \/ i ∈ acc -> i ∈ foldl (fun l i => i :: l) acc l).
    { induction l as [|x l IH]; intros acc Hin; cbn; [set_solver|]. apply IH. set_solver. }
    apply Hl. left. apply elem_of_seq. lia.
  - intros i j b c Hi _ Hd. by rewrite (Hz i b Hi) in Hd.
  - intros i b Hi. rewrite (Hz i b Hi). cbn. lia.
  - intros i b Hi. by rewrite (Hz i b Hi).
  - intros i b Hi _ _ Hd. by rewrite (Hz i b Hi) in Hd.
Qed.

(** ** Concrete instances *)

Definition demo_dev : Z -> Z -> block := fun _ n => [n].
Definition demo_read : result bcache (option nat) := bread 7 1 45 (binit demo_dev).
Definition demo_cache : bcache :=
  match demo_read with Done _ s => s | Panic _ => binit demo_dev end.

Lemma binit_few dev : few_refs (binit dev).
Proof. intros i b Hi. apply lookup_replicate in Hi as [-> _]. cbn. lia. Qed.

Lemma bread_current_witness :
  exists b, bufs demo_cache !! 0%nat = Some b /\ data b = [45] /\ block_lock b = mksleep true 7.
Proof.
  destruct (bread_current 7 1 45 (binit demo_dev) demo_cache (Some 0%nat) (binit_ok demo_dev)
    (binit_few demo_dev)) as (_ & _ & b & Hb & _ & _ & Hl & _ & Hd);
    [lia|vm_compute; reflexivity|].
  exists b. split; [exact Hb|]. split; [|exact Hl]. rewrite Hd. vm_compute. reflexivity.
Defined.
