(* ===== verification/BioUse.v ===== *)
(** * Processes that use the buffer cache

    A process has a [handle] on a buffer from the [bget] that took its reference
    to the [brelse] that gives it back; the phase of the handle says how far it is: waiting for the
    sleep lock, holding it while the buffer may still have to be read, using the buffer between [bread]
    and [brelse], or having unlocked it.  [pins] are the references of [bpin].  A step is one atomic part of an operation,
    called by a process that has the handle (or the pin) it needs, interleaved in any way.  [latest] remembers the last value stored in
    a block since its buffer was last recycled; it is not part of the program.

    Theorem: no two processes hold the buffer of the same block; a handle's buffer is never recycled for another
    block; [refcnt] counts handles and pins; a process that uses a buffer sees the last value stored in the
    block, or the disk's, and can write and release it. *)

From S2P Require Import Prelude Block Bio.

Inductive phase := Waiting | Filling | Using | Leaving.
#[export] Instance phase_eq_dec : EqDecision phase.
Proof. solve_decision. Defined.

Record handle := mkhandle { h_pid : Z; h_buf : nat; h_dev : Z; h_bno : Z; h_phase : phase }.
Definition in_phase (ph : phase) (h : handle) : handle := mkhandle (h_pid h) (h_buf h) (h_dev h) (h_bno h) ph.

Record use := mkuse {
  cache : bcache;
  handles : list handle;
  pins : list nat;
  latest : Z -> Z -> option block
}.

(** The sleep lock belongs to handles in these phases. *)
Definition holds (h : handle) : bool := bool_decide (h_phase h = Filling \/ h_phase h = Using).

(** References to buffer [i]. *)
Fixpoint handle_refs (i : nat) (l : list handle) : Z :=
  match l with [] => 0 | h :: l' => (if decide (h_buf h = i) then 1 else 0) + handle_refs i l' end.
Fixpoint pin_refs (i : nat) (l : list nat) : Z :=
  match l with [] => 0 | j :: l' => (if decide (j = i) then 1 else 0) + pin_refs i l' end.

(** The counter has 32 bits. *)
Definition few (s : use) : Prop := Z.of_nat (length (handles s) + length (pins s)) < 2 ^ 32 - 1.

(** What the kernel regards as the contents of a block. *)
Definition contents (s : use) (dev bno : Z) : block := default (device (cache s) dev bno) (latest s dev bno).

Definition remember (dev bno : Z) (o : option block) (f : Z -> Z -> option block) : Z -> Z -> option block :=
  fun d n => if (d =? dev) && (n =? bno) then o else f d n.

(** [bget] gave buffer [i] to the block [dev], [bno]: what was stored in another block it held is forgotten. *)
Definition recycled (s : use) (i : nat) (dev bno : Z) : Z -> Z -> option block :=
  match bufs (cache s) !! i with
  | Some b => if is_block dev bno b then latest s else remember (bdevno b) (blockno b) None (latest s)
  | None => latest s
  end.

Inductive ustep (s : use) : use -> Prop :=
| u_bget me dev bno i c :
    dev <> 0 -> few s -> bget dev bno (cache s) = Done i c ->
    ustep s (mkuse c (mkhandle me i dev bno Waiting :: handles s) (pins s) (recycled s i dev bno))
| u_lock hs1 h hs2 i c :
    handles s = hs1 ++ h :: hs2 -> h_phase h = Waiting -> block_acquire (h_pid h) (h_buf h) (cache s) = Done (Some i) c ->
    ustep s (mkuse c (hs1 ++ in_phase Filling h :: hs2) (pins s) (latest s))
| u_fill hs1 h hs2 c :
    handles s = hs1 ++ h :: hs2 -> h_phase h = Filling -> bread_locked (h_buf h) (cache s) = Done tt c ->
    ustep s (mkuse c (hs1 ++ in_phase Using h :: hs2) (pins s) (latest s))
| u_modify h d c :
    h ∈ handles s -> h_phase h = Using -> bmodify (h_pid h) (h_buf h) d (cache s) = Done tt c ->
    ustep s (mkuse c (handles s) (pins s) (remember (h_dev h) (h_bno h) (Some d) (latest s)))
| u_bwrite h c :
    h ∈ handles s -> h_phase h = Using -> bwrite (h_pid h) (h_buf h) (cache s) = Done tt c ->
    ustep s (mkuse c (handles s) (pins s) (latest s))
| u_unlock hs1 h hs2 c :
    handles s = hs1 ++ h :: hs2 -> h_phase h = Using -> brelse_unlock (h_pid h) (h_buf h) (cache s) = Done tt c ->
    ustep s (mkuse c (hs1 ++ in_phase Leaving h :: hs2) (pins s) (latest s))
| u_unref hs1 h hs2 c :
    handles s = hs1 ++ h :: hs2 -> h_phase h = Leaving -> brelse_unref (h_buf h) (cache s) = Done tt c ->
    ustep s (mkuse c (hs1 ++ hs2) (pins s) (latest s))
| u_bpin h c :
    h ∈ handles s -> h_phase h = Using -> few s -> bpin (h_buf h) (cache s) = Done tt c ->
    ustep s (mkuse c (handles s) (h_buf h :: pins s) (latest s))
| u_bunpin p1 i p2 c :
    pins s = p1 ++ i :: p2 -> bunpin i (cache s) = Done tt c ->
    ustep s (mkuse c (handles s) (p1 ++ p2) (latest s)).

(** ** The invariant *)

Definition holders (i : nat) (l : list handle) : list handle := filter (fun h => holds h = true /\ h_buf h = i) l.

(** Who holds the lock of a buffer. *)
Definition lock_ok (lk : sleeplock) (hs : list handle) : Prop :=
  match hs with
  | [] => sl_locked lk = false
  | [h] => lk = mksleep true (h_pid h)
  | _ => False
  end.

Record use_ok (s : use) : Prop := {
  uo_len : length (bufs (cache s)) = NBUF;
  uo_lru i : (i < NBUF)%nat -> i ∈ lru (cache s);
  uo_unique i j b c : bufs (cache s) !! i = Some b -> bufs (cache s) !! j = Some c ->
    bdevno b <> 0 -> bdevno b = bdevno c -> blockno b = blockno c -> i = j;
  uo_few : Z.of_nat (length (handles s) + length (pins s)) < 2 ^ 32;
  uo_refs i b : bufs (cache s) !! i = Some b -> refcnt b = handle_refs i (handles s) + pin_refs i (pins s);
  uo_lock i b : bufs (cache s) !! i = Some b -> lock_ok (block_lock b) (holders i (handles s));
  uo_handle h : h ∈ handles s -> exists b, bufs (cache s) !! h_buf h = Some b /\ bdevno b = h_dev h /\ blockno b = h_bno h /\
    h_dev h <> 0 /\ (h_phase h = Using -> valid b = true);
  uo_data i b : bufs (cache s) !! i = Some b -> bdevno b <> 0 -> valid b = true -> data b = contents s (bdevno b) (blockno b);
  uo_latest dev bno d : latest s dev bno = Some d -> exists i b, bufs (cache s) !! i = Some b /\
    bdevno b = dev /\ blockno b = bno /\ dev <> 0 /\ valid b = true
}.

Lemma handle_refs_app i l k : handle_refs i (l ++ k) = handle_refs i l + handle_refs i k.
Proof. induction l as [|h l IH]; cbn [app handle_refs]; lia. Qed.
Lemma pin_refs_app i l k : pin_refs i (l ++ k) = pin_refs i l + pin_refs i k.
Proof. induction l as [|j l IH]; cbn [app pin_refs]; lia. Qed.
Lemma handle_refs_bound i l : 0 <= handle_refs i l <= Z.of_nat (length l).
Proof. induction l as [|h l IH]; cbn [length handle_refs]; [lia|]. destruct (decide _); lia. Qed.
Lemma pin_refs_bound i l : 0 <= pin_refs i l <= Z.of_nat (length l).
Proof. induction l as [|j l IH]; cbn [length pin_refs]; [lia|]. destruct (decide _); lia. Qed.
Lemma handle_refs_pos h l : h ∈ l -> 1 <= handle_refs (h_buf h) l.
Proof.
  intros (l1 & l2 & ->)%list_elem_of_split. rewrite handle_refs_app. cbn [handle_refs]. rewrite decide_True by done.
  pose proof (handle_refs_bound (h_buf h) l1). pose proof (handle_refs_bound (h_buf h) l2). lia.
Qed.
Lemma holders_app i l k : holders i (l ++ k) = holders i l ++ holders i k.
Proof. apply filter_app. Qed.
Lemma holders_in h l : h ∈ l -> holds h = true -> h ∈ holders (h_buf h) l.
Proof. intros. apply list_elem_of_filter. auto. Qed.

(** Replacing a handle by itself in another phase. *)
Lemma handle_refs_phase i hs1 h ph hs2 : handle_refs i (hs1 ++ in_phase ph h :: hs2) = handle_refs i (hs1 ++ h :: hs2).
Proof. by rewrite !handle_refs_app. Qed.
Lemma holders_phase_ne i hs1 h ph hs2 : h_buf h <> i -> holders i (hs1 ++ in_phase ph h :: hs2) = holders i (hs1 ++ h :: hs2).
Proof. intros Hn. rewrite !holders_app. unfold holders at 2 4. rewrite !filter_cons, !decide_False by (cbn; tauto). done. Qed.

(** A step that changes buffer [i] only, but neither its block nor the device. *)
Lemma use_ok_put s i b b' lr hs ps lt :
  use_ok s -> bufs (cache s) !! i = Some b -> bdevno b' = bdevno b -> blockno b' = blockno b ->
  (forall j, (j < NBUF)%nat -> j ∈ lr) ->
  Z.of_nat (length hs + length ps) < 2 ^ 32 ->
  refcnt b' = handle_refs i hs + pin_refs i ps ->
  (forall j, j <> i -> handle_refs j hs + pin_refs j ps = handle_refs j (handles s) + pin_refs j (pins s)) ->
  lock_ok (block_lock b') (holders i hs) ->
  (forall j, j <> i -> holders j hs = holders j (handles s)) ->
  (forall h, h ∈ hs -> h_dev h <> 0 /\ (h_buf h = i -> h_dev h = bdevno b /\ h_bno h = blockno b /\ (h_phase h = Using -> valid b' = true)) /\
     (h_buf h <> i -> exists h0, h0 ∈ handles s /\ h_buf h0 = h_buf h /\ h_dev h0 = h_dev h /\ h_bno h0 = h_bno h /\ (h_phase h = Using -> h_phase h0 = Using))) ->
  (forall d n, ~ (d = bdevno b /\ n = blockno b) -> lt d n = latest s d n) ->
  (bdevno b <> 0 -> valid b' = true -> data b' = default (device (cache s) (bdevno b) (blockno b)) (lt (bdevno b) (blockno b))) ->
  (forall d, lt (bdevno b) (blockno b) = Some d -> bdevno b <> 0 /\ valid b' = true) ->
  use_ok (mkuse (mkbcache (<[i := b']> (bufs (cache s))) lr (device (cache s))) hs ps lt).
Proof.
  intros [U1 U2 U3 U4 U5 U6 U7 U8 U9] Hi Hd Hn Hlr Hfew Hr Hro Hl Hlo Hh Hlt Hdat Hlat.
  pose proof (lookup_lt_Some _ _ _ Hi) as Hlen.
  assert (Hslot : forall j c, <[i := b']> (bufs (cache s)) !! j = Some c -> (j = i /\ c = b') \/ (j <> i /\ bufs (cache s) !! j = Some c)).
  { intros j c. destruct (decide (j = i)) as [->|Hne].
    - rewrite list_lookup_insert_eq by done. intros [= <-]. by left.
    - rewrite list_lookup_insert_ne by done. by right. }
  split; cbn [cache handles pins latest bufs lru device].
  - by rewrite length_insert.
  - done.
  - intros j k c e Hj Hk. destruct (Hslot j c Hj) as [[-> ->]|[Hji Hj']], (Hslot k e Hk) as [[-> ->]|[Hki Hk']]; intros Hnz E1 E2.
    + done.
    + apply (U3 i k b e); congruence.
    + apply (U3 j i c b); congruence.
    + by apply (U3 j k c e).
  - done.
  - intros j c Hj. destruct (Hslot j c Hj) as [[-> ->]|[Hji Hj']]; [done|]. rewrite (U5 j c Hj'). by rewrite Hro.
  - intros j c Hj. destruct (Hslot j c Hj) as [[-> ->]|[Hji Hj']]; [done|]. rewrite Hlo by done. by apply U6.
  - intros h Hin. destruct (Hh h Hin) as (Hnz & H1 & H2). destruct (decide (h_buf h = i)) as [E|Hne].
    + destruct (H1 E) as (E1 & E2 & E3). exists b'. rewrite E, list_lookup_insert_eq by done. split_and!; congruence || done.
    + destruct (H2 Hne) as (h0 & Hin0 & E0 & E1 & E2 & E3). destruct (U7 h0 Hin0) as (c & Hc & F1 & F2 & _ & F4).
      exists c. rewrite list_lookup_insert_ne by done. rewrite <- E0. split_and!; try congruence. intros HU. by apply F4, E3.
  - intros j c Hj Hnz Hv. unfold contents. cbn [cache device latest]. destruct (Hslot j c Hj) as [[-> ->]|[Hji Hj']].
    + rewrite Hd, Hn in *. by apply Hdat.
    + rewrite (Hlt (bdevno c) (blockno c)); [by apply (U8 j c)|]. intros [E1 E2]. apply Hji. by apply (U3 j i c b).
  - intros d n x Hx. destruct (decide (d = bdevno b /\ n = blockno b)) as [[-> ->]|Hne].
    + exists i, b'. rewrite list_lookup_insert_eq by done. destruct (Hlat x Hx) as [Hnz Hv]. done.
    + rewrite Hlt in Hx by done. destruct (U9 d n x Hx) as (j & c & Hj & E1 & E2 & E3 & E4).
      exists j, c. split; [|done]. rewrite list_lookup_insert_ne; [done|]. intros <-. apply Hne. split; congruence.
Qed.

Lemma lock_ok_held lk A h B : lock_ok lk (A ++ h :: B) -> A = [] /\ B = [] /\ lk = mksleep true (h_pid h).
Proof. destruct A as [|a A]; cbn [app]; [destruct B; cbn; [done|by intros []]|]. destruct A; cbn; by intros []. Qed.
Lemma lock_ok_free lk hs : lock_ok lk hs -> sl_locked lk = false -> hs = [].
Proof. destruct hs as [|h [|h' hs]]; cbn; [done|by intros ->|done]. Qed.

(** The handle of a step, its buffer, and who holds it. *)
Lemma handle_buffer s hs1 h hs2 : use_ok s -> handles s = hs1 ++ h :: hs2 ->
  exists b, bufs (cache s) !! h_buf h = Some b /\ bdevno b = h_dev h /\ blockno b = h_bno h /\ h_dev h <> 0 /\
    (h_phase h = Using -> valid b = true) /\
    lock_ok (block_lock b) (holders (h_buf h) hs1 ++ (if holds h then [h] else []) ++ holders (h_buf h) hs2).
Proof.
  intros Hok Hh. destruct (uo_handle s Hok h) as (b & Hb & H1 & H2 & H3 & H4); [rewrite Hh; set_solver|].
  exists b. split_and!; try done. pose proof (uo_lock s Hok _ b Hb) as Hl. rewrite Hh, holders_app in Hl.
  unfold holders at 2 in Hl. rewrite filter_cons in Hl. destruct (holds h).
  - rewrite decide_True in Hl by done. exact Hl.
  - rewrite decide_False in Hl by (intros [? _]; done). exact Hl.
Qed.

(** A step of one handle to another phase. *)
Lemma use_ok_phase s hs1 h hs2 ph b b' :
  use_ok s -> handles s = hs1 ++ h :: hs2 -> bufs (cache s) !! h_buf h = Some b ->
  bdevno b' = bdevno b -> blockno b' = blockno b -> refcnt b' = refcnt b ->
  lock_ok (block_lock b') (holders (h_buf h) hs1 ++ (if holds (in_phase ph h) then [in_phase ph h] else []) ++ holders (h_buf h) hs2) ->
  (valid b = true -> valid b' = true) -> (ph = Using -> valid b' = true) ->
  (valid b' = true -> data b' = contents s (bdevno b) (blockno b)) ->
  use_ok (mkuse (mkbcache (<[h_buf h := b']> (bufs (cache s))) (lru (cache s)) (device (cache s))) (hs1 ++ in_phase ph h :: hs2) (pins s) (latest s)).
Proof.
  intros Hok Hh Hb Hd Hn Hr Hl Hv HU Hdat.
  destruct (handle_buffer s hs1 h hs2 Hok Hh) as (b0 & Hb0 & H1 & H2 & H3 & H4 & _). assert (b0 = b) as -> by congruence.
  apply (use_ok_put s (h_buf h) b); try done.
  - apply (uo_lru s Hok).
  - pose proof (uo_few s Hok) as Hf. rewrite Hh in Hf. rewrite length_app in *. cbn [length] in *. lia.
  - rewrite Hr, handle_refs_phase, <- Hh. by apply (uo_refs s Hok).
  - intros j _. by rewrite handle_refs_phase, Hh.
  - rewrite holders_app. unfold holders at 2. rewrite filter_cons. destruct (holds (in_phase ph h)).
    + rewrite decide_True by done. exact Hl.
    + rewrite decide_False by (intros [? _]; done). exact Hl.
  - intros j Hj. rewrite Hh. by apply holders_phase_ne.
  - intros g Hg. apply elem_of_app in Hg. rewrite elem_of_cons in Hg.
    assert (Hold : g ∈ handles s -> h_dev g <> 0 /\
      (h_buf g = h_buf h -> h_dev g = bdevno b /\ h_bno g = blockno b /\ (h_phase g = Using -> valid b' = true)) /\
      (h_buf g <> h_buf h -> exists h0, h0 ∈ handles s /\ h_buf h0 = h_buf g /\ h_dev h0 = h_dev g /\ h_bno h0 = h_bno g /\ (h_phase g = Using -> h_phase h0 = Using))).
    { intros Hin. destruct (uo_handle s Hok g Hin) as (c & Hc & E1 & E2 & E3 & E4). split; [done|]. split.
      - intros E. assert (c = b) as -> by congruence. split; [done|]. split; [done|]. intros HU'. by apply Hv, E4.
      - intros _. by exists g. }
    destruct Hg as [Hg|[->|Hg]].
    + apply Hold. rewrite Hh. set_solver.
    + cbn. split; [done|]. split; [done|]. by intros [].
    + apply Hold. rewrite Hh. set_solver.
  - intros d Hlt. destruct (uo_latest s Hok _ _ _ Hlt) as (j & c & Hj & E1 & E2 & E3 & E4). split; [done|]. apply Hv.
    assert (j = h_buf h) as -> by (apply (uo_unique s Hok j (h_buf h) c b); congruence). congruence.
Qed.

Lemma step_lock s hs1 h hs2 i c : use_ok s -> handles s = hs1 ++ h :: hs2 -> h_phase h = Waiting ->
  block_acquire (h_pid h) (h_buf h) (cache s) = Done (Some i) c -> use_ok (mkuse c (hs1 ++ in_phase Filling h :: hs2) (pins s) (latest s)).
Proof.
  intros Hok Hh Hph H. destruct (handle_buffer s hs1 h hs2 Hok Hh) as (b & Hb & H1 & H2 & H3 & H4 & Hl).
  assert (Hnh : holds h = false) by (unfold holds; rewrite Hph; done). rewrite Hnh in Hl. cbn [app] in Hl.
  unfold block_acquire in H. rewrite (bind_Done _ _ _ _ _ (getb_Done _ _ _ Hb)) in H. unfold acquiresleep in H.
  destruct (sl_locked (block_lock b)) eqn:Hlk; [done|]. unfold putb in H. rewrite bind_modify in H. injection H as _ <-.
  apply lock_ok_free in Hl; [|done]. apply app_nil in Hl as [E1 E2].
  apply (use_ok_phase s hs1 h hs2 Filling b); try done.
  - rewrite E1, E2. done.
  - intros Hv. cbn in *. rewrite (uo_data s Hok _ b Hb); [done|congruence|done].
Qed.

Lemma step_unlock s hs1 h hs2 c : use_ok s -> handles s = hs1 ++ h :: hs2 -> h_phase h = Using ->
  brelse_unlock (h_pid h) (h_buf h) (cache s) = Done tt c -> use_ok (mkuse c (hs1 ++ in_phase Leaving h :: hs2) (pins s) (latest s)).
Proof.
  intros Hok Hh Hph H. destruct (handle_buffer s hs1 h hs2 Hok Hh) as (b & Hb & H1 & H2 & H3 & H4 & Hl).
  assert (Hnh : holds h = true) by (unfold holds; rewrite Hph; done). rewrite Hnh in Hl. cbn [app] in Hl.
  apply lock_ok_held in Hl as (E1 & E2 & E3).
  unfold brelse_unlock in H. rewrite (bind_Done _ _ _ _ _ (getb_Done _ _ _ Hb)) in H.
  destruct (holdingsleep _ _); [|done]. injection H as <-.
  apply (use_ok_phase s hs1 h hs2 Leaving b); try done.
  - rewrite E1, E2. done.
  - intros Hv. cbn in *. rewrite (uo_data s Hok _ b Hb); [done|congruence|done].
Qed.

Lemma step_fill s hs1 h hs2 c : use_ok s -> handles s = hs1 ++ h :: hs2 -> h_phase h = Filling ->
  bread_locked (h_buf h) (cache s) = Done tt c -> use_ok (mkuse c (hs1 ++ in_phase Using h :: hs2) (pins s) (latest s)).
Proof.
  intros Hok Hh Hph H. destruct (handle_buffer s hs1 h hs2 Hok Hh) as (b & Hb & H1 & H2 & H3 & H4 & Hl).
  assert (Hnh : holds h = true) by (unfold holds; rewrite Hph; done). rewrite Hnh in Hl. cbn [app] in Hl.
  pose proof Hl as (E1 & E2 & E3)%lock_ok_held. pose proof (lookup_lt_Some _ _ _ Hb) as Hlt.
  unfold bread_locked in H. rewrite (bind_Done _ _ _ _ _ (getb_Done _ _ _ Hb)) in H. destruct (valid b) eqn:Hv.
  - injection H as <-.
    replace (cache s) with (mkbcache (<[h_buf h := b]> (bufs (cache s))) (lru (cache s)) (device (cache s)))
      by (rewrite list_insert_id by done; by destruct (cache s)).
    apply (use_ok_phase s hs1 h hs2 Using b); try done.
    + rewrite E1, E2. cbn. by rewrite E3.
    + intros _. apply (uo_data s Hok _ b Hb); [congruence|done].
  - unfold disk_read, putb in H. rewrite bind_assoc in H.
    rewrite (bind_Done _ _ _ _ _ (getb_Done _ _ _ Hb)) in H. rewrite bind_assoc, bind_gets, bind_modify in H.
    erewrite bind_Done in H by (apply getb_Done; cbn [bufs]; by apply list_lookup_insert_eq).
    unfold modify in H. injection H as <-. cbn [bufs lru device]. rewrite list_insert_insert_eq.
    apply (use_ok_phase s hs1 h hs2 Using b); try done.
    + rewrite E1, E2. cbn. by rewrite E3.
    + intros _. cbn. unfold contents. destruct (latest s (bdevno b) (blockno b)) as [d|] eqn:Hlat; [|done]. exfalso.
      destruct (uo_latest s Hok _ _ _ Hlat) as (j & c & Hj & F1 & F2 & F3 & F4).
      assert (j = h_buf h) as -> by (apply (uo_unique s Hok j (h_buf h) c b); congruence). congruence.
Qed.

(** Handles that stay as they are while buffer [i] changes from [b] to [b']. *)
Lemma handles_keep s i b b' (hs : list handle) : use_ok s -> bufs (cache s) !! i = Some b -> (valid b = true -> valid b' = true) -> (forall h, h ∈ hs -> h ∈ handles s) ->
  forall h, h ∈ hs -> h_dev h <> 0 /\ (h_buf h = i -> h_dev h = bdevno b /\ h_bno h = blockno b /\ (h_phase h = Using -> valid b' = true)) /\
     (h_buf h <> i -> exists h0, h0 ∈ handles s /\ h_buf h0 = h_buf h /\ h_dev h0 = h_dev h /\ h_bno h0 = h_bno h /\ (h_phase h = Using -> h_phase h0 = Using)).
Proof.
  intros Hok Hi Hv Hsub h Hin. destruct (uo_handle s Hok h (Hsub h Hin)) as (c & Hc & E1 & E2 & E3 & E4). split; [done|]. split.
  - intros <-. assert (c = b) as -> by congruence. split; [done|]. split; [done|]. intros HU. by apply Hv, E4.
  - intros _. exists h. auto.
Qed.

Lemma latest_valid s i b d : use_ok s -> bufs (cache s) !! i = Some b -> latest s (bdevno b) (blockno b) = Some d -> bdevno b <> 0 /\ valid b = true.
Proof.
  intros Hok Hi Hlt. destruct (uo_latest s Hok _ _ _ Hlt) as (j & c & Hj & E1 & E2 & E3 & E4). split; [done|].
  assert (j = i) as -> by (apply (uo_unique s Hok j i c b); congruence). congruence.
Qed.

(** A change of the number of references only. *)
Lemma use_ok_refs s i b lr (hs : list handle) ps r : use_ok s -> bufs (cache s) !! i = Some b ->
  (forall j, (j < NBUF)%nat -> j ∈ lr) -> Z.of_nat (length hs + length ps) < 2 ^ 32 ->
  r = handle_refs i hs + pin_refs i ps ->
  (forall j, j <> i -> handle_refs j hs + pin_refs j ps = handle_refs j (handles s) + pin_refs j (pins s)) ->
  (forall j, holders j hs = holders j (handles s)) ->
  (forall h, h ∈ hs -> h ∈ handles s) ->
  use_ok (mkuse (mkbcache (<[i := set_refcnt r b]> (bufs (cache s))) lr (device (cache s))) hs ps (latest s)).
Proof.
  intros Hok Hi Hlr Hf Hr Hro Hho Hsub. apply (use_ok_put s i b); try done.
  - rewrite Hho. exact (uo_lock s Hok i b Hi).
  - apply (handles_keep s i b (set_refcnt r b)); done.
  - intros Hnz Hv. exact (uo_data s Hok i b Hi Hnz Hv).
  - intros d Hd. by apply (latest_valid s i b d).
Qed.

Lemma step_unref s hs1 h hs2 c : use_ok s -> handles s = hs1 ++ h :: hs2 -> h_phase h = Leaving ->
  brelse_unref (h_buf h) (cache s) = Done tt c -> use_ok (mkuse c (hs1 ++ hs2) (pins s) (latest s)).
Proof.
  intros Hok Hh Hph H. destruct (handle_buffer s hs1 h hs2 Hok Hh) as (b & Hb & _).
  pose proof (uo_few s Hok) as Hf. pose proof (uo_refs s Hok _ b Hb) as Hr. rewrite Hh in Hf, Hr.
  rewrite handle_refs_app in Hr. rewrite length_app in Hf. cbn [length handle_refs] in Hf, Hr. rewrite decide_True in Hr by done.
  pose proof (handle_refs_bound (h_buf h) hs1). pose proof (handle_refs_bound (h_buf h) hs2). pose proof (pin_refs_bound (h_buf h) (pins s)).
  unfold brelse_unref in H. rewrite (bind_Done _ _ _ _ _ (getb_Done _ _ _ Hb)) in H. cbv zeta in H. unfold putb in H. rewrite bind_modify in H.
  rewrite u32_small in H by lia. cbn [refcnt set_refcnt] in H.
  assert (Hnh : holds h = false) by (unfold holds; rewrite Hph; done).
  assert (Hgoal : forall lr, (forall j, (j < NBUF)%nat -> j ∈ lr) ->
    use_ok (mkuse (mkbcache (<[h_buf h := set_refcnt (refcnt b - 1) b]> (bufs (cache s))) lr (device (cache s))) (hs1 ++ hs2) (pins s) (latest s))).
  { intros lr Hlr. apply use_ok_refs; try done.
    - rewrite length_app. lia.
    - rewrite handle_refs_app. lia.
    - intros j Hj. rewrite Hh, !handle_refs_app. cbn [handle_refs]. rewrite decide_False by done. lia.
    - intros j. rewrite Hh, !holders_app. unfold holders at 4. rewrite filter_cons, decide_False by (rewrite Hnh; by intros [? _]). done.
    - intros g. rewrite Hh, !elem_of_app, elem_of_cons. tauto. }
  destruct (refcnt b - 1 =? 0); injection H as <-; cbn [bufs lru device]; apply Hgoal; [|apply (uo_lru s Hok)].
  intros j Hj. destruct (decide (j = h_buf h)) as [->|Hne]; [by left|]. right. apply list_elem_of_filter. split; [done|]. by apply (uo_lru s Hok).
Qed.

Lemma step_bpin s h c : use_ok s -> h ∈ handles s -> few s -> bpin (h_buf h) (cache s) = Done tt c ->
  use_ok (mkuse c (handles s) (h_buf h :: pins s) (latest s)).
Proof.
  intros Hok Hin Hfew H. destruct (uo_handle s Hok h Hin) as (b & Hb & _). unfold few in Hfew.
  pose proof (uo_refs s Hok _ b Hb) as Hr. pose proof (handle_refs_bound (h_buf h) (handles s)). pose proof (pin_refs_bound (h_buf h) (pins s)).
  unfold bpin in H. rewrite (bind_Done _ _ _ _ _ (getb_Done _ _ _ Hb)) in H. injection H as <-. rewrite u32_small by lia.
  apply use_ok_refs; try done.
  - apply (uo_lru s Hok).
  - cbn [length]. lia.
  - cbn [pin_refs]. rewrite decide_True by done. lia.
  - intros j Hj. cbn [pin_refs]. by rewrite decide_False by done.
Qed.

Lemma step_bunpin s p1 i p2 c : use_ok s -> pins s = p1 ++ i :: p2 -> bunpin i (cache s) = Done tt c ->
  use_ok (mkuse c (handles s) (p1 ++ p2) (latest s)).
Proof.
  intros Hok Hp H. unfold bunpin in H. apply bind_Done_inv in H as (b & s1 & H1 & H). apply getb_inv in H1 as [Hb ->]. injection H as <-.
  pose proof (uo_few s Hok) as Hf. pose proof (uo_refs s Hok _ b Hb) as Hr. rewrite Hp in Hf, Hr. rewrite pin_refs_app in Hr. cbn [pin_refs] in Hr.
  rewrite decide_True in Hr by done. pose proof (pin_refs_bound i p1). pose proof (pin_refs_bound i p2). pose proof (handle_refs_bound i (handles s)).
  rewrite length_app in Hf. cbn [length] in Hf. rewrite u32_small by lia. apply use_ok_refs; try done.
  - apply (uo_lru s Hok).
  - rewrite length_app. lia.
  - rewrite pin_refs_app. lia.
  - intros j Hj. rewrite Hp, !pin_refs_app. cbn [pin_refs]. rewrite decide_False by done. lia.
Qed.

Lemma step_modify s h d c : use_ok s -> h ∈ handles s -> h_phase h = Using -> bmodify (h_pid h) (h_buf h) d (cache s) = Done tt c ->
  use_ok (mkuse c (handles s) (pins s) (remember (h_dev h) (h_bno h) (Some d) (latest s))).
Proof.
  intros Hok Hin Hph H. destruct (uo_handle s Hok h Hin) as (b & Hb & E1 & E2 & E3 & E4).
  unfold bmodify in H. rewrite (bind_Done _ _ _ _ _ (getb_Done _ _ _ Hb)) in H. injection H as <-.
  apply (use_ok_put s (h_buf h) b); try done; rewrite <- ?E1, <- ?E2.
  - apply (uo_lru s Hok).
  - apply (uo_few s Hok).
  - exact (uo_refs s Hok _ b Hb).
  - exact (uo_lock s Hok _ b Hb).
  - apply (handles_keep s (h_buf h) b (set_data d b)); done.
  - intros dv n Hne. unfold remember. destruct (Z.eqb_spec dv (bdevno b)), (Z.eqb_spec n (blockno b)); cbn [andb]; try done. exfalso. by apply Hne.
  - intros _ _. unfold remember. by rewrite !Z.eqb_refl.
  - intros d' _. rewrite E1. split; [done|]. by apply E4.
Qed.

Lemma step_bwrite s h c : use_ok s -> h ∈ handles s -> bwrite (h_pid h) (h_buf h) (cache s) = Done tt c -> h_phase h = Using ->
  use_ok (mkuse c (handles s) (pins s) (latest s)).
Proof.
  intros Hok Hin H Hph. destruct (uo_handle s Hok h Hin) as (b & Hb & E1 & E2 & E3 & E4).
  unfold bwrite in H. rewrite (bind_Done _ _ _ _ _ (getb_Done _ _ _ Hb)) in H. destruct (holdingsleep _ _); [|done].
  unfold disk_write in H. rewrite (bind_Done _ _ _ _ _ (getb_Done _ _ _ Hb)) in H. injection H as <-.
  destruct Hok as [U1 U2 U3 U4 U5 U6 U7 U8 U9]. split; cbn [cache bufs lru device handles pins latest]; try done.
  intros i x Hx Hnz Hv. specialize (U8 i x Hx Hnz Hv). unfold contents in *. cbn [cache device latest].
  destruct (latest s (bdevno x) (blockno x)) as [d|]; [done|]. cbn in *.
  destruct (Z.eqb_spec (bdevno x) (bdevno b)), (Z.eqb_spec (blockno x) (blockno b)); cbn [andb]; try done.
  assert (i = h_buf h) as -> by (by apply (U3 i (h_buf h) x b)). congruence.
Qed.

Lemma no_refs_no_handle s i h : handle_refs i (handles s) = 0 -> h ∈ handles s -> h_buf h <> i.
Proof. intros Hz Hin <-. pose proof (handle_refs_pos h _ Hin). lia. Qed.

(** The handle that [bget] gives. *)
Lemma new_handle_holders me i dev bno j hs : holders j (mkhandle me i dev bno Waiting :: hs) = holders j hs.
Proof. unfold holders. rewrite filter_cons, decide_False by (cbn; by intros [? _]). done. Qed.

Lemma bget_hit s me dev bno j b : use_ok s -> few s -> dev <> 0 -> bufs (cache s) !! j = Some b -> is_block dev bno b = true ->
  use_ok (mkuse (mkbcache (<[j := set_refcnt (u32 (refcnt b + 1)) b]> (bufs (cache s))) (lru (cache s)) (device (cache s)))
    (mkhandle me j dev bno Waiting :: handles s) (pins s) (latest s)).
Proof.
  intros Hok Hfew Hd Hj Hb. pose proof Hb as [E1 E2]%is_block_true. unfold few in Hfew.
  pose proof (uo_refs s Hok _ b Hj) as Hr. pose proof (handle_refs_bound j (handles s)). pose proof (pin_refs_bound j (pins s)).
  rewrite u32_small by lia. apply (use_ok_put s j b); try done.
  - apply (uo_lru s Hok).
  - cbn [length]. lia.
  - cbn [handle_refs refcnt set_refcnt h_buf]. rewrite decide_True by done. lia.
  - intros k Hk. cbn [handle_refs h_buf]. rewrite decide_False by done. lia.
  - rewrite new_handle_holders. exact (uo_lock s Hok j b Hj).
  - intros h [->|Hin]%elem_of_cons.
    + cbn. split; [done|]. split; [done|]. by intros [].
    + by apply (handles_keep s j b (set_refcnt (refcnt b + 1) b) (handles s)).
  - intros Hnz Hv. exact (uo_data s Hok j b Hj Hnz Hv).
  - intros d Hlt. exact (latest_valid s j b d Hok Hj Hlt).
Qed.

Lemma bget_miss s me dev bno j b : use_ok s -> few s -> dev <> 0 -> bufs (cache s) !! j = Some b -> refcnt b = 0 ->
  (forall k c, bufs (cache s) !! k = Some c -> is_block dev bno c = false) ->
  use_ok (mkuse (mkbcache (<[j := mkbuf false dev bno (block_lock b) 1 (data b)]> (bufs (cache s))) (lru (cache s)) (device (cache s)))
    (mkhandle me j dev bno Waiting :: handles s) (pins s) (remember (bdevno b) (blockno b) None (latest s))).
Proof.
  intros Hok Hfew Hd Hj Hr Hnone. set (b' := mkbuf false dev bno (block_lock b) 1 (data b)). unfold few in Hfew.
  pose proof (uo_refs s Hok _ b Hj) as Hr0. pose proof (handle_refs_bound j (handles s)). pose proof (pin_refs_bound j (pins s)).
  assert (Hz : handle_refs j (handles s) = 0) by lia. pose proof (lookup_lt_Some _ _ _ Hj) as Hlen.
  assert (Hnob : forall k c, bufs (cache s) !! k = Some c -> ~ (bdevno c = dev /\ blockno c = bno)).
  { intros k c Hk Hc. apply is_block_true in Hc. by rewrite (Hnone k c Hk) in Hc. }
  assert (Hslot : forall k c, <[j := b']> (bufs (cache s)) !! k = Some c -> (k = j /\ c = b') \/ (k <> j /\ bufs (cache s) !! k = Some c)).
  { intros k c. destruct (decide (k = j)) as [->|Hne].
    - rewrite list_lookup_insert_eq by done. intros [= <-]. by left.
    - rewrite list_lookup_insert_ne by done. by right. }
  assert (Hforget : forall d n, ~ (d = bdevno b /\ n = blockno b) -> remember (bdevno b) (blockno b) None (latest s) d n = latest s d n).
  { intros d n Hne. unfold remember. destruct (Z.eqb_spec d (bdevno b)), (Z.eqb_spec n (blockno b)); cbn [andb]; try done. exfalso. by apply Hne. }
  destruct Hok as [U1 U2 U3 U4 U5 U6 U7 U8 U9]. split; cbn [cache bufs lru device handles pins latest].
  - by rewrite length_insert.
  - done.
  - intros k l c e Hk Hl. destruct (Hslot k c Hk) as [[-> ->]|[Hkj Hk']], (Hslot l e Hl) as [[-> ->]|[Hlj Hl']]; intros Hnz E1 E2.
    + done.
    + exfalso. by apply (Hnob l e).
    + exfalso. by apply (Hnob k c).
    + by apply (U3 k l c e).
  - cbn [length]. lia.
  - intros k c Hk. cbn [handle_refs h_buf]. destruct (Hslot k c Hk) as [[-> ->]|[Hkj Hk']].
    + rewrite decide_True by done. cbn. lia.
    + rewrite decide_False by done. rewrite (U5 k c Hk'). lia.
  - intros k c Hk. rewrite new_handle_holders. destruct (Hslot k c Hk) as [[-> ->]|[Hkj Hk']]; [exact (U6 j b Hj)|by apply U6].
  - intros h [->|Hin]%elem_of_cons.
    + exists b'. cbn. rewrite list_lookup_insert_eq by done. done.
    + destruct (U7 h Hin) as (c & Hc & E). exists c. rewrite list_lookup_insert_ne; [done|].
      intros E0. by apply (no_refs_no_handle s j h).
  - intros k c Hk Hnz Hv. destruct (Hslot k c Hk) as [[-> ->]|[Hkj Hk']]; [done|]. unfold contents. cbn [cache device latest].
    rewrite Hforget; [by apply (U8 k c)|]. intros [E1 E2]. apply Hkj. by apply (U3 k j c b).
  - intros d n x Hx. assert (Hne : ~ (d = bdevno b /\ n = blockno b)).
    { intros [-> ->]. unfold remember in Hx. rewrite !Z.eqb_refl in Hx. done. }
    rewrite Hforget in Hx by done. destruct (U9 d n x Hx) as (k & c & Hk & E1 & E2 & E3 & E4). exists k, c.
    split; [|done]. rewrite list_lookup_insert_ne; [done|]. intros <-. apply Hne. split; congruence.
Qed.

Lemma step_bget s me dev bno i c : use_ok s -> few s -> dev <> 0 -> bget dev bno (cache s) = Done i c ->
  use_ok (mkuse c (mkhandle me i dev bno Waiting :: handles s) (pins s) (recycled s i dev bno)).
Proof.
  intros Hok Hfew Hd H. unfold bget in H. destruct (find_buf (is_block dev bno) (bufs (cache s)) (lru (cache s))) as [j|] eqn:Hf.
  - apply find_buf_Some in Hf as (_ & b & Hj & Hb). rewrite (bind_Done _ _ _ _ _ (getb_Done _ _ _ Hj)) in H. unfold putb in H.
    rewrite bind_modify in H. injection H as <- <-. unfold recycled. rewrite Hj, Hb. by apply bget_hit.
  - destruct (find_buf (fun b => refcnt b =? 0) (bufs (cache s)) (rev (lru (cache s)))) as [j|] eqn:Hf2; [|done].
    apply find_buf_Some in Hf2 as (_ & b & Hj & Hr). apply Z.eqb_eq in Hr.
    rewrite (bind_Done _ _ _ _ _ (getb_Done _ _ _ Hj)) in H. unfold putb in H. rewrite bind_modify in H. injection H as <- <-.
    assert (Hnone : forall k e, bufs (cache s) !! k = Some e -> is_block dev bno e = false).
    { intros k e Hk. apply (find_buf_None _ _ _ k e Hf); [|done]. apply (uo_lru s Hok). rewrite <- (uo_len s Hok). by eapply lookup_lt_Some. }
    unfold recycled. rewrite Hj, (Hnone j b Hj). by apply bget_miss.
Qed.

Lemma use_ok_step s t : use_ok s -> ustep s t -> use_ok t.
Proof.
  intros Hok [me dev bno i c Hd Hf H|hs1 h hs2 i c Hh Hp H|hs1 h hs2 c Hh Hp H|h d c Hh Hp H|h c Hh Hp H|hs1 h hs2 c Hh Hp H
    |hs1 h hs2 c Hh Hp H|h c Hh Hp Hf H|p1 i p2 c Hh H].
  - by apply step_bget.
  - by eapply step_lock.
  - by eapply step_fill.
  - by apply step_modify.
  - by apply (step_bwrite s h).
  - by eapply step_unlock.
  - by eapply step_unref.
  - by apply step_bpin.
  - by eapply step_bunpin.
Qed.

(** The cache after [binit], nobody using it. *)
Definition use0 (dev : Z -> Z -> block) : use := mkuse (binit dev) [] [] (fun _ _ => None).

Lemma use0_ok dev : use_ok (use0 dev).
Proof.
  destruct (binit_ok dev) as [B1 B2 B3 B4 B5 B6].
  assert (Hz : forall i b, bufs (binit dev) !! i = Some b -> b = buf0).
  { intros i b Hi. by apply lookup_replicate in Hi as [-> _]. }
  split; cbn [use0 cache handles pins latest]; try done.
  - intros i b Hi. by rewrite (Hz i b Hi).
  - intros i b Hi. by rewrite (Hz i b Hi).
  - intros h Hin. by apply not_elem_of_nil in Hin.
  - intros i b Hi Hnz. by rewrite (Hz i b Hi) in Hnz.
Qed.

(** Two positions of a list that both pass a test are one, if only one passes it. *)
Lemma filter_single {A} (P : A -> Prop) `{!forall x, Decision (P x)} (l : list A) z x y a b :
  filter P l = [z] -> l !! x = Some a -> l !! y = Some b -> P a -> P b -> x = y.
Proof.
  revert x y. induction l as [|e l IH]; intros x y Hf Hx Hy Ha Hb; [done|]. rewrite filter_cons in Hf.
  assert (Hno : filter P l = [] -> forall k c, l !! k = Some c -> ~ P c).
  { intros Hn k c Hk HP. assert (Hc : c ∈ filter P l) by (apply list_elem_of_filter; split; [done|by eapply list_elem_of_lookup_2]).
    rewrite Hn in Hc. by apply not_elem_of_nil in Hc. }
  destruct (decide (P e)) as [He|He].
  - injection Hf as _ Hf. destruct x as [|x], y as [|y]; cbn in Hx, Hy; [done| | |].
    + exfalso. by apply (Hno Hf y b).
    + exfalso. by apply (Hno Hf x a).
    + exfalso. by apply (Hno Hf x a).
  - destruct x as [|x], y as [|y]; cbn in Hx, Hy; try congruence. f_equal. by apply IH.
Qed.

(** C32: processes use the buffer cache in any interleaving, from [binit]; each step of [bread], [bwrite], [brelse], [bpin]
    and [bunpin] is taken by a process that has the handle or pin it needs, and there are fewer than [2^32 - 1] of them.  Then at
    most one of the handles on a block is past the sleep lock and not yet released.  The buffer of a handle is
    never given to another block, and [refcnt] is the number of handles and pins.  A process between [bread]
    and [brelse] finds in the buffer the last value stored in the block since its buffer was last
    recycled, or else the disk's, and its [bwrite] and [brelse] do not panic. *)
Theorem block_exclusive (dev : Z -> Z -> block) (s : use) :
  rtc ustep (use0 dev) s ->
  (forall x y h g, handles s !! x = Some h -> handles s !! y = Some g -> holds h = true -> holds g = true ->
     h_dev h = h_dev g -> h_bno h = h_bno g -> x = y) /\
  (forall h, h ∈ handles s -> exists b, bufs (cache s) !! h_buf h = Some b /\ bdevno b = h_dev h /\ blockno b = h_bno h /\
     (h_phase h = Using -> valid b = true /\ data b = contents s (h_dev h) (h_bno h) /\
        (exists c, bwrite (h_pid h) (h_buf h) (cache s) = Done tt c /\ device c (h_dev h) (h_bno h) = data b) /\
        (exists c, brelse (h_pid h) (h_buf h) (cache s) = Done tt c))) /\
  (forall i b, bufs (cache s) !! i = Some b -> refcnt b = handle_refs i (handles s) + pin_refs i (pins s)).
Proof.
  intros Hr. assert (Hok : use_ok s).
  { pose proof (use0_ok dev) as H0. clear -Hr H0. induction Hr; eauto using use_ok_step. }
  split_and!; [| |apply (uo_refs s Hok)].
  - intros x y h g Hx Hy Hh Hg Ed En.
    destruct (uo_handle s Hok h ltac:(by eapply list_elem_of_lookup_2)) as (b & Hb & E1 & E2 & E3 & _).
    destruct (uo_handle s Hok g ltac:(by eapply list_elem_of_lookup_2)) as (c & Hc & F1 & F2 & F3 & _).
    assert (Hi : h_buf h = h_buf g) by (apply (uo_unique s Hok _ _ b c); congruence).
    pose proof (uo_lock s Hok _ b Hb) as Hl. destruct (holders (h_buf h) (handles s)) as [|z [|z' l]] eqn:Hhs; [|eapply filter_single; [exact Hhs|done..]|done].
    pose proof (holders_in h (handles s) ltac:(by eapply list_elem_of_lookup_2) Hh) as Hin. rewrite Hhs in Hin. by apply not_elem_of_nil in Hin.
  - intros h Hin. destruct (uo_handle s Hok h Hin) as (b & Hb & E1 & E2 & E3 & E4). exists b. split_and!; try done. intros Hph.
    assert (Hv : valid b = true) by (by apply E4). split; [done|]. split; [rewrite <- E1, <- E2; apply (uo_data s Hok _ b Hb); congruence|].
    pose proof Hin as (hs1 & hs2 & Hh)%list_elem_of_split. destruct (handle_buffer s hs1 h hs2 Hok Hh) as (b0 & Hb0 & _ & _ & _ & _ & Hl).
    assert (b0 = b) as -> by congruence. assert (Hhd : holds h = true) by (unfold holds; rewrite Hph; done). rewrite Hhd in Hl.
    apply lock_ok_held in Hl as (_ & _ & Hlk). assert (Hsl : holdingsleep (h_pid h) (block_lock b) = true).
    { rewrite Hlk. unfold holdingsleep. cbn. apply Z.eqb_refl. }
    split.
    + eexists. split.
      * unfold bwrite. rewrite (bind_Done _ _ _ _ _ (getb_Done _ _ _ Hb)), Hsl. unfold disk_write.
        rewrite (bind_Done _ _ _ _ _ (getb_Done _ _ _ Hb)). reflexivity.
      * cbn. by rewrite E1, E2, !Z.eqb_refl.
    + unfold brelse, brelse_unlock. rewrite bind_assoc, (bind_Done _ _ _ _ _ (getb_Done _ _ _ Hb)), Hsl. unfold putb at 1. rewrite bind_modify.
      unfold brelse_unref. erewrite bind_Done by (apply getb_Done; cbn [bufs]; apply list_lookup_insert_eq; by eapply lookup_lt_Some).
      cbv zeta. unfold putb. rewrite bind_modify. by destruct (refcnt _ =? 0); eexists.
Qed.

(** ** Two processes and one block *)

(** Process 7 reads block 45, process 8 waits for it, process 7 stores into the buffer. *)
Definition after {A} (r : result bcache A) (c : bcache) : bcache := match r with Done _ c' => c' | Panic _ => c end.
Definition run_get : use := mkuse (after (bget 1 45 (binit demo_dev)) (binit demo_dev)) [mkhandle 7 0 1 45 Waiting] [] (recycled (use0 demo_dev) 0 1 45).
Definition run_lock : use := mkuse (after (block_acquire 7 0 (cache run_get)) (cache run_get)) [mkhandle 7 0 1 45 Filling] [] (latest run_get).
Definition run_fill : use := mkuse (after (bread_locked 0 (cache run_lock)) (cache run_lock)) [mkhandle 7 0 1 45 Using] [] (latest run_lock).
Definition run_wait : use := mkuse (after (bget 1 45 (cache run_fill)) (cache run_fill))
  [mkhandle 8 0 1 45 Waiting; mkhandle 7 0 1 45 Using] [] (recycled run_fill 0 1 45).
Definition run_store : use := mkuse (after (bmodify 7 0 [46] (cache run_wait)) (cache run_wait))
  [mkhandle 8 0 1 45 Waiting; mkhandle 7 0 1 45 Using] [] (remember 1 45 (Some [46]) (latest run_wait)).

Lemma block_exclusive_witness :
  rtc ustep (use0 demo_dev) run_store /\
  block_acquire 8 0 (cache run_store) = Done None (cache run_store) /\
  exists b, bufs (cache run_store) !! 0%nat = Some b /\ data b = [46] /\ refcnt b = 2.
Proof.
  assert (Hr : rtc ustep (use0 demo_dev) run_store).
  { eapply rtc_l; [|eapply rtc_l; [|eapply rtc_l; [|eapply rtc_l; [|apply rtc_once]]]].
    - apply (u_bget (use0 demo_dev) 7 1 45 0 (cache run_get)); [lia|vm_compute; reflexivity|vm_compute; reflexivity].
    - apply (u_lock run_get [] (mkhandle 7 0 1 45 Waiting) [] 0 (cache run_lock)); [reflexivity|reflexivity|vm_compute; reflexivity].
    - apply (u_fill run_lock [] (mkhandle 7 0 1 45 Filling) [] (cache run_fill)); [reflexivity|reflexivity|vm_compute; reflexivity].
    - apply (u_bget run_fill 8 1 45 0 (cache run_wait)); [lia|vm_compute; reflexivity|vm_compute; reflexivity].
    - apply (u_modify run_wait (mkhandle 7 0 1 45 Using) [46] (cache run_store)); [right; left|reflexivity|vm_compute; reflexivity]. }
  split; [exact Hr|]. split; [vm_compute; reflexivity|].
  destruct (block_exclusive demo_dev run_store Hr) as (_ & Hh & Hrefs).
  destruct (Hh (mkhandle 7 0 1 45 Using)) as (b & Hb & _ & _ & HU); [right; left|].
  destruct (HU eq_refl) as (_ & Hd & _). exists b. split; [exact Hb|]. split; [exact Hd|]. exact (Hrefs 0%nat b Hb).
Defined.
