(* ===== verification/Vm.v ===== *)
(** * Virtual memory: [kernel/vm.c], and the page-table functions of [kernel/proc.c]

    Page tables live in the physical memory of [Kalloc.v]: a table page is 512
    little-endian 64-bit entries, [pagetable[i]] is [load64] at [8 * i].
    Functions are translated one by one; loops carry a bound on their number of
    iterations that the loop condition always meets first (the number of pages
    or bytes to process).  Kernel-side buffers of the copy functions are byte
    lists.

    [VmFacts.v] proves the theorems. *)

From S2P Require Import Prelude CString Kalloc.

Definition CLINT : Z := 0x02000000.

Section Vm.
(** The linker symbols [end] and [etext], and the trampoline page. *)
Context (kend etext trampoline : Z).
Abbreviation V := (M kmem).

(** ** Memory access *)

Definition rd64 (a : Z) : V Z := gets (fun s => load64 (pmem s) a).
Definition wr64 (a v : Z) : V unit :=
  modify (fun s => mkkmem (store64 (pmem s) a v) (freelist s)).
Definition zero_page (a : Z) : V unit :=
  modify (fun s => mkkmem (memset (pmem s) a 0 PGSIZE) (freelist s)).

Fixpoint store_bytes (m : mem) (a : Z) (bs : list Z) : mem :=
  match bs with
  | [] => m
  | b :: bs' => store_bytes (store8 m a b) (a + 1) bs'
  end.
Definition load_bytes (m : mem) (a : Z) (n : nat) : list Z :=
  (fun i => m (a + Z.of_nat i)) <$> seq 0 n.

(** ** Page tables *)

Definition pte_addr (pt level va : Z) : Z := pt + 8 * PX level va.

(** The loop of [walk] at [level] and below; 0 is the null pointer. *)
Fixpoint walk_loop (levels : nat) (pt va : Z) (alloc : bool) : V Z :=
  match levels with
  | O => ret (pte_addr pt 0 va)
  | S levels' =>
      let pa := pte_addr pt (Z.of_nat levels) va in
      let! pte := rd64 pa in
      if negb (Z.land pte PTE_V =? 0) then walk_loop levels' (PTE2PA pte) va alloc
      else if negb alloc then ret 0
      else
        let! page := kalloc in
        if page =? 0 then ret 0
        else
          zero_page page ;;
          wr64 pa (Z.lor (PA2PTE page) PTE_V) ;;
          walk_loop levels' page va alloc
  end.

Definition walk (pt va : Z) (alloc : bool) : V Z :=
  if va >=? MAXVA then panic "walk" else walk_loop 2 pt va alloc.

Definition walkaddr (pt va : Z) : V Z :=
  if va >=? MAXVA then ret 0
  else
    let! pa := walk pt va false in
    if pa =? 0 then ret 0
    else
      let! pte := rd64 pa in
      if Z.land pte PTE_V =? 0 then ret 0
      else if Z.land pte PTE_U =? 0 then ret 0
      else ret (PTE2PA pte).

(** The loop of [mappages] over [n] pages, up to the page [last]. *)
Fixpoint mappages_loop (n : nat) (pt a last pa perm : Z) : V Z :=
  match n with
  | O => ret 0
  | S n' =>
      let! p := walk pt a true in
      if p =? 0 then ret (-1)
      else
        let! pte := rd64 p in
        if negb (Z.land pte PTE_V =? 0) then panic "mappages: remap"
        else
          wr64 p (Z.lor (Z.lor (PA2PTE pa) perm) PTE_V) ;;
          if a =? last then ret 0
          else mappages_loop n' pt (u64 (a + PGSIZE)) last (u64 (pa + PGSIZE)) perm
  end.

Definition mappages (pt va size pa perm : Z) : V Z :=
  if negb (va mod PGSIZE =? 0) then panic "mappages: va not aligned"
  else if negb (size mod PGSIZE =? 0) then panic "mappages: size not aligned"
  else if size =? 0 then panic "mappages: size"
  else mappages_loop (Z.to_nat (size / PGSIZE)) pt va (u64 (va + size - PGSIZE)) pa perm.

Definition kvmmap (pt va pa sz perm : Z) : V unit :=
  let! r := mappages pt va sz pa perm in
  if negb (r =? 0) then panic "kvmmap" else ret tt.

Fixpoint uvmunmap_loop (n : nat) (pt a : Z) (do_free : bool) : V unit :=
  match n with
  | O => ret tt
  | S n' =>
      let! p := walk pt a false in
      if p =? 0 then panic "uvmunmap: walk"
      else
        let! pte := rd64 p in
        if Z.land pte PTE_V =? 0 then panic "uvmunmap: not mapped"
        else if PTE_FLAGS pte =? PTE_V then panic "uvmunmap: not a leaf"
        else
          (if do_free then kfree kend (PTE2PA pte) else ret tt) ;;
          wr64 p 0 ;;
          uvmunmap_loop n' pt (u64 (a + PGSIZE)) do_free
  end.
Definition uvmunmap (pt va npages : Z) (do_free : bool) : V unit :=
  if negb (va mod PGSIZE =? 0) then panic "uvmunmap: not aligned"
  else uvmunmap_loop (Z.to_nat npages) pt va do_free.

(** ** User address spaces *)

Definition uvmcreate : V Z :=
  let! pt := kalloc in
  if pt =? 0 then ret 0 else zero_page pt ;; ret pt.

Definition uvmfirst (pt : Z) (src : list Z) : V unit :=
  if Z.of_nat (length src) >=? PGSIZE then panic "uvmfirst: more than a page"
  else
    let! m := kalloc in
    zero_page m ;;
    mappages pt 0 PGSIZE m (Z.lor (Z.lor (Z.lor PTE_W PTE_R) PTE_X) PTE_U) ;;
    modify (fun s => mkkmem (store_bytes (pmem s) m src) (freelist s)).

Definition uvmdealloc (pt oldsz newsz : Z) : V Z :=
  if newsz >=? oldsz then ret oldsz
  else
    (if PGROUNDUP newsz <? PGROUNDUP oldsz
     then uvmunmap pt (PGROUNDUP newsz)
            (u64 (s32 ((PGROUNDUP oldsz - PGROUNDUP newsz) / PGSIZE))) true
     else ret tt) ;;
    ret newsz.

Fixpoint uvmalloc_loop (n : nat) (pt a oldsz newsz xperm : Z) : V Z :=
  match n with
  | O => ret newsz
  | S n' =>
      if a <? newsz then
        let! m := kalloc in
        if m =? 0 then uvmdealloc pt a oldsz ;; ret 0
        else
          zero_page m ;;
          let! r := mappages pt a PGSIZE m (Z.lor (Z.lor PTE_R PTE_U) xperm) in
          if negb (r =? 0) then kfree kend m ;; uvmdealloc pt a oldsz ;; ret 0
          else uvmalloc_loop n' pt (u64 (a + PGSIZE)) oldsz newsz xperm
      else ret newsz
  end.
Definition uvmalloc (pt oldsz newsz xperm : Z) : V Z :=
  if newsz <? oldsz then ret oldsz
  else
    let oldsz := PGROUNDUP oldsz in
    uvmalloc_loop (Z.to_nat ((newsz - oldsz) / PGSIZE + 1)) pt oldsz oldsz newsz xperm.

(** The recursion of [freewalk]; a table deeper than the fuel overflows the
    kernel stack. *)
Fixpoint freewalk (fuel : nat) (pt : Z) : V unit :=
  match fuel with
  | O => panic "kerneltrap"
  | S fuel' =>
      for_each (fun i =>
        let a := pt + 8 * Z.of_nat i in
        let! pte := rd64 a in
        if negb (Z.land pte PTE_V =? 0) &&
           (Z.land pte (Z.lor (Z.lor PTE_R PTE_W) PTE_X) =? 0) then
          freewalk fuel' (PTE2PA pte) ;; wr64 a 0
        else if negb (Z.land pte PTE_V =? 0) then panic "freewalk: leaf"
        else ret tt) (seq 0 512) ;;
      kfree kend pt
  end.

Definition uvmfree (pt sz : Z) : V unit :=
  (if sz >? 0 then uvmunmap pt 0 (PGROUNDUP sz / PGSIZE) true else ret tt) ;;
  freewalk 3 pt.

(** [uvmcopy] from offset [i]; [None] is the jump to [err]. *)
Fixpoint uvmcopy_loop (n : nat) (old new i sz : Z) : V (Z * bool) :=
  match n with
  | O => ret (i, true)
  | S n' =>
      if i <? sz then
        let! p := walk old i false in
        if p =? 0 then panic "uvmcopy: pte should exist"
        else
          let! pte := rd64 p in
          if Z.land pte PTE_V =? 0 then panic "uvmcopy: page not present"
          else
            let pa := PTE2PA pte in
            let flags := PTE_FLAGS pte in
            let! m := kalloc in
            if m =? 0 then ret (i, false)
            else
              modify (fun s => mkkmem (memmove (pmem s) m pa PGSIZE) (freelist s)) ;;
              let! r := mappages new i PGSIZE m flags in
              if negb (r =? 0) then kfree kend m ;; ret (i, false)
              else uvmcopy_loop n' old new (u64 (i + PGSIZE)) sz
      else ret (i, true)
  end.
Definition uvmcopy (old new sz : Z) : V Z :=
  let! r := uvmcopy_loop (Z.to_nat (sz / PGSIZE + 1)) old new 0 sz in
  match r with
  | (_, true) => ret 0
  | (i, false) => uvmunmap new 0 (i / PGSIZE) true ;; ret (-1)
  end.

Definition uvmclear (pt va : Z) : V unit :=
  let! p := walk pt va false in
  if p =? 0 then panic "uvmclear"
  else let! pte := rd64 p in wr64 p (Z.ldiff pte PTE_U).

(** ** Copying between kernel and user space *)

(** Bytes that fit in the page of [va], at most [len]. *)
Definition chunk (va len : Z) : Z := Z.min (PGSIZE - (va - PGROUNDDOWN va)) len.

(** [copyout]; the fuel is the number of bytes left. *)
Fixpoint copyout_loop (fuel : nat) (pt dstva : Z) (src : list Z) : V Z :=
  match fuel with
  | O => ret 0
  | S fuel' =>
      if Z.of_nat (length src) >? 0 then
        let va0 := PGROUNDDOWN dstva in
        if va0 >=? MAXVA then ret (-1)
        else
          let! p := walk pt va0 false in
          if p =? 0 then ret (-1)
          else
            let! pte := rd64 p in
            if (Z.land pte PTE_V =? 0) || (Z.land pte PTE_U =? 0) || (Z.land pte PTE_W =? 0)
            then ret (-1)
            else
              let n := Z.to_nat (chunk dstva (Z.of_nat (length src))) in
              modify (fun s => mkkmem
                (store_bytes (pmem s) (PTE2PA pte + (dstva - va0)) (take n src)) (freelist s)) ;;
              copyout_loop fuel' pt (u64 (va0 + PGSIZE)) (drop n src)
      else ret 0
  end.
Definition copyout (pt dstva : Z) (src : list Z) : V Z :=
  copyout_loop (S (length src)) pt dstva src.

(** [copyin]: its result and the bytes it stored in [dst], which on failure
    are those of the pages before the one that is not mapped. *)
Fixpoint copyin_loop (fuel : nat) (pt srcva len : Z) : V (Z * list Z) :=
  match fuel with
  | O => ret (0, [])
  | S fuel' =>
      if len >? 0 then
        let va0 := PGROUNDDOWN srcva in
        let! pa0 := walkaddr pt va0 in
        if pa0 =? 0 then ret (-1, [])
        else
          let n := chunk srcva len in
          let! bs := gets (fun s => load_bytes (pmem s) (pa0 + (srcva - va0)) (Z.to_nat n)) in
          let! r := copyin_loop fuel' pt (u64 (va0 + PGSIZE)) (len - n) in
          ret (r.1, bs ++ r.2)
      else ret (0, [])
  end.
Definition copyin (pt srcva len : Z) : V (Z * list Z) :=
  copyin_loop (S (Z.to_nat len)) pt srcva len.

(** The bytes of a chunk up to the first NUL, and whether one was seen. *)
Fixpoint take_cstr (bs : list Z) : list Z * bool :=
  match bs with
  | [] => ([], false)
  | b :: bs' =>
      if b =? 0 then ([0], true)
      else let '(r, got) := take_cstr bs' in (b :: r, got)
  end.

(** [copyinstr] returns the string with its NUL, [None] for -1. *)
Fixpoint copyinstr_loop (fuel : nat) (pt srcva max : Z) : V (option (list Z)) :=
  match fuel with
  | O => ret None
  | S fuel' =>
      if max >? 0 then
        let va0 := PGROUNDDOWN srcva in
        let! pa0 := walkaddr pt va0 in
        if pa0 =? 0 then ret None
        else
          let n := chunk srcva max in
          let! bs := gets (fun s => load_bytes (pmem s) (pa0 + (srcva - va0)) (Z.to_nat n)) in
          let '(out, got_null) := take_cstr bs in
          if (got_null : bool) then ret (Some out)
          else
            let! r := copyinstr_loop fuel' pt (u64 (va0 + PGSIZE)) (max - n) in
            ret (option_map (app out) r)
      else ret None
  end.
Definition copyinstr (pt srcva max : Z) : V (option (list Z)) :=
  copyinstr_loop (S (Z.to_nat max)) pt srcva max.

(** ** Process page tables ([kernel/proc.c]) *)

Definition proc_pagetable (trapframe : Z) : V Z :=
  let! pt := uvmcreate in
  if pt =? 0 then ret 0
  else
    let! r := mappages pt TRAMPOLINE PGSIZE trampoline (Z.lor PTE_R PTE_X) in
    if r <? 0 then uvmfree pt 0 ;; ret 0
    else
      let! r := mappages pt TRAPFRAME PGSIZE trapframe (Z.lor PTE_R PTE_W) in
      if r <? 0 then uvmunmap pt TRAMPOLINE 1 false ;; uvmfree pt 0 ;; ret 0
      else ret pt.

Definition proc_freepagetable (pt sz : Z) : V unit :=
  uvmunmap pt TRAMPOLINE 1 false ;;
  uvmunmap pt TRAPFRAME 1 false ;;
  uvmfree pt sz.

Definition proc_mapstacks (pt : Z) : V unit :=
  for_each (fun i =>
    let! pa := kalloc in
    if pa =? 0 then panic "kalloc"
    else kvmmap pt (KSTACK (Z.of_nat i)) pa PGSIZE (Z.lor PTE_R PTE_W)) (seq 0 NPROC).

(** ** The kernel's page table *)

Definition kvmmake : V Z :=
  let! pt := kalloc in
  zero_page pt ;;
  kvmmap pt UART0 UART0 PGSIZE (Z.lor PTE_R PTE_W) ;;
  kvmmap pt VIRTIO0 VIRTIO0 PGSIZE (Z.lor PTE_R PTE_W) ;;
  kvmmap pt CLINT CLINT 0x10000 (Z.lor PTE_R PTE_W) ;;
  kvmmap pt PLIC PLIC 0x4000000 (Z.lor PTE_R PTE_W) ;;
  kvmmap pt KERNBASE KERNBASE (u64 (etext - KERNBASE)) (Z.lor PTE_R PTE_X) ;;
  kvmmap pt etext etext (u64 (PHYSTOP - etext)) (Z.lor PTE_R PTE_W) ;;
  kvmmap pt TRAMPOLINE trampoline PGSIZE (Z.lor PTE_R PTE_X) ;;
  proc_mapstacks pt ;;
  ret pt.

End Vm.
