(* ===== verification/VmOps.v ===== *)
(** * Address spaces: theorems about [kernel/vm.c]

    [mappages] installs exactly the entries of its range, or runs out of page
    table pages after a prefix of them; [uvmunmap] clears exactly the entries
    of its range and returns the pages; [copyin] and [copyinstr] read exactly
    the bytes the user sees, and [copyout] writes exactly the bytes of its
    range, up to the first page the user could not write. *)

From S2P Require Import Prelude CString Kalloc Vm VmFacts.

Section Ops.
Context (kend : Z).
Abbreviation managed := (managed kend).
Abbreviation kmem_inv := (kmem_inv kend).
Abbreviation pt_wf := (pt_wf kend).

(** ** Changes outside the tree *)

Lemma tree_node m m' pt :
  (forall va k, node m pt va k <> None -> (k <= 2)%nat ->
     forall p, node m pt va k = Some p -> forall l, load64 m' (pte_addr p l va) = load64 m (pte_addr p l va)) ->
  forall va k, (k <= 2)%nat -> node m' pt va k = node m pt va k.
Proof.
  intros H va k Hk. apply node_frame. intros j p Hj Hp. apply (H va j); [congruence|lia|done].
Qed.

(** A page [r] outside the tree may change freely. *)
Section Outside.
Context (m m' : mem) (pt r : Z) (l : list Z).
Context (Hwf : pt_wf m pt l) (Hr : managed r) (Hnt : ~ in_tree m pt r).
Context (Hsame : forall x, x < r \/ r + PGSIZE <= x -> m' x = m x).

Lemma outside_entry va k p lv :
  (k <= 2)%nat -> node m pt va k = Some p -> load64 m' (pte_addr p lv va) = load64 m (pte_addr p lv va).
Proof.
  intros Hk Hp. destruct (wf_page _ _ _ _ Hwf va k p Hk Hp) as [Hm _].
  assert (Hne : p <> r) by (intros ->; apply Hnt; by exists va, k).
  destruct (pte_addr_in kend p lv va Hm). apply load64_ext. intros i Hi. apply Hsame.
  pose proof (other_page_out kend p r (pte_addr p lv va + i - p) Hm Hr Hne ltac:(lia_pages)). lia.
Qed.

Lemma outside_node va k : (k <= 2)%nat -> node m' pt va k = node m pt va k.
Proof. apply tree_node. intros va' j _ Hj p Hp lv. by apply (outside_entry va' j). Qed.

Lemma outside_pte va : pte_at m' pt va = pte_at m pt va.
Proof.
  unfold pte_at. rewrite outside_node by lia. destruct (node m pt va 2) as [p|] eqn:Hp; [|done].
  by apply (outside_entry va 2).
Qed.

Lemma outside_tree a : in_tree m' pt a <-> in_tree m pt a.
Proof.
  unfold in_tree. split; intros (va & k & Hk & Ha); exists va, k; split; try done.
  - by rewrite <- outside_node.
  - by rewrite outside_node.
Qed.

Lemma outside_wf l' : (forall a, a ∈ l' -> a ∈ l \/ a = r) -> pt_wf m' pt l'.
Proof.
  intros Hl. split.
  - intros va k p Hk Hp. rewrite outside_node in Hp by done.
    destruct (wf_page _ _ _ _ Hwf va k p Hk Hp) as [? Hn]. split; [done|].
    intros Hin. destruct (Hl p Hin) as [?| ->]; [done|]. apply Hnt. by exists va, k.
  - intros va va' k k' p Hk Hk' H1 H2. rewrite outside_node in H1, H2 by done.
    by apply (wf_inj _ _ _ _ Hwf va va' k k' p).
Qed.
End Outside.

(** ** [uvmcreate] *)

Lemma pte_at_empty m pt va :
  (forall x, pt <= x < pt + PGSIZE -> m x = 0) -> managed pt -> node m pt va 1 = None /\ pte_at m pt va = 0.
Proof.
  intros Hz Hm. assert (H1 : node m pt va 1 = None).
  { cbn [node]. destruct (pte_addr_in kend pt (2 - Z.of_nat 0) va Hm).
    assert (Hl : load64 m (pte_addr pt (2 - Z.of_nat 0) va) = 0)
      by (unfold load64; rewrite !Hz by lia; done).
    rewrite Hl. done. }
  split; [done|]. unfold pte_at. by rewrite (node_None_le _ _ _ 1 2 ltac:(lia) H1).
Qed.

Lemma uvmcreate_spec s pt l : kmem_inv s (pt :: l) ->
  exists s', uvmcreate s = Done pt s' /\ kmem_inv s' l /\ pt_wf (pmem s') pt l /\
    (forall va, pte_at (pmem s') pt va = 0) /\ (forall a, in_tree (pmem s') pt a -> a = pt).
Proof.
  intros Hinv. destruct (kalloc_pop kend s pt l Hinv) as (s1 & Hk & Hinv1 & Hout & _).
  assert (Hpt : managed pt) by (eapply free_pages_managed; [apply Hinv|by left]).
  assert (Hn : pt ∉ l) by (destruct Hinv as (_ & _ & Hnd); apply NoDup_cons in Hnd; apply Hnd).
  unfold uvmcreate. rewrite (bind_Done _ _ _ _ _ Hk).
  destruct (Z.eqb_spec pt 0) as [->|_]; [destruct Hpt as (_ & ? & _); lia|].
  unfold zero_page. rewrite bind_modify. eexists. split; [done|].
  assert (Hz : forall x, pt <= x < pt + PGSIZE -> memset (pmem s1) pt 0 PGSIZE x = 0).
  { intros x Hx. by rewrite memset_in by (lia_pages || done). }
  assert (Hno : forall va k p, node (memset (pmem s1) pt 0 PGSIZE) pt va k = Some p -> k = 0%nat /\ p = pt).
  { intros va [|k] p Hp; [by injection Hp as <-|].
    rewrite (node_None_le _ _ _ 1 (S k)) in Hp; [done|lia|]. by apply pte_at_empty. }
  split; [|split; [|split; [intros va; by apply pte_at_empty|]]]; cbn [pmem].
  - apply kmem_inv_write; [done|apply memset_ok; [lia_pages|apply Hinv1]|].
    intros pa i Hpa Hi. apply memset_out; [lia_pages|].
    apply (other_page_out kend pa pt); [|done|congruence|done].
    destruct Hinv1 as (_ & Hf & _). eapply free_pages_managed; [done|by apply list_elem_of_In].
  - split.
    + intros va k p _ Hp. by apply Hno in Hp as [-> ->].
    + intros va va' k k' p _ _ Hp Hp'. apply Hno in Hp as [-> ->], Hp' as [-> _]. done.
  - intros a (va & k & _ & Ha). apply Hno in Ha as [_ Ha]. exact Ha.
Qed.

(** ** [mappages] *)

(** C20: [mappages] on an unmapped, page-aligned range installs the entry of every page of the range
    and no other, so that [walkaddr] of a user mapping finds the physical
    page; it fails with -1 only when the allocator is exhausted (impossible
    with two free pages per mapped page), leaving a prefix of the range
    mapped.  Page-table pages come from the front of the free list, and no
    page outside the table and the free list changes. *)
Theorem mappages_maps (pt va size pa perm : Z) (s : kmem) (l : list Z) :
  kmem_inv s l -> pt_wf (pmem s) pt l ->
  page_aligned va -> page_aligned size -> 0 <= va -> 0 < size -> va + size <= MAXVA ->
  page_aligned pa -> 0 < pa -> pa + size <= 2 ^ 56 -> 0 <= perm < 1024 ->
  (forall v, va <= v < va + size -> is_valid (pte_at (pmem s) pt v) = false) ->
  exists r s' l' j,
    mappages pt va size pa perm s = Done r s' /\ evolves kend pt s l s' l' /\
    ((r = 0 /\ Z.of_nat j * PGSIZE = size) \/
     (r = -1 /\ Z.of_nat j * PGSIZE < size /\ l' = [] /\
      Z.of_nat (length l) * PGSIZE < 2 * size)) /\
    (forall v, 0 <= v < MAXVA ->
       pte_at (pmem s') pt v = mapped_entry va pa perm j (pte_at (pmem s) pt) v) /\
    (Z.testbit perm 4 = true -> forall v, va <= v < va + Z.of_nat j * PGSIZE ->
       walkaddr pt v s' = Done (pa + (v - va) / PGSIZE * PGSIZE) s').
Proof.
  intros Hinv Hwf Hva Hsz Hva0 Hsz0 Hmax Hpa Hpa0 Hpam Hperm Hfree.
  set (n := Z.to_nat (size / PGSIZE)).
  assert (Hn : Z.of_nat n * PGSIZE = size).
  { unfold n, page_aligned in *. rewrite Z2Nat.id by (apply Z.div_pos; lia_pages).
    pose proof (Z.div_mod size PGSIZE). lia_pages. }
  assert (HM : MAXVA = 2 ^ 38) by done.
  unfold mappages. rewrite Hva, Hsz. cbn [negb Z.eqb].
  destruct (Z.eqb_spec size 0); [lia|].
  rewrite u64_small by lia_pages.
  destruct (mappages_loop_spec kend pt perm Hperm n va (va + size - PGSIZE) pa s l)
    as (r & s' & l' & j & Hd & Hev & Hent & Hr); try (done || lia_pages).
  { intros v Hv. apply Hfree. lia. }
  exists r, s', l', j. split; [done|]. split; [done|].
  split.
  { pose proof (table_cost_le (pmem s) pt va n ltac:(lia_pages)).
    destruct Hr as [(-> & -> & _)|(-> & ? & ? & ?)]; [left|right]; repeat split; done || lia_pages. }
  split; [done|]. intros Hu v Hv.
  assert (Hj : (j <= n)%nat) by (destruct Hr as [(_ & -> & _)|(_ & ? & _)]; lia).
  rewrite (walkaddr_eq kend s' pt v l') by apply Hev. f_equal.
  assert (Hv' : 0 <= (v - va) / PGSIZE * PGSIZE /\ (v - va) / PGSIZE * PGSIZE <= v - va).
  { pose proof (Z.div_mod (v - va) PGSIZE). pose proof (Z.mod_pos_bound (v - va) PGSIZE).
    pose proof (Z.div_pos (v - va) PGSIZE). lia_pages. }
  unfold user_page. rewrite Hent by lia_pages. unfold mapped_entry.
  destruct (Z.leb_spec va v), (Z.ltb_spec v (va + Z.of_nat j * PGSIZE)), (Z.ltb_spec v MAXVA); try lia_pages.
  cbn [andb]. assert (Ha : page_aligned (pa + (v - va) / PGSIZE * PGSIZE)).
  { unfold page_aligned in *. by rewrite Z.mod_add by lia_pages. }
  rewrite !mk_pte_flag by (done || lia_pages). rewrite !Z.lor_spec, Hu, orb_true_r. cbn [andb orb].
  apply mk_pte_pa; [lia_pages|done|done].
Qed.

(** ** [uvmunmap] *)

(** The pages the entries of [n] pages from [a] point to. *)
Definition mapped_pages (m : mem) (pt a : Z) (n : nat) : list Z :=
  (fun i => PTE2PA (pte_at m pt (a + Z.of_nat i * PGSIZE))) <$> seq 0 n.

Definition is_leaf (pte : Z) : Prop := is_valid pte = true /\ PTE_FLAGS pte <> PTE_V.

(** Freeing a page that is not part of the tree. *)
Lemma kfree_outside s l pt pa :
  kmem_inv s l -> pt_wf (pmem s) pt l -> managed pa -> pa ∉ l -> ~ in_tree (pmem s) pt pa ->
  exists s', kfree kend pa s = Done tt s' /\ kmem_inv s' (pa :: l) /\ pt_wf (pmem s') pt (pa :: l) /\
    (forall va, pte_at (pmem s') pt va = pte_at (pmem s) pt va) /\
    (forall va k, (k <= 2)%nat -> node (pmem s') pt va k = node (pmem s) pt va k).
Proof.
  intros Hinv Hwf Hpa Hl Ht. destruct (kfree_push kend s l pa Hinv Hpa Hl) as (s' & Hk & Hinv' & Hout).
  exists s'. split; [done|]. split; [done|]. split; [|split].
  - apply (outside_wf (pmem s) (pmem s') pt pa l); try done. set_solver.
  - intros va. by apply (outside_pte (pmem s) (pmem s') pt pa l).
  - intros va k. by apply (outside_node (pmem s) (pmem s') pt pa l).
Qed.

(** What [uvmunmap] needs of the pages it frees. *)
Definition freeable (m : mem) (pt : Z) (l : list Z) (pages : list Z) : Prop :=
  NoDup pages /\ forall pa, pa ∈ pages -> managed pa /\ (pa ∉ l) /\ ~ in_tree m pt pa.

Lemma mapped_pages_S m pt a n :
  mapped_pages m pt a (S n) = PTE2PA (pte_at m pt a) :: mapped_pages m pt (a + PGSIZE) n.
Proof.
  unfold mapped_pages. cbn [seq fmap list_fmap]. f_equal; [do 2 f_equal; lia|].
  rewrite <- fmap_S_seq, <- list_fmap_compose. apply list_fmap_ext. intros i x _. cbn. do 2 f_equal. lia_pages.
Qed.

Lemma mapped_pages_ext m m' pt a n :
  (forall v, a <= v < a + Z.of_nat n * PGSIZE -> pte_at m' pt v = pte_at m pt v) ->
  mapped_pages m' pt a n = mapped_pages m pt a n.
Proof.
  intros H. unfold mapped_pages. apply list_fmap_ext. intros i x Hx.
  apply lookup_seq in Hx as [-> Hi]. f_equal. apply H. cbn. lia_pages.
Qed.

(** The body of the loop on one page. *)
Lemma unmap_one s l pt a (do_free : bool) p :
  kmem_inv s l -> pt_wf (pmem s) pt l -> 0 <= a < MAXVA -> node (pmem s) pt a 2 = Some p ->
  (do_free = true -> freeable (pmem s) pt l [PTE2PA (pte_at (pmem s) pt a)]) ->
  let l' := if do_free then PTE2PA (pte_at (pmem s) pt a) :: l else l in
  exists s',
    ((if do_free then kfree kend (PTE2PA (pte_at (pmem s) pt a)) else ret tt) ;;
     wr64 (pte_addr p 0 a) 0) s = Done tt s' /\
    kmem_inv s' l' /\ pt_wf (pmem s') pt l' /\
    (forall q, in_tree (pmem s') pt q -> in_tree (pmem s) pt q) /\
    forall va, 0 <= va < MAXVA ->
      pte_at (pmem s') pt va = if decide (a / PGSIZE = va / PGSIZE) then 0 else pte_at (pmem s) pt va.
Proof.
  intros Hinv Hwf Ha Hp Hfr. set (pa := PTE2PA _) in *.
  assert (Hw : forall s1 l1, kmem_inv s1 l1 -> pt_wf (pmem s1) pt l1 ->
    (forall va k, (k <= 2)%nat -> node (pmem s1) pt va k = node (pmem s) pt va k) ->
    (forall va, pte_at (pmem s1) pt va = pte_at (pmem s) pt va) ->
    exists s', wr64 (pte_addr p 0 a) 0 s1 = Done tt s' /\ kmem_inv s' l1 /\ pt_wf (pmem s') pt l1 /\
      (forall q, in_tree (pmem s') pt q -> in_tree (pmem s) pt q) /\
      forall va, 0 <= va < MAXVA ->
        pte_at (pmem s') pt va = if decide (a / PGSIZE = va / PGSIZE) then 0 else pte_at (pmem s) pt va).
  { intros s1 l1 Hinv1 Hwf1 Hnode Hpte.
    assert (Hp1 : node (pmem s1) pt a 2 = Some p) by (by rewrite Hnode by lia).
    destruct (leaf_write kend s1 l1 pt a p 0 Hinv1 Hwf1 Hp1 ltac:(lia) Ha) as [Hev He].
    eexists. split; [done|]. split; [apply Hev|]. split; [apply Hev|]. split.
    - intros q (va & k & Hk & Hq). cbn [pmem] in Hq.
      rewrite (leaf_node kend (pmem s1) pt a 0 p l1 Hwf1 Hp1 va k Hk), Hnode in Hq by done. by exists va, k.
    - intros va Hva. rewrite <- Hpte. by apply He. }
  destruct do_free.
  - destruct (Hfr eq_refl) as [_ Hf]. destruct (Hf pa) as (Hm & Hl & Ht); [set_solver|].
    destruct (kfree_outside s l pt pa Hinv Hwf Hm Hl Ht) as (s1 & Hk & Hinv1 & Hwf1 & Hpte & Hnode).
    destruct (Hw s1 (pa :: l) Hinv1 Hwf1 Hnode Hpte) as (s' & He & Hrest).
    exists s'. split; [by rewrite (bind_Done _ _ _ _ _ Hk)|]. exact Hrest.
  - destruct (Hw s l Hinv Hwf) as (s' & He & Hrest); [done|done|].
    exists s'. split; [by rewrite bind_ret|]. exact Hrest.
Qed.

Lemma uvmunmap_loop_spec pt (do_free : bool) : forall n a s l,
  kmem_inv s l -> pt_wf (pmem s) pt l ->
  page_aligned a -> 0 <= a -> a + Z.of_nat n * PGSIZE <= MAXVA ->
  (forall v, a <= v < a + Z.of_nat n * PGSIZE -> is_leaf (pte_at (pmem s) pt v)) ->
  (do_free = true -> freeable (pmem s) pt l (mapped_pages (pmem s) pt a n)) ->
  let l' := if do_free then reverse (mapped_pages (pmem s) pt a n) ++ l else l in
  exists s', uvmunmap_loop kend n pt a do_free s = Done tt s' /\
    kmem_inv s' l' /\ pt_wf (pmem s') pt l' /\
    forall v, 0 <= v < MAXVA ->
      pte_at (pmem s') pt v =
        if (a <=? v) && (v <? a + Z.of_nat n * PGSIZE) then 0 else pte_at (pmem s) pt v.
Proof.
  induction n as [|n IH]; intros a s l Hinv Hwf Ha Ha0 Hmax Hleaf Hfr l'; cbn [uvmunmap_loop].
  { exists s. split; [done|]. assert (l' = l) as -> by (unfold l'; by destruct do_free).
    split; [done|]. split; [done|]. intros v Hv. destruct (Z.leb_spec a v), (Z.ltb_spec v (a + Z.of_nat 0 * PGSIZE)); cbn; done || lia. }
  assert (HM : MAXVA = 2 ^ 38) by done.
  rewrite (bind_Done _ _ _ _ _ (walk_noalloc s pt a ltac:(lia_pages))).
  destruct (Hleaf a ltac:(lia_pages)) as [Hv Hflags].
  destruct (node (pmem s) pt a 2) as [p|] eqn:Hp.
  2: { unfold pte_at in Hv. by rewrite Hp in Hv. }
  rewrite (leaf_addr_pos _ _ _ _ _ _ _ Hwf Hp). unfold rd64. rewrite bind_gets.
  assert (Hat : load64 (pmem s) (pte_addr p 0 a) = pte_at (pmem s) pt a) by (unfold pte_at; by rewrite Hp).
  rewrite Hat. unfold is_valid in Hv. apply negb_true_iff in Hv. rewrite Hv.
  apply Z.eqb_neq in Hflags. rewrite Hflags.
  assert (Hsub : forall v, a + PGSIZE <= v < a + PGSIZE + Z.of_nat n * PGSIZE -> 0 <= v < MAXVA /\
                   a / PGSIZE <> v / PGSIZE).
  { intros v Hv'. split; [lia_pages|]. intros Hc. apply same_page_bounds in Hc; [lia|done|lia_pages]. }
  destruct (unmap_one s l pt a do_free p Hinv Hwf ltac:(lia_pages) Hp) as (s1 & Hs1 & Hinv1 & Hwf1 & Ht1 & He1).
  { intros Hd. destruct (Hfr Hd) as [_ Hf]. split; [apply NoDup_singleton|]. intros q Hq. apply Hf.
    rewrite mapped_pages_S. apply list_elem_of_singleton in Hq as ->. apply list_elem_of_here. }
  assert (Hpages : mapped_pages (pmem s1) pt (a + PGSIZE) n = mapped_pages (pmem s) pt (a + PGSIZE) n).
  { apply mapped_pages_ext. intros v Hv'. destruct (Hsub v Hv'). rewrite He1 by done. by case_decide. }
  destruct (IH (a + PGSIZE) s1 (if do_free then PTE2PA (pte_at (pmem s) pt a) :: l else l))
    as (s' & Hs' & Hinv' & Hwf' & He'); [done|done|by apply page_aligned_next|lia_pages|lia_pages| | |].
  { intros v Hv'. destruct (Hsub v Hv'). rewrite He1 by done. case_decide; [done|]. apply Hleaf. lia_pages. }
  { intros ->. rewrite Hpages. destruct (Hfr eq_refl) as [Hnd Hf]. rewrite mapped_pages_S in Hnd, Hf.
    apply NoDup_cons in Hnd as [Hni Hnd]. split; [done|]. intros q Hq.
    destruct (Hf q) as (? & ? & ?); [by apply list_elem_of_further|]. split; [done|]. split; [|by intros ?%Ht1].
    intros [->|?]%elem_of_cons; done. }
  assert (Hl' : (if do_free then reverse (mapped_pages (pmem s1) pt (a + PGSIZE) n) ++
             (if do_free then PTE2PA (pte_at (pmem s) pt a) :: l else l)
           else (if do_free then PTE2PA (pte_at (pmem s) pt a) :: l else l)) = l').
  { unfold l'. destruct do_free; [|done]. by rewrite Hpages, mapped_pages_S, reverse_cons, <- app_assoc. }
  rewrite Hl' in Hinv', Hwf'. exists s'. split; [|split; [done|split; [done|]]].
  - rewrite <- bind_assoc, (bind_Done _ _ _ _ _ Hs1). by rewrite u64_small by lia_pages.
  - intros v Hv'. rewrite He' by done. rewrite He1 by done.
    destruct (Z.leb_spec (a + PGSIZE) v), (Z.ltb_spec v (a + PGSIZE + Z.of_nat n * PGSIZE)),
      (Z.leb_spec a v), (Z.ltb_spec v (a + Z.of_nat (S n) * PGSIZE)); cbn; try lia_pages; try done;
      case_decide as Hc; try done.
    all: try (apply same_page_bounds in Hc; [lia_pages|done|lia_pages]).
    destruct Hc. apply (Z.div_unique v PGSIZE (a / PGSIZE) (v - a)); [lia_pages|].
    unfold page_aligned in Ha. pose proof (Z.div_mod a PGSIZE). lia_pages.
Qed.

(** [uvmunmap] on a range of leaf entries clears exactly those entries
    and, with [do_free], pushes exactly their pages on the free list; on a page
    that is not mapped it panics, freeing nothing. *)
Theorem uvmunmap_unmaps (pt va npages : Z) (do_free : bool) (s : kmem) (l : list Z) :
  kmem_inv s l -> pt_wf (pmem s) pt l ->
  page_aligned va -> 0 <= va -> 0 <= npages -> va + npages * PGSIZE <= MAXVA ->
  let pages := mapped_pages (pmem s) pt va (Z.to_nat npages) in
  ((forall v, va <= v < va + npages * PGSIZE -> is_leaf (pte_at (pmem s) pt v)) ->
   (do_free = true -> freeable (pmem s) pt l pages) ->
   let l' := if do_free then reverse pages ++ l else l in
   exists s', uvmunmap kend pt va npages do_free s = Done tt s' /\
     kmem_inv s' l' /\ pt_wf (pmem s') pt l' /\
     forall v, 0 <= v < MAXVA ->
       pte_at (pmem s') pt v =
         if (va <=? v) && (v <? va + npages * PGSIZE) then 0 else pte_at (pmem s) pt v) /\
  (0 < npages -> is_valid (pte_at (pmem s) pt va) = false ->
   exists msg, uvmunmap kend pt va npages do_free s = Panic msg).
Proof.
  intros Hinv Hwf Ha H0 Hn Hmax pages. unfold uvmunmap. rewrite Ha. cbn [negb Z.eqb].
  assert (Hnn : Z.of_nat (Z.to_nat npages) = npages) by lia. split.
  - intros Hleaf Hfr. pose proof (uvmunmap_loop_spec pt do_free (Z.to_nat npages) va s l) as H.
    rewrite Hnn in H. by apply H.
  - intros Hpos Hinvalid. destruct (Z.to_nat npages) as [|n] eqn:He; [lia|]. cbn [uvmunmap_loop].
    rewrite (bind_Done _ _ _ _ _ (walk_noalloc s pt va ltac:(lia_pages))).
    unfold pte_at in Hinvalid. destruct (node (pmem s) pt va 2) as [p|] eqn:Hp; [|by eexists].
    rewrite (leaf_addr_pos _ _ _ _ _ _ _ Hwf Hp). unfold rd64. rewrite bind_gets.
    apply negb_false_iff in Hinvalid. rewrite Hinvalid. by eexists.
Qed.

(** ** Reading user memory *)

(** The byte user code sees at [va]. *)
Definition user_byte (m : mem) (pt va : Z) : option Z :=
  if user_page m pt va =? 0 then None else Some (m (user_page m pt va + va mod PGSIZE)).

Fixpoint user_bytes (m : mem) (pt va : Z) (n : nat) : option (list Z) :=
  match n with
  | O => Some []
  | S n' =>
      match user_byte m pt va with
      | None => None
      | Some b => option_map (cons b) (user_bytes m pt (va + 1) n')
      end
  end.

(** The NUL-terminated string at [va], of at most [max] bytes with its NUL. *)
Fixpoint user_str (m : mem) (pt va : Z) (max : nat) : option (list Z) :=
  match max with
  | O => None
  | S max' =>
      match user_byte m pt va with
      | None => None
      | Some b => if b =? 0 then Some [0] else option_map (cons b) (user_str m pt (va + 1) max')
      end
  end.

Lemma user_page_same m pt va va' :
  0 <= va -> 0 <= va' -> va / PGSIZE = va' / PGSIZE -> user_page m pt va = user_page m pt va'.
Proof.
  intros H0 H0' He. unfold user_page.
  assert (HM : MAXVA = 2 ^ 26 * PGSIZE) by done.
  assert (Hlt : forall x, 0 <= x -> (x <? MAXVA) = (x / PGSIZE <? 2 ^ 26)).
  { intros x Hx. pose proof (Z.div_mod x PGSIZE). pose proof (Z.mod_pos_bound x PGSIZE).
    destruct (Z.ltb_spec x MAXVA), (Z.ltb_spec (x / PGSIZE) (2 ^ 26)); try done; lia_pages. }
  rewrite !Hlt, He by done. destruct (Z.ltb_spec (va' / PGSIZE) (2 ^ 26)) as [Hl|]; [|done].
  assert (va < MAXVA /\ va' < MAXVA).
  { split; apply Z.ltb_lt; rewrite Hlt by done; apply Z.ltb_lt; by rewrite ?He. }
  assert (Hp : pte_at m pt va = pte_at m pt va'); [|by rewrite Hp].
  destruct (proj2 (same_page va va' ltac:(lia) ltac:(lia)) He) as [Hs H3].
  unfold pte_at. rewrite (node_same_path m pt va va' 2 Hs).
  destruct (node m pt va' 2); [|done]. f_equal. by apply pte_addr_eq.
Qed.

(** ** One page of the copy loops *)
Section Chunk.
Context (m : mem) (pt va len : Z).
Context (Hva : 0 <= va < 2 ^ 64) (Hlen : 0 < len).
Let va0 := PGROUNDDOWN va.
Let n := chunk va len.

Lemma chunk_base : va0 = va / PGSIZE * PGSIZE /\ va = va0 + va mod PGSIZE /\ 0 <= va0 /\ va0 / PGSIZE = va / PGSIZE.
Proof.
  assert (H : va0 = va / PGSIZE * PGSIZE) by (by apply pgrounddown_eq).
  pose proof (Z.div_mod va PGSIZE). pose proof (Z.div_pos va PGSIZE).
  split; [done|]. rewrite H. split; [lia_pages|]. split; [lia_pages|]. by rewrite Z.div_mul by lia_pages.
Qed.

Lemma chunk_bounds : 0 < n <= len /\ va mod PGSIZE + n <= PGSIZE /\ (n < len -> va + n = va0 + PGSIZE).
Proof.
  destruct chunk_base as (_ & H & _). pose proof (Z.mod_pos_bound va PGSIZE).
  unfold n, chunk. fold va0. lia_pages.
Qed.

Lemma chunk_page i : 0 <= i < n -> user_page m pt (va + i) = user_page m pt va0 /\
  (va + i) mod PGSIZE = va - va0 + i.
Proof.
  intros Hi. destruct chunk_base as (Hb & Hm & H0 & Hd), chunk_bounds as (_ & Hfit & _).
  pose proof (Z.mod_pos_bound va PGSIZE).
  assert (Hq : va + i = PGSIZE * (va / PGSIZE) + (va - va0 + i)) by lia.
  split.
  - apply user_page_same; [lia|done|]. rewrite Hd. symmetry.
    apply (Z.div_unique _ _ _ (va - va0 + i)); [lia_pages|done].
  - symmetry. apply (Z.mod_unique _ _ (va / PGSIZE)); [lia_pages|done].
Qed.

Lemma chunk_byte i : 0 <= i < n ->
  user_byte m pt (va + i) =
    if user_page m pt va0 =? 0 then None else Some (m (user_page m pt va0 + (va - va0) + i)).
Proof.
  intros Hi. unfold user_byte. destruct (chunk_page i Hi) as [-> ->].
  destruct (_ =? 0); [done|]. do 2 f_equal. lia.
Qed.
End Chunk.

Lemma user_bytes_run m pt va (f : nat -> Z) k : forall j,
  (forall i, (i < k)%nat -> user_byte m pt (va + Z.of_nat i) = Some (f i)) ->
  user_bytes m pt va (k + j) =
    option_map (app (f <$> seq 0 k)) (user_bytes m pt (va + Z.of_nat k) j).
Proof.
  revert va f. induction k as [|k IH]; intros va f j H; cbn [Nat.add user_bytes].
  - cbn. rewrite Z.add_0_r. by destruct (user_bytes m pt va j).
  - pose proof (H 0%nat ltac:(lia)) as H0. rewrite Z.add_0_r in H0. rewrite H0.
    rewrite (IH (va + 1) (fun i => f (S i))).
    + cbn [seq fmap list_fmap]. rewrite <- fmap_S_seq, <- list_fmap_compose.
      replace (va + 1 + Z.of_nat k) with (va + Z.of_nat (S k)) by lia.
      by destruct (user_bytes m pt (va + Z.of_nat (S k)) j).
    + intros i Hi. rewrite <- (H (S i)) by lia. f_equal. lia.
Qed.

Lemma user_page_lt m pt va : user_page m pt va <> 0 -> va < MAXVA.
Proof. unfold user_page. destruct (Z.ltb_spec va MAXVA); [done|]. by intros ?. Qed.

(** After a full page the next address does not wrap. *)
Lemma next_page m pt va len :
  0 <= va < 2 ^ 64 -> 0 < len -> user_page m pt (PGROUNDDOWN va) <> 0 ->
  0 <= PGROUNDDOWN va + PGSIZE < 2 ^ 64 /\ u64 (PGROUNDDOWN va + PGSIZE) = PGROUNDDOWN va + PGSIZE.
Proof.
  intros Hva Hl Hu%user_page_lt. destruct (chunk_base va len Hva) as (_ & _ & H0 & _).
  assert (MAXVA = 2 ^ 38) by done.
  assert (0 <= PGROUNDDOWN va + PGSIZE < 2 ^ 64) by lia_pages. split; [done|]. by apply u64_small.
Qed.

(** What a copy from [va] of [len] bytes gives: the longest mapped run. *)
Definition copied_in (m : mem) (pt va len : Z) (res : Z * list Z) : Prop :=
  user_bytes m pt va (length res.2) = Some res.2 /\ Z.of_nat (length res.2) <= len /\
  ((res.1 = 0 /\ Z.of_nat (length res.2) = len) \/
   (res.1 = -1 /\ Z.of_nat (length res.2) < len /\
    user_byte m pt (va + Z.of_nat (length res.2)) = None)).

Lemma copyin_loop_spec s pt l : pt_wf (pmem s) pt l -> forall fuel va len,
  0 <= va < 2 ^ 64 -> 0 <= len -> (Z.to_nat len < fuel)%nat ->
  exists res, copyin_loop fuel pt va len s = Done res s /\ copied_in (pmem s) pt va len res.
Proof.
  intros Hwf. induction fuel as [|fuel IH]; intros va len Hva Hlen Hf; [lia|]. cbn [copyin_loop].
  destruct (Z.gtb_spec len 0); [|exists (0, []); split; [done|]; unfold copied_in; cbn; split; [done|]; lia].
  rewrite (bind_Done _ _ _ _ _ (walkaddr_eq kend s pt _ l Hwf)).
  pose proof (chunk_byte (pmem s) pt va len Hva ltac:(lia)) as Hb.
  destruct (chunk_bounds va len Hva ltac:(lia)) as (Hn & _ & Hnext). set (n := chunk va len) in *.
  destruct (Z.eqb_spec (user_page (pmem s) pt (PGROUNDDOWN va)) 0) as [He|He].
  - pose proof (Hb 0 ltac:(lia)) as Hb0. exists (-1, []). split; [done|]. split; [done|].
    cbn [fst snd length]. change (Z.of_nat 0) with 0. split; [lia|]. right. split; [done|]. split; [lia|done].
  - rewrite bind_gets. destruct (next_page _ _ va len Hva ltac:(lia) He) as [Hr ->].
    destruct (IH _ (len - n) Hr ltac:(lia) ltac:(lia)) as ([r bs] & Hd & Hc & Hle & Hres). cbn [fst snd] in *.
    rewrite (bind_Done _ _ _ _ _ Hd). eexists. split; [done|].
    set (bs0 := load_bytes _ _ _).
    assert (Hl0 : length bs0 = Z.to_nat n) by (unfold bs0, load_bytes; by rewrite length_fmap, length_seq).
    assert (Hrun : forall j, user_bytes (pmem s) pt va (Z.to_nat n + j) =
              option_map (app bs0) (user_bytes (pmem s) pt (va + n) j)).
    { intros j. rewrite (user_bytes_run _ _ _
        (fun i => pmem s (user_page (pmem s) pt (PGROUNDDOWN va) + (va - PGROUNDDOWN va) + Z.of_nat i)))
        by (intros i Hi; apply Hb; lia). by rewrite Z2Nat.id by lia. }
    unfold copied_in. cbn [fst snd]. rewrite length_app, Hl0.
    destruct (Z.eq_dec n len) as [Heq|Hne].
    + assert (bs = []) as -> by (apply nil_length_inv; lia). cbn [length]. rewrite Hrun. cbn [user_bytes option_map].
      split; [done|]. split; [lia|]. left. split; [|lia]. destruct Hres as [[-> _]|(_ & Hc' & _)]; [done|cbn in Hc'; lia].
    + rewrite Hrun. replace (va + n) with (PGROUNDDOWN va + PGSIZE) by lia. rewrite Hc. cbn [option_map].
      split; [done|]. split; [lia|]. destruct Hres as [[-> ?]|(-> & ? & Hnone)]; [left; split; [done|lia]|right].
      split; [done|]. split; [lia|]. rewrite <- Hnone. f_equal. lia.
Qed.

(** [copyin] stores in the kernel exactly the bytes the page table shows
    the user from [srcva] on, up to [len] or the first byte that is not mapped
    for the user; it returns 0 exactly when it stored all [len] and -1
    otherwise, without changing the machine state. *)
Theorem copyin_reads_user_bytes (pt srcva len : Z) (s : kmem) (l : list Z) :
  pt_wf (pmem s) pt l -> 0 <= srcva < 2 ^ 64 -> 0 <= len ->
  exists res, copyin pt srcva len s = Done res s /\ copied_in (pmem s) pt srcva len res.
Proof. intros Hwf Hva Hl. unfold copyin. apply (copyin_loop_spec s pt l Hwf); [done|done|lia]. Qed.

Lemma user_str_run m pt va (f : nat -> Z) k : forall j,
  (forall i, (i < k)%nat -> user_byte m pt (va + Z.of_nat i) = Some (f i)) ->
  user_str m pt va (k + j) =
    let '(out, got) := take_cstr (f <$> seq 0 k) in
    if (got : bool) then Some out else option_map (app out) (user_str m pt (va + Z.of_nat k) j).
Proof.
  revert va f. induction k as [|k IH]; intros va f j H; cbn [Nat.add user_str].
  - cbn. rewrite Z.add_0_r. by destruct (user_str m pt va j).
  - pose proof (H 0%nat ltac:(lia)) as H0. rewrite Z.add_0_r in H0. rewrite H0.
    cbn [seq fmap list_fmap take_cstr]. destruct (f 0%nat =? 0) eqn:Hf; [done|].
    rewrite (IH (va + 1) (fun i => f (S i))).
    + rewrite <- fmap_S_seq, <- list_fmap_compose.
      replace (va + 1 + Z.of_nat k) with (va + Z.of_nat (S k)) by lia. unfold compose.
      destruct (take_cstr ((fun x => f (S x)) <$> seq 0 k)) as [out []]; [done|].
      by destruct (user_str m pt (va + Z.of_nat (S k)) j).
    + intros i Hi. rewrite <- (H (S i)) by lia. f_equal. lia.
Qed.

Lemma copyinstr_loop_spec s pt l : pt_wf (pmem s) pt l -> forall fuel va max,
  0 <= va < 2 ^ 64 -> 0 <= max -> (Z.to_nat max < fuel)%nat ->
  copyinstr_loop fuel pt va max s = Done (user_str (pmem s) pt va (Z.to_nat max)) s.
Proof.
  intros Hwf. induction fuel as [|fuel IH]; intros va max Hva Hlen Hf; [lia|]. cbn [copyinstr_loop].
  destruct (Z.gtb_spec max 0); [|replace max with 0 by lia; done].
  rewrite (bind_Done _ _ _ _ _ (walkaddr_eq kend s pt _ l Hwf)).
  pose proof (chunk_byte (pmem s) pt va max Hva ltac:(lia)) as Hb.
  destruct (chunk_bounds va max Hva ltac:(lia)) as (Hn & _ & Hnext). set (n := chunk va max) in *.
  destruct (Z.eqb_spec (user_page (pmem s) pt (PGROUNDDOWN va)) 0) as [He|He].
  - pose proof (Hb 0 ltac:(lia)) as Hb0. rewrite Z.add_0_r in Hb0.
    destruct (Z.to_nat max) eqn:Hz; [lia|]. cbn [user_str]. by rewrite Hb0.
  - rewrite bind_gets. destruct (next_page _ _ va max Hva ltac:(lia) He) as [Hr ->].
    replace (Z.to_nat max) with (Z.to_nat n + Z.to_nat (max - n))%nat by lia.
    rewrite (user_str_run _ _ _
      (fun i => pmem s (user_page (pmem s) pt (PGROUNDDOWN va) + (va - PGROUNDDOWN va) + Z.of_nat i)))
      by (intros i Hi; apply Hb; lia).
    unfold load_bytes. destruct (take_cstr _) as [out []]; [done|].
    rewrite (bind_Done _ _ _ _ _ (IH _ (max - n) Hr ltac:(lia) ltac:(lia))).
    unfold ret. do 2 f_equal.
    destruct (Z.eq_dec n max) as [->|]; [by rewrite Z.sub_diag|]. f_equal. lia.
Qed.

(** [copyinstr] returns exactly the user's NUL-terminated string at
    [srcva], and -1 when it meets an unmapped byte or no NUL within [max]
    bytes. *)
Theorem copyinstr_reads_user_string (pt srcva max : Z) (s : kmem) (l : list Z) :
  pt_wf (pmem s) pt l -> 0 <= srcva < 2 ^ 64 -> 0 <= max ->
  copyinstr pt srcva max s = Done (user_str (pmem s) pt srcva (Z.to_nat max)) s.
Proof. intros Hwf Hva Hl. unfold copyinstr. apply (copyinstr_loop_spec s pt l Hwf); [done|done|lia]. Qed.

(** ** Writing user memory *)

Definition user_entry (m : mem) (pt va : Z) : bool :=
  (va <? MAXVA) && Z.testbit (pte_at m pt va) 0 && Z.testbit (pte_at m pt va) 4.
Definition user_writable (m : mem) (pt va : Z) : bool :=
  user_entry m pt va && Z.testbit (pte_at m pt va) 2.

(** The pages mapped for the user are allocated pages outside the page table,
    each mapped once. *)
Record space_ok (m : mem) (pt : Z) (l : list Z) : Prop := {
  sp_page va : 0 <= va -> user_entry m pt va = true ->
    managed (PTE2PA (pte_at m pt va)) /\ (PTE2PA (pte_at m pt va) ∉ l) /\
    ~ in_tree m pt (PTE2PA (pte_at m pt va));
  sp_inj va va' : 0 <= va -> 0 <= va' -> user_entry m pt va = true -> user_entry m pt va' = true ->
    PTE2PA (pte_at m pt va) = PTE2PA (pte_at m pt va') -> va / PGSIZE = va' / PGSIZE
}.

Lemma user_page_entry m pt va :
  user_page m pt va = if user_entry m pt va then PTE2PA (pte_at m pt va) else 0.
Proof. done. Qed.

Lemma store_bytes_out m a bs x : x < a \/ a + Z.of_nat (length bs) <= x -> store_bytes m a bs x = m x.
Proof.
  revert m a. induction bs as [|b bs IH]; intros m a H; [done|]. cbn [store_bytes length] in *.
  rewrite IH by lia. unfold store8. destruct (Z.eqb_spec x a); [lia|done].
Qed.

Lemma store_bytes_in m a bs i b :
  bs !! i = Some b -> store_bytes m a bs (a + Z.of_nat i) = u8 b.
Proof.
  revert m a i. induction bs as [|c bs IH]; intros m a i Hb; [done|]. cbn [store_bytes].
  destruct i as [|i]; cbn in Hb.
  - injection Hb as ->. rewrite store_bytes_out by lia. unfold store8. rewrite Z.add_0_r, Z.eqb_refl. done.
  - rewrite <- (IH (store8 m a c) (a + 1) i Hb). f_equal. lia.
Qed.

Lemma store_bytes_ok m a bs : mem_ok m -> mem_ok (store_bytes m a bs).
Proof.
  revert m a. induction bs as [|b bs IH]; intros m a Hm; [done|]. apply IH. intros x.
  unfold store8. destruct (x =? a); [apply u8_range|apply Hm].
Qed.

(** Bytes user code sees after [bs] were stored at [dst]. *)
Definition written (m m' : mem) (pt dst : Z) (bs : list Z) : Prop :=
  forall va, 0 <= va ->
    user_byte m' pt va =
      if (dst <=? va) && (va <? dst + Z.of_nat (length bs))
      then bs !! Z.to_nat (va - dst) else user_byte m pt va.

(** Physical address [a] is in no page user code can access. *)
Definition not_user (m : mem) (pt a : Z) : Prop :=
  forall va, 0 <= va -> user_entry m pt va = true -> a < PTE2PA (pte_at m pt va) \/ PTE2PA (pte_at m pt va) + PGSIZE <= a.

Lemma run_same_page m pt dst n va :
  0 <= dst -> dst mod PGSIZE + n <= PGSIZE -> dst <= va < dst + n ->
  user_page m pt va = user_page m pt dst.
Proof.
  intros Hd Hn Hva. apply user_page_same; [lia|done|]. symmetry.
  pose proof (Z.mod_pos_bound dst PGSIZE). pose proof (Z.div_mod dst PGSIZE).
  apply (Z.div_unique va PGSIZE (dst / PGSIZE) (dst mod PGSIZE + (va - dst))); lia_pages.
Qed.

(** Storing bytes inside the user page of [dst]. *)
Lemma store_user s l pt dst bs :
  kmem_inv s l -> pt_wf (pmem s) pt l -> space_ok (pmem s) pt l ->
  0 <= dst -> user_entry (pmem s) pt dst = true ->
  dst mod PGSIZE + Z.of_nat (length bs) <= PGSIZE -> Forall (fun b => 0 <= b < 256) bs ->
  let s' := mkkmem (store_bytes (pmem s) (PTE2PA (pte_at (pmem s) pt dst) + dst mod PGSIZE) bs) (freelist s) in
  kmem_inv s' l /\ pt_wf (pmem s') pt l /\ space_ok (pmem s') pt l /\
  (forall va, pte_at (pmem s') pt va = pte_at (pmem s) pt va) /\ written (pmem s) (pmem s') pt dst bs /\
  (forall a, not_user (pmem s) pt a -> pmem s' a = pmem s a).
Proof.
  intros Hinv Hwf Hsp Hd Hu Hfit Hbs. set (pa := PTE2PA _). set (off := dst mod PGSIZE) in *. intros s'.
  destruct (sp_page _ _ _ Hsp dst Hd Hu) as (Hm & Hl & Ht). fold pa in Hm, Hl, Ht.
  pose proof (Z.mod_pos_bound dst PGSIZE ltac:(lia_pages)) as Hoff. fold off in Hoff.
  assert (Hout : forall x, x < pa + off \/ pa + off + Z.of_nat (length bs) <= x -> pmem s' x = pmem s x).
  { intros x Hx. apply store_bytes_out. lia. }
  assert (Hpage : forall x, x < pa \/ pa + PGSIZE <= x -> pmem s' x = pmem s x) by (intros x Hx; apply Hout; lia).
  assert (Hpte : forall va, pte_at (pmem s') pt va = pte_at (pmem s) pt va)
    by (intros va; by apply (outside_pte (pmem s) _ pt pa l)).
  assert (Hent : forall va, user_entry (pmem s') pt va = user_entry (pmem s) pt va)
    by (intros va; unfold user_entry; by rewrite Hpte).
  assert (Hint : forall a, in_tree (pmem s') pt a <-> in_tree (pmem s) pt a)
    by (intros a; by apply (outside_tree (pmem s) _ pt pa l)).
  split; [|split; [|split; [|split; [done|split]]]].
  - apply kmem_inv_write; [done|apply store_bytes_ok, Hinv|]. intros r i Hr Hi. apply Hpage.
    apply (other_page_out kend r pa); [|done|congruence|done].
    destruct Hinv as (_ & Hf & _). eapply free_pages_managed; [done|by apply list_elem_of_In].
  - apply (outside_wf (pmem s) _ pt pa l); try done. auto.
  - split.
    + intros va H0 He. rewrite Hent in He. rewrite Hpte, Hint. by apply Hsp.
    + intros va va' H0 H0' He He'. rewrite Hent in He, He'. rewrite !Hpte. by apply Hsp.
  - intros va H0. unfold user_byte. rewrite !user_page_entry, Hent, Hpte.
    destruct (user_entry (pmem s) pt va) eqn:He.
    2: { destruct (Z.leb_spec dst va), (Z.ltb_spec va (dst + Z.of_nat (length bs))); try done.
         exfalso. pose proof (run_same_page (pmem s) pt dst (Z.of_nat (length bs)) va Hd Hfit ltac:(lia)) as Hsame.
         rewrite !user_page_entry, He, Hu in Hsame. fold pa in Hsame. destruct Hm as (_ & ? & _). lia. }
    destruct (sp_page _ _ _ Hsp va H0 He) as (Hmv & _ & _).
    destruct (Z.eqb_spec (PTE2PA (pte_at (pmem s) pt va)) 0); [destruct Hmv as (_ & ? & _); lia|].
    pose proof (Z.mod_pos_bound va PGSIZE ltac:(lia_pages)) as Hov.
    destruct (decide (PTE2PA (pte_at (pmem s) pt va) = pa)) as [Hpa|Hpa].
    + pose proof (sp_inj _ _ _ Hsp va dst H0 Hd He Hu Hpa) as Hdiv. rewrite Hpa.
      pose proof (Z.div_mod va PGSIZE). pose proof (Z.div_mod dst PGSIZE). fold off in H1.
      destruct (Z.leb_spec dst va), (Z.ltb_spec va (dst + Z.of_nat (length bs))); cbn [andb];
        try (f_equal; apply Hout; lia_pages).
      destruct (lookup_lt_is_Some_2 bs (Z.to_nat (va - dst))) as [b Hb]; [lia|]. rewrite Hb. f_equal.
      replace (pa + va mod PGSIZE) with (pa + off + Z.of_nat (Z.to_nat (va - dst))) by lia_pages.
      unfold s'. cbn [pmem]. rewrite (store_bytes_in _ _ _ _ b Hb). apply u8_small.
      rewrite Forall_lookup in Hbs. by apply (Hbs _ _ Hb).
    + assert (~ (dst <= va < dst + Z.of_nat (length bs))).
      { intros Hc. apply Hpa.
        pose proof (run_same_page (pmem s) pt dst (Z.of_nat (length bs)) va Hd Hfit Hc) as Hsame.
        by rewrite !user_page_entry, He, Hu in Hsame. }
      replace ((dst <=? va) && (va <? dst + Z.of_nat (length bs))) with false
        by (destruct (Z.leb_spec dst va), (Z.ltb_spec va (dst + Z.of_nat (length bs))); cbn; done || lia).
      f_equal. apply Hpage. by apply (other_page_out kend _ pa).
  - intros a Ha. apply Hpage. exact (Ha dst Hd Hu).
Qed.

Lemma written_app m m1 m2 pt dst bs1 bs2 :
  0 <= dst -> written m m1 pt dst bs1 -> written m1 m2 pt (dst + Z.of_nat (length bs1)) bs2 ->
  written m m2 pt dst (bs1 ++ bs2).
Proof.
  intros Hd H1 H2 va Hva. rewrite H2, H1, length_app by done.
  destruct (Z.leb_spec dst va); cbn [andb].
  2: { destruct (Z.leb_spec (dst + Z.of_nat (length bs1)) va); [lia|done]. }
  destruct (Z.leb_spec (dst + Z.of_nat (length bs1)) va); cbn [andb].
  - rewrite lookup_app_r by lia.
    destruct (Z.ltb_spec va (dst + Z.of_nat (length bs1))); [lia|].
    destruct (Z.ltb_spec va (dst + Z.of_nat (length bs1) + Z.of_nat (length bs2))),
      (Z.ltb_spec va (dst + Z.of_nat (length bs1 + length bs2))); try lia; [|done].
    f_equal. lia.
  - destruct (Z.ltb_spec va (dst + Z.of_nat (length bs1))), (Z.ltb_spec va (dst + Z.of_nat (length bs1 + length bs2))); try lia.
    symmetry. apply lookup_app_l. lia.
Qed.

Lemma user_entry_base m pt va : 0 <= va < 2 ^ 64 ->
  user_entry m pt (PGROUNDDOWN va) = user_entry m pt va /\
  (user_entry m pt va = true -> pte_at m pt (PGROUNDDOWN va) = pte_at m pt va).
Proof.
  intros Hva. destruct (chunk_base va 1 Hva) as (Hb & Hm & H0 & Hd).
  pose proof (Z.mod_pos_bound va PGSIZE ltac:(lia_pages)).
  assert (HM : MAXVA = 2 ^ 26 * PGSIZE) by done. unfold user_entry.
  destruct (Z.ltb_spec (PGROUNDDOWN va) MAXVA) as [Hl|Hl], (Z.ltb_spec va MAXVA); try done; try lia_pages.
  - assert (Hp : pte_at m pt (PGROUNDDOWN va) = pte_at m pt va); [|by rewrite Hp].
    destruct (proj2 (same_page (PGROUNDDOWN va) va ltac:(lia) ltac:(lia)) Hd) as [Hs H3].
    unfold pte_at. rewrite (node_same_path m pt _ _ 2 Hs).
    destruct (node m pt va 2); [|done]. f_equal. by apply pte_addr_eq.
Qed.

Lemma written_bytes m m' pt dst bs : 0 <= dst -> written m m' pt dst bs ->
  user_bytes m' pt dst (length bs) = Some bs.
Proof.
  intros Hd Hwr. rewrite <- (Nat.add_0_r (length bs)).
  rewrite (user_bytes_run _ _ _ (fun i => default 0 (bs !! i))).
  - cbn. rewrite app_nil_r. f_equal. apply list_eq. intros i. rewrite list_lookup_fmap.
    destruct (lt_dec i (length bs)).
    + rewrite lookup_seq_Some by done. cbn. destruct (lookup_lt_is_Some_2 bs i) as [b Hb]; [done|]. by rewrite Hb.
    + rewrite !lookup_ge_None_2 by (rewrite ?length_seq; lia). done.
  - intros i Hi. rewrite (Hwr (dst + Z.of_nat i) ltac:(lia)).
    destruct (Z.leb_spec dst (dst + Z.of_nat i)), (Z.ltb_spec (dst + Z.of_nat i) (dst + Z.of_nat (length bs))); try lia.
    cbn. replace (Z.to_nat (dst + Z.of_nat i - dst)) with i by lia.
    destruct (lookup_lt_is_Some_2 bs i) as [b Hb]; [done|]. by rewrite Hb.
Qed.

(** What [copyout] leaves behind: [k] bytes written, [r] its result. *)
Record copied (pt dst : Z) (src : list Z) (s : kmem) (l : list Z) (k : nat) (r : Z) (s' : kmem) : Prop := {
  cp_inv : kmem_inv s' l;
  cp_wf : pt_wf (pmem s') pt l;
  cp_space : space_ok (pmem s') pt l;
  cp_pte va : pte_at (pmem s') pt va = pte_at (pmem s) pt va;
  cp_written : written (pmem s) (pmem s') pt dst (take k src);
  cp_result :
    (r = 0 /\ k = length src) \/
    (r = -1 /\ (k < length src)%nat /\ user_writable (pmem s) pt (dst + Z.of_nat k) = false);
  cp_frame a : not_user (pmem s) pt a -> pmem s' a = pmem s a
}.

Lemma copied_none pt dst src s l r :
  kmem_inv s l -> pt_wf (pmem s) pt l -> space_ok (pmem s) pt l ->
  (r = 0 /\ 0%nat = length src) \/
  (r = -1 /\ (0 < length src)%nat /\ user_writable (pmem s) pt (dst + Z.of_nat 0) = false) ->
  copied pt dst src s l 0 r s.
Proof.
  intros Hi Hw Hs Hr. split; try done. intros va Hva. rewrite take_0. cbn [length].
  change (Z.of_nat 0) with 0.
  destruct (Z.leb_spec dst va), (Z.ltb_spec va (dst + 0)); cbn [andb]; done || lia.
Qed.

(** A first chunk of [n] bytes that ends at a page boundary [nxt] or is all of
    [src], then the rest. *)
Lemma copied_chunk pt dst src s l n nxt s1 k r s' :
  0 <= dst -> (0 < n <= length src)%nat -> dst + Z.of_nat n <= nxt ->
  ((n < length src)%nat -> dst + Z.of_nat n = nxt) ->
  (forall va, pte_at (pmem s1) pt va = pte_at (pmem s) pt va) ->
  written (pmem s) (pmem s1) pt dst (take n src) ->
  (forall a, not_user (pmem s) pt a -> pmem s1 a = pmem s a) ->
  copied pt nxt (drop n src) s1 l k r s' -> copied pt dst src s l (n + k) r s'.
Proof.
  intros Hd Hn Hle Hnext Hpte1 Hwr1 Hfr1 [? ? ? Hpte2 Hwr2 Hres Hfr2]. rewrite length_drop in Hres.
  assert (Hlt : length (take n src) = n) by (rewrite length_take; lia).
  split; [done|done|done| | | |].
  - intros va. by rewrite Hpte2.
  - rewrite <- take_take_drop. apply (written_app _ (pmem s1)); [lia|done|]. rewrite Hlt.
    destruct (Nat.eq_dec n (length src)) as [He|He].
    + rewrite drop_ge in Hwr2 |- * by lia. rewrite take_nil in *. intros va Hva. rewrite (Hwr2 va Hva). cbn [length].
      change (Z.of_nat 0) with 0.
      destruct (Z.leb_spec nxt va), (Z.ltb_spec va (nxt + 0)),
        (Z.leb_spec (dst + Z.of_nat n) va), (Z.ltb_spec va (dst + Z.of_nat n + 0)); cbn [andb]; done || lia.
    + by rewrite Hnext by lia.
  - destruct Hres as [[-> ->]|(-> & Hk & Hnw)]; [left; split; [done|lia]|right]. split; [done|]. split; [lia|].
    rewrite <- Hnw. unfold user_writable, user_entry. rewrite !Hpte1.
    replace (dst + Z.of_nat (n + k)) with (nxt + Z.of_nat k) by lia. done.
  - intros a Ha. rewrite Hfr2, Hfr1; [done|done|]. intros va Hva He. rewrite Hpte1. apply Ha; [done|].
    rewrite <- He. unfold user_entry. by rewrite Hpte1.
Qed.

Lemma copyout_loop_spec pt l : forall fuel dst src s,
  kmem_inv s l -> pt_wf (pmem s) pt l -> space_ok (pmem s) pt l ->
  0 <= dst < 2 ^ 64 -> Forall (fun b => 0 <= b < 256) src -> (length src < fuel)%nat ->
  exists k r s', copyout_loop fuel pt dst src s = Done r s' /\ copied pt dst src s l k r s'.
Proof.
  induction fuel as [|fuel IH]; intros dst src s Hinv Hwf Hsp Hd Hbs Hf; [lia|]. cbn [copyout_loop].
  destruct (Z.gtb_spec (Z.of_nat (length src)) 0) as [Hlen|Hlen].
  2: { exists 0%nat, 0, s. split; [done|]. apply copied_none; [done..|]. left. split; [done|]. lia. }
  destruct (user_entry_base (pmem s) pt dst Hd) as [Hent Hpte].
  destruct (chunk_base dst (Z.of_nat (length src)) Hd) as (Hb & Hm & H0 & Hdiv).
  set (va0 := PGROUNDDOWN dst) in *.
  assert (Hfail : user_writable (pmem s) pt dst = false -> copied pt dst src s l 0 (-1) s).
  { intros Hw. apply copied_none; [done..|]. right. change (Z.of_nat 0) with 0. rewrite Z.add_0_r.
    split; [done|]. split; [lia|done]. }
  destruct (Z.geb_spec va0 MAXVA) as [Hge|Hlt].
  { exists 0%nat, (-1), s. split; [done|]. apply Hfail. unfold user_writable. rewrite <- Hent.
    unfold user_entry. by destruct (Z.ltb_spec va0 MAXVA); [lia|]. }
  rewrite (bind_Done _ _ _ _ _ (walk_noalloc s pt va0 ltac:(lia))).
  destruct (node (pmem s) pt va0 2) as [p|] eqn:Hp.
  2: { exists 0%nat, (-1), s. split; [done|]. apply Hfail. unfold user_writable. rewrite <- Hent.
       unfold user_entry, pte_at. rewrite Hp, Z.bits_0, andb_false_r. done. }
  rewrite (leaf_addr_pos _ _ _ _ _ _ _ Hwf Hp). unfold rd64. rewrite bind_gets.
  assert (Hat : load64 (pmem s) (pte_addr p 0 va0) = pte_at (pmem s) pt va0) by (unfold pte_at; by rewrite Hp).
  rewrite Hat, land_V_bit. change PTE_U with (Z.shiftl 1 4). change PTE_W with (Z.shiftl 1 2).
  rewrite !land_bit by lia.
  assert (Hue : user_entry (pmem s) pt va0 = Z.testbit (pte_at (pmem s) pt va0) 0 && Z.testbit (pte_at (pmem s) pt va0) 4).
  { unfold user_entry. by destruct (Z.ltb_spec va0 MAXVA); [|lia]. }
  rewrite <- !negb_andb, <- Hue, Hent.
  destruct (user_entry (pmem s) pt dst) eqn:Hu; cbn [andb negb].
  2: { exists 0%nat, (-1), s. split; [done|]. apply Hfail. unfold user_writable. by rewrite Hu. }
  rewrite Hpte by done. destruct (Z.testbit (pte_at (pmem s) pt dst) 2) eqn:Hw; cbn [negb].
  2: { exists 0%nat, (-1), s. split; [done|]. apply Hfail. unfold user_writable. by rewrite Hu, Hw. }
  rewrite bind_modify.
  destruct (chunk_bounds dst (Z.of_nat (length src)) Hd ltac:(lia)) as (Hn & Hfit & Hnext).
  set (n := chunk dst (Z.of_nat (length src))) in *.
  assert (Hlt' : length (take (Z.to_nat n) src) = Z.to_nat n) by (rewrite length_take; lia).
  assert (Hoff : dst - va0 = dst mod PGSIZE) by lia. rewrite Hoff.
  destruct (store_user s l pt dst (take (Z.to_nat n) src)) as (Hinv1 & Hwf1 & Hsp1 & Hpte1 & Hwr1 & Hfr1);
    [done|done|done|lia|done|rewrite Hlt'; lia|by apply Forall_take|].
  set (s1 := mkkmem _ _) in *.
  assert (HM : MAXVA = 2 ^ 38) by done.
  assert (Hr : 0 <= va0 + PGSIZE < 2 ^ 64) by lia_pages. rewrite (u64_small _ Hr).
  destruct (IH (va0 + PGSIZE) (drop (Z.to_nat n) src) s1) as (k & r & s' & Hs' & Hc);
    [done|done|done|done|by apply Forall_drop|rewrite length_drop; lia|].
  exists (Z.to_nat n + k)%nat, r, s'. split; [done|].
  apply (copied_chunk pt dst src s l (Z.to_nat n) (va0 + PGSIZE) s1); done || lia.
Qed.

(** C21: [copyout] writes exactly the bytes of its range, changing no other
    byte user code sees, no page-table entry and no free page; it returns -1
    only at the first address user code could not write, with the bytes
    before it written.  Reading the range back after success gives [src]. *)
Theorem copyout_writes_user_bytes (pt dstva : Z) (src : list Z) (s : kmem) (l : list Z) :
  kmem_inv s l -> pt_wf (pmem s) pt l -> space_ok (pmem s) pt l ->
  0 <= dstva < 2 ^ 64 -> Forall (fun b => 0 <= b < 256) src ->
  exists k r s', copyout pt dstva src s = Done r s' /\ copied pt dstva src s l k r s' /\
    (r = 0 -> copyin pt dstva (Z.of_nat (length src)) s' = Done (0, src) s').
Proof.
  intros Hinv Hwf Hsp Hd Hbs. unfold copyout.
  destruct (copyout_loop_spec pt l (S (length src)) dstva src s) as (k & r & s' & Hs' & Hc); [done..|lia|].
  exists k, r, s'. split; [done|]. split; [done|]. intros ->.
  assert (Hk : k = length src) by (destruct (cp_result _ _ _ _ _ _ _ _ Hc) as [[_ ?]|[? _]]; [done|lia]). subst k.
  pose proof (cp_written _ _ _ _ _ _ _ _ Hc) as Hwr. rewrite take_ge in Hwr by lia.
  assert (Hall : user_bytes (pmem s') pt dstva (length src) = Some src) by (by apply written_bytes with (pmem s); [lia|]).
  unfold copyin.
  destruct (copyin_loop_spec s' pt l (cp_wf _ _ _ _ _ _ _ _ Hc) (S (Z.to_nat (Z.of_nat (length src)))) dstva
    (Z.of_nat (length src)) Hd ltac:(lia) ltac:(lia)) as ([r bs] & -> & H1 & H2 & H3). cbn [fst snd] in *.
  destruct H3 as [[-> Hlen]|(-> & Hlen & Hnone)].
  - replace (length bs) with (length src) in H1 by lia. rewrite Hall in H1. by injection H1 as <-.
  - exfalso. rewrite (Hwr (dstva + Z.of_nat (length bs)) ltac:(lia)) in Hnone.
    destruct (Z.leb_spec dstva (dstva + Z.of_nat (length bs))),
      (Z.ltb_spec (dstva + Z.of_nat (length bs)) (dstva + Z.of_nat (length src))); try lia. cbn [andb] in Hnone.
    apply lookup_ge_None in Hnone. lia.
Qed.

End Ops.

(** ** Concrete instances *)

(** A machine with five free pages. *)
Definition kend5 : Z := PHYSTOP - 5 * PGSIZE.
Definition page5 (i : Z) : Z := kend5 + i * PGSIZE.
Definition five_mem : mem :=
  store64 (store64 (store64 (store64 (store64 ramp (page5 4) 0) (page5 3) (page5 4))
    (page5 2) (page5 3)) (page5 1) (page5 2)) (page5 0) (page5 1).
Definition five_pages : kmem := mkkmem five_mem (page5 0).

Lemma page5_managed i : 0 <= i < 5 -> managed kend5 (page5 i).
Proof.
  intros Hi. unfold managed, page_aligned, page5, kend5. rewrite Z.mod_add by lia_pages.
  repeat split; done || lia_pages.
Qed.

Lemma five_pages_inv : kmem_inv kend5 five_pages (page5 <$> [0; 1; 2; 3; 4]).
Proof.
  assert (Hr : forall i, 0 <= i < 5 -> 0 <= page5 i < 2 ^ 64) by (unfold page5, kend5; lia_pages).
  split; [repeat apply store64_ok; apply ramp_ok|]. split.
  - cbn [fmap list_fmap five_pages pmem freelist]. unfold five_mem.
    repeat (constructor; [by apply page5_managed|];
      rewrite ?load_store64_out by (unfold page5, kend5; lia_pages);
      rewrite load_store64 by (lia || by apply Hr)).
    constructor.
  - apply NoDup_fmap_2; [intros i j; unfold page5; lia_pages|].
    repeat (constructor; [set_solver|]). constructor.
Qed.

Definition urwx : Z := Z.lor (Z.lor (Z.lor PTE_W PTE_R) PTE_X) PTE_U.

Definition free3 : list Z := [page5 2; page5 3; page5 4].

(** A page table for the page [page5 0], before and after mapping it at 0. *)
Lemma fresh_space : exists s, let pt := page5 1 in
  kmem_inv kend5 s free3 /\ pt_wf kend5 (pmem s) pt free3 /\
  (forall va, pte_at (pmem s) pt va = 0) /\ ~ in_tree (pmem s) pt (page5 0).
Proof.
  destruct (kalloc_pop kend5 _ _ _ five_pages_inv) as (s1 & _ & Hinv & _).
  destruct (uvmcreate_spec kend5 s1 (page5 1) free3 Hinv) as (s2 & _ & Hi & Hw & Hp & Ht).
  exists s2. split; [done|]. split; [done|]. split; [done|]. intros Hc. apply Ht in Hc.
  unfold page5 in Hc. lia_pages.
Qed.

Lemma mapped_space_at v0 : v0 = 0 \/ v0 = PGSIZE -> exists s l, let pt := page5 1 in
  kmem_inv kend5 s l /\ pt_wf kend5 (pmem s) pt l /\
  (forall v, 0 <= v < MAXVA -> pte_at (pmem s) pt v =
     if (v0 <=? v) && (v <? v0 + PGSIZE) then mk_pte (page5 0) urwx else 0) /\
  (page5 0 ∉ l) /\ ~ in_tree (pmem s) pt (page5 0).
Proof.
  intros Hv0. destruct fresh_space as (s & Hinv & Hwf & Hp & Ht).
  destruct (page5_managed 0 ltac:(lia)) as (Ha & ? & ?).
  assert (HM : MAXVA = 2 ^ 38) by done.
  destruct (mappages_loop_spec kend5 (page5 1) urwx ltac:(done) 1 v0 v0 (page5 0) s free3)
    as (r & s' & l' & j & _ & Hev & Hm & Hr); try (done || lia_pages).
  { destruct Hv0 as [-> | ->]; done. }
  { intros va Hva. by rewrite Hp. }
  assert (Hl2 : page5 0 ∉ free3).
  { unfold free3, page5. rewrite !not_elem_of_cons. repeat split; try lia_pages. apply not_elem_of_nil. }
  exists s', l'. split; [apply Hev|]. split; [apply Hev|]. split; [|split].
  - intros v Hv. destruct Hr as [(_ & -> & _)|(_ & _ & _ & Hl)]; [|pose proof (table_cost_le (pmem s) (page5 1) v0 1 ltac:(lia)); cbn [free3 length] in Hl; lia].
    rewrite Hm by done. unfold mapped_entry. rewrite Hp.
    change (Z.of_nat 1 * PGSIZE) with PGSIZE.
    destruct (Z.leb_spec v0 v), (Z.ltb_spec v (v0 + PGSIZE)); cbn [andb]; try done.
    rewrite Z.div_small by lia. by rewrite Z.mul_0_l, Z.add_0_r.
  - intros Hc. destruct (ev_free _ _ _ _ _ _ Hev) as [d Hd]. apply Hl2. rewrite Hd. set_solver.
  - intros Hc. destruct (ev_tree _ _ _ _ _ _ Hev _ Hc); done.
Qed.

Lemma mapped_space : exists s l, let pt := page5 1 in
  kmem_inv kend5 s l /\ pt_wf kend5 (pmem s) pt l /\
  (forall v, 0 <= v < MAXVA -> pte_at (pmem s) pt v =
     if (0 <=? v) && (v <? PGSIZE) then mk_pte (page5 0) urwx else 0) /\
  (page5 0 ∉ l) /\ ~ in_tree (pmem s) pt (page5 0).
Proof. exact (mapped_space_at 0 (or_introl eq_refl)). Qed.

Lemma mappages_maps_witness :
  exists s s', mappages (page5 1) 0 PGSIZE (page5 0) urwx s = Done 0 s' /\
    walkaddr (page5 1) 100 s' = Done (page5 0) s'.
Proof.
  destruct fresh_space as (s & Hinv & Hwf & Hp & Ht). exists s.
  destruct (page5_managed 0 ltac:(lia)) as (Ha & ? & ?).
  destruct (mappages_maps kend5 (page5 1) 0 PGSIZE (page5 0) urwx s free3 Hinv Hwf)
    as (r & s' & l' & j & Hd & _ & Hr & _ & Hw); try (done || lia_pages).
  { intros v Hv. by rewrite Hp. }
  exists s'. destruct Hr as [[-> Hj]|(_ & _ & _ & Hl)]; [|cbn in Hl; lia_pages].
  split; [exact Hd|]. rewrite (Hw eq_refl 100) by lia_pages. reflexivity.
Defined.

Lemma mapped_entry_bits :
  let pte := mk_pte (page5 0) urwx in
  Z.testbit pte 0 = true /\ Z.testbit pte 4 = true /\ Z.testbit pte 2 = true /\
  PTE2PA pte = page5 0 /\ is_leaf pte.
Proof. vm_compute. repeat split; discriminate. Qed.

(** A page table that maps exactly [page5 0], at [v0], for user code. *)
Lemma mapped_user m v0 : v0 = 0 \/ v0 = PGSIZE ->
  (forall v, 0 <= v < MAXVA -> pte_at m (page5 1) v =
     if (v0 <=? v) && (v <? v0 + PGSIZE) then mk_pte (page5 0) urwx else 0) ->
  forall va, 0 <= va -> user_entry m (page5 1) va = true ->
    v0 <= va < v0 + PGSIZE /\ PTE2PA (pte_at m (page5 1) va) = page5 0.
Proof.
  intros Hv0 Hp va H0. destruct mapped_entry_bits as (_ & _ & _ & Hpa & _).
  unfold user_entry. destruct (Z.ltb_spec va MAXVA); [|done]. rewrite Hp by lia.
  destruct (Z.leb_spec v0 va); [|by rewrite Z.bits_0]. destruct (Z.ltb_spec va (v0 + PGSIZE)); cbn [andb]; [done|].
  by rewrite Z.bits_0.
Qed.

Lemma mapped_space_ok_at kend m v0 l : v0 = 0 \/ v0 = PGSIZE -> managed kend (page5 0) ->
  (forall v, 0 <= v < MAXVA -> pte_at m (page5 1) v =
     if (v0 <=? v) && (v <? v0 + PGSIZE) then mk_pte (page5 0) urwx else 0) ->
  (page5 0 ∉ l) -> ~ in_tree m (page5 1) (page5 0) -> space_ok kend m (page5 1) l.
Proof.
  intros Hv0 Hmg Hp Hl Ht. pose proof (mapped_user m v0 Hv0 Hp) as Hu. split.
  - intros va H0 He. destruct (Hu va H0 He) as [_ ->]. done.
  - intros va va' H0 H0' He He' _. destruct (Hu va H0 He) as [H1 _], (Hu va' H0' He') as [H2 _].
    assert (Hd : forall x, v0 <= x < v0 + PGSIZE -> x / PGSIZE = v0 / PGSIZE).
    { intros x Hx. symmetry. apply (Z.div_unique x PGSIZE (v0 / PGSIZE) (x - v0)); [lia_pages|].
      destruct Hv0 as [-> | ->]; [rewrite Z.div_0_l by done|rewrite Z.div_same by done]; lia_pages. }
    by rewrite (Hd va H1), (Hd va' H2).
Qed.

Lemma mapped_space_ok s l :
  (forall v, 0 <= v < MAXVA -> pte_at (pmem s) (page5 1) v =
     if (0 <=? v) && (v <? PGSIZE) then mk_pte (page5 0) urwx else 0) ->
  (page5 0 ∉ l) -> ~ in_tree (pmem s) (page5 1) (page5 0) -> space_ok kend5 (pmem s) (page5 1) l.
Proof. intros Hp. apply (mapped_space_ok_at kend5 _ 0); [by left|by apply page5_managed|exact Hp]. Qed.

Lemma uvmunmap_unmaps_witness :
  exists s l s', uvmunmap kend5 (page5 1) 0 1 true s = Done tt s' /\
    kmem_inv kend5 s' (page5 0 :: l) /\ kmem_inv kend5 s l.
Proof.
  destruct mapped_space as (s & l & Hinv & Hwf & Hp & Hl & Ht).
  destruct mapped_entry_bits as (_ & _ & _ & Hpa & Hleaf).
  destruct (uvmunmap_unmaps kend5 (page5 1) 0 1 true s l Hinv Hwf) as [Hok _]; [reflexivity|lia|lia|by vm_compute|].
  assert (Hpg : mapped_pages (pmem s) (page5 1) 0 (Z.to_nat 1) = [page5 0]).
  { change (Z.to_nat 1) with 1%nat. unfold mapped_pages. cbn [seq fmap list_fmap].
    rewrite Hp by (split; [lia|reflexivity]).
    change ((0 <=? 0 + Z.of_nat 0 * PGSIZE) && (0 + Z.of_nat 0 * PGSIZE <? PGSIZE)) with true.
    cbv beta iota. by rewrite Hpa. }
  rewrite Hpg in Hok. destruct Hok as (s' & Hd & Hi & _).
  - intros v Hv. assert (HM : MAXVA = 2 ^ 38) by reflexivity. rewrite Hp by lia_pages.
    destruct (Z.leb_spec 0 v), (Z.ltb_spec v PGSIZE); try lia_pages. exact Hleaf.
  - intros _. split; [apply NoDup_singleton|]. intros pa Hin. apply list_elem_of_singleton in Hin as ->.
    split; [by apply page5_managed|]. by split.
  - exists s, l, s'. split; [exact Hd|]. split; [exact Hi|exact Hinv].
Defined.

Lemma copyin_reads_user_bytes_witness :
  exists s, copyin (page5 1) PGSIZE 4 s = Done (-1, []) s.
Proof.
  destruct mapped_space as (s & l & Hinv & Hwf & Hp & Hl & Ht). exists s.
  destruct (copyin_reads_user_bytes kend5 (page5 1) PGSIZE 4 s l Hwf ltac:(lia_pages) ltac:(lia))
    as ([r bs] & -> & H1 & _ & H2). cbn [fst snd] in *.
  assert (H0 : user_byte (pmem s) (page5 1) PGSIZE = None).
  { unfold user_byte, user_page. rewrite Hp by (split; [lia_pages|reflexivity]).
    change (PGSIZE <? PGSIZE) with false. rewrite !andb_false_r. reflexivity. }
  destruct bs as [|b bs].
  - destruct H2 as [[_ H2]|(-> & _)]; [discriminate H2|reflexivity].
  - cbn [length user_bytes] in H1. rewrite H0 in H1. discriminate H1.
Defined.

Lemma copyinstr_reads_user_string_witness :
  exists s, copyinstr (page5 1) PGSIZE 128 s = Done None s.
Proof.
  destruct mapped_space as (s & l & Hinv & Hwf & Hp & Hl & Ht). exists s.
  rewrite (copyinstr_reads_user_string kend5 (page5 1) PGSIZE 128 s l Hwf ltac:(lia_pages) ltac:(lia)).
  f_equal. destruct (Z.to_nat 128) eqn:Hn; [lia|]. cbn [user_str]. unfold user_byte, user_page.
  rewrite Hp by (split; [lia_pages|reflexivity]). change (PGSIZE <? PGSIZE) with false.
  rewrite !andb_false_r. reflexivity.
Defined.

Lemma copyout_writes_user_bytes_witness :
  exists s s', copyout (page5 1) 10 [120; 118; 54; 0] s = Done 0 s' /\
    copyin (page5 1) 10 4 s' = Done (0, [120; 118; 54; 0]) s'.
Proof.
  destruct mapped_space as (s & l & Hinv & Hwf & Hp & Hl & Ht). exists s.
  destruct (copyout_writes_user_bytes kend5 (page5 1) 10 [120; 118; 54; 0] s l Hinv Hwf)
    as (k & r & s' & Hd & Hc & Hback); [by apply mapped_space_ok|lia|repeat constructor; lia|].
  destruct (cp_result _ _ _ _ _ _ _ _ _ Hc) as [[-> _]|(_ & Hk & Hw)].
  - exists s'. split; [exact Hd|]. apply Hback. reflexivity.
  - exfalso. cbn [length] in Hk. destruct mapped_entry_bits as (H0 & H4 & H2 & _).
    assert (HM : MAXVA = 2 ^ 38) by reflexivity.
    unfold user_writable, user_entry in Hw. rewrite Hp in Hw by lia_pages.
    destruct (Z.ltb_spec (10 + Z.of_nat k) MAXVA); [|lia].
    destruct (Z.leb_spec 0 (10 + Z.of_nat k)), (Z.ltb_spec (10 + Z.of_nat k) PGSIZE); try lia_pages.
    cbn [andb] in Hw. rewrite H0, H4, H2 in Hw. discriminate Hw.
Defined.
