(* ===== verification/Kvm.v ===== *)
(** * The kernel's address space: [kvmmake] of [kernel/vm.c]

    [kernel_entry] says what the kernel's page table is meant to map: the
    device registers and all of memory at their own addresses, the kernel
    text executable and not writable, everything else writable and not
    executable, the trampoline page at the top, and one page per kernel stack
    with an unmapped page below it.  [kernel_map_built]: run after
    [kinit], [kvmmake] never runs out of memory and builds exactly that. *)

From S2P Require Import Prelude CString Kalloc Vm VmFacts VmOps.

(** ** What is to be mapped *)

Definition PTE_RW : Z := Z.lor PTE_R PTE_W.
Definition PTE_RX : Z := Z.lor PTE_R PTE_X.

Definition within (a sz va : Z) : bool := (a <=? va) && (va <? a + sz).

(** The stack of process [i] and after, given the pages that hold them. *)
Fixpoint stack_entry (stacks : list Z) (i : nat) (va : Z) : option (Z * Z) :=
  match stacks with
  | [] => None
  | p :: ps => if within (KSTACK (Z.of_nat i)) PGSIZE va then Some (p, PTE_RW) else stack_entry ps (S i) va
  end.

(** Physical page and permissions of the page of [va]. *)
Definition kernel_entry (etext trampoline : Z) (stacks : list Z) (va : Z) : option (Z * Z) :=
  let self := va / PGSIZE * PGSIZE in
  if within CLINT 0x10000 va || within PLIC 0x4000000 va || within UART0 PGSIZE va || within VIRTIO0 PGSIZE va
  then Some (self, PTE_RW)
  else if within KERNBASE (etext - KERNBASE) va then Some (self, PTE_RX)
  else if within etext (PHYSTOP - etext) va then Some (self, PTE_RW)
  else if within TRAMPOLINE PGSIZE va then Some (trampoline, PTE_RX)
  else stack_entry stacks 0 va.

Definition entry_pte (e : option (Z * Z)) : Z :=
  match e with Some (pa, perm) => mk_pte pa perm | None => 0 end.

(** ** One call of [kvmmap] *)

(** A map with [sz] bytes from [va] mapped to [pa] on top. *)
Definition over (va pa sz perm : Z) (f : Z -> option (Z * Z)) (v : Z) : option (Z * Z) :=
  if within va sz v then Some (pa + (v - va) / PGSIZE * PGSIZE, perm) else f v.

(** The tables a range may need: two for its first page, one at each boundary. *)
Definition range_cost (va sz : Z) : Z :=
  let last := va + sz - PGSIZE in 2 + (last / 2 ^ 21 - va / 2 ^ 21) + (last / 2 ^ 30 - va / 2 ^ 30).

Section Kvm.
Context (kend : Z).
Abbreviation managed := (managed kend).
Abbreviation kmem_inv := (kmem_inv kend).
Abbreviation pt_wf := (pt_wf kend).
Abbreviation evolves := (evolves kend).

(** The tree of [pt] maps [f] and nothing else. *)
Record maps (pt : Z) (s : kmem) (l : list Z) (f : Z -> option (Z * Z)) : Prop := {
  mp_inv : kmem_inv s l;
  mp_wf : pt_wf (pmem s) pt l;
  mp_pte va : 0 <= va < MAXVA -> pte_at (pmem s) pt va = entry_pte (f va)
}.

Lemma maps_ext pt s l f g : (forall va, 0 <= va < MAXVA -> f va = g va) -> maps pt s l f -> maps pt s l g.
Proof. intros Hfg [H1 H2 H3]. split; [done|done|]. intros va Hva. by rewrite H3, Hfg. Qed.

Lemma mappages_fits pt va pa sz perm s l f :
  maps pt s l f -> page_aligned va -> page_aligned sz -> page_aligned pa -> 0 <= va -> 0 < sz -> va + sz <= MAXVA ->
  0 <= pa -> pa + sz <= 2 ^ 56 -> 0 <= perm < 1024 -> (forall v, va <= v < va + sz -> f v = None) ->
  range_cost va sz <= Z.of_nat (length l) ->
  exists s' l', mappages pt va sz pa perm s = Done 0 s' /\ evolves pt s l s' l' /\
    maps pt s' l' (over va pa sz perm f) /\ Z.of_nat (length l) <= Z.of_nat (length l') + range_cost va sz.
Proof.
  intros [Hinv Hwf Hpte] Hva Hsz Hpa Hva0 Hsz0 Hmax Hpa0 Hpam Hperm Hfree Hcost.
  set (n := Z.to_nat (sz / PGSIZE)).
  assert (Hn : Z.of_nat n * PGSIZE = sz).
  { unfold n, page_aligned in *. rewrite Z2Nat.id by (apply Z.div_pos; lia_pages).
    pose proof (Z.div_mod sz PGSIZE). lia_pages. }
  assert (HM : MAXVA = 2 ^ 38) by done.
  assert (Hc : table_cost (pmem s) pt va n <= range_cost va sz).
  { unfold table_cost, range_cost. pose proof (missing_le (pmem s) pt va 2 0).
    replace (va + (Z.of_nat n - 1) * PGSIZE) with (va + sz - PGSIZE) by lia. lia. }
  destruct (mappages_loop_spec kend pt perm Hperm n va (va + sz - PGSIZE) pa s l)
    as (r & s' & l' & j & Hd & Hev & Hent & Hr); try (done || lia_pages).
  { intros v Hv. rewrite Hpte, Hfree by lia_pages. done. }
  destruct Hr as [(-> & -> & Hlen)|(_ & _ & _ & Hlen)]; [|lia].
  exists s', l'. split.
  { unfold mappages, page_aligned in *. rewrite Hva, Hsz. cbn [negb Z.eqb]. destruct (Z.eqb_spec sz 0); [lia|].
    by rewrite u64_small by lia_pages. }
  split; [done|]. split; [|lia]. split; [apply Hev|apply Hev|]. intros v Hv. rewrite Hent by done.
  unfold mapped_entry, over, within. rewrite Hn. destruct (_ && _); [done|by apply Hpte].
Qed.

Lemma kvmmap_spec pt va pa sz perm s l f :
  maps pt s l f -> page_aligned va -> page_aligned sz -> page_aligned pa -> 0 <= va -> 0 < sz -> va + sz <= MAXVA ->
  0 <= pa -> pa + sz <= 2 ^ 56 -> 0 <= perm < 1024 -> (forall v, va <= v < va + sz -> f v = None) ->
  range_cost va sz <= Z.of_nat (length l) ->
  exists s' l', kvmmap pt va pa sz perm s = Done tt s' /\ evolves pt s l s' l' /\
    maps pt s' l' (over va pa sz perm f) /\ Z.of_nat (length l) <= Z.of_nat (length l') + range_cost va sz.
Proof.
  intros H1 H2 H3 H4 H5 H6 H7 H8 H9 H10 H11 H12.
  destruct (mappages_fits pt va pa sz perm s l f H1 H2 H3 H4 H5 H6 H7 H8 H9 H10 H11 H12) as (s' & l' & Hm & H).
  exists s', l'. split; [|done]. unfold kvmmap. by rewrite (bind_Done _ _ _ _ _ Hm).
Qed.

(** ** The stacks *)

Lemma kalloc_maps pt s p l f : maps pt s (p :: l) f ->
  exists s', kalloc s = Done p s' /\ maps pt s' l f /\ (forall a, in_tree (pmem s') pt a <-> in_tree (pmem s) pt a) /\
    managed p /\ ~ in_tree (pmem s) pt p /\ p ∉ l.
Proof.
  intros [Hinv Hwf Hpte]. destruct (kalloc_pop kend s p l Hinv) as (s' & Hk & Hinv' & Hout & _).
  assert (Hp : managed p) by (eapply free_pages_managed; [apply Hinv|by left]).
  assert (Hn : p ∉ l) by (destruct Hinv as (_ & _ & Hnd); apply NoDup_cons in Hnd; apply Hnd).
  assert (Hnt : ~ in_tree (pmem s) pt p).
  { intros (va & k & Hk2 & Hnode). destruct (wf_page _ _ _ _ Hwf va k p Hk2 Hnode) as [_ Hni]. apply Hni. by left. }
  exists s'. split; [done|]. split; [split; [done| |]|split; [|done]].
  - apply (outside_wf kend (pmem s) _ pt p (p :: l)); try done. intros a Ha. left. by right.
  - intros va Hva. rewrite (outside_pte kend (pmem s) _ pt p (p :: l)); [by apply Hpte|done..].
  - intros a. by apply (outside_tree kend (pmem s) _ pt p (p :: l)).
Qed.

(** Pages set aside: neither free nor tables. *)
Definition aside (pt : Z) (s : kmem) (l ps : list Z) : Prop :=
  NoDup ps /\ forall p, p ∈ ps -> managed p /\ (p ∉ l) /\ ~ in_tree (pmem s) pt p.

Lemma aside_evolves pt s l s' l' ps : evolves pt s l s' l' -> aside pt s l ps -> aside pt s' l' ps.
Proof.
  intros Hev [Hnd Hps]. split; [done|]. intros p Hp. destruct (Hps p Hp) as (H1 & H2 & H3). split; [done|]. split.
  - intros Hin. destruct (ev_free _ _ _ _ _ _ Hev) as [d ->]. apply H2. rewrite elem_of_app. by right.
  - intros Hin. by destruct (ev_tree _ _ _ _ _ _ Hev p Hin).
Qed.

(** A page just allocated is one more. *)
Lemma aside_kalloc pt s s1 p l ps : aside pt s (p :: l) ps -> (forall a, in_tree (pmem s1) pt a <-> in_tree (pmem s) pt a) ->
  managed p -> ~ in_tree (pmem s) pt p -> p ∉ l -> aside pt s1 l (p :: ps).
Proof.
  intros [Hnd Hps] Ht Hp Hpt Hpl. split.
  - apply NoDup_cons. split; [|done]. intros Hin. destruct (Hps p Hin) as (_ & Hn & _). apply Hn. by left.
  - intros q [->|Hq]%elem_of_cons; [by rewrite Ht|]. destruct (Hps q Hq) as (? & Hn & ?). rewrite Ht. split_and!; [done| |done].
    intros ?. apply Hn. by right.
Qed.

(** Writing to a page outside the tree. *)
Lemma page_write_maps pt s l f p m' : maps pt s l f -> managed p -> ~ in_tree (pmem s) pt p -> p ∉ l -> mem_ok m' ->
  (forall x, x < p \/ p + PGSIZE <= x -> m' x = pmem s x) ->
  maps pt (mkkmem m' (freelist s)) l f /\ (forall a, in_tree m' pt a <-> in_tree (pmem s) pt a).
Proof.
  intros [Hinv Hwf Hpte] Hp Hnt Hn Hm Hsame. split; [split|].
  - apply kmem_inv_write; [done|done|]. intros r i Hr Hi. apply Hsame.
    apply (other_page_out kend r p); [|done|congruence|done].
    destruct Hinv as (_ & Hf & _). eapply free_pages_managed; [done|by apply list_elem_of_In].
  - apply (outside_wf kend (pmem s) _ pt p l); try done. auto.
  - intros va Hva. cbn [pmem]. rewrite (outside_pte kend (pmem s) _ pt p l); [by apply Hpte|done..].
  - intros a. by apply (outside_tree kend (pmem s) _ pt p l).
Qed.

Definition stacks_on (stacks : list Z) (i : nat) (f : Z -> option (Z * Z)) (va : Z) : option (Z * Z) :=
  match stack_entry stacks i va with Some e => Some e | None => f va end.

(** Stacks lie below each other. *)
Lemma stack_entry_below stacks : forall i va, KSTACK (Z.of_nat i) + 2 * PGSIZE <= va + PGSIZE -> stack_entry stacks i va = None.
Proof.
  induction stacks as [|p ps IH]; intros i va Hva; [done|]. cbn [stack_entry]. unfold within.
  destruct (Z.leb_spec (KSTACK (Z.of_nat i)) va), (Z.ltb_spec va (KSTACK (Z.of_nat i) + PGSIZE)); cbn [andb]; try lia;
    apply IH; unfold KSTACK in *; lia_pages.
Qed.

Lemma stacks_on_cons p ps i f va : stacks_on ps (S i) (over (KSTACK (Z.of_nat i)) p PGSIZE PTE_RW f) va = stacks_on (p :: ps) i f va.
Proof.
  unfold stacks_on, over. cbn [stack_entry]. destruct (within _ _ va) eqn:Hw; [|done].
  apply andb_true_iff in Hw as [H1%Z.leb_le H2%Z.ltb_lt].
  rewrite stack_entry_below by (unfold KSTACK in *; lia_pages).
  rewrite Z.div_small by lia. by rewrite Z.mul_0_l, Z.add_0_r.
Qed.

Lemma KSTACK_range i : (i < NPROC)%nat ->
  page_aligned (KSTACK (Z.of_nat i)) /\ MAXVA - 129 * PGSIZE <= KSTACK (Z.of_nat i) /\ KSTACK (Z.of_nat i) + PGSIZE <= TRAMPOLINE.
Proof.
  intros Hi. unfold NPROC in Hi. unfold page_aligned, KSTACK, TRAMPOLINE, PGSIZE. change MAXVA with (2 ^ 38). split; [|lia].
  replace (2 ^ 38 - 4096 - (Z.of_nat i + 1) * 2 * 4096) with ((67108863 - (Z.of_nat i + 1) * 2) * 4096) by lia. by apply Z.mod_mul.
Qed.

Lemma mapstacks_spec pt : forall n i s l f ps0,
  (i + n = NPROC)%nat -> maps pt s l f -> aside pt s l ps0 -> (3 * n <= length l)%nat ->
  (forall v, MAXVA - 129 * PGSIZE <= v < TRAMPOLINE -> v < KSTACK (Z.of_nat i) + PGSIZE -> f v = None) ->
  exists s' l' ps, for_each (fun i =>
      let! pa := kalloc in
      if pa =? 0 then panic "kalloc" else kvmmap pt (KSTACK (Z.of_nat i)) pa PGSIZE PTE_RW) (seq i n) s = Done tt s' /\
    length ps = n /\ maps pt s' l' (stacks_on ps i f) /\ aside pt s' l' (ps ++ ps0) /\ (length l <= length l' + 3 * n)%nat.
Proof.
  induction n as [|n IH]; intros i s l f ps0 Hi Hm Has Hl Hf.
  { exists s, l, []. cbn. split_and!; try done; lia. }
  cbn [seq for_each]. destruct l as [|p l]; [cbn in Hl; lia|]. cbn [length] in Hl.
  destruct (kalloc_maps pt s p l f Hm) as (s1 & Hk & Hm1 & Ht1 & Hp & Hpt & Hpl).
  destruct (KSTACK_range i ltac:(lia)) as (Ka & Kb & Kt). assert (HM : MAXVA = 2 ^ 38) by done.
  assert (Hp0 : 0 < p /\ page_aligned p /\ p + PGSIZE <= 2 ^ 56) by (destruct Hp as (? & ? & ?); split_and!; [done|done|lia_pages]).
  destruct Hp0 as (Hp0 & Hpa & Hpm).
  assert (Has1 : aside pt s1 l (p :: ps0)) by (by apply (aside_kalloc pt s)).
  assert (Hrc : range_cost (KSTACK (Z.of_nat i)) PGSIZE = 2).
  { unfold range_cost. replace (KSTACK (Z.of_nat i) + PGSIZE - PGSIZE) with (KSTACK (Z.of_nat i)) by lia. lia. }
  destruct (kvmmap_spec pt (KSTACK (Z.of_nat i)) p PGSIZE PTE_RW s1 l f) as (s2 & l2 & Hv & Hev & Hm2 & Hl2);
    try (done || lia || (unfold TRAMPOLINE in *; lia_pages)).
  { intros v Hvv. apply Hf; lia. }
  rewrite Hrc in Hl2.
  destruct (IH (S i) s2 l2 (over (KSTACK (Z.of_nat i)) p PGSIZE PTE_RW f) (p :: ps0)) as (s' & l' & ps & Hrun & Hlen & Hm' & Has' & Hl');
    [lia|done|by eapply aside_evolves|lia| |].
  { intros v Hv1 Hv2. unfold over, within. unfold KSTACK in *.
    destruct (Z.leb_spec (TRAMPOLINE - (Z.of_nat i + 1) * 2 * PGSIZE) v); [lia_pages|]. cbn [andb]. apply Hf; [done|lia_pages]. }
  exists s', l', (p :: ps). rewrite bind_assoc, (bind_Done _ _ _ _ _ Hk). destruct (Z.eqb_spec p 0); [lia|].
  rewrite (bind_Done _ _ _ _ _ Hv). split; [done|]. split; [cbn; lia|]. split; [|split; [|cbn [length]; lia]].
  - eapply maps_ext; [|exact Hm']. intros va _. apply stacks_on_cons.
  - change ((p :: ps) ++ ps0) with (p :: ps ++ ps0). destruct Has' as [Hnd Hps]. split; [by rewrite Permutation_middle|].
    intros q Hq. apply Hps. rewrite elem_of_cons, elem_of_app in Hq. rewrite elem_of_app, elem_of_cons. tauto.
Qed.

(** ** [kvmmake] *)

(** A range above [lo] misses every stack page. *)
Lemma no_stack stacks va : 0 <= va < KERNBASE + PGSIZE * 32768 -> (length stacks <= NPROC)%nat -> stack_entry stacks 0 va = None.
Proof.
  intros Hva. assert (Hgen : forall i, (i + length stacks <= NPROC)%nat -> stack_entry stacks i va = None).
  { induction stacks as [|p ps IH]; intros i Hi; [done|]. cbn [length] in Hi. cbn [stack_entry]. unfold within.
    destruct (KSTACK_range i ltac:(lia)) as (_ & Hlo & _). assert (HM : MAXVA = 2 ^ 38) by done.
    destruct (Z.leb_spec (KSTACK (Z.of_nat i)) va); [lia_pages|]. apply IH. lia. }
  intros Hl. by apply Hgen.
Qed.

Context (etext trampoline : Z).
Context (Het : page_aligned etext) (Het0 : KERNBASE < etext <= kend) (Htr : page_aligned trampoline)
  (Htr0 : KERNBASE <= trampoline < etext).

(** [within] as an inequality, in hypotheses and goal. *)
Lemma within_iff a sz va : within a sz va = true <-> a <= va < a + sz.
Proof. unfold within. rewrite andb_true_iff, Z.leb_le, Z.ltb_lt. done. Qed.

Lemma within_self a sz va : page_aligned a -> within a sz va = true -> a + (va - a) / PGSIZE * PGSIZE = va / PGSIZE * PGSIZE.
Proof.
  unfold page_aligned. intros Ha _. pose proof (Z.div_mod a PGSIZE ltac:(lia_pages)) as Hd.
  replace (va - a) with (va + - (a / PGSIZE) * PGSIZE) by lia. rewrite Z.div_add by lia_pages. lia.
Qed.

Lemma within_out a sz va : va < a \/ a + sz <= va -> within a sz va = false.
Proof. intros H. apply not_true_iff_false. rewrite within_iff. lia. Qed.
Lemma over_out va pa sz perm f v : v < va \/ va + sz <= v -> over va pa sz perm f v = f v.
Proof. intros H. unfold over. by rewrite within_out. Qed.

Definition direct_map (f : Z -> option (Z * Z)) : Z -> option (Z * Z) :=
  over TRAMPOLINE trampoline PGSIZE PTE_RX (over etext etext (PHYSTOP - etext) PTE_RW
    (over KERNBASE KERNBASE (etext - KERNBASE) PTE_RX (over PLIC PLIC 0x4000000 PTE_RW
    (over CLINT CLINT 0x10000 PTE_RW (over VIRTIO0 VIRTIO0 PGSIZE PTE_RW (over UART0 UART0 PGSIZE PTE_RW f)))))).

(** [lia_map]: linear arithmetic on the memory layout. *)
Ltac lia_map := unfold TRAMPOLINE, UART0, VIRTIO0, CLINT, PLIC in *; change MAXVA with (2 ^ 38) in *; lia_pages.

Lemma direct_map_entry stacks va : 0 <= va < MAXVA -> (length stacks <= NPROC)%nat -> etext <= PHYSTOP ->
  stacks_on stacks 0 (direct_map (fun _ => None)) va = kernel_entry etext trampoline stacks va.
Proof.
  intros Hva Hl He. unfold stacks_on, direct_map, kernel_entry, over.
  assert (Hself : forall a sz, page_aligned a -> within a sz va = true -> a + (va - a) / PGSIZE * PGSIZE = va / PGSIZE * PGSIZE)
    by (intros; by eapply within_self).
  destruct (Z.lt_ge_cases va PHYSTOP) as [Hlow|Hhigh].
  - rewrite no_stack by (done || lia_map). rewrite (within_out TRAMPOLINE) by lia_map.
    destruct (Z.lt_ge_cases va KERNBASE) as [Hdev|Hmem].
    + rewrite (within_out etext), (within_out KERNBASE) by lia_map.
      destruct (within CLINT _ va) eqn:E1; [pose proof E1 as E%within_iff; rewrite (within_out PLIC) by lia_map; by rewrite (Hself CLINT _ eq_refl E1)|].
      destruct (within PLIC _ va) eqn:E2; [by rewrite (Hself PLIC _ eq_refl E2)|].
      destruct (within UART0 _ va) eqn:E3; [pose proof E3 as E%within_iff; rewrite (within_out VIRTIO0) by lia_map; by rewrite (Hself UART0 _ eq_refl E3)|].
      destruct (within VIRTIO0 _ va) eqn:E4; [by rewrite (Hself VIRTIO0 _ eq_refl E4)|]. done.
    + rewrite (within_out CLINT), (within_out PLIC), (within_out UART0), (within_out VIRTIO0) by lia_map. cbn [orb].
      destruct (within KERNBASE _ va) eqn:E1.
      * pose proof E1 as E%within_iff. rewrite (within_out etext) by lia. by rewrite (Hself KERNBASE _ eq_refl E1).
      * destruct (within etext _ va) eqn:E2; [by rewrite (Hself etext _ Het E2)|]. done.
  - rewrite (within_out CLINT), (within_out PLIC), (within_out UART0), (within_out VIRTIO0),
      (within_out KERNBASE), (within_out etext) by lia_map. cbn [orb].
    destruct (within TRAMPOLINE PGSIZE va) eqn:E1; [|by destruct (stack_entry stacks 0 va)].
    pose proof E1 as E%within_iff. rewrite stack_entry_below by (unfold KSTACK; lia_map).
    rewrite Z.div_small by lia. by rewrite Z.mul_0_l, Z.add_0_r.
Qed.

Lemma text_sizes : etext < PHYSTOP -> page_aligned (etext - KERNBASE) /\ page_aligned (PHYSTOP - etext) /\
  range_cost KERNBASE (etext - KERNBASE) <= 65 /\ range_cost etext (PHYSTOP - etext) <= 65.
Proof.
  intros Hend. unfold page_aligned in *. split; [by rewrite Zminus_mod, Het|]. split; [by rewrite Zminus_mod, Het|].
  unfold range_cost. replace (KERNBASE + (etext - KERNBASE)) with etext by lia. replace (etext + (PHYSTOP - etext)) with PHYSTOP by lia.
  pose proof (Z.div_lt_upper_bound (etext - PGSIZE) (2 ^ 21) 1088 ltac:(lia) ltac:(lia_pages)).
  pose proof (Z.div_lt_upper_bound (etext - PGSIZE) (2 ^ 30) 3 ltac:(lia) ltac:(lia_pages)).
  pose proof (Z.div_le_lower_bound etext (2 ^ 21) 1024 ltac:(lia) ltac:(lia_pages)).
  pose proof (Z.div_le_lower_bound etext (2 ^ 30) 2 ltac:(lia) ltac:(lia_pages)).
  change (KERNBASE / 2 ^ 21) with 1024. change (KERNBASE / 2 ^ 30) with 2.
  change ((PHYSTOP - PGSIZE) / 2 ^ 21) with 1087. change ((PHYSTOP - PGSIZE) / 2 ^ 30) with 2. lia.
Qed.

(** [map_step H]: the next [kvmmap] of a run, from [H : maps pt s l f]. *)
Ltac map_step H :=
  match type of H with maps ?pt ?s ?l ?f =>
  match goal with |- context [bind (kvmmap pt ?va ?pa ?sz ?perm) _ s] =>
    let s' := fresh "s" in let l' := fresh "l" in let Hk := fresh "Hk" in let Hm := fresh "Hm" in let Hl := fresh "Hlen" in
    destruct (kvmmap_spec pt va pa sz perm s l f H) as (s' & l' & Hk & _ & Hm & Hl);
    [try first [assumption | reflexivity | lia_map | (intros ? ?; rewrite ?over_out by lia_map; reflexivity) | done]..|rewrite (bind_Done _ _ _ _ _ Hk)] end end.

Lemma kvmmake_spec s l : kmem_inv s l -> (400 <= length l)%nat ->
  exists pt s' l' ps, kvmmake etext trampoline s = Done pt s' /\ maps pt s' l' (kernel_entry etext trampoline ps) /\
    length ps = NPROC /\ aside pt s' l' ps /\ (length l <= length l' + 400)%nat.
Proof.
  intros Hinv Hl. destruct l as [|pt l]; [cbn in Hl; lia|]. cbn [length] in Hl.
  assert (Hpt : managed pt) by (eapply free_pages_managed; [apply Hinv|by left]).
  assert (Hend : etext < PHYSTOP) by (destruct Hpt as (_ & _ & ? & ?); lia).
  destruct (uvmcreate_spec kend s pt l Hinv) as (s0 & Hc & Hinv0 & Hwf0 & Hp0 & _).
  assert (Hroot : exists s1, kalloc s = Done pt s1 /\ zero_page pt s1 = Done tt s0).
  { destruct (kalloc_pop kend s pt l Hinv) as (s1 & Hk & _). exists s1. split; [done|].
    unfold uvmcreate in Hc. rewrite (bind_Done _ _ _ _ _ Hk) in Hc.
    destruct (Z.eqb_spec pt 0) as [Hz|_]; [destruct Hpt as (_ & ? & _); lia|].
    apply bind_Done_inv in Hc as ([] & s2 & Hz & Hr). injection Hr as <-. exact Hz. }
  destruct Hroot as (s1 & Hk & Hz).
  assert (Hm0 : maps pt s0 l (fun _ => None)) by (split; [done|done|]; intros va _; by rewrite Hp0).
  destruct (text_sizes Hend) as (Hsa & Hsb & C5 & C6).
  unfold kvmmake. rewrite (bind_Done _ _ _ _ _ Hk), (bind_Done _ _ _ _ _ Hz).
  assert (C1 : range_cost UART0 PGSIZE = 2) by done. assert (C2 : range_cost VIRTIO0 PGSIZE = 2) by done.
  assert (C3 : range_cost CLINT 0x10000 = 2) by done. assert (C4 : range_cost PLIC 0x4000000 = 33) by done.
  assert (C7 : range_cost TRAMPOLINE PGSIZE = 2) by done.
  rewrite (u64_small (etext - KERNBASE)), (u64_small (PHYSTOP - etext)) by lia_pages.
  map_step Hm0. map_step Hm. map_step Hm1. map_step Hm2. map_step Hm3. map_step Hm4. map_step Hm5.
  destruct (mapstacks_spec pt NPROC 0 _ _ _ [] eq_refl Hm6) as (s' & l' & ps & Hst & Hps & Hm' & Has & Hl').
  { split; [constructor|]. intros p Hp. destruct (not_elem_of_nil p Hp). }
  { change NPROC with 64%nat. lia. }
  { intros v Hv1 Hv2. rewrite !over_out by lia_map. done. }
  exists pt, s', l', ps. split; [unfold proc_mapstacks; by rewrite (bind_Done _ _ _ _ _ Hst)|].
  split; [|split; [done|split; [by rewrite app_nil_r in Has|]]].
  - eapply maps_ext; [|exact Hm']. intros va Hva. apply direct_map_entry; [done|lia|lia].
  - cbn [length]. change NPROC with 64%nat in Hl'. lia.
Qed.
End Kvm.

(** ** Protection *)

Section Protection.
Context (kend etext trampoline : Z) (stacks : list Z).
Context (Het : page_aligned etext) (Het0 : KERNBASE < etext <= kend) (Htr : page_aligned trampoline)
  (Htr0 : KERNBASE <= trampoline < etext) (Hke : kend <= PHYSTOP) (Hst : forall p, p ∈ stacks -> managed kend p).

Lemma stack_entry_in va i e : stack_entry stacks i va = Some e -> e.1 ∈ stacks /\ e.2 = PTE_RW.
Proof.
  clear Hst. revert i. induction stacks as [|p ps IH]; intros i He; [done|]. cbn [stack_entry] in He.
  destruct (within _ _ va); [injection He as <-; split; [by left|done]|].
  destruct (IH (S i) He) as [? ?]. split; [by right|done].
Qed.

(** Entries are well formed; executable pages are those of the text, writable ones are not. *)
Lemma kernel_entry_ok va pa perm : 0 <= va < MAXVA -> kernel_entry etext trampoline stacks va = Some (pa, perm) ->
  0 <= pa < 2 ^ 56 /\ page_aligned pa /\
  ((perm = PTE_RX /\ KERNBASE <= pa < etext) \/ (perm = PTE_RW /\ ~ (KERNBASE <= pa < etext))).
Proof.
  intros Hva He. set (self := va / PGSIZE * PGSIZE).
  assert (HM : MAXVA = 2 ^ 38) by done.
  assert (Hs : 0 <= self /\ self <= va /\ page_aligned self).
  { unfold self, page_aligned. pose proof (Z.div_pos va PGSIZE ltac:(lia) ltac:(lia_pages)).
    pose proof (Z.mul_div_le va PGSIZE ltac:(lia_pages)). split_and!; [lia_pages|lia|by apply Z.mod_mul]. }
  destruct Hs as (Hs0 & Hs1 & Hs2).
  assert (Hge : forall a, page_aligned a -> a <= va -> a <= self).
  { intros a Ha Hle. unfold page_aligned in Ha. pose proof (Z.div_mod a PGSIZE ltac:(lia_pages)).
    pose proof (Z.div_le_mono a va PGSIZE ltac:(lia_pages) Hle). unfold self. lia_pages. }
  unfold kernel_entry in He. fold self in He.
  destruct (_ || _) eqn:Hdev.
  { injection He as <- <-. split; [lia|]. split; [done|]. right. split; [done|].
    rewrite !orb_true_iff, !within_iff in Hdev. unfold CLINT, PLIC, UART0, VIRTIO0 in Hdev. lia_pages. }
  destruct (within KERNBASE _ va) eqn:H1.
  { injection He as <- <-. apply within_iff in H1. pose proof (Hge KERNBASE eq_refl ltac:(lia)).
    split; [lia|]. split; [done|]. left. split; [done|lia]. }
  destruct (within etext _ va) eqn:H2.
  { injection He as <- <-. apply within_iff in H2. pose proof (Hge etext Het ltac:(lia)).
    split; [lia|]. split; [done|]. right. split; [done|lia]. }
  destruct (within TRAMPOLINE _ va).
  { injection He as <- <-. split; [|split; [done|by left]]. lia_pages. }
  apply stack_entry_in in He as [Hin Hpe]. cbn [fst snd] in *. subst perm. destruct (Hst _ Hin) as (Ha & Hp & Hlo & Hhi).
  split; [lia_pages|]. split; [done|]. right. split; [done|lia].
Qed.

(** The page below a stack. *)
Lemma guard_unmapped i va : (i < NPROC)%nat -> KSTACK (Z.of_nat i) - PGSIZE <= va < KSTACK (Z.of_nat i) ->
  kernel_entry etext trampoline stacks va = None.
Proof.
  intros Hi Hva. destruct (KSTACK_range i Hi) as (_ & Hlo & Hhi). assert (HM : MAXVA = 2 ^ 38) by done. unfold kernel_entry.
  rewrite (within_out CLINT), (within_out PLIC), (within_out UART0), (within_out VIRTIO0), (within_out KERNBASE), (within_out etext),
    (within_out TRAMPOLINE) by (unfold TRAMPOLINE, CLINT, PLIC, UART0, VIRTIO0 in *; lia_pages).
  cbn [orb]. clear - Hva. generalize 0%nat as j. induction stacks as [|p ps IH]; intros j; [done|].
  cbn [stack_entry]. rewrite within_out; [apply IH|]. unfold KSTACK in *.
  destruct (Z.le_gt_cases (Z.of_nat j) (Z.of_nat i)); [left|right]; lia_pages.
Qed.
End Protection.

(** C12: the kernel's page table.  Started from any memory contents, [kinit]
    followed by [kvmmake] never panics or runs out of pages, and the table it
    returns maps exactly the pages of [kernel_entry] - devices, kernel text,
    the rest of memory, the trampoline and one stack per process slot.  The 64
    stack pages are distinct and no longer free, the page below each stack is
    unmapped, and no physical page is writable at one address and executable
    at any other. *)
Theorem kernel_map_built (kend etext trampoline : Z) (m : mem) :
  mem_ok m -> page_aligned etext -> KERNBASE < etext <= kend -> kend + 401 * PGSIZE <= PHYSTOP ->
  page_aligned trampoline -> KERNBASE <= trampoline < etext ->
  exists pt s l stacks,
    (kinit kend ;; kvmmake etext trampoline) (mkkmem m 0) = Done pt s /\
    kmem_inv kend s l /\ pt_wf kend (pmem s) pt l /\
    length stacks = NPROC /\ NoDup stacks /\ (forall p, p ∈ stacks -> managed kend p /\ (p ∉ l)) /\
    (forall va, 0 <= va < MAXVA -> pte_at (pmem s) pt va = entry_pte (kernel_entry etext trampoline stacks va)) /\
    (forall i va, (i < NPROC)%nat -> KSTACK (Z.of_nat i) - PGSIZE <= va < KSTACK (Z.of_nat i) ->
       pte_at (pmem s) pt va = 0) /\
    (forall va va', 0 <= va < MAXVA -> 0 <= va' < MAXVA ->
       let pte := pte_at (pmem s) pt va in let pte' := pte_at (pmem s) pt va' in
       is_valid pte = true -> is_valid pte' = true -> PTE2PA pte = PTE2PA pte' ->
       Z.testbit pte 2 = true -> Z.testbit pte' 3 = false).
Proof.
  intros Hm Het Het0 Hend Htr Htr0.
  destruct (kinit_frees_all_pages kend m Hm) as (s0 & Hi & Hinv & _); [lia_pages|].
  set (l0 := reverse _) in Hinv. assert (Hl0 : (400 <= length l0)%nat).
  { unfold l0. rewrite length_reverse, pgroundup_eq by lia_pages. unfold pages_from. rewrite length_fmap, length_seq.
    pose proof (Z.div_mod (kend + PGSIZE - 1) PGSIZE ltac:(lia_pages)). pose proof (Z.mod_pos_bound (kend + PGSIZE - 1) PGSIZE ltac:(lia_pages)).
    pose proof (Z.div_le_lower_bound (PHYSTOP - (kend + PGSIZE - 1) / PGSIZE * PGSIZE) PGSIZE 400 ltac:(lia_pages) ltac:(lia_pages)). lia. }
  destruct (kvmmake_spec kend etext trampoline Het Het0 Htr Htr0 s0 l0 Hinv Hl0) as (pt & s & l & stacks & Hk & [Hinv' Hwf Hpte] & Hlen & [Hnd Has] & _).
  assert (Hst : forall p, p ∈ stacks -> managed kend p) by (intros p Hp; by apply Has).
  exists pt, s, l, stacks. rewrite (bind_Done _ _ _ _ _ Hi). do 5 (split; [done|]). split; [|split; [done|split]].
  - intros p Hp. destruct (Has p Hp) as (? & ? & _). done.
  - intros i va Hin Hva. rewrite Hpte by (destruct (KSTACK_range i Hin) as (_ & ? & ?); unfold TRAMPOLINE in *; change MAXVA with (2 ^ 38) in *; lia_pages).
    by rewrite (guard_unmapped kend etext trampoline stacks Het0 ltac:(lia_pages) i va).
  - intros va va' Hva Hva'. cbv zeta. rewrite !Hpte by done.
    destruct (kernel_entry etext trampoline stacks va) as [[pa perm]|] eqn:E; [|done].
    destruct (kernel_entry etext trampoline stacks va') as [[pa' perm']|] eqn:E'; [|done]. cbn [entry_pte]. intros _ _.
    destruct (kernel_entry_ok kend etext trampoline stacks Het Het0 Htr Htr0 ltac:(lia_pages) Hst va pa perm Hva E) as (R1 & R2 & R3).
    destruct (kernel_entry_ok kend etext trampoline stacks Het Het0 Htr Htr0 ltac:(lia_pages) Hst va' pa' perm' Hva' E') as (R1' & R2' & R3').
    assert (Hp : 0 <= perm < 1024) by (destruct R3 as [[-> _]|[-> _]]; done).
    assert (Hp' : 0 <= perm' < 1024) by (destruct R3' as [[-> _]|[-> _]]; done).
    rewrite !mk_pte_pa, !mk_pte_flag by (done || lia). intros <-.
    destruct R3 as [[-> ?]|[-> ?]], R3' as [[-> ?]|[-> ?]]; done || (intros; exfalso; tauto).
Qed.

(** A kernel of 34 pages, 8 of them text. *)
Lemma kernel_map_built_witness :
  let etext := KERNBASE + 0x8000 in let trampoline := KERNBASE + 0x7000 in
  exists pt s (stacks : list Z), (kinit (KERNBASE + 0x22000) ;; kvmmake etext trampoline) (mkkmem (fun _ => 0) 0) = Done pt s /\
    pte_at (pmem s) pt KERNBASE = mk_pte KERNBASE PTE_RX /\
    pte_at (pmem s) pt (KERNBASE + 0x8123) = mk_pte (KERNBASE + 0x8000) PTE_RW /\
    pte_at (pmem s) pt UART0 = mk_pte UART0 PTE_RW /\ pte_at (pmem s) pt (KSTACK 0 - 1) = 0 /\ length stacks = NPROC.
Proof.
  destruct (kernel_map_built (KERNBASE + 0x22000) (KERNBASE + 0x8000) (KERNBASE + 0x7000) (fun _ => 0))
    as (pt & s & l & stacks & H1 & _ & _ & H2 & _ & _ & H3 & H4 & _).
  - intros a. lia.
  - reflexivity.
  - lia_pages.
  - lia_pages.
  - reflexivity.
  - lia_pages.
  - exists pt, s, stacks. split; [exact H1|]. change MAXVA with (2 ^ 38) in H3.
    split; [|split; [|split; [|split; [apply (H4 0%nat); [unfold NPROC; lia|change (Z.of_nat 0) with 0; lia_pages]|exact H2]]]]; (rewrite H3 by (unfold UART0; lia_pages)); reflexivity.
Defined.
