(* ===== verification/VmFrame.v ===== *)
(** * What page-table operations leave alone

    [kept s l s' l']: from [s] to [s'] only pages that were free in [s] have
    changed, and no page became free.  An address space whose tables are in use
    survives such a change ([kept_maps]); the operations that build another
    address space make no other ([taken]). *)

From S2P Require Import Prelude CString Kalloc Vm VmFacts VmOps Kvm.

Section Frame.
Context (kend : Z).
Abbreviation managed := (managed kend).
Abbreviation kmem_inv := (kmem_inv kend).
Abbreviation pt_wf := (pt_wf kend).

Definition kept (s : kmem) (l : list Z) (s' : kmem) (l' : list Z) : Prop :=
  (forall p, p ∈ l' -> p ∈ l) /\
  forall p i, managed p -> p ∉ l -> 0 <= i < PGSIZE -> pmem s' (p + i) = pmem s (p + i).

Lemma kept_refl s l : kept s l s l.
Proof. by split. Qed.

Lemma kept_trans s l s1 l1 s2 l2 : kept s l s1 l1 -> kept s1 l1 s2 l2 -> kept s l s2 l2.
Proof.
  intros [H1 K1] [H2 K2]. split; [by auto|]. intros p i Hp Hl Hi. rewrite K2; [by apply K1|done|by intros ?%H1|done].
Qed.

(** An address space in use is not affected. *)
Section Tree.
Context (pt : Z) (s s' : kmem) (l l' : list Z) (Hwf : pt_wf (pmem s) pt l) (Hk : kept s l s' l').

Lemma kept_entry va k p lv : (k <= 2)%nat -> node (pmem s) pt va k = Some p ->
  load64 (pmem s') (pte_addr p lv va) = load64 (pmem s) (pte_addr p lv va).
Proof.
  intros Hle Hp. destruct (wf_page _ _ _ _ Hwf va k p Hle Hp) as [Hm Hn]. destruct (pte_addr_in kend p lv va Hm).
  apply load64_ext. intros i Hi. replace (pte_addr p lv va + i) with (p + (pte_addr p lv va + i - p)) by lia.
  apply (proj2 Hk); [done|done|lia_pages].
Qed.

Lemma kept_node va k : (k <= 2)%nat -> node (pmem s') pt va k = node (pmem s) pt va k.
Proof. apply tree_node. intros va' j _ Hj p Hp lv. by apply (kept_entry va' j). Qed.

Lemma kept_pte va : pte_at (pmem s') pt va = pte_at (pmem s) pt va.
Proof.
  unfold pte_at. rewrite kept_node by lia. destruct (node (pmem s) pt va 2) as [p|] eqn:Hp; [|done]. by apply (kept_entry va 2).
Qed.

Lemma kept_tree a : in_tree (pmem s') pt a <-> in_tree (pmem s) pt a.
Proof.
  split; intros (va & k & Hle & Ha); exists va, k; (split; [done|]); [by rewrite <- kept_node|by rewrite kept_node].
Qed.

Lemma kept_wf : pt_wf (pmem s') pt l'.
Proof.
  split.
  - intros va k p Hle Hp. rewrite kept_node in Hp by done. destruct (wf_page _ _ _ _ Hwf va k p Hle Hp) as [? Hn].
    split; [done|]. by intros ?%(proj1 Hk).
  - intros va va' k k' p H1 H2 Hp Hp'. rewrite kept_node in Hp, Hp' by done. by apply (wf_inj _ _ _ _ Hwf va va' k k' p).
Qed.
End Tree.

Lemma kept_maps pt s l s' l' f : maps kend pt s l f -> kept s l s' l' -> kmem_inv s' l' -> maps kend pt s' l' f.
Proof.
  intros [_ Hwf Hpte] Hk Hinv. split; [done|by eapply kept_wf|]. intros va Hva. erewrite kept_pte by done. by apply Hpte.
Qed.

Lemma kept_aside pt s l s' l' ps : pt_wf (pmem s) pt l -> aside kend pt s l ps -> kept s l s' l' -> aside kend pt s' l' ps.
Proof.
  intros Hwf [Hnd Hps] Hk. split; [done|]. intros p Hp. destruct (Hps p Hp) as (H1 & H2 & H3). split; [done|].
  split; [by intros ?%(proj1 Hk)|]. by erewrite kept_tree.
Qed.

(** ** The building steps *)

(** A free page is taken, and written. *)
Lemma kept_kalloc s p l s' : kmem_inv s (p :: l) -> kalloc s = Done p s' -> kept s (p :: l) s' l.
Proof.
  intros Hinv Hk. assert (Hp : managed p) by (eapply free_pages_managed; [apply Hinv|by left]).
  destruct (kalloc_pop kend s p l Hinv) as (s1 & Hk1 & _ & Hout & _). assert (s1 = s') as -> by congruence.
  split; [by right|]. intros q i Hq Hn Hi. apply Hout. apply (other_page_out kend q p); [done|done| |done].
  intros ->. apply Hn. by left.
Qed.

Lemma kept_write s0 l0 s l p m : kept s0 l0 s l -> managed p -> p ∈ l0 ->
  (forall x, x < p \/ p + PGSIZE <= x -> m x = pmem s x) -> kept s0 l0 (mkkmem m (freelist s)) l.
Proof.
  intros [H1 K1] Hp Hin Hm. split; [done|]. intros q i Hq Hn Hi. cbn [pmem]. rewrite Hm; [by apply K1|].
  apply (other_page_out kend q p); [done|done| |done]. by intros ->.
Qed.

Lemma uvmcreate_kept s pt l s' : kmem_inv s (pt :: l) -> uvmcreate s = Done pt s' -> kept s (pt :: l) s' l.
Proof.
  intros Hinv H. assert (Hp : managed pt) by (eapply free_pages_managed; [apply Hinv|by left]).
  destruct (kalloc_pop kend s pt l Hinv) as (s1 & Hk & _). pose proof (kept_kalloc s pt l s1 Hinv Hk) as Hk1.
  unfold uvmcreate in H. rewrite (bind_Done _ _ _ _ _ Hk) in H.
  destruct (Z.eqb_spec pt 0) as [Hz|_]; [destruct Hp as (_ & ? & _); lia|].
  unfold zero_page in H. rewrite bind_modify in H. injection H as <-.
  eapply kept_write; [exact Hk1|exact Hp|by left|]. intros x Hx. apply memset_out; [lia_pages|done].
Qed.

(** [taken s0 l0 pt s l]: the tables of [pt] were all free in [s0]. *)
Definition taken (s0 : kmem) (l0 : list Z) (pt : Z) (s : kmem) (l : list Z) : Prop :=
  kept s0 l0 s l /\ forall p, in_tree (pmem s) pt p -> p ∈ l0.

Lemma taken_evolves s0 l0 pt s l s' l' : taken s0 l0 pt s l -> evolves kend pt s l s' l' -> taken s0 l0 pt s' l'.
Proof.
  intros [[H1 K1] Ht] [_ _ [d ->] Hev Hm]. split; [split|].
  - intros p Hp. apply H1. rewrite elem_of_app. by right.
  - intros p i Hp Hn Hi. rewrite Hm; [by apply K1|done|by intros ?%H1|by intros ?%Ht|done].
  - intros p Hp. destruct (Hev p Hp) as [?|?]; [by apply Ht|by apply H1].
Qed.

Lemma taken_write s0 l0 pt s l p m : taken s0 l0 pt s l -> managed p -> p ∈ l0 ->
  (forall x, x < p \/ p + PGSIZE <= x -> m x = pmem s x) -> (forall a, in_tree m pt a <-> in_tree (pmem s) pt a) ->
  taken s0 l0 pt (mkkmem m (freelist s)) l.
Proof. intros [Hk Ht] Hp Hin Hm Htr. split; [by eapply kept_write|]. intros a. cbn [pmem]. rewrite Htr. apply Ht. Qed.

Lemma taken_kalloc s0 l0 pt s p l s' : taken s0 l0 pt s (p :: l) -> kmem_inv s (p :: l) -> kalloc s = Done p s' ->
  (forall a, in_tree (pmem s') pt a <-> in_tree (pmem s) pt a) -> taken s0 l0 pt s' l.
Proof.
  intros [Hk Ht] Hinv Ha Htr. split; [|intros a; rewrite Htr; apply Ht].
  eapply kept_trans; [exact Hk|by apply kept_kalloc].
Qed.
End Frame.
