(* ===== verification/UserMem.v ===== *)
(** * User memory as the kernel's clients see it

    The interface between [kernel/vm.c] and the code that moves data across the
    user/kernel boundary (pipes, the console, files, system calls): copying
    bytes in and out of the current address space, with the laws the clients'
    theorems use.  [vm_user] discharges it with [copyin] and [copyout]; a small
    flat memory gives executable instances. *)

From S2P Require Import Prelude CString Kalloc Vm VmFacts VmOps.

(** [n] consecutive bytes of a partial memory, all of which must be present. *)
Fixpoint bytes_at (f : Z -> option Z) (va : Z) (n : nat) : option (list Z) :=
  match n with
  | O => Some []
  | S n' =>
      match f va with
      | None => None
      | Some b => option_map (cons b) (bytes_at f (va + 1) n')
      end
  end.

(** The NUL-terminated string at [va], of at most [max] bytes with its NUL. *)
Fixpoint str_at (f : Z -> option Z) (va : Z) (max : nat) : option (list Z) :=
  match max with
  | O => None
  | S max' =>
      match f va with
      | None => None
      | Some b => if b =? 0 then Some [0] else option_map (cons b) (str_at f (va + 1) max')
      end
  end.

Class UserMem (U : Type) := {
  uok : U -> Prop;
  ubyte : U -> Z -> option Z;
  (** [copyin]: the result and the bytes stored. *)
  ucopyin : Z -> Z -> U -> Z * list Z;
  (** [copyout]: the result and the new memory. *)
  ucopyout : Z -> list Z -> U -> Z * U;
  (** [copyinstr]: the string with its NUL, [None] for -1. *)
  ucopyinstr : Z -> Z -> U -> option (list Z);
  ubyte_law u va b : uok u -> ubyte u va = Some b -> 0 <= b < 256;
  ucopyin_law va n u : uok u -> 0 <= va < 2 ^ 64 -> 0 <= n ->
    let '(r, bs) := ucopyin va n u in
    bytes_at (ubyte u) va (length bs) = Some bs /\
    ((r = 0 /\ Z.of_nat (length bs) = n) \/
     (r = -1 /\ Z.of_nat (length bs) < n /\ ubyte u (va + Z.of_nat (length bs)) = None));
  ucopyout_law va bs u : uok u -> 0 <= va < 2 ^ 64 -> Forall (fun b => 0 <= b < 256) bs ->
    exists (k : nat) r u', ucopyout va bs u = (r, u') /\ uok u' /\
      ((r = 0 /\ k = length bs) \/ (r = -1 /\ (k < length bs)%nat)) /\
      forall a, 0 <= a ->
        ubyte u' a = if (va <=? a) && (a <? va + Z.of_nat k) then bs !! Z.to_nat (a - va) else ubyte u a;
  ucopyinstr_law va max u : uok u -> 0 <= va < 2 ^ 64 -> 0 <= max ->
    ucopyinstr va max u = str_at (ubyte u) va (Z.to_nat max)
}.

Lemma bytes_at_user m pt va n : bytes_at (user_byte m pt) va n = user_bytes m pt va n.
Proof.
  revert va. induction n as [|n IH]; intros va; cbn; [done|].
  destruct (user_byte m pt va); [|done]. by rewrite IH.
Qed.

Lemma str_at_user m pt va n : str_at (user_byte m pt) va n = user_str m pt va n.
Proof.
  revert va. induction n as [|n IH]; intros va; cbn; [done|].
  destruct (user_byte m pt va); [|done]. by rewrite IH.
Qed.

(** The address space of a page table in physical memory. *)
Section VmUser.
Context (kend pt : Z).

Definition vm_copyin (va n : Z) (s : kmem) : Z * list Z :=
  match copyin pt va n s with Done r _ => r | Panic _ => (-1, []) end.
Definition vm_copyout (va : Z) (bs : list Z) (s : kmem) : Z * kmem :=
  match copyout pt va bs s with Done r s' => (r, s') | Panic _ => (-1, s) end.

Definition vm_copyinstr (va max : Z) (s : kmem) : option (list Z) :=
  match copyinstr pt va max s with Done r _ => r | Panic _ => None end.

Definition vm_ok (s : kmem) : Prop :=
  exists l, kmem_inv kend s l /\ pt_wf kend (pmem s) pt l /\ space_ok kend (pmem s) pt l.

#[refine] Instance vm_user : UserMem kmem := {|
  uok := vm_ok;
  ubyte := fun s => user_byte (pmem s) pt;
  ucopyin := vm_copyin;
  ucopyout := vm_copyout;
  ucopyinstr := vm_copyinstr
|}.
Proof.
  - intros s va b (l & (Hm & _) & _). unfold user_byte. destruct (_ =? 0); [done|].
    intros [= <-]. apply Hm.
  - intros va n s (l & _ & Hwf & _) Hva Hn. unfold vm_copyin, copyin.
    destruct (copyin_loop_spec kend s pt l Hwf (S (Z.to_nat n)) va n Hva Hn ltac:(lia))
      as ([r bs] & -> & H1 & _ & H2). cbn [fst snd] in *. rewrite bytes_at_user. auto.
  - intros va bs s (l & Hinv & Hwf & Hsp) Hva Hbs. unfold vm_copyout, copyout.
    destruct (copyout_loop_spec kend pt l (S (length bs)) va bs s) as (k & r & s' & -> & Hc); [done..|lia|].
    destruct Hc as [Hi Hw Hs _ Hwr Hr]. exists k, r, s'. split; [done|]. split; [by exists l|].
    split; [destruct Hr as [?|(? & ? & _)]; auto|]. intros a Ha. rewrite (Hwr a Ha), length_take.
    assert (Hk : (k <= length bs)%nat) by (destruct Hr as [[_ ->]|(_ & ? & _)]; lia).
    rewrite Nat.min_l by done.
    destruct (Z.leb_spec va a), (Z.ltb_spec a (va + Z.of_nat k)); cbn [andb]; try done.
    rewrite lookup_take. case_decide; [done|lia].
  - intros va max s (l & _ & Hwf & _) Hva Hm. unfold vm_copyinstr, copyinstr.
    rewrite (copyinstr_loop_spec kend s pt l Hwf) by (done || lia). by rewrite str_at_user.
Defined.
End VmUser.

(** ** A flat memory *)

(** Bytes 0 .. length - 1 are mapped and writable. *)
Definition flat_byte (u : list Z) (a : Z) : option Z := if a <? 0 then None else u !! Z.to_nat a.

Fixpoint flat_copyout (va : Z) (bs : list Z) (u : list Z) : Z * list Z :=
  match bs with
  | [] => (0, u)
  | b :: bs' =>
      match flat_byte u va with
      | None => (-1, u)
      | Some _ => flat_copyout (va + 1) bs' (<[Z.to_nat va := b]> u)
      end
  end.

(** The bytes up to the first missing one. *)
Fixpoint flat_copyin (va : Z) (n : nat) (u : list Z) : Z * list Z :=
  match n with
  | O => (0, [])
  | S n' =>
      match flat_byte u va with
      | None => (-1, [])
      | Some b => let '(r, bs) := flat_copyin (va + 1) n' u in (r, b :: bs)
      end
  end.

Lemma flat_copyin_spec u n : forall va,
  let '(r, bs) := flat_copyin va n u in
  bytes_at (flat_byte u) va (length bs) = Some bs /\
  ((r = 0 /\ length bs = n) \/
   (r = -1 /\ (length bs < n)%nat /\ flat_byte u (va + Z.of_nat (length bs)) = None)).
Proof.
  induction n as [|n IH]; intros va; cbn [flat_copyin]; [by auto|].
  destruct (flat_byte u va) as [b|] eqn:Hb; [|cbn; rewrite Z.add_0_r; auto with lia].
  specialize (IH (va + 1)). destruct (flat_copyin (va + 1) n u) as [r bs]. destruct IH as [H1 H2].
  cbn [length bytes_at]. rewrite Hb, H1. split; [done|].
  destruct H2 as [[-> <-]|(-> & ? & Hn)]; [by left|right]. split; [done|]. split; [lia|].
  rewrite <- Hn. f_equal. lia.
Qed.

Lemma flat_copyout_spec bs : forall va u, 0 <= va ->
  exists (k : nat) r u', flat_copyout va bs u = (r, u') /\
    ((r = 0 /\ k = length bs) \/ (r = -1 /\ (k < length bs)%nat)) /\
    forall a, 0 <= a ->
      flat_byte u' a =
        if (va <=? a) && (a <? va + Z.of_nat k) then bs !! Z.to_nat (a - va) else flat_byte u a.
Proof.
  induction bs as [|b bs IH]; intros va u Hva; cbn [flat_copyout].
  - exists 0%nat, 0, u. split; [done|]. split; [by left|]. intros a Ha.
    change (Z.of_nat 0) with 0. destruct (Z.leb_spec va a), (Z.ltb_spec a (va + 0)); cbn [andb]; done || lia.
  - destruct (flat_byte u va) as [c|] eqn:Hc.
    2: { exists 0%nat, (-1), u. split; [done|]. split; [right; cbn; lia|]. intros a Ha.
         change (Z.of_nat 0) with 0. destruct (Z.leb_spec va a), (Z.ltb_spec a (va + 0)); cbn [andb]; done || lia. }
    destruct (IH (va + 1) (<[Z.to_nat va := b]> u) ltac:(lia)) as (k & r & u' & He & Hr & Hb).
    exists (S k), r, u'. split; [done|]. split; [cbn; destruct Hr as [[-> ->]|[-> ?]]; [by left|right; lia]|].
    intros a Ha. rewrite (Hb a Ha). unfold flat_byte in Hc |- *.
    destruct (Z.ltb_spec va 0); [done|]. destruct (Z.ltb_spec a 0); [lia|].
    destruct (decide (a = va)) as [->|Hne].
    + destruct (Z.leb_spec (va + 1) va); [lia|]. destruct (Z.leb_spec va va), (Z.ltb_spec va (va + Z.of_nat (S k))); try lia.
      cbn [andb]. rewrite Z.sub_diag. cbn. apply list_lookup_insert_eq. apply lookup_lt_Some in Hc. lia.
    + rewrite list_lookup_insert_ne by lia.
      destruct (Z.leb_spec (va + 1) a), (Z.leb_spec va a), (Z.ltb_spec a (va + 1 + Z.of_nat k)),
        (Z.ltb_spec a (va + Z.of_nat (S k))); cbn [andb]; try lia; try done.
      replace (Z.to_nat (a - va)) with (S (Z.to_nat (a - (va + 1)))) by lia. done.
Qed.

Lemma flat_copyout_ok bs : forall va u,
  Forall (fun b => 0 <= b < 256) u -> Forall (fun b => 0 <= b < 256) bs ->
  Forall (fun b => 0 <= b < 256) (flat_copyout va bs u).2.
Proof.
  induction bs as [|b bs IH]; intros va u Hu Hbs; cbn [flat_copyout]; [done|].
  apply Forall_cons in Hbs as [Hb Hbs]. destruct (flat_byte u va); [|done].
  apply IH; [|done]. by apply Forall_insert.
Qed.

#[export, refine] Instance flat_user : UserMem (list Z) := {|
  uok := Forall (fun b => 0 <= b < 256);
  ubyte := flat_byte;
  ucopyin := fun va n u => flat_copyin va (Z.to_nat n) u;
  ucopyout := flat_copyout;
  ucopyinstr := fun va max u => str_at (flat_byte u) va (Z.to_nat max)
|}.
Proof.
  - intros u a b Hu. unfold flat_byte. destruct (a <? 0); [done|]. intros Hb.
    rewrite Forall_lookup in Hu. by apply (Hu _ _ Hb).
  - intros va n u Hu Hva Hn. pose proof (flat_copyin_spec u (Z.to_nat n) va) as H.
    destruct (flat_copyin va (Z.to_nat n) u) as [r bs]. destruct H as [H1 [[-> H2]|(-> & H2 & H3)]].
    + split; [done|]. left. split; [done|lia].
    + split; [done|]. right. split; [done|]. split; [lia|done].
  - intros va bs u Hu Hva Hbs. destruct (flat_copyout_spec bs va u) as (k & r & u' & H1 & H2 & H3); [lia|].
    exists k, r, u'. split; [done|]. split; [|done].
    pose proof (flat_copyout_ok bs va u Hu Hbs) as Hok. by rewrite H1 in Hok.
  - done.
Defined.

(** ** [either_copyin] and [either_copyout] of [kernel/proc.c] *)

(** The current user memory and the kernel's memory. *)
Section Either.
Context {U : Type} `{!UserMem U}.

Definition either_copyout (user_dst : bool) (dst : Z) (src : list Z) (um : U * mem) : Z * (U * mem) :=
  if user_dst then let '(r, u') := ucopyout dst src um.1 in (r, (u', um.2))
  else (0, (um.1, store_bytes um.2 dst src)).

Definition either_copyin (user_src : bool) (src len : Z) (um : U * mem) : Z * list Z :=
  if user_src then ucopyin src len um.1 else (0, load_bytes um.2 src (Z.to_nat len)).

(** A copy of one byte. *)
Lemma ucopyin_byte va u : uok u -> 0 <= va < 2 ^ 64 ->
  ucopyin va 1 u = match ubyte u va with Some b => (0, [b]) | None => (-1, []) end.
Proof.
  intros Hu Hva. pose proof (ucopyin_law va 1 u Hu Hva ltac:(lia)) as H.
  destruct (ucopyin va 1 u) as [r bs]. destruct H as [H1 [[-> H2]|(-> & H2 & H3)]].
  - destruct bs as [|b [|]]; cbn in H2; try lia. cbn in H1. destruct (ubyte u va); [|done]. by injection H1 as ->.
  - destruct bs; cbn in H2; [|lia]. cbn in H3. rewrite Z.add_0_r in H3. by rewrite H3.
Qed.
End Either.

(** [solve_bytes]: a literal list holds bytes. *)
Ltac solve_bytes := cbn [uok flat_user]; repeat (apply Forall_cons; split; [lia|]); apply List.Forall_nil.
