(* ===== verification/Initcode.v ===== *)
(** * The first user program: [initcode] of [kernel/proc.c]

    [initcode] is machine code.  [decode] and [exec] interpret the four RV64I
    instructions it consists of, over the bytes a process sees in its address
    space.  [initcode_execs]: run from address 0, its first system call is
    [exec] of ["/init"] with the argument vector [{"/init"}], and whenever a
    system call of it returns, the next one is [exit].

    The interpreter stops at an [ecall]; the kernel continues the program after
    it with the result in [a0], as [usertrap] and [syscall] do. *)

From S2P Require Import Prelude CString Kalloc Vm VmFacts VmOps UserMem Trap.

Definition initcode : list Z :=
  [0x17; 0x05; 0x00; 0x00; 0x13; 0x05; 0x45; 0x02;
   0x97; 0x05; 0x00; 0x00; 0x93; 0x85; 0x35; 0x02;
   0x93; 0x08; 0x70; 0x00; 0x73; 0x00; 0x00; 0x00;
   0x93; 0x08; 0x20; 0x00; 0x73; 0x00; 0x00; 0x00;
   0xef; 0xf0; 0x9f; 0xff; 0x2f; 0x69; 0x6e; 0x69;
   0x74; 0x00; 0x00; 0x24; 0x00; 0x00; 0x00; 0x00;
   0x00; 0x00; 0x00; 0x00].

(** ** The instructions *)

Inductive instr :=
| Auipc (rd : nat) (imm : Z)
| Addi (rd rs1 : nat) (imm : Z)
| Jal (rd : nat) (imm : Z)
| Ecall.

(** Bits [hi] to [lo] of [w], and sign extension from [n] bits. *)
Definition slice (w lo hi : Z) : Z := Z.land (Z.shiftr w lo) (Z.ones (hi - lo + 1)).
Definition sext (n v : Z) : Z := if Z.testbit v (n - 1) then v - 2 ^ n else v.

Definition decode (w : Z) : option instr :=
  let rd := Z.to_nat (slice w 7 11) in
  let rs1 := Z.to_nat (slice w 15 19) in
  let funct3 := slice w 12 14 in
  let op := slice w 0 6 in
  if op =? 0x17 then Some (Auipc rd (sext 32 (Z.shiftl (slice w 12 31) 12)))
  else if (op =? 0x13) && (funct3 =? 0) then Some (Addi rd rs1 (sext 12 (slice w 20 31)))
  else if op =? 0x6f then
    Some (Jal rd (sext 21 (Z.shiftl (slice w 31 31) 20 + Z.shiftl (slice w 12 19) 12 +
                           Z.shiftl (slice w 20 20) 11 + Z.shiftl (slice w 21 30) 1)))
  else if w =? 0x73 then Some Ecall
  else None.

(** ** The processor in user mode *)

Record cpu := mkcpu { upc : Z; xreg : nat -> Z }.

Definition reg (c : cpu) (r : nat) : Z := if decide (r = 0%nat) then 0 else xreg c r.
Definition set_reg (r : nat) (v : Z) (c : cpu) : cpu := mkcpu (upc c) (upd (xreg c) r (u64 v)).
Definition jump (a : Z) (c : cpu) : cpu := mkcpu (u64 a) (xreg c).

Definition a0 : nat := 10.
Definition a1 : nat := 11.
Definition a7 : nat := 17.

(** The little-endian value of bytes. *)
Fixpoint le_value (bs : list Z) : Z := match bs with [] => 0 | b :: r => b + 256 * le_value r end.

Definition fetch (f : Z -> option Z) (pc : Z) : option instr :=
  match bytes_at f pc 4 with Some bs => decode (le_value bs) | None => None end.

(** What one step does: go on, stop at a system call, or fault. *)
Inductive outcome := Goes (c : cpu) | Traps | Faults.

Definition exec (i : instr) (c : cpu) : outcome :=
  match i with
  | Auipc rd imm => Goes (jump (upc c + 4) (set_reg rd (upc c + imm) c))
  | Addi rd rs1 imm => Goes (jump (upc c + 4) (set_reg rd (reg c rs1 + imm) c))
  | Jal rd imm => Goes (jump (upc c + imm) (set_reg rd (upc c + 4) c))
  | Ecall => Traps
  end.

Definition step (f : Z -> option Z) (c : cpu) : outcome :=
  match fetch f (upc c) with Some i => exec i c | None => Faults end.

(** Run to the next system call: the state at its [ecall]. *)
Fixpoint to_ecall (fuel : nat) (f : Z -> option Z) (c : cpu) : option cpu :=
  match fuel with
  | O => None
  | S fuel' =>
      match step f c with
      | Goes c' => to_ecall fuel' f c'
      | Traps => Some c
      | Faults => None
      end
  end.

(** The system call number, as [syscall] reads it, and the return from it. *)
Definition call_number (c : cpu) : Z := s32 (reg c a7).
Definition sysret (v : Z) (c : cpu) : cpu := jump (upc c + 4) (set_reg a0 v c).

(** [n] more system calls, each returning one of [vs]. *)
Fixpoint calls (f : Z -> option Z) (vs : list Z) (c : cpu) : option cpu :=
  match vs with
  | [] => Some c
  | v :: vs' => match to_ecall 8 f (sysret v c) with Some c' => calls f vs' c' | None => None end
  end.

(** ** What it does *)

(** The bytes of [initcode] at address 0, in a page that is zero after it. *)
Definition holds_initcode (f : Z -> option Z) : Prop :=
  forall a, 0 <= a < PGSIZE -> f a = Some (nth (Z.to_nat a) initcode 0).

Lemma bytes_initcode f a n : holds_initcode f -> 0 <= a -> a + Z.of_nat n <= PGSIZE ->
  bytes_at f a n = Some ((fun i => nth (Z.to_nat a + i) initcode 0) <$> seq 0 n).
Proof.
  intros Hf. revert a. induction n as [|n IH]; intros a Ha Hn; [done|]. cbn [bytes_at seq fmap list_fmap].
  rewrite Hf by lia. rewrite IH by lia. cbn [option_map]. rewrite Nat.add_0_r. do 2 f_equal.
  rewrite <- fmap_S_seq, <- list_fmap_compose. apply list_fmap_ext. intros i x _. unfold compose. f_equal. lia.
Qed.

Lemma step_initcode f c i : holds_initcode f -> 0 <= upc c -> upc c + 4 <= PGSIZE ->
  decode (le_value ((fun i => nth (Z.to_nat (upc c) + i) initcode 0) <$> seq 0 4)) = Some i -> step f c = exec i c.
Proof.
  intros Hf H0 H1 Hd. unfold step, fetch. rewrite (bytes_initcode f (upc c) 4 Hf H0) by (cbn; lia). by rewrite Hd.
Qed.

(** [run_step i]: execute the instruction [i] at the current address. *)
Ltac run_step i := cbn [to_ecall]; rewrite (step_initcode _ _ i) by (done || (cbn; lia_pages)); cbn [exec].

(** From address 0 to the first [ecall]. *)
Lemma first_call f x : holds_initcode f ->
  exists x1, to_ecall 8 f (mkcpu 0 x) = Some (mkcpu 20 x1) /\ x1 a0 = 36 /\ x1 a1 = 43 /\ x1 a7 = 7.
Proof.
  intros Hf. run_step (Auipc 10 0). run_step (Addi 10 10 36). run_step (Auipc 11 0). run_step (Addi 11 11 35).
  run_step (Addi 17 0 7). run_step Ecall. eexists. split; [reflexivity|]. by split_and!.
Qed.

(** Back from a system call to the next [ecall]. *)
Lemma next_call f pc x v : holds_initcode f -> pc = 20 \/ pc = 28 ->
  exists x1, to_ecall 8 f (sysret v (mkcpu pc x)) = Some (mkcpu 28 x1) /\ x1 a7 = 2.
Proof.
  intros Hf [-> | ->]; unfold sysret, jump; cbn [upc xreg set_reg].
  - change (u64 (20 + 4)) with 24. run_step (Addi 17 0 2). run_step Ecall. eexists. by split.
  - change (u64 (28 + 4)) with 32. run_step (Jal 1 (-8)). run_step (Addi 17 0 2). run_step Ecall. eexists. by split.
Qed.

Lemma later_calls f : holds_initcode f -> forall vs pc x, pc = 20 \/ pc = 28 -> vs <> [] ->
  exists x1, calls f vs (mkcpu pc x) = Some (mkcpu 28 x1) /\ x1 a7 = 2.
Proof.
  intros Hf. induction vs as [|v vs IH]; intros pc x Hpc Hne; [done|]. cbn [calls].
  destruct (next_call f pc x v Hf Hpc) as (x1 & Hc & Ha). rewrite Hc. destruct vs as [|w vs]; [by exists x1|].
  apply IH; [by right|done].
Qed.

Lemma str_at_bytes f : forall bs va max, bytes_at f va (length bs) = Some bs -> Forall (fun b => b <> 0) (removelast bs) ->
  List.last bs 1 = 0 -> (length bs <= max)%nat -> str_at f va max = Some bs.
Proof.
  induction bs as [|b bs IH]; intros va max Hb Hnz Hl Hm; [done|]. destruct max as [|max]; [cbn in Hm; lia|].
  cbn [length bytes_at str_at] in *. destruct (f va) as [c|]; [|done].
  destruct (bytes_at f (va + 1) (length bs)) as [l|] eqn:Hr; [|done]. injection Hb as -> ->.
  destruct bs as [|d bs]; [cbn in Hl; by subst|].
  change (removelast (b :: d :: bs)) with (b :: removelast (d :: bs)) in Hnz. apply Forall_cons in Hnz as [Hb Hnz].
  destruct (Z.eqb_spec b 0); [done|]. by rewrite (IH (va + 1) max Hr Hnz Hl) by lia.
Qed.

(** The machine code of the first process.  From address 0, whatever the
    registers hold, its first system call is number [SYS_exec] with [a0]
    pointing to ["/init"] and [a1] to the vector of that pointer and a null
    pointer; and after any number of returns from system calls, with any
    results, the next call is [exit]: it never runs off its end. *)
Theorem initcode_execs (f : Z -> option Z) (c : cpu) :
  holds_initcode f -> upc c = 0 ->
  exists c1, to_ecall 8 f c = Some c1 /\ lookup_syscall (call_number c1) = Some Sys_exec /\
    str_at f (reg c1 a0) (Z.to_nat MAXPATH) = Some (bytes_of_string "/init" ++ [0]) /\
    option_map le_value (bytes_at f (reg c1 a1) 8) = Some (reg c1 a0) /\
    option_map le_value (bytes_at f (reg c1 a1 + 8) 8) = Some 0 /\
    forall vs, vs <> [] ->
      exists c2, calls f vs c1 = Some c2 /\ lookup_syscall (call_number c2) = Some Sys_exit.
Proof.
  intros Hf Hpc. destruct c as [pc x]. cbn in Hpc. subst pc.
  destruct (first_call f x Hf) as (x1 & Hrun & H0 & H1 & H7). exists (mkcpu 20 x1).
  unfold call_number, reg. cbn [xreg a0 a1 a7]. rewrite !decide_False by done. change 10%nat with a0. change 11%nat with a1. change 17%nat with a7.
  rewrite H0, H1, H7. split; [done|]. split; [done|]. split; [|split; [|split]].
  - apply str_at_bytes; [|repeat (apply Forall_cons; split; [done|]); apply Forall_nil_2|done|by vm_compute; lia].
    by rewrite (bytes_initcode f 36 _ Hf) by (cbn; lia_pages).
  - by rewrite (bytes_initcode f 43 8 Hf) by (cbn; lia_pages).
  - by rewrite (bytes_initcode f (43 + 8) 8 Hf) by (cbn; lia_pages).
  - intros vs Hne. destruct (later_calls f Hf vs 20 x1 ltac:(by left) Hne) as (x2 & Hc & H2).
    exists (mkcpu 28 x2). split; [done|]. cbn [xreg]. by rewrite H2.
Qed.

(** A flat page with the program in it. *)
Definition init_page (a : Z) : option Z :=
  if (0 <=? a) && (a <? PGSIZE) then Some (nth (Z.to_nat a) initcode 0) else None.

Lemma initcode_execs_witness :
  exists c1, to_ecall 8 init_page (mkcpu 0 (fun _ => 77)) = Some c1 /\ lookup_syscall (call_number c1) = Some Sys_exec.
Proof.
  destruct (initcode_execs init_page (mkcpu 0 (fun _ => 77))) as (c1 & H1 & H2 & _).
  - intros a Ha. unfold init_page. destruct (Z.leb_spec 0 a), (Z.ltb_spec a PGSIZE); reflexivity || lia.
  - reflexivity.
  - exists c1. split; [exact H1|exact H2].
Defined.
