(* ===== verification/FirstProc.v ===== *)
(** * The first process: [userinit] over real page tables

    [vm_services] implements the memory half of the interface [Services] of
    [ProcDef.v] with [kalloc], [kfree] and the page-table functions of [vm.c]
    and [proc.c] on physical memory; the file half is the class [FileLayer].
    [first_process_runs_init]: after [procinit] and [userinit], slot 0 holds a
    runnable process whose address space contains [initcode] and whose first
    system call is [exec] of ["/init"]. *)

From S2P Require Import Prelude CString Kalloc ProcDef Proc ProcFacts ProcLife ProcInv ProcTable Trap Vm VmFacts VmOps.
From S2P Require Import Kvm VmFrame UserMem Initcode.

(** ** The file half of the services *)

Class FileLayer (F : Type) := {
  fl_dup : Z -> F -> result F Z;
  fl_close : Z -> F -> result F (list channel * list Z);   (* and the pages it frees *)
  fl_idup : Z -> F -> result F Z;
  fl_iput : Z -> F -> result F (list channel);
  fl_root : F -> result F Z;
  fl_uninit : Z;
  fl_forkret : Z
}.

Section Services.
Context (kend trampoline : Z) {F : Type} `{!FileLayer F}.

(** A computation on physical memory, or on the files. *)
Definition onmem {A} (c : M kmem A) (e : kmem * F) : result (kmem * F) A :=
  match c e.1 with Done a m => Done a (m, e.2) | Panic msg => Panic msg end.
Definition onfiles {A} (c : F -> result F A) (e : kmem * F) : result (kmem * F) A :=
  match c e.2 with Done a f => Done a (e.1, f) | Panic msg => Panic msg end.

Definition vm_services : Services (kmem * F) := {|
  kalloc_page := fun e => match onmem kalloc e with Done pa e' => (pa, e') | Panic _ => (0, e) end;
  kfree_page := fun pa => onmem (kfree kend pa);
  make_pagetable := fun tf => onmem (proc_pagetable kend trampoline tf);
  free_pagetable := fun pt sz => onmem (proc_freepagetable kend pt sz);
  uvm_copy := fun old new sz => onmem (uvmcopy kend old new sz);
  uvm_alloc := fun pt oldsz newsz perm => onmem (uvmalloc kend pt oldsz newsz perm);
  uvm_dealloc := fun pt oldsz newsz => onmem (uvmdealloc kend pt oldsz newsz);
  uvm_first := fun pt => onmem (uvmfirst pt initcode);
  copy_out := fun pt va bs => onmem (copyout pt va bs);
  file_dup := fun f => onfiles (fl_dup f);
  file_close := fun f e =>
    match onfiles (fl_close f) e with
    | Done (cs, ps) e' => onmem (for_each (kfree kend) ps ;; ret cs) e'
    | Panic msg => Panic msg
    end;
  inode_dup := fun ip => onfiles (fl_idup ip);
  inode_put := fun ip => onfiles (fl_iput ip);
  root_inode := onfiles fl_root;
  uninit_byte := fl_uninit;
  forkret_pc := fl_forkret
|}.
End Services.

(** ** The memory functions [userinit] uses *)

Definition PTE_URWX : Z := Z.lor (Z.lor (Z.lor PTE_W PTE_R) PTE_X) PTE_U.

(** A new process's address space: the trampoline and its trapframe. *)
Definition bare_map (trampoline tf : Z) : Z -> option (Z * Z) :=
  over TRAPFRAME tf PGSIZE PTE_RW (over TRAMPOLINE trampoline PGSIZE PTE_RX (fun _ => None)).

Section FirstSpace.
Context (kend trampoline : Z) (Htr : page_aligned trampoline) (Htr0 : 0 <= trampoline < PHYSTOP).

Lemma proc_pagetable_spec tf s l : kmem_inv kend s l -> (5 <= length l)%nat -> managed kend tf -> tf ∉ l ->
  exists pt s' l', proc_pagetable kend trampoline tf s = Done pt s' /\ pt <> 0 /\
    maps kend pt s' l' (bare_map trampoline tf) /\ aside kend pt s' l' [tf] /\ (length l <= length l' + 5)%nat /\
    taken kend s l pt s' l'.
Proof.
  intros Hinv Hl Htf Htfl. destruct l as [|pt l]; [cbn in Hl; lia|]. cbn [length] in Hl.
  destruct (uvmcreate_spec kend s pt l Hinv) as (s0 & Hc & Hinv0 & Hwf0 & Hp0 & Ht0).
  assert (Hpt : pt <> 0).
  { assert (Hm : managed kend pt) by (eapply free_pages_managed; [apply Hinv|by left]). destruct Hm as (_ & ? & _). lia. }
  assert (Hm0 : maps kend pt s0 l (fun _ => None)) by (split; [done|done|]; intros va _; by rewrite Hp0).
  assert (Has0 : aside kend pt s0 l [tf]).
  { split; [apply NoDup_singleton|]. intros p Hp%list_elem_of_singleton. subst p. split; [done|]. split.
    - intros ?. apply Htfl. by right.
    - intros Hin%Ht0. apply Htfl. rewrite Hin. apply list_elem_of_here. }
  assert (HM : MAXVA = 2 ^ 38) by done. destruct Htf as (Ha & Hp & Hlo & Hhi).
  assert (C1 : range_cost TRAMPOLINE PGSIZE = 2) by done. assert (C2 : range_cost TRAPFRAME PGSIZE = 2) by done.
  destruct (mappages_fits kend pt TRAMPOLINE trampoline PGSIZE PTE_RX s0 l _ Hm0) as (s1 & l1 & H1 & Hev1 & Hm1 & Hl1);
    try (done || lia || lia_pages || (unfold TRAMPOLINE; lia_pages)).
  destruct (mappages_fits kend pt TRAPFRAME tf PGSIZE PTE_RW s1 l1 _ Hm1) as (s2 & l2 & H2 & Hev2 & Hm2 & Hl2);
    try (done || lia || lia_pages || (unfold TRAPFRAME, TRAMPOLINE; lia_pages)).
  { intros v Hv. apply over_out. left. unfold TRAPFRAME in Hv. lia_pages. }
  exists pt, s2, l2. split; [|split; [done|split; [done|split; [|split; [cbn [length]; lia|]]]]].
  - unfold proc_pagetable. rewrite (bind_Done _ _ _ _ _ Hc). destruct (Z.eqb_spec pt 0); [done|].
    rewrite (bind_Done _ _ _ _ _ H1). cbn [Z.ltb Z.compare]. by rewrite (bind_Done _ _ _ _ _ H2).
  - eapply aside_evolves; [exact Hev2|]. by eapply aside_evolves.
  - eapply taken_evolves; [|exact Hev2]. eapply taken_evolves; [|exact Hev1]. split; [by eapply uvmcreate_kept|].
    intros p Hp'%Ht0. rewrite Hp'. by left.
Qed.

(** The bytes of a page mapped for the user. *)
Lemma user_byte_mapped pt s l f pg va : maps kend pt s l (over 0 pg PGSIZE PTE_URWX f) -> managed kend pg -> 0 <= va < PGSIZE ->
  user_byte (pmem s) pt va = Some (pmem s (pg + va)).
Proof.
  intros [_ _ Hpte] (Ha & Hp & Hlo & Hhi) Hva. assert (HM : MAXVA = 2 ^ 38) by done.
  assert (He : pte_at (pmem s) pt va = mk_pte pg PTE_URWX).
  { rewrite Hpte by lia_pages. unfold over. rewrite (proj2 (within_iff 0 PGSIZE va)) by lia. cbn [entry_pte].
    rewrite Z.sub_0_r, Z.div_small by done. by rewrite Z.mul_0_l, Z.add_0_r. }
  assert (Hpg : user_page (pmem s) pt va = pg).
  { unfold user_page. rewrite He, !mk_pte_flag by (done || lia_pages). rewrite (proj2 (Z.ltb_lt va MAXVA)) by lia_pages.
    cbn -[mk_pte PTE2PA]. apply mk_pte_pa; [lia_pages|done|done]. }
  unfold user_byte. rewrite Hpg. destruct (Z.eqb_spec pg 0); [lia|]. by rewrite Z.mod_small.
Qed.

Lemma uvmfirst_spec s0 l0 pt s l f src ps : maps kend pt s l f -> taken kend s0 l0 pt s l -> aside kend pt s l ps -> (3 <= length l)%nat ->
  Z.of_nat (length src) < PGSIZE -> Forall (fun b => 0 <= b < 256) src -> (forall v, 0 <= v < PGSIZE -> f v = None) ->
  exists s' l' pg, uvmfirst pt src s = Done tt s' /\ maps kend pt s' l' (over 0 pg PGSIZE PTE_URWX f) /\
    aside kend pt s' l' (pg :: ps) /\ (length l <= length l' + 3)%nat /\ taken kend s0 l0 pt s' l' /\
    (forall a, 0 <= a < PGSIZE -> user_byte (pmem s') pt a = Some (nth (Z.to_nat a) src 0)).
Proof.
  intros Hm Htk Has Hl Hsrc Hby Hf. destruct l as [|pg l]; [cbn in Hl; lia|]. cbn [length] in Hl.
  assert (Hpg0 : pg ∈ l0) by (apply (proj1 (proj1 Htk)); by left).
  destruct (kalloc_maps kend pt s pg l f Hm) as (s1 & Hk & Hm1 & Ht1 & Hpg & Hpt & Hpl).
  pose proof (aside_kalloc kend pt s s1 pg l ps Has Ht1 Hpg Hpt Hpl) as Has1.
  assert (Hnt1 : ~ in_tree (pmem s1) pt pg) by (by rewrite Ht1).
  set (m2 := memset (pmem s1) pg 0 PGSIZE).
  destruct (page_write_maps kend pt s1 l f pg m2 Hm1 Hpg Hnt1 Hpl) as [Hm2 Ht2].
  { apply memset_ok; [lia_pages|apply (mp_inv _ _ _ _ _ Hm1)]. }
  { intros x Hx. apply memset_out; [lia_pages|done]. }
  set (s2 := mkkmem m2 (freelist s1)) in *.
  assert (Has2 : aside kend pt s2 l (pg :: ps)).
  { destruct Has1 as [Hnd Hps]. split; [done|]. intros q Hq. cbn [s2 pmem]. rewrite Ht2. by apply Hps. }
  assert (HM : MAXVA = 2 ^ 38) by done. destruct (Hpg) as (Ha & Hp & Hlo & Hhi). assert (C : range_cost 0 PGSIZE = 2) by done.
  destruct (mappages_fits kend pt 0 pg PGSIZE PTE_URWX s2 l f Hm2) as (s3 & l3 & H3 & Hev & Hm3 & Hl3);
    try first [assumption | lia | lia_pages | reflexivity].
  { done. }
  pose proof (aside_evolves _ _ _ _ _ _ _ Hev Has2) as Has3. destruct (proj2 Has3 pg ltac:(by left)) as (_ & Hpl3 & Hnt3).
  set (m4 := store_bytes (pmem s3) pg src).
  destruct (page_write_maps kend pt s3 l3 _ pg m4 Hm3 Hpg Hnt3 Hpl3) as [Hm4 Ht4].
  { apply store_bytes_ok, (mp_inv _ _ _ _ _ Hm3). }
  { intros x Hx. apply store_bytes_out. lia. }
  exists (mkkmem m4 (freelist s3)), l3, pg. split; [|split; [done|split; [|split; [cbn [length]; lia|split]]]].
  - unfold uvmfirst. rewrite Z.geb_leb, (proj2 (Z.leb_gt _ _)) by lia. rewrite (bind_Done _ _ _ _ _ Hk).
    unfold zero_page. rewrite bind_modify. fold m2. fold s2. fold PTE_URWX. by rewrite (bind_Done _ _ _ _ _ H3).
  - destruct Has3 as [Hnd Hps]. split; [done|]. intros q Hq. cbn [pmem]. rewrite Ht4. by apply Hps.
  - eapply taken_write; [|exact Hpg|exact Hpg0| |exact Ht4]; [|intros x Hx; apply store_bytes_out; lia].
    eapply taken_evolves; [|exact Hev]. eapply taken_write; [|exact Hpg|exact Hpg0| |exact Ht2].
    + eapply taken_kalloc; [exact Htk|apply Hm|exact Hk|exact Ht1].
    + intros x Hx. apply memset_out; [lia_pages|done].
  - intros a Ha'. rewrite (user_byte_mapped pt _ l3 f pg a Hm4 Hpg Ha'). cbn [pmem]. f_equal. unfold m4.
    destruct (src !! Z.to_nat a) as [b|] eqn:Hb.
    + replace (pg + a) with (pg + Z.of_nat (Z.to_nat a)) by lia. rewrite (store_bytes_in _ _ _ _ b Hb).
      rewrite (nth_lookup_Some _ _ _ _ Hb). apply u8_small. by apply (Forall_lookup_1 _ _ _ _ Hby Hb).
    + apply lookup_ge_None_1 in Hb. rewrite store_bytes_out by lia. rewrite nth_overflow by lia.
      destruct (proj2 Has2 pg (list_elem_of_here _ _)) as (_ & Hpl2 & Hnt2).
      rewrite (ev_mem _ _ _ _ _ _ Hev pg a Hpg Hpl2 Hnt2 Ha'). cbn [s2 pmem]. unfold m2. rewrite memset_in by (lia_pages || lia). reflexivity.
Qed.
End FirstSpace.

(** ** [userinit] on an empty process table *)

Section Userinit.
Context {E : Type} `{!Services E}.
Implicit Types (s : kernel E).

(** The process [userinit] sets up in slot 0, over what the slot held. *)
Record first_slot (pa pt np root : Z) (p q : proc) : Prop := {
  fs_state : state q = RUNNABLE;
  fs_pid : pid q = np;
  fs_pagetable : pagetable q = pt;
  fs_sz : sz q = PGSIZE;
  fs_epc : tf q !! TF_epc = Some 0;
  fs_sp : tf q !! TF_sp = Some PGSIZE;
  fs_page : tf_page q = pa;
  fs_cwd : cwd q = root;
  fs_ctx : ctx q = mkcontext forkret_pc (kstack p + PGSIZE) (replicate 12 0)
}.

Lemma userinit_Done s0 p pa e1 pt e2 e3 root e4 :
  length (procs s0) = NPROC -> held s0 = [] -> procs s0 !! 0%nat = Some p -> state p = UNUSED ->
  kalloc_page (env s0) = (pa, e1) -> pa <> 0 -> make_pagetable pa e1 = Done pt e2 -> pt <> 0 ->
  uvm_first pt e2 = Done tt e3 -> root_inode e3 = Done root e4 ->
  exists q s', userinit s0 = Done tt s' /\ procs s' = <[0%nat := q]> (procs s0) /\ first_slot pa pt (nextpid s0) root p q /\
    held s' = [] /\ initproc s' = Some 0%nat /\ env s' = e4.
Proof.
  intros Hlen Hh Hp Hu Hka Hpa Hmk Hpt Hfst Hroot. set (s1 := set_initproc (Some 0%nat) s0).
  assert (Hi : (0 < length (procs s1))%nat) by (unfold s1; kproj; rewrite Hlen; unfold NPROC; lia).
  assert (Hall : allocproc s0 = Done (Some 0%nat) (set_env e2 (set_held [LProc 0] (set_nextpid (s32 (nextpid s0 + 1))
    (set_procs (<[0%nat := fresh (nextpid s0) pa pt (ticks s0) p]> (procs s0)) s0))))).
  { unfold allocproc, bind at 1. rewrite alloc_search by (split; [done|intros; rewrite Hh; apply not_elem_of_nil]).
    assert (Hfind : list_find (fun p => state p = UNUSED) (procs s0) = Some (0%nat, p)).
    { destruct (procs s0) as [|p0 ps]; [done|]. injection Hp as ->. cbn [list_find]. by rewrite decide_True. }
    rewrite Hfind, Hh.
    rewrite (bind_Done _ _ _ _ _ (allocpid_Done (set_held [LProc 0] s0) ltac:(kproj; set_solver))).
    unfold modp at 1 2, modify at 1 2, bind at 1 2 3. unfold svc at 1. kproj. rewrite Hka.
    unfold modp at 1, modify at 1, bind at 1. destruct (Z.eqb_spec pa 0); [done|].
    unfold modp at 1, modify at 1, bind at 1 2. unfold svc at 1. kproj. rewrite Hmk.
    unfold modp at 1, modify at 1, bind at 1. destruct (Z.eqb_spec pt 0); [done|].
    unfold modp, modify, gets, bind, ret. f_equal. kernel_eq. by rewrite (alter_insert_at _ _ _ _ Hp), ?alter_insert_same. }
  unfold userinit. rewrite (bind_Done _ _ _ _ _ Hall). rewrite bind_modify.
  set (q1 := fresh _ _ _ _ _).
  replace (set_initproc (Some 0%nat) _) with (at_slot s1 0 q1 [LProc 0] (total_benchmark_processes s0) e2)
    by (unfold at_slot, s1; kernel_eq).
  rewrite at_slot_getp by done. unfold bind at 1, svc at 1. change (env (at_slot s1 0 q1 [LProc 0] _ e2)) with e2. change (pagetable q1) with pt. rewrite Hfst.
  replace (set_env e3 _) with (at_slot s1 0 q1 [LProc 0] (total_benchmark_processes s0) e3) by (unfold at_slot; kernel_eq).
  rewrite !at_slot_modp. unfold bind at 1, svc at 1.
  match goal with |- context [env (at_slot ?a ?b ?c ?d ?f e3)] => change (env (at_slot a b c d f e3)) with e3 end. rewrite Hroot.
  match goal with |- context [set_env e4 (at_slot ?a ?b ?c ?d ?f e3)] => change (set_env e4 (at_slot a b c d f e3)) with (at_slot a b c d f e4) end.
  rewrite !at_slot_modp. rewrite (release_head _ []) by (done || apply not_elem_of_nil).
  eexists _, _. split; [reflexivity|]. split; [reflexivity|]. split; [|done]. by split.
Qed.
End Userinit.

(** ** The first process *)

Lemma initcode_bytes : Z.of_nat (length initcode) < PGSIZE /\ Forall (fun b => 0 <= b < 256) initcode.
Proof. split; [done|]. repeat (apply Forall_cons; split; [lia|]). apply Forall_nil_2. Qed.

Section FirstProcess.
Context (kend trampoline : Z) (Htr : page_aligned trampoline) (Htr0 : 0 <= trampoline < PHYSTOP).
Context {F : Type} `{!FileLayer F}.
#[local] Instance svcs : Services (kmem * F) := vm_services kend trampoline.

(** What [procinit] and [userinit] leave behind: process 0 and its memory. *)
Record first_ready (s : kernel (kmem * F)) (l : list Z) (q : proc) (root : Z) : Prop := {
  fr_slot : procs s !! 0%nat = Some q;
  fr_others j p : j <> 0%nat -> procs s !! j = Some p -> state p = UNUSED;
  fr_init : initproc s = Some 0%nat;
  fr_state : state q = RUNNABLE;
  fr_epc : tf q !! TF_epc = Some 0;
  fr_sp : tf q !! TF_sp = Some PGSIZE;
  fr_sz : sz q = PGSIZE;
  fr_cwd : cwd q = root;
  fr_ctx : ctx q = mkcontext fl_forkret (KSTACK 0 + PGSIZE) (replicate 12 0);
  fr_mem : kmem_inv kend (env s).1 l;
  fr_tables : pt_wf kend (pmem (env s).1) (pagetable q) l;
  fr_code : holds_initcode (user_byte (pmem (env s).1) (pagetable q))
}.

(** [userinit] over a table of initialised slots: memory in use is kept. *)
Lemma userinit_spec s1 ps m f l root f' :
  procs s1 = imap init_slot ps -> length ps = NPROC -> held s1 = [] -> env s1 = (m, f) -> kmem_inv kend m l -> (9 <= length l)%nat ->
  fl_root f = Done root f' ->
  exists s' l' q, userinit s1 = Done tt s' /\ first_ready s' l' q root /\ held s' = [] /\
    kept kend m l (env s').1 l' /\ (env s').2 = f'.
Proof.
  intros Hps1 Hlen Hh He Hinv Hl Hroot.
  assert (Hp : procs s1 !! 0%nat = init_slot 0 <$> (ps !! 0%nat)) by (by rewrite Hps1, list_lookup_imap).
  destruct (lookup_lt_is_Some_2 ps 0) as [p0 Hp0]; [rewrite Hlen; unfold NPROC; lia|]. rewrite Hp0 in Hp.
  destruct l as [|pa l]; [cbn in Hl; lia|]. cbn [length] in Hl.
  destruct (kalloc_pop kend m pa l Hinv) as (m1 & Hk & Hinv1 & _).
  pose proof (kept_kalloc kend m pa l m1 Hinv Hk) as Hkept1.
  assert (Hpa : managed kend pa) by (eapply free_pages_managed; [apply Hinv|by left]).
  assert (Hpal : pa ∉ l) by (destruct Hinv as (_ & _ & Hnd); apply NoDup_cons in Hnd; apply Hnd).
  destruct (proc_pagetable_spec kend trampoline Htr Htr0 pa m1 l Hinv1 ltac:(lia) Hpa Hpal) as (pt & m2 & l2 & Hmk & Hpt & Hm2 & Has2 & Hl2 & Htk2).
  destruct initcode_bytes as [Hc1 Hc2].
  destruct (uvmfirst_spec kend m1 l pt m2 l2 _ initcode [pa] Hm2 Htk2 Has2 ltac:(lia) Hc1 Hc2) as (m3 & l3 & pg & Hf & Hm3 & _ & _ & Htk3 & Hb).
  { intros v Hv. unfold bare_map. assert (HM : MAXVA = 2 ^ 38) by done. rewrite !over_out by (left; unfold TRAPFRAME, TRAMPOLINE; lia_pages). done. }
  destruct (userinit_Done s1 (init_slot 0 p0) pa (m1, f) pt (m2, f) (m3, f) root (m3, f')) as (q & s' & Hrun & Hps & Hq & Hh' & Hini & Henv);
    try done.
  - by rewrite Hps1, length_imap.
  - rewrite He. cbn [kalloc_page svcs vm_services]. unfold onmem. cbn [fst snd]. by rewrite Hk.
  - destruct Hpa as (_ & ? & _). lia.
  - cbn [make_pagetable svcs vm_services]. unfold onmem. cbn [fst snd]. by rewrite Hmk.
  - cbn [uvm_first svcs vm_services]. unfold onmem. cbn [fst snd]. by rewrite Hf.
  - cbn [root_inode svcs vm_services]. unfold onfiles. cbn [fst snd]. by rewrite Hroot.
  - exists s', l3, q. split; [exact Hrun|]. destruct Hq as [Q1 Q2 Q3 Q4 Q5 Q6 Q7 Q8 Q9].
    destruct Hm3 as [Hi3 Hw3 _]. split; [|split; [done|rewrite Henv; split; [|done]]].
    2: { eapply kept_trans; [exact Hkept1|apply Htk3]. }
    split; try done; rewrite ?Henv, ?Q3; try done.
    + rewrite Hps. apply list_lookup_insert_eq. rewrite Hps1, length_imap, Hlen. unfold NPROC. lia.
    + intros j p Hj Hpj. rewrite Hps, list_lookup_insert_ne, Hps1, list_lookup_imap in Hpj by done.
      destruct (ps !! j); [|done]. injection Hpj as <-. done.
Qed.

(** C13: the first process.  On a zeroed process table and physical memory with
    nine free pages, [procinit] and [userinit] never panic: slot 0 becomes the
    only process, runnable, starting at address 0 with its stack pointer at the end of its single
    page, and that page holds [initcode] followed by zeros.  Run on the bytes
    its page table shows, its first system call is [exec] of ["/init"] with the
    argument vector of that one string, and after every return from a system
    call its next one is [exit]. *)
Theorem first_process_runs_init (s0 : kernel (kmem * F)) (m : kmem) (f : F) (l : list Z) (root : Z) (f' : F) :
  length (procs s0) = NPROC -> held s0 = [] -> env s0 = (m, f) -> kmem_inv kend m l -> (9 <= length l)%nat ->
  fl_root f = Done root f' ->
  exists s' q, boot_procs s0 = Done tt s' /\ procs s' !! 0%nat = Some q /\ state q = RUNNABLE /\ initproc s' = Some 0%nat /\
    tf q !! TF_epc = Some 0 /\ tf q !! TF_sp = Some (sz q) /\ sz q = PGSIZE /\ cwd q = root /\
    (forall j p, j <> 0%nat -> procs s' !! j = Some p -> state p = UNUSED) /\
    let u := user_byte (pmem (env s').1) (pagetable q) in
    holds_initcode u /\
    forall x, exists c1, to_ecall 8 u (mkcpu 0 x) = Some c1 /\ lookup_syscall (call_number c1) = Some Sys_exec /\
      str_at u (reg c1 a0) (Z.to_nat MAXPATH) = Some (bytes_of_string "/init" ++ [0]) /\
      option_map le_value (bytes_at u (reg c1 a1) 8) = Some (reg c1 a0) /\
      option_map le_value (bytes_at u (reg c1 a1 + 8) 8) = Some 0 /\
      forall vs, vs <> [] -> exists c2, calls u vs c1 = Some c2 /\ lookup_syscall (call_number c2) = Some Sys_exit.
Proof.
  intros H1 H2 H3 H4 H5 H6. rewrite boot_eq by done.
  destruct (userinit_spec (set_procs (imap init_slot (procs s0)) s0) (procs s0) m f l root f' eq_refl H1 H2 H3 H4 H5 H6) as (s' & l' & q & Hrun & Hr & _).
  pose proof Hr as [R1 R2 R3 R4 R5 R6 R7 R8 R9 R10 R11 R12].
  exists s', q. rewrite R7. do 9 (split; [done|]). cbv zeta. split; [done|]. intros x. by apply initcode_execs.
Qed.
End FirstProcess.

(** ** An instance *)

(** Files that are only opened: the root directory is inode number 1. *)
#[export] Instance root_only : FileLayer unit := {|
  fl_dup := fun f u => Done f u;
  fl_close := fun _ u => Done ([], []) u;
  fl_idup := fun ip u => Done ip u;
  fl_iput := fun _ u => Done [] u;
  fl_root := fun u => Done 1 u;
  fl_uninit := 0;
  fl_forkret := 0x80001000
|}.

Definition init_kernel (m : kmem) : kernel (kmem * unit) := kernel0 (m, tt).

Lemma first_process_runs_init_witness :
  exists m s' q, @boot_procs _ (vm_services (PHYSTOP - 10 * PGSIZE) (KERNBASE + 0x7000)) (init_kernel m) = Done tt s' /\
    procs s' !! 0%nat = Some q /\ state q = RUNNABLE /\ holds_initcode (user_byte (pmem (env s').1) (pagetable q)).
Proof.
  destruct (kinit_frees_all_pages (PHYSTOP - 10 * PGSIZE) (fun _ => 0)) as (m & _ & Hinv & _).
  - intros a. lia.
  - lia_pages.
  - set (l := reverse _) in Hinv. destruct (first_process_runs_init (PHYSTOP - 10 * PGSIZE) (KERNBASE + 0x7000) eq_refl ltac:(lia_pages)
      (init_kernel m) m tt l 1 tt) as (s' & q & H1 & H2 & H3 & _ & _ & _ & _ & _ & _ & H4 & _).
    + exact (length_replicate NPROC proc0).
    + reflexivity.
    + reflexivity.
    + exact Hinv.
    + vm_compute. lia.
    + reflexivity.
    + exists m, s', q. split; [exact H1|]. split; [exact H2|]. split; [exact H3|exact H4].
Defined.
