(* ===== verification/Hart.v ===== *)
(** * A hart: the registers of [kernel/riscv.h] and [kernel/start.c]

    One record field per control register the kernel uses; [r_x] and [w_x] are
    the one-instruction functions of [riscv.h], with the privilege each
    register demands (an access from a lower mode is an illegal instruction,
    which the kernel does not survive).  [sie] and [sstatus] are views of
    [mie] and [mstatus], and the delegation registers keep only the bits the
    hart can delegate; those masks are parameters.

    [start_enters_main]: [start] leaves machine mode for [main] in supervisor
    mode with interrupts delegated and enabled, the clock programmed and
    accessible, and physical memory open. *)

From S2P Require Import Prelude.

Inductive priv := PrivU | PrivS | PrivM.
#[export] Instance priv_eq_dec : EqDecision priv.
Proof. solve_decision. Defined.

Record hart := mkhart {
  mode : priv; hpc : Z;
  mhartid : Z; mstatus : Z; mepc : Z; medeleg : Z; mideleg : Z; mie : Z;
  pmpaddr0 : Z; pmpcfg0 : Z; menvcfg : Z; mcounteren : Z;
  stimecmp : Z; time : Z;
  satp : Z; stvec : Z; sepc : Z; scause : Z; stval : Z; sip : Z;
  tp : Z;
  stale : bool              (* the TLB may hold entries of an earlier page table *)
}.
Definition eta_hart (h : hart) : hart :=
  mkhart (mode h) (hpc h) (mhartid h) (mstatus h) (mepc h) (medeleg h) (mideleg h) (mie h)
    (pmpaddr0 h) (pmpcfg0 h) (menvcfg h) (mcounteren h) (stimecmp h) (time h)
    (satp h) (stvec h) (sepc h) (scause h) (stval h) (sip h) (tp h) (stale h).
Definition set_mode : priv -> hart -> hart := ltac:(mk_setter eta_hart mode).
Definition set_hpc : Z -> hart -> hart := ltac:(mk_setter eta_hart hpc).
Definition set_mstatus : Z -> hart -> hart := ltac:(mk_setter eta_hart mstatus).
Definition set_mepc : Z -> hart -> hart := ltac:(mk_setter eta_hart mepc).
Definition set_medeleg : Z -> hart -> hart := ltac:(mk_setter eta_hart medeleg).
Definition set_mideleg : Z -> hart -> hart := ltac:(mk_setter eta_hart mideleg).
Definition set_mie : Z -> hart -> hart := ltac:(mk_setter eta_hart mie).
Definition set_pmpaddr0 : Z -> hart -> hart := ltac:(mk_setter eta_hart pmpaddr0).
Definition set_pmpcfg0 : Z -> hart -> hart := ltac:(mk_setter eta_hart pmpcfg0).
Definition set_menvcfg : Z -> hart -> hart := ltac:(mk_setter eta_hart menvcfg).
Definition set_mcounteren : Z -> hart -> hart := ltac:(mk_setter eta_hart mcounteren).
Definition set_stimecmp : Z -> hart -> hart := ltac:(mk_setter eta_hart stimecmp).
Definition set_satp : Z -> hart -> hart := ltac:(mk_setter eta_hart satp).
Definition set_stvec : Z -> hart -> hart := ltac:(mk_setter eta_hart stvec).
Definition set_sepc : Z -> hart -> hart := ltac:(mk_setter eta_hart sepc).
Definition set_tp : Z -> hart -> hart := ltac:(mk_setter eta_hart tp).
Definition set_stale : bool -> hart -> hart := ltac:(mk_setter eta_hart stale).

(** ** Bits *)

Definition MSTATUS_MPP_MASK : Z := Z.shiftl 3 11.
Definition MSTATUS_MPP_S : Z := Z.shiftl 1 11.
Definition SSTATUS_SIE : Z := Z.shiftl 1 1.
Definition SIE_SEIE : Z := Z.shiftl 1 9.
Definition SIE_STIE : Z := Z.shiftl 1 5.
Definition SIE_SSIE : Z := Z.shiftl 1 1.
Definition MIE_STIE : Z := Z.shiftl 1 5.

(** [x & ~m] on 64 bits. *)
Definition clear_bits (x m : Z) : Z := Z.ldiff x m.

Section Hart.
(** The bits the hart can delegate, and the bits of [mstatus] seen as [sstatus]. *)
Context (edeleg ideleg smask : Z).
Abbreviation H := (M hart).

(** ** Register access *)

Definition machine : H unit := fun h => if decide (mode h = PrivM) then Done tt h else Panic "kerneltrap".
Definition supervisor : H unit := fun h => if decide (mode h = PrivU) then Panic "kerneltrap" else Done tt h.

Definition r_mhartid : H Z := machine ;; gets mhartid.
Definition r_mstatus : H Z := machine ;; gets mstatus.
Definition w_mstatus (x : Z) : H unit := machine ;; modify (set_mstatus x).
Definition w_mepc (x : Z) : H unit := machine ;; modify (set_mepc x).
Definition r_medeleg : H Z := machine ;; gets medeleg.
Definition w_medeleg (x : Z) : H unit := machine ;; modify (set_medeleg (Z.land x edeleg)).
Definition r_mideleg : H Z := machine ;; gets mideleg.
Definition w_mideleg (x : Z) : H unit := machine ;; modify (set_mideleg (Z.land x ideleg)).
Definition r_mie : H Z := machine ;; gets mie.
Definition w_mie (x : Z) : H unit := machine ;; modify (set_mie x).
Definition w_pmpcfg0 (x : Z) : H unit := machine ;; modify (set_pmpcfg0 x).
Definition w_pmpaddr0 (x : Z) : H unit := machine ;; modify (set_pmpaddr0 x).
Definition r_menvcfg : H Z := machine ;; gets menvcfg.
Definition w_menvcfg (x : Z) : H unit := machine ;; modify (set_menvcfg x).
Definition r_mcounteren : H Z := machine ;; gets mcounteren.
Definition w_mcounteren (x : Z) : H unit := machine ;; modify (set_mcounteren x).

Definition r_sstatus : H Z := supervisor ;; gets (fun h => Z.land (mstatus h) smask).
Definition w_sstatus (x : Z) : H unit :=
  supervisor ;; modify (fun h => set_mstatus (Z.lor (Z.ldiff (mstatus h) smask) (Z.land x smask)) h).
Definition r_sie : H Z := supervisor ;; gets (fun h => Z.land (mie h) (mideleg h)).
Definition w_sie (x : Z) : H unit :=
  supervisor ;; modify (fun h => set_mie (Z.lor (Z.ldiff (mie h) (mideleg h)) (Z.land x (mideleg h))) h).
Definition r_sip : H Z := supervisor ;; gets sip.
Definition r_sepc : H Z := supervisor ;; gets sepc.
Definition w_sepc (x : Z) : H unit := supervisor ;; modify (set_sepc x).
Definition r_stvec : H Z := supervisor ;; gets stvec.
Definition w_stvec (x : Z) : H unit := supervisor ;; modify (set_stvec x).
Definition r_satp : H Z := supervisor ;; gets satp.
Definition w_satp (x : Z) : H unit := supervisor ;; modify (fun h => set_stale true (set_satp x h)).
Definition r_scause : H Z := supervisor ;; gets scause.
Definition r_stval : H Z := supervisor ;; gets stval.
Definition sfence_vma : H unit := supervisor ;; modify (set_stale false).

(** The counter and its comparison register are open to supervisor mode only
    when [mcounteren] and, for the latter, [menvcfg] say so. *)
Definition counter_open (h : hart) : bool := bool_decide (mode h = PrivM) || Z.testbit (mcounteren h) 1.
Definition clock_open (h : hart) : bool :=
  bool_decide (mode h = PrivM) || (Z.testbit (mcounteren h) 1 && Z.testbit (menvcfg h) 63).
Definition r_time : H Z := fun h => if counter_open h then Done (time h) h else Panic "kerneltrap".
Definition r_stimecmp : H Z := fun h => if clock_open h then Done (stimecmp h) h else Panic "kerneltrap".
Definition w_stimecmp (x : Z) : H unit := fun h =>
  if clock_open h then Done tt (set_stimecmp (u64 x) h) else Panic "kerneltrap".

Definition r_tp : H Z := gets tp.
Definition w_tp (x : Z) : H unit := modify (set_tp x).

(** [mret]: to the mode in [mstatus.MPP] at [mepc]; [MIE] gets [MPIE], which is
    set, and [MPP] becomes user mode. *)
Definition mpp (x : Z) : Z := Z.land (Z.shiftr x 11) 3.
Definition mret : H unit :=
  machine ;;
  modify (fun h =>
    let x := mstatus h in
    let x' := Z.lor (Z.ldiff x (Z.lor MSTATUS_MPP_MASK (Z.shiftl 1 3))) (Z.shiftl 1 7) in
    let x'' := if Z.testbit x 7 then Z.lor x' (Z.shiftl 1 3) else x' in
    let md := if mpp x =? 0 then PrivU else if mpp x =? 1 then PrivS else PrivM in
    set_hpc (mepc h) (set_mode md (set_mstatus x'' h))).

Definition intr_on : H unit := let! x := r_sstatus in w_sstatus (Z.lor x SSTATUS_SIE).
Definition intr_off : H unit := let! x := r_sstatus in w_sstatus (clear_bits x SSTATUS_SIE).
Definition intr_get : H bool := let! x := r_sstatus in ret (negb (Z.land x SSTATUS_SIE =? 0)).

(** ** [kernel/start.c] *)

Definition timerinit : H unit :=
  let! x := r_mie in w_mie (Z.lor x MIE_STIE) ;;
  let! x := r_menvcfg in w_menvcfg (Z.lor x (Z.shiftl 1 63)) ;;
  let! x := r_mcounteren in w_mcounteren (Z.lor x 2) ;;
  let! t := r_time in w_stimecmp (t + 1000000).

(** [main] is the link address of that function. *)
Definition start (main : Z) : H unit :=
  let! x := r_mstatus in
  let x := clear_bits x MSTATUS_MPP_MASK in
  let x := Z.lor x MSTATUS_MPP_S in
  w_mstatus x ;;
  w_mepc main ;;
  w_satp 0 ;;
  w_medeleg 0xffff ;;
  w_mideleg 0xffff ;;
  let! x := r_sie in w_sie (Z.lor (Z.lor (Z.lor x SIE_SEIE) SIE_STIE) SIE_SSIE) ;;
  w_pmpaddr0 0x3fffffffffffff ;;
  w_pmpcfg0 0xf ;;
  timerinit ;;
  let! id := r_mhartid in
  w_tp (u64 (s32 id)) ;;
  mret.

(** ** Small functions of the kernel that only touch registers *)

(** [cpuid] of [proc.c]. *)
Definition cpuid : H Z := let! x := r_tp in ret (s32 x).

(** [trapinithart] of [trap.c]; [kernelvec] is a link address. *)
Definition trapinithart (kernelvec : Z) : H unit := w_stvec kernelvec.

Definition SATP_SV39 : Z := Z.shiftl 8 60.
Definition MAKE_SATP (pt : Z) : Z := Z.lor SATP_SV39 (Z.shiftr pt 12).

(** [kvminithart] of [vm.c]. *)
Definition kvminithart (kernel_pagetable : Z) : H unit :=
  sfence_vma ;;
  w_satp (MAKE_SATP kernel_pagetable) ;;
  sfence_vma.

(** The clock part of [clockintr] of [trap.c]. *)
Definition next_tick : H unit := let! t := r_time in w_stimecmp (t + 1000000).

(** ** Theorems *)

(** An access from supervisor mode that entry 0 of the physical memory
    protection allows: readable, writable, executable, top-of-range. *)
Definition pmp_allows (h : hart) (a : Z) : bool :=
  Z.testbit (pmpcfg0 h) 0 && Z.testbit (pmpcfg0 h) 1 && Z.testbit (pmpcfg0 h) 2 &&
  (Z.land (Z.shiftr (pmpcfg0 h) 3) 3 =? 1) && (0 <=? a) && (a <? 4 * pmpaddr0 h).

Lemma mpp_start x : mpp (Z.lor (clear_bits x MSTATUS_MPP_MASK) MSTATUS_MPP_S) = 1.
Proof.
  unfold mpp, clear_bits. apply Z.bits_inj'. intros n Hn. rewrite Z.land_spec, Z.shiftr_spec, Z.lor_spec, Z.ldiff_spec by done.
  destruct (decide (n = 0)) as [->|H0]; [change (Z.testbit MSTATUS_MPP_S (0 + 11)) with true; by rewrite orb_true_r|].
  destruct (decide (n = 1)) as [->|H1].
  { change (Z.testbit MSTATUS_MPP_MASK (1 + 11)) with true. change (Z.testbit MSTATUS_MPP_S (1 + 11)) with false. by rewrite andb_false_r. }
  assert (Z.testbit 3 n = false) as -> by (apply Z.bits_above_log2; cbn; lia).
  rewrite andb_false_r. symmetry. apply Z.bits_above_log2; cbn; lia.
Qed.

Lemma machine_Done h : mode h = PrivM -> machine h = Done tt h.
Proof. intros Hm. unfold machine. by rewrite decide_True. Qed.
Lemma supervisor_Done h : mode h <> PrivU -> supervisor h = Done tt h.
Proof. intros Hm. unfold supervisor. by rewrite decide_False. Qed.

Context (Hdeleg : forall i, i ∈ [1; 5; 9] -> Z.testbit ideleg i = true).

(** The bits of [sie] that [start] sets. *)
Lemma sie_bits x d i : i ∈ [1; 5; 9] -> Z.testbit d i = true ->
  Z.testbit (Z.lor (Z.ldiff x d) (Z.land (Z.lor (Z.lor (Z.lor (Z.land x d) SIE_SEIE) SIE_STIE) SIE_SSIE) d)) i = true.
Proof.
  intros Hi Hd. rewrite Z.lor_spec, Z.land_spec, !Z.lor_spec, Hd, andb_true_r.
  repeat (apply elem_of_cons in Hi as [->|Hi]; [by rewrite ?orb_true_r|]). by apply not_elem_of_nil in Hi.
Qed.

(** Machine mode is left for good.  From any register contents, [start]
    executes without a fault and enters [main] in supervisor mode with paging
    off, [tp] holding the hart id, the three supervisor interrupts delegated
    and enabled, the first clock interrupt a million ticks away - and the clock
    open to supervisor mode, so that every later clock interrupt can set the
    next one - and physical memory below [2^56 - 4] open.  The interrupt enable
    bit is left as it was. *)
Theorem start_enters_main (main : Z) (h : hart) :
  mode h = PrivM -> 0 <= mhartid h < 2 ^ 31 ->
  exists h', start main h = Done tt h' /\ mode h' = PrivS /\ hpc h' = main /\ tp h' = mhartid h /\ satp h' = 0 /\
    (forall i, i ∈ [1; 5; 9] -> Z.testbit (mideleg h') i = true /\ Z.testbit (mie h') i = true) /\
    stimecmp h' = u64 (time h + 1000000) /\
    (forall t, mode t = PrivS -> menvcfg t = menvcfg h' -> mcounteren t = mcounteren h' ->
       next_tick t = Done tt (set_stimecmp (u64 (time t + 1000000)) t)) /\
    (forall a, 0 <= a < 2 ^ 56 - 4 -> pmp_allows h' a = true) /\
    Z.testbit (mstatus h') 1 = Z.testbit (mstatus h) 1.
Proof.
  destruct h as [md pc id ms ep ed idl ie pa pc0 env cnt cmp tm sa sv se sc st si tp0 stl]. intros Hm Hid. cbn in Hm, Hid. subst md.
  destruct (start main _) as [[] h'|msg] eqn:E;
    cbv -[Z.lor Z.land Z.ldiff Z.shiftl Z.testbit mpp clear_bits u64 s32 Z.add Z.eqb MSTATUS_MPP_MASK MSTATUS_MPP_S SIE_SEIE SIE_STIE SIE_SSIE] in E.
  2: discriminate E.
  rewrite mpp_start in E. cbn [Z.eqb Pos.eqb] in E. injection E as <-. eexists. split; [reflexivity|].
  cbn [mode hpc tp satp mideleg mie stimecmp menvcfg mcounteren mstatus time mhartid]. split_and!; try done.
  - rewrite s32_small, u64_small by lia. done.
  - intros i Hi. assert (Hd : Z.testbit (Z.land 65535 ideleg) i = true).
    { rewrite Z.land_spec, (Hdeleg i Hi), andb_true_r.
      repeat (apply elem_of_cons in Hi as [->|Hi]; [done|]). by apply not_elem_of_nil in Hi. }
    split; [done|]. rewrite Z.lor_spec. apply orb_true_iff. left. by apply sie_bits.
  - intros t Hs He Hc.
    assert (Ho : Z.testbit (mcounteren t) 1 = true /\ Z.testbit (menvcfg t) 63 = true)
      by (rewrite Hc, He, !Z.lor_spec; split; apply orb_true_r).
    destruct Ho as [O1 O2]. unfold next_tick, r_time, w_stimecmp, counter_open, clock_open, bind. rewrite O1, orb_true_r.
    by rewrite O1, O2, orb_true_r.
  - intros a Ha. unfold pmp_allows. cbn [pmpcfg0 pmpaddr0]. rewrite (proj2 (Z.leb_le 0 a)), (proj2 (Z.ltb_lt a _)) by lia. done.
  - unfold clear_bits. match goal with |- context [if ?b then _ else _] => destruct b end; rewrite ?Z.lor_spec, ?Z.ldiff_spec, ?Z.lor_spec, ?Z.ldiff_spec;
      cbn -[Z.testbit]; change (Z.testbit MSTATUS_MPP_MASK 1) with false; change (Z.testbit MSTATUS_MPP_S 1) with false;
      change (Z.testbit (Z.shiftl 1 3) 1) with false; change (Z.testbit (Z.shiftl 1 7) 1) with false;
      by rewrite ?orb_false_r, ?andb_true_r.
Qed.
End Hart.

(** A hart as it leaves reset, with the delegation masks of the emulated
    machine. *)
Definition reset_hart (id : Z) : hart :=
  mkhart PrivM 0x80000000 id 0 0 0 0 0 0 0 0 0 0 0 0 0 0 0 0 0 0 true.

Lemma start_enters_main_witness : exists h', start 0xffff 0x222 0x80000a00 (reset_hart 3) = Done tt h' /\ hpc h' = 0x80000a00 /\ tp h' = 3.
Proof.
  destruct (start_enters_main 0xffff 0x222) with (main := 0x80000a00) (h := reset_hart 3) as (h' & E & _ & Hpc & Htp & _).
  - intros i Hi. repeat (apply elem_of_cons in Hi as [->|Hi]; [reflexivity|]). by apply not_elem_of_nil in Hi.
  - reflexivity.
  - cbn. lia.
  - exists h'. split; [exact E|]. split; [exact Hpc|exact Htp].
Defined.
