(* ===== verification/Ring.v ===== *)
(** * Ring buffers indexed by wrapping counters

    The kernel's rings (pipes, console input, UART output) store byte [k] of a
    stream at index [k % N] and keep the counters in machine words of [W]
    values that wrap around; [N] divides [W].  [rlen] is the number of elements
    between two counters and [rqueue] those elements in order.  The operations
    on the ring are the list operations below. *)

From S2P Require Import Prelude.

Section Ring.
Context (N W : Z) (HN : 0 < N) (HNW : N < W) (Hdiv : (N | W)).

Definition rlen (r w : Z) : Z := (w - r) mod W.
Definition rqueue (buf : list Z) (r w : Z) : list Z :=
  (fun i => nth (Z.to_nat ((r + Z.of_nat i) mod N)) buf 0) <$> seq 0 (Z.to_nat (rlen r w)).

Lemma rlen_range r w : 0 <= rlen r w < W.
Proof. apply Z.mod_pos_bound. lia. Qed.

Lemma mod_W_N z : (z mod W) mod N = z mod N.
Proof.
  destruct Hdiv as [k Hk]. rewrite (Z.div_mod z W) at 2 by lia.
  replace (W * (z / W) + z mod W) with (z mod W + (z / W * k) * N) by (rewrite Hk; ring).
  by rewrite Z.mod_add by lia.
Qed.

Lemma mod_W_N_add z i : (z mod W + i) mod N = (z + i) mod N.
Proof. by rewrite Z.add_mod, mod_W_N, <- Z.add_mod by lia. Qed.

Lemma mod_range z : (Z.to_nat (z mod N) < Z.to_nat N)%nat.
Proof. pose proof (Z.mod_pos_bound z N). lia. Qed.

(** The writer's counter in terms of the reader's. *)
Lemma rlen_sum r w : (r + rlen r w) mod W = w mod W.
Proof.
  unfold rlen. rewrite Zplus_mod_idemp_r. f_equal. lia.
Qed.

Lemma w_index r w i : (w + i) mod N = (r + rlen r w + i) mod N.
Proof. by rewrite <- (mod_W_N_add w), <- (rlen_sum r w), mod_W_N_add. Qed.

Lemma rlen_add r w k : rlen r w + k < W -> 0 <= rlen r w + k -> rlen r ((w + k) mod W) = rlen r w + k.
Proof.
  intros H1 H2. unfold rlen. rewrite Zminus_mod_idemp_l.
  replace (w + k - r) with (w - r + k) by lia. rewrite <- Zplus_mod_idemp_l.
  fold (rlen r w). by apply Z.mod_small.
Qed.

Lemma rlen_adv r w k : 0 <= k <= rlen r w -> rlen ((r + k) mod W) w = rlen r w - k.
Proof.
  intros Hk. unfold rlen at 1. rewrite Zminus_mod_idemp_r.
  replace (w - (r + k)) with (w - r - k) by lia. rewrite <- Zminus_mod_idemp_l. fold (rlen r w).
  apply Z.mod_small. pose proof (rlen_range r w). lia.
Qed.

Lemma length_rqueue buf r w : length (rqueue buf r w) = Z.to_nat (rlen r w).
Proof. unfold rqueue. by rewrite length_fmap, length_seq. Qed.

Lemma lookup_rqueue buf r w i : (i < Z.to_nat (rlen r w))%nat ->
  rqueue buf r w !! i = Some (nth (Z.to_nat ((r + Z.of_nat i) mod N)) buf 0).
Proof. intros Hi. unfold rqueue. by rewrite list_lookup_fmap, lookup_seq_Some. Qed.

(** Equality of two queues by position. *)
Lemma rqueue_eq buf r w l :
  length l = Z.to_nat (rlen r w) ->
  (forall i, (i < Z.to_nat (rlen r w))%nat -> l !! i = Some (nth (Z.to_nat ((r + Z.of_nat i) mod N)) buf 0)) ->
  rqueue buf r w = l.
Proof.
  intros Hl H. apply list_eq_same_length with (n := Z.to_nat (rlen r w)); [done|apply length_rqueue|].
  intros i x y Hi Hx Hy. rewrite lookup_rqueue in Hx by done. rewrite H in Hy by done. congruence.
Qed.

Lemma index_inj r i j : 0 <= i < N -> 0 <= j < N -> (r + i) mod N = (r + j) mod N -> i = j.
Proof.
  intros Hi Hj H. pose proof (Z.div_mod (r + i) N). pose proof (Z.div_mod (r + j) N).
  assert (Hd : i - j = N * ((r + i) / N - (r + j) / N)) by lia.
  destruct (Z.eq_dec ((r + i) / N) ((r + j) / N)); nia.
Qed.

(** A store outside the elements does not change them. *)
Lemma rqueue_insert buf r w k x :
  rlen r w <= k < N -> rqueue (<[Z.to_nat ((r + k) mod N) := x]> buf) r w = rqueue buf r w.
Proof.
  intros Hk. symmetry. apply rqueue_eq; [by rewrite length_rqueue|]. intros i Hi. rewrite lookup_rqueue by done.
  f_equal. apply nth_lookup_ne. intros Hc.
  pose proof (Z.mod_pos_bound (r + Z.of_nat i) N). pose proof (Z.mod_pos_bound (r + k) N).
  apply Z2Nat.inj in Hc; [|lia..]. apply index_inj in Hc; lia.
Qed.

(** Writing at the end of a ring that is not full. *)
Lemma rqueue_put buf r w x :
  length buf = Z.to_nat N -> rlen r w < N ->
  rqueue (<[Z.to_nat (w mod N) := x]> buf) r ((w + 1) mod W) = rqueue buf r w ++ [x].
Proof.
  intros Hb Hl. pose proof (rlen_range r w).
  assert (Hlen : rlen r ((w + 1) mod W) = rlen r w + 1) by (apply rlen_add; lia).
  assert (Hw : w mod N = (r + rlen r w) mod N) by (pose proof (w_index r w 0) as H0; by rewrite !Z.add_0_r in H0).
  rewrite Hw. apply rqueue_eq.
  { rewrite length_app, length_rqueue, Hlen. cbn. lia. }
  intros i Hi. rewrite Hlen in Hi. destruct (decide (i < Z.to_nat (rlen r w))%nat) as [Hlt|Hge].
  - rewrite lookup_app_l by (rewrite length_rqueue; done).
    rewrite <- (rqueue_insert buf r w (rlen r w) x) by lia. by rewrite lookup_rqueue.
  - rewrite lookup_app_r by (rewrite length_rqueue; lia). rewrite length_rqueue.
    replace (i - Z.to_nat (rlen r w))%nat with 0%nat by lia. cbn. f_equal.
    replace (Z.of_nat i) with (rlen r w) by lia. symmetry. apply nth_lookup_eq. rewrite Hb. apply mod_range.
Qed.

(** Reading at the front. *)
Lemma rqueue_skip buf r w :
  0 < rlen r w ->
  rqueue buf r w = nth (Z.to_nat (r mod N)) buf 0 :: rqueue buf ((r + 1) mod W) w.
Proof.
  intros Hl. assert (Hlen : rlen ((r + 1) mod W) w = rlen r w - 1) by (apply rlen_adv; lia).
  apply rqueue_eq; [cbn; rewrite length_rqueue, Hlen; lia|].
  intros [|i] Hi; cbn [lookup list_lookup]; [by rewrite Z.add_0_r|].
  change (rqueue buf ((r + 1) mod W) w !! i = Some (nth (Z.to_nat ((r + Z.of_nat (S i)) mod N)) buf 0)).
  rewrite lookup_rqueue by lia. rewrite mod_W_N_add. do 4 f_equal. lia.
Qed.

(** Dropping the last element. *)
Lemma rqueue_unput buf r w :
  0 < rlen r w ->
  rqueue buf r w = rqueue buf r ((w - 1) mod W) ++ [nth (Z.to_nat ((w - 1) mod N)) buf 0].
Proof.
  intros Hl. pose proof (rlen_range r w).
  assert (Hlen : rlen r ((w - 1) mod W) = rlen r w - 1) by (apply (rlen_add r w (-1)); lia).
  apply rqueue_eq; [rewrite length_app, length_rqueue, Hlen; cbn; lia|].
  intros i Hi. destruct (decide (i < Z.to_nat (rlen r w - 1))%nat) as [Hlt|Hge].
  - rewrite lookup_app_l by (rewrite length_rqueue, Hlen; done). by rewrite lookup_rqueue by (rewrite Hlen; done).
  - rewrite lookup_app_r by (rewrite length_rqueue, Hlen; lia). rewrite length_rqueue, Hlen.
    replace (i - Z.to_nat (rlen r w - 1))%nat with 0%nat by lia. cbn. do 3 f_equal.
    replace (w - 1) with (w + -1) by lia. rewrite (w_index r w). f_equal. lia.
Qed.

Lemma rlen_split r w e : rlen r w + rlen w e < W -> rlen r e = rlen r w + rlen w e.
Proof.
  intros H. pose proof (rlen_range r w). pose proof (rlen_range w e).
  unfold rlen at 1. replace (e - r) with ((w - r) + (e - w)) by lia. rewrite Z.add_mod by lia.
  fold (rlen r w) (rlen w e). by rewrite Z.mod_small by lia.
Qed.

(** A queue cut at a counter in the middle. *)
Lemma rqueue_split buf r w e : rlen r w + rlen w e < W ->
  rqueue buf r e = rqueue buf r w ++ rqueue buf w e.
Proof.
  intros H. pose proof (rlen_split r w e H) as Hs. pose proof (rlen_range r w). pose proof (rlen_range w e).
  apply rqueue_eq; [rewrite length_app, !length_rqueue; lia|].
  intros i Hi. destruct (decide (i < Z.to_nat (rlen r w))%nat).
  - rewrite lookup_app_l by (rewrite length_rqueue; done). by apply lookup_rqueue.
  - rewrite lookup_app_r by (rewrite length_rqueue; lia). rewrite length_rqueue, lookup_rqueue by lia.
    do 3 f_equal. rewrite (w_index r w). f_equal. lia.
Qed.

(** Counters in range: the tests the code makes. *)
Lemma empty_test r w : 0 <= r < W -> 0 <= w < W -> (r =? w) = (rlen r w =? 0).
Proof.
  intros Hr Hw. destruct (Z.eqb_spec r w) as [Heq|Hne], (Z.eqb_spec (rlen r w) 0) as [He|He].
  - done.
  - destruct He. unfold rlen. rewrite Heq, Z.sub_diag. apply Z.mod_0_l. lia.
  - exfalso. pose proof (rlen_sum r w) as Hs. rewrite He, Z.add_0_r, !Z.mod_small in Hs by done. done.
  - done.
Qed.

Lemma empty_test_wr r w : 0 <= r < W -> 0 <= w < W -> (w =? r) = (rlen r w =? 0).
Proof. intros. rewrite Z.eqb_sym. by apply empty_test. Qed.

Lemma full_test r w : 0 <= w < W -> (w =? (r + N) mod W) = (rlen r w =? N).
Proof.
  intros Hw. destruct (Z.eqb_spec (rlen r w) N) as [He|He]; [apply Z.eqb_eq|apply Z.eqb_neq].
  - by rewrite <- He, rlen_sum, Z.mod_small by done.
  - intros Hc. apply He. unfold rlen. rewrite Hc, Zminus_mod_idemp_l.
    replace (r + N - r) with N by lia. apply Z.mod_small. lia.
Qed.

Lemma rqueue_nil buf r w : rqueue buf r w = [] <-> rlen r w = 0.
Proof.
  rewrite <- length_zero_iff_nil, length_rqueue. pose proof (rlen_range r w). lia.
Qed.

End Ring.
