(* ===== verification/Virtio.v ===== *)
(** * The disk driver: [kernel/virtio_disk.c], [kernel/virtio.h]

    The driver shares memory with the disk: descriptors, a ring of requests
    ([avail]) and a ring of completions ([used]).  [vdisk] holds all of it,
    with the driver's own [struct disk], the buffers and the disk itself.
    Addresses given to the disk are names of what they point to ([ptr]).

    [vdisk_lock] is held by every routine except where it sleeps, so
    [virtio_disk_rw] is two atomic parts: [rw_start] up to the sleep that waits
    for the completion (or the one that waits for descriptors) and [rw_finish]
    after it.  [virtio_disk_init] panics or leaves the state [vdisk0].

    The disk is not part of the sources.  What it does with a request is the
    argument [transfer]; how it takes requests and posts completions is what
    [virtio_disk.c] relies on: it takes the entries of [avail] in order
    ([dev_fetch]), and may complete the requests it took in any order
    ([dev_complete]), writing the status and an entry of [used]. *)

From S2P Require Import Prelude Block Ring.

Definition NUM : nat := 8.
Definition VRING_DESC_F_NEXT : Z := 1.
Definition VRING_DESC_F_WRITE : Z := 2.
Definition VIRTIO_BLK_T_IN : Z := 0.
Definition VIRTIO_BLK_T_OUT : Z := 1.

(** ** Registers and initialisation *)

Definition VIRTIO_MMIO_MAGIC_VALUE : Z := 0x000.
Definition VIRTIO_MMIO_VERSION : Z := 0x004.
Definition VIRTIO_MMIO_DEVICE_ID : Z := 0x008.
Definition VIRTIO_MMIO_VENDOR_ID : Z := 0x00c.
Definition VIRTIO_MMIO_DEVICE_FEATURES : Z := 0x010.
Definition VIRTIO_MMIO_DRIVER_FEATURES : Z := 0x020.
Definition VIRTIO_MMIO_QUEUE_SEL : Z := 0x030.
Definition VIRTIO_MMIO_QUEUE_NUM_MAX : Z := 0x034.
Definition VIRTIO_MMIO_QUEUE_NUM : Z := 0x038.
Definition VIRTIO_MMIO_QUEUE_READY : Z := 0x044.
Definition VIRTIO_MMIO_STATUS : Z := 0x070.
Definition VIRTIO_MMIO_QUEUE_DESC_LOW : Z := 0x080.
Definition VIRTIO_MMIO_QUEUE_DESC_HIGH : Z := 0x084.
Definition VIRTIO_MMIO_DRIVER_DESC_LOW : Z := 0x090.
Definition VIRTIO_MMIO_DRIVER_DESC_HIGH : Z := 0x094.
Definition VIRTIO_MMIO_DEVICE_DESC_LOW : Z := 0x0a0.
Definition VIRTIO_MMIO_DEVICE_DESC_HIGH : Z := 0x0a4.
Definition VIRTIO_CONFIG_S_ACKNOWLEDGE : Z := 1.
Definition VIRTIO_CONFIG_S_DRIVER : Z := 2.
Definition VIRTIO_CONFIG_S_DRIVER_OK : Z := 4.
Definition VIRTIO_CONFIG_S_FEATURES_OK : Z := 8.

(** The feature bits the driver turns off: RO, SCSI, CONFIG_WCE, MQ,
    ANY_LAYOUT, EVENT_IDX, INDIRECT_DESC. *)
Definition refused_features : list Z := [5; 7; 11; 12; 27; 29; 28].

(** [*R(r) = v], kept in order; a register holds 32 bits. *)
Definition write_reg (r v : Z) : M (list (Z * Z)) unit := modify (fun w => w ++ [(VIRTIO0 + r, u32 v)]).

(** [virtio_disk_init]: [reg] is what each register reads, [d], [a] and [u] are
    the pages [kalloc] returns; the state is the list of register writes.  The
    free map and rings it leaves are those of [vdisk0] below. *)
Definition virtio_disk_init (reg : Z -> Z) (d a u : Z) : M (list (Z * Z)) unit :=
  if negb (reg VIRTIO_MMIO_MAGIC_VALUE =? 0x74726976) || negb (reg VIRTIO_MMIO_VERSION =? 2) ||
     negb (reg VIRTIO_MMIO_DEVICE_ID =? 2) || negb (reg VIRTIO_MMIO_VENDOR_ID =? 0x554d4551)
  then panic "could not find virtio disk"
  else
    let status := 0 in
    write_reg VIRTIO_MMIO_STATUS status ;;
    let status := Z.lor status VIRTIO_CONFIG_S_ACKNOWLEDGE in
    write_reg VIRTIO_MMIO_STATUS status ;;
    let status := Z.lor status VIRTIO_CONFIG_S_DRIVER in
    write_reg VIRTIO_MMIO_STATUS status ;;
    let features := foldl (fun f k => Z.land f (Z.lnot (Z.shiftl 1 k))) (reg VIRTIO_MMIO_DEVICE_FEATURES) refused_features in
    write_reg VIRTIO_MMIO_DRIVER_FEATURES features ;;
    let status := Z.lor status VIRTIO_CONFIG_S_FEATURES_OK in
    write_reg VIRTIO_MMIO_STATUS status ;;
    let status := reg VIRTIO_MMIO_STATUS in
    if Z.land status VIRTIO_CONFIG_S_FEATURES_OK =? 0 then panic "virtio disk FEATURES_OK unset"
    else
      write_reg VIRTIO_MMIO_QUEUE_SEL 0 ;;
      if negb (reg VIRTIO_MMIO_QUEUE_READY =? 0) then panic "virtio disk should not be ready"
      else
        let max := reg VIRTIO_MMIO_QUEUE_NUM_MAX in
        if max =? 0 then panic "virtio disk has no queue 0"
        else if max <? Z.of_nat NUM then panic "virtio disk max queue too short"
        else if (d =? 0) || (a =? 0) || (u =? 0) then panic "virtio disk kalloc"
        else
          write_reg VIRTIO_MMIO_QUEUE_NUM (Z.of_nat NUM) ;;
          write_reg VIRTIO_MMIO_QUEUE_DESC_LOW d ;;
          write_reg VIRTIO_MMIO_QUEUE_DESC_HIGH (Z.shiftr d 32) ;;
          write_reg VIRTIO_MMIO_DRIVER_DESC_LOW a ;;
          write_reg VIRTIO_MMIO_DRIVER_DESC_HIGH (Z.shiftr a 32) ;;
          write_reg VIRTIO_MMIO_DEVICE_DESC_LOW u ;;
          write_reg VIRTIO_MMIO_DEVICE_DESC_HIGH (Z.shiftr u 32) ;;
          write_reg VIRTIO_MMIO_QUEUE_READY 1 ;;
          write_reg VIRTIO_MMIO_STATUS (Z.lor status VIRTIO_CONFIG_S_DRIVER_OK).

(** When it does not panic, the device has seen every status change in order, no refused
    feature is accepted, and the address of the descriptor table is given in full. *)
Lemma virtio_init_negotiates reg d a u ws : virtio_disk_init reg d a u [] = Done tt ws ->
  (snd <$> filter (fun w => w.1 = VIRTIO0 + VIRTIO_MMIO_STATUS) ws) = [0; 1; 3; 11; u32 (Z.lor (reg VIRTIO_MMIO_STATUS) 4)] /\
  (forall f k, (VIRTIO0 + VIRTIO_MMIO_DRIVER_FEATURES, f) ∈ ws -> k ∈ refused_features -> Z.testbit f k = false) /\
  (0 <= d < 2 ^ 64 -> exists lo hi, (VIRTIO0 + VIRTIO_MMIO_QUEUE_DESC_LOW, lo) ∈ ws /\ (VIRTIO0 + VIRTIO_MMIO_QUEUE_DESC_HIGH, hi) ∈ ws /\ lo + 2 ^ 32 * hi = d).
Proof.
  unfold virtio_disk_init. destruct (_ || _); [done|]. unfold write_reg, bind, modify, panic. cbv zeta. cbn [app].
  set (fs := foldl _ _ refused_features). destruct (_ =? 0); [done|]. destruct (negb _); [done|]. destruct (_ =? 0); [done|]. destruct (_ <? _); [done|]. destruct (_ || _); [done|].
  intros [= <-]. split; [reflexivity|]. split.
  - intros f k Hf Hk. assert (f = u32 fs) as ->.
    { repeat (apply elem_of_cons in Hf as [Hf|Hf]; [first [discriminate Hf|by injection Hf as ->]|]). by apply not_elem_of_nil in Hf. }
    unfold u32. assert (Hk0 : 0 <= k < 32) by (revert Hk; apply (Forall_forall (fun k => 0 <= k < 32) refused_features); repeat constructor; done).
    rewrite Z.mod_pow2_bits_low by lia. unfold fs, refused_features in *. cbn [foldl]. rewrite !Z.land_spec, !Z.lnot_spec, !Z.shiftl_spec by lia.
    repeat (apply elem_of_cons in Hk as [->|Hk]; [cbn; by rewrite ?andb_false_r|]). by apply not_elem_of_nil in Hk.
  - intros Hd. exists (u32 d), (u32 (Z.shiftr d 32)). split_and!; [repeat (first [by left|right])..|].
    rewrite Z.shiftr_div_pow2 by lia. unfold u32. rewrite (Z.mod_small (d / _)) by (split; [apply Z.div_pos; lia|apply Z.div_lt_upper_bound; lia]).
    pose proof (Z.div_mod d (2 ^ 32)). lia.
Qed.

(** ** Shared state *)

Inductive ptr := Null | Op (i : nat) | Data (b : nat) | Status (i : nat).

Record virtq_desc := mkdesc { d_addr : ptr; d_len : Z; d_flags : Z; d_next : Z }.
Record virtio_blk_req := mkop { op_type : Z; op_reserved : Z; op_sector : Z }.
Record vbuf := mkvbuf { v_disk : bool; v_blockno : Z; v_data : block }.

Section Driver.
Context {I : Type} (transfer : Z -> Z -> block -> I -> I * block).

Record vdisk := mkvdisk {
  desc : nat -> virtq_desc;
  avail_idx : Z; avail_ring : list Z;
  u_idx : Z; u_ring : list Z;              (* struct virtq_used *)
  free : nat -> bool;
  used_idx : Z;
  info_b : nat -> option nat; info_status : nat -> Z;
  ops : nat -> virtio_blk_req;
  vbufs : nat -> vbuf;
  image : I;
  dev_idx : Z; dev_pending : list Z        (* how far the disk has read [avail], and what it took *)
}.
Definition eta (s : vdisk) : vdisk :=
  mkvdisk (desc s) (avail_idx s) (avail_ring s) (u_idx s) (u_ring s) (free s) (used_idx s) (info_b s) (info_status s)
    (ops s) (vbufs s) (image s) (dev_idx s) (dev_pending s).
Definition set_desc : (nat -> virtq_desc) -> vdisk -> vdisk := ltac:(mk_setter eta desc).
Definition set_free : (nat -> bool) -> vdisk -> vdisk := ltac:(mk_setter eta free).
Definition set_info_b : (nat -> option nat) -> vdisk -> vdisk := ltac:(mk_setter eta info_b).
Definition set_info_status : (nat -> Z) -> vdisk -> vdisk := ltac:(mk_setter eta info_status).
Definition set_ops : (nat -> virtio_blk_req) -> vdisk -> vdisk := ltac:(mk_setter eta ops).
Definition set_vbufs : (nat -> vbuf) -> vdisk -> vdisk := ltac:(mk_setter eta vbufs).
Definition set_avail_idx : Z -> vdisk -> vdisk := ltac:(mk_setter eta avail_idx).
Definition set_avail_ring : list Z -> vdisk -> vdisk := ltac:(mk_setter eta avail_ring).
Definition set_u_idx : Z -> vdisk -> vdisk := ltac:(mk_setter eta u_idx).
Definition set_u_ring : list Z -> vdisk -> vdisk := ltac:(mk_setter eta u_ring).
Definition set_used_idx : Z -> vdisk -> vdisk := ltac:(mk_setter eta used_idx).
Definition set_image : I -> vdisk -> vdisk := ltac:(mk_setter eta image).
Definition set_dev_idx : Z -> vdisk -> vdisk := ltac:(mk_setter eta dev_idx).
Definition set_dev_pending : list Z -> vdisk -> vdisk := ltac:(mk_setter eta dev_pending).

Abbreviation V := (M vdisk).
Definition on_desc (i : nat) (f : virtq_desc -> virtq_desc) : V unit := modify (fun s => set_desc (upd (desc s) i (f (desc s i))) s).

(** ** Descriptors *)

(** [None]: no descriptor is free (-1). *)
Definition alloc_desc : V (option nat) := fun s =>
  match List.find (free s) (seq 0 NUM) with
  | Some i => Done (Some i) (set_free (upd (free s) i false) s)
  | None => Done None s
  end.

Definition desc0 : virtq_desc := mkdesc Null 0 0 0.

Definition free_desc (i : nat) : V unit := fun s =>
  if (NUM <=? i)%nat then Panic "free_desc 1"
  else if free s i then Panic "free_desc 2"
  else Done tt (set_free (upd (free s) i true) (set_desc (upd (desc s) i desc0) s)).

Fixpoint free_chain (fuel i : nat) : V unit :=
  match fuel with
  | O => panic "out of fuel"
  | S fuel' =>
      let! d := gets (fun s => desc s i) in
      free_desc i ;;
      if negb (Z.land (d_flags d) VRING_DESC_F_NEXT =? 0) then free_chain fuel' (Z.to_nat (d_next d)) else ret tt
  end.

(** The loop of [alloc3_desc] with the descriptors found so far. *)
Fixpoint alloc_more (n : nat) (idx : list nat) : V (option (list nat)) :=
  match n with
  | O => ret (Some idx)
  | S n' =>
      let! r := alloc_desc in
      match r with
      | Some i => alloc_more n' (idx ++ [i])
      | None => for_each free_desc idx ;; ret None
      end
  end.
Definition alloc3_desc : V (option (list nat)) := alloc_more 3 [].

(** ** Transfers *)

(** [virtio_disk_rw] up to its sleep: the descriptors used, or [None] when there were too few. *)
Definition rw_start (b : nat) (write : bool) : V (option (nat * nat * nat)) :=
  let! bf := gets (fun s => vbufs s b) in
  let sector := u32 (v_blockno bf * 2) in
  let! r := alloc3_desc in
  match r with
  | Some [i0; i1; i2] =>
      modify (fun s => set_ops (upd (ops s) i0 (mkop (if write then VIRTIO_BLK_T_OUT else VIRTIO_BLK_T_IN) 0 sector)) s) ;;
      on_desc i0 (fun _ => mkdesc (Op i0) 16 VRING_DESC_F_NEXT (Z.of_nat i1)) ;;
      on_desc i1 (fun _ => mkdesc (Data b) BSIZE (Z.lor (if write then 0 else VRING_DESC_F_WRITE) VRING_DESC_F_NEXT) (Z.of_nat i2)) ;;
      modify (fun s => set_info_status (upd (info_status s) i0 0xff) s) ;;
      on_desc i2 (fun _ => mkdesc (Status i0) 1 VRING_DESC_F_WRITE 0) ;;
      modify (fun s => set_vbufs (upd (vbufs s) b (mkvbuf true (v_blockno (vbufs s b)) (v_data (vbufs s b)))) s) ;;
      modify (fun s => set_info_b (upd (info_b s) i0 (Some b)) s) ;;
      modify (fun s => set_avail_ring (<[Z.to_nat (avail_idx s mod 8) := Z.of_nat i0]> (avail_ring s)) s) ;;
      modify (fun s => set_avail_idx (u16 (avail_idx s + 1)) s) ;;
      ret (Some (i0, i1, i2))
  | _ => ret None
  end.

(** The rest, once [b->disk] is 0. *)
Definition rw_finish (i0 : nat) : V unit :=
  modify (fun s => set_info_b (upd (info_b s) i0 None) s) ;;
  free_chain 3 i0.

Fixpoint intr_loop (fuel : nat) : V unit := fun s =>
  match fuel with
  | O => Panic "out of fuel"
  | S fuel' =>
      if used_idx s =? u_idx s then Done tt s
      else
        let id := Z.to_nat (nth (Z.to_nat (used_idx s mod 8)) (u_ring s) 0) in
        if negb (info_status s id =? 0) then Panic "virtio_disk_intr status"
        else
          match info_b s id with
          | None => Panic "kerneltrap"
          | Some b =>
              intr_loop fuel' (set_used_idx (u16 (used_idx s + 1))
                (set_vbufs (upd (vbufs s) b (mkvbuf false (v_blockno (vbufs s b)) (v_data (vbufs s b)))) s))
          end
  end.
Definition virtio_disk_intr : V unit := fun s => intr_loop (S (Z.to_nat ((u_idx s - used_idx s) mod 2 ^ 16))) s.

(** ** The disk *)

Definition dev_fetch (s : vdisk) : option vdisk :=
  if dev_idx s =? avail_idx s then None
  else Some (set_dev_pending (dev_pending s ++ [nth (Z.to_nat (dev_idx s mod 8)) (avail_ring s) 0]) (set_dev_idx (u16 (dev_idx s + 1)) s)).

(** The chain of the [k]-th request taken: header, data, status. *)
Definition dev_complete (k : nat) (s : vdisk) : option vdisk :=
  match dev_pending s !! k with
  | None => None
  | Some h =>
      let d0 := desc s (Z.to_nat h) in
      let d1 := desc s (Z.to_nat (d_next d0)) in
      let d2 := desc s (Z.to_nat (d_next d1)) in
      match d_addr d0, d_addr d1, d_addr d2 with
      | Op o, Data b, Status j =>
          let bf := vbufs s b in
          let '(img, dat) := transfer (op_type (ops s o)) (op_sector (ops s o)) (v_data bf) (image s) in
          let dat := if negb (Z.land (d_flags d1) VRING_DESC_F_WRITE =? 0) then dat else v_data bf in
          Some (set_dev_pending (delete k (dev_pending s)) (set_image img
            (set_vbufs (upd (vbufs s) b (mkvbuf (v_disk bf) (v_blockno bf) dat)) (set_info_status (upd (info_status s) j 0)
            (set_u_idx (u16 (u_idx s + 1)) (set_u_ring (<[Z.to_nat (u_idx s mod 8) := h]> (u_ring s)) s))))))
      | _, _, _ => None
      end
  end.

(** After [virtio_disk_init]: every descriptor free, empty rings. *)
Definition vdisk0 (bs : nat -> vbuf) (img : I) : vdisk :=
  mkvdisk (fun _ => desc0) 0 (replicate NUM 0) 0 (replicate NUM 0) (fun _ => true) 0 (fun _ => None) (fun _ => 0)
    (fun _ => mkop 0 0 0) bs img 0 [].
End Driver.
