(* ===== verification/VirtioInv.v ===== *)
(** * The disk driver transfers every block correctly

    A configuration is the shared state and the requests in flight, each with
    the value [r_val] it has to move: the data of the buffer for a write, the
    contents of the disk for a read, when it started.  The steps are those of
    the processes in [virtio_disk_rw], of the interrupt handler, of the disk,
    and of the holders of other buffers.  A process starts a request for a
    buffer and a block that no other request uses, as it holds the buffer's
    lock and a block has one buffer ([Bio.block_exclusive]).

    The theorem: in every reachable configuration no routine of the driver
    panics or loops, and a request whose buffer the interrupt handler has
    released has been carried out: buffer and disk hold its value. *)

From S2P Require Import Prelude Block Ring Virtio.

#[local] Abbreviation W16 := (2 ^ 16).
Lemma ring_divides : (8 | W16).
Proof. by exists 8192. Qed.

Section Inv.
Context {I : Type} (transfer : Z -> Z -> block -> I -> I * block) (content : I -> Z -> block).

(** Block [n] of the disk starts at sector [2 * n]. *)
Hypothesis transfer_in : forall s d img, transfer VIRTIO_BLK_T_IN s d img = (img, content img s).
Hypothesis transfer_out : forall n n' d img, content (transfer VIRTIO_BLK_T_OUT (2 * n) d img).1 (2 * n') = if n' =? n then d else content img (2 * n').

Implicit Types s : @vdisk I.

Record req := mkreq { r_buf : nat; r_write : bool; r_idx : nat * nat * nat; r_val : block }.
#[global] Instance req_eq_dec : EqDecision req.
Proof. solve_decision. Defined.
Definition r_head (r : req) : nat := r.(r_idx).1.1.
Definition chain (r : req) : list nat := [r.(r_idx).1.1; r.(r_idx).1.2; r.(r_idx).2].

Definition blk s (r : req) : Z := v_blockno (vbufs s (r_buf r)).
Definition buf_val s (r : req) : block := v_data (vbufs s (r_buf r)).
Definition disk_val s (r : req) : block := content (image s) (2 * blk s r).

Definition availq s : list Z := rqueue 8 W16 (avail_ring s) (dev_idx s) (avail_idx s).
Definition usedq s : list Z := rqueue 8 W16 (u_ring s) (used_idx s) (u_idx s).
(** The requests the interrupt handler has not seen completed. *)
Definition active s : list Z := availq s ++ dev_pending s ++ usedq s.

(** The descriptors, header and book-keeping of a request. *)
Record chain_desc (d : nat -> virtq_desc) (r : req) : Prop := {
  ch_d0 : d r.(r_idx).1.1 = mkdesc (Op (r_head r)) 16 VRING_DESC_F_NEXT (Z.of_nat r.(r_idx).1.2);
  ch_d1 : d r.(r_idx).1.2 = mkdesc (Data (r_buf r)) BSIZE (Z.lor (if r_write r then 0 else VRING_DESC_F_WRITE) VRING_DESC_F_NEXT) (Z.of_nat r.(r_idx).2);
  ch_d2 : d r.(r_idx).2 = mkdesc (Status (r_head r)) 1 VRING_DESC_F_WRITE 0
}.
Record chain_ok s (r : req) : Prop := {
  ch_desc : chain_desc (desc s) r;
  ch_op : ops s (r_head r) = mkop (if r_write r then VIRTIO_BLK_T_OUT else VIRTIO_BLK_T_IN) 0 (2 * blk s r);
  ch_info : info_b s (r_head r) = Some (r_buf r)
}.

(** The value of a request: still to be moved, or moved. *)
Definition value_ok s (r : req) : Prop :=
  let h := Z.of_nat (r_head r) in
  (h ∈ availq s ++ dev_pending s -> (if r_write r then buf_val s r else disk_val s r) = r_val r) /\
  (h ∈ usedq s -> info_status s (r_head r) = 0) /\
  (h ∈ usedq s \/ v_disk (vbufs s (r_buf r)) = false -> buf_val s r = r_val r /\ disk_val s r = r_val r).

Record vinv s (reqs : list req) : Prop := {
  vi_nodup : NoDup (reqs ≫= chain);
  vi_free : forall i, (i < NUM)%nat -> free s i = false <-> i ∈ reqs ≫= chain;
  vi_lt : forall i, i ∈ reqs ≫= chain -> (i < NUM)%nat;
  vi_chain : forall r, r ∈ reqs -> chain_ok s r;
  vi_bufs : NoDup (r_buf <$> reqs);
  vi_blocks : NoDup (blk s <$> reqs);
  vi_active : NoDup (active s);
  vi_owned : forall h, h ∈ active s -> exists r, r ∈ reqs /\ h = Z.of_nat (r_head r);
  vi_disk : forall r, r ∈ reqs -> v_disk (vbufs s (r_buf r)) = true <-> Z.of_nat (r_head r) ∈ active s;
  vi_value : forall r, r ∈ reqs -> value_ok s r;
  vi_rings : length (avail_ring s) = 8%nat /\ length (u_ring s) = 8%nat;
  vi_idx : 0 <= dev_idx s < W16 /\ 0 <= avail_idx s < W16 /\ 0 <= used_idx s < W16 /\ 0 <= u_idx s < W16
}.

(** ** Requests are told apart by any descriptor *)

Lemma in_chains reqs r i : r ∈ reqs -> i ∈ chain r -> i ∈ reqs ≫= chain.
Proof. intros Hr Hi. apply list_elem_of_bind. eauto. Qed.

Lemma chains_disjoint : forall reqs r r' i, NoDup (reqs ≫= chain) -> r ∈ reqs -> r' ∈ reqs -> i ∈ chain r -> i ∈ chain r' -> r = r'.
Proof.
  induction reqs as [|x reqs IH]; intros r r' i Hnd Hr Hr' Hi Hi'; [set_solver|].
  rewrite bind_cons in Hnd. apply NoDup_app in Hnd as (_ & Hx & Hnd). apply elem_of_cons in Hr as [->|Hr], Hr' as [->|Hr']; [done| | |by eapply IH].
  - destruct (Hx i Hi). by eapply in_chains.
  - destruct (Hx i Hi'). by eapply in_chains.
Qed.

Lemma head_chain r : r_head r ∈ chain r.
Proof. by left. Qed.

Lemma head_inj s reqs r r' : vinv s reqs -> r ∈ reqs -> r' ∈ reqs -> r_head r = r_head r' -> r = r'.
Proof. intros Hi Hr Hr' He. apply (chains_disjoint reqs r r' (r_head r) (vi_nodup _ _ Hi)); [done|done|apply head_chain|rewrite He; apply head_chain]. Qed.

Lemma buf_inj s reqs r r' : vinv s reqs -> r ∈ reqs -> r' ∈ reqs -> r_buf r = r_buf r' -> r = r'.
Proof.
  intros Hi [i Hr]%list_elem_of_lookup [j Hr']%list_elem_of_lookup He.
  assert (i = j) as ->; [|congruence]. eapply (NoDup_lookup _ i j (r_buf r) (vi_bufs _ _ Hi)); rewrite list_lookup_fmap; [by rewrite Hr|by rewrite Hr', He].
Qed.
Lemma blk_inj s reqs r r' : vinv s reqs -> r ∈ reqs -> r' ∈ reqs -> blk s r = blk s r' -> r = r'.
Proof.
  intros Hi [i Hr]%list_elem_of_lookup [j Hr']%list_elem_of_lookup He.
  assert (i = j) as ->; [|congruence]. eapply (NoDup_lookup _ i j (blk s r) (vi_blocks _ _ Hi)); rewrite list_lookup_fmap; [by rewrite Hr|by rewrite Hr', He].
Qed.

(** The rings never hold all their entries' worth of requests. *)
Lemma heads_bound (l : list Z) : NoDup l -> (forall h, h ∈ l -> 0 <= h < 8) -> (length l <= 8)%nat.
Proof.
  intros Hnd Hl. assert (Hsub : l ⊆+ (Z.of_nat <$> seq 0 8)).
  { apply NoDup_submseteq; [done|]. intros h Hh. specialize (Hl h Hh). apply list_elem_of_fmap. exists (Z.to_nat h). rewrite elem_of_seq. lia. }
  apply submseteq_length in Hsub. by rewrite length_fmap, length_seq in Hsub.
Qed.
Lemma active_range s reqs h : vinv s reqs -> h ∈ active s -> 0 <= h < 8.
Proof.
  intros Hi Hh. destruct (vi_owned _ _ Hi h Hh) as (r & Hr & ->). pose proof (vi_lt _ _ Hi (r_head r)) as Hlt. unfold NUM in Hlt.
  specialize (Hlt ltac:(eapply in_chains; [done|apply head_chain])). lia.
Qed.

Lemma availq_len s : length (availq s) = Z.to_nat (rlen W16 (dev_idx s) (avail_idx s)).
Proof. apply length_rqueue. Qed.
Lemma usedq_len s : length (usedq s) = Z.to_nat (rlen W16 (used_idx s) (u_idx s)).
Proof. apply length_rqueue. Qed.

(** ** The disk takes a request *)

Lemma fetch_inv s reqs s' : vinv s reqs -> dev_fetch s = Some s' -> vinv s' reqs.
Proof.
  intros Hi Hf. unfold dev_fetch in Hf. pose proof (vi_idx _ _ Hi) as (Hd & Ha & Hu & Hx). rewrite (empty_test 8 W16) in Hf by lia.
  destruct (Z.eqb_spec (rlen W16 (dev_idx s) (avail_idx s)) 0) as [|Hne]; [done|]. apply Some_inj in Hf. subst s'.
  pose proof (rlen_range 8 W16 ltac:(lia) ltac:(lia) (dev_idx s) (avail_idx s)) as Hr.
  pose proof (rqueue_skip 8 W16 ltac:(lia) ltac:(lia) ring_divides (avail_ring s) (dev_idx s) (avail_idx s) ltac:(lia)) as Hq.
  set (h := nth (Z.to_nat (dev_idx s mod 8)) (avail_ring s) 0) in *.
  set (s' := set_dev_pending (dev_pending s ++ [h]) (set_dev_idx (u16 (dev_idx s + 1)) s)).
  fold (availq s) in Hq. change (rqueue 8 W16 (avail_ring s) ((dev_idx s + 1) mod W16) (avail_idx s)) with (availq s') in Hq.
  assert (Hp : availq s' ++ dev_pending s' ≡ₚ availq s ++ dev_pending s).
  { rewrite Hq. change (dev_pending s') with (dev_pending s ++ [h]). rewrite app_assoc. symmetry. apply Permutation_cons_append. }
  assert (Hact : active s' ≡ₚ active s).
  { unfold active. rewrite !app_assoc, Hp. done. }
  destruct Hi as [I1 I2 I3 I4 I5 I6 I7 I8 I9 I10 I11 I12]. split; try done.
  - intros r Hr'. destruct (I4 r Hr') as [C1 C2 C3]. by split.
  - by rewrite Hact.
  - intros x. rewrite Hact. apply I8.
  - intros r Hr'. rewrite Hact. by apply I9.
  - intros r Hr'. destruct (I10 r Hr') as (V1 & V2 & V3). split_and!; [|done|done]. rewrite Hp. done.
  - pose proof (Z.mod_pos_bound (dev_idx s + 1) W16 ltac:(lia)). cbn. unfold u16. lia.
Qed.

(** ** The disk completes a request *)

(** What the disk does with the request [r]: its value is on both sides afterwards. *)
Lemma transfer_moves s r : (if r_write r then buf_val s r else disk_val s r) = r_val r ->
  exists img dat,
    (let '(img, dat) := transfer (if r_write r then VIRTIO_BLK_T_OUT else VIRTIO_BLK_T_IN) (2 * blk s r) (v_data (vbufs s (r_buf r))) (image s) in
     (img, if negb (Z.land (Z.lor (if r_write r then 0 else VRING_DESC_F_WRITE) VRING_DESC_F_NEXT) VRING_DESC_F_WRITE =? 0) then dat
           else v_data (vbufs s (r_buf r)))) = (img, dat) /\
    dat = r_val r /\ content img (2 * blk s r) = r_val r /\ (forall n, n <> blk s r -> content img (2 * n) = content (image s) (2 * n)).
Proof.
  unfold buf_val. set (bf := vbufs s (r_buf r)). intros Hv. destruct (r_write r); cbn [Z.lor Z.land negb Z.eqb VRING_DESC_F_NEXT VRING_DESC_F_WRITE Pos.lor Pos.land].
  - destruct (transfer VIRTIO_BLK_T_OUT (2 * blk s r) (v_data bf) (image s)) as [img dat] eqn:Et. exists img, (v_data bf). split; [done|]. split; [done|].
    pose proof (transfer_out (blk s r)) as Ho. specialize (fun n' => Ho n' (v_data bf) (image s)). rewrite Et in Ho. cbn [fst] in Ho.
    split; [rewrite Ho, Z.eqb_refl; done|]. intros n Hn. rewrite Ho. apply Z.eqb_neq in Hn. by rewrite Hn.
  - rewrite transfer_in. eexists _, _. split; [reflexivity|]. split; [done|]. by split.
Qed.

(** The state after the [k]th request taken is done: [r] is that request. *)
Definition completed (s : vdisk) (k : nat) (r : req) (img : I) : vdisk :=
  set_dev_pending (delete k (dev_pending s)) (set_image img
    (set_vbufs (upd (vbufs s) (r_buf r) (mkvbuf (v_disk (vbufs s (r_buf r))) (v_blockno (vbufs s (r_buf r))) (r_val r)))
    (set_info_status (upd (info_status s) (r_head r) 0)
    (set_u_idx (u16 (u_idx s + 1)) (set_u_ring (<[Z.to_nat (u_idx s mod 8) := Z.of_nat (r_head r)]> (u_ring s)) s))))).

Lemma complete_eq s reqs k s' : vinv s reqs -> dev_complete transfer k s = Some s' ->
  exists r img, r ∈ reqs /\ dev_pending s ≡ₚ Z.of_nat (r_head r) :: delete k (dev_pending s) /\
    s' = completed s k r img /\ content img (2 * blk s r) = r_val r /\
    (forall n, n <> blk s r -> content img (2 * n) = content (image s) (2 * n)).
Proof.
  intros Hi Hc. unfold dev_complete in Hc. destruct (dev_pending s !! k) as [h|] eqn:Hk; [|done].
  assert (Hpend : dev_pending s ≡ₚ h :: delete k (dev_pending s)) by (by apply delete_Permutation).
  assert (Hin : h ∈ active s) by (unfold active; rewrite Hpend; set_solver).
  destruct (vi_owned _ _ Hi h Hin) as (r & Hr & ->). destruct (vi_chain _ _ Hi r Hr) as [[C1 C2 C3] C4 C5].
  rewrite Nat2Z.id in Hc. unfold r_head in C1, Hc. rewrite C1 in Hc. cbn [d_next d_addr] in Hc. rewrite Nat2Z.id, C2 in Hc. cbn [d_next d_addr d_flags] in Hc.
  rewrite Nat2Z.id, C3 in Hc. cbn [d_addr] in Hc. fold (r_head r) in Hc. rewrite C4 in Hc. cbn [op_type op_sector] in Hc.
  set (bf := vbufs s (r_buf r)) in *.
  destruct (vi_value _ _ Hi r Hr) as (V1 & _ & _). specialize (V1 ltac:(rewrite Hpend; set_solver)).
  destruct (transfer_moves s r V1) as (img & dat & Ht & Hdat & Himg & Hother). fold bf in Ht.
  destruct (transfer _ _ _ _) as [img0 dat0]. injection Ht as -> Hdat'. rewrite Hdat', Hdat in Hc. apply Some_inj in Hc.
  exists r, img. split; [done|]. split; [done|]. split; [symmetry; exact Hc|]. by split.
Qed.

Lemma complete_inv s reqs k s' : vinv s reqs -> dev_complete transfer k s = Some s' -> vinv s' reqs.
Proof.
  intros Hi Hc. destruct (complete_eq s reqs k s' Hi Hc) as (r & img & Hr & Hpend & Hs' & Himg & Hother).
  pose proof (vi_idx _ _ Hi) as (Hd & Ha & Hu & Hx). destruct (vi_rings _ _ Hi) as [Hl1 Hl2].
  (* the used ring *)
  assert (Hroom : rlen W16 (used_idx s) (u_idx s) < 8).
  { pose proof (heads_bound (active s) (vi_active _ _ Hi) (fun h => active_range s reqs h Hi)) as Hb. unfold active in Hb.
    rewrite !length_app, usedq_len in Hb. rewrite Hpend in Hb. cbn [length] in Hb. lia. }
  pose proof (rqueue_put 8 W16 ltac:(lia) ltac:(lia) ring_divides (u_ring s) (used_idx s) (u_idx s) (Z.of_nat (r_head r)) Hl2 Hroom) as Hq.
  assert (Hud : usedq s' = usedq s ++ [Z.of_nat (r_head r)]) by (subst s'; exact Hq).
  assert (Hpd : dev_pending s' = delete k (dev_pending s)) by (by subst s').
  assert (Hav : availq s' = availq s) by (by subst s').
  assert (Hact : active s' ≡ₚ active s).
  { unfold active. rewrite Hud, Hpd, Hav. rewrite Hpend at 2. rewrite <- (Permutation_cons_append (usedq s)), <- Permutation_middle. done. }
  assert (Hbuf : forall r', r' ∈ reqs -> r' <> r -> vbufs s' (r_buf r') = vbufs s (r_buf r')).
  { intros r' Hr' Hne. subst s'. cbn. apply upd_ne. intros He. apply Hne. by eapply buf_inj. }
  assert (Hbr : vbufs s' (r_buf r) = mkvbuf (v_disk (vbufs s (r_buf r))) (v_blockno (vbufs s (r_buf r))) (r_val r)) by (subst s'; cbn; apply upd_eq).
  assert (Hblk : forall r', r' ∈ reqs -> blk s' r' = blk s r').
  { intros r' Hr'. unfold blk. destruct (decide (r' = r)) as [->|Hne]; [by rewrite Hbr|by rewrite Hbuf]. }
  assert (Hdv : forall r', v_disk (vbufs s' (r_buf r')) = v_disk (vbufs s (r_buf r'))).
  { intros r'. destruct (decide (r_buf r' = r_buf r)) as [->|Hne]; [by rewrite Hbr|]. subst s'. cbn. by rewrite upd_ne. }
  assert (Hst : info_status s' (r_head r) = 0) by (subst s'; cbn; apply upd_eq).
  assert (Him : image s' = img) by (by subst s').
  assert (Hst' : forall r', r' ∈ reqs -> r' <> r -> info_status s' (r_head r') = info_status s (r_head r')).
  { intros r' Hr' Hne. subst s'. cbn. apply upd_ne. intros He. apply Hne. by eapply head_inj. }
  pose proof Hi as Hi0. destruct Hi as [I1 I2 I3 I4 I5 I6 I7 I8 I9 I10 I11 I12]. split.
  - done.
  - by subst s'.
  - done.
  - intros r' Hr'. destruct (I4 r' Hr') as [D1 D2 D3]. specialize (Hblk r' Hr'). clear - Hblk Hs' D1 D2 D3. subst s'. split; try done. by rewrite Hblk.
  - done.
  - replace (blk s' <$> reqs) with (blk s <$> reqs); [done|]. apply list_fmap_ext. intros i r' Hr'. symmetry. apply Hblk. by eapply list_elem_of_lookup_2.
  - by rewrite Hact.
  - intros x. rewrite Hact. apply I8.
  - intros r' Hr'. rewrite Hact, Hdv. by apply I9.
  - intros r' Hr'. destruct (decide (r' = r)) as [->|Hne].
    + unfold value_ok, buf_val, disk_val. rewrite Hblk, Him, Hbr by done. cbn [v_data v_disk]. split_and!; [|done|done].
      intros Hin'. exfalso. assert (Hnd : NoDup (active s')) by (by rewrite Hact). unfold active in Hnd. rewrite Hud, !app_assoc in Hnd.
      apply NoDup_app in Hnd as (_ & Hnd & _). apply (Hnd (Z.of_nat (r_head r))); [rewrite elem_of_app; by left|by left].
    + destruct (I10 r' Hr') as (W1 & W2 & W3). assert (Hhne : Z.of_nat (r_head r') <> Z.of_nat (r_head r)).
      { intros He. apply Hne. eapply head_inj; [done|done|done|lia]. }
      assert (Hbv : buf_val s' r' = buf_val s r') by (unfold buf_val; by rewrite Hbuf).
      assert (Hdk : disk_val s' r' = disk_val s r').
      { unfold disk_val. rewrite Hblk, Him by done. apply Hother. intros He. apply Hne. by eapply blk_inj. }
      unfold value_ok. rewrite Hbv, Hdk, Hdv, Hst', Hav, Hpd, Hud by done. split_and!.
      * intros Hin'. apply W1. rewrite Hpend. set_solver.
      * intros Hin'. apply W2. set_solver.
      * intros Hin'. apply W3. set_solver.
  - subst s'. cbn. by rewrite length_insert.
  - pose proof (Z.mod_pos_bound (u_idx s + 1) W16 ltac:(lia)). subst s'. cbn. unfold u16. lia.
Qed.

(** ** The interrupt handler *)

(** One turn of its loop. *)
Lemma intr_step s reqs : vinv s reqs -> rlen W16 (used_idx s) (u_idx s) <> 0 ->
  exists b, let h := Z.to_nat (nth (Z.to_nat (used_idx s mod 8)) (u_ring s) 0) in
    let s' := set_used_idx (u16 (used_idx s + 1)) (set_vbufs (upd (vbufs s) b (mkvbuf false (v_blockno (vbufs s b)) (v_data (vbufs s b)))) s) in
    info_status s h = 0 /\ info_b s h = Some b /\ vinv s' reqs /\ rlen W16 (used_idx s') (u_idx s') = rlen W16 (used_idx s) (u_idx s) - 1.
Proof.
  intros Hi Hne. pose proof (vi_idx _ _ Hi) as (Hd & Ha & Hu & Hx).
  pose proof (rlen_range 8 W16 ltac:(lia) ltac:(lia) (used_idx s) (u_idx s)) as Hr.
  pose proof (rqueue_skip 8 W16 ltac:(lia) ltac:(lia) ring_divides (u_ring s) (used_idx s) (u_idx s) ltac:(lia)) as Hq. fold (usedq s) in Hq.
  set (h := nth (Z.to_nat (used_idx s mod 8)) (u_ring s) 0) in *.
  assert (Hin : h ∈ active s) by (unfold active; rewrite Hq; set_solver). destruct (vi_owned _ _ Hi h Hin) as (r & Hr' & Hh).
  exists (r_buf r). cbv zeta. rewrite Hh, Nat2Z.id. destruct (vi_value _ _ Hi r Hr') as (_ & V2 & V3).
  set (s' := set_used_idx _ _). assert (Hud : usedq s = Z.of_nat (r_head r) :: usedq s') by (rewrite <- Hh; exact Hq).
  assert (Hact : active s ≡ₚ Z.of_nat (r_head r) :: active s').
  { unfold active. rewrite Hud. change (availq s') with (availq s). change (dev_pending s') with (dev_pending s). rewrite !app_assoc. symmetry. apply Permutation_middle. }
  assert (Hused : Z.of_nat (r_head r) ∈ usedq s) by (rewrite Hud; set_solver).
  split_and!; [by apply V2|by apply (ch_info _ _ (vi_chain _ _ Hi r Hr'))| |exact (rlen_adv 8 W16 ltac:(lia) ltac:(lia) (used_idx s) (u_idx s) 1 ltac:(lia))].
  assert (Hbuf : forall r', r' ∈ reqs -> r' <> r -> vbufs s' (r_buf r') = vbufs s (r_buf r')).
  { intros r' Hin' Hn. cbn. apply upd_ne. intros He. apply Hn. by eapply buf_inj. }
  assert (Hbr : vbufs s' (r_buf r) = mkvbuf false (blk s r) (buf_val s r)) by (cbn; by rewrite upd_eq).
  assert (Hsame : forall r', blk s' r' = blk s r' /\ buf_val s' r' = buf_val s r').
  { intros r'. unfold blk, buf_val. destruct (decide (r_buf r' = r_buf r)) as [->|Hn]; [by rewrite Hbr|]. cbn. by rewrite upd_ne by done. }
  pose proof Hi as Hi0. destruct Hi as [I1 I2 I3 I4 I5 I6 I7 I8 I9 I10 I11 I12]. rewrite Hact in I7. apply NoDup_cons in I7 as [Hnin Hnd].
  split; try done.
  - intros r' Hin'. destruct (I4 r' Hin') as [D1 D2 D3]. split; try done. by rewrite (proj1 (Hsame r')).
  - replace (blk s' <$> reqs) with (blk s <$> reqs); [done|]. apply list_fmap_ext. intros i r' _. symmetry. apply Hsame.
  - intros x Hxin. apply I8. rewrite Hact. by right.
  - intros r' Hin'. destruct (decide (r' = r)) as [->|Hn]; [rewrite Hbr; by split|]. rewrite (Hbuf r' Hin' Hn), (I9 r' Hin'), Hact, elem_of_cons.
    assert (r_head r' <> r_head r) by (intros He; apply Hn; by eapply head_inj). split; [intros [He|]; [lia|done]|by right].
  - intros r' Hin'. destruct (I10 r' Hin') as (W1 & W2 & W3). unfold value_ok, disk_val. destruct (Hsame r') as [-> ->].
    split_and!; [done|intros Hx'; apply W2; rewrite Hud; by right|]. intros [Hx'|Hx']; [apply W3; left; rewrite Hud; by right|].
    destruct (decide (r' = r)) as [->|Hn]; [by apply V3; left|]. rewrite Hbuf in Hx' by done. apply W3. by right.
  - pose proof (Z.mod_pos_bound (used_idx s + 1) W16 ltac:(lia)). cbn. unfold u16. lia.
Qed.

Lemma intr_loop_spec reqs : forall fuel s, vinv s reqs -> rlen W16 (used_idx s) (u_idx s) < Z.of_nat fuel ->
  exists s', intr_loop fuel s = Done tt s' /\ vinv s' reqs /\ usedq s' = [].
Proof.
  induction fuel as [|fuel IH]; intros s Hi Hf; [pose proof (rlen_range 8 W16 ltac:(lia) ltac:(lia) (used_idx s) (u_idx s)); lia|].
  cbn [intr_loop]. pose proof (vi_idx _ _ Hi) as (Hd & Ha & Hu & Hx). rewrite (empty_test 8 W16) by lia.
  destruct (Z.eqb_spec (rlen W16 (used_idx s) (u_idx s)) 0) as [He|Hne].
  - exists s. split_and!; [done|done|]. by apply (rqueue_nil 8 W16 ltac:(lia) ltac:(lia)).
  - destruct (intr_step s reqs Hi Hne) as (b & Hst & Hb & Hi' & Hlen). cbv zeta in *. rewrite Hst, Hb. change (negb (0 =? 0)) with false. cbv iota. apply IH; [done|lia].
Qed.

Lemma intr_inv s reqs : vinv s reqs -> exists s', virtio_disk_intr s = Done tt s' /\ vinv s' reqs /\ usedq s' = [].
Proof. intros Hi. apply intr_loop_spec; [done|]. unfold rlen. pose proof (Z.mod_pos_bound (u_idx s - used_idx s) W16). lia. Qed.

(** ** The end of a request *)

Lemma vinv_perm s reqs reqs' : reqs ≡ₚ reqs' -> vinv s reqs -> vinv s reqs'.
Proof.
  intros Hp [I1 I2 I3 I4 I5 I6 I7 I8 I9 I10 I11 I12]. split; try done.
  - by rewrite <- Hp.
  - intros i Hlt. rewrite <- Hp. by apply I2.
  - intros i. rewrite <- Hp. apply I3.
  - intros r. rewrite <- Hp. apply I4.
  - by rewrite <- Hp.
  - by rewrite <- Hp.
  - intros h Hh. destruct (I8 h Hh) as (r & Hr & ?). exists r. by rewrite <- Hp.
  - intros r. rewrite <- Hp. apply I9.
  - intros r. rewrite <- Hp. apply I10.
Qed.

Lemma free_desc_Done i s : (i < NUM)%nat -> free s i = false ->
  free_desc i s = Done tt (set_free (upd (free s) i true) (set_desc (upd (desc s) i desc0) s)).
Proof. intros Hi Hf. unfold free_desc. destruct (Nat.leb_spec NUM i); [lia|]. by rewrite Hf. Qed.

(** [free_chain] frees the three descriptors of a request. *)
Lemma free_chain_spec s r : chain_desc (desc s) r -> NoDup (chain r) -> (forall i, i ∈ chain r -> (i < NUM)%nat /\ free s i = false) ->
  exists f g, free_chain 3 (r_head r) s = Done tt (set_free f (set_desc g s)) /\
    (forall i, f i = free s i || bool_decide (i ∈ chain r)) /\ (forall i, i ∉ chain r -> g i = desc s i).
Proof.
  intros [C1 C2 C3] Hnd Hc. destruct r as [b w [[i0 i1] i2] v]. unfold r_head, chain in *. cbn [r_idx fst snd] in *.
  apply NoDup_cons in Hnd as [H01 [H12 _]%NoDup_cons]. assert (i0 <> i1 /\ i0 <> i2 /\ i1 <> i2) as (N1 & N2 & N3) by set_solver.
  destruct (Hc i0 ltac:(set_solver)) as [L0 F0], (Hc i1 ltac:(set_solver)) as [L1 F1], (Hc i2 ltac:(set_solver)) as [L2 F2].
  cbn [free_chain]. rewrite bind_gets. rewrite (bind_Done _ _ _ _ _ (free_desc_Done i0 s L0 F0)), C1. cbn [d_flags d_next].
  change (negb (Z.land VRING_DESC_F_NEXT VRING_DESC_F_NEXT =? 0)) with true. cbv iota. rewrite Nat2Z.id, bind_gets.
  set (s1 := set_free _ _). assert (Hd1 : desc s1 i1 = desc s i1) by (cbn; by apply upd_ne).
  assert (Hf1 : free s1 i1 = false) by (cbn; by rewrite upd_ne). rewrite (bind_Done _ _ _ _ _ (free_desc_Done i1 s1 L1 Hf1)), Hd1, C2. cbn [d_flags d_next r_write].
  replace (negb (Z.land (Z.lor (if w then 0 else VRING_DESC_F_WRITE) VRING_DESC_F_NEXT) VRING_DESC_F_NEXT =? 0)) with true by (by destruct w).
  rewrite Nat2Z.id, bind_gets. set (s2 := set_free _ _). assert (Hd2 : desc s2 i2 = desc s i2) by (cbn; by rewrite !upd_ne).
  assert (Hf2 : free s2 i2 = false) by (cbn; by rewrite !upd_ne). rewrite (bind_Done _ _ _ _ _ (free_desc_Done i2 s2 L2 Hf2)), Hd2, C3. cbn [d_flags].
  change (negb (Z.land VRING_DESC_F_WRITE VRING_DESC_F_NEXT =? 0)) with false. cbv iota. unfold ret.
  exists (upd (upd (upd (free s) i0 true) i1 true) i2 true), (upd (upd (upd (desc s) i0 desc0) i1 desc0) i2 desc0).
  split; [done|]. split.
  - intros i. clear. unfold upd. destruct (decide (i = i2)), (decide (i = i1)), (decide (i = i0)); subst;
      (rewrite bool_decide_eq_true_2 by set_solver; by rewrite orb_true_r) || (rewrite bool_decide_eq_false_2 by set_solver; by rewrite orb_false_r).
  - intros i. clear. rewrite !not_elem_of_cons. intros (H0 & H1 & H2 & _). by rewrite !upd_ne by done.
Qed.

(** Updates of the free map and of descriptors outside the chains. *)
Lemma vinv_update s reqs reqs' f g info : vinv s reqs -> NoDup (reqs' ≫= chain) -> (forall r, r ∈ reqs' -> r ∈ reqs) ->
  (forall i, (i < NUM)%nat -> f i = false <-> i ∈ reqs' ≫= chain) -> (forall i, i ∈ reqs' ≫= chain -> g i = desc s i /\ info i = info_b s i) ->
  NoDup (r_buf <$> reqs') -> NoDup (blk s <$> reqs') ->
  (forall h, h ∈ active s -> exists r, r ∈ reqs' /\ h = Z.of_nat (r_head r)) ->
  vinv (set_free f (set_desc g (set_info_b info s))) reqs'.
Proof.
  intros [I1 I2 I3 I4 I5 I6 I7 I8 I9 I10 I11 I12] Hnd Hsub Hf Hg Hb Hk Ha. split; try done.
  - intros i Hi. apply I3. apply list_elem_of_bind in Hi as (r & Hi & Hr). apply list_elem_of_bind. eauto.
  - intros r Hr. destruct (I4 r (Hsub r Hr)) as [[C1 C2 C3] C4 C5].
    assert (Hin : forall i, i ∈ chain r -> i ∈ reqs' ≫= chain) by (intros i Hi; by eapply in_chains).
    assert (Hg' : forall i, i ∈ chain r -> g i = desc s i) by (intros i Hi; by apply Hg, Hin).
    split; [split| |]; cbn; rewrite ?Hg' by (unfold chain; set_solver); try done.
    rewrite (proj2 (Hg _ (Hin _ (head_chain r)))). done.
  - intros r Hr. apply I9. auto.
  - intros r Hr. destruct (I10 r (Hsub r Hr)) as (V1 & V2 & V3). by split_and!.
Qed.

Lemma finish_inv s reqs r : vinv s (r :: reqs) -> v_disk (vbufs s (r_buf r)) = false ->
  exists s', rw_finish (r_head r) s = Done tt s' /\ vinv s' reqs /\ vbufs s' = vbufs s /\ image s' = image s.
Proof.
  intros Hi Hdone. unfold rw_finish. rewrite bind_modify. set (s1 := set_info_b _ _).
  pose proof (vi_nodup _ _ Hi) as Hnd. rewrite bind_cons in Hnd. apply NoDup_app in Hnd as (Hnd & Hdis & Hnd').
  assert (Hin : forall i, i ∈ chain r -> i ∈ (r :: reqs) ≫= chain) by (intros i Hin; rewrite bind_cons, elem_of_app; by left).
  destruct (free_chain_spec s1 r (ch_desc _ _ (vi_chain _ _ Hi r ltac:(by left))) Hnd) as (f & g & -> & Hf & Hg).
  { intros i Hi'. pose proof (vi_lt _ _ Hi i (Hin i Hi')). split; [done|]. by apply (vi_free _ _ Hi); [|apply Hin]. }
  eexists. split; [reflexivity|]. split; [|done]. apply (vinv_update s (r :: reqs)); try done.
  - intros r'. by right.
  - intros i Hlt. rewrite Hf. change (free s1) with (free s). pose proof (vi_free _ _ Hi i Hlt) as Hfr. rewrite bind_cons, elem_of_app in Hfr.
    destruct (decide (i ∈ chain r)) as [Hc|Hc].
    + rewrite bool_decide_eq_true_2, orb_true_r by done. split; [done|]. intros Hc'. by destruct (Hdis i Hc).
    + rewrite bool_decide_eq_false_2, orb_false_r, Hfr by done. naive_solver.
  - intros i Hc. assert (Hni : i ∉ chain r) by (intros Hc'; by destruct (Hdis i Hc')). split; [by apply Hg|].
    apply upd_ne. intros ->. apply Hni, head_chain.
  - by apply (NoDup_cons_1_2 (r_buf r)), (vi_bufs _ _ Hi).
  - by apply (NoDup_cons_1_2 (blk s r)), (vi_blocks _ _ Hi).
  - intros h Hh. destruct (vi_owned _ _ Hi h Hh) as (r' & Hr' & ->). exists r'. split; [|done]. apply elem_of_cons in Hr' as [->|]; [|done].
    exfalso. apply (vi_disk _ _ Hi r ltac:(by left)) in Hh. congruence.
Qed.

(** ** The start of a request *)

Lemma free_all : forall idx s, NoDup idx -> (forall i, i ∈ idx -> (i < NUM)%nat /\ free s i = false) ->
  exists f g, for_each free_desc idx s = Done tt (set_free f (set_desc g s)) /\
    (forall i, f i = free s i || bool_decide (i ∈ idx)) /\ (forall i, i ∉ idx -> g i = desc s i).
Proof.
  induction idx as [|x idx IH]; intros s Hnd Hidx.
  - exists (free s), (desc s). split; [by destruct s|]. split; [|done]. intros i. by rewrite orb_false_r.
  - apply NoDup_cons in Hnd as [Hx Hnd]. destruct (Hidx x ltac:(by left)) as [Lx Fx]. cbn [for_each]. rewrite (bind_Done _ _ _ _ _ (free_desc_Done x s Lx Fx)).
    destruct (IH (set_free (upd (free s) x true) (set_desc (upd (desc s) x desc0) s)) Hnd) as (f & g & Hf & Hf1 & Hg1).
    { intros i Hi. destruct (Hidx i ltac:(by right)). split; [done|]. cbn. rewrite upd_ne; [done|]. by intros ->. }
    exists f, g. split; [exact Hf|]. split.
    + intros i. rewrite Hf1. cbn. clear. unfold upd. destruct (decide (i = x)) as [->|]; [rewrite (bool_decide_eq_true_2 (x ∈ x :: idx)) by set_solver; by rewrite orb_true_r|].
      f_equal. apply bool_decide_ext. set_solver.
    + intros i Hi. rewrite Hg1 by set_solver. cbn. apply upd_ne. set_solver.
Qed.

Lemma alloc_more_spec : forall n idx s, NoDup idx -> (forall i, i ∈ idx -> (i < NUM)%nat /\ free s i = false) ->
  (exists new f, alloc_more n idx s = Done (Some (idx ++ new)) (set_free f s) /\ length new = n /\ NoDup new /\
     (forall i, i ∈ new -> (i < NUM)%nat /\ free s i = true) /\ (forall i, f i = free s i && negb (bool_decide (i ∈ new)))) \/
  (exists f g, alloc_more n idx s = Done None (set_free f (set_desc g s)) /\
     (forall i, f i = free s i || bool_decide (i ∈ idx)) /\ (forall i, free s i = false -> i ∉ idx -> g i = desc s i)).
Proof.
  induction n as [|n IH]; intros idx s Hnd Hidx; cbn [alloc_more].
  - left. exists [], (free s). rewrite app_nil_r. split; [by destruct s|]. split_and!; [done|constructor|set_solver|]. intros i. by rewrite andb_true_r.
  - unfold bind, alloc_desc. destruct (List.find (free s) (seq 0 NUM)) as [x|] eqn:Hfind.
    + apply List.find_some in Hfind as [Hx Fx]. apply list_elem_of_In, elem_of_seq in Hx.
      set (s1 := set_free (upd (free s) x false) s). assert (Hxi : x ∉ idx) by (intros Hc; destruct (Hidx x Hc); congruence).
      assert (Hf1 : forall i, free s1 i = if decide (i = x) then false else free s i) by done.
      destruct (IH (idx ++ [x]) s1) as [(new & f & E & Hlen & Hnn & Hnew & Hf)|(f & g & E & Hf & Hg)].
      * apply NoDup_app. split_and!; [done| |apply NoDup_singleton]. intros i Hi Hc%list_elem_of_singleton. by subst i.
      * intros i Hi. rewrite Hf1. apply elem_of_app in Hi as [Hi|Hi%list_elem_of_singleton]; [|subst i; rewrite decide_True by done; split; [lia|done]].
        destruct (Hidx i Hi). split; [done|]. by case_decide.
      * left. exists (x :: new), f. split; [rewrite E, <- app_assoc; done|]. split_and!; [cbn; lia| | |].
        -- apply NoDup_cons. split; [|done]. intros Hc. destruct (Hnew x Hc) as [_ Hc']. by rewrite Hf1, decide_True in Hc'.
        -- intros i [->|Hi]%elem_of_cons; [split; [lia|done]|]. destruct (Hnew i Hi) as [? Hc]. split; [done|]. rewrite Hf1 in Hc. by case_decide.
        -- intros i. rewrite Hf, Hf1. destruct (decide (i = x)) as [->|Hix]; [rewrite Fx, (bool_decide_eq_true_2 (x ∈ x :: new)) by (by left); done|].
           do 2 f_equal. apply bool_decide_ext. rewrite elem_of_cons. clear -Hix. tauto.
      * right. exists f, g. split; [exact E|]. split.
        -- intros i. rewrite Hf, Hf1. destruct (decide (i = x)) as [->|Hix]; [rewrite Fx, (bool_decide_eq_true_2 (x ∈ idx ++ [x])) by (rewrite elem_of_app; right; by left); done|].
           f_equal. apply bool_decide_ext. rewrite elem_of_app, list_elem_of_singleton. clear -Hix. tauto.
        -- intros i Fi Hi. apply Hg; [rewrite Hf1; by case_decide|]. rewrite not_elem_of_app, list_elem_of_singleton. split; [done|]. intros ->. congruence.
    + right. destruct (free_all idx s Hnd Hidx) as (f & g & E & Hf & Hg). exists f, g. rewrite E. split_and!; [done|done|]. intros i _. apply Hg.
Qed.

(** The state after a request is posted with the descriptors [i0], [i1], [i2]. *)
Definition posted (b : nat) (w : bool) (i0 i1 i2 : nat) (f : nat -> bool) s : vdisk :=
  let bf := vbufs s b in
  set_avail_idx (u16 (avail_idx s + 1)) (set_avail_ring (<[Z.to_nat (avail_idx s mod 8) := Z.of_nat i0]> (avail_ring s))
  (set_info_b (upd (info_b s) i0 (Some b)) (set_vbufs (upd (vbufs s) b (mkvbuf true (v_blockno bf) (v_data bf)))
  (set_info_status (upd (info_status s) i0 0xff)
  (set_ops (upd (ops s) i0 (mkop (if w then VIRTIO_BLK_T_OUT else VIRTIO_BLK_T_IN) 0 (u32 (v_blockno bf * 2))))
  (set_desc (upd (upd (upd (desc s) i0 (mkdesc (Op i0) 16 VRING_DESC_F_NEXT (Z.of_nat i1)))
      i1 (mkdesc (Data b) BSIZE (Z.lor (if w then 0 else VRING_DESC_F_WRITE) VRING_DESC_F_NEXT) (Z.of_nat i2)))
      i2 (mkdesc (Status i0) 1 VRING_DESC_F_WRITE 0)) (set_free f s))))))).

Lemma rw_start_cases b w s :
  (exists i0 i1 i2 f, rw_start b w s = Done (Some (i0, i1, i2)) (posted b w i0 i1 i2 f s) /\ NoDup [i0; i1; i2] /\
     (forall i, i ∈ [i0; i1; i2] -> (i < NUM)%nat /\ free s i = true) /\ (forall i, f i = free s i && negb (bool_decide (i ∈ [i0; i1; i2])))) \/
  (exists f g, rw_start b w s = Done None (set_free f (set_desc g s)) /\ (forall i, f i = free s i) /\ (forall i, free s i = false -> g i = desc s i)).
Proof.
  unfold rw_start, alloc3_desc. rewrite bind_gets. destruct (alloc_more_spec 3 [] s (NoDup_nil_2) ltac:(intros i Hi; by apply not_elem_of_nil in Hi)) as [(new & f & E & Hlen & Hnd & Hnew & Hf)|(f & g & E & Hf & Hg)].
  - left. rewrite (bind_Done _ _ _ _ _ E). cbn [app]. destruct new as [|i0 [|i1 [|i2 [|]]]]; try done. exists i0, i1, i2, f. split; [reflexivity|]. done.
  - right. rewrite (bind_Done _ _ _ _ _ E). exists f, g. split; [done|]. split; [intros i; by rewrite Hf, orb_false_r|]. intros i Fi. apply Hg; [done|apply not_elem_of_nil].
Qed.

(** What posting a request keeps of the others. *)
Lemma posted_frame b w i0 i1 i2 f s r : r_buf r <> b -> (forall i, i ∈ chain r -> i ∉ [i0; i1; i2]) ->
  let s' := posted b w i0 i1 i2 f s in
  vbufs s' (r_buf r) = vbufs s (r_buf r) /\ info_status s' (r_head r) = info_status s (r_head r) /\ (chain_ok s r -> chain_ok s' r).
Proof.
  intros Hb Hc. assert (Hne : forall i, i ∈ chain r -> i <> i0 /\ i <> i1 /\ i <> i2).
  { intros i Hi. specialize (Hc i Hi). rewrite !not_elem_of_cons in Hc. tauto. }
  assert (Hv : vbufs (posted b w i0 i1 i2 f s) (r_buf r) = vbufs s (r_buf r)) by (cbn; by apply upd_ne).
  assert (Hd : forall i, i ∈ chain r -> desc (posted b w i0 i1 i2 f s) i = desc s i).
  { intros i Hi. destruct (Hne i Hi) as (N1 & N2 & N3). cbn. by rewrite !upd_ne by done. }
  destruct (Hne _ (head_chain r)) as (N0 & _). split_and!; [done|cbn; by apply upd_ne|].
  intros [[C1 C2 C3] C4 C5]. split; [split| |]; rewrite ?Hd by (unfold chain; set_solver); try done.
  - unfold blk. rewrite Hv. cbn. by rewrite upd_ne.
  - cbn. by rewrite upd_ne.
Qed.

(** The descriptors of a posted request. *)
Lemma posted_chain s b w i0 i1 i2 f v : NoDup [i0; i1; i2] -> 0 <= v_blockno (vbufs s b) < 2 ^ 31 ->
  chain_ok (posted b w i0 i1 i2 f s) (mkreq b w (i0, i1, i2) v).
Proof.
  intros Hnd Hrange. set (s' := posted b w i0 i1 i2 f s). set (r0 := mkreq _ _ _ _).
  assert (Hv0 : vbufs s' b = mkvbuf true (v_blockno (vbufs s b)) (v_data (vbufs s b))) by (cbn; apply upd_eq).
  apply NoDup_cons in Hnd as [N1 [N2 _]%NoDup_cons]. 
  assert (N01 : i0 <> i1) by (intros ->; apply N1; by left). assert (N02 : i0 <> i2) by (intros ->; apply N1; right; by left).
  assert (N12 : i1 <> i2) by (intros ->; apply N2; by left).
  split; [split| |]; cbn [r_idx fst snd r_head r0 r_buf r_write].
  + cbn. rewrite (upd_ne _ i2) by done. rewrite (upd_ne _ i1) by done. by rewrite upd_eq.
  + cbn. rewrite (upd_ne _ i2) by done. by rewrite upd_eq.
  + cbn. by rewrite upd_eq.
  + unfold blk. cbn [r_buf r0]. rewrite Hv0. cbn. rewrite upd_eq, u32_small by lia. f_equal. lia.
  + cbn. by rewrite upd_eq.
Qed.

Lemma posted_inv s reqs b w i0 i1 i2 f : vinv s reqs -> b ∉ r_buf <$> reqs -> v_blockno (vbufs s b) ∉ blk s <$> reqs ->
  0 <= v_blockno (vbufs s b) < 2 ^ 31 -> NoDup [i0; i1; i2] -> (forall i, i ∈ [i0; i1; i2] -> (i < NUM)%nat /\ free s i = true) ->
  (forall i, f i = free s i && negb (bool_decide (i ∈ [i0; i1; i2]))) ->
  vinv (posted b w i0 i1 i2 f s)
    (mkreq b w (i0, i1, i2) (if w then v_data (vbufs s b) else content (image s) (2 * v_blockno (vbufs s b))) :: reqs).
Proof.
  intros Hi Hb Hblk Hrange Hnd Hnew Hf. set (s' := posted b w i0 i1 i2 f s). set (r0 := mkreq _ _ _ _).
  assert (Hapart : forall i, i ∈ reqs ≫= chain -> i ∉ chain r0).
  { intros i Hin Hc. destruct (Hnew i Hc) as [Hlt Hfr]. apply (vi_free _ _ Hi i Hlt) in Hin. congruence. }
  assert (Hbne : forall r, r ∈ reqs -> r_buf r <> b) by (intros r Hr <-; apply Hb; by apply list_elem_of_fmap_2).
  assert (Hfr : forall r, r ∈ reqs -> vbufs s' (r_buf r) = vbufs s (r_buf r) /\ info_status s' (r_head r) = info_status s (r_head r) /\ (chain_ok s r -> chain_ok s' r)).
  { intros r Hr. apply posted_frame; [by apply Hbne|]. intros i Hin. apply Hapart. by eapply in_chains. }
  assert (Hh0 : Z.of_nat i0 ∉ active s).
  { intros Hc. destruct (vi_owned _ _ Hi _ Hc) as (r & Hr & He). apply Nat2Z.inj in He. apply (Hapart (r_head r)); [eapply in_chains; [done|apply head_chain]|rewrite <- He; by left]. }
  assert (Hroom : rlen W16 (dev_idx s) (avail_idx s) < 8).
  { assert (Hb8 : (length (Z.of_nat i0 :: active s) <= 8)%nat).
    { apply heads_bound; [apply NoDup_cons; split; [done|apply (vi_active _ _ Hi)]|]. intros h [->|Hh]%elem_of_cons; [|by eapply active_range].
      destruct (Hnew i0 ltac:(by left)) as [Hlt _]. unfold NUM in Hlt. lia. }
    unfold active in Hb8. cbn [length] in Hb8. rewrite !length_app, availq_len in Hb8. lia. }
  assert (Hav : availq s' = availq s ++ [Z.of_nat i0]).
  { exact (rqueue_put 8 W16 ltac:(lia) ltac:(lia) ring_divides _ _ _ _ (proj1 (vi_rings _ _ Hi)) Hroom). }
  assert (Hact : active s' ≡ₚ Z.of_nat i0 :: active s).
  { unfold active. rewrite Hav, <- app_assoc. symmetry. apply Permutation_middle. }
  assert (Hv0 : vbufs s' b = mkvbuf true (v_blockno (vbufs s b)) (v_data (vbufs s b))) by (cbn; apply upd_eq).
  pose proof Hi as Hi0. destruct Hi as [I1 I2 I3 I4 I5 I6 I7 I8 I9 I10 I11 I12]. split.
  - rewrite bind_cons. apply NoDup_app. split_and!; [done| |done]. intros i Hc Hin. by apply (Hapart i).
  - intros i Hlt. cbn [free s' posted]. change (free s' i) with (f i). rewrite Hf, bind_cons, elem_of_app, <- (I2 i Hlt), andb_false_iff, negb_false_iff, bool_decide_eq_true. unfold chain at 1. cbn. tauto.
  - intros i. rewrite bind_cons, elem_of_app. intros [Hc|Hc]; [by apply Hnew|auto].
  - intros r [->|Hr]%elem_of_cons; [|by apply Hfr, I4]. by apply posted_chain.
  - rewrite fmap_cons. apply NoDup_cons. done.
  - rewrite fmap_cons. apply NoDup_cons. assert (He : blk s' <$> reqs = blk s <$> reqs).
    { apply list_fmap_ext. intros i r Hr%list_elem_of_lookup_2. unfold blk. by rewrite (proj1 (Hfr r Hr)). }
    rewrite He. split; [|done]. unfold blk at 1. cbn [r_buf r0]. by rewrite Hv0.
  - rewrite Hact. by apply NoDup_cons.
  - intros h. rewrite Hact. intros [->|Hh]%elem_of_cons; [by exists r0; split; [left|]|]. destruct (I8 h Hh) as (r & Hr & ->). exists r. split; [by right|done].
  - intros r Hr0. rewrite Hact, elem_of_cons. apply elem_of_cons in Hr0 as [->|Hr]; [cbn [r_buf r0]; rewrite Hv0; by split; [left|]|].
    rewrite (proj1 (Hfr r Hr)), (I9 r Hr). split; [by right|]. intros [He|]; [|done]. exfalso. apply Nat2Z.inj in He.
    apply (Hapart (r_head r)); [eapply in_chains; [done|apply head_chain]|rewrite He; by left].
  - intros r [->|Hr]%elem_of_cons.
    + unfold value_ok, buf_val, disk_val, blk. cbn [r_buf r0 r_write r_val r_head]. rewrite Hv0. cbn [v_data v_blockno v_disk].
      assert (Hnu : Z.of_nat (r_head r0) ∉ usedq s') by (intros Hc; apply Hh0; unfold active; rewrite !elem_of_app; by right; right).
      split_and!; [done|done|]. by intros [?|?].
    + destruct (I10 r Hr) as (V1 & V2 & V3). destruct (Hfr r Hr) as (Hv & Hs & _). unfold value_ok, buf_val, disk_val, blk in *. rewrite Hv, Hs.
      split_and!; [|done|done]. rewrite Hav. intros Hin. apply V1. rewrite !elem_of_app, list_elem_of_singleton in Hin. rewrite elem_of_app.
      destruct Hin as [[?|He]|?]; [by left| |by right]. exfalso. apply Nat2Z.inj in He.
      apply (Hapart (r_head r)); [eapply in_chains; [done|apply head_chain]|rewrite He; by left].
  - cbn. by rewrite length_insert.
  - pose proof (Z.mod_pos_bound (avail_idx s + 1) W16 ltac:(lia)). cbn. unfold u16. lia.
Qed.

(** ** Runs of the system *)

(** The value a request for buffer [b] has to move. *)
Definition to_move (b : nat) (w : bool) s : block := if w then v_data (vbufs s b) else content (image s) (2 * v_blockno (vbufs s b)).

(** A process may ask for a transfer of [b]: no request uses it or its block. *)
Definition may_start (b : nat) s (reqs : list req) : Prop :=
  (b ∉ r_buf <$> reqs) /\ (v_blockno (vbufs s b) ∉ blk s <$> reqs) /\ 0 <= v_blockno (vbufs s b) < 2 ^ 31.

Inductive vstep : @vdisk I * list req -> @vdisk I * list req -> Prop :=
| vs_start b w i s s' reqs : may_start b s reqs -> rw_start b w s = Done (Some i) s' -> vstep (s, reqs) (s', mkreq b w i (to_move b w s) :: reqs)
| vs_wait b w s s' reqs : rw_start b w s = Done None s' -> vstep (s, reqs) (s', reqs)
| vs_fetch s s' reqs : dev_fetch s = Some s' -> vstep (s, reqs) (s', reqs)
| vs_complete k s s' reqs : dev_complete transfer k s = Some s' -> vstep (s, reqs) (s', reqs)
| vs_intr s s' reqs : virtio_disk_intr s = Done tt s' -> vstep (s, reqs) (s', reqs)
| vs_finish r s s' l1 l2 : v_disk (vbufs s (r_buf r)) = false -> rw_finish (r_head r) s = Done tt s' -> vstep (s, l1 ++ r :: l2) (s', l1 ++ l2)
| vs_user b n d s reqs : b ∉ r_buf <$> reqs -> vstep (s, reqs) (set_vbufs (upd (vbufs s) b (mkvbuf (v_disk (vbufs s b)) n d)) s, reqs).

Lemma user_inv b n d s reqs : b ∉ r_buf <$> reqs -> vinv s reqs -> vinv (set_vbufs (upd (vbufs s) b (mkvbuf (v_disk (vbufs s b)) n d)) s) reqs.
Proof.
  intros Hb [I1 I2 I3 I4 I5 I6 I7 I8 I9 I10 I11 I12]. set (s' := set_vbufs _ _).
  assert (Hv : forall r, r ∈ reqs -> vbufs s' (r_buf r) = vbufs s (r_buf r)) by (intros r Hr; cbn; apply upd_ne; intros <-; apply Hb; by apply list_elem_of_fmap_2).
  split; try done.
  - intros r Hr. destruct (I4 r Hr) as [C1 C2 C3]. split; try done. unfold blk. by rewrite Hv.
  - replace (blk s' <$> reqs) with (blk s <$> reqs); [done|]. apply list_fmap_ext. intros i r Hr%list_elem_of_lookup_2. unfold blk. by rewrite Hv.
  - intros r Hr. rewrite Hv by done. by apply I9.
  - intros r Hr. destruct (I10 r Hr) as (V1 & V2 & V3). unfold value_ok, buf_val, disk_val, blk in *. rewrite Hv by done. by split_and!.
Qed.

Lemma vwait_inv b w s s' reqs : vinv s reqs -> rw_start b w s = Done None s' -> vinv s' reqs.
Proof.
  intros Hi E. destruct (rw_start_cases b w s) as [(i0 & i1 & i2 & f & E' & _)|(f & g & E' & Hf & Hg)]; rewrite E' in E; [done|].
  injection E as <-. change (vinv (set_free f (set_desc g s)) reqs). replace (set_free f (set_desc g s)) with (set_free f (set_desc g (set_info_b (info_b s) s))) by (by destruct s).
  apply (vinv_update s reqs); try apply Hi; try done.
  - intros i Hlt. rewrite Hf. by apply (vi_free _ _ Hi).
  - intros i Hc. split; [|done]. apply Hg. by apply (vi_free _ _ Hi); [apply (vi_lt _ _ Hi)|].
Qed.

Lemma start_inv b w i s s' reqs : vinv s reqs -> may_start b s reqs -> rw_start b w s = Done (Some i) s' -> vinv s' (mkreq b w i (to_move b w s) :: reqs).
Proof.
  intros Hi (H1 & H2 & H3) E. destruct (rw_start_cases b w s) as [(i0 & i1 & i2 & f & E' & Hnd & Hnew & Hf)|(f & g & E' & _)]; rewrite E' in E; [|done].
  assert (Hs : i = (i0, i1, i2) /\ s' = posted b w i0 i1 i2 f s) by (by inversion E). destruct Hs as [-> ->]. by apply posted_inv.
Qed.

Lemma vstep_inv c c' : vstep c c' -> vinv c.1 c.2 -> vinv c'.1 c'.2.
Proof.
  intros H Hi. inversion H as [b w i s s' reqs Hm E|b w s s' reqs E|s s' reqs E|k s s' reqs E|s s' reqs E|r s s' l1 l2 Hd E|b n d s reqs Hb]; subst; cbn [fst snd] in *.
  - by apply start_inv.
  - by eapply vwait_inv.
  - by eapply fetch_inv.
  - by eapply complete_inv.
  - destruct (intr_inv s reqs Hi) as (s1 & E1 & Hi1 & _). rewrite E1 in E. by injection E as <-.
  - assert (Hp : l1 ++ r :: l2 ≡ₚ r :: l1 ++ l2) by (symmetry; apply Permutation_middle). apply (vinv_perm _ _ _ Hp) in Hi.
    destruct (finish_inv s (l1 ++ l2) r Hi Hd) as (s1 & E1 & Hi1 & _). rewrite E1 in E. by injection E as <-.
  - by apply user_inv.
Qed.

Lemma vdisk0_inv bs img : vinv (vdisk0 bs img) [].
Proof.
  split; try (by constructor); cbn; try done; try lia. all: try (intros i H; by apply not_elem_of_nil in H). intros i _. split; [done|]. intros H. by apply not_elem_of_nil in H.
Qed.

(** A request whose buffer is still with the disk is somewhere: the disk can take it or
    complete a request, or a completion waits for the interrupt handler. *)
Lemma request_progress s reqs r : vinv s reqs -> r ∈ reqs -> v_disk (vbufs s (r_buf r)) = true ->
  is_Some (dev_fetch s) \/ (exists k, is_Some (dev_complete transfer k s)) \/ usedq s <> [].
Proof.
  intros Hi Hr Hd. apply (vi_disk _ _ Hi r Hr) in Hd. unfold active in Hd. rewrite !elem_of_app in Hd. destruct Hd as [Hd|[Hd|Hd]].
  - left. unfold dev_fetch. pose proof (vi_idx _ _ Hi) as (? & ? & ? & ?). rewrite (empty_test 8 W16) by lia.
    destruct (Z.eqb_spec (rlen W16 (dev_idx s) (avail_idx s)) 0) as [He|]; [|done]. apply (rqueue_nil 8 W16 ltac:(lia) ltac:(lia) (avail_ring s)) in He.
    unfold availq in Hd. rewrite He in Hd. by apply not_elem_of_nil in Hd.
  - right. left. apply list_elem_of_lookup in Hd as [k Hk]. exists k. unfold dev_complete. rewrite Hk. destruct (vi_chain _ _ Hi r Hr) as [[C1 C2 C3] _ _].
    unfold r_head in *. cbv zeta. rewrite Nat2Z.id, C1. cbn [d_next d_addr]. rewrite Nat2Z.id, C2. cbn [d_next d_addr]. rewrite Nat2Z.id, C3. cbn [d_addr].
    by destruct (transfer _ _ _ _).
  - right. right. intros He. rewrite He in Hd. by apply not_elem_of_nil in Hd.
Qed.

(** C18: In every run of the driver with the disk, whatever the order in which
    requests are made, taken and completed: the descriptors of the requests in
    flight are distinct; [virtio_disk_intr] and the start and the end of
    [virtio_disk_rw] never panic and their loops end; when [virtio_disk_rw]
    is released, buffer and block both hold the value it had to move; and a
    request still waiting is one on which the disk or the handler can act. *)
Theorem virtio_transfers bs img s reqs : rtc vstep (vdisk0 bs img, []) (s, reqs) ->
  NoDup (reqs ≫= chain) /\ (exists s', virtio_disk_intr s = Done tt s') /\ (forall b w, exists r s', rw_start b w s = Done r s') /\
  forall r, r ∈ reqs ->
    if v_disk (vbufs s (r_buf r))
    then is_Some (dev_fetch s) \/ (exists k, is_Some (dev_complete transfer k s)) \/ usedq s <> []
    else buf_val s r = r_val r /\ disk_val s r = r_val r /\
         exists s', rw_finish (r_head r) s = Done tt s' /\ vbufs s' = vbufs s /\ image s' = image s.
Proof.
  intros Hrun. assert (Hi : vinv s reqs).
  { pose proof (vdisk0_inv bs img) as H0. change (vinv (s, reqs).1 (s, reqs).2). change (vinv (vdisk0 bs img, @nil req).1 (vdisk0 bs img, @nil req).2) in H0.
    revert H0. induction Hrun as [|? ? ? Hs _ IH]; [done|]. intros H0. apply IH. by eapply vstep_inv. }
  split_and!; [apply Hi| | |].
  - destruct (intr_inv s reqs Hi) as (s' & E & _). by exists s'.
  - intros b w. destruct (rw_start_cases b w s) as [(i0 & i1 & i2 & f & E & _)|(f & g & E & _)]; rewrite E; eauto.
  - intros r Hr. destruct (v_disk (vbufs s (r_buf r))) eqn:Hd; [by eapply request_progress|].
    destruct (vi_value _ _ Hi r Hr) as (_ & _ & V). destruct (V (or_intror Hd)) as [V1 V2]. split_and!; [done|done|].
    apply list_elem_of_split in Hr as (l1 & l2 & ->). assert (Hp : l1 ++ r :: l2 ≡ₚ r :: l1 ++ l2) by (symmetry; apply Permutation_middle).
    apply (vinv_perm _ _ _ Hp) in Hi. destruct (finish_inv s _ r Hi Hd) as (s' & E & _ & Hv & Him). by exists s'.
Qed.
End Inv.

(** A disk that keeps a block per even sector, and a run that writes block 3. *)
Definition plain_transfer (t s : Z) (d : block) (img : Z -> block) : (Z -> block) * block :=
  if t =? VIRTIO_BLK_T_IN then (img, img s) else (fun x => if x =? s then d else img x, d).

Definition vd0 : vdisk := vdisk0 (fun _ => mkvbuf false 3 [7; 8]) (fun _ : Z => ([] : block)).
Definition state_of {A} (r : result vdisk A) : vdisk := match r with Done _ s => s | Panic _ => vd0 end.
Definition vd1 : vdisk := state_of (rw_start 0 true vd0).
Definition vd2 : vdisk := default vd0 (dev_fetch vd1).
Definition vd3 : vdisk := default vd0 (dev_complete plain_transfer 0 vd2).
Definition vd4 : vdisk := state_of (virtio_disk_intr vd3).
Definition req3 : req := mkreq 0 true (0, 1, 2)%nat [7; 8].

Lemma vd_run : rtc (vstep plain_transfer (fun img x => img x)) (vd0, []) (vd4, [req3]).
Proof.
  apply (rtc_l _ _ (vd1, [req3])); [apply (vs_start _ _ 0 true (0, 1, 2)%nat); [split_and!; [apply not_elem_of_nil|apply not_elem_of_nil|cbn; lia|cbn; lia]|reflexivity]|].
  apply (rtc_l _ _ (vd2, [req3])); [apply vs_fetch; reflexivity|]. apply (rtc_l _ _ (vd3, [req3])); [apply (vs_complete _ _ 0); reflexivity|].
  apply (rtc_l _ _ (vd4, [req3])); [apply vs_intr; reflexivity|]. apply rtc_refl.
Qed.

Lemma virtio_transfers_witness : v_disk (vbufs vd4 0) = false /\ buf_val vd4 req3 = [7; 8] /\ disk_val (fun img x => img x) vd4 req3 = [7; 8].
Proof.
  split; [reflexivity|].
  assert (Hin : forall s d img, plain_transfer VIRTIO_BLK_T_IN s d img = (img, img s)) by reflexivity.
  assert (Hout : forall n n' d img, (plain_transfer VIRTIO_BLK_T_OUT (2 * n) d img).1 (2 * n') = if n' =? n then d else img (2 * n')).
  { intros n n' d img. change ((if 2 * n' =? 2 * n then d else img (2 * n')) = if n' =? n then d else img (2 * n')).
    destruct (Z.eqb_spec (2 * n') (2 * n)), (Z.eqb_spec n' n); done || lia. }
  pose proof (virtio_transfers plain_transfer (fun img x => img x) Hin Hout _ _ _ _ vd_run) as (_ & _ & _ & H).
  specialize (H req3 (list_elem_of_here _ _)). change (v_disk (vbufs vd4 (r_buf req3))) with false in H. cbv iota in H. destruct H as (H1 & H2 & _). exact (conj H1 H2).
Defined.
