(* ===== verification/Pipe.v ===== *)
(** * Pipes: [kernel/pipe.c]

    A pipe is its 512-byte ring with the two 32-bit counters, which wrap, and
    the two open flags.  Everything between acquiring [pi->lock] and releasing
    it or sleeping is one run: [pipewrite] and [piperead] are functions from
    the pipe at the start of a run to the pipe at its end with the way the run
    ended, and a sleeping caller starts a new run when it wakes up.  User
    memory is any instance of [UserMem].

    Theorems: a run of [pipewrite] appends the bytes of the user buffer to the
    queue and a run of [piperead] delivers its front; over every interleaving
    of runs the bytes taken out are, in order, the bytes put in; and nobody
    sleeps on a pipe that is ready, unless a writer is killed in the middle of
    a write. *)

From S2P Require Import Prelude UserMem Ring.

Definition PIPESIZE : Z := 512.

(** [struct pipe] *)
Record pipe := mkpipe {
  data : list Z;
  nread : Z;
  nwrite : Z;
  readopen : Z;
  writeopen : Z
}.

(** The two sleep channels of a pipe. *)
Inductive pchan := NReadChan | NWriteChan.

(** The pipe [pipealloc] makes in a page filled with 5s. *)
Definition new_pipe : pipe := mkpipe (replicate 512 5) 0 0 1 1.

(** [pipeclose]: the pipe, the channel woken, and whether the page is freed. *)
Definition pipeclose (pi : pipe) (writable : Z) : pipe * pchan * bool :=
  let '(pi', wake) :=
    if negb (writable =? 0)
    then (mkpipe (data pi) (nread pi) (nwrite pi) (readopen pi) 0, NReadChan)
    else (mkpipe (data pi) (nread pi) (nwrite pi) 0 (writeopen pi), NWriteChan) in
  (pi', wake, (readopen pi' =? 0) && (writeopen pi' =? 0)).

Section PipeOps.
Context {U : Type} `{!UserMem U}.

(** [pi->data[pi->nwrite++ % PIPESIZE] = ch] *)
Definition put_byte (pi : pipe) (ch : Z) : pipe :=
  mkpipe (<[Z.to_nat (nwrite pi mod PIPESIZE) := ch]> (data pi)) (nread pi) (u32 (nwrite pi + 1))
    (readopen pi) (writeopen pi).
(** [pi->data[pi->nread++ % PIPESIZE]] *)
Definition next_byte (pi : pipe) : Z := nth (Z.to_nat (nread pi mod PIPESIZE)) (data pi) 0.
Definition skip_byte (pi : pipe) : pipe :=
  mkpipe (data pi) (u32 (nread pi + 1)) (nwrite pi) (readopen pi) (writeopen pi).

(** How the loop of [pipewrite] stops. *)
Inductive wexit := WClosed | WFull | WFault | WAll.

(** The loop of [pipewrite] at index [i]; [killed i] is what [killed(pr)]
    answers in the iteration that writes byte [i]. *)
Fixpoint pipewrite_loop (fuel : nat) (pi : pipe) (u : U) (killed : Z -> bool) (addr i n : Z)
    : wexit * Z * pipe :=
  match fuel with
  | O => (WAll, i, pi)
  | S fuel' =>
      if i <? n then
        if (readopen pi =? 0) || killed i then (WClosed, i, pi)
        else if nwrite pi =? u32 (nread pi + PIPESIZE) then (WFull, i, pi)
        else
          let '(r, bs) := ucopyin (u64 (addr + i)) 1 u in
          if r =? -1 then (WFault, i, pi)
          else pipewrite_loop fuel' (put_byte pi (hd 0 bs)) u killed addr (i + 1) n
      else (WAll, i, pi)
  end.

(** The end of a run: the caller returns a value or sleeps, to go on at [i]. *)
Inductive outcome :=
| Return (r : Z) (wake : list pchan)
| Sleep (i : Z) (wake : list pchan) (on : pchan).

(** A run of [pipewrite], from its start ([i = 0]) or from a wakeup. *)
Definition pipewrite (pi : pipe) (u : U) (killed : Z -> bool) (addr i n : Z) : outcome * pipe :=
  match pipewrite_loop (Z.to_nat (n - i)) pi u killed addr i n with
  | (WClosed, _, pi') => (Return (-1) [], pi')
  | (WFull, i', pi') => (Sleep i' [NReadChan] NWriteChan, pi')
  | (_, i', pi') => (Return i' [NReadChan], pi')
  end.

(** The copy loop of [piperead]: the count, the pipe and the user memory. *)
Fixpoint piperead_loop (fuel : nat) (pi : pipe) (u : U) (addr i n : Z) : Z * pipe * U :=
  match fuel with
  | O => (i, pi, u)
  | S fuel' =>
      if i <? n then
        if nread pi =? nwrite pi then (i, pi, u)
        else
          let ch := next_byte pi in
          let '(r, u') := ucopyout (u64 (addr + i)) [ch] u in
          if r =? -1 then (i, skip_byte pi, u')
          else piperead_loop fuel' (skip_byte pi) u' addr (i + 1) n
      else (i, pi, u)
  end.

(** A run of [piperead], from its start or from a wakeup. *)
Definition piperead (pi : pipe) (u : U) (killed : bool) (addr n : Z) : outcome * pipe * U :=
  if (nread pi =? nwrite pi) && negb (writeopen pi =? 0) then
    if killed then (Return (-1) [], pi, u) else (Sleep 0 [] NReadChan, pi, u)
  else
    let '(i, pi', u') := piperead_loop (Z.to_nat n) pi u addr 0 n in
    (Return i [NWriteChan], pi', u').

(** ** The queue *)

Definition qlen (pi : pipe) : Z := rlen (2 ^ 32) (nread pi) (nwrite pi).
Definition queue (pi : pipe) : list Z := rqueue PIPESIZE (2 ^ 32) (data pi) (nread pi) (nwrite pi).

Record pipe_ok (pi : pipe) : Prop := {
  pk_len : length (data pi) = 512%nat;
  pk_bytes : Forall (fun b => 0 <= b < 256) (data pi);
  pk_r : 0 <= nread pi < 2 ^ 32;
  pk_w : 0 <= nwrite pi < 2 ^ 32;
  pk_q : qlen pi <= PIPESIZE
}.

Lemma divides : (PIPESIZE | 2 ^ 32).
Proof. by exists (2 ^ 23). Qed.

Lemma qlen_range pi : pipe_ok pi -> 0 <= qlen pi <= 512.
Proof. intros [_ _ _ _ Hq]. 
  pose proof (rlen_range PIPESIZE (2 ^ 32) ltac:(done) ltac:(done) (nread pi) (nwrite pi)). unfold qlen, PIPESIZE in *. lia. Qed.

Lemma full_iff pi : pipe_ok pi -> (nwrite pi =? u32 (nread pi + PIPESIZE)) = (qlen pi =? 512).
Proof. intros [_ _ _ Hw _]. by apply (full_test PIPESIZE (2 ^ 32)). Qed.

Lemma empty_iff pi : pipe_ok pi -> (nread pi =? nwrite pi) = (qlen pi =? 0).
Proof. intros [_ _ Hr Hw _]. by apply (empty_test PIPESIZE (2 ^ 32)). Qed.

Lemma length_queue pi : length (queue pi) = Z.to_nat (qlen pi).
Proof. apply length_rqueue. Qed.

Lemma qlen_put pi ch : pipe_ok pi -> qlen pi <> 512 -> qlen (put_byte pi ch) = qlen pi + 1.
Proof. intros Hok Hne. pose proof (qlen_range pi Hok). unfold qlen in *. cbn [put_byte nread nwrite]. apply (rlen_add (2 ^ 32)); lia. Qed.

Lemma put_ok pi ch : pipe_ok pi -> qlen pi <> 512 -> 0 <= ch < 256 -> pipe_ok (put_byte pi ch).
Proof.
  intros Hok Hne Hch. pose proof (qlen_put pi ch Hok Hne) as Hl. pose proof (qlen_range pi Hok).
  destruct Hok as [H1 H2 H3 H4 H5]. split.
  - cbn. by rewrite length_insert.
  - cbn. by apply Forall_insert.
  - done.
  - cbn. apply u32_range.
  - rewrite Hl. unfold PIPESIZE. lia.
Qed.

Lemma queue_put pi ch : pipe_ok pi -> qlen pi <> 512 -> queue (put_byte pi ch) = queue pi ++ [ch].
Proof.
  intros Hok Hne. pose proof (qlen_range pi Hok).
  unfold queue. cbn [put_byte data nread nwrite]. apply (rqueue_put PIPESIZE (2 ^ 32)); try done.
  - apply divides.
  - apply Hok.
  - unfold qlen, PIPESIZE in *. lia.
Qed.

Lemma qlen_skip pi : pipe_ok pi -> qlen pi <> 0 -> qlen (skip_byte pi) = qlen pi - 1.
Proof. intros Hok Hne. pose proof (qlen_range pi Hok). unfold qlen in *. cbn [skip_byte nread nwrite]. apply (rlen_adv PIPESIZE (2 ^ 32)); try done; lia. Qed.

Lemma skip_ok pi : pipe_ok pi -> qlen pi <> 0 -> pipe_ok (skip_byte pi).
Proof.
  intros Hok Hne. pose proof (qlen_skip pi Hok Hne) as Hl. pose proof (qlen_range pi Hok).
  destruct Hok as [H1 H2 H3 H4 H5]. split; [done|done|cbn; apply u32_range|done|].
  rewrite Hl. unfold PIPESIZE. lia.
Qed.

Lemma queue_skip pi : pipe_ok pi -> qlen pi <> 0 -> queue pi = next_byte pi :: queue (skip_byte pi).
Proof.
  intros Hok Hne. pose proof (qlen_range pi Hok).
  unfold queue. cbn [skip_byte data nread nwrite]. apply (rqueue_skip PIPESIZE (2 ^ 32)); try done; [apply divides|].
  unfold qlen in *. lia.
Qed.

Lemma next_byte_range pi : pipe_ok pi -> 0 <= next_byte pi < 256.
Proof.
  intros Hok. pose proof (Z.mod_pos_bound (nread pi) PIPESIZE ltac:(done)) as Hr.
  unfold next_byte. destruct (lookup_lt_is_Some_2 (data pi) (Z.to_nat (nread pi mod PIPESIZE))) as [b Hb].
  { rewrite (pk_len pi Hok). unfold PIPESIZE in *. lia. }
  rewrite (nth_lookup_Some _ _ _ _ Hb). pose proof (pk_bytes pi Hok) as HF.
  rewrite Forall_lookup in HF. by apply (HF _ _ Hb).
Qed.

(** ** Runs of [pipewrite] *)

(** Nothing but the ring's contents and [nwrite] changes in a write. *)
Definition same_ends (pi pi' : pipe) : Prop := readopen pi' = readopen pi /\ writeopen pi' = writeopen pi.

Definition wexit_ok (e : wexit) (pi' : pipe) (u : U) (killed : Z -> bool) (addr i' n : Z) : Prop :=
  match e with
  | WClosed => i' < n /\ (readopen pi' = 0 \/ killed i' = true)
  | WFull => i' < n /\ readopen pi' <> 0 /\ killed i' = false /\ length (queue pi') = 512%nat
  | WFault => i' < n /\ ubyte u (addr + i') = None
  | WAll => i' = n
  end.

Lemma pipewrite_loop_spec u killed addr n : uok u -> 0 <= addr -> addr + n <= 2 ^ 64 ->
  forall fuel pi i, pipe_ok pi -> 0 <= i <= n -> (Z.to_nat (n - i) <= fuel)%nat ->
  exists e i' pi' bs, pipewrite_loop fuel pi u killed addr i n = (e, i', pi') /\
    pipe_ok pi' /\ same_ends pi pi' /\ i <= i' <= n /\
    bytes_at (ubyte u) (addr + i) (Z.to_nat (i' - i)) = Some bs /\
    queue pi' = queue pi ++ bs /\ wexit_ok e pi' u killed addr i' n.
Proof.
  intros Hu Ha Han. induction fuel as [|fuel IH]; intros pi i Hok Hi Hf; cbn [pipewrite_loop].
  - exists WAll, i, pi, []. rewrite Z.sub_diag, app_nil_r.
    split_and!; try done; cbn; lia.
  - assert (Hstop : forall e, wexit_ok e pi u killed addr i n ->
      exists e' i' pi' bs, (e, i, pi) = (e', i', pi') /\
        pipe_ok pi' /\ same_ends pi pi' /\ i <= i' <= n /\
        bytes_at (ubyte u) (addr + i) (Z.to_nat (i' - i)) = Some bs /\
        queue pi' = queue pi ++ bs /\ wexit_ok e' pi' u killed addr i' n).
    { intros e He. exists e, i, pi, []. rewrite Z.sub_diag, app_nil_r.
    split_and!; try done; cbn; lia. }
    destruct (Z.ltb_spec i n) as [Hlt|]; [|apply Hstop; cbn; lia].
    destruct (Z.eqb_spec (readopen pi) 0) as [Hro|Hro]; [apply Hstop; cbn; auto|].
    destruct (killed i) eqn:Hk; [apply Hstop; cbn; auto|]. cbn [orb].
    rewrite full_iff by done. destruct (Z.eqb_spec (qlen pi) 512) as [Hfull|Hfull].
    { apply Hstop. cbn. rewrite length_queue, Hfull. auto. }
    rewrite u64_small by lia. rewrite ucopyin_byte by (done || lia).
    destruct (ubyte u (addr + i)) as [b|] eqn:Hb; [|apply Hstop; cbn; auto]. cbn [Z.eqb hd].
    pose proof (ubyte_law u _ b Hu Hb) as Hbr.
    destruct (IH (put_byte pi b) (i + 1)) as (e & i' & pi' & bs & He & Hok' & [Hs1 Hs2] & Hi' & Hbs & Hq & Hx);
      [by apply put_ok|lia|lia|].
    exists e, i', pi', (b :: bs). split; [done|]. split; [done|]. split; [done|]. split; [lia|]. split; [|split; [|done]].
    + replace (Z.to_nat (i' - i)) with (S (Z.to_nat (i' - (i + 1)))) by lia. cbn [bytes_at]. rewrite Hb.
      rewrite <- Z.add_assoc, Hbs. done.
    + rewrite Hq, queue_put by done. by rewrite <- app_assoc.
Qed.

(** A run of [pipewrite] appends to the pipe exactly the next bytes of
    the user's buffer.  It returns the full count when all are in the pipe,
    sleeps only on a full pipe with a reader, returns early only at an
    unreadable byte, and returns -1 exactly when it meets a closed read end or
    a kill; it wakes the reader unless it returns -1. *)
Theorem pipewrite_appends (pi : pipe) (u : U) (killed : Z -> bool) (addr i n : Z) :
  pipe_ok pi -> uok u -> 0 <= addr -> addr + n <= 2 ^ 64 -> 0 <= i <= n ->
  exists i' bs, i <= i' <= n /\ bytes_at (ubyte u) (addr + i) (Z.to_nat (i' - i)) = Some bs /\
    let '(out, pi') := pipewrite pi u killed addr i n in
    pipe_ok pi' /\ same_ends pi pi' /\ queue pi' = queue pi ++ bs /\
    match out with
    | Sleep j wake on =>
        j = i' /\ wake = [NReadChan] /\ on = NWriteChan /\ i' < n /\
        length (queue pi') = 512%nat /\ readopen pi' <> 0
    | Return r wake =>
        (r = i' /\ wake = [NReadChan] /\ (i' = n \/ ubyte u (addr + i') = None)) \/
        (r = -1 /\ wake = [] /\ i' < n /\ (readopen pi' = 0 \/ killed i' = true))
    end.
Proof.
  intros Hok Hu Ha Han Hi. unfold pipewrite.
  destruct (pipewrite_loop_spec u killed addr n Hu Ha Han (Z.to_nat (n - i)) pi i Hok Hi ltac:(lia))
    as (e & i' & pi' & bs & -> & Hok' & Hs & Hi' & Hbs & Hq & Hx).
  exists i', bs. split; [done|]. split; [done|]. destruct e; cbn in Hx |- *.
  - split; [done|]. split; [done|]. split; [done|]. right. naive_solver.
  - split; [done|]. split; [done|]. split; [done|]. naive_solver.
  - split; [done|]. split; [done|]. split; [done|]. left. naive_solver.
  - split; [done|]. split; [done|]. split; [done|]. left. naive_solver.
Qed.

(** ** Runs of [piperead] *)

Lemma copyout_byte u va b : uok u -> 0 <= va < 2 ^ 64 -> 0 <= b < 256 ->
  exists r u', ucopyout va [b] u = (r, u') /\ uok u' /\
    ((r = 0 /\ forall a, 0 <= a -> ubyte u' a = if a =? va then Some b else ubyte u a) \/
     (r = -1 /\ forall a, 0 <= a -> ubyte u' a = ubyte u a)).
Proof.
  intros Hu Hva Hb. destruct (ucopyout_law va [b] u Hu Hva) as (k & r & u' & He & Hu' & Hr & Hm).
  { by apply Forall_singleton. }
  exists r, u'. split; [done|]. split; [done|]. cbn [length] in Hr. destruct Hr as [[-> ->]|[-> Hk]]; [left|right].
  - split; [done|]. intros a Ha. rewrite (Hm a Ha).
    destruct (Z.eqb_spec a va) as [Heq|], (Z.leb_spec va a), (Z.ltb_spec a (va + Z.of_nat 1));
      cbn [andb]; try lia; try done. by rewrite Heq, Z.sub_diag.
  - split; [done|]. intros a Ha. rewrite (Hm a Ha).
    destruct (Z.leb_spec va a), (Z.ltb_spec a (va + Z.of_nat k)); cbn [andb]; try lia; done.
Qed.

(** [bs] delivered at [va], nothing else changed. *)
Definition delivered (u u' : U) (va : Z) (bs : list Z) : Prop :=
  forall a, 0 <= a ->
    ubyte u' a = if (va <=? a) && (a <? va + Z.of_nat (length bs)) then bs !! Z.to_nat (a - va) else ubyte u a.

Lemma delivered_cons u u1 u2 va b bs : 0 <= va ->
  (forall a, 0 <= a -> ubyte u1 a = if a =? va then Some b else ubyte u a) ->
  delivered u1 u2 (va + 1) bs -> delivered u u2 va (b :: bs).
Proof.
  intros Hva H1 H2 a Ha. rewrite (H2 a Ha), (H1 a Ha). cbn [length].
  destruct (Z.eqb_spec a va) as [->|Hne].
  - destruct (Z.leb_spec (va + 1) va), (Z.leb_spec va va), (Z.ltb_spec va (va + Z.of_nat (S (length bs)))); try lia.
    cbn [andb]. by rewrite Z.sub_diag.
  - destruct (Z.leb_spec (va + 1) a), (Z.leb_spec va a), (Z.ltb_spec a (va + 1 + Z.of_nat (length bs))),
      (Z.ltb_spec a (va + Z.of_nat (S (length bs)))); cbn [andb]; try lia; try done.
    by replace (Z.to_nat (a - va)) with (S (Z.to_nat (a - (va + 1)))) by lia.
Qed.

Lemma delivered_bytes u u' va bs : 0 <= va -> delivered u u' va bs ->
  bytes_at (ubyte u') va (length bs) = Some bs.
Proof.
  revert u va. induction bs as [|b bs IH]; intros u va Hva H; [done|]. cbn [length bytes_at].
  rewrite (H va Hva). cbn [length].
  destruct (Z.leb_spec va va), (Z.ltb_spec va (va + Z.of_nat (S (length bs)))); try lia. cbn [andb].
  rewrite Z.sub_diag. cbn. rewrite (IH u' (va + 1)); [done|lia|]. intros a Ha.
  destruct (Z.leb_spec (va + 1) a), (Z.ltb_spec a (va + 1 + Z.of_nat (length bs))); cbn [andb]; try done.
  rewrite (H a Ha). cbn [length].
  destruct (Z.leb_spec va a), (Z.ltb_spec a (va + Z.of_nat (S (length bs)))); try lia. cbn [andb].
  by replace (Z.to_nat (a - va)) with (S (Z.to_nat (a - (va + 1)))) by lia.
Qed.

(** [lost]: the byte taken from the ring that could not be copied out. *)
Lemma piperead_loop_spec addr n : 0 <= addr -> addr + n <= 2 ^ 64 ->
  forall fuel pi u i, pipe_ok pi -> uok u -> 0 <= i <= n -> (Z.to_nat (n - i) <= fuel)%nat ->
  exists i' pi' u' bs lost, piperead_loop fuel pi u addr i n = (i', pi', u') /\
    pipe_ok pi' /\ uok u' /\ same_ends pi pi' /\ i' = i + Z.of_nat (length bs) /\ i' <= n /\
    queue pi = bs ++ lost ++ queue pi' /\ delivered u u' (addr + i) bs /\
    ((lost = [] /\ (i' = n \/ queue pi' = [])) \/ (length lost = 1%nat /\ i' < n)).
Proof.
  intros Ha Han. induction fuel as [|fuel IH]; intros pi u i Hok Hu Hi Hf; cbn [piperead_loop].
  - exists i, pi, u, [], []. cbn [length]. split_and!; try done; try lia; [|left; split; [done|lia]].
    intros a Haa. destruct (Z.leb_spec (addr + i) a), (Z.ltb_spec a (addr + i + Z.of_nat (length (@nil Z)))); cbn in *; done || lia.
  - assert (Hstop : (i = n \/ queue pi = []) ->
      exists i' pi' u' bs lost, (i, pi, u) = (i', pi', u') /\
        pipe_ok pi' /\ uok u' /\ same_ends pi pi' /\ i' = i + Z.of_nat (length bs) /\ i' <= n /\
        queue pi = bs ++ lost ++ queue pi' /\ delivered u u' (addr + i) bs /\
        ((lost = [] /\ (i' = n \/ queue pi' = [])) \/ (length lost = 1%nat /\ i' < n))).
    { intros Hq. exists i, pi, u, [], []. cbn [length]. split_and!; try done; try lia; [|by left].
      intros a Haa. destruct (Z.leb_spec (addr + i) a), (Z.ltb_spec a (addr + i + Z.of_nat (length (@nil Z)))); cbn in *; done || lia. }
    destruct (Z.ltb_spec i n) as [Hlt|]; [|apply Hstop; left; lia].
    rewrite empty_iff by done. destruct (Z.eqb_spec (qlen pi) 0) as [He|He].
    { apply Hstop. right. apply nil_length_inv. rewrite length_queue, He. done. }
    pose proof (queue_skip pi Hok He) as Hq. pose proof (skip_ok pi Hok He) as Hok1.
    rewrite u64_small by lia.
    destruct (copyout_byte u (addr + i) (next_byte pi) Hu) as (r & u1 & -> & Hu1 & Hr);
      [lia|by apply next_byte_range|].
    destruct Hr as [[-> Hb]|[-> Hb]]; cbn [Z.eqb].
    + destruct (IH (skip_byte pi) u1 (i + 1)) as (i' & pi' & u' & bs & lost & He' & Hok' & Hu' & [Hs1 Hs2] & Hi' & Hle & Hqq & Hd & Hx);
        [done|done|lia|lia|].
      exists i', pi', u', (next_byte pi :: bs), lost. split_and!; try done.
      * cbn [length]. lia.
      * rewrite Hq, Hqq. done.
      * apply (delivered_cons u u1 u'); [lia|done|]. by rewrite <- Z.add_assoc.
    + exists i, (skip_byte pi), u1, [], [next_byte pi]. split_and!; try done; try lia.
      * cbn [length]. lia.
      * intros a Haa. rewrite (Hb a Haa). cbn [length]. change (Z.of_nat 0) with 0.
        destruct (Z.leb_spec (addr + i) a), (Z.ltb_spec a (addr + i + 0)); cbn [andb]; done || lia.
      * right. auto.
Qed.

(** A run of [piperead] sleeps exactly on an empty pipe that still has a
    writer (unless the reader was killed); otherwise it returns the number of
    bytes it moved from the front of the queue to the user's buffer, stopping
    at [n] bytes or an empty queue, and wakes the writers.  A byte is dropped
    only if the user's buffer cannot take it. *)
Theorem piperead_delivers (pi : pipe) (u : U) (killed : bool) (addr n : Z) :
  pipe_ok pi -> uok u -> 0 <= addr -> 0 <= n -> addr + n <= 2 ^ 64 ->
  let '(out, pi', u') := piperead pi u killed addr n in
  pipe_ok pi' /\ uok u' /\ same_ends pi pi' /\
  match out with
  | Sleep _ wake on =>
      queue pi = [] /\ writeopen pi <> 0 /\ killed = false /\ pi' = pi /\ u' = u /\ wake = [] /\ on = NReadChan
  | Return r wake =>
      (r = -1 /\ queue pi = [] /\ writeopen pi <> 0 /\ killed = true /\ pi' = pi /\ u' = u) \/
      (wake = [NWriteChan] /\ exists bs lost, r = Z.of_nat (length bs) /\ r <= n /\
         queue pi = bs ++ lost ++ queue pi' /\ delivered u u' addr bs /\
         ((lost = [] /\ (r = n \/ queue pi' = [])) \/ (length lost = 1%nat /\ r < n)))
  end.
Proof.
  intros Hok Hu Ha Hn Han. unfold piperead. rewrite empty_iff by done.
  assert (Hq : forall b, (qlen pi =? 0) && b = true -> queue pi = []).
  { intros b [H%Z.eqb_eq _]%andb_prop. apply nil_length_inv. by rewrite length_queue, H. }
  destruct ((qlen pi =? 0) && negb (writeopen pi =? 0)) eqn:He; [destruct killed eqn:Hk|].
  - pose proof (Hq _ He) as Hq'. apply andb_prop in He as [_ Hw%negb_true_iff%Z.eqb_neq].
    split; [done|]. split; [done|]. split; [done|]. left. by split_and!.
  - pose proof (Hq _ He) as Hq'. apply andb_prop in He as [_ Hw%negb_true_iff%Z.eqb_neq].
    split; [done|]. split; [done|]. split; [done|]. by split_and!.
  - destruct (piperead_loop_spec addr n Ha Han (Z.to_nat n) pi u 0 Hok Hu ltac:(lia) ltac:(lia))
      as (i' & pi' & u' & bs & lost & -> & Hok' & Hu' & Hs & Hi' & Hle & Hqq & Hd & Hx).
    split; [done|]. split; [done|]. split; [done|]. right. split; [done|]. exists bs, lost.
    rewrite Z.add_0_r in Hd. split; [lia|]. auto.
Qed.

(** ** All runs together *)

(** A pipe with the bytes sent and taken so far, and whether somebody sleeps on
    either channel. *)
Record psys := mkpsys {
  pp : pipe;
  sent : list Z;
  taken : list Z;
  rwait : bool;      (* a reader sleeps on &nread *)
  wwait : bool       (* a writer sleeps on &nwrite *)
}.

Definition wakes (l : list pchan) : bool * bool :=
  (existsb (fun c => match c with NReadChan => true | _ => false end) l,
   existsb (fun c => match c with NWriteChan => true | _ => false end) l).

(** The sleepers after a run that ended with [out]. *)
Definition sleepers (st : psys) (out : outcome) : bool * bool :=
  match out with
  | Return _ l => (rwait st && negb (wakes l).1, wwait st && negb (wakes l).2)
  | Sleep _ l NReadChan => (true, wwait st && negb (wakes l).2)
  | Sleep _ l NWriteChan => (rwait st && negb (wakes l).1, true)
  end.

Definition count_of (out : outcome) : Z := match out with Return r _ => Z.max r 0 | Sleep _ _ _ => 0 end.

(** The bytes a read returned to its caller, and those it took but could not copy out. *)
Definition got_bytes (u' : U) (addr : Z) (out : outcome) : list Z :=
  default [] (bytes_at (ubyte u') addr (Z.to_nat (count_of out))).
Definition dropped (pi pi' : pipe) (got : list Z) : list Z :=
  drop (length got) (take (Z.to_nat (u32 (nread pi' - nread pi))) (queue pi)).

(** One run by any process; [calm] excludes a kill that arrives in the middle of a write. *)
Inductive pstep (calm : bool) : psys -> psys -> Prop :=
| ps_write st u killed addr i n e i' pi' out :
    uok u -> 0 <= addr -> addr + n <= 2 ^ 64 -> 0 <= i <= n ->
    (calm = true -> forall j, i <= j -> killed j = killed i) ->
    pipewrite_loop (Z.to_nat (n - i)) (pp st) u killed addr i n = (e, i', pi') ->
    pipewrite (pp st) u killed addr i n = (out, pi') ->
    pstep calm st (mkpsys pi' (sent st ++ default [] (bytes_at (ubyte u) (addr + i) (Z.to_nat (i' - i))))
      (taken st) (sleepers st out).1 (sleepers st out).2)
| ps_read st u u' killed addr n pi' out :
    uok u -> 0 <= addr -> 0 <= n -> addr + n <= 2 ^ 64 ->
    piperead (pp st) u killed addr n = (out, pi', u') ->
    pstep calm st (mkpsys pi' (sent st)
      (taken st ++ got_bytes u' addr out ++ dropped (pp st) pi' (got_bytes u' addr out))
      (sleepers st out).1 (sleepers st out).2)
| ps_close st writable pi' c fr :
    pipeclose (pp st) writable = (pi', c, fr) ->
    pstep calm st (mkpsys pi' (sent st) (taken st)
      (sleepers st (Return 0 [c])).1 (sleepers st (Return 0 [c])).2).

Definition psys0 : psys := mkpsys new_pipe [] [] false false.

Definition fifo_ok (st : psys) : Prop := pipe_ok (pp st) /\ sent st = taken st ++ queue (pp st).

(** A sleeping reader has nothing to read and a sleeping writer no room. *)
Definition ready_ok (st : psys) : Prop :=
  (rwait st = true -> queue (pp st) = [] /\ writeopen (pp st) <> 0) /\
  (wwait st = true -> length (queue (pp st)) = 512%nat /\ readopen (pp st) <> 0).

Lemma new_pipe_ok : pipe_ok new_pipe.
Proof.
  split; cbn [new_pipe data nread nwrite]; try lia; [by rewrite length_replicate| |done].
  apply Forall_replicate. lia.
Qed.

(** The reader's counter advances by the bytes that left the queue. *)
Lemma advance_spec addr n : forall fuel pi u i i' pi' u',
  piperead_loop fuel pi u addr i n = (i', pi', u') -> nwrite pi' = nwrite pi.
Proof.
  induction fuel as [|fuel IH]; intros pi u i i' pi' u'; cbn [piperead_loop]; [by intros [= <- <- <-]|].
  destruct (i <? n); [|by intros [= <- <- <-]]. destruct (nread pi =? nwrite pi); [by intros [= <- <- <-]|].
  destruct (ucopyout _ _ u) as [r u1]. destruct (r =? -1); [by intros [= <- <- <-]|].
  intros H. by apply IH in H.
Qed.

Lemma advance_qlen pi pi' : pipe_ok pi -> pipe_ok pi' -> nwrite pi' = nwrite pi -> qlen pi' <= qlen pi ->
  Z.to_nat (u32 (nread pi' - nread pi)) = (length (queue pi) - length (queue pi'))%nat.
Proof.
  intros Hok Hok' Hw Hle. rewrite !length_queue. pose proof (qlen_range pi Hok). pose proof (qlen_range pi' Hok').
  assert (Hs : u32 (nread pi' - nread pi) = qlen pi - qlen pi').
  { unfold qlen, rlen in *. rewrite Hw in *. unfold u32.
    replace (nread pi' - nread pi) with ((nwrite pi - nread pi) - (nwrite pi - nread pi')) by lia.
    rewrite Zminus_mod. apply Z.mod_small. lia. }
  rewrite Hs. lia.
Qed.

Lemma close_ends pi writable pi' c fr : pipeclose pi writable = (pi', c, fr) ->
  data pi' = data pi /\ nread pi' = nread pi /\ nwrite pi' = nwrite pi.
Proof. unfold pipeclose. destruct (negb (writable =? 0)); by intros [= <- <- <-]. Qed.

Lemma pipe_ok_close pi pi' : data pi' = data pi -> nread pi' = nread pi -> nwrite pi' = nwrite pi ->
  (pipe_ok pi -> pipe_ok pi') /\ queue pi' = queue pi.
Proof.
  intros Hd Hr Hw. assert (Hq : qlen pi' = qlen pi) by (unfold qlen; by rewrite Hr, Hw). split.
  - intros [? ? ? ? ?]. split; rewrite ?Hd, ?Hr, ?Hw, ?Hq; done.
  - unfold queue. by rewrite Hw, Hr, Hd.
Qed.

Lemma fifo_step calm st st' : pstep calm st st' -> fifo_ok st -> fifo_ok st'.
Proof.
  intros Hstep [Hok Hsent]. destruct Hstep as
    [st u killed addr i n e i' pi' out Hu Ha Han Hi _ Hl Hw|st u u' killed addr n pi' out Hu Ha Hn Han Hrd|st writable pi' c fr Hc].
  - destruct (pipewrite_loop_spec u killed addr n Hu Ha Han (Z.to_nat (n - i)) (pp st) i Hok Hi ltac:(lia))
      as (e2 & i2 & pi2 & bs & He & Hok' & _ & _ & Hbs & Hq & _).
    rewrite Hl in He. injection He as <- <- <-. split; cbn [pp sent taken]; [done|].
    rewrite Hbs. cbn [default]. by rewrite Hq, Hsent, app_assoc.
  - unfold piperead in Hrd. destruct ((nread (pp st) =? nwrite (pp st)) && _).
    { assert (pi' = pp st /\ count_of out = 0) as [-> H0] by (destruct killed; by injection Hrd as <- <- <-).
      split; cbn [pp sent taken]; [done|]. unfold got_bytes, dropped. rewrite H0, Z.sub_diag. cbn.
      by rewrite app_nil_r. }
    destruct (piperead_loop_spec addr n Ha Han (Z.to_nat n) (pp st) u 0 Hok Hu ltac:(lia) ltac:(lia))
      as (i2 & pi2 & u2 & bs & lost & He & Hok' & _ & _ & Hi' & _ & Hqq & Hd & _).
    pose proof (advance_spec _ _ _ _ _ _ _ _ _ He) as Hnw.
    rewrite He in Hrd. injection Hrd as <- <- <-. split; cbn [pp sent taken]; [done|].
    rewrite Z.add_0_r in Hd. unfold got_bytes, dropped. cbn [count_of]. rewrite Z.max_l by lia.
    replace (Z.to_nat i2) with (length bs) by lia. rewrite (delivered_bytes u u2 addr bs Ha Hd). cbn [default].
    assert (Hlen : (length (queue pi2) <= length (queue (pp st)))%nat) by (rewrite Hqq, !length_app; lia).
    rewrite advance_qlen; [|done|done|done|].
    2: { rewrite !length_queue in Hlen. pose proof (qlen_range _ Hok). pose proof (qlen_range _ Hok'). lia. }
    rewrite Hqq, !length_app, Hsent, Hqq.
    replace (length bs + (length lost + length (queue pi2)) - length (queue pi2))%nat with (length (bs ++ lost))
      by (rewrite length_app; lia).
    rewrite (app_assoc bs lost), take_app_length, drop_app_length. by rewrite <- !app_assoc.
  - destruct (close_ends _ _ _ _ _ Hc) as (Hd & Hr & Hw). destruct (pipe_ok_close _ _ Hd Hr Hw) as [Hk Hq].
    split; cbn [pp sent taken]; [auto|]. by rewrite Hq.
Qed.

(** C28: over every interleaving of reads, writes and closes by any number of processes, the bytes
    taken out of the pipe followed by the bytes in its ring are exactly the
    bytes sent, in order; at most 512 are in flight. *)
Theorem pipe_is_fifo (calm : bool) (st : psys) :
  rtc (pstep calm) psys0 st ->
  sent st = taken st ++ queue (pp st) /\ (length (queue (pp st)) <= 512)%nat.
Proof.
  intros Hr. assert (H : fifo_ok st).
  { assert (H0 : fifo_ok psys0) by (split; [apply new_pipe_ok|done]).
    revert H0. induction Hr as [|? ? ? Hs _ IH]; [done|]. intros H0. by eapply IH, fifo_step. }
  destruct H as [Hok Hs]. split; [done|]. rewrite length_queue. pose proof (qlen_range _ Hok). lia.
Qed.

Lemma ready_step st st' : pstep true st st' -> fifo_ok st -> ready_ok st -> ready_ok st'.
Proof.
  intros Hstep [Hok _] [Hrd Hwr]. destruct Hstep as
    [st u killed addr i n e i' pi' out Hu Ha Han Hi Hcalm Hl Hw|st u u' killed addr n pi' out Hu Ha Hn Han Hr|st writable pi' c fr Hc].
  - destruct (pipewrite_loop_spec u killed addr n Hu Ha Han (Z.to_nat (n - i)) (pp st) i Hok Hi ltac:(lia))
      as (e2 & i2 & pi2 & bs & He & Hok' & [Hs1 Hs2] & Hi' & Hbs & Hq & Hx).
    unfold pipewrite in Hw. rewrite He in Hl, Hw. injection Hl as -> -> ->.
    assert (Hstill : wwait st = true -> length (queue pi') = 512%nat /\ readopen pi' <> 0).
    { intros Hf. destruct (Hwr Hf) as [Hlen Hro]. rewrite Hs1. split; [|done].
      assert (Hm : (length (queue pi') <= 512)%nat) by (rewrite length_queue; pose proof (qlen_range _ Hok'); lia).
      assert (He2 : length (queue pi') = (length (queue (pp st)) + length bs)%nat) by (by rewrite Hq, length_app). lia. }
    destruct e; injection Hw as <-; unfold ready_ok; cbn in Hx |- *.
    + (* nothing was written *)
      assert (i' = i) as ->.
      { destruct Hx as [Hlt Hx]. destruct (Z.eq_dec i' i); [done|exfalso].
        assert (Hki : killed i = true \/ readopen (pp st) = 0).
        { destruct Hx as [Hx|Hx]; [right; congruence|left]. rewrite <- (Hcalm eq_refl i') by lia. done. }
        destruct (Z.to_nat (n - i)) as [|f] eqn:Hf; [lia|]. cbn [pipewrite_loop] in He.
        destruct (Z.ltb_spec i n); [|lia].
        assert (Hb : (readopen (pp st) =? 0) || killed i = true).
        { destruct Hki as [->| ->]; [apply orb_true_r|done]. }
        rewrite Hb in He. by injection He. }
      rewrite Z.sub_diag in Hbs. injection Hbs as <-. rewrite app_nil_r in Hq.
      split; cbn; intros [Hf _]%andb_prop; rewrite Hq, ?Hs1, ?Hs2; auto.
    + split; intros Hf; [by rewrite andb_false_r in Hf|]. naive_solver.
    + split; [intros Hf; by rewrite andb_false_r in Hf|]. rewrite andb_true_r. auto.
    + split; [intros Hf; by rewrite andb_false_r in Hf|]. rewrite andb_true_r. auto.
  - unfold piperead in Hr. rewrite empty_iff in Hr by done.
    destruct (Z.eqb_spec (qlen (pp st)) 0) as [He|He]; cbn [andb] in Hr.
    + assert (Hnil : queue (pp st) = []) by (apply nil_length_inv; by rewrite length_queue, He).
      assert (Hnow : wwait st = false).
      { destruct (wwait st) eqn:Hww; [|done]. destruct (Hwr eq_refl) as [Hc _]. by rewrite Hnil in Hc. }
      destruct (Z.eqb_spec (writeopen (pp st)) 0) as [Hwo|Hwo]; cbn [negb] in Hr.
      * destruct (piperead_loop_spec addr n Ha Han (Z.to_nat n) (pp st) u 0 Hok Hu ltac:(lia) ltac:(lia))
          as (i2 & pi2 & u2 & bs & lost & He' & Hok' & _ & [Hs1 Hs2] & _ & _ & Hqq & _).
        rewrite He' in Hr. injection Hr as <- <- <-. rewrite Hnil in Hqq.
        symmetry in Hqq. apply app_nil in Hqq as [_ [_ Hq2]%app_nil].
        split; cbn; [|by rewrite Hnow]. rewrite andb_true_r. intros Hf. destruct (Hrd Hf) as [_ Hc]. done.
      * destruct killed; injection Hr as <- <- <-; split; cbn; rewrite ?Hnow; try done.
    + destruct (piperead_loop_spec addr n Ha Han (Z.to_nat n) (pp st) u 0 Hok Hu ltac:(lia) ltac:(lia))
        as (i2 & pi2 & u2 & bs & lost & He' & Hok' & _ & [Hs1 Hs2] & _ & _ & Hqq & _).
      rewrite He' in Hr. injection Hr as <- <- <-. split; cbn; [|by rewrite andb_false_r].
      rewrite andb_true_r. intros Hf. destruct (Hrd Hf) as [Hc _]. rewrite Hc in Hqq.
      symmetry in Hqq. apply app_nil in Hqq as [_ [_ Hq2]%app_nil]. rewrite Hs2. split; [done|]. by apply Hrd.
  - destruct (close_ends _ _ _ _ _ Hc) as (Hd & Hr & Hw). destruct (pipe_ok_close _ _ Hd Hr Hw) as [_ Hq].
    unfold pipeclose in Hc. destruct (negb (writable =? 0)); injection Hc as <- <- <-; split; cbn in *;
      rewrite ?andb_true_r, ?andb_false_r, ?Hq; try done; auto.
Qed.

(** C39: Without kills in the middle of a write, nobody ever sleeps on a pipe
    that is ready, however reads, writes and closes of both ends interleave: a sleeping reader means an empty pipe with a live write end,
    a sleeping writer a full pipe with a live read end. *)
Theorem pipe_no_lost_wakeup (st : psys) :
  rtc (pstep true) psys0 st ->
  (rwait st = true -> queue (pp st) = [] /\ writeopen (pp st) <> 0) /\
  (wwait st = true -> length (queue (pp st)) = 512%nat /\ readopen (pp st) <> 0).
Proof.
  intros Hr. assert (H0 : fifo_ok psys0 /\ ready_ok psys0)
    by (split; [split; [apply new_pipe_ok|done]|done]).
  revert H0. induction Hr as [st|x y z Hs _ IH]; intros [Hf Hk]; [exact Hk|]. apply IH.
  split; [by eapply fifo_step|by eapply ready_step].
Qed.

End PipeOps.

(** A writer killed in the middle of a write returns without waking the
    reader: three bytes are in the pipe and the reader still sleeps. *)
Theorem pipe_kill_loses_wakeup :
  exists st : psys, rtc (pstep (U := list Z) false) psys0 st /\
    rwait st = true /\ queue (pp st) = [120; 118; 54].
Proof.
  eexists. split; [|split].
  - eapply rtc_l.
    { apply (ps_read (U := list Z) false psys0 (replicate 8 0) (replicate 8 0) false 0 4 new_pipe (Sleep 0 [] NReadChan)); [|lia|lia|lia|reflexivity].
      by apply Forall_replicate. }
    eapply rtc_l; [|apply rtc_refl].
    apply (ps_write (U := list Z) false _ [120; 118; 54; 0] (fun j => 3 <=? j) 0 0 4 WClosed 3
      (put_byte (put_byte (put_byte new_pipe 120) 118) 54) (Return (-1) []));
      [solve_bytes|lia|lia|lia|done|reflexivity|reflexivity].
  - reflexivity.
  - reflexivity.
Qed.

(** ** Concrete instances *)

Lemma pipewrite_appends_witness :
  let '(out, pi') := pipewrite (U := list Z) new_pipe [104; 105] (fun _ => false) 0 0 2 in
  out = Return 2 [NReadChan] /\ queue pi' = [104; 105].
Proof.
  assert (Hu : uok (U := list Z) [104; 105]) by solve_bytes.
  destruct (pipewrite_appends (U := list Z) new_pipe [104; 105] (fun _ => false) 0 0 2 new_pipe_ok
    Hu ltac:(lia) ltac:(lia) ltac:(lia)) as (i' & bs & _ & _ & H).
  destruct (pipewrite _ _ _ _ _ _) as [out pi'] eqn:He. vm_compute in He. injection He as <- <-.
  destruct H as (_ & _ & _ & Hr). split; reflexivity.
Defined.

Definition hi_pipe : pipe := put_byte (put_byte new_pipe 104) 105.
Lemma hi_pipe_ok : pipe_ok hi_pipe.
Proof. apply put_ok; [apply put_ok; [apply new_pipe_ok|done|lia]|done|lia]. Qed.

Lemma piperead_delivers_witness :
  let '(out, pi', u') := piperead (U := list Z) hi_pipe [0; 0; 0] false 1 2 in
  out = Return 2 [NWriteChan] /\ queue pi' = [] /\ u' = [0; 104; 105].
Proof.
  assert (Hu : uok (U := list Z) [0; 0; 0]) by solve_bytes.
  pose proof (piperead_delivers (U := list Z) hi_pipe [0; 0; 0] false 1 2 hi_pipe_ok
    Hu ltac:(lia) ltac:(lia) ltac:(lia)) as H.
  destruct (piperead _ _ _ _ _) as [[out pi'] u'] eqn:He. vm_compute in He. injection He as <- <- <-.
  destruct H as (_ & _ & _ & Hr). split; [reflexivity|]. split; reflexivity.
Defined.

Lemma pipe_is_fifo_witness :
  exists st : psys, rtc (pstep (U := list Z) true) psys0 st /\ sent st = [104; 105] /\
    sent st = taken st ++ queue (pp st).
Proof.
  exists (mkpsys hi_pipe [104; 105] [] false false).
  assert (Hr : rtc (pstep (U := list Z) true) psys0 (mkpsys hi_pipe [104; 105] [] false false)).
  { apply rtc_once.
    assert (Hu : uok (U := list Z) [104; 105]) by solve_bytes.
    exact (ps_write (U := list Z) true psys0 [104; 105] (fun _ => false) 0 0 2 WAll 2 hi_pipe (Return 2 [NReadChan])
      Hu ltac:(lia) ltac:(lia) ltac:(lia) (fun _ _ _ => eq_refl) eq_refl eq_refl). }
  split; [exact Hr|]. split; [reflexivity|]. apply (pipe_is_fifo (U := list Z) true _ Hr).
Defined.

Lemma pipe_no_lost_wakeup_witness :
  exists st : psys, rtc (pstep (U := list Z) true) psys0 st /\ rwait st = true /\ queue (pp st) = [].
Proof.
  exists (mkpsys new_pipe [] [] true false).
  assert (Hr : rtc (pstep (U := list Z) true) psys0 (mkpsys new_pipe [] [] true false)).
  { apply rtc_once.
    assert (Hu : uok (U := list Z) (replicate 8 0)) by solve_bytes.
    exact (ps_read (U := list Z) true psys0 (replicate 8 0) (replicate 8 0) false 0 4 new_pipe (Sleep 0 [] NReadChan)
      Hu ltac:(lia) ltac:(lia) ltac:(lia) eq_refl). }
  split; [exact Hr|]. split; [reflexivity|].
  apply (pipe_no_lost_wakeup (U := list Z) _ Hr). reflexivity.
Defined.
