(* ===== verification/Console.v ===== *)
(** * Console and UART: [kernel/console.c] and [kernel/uart.c]

    The console input buffer holds committed bytes (between [cons.r] and
    [cons.w]) and the line being edited (between [cons.w] and [cons.e]) in one
    ring of 128 bytes; the UART output buffer is a ring of 32 bytes.  Echoed
    characters and process listings are events in a trace, the UART's status
    register is an input (the answers of successive reads of its idle bit), and
    bytes written to its transmit register are a trace.

    Theorems: the interrupt handler implements a line discipline on lists, a
    read delivers at most one line, and the UART sends exactly the bytes
    accepted, in order. *)

From S2P Require Import Prelude CString Kalloc Vm UserMem Ring.

Definition INPUT_BUF_SIZE : Z := 128.
Definition BACKSPACE : Z := 0x100.
(** [C(x)]: the control characters the console uses. *)
Definition Ctrl_D : Z := 4.
Definition Ctrl_H : Z := 8.
Definition Ctrl_P : Z := 16.
Definition Ctrl_U : Z := 21.
Definition DEL : Z := 127.
Definition NL : Z := 10.
Definition CR : Z := 13.

Inductive event :=
| Echo (c : Z)        (* uartputc_sync(c) *)
| Procdump.           (* procdump() *)

Definition consputc (c : Z) : list event :=
  if c =? BACKSPACE then [Echo 8; Echo 32; Echo 8] else [Echo (u8 c)].

(** [cons], [kbd_intr_count] and the trace, latest event last. *)
Record cons := mkcons {
  cbuf : list Z;
  cons_r : Z;
  cons_w : Z;
  cons_e : Z;
  kbd_intr_count : Z;
  trace : list event
}.

Definition cons0 : cons := mkcons (replicate 128 0) 0 0 0 0 [].

Definition set_e (c : cons) (e : Z) (ev : list event) : cons :=
  mkcons (cbuf c) (cons_r c) (cons_w c) e (kbd_intr_count c) (trace c ++ ev).

(** [cons.buf[(cons.e-1) % INPUT_BUF_SIZE]] *)
Definition last_edit (c : cons) : Z :=
  nth (Z.to_nat (u32 (cons_e c - 1) mod INPUT_BUF_SIZE)) (cbuf c) 0.

(** The loop of control-U; at most one iteration per edited byte. *)
Fixpoint kill_line (fuel : nat) (c : cons) : cons :=
  match fuel with
  | O => c
  | S fuel' =>
      if negb (cons_e c =? cons_w c) && negb (last_edit c =? NL)
      then kill_line fuel' (set_e c (u32 (cons_e c - 1)) (consputc BACKSPACE))
      else c
  end.

(** The default case: the new state and whether readers are woken. *)
Definition input_char (c : cons) (ch : Z) : cons * bool :=
  if negb (ch =? 0) && (u32 (cons_e c - cons_r c) <? INPUT_BUF_SIZE) then
    let ch := if ch =? CR then NL else ch in
    let buf := <[Z.to_nat (cons_e c mod INPUT_BUF_SIZE) := u8 ch]> (cbuf c) in
    let e := u32 (cons_e c + 1) in
    let full := (ch =? NL) || (ch =? Ctrl_D) || (u32 (e - cons_r c) =? INPUT_BUF_SIZE) in
    (mkcons buf (cons_r c) (if full then e else cons_w c) e (kbd_intr_count c)
       (trace c ++ consputc ch), full)
  else (c, false).

Definition consoleintr (c : cons) (ch : Z) : cons * bool :=
  let c := mkcons (cbuf c) (cons_r c) (cons_w c) (cons_e c) (s32 (kbd_intr_count c + 1)) (trace c) in
  if ch =? Ctrl_P then (set_e c (cons_e c) [Procdump], false)
  else if ch =? Ctrl_U then (kill_line (Z.to_nat (u32 (cons_e c - cons_w c))) c, false)
  else if (ch =? Ctrl_H) || (ch =? DEL) then
    (if negb (cons_e c =? cons_w c) then set_e c (u32 (cons_e c - 1)) (consputc BACKSPACE) else c, false)
  else input_char c ch.

(** ** Reading *)

Section Read.
Context {U : Type} `{!UserMem U}.

(** The end of a run of [consoleread]: a result, or sleep with [n] bytes left
    to store at [dst]. *)
Inductive routcome := RReturn (r : Z) | RSleep (dst n : Z).

Definition set_r (c : cons) (r : Z) : cons :=
  mkcons (cbuf c) r (cons_w c) (cons_e c) (kbd_intr_count c) (trace c).

(** [consoleread] with [n] of [target] bytes left, from its start or a wakeup. *)
Fixpoint consoleread (fuel : nat) (c : cons) (um : U * mem) (killed user_dst : bool) (dst n target : Z)
    : routcome * cons * (U * mem) :=
  match fuel with
  | O => (RReturn (target - n), c, um)
  | S fuel' =>
      if n >? 0 then
        if cons_r c =? cons_w c then
          if killed then (RReturn (-1), c, um) else (RSleep dst n, c, um)
        else
          let ch := nth (Z.to_nat (cons_r c mod INPUT_BUF_SIZE)) (cbuf c) 0 in
          let c1 := set_r c (u32 (cons_r c + 1)) in
          if ch =? Ctrl_D then
            (RReturn (target - n), if n <? target then set_r c1 (u32 (cons_r c1 - 1)) else c1, um)
          else
            let '(r, um') := either_copyout user_dst dst [ch] um in
            if r =? -1 then (RReturn (target - n), c1, um')
            else if ch =? NL then (RReturn (target - (n - 1)), c1, um')
            else consoleread fuel' c1 um' killed user_dst (u64 (dst + 1)) (n - 1) target
      else (RReturn (target - n), c, um)
  end.

End Read.

(** ** The line discipline *)

(** Committed bytes and the line being edited. *)
Definition ready (c : cons) : list Z := rqueue INPUT_BUF_SIZE (2 ^ 32) (cbuf c) (cons_r c) (cons_w c).
Definition edit (c : cons) : list Z := rqueue INPUT_BUF_SIZE (2 ^ 32) (cbuf c) (cons_w c) (cons_e c).

Definition is_eol (b : Z) : bool := (b =? NL) || (b =? Ctrl_D).

Record cons_ok (c : cons) : Prop := {
  ck_len : length (cbuf c) = 128%nat;
  ck_bytes : Forall (fun b => 0 <= b < 256) (cbuf c);
  ck_r : 0 <= cons_r c < 2 ^ 32;
  ck_w : 0 <= cons_w c < 2 ^ 32;
  ck_e : 0 <= cons_e c < 2 ^ 32;
  ck_cap : rlen (2 ^ 32) (cons_r c) (cons_w c) + rlen (2 ^ 32) (cons_w c) (cons_e c) <= 128;
  ck_edit : Forall (fun b => is_eol b = false) (edit c)
}.

(** What a character does to the committed and edited bytes. *)
Definition line_discipline (ch : Z) (rd ed : list Z) : list Z * list Z :=
  if ch =? Ctrl_P then (rd, ed)
  else if ch =? Ctrl_U then (rd, [])
  else if (ch =? Ctrl_H) || (ch =? DEL) then (rd, take (length ed - 1) ed)
  else if negb (ch =? 0) && (Z.of_nat (length rd + length ed) <? 128) then
    let ch := if ch =? CR then NL else ch in
    if is_eol ch || (Z.of_nat (length rd + length ed) =? 127)
    then (rd ++ ed ++ [ch], []) else (rd, ed ++ [ch])
  else (rd, ed).

Lemma cdivides : (INPUT_BUF_SIZE | 2 ^ 32).
Proof. by exists (2 ^ 25). Qed.

Abbreviation len r w := (rlen (2 ^ 32) r w).

Lemma len_range r w : 0 <= len r w < 2 ^ 32.
Proof. by apply (rlen_range INPUT_BUF_SIZE (2 ^ 32)). Qed.

Lemma length_ready c : length (ready c) = Z.to_nat (len (cons_r c) (cons_w c)).
Proof. apply length_rqueue. Qed.
Lemma length_edit c : length (edit c) = Z.to_nat (len (cons_w c) (cons_e c)).
Proof. apply length_rqueue. Qed.

Lemma cap_total c : cons_ok c ->
  len (cons_r c) (cons_e c) = len (cons_r c) (cons_w c) + len (cons_w c) (cons_e c) /\
  u32 (cons_e c - cons_r c) = len (cons_r c) (cons_e c).
Proof.
  intros Hok. pose proof (ck_cap c Hok). split; [|done].
  apply (rlen_split INPUT_BUF_SIZE (2 ^ 32)); done || lia.
Qed.

(** Erasing the last edited byte. *)
Lemma erase_ok c ev : cons_ok c -> edit c <> [] ->
  let c' := set_e c (u32 (cons_e c - 1)) ev in
  cons_ok c' /\ ready c' = ready c /\ edit c = edit c' ++ [last_edit c].
Proof.
  intros Hok Hne c'.
  assert (Hpos : 0 < len (cons_w c) (cons_e c)).
  { pose proof (len_range (cons_w c) (cons_e c)).
    destruct (Z.eq_dec (len (cons_w c) (cons_e c)) 0) as [He|]; [|lia].
    destruct Hne. by apply (rqueue_nil INPUT_BUF_SIZE (2 ^ 32)). }
  assert (He : edit c = edit c' ++ [last_edit c]).
  { unfold edit, c', set_e, last_edit, u32. cbn [cbuf cons_w cons_e].
    rewrite (rqueue_unput INPUT_BUF_SIZE (2 ^ 32)) at 1; try done; [|apply cdivides].
    do 3 f_equal. f_equal. symmetry. apply (mod_W_N INPUT_BUF_SIZE (2 ^ 32)); done || apply cdivides. }
  assert (Hl : len (cons_w c) (u32 (cons_e c - 1)) = len (cons_w c) (cons_e c) - 1).
  { apply (rlen_add (2 ^ 32) _ _ (-1)); pose proof (len_range (cons_w c) (cons_e c)); lia. }
  split; [|done]. destruct Hok as [H1 H2 H3 H4 H5 H6 H7].
  split; unfold c', set_e; cbn [cbuf cons_r cons_w cons_e]; try done; [apply u32_range|lia|].
  rewrite He in H7. by apply Forall_app in H7 as [H7 _].
Qed.

Lemma last_edit_not_eol c : cons_ok c -> edit c <> [] -> (last_edit c =? NL) = false.
Proof.
  intros Hok Hne. destruct (erase_ok c [] Hok Hne) as (_ & _ & He).
  pose proof (ck_edit c Hok) as HF. rewrite He in HF. apply Forall_app in HF as [_ [HF _]%Forall_cons].
  unfold is_eol in HF. by apply orb_false_elim in HF as [HF _].
Qed.

Lemma edit_empty c : cons_ok c -> (cons_e c =? cons_w c) = bool_decide (edit c = []).
Proof.
  intros Hok. rewrite (empty_test_wr INPUT_BUF_SIZE (2 ^ 32)); try done; [|apply Hok..].
  pose proof (rqueue_nil INPUT_BUF_SIZE (2 ^ 32) ltac:(done) ltac:(done) (cbuf c) (cons_w c) (cons_e c)) as Hn.
  unfold edit. destruct (Z.eqb_spec (len (cons_w c) (cons_e c)) 0) as [He|He].
  - symmetry. apply bool_decide_eq_true. tauto.
  - symmetry. apply bool_decide_eq_false. tauto.
Qed.

Lemma kill_line_ok fuel : forall c, cons_ok c -> (length (edit c) <= fuel)%nat ->
  cons_ok (kill_line fuel c) /\ ready (kill_line fuel c) = ready c /\ edit (kill_line fuel c) = [].
Proof.
  induction fuel as [|fuel IH]; intros c Hok Hf; cbn [kill_line].
  - split; [done|]. split; [done|]. apply nil_length_inv. lia.
  - rewrite edit_empty by done. case_bool_decide as Hn; cbn [negb andb]; [done|].
    rewrite last_edit_not_eol by done. cbn [negb].
    destruct (erase_ok c (consputc BACKSPACE) Hok Hn) as (Hok' & Hr & He).
    destruct (IH _ Hok') as (H1 & H2 & H3).
    { apply (f_equal length) in He. rewrite length_app in He. cbn [length] in He. lia. }
    split; [done|]. by rewrite H2.
Qed.

Lemma kill_line_count fuel : forall c, kbd_intr_count (kill_line fuel c) = kbd_intr_count c.
Proof.
  induction fuel as [|fuel IH]; intros c; cbn [kill_line]; [done|]. destruct (_ && _); [|done]. by rewrite IH.
Qed.

(** Storing a character at the edit index. *)
Lemma store_edit c b :
  cons_ok c -> len (cons_r c) (cons_w c) + len (cons_w c) (cons_e c) < 128 ->
  let buf := <[Z.to_nat (cons_e c mod INPUT_BUF_SIZE) := b]> (cbuf c) in
  rqueue INPUT_BUF_SIZE (2 ^ 32) buf (cons_r c) (cons_w c) = ready c /\
  rqueue INPUT_BUF_SIZE (2 ^ 32) buf (cons_w c) (u32 (cons_e c + 1)) = edit c ++ [b] /\
  rqueue INPUT_BUF_SIZE (2 ^ 32) buf (cons_r c) (u32 (cons_e c + 1)) = ready c ++ edit c ++ [b] /\
  len (cons_w c) (u32 (cons_e c + 1)) = len (cons_w c) (cons_e c) + 1 /\
  u32 (u32 (cons_e c + 1) - cons_r c) = len (cons_r c) (cons_w c) + len (cons_w c) (cons_e c) + 1.
Proof.
  intros Hok Hcap buf. destruct (cap_total c Hok) as [Htot _].
  pose proof (len_range (cons_r c) (cons_w c)) as H1. pose proof (len_range (cons_w c) (cons_e c)) as H2.
  assert (Hidx : cons_e c mod INPUT_BUF_SIZE = (cons_r c + len (cons_r c) (cons_e c)) mod INPUT_BUF_SIZE).
  { pose proof (w_index INPUT_BUF_SIZE (2 ^ 32) ltac:(done) ltac:(done) cdivides (cons_r c) (cons_e c) 0) as H0.
    by rewrite !Z.add_0_r in H0. }
  assert (Hready : rqueue INPUT_BUF_SIZE (2 ^ 32) buf (cons_r c) (cons_w c) = ready c).
  { unfold buf. rewrite Hidx. apply (rqueue_insert INPUT_BUF_SIZE (2 ^ 32)); try done. unfold INPUT_BUF_SIZE. lia. }
  assert (Hedit : rqueue INPUT_BUF_SIZE (2 ^ 32) buf (cons_w c) (u32 (cons_e c + 1)) = edit c ++ [b]).
  { apply (rqueue_put INPUT_BUF_SIZE (2 ^ 32)); try done; [apply cdivides|apply Hok|unfold INPUT_BUF_SIZE; lia]. }
  assert (Hl : len (cons_w c) (u32 (cons_e c + 1)) = len (cons_w c) (cons_e c) + 1) by (apply (rlen_add (2 ^ 32)); lia).
  split; [done|]. split; [done|]. split; [|split; [done|]].
  - rewrite (rqueue_split INPUT_BUF_SIZE (2 ^ 32)) with (w := cons_w c); try done; [|apply cdivides|lia].
    by rewrite Hready, Hedit.
  - change (u32 (u32 (cons_e c + 1) - cons_r c)) with (len (cons_r c) (u32 (cons_e c + 1))).
    rewrite (rlen_split INPUT_BUF_SIZE (2 ^ 32)) with (w := cons_w c); try done; lia.
Qed.

Lemma input_char_ok c ch : cons_ok c -> 0 <= ch < 256 ->
  ch <> Ctrl_P -> ch <> Ctrl_U -> ch <> Ctrl_H -> ch <> DEL ->
  let '(c', woken) := input_char c ch in
  cons_ok c' /\ (ready c', edit c') = line_discipline ch (ready c) (edit c) /\
  (woken = true <-> ready c' <> ready c).
Proof.
  intros Hok Hch HP HU HH HD. unfold input_char, line_discipline.
  apply Z.eqb_neq in HP, HU, HH, HD. rewrite HP, HU, HH, HD. cbn [orb].
  destruct (cap_total c Hok) as [Htot Hu]. rewrite Hu, Htot.
  pose proof (len_range (cons_r c) (cons_w c)) as H1. pose proof (len_range (cons_w c) (cons_e c)) as H2.
  assert (Hlen : Z.of_nat (length (ready c) + length (edit c)) =
                 len (cons_r c) (cons_w c) + len (cons_w c) (cons_e c)).
  { rewrite length_ready, length_edit. lia. }
  rewrite Hlen. unfold INPUT_BUF_SIZE at 1.
  destruct (negb (ch =? 0)) eqn:H0; cbn [andb]; [|done].
  destruct (Z.ltb_spec (len (cons_r c) (cons_w c) + len (cons_w c) (cons_e c)) 128) as [Hcap|Hcap]; [|done].
  set (b := if ch =? CR then NL else ch).
  assert (Hb : 0 <= b < 256) by (unfold b, NL; destruct (ch =? CR); lia).
  rewrite (u8_small b) by lia.
  destruct (store_edit c b Hok Hcap) as (Hr & He & Hre & Hl & Htot').
  rewrite Htot'. change ((b =? NL) || (b =? Ctrl_D)) with (is_eol b).
  replace (len (cons_r c) (cons_w c) + len (cons_w c) (cons_e c) + 1 =? INPUT_BUF_SIZE)
    with (len (cons_r c) (cons_w c) + len (cons_w c) (cons_e c) =? 127)
    by (unfold INPUT_BUF_SIZE; destruct (Z.eqb_spec (len (cons_r c) (cons_w c) + len (cons_w c) (cons_e c)) 127),
          (Z.eqb_spec (len (cons_r c) (cons_w c) + len (cons_w c) (cons_e c) + 1) 128); lia || done).
  assert (Hself : forall x buf, rqueue INPUT_BUF_SIZE (2 ^ 32) buf x x = [] /\ len x x = 0).
  { intros x buf. unfold rqueue, rlen. by rewrite Z.sub_diag. }
  pose proof Hok as [K1 K2 K3 K4 K5 K6 K7].
  destruct (is_eol b || (len (cons_r c) (cons_w c) + len (cons_w c) (cons_e c) =? 127)) eqn:Hfull.
  - split; [|split].
    + split; cbn [cbuf cons_r cons_w cons_e]; try done.
      * by rewrite length_insert.
      * by apply Forall_insert.
      * apply u32_range.
      * apply u32_range.
      * rewrite (proj2 (Hself _ [])). change (len (cons_r c) (u32 (cons_e c + 1))) with (u32 (u32 (cons_e c + 1) - cons_r c)). lia.
      * unfold edit. cbn [cbuf cons_w cons_e]. by rewrite (proj1 (Hself _ _)).
    + unfold ready, edit. cbn [cbuf cons_r cons_w cons_e]. by rewrite Hre, (proj1 (Hself _ _)).
    + split; [intros _|done]. unfold ready. cbn [cbuf cons_r cons_w]. rewrite Hre. intros Hc.
      apply (f_equal length) in Hc. rewrite !length_app in Hc. cbn in Hc. unfold ready in Hc. lia.
  - apply orb_false_elim in Hfull as [Hne _]. split; [|split].
    + split; cbn [cbuf cons_r cons_w cons_e]; try done.
      * by rewrite length_insert.
      * by apply Forall_insert.
      * apply u32_range.
      * lia.
      * unfold edit. cbn [cbuf cons_w cons_e]. rewrite He. apply Forall_app. split; [done|]. by apply Forall_singleton.
    + unfold ready, edit. cbn [cbuf cons_r cons_w cons_e]. by rewrite Hr, He.
    + split; [done|]. unfold ready. cbn [cbuf cons_r cons_w]. by rewrite Hr.
Qed.

(** C34: the console interrupt handler implements the line discipline: on
    the committed bytes and the line being edited it is exactly
    [line_discipline], for every input byte; it keeps the ring well formed
    (never more than 128 bytes, no line end in the edited line) and wakes
    readers exactly when it commits input. *)
Theorem consoleintr_line_discipline (c : cons) (ch : Z) :
  cons_ok c -> 0 <= ch < 256 ->
  let '(c', woken) := consoleintr c ch in
  cons_ok c' /\ (ready c', edit c') = line_discipline ch (ready c) (edit c) /\
  (woken = true <-> ready c' <> ready c) /\
  kbd_intr_count c' = s32 (kbd_intr_count c + 1).
Proof.
  intros Hok Hch. unfold consoleintr. set (c1 := mkcons _ _ _ _ _ _).
  assert (Hok1 : cons_ok c1) by (destruct Hok; by split).
  change (ready c) with (ready c1). change (edit c) with (edit c1).
  destruct (Z.eqb_spec ch Ctrl_P) as [HP|HP].
  { unfold line_discipline. rewrite HP. cbn [Z.eqb]. split; [destruct Hok1; by split|]. by split. }
  destruct (Z.eqb_spec ch Ctrl_U) as [HU|HU].
  { unfold line_discipline. rewrite HU. change (Ctrl_U =? Ctrl_P) with false. rewrite Z.eqb_refl.
    destruct (kill_line_ok (Z.to_nat (u32 (cons_e c1 - cons_w c1))) c1 Hok1) as (K1 & K2 & K3).
    { rewrite length_edit. done. }
    rewrite K2, K3. split; [done|]. split; [done|]. split; [done|]. apply kill_line_count. }
  destruct ((ch =? Ctrl_H) || (ch =? DEL)) eqn:HB.
  { unfold line_discipline. apply Z.eqb_neq in HP, HU. rewrite HP, HU, HB, edit_empty by done.
    case_bool_decide as Hn; cbn [negb].
    - rewrite Hn. split; [done|]. split; [done|]. done.
    - destruct (erase_ok c1 (consputc BACKSPACE) Hok1 Hn) as (K1 & K2 & K3). rewrite K2.
      split; [done|]. split; [|done]. f_equal. rewrite K3, length_app. cbn [length].
      rewrite Nat.add_sub. by rewrite take_app_length. }
  apply orb_false_elim in HB as [HH%Z.eqb_neq HD%Z.eqb_neq].
  pose proof (input_char_ok c1 ch Hok1 Hch HP HU HH HD) as H.
  assert (Hk : kbd_intr_count (input_char c1 ch).1 = s32 (kbd_intr_count c + 1)).
  { unfold input_char. by destruct (negb (ch =? 0) && _). }
  destruct (input_char c1 ch) as [c' woken]. destruct H as (H1 & H2 & H3).
  split; [done|]. split; [done|]. split; [exact H3|exact Hk].
Qed.

(** ** Reading lines *)

Section ReadFacts.
Context {U : Type} `{!UserMem U}.

(** Taking the first committed byte. *)
Lemma take_ready c : cons_ok c -> ready c <> [] ->
  let c1 := set_r c (u32 (cons_r c + 1)) in
  cons_ok c1 /\ edit c1 = edit c /\
  ready c = nth (Z.to_nat (cons_r c mod INPUT_BUF_SIZE)) (cbuf c) 0 :: ready c1.
Proof.
  intros Hok Hne c1. pose proof (len_range (cons_r c) (cons_w c)) as H1.
  assert (Hpos : 0 < len (cons_r c) (cons_w c)).
  { destruct (Z.eq_dec (len (cons_r c) (cons_w c)) 0) as [He|]; [|lia].
    destruct Hne. by apply (rqueue_nil INPUT_BUF_SIZE (2 ^ 32)). }
  assert (Hl : len (u32 (cons_r c + 1)) (cons_w c) = len (cons_r c) (cons_w c) - 1).
  { apply (rlen_adv INPUT_BUF_SIZE (2 ^ 32)); try done. lia. }
  destruct Hok as [K1 K2 K3 K4 K5 K6 K7]. split; [|split; [done|]].
  - split; unfold c1, set_r; cbn [cbuf cons_r cons_w cons_e]; try done; [apply u32_range|]. lia.
  - apply (rqueue_skip INPUT_BUF_SIZE (2 ^ 32)); try done. apply cdivides.
Qed.

Lemma ready_empty c : cons_ok c -> (cons_r c =? cons_w c) = bool_decide (ready c = []).
Proof.
  intros Hok. rewrite (empty_test INPUT_BUF_SIZE (2 ^ 32)); try done; [|apply Hok..].
  pose proof (rqueue_nil INPUT_BUF_SIZE (2 ^ 32) ltac:(done) ltac:(done) (cbuf c) (cons_r c) (cons_w c)) as Hn.
  unfold ready. destruct (Z.eqb_spec (len (cons_r c) (cons_w c)) 0) as [He|He].
  - symmetry. apply bool_decide_eq_true. tauto.
  - symmetry. apply bool_decide_eq_false. tauto.
Qed.

Lemma first_byte_range c : cons_ok c -> 0 <= nth (Z.to_nat (cons_r c mod INPUT_BUF_SIZE)) (cbuf c) 0 < 256.
Proof.
  intros Hok. pose proof (Z.mod_pos_bound (cons_r c) INPUT_BUF_SIZE ltac:(done)) as Hr.
  destruct (lookup_lt_is_Some_2 (cbuf c) (Z.to_nat (cons_r c mod INPUT_BUF_SIZE))) as [b Hb].
  { rewrite (ck_len c Hok). unfold INPUT_BUF_SIZE in *. lia. }
  rewrite (nth_lookup_Some _ _ _ _ Hb). pose proof (ck_bytes c Hok) as HF.
  rewrite Forall_lookup in HF. by apply (HF _ _ Hb).
Qed.

(** Undoing the increment of the read index. *)
Lemma unread c : cons_ok c ->
  set_r (set_r c (u32 (cons_r c + 1))) (u32 (u32 (cons_r c + 1) - 1)) = c.
Proof.
  intros [_ _ Hr _ _ _ _]. destruct c as [b r w e k t]. unfold set_r. cbn in *. f_equal.
  unfold u32. rewrite Zminus_mod_idemp_l. replace (r + 1 - 1) with r by lia. by apply Z.mod_small.
Qed.

(** The bytes of the queue [q] a read of at most [n] bytes takes: up to and
    including the first newline, stopping before a control-D. *)
Fixpoint read_line (q : list Z) (n : nat) : list Z :=
  match q, n with
  | b :: q', S n' =>
      if b =? Ctrl_D then [] else if b =? NL then [b] else b :: read_line q' n'
  | _, _ => []
  end.

(** Why a run stopped after taking [bs] of [q], with [n] bytes asked for. *)
Definition line_done (q bs : list Z) (n : Z) : Prop :=
  Z.of_nat (length bs) = n \/ last bs = Some NL \/ exists rest, q = bs ++ Ctrl_D :: rest.

(** What a run of [consoleread] from [c] with [n] of [target] bytes left to
    deliver ends in, having delivered [bs]. *)
Definition read_outcome (killed : bool) (target : Z) (c : cons) (dst n : Z) (out : routcome) (c' : cons) (bs : list Z) : Prop :=
  (* the whole line was delivered *)
  (bs = read_line (ready c) (Z.to_nat n) /\ out = RReturn (target - (n - Z.of_nat (length bs))) /\
   line_done (ready c) bs n /\
   (ready c = bs ++ ready c' \/ (n = target /\ bs = [] /\ ready c = Ctrl_D :: ready c'))) \/
  (* the committed bytes ran out *)
  (bs = read_line (ready c) (Z.to_nat n) /\ ready c = bs /\ ready c' = [] /\ Z.of_nat (length bs) < n /\
   out = if killed then RReturn (-1) else RSleep (dst + Z.of_nat (length bs)) (n - Z.of_nat (length bs))) \/
  (* a byte could not be copied out *)
  (exists b, ready c = bs ++ b :: ready c' /\ bs `prefix_of` read_line (ready c) (Z.to_nat n) /\
     out = RReturn (target - (n - Z.of_nat (length bs)))).

Lemma read_outcome_end killed target c dst : read_outcome killed target c dst 0 (RReturn target) c [].
Proof.
  left. split; [by destruct (ready c)|]. split; [cbn [length]; f_equal; lia|]. split; [by left|]. by left.
Qed.

(** An ordinary byte in front of what the rest of the run delivers. *)
Lemma read_outcome_cons killed target c c1 dst n ch out c' bs :
  ready c = ch :: ready c1 -> ch <> Ctrl_D -> ch <> NL -> 0 < n <= target ->
  read_outcome killed target c1 (dst + 1) (n - 1) out c' bs ->
  read_outcome killed target c dst n out c' (ch :: bs).
Proof.
  intros Hq HD HN Hn Hcase. apply Z.eqb_neq in HD, HN. unfold read_outcome. rewrite Hq.
  destruct (Z.to_nat n) as [|n'] eqn:Hn'; [lia|]. cbn [read_line length app]. rewrite HD, HN.
  unfold read_outcome in Hcase. replace (Z.to_nat (n - 1)) with n' in Hcase by lia.
  destruct Hcase as [(H1 & H2 & H3 & H4)|[(H1 & H2 & H3 & H4 & H5)|(b & H1 & H2 & H3)]].
  - left. split; [by rewrite H1|]. split; [rewrite H2; f_equal; lia|]. split.
    + unfold line_done in *. destruct H3 as [H3|[H3|[rest H3]]].
      * left. cbn [length]. lia.
      * right. left. by destruct bs.
      * right. right. exists rest. by rewrite H3.
    + left. destruct H4 as [H4|(H4 & _ & _)]; [by rewrite H4|lia].
  - right. left. split; [by rewrite H1|]. split; [by rewrite H2 at 1|]. split; [done|]. split; [lia|].
    rewrite H5. destruct killed; [done|]. f_equal; lia.
  - right. right. exists b. rewrite H1 in H2 |- *. split; [done|]. split; [by apply prefix_cons|]. rewrite H3. f_equal. lia.
Qed.

Lemma consoleread_spec (killed : bool) target : forall fuel c u km dst n,
  cons_ok c -> uok u -> 0 <= dst -> 0 <= n <= target -> dst + n < 2 ^ 64 -> (Z.to_nat n <= fuel)%nat ->
  exists out c' u' bs, consoleread fuel c (u, km) killed true dst n target = (out, c', (u', km)) /\
    cons_ok c' /\ uok u' /\ edit c' = edit c /\
    bytes_at (ubyte u') dst (length bs) = Some bs /\
    (forall a, 0 <= a -> a < dst \/ dst + Z.of_nat (length bs) <= a -> ubyte u' a = ubyte u a) /\
    read_outcome killed target c dst n out c' bs.
Proof.
  induction fuel as [|fuel IH]; intros c u km dst n Hok Hu Hd Hn Hdn Hf; cbn [consoleread].
  { exists (RReturn (target - n)), c, u, []. split_and!; try done. replace n with 0 by lia.
    rewrite Z.sub_0_r. apply read_outcome_end. }
  destruct (Z.gtb_spec n 0) as [Hpos|Hz].
  2: { exists (RReturn (target - n)), c, u, []. split_and!; try done. replace n with 0 by lia.
       rewrite Z.sub_0_r. apply read_outcome_end. }
  unfold read_outcome. destruct (Z.to_nat n) as [|n'] eqn:Hn'; [lia|].
  rewrite ready_empty by done. case_bool_decide as Hne.
  { exists (if killed then RReturn (-1) else RSleep dst n), c, u, []. rewrite Hne.
    split; [by destruct killed|]. split_and!; try done. right. left. cbn [read_line length app].
    rewrite Z.add_0_r, Z.sub_0_r. by split_and!. }
  destruct (take_ready c Hok Hne) as (Hok1 & He1 & Hq). pose proof (first_byte_range c Hok) as Hb.
  set (ch := nth _ _ _) in *. set (c1 := set_r c (u32 (cons_r c + 1))) in *.
  destruct (Z.eqb_spec ch Ctrl_D) as [HD|HD].
  { destruct (Z.ltb_spec n target) as [Hlt|Hge].
    - exists (RReturn (target - n)), c, u, []. change (cons_r c1) with (u32 (cons_r c + 1)).
      unfold c1. rewrite unread by done. split_and!; try done. left. rewrite Hq, HD. cbn [read_line].
      rewrite Z.eqb_refl. split; [done|]. split; [cbn [length]; f_equal; lia|]. split; [right; right; by eexists|]. left.
      by rewrite <- HD.
    - exists (RReturn (target - n)), c1, u, []. split_and!; try done. left. rewrite Hq, HD. cbn [read_line].
      rewrite Z.eqb_refl. split; [done|]. split; [cbn [length]; f_equal; lia|]. split; [right; right; by eexists|]. right.
      split; [lia|]. done. }
  unfold either_copyout. cbn [fst snd].
  destruct (ucopyout_law dst [ch] u Hu ltac:(lia)) as (k & r & u1 & He & Hu1 & Hr & Hm); [by apply Forall_singleton|].
  rewrite He. cbn [length] in Hr. destruct Hr as [[-> ->]|[-> Hk]]; cbn [Z.eqb].
  2: { exists (RReturn (target - n)), c1, u1, []. split_and!; try done.
       - intros a Ha _. rewrite (Hm a Ha). destruct (Z.leb_spec dst a), (Z.ltb_spec a (dst + Z.of_nat k)); cbn [andb]; done || lia.
       - right. right. exists ch. split; [done|]. split; [apply prefix_nil|]. cbn [length]. f_equal. lia. }
  assert (Hm1 : forall a, 0 <= a -> ubyte u1 a = if a =? dst then Some ch else ubyte u a).
  { intros a Ha. rewrite (Hm a Ha). destruct (Z.eqb_spec a dst) as [Heq|], (Z.leb_spec dst a), (Z.ltb_spec a (dst + Z.of_nat 1));
      cbn [andb]; try lia; try done. by rewrite Heq, Z.sub_diag. }
  destruct (Z.eqb_spec ch NL) as [HN|HN].
  { exists (RReturn (target - (n - 1))), c1, u1, [ch]. split_and!; try done.
    - cbn [length bytes_at]. rewrite Hm1, Z.eqb_refl by lia. done.
    - intros a Ha Hout. cbn [length] in Hout. rewrite Hm1 by done. destruct (Z.eqb_spec a dst); [lia|done].
    - left. rewrite Hq. cbn [read_line]. apply Z.eqb_neq in HD. rewrite HD, HN, Z.eqb_refl.
      split; [done|]. split; [done|]. split; [right; by left|]. by left. }
  rewrite u64_small by lia.
  destruct (IH c1 u1 km (dst + 1) (n - 1) Hok1 Hu1 ltac:(lia) ltac:(lia) ltac:(lia) ltac:(lia))
    as (out & c' & u' & bs & Hrun & Hok' & Hu' & He' & Hbs & Hfr & Hcase).
  exists out, c', u', (ch :: bs).
  split; [done|]. split; [done|]. split; [done|]. split; [congruence|].
  assert (Hstart : ubyte u' dst = Some ch).
  { rewrite Hfr by lia. by rewrite Hm1, Z.eqb_refl by lia. }
  split; [cbn [length bytes_at]; by rewrite Hstart, Hbs|].
  split; [|rewrite <- Hn'; exact (read_outcome_cons killed target c c1 dst n ch out c' bs Hq HD HN ltac:(lia) Hcase)].
  intros a Ha Hout. cbn [length] in Hout. rewrite Hfr, Hm1 by lia. destruct (Z.eqb_spec a dst); [lia|done].
Qed.

(** [consoleread] of [n] bytes delivers to the user's buffer exactly the
    first committed line (up to and including its newline, or up to a
    control-D), cut at [n] bytes, returns the number delivered and leaves the
    rest committed.  If the committed bytes end first it sleeps with them
    delivered, or returns -1 when killed.  A control-D at the start of a read
    is consumed and gives 0; after other bytes it is kept for the next read.
    A byte is lost only when the user's buffer cannot take it. *)
Theorem consoleread_delivers_line (c : cons) (u : U) (km : mem) (killed : bool) (dst n : Z) :
  cons_ok c -> uok u -> 0 <= dst -> 0 <= n -> dst + n < 2 ^ 64 ->
  exists out c' u' bs, consoleread (Z.to_nat n) c (u, km) killed true dst n n = (out, c', (u', km)) /\
    cons_ok c' /\ uok u' /\ edit c' = edit c /\ bytes_at (ubyte u') dst (length bs) = Some bs /\
    (forall a, 0 <= a -> a < dst \/ dst + Z.of_nat (length bs) <= a -> ubyte u' a = ubyte u a) /\
    ((bs = read_line (ready c) (Z.to_nat n) /\ out = RReturn (Z.of_nat (length bs)) /\
      line_done (ready c) bs n /\
      (ready c = bs ++ ready c' \/ (bs = [] /\ ready c = Ctrl_D :: ready c'))) \/
     (bs = ready c /\ bs = read_line (ready c) (Z.to_nat n) /\ ready c' = [] /\ Z.of_nat (length bs) < n /\
      out = if killed then RReturn (-1) else RSleep (dst + Z.of_nat (length bs)) (n - Z.of_nat (length bs))) \/
     (exists b, ready c = bs ++ b :: ready c' /\ bs `prefix_of` read_line (ready c) (Z.to_nat n) /\
        out = RReturn (Z.of_nat (length bs)))).
Proof.
  intros Hok Hu Hd Hn Hdn.
  destruct (consoleread_spec killed n (Z.to_nat n) c u km dst n Hok Hu Hd ltac:(lia) Hdn ltac:(lia))
    as (out & c' & u' & bs & H1 & H2 & H3 & H4 & H5 & H6 & H7).
  exists out, c', u', bs. do 6 (split; [done|]).
  unfold read_outcome in H7. replace (n - (n - Z.of_nat (length bs))) with (Z.of_nat (length bs)) in H7 by lia.
  destruct H7 as [(? & ? & ? & [?|(? & ? & ?)])|[(? & ? & ? & ? & ?)|(b & ? & ? & ?)]].
  - left. by auto.
  - left. split_and!; try done. by right.
  - right. left. by split_and!.
  - right. right. by exists b.
Qed.

End ReadFacts.

(** ** The UART *)

Definition UART_TX_BUF_SIZE : Z := 32.

(** The transmit buffer with its 64-bit counters, and the bytes written to the
    transmit register so far. *)
Record uart := mkuart {
  uart_tx_buf : list Z;
  uart_tx_w : Z;
  uart_tx_r : Z;
  thr : list Z
}.

Definition uart0 : uart := mkuart (replicate 32 0) 0 0 [].

(** [uartstart]; [lsr] gives the idle bit on successive reads of the line
    status register ([false] once exhausted).  Also: whether it woke the
    writers, and the answers left. *)
Fixpoint uartstart (fuel : nat) (s : uart) (lsr : list bool) : uart * bool * list bool :=
  match fuel with
  | O => (s, false, lsr)
  | S fuel' =>
      if uart_tx_w s =? uart_tx_r s then (s, false, lsr)
      else
        match lsr with
        | true :: lsr' =>
            let c := nth (Z.to_nat (uart_tx_r s mod UART_TX_BUF_SIZE)) (uart_tx_buf s) 0 in
            let '(s', _, l) := uartstart fuel'
              (mkuart (uart_tx_buf s) (uart_tx_w s) (u64 (uart_tx_r s + 1)) (thr s ++ [c])) lsr' in
            (s', true, l)
        | _ => (s, false, tl lsr)
        end
  end.

(** The loop sends at most the 32 bytes of the buffer. *)
Definition start_fuel : nat := 33.

(** [uartputc]: hangs after a panic, sleeps when the buffer is full, or stores
    the byte and starts the transmitter. *)
Inductive put_result := PutHang | PutSleep | PutDone (s : uart) (woken : bool).

Definition uartputc (panicked : bool) (s : uart) (c : Z) (lsr : list bool) : put_result :=
  if panicked then PutHang
  else if uart_tx_w s =? u64 (uart_tx_r s + UART_TX_BUF_SIZE) then PutSleep
  else
    let s1 := mkuart (<[Z.to_nat (uart_tx_w s mod UART_TX_BUF_SIZE) := u8 c]> (uart_tx_buf s))
                (u64 (uart_tx_w s + 1)) (uart_tx_r s) (thr s) in
    let '(s2, woken, _) := uartstart start_fuel s1 lsr in PutDone s2 woken.

(** [uartgetc] on the bytes waiting in the receive register. *)
Definition uartgetc (rhr : list Z) : Z * list Z :=
  match rhr with c :: rhr' => (c, rhr') | [] => (-1, []) end.

(** [uartintr]: every waiting byte goes to [consoleintr], then buffered output
    is sent. *)
Fixpoint uart_input (c : cons) (rhr : list Z) : cons * bool :=
  match rhr with
  | [] => (c, false)
  | ch :: rhr' =>
      let '(c1, w1) := consoleintr c ch in
      let '(c2, w2) := uart_input c1 rhr' in (c2, w1 || w2)
  end.
Definition uartintr (c : cons) (s : uart) (rhr : list Z) (lsr : list bool) : cons * uart * bool * bool :=
  let '(c', woken_r) := uart_input c rhr in
  let '(s', woken_w, _) := uartstart start_fuel s lsr in
  (c', s', woken_r, woken_w).

(** [consolewrite] from byte [i]: the count, or sleep in [uartputc] with byte
    [i] in hand. *)
Section Write.
Context {U : Type} `{!UserMem U}.

Inductive woutcome := WReturn (i : Z) | WSleep (i c : Z) | WHang.

Fixpoint consolewrite (fuel : nat) (s : uart) (um : U * mem) (panicked user_src : bool) (src i n : Z)
    (lsr : list (list bool)) : woutcome * uart :=
  match fuel with
  | O => (WReturn i, s)
  | S fuel' =>
      if i <? n then
        let '(r, bs) := either_copyin user_src (u64 (src + i)) 1 um in
        if r =? -1 then (WReturn i, s)
        else
          match uartputc panicked s (hd 0 bs) (hd [] lsr) with
          | PutHang => (WHang, s)
          | PutSleep => (WSleep i (hd 0 bs), s)
          | PutDone s' _ => consolewrite fuel' s' um panicked user_src src (i + 1) n (tl lsr)
          end
      else (WReturn i, s)
  end.
End Write.

(** ** The UART sends what it was given *)

Definition buffered (s : uart) : list Z :=
  rqueue UART_TX_BUF_SIZE (2 ^ 64) (uart_tx_buf s) (uart_tx_r s) (uart_tx_w s).

Record uart_ok (s : uart) : Prop := {
  uk_len : length (uart_tx_buf s) = 32%nat;
  uk_r : 0 <= uart_tx_r s < 2 ^ 64;
  uk_w : 0 <= uart_tx_w s < 2 ^ 64;
  uk_cap : rlen (2 ^ 64) (uart_tx_r s) (uart_tx_w s) <= 32
}.

Lemma udivides : (UART_TX_BUF_SIZE | 2 ^ 64).
Proof. by exists (2 ^ 59). Qed.

Lemma buffered_nil s : uart_ok s -> (uart_tx_w s =? uart_tx_r s) = bool_decide (buffered s = []).
Proof.
  intros [_ Hr Hw _]. rewrite (empty_test_wr UART_TX_BUF_SIZE (2 ^ 64)); try done.
  pose proof (rqueue_nil UART_TX_BUF_SIZE (2 ^ 64) ltac:(done) ltac:(done) (uart_tx_buf s) (uart_tx_r s) (uart_tx_w s)) as Hn.
  unfold buffered. destruct (Z.eqb_spec (rlen (2 ^ 64) (uart_tx_r s) (uart_tx_w s)) 0) as [He|He];
    symmetry; [apply bool_decide_eq_true|apply bool_decide_eq_false]; tauto.
Qed.

Lemma uartstart_spec fuel : forall s lsr, uart_ok s -> (length (buffered s) < fuel)%nat ->
  exists k, let '(s', woken, _) := uartstart fuel s lsr in
  uart_ok s' /\ buffered s = take k (buffered s) ++ buffered s' /\ thr s' = thr s ++ take k (buffered s) /\
  (woken = true <-> take k (buffered s) <> []) /\
  (Forall (fun b => b = true) lsr -> (length (buffered s) <= length lsr)%nat -> buffered s' = []).
Proof.
  induction fuel as [|fuel IH]; intros s lsr Hok Hf; [lia|]. cbn [uartstart].
  rewrite buffered_nil by done. case_bool_decide as Hn.
  { exists 0%nat. cbn. rewrite app_nil_r. by split_and!. }
  destruct lsr as [|[|] lsr].
  - exists 0%nat. cbn. rewrite app_nil_r. split_and!; try done. intros _ Hl. apply nil_length_inv. cbn [length] in Hl. lia.
  - assert (Hpos : 0 < rlen (2 ^ 64) (uart_tx_r s) (uart_tx_w s)).
    { pose proof (rlen_range UART_TX_BUF_SIZE (2 ^ 64) ltac:(done) ltac:(done) (uart_tx_r s) (uart_tx_w s)).
      destruct (Z.eq_dec (rlen (2 ^ 64) (uart_tx_r s) (uart_tx_w s)) 0) as [He|]; [|lia].
      destruct Hn. by apply (rqueue_nil UART_TX_BUF_SIZE (2 ^ 64)). }
    set (c := nth _ _ _). set (s1 := mkuart _ _ _ _).
    assert (Hq : buffered s = c :: buffered s1) by (apply (rqueue_skip UART_TX_BUF_SIZE (2 ^ 64)); try done; apply udivides).
    assert (Hl : rlen (2 ^ 64) (u64 (uart_tx_r s + 1)) (uart_tx_w s) = rlen (2 ^ 64) (uart_tx_r s) (uart_tx_w s) - 1)
      by (apply (rlen_adv UART_TX_BUF_SIZE (2 ^ 64)); try done; lia).
    assert (Hok1 : uart_ok s1).
    { destruct Hok as [K1 K2 K3 K4]. split; cbn; try done; [apply u64_range|]. rewrite Hl. lia. }
    destruct (IH s1 lsr Hok1) as (k & H); [rewrite Hq in Hf; cbn in Hf; lia|].
    destruct (uartstart fuel s1 lsr) as [[s' w] l]. destruct H as (H1 & H2 & H3 & H4 & H5).
    exists (S k). rewrite Hq. cbn [take]. split; [done|]. split; [by rewrite <- app_comm_cons, <- H2|].
    split; [rewrite H3; unfold s1; cbn [thr]; by rewrite <- app_assoc|]. split; [done|].
    intros [_ HF]%Forall_cons Hle. apply H5; [done|]. cbn in Hle. lia.
  - exists 0%nat. cbn. rewrite app_nil_r. split_and!; try done. intros [H _]%Forall_cons. done.
Qed.

(** The UART with the bytes accepted by [uartputc] so far. *)
Inductive ustep : uart * list Z -> uart * list Z -> Prop :=
| us_put s acc c lsr s' w : uartputc false s c lsr = PutDone s' w -> ustep (s, acc) (s', acc ++ [u8 c])
| us_intr s acc lsr s' w l : uartstart start_fuel s lsr = (s', w, l) -> ustep (s, acc) (s', acc).

Definition uart_inv (st : uart * list Z) : Prop := uart_ok st.1 /\ st.2 = thr st.1 ++ buffered st.1.

Lemma length_buffered s : uart_ok s -> (length (buffered s) <= 32)%nat.
Proof. intros [_ _ _ Hc]. unfold buffered. rewrite length_rqueue. lia. Qed.

Lemma ustep_inv st st' : ustep st st' -> uart_inv st -> uart_inv st'.
Proof.
  intros Hs [Hok Hacc]. destruct Hs as [s acc c lsr s' w Hp|s acc lsr s' w l Hs]; cbn [fst snd] in *.
  - unfold uartputc in Hp. pose proof Hok as [K1 K2 K3 K4].
    unfold u64 in Hp at 1. rewrite (full_test UART_TX_BUF_SIZE (2 ^ 64)) in Hp by done.
    destruct (Z.eqb_spec (rlen (2 ^ 64) (uart_tx_r s) (uart_tx_w s)) UART_TX_BUF_SIZE) as [|Hne]; [done|].
    unfold UART_TX_BUF_SIZE in Hne. set (s1 := mkuart _ _ _ _) in Hp.
    pose proof (rlen_range UART_TX_BUF_SIZE (2 ^ 64) ltac:(done) ltac:(done) (uart_tx_r s) (uart_tx_w s)).
    assert (Hb : buffered s1 = buffered s ++ [u8 c]).
    { unfold buffered, s1. cbn [uart_tx_buf uart_tx_r uart_tx_w].
      apply (rqueue_put UART_TX_BUF_SIZE (2 ^ 64)); try done; [apply udivides|unfold UART_TX_BUF_SIZE; lia]. }
    assert (Hok1 : uart_ok s1).
    { split; cbn; [by rewrite length_insert|done|apply u64_range|].
      unfold u64. rewrite (rlen_add (2 ^ 64)) by lia. lia. }
    destruct (uartstart_spec start_fuel s1 lsr Hok1) as (k & Hk).
    { pose proof (length_buffered s1 Hok1). unfold start_fuel. lia. }
    destruct (uartstart start_fuel s1 lsr) as [[s2 w2] l2]. injection Hp as <- <-.
    destruct Hk as (H1 & H2 & H3 & _). split; [done|]. cbn [fst snd].
    rewrite H3, <- app_assoc, <- H2, Hb. unfold s1. cbn [thr]. by rewrite Hacc, app_assoc.
  - destruct (uartstart_spec start_fuel s lsr Hok) as (k & Hk).
    { pose proof (length_buffered s Hok). unfold start_fuel. lia. }
    rewrite Hs in Hk. destruct Hk as (H1 & H2 & H3 & _). split; [done|]. cbn [fst snd].
    by rewrite H3, <- app_assoc, <- H2.
Qed.

Lemma uart0_inv : uart_inv (uart0, []).
Proof. split; [by split|done]. Qed.

(** Whatever the device's timing, the bytes written to the transmit register followed by the
    at most 32 buffered ones are exactly the bytes accepted by [uartputc], in
    order; and when the device stays idle an interrupt drains the buffer. *)
Theorem uart_sends_in_order (st : uart * list Z) :
  rtc ustep (uart0, []) st ->
  st.2 = thr st.1 ++ buffered st.1 /\ (length (buffered st.1) <= 32)%nat /\
  forall lsr, Forall (fun b => b = true) lsr -> (32 <= length lsr)%nat ->
    thr (uartstart start_fuel st.1 lsr).1.1 = st.2.
Proof.
  intros Hr. assert (Hinv : uart_inv st).
  { pose proof uart0_inv as H0. revert H0. induction Hr as [|? ? ? Hs _ IH]; [done|].
    intros H0. by eapply IH, ustep_inv. }
  destruct Hinv as [Hok Hacc]. pose proof (length_buffered _ Hok) as Hl.
  split; [done|]. split; [done|]. intros lsr HF Hlen.
  destruct (uartstart_spec start_fuel st.1 lsr Hok) as (k & Hk); [unfold start_fuel; lia|].
  destruct (uartstart start_fuel st.1 lsr) as [[s' w] l]. destruct Hk as (_ & H2 & H3 & _ & H5).
  cbn [fst]. rewrite H5 in H2 by (done || lia). rewrite app_nil_r in H2. by rewrite H3, <- H2, Hacc.
Qed.

(** ** Concrete instances *)

Lemma cons0_ok : cons_ok cons0.
Proof. split; cbn [cons0 cbuf cons_r cons_w cons_e]; try lia; try done. apply Forall_replicate. lia. Qed.

Lemma consoleintr_line_discipline_witness :
  let '(c, woken) := consoleintr cons0 97 in
  woken = false /\ ready c = [] /\ edit c = [97].
Proof.
  pose proof (consoleintr_line_discipline cons0 97 cons0_ok ltac:(lia)) as H.
  destruct (consoleintr cons0 97) as [c woken] eqn:He. vm_compute in He. injection He as <- <-.
  destruct H as (_ & H & _). split; [reflexivity|]. split; [exact (f_equal fst H)|exact (f_equal snd H)].
Defined.

(** The buffer after typing "hi" and return. *)
Definition typed : cons :=
  mkcons (104 :: 105 :: 10 :: replicate 125 0) 0 3 3 3 [Echo 104; Echo 105; Echo 10].

Lemma typed_input : (uart_input cons0 [104; 105; 13]).1 = typed.
Proof. vm_compute. reflexivity. Qed.

Lemma typed_ok : cons_ok typed.
Proof.
  split; cbn [typed cbuf cons_r cons_w cons_e]; try lia; try done.
  do 3 (apply Forall_cons; split; [lia|]). apply Forall_replicate. lia.
Qed.

Lemma consoleread_delivers_line_witness :
  exists c' u', consoleread (U := list Z) (Z.to_nat 8) typed (replicate 8 0, ramp) false true 0 8 8
    = (RReturn 3, c', (u', ramp)) /\ bytes_at (flat_byte u') 0 3 = Some [104; 105; 10].
Proof.
  assert (Hu : uok (U := list Z) (replicate 8 0)) by solve_bytes.
  destruct (consoleread_delivers_line (U := list Z) typed (replicate 8 0) ramp false 0 8 typed_ok Hu
    ltac:(lia) ltac:(lia) ltac:(lia)) as (out & c' & u' & bs & H1 & _).
  exists c', u'. rewrite H1. vm_compute in H1. injection H1 as <- <- <-. split; reflexivity.
Defined.

Lemma uart_sends_in_order_witness :
  exists s, rtc ustep (uart0, []) (s, [111; 107]) /\ thr s = [111] /\
    thr (uartstart start_fuel s (replicate 32 true)).1.1 = [111; 107].
Proof.
  set (s1 := mkuart (<[0%nat := 111]> (replicate 32 0)) 1 1 [111]).
  set (s2 := mkuart (<[1%nat := 107]> (uart_tx_buf s1)) 2 1 [111]).
  assert (Hr : rtc ustep (uart0, []) (s2, [111; 107])).
  { eapply rtc_l; [exact (us_put uart0 [] 111 [true] s1 true eq_refl)|].
    eapply rtc_l; [exact (us_put s1 [111] 107 [] s2 false eq_refl)|]. apply rtc_refl. }
  exists s2. split; [exact Hr|]. split; [reflexivity|].
  destruct (uart_sends_in_order (s2, [111; 107]) Hr) as (_ & _ & H).
  apply (H (replicate 32 true)); [by apply Forall_replicate|reflexivity].
Defined.
