(* ===== verification/Fs.v ===== *)
(** * The file system: [kernel/fs.c]

    Block contents are read and written through the log of [Log.v] ([view] is
    what [bread] returns, [log_write] records a block in the transaction).  An
    inode pointer is an index into [itable], [None] the null pointer; a path is
    the list of its characters before the NUL, a name the 14-byte array
    [name[DIRSIZ]].  User and kernel memory are those of [UserMem.v]; [de_addr]
    is the stack address of the directory entry buffer [de].

    Acquiring an inode's sleep lock that somebody holds would put the caller to
    sleep; in the run of one call it is the outcome [blocked], which no later
    step of that call can leave.  The files [FsAlloc.v] to [FsPath.v] prove the
    theorems. *)

From S2P Require Import Prelude CString Kalloc Vm UserMem Block Log.

(** [short] *)
Definition s16 (z : Z) : Z := (z + 2 ^ 15) mod 2 ^ 16 - 2 ^ 15.

(** Constants of [kernel/fs.h] and [kernel/stat.h]. *)
Definition ROOTINO : Z := 1.
Definition FSMAGIC : Z := 0x10203040.
Definition NDIRECT : Z := 12.
Definition NINDIRECT : Z := BSIZE / 4.
Definition MAXFILE : Z := NDIRECT + NINDIRECT.
Definition IPB : Z := BSIZE / 64.
Definition BPB : Z := BSIZE * 8.
Definition DIRSIZ : nat := 14.
Definition DIRENT : Z := 16.
Definition T_DIR : Z := 1.
Definition T_FILE : Z := 2.
Definition T_DEVICE : Z := 3.

(** [struct superblock] *)
Record superblock := mksb {
  sb_magic : Z;
  sb_size : Z;
  sb_nblocks : Z;
  sb_ninodes : Z;
  sb_nlog : Z;
  sb_logstart : Z;
  sb_inodestart : Z;
  sb_bmapstart : Z
}.

(** [struct dinode] *)
Record dinode := mkdinode {
  d_type : Z;
  d_major : Z;
  d_minor : Z;
  d_nlink : Z;
  d_size : Z;
  d_addrs : list Z       (* NDIRECT + 1 block numbers *)
}.

Definition dinode_bytes (d : dinode) : list Z :=
  le_bytes 2 (d_type d) ++ le_bytes 2 (d_major d) ++ le_bytes 2 (d_minor d) ++
  le_bytes 2 (d_nlink d) ++ le_bytes 4 (d_size d) ++ concat (le_bytes 4 <$> d_addrs d).

Definition field (l : list Z) (off n : nat) : Z := of_le (take n (drop off l)).
Definition parse_dinode (l : list Z) : dinode :=
  mkdinode (s16 (field l 0 2)) (s16 (field l 2 2)) (s16 (field l 4 2)) (s16 (field l 6 2))
    (field l 8 4) ((fun i => field l (12 + 4 * i) 4) <$> seq 0 13).

(** [struct inode]; [ilocked] is the state of its sleep lock. *)
Record inode := mkinode {
  i_dev : Z;
  i_inum : Z;
  i_ref : Z;
  ilocked : bool;
  i_valid : bool;
  i_d : dinode           (* type .. addrs: the copy of the disk inode *)
}.

(** [struct stat] *)
Record stat := mkstat { st_dev : Z; st_ino : Z; st_type : Z; st_nlink : Z; st_size : Z }.

(** [struct dirent] *)
Record dirent := mkdirent { de_inum : Z; de_name : list Z }.
Definition dirent_bytes (de : dirent) : list Z := le_bytes 2 (de_inum de) ++ de_name de.
Definition parse_dirent (l : list Z) : dirent := mkdirent (field l 0 2) (take DIRSIZ (drop 2 l)).

Record fs (U : Type) := mkfs {
  sb : superblock;
  lg : log;
  itable : list inode;        (* NINODE entries *)
  um : U * mem;
  out : list string           (* printf *)
}.
Arguments mkfs {U}. Arguments sb {U}. Arguments lg {U}. Arguments itable {U}.
Arguments um {U}. Arguments out {U}.

(** ** Block and inode numbers *)

Definition BBLOCK (b : Z) (sb : superblock) : Z := b / BPB + sb_bmapstart sb.
Definition IBLOCK (i : Z) (sb : superblock) : Z := i / IPB + sb_inodestart sb.
Definition ioff (i : Z) : nat := Z.to_nat (i mod IPB) * 64.

Section Fs.
Context {U : Type} `{!UserMem U}.
Context (de_addr : Z).
Abbreviation F := (M (fs U)).

Definition set_lg (v : log) (s : fs U) : fs U := mkfs (sb s) v (itable s) (um s) (out s).
Definition set_itable (v : list inode) (s : fs U) : fs U := mkfs (sb s) (lg s) v (um s) (out s).
Definition set_um (v : U * mem) (s : fs U) : fs U := mkfs (sb s) (lg s) (itable s) v (out s).

(** Running a step of the log layer. *)
Definition onlog {A} (c : M log A) : F A := fun s =>
  match c (lg s) with
  | Done a l => Done a (set_lg l s)
  | Panic msg => Panic msg
  end.
Definition blocked {A} : F A := panic "sleep".
Definition printf (msg : string) : F unit :=
  modify (fun s => mkfs (sb s) (lg s) (itable s) (um s) (msg :: out s)).

Definition bread (b : Z) : F block := onlog (Log.bread b).
(** Storing into the buffer and logging it. *)
Definition update_block (b : Z) (d : block) : F unit := onlog (bstore b d ;; log_write b).

(** ** Super block *)

Definition parse_sb (d : block) : superblock :=
  mksb (rd32 d 0) (rd32 d 1) (rd32 d 2) (rd32 d 3) (rd32 d 4) (rd32 d 5) (rd32 d 6) (rd32 d 7).

Definition readsb : F superblock := let! d := bread 1 in ret (parse_sb d).

Definition fsinit : F unit :=
  let! s0 := readsb in
  modify (fun s => mkfs s0 (lg s) (itable s) (um s) (out s)) ;;
  if negb (sb_magic s0 =? FSMAGIC) then panic "invalid file system"
  else onlog (initlog (sb_logstart s0) (sb_nlog s0)).

(** ** Blocks *)

Definition bzero (b : Z) : F unit := update_block b (replicate (Z.to_nat BSIZE) 0).

Definition bit_mask (bi : Z) : Z := Z.shiftl 1 (bi mod 8).
Definition bit_test (d : block) (bi : Z) : bool :=
  negb (Z.land (nth (Z.to_nat (bi / 8)) d 0) (bit_mask bi) =? 0).
Definition bit_set (d : block) (bi : Z) : block :=
  <[Z.to_nat (bi / 8) := u8 (Z.lor (nth (Z.to_nat (bi / 8)) d 0) (bit_mask bi))]> d.
Definition bit_clear (d : block) (bi : Z) : block :=
  <[Z.to_nat (bi / 8) := Z.ldiff (nth (Z.to_nat (bi / 8)) d 0) (bit_mask bi)]> d.

(** The inner loop of [balloc]: the first clear bit at [bi] or after. *)
Fixpoint find_clear (n : nat) (d : block) (bi : Z) : option Z :=
  match n with
  | O => None
  | S n' => if bit_test d bi then find_clear n' d (bi + 1) else Some bi
  end.

(** The outer loop of [balloc], at block [b]; [n] bitmap blocks are left. *)
Fixpoint balloc_loop (n : nat) (b : Z) : F Z :=
  match n with
  | O => printf "balloc: out of blocks" ;; ret 0
  | S n' =>
      let! s0 := gets sb in
      let! d := bread (BBLOCK b s0) in
      match find_clear (Z.to_nat (Z.min BPB (sb_size s0 - b))) d 0 with
      | Some bi =>
          update_block (BBLOCK b s0) (bit_set d bi) ;;
          bzero (b + bi) ;;
          ret (b + bi)
      | None => balloc_loop n' (b + BPB)
      end
  end.
Definition balloc : F Z :=
  let! s0 := gets sb in
  balloc_loop (Z.to_nat ((sb_size s0 + BPB - 1) / BPB)) 0.

Definition bfree (b : Z) : F unit :=
  let! s0 := gets sb in
  let! d := bread (BBLOCK b s0) in
  let bi := b mod BPB in
  if negb (bit_test d bi) then panic "freeing free block"
  else update_block (BBLOCK b s0) (bit_clear d bi).

(** ** The inode table *)

Definition inode0 : inode := mkinode 0 0 0 false false (mkdinode 0 0 0 0 0 (replicate 13 0)).

(** A wild or null inode pointer faults in the kernel. *)
Definition geti (i : nat) : F inode := fun s =>
  match itable s !! i with Some ip => Done ip s | None => Panic "kerneltrap" end.
Definition puti (i : nat) (ip : inode) : F unit := modify (fun s => set_itable (<[i := ip]> (itable s)) s).

Definition set_ref (v : Z) (ip : inode) : inode :=
  mkinode (i_dev ip) (i_inum ip) v (ilocked ip) (i_valid ip) (i_d ip).
Definition set_locked (v : bool) (ip : inode) : inode :=
  mkinode (i_dev ip) (i_inum ip) (i_ref ip) v (i_valid ip) (i_d ip).
Definition set_valid (v : bool) (ip : inode) : inode :=
  mkinode (i_dev ip) (i_inum ip) (i_ref ip) (ilocked ip) v (i_d ip).
Definition set_d (v : dinode) (ip : inode) : inode :=
  mkinode (i_dev ip) (i_inum ip) (i_ref ip) (ilocked ip) (i_valid ip) v.
Definition set_type (v : Z) (d : dinode) : dinode :=
  mkdinode v (d_major d) (d_minor d) (d_nlink d) (d_size d) (d_addrs d).
Definition set_dev_nums (major minor : Z) (d : dinode) : dinode :=
  mkdinode (d_type d) major minor (d_nlink d) (d_size d) (d_addrs d).
Definition set_nlink (v : Z) (d : dinode) : dinode :=
  mkdinode (d_type d) (d_major d) (d_minor d) v (d_size d) (d_addrs d).
Definition set_size (v : Z) (d : dinode) : dinode :=
  mkdinode (d_type d) (d_major d) (d_minor d) (d_nlink d) v (d_addrs d).
Definition set_addr (i : nat) (v : Z) (d : dinode) : dinode :=
  mkdinode (d_type d) (d_major d) (d_minor d) (d_nlink d) (d_size d) (<[i := v]> (d_addrs d)).

(** [iinit] sets up the locks of a zeroed table. *)
Definition iinit : F unit := modify (set_itable (replicate NINODE inode0)).

(** [iget]: the entry of an inode in use, or the first free one. *)
Definition is_inode (dev inum : Z) (ip : inode) : bool :=
  (i_ref ip >? 0) && (i_dev ip =? dev) && (i_inum ip =? inum).

Definition iget (dev inum : Z) : F nat := fun s =>
  match list_find (fun ip => is_inode dev inum ip = true) (itable s) with
  | Some (i, ip) => Done i (set_itable (<[i := set_ref (i_ref ip + 1) ip]> (itable s)) s)
  | None =>
      match list_find (fun ip => i_ref ip = 0) (itable s) with
      | None => Panic "iget: no inodes"
      | Some (i, ip) =>
          Done i (set_itable (<[i := mkinode dev inum 1 (ilocked ip) false (i_d ip)]> (itable s)) s)
      end
  end.

Definition idup (i : nat) : F nat :=
  let! ip := geti i in puti i (set_ref (i_ref ip + 1) ip) ;; ret i.

(** The loop of [ialloc] at [inum]; [n] inodes are left. *)
Fixpoint ialloc_loop (n : nat) (dev type inum : Z) : F (option nat) :=
  match n with
  | O => printf "ialloc: no inodes" ;; ret None
  | S n' =>
      let! s0 := gets sb in
      let! d := bread (IBLOCK inum s0) in
      if d_type (parse_dinode (take 64 (drop (ioff inum) d))) =? 0 then
        update_block (IBLOCK inum s0)
          (splice (ioff inum) (le_bytes 2 type ++ replicate 62 0) d) ;;
        let! i := iget dev inum in ret (Some i)
      else ialloc_loop n' dev type (inum + 1)
  end.
Definition ialloc (dev type : Z) : F (option nat) :=
  let! s0 := gets sb in ialloc_loop (Z.to_nat (sb_ninodes s0 - 1)) dev type 1.

Definition iupdate (i : nat) : F unit :=
  let! s0 := gets sb in
  let! ip := geti i in
  let! d := bread (IBLOCK (i_inum ip) s0) in
  update_block (IBLOCK (i_inum ip) s0) (splice (ioff (i_inum ip)) (dinode_bytes (i_d ip)) d).

Definition ilock (i : nat) : F unit :=
  let! ip := geti i in
  if i_ref ip <? 1 then panic "ilock"
  else if ilocked ip then blocked
  else if i_valid ip then puti i (set_locked true ip)
  else
    let! s0 := gets sb in
    let! d := bread (IBLOCK (i_inum ip) s0) in
    let di := parse_dinode (take 64 (drop (ioff (i_inum ip)) d)) in
    puti i (set_d di (set_valid true (set_locked true ip))) ;;
    if d_type di =? 0 then panic "ilock: no type" else ret tt.

Definition iunlock (i : nat) : F unit :=
  let! ip := geti i in
  if negb (ilocked ip) || (i_ref ip <? 1) then panic "iunlock"
  else puti i (set_locked false ip).

(** ** Inode contents *)

(** [ip->addrs[k]], allocating the block when there is none; 0 when the disk is full. *)
Definition addr_alloc (i k : nat) : F Z :=
  let! ip := geti i in
  let addr := nth k (d_addrs (i_d ip)) 0 in
  if addr =? 0 then
    let! addr := balloc in
    if addr =? 0 then ret 0
    else
      let! ip := geti i in
      puti i (set_d (set_addr k addr (i_d ip)) ip) ;; ret addr
  else ret addr.

Definition bmap (i : nat) (bn : Z) : F Z :=
  if bn <? NDIRECT then addr_alloc i (Z.to_nat bn)
  else
    let bn := bn - NDIRECT in
    if bn <? NINDIRECT then
      let! ind := addr_alloc i (Z.to_nat NDIRECT) in
      if ind =? 0 then ret 0
      else
        let! a := bread ind in
        let addr := rd32 a (Z.to_nat bn) in
        if addr =? 0 then
          let! addr := balloc in
          if addr =? 0 then ret 0
          else update_block ind (wr32 a (Z.to_nat bn) addr) ;; ret addr
        else ret addr
    else panic "bmap: out of range".

Definition itrunc (i : nat) : F unit :=
  for_each (fun k =>
    let! ip := geti i in
    let addr := nth k (d_addrs (i_d ip)) 0 in
    if addr =? 0 then ret tt
    else bfree addr ;; puti i (set_d (set_addr k 0 (i_d ip)) ip)) (seq 0 12) ;;
  let! ip := geti i in
  let ind := nth 12 (d_addrs (i_d ip)) 0 in
  (if ind =? 0 then ret tt
   else
     let! a := bread ind in
     for_each (fun j => if rd32 a j =? 0 then ret tt else bfree (rd32 a j)) (seq 0 (Z.to_nat NINDIRECT)) ;;
     bfree ind ;;
     puti i (set_d (set_addr 12 0 (i_d ip)) ip)) ;;
  let! ip := geti i in
  puti i (set_d (set_size 0 (i_d ip)) ip) ;;
  iupdate i.

Definition iput (i : nat) : F unit :=
  let! ip := geti i in
  (if (i_ref ip =? 1) && i_valid ip && (d_nlink (i_d ip) =? 0) then
     if ilocked ip then blocked
     else
       puti i (set_locked true ip) ;;
       itrunc i ;;
       let! ip := geti i in
       puti i (set_d (set_type 0 (i_d ip)) ip) ;;
       iupdate i ;;
       let! ip := geti i in
       puti i (set_locked false (set_valid false ip))
   else ret tt) ;;
  let! ip := geti i in
  puti i (set_ref (i_ref ip - 1) ip).

Definition iunlockput (i : nat) : F unit := iunlock i ;; iput i.

Definition stati (i : nat) : F stat :=
  let! ip := geti i in
  let d := i_d ip in
  ret (mkstat (i_dev ip) (i_inum ip) (d_type d) (d_nlink d) (d_size d)).

(** The loop of [readi]; a copy error makes the result -1. *)
Fixpoint readi_loop (fuel : nat) (i : nat) (user_dst : bool) (dst off tot n : Z) : F Z :=
  match fuel with
  | O => ret tot
  | S fuel' =>
      if tot <? n then
        let! addr := bmap i (off / BSIZE) in
        if addr =? 0 then ret tot
        else
          let! d := bread addr in
          let m := Z.min (n - tot) (BSIZE - off mod BSIZE) in
          let! um0 := gets um in
          let '(r, um') := either_copyout user_dst dst (take (Z.to_nat m) (drop (Z.to_nat (off mod BSIZE)) d)) um0 in
          modify (set_um um') ;;
          if r =? -1 then ret (-1)
          else readi_loop fuel' i user_dst (u64 (dst + m)) (u32 (off + m)) (tot + m) n
      else ret tot
  end.

(** Iterations: at most one per block touched. *)
Definition copy_fuel (n : Z) : nat := Z.to_nat (n / BSIZE) + 2.

Definition readi (i : nat) (user_dst : bool) (dst off n : Z) : F Z :=
  let! ip := geti i in
  let size := d_size (i_d ip) in
  if (off >? size) || (u32 (off + n) <? off) then ret 0
  else
    let n := if u32 (off + n) >? size then size - off else n in
    readi_loop (copy_fuel n) i user_dst dst off 0 n.

(** The loop of [writei]: the count and the offset reached. *)
Fixpoint writei_loop (fuel : nat) (i : nat) (user_src : bool) (src off tot n : Z) : F (Z * Z) :=
  match fuel with
  | O => ret (tot, off)
  | S fuel' =>
      if tot <? n then
        let! addr := bmap i (off / BSIZE) in
        if addr =? 0 then ret (tot, off)
        else
          let! d := bread addr in
          let m := Z.min (n - tot) (BSIZE - off mod BSIZE) in
          let! um0 := gets um in
          let '(r, bs) := either_copyin user_src src m um0 in
          onlog (bstore addr (splice (Z.to_nat (off mod BSIZE)) bs d)) ;;
          if r =? -1 then ret (tot, off)
          else
            onlog (log_write addr) ;;
            writei_loop fuel' i user_src (u64 (src + m)) (u32 (off + m)) (tot + m) n
      else ret (tot, off)
  end.

Definition writei (i : nat) (user_src : bool) (src off n : Z) : F Z :=
  let! ip := geti i in
  if (off >? d_size (i_d ip)) || (u32 (off + n) <? off) then ret (-1)
  else if u32 (off + n) >? MAXFILE * BSIZE then ret (-1)
  else
    let! r := writei_loop (copy_fuel n) i user_src src off 0 n in
    let '(tot, off) := r in
    let! ip := geti i in
    (if off >? d_size (i_d ip) then puti i (set_d (set_size off (i_d ip)) ip) else ret tt) ;;
    iupdate i ;;
    ret tot.

(** ** Directories *)

(** [strncmp] on the arrays [s] and [t]. *)
Fixpoint strncmp_arr (n : nat) (s t : list Z) : Z :=
  match n with
  | O => 0
  | S n' =>
      let a := hd 0 s in
      let b := hd 0 t in
      if negb (a =? 0) && (a =? b) then strncmp_arr n' (tl s) (tl t) else a - b
  end.
Definition namecmp (s t : list Z) : Z := strncmp_arr DIRSIZ s t.

(** [readi(dp, 0, &de, off, sizeof(de))] and the entry read. *)
Definition read_dirent (dp : nat) (off : Z) (msg : string) : F dirent :=
  let! r := readi dp false de_addr off DIRENT in
  if negb (r =? DIRENT) then panic msg
  else gets (fun s => parse_dirent (load_bytes (um s).2 de_addr 16)).

(** The loop of [dirlookup]: the inode with the offset of its entry. *)
Fixpoint dirlookup_loop (fuel : nat) (dp : nat) (name : list Z) (off : Z) : F (option (nat * Z)) :=
  match fuel with
  | O => ret None
  | S fuel' =>
      let! ip := geti dp in
      if off <? d_size (i_d ip) then
        let! de := read_dirent dp off "dirlookup read" in
        if de_inum de =? 0 then dirlookup_loop fuel' dp name (u32 (off + DIRENT))
        else if namecmp name (de_name de) =? 0 then
          let! i := iget (i_dev ip) (de_inum de) in ret (Some (i, off))
        else dirlookup_loop fuel' dp name (u32 (off + DIRENT))
      else ret None
  end.

Definition dir_fuel (ip : inode) : nat := Z.to_nat (d_size (i_d ip) / DIRENT) + 2.

Definition dirlookup (dp : nat) (name : list Z) : F (option (nat * Z)) :=
  let! ip := geti dp in
  if negb (d_type (i_d ip) =? T_DIR) then panic "dirlookup not DIR"
  else dirlookup_loop (dir_fuel ip) dp name 0.

(** The loop of [dirlink]: the offset of the first empty entry, or the size. *)
Fixpoint find_empty (fuel : nat) (dp : nat) (off : Z) : F Z :=
  match fuel with
  | O => ret off
  | S fuel' =>
      let! ip := geti dp in
      if off <? d_size (i_d ip) then
        let! de := read_dirent dp off "dirlink read" in
        if de_inum de =? 0 then ret off else find_empty fuel' dp (off + DIRENT)
      else ret off
  end.

(** [strncpy(de.name, name, DIRSIZ)]: the string, padded with NULs. *)
Fixpoint strncpy_arr (n : nat) (s : list Z) : list Z :=
  match n with
  | O => []
  | S n' => let c := hd 0 s in if c =? 0 then replicate (S n') 0 else c :: strncpy_arr n' (tl s)
  end.

Definition dirlink (dp : nat) (name : list Z) (inum : Z) : F Z :=
  let! found := dirlookup dp name in
  match found with
  | Some (ip, _) => iput ip ;; ret (-1)
  | None =>
      let! ip := geti dp in
      let! off := find_empty (dir_fuel ip) dp 0 in
      modify (fun s => set_um ((um s).1,
        store_bytes (um s).2 de_addr (dirent_bytes (mkdirent (u16 inum) (strncpy_arr DIRSIZ name)))) s) ;;
      let! r := writei dp false de_addr off DIRENT in
      ret (if negb (r =? DIRENT) then -1 else 0)
  end.

End Fs.

(** ** Paths *)

Definition SLASH : Z := 47.

Fixpoint skip_slashes (path : list Z) : list Z :=
  match path with
  | c :: p => if c =? SLASH then skip_slashes p else path
  | [] => []
  end.

(** The characters up to the next slash, and the rest. *)
Fixpoint take_elem (path : list Z) : list Z * list Z :=
  match path with
  | c :: p => if c =? SLASH then ([], path) else let '(e, r) := take_elem p in (c :: e, r)
  | [] => ([], [])
  end.

(** [skipelem]: the rest of the path and the new contents of [name]. *)
Definition skipelem (path name : list Z) : option (list Z * list Z) :=
  match skip_slashes path with
  | [] => None
  | p =>
      let '(e, r) := take_elem p in
      let name := if (DIRSIZ <=? length e)%nat then take DIRSIZ e else splice 0 (e ++ [0]) name in
      Some (skip_slashes r, name)
  end.

Section Names.
Context {U : Type} `{!UserMem U}.
Context (de_addr : Z).
Abbreviation F := (M (fs U)).

(** The loop of [namex]; also the final contents of [name]. *)
Fixpoint namex_loop (fuel : nat) (ip : nat) (path : list Z) (nameiparent : bool) (name : list Z)
    : F (option nat * list Z) :=
  match fuel with
  | O => ret (None, name)
  | S fuel' =>
      match skipelem path name with
      | None =>
          if nameiparent then iput ip ;; ret (None, name) else ret (Some ip, name)
      | Some (path, name) =>
          ilock ip ;;
          let! x := geti ip in
          if negb (d_type (i_d x) =? T_DIR) then iunlockput ip ;; ret (None, name)
          else if nameiparent && bool_decide (path = []) then iunlock ip ;; ret (Some ip, name)
          else
            let! next := dirlookup de_addr ip name in
            match next with
            | None => iunlockput ip ;; ret (None, name)
            | Some (next, _) => iunlockput ip ;; namex_loop fuel' next path nameiparent name
            end
      end
  end.

(** [namex] from the current directory [cwd]; [name] is the caller's buffer. *)
Definition namex (cwd : nat) (path : list Z) (nameiparent : bool) (name : list Z) : F (option nat * list Z) :=
  let! ip := if hd 0 path =? SLASH then iget ROOTDEV ROOTINO else idup cwd in
  namex_loop (S (length path)) ip path nameiparent name.

Definition namei (cwd : nat) (path name : list Z) : F (option nat) :=
  let! r := namex cwd path false name in ret r.1.
Definition nameiparent (cwd : nat) (path name : list Z) : F (option nat * list Z) :=
  namex cwd path true name.

End Names.
