(* ===== verification/FsAlloc.v ===== *)
(** * The block allocator and block updates of the file system

    [V s] is the current contents of every block.  [log_room l B k] says that a
    transaction is open with space for the blocks of [B] and [k] more; a block
    that is already logged counts once, as [log_write] absorbs it, and the
    blocks of [B] lie after the log on disk.  Under it a logged update changes
    exactly one block of [V].  [lwrites] relates two states of the log between
    which only logged updates happened.

    Theorems: [balloc] returns the first free block, marks exactly it and
    zeroes it, or reports a full disk without changing anything; [bfree] frees
    exactly its block and panics on a free one. *)

From stdpp Require Import gmap list_numbers.
From S2P Require Import Prelude CString Kalloc Vm UserMem Block Log LogSafe Fs.

Lemma size_add_le (x : Z) (X : gset Z) : (size ({[x]} ∪ X) <= 1 + size X)%nat.
Proof.
  rewrite size_union_alt, size_singleton.
  pose proof (subseteq_size (X ∖ {[x]}) X ltac:(set_solver)). lia.
Qed.

Lemma size_list_to_set_le (l : list Z) : (size (list_to_set l : gset Z) <= length l)%nat.
Proof.
  induction l as [|x l IH]; [by rewrite list_to_set_nil, size_empty|]. rewrite list_to_set_cons.
  pose proof (size_add_le x (list_to_set l)). cbn [length]. lia.
Qed.

(** ** Room in the log *)

Definition after_log (l : log) (b : Z) : Prop := 0 <= log_start l /\ log_start l + log_size l <= b < 2 ^ 31.
Definition log_room (l : log) (B : list Z) (k : Z) : Prop :=
  1 <= outstanding l /\ NoDup (lh l) /\ Forall (after_log l) B /\
  Z.of_nat (size (list_to_set (lh l ++ B) : gset Z)) + k < Z.min LOGSIZE (log_size l - 1).

Inductive lwrite (l l' : log) : Prop :=
| lwrite_block b d : after_log l b -> bind (bstore b d) (fun _ => log_write b) l = Done tt l' -> lwrite l l'.
Abbreviation lwrites := (rtc lwrite).

Lemma log_room_le l B j k : j <= k -> log_room l B k -> log_room l B j.
Proof. intros H (? & ? & ? & ?). split_and!; [done|done|done|lia]. Qed.

Lemma log_room_sub l B B' k : B' ⊆ B -> log_room l B k -> log_room l B' k.
Proof.
  intros H (H1 & H2 & HF & H3). split_and!; [done|done| |].
  - rewrite Forall_forall in HF |- *. auto.
  - enough (size (list_to_set (lh l ++ B') : gset Z) <= size (list_to_set (lh l ++ B) : gset Z))%nat by lia.
    apply subseteq_size. rewrite !list_to_set_app. apply union_mono_l. intros x. rewrite !elem_of_list_to_set. apply H.
Qed.

Lemma log_room_home l B k b : log_room l B k -> b ∈ B -> after_log l b.
Proof. intros (_ & _ & HF & _) Hb. rewrite Forall_forall in HF. by apply HF. Qed.

(** Setting one block apart. *)
Lemma log_room_charge l B k b : after_log l b -> log_room l B (k + 1) -> log_room l (b :: B) k.
Proof.
  intros Hb (H1 & H2 & HF & H3). split_and!; [done|done|by apply Forall_cons|].
  enough (size (list_to_set (lh l ++ b :: B) : gset Z) <= 1 + size (list_to_set (lh l ++ B) : gset Z))%nat by lia.
  replace (list_to_set (lh l ++ b :: B) : gset Z) with ({[b]} ∪ list_to_set (lh l ++ B) : gset Z).
  - apply size_add_le.
  - apply leibniz_equiv. rewrite !list_to_set_app, list_to_set_cons. set_solver.
Qed.

Lemma log_write_spec b l B k : b ∈ B -> 0 <= k -> log_room l B k ->
  exists l', log_write b l = Done tt l' /\ view (bio l') = view (bio l) /\ log_room l' B k.
Proof.
  intros Hb Hk Hr. pose proof Hr as (Ho & Hnd & HF & Hn).
  assert (Hlen : (length (lh l) <= size (list_to_set (lh l ++ B) : gset Z))%nat).
  { rewrite <- (size_list_to_set (C := gset Z) (lh l)) by done. apply subseteq_size.
    rewrite list_to_set_app. apply union_subseteq_l. }
  unfold log_write. rewrite !bind_gets.
  destruct (Z.geb_spec (Z.of_nat (length (lh l))) LOGSIZE); [lia|].
  destruct (Z.geb_spec (Z.of_nat (length (lh l))) (log_size l - 1)); [lia|]. cbn [orb].
  destruct (Z.ltb_spec (outstanding l) 1); [lia|]. case_decide as Hin.
  - exists l. done.
  - eexists. split; [reflexivity|]. split; [done|]. split_and!.
    + done.
    + cbn [lh set_lh set_bio]. apply NoDup_app. split; [done|]. split; [|apply NoDup_singleton].
      intros x Hx Hx'. apply list_elem_of_singleton in Hx'. by subst.
    + done.
    + cbn [lh log_size set_lh set_bio]. replace (list_to_set ((lh l ++ [b]) ++ B) : gset Z) with (list_to_set (lh l ++ B) : gset Z); [done|].
      apply leibniz_equiv. intros x. rewrite !elem_of_list_to_set, !elem_of_app, list_elem_of_singleton. naive_solver.
Qed.

(** ** Logged updates *)

Section FsAlloc.
Context {U : Type} `{!UserMem U}.
Abbreviation F := (M (fs U)).

Definition V (s : fs U) : Z -> block := view (bio (lg s)).

Lemma update_block_spec b d s B k : b ∈ B -> 0 <= k -> log_room (lg s) B k ->
  exists l', update_block b d s = Done tt (set_lg l' s) /\
    view (bio l') = updb (V s) b d /\ log_room l' B k /\ lwrites (lg s) l'.
Proof.
  intros Hb Hk Hr. unfold update_block.
  assert (Hw : exists l', bind (bstore b d) (fun _ => log_write b) (lg s) = Done tt l' /\ view (bio l') = updb (V s) b d /\ log_room l' B k).
  { unfold bstore. rewrite bind_modify. set (l1 := set_bio _ _).
    destruct (log_write_spec b l1 B k Hb Hk) as (l' & -> & Hv & Hr'); [done|]. exists l'. split; [done|]. split; [by rewrite Hv|done]. }
  destruct Hw as (l' & Hw & Hv & Hr'). exists l'. split; [unfold onlog; by rewrite Hw|]. split; [done|]. split; [done|].
  apply rtc_once. exists b d; [by eapply log_room_home|done].
Qed.

Lemma bread_eq b (s : fs U) : bread b s = Done (V s b) s.
Proof. unfold bread, onlog, Log.bread, gets. by destruct s. Qed.

(** ** The bitmap *)

(** Geometry: the bitmap has its own blocks, before the data blocks. *)
Definition bitmap_blocks (sb0 : superblock) : Z := (sb_size sb0 + BPB - 1) / BPB.
Definition datastart (sb0 : superblock) : Z := sb_bmapstart sb0 + bitmap_blocks sb0.

Definition allocated (sb0 : superblock) (v : Z -> block) (b : Z) : bool :=
  bit_test (v (BBLOCK b sb0)) (b mod BPB).

(** Bitmap blocks are whole blocks of bytes, and the blocks before the data
    region are marked in use. *)
Record bitmap_ok (sb0 : superblock) (v : Z -> block) : Prop := {
  bm_size : 0 < sb_size sb0 <= 2 ^ 31;
  bm_start : 0 < sb_bmapstart sb0;
  bm_block b : 0 <= b < sb_size sb0 -> bsize (v (BBLOCK b sb0));
  bm_bytes b : 0 <= b < sb_size sb0 -> Forall (fun x => 0 <= x < 256) (v (BBLOCK b sb0));
  bm_meta b : 0 <= b < datastart sb0 -> b < sb_size sb0 -> allocated sb0 v b = true
}.

Lemma BPB_eq : BPB = 8192. Proof. done. Qed.

Lemma bbloc_range sb0 b : 0 <= b < sb_size sb0 ->
  sb_bmapstart sb0 <= BBLOCK b sb0 < datastart sb0.
Proof.
  intros Hb. unfold BBLOCK, datastart, bitmap_blocks. rewrite BPB_eq.
  pose proof (Z.div_pos b 8192). assert (b / 8192 < (sb_size sb0 + 8192 - 1) / 8192); [|lia].
  apply Z.div_lt_upper_bound; [lia|]. pose proof (Z.div_mod (sb_size sb0 + 8192 - 1) 8192).
  pose proof (Z.mod_pos_bound (sb_size sb0 + 8192 - 1) 8192). lia.
Qed.

(** ** Bits of a block *)

Lemma bit_mask_pow bi : bit_mask bi = 2 ^ (bi mod 8).
Proof. unfold bit_mask. apply Z.shiftl_1_l. Qed.

Lemma bit_test_spec d bi : 0 <= bi ->
  bit_test d bi = Z.testbit (nth (Z.to_nat (bi / 8)) d 0) (bi mod 8).
Proof.
  intros Hbi. unfold bit_test. rewrite bit_mask_pow. pose proof (Z.mod_pos_bound bi 8).
  set (x := nth _ _ _). set (n := bi mod 8) in *. destruct (Z.testbit x n) eqn:Hb.
  - apply negb_true_iff, Z.eqb_neq. intros He. apply (f_equal (fun z => Z.testbit z n)) in He.
    rewrite Z.land_spec, Hb, Z.pow2_bits_true, Z.bits_0 in He by lia. done.
  - apply negb_false_iff, Z.eqb_eq. apply Z.bits_inj'. intros i Hi. rewrite Z.land_spec, Z.bits_0.
    destruct (decide (i = n)) as [->|]; [by rewrite Hb|].
    rewrite Z.pow2_bits_false by lia. apply andb_false_r.
Qed.

Lemma byte_index bi bi' : 0 <= bi -> 0 <= bi' -> bi / 8 = bi' / 8 -> bi mod 8 = bi' mod 8 -> bi = bi'.
Proof. intros. pose proof (Z.div_mod bi 8). pose proof (Z.div_mod bi' 8). lia. Qed.

(** Changing one bit: [f] is the new byte. *)
Section OneBit.
Context (d : block) (bi : Z) (f : Z -> Z) (v : bool).
Context (Hlen : bsize d) (Hbi : 0 <= bi < BPB).
Context (Hf : forall i, 0 <= i < 8 ->
  Z.testbit (f (nth (Z.to_nat (bi / 8)) d 0)) i =
    if i =? bi mod 8 then v else Z.testbit (nth (Z.to_nat (bi / 8)) d 0) i).

Lemma one_bit bi' : 0 <= bi' < BPB ->
  bit_test (<[Z.to_nat (bi / 8) := f (nth (Z.to_nat (bi / 8)) d 0)]> d) bi' =
    if bi' =? bi then v else bit_test d bi'.
Proof.
  intros Hbi'. rewrite !bit_test_spec by lia. rewrite BPB_eq in *.
  assert (Hq : 0 <= bi / 8 < 1024) by (split; [apply Z.div_pos; lia|apply Z.div_lt_upper_bound; lia]).
  assert (Hq' : 0 <= bi' / 8 < 1024) by (split; [apply Z.div_pos; lia|apply Z.div_lt_upper_bound; lia]).
  pose proof (Z.mod_pos_bound bi 8). pose proof (Z.mod_pos_bound bi' 8).
  destruct (Z.eq_dec (bi' / 8) (bi / 8)) as [He|He].
  - rewrite He, nth_lookup_eq by (unfold bsize, BSIZE in Hlen; lia). rewrite Hf by lia.
    destruct (Z.eqb_spec (bi' mod 8) (bi mod 8)) as [Hm|Hm], (Z.eqb_spec bi' bi) as [Hb|Hb]; try done.
    + destruct Hb. apply byte_index; lia.
    + by rewrite Hb in Hm.
  - rewrite nth_lookup_ne by lia. destruct (Z.eqb_spec bi' bi) as [->|]; [done|done].
Qed.
End OneBit.

Lemma byte_nth d i : Forall (fun x => 0 <= x < 256) d -> 0 <= nth i d 0 < 256.
Proof.
  intros HF. destruct (nth_lookup_or_length d i 0) as [Hl|Hl].
  - rewrite Forall_lookup in HF. by apply (HF _ _ Hl).
  - rewrite nth_overflow by lia. lia.
Qed.

Lemma bit_set_spec d bi bi' :
  bsize d -> Forall (fun x => 0 <= x < 256) d -> 0 <= bi < BPB -> 0 <= bi' < BPB ->
  bit_test (bit_set d bi) bi' = if bi' =? bi then true else bit_test d bi'.
Proof.
  intros Hd HF Hbi Hbi'. unfold bit_set.
  apply (one_bit d bi (fun x => u8 (Z.lor x (bit_mask bi))) true); try done.
  intros i Hi. unfold u8. rewrite Z.mod_pow2_bits_low by lia. rewrite Z.lor_spec, bit_mask_pow.
  pose proof (Z.mod_pos_bound bi 8). destruct (Z.eqb_spec i (bi mod 8)) as [->|].
  - rewrite Z.pow2_bits_true by lia. apply orb_true_r.
  - rewrite Z.pow2_bits_false by lia. apply orb_false_r.
Qed.

Lemma bit_clear_spec d bi bi' :
  bsize d -> 0 <= bi < BPB -> 0 <= bi' < BPB ->
  bit_test (bit_clear d bi) bi' = if bi' =? bi then false else bit_test d bi'.
Proof.
  intros Hd Hbi Hbi'. unfold bit_clear.
  apply (one_bit d bi (fun x => Z.ldiff x (bit_mask bi)) false); try done.
  intros i Hi. rewrite Z.ldiff_spec, bit_mask_pow.
  pose proof (Z.mod_pos_bound bi 8). destruct (Z.eqb_spec i (bi mod 8)) as [->|].
  - rewrite Z.pow2_bits_true by lia. apply andb_false_r.
  - rewrite Z.pow2_bits_false by lia. apply andb_true_r.
Qed.

Lemma bit_set_size d bi : bsize d -> bsize (bit_set d bi).
Proof. unfold bsize, bit_set. by rewrite length_insert. Qed.
Lemma bit_clear_size d bi : bsize d -> bsize (bit_clear d bi).
Proof. unfold bsize, bit_clear. by rewrite length_insert. Qed.
Lemma bit_set_bytes d bi :
  Forall (fun x => 0 <= x < 256) d -> Forall (fun x => 0 <= x < 256) (bit_set d bi).
Proof. intros. apply Forall_insert; [done|]. apply u8_range. Qed.
Lemma bit_clear_bytes d bi :
  Forall (fun x => 0 <= x < 256) d -> Forall (fun x => 0 <= x < 256) (bit_clear d bi).
Proof.
  intros HF. apply Forall_insert; [done|]. pose proof (byte_nth d (Z.to_nat (bi / 8)) HF) as Hb.
  set (x := nth _ _ _) in *. rewrite bit_mask_pow.
  assert (He : Z.ldiff x (2 ^ (bi mod 8)) = Z.ldiff x (2 ^ (bi mod 8)) mod 2 ^ 8).
  { apply Z.bits_inj'. intros i Hi. destruct (Z.lt_ge_cases i 8).
    - by rewrite Z.mod_pow2_bits_low by lia.
    - rewrite Z.mod_pow2_bits_high, Z.ldiff_spec by lia.
      rewrite <- (Z.mod_small x (2 ^ 8)) by lia. by rewrite Z.mod_pow2_bits_high by lia. }
  rewrite He. apply Z.mod_pos_bound. lia.
Qed.

(** ** [balloc] *)

Lemma find_clear_spec n : forall d bi, 0 <= bi ->
  match find_clear n d bi with
  | Some k => bi <= k < bi + Z.of_nat n /\ bit_test d k = false /\
      forall j, bi <= j < k -> bit_test d j = true
  | None => forall j, bi <= j < bi + Z.of_nat n -> bit_test d j = true
  end.
Proof.
  induction n as [|n IH]; intros d bi Hbi; cbn [find_clear]; [intros; lia|].
  destruct (bit_test d bi) eqn:Hb.
  - specialize (IH d (bi + 1) ltac:(lia)). destruct (find_clear n d (bi + 1)) as [k|].
    + destruct IH as (H1 & H2 & H3). split; [lia|]. split; [done|]. intros j Hj.
      destruct (Z.eq_dec j bi) as [->|]; [done|]. apply H3. lia.
    + intros j Hj. destruct (Z.eq_dec j bi) as [->|]; [done|]. apply IH. lia.
  - split; [lia|]. split; [done|]. intros; lia.
Qed.

Lemma group_block sb0 b j : 0 <= b -> b mod BPB = 0 -> 0 <= j < BPB ->
  BBLOCK (b + j) sb0 = BBLOCK b sb0 /\ (b + j) mod BPB = j.
Proof.
  intros Hb Hm Hj. rewrite BPB_eq in *. unfold BBLOCK. rewrite BPB_eq.
  pose proof (Z.div_mod b 8192). split.
  - f_equal. symmetry. apply (Z.div_unique _ _ _ j); lia.
  - symmetry. apply (Z.mod_unique _ _ (b / 8192)); lia.
Qed.

(** What an allocation leaves: [r] marked and zeroed, nothing else changed. *)
Record took (sb0 : superblock) (v v' : Z -> block) (r : Z) : Prop := {
  tk_range : datastart sb0 <= r < sb_size sb0;
  tk_was : allocated sb0 v r = false;
  tk_now b : 0 <= b < sb_size sb0 -> allocated sb0 v' b = if b =? r then true else allocated sb0 v b;
  tk_zero : v' r = replicate (Z.to_nat BSIZE) 0;
  tk_other x : x <> r -> ~ (sb_bmapstart sb0 <= x < datastart sb0) -> v' x = v x;
  tk_bitmap : bitmap_ok sb0 v'
}.

Lemma took_intro sb0 v bb bi :
  bitmap_ok sb0 v -> 0 <= bb -> bb mod BPB = 0 -> 0 <= bi < BPB -> bb + bi < sb_size sb0 ->
  bit_test (v (BBLOCK bb sb0)) bi = false ->
  took sb0 v (updb (updb v (BBLOCK bb sb0) (bit_set (v (BBLOCK bb sb0)) bi)) (bb + bi)
                (replicate (Z.to_nat BSIZE) 0)) (bb + bi).
Proof.
  intros Hok Hbb Hm Hbi Hlt Ht. destruct (group_block sb0 bb bi Hbb Hm Hbi) as [Hg Hgm].
  assert (Hal : allocated sb0 v (bb + bi) = false) by (unfold allocated; by rewrite Hg, Hgm).
  assert (Hds : datastart sb0 <= bb + bi).
  { destruct (Z.le_gt_cases (datastart sb0) (bb + bi)); [done|].
    rewrite (bm_meta sb0 v Hok) in Hal by lia. done. }
  set (v1 := updb v _ _). set (v2 := updb v1 _ _).
  assert (Hbm : forall b, 0 <= b < sb_size sb0 -> v2 (BBLOCK b sb0) = v1 (BBLOCK b sb0)).
  { intros b Hb. pose proof (bbloc_range sb0 b Hb). unfold v2. apply updb_ne. lia. }
  assert (Hsame : forall b, 0 <= b < sb_size sb0 ->
    v1 (BBLOCK b sb0) = if BBLOCK b sb0 =? BBLOCK bb sb0 then bit_set (v (BBLOCK b sb0)) bi else v (BBLOCK b sb0)).
  { intros b Hb. unfold v1, updb. destruct (Z.eqb_spec (BBLOCK b sb0) (BBLOCK bb sb0)) as [->|]; done. }
  assert (Hnow : forall b, 0 <= b < sb_size sb0 ->
    allocated sb0 v2 b = if b =? bb + bi then true else allocated sb0 v b).
  { intros b Hb. unfold allocated. rewrite Hbm, Hsame by done. pose proof (Z.mod_pos_bound b BPB ltac:(done)).
    destruct (Z.eqb_spec (BBLOCK b sb0) (BBLOCK bb sb0)) as [He|He].
    - rewrite bit_set_spec; [|apply Hok; done|apply Hok; done|done|done].
      assert (Hbe : b / BPB = bb / BPB) by (unfold BBLOCK in He; lia).
      pose proof (Z.div_mod b BPB ltac:(done)). pose proof (Z.div_mod bb BPB ltac:(done)).
      destruct (Z.eqb_spec (b mod BPB) bi), (Z.eqb_spec b (bb + bi)); try done; lia.
    - destruct (Z.eqb_spec b (bb + bi)) as [->|]; [by rewrite Hg in He|done]. }
  split; [lia|done|done|apply updb_eq| |].
  - intros x Hx Hnb. unfold v2, v1. rewrite !updb_ne; [done| |done].
    intros ->. apply Hnb. apply bbloc_range. pose proof (bm_size sb0 v Hok). lia.
  - destruct Hok as [K1 K2 K3 K4 K5]. split; [done|done| | |].
    + intros b Hb. rewrite Hbm, Hsame by done. destruct (_ =? _); [apply bit_set_size|]; by apply K3.
    + intros b Hb. rewrite Hbm, Hsame by done. destruct (_ =? _); [apply bit_set_bytes|]; by apply K4.
    + intros b Hb Hs. rewrite Hnow by lia. destruct (_ =? _); [done|]. by apply K5.
Qed.

(** The blocks of the bitmap. *)
Definition bitmap_list (sb0 : superblock) : list Z := seqZ (sb_bmapstart sb0) (bitmap_blocks sb0).

Lemma bbloc_in sb0 b B : 0 <= b < sb_size sb0 -> bitmap_list sb0 ⊆ B -> BBLOCK b sb0 ∈ B.
Proof. intros Hb HB. apply HB. unfold bitmap_list. apply elem_of_seqZ. by apply bbloc_range. Qed.

(** Data blocks lie after the log. *)
Lemma data_after_log l sb0 v B k b : bitmap_ok sb0 v -> bitmap_list sb0 ⊆ B -> log_room l B k ->
  datastart sb0 <= b < sb_size sb0 -> after_log l b.
Proof.
  intros Hbm HB Hr Hb. pose proof (bm_size _ _ Hbm).
  destruct (log_room_home l B k (BBLOCK 0 sb0) Hr) as [H0 [H1 H2]]; [apply bbloc_in; [lia|done]|].
  assert (HB0 : BBLOCK 0 sb0 = sb_bmapstart sb0) by (unfold BBLOCK; rewrite Z.div_0_l by done; lia).
  rewrite HB0 in *. unfold datastart, bitmap_blocks in Hb. pose proof (Z.div_pos (sb_size sb0 + BPB - 1) BPB).
  rewrite BPB_eq in *. split; [done|]. lia.
Qed.

Definition add_out (m : string) (s : fs U) : fs U := mkfs (sb s) (lg s) (itable s) (um s) (m :: out s).

Lemma balloc_loop_spec s B k : bitmap_ok (sb s) (V s) -> 0 <= k -> bitmap_list (sb s) ⊆ B -> log_room (lg s) B (k + 1) ->
  forall n b, 0 <= b -> b mod BPB = 0 ->
  b + Z.of_nat n * BPB < sb_size (sb s) + BPB -> sb_size (sb s) <= b + Z.of_nat n * BPB ->
  (forall j, 0 <= j < b -> j < sb_size (sb s) -> allocated (sb s) (V s) j = true) ->
  (exists r l', balloc_loop n b s = Done r (set_lg l' s) /\ took (sb s) (V s) (view (bio l')) r /\
     (forall j, 0 <= j < r -> allocated (sb s) (V s) j = true) /\ log_room l' (r :: B) k /\ lwrites (lg s) l') \/
  (balloc_loop n b s = Done 0 (add_out "balloc: out of blocks" s) /\
     forall j, 0 <= j < sb_size (sb s) -> allocated (sb s) (V s) j = true).
Proof.
  intros Hok Hk HB Hroom. induction n as [|n IH]; intros b Hb Hm Hlo Hhi Hall; cbn [balloc_loop].
  { right. split; [done|]. intros j Hj. apply Hall; lia. }
  rewrite bind_gets. rewrite (bind_Done _ _ _ _ _ (bread_eq _ s)).
  set (cnt := Z.min BPB (sb_size (sb s) - b)).
  pose proof (find_clear_spec (Z.to_nat cnt) (V s (BBLOCK b (sb s))) 0 ltac:(lia)) as Hf.
  assert (Hcnt : 0 < cnt <= BPB) by (unfold cnt; rewrite BPB_eq in *; lia).
  assert (Hgroup : forall j, 0 <= j < BPB -> allocated (sb s) (V s) (b + j) = bit_test (V s (BBLOCK b (sb s))) j).
  { intros j Hj. unfold allocated. destruct (group_block (sb s) b j Hb Hm Hj) as [-> ->]. done. }
  destruct (find_clear (Z.to_nat cnt) (V s (BBLOCK b (sb s))) 0) as [bi|].
  - destruct Hf as (H1 & H2 & H3). left.
    assert (Hok1 : took (sb s) (V s) (updb (updb (V s) (BBLOCK b (sb s)) (bit_set (V s (BBLOCK b (sb s))) bi)) (b + bi)
      (replicate (Z.to_nat BSIZE) 0)) (b + bi)) by (apply took_intro; try done; unfold cnt in *; lia).
    assert (Hroom' : log_room (lg s) (b + bi :: B) k).
    { apply log_room_charge; [|done]. eapply data_after_log; [exact Hok|exact HB|exact Hroom|apply Hok1]. }
    destruct (update_block_spec (BBLOCK b (sb s)) (bit_set (V s (BBLOCK b (sb s))) bi) s (b + bi :: B) k)
      as (l1 & Hu1 & Hv1 & Hr1 & Hl1); [|done|done|].
    { apply list_elem_of_further. apply bbloc_in; [unfold cnt in *; lia|done]. }
    rewrite (bind_Done _ _ _ _ _ Hu1).
    destruct (update_block_spec (b + bi) (replicate (Z.to_nat BSIZE) 0) (set_lg l1 s) _ k (list_elem_of_here _ _) Hk Hr1) as (l2 & Hu2 & Hv2 & Hr2 & Hl2).
    unfold bzero. rewrite (bind_Done _ _ _ _ _ Hu2).
    exists (b + bi), l2. split; [done|]. split; [|split; [|split; [done|by etrans]]].
    + rewrite Hv2. unfold V at 2. cbn [lg set_lg]. by rewrite Hv1.
    + intros j Hj. destruct (Z.lt_ge_cases j b); [apply Hall; unfold cnt in *; lia|].
      replace j with (b + (j - b)) by lia. rewrite Hgroup by lia. apply H3. lia.
  - apply IH; [lia| | |lia|].
    + by rewrite <- Z.add_mod_idemp_r, Z.mod_same, Z.add_0_r by done.
    + lia.
    + intros j Hj Hs. destruct (Z.lt_ge_cases j b); [apply Hall; lia|].
      replace j with (b + (j - b)) by lia. rewrite Hgroup by lia. apply Hf. unfold cnt. lia.
Qed.

Lemma balloc_spec s B k : bitmap_ok (sb s) (V s) -> 0 <= k -> bitmap_list (sb s) ⊆ B -> log_room (lg s) B (k + 1) ->
  (exists r l', balloc s = Done r (set_lg l' s) /\ took (sb s) (V s) (view (bio l')) r /\
     (forall j, 0 <= j < r -> allocated (sb s) (V s) j = true) /\ log_room l' (r :: B) k /\ lwrites (lg s) l') \/
  (balloc s = Done 0 (add_out "balloc: out of blocks" s) /\
     forall j, 0 <= j < sb_size (sb s) -> allocated (sb s) (V s) j = true).
Proof.
  intros Hok Hk HB Hr. unfold balloc. rewrite bind_gets. pose proof (bm_size _ _ Hok).
  pose proof (Z.div_mod (sb_size (sb s) + BPB - 1) BPB ltac:(done)).
  pose proof (Z.mod_pos_bound (sb_size (sb s) + BPB - 1) BPB ltac:(done)).
  pose proof (Z.div_pos (sb_size (sb s) + BPB - 1) BPB). rewrite BPB_eq in *.
  apply (balloc_loop_spec s B k Hok Hk HB Hr); try done; rewrite ?BPB_eq, ?Z2Nat.id; lia.
Qed.

(** C22: inside a transaction [balloc] returns the lowest free block, marks exactly that block in the
    bitmap and zeroes it, changing no other block; when every block is in use
    it reports a full disk, returns 0 and changes no block. *)
Theorem balloc_takes_first_free (s : fs U) :
  bitmap_ok (sb s) (V s) -> log_room (lg s) (bitmap_list (sb s)) 1 ->
  (exists r l', balloc s = Done r (set_lg l' s) /\ took (sb s) (V s) (view (bio l')) r /\
     forall j, 0 <= j < r -> allocated (sb s) (V s) j = true) \/
  (balloc s = Done 0 (add_out "balloc: out of blocks" s) /\
     forall j, 0 <= j < sb_size (sb s) -> allocated (sb s) (V s) j = true).
Proof.
  intros Hok Hr. destruct (balloc_spec s _ 0 Hok ltac:(lia) ltac:(done) Hr) as [(r & l' & H1 & H2 & H3 & _)|H].
  - left. by exists r, l'.
  - by right.
Qed.

(** What frees leave: the bits of [l] clear, no other bit or block changed. *)
Record freed (sb0 : superblock) (v v' : Z -> block) (l : list Z) : Prop := {
  fr_now j : 0 <= j < sb_size sb0 -> allocated sb0 v' j = if decide (j ∈ l) then false else allocated sb0 v j;
  fr_other x : ~ (sb_bmapstart sb0 <= x < datastart sb0) -> v' x = v x;
  fr_bitmap : bitmap_ok sb0 v';
  fr_blocks : (forall b, bsize (v b) /\ Forall (fun x => 0 <= x < 256) (v b)) -> forall b, bsize (v' b) /\ Forall (fun x => 0 <= x < 256) (v' b)
}.

Lemma bfree_spec (s : fs U) (b : Z) B k :
  bitmap_ok (sb s) (V s) -> 0 <= k -> bitmap_list (sb s) ⊆ B -> log_room (lg s) B k -> datastart (sb s) <= b < sb_size (sb s) ->
  allocated (sb s) (V s) b = true ->
  exists l', bfree b s = Done tt (set_lg l' s) /\ freed (sb s) (V s) (view (bio l')) [b] /\ log_room l' B k /\ lwrites (lg s) l'.
Proof.
  intros Hok Hk HB Hr Hb Ha. unfold bfree. rewrite bind_gets, (bind_Done _ _ _ _ _ (bread_eq _ s)).
  fold (allocated (sb s) (V s) b). rewrite Ha. cbn [negb].
  pose proof (bm_start _ _ Hok) as Hst.
  assert (Hds : sb_bmapstart (sb s) <= datastart (sb s)).
  { unfold datastart, bitmap_blocks. pose proof (bm_size _ _ Hok).
    pose proof (Z.div_pos (sb_size (sb s) + BPB - 1) BPB). rewrite BPB_eq in *. lia. }
  assert (Hb0 : 0 <= b < sb_size (sb s)) by lia.
  pose proof (Z.mod_pos_bound b BPB ltac:(done)) as Hbi.
  destruct (update_block_spec (BBLOCK b (sb s)) (bit_clear (V s (BBLOCK b (sb s))) (b mod BPB)) s B k)
    as (l' & Hu & Hv & Hr' & Hlw); [by apply bbloc_in|done|done|].
  exists l'. split; [done|]. split; [|done]. rewrite Hv.
  assert (Hnow : forall j, 0 <= j < sb_size (sb s) ->
    allocated (sb s) (updb (V s) (BBLOCK b (sb s)) (bit_clear (V s (BBLOCK b (sb s))) (b mod BPB))) j =
      if j =? b then false else allocated (sb s) (V s) j).
  { intros j Hj. unfold allocated. pose proof (Z.mod_pos_bound j BPB ltac:(done)).
    destruct (decide (BBLOCK j (sb s) = BBLOCK b (sb s))) as [He|He].
    - rewrite He, updb_eq, bit_clear_spec; [|by apply Hok|done|done].
      assert (Hd : j / BPB = b / BPB) by (unfold BBLOCK in He; lia).
      pose proof (Z.div_mod j BPB ltac:(done)). pose proof (Z.div_mod b BPB ltac:(done)).
      destruct (Z.eqb_spec (j mod BPB) (b mod BPB)), (Z.eqb_spec j b); try done; lia.
    - rewrite updb_ne by done. destruct (Z.eqb_spec j b) as [->|]; done. }
  split.
  - intros j Hj. rewrite Hnow by done. destruct (Z.eqb_spec j b) as [->|Hne]; [by rewrite decide_True by (by left)|].
    rewrite decide_False; [done|]. by intros ->%list_elem_of_singleton.
  - intros x Hx. apply updb_ne. intros ->. apply Hx. by apply bbloc_range.
  - destruct Hok as [K1 K2 K3 K4 K5]. split; [done|done| | |].
    + intros j Hj. unfold updb. destruct (_ =? _); [apply bit_clear_size|]; by apply K3.
    + intros j Hj. unfold updb. destruct (_ =? _); [apply bit_clear_bytes|]; by apply K4.
    + intros j Hj Hs. rewrite Hnow by lia. destruct (Z.eqb_spec j b); [lia|]. by apply K5.
  - intros Hblk x. unfold updb. destruct (_ =? _); [|apply Hblk]. destruct (Hblk (BBLOCK b (sb s))).
    split; [by apply bit_clear_size|by apply bit_clear_bytes].
Qed.

(** [bfree] of a data block in use clears exactly its bit and changes no other block;
    freeing a free block panics. *)
Theorem bfree_frees (s : fs U) (b : Z) :
  bitmap_ok (sb s) (V s) -> log_room (lg s) (bitmap_list (sb s)) 0 -> datastart (sb s) <= b < sb_size (sb s) ->
  if allocated (sb s) (V s) b then
    exists l', bfree b s = Done tt (set_lg l' s) /\ freed (sb s) (V s) (view (bio l')) [b]
  else bfree b s = Panic "freeing free block".
Proof.
  intros Hok Hr Hb. destruct (allocated (sb s) (V s) b) eqn:Ha.
  - destruct (bfree_spec s b (bitmap_list (sb s)) 0 Hok ltac:(lia) ltac:(done) Hr Hb Ha) as (l' & H1 & H2 & _). by exists l'.
  - unfold bfree. rewrite bind_gets, (bind_Done _ _ _ _ _ (bread_eq _ s)). fold (allocated (sb s) (V s) b). by rewrite Ha.
Qed.

End FsAlloc.

(** Less room than a hypothesis gives. *)
Ltac log_room_from H := eapply log_room_le; [|exact H]; lia.

(** ** A small disk *)

(** 64 blocks: the bitmap is block 33, blocks 0 to 33 are in use. *)
Definition demo_sb : superblock := mksb FSMAGIC 64 30 16 30 2 32 33.
Definition demo_bitmap : block := [255; 255; 255; 255; 3] ++ replicate 1019 0.
Definition demo_view : Z -> block := fun b => if b =? 33 then demo_bitmap else replicate 1024 0.
Definition demo_log : log := mklog 2 30 1 false [] (mkbdev demo_view demo_view [] []).
Definition demo_fs {U} (u : U) (tab : list inode) : fs U := mkfs demo_sb demo_log tab (u, ramp) [].

Lemma demo_bitmap_ok : bitmap_ok demo_sb demo_view.
Proof.
  assert (HB : forall b, 0 <= b < sb_size demo_sb -> demo_view (BBLOCK b demo_sb) = demo_bitmap).
  { intros b Hb. cbn [demo_sb sb_size] in Hb. unfold BBLOCK. rewrite BPB_eq, Z.div_small by lia. done. }
  split; [done|done| | |].
  - intros b Hb. by rewrite HB.
  - intros b Hb. rewrite HB by done. unfold demo_bitmap. apply Forall_app. split.
    + repeat (apply Forall_cons; split; [lia|]). apply List.Forall_nil.
    + apply Forall_replicate. lia.
  - intros b Hb _. change (datastart demo_sb) with 34 in Hb.
    assert (H : forallb (fun i => allocated demo_sb demo_view (Z.of_nat i)) (seq 0 34) = true) by (vm_compute; reflexivity).
    rewrite forallb_forall in H. rewrite <- (Z2Nat.id b) by lia. apply H. apply in_seq. lia.
Qed.

Lemma empty_log_room l B k : 1 <= outstanding l -> lh l = [] ->
  Z.of_nat (length B) + k < Z.min LOGSIZE (log_size l - 1) -> Forall (after_log l) B -> log_room l B k.
Proof.
  intros H1 H2 H3 H4. unfold log_room. rewrite H2. split_and!; [done|apply NoDup_nil_2|done|]. cbn [app].
  pose proof (size_list_to_set_le B). lia.
Qed.

Lemma balloc_takes_first_free_witness :
  exists l', balloc (U := list Z) (demo_fs [] []) = Done 34 (set_lg l' (demo_fs [] [])) /\
    took demo_sb demo_view (view (bio l')) 34.
Proof.
  assert (Hroom : log_room demo_log (bitmap_list demo_sb) 1) by (by apply empty_log_room; [..|repeat constructor]).
  destruct (balloc_takes_first_free (U := list Z) (demo_fs [] []) demo_bitmap_ok Hroom)
    as [(r & l' & H1 & H2 & H3)|[_ H]].
  - exists l'. assert (r = 34) as ->; [|split; [exact H1|exact H2]].
    destruct H2 as [Hr Hw _ _ _ _]. change (datastart (sb (demo_fs (@nil Z) []))) with 34 in Hr.
    destruct (Z.eq_dec r 34); [done|]. specialize (H3 34 ltac:(lia)). vm_compute in H3. discriminate H3.
  - specialize (H 34 ltac:(cbn; lia)). vm_compute in H. discriminate H.
Defined.

(** Block 34 in use. *)
Definition demo_view1 : Z -> block := updb demo_view 33 (bit_set demo_bitmap 34).
Definition demo_log1 : log := mklog 2 30 1 false [] (mkbdev demo_view1 demo_view [] []).
Definition demo_fs1 {U} (u : U) (tab : list inode) : fs U := mkfs demo_sb demo_log1 tab (u, ramp) [].

Lemma demo_bitmap_ok1 : bitmap_ok demo_sb demo_view1.
Proof.
  pose proof demo_bitmap_ok as Hok.
  assert (HB : forall b, 0 <= b < sb_size demo_sb -> BBLOCK b demo_sb = 33).
  { intros b Hb. cbn [demo_sb sb_size] in Hb. unfold BBLOCK. rewrite BPB_eq, Z.div_small by lia. done. }
  split; [done|done| | |].
  - intros b Hb. rewrite HB by done. apply bit_set_size. done.
  - intros b Hb. rewrite HB by done. apply bit_set_bytes. apply (bm_bytes _ _ Hok 0). done.
  - intros b Hb _. change (datastart demo_sb) with 34 in Hb.
    assert (H : forallb (fun i => allocated demo_sb demo_view1 (Z.of_nat i)) (seq 0 34) = true) by (vm_compute; reflexivity).
    rewrite forallb_forall in H. rewrite <- (Z2Nat.id b) by lia. apply H. apply in_seq. lia.
Qed.

Lemma bfree_frees_witness :
  (exists l', bfree (U := list Z) 34 (demo_fs1 [] []) = Done tt (set_lg l' (demo_fs1 [] []))) /\
  bfree (U := list Z) 40 (demo_fs1 [] []) = Panic "freeing free block".
Proof.
  assert (Hr : log_room demo_log1 (bitmap_list demo_sb) 0) by (by apply empty_log_room; [..|repeat constructor]).
  pose proof (bfree_frees (U := list Z) (demo_fs1 [] []) 34 demo_bitmap_ok1 Hr ltac:(cbn; vm_compute; split; done)) as H1.
  pose proof (bfree_frees (U := list Z) (demo_fs1 [] []) 40 demo_bitmap_ok1 Hr ltac:(cbn; vm_compute; split; done)) as H2.
  change (allocated (sb (demo_fs1 (@nil Z) [])) (V (demo_fs1 (@nil Z) [])) 40) with false in H2.
  replace (allocated (sb (demo_fs1 (@nil Z) [])) (V (demo_fs1 (@nil Z) [])) 34) with true in H1 by (vm_compute; reflexivity).
  destruct H1 as (l' & H1 & _). split; [exists l'; exact H1|exact H2].
Defined.
