(* ===== verification/FsInode.v ===== *)
(** * Files: inode blocks and [bmap]

    The blocks of an inode are its 269 slots: 12 direct addresses, the indirect
    block, and the 256 entries of the indirect block.  [inode_ok] says that the
    slots in use are distinct allocated data blocks.  [grew] relates an inode
    before and after blocks were added to it: every slot keeps its block, every
    data block its contents, and no other block of the disk changes.

    Lemmas: [bmap] finds the block of an offset, or adds one without changing
    anything else ([FsFile] and [FsWrite] use them for reads and writes). *)

From S2P Require Import Prelude CString Kalloc Vm UserMem Block Log Fs FsAlloc.

Definition NSLOT : nat := 269.

(** Slot [k] of an inode: its block number, 0 when there is none. *)
Definition slot (v : Z -> block) (d : dinode) (k : nat) : Z :=
  if (k <? 13)%nat then nth k (d_addrs d) 0
  else
    let ind := nth 12 (d_addrs d) 0 in
    if ind =? 0 then 0 else rd32 (v ind) (k - 13).

(** The slot of file block [bn]. *)
Definition bslot (bn : Z) : nat := if bn <? 12 then Z.to_nat bn else S (Z.to_nat bn).
Definition iblk (v : Z -> block) (d : dinode) (bn : Z) : Z := slot v d (bslot bn).

Record inode_ok (sb0 : superblock) (v : Z -> block) (d : dinode) : Prop := {
  io_max : sb_size sb0 <= 2 ^ 32;
  io_len : length (d_addrs d) = 13%nat;
  io_data k : (k < NSLOT)%nat -> slot v d k <> 0 ->
    datastart sb0 <= slot v d k < sb_size sb0 /\ allocated sb0 v (slot v d k) = true;
  io_inj k k' : (k < NSLOT)%nat -> (k' < NSLOT)%nat -> slot v d k <> 0 -> slot v d k = slot v d k' -> k = k';
  io_ind : slot v d 12 <> 0 -> bsize (v (slot v d 12))
}.

(** Same type, device numbers, links and size. *)
Definition same_meta (d d' : dinode) : Prop :=
  d_type d' = d_type d /\ d_major d' = d_major d /\ d_minor d' = d_minor d /\
  d_nlink d' = d_nlink d /\ d_size d' = d_size d.

(** Every block is [BSIZE] bytes, the type of [b->data]. *)
Definition block_ok (b : block) : Prop := bsize b /\ Forall (fun x => 0 <= x < 256) b.
Definition blocks_ok (v : Z -> block) : Prop := forall b, block_ok (v b).

(** An inode and the disk after blocks were added to it: its slots keep their
    blocks, new ones were free before, and only its own blocks and the bitmap
    change. *)
Record evolved (sb0 : superblock) (v : Z -> block) (d : dinode) (v' : Z -> block) (d' : dinode) : Prop := {
  ev_bitmap : bitmap_ok sb0 v';
  ev_ok : inode_ok sb0 v' d';
  ev_meta : same_meta d d';
  ev_keep k : (k < NSLOT)%nat -> slot v d k <> 0 -> slot v' d' k = slot v d k;
  ev_alloc b : 0 <= b < sb_size sb0 -> allocated sb0 v b = true -> allocated sb0 v' b = true;
  ev_new b : 0 < b < sb_size sb0 -> allocated sb0 v' b = true -> allocated sb0 v b = false ->
    exists k, (k < NSLOT)%nat /\ slot v' d' k = b;
  ev_fresh k : (k < NSLOT)%nat -> slot v' d' k <> 0 ->
    slot v' d' k = slot v d k \/ allocated sb0 v (slot v' d' k) = false;
  ev_frame x : x <> 0 -> ~ (sb_bmapstart sb0 <= x < datastart sb0) ->
    (forall k, (k < NSLOT)%nat -> slot v' d' k <> x) -> v' x = v x;
  ev_blocks : blocks_ok v -> blocks_ok v'
}.

Definition disk_full (sb0 : superblock) (v : Z -> block) : Prop :=
  forall j, 0 <= j < sb_size sb0 -> allocated sb0 v j = true.

(** Data blocks keep their contents too. *)
Record grew (sb0 : superblock) (v : Z -> block) (d : dinode) (v' : Z -> block) (d' : dinode) : Prop := {
  gw_ev : evolved sb0 v d v' d';
  gw_data k : (k < NSLOT)%nat -> k <> 12%nat -> slot v d k <> 0 -> v' (slot v d k) = v (slot v d k)
}.

Lemma same_meta_refl d : same_meta d d.
Proof. by repeat split. Qed.
Lemma same_meta_trans d d1 d2 : same_meta d d1 -> same_meta d1 d2 -> same_meta d d2.
Proof. unfold same_meta. intros (?&?&?&?&?) (?&?&?&?&?). repeat split; congruence. Qed.

Lemma evolved_refl sb0 v d : bitmap_ok sb0 v -> inode_ok sb0 v d -> evolved sb0 v d v d.
Proof. intros. split; try done; [intros b _ H1 H2; congruence|auto]. Qed.

Lemma datastart_pos sb0 v : bitmap_ok sb0 v -> 0 < sb_bmapstart sb0 <= datastart sb0.
Proof.
  intros Hb. pose proof (bm_start _ _ Hb). pose proof (bm_size _ _ Hb). unfold datastart, bitmap_blocks.
  pose proof (Z.div_pos (sb_size sb0 + BPB - 1) BPB). rewrite BPB_eq in *. lia.
Qed.

Lemma evolved_trans sb0 v d v1 d1 v2 d2 :
  evolved sb0 v d v1 d1 -> evolved sb0 v1 d1 v2 d2 -> evolved sb0 v d v2 d2.
Proof.
  intros [B1 O1 M1 K1 A1 N1 E1 F1 Y1] [B2 O2 M2 K2 A2 N2 E2 F2 Y2].
  split; [done|done|by eapply same_meta_trans| | | | | |auto].
  - intros k Hk Hs. rewrite K2 by (done || by rewrite K1). by apply K1.
  - intros b Hb Ha. auto.
  - intros b Hb Ha2 Ha. destruct (allocated sb0 v1 b) eqn:Ha1; [|by apply N2].
    destruct (N1 b Hb Ha1 Ha) as (k & Hk & Hs). exists k. split; [done|]. rewrite <- Hs.
    apply K2; [done|]. lia.
  - intros k Hk Hs. destruct (E2 k Hk Hs) as [He|Hf].
    + rewrite He in Hs |- *. by apply E1.
    + right. destruct (allocated sb0 v (slot v2 d2 k)) eqn:Ha; [|done].
      destruct (io_data _ _ _ O2 k Hk Hs) as [Hr _]. rewrite A1 in Hf; [done| |done].
      pose proof (datastart_pos _ _ B1). lia.
  - intros x Hx0 Hx Hs. rewrite F2 by done. apply F1; [done|done|]. intros k Hk Hc.
    apply (Hs k Hk). rewrite K2; [done|done|congruence].
Qed.

Lemma grew_refl sb0 v d : bitmap_ok sb0 v -> inode_ok sb0 v d -> grew sb0 v d v d.
Proof. intros. split; [by apply evolved_refl|done]. Qed.

Lemma grew_trans sb0 v d v1 d1 v2 d2 :
  grew sb0 v d v1 d1 -> grew sb0 v1 d1 v2 d2 -> grew sb0 v d v2 d2.
Proof.
  intros [E1 D1] [E2 D2]. split; [by eapply evolved_trans|]. pose proof (ev_keep _ _ _ _ _ E1) as K1.
  intros k Hk Hne Hs. rewrite <- (K1 k Hk Hs). rewrite D2; [|done|done|by rewrite K1].
  rewrite (K1 k Hk Hs). by apply D1.
Qed.

(** ** Adding one block *)

Lemma slot_lt13 v d k : (k < 13)%nat -> slot v d k = nth k (d_addrs d) 0.
Proof. intros Hk. unfold slot. destruct (Nat.ltb_spec k 13); [done|lia]. Qed.

Lemma slot_ge13 v d k : (13 <= k)%nat ->
  slot v d k = if slot v d 12 =? 0 then 0 else rd32 (v (slot v d 12)) (k - 13).
Proof. intros Hk. rewrite (slot_lt13 v d 12) by lia. unfold slot. destruct (Nat.ltb_spec k 13); [lia|done]. Qed.

Lemma rd32_zero i : rd32 (replicate (Z.to_nat BSIZE) 0) i = 0.
Proof.
  unfold rd32. rewrite drop_replicate, take_replicate.
  generalize (4 `min` (Z.to_nat BSIZE - 4 * i))%nat. intros n. induction n as [|n IH]; [done|].
  cbn [replicate of_le]. by rewrite IH.
Qed.

Lemma took_pos sb0 v v' r : bitmap_ok sb0 v -> took sb0 v v' r -> 0 < r < sb_size sb0.
Proof.
  intros Hok [Hr _ _ _ _ _]. pose proof (bm_start _ _ Hok). pose proof (bm_size _ _ Hok).
  unfold datastart, bitmap_blocks in Hr. pose proof (Z.div_pos (sb_size sb0 + BPB - 1) BPB). rewrite BPB_eq in *. lia.
Qed.

Lemma took_blocks sb0 v v' r : bitmap_ok sb0 v -> took sb0 v v' r -> blocks_ok v -> blocks_ok v'.
Proof.
  intros Hbm Ht Hb x. destruct (decide (x = r)) as [->|Hr].
  { rewrite (tk_zero _ _ _ _ Ht). split; [unfold bsize; by rewrite length_replicate|]. by apply Forall_replicate. }
  destruct (decide (sb_bmapstart sb0 <= x < datastart sb0)) as [Hx|Hx].
  - assert (Hbb : exists b, 0 <= b < sb_size sb0 /\ BBLOCK b sb0 = x).
    { exists ((x - sb_bmapstart sb0) * BPB). unfold BBLOCK, datastart, bitmap_blocks in *. rewrite Z.div_mul by done.
      pose proof (Z.div_mod (sb_size sb0 + BPB - 1) BPB ltac:(done)).
      pose proof (Z.mod_pos_bound (sb_size sb0 + BPB - 1) BPB ltac:(done)). rewrite BPB_eq in *. lia. }
    destruct Hbb as (b & Hb0 & <-). pose proof (tk_bitmap _ _ _ _ Ht) as Hbm'.
    split; [by apply (bm_block _ _ Hbm')|by apply (bm_bytes _ _ Hbm')].
  - by rewrite (tk_other _ _ _ _ Ht).
Qed.

(** A data block in use is not touched by an allocation. *)
Lemma took_data sb0 v v' r x :
  took sb0 v v' r -> datastart sb0 <= x < sb_size sb0 -> allocated sb0 v x = true -> v' x = v x.
Proof.
  intros [? Hw _ _ Ho _] Hx Ha. apply Ho; [congruence|lia].
Qed.

Lemma took_slots sb0 v v' r d : inode_ok sb0 v d -> took sb0 v v' r ->
  forall k, (k < NSLOT)%nat -> slot v' d k = slot v d k.
Proof.
  intros Hok Ht k Hk. destruct (decide (k < 13)%nat); [by rewrite !slot_lt13 by lia|].
  rewrite (slot_ge13 v' d k), (slot_ge13 v d k) by lia.
  rewrite (slot_lt13 v' d 12), (slot_lt13 v d 12) by lia.
  destruct (Z.eqb_spec (nth 12 (d_addrs d) 0) 0) as [|Hne]; [done|].
  destruct (io_data sb0 v d Hok 12) as [Hr Ha]; [unfold NSLOT; lia|by rewrite slot_lt13 by lia|].
  rewrite slot_lt13 in Hr, Ha by lia. by rewrite (took_data sb0 v v' r _ Ht).
Qed.

Lemma took_fresh sb0 v v' r d k : inode_ok sb0 v d -> took sb0 v v' r -> (k < NSLOT)%nat ->
  slot v d k <> 0 -> slot v d k <> r.
Proof.
  intros Hok Ht Hk Hs He. destruct (io_data sb0 v d Hok k Hk Hs) as [_ Ha]. rewrite He in Ha.
  by rewrite (tk_was _ _ _ _ Ht) in Ha.
Qed.

(** A new block in slot [k], which was empty: the other slots stay. *)
Lemma grew_add sb0 v v1 v' d d' r k0 :
  bitmap_ok sb0 v -> inode_ok sb0 v d -> took sb0 v v1 r -> (k0 < NSLOT)%nat ->
  slot v d k0 = 0 -> same_meta d d' -> length (d_addrs d') = 13%nat ->
  (forall k, (k < NSLOT)%nat -> slot v' d' k = if decide (k = k0) then r else slot v d k) ->
  (forall b, 0 <= b < sb_size sb0 -> v' (BBLOCK b sb0) = v1 (BBLOCK b sb0)) ->
  (forall x, x <> slot v d 12 -> v' x = v1 x) ->
  (slot v' d' 12 <> 0 -> bsize (v' (slot v' d' 12))) ->
  (blocks_ok v1 -> blocks_ok v') ->
  grew sb0 v d v' d'.
Proof.
  intros Hbm Hok Ht Hk0 H0 Hmeta Hlen Hslots Hbb Hfr Hind Hblk.
  pose proof (took_pos sb0 v v1 r Hbm Ht) as Hr.
  assert (Hal : forall b, 0 <= b < sb_size sb0 -> allocated sb0 v' b = allocated sb0 v1 b).
  { intros b Hb. unfold allocated. by rewrite Hbb. }
  split.
  2: { intros k Hk Hne Hs. rewrite Hfr.
    - destruct (io_data _ _ _ Hok k Hk Hs). by apply (took_data sb0 v v1 r).
    - intros He. apply Hne. by apply (io_inj _ _ _ Hok k 12 Hk ltac:(unfold NSLOT; lia)). }
  split.
  - destruct (tk_bitmap _ _ _ _ Ht) as [K1 K2 K3 K4 K5]. split; [done|done| | |].
    + intros b Hb. rewrite Hbb by done. by apply K3.
    + intros b Hb. rewrite Hbb by done. by apply K4.
    + intros b Hb Hs. rewrite Hal by lia. by apply K5.
  - split; [apply Hok|done| | |done].
    + intros k Hk Hs. rewrite Hslots in Hs |- * by done. case_decide.
      * split; [apply Ht|]. rewrite Hal, (tk_now _ _ _ _ Ht), Z.eqb_refl by lia. done.
      * destruct (io_data _ _ _ Hok k Hk Hs) as [Hrg Ha]. split; [done|].
        pose proof (datastart_pos _ _ Hbm). assert (0 <= slot v d k < sb_size sb0) by lia.
        rewrite Hal, (tk_now _ _ _ _ Ht) by done. by destruct (_ =? _).
    + intros k k' Hk Hk' Hs He. rewrite !Hslots in * by done.
      pose proof (took_fresh sb0 v v1 r d k Hok Ht Hk) as Hf. pose proof (took_fresh sb0 v v1 r d k' Hok Ht Hk') as Hf'.
      destruct (decide (k = k0)), (decide (k' = k0)).
      * congruence.
      * exfalso. apply Hf'; congruence.
      * exfalso. apply Hf; congruence.
      * by apply (io_inj _ _ _ Hok).
  - done.
  - intros k Hk Hs. rewrite Hslots by done. case_decide; [congruence|done].
  - intros b Hb Ha. rewrite Hal, (tk_now _ _ _ _ Ht), Ha by done. by destruct (_ =? _).
  - intros b Hb Ha' Ha. rewrite Hal, (tk_now _ _ _ _ Ht), Ha in Ha' by lia.
    destruct (Z.eqb_spec b r) as [->|]; [|done]. exists k0. split; [done|]. rewrite Hslots by done. by case_decide.
  - intros k Hk Hs. rewrite Hslots in Hs |- * by done. case_decide; [right; apply Ht|by left].
  - intros x Hx0 Hx Hs. rewrite Hfr.
    + apply (tk_other _ _ _ _ Ht); [|done]. intros ->. apply (Hs k0 Hk0). rewrite Hslots by done. by case_decide.
    + intros ->. apply (Hs 12%nat ltac:(unfold NSLOT; lia)). rewrite Hslots by (unfold NSLOT; lia). case_decide; [congruence|done].
  - intros Hb. by apply Hblk, (took_blocks sb0 v v1 r).
Qed.

Lemma splice_ok off new b : (off + length new <= Z.to_nat BSIZE)%nat -> block_ok b ->
  Forall (fun x => 0 <= x < 256) new -> block_ok (splice off new b).
Proof.
  intros Hl [Hs Hb] Hn. unfold bsize in Hs. split; [unfold bsize; by rewrite length_splice by lia|].
  unfold splice. repeat apply Forall_app_2; [by apply Forall_take|done|by apply Forall_drop].
Qed.

Lemma wr32_ok b i v : (i < 256)%nat -> block_ok b -> block_ok (wr32 b i v).
Proof.
  intros Hi Hb. apply splice_ok; [rewrite length_le_bytes; unfold BSIZE; lia|done|apply le_bytes_range].
Qed.

(** Slots after storing [r] in address [k0 < 13]. *)
Lemma slots_set_addr sb0 v v1 d r k0 :
  bitmap_ok sb0 v -> inode_ok sb0 v d -> took sb0 v v1 r -> (k0 < 13)%nat -> slot v d k0 = 0 ->
  forall k, (k < NSLOT)%nat -> slot v1 (set_addr k0 r d) k = if decide (k = k0) then r else slot v d k.
Proof.
  intros Hbm Hok Ht Hk0 H0 k Hk. pose proof (took_pos sb0 v v1 r Hbm Ht) as Hr.
  pose proof (io_len _ _ _ Hok) as Hl.
  assert (Hlo : forall j, (j < 13)%nat -> slot v1 (set_addr k0 r d) j = if decide (j = k0) then r else slot v d j).
  { intros j Hj. rewrite !slot_lt13 by lia. cbn [set_addr d_addrs]. case_decide as He.
    - subst. apply nth_lookup_eq. lia.
    - by apply nth_lookup_ne. }
  destruct (decide (k < 13)%nat) as [|Hge]; [by apply Hlo|].
  rewrite slot_ge13, Hlo by lia. rewrite (decide_False (P := k = k0)) by lia.
  case_decide as H12.
  - rewrite <- H12 in H0. rewrite (slot_ge13 v d k), H0 by lia. cbn.
    destruct (Z.eqb_spec r 0); [lia|]. rewrite (tk_zero _ _ _ _ Ht). apply rd32_zero.
  - rewrite (slot_ge13 v d k) by lia. destruct (Z.eqb_spec (slot v d 12) 0) as [|Hne]; [done|].
    destruct (io_data _ _ _ Hok 12 ltac:(unfold NSLOT; lia) Hne). by rewrite (took_data sb0 v v1 r _ Ht).
Qed.

Lemma grew_set_addr sb0 v v1 d r k0 :
  bitmap_ok sb0 v -> inode_ok sb0 v d -> took sb0 v v1 r -> (k0 < 13)%nat -> slot v d k0 = 0 ->
  grew sb0 v d v1 (set_addr k0 r d).
Proof.
  intros Hbm Hok Ht Hk0 H0. pose proof (slots_set_addr sb0 v v1 d r k0 Hbm Hok Ht Hk0 H0) as Hs.
  apply (grew_add sb0 v v1 v1 d _ r k0); try done; [unfold NSLOT; lia| |].
  - cbn. rewrite length_insert. apply Hok.
  - rewrite Hs by (unfold NSLOT; lia). case_decide.
    + intros _. rewrite (tk_zero _ _ _ _ Ht). unfold bsize. by rewrite length_replicate.
    + intros Hne. destruct (io_data _ _ _ Hok 12 ltac:(unfold NSLOT; lia) Hne).
      rewrite (took_data sb0 v v1 r _ Ht) by done. exact (io_ind _ _ _ Hok Hne).
Qed.

(** Storing [r] in entry [j] of the indirect block. *)
Lemma grew_set_entry sb0 v v1 d r j :
  bitmap_ok sb0 v -> inode_ok sb0 v d -> took sb0 v v1 r -> (j < 256)%nat ->
  slot v d 12 <> 0 -> slot v d (13 + j) = 0 ->
  let v' := updb v1 (slot v d 12) (wr32 (v (slot v d 12)) j r) in
  grew sb0 v d v' d /\ slot v' d (13 + j) = r /\ v' r = replicate (Z.to_nat BSIZE) 0.
Proof.
  intros Hbm Hok Ht Hj H12 H0 v'. pose proof (took_pos sb0 v v1 r Hbm Ht) as Hr.
  destruct (io_data _ _ _ Hok 12 ltac:(unfold NSLOT; lia) H12) as [Hrg Ha].
  pose proof (io_ind _ _ _ Hok H12) as Hbs. unfold bsize, BSIZE in Hbs.
  assert (Hr32 : 0 <= r < 2 ^ 32) by (pose proof (io_max _ _ _ Hok); lia).
  assert (Hne : r <> slot v d 12).
  { pose proof (took_fresh sb0 v v1 r d 12 Hok Ht ltac:(unfold NSLOT; lia) H12). congruence. }
  assert (Hs : forall k, (k < NSLOT)%nat -> slot v' d k = if decide (k = 13 + j)%nat then r else slot v d k).
  { intros k Hk. destruct (decide (k < 13)%nat).
    - rewrite !slot_lt13 by lia. case_decide; [lia|done].
    - rewrite (slot_ge13 v' d k), (slot_ge13 v d k) by lia.
      replace (slot v' d 12) with (slot v d 12) by (by rewrite !slot_lt13 by lia).
      destruct (Z.eqb_spec (slot v d 12) 0); [done|]. unfold v'. rewrite updb_eq. case_decide as He.
      + subst. replace (13 + j - 13)%nat with j by lia. apply rd32_wr32; [lia|done].
      + apply rd32_wr32_ne; lia. }
  assert (Hslot12 : slot v' d 12 = slot v d 12).
  { rewrite Hs by (unfold NSLOT; lia). by case_decide; [lia|]. }
  assert (Hz : v' r = replicate (Z.to_nat BSIZE) 0).
  { unfold v'. rewrite updb_ne by done. apply Ht. }
  split; [|split; [|done]].
  - apply (grew_add sb0 v v1 v' d d r (13 + j)); try done.
    + unfold NSLOT. lia.
    + apply Hok.
    + intros b Hb. unfold v'. apply updb_ne. pose proof (bbloc_range sb0 b Hb). lia.
    + intros x Hx. unfold v'. by apply updb_ne.
    + rewrite Hslot12. intros _. unfold v'. rewrite updb_eq. unfold bsize, BSIZE. rewrite length_wr32; lia.
    + intros Hb x. unfold v', updb. destruct (Z.eqb_spec x (slot v d 12)) as [->|]; [|done].
      rewrite <- (took_data sb0 v v1 r _ Ht) by done. apply wr32_ok; [lia|apply Hb].
  - rewrite Hs by (unfold NSLOT; lia). by case_decide.
Qed.

Lemma cons_subseteq (x : Z) (l : list Z) : l ⊆ x :: l.
Proof. intros y Hy. by apply list_elem_of_further. Qed.

(** The blocks of a file lie after the log. *)
Lemma slot_after_log l sb0 v d B k k0 : bitmap_ok sb0 v -> inode_ok sb0 v d -> bitmap_list sb0 ⊆ B -> log_room l B k ->
  (k0 < NSLOT)%nat -> slot v d k0 <> 0 -> after_log l (slot v d k0).
Proof. intros Hbm Hok HB Hr Hk Hs. eapply data_after_log; [done|done|done|]. by apply (io_data _ _ _ Hok). Qed.

Section Bmap.
Context {U : Type} `{!UserMem U}.

(** The state after a change of inode [i] and of the disk. *)
Definition upd_inode (s : fs U) (i : nat) (ip : inode) (d : dinode) (s' : fs U) : Prop :=
  sb s' = sb s /\ um s' = um s /\ itable s' = <[i := set_d d ip]> (itable s).

Lemma set_d_same ip : set_d (i_d ip) ip = ip.
Proof. by destruct ip. Qed.

Lemma upd_inode_refl s i ip : itable s !! i = Some ip -> upd_inode s i ip (i_d ip) s.
Proof. intros Hi. split; [done|]. split; [done|]. by rewrite set_d_same, list_insert_id. Qed.

Lemma upd_inode_lookup s i ip d s' : itable s !! i = Some ip -> upd_inode s i ip d s' ->
  itable s' !! i = Some (set_d d ip).
Proof. intros Hi (_ & _ & ->). apply list_lookup_insert_eq. by eapply lookup_lt_Some. Qed.

Lemma upd_inode_trans s i ip d s1 d1 s2 :
  upd_inode s i ip d s1 -> upd_inode s1 i (set_d d ip) d1 s2 -> upd_inode s i ip d1 s2.
Proof.
  intros (H1 & H2 & H3) (H4 & H5 & H6). split; [congruence|]. split; [congruence|].
  by rewrite H6, H3, list_insert_insert_eq.
Qed.

Lemma geti_eq (s : fs U) i ip : itable s !! i = Some ip -> geti i s = Done ip s.
Proof. intros H. unfold geti. by rewrite H. Qed.

Lemma addr_alloc_spec s i ip B k0 k :
  itable s !! i = Some ip -> bitmap_ok (sb s) (V s) -> inode_ok (sb s) (V s) (i_d ip) ->
  bitmap_list (sb s) ⊆ B -> (k0 < 13)%nat -> 0 <= k -> log_room (lg s) B (k + 1) ->
  exists r s' d' B', addr_alloc i k0 s = Done r s' /\ upd_inode s i ip d' s' /\
    grew (sb s) (V s) (i_d ip) (V s') d' /\ B ⊆ B' /\ log_room (lg s') B' k /\ lwrites (lg s) (lg s') /\
    ((r = 0 /\ slot (V s) (i_d ip) k0 = 0 /\ disk_full (sb s) (V s')) \/
     (r <> 0 /\ r ∈ B' /\ r = slot (V s') d' k0 /\
      (slot (V s) (i_d ip) k0 = 0 -> V s' r = replicate (Z.to_nat BSIZE) 0) /\
      (slot (V s) (i_d ip) k0 <> 0 -> s' = s /\ d' = i_d ip))).
Proof.
  intros Hi Hbm Hok HB Hk0 Hk Hroom. unfold addr_alloc. rewrite (bind_Done _ _ _ _ _ (geti_eq s i ip Hi)).
  rewrite <- (slot_lt13 (V s) (i_d ip) k0) by done.
  destruct (Z.eqb_spec (slot (V s) (i_d ip) k0) 0) as [H0|H0].
  - destruct (balloc_spec s B k Hbm Hk HB Hroom) as [(r & l' & Hb & Ht & _ & Hr' & Hlw)|[Hb Hfull]].
    + rewrite (bind_Done _ _ _ _ _ Hb). pose proof (took_pos _ _ _ _ Hbm Ht) as Hr.
      destruct (Z.eqb_spec r 0); [lia|]. rewrite (bind_Done _ _ _ _ _ (geti_eq (set_lg l' s) i ip Hi)).
      eexists r, _, (set_addr k0 r (i_d ip)), (r :: B). split; [reflexivity|]. split; [done|].
      split; [by apply grew_set_addr|]. split; [apply cons_subseteq|]. split; [done|]. split; [done|].
      right. split; [done|]. split; [apply list_elem_of_here|].
      split; [|split; [intros _; apply (tk_zero _ _ _ _ Ht)|done]]. symmetry.
      rewrite (slots_set_addr (sb s) (V s)); try done; [by case_decide|unfold NSLOT; lia].
    + rewrite (bind_Done _ _ _ _ _ Hb). cbn [Z.eqb]. exists 0, (add_out "balloc: out of blocks" s), (i_d ip), B.
      split; [done|]. split; [exact (upd_inode_refl s i ip Hi)|].
      split; [exact (grew_refl (sb s) (V s) (i_d ip) Hbm Hok)|].
      split; [done|]. split; [log_room_from Hroom|]. split; [done|]. by left.
  - exists (slot (V s) (i_d ip) k0), s, (i_d ip), (slot (V s) (i_d ip) k0 :: B). split; [done|]. split; [by apply upd_inode_refl|].
    split; [by apply grew_refl|]. split; [apply cons_subseteq|].
    split; [apply log_room_charge; [eapply slot_after_log; done || (unfold NSLOT; lia)|done]|]. split; [done|]. right.
    split; [done|]. split; [apply list_elem_of_here|]. split; [done|]. split; [congruence|done].
Qed.

(** Room for [k] more blocks and for the indirect block of the file. *)
Definition file_room (l : log) (v : Z -> block) (d : dinode) (B : list Z) (k : Z) : Prop :=
  (slot v d 12 <> 0 /\ slot v d 12 ∈ B /\ log_room l B k) \/ log_room l B (k + 1).

Lemma file_room_weaken l v d B k : file_room l v d B k -> log_room l B k.
Proof. intros [(_ & _ & H)|H]; [done|]. log_room_from H. Qed.

(** The indirect block, found or added, set apart in the log. *)
Lemma ind_alloc_spec s i ip B k :
  itable s !! i = Some ip -> bitmap_ok (sb s) (V s) -> inode_ok (sb s) (V s) (i_d ip) -> bitmap_list (sb s) ⊆ B ->
  0 <= k -> file_room (lg s) (V s) (i_d ip) B (k + 1) ->
  exists ind s1 d1 B1, addr_alloc i 12 s = Done ind s1 /\ upd_inode s i ip d1 s1 /\
    grew (sb s) (V s) (i_d ip) (V s1) d1 /\ B ⊆ B1 /\ log_room (lg s1) B1 (k + 1) /\ lwrites (lg s) (lg s1) /\
    ((ind = 0 /\ slot (V s) (i_d ip) 12 = 0 /\ disk_full (sb s) (V s1)) \/
     (ind <> 0 /\ ind ∈ B1 /\ ind = slot (V s1) d1 12 /\
      (slot (V s) (i_d ip) 12 = 0 -> V s1 ind = replicate (Z.to_nat BSIZE) 0) /\
      (slot (V s) (i_d ip) 12 <> 0 -> s1 = s /\ d1 = i_d ip))).
Proof.
  intros Hi Hbm Hok HB Hk [(Hn & Hin & Hroom)|Hroom].
  - exists (slot (V s) (i_d ip) 12), s, (i_d ip), B. split.
    { unfold addr_alloc. rewrite (bind_Done _ _ _ _ _ (geti_eq s i ip Hi)), <- (slot_lt13 (V s) (i_d ip) 12) by lia.
      destruct (Z.eqb_spec (slot (V s) (i_d ip) 12) 0); [done|done]. }
    split; [by apply upd_inode_refl|]. split; [by apply grew_refl|]. split; [done|]. split; [done|]. split; [done|].
    right. split; [done|]. split; [done|]. split; [done|]. split; [congruence|done].
  - apply addr_alloc_spec; done || lia.
Qed.

(** A slot of the inode itself, with the room of the indirect block kept. *)
Lemma direct_alloc_spec s i ip B j k :
  itable s !! i = Some ip -> bitmap_ok (sb s) (V s) -> inode_ok (sb s) (V s) (i_d ip) -> bitmap_list (sb s) ⊆ B ->
  (j < 12)%nat -> 0 <= k -> file_room (lg s) (V s) (i_d ip) B (k + 1) ->
  exists r s' d' B', addr_alloc i j s = Done r s' /\ upd_inode s i ip d' s' /\
    grew (sb s) (V s) (i_d ip) (V s') d' /\ B ⊆ B' /\ file_room (lg s') (V s') d' B' k /\ lwrites (lg s) (lg s') /\
    ((r = 0 /\ disk_full (sb s) (V s')) \/
     (r <> 0 /\ r = slot (V s') d' j /\ r ∈ B' /\
      (slot (V s) (i_d ip) j = 0 -> V s' r = replicate (Z.to_nat BSIZE) 0))).
Proof.
  intros Hi Hbm Hok HB Hj Hk Hroom.
  assert (Hcase : exists k1, 0 <= k1 /\ log_room (lg s) B (k1 + 1) /\
    (k1 = k + 1 \/ (k1 = k /\ slot (V s) (i_d ip) 12 <> 0 /\ slot (V s) (i_d ip) 12 ∈ B))).
  { destruct Hroom as [(? & ? & ?)|?]; [exists k|exists (k + 1)]; split_and!; auto; lia. }
  destruct Hcase as (k1 & Hk1 & Hroom1 & Hcase).
  destruct (addr_alloc_spec s i ip B j k1 Hi Hbm Hok HB ltac:(lia) Hk1 Hroom1) as (r & s' & d' & B' & H1 & H2 & H3 & HB' & H4 & H4' & H5).
  exists r, s', d', B'. do 4 (split; [done|]). split; [|split; [done|]].
  - destruct Hcase as [->|(-> & Hn & Hin)]; [by right|]. left.
    rewrite (ev_keep _ _ _ _ _ (gw_ev _ _ _ _ _ H3)) by (done || (unfold NSLOT; lia)).
    split; [done|]. split; [by apply HB'|done].
  - destruct H5 as [(? & _ & ?)|(? & ? & ? & ? & _)]; [by left|right]. done.
Qed.

Lemma bmap_spec s i ip bn B k :
  itable s !! i = Some ip -> bitmap_ok (sb s) (V s) -> inode_ok (sb s) (V s) (i_d ip) -> bitmap_list (sb s) ⊆ B ->
  0 <= bn < MAXFILE -> 0 <= k -> file_room (lg s) (V s) (i_d ip) B (k + 1) ->
  exists r s' d' B', bmap i bn s = Done r s' /\ upd_inode s i ip d' s' /\
    grew (sb s) (V s) (i_d ip) (V s') d' /\ B ⊆ B' /\ file_room (lg s') (V s') d' B' k /\ lwrites (lg s) (lg s') /\
    ((r = 0 /\ disk_full (sb s) (V s')) \/
     (r <> 0 /\ r = iblk (V s') d' bn /\ r ∈ B' /\
      (iblk (V s) (i_d ip) bn = 0 -> V s' r = replicate (Z.to_nat BSIZE) 0))).
Proof.
  intros Hi Hbm Hok HB Hbn Hk Hroom. unfold bmap, iblk, bslot. change NDIRECT with 12. change NINDIRECT with 256.
  change MAXFILE with 268 in Hbn. destruct (Z.ltb_spec bn 12) as [Hlt|Hge].
  - exact (direct_alloc_spec s i ip B (Z.to_nat bn) k Hi Hbm Hok HB ltac:(lia) Hk Hroom).
  - destruct (Z.ltb_spec (bn - 12) 256); [|lia].
    destruct (ind_alloc_spec s i ip B k Hi Hbm Hok HB Hk Hroom) as (ind & s1 & d1 & B1 & H1 & H2 & H3 & HB1 & H4 & H4' & H5).
    change (Z.to_nat 12) with 12%nat. rewrite (bind_Done _ _ _ _ _ H1).
    destruct (Z.eqb_spec ind 0) as [Hz|Hnz].
    { exists 0, s1, d1, B1. do 4 (split; [done|]). split; [right; exact H4|]. split; [done|].
      left. destruct H5 as [(_ & _ & ?)|(? & _)]; done. }
    destruct H5 as [[? _]|(_ & Hin & Hind & Hzero & Hsame)]; [done|].
    rewrite (bind_Done _ _ _ _ _ (bread_eq ind s1)). set (j := Z.to_nat (bn - 12)).
    replace (S (Z.to_nat bn)) with (13 + j)%nat by (unfold j; lia).
    assert (Hslot : slot (V s1) d1 (13 + j) = rd32 (V s1 ind) j).
    { rewrite slot_ge13, <- Hind by lia. destruct (Z.eqb_spec ind 0); [done|]. f_equal. lia. }
    rewrite <- Hslot. pose proof (ev_bitmap _ _ _ _ _ (gw_ev _ _ _ _ _ H3)) as Hbm1. pose proof (ev_ok _ _ _ _ _ (gw_ev _ _ _ _ _ H3)) as Hok1.
    assert (Hsb : sb s1 = sb s) by apply H2. rewrite <- Hsb in Hbm1, Hok1.
    pose proof (upd_inode_lookup _ _ _ _ _ Hi H2) as Hi1.
    assert (HBl : bitmap_list (sb s1) ⊆ B1) by (rewrite Hsb; by etrans).
    destruct (Z.eqb_spec (slot (V s1) d1 (13 + j)) 0) as [H0|H0].
    + destruct (balloc_spec s1 B1 k Hbm1 Hk HBl H4) as [(r & l' & Hb & Ht & _ & Hr' & Hlw)|[Hb Hfull]].
      * rewrite (bind_Done _ _ _ _ _ Hb). pose proof (took_pos _ _ _ _ Hbm1 Ht) as Hr.
        destruct (Z.eqb_spec r 0); [lia|].
        destruct (update_block_spec ind (wr32 (V s1 ind) j r) (set_lg l' s1) (r :: B1) k (list_elem_of_further _ _ _ Hin) Hk Hr') as (l2 & Hu & Hv & Hr2 & Hlw2).
        rewrite (bind_Done _ _ _ _ _ Hu).
        destruct (grew_set_entry (sb s1) (V s1) (view (bio l')) d1 r j Hbm1 Hok1 Ht) as (Hg & Hs & Hz); [unfold j; lia|congruence|done|].
        rewrite <- Hind in Hg, Hs, Hz.
        exists r, (set_lg l2 s1), d1, (r :: B1).
        change (V (set_lg l2 s1)) with (view (bio l2)). rewrite Hv. change (V (set_lg l' s1)) with (view (bio l')).
        split; [done|]. split; [done|]. rewrite Hsb in Hg. split; [by eapply grew_trans|].
        split; [etrans; [exact HB1|apply cons_subseteq]|]. split.
        { left. rewrite (ev_keep _ _ _ _ _ (gw_ev _ _ _ _ _ Hg)) by (unfold NSLOT; lia || congruence). rewrite <- Hind.
          split; [done|]. split; [by apply list_elem_of_further|done]. }
        split; [etrans; [exact H4'|]; etrans; [exact Hlw|exact Hlw2]|].
        right. split; [lia|]. split; [done|]. split; [apply list_elem_of_here|done].
      * rewrite (bind_Done _ _ _ _ _ Hb). cbn [Z.eqb]. exists 0, (add_out "balloc: out of blocks" s1), d1, B1.
        do 4 (split; [done|]). split; [right; exact H4|]. split; [exact H4'|]. left. split; [done|]. by rewrite <- Hsb.
    + exists (slot (V s1) d1 (13 + j)), s1, d1, (slot (V s1) d1 (13 + j) :: B1). do 3 (split; [done|]).
      split; [etrans; [exact HB1|apply cons_subseteq]|]. split.
      { left. rewrite <- Hind. split; [done|]. split; [by apply list_elem_of_further|]. apply log_room_charge; [|done].
        eapply slot_after_log; try done. unfold NSLOT, j. lia. }
      split; [done|].
      right. split; [done|]. split; [done|]. split; [apply list_elem_of_here|].
      intros Hold. exfalso. destruct (decide (slot (V s) (i_d ip) 12 = 0)) as [H12|H12].
      * apply H0. rewrite Hslot, (Hzero H12). apply rd32_zero.
      * apply H0. by destruct (Hsame H12) as [-> ->].
Qed.
End Bmap.
