(* ===== verification/FsDinode.v ===== *)
(** * On-disk inodes: encoding, [iupdate] and [ilock]

    A [struct dinode] is stored as its 64 little-endian bytes.  Theorems: the
    encoding round-trips, and an inode written by [iupdate] is read back
    unchanged by [ilock], whatever happens to the other inodes of its block. *)

From S2P Require Import Prelude CString Kalloc Vm UserMem Block Log Fs FsAlloc FsInode.

(** Inode [inum] as the disk has it. *)
Definition disk_inode (sb0 : superblock) (v : Z -> block) (inum : Z) : dinode :=
  parse_dinode (take 64 (drop (ioff inum) (v (IBLOCK inum sb0)))).

Definition is_short (z : Z) : Prop := - 2 ^ 15 <= z < 2 ^ 15.
Record dinode_wf (d : dinode) : Prop := {
  dw_type : is_short (d_type d);
  dw_major : is_short (d_major d);
  dw_minor : is_short (d_minor d);
  dw_nlink : is_short (d_nlink d);
  dw_size : 0 <= d_size d < 2 ^ 32;
  dw_len : length (d_addrs d) = 13%nat;
  dw_addrs : Forall (fun a => 0 <= a < 2 ^ 32) (d_addrs d)
}.

Lemma field_head n v l : field (le_bytes n v ++ l) 0 n = v mod 2 ^ (8 * Z.of_nat n).
Proof.
  unfold field. rewrite drop_0, take_app_length' by (by rewrite length_le_bytes). apply of_le_le_bytes.
Qed.
Lemma field_skip n v l o m : (n <= o)%nat -> field (le_bytes n v ++ l) o m = field l (o - n) m.
Proof.
  intros Ho. unfold field. rewrite drop_app_ge by (rewrite length_le_bytes; lia). by rewrite length_le_bytes.
Qed.

Lemma field_addrs l i : (i < length l)%nat -> Forall (fun a => 0 <= a < 2 ^ 32) l ->
  field (concat (le_bytes 4 <$> l)) (4 * i) 4 = nth i l 0.
Proof.
  revert i. induction l as [|a l IH]; intros i Hi Hf; [cbn in Hi; lia|]. apply Forall_cons in Hf as [Ha Hf].
  cbn [fmap list_fmap concat]. destruct i as [|i].
  - change (4 * 0)%nat with 0%nat. rewrite field_head. cbn [nth]. by apply Z.mod_small.
  - rewrite field_skip by lia. replace (4 * S i - 4)%nat with (4 * i)%nat by lia. cbn [nth length] in *. apply IH; [lia|done].
Qed.

Lemma length_dinode_bytes d : length (d_addrs d) = 13%nat -> length (dinode_bytes d) = 64%nat.
Proof.
  intros H. unfold dinode_bytes. rewrite !length_app, !length_le_bytes.
  assert (Hc : forall l : list Z, length (concat (le_bytes 4 <$> l)) = (4 * length l)%nat).
  { induction l as [|a l IH]; [done|]. cbn [fmap list_fmap concat length]. rewrite length_app, length_le_bytes, IH. lia. }
  rewrite Hc, H. done.
Qed.

Lemma dinode_bytes_range d : Forall (fun b => 0 <= b < 256) (dinode_bytes d).
Proof.
  unfold dinode_bytes. repeat (apply Forall_app_2; [apply le_bytes_range|]).
  induction (d_addrs d); [done|]. cbn [fmap list_fmap concat]. apply Forall_app_2; [apply le_bytes_range|done].
Qed.

Lemma s16_mod z : is_short z -> s16 (z mod 2 ^ (8 * Z.of_nat 2)) = z.
Proof.
  unfold is_short, s16. intros Hz. change (8 * Z.of_nat 2) with 16. rewrite Z.add_mod_idemp_l by done.
  rewrite Z.mod_small by lia. lia.
Qed.

Lemma parse_dinode_bytes d : dinode_wf d -> parse_dinode (dinode_bytes d) = d.
Proof.
  intros [H1 H2 H3 H4 H5 H6 H7]. destruct d as [ty ma mi nl sz ad]. unfold parse_dinode, dinode_bytes.
  cbn [d_type d_major d_minor d_nlink d_size d_addrs] in *. f_equal.
  - rewrite field_head. by apply s16_mod.
  - rewrite field_skip by lia. cbn [Nat.sub]. rewrite field_head. by apply s16_mod.
  - rewrite 2!field_skip by lia. cbn [Nat.sub]. rewrite field_head. by apply s16_mod.
  - rewrite 3!field_skip by lia. cbn [Nat.sub]. rewrite field_head. by apply s16_mod.
  - rewrite 4!field_skip by lia. cbn [Nat.sub]. rewrite field_head. by apply Z.mod_small.
  - apply list_eq_same_length with (n := 13%nat); [done|by rewrite length_fmap, length_seq|].
    intros i x y Hi Hx Hy. rewrite list_lookup_fmap, lookup_seq_lt in Hx by done. apply Some_inj in Hx as <-.
    cbv beta. rewrite 5!field_skip by lia. replace (12 + 4 * (0 + i) - 2 - 2 - 2 - 2 - 4)%nat with (4 * i)%nat by lia.
    rewrite field_addrs by (done || lia). by apply nth_lookup_Some.
Qed.

(** ** [iupdate] and [ilock] *)

Lemma ioff_range inum : (ioff inum + 64 <= 1024)%nat.
Proof.
  unfold ioff. change IPB with 16. pose proof (Z.mod_pos_bound inum 16 ltac:(lia)). lia.
Qed.

Lemma same_iblock inum j sb0 : 0 <= inum -> 0 <= j -> j <> inum -> IBLOCK j sb0 = IBLOCK inum sb0 ->
  (ioff j + 64 <= ioff inum \/ ioff inum + 64 <= ioff j)%nat.
Proof.
  unfold IBLOCK, ioff. change IPB with 16. intros Hi Hj Hne He. pose proof (Z.mod_pos_bound inum 16 ltac:(lia)).
  pose proof (Z.mod_pos_bound j 16 ltac:(lia)). pose proof (Z.div_mod inum 16 ltac:(lia)). pose proof (Z.div_mod j 16 ltac:(lia)). lia.
Qed.

(** Storing one inode of an inode block. *)
Section Store.
Context (sb0 : superblock) (v : Z -> block) (inum : Z) (d : dinode).
Context (Hi : 0 <= inum) (Hb : bsize (v (IBLOCK inum sb0))) (Hl : length (d_addrs d) = 13%nat).

Definition store_inode : Z -> block :=
  updb v (IBLOCK inum sb0) (splice (ioff inum) (dinode_bytes d) (v (IBLOCK inum sb0))).

Lemma store_inode_fits : (ioff inum + length (dinode_bytes d) <= length (v (IBLOCK inum sb0)))%nat.
Proof. rewrite length_dinode_bytes by done. unfold bsize, BSIZE in Hb. pose proof (ioff_range inum). lia. Qed.

Lemma store_inode_same : dinode_wf d -> disk_inode sb0 store_inode inum = d.
Proof.
  intros Hd. unfold disk_inode, store_inode. rewrite updb_eq. pose proof store_inode_fits as Hf.
  rewrite <- (length_dinode_bytes d) at 1 by done. rewrite take_drop_splice by done. by apply parse_dinode_bytes.
Qed.

Lemma store_inode_other j : 0 <= j -> j <> inum -> disk_inode sb0 store_inode j = disk_inode sb0 v j.
Proof.
  intros Hj Hne. unfold disk_inode, store_inode, updb. destruct (Z.eqb_spec (IBLOCK j sb0) (IBLOCK inum sb0)) as [He|]; [|done].
  pose proof store_inode_fits. f_equal. rewrite He. apply take_drop_splice_other; [done|].
  rewrite length_dinode_bytes by done. by apply (same_iblock inum j sb0).
Qed.

Lemma store_inode_blocks : blocks_ok v -> blocks_ok store_inode.
Proof.
  intros Hv x. unfold store_inode, updb. destruct (_ =? _); [|done].
  apply splice_ok; [|done|apply dinode_bytes_range]. rewrite length_dinode_bytes by done.
  pose proof (ioff_range inum). change (Z.to_nat BSIZE) with 1024%nat. lia.
Qed.
End Store.

Section Iupdate.
Context {U : Type} `{!UserMem U}.

Lemma iupdate_spec (s : fs U) i ip B k :
  itable s !! i = Some ip -> IBLOCK (i_inum ip) (sb s) ∈ B -> 0 <= k -> log_room (lg s) B k ->
  exists l', iupdate i s = Done tt (set_lg l' s) /\
    view (bio l') = store_inode (sb s) (V s) (i_inum ip) (i_d ip) /\ log_room l' B k /\ lwrites (lg s) l'.
Proof.
  intros Hi Hin Hk Hr. unfold iupdate. rewrite bind_gets, (bind_Done _ _ _ _ _ (geti_eq s i ip Hi)), (bind_Done _ _ _ _ _ (bread_eq _ s)).
  by apply update_block_spec.
Qed.

(** An inode stored with [iupdate] comes back from the disk unchanged: every
    later [ilock] of a table entry for the same inode number that has to read
    it gets exactly the metadata and block addresses stored, and the other
    inodes of the disk are not affected. *)
Theorem iupdate_ilock_roundtrip (s : fs U) (i : nat) (ip : inode) :
  itable s !! i = Some ip -> 0 <= i_inum ip -> dinode_wf (i_d ip) -> d_type (i_d ip) <> 0 ->
  bsize (V s (IBLOCK (i_inum ip) (sb s))) -> log_room (lg s) [IBLOCK (i_inum ip) (sb s)] 0 ->
  exists l', iupdate i s = Done tt (set_lg l' s) /\
    (forall j, 0 <= j -> j <> i_inum ip -> disk_inode (sb s) (view (bio l')) j = disk_inode (sb s) (V s) j) /\
    forall (s2 : fs U) j jp, sb s2 = sb s -> V s2 = view (bio l') -> itable s2 !! j = Some jp ->
      i_inum jp = i_inum ip -> 1 <= i_ref jp -> ilocked jp = false -> i_valid jp = false ->
      ilock j s2 =
        Done tt (set_itable (<[j := mkinode (i_dev jp) (i_inum jp) (i_ref jp) true true (i_d ip)]> (itable s2)) s2).
Proof.
  intros Hi Hin Hd Ht Hb Hr. destruct (iupdate_spec s i ip _ 0 Hi (list_elem_of_here _ _) ltac:(lia) Hr) as (l' & H1 & H2 & _ & _).
  pose proof (dw_len _ Hd) as Hl.
  exists l'. split; [done|]. rewrite H2. split; [intros; by apply store_inode_other|].
  intros s2 j jp Hsb HV Hj Hnum Href Hlk Hval. unfold ilock. rewrite (bind_Done _ _ _ _ _ (geti_eq s2 j jp Hj)).
  destruct (Z.ltb_spec (i_ref jp) 1); [lia|]. rewrite Hlk, Hval, bind_gets, (bind_Done _ _ _ _ _ (bread_eq _ s2)), Hnum, Hsb, HV.
  change (parse_dinode _) with (disk_inode (sb s) (store_inode (sb s) (V s) (i_inum ip) (i_d ip)) (i_inum ip)).
  rewrite store_inode_same by done. unfold puti. rewrite bind_modify.
  destruct (Z.eqb_spec (d_type (i_d ip)) 0); [done|]. unfold set_d, set_valid, set_locked.
  cbn [i_dev i_inum i_ref ilocked i_valid]. by rewrite Hnum.
Qed.
End Iupdate.

Lemma iupdate_ilock_roundtrip_witness :
  let ip := mkinode ROOTDEV 2 1 true true (mkdinode T_FILE 0 0 1 77 (replicate 13 0)) in
  let s := demo_fs (U := list Z) [] [ip] in
  exists l', iupdate 0 s = Done tt (set_lg l' s) /\
    ilock 0 (mkfs demo_sb l' [mkinode ROOTDEV 2 1 false false (i_d inode0)] ([], ramp) []) =
      Done tt (mkfs demo_sb l' [ip] (@nil Z, ramp) []).
Proof.
  intros ip s.
  assert (Hroom : log_room demo_log [IBLOCK 2 demo_sb] 0) by (by apply empty_log_room; [..|repeat constructor]).
  destruct (iupdate_ilock_roundtrip s 0 ip) as (l' & H1 & _ & H2).
  - reflexivity.
  - done.
  - split; try done. by apply Forall_replicate.
  - done.
  - done.
  - exact Hroom.
  - exists l'. split; [exact H1|].
    refine (H2 (mkfs demo_sb l' [mkinode ROOTDEV 2 1 false false (i_d inode0)] (@nil Z, ramp) []) 0%nat _ eq_refl eq_refl eq_refl eq_refl _ eq_refl eq_refl).
    cbn [i_ref]. lia.
Defined.
