(* ===== verification/FsFile.v ===== *)
(** * Reading files: [readi]

    A file is the list of its bytes, block by block ([file_byte]).  Theorem:
    [readi] copies the bytes from its offset to the end of the request or of
    the file, and stops at the first byte the destination refuses. *)

From S2P Require Import Prelude CString Kalloc Vm VmOps UserMem Block Log Fs FsAlloc FsInode.

(** Byte [o] of a file. *)
Definition file_byte (v : Z -> block) (d : dinode) (o : Z) : Z :=
  nth (Z.to_nat (o mod BSIZE)) (v (iblk v d (o / BSIZE))) 0.
Definition file_bytes (v : Z -> block) (d : dinode) (off : Z) (n : nat) : list Z :=
  (fun i => file_byte v d (off + Z.of_nat i)) <$> seq 0 n.

(** Every block below the size is there and holds bytes. *)
Record file_ok (v : Z -> block) (d : dinode) : Prop := {
  fo_size : 0 <= d_size d <= MAXFILE * BSIZE;
  fo_block bn : 0 <= bn -> bn * BSIZE < d_size d ->
    iblk v d bn <> 0 /\ bsize (v (iblk v d bn)) /\ Forall (fun b => 0 <= b < 256) (v (iblk v d bn))
}.

Lemma length_file_bytes v d off n : length (file_bytes v d off n) = n.
Proof. unfold file_bytes. by rewrite length_fmap, length_seq. Qed.

Lemma file_bytes_lookup v d off n i : (i < n)%nat ->
  file_bytes v d off n !! i = Some (file_byte v d (off + Z.of_nat i)).
Proof. intros. unfold file_bytes. by rewrite list_lookup_fmap, lookup_seq_Some. Qed.

Lemma file_bytes_app v d off n m :
  file_bytes v d off (n + m) = file_bytes v d off n ++ file_bytes v d (off + Z.of_nat n) m.
Proof.
  unfold file_bytes. rewrite seq_app, fmap_app. f_equal.
  replace (0 + n)%nat with (n + 0)%nat by lia. rewrite <- (fmap_add_seq n 0 m), <- list_fmap_compose. apply list_fmap_ext. intros i x _. cbn. f_equal. lia.
Qed.

(** Positions inside one block. *)
Section Chunk.
Context (off m : Z) (Hoff : 0 <= off) (Hm : off mod BSIZE + m <= BSIZE).

Lemma chunk_div i : 0 <= i < m -> (off + i) / BSIZE = off / BSIZE /\ (off + i) mod BSIZE = off mod BSIZE + i.
Proof.
  intros Hi. unfold BSIZE in *. pose proof (Z.div_mod off 1024). pose proof (Z.mod_pos_bound off 1024).
  split; symmetry; [apply (Z.div_unique _ _ _ (off mod 1024 + i))|apply (Z.mod_unique _ _ (off / 1024))]; lia.
Qed.

Lemma chunk_bytes v d : 0 <= m -> bsize (v (iblk v d (off / BSIZE))) ->
  take (Z.to_nat m) (drop (Z.to_nat (off mod BSIZE)) (v (iblk v d (off / BSIZE)))) =
  file_bytes v d off (Z.to_nat m).
Proof.
  intros Hm0 Hb. unfold bsize in Hb. pose proof (Z.mod_pos_bound off BSIZE ltac:(done)).
  apply list_eq_same_length with (n := Z.to_nat m).
  - apply length_file_bytes.
  - rewrite length_take, length_drop. lia.
  - intros i x y Hi Hx Hy. rewrite file_bytes_lookup in Hy by done. injection Hy as <-.
    rewrite lookup_take_lt, lookup_drop in Hx by done. unfold file_byte.
    destruct (chunk_div (Z.of_nat i)) as [-> ->]; [lia|]. symmetry. apply nth_lookup_Some.
    rewrite <- Hx. f_equal. lia.
Qed.
End Chunk.

(** ** Moving data *)

Section Move.
Context {U : Type} `{!UserMem U}.

(** The byte at [a] on the chosen side. *)
Definition dbyte (user : bool) (w : U * mem) (a : Z) : option Z :=
  if user then ubyte w.1 a else Some (w.2 a).
Definition side_ok (w : U * mem) : Prop := uok w.1 /\ mem_ok w.2.
(** The other side does not change. *)
Definition same_side (user : bool) (w w' : U * mem) : Prop := if user then w'.2 = w.2 else w'.1 = w.1.

(** [bs] stored at [a0], nothing else changed. *)
Definition stored (user : bool) (w w' : U * mem) (a0 : Z) (bs : list Z) : Prop :=
  side_ok w' /\ same_side user w w' /\
  (forall a, 0 <= a ->
    dbyte user w' a =
      if (a0 <=? a) && (a <? a0 + Z.of_nat (length bs)) then bs !! Z.to_nat (a - a0) else dbyte user w a) /\
  (user = false -> w'.2 = store_bytes w.2 a0 bs).

Lemma store_bytes_app m a bs1 bs2 :
  store_bytes m a (bs1 ++ bs2) = store_bytes (store_bytes m a bs1) (a + Z.of_nat (length bs1)) bs2.
Proof.
  revert m a. induction bs1 as [|b bs1 IH]; intros m a; cbn [app store_bytes length].
  - change (Z.of_nat 0) with 0. by rewrite Z.add_0_r.
  - rewrite IH. f_equal. lia.
Qed.

Lemma stored_nil user w a0 : side_ok w -> stored user w w a0 [].
Proof.
  intros Hw. split; [done|]. split; [by destruct user|]. split; [|done]. intros a Ha. cbn [length]. change (Z.of_nat 0) with 0.
  destruct (Z.leb_spec a0 a), (Z.ltb_spec a (a0 + 0)); cbn [andb]; done || lia.
Qed.

Lemma stored_app user w w1 w2 a0 bs1 bs2 : 0 <= a0 ->
  stored user w w1 a0 bs1 -> stored user w1 w2 (a0 + Z.of_nat (length bs1)) bs2 -> stored user w w2 a0 (bs1 ++ bs2).
Proof.
  intros H0 (_ & S1 & B1 & E1) (Hok & S2 & B2 & E2). split; [done|]. split; [destruct user; cbn in *; congruence|].
  split; [|intros Hu; rewrite store_bytes_app, <- E1 by done; by apply E2]. intros a Ha. rewrite B2, B1, length_app by done.
  destruct (Z.leb_spec a0 a); cbn [andb].
  2: { destruct (Z.leb_spec (a0 + Z.of_nat (length bs1)) a); [lia|done]. }
  destruct (Z.leb_spec (a0 + Z.of_nat (length bs1)) a); cbn [andb].
  - rewrite lookup_app_r by lia. destruct (Z.ltb_spec a (a0 + Z.of_nat (length bs1))); [lia|].
    destruct (Z.ltb_spec a (a0 + Z.of_nat (length bs1) + Z.of_nat (length bs2))),
      (Z.ltb_spec a (a0 + Z.of_nat (length bs1 + length bs2))); try lia; [|done]. f_equal. lia.
  - destruct (Z.ltb_spec a (a0 + Z.of_nat (length bs1))), (Z.ltb_spec a (a0 + Z.of_nat (length bs1 + length bs2))); try lia.
    symmetry. apply lookup_app_l. lia.
Qed.

Lemma either_copyout_spec user va bs w :
  side_ok w -> 0 <= va < 2 ^ 64 -> Forall (fun b => 0 <= b < 256) bs ->
  exists (k : nat) r w', either_copyout user va bs w = (r, w') /\ stored user w w' va (take k bs) /\
    ((r = 0 /\ k = length bs) \/ (r = -1 /\ user = true /\ (k < length bs)%nat)).
Proof.
  intros [Hu Hm] Hva Hbs. unfold either_copyout. destruct user.
  - destruct (ucopyout_law va bs w.1 Hu Hva Hbs) as (k & r & u' & -> & Hu' & Hr & Hb).
    exists k, r, (u', w.2). split; [done|]. split; [|naive_solver]. split; [done|]. split; [done|]. split; [|done].
    assert (Hk : (k <= length bs)%nat) by (destruct Hr as [[_ ->]|[_ ?]]; lia).
    intros a Ha. cbn. rewrite (Hb a Ha), length_take, Nat.min_l by done.
    destruct (Z.leb_spec va a), (Z.ltb_spec a (va + Z.of_nat k)); cbn [andb]; try done.
    symmetry. apply lookup_take_lt. lia.
  - exists (length bs), 0, (w.1, store_bytes w.2 va bs). split; [done|]. split; [|by left].
    rewrite take_ge by lia. split; [split; [done|by apply store_bytes_ok]|]. split; [done|]. split; [|done].
    intros a Ha. cbn. destruct (Z.leb_spec va a), (Z.ltb_spec a (va + Z.of_nat (length bs))); cbn [andb];
      try (f_equal; apply store_bytes_out; lia).
    destruct (lookup_lt_is_Some_2 bs (Z.to_nat (a - va))) as [b Hb]; [lia|]. rewrite Hb. f_equal.
    replace a with (va + Z.of_nat (Z.to_nat (a - va))) at 1 by lia. rewrite (store_bytes_in _ _ _ _ b Hb).
    apply u8_small. rewrite Forall_lookup in Hbs. by apply (Hbs _ _ Hb).
Qed.

Lemma load_bytes_at m a n : bytes_at (fun x => Some (m x)) a n = Some (load_bytes m a n).
Proof.
  revert a. induction n as [|n IH]; intros a; [done|]. cbn [bytes_at]. rewrite IH. cbn.
  unfold load_bytes. cbn [seq fmap list_fmap]. rewrite <- fmap_S_seq, <- list_fmap_compose.
  rewrite Z.add_0_r. do 2 f_equal. apply list_fmap_ext. intros i x _. cbn. f_equal. lia.
Qed.

Lemma load_store_bytes m a bs : Forall (fun b => 0 <= b < 256) bs -> load_bytes (store_bytes m a bs) a (length bs) = bs.
Proof.
  intros Hb. unfold load_bytes. apply list_eq_same_length with (n := length bs); [done|by rewrite length_fmap, length_seq|].
  intros i x y Hi Hx Hy. rewrite list_lookup_fmap, lookup_seq_lt in Hx by done. apply Some_inj in Hx as <-.
  rewrite (store_bytes_in m a bs (0 + i) y Hy). apply u8_small. rewrite Forall_lookup in Hb. by eapply Hb.
Qed.

Lemma either_copyin_spec user va n w :
  side_ok w -> 0 <= va < 2 ^ 64 -> 0 <= n ->
  exists r bs, either_copyin user va n w = (r, bs) /\
    bytes_at (dbyte user w) va (length bs) = Some bs /\ Forall (fun b => 0 <= b < 256) bs /\
    ((r = 0 /\ Z.of_nat (length bs) = n) \/
     (r = -1 /\ Z.of_nat (length bs) < n /\ dbyte user w (va + Z.of_nat (length bs)) = None)).
Proof.
  intros [Hu Hm] Hva Hn. unfold either_copyin, dbyte. destruct user.
  - pose proof (ucopyin_law va n w.1 Hu Hva Hn) as H. destruct (ucopyin va n w.1) as [r bs]. destruct H as [H1 H2].
    exists r, bs. split; [done|]. split; [done|]. split; [|done].
    clear H2 Hva. revert va H1. induction bs as [|b bs IH]; intros va H1; [done|]. cbn in H1.
    destruct (ubyte w.1 va) as [b0|] eqn:Hb; [|done].
    destruct (bytes_at (ubyte w.1) (va + 1) (length bs)) as [bs0|] eqn:He; [|done]. injection H1 as -> ->.
    apply Forall_cons. split; [by eapply ubyte_law|]. by eapply IH.
  - exists 0, (load_bytes w.2 va (Z.to_nat n)). split; [done|].
    assert (Hl : length (load_bytes w.2 va (Z.to_nat n)) = Z.to_nat n) by (unfold load_bytes; by rewrite length_fmap, length_seq).
    rewrite Hl. split; [apply load_bytes_at|]. split; [|left; lia].
    apply Forall_fmap, Forall_forall. intros i _. apply Hm.
Qed.

(** ** [readi] *)

(** [bmap] of a block that is there only reads. *)
Lemma bmap_mapped (s : fs U) i ip bn :
  itable s !! i = Some ip -> 0 <= bn < MAXFILE -> iblk (V s) (i_d ip) bn <> 0 ->
  bmap i bn s = Done (iblk (V s) (i_d ip) bn) s.
Proof.
  intros Hi Hbn Hne. change MAXFILE with 268 in Hbn. unfold bmap, iblk, bslot in *. change NDIRECT with 12.
  assert (Haddr : forall k, (k < 13)%nat -> slot (V s) (i_d ip) k <> 0 ->
    addr_alloc i k s = Done (slot (V s) (i_d ip) k) s).
  { intros k Hk Hs. unfold addr_alloc. rewrite (bind_Done _ _ _ _ _ (geti_eq s i ip Hi)).
    rewrite <- (slot_lt13 (V s) (i_d ip) k) by done. destruct (Z.eqb_spec (slot (V s) (i_d ip) k) 0); [done|done]. }
  destruct (Z.ltb_spec bn 12); [apply Haddr; [lia|done]|].
  change NINDIRECT with 256. destruct (Z.ltb_spec (bn - 12) 256); [|lia].
  rewrite slot_ge13 in Hne |- * by lia. destruct (Z.eqb_spec (slot (V s) (i_d ip) 12) 0) as [|H12]; [done|].
  change (Z.to_nat 12) with 12%nat. rewrite (bind_Done _ _ _ _ _ (Haddr 12%nat ltac:(lia) H12)).
  destruct (Z.eqb_spec (slot (V s) (i_d ip) 12) 0); [done|].
  rewrite (bind_Done _ _ _ _ _ (bread_eq _ s)).
  replace (S (Z.to_nat bn) - 13)%nat with (Z.to_nat (bn - 12)) in * by lia.
  destruct (Z.eqb_spec (rd32 (V s (slot (V s) (i_d ip) 12)) (Z.to_nat (bn - 12))) 0); done.
Qed.

Lemma file_bytes_range v d off n : file_ok v d -> 0 <= off -> off + Z.of_nat n <= d_size d ->
  Forall (fun b => 0 <= b < 256) (file_bytes v d off n).
Proof.
  intros Hf Ho Hn. unfold file_bytes. apply Forall_fmap, Forall_forall. intros i Hi.
  rewrite elem_of_seq in Hi. cbn. unfold file_byte. apply byte_nth.
  pose proof (Z.div_mod (off + Z.of_nat i) BSIZE ltac:(done)). pose proof (Z.mod_pos_bound (off + Z.of_nat i) BSIZE ltac:(done)).
  apply (fo_block _ _ Hf); [apply Z.div_pos; [lia|done]|]. lia.
Qed.

Lemma readi_loop_spec i ip user : forall fuel (s : fs U) dst off tot n,
  itable s !! i = Some ip -> file_ok (V s) (i_d ip) -> side_ok (um s) ->
  0 <= dst -> dst + (n - tot) < 2 ^ 64 -> 0 <= off -> off + (n - tot) <= d_size (i_d ip) -> tot <= n ->
  (n = tot \/ off mod BSIZE + (n - tot) <= Z.of_nat fuel * BSIZE) ->
  exists (k : nat) r w', readi_loop fuel i user dst off tot n s = Done r (set_um w' s) /\
    stored user (um s) w' dst (file_bytes (V s) (i_d ip) off k) /\
    ((r = n /\ Z.of_nat k = n - tot) \/ (r = -1 /\ user = true /\ Z.of_nat k < n - tot)).
Proof.
  induction fuel as [|fuel IH]; intros s dst off tot n Hi Hf Hw Hd Hdn Ho Hon Htn Hfu; cbn [readi_loop].
  { exists 0%nat, tot, (um s). split; [by destruct s|]. split; [by apply stored_nil|]. left.
    pose proof (Z.mod_pos_bound off BSIZE ltac:(done)). destruct Hfu as [|Hfu]; lia. }
  destruct (Z.ltb_spec tot n) as [Hlt|Hge].
  2: { exists 0%nat, tot, (um s). split; [by destruct s|]. split; [by apply stored_nil|]. left. lia. }
  pose proof (Z.div_mod off BSIZE ltac:(done)) as Hdm. pose proof (Z.mod_pos_bound off BSIZE ltac:(done)) as Hmb.
  pose proof (fo_size _ _ Hf) as Hsz.
  assert (Hbn : 0 <= off / BSIZE) by (apply Z.div_pos; [lia|done]).
  destruct (fo_block _ _ Hf (off / BSIZE) Hbn ltac:(lia)) as (Hne & Hbs & Hby).
  assert (Hmax : off / BSIZE < MAXFILE) by (apply Z.div_lt_upper_bound; [done|]; lia).
  rewrite (bind_Done _ _ _ _ _ (bmap_mapped s i ip (off / BSIZE) Hi ltac:(lia) Hne)).
  destruct (Z.eqb_spec (iblk (V s) (i_d ip) (off / BSIZE)) 0); [done|].
  rewrite (bind_Done _ _ _ _ _ (bread_eq _ s)), bind_gets.
  set (m := Z.min (n - tot) (BSIZE - off mod BSIZE)).
  assert (Hm : 0 < m /\ m <= n - tot /\ off mod BSIZE + m <= BSIZE) by (unfold m; lia).
  rewrite (chunk_bytes off m ltac:(lia) (V s) (i_d ip) ltac:(lia) Hbs).
  destruct (either_copyout_spec user dst (file_bytes (V s) (i_d ip) off (Z.to_nat m)) (um s) Hw ltac:(lia))
    as (k & r & w1 & He & Hst & Hr); [apply file_bytes_range; [done|done|lia]|].
  rewrite He, bind_modify. rewrite length_file_bytes in Hr.
  assert (Hk : (k <= Z.to_nat m)%nat) by (destruct Hr as [[_ ->]|(_ & _ & ?)]; lia).
  assert (Htk : take k (file_bytes (V s) (i_d ip) off (Z.to_nat m)) = file_bytes (V s) (i_d ip) off k).
  { replace (Z.to_nat m) with (k + (Z.to_nat m - k))%nat by lia. rewrite file_bytes_app, take_app_length'; [done|].
    by rewrite length_file_bytes. }
  rewrite Htk in Hst. destruct Hr as [[-> ->]|(-> & Hus & Hlt')]; cbn [Z.eqb].
  2: { exists k, (-1), w1. split; [done|]. split; [done|]. right. split_and!; [done|done|lia]. }
  rewrite u64_small by lia.
  assert (Hmx : MAXFILE * BSIZE < 2 ^ 32) by done.
  rewrite (u32_small (off + m)) by lia.
  destruct (IH (set_um w1 s) (dst + m) (off + m) (tot + m) n) as (k2 & r2 & w2 & H1 & H2 & H3).
  { done. } { done. } { apply Hst. } { lia. } { lia. } { lia. } { lia. } { lia. }
  { destruct (Z.eq_dec n (tot + m)); [by left|right].
    assert (Hfull : off mod BSIZE + m = BSIZE) by (unfold m; lia).
    assert (Hz : (off + m) mod BSIZE = 0).
    { replace (off + m) with ((off / BSIZE + 1) * BSIZE) by lia. by apply Z.mod_mul. }
    rewrite Hz. destruct Hfu as [|Hfu]; lia. }
  exists (Z.to_nat m + k2)%nat, r2, w2. split; [exact H1|]. split.
  - rewrite file_bytes_app. apply (stored_app user (um s) w1 w2); [lia|done|]. rewrite length_file_bytes.
    by rewrite Z2Nat.id by lia.
  - destruct H3 as [[-> ?]|(-> & ? & ?)]; [left|right]; split_and!; try done; lia.
Qed.

Lemma readi_spec (s : fs U) (i : nat) (ip : inode) (user : bool) (dst off n : Z) :
  itable s !! i = Some ip -> file_ok (V s) (i_d ip) -> side_ok (um s) ->
  0 <= dst -> dst + n < 2 ^ 64 -> 0 <= off < 2 ^ 32 -> 0 <= n < 2 ^ 32 ->
  let size := d_size (i_d ip) in
  let cnt := if (off >? size) || (2 ^ 32 <=? off + n) then 0 else Z.min n (size - off) in
  exists (k : nat) r w', readi i user dst off n s = Done r (set_um w' s) /\
    stored user (um s) w' dst (file_bytes (V s) (i_d ip) off k) /\
    ((r = cnt /\ Z.of_nat k = cnt) \/ (r = -1 /\ user = true /\ Z.of_nat k < cnt)).
Proof.
  intros Hi Hf Hw Hd Hdn Ho Hn size cnt. unfold readi. rewrite (bind_Done _ _ _ _ _ (geti_eq s i ip Hi)). fold size.
  pose proof (fo_size _ _ Hf) as Hsz. fold size in Hsz. assert (Hmx : MAXFILE * BSIZE < 2 ^ 32) by done.
  assert (Hov : (u32 (off + n) <? off) = (2 ^ 32 <=? off + n)).
  { unfold u32. destruct (Z.leb_spec (2 ^ 32) (off + n)).
    - replace (off + n) with (off + n - 2 ^ 32 + 1 * 2 ^ 32) by lia. rewrite Z.mod_add, Z.mod_small by lia. apply Z.ltb_lt. lia.
    - rewrite Z.mod_small by lia. apply Z.ltb_ge. lia. }
  rewrite Hov. unfold cnt. destruct ((off >? size) || (2 ^ 32 <=? off + n)) eqn:Hout.
  { exists 0%nat, 0, (um s). split; [by destruct s|]. split; [by apply stored_nil|]. by left. }
  apply orb_false_elim in Hout as [Hle Hov']. rewrite Z.gtb_ltb in Hle. apply Z.ltb_ge in Hle. apply Z.leb_gt in Hov'.
  rewrite u32_small by lia.
  assert (Hclip : (if off + n >? size then size - off else n) = Z.min n (size - off)).
  { destruct (Z.gtb_spec (off + n) size); lia. }
  rewrite Hclip. set (c := Z.min n (size - off)) in *.
  destruct (readi_loop_spec i ip user (copy_fuel c) s dst off 0 c) as (k & r & w' & H1 & H2 & H3); try done; try lia.
  { right. unfold copy_fuel. pose proof (Z.mod_pos_bound off BSIZE ltac:(done)). pose proof (Z.div_mod c BSIZE ltac:(done)).
    pose proof (Z.mod_pos_bound c BSIZE ltac:(done)). pose proof (Z.div_pos c BSIZE ltac:(lia) ltac:(done)). unfold BSIZE in *. lia. }
  exists k, r, w'. rewrite Z.sub_0_r in H3. done.
Qed.


End Move.

(** ** A two-byte file *)

Definition hi_dinode : dinode := mkdinode T_FILE 0 0 1 2 (34 :: replicate 12 0).
Definition hi_view : Z -> block := updb demo_view 34 (104 :: 105 :: replicate 1022 0).
Definition hi_fs : fs (list Z) :=
  mkfs demo_sb (mklog 2 30 1 false [] (mkbdev hi_view demo_view [] []))
    [mkinode ROOTDEV 2 1 true true hi_dinode] (replicate 8 0, ramp) [].

Lemma hi_file_ok : file_ok hi_view hi_dinode.
Proof.
  split; [done|]. intros bn H0 Hlt. cbn [hi_dinode d_size] in Hlt. unfold BSIZE in Hlt.
  assert (bn = 0) as -> by lia. split; [done|]. split; [done|].
  change (hi_view (iblk hi_view hi_dinode 0)) with (104 :: 105 :: replicate 1022 0).
  apply Forall_cons; split; [lia|]. apply Forall_cons; split; [lia|]. apply Forall_replicate. lia.
Qed.

