(* ===== verification/FsWrite.v ===== *)
(** * Writing files: [writei] and [iupdate]

    [wrote] relates a file before and after a write: the bytes of the range are
    the new ones, every other byte stays, the blocks added were free, and only
    blocks of the file and the bitmap change.  The size is updated at the end
    and the inode stored back on disk.

    Theorems: [writei] writes exactly the bytes of its source that it could
    read, extends the file, and stores the inode; other files do not change. *)

From S2P Require Import Prelude CString Kalloc Vm VmOps UserMem Block Log Fs FsAlloc FsInode FsDinode FsFile.

(** ** The relation *)

Definition in_range (o off : Z) (bs : list Z) : bool := (off <=? o) && (o <? off + Z.of_nat (length bs)).

Record wrote (sb0 : superblock) (v : Z -> block) (d : dinode) (v' : Z -> block) (d' : dinode)
    (off : Z) (bs : list Z) : Prop := {
  wr_ev : evolved sb0 v d v' d';
  wr_mapped o : in_range o off bs = true -> iblk v' d' (o / BSIZE) <> 0;
  wr_bytes o : 0 <= o < MAXFILE * BSIZE -> in_range o off bs = true \/ iblk v d (o / BSIZE) <> 0 ->
    file_byte v' d' o =
      if in_range o off bs then nth (Z.to_nat (o - off)) bs 0 else file_byte v d o
}.

Lemma in_range_iff o off bs : in_range o off bs = true <-> off <= o < off + Z.of_nat (length bs).
Proof. unfold in_range. rewrite andb_true_iff, Z.leb_le, Z.ltb_lt. done. Qed.

Lemma in_range_nil o off : in_range o off [] = false.
Proof. unfold in_range. cbn [length]. change (Z.of_nat 0) with 0. destruct (Z.leb_spec off o), (Z.ltb_spec o (off + 0)); done || lia. Qed.

Lemma bslot_lt bn : 0 <= bn < MAXFILE -> (bslot bn < NSLOT)%nat.
Proof. change MAXFILE with 268. intros. unfold bslot, NSLOT. destruct (Z.ltb_spec bn 12); lia. Qed.
Lemma bslot_ne12 bn : 0 <= bn -> bslot bn <> 12%nat.
Proof. intros. unfold bslot. destruct (Z.ltb_spec bn 12); lia. Qed.
Lemma bslot_inj a b : 0 <= a -> 0 <= b -> bslot a = bslot b -> a = b.
Proof. intros ??. unfold bslot. destruct (Z.ltb_spec a 12), (Z.ltb_spec b 12); lia. Qed.

Lemma offset_block o : 0 <= o < MAXFILE * BSIZE -> 0 <= o / BSIZE < MAXFILE.
Proof. intros H. split; [apply Z.div_pos; [lia|done]|apply Z.div_lt_upper_bound; [done|lia]]. Qed.

(** Adding blocks leaves the bytes of the file. *)
Lemma wrote_grew sb0 v d v' d' off : grew sb0 v d v' d' -> wrote sb0 v d v' d' off [].
Proof.
  intros [He Hd]. split; [done| |].
  - intros o. by rewrite in_range_nil.
  - intros o Ho. rewrite in_range_nil. intros [|Hm]; [done|]. apply offset_block in Ho.
    unfold file_byte, iblk in *. rewrite (ev_keep _ _ _ _ _ He) by (done || by apply bslot_lt).
    by rewrite Hd by (done || by apply bslot_lt || (apply bslot_ne12; lia)).
Qed.

Lemma wrote_app sb0 v d v1 d1 v2 d2 off bs1 bs2 :
  0 <= off -> off + Z.of_nat (length bs1) <= MAXFILE * BSIZE ->
  wrote sb0 v d v1 d1 off bs1 -> wrote sb0 v1 d1 v2 d2 (off + Z.of_nat (length bs1)) bs2 ->
  wrote sb0 v d v2 d2 off (bs1 ++ bs2).
Proof.
  intros Hoff Hmax [E1 M1 B1] [E2 M2 B2].
  assert (Hkeep : forall o, 0 <= o < MAXFILE * BSIZE -> iblk v1 d1 (o / BSIZE) <> 0 ->
    iblk v2 d2 (o / BSIZE) = iblk v1 d1 (o / BSIZE)).
  { intros o Ho Hne. apply (ev_keep _ _ _ _ _ E2); [|done]. by apply bslot_lt, offset_block. }
  assert (Hr : forall o, in_range o off (bs1 ++ bs2) =
    in_range o off bs1 || in_range o (off + Z.of_nat (length bs1)) bs2).
  { intros o. apply eq_true_iff_eq. rewrite orb_true_iff, !in_range_iff, length_app. lia. }
  split; [by eapply evolved_trans| |].
  - intros o. rewrite Hr, orb_true_iff. intros [H|H]; [|by apply M2].
    pose proof (M1 o H). apply in_range_iff in H. rewrite Hkeep by (done || lia). done.
  - intros o Ho Hm. rewrite Hr in *.
    assert (Hm1 : in_range o (off + Z.of_nat (length bs1)) bs2 = true \/ iblk v1 d1 (o / BSIZE) <> 0).
    { destruct Hm as [Hm|Hm]; [apply orb_true_iff in Hm as [Hm|]; [right; by apply M1|by left]|].
      right. unfold iblk in *. rewrite (ev_keep _ _ _ _ _ E1); [done| |done]. by apply bslot_lt, offset_block. }
    rewrite (B2 o Ho Hm1). destruct (in_range o (off + Z.of_nat (length bs1)) bs2) eqn:H2.
    + rewrite orb_true_r. apply in_range_iff in H2. rewrite app_nth2 by lia. f_equal. lia.
    + rewrite orb_false_r in *. rewrite (B1 o Ho Hm). destruct (in_range o off bs1) eqn:H1; [|done].
      apply in_range_iff in H1. rewrite app_nth1 by lia. done.
Qed.

(** ** Storing into one data block *)

Section DataBlock.
Context (sb0 : superblock) (v : Z -> block) (d : dinode) (k0 : nat) (y : block).
Context (Hbm : bitmap_ok sb0 v) (Hok : inode_ok sb0 v d) (Hk0 : (k0 < NSLOT)%nat) (H12 : k0 <> 12%nat).
Context (Hne : slot v d k0 <> 0) (Hy : block_ok y).
Let v' := updb v (slot v d k0) y.

Lemma data_slots k : (k < NSLOT)%nat -> slot v' d k = slot v d k.
Proof.
  intros Hk. destruct (decide (k < 13)%nat); [by rewrite !slot_lt13 by lia|].
  rewrite (slot_ge13 v' d k), (slot_ge13 v d k) by lia.
  replace (slot v' d 12) with (slot v d 12) by (by rewrite !slot_lt13 by lia).
  destruct (Z.eqb_spec (slot v d 12) 0) as [|Hi]; [done|]. unfold v'. rewrite updb_ne; [done|].
  intros He. apply H12. symmetry. apply (io_inj _ _ _ Hok); [unfold NSLOT; lia|done|done|done].
Qed.

Lemma data_bitmap b : 0 <= b < sb_size sb0 -> v' (BBLOCK b sb0) = v (BBLOCK b sb0).
Proof.
  intros Hb. unfold v'. apply updb_ne. pose proof (bbloc_range sb0 b Hb).
  destruct (io_data _ _ _ Hok k0 Hk0 Hne). lia.
Qed.

Lemma evolved_data : evolved sb0 v d v' d.
Proof.
  assert (Hal : forall b, 0 <= b < sb_size sb0 -> allocated sb0 v' b = allocated sb0 v b).
  { intros b Hb. unfold allocated. by rewrite data_bitmap. }
  pose proof (datastart_pos _ _ Hbm) as Hds. pose proof data_slots as Hs.
  split; [| |apply same_meta_refl|intros; by apply Hs| | | | |].
  - destruct Hbm as [K1 K2 K3 K4 K5]. split; [done|done| | |].
    + intros b Hb. rewrite data_bitmap by done. by apply K3.
    + intros b Hb. rewrite data_bitmap by done. by apply K4.
    + intros b Hb Hlt. rewrite Hal by lia. by apply K5.
  - split; [apply Hok|apply Hok| | |].
    + intros k Hk. rewrite Hs by done. intros Hn. destruct (io_data _ _ _ Hok k Hk Hn). split; [done|].
      by rewrite Hal by lia.
    + intros k k' Hk Hk'. rewrite !Hs by done. by apply (io_inj _ _ _ Hok).
    + rewrite Hs by (unfold NSLOT; lia). intros Hn. unfold v', updb. destruct (_ =? _); [apply Hy|by apply (io_ind _ _ _ Hok)].
  - intros b Hb. by rewrite Hal.
  - intros b Hb. rewrite Hal by lia. congruence.
  - intros k Hk _. left. by apply Hs.
  - intros x _ _ Hx. unfold v'. apply updb_ne. intros ->. by apply (Hx k0 Hk0), Hs.
  - intros Hb x. unfold v', updb. by destruct (_ =? _).
Qed.
End DataBlock.

Lemma splice_nth off new l i : (off + length new <= length l)%nat ->
  nth i (splice off new l) 0 =
    if decide (off <= i < off + length new)%nat then nth (i - off) new 0 else nth i l 0.
Proof.
  intros Hl. rewrite !nth_lookup, splice_lookup by done. by case_decide.
Qed.

Lemma wrote_data sb0 v d off bs :
  bitmap_ok sb0 v -> inode_ok sb0 v d -> 0 <= off < MAXFILE * BSIZE ->
  off mod BSIZE + Z.of_nat (length bs) <= BSIZE -> iblk v d (off / BSIZE) <> 0 ->
  block_ok (v (iblk v d (off / BSIZE))) -> Forall (fun b => 0 <= b < 256) bs ->
  wrote sb0 v d (updb v (iblk v d (off / BSIZE))
                   (splice (Z.to_nat (off mod BSIZE)) bs (v (iblk v d (off / BSIZE))))) d off bs.
Proof.
  intros Hbm Hok Hoff Hlen Hne Hblk Hbs. pose proof (offset_block off Hoff) as Hbn.
  pose proof (bslot_lt _ Hbn) as Hk0. pose proof (bslot_ne12 _ (proj1 Hbn)) as H12.
  pose proof (Z.mod_pos_bound off BSIZE ltac:(done)) as Hmod.
  set (y := splice _ _ _). assert (Hy : block_ok y) by (apply splice_ok; [lia|done|done]).
  assert (Hs : forall o, 0 <= o < MAXFILE * BSIZE -> iblk (updb v (iblk v d (off / BSIZE)) y) d (o / BSIZE) = iblk v d (o / BSIZE)).
  { intros o Ho. apply (data_slots sb0 v d _ y Hok Hk0 H12). by apply bslot_lt, offset_block. }
  assert (Hin : forall o, in_range o off bs = true -> 0 <= o < MAXFILE * BSIZE /\ o / BSIZE = off / BSIZE /\ o mod BSIZE = off mod BSIZE + (o - off)).
  { intros o Ho. apply in_range_iff in Ho. destruct (chunk_div off _ Hlen (o - off) ltac:(lia)) as [H1 H2].
    replace (off + (o - off)) with o in * by lia. split; [|done]. split; [lia|].
    pose proof (Z.div_mod o BSIZE ltac:(done)). pose proof (Z.mod_pos_bound o BSIZE ltac:(done)). unfold BSIZE in *. lia. }
  split; [by apply evolved_data| |].
  - intros o Ho. destruct (Hin o Ho) as (Ho1 & Ho2 & _). rewrite Hs, Ho2 by done. done.
  - intros o Ho Hm. unfold file_byte. rewrite Hs by done. destruct (in_range o off bs) eqn:Hr.
    + destruct (Hin o Hr) as (_ & -> & ->). rewrite updb_eq. unfold y. destruct Hblk as [Hsz _]. unfold bsize in Hsz.
      apply in_range_iff in Hr. rewrite splice_nth, decide_True by lia. f_equal. lia.
    + destruct Hm as [|Hm]; [done|]. destruct (decide (o / BSIZE = off / BSIZE)) as [He|He].
      * rewrite He, updb_eq. unfold y. destruct Hblk as [Hsz _]. unfold bsize in Hsz. rewrite splice_nth by lia.
        apply not_true_iff_false in Hr. rewrite in_range_iff in Hr. rewrite decide_False; [done|].
        pose proof (Z.div_mod o BSIZE ltac:(done)). pose proof (Z.div_mod off BSIZE ltac:(done)).
        pose proof (Z.mod_pos_bound o BSIZE ltac:(done)). lia.
      * rewrite updb_ne; [done|]. intros Heq. apply He. apply bslot_inj; [by apply offset_block|lia|].
        apply (io_inj _ _ _ Hok); try done. by apply bslot_lt, offset_block.
Qed.

(** ** The loop of [writei] *)

Lemma bytes_at_app f va n m bs1 bs2 :
  bytes_at f va n = Some bs1 -> bytes_at f (va + Z.of_nat n) m = Some bs2 -> bytes_at f va (n + m) = Some (bs1 ++ bs2).
Proof.
  revert va bs1. induction n as [|n IH]; intros va bs1 H1 H2.
  - injection H1 as <-. by rewrite Z.add_0_r in H2.
  - cbn [bytes_at Nat.add] in *. destruct (f va) as [b|]; [|done].
    destruct (bytes_at f (va + 1) n) as [l|] eqn:Hl; [|done]. injection H1 as <-.
    rewrite (IH (va + 1) l Hl); [done|]. by replace (va + 1 + Z.of_nat n) with (va + Z.of_nat (S n)) by lia.
Qed.

(** After a chunk that is not the last, the offset is at a block start. *)
Lemma chunk_end off m n tot : 0 <= off -> m = Z.min (n - tot) (BSIZE - off mod BSIZE) -> n <> tot + m ->
  (off + m) mod BSIZE = 0 /\ m = BSIZE - off mod BSIZE.
Proof.
  intros Ho Hm Hn. pose proof (Z.div_mod off BSIZE ltac:(done)). pose proof (Z.mod_pos_bound off BSIZE ltac:(done)).
  split; [|lia]. replace (off + m) with ((off / BSIZE + 1) * BSIZE) by lia. by apply Z.mod_mul.
Qed.
Lemma next_chunk off m n tot : 0 <= off -> m = Z.min (n - tot) (BSIZE - off mod BSIZE) -> n <> tot + m ->
  (off + m) mod BSIZE + (n - (tot + m)) = off mod BSIZE + (n - tot) - BSIZE.
Proof. intros Ho Hm Hn. destruct (chunk_end off m n tot Ho Hm Hn) as [-> ->]. lia. Qed.

Section Writei.
Context {U : Type} `{!UserMem U}.

(** Why fewer than all bytes were written. *)
Definition short_write (sb0 : superblock) (v' : Z -> block) (user : bool) (w : U * mem) (src n : Z) (bs : list Z) : Prop :=
  disk_full sb0 v' \/ (Z.of_nat (length bs) < n /\ dbyte user w (src + Z.of_nat (length bs)) = None).

(** The changes are logged and all of them reported, unless a chunk could not
    be read completely. *)
Definition logged_unless (l l' : log) (user : bool) (w : U * mem) (src n r : Z) (bs : list Z) : Prop :=
  (lwrites l l' /\ Z.of_nat (length bs) = r) \/
  (Z.of_nat (length bs) < n /\ dbyte user w (src + Z.of_nat (length bs)) = None).

(** Writes stop at the end of a block. *)
Definition stops (off n r : Z) : Prop := r = n \/ r = 0 \/ (off + r) mod BSIZE = 0.

Lemma store_logged (s : fs U) b y B k : b ∈ B -> 0 <= k -> log_room (lg s) B k ->
  exists l1, onlog (bstore b y) s = Done tt (set_lg l1 s) /\ view (bio l1) = updb (V s) b y /\ log_room l1 B k /\
  exists l2, onlog (log_write b) (set_lg l1 s) = Done tt (set_lg l2 s) /\ view (bio l2) = updb (V s) b y /\
    (forall B' k', b ∈ B' -> 0 <= k' -> log_room (lg s) B' k' -> log_room l2 B' k') /\ lwrites (lg s) l2.
Proof.
  intros Hb Hk Hr. unfold onlog, bstore, modify. eexists. split; [reflexivity|]. split; [done|].
  split; [done|]. cbn [lg set_lg]. set (l1 := set_bio _ _).
  destruct (log_write_spec b l1 B k Hb Hk) as (l2 & Hw & Hv & _); [done|]. rewrite Hw. exists l2. split; [done|].
  split; [by rewrite Hv|]. split; [|apply rtc_once; exists b y; [by eapply log_room_home|done]]. intros B' k' Hb' Hk' Hr'.
  destruct (log_write_spec b l1 B' k' Hb' Hk') as (l2' & Hw' & _ & Hr2); [done|]. congruence.
Qed.

(** A chunk stored in the block of its offset, after the file has grown to have one. *)
Lemma wrote_chunk sb0 v d v1 d1 off bs :
  grew sb0 v d v1 d1 -> blocks_ok v -> 0 <= off < MAXFILE * BSIZE ->
  off mod BSIZE + Z.of_nat (length bs) <= BSIZE -> iblk v1 d1 (off / BSIZE) <> 0 ->
  Forall (fun b => 0 <= b < 256) bs ->
  wrote sb0 v d (updb v1 (iblk v1 d1 (off / BSIZE))
                   (splice (Z.to_nat (off mod BSIZE)) bs (v1 (iblk v1 d1 (off / BSIZE))))) d1 off bs.
Proof.
  intros Hg Hblk Hoff Hlen Hne Hbs. pose proof (gw_ev _ _ _ _ _ Hg) as Hev.
  pose proof (ev_blocks _ _ _ _ _ Hev Hblk) as Hblk1.
  apply (wrote_app _ _ _ v1 d1 _ _ off [] bs); [lia|cbn [length]; lia|by apply wrote_grew|].
  cbn [length]. change (Z.of_nat 0) with 0. rewrite Z.add_0_r.
  apply wrote_data; try done; [apply (ev_bitmap _ _ _ _ _ Hev)|apply (ev_ok _ _ _ _ _ Hev)].
Qed.

(** Storing in a data block leaves the indirect block, and its room in the log. *)
Lemma file_room_data sb0 v d bn y l l2 B k :
  inode_ok sb0 v d -> 0 <= bn < MAXFILE -> 0 <= k -> iblk v d bn ∈ B -> file_room l v d B k ->
  (forall B' k', iblk v d bn ∈ B' -> 0 <= k' -> log_room l B' k' -> log_room l2 B' k') ->
  file_room l2 (updb v (iblk v d bn) y) d B k.
Proof.
  intros Hok Hbn Hk Hin Hr Hl. unfold file_room. unfold iblk at 1 2.
  rewrite (data_slots sb0 v d (bslot bn) y Hok (bslot_lt _ Hbn) (bslot_ne12 _ (proj1 Hbn)) 12 ltac:(unfold NSLOT; lia)).
  destruct Hr as [(? & ? & ?)|?]; [left; do 2 (split; [done|])|right]; apply Hl; done || lia.
Qed.

(** What the loop has done when [n] bytes were asked for and [t] are reported. *)
Definition loop_post (s : fs U) (i : nat) (ip : inode) (user : bool) (src off n t : Z) (B : list Z)
    (s' : fs U) (d' : dinode) (bs B' : list Z) : Prop :=
  upd_inode s i ip d' s' /\ wrote (sb s) (V s) (i_d ip) (V s') d' off bs /\ B ⊆ B' /\ log_room (lg s') B' 0 /\
  bytes_at (dbyte user (um s)) src (length bs) = Some bs /\
  0 <= t <= n /\ t <= Z.of_nat (length bs) <= n /\
  (t = n \/ short_write (sb s) (V s') user (um s) src n bs) /\ stops off n t /\
  logged_unless (lg s) (lg s') user (um s) src n t bs.

(** It stops before a chunk: the file has at most grown. *)
Lemma loop_post_stop s i ip user src off n B s1 d1 B1 :
  upd_inode s i ip d1 s1 -> grew (sb s) (V s) (i_d ip) (V s1) d1 -> B ⊆ B1 -> log_room (lg s1) B1 0 ->
  lwrites (lg s) (lg s1) -> 0 <= n -> (n = 0 \/ disk_full (sb s) (V s1)) ->
  loop_post s i ip user src off n 0 B s1 d1 [] B1.
Proof.
  intros Hu Hg HB Hr Hl Hn Hwhy. split_and!; try done; try (cbn [length]; lia).
  - by apply wrote_grew.
  - destruct Hwhy as [->|Hf]; [by left|by right; left].
  - by right; left.
  - by left.
Qed.

(** It stops in a chunk that could not be read completely. *)
Lemma loop_post_fault s i ip user src off n B s1 d1 bs B1 :
  upd_inode s i ip d1 s1 -> wrote (sb s) (V s) (i_d ip) (V s1) d1 off bs -> B ⊆ B1 -> log_room (lg s1) B1 0 ->
  bytes_at (dbyte user (um s)) src (length bs) = Some bs -> Z.of_nat (length bs) < n ->
  dbyte user (um s) (src + Z.of_nat (length bs)) = None ->
  loop_post s i ip user src off n 0 B s1 d1 bs B1.
Proof.
  intros Hu Hw HB Hr Hat Hlt Hnone. split_and!; try done; try lia.
  - right. by right.
  - by right; left.
  - by right.
Qed.

(** One chunk of [m] bytes, then the rest. *)
Lemma loop_post_chunk s i ip user src off n m B s1 d1 bs1 B1 t s2 d2 bs2 B2 :
  upd_inode s i ip d1 s1 -> wrote (sb s) (V s) (i_d ip) (V s1) d1 off bs1 -> B ⊆ B1 -> lwrites (lg s) (lg s1) ->
  sb s1 = sb s -> um s1 = um s -> 0 <= off -> off + n <= MAXFILE * BSIZE -> bytes_at (dbyte user (um s)) src (length bs1) = Some bs1 ->
  Z.of_nat (length bs1) = m -> m = Z.min n (BSIZE - off mod BSIZE) ->
  loop_post s1 i (set_d d1 ip) user (src + m) (off + m) (n - m) t B1 s2 d2 bs2 B2 ->
  loop_post s i ip user src off n (m + t) B s2 d2 (bs1 ++ bs2) B2.
Proof.
  intros Hu Hw HB Hl Hsb Hum Ho Hmax Hat Hlen Hm (K2 & K3 & K4 & K5 & K6 & K7 & K8 & K9 & K10 & K11).
  change (i_d (set_d d1 ip)) with d1 in K3. rewrite Hsb, Hum in *. rewrite <- Hlen in K3, K6.
  split; [exact (upd_inode_trans s i ip d1 s1 d2 s2 Hu K2)|]. split; [by eapply wrote_app; [|lia|..]|].
  split; [by etrans|]. split; [done|]. split; [rewrite length_app; by apply bytes_at_app|].
  split; [lia|]. split; [rewrite length_app; lia|]. split; [|split].
  - destruct K9 as [?|[?|[Hlt Hn]]]; [left; lia|by right; left|]. right. right.
    rewrite <- Hn, length_app. split; [lia|f_equal; lia].
  - destruct (Z.eq_dec n (0 + m)) as [Hn|Hn]; [left; lia|].
    pose proof (chunk_end off m n 0 Ho ltac:(by rewrite Z.sub_0_r) Hn) as [Hz _].
    destruct K10 as [?|[?|Hj]]; [left; lia| |]; right; right.
    + by replace (m + t) with m by lia.
    + by rewrite Z.add_assoc.
  - destruct K11 as [[Hl1 Hl2]|[Hlt Hn]]; [left|right].
    + split; [by etrans|rewrite length_app; lia].
    + rewrite <- Hn, length_app. split; [lia|f_equal; lia].
Qed.

(** Progress of the loop; [c] chunks are left at most. *)
Lemma writei_loop_spec i user : forall fuel (s : fs U) ip src off tot n B c,
  itable s !! i = Some ip -> bitmap_ok (sb s) (V s) -> inode_ok (sb s) (V s) (i_d ip) -> blocks_ok (V s) ->
  side_ok (um s) -> 0 <= src -> src + (n - tot) < 2 ^ 64 -> 0 <= off -> off + (n - tot) <= MAXFILE * BSIZE ->
  tot <= n -> (n = tot \/ off mod BSIZE + (n - tot) <= Z.of_nat fuel * BSIZE) ->
  0 <= c -> (n = tot \/ off mod BSIZE + (n - tot) <= c * BSIZE) ->
  bitmap_list (sb s) ⊆ B -> file_room (lg s) (V s) (i_d ip) B c ->
  exists t s' d' bs B', writei_loop fuel i user src off tot n s = Done (tot + t, off + t) s' /\
    loop_post s i ip user src off (n - tot) t B s' d' bs B'.
Proof.
  induction fuel as [|fuel IH]; intros s ip src off tot n B c Hi Hbm Hok Hblk Hw Hs Hsn Ho Hon Htn Hfu Hc0 Hc HB Hroom; cbn [writei_loop];
    pose proof (Z.mod_pos_bound off BSIZE ltac:(done)) as Hmb; pose proof (file_room_weaken _ _ _ _ _ Hroom) as Hroomw.
  { exists 0, s, (i_d ip), [], B. rewrite !Z.add_0_r. split; [done|].
    apply loop_post_stop; [by apply upd_inode_refl|by apply grew_refl|done|log_room_from Hroomw|done|lia|left; destruct Hfu; lia]. }
  destruct (Z.ltb_spec tot n) as [Hlt|Hge].
  2: { exists 0, s, (i_d ip), [], B. rewrite !Z.add_0_r. split; [done|].
    apply loop_post_stop; [by apply upd_inode_refl|by apply grew_refl|done|log_room_from Hroomw|done|lia|left; lia]. }
  pose proof (Z.div_mod off BSIZE ltac:(done)) as Hdm.
  assert (Hoff : 0 <= off < MAXFILE * BSIZE) by lia. pose proof (offset_block off Hoff) as Hbn.
  assert (Hc1 : 0 <= c - 1) by (unfold BSIZE in *; destruct Hc; lia).
  destruct (bmap_spec s i ip (off / BSIZE) B (c - 1) Hi Hbm Hok HB Hbn Hc1)
    as (addr & s1 & d1 & B1 & H1 & H2 & H3 & HB1 & H4 & Hlw1 & H5); [by replace (c - 1 + 1) with c by lia|].
  rewrite (bind_Done _ _ _ _ _ H1). pose proof (gw_ev _ _ _ _ _ H3) as Hev.
  pose proof H2 as (Hsb1 & Hum1 & _). pose proof (upd_inode_lookup _ _ _ _ _ Hi H2) as Hi1.
  pose proof (file_room_weaken _ _ _ _ _ H4) as H4w.
  destruct (Z.eqb_spec addr 0) as [Hz|Hnz].
  { exists 0, s1, d1, [], B1. rewrite !Z.add_0_r. split; [done|].
    apply loop_post_stop; [done|done|done|log_room_from H4w|done|lia|]. right. by destruct H5 as [[_ ?]|[? _]]. }
  destruct H5 as [[? _]|(_ & Haddr & HaB & _)]; [done|].
  rewrite (bind_Done _ _ _ _ _ (bread_eq _ s1)), bind_gets, Hum1.
  set (m := Z.min (n - tot) (BSIZE - off mod BSIZE)).
  assert (Hm : 0 < m /\ m <= n - tot /\ off mod BSIZE + m <= BSIZE) by (unfold m; lia).
  destruct (either_copyin_spec user src m (um s) Hw ltac:(lia) ltac:(lia)) as (r & bs & He & Hat & Hby & Hr). rewrite He.
  assert (Hlen : Z.of_nat (length bs) <= m) by (destruct Hr as [[_ ?]|(_ & ? & _)]; lia).
  set (y := splice _ bs _).
  destruct (store_logged s1 addr y B1 (c - 1) HaB Hc1 H4w) as (l1 & Hst & Hv1 & Hr1 & l2 & Hlw & Hv2 & Hr2 & Hlw2).
  rewrite (bind_Done _ _ _ _ _ Hst).
  assert (Hwr0 : wrote (sb s) (V s) (i_d ip) (updb (V s1) addr y) d1 off bs).
  { unfold y. rewrite Haddr in Hnz |- *. apply wrote_chunk; done || lia. }
  destruct Hr as [[-> Hlm]|(-> & Hlm & Hnone)]; cbn [Z.eqb].
  2: { exists 0, (set_lg l1 s1), d1, bs, B1. rewrite !Z.add_0_r. split; [done|].
    apply loop_post_fault; try done; [|log_room_from Hr1|lia].
    change (V (set_lg l1 s1)) with (view (bio l1)). by rewrite Hv1. }
  rewrite (bind_Done _ _ _ _ _ Hlw), u64_small by lia.
  assert (Hmx : MAXFILE * BSIZE < 2 ^ 32) by done. rewrite (u32_small (off + m)) by lia.
  pose proof (wr_ev _ _ _ _ _ _ _ Hwr0) as Hev2.
  assert (Hroom2 : file_room l2 (updb (V s1) addr y) d1 B1 (c - 1)).
  { rewrite Haddr in HaB, Hr2 |- *. by apply (file_room_data (sb s) _ _ _ _ (lg s1)); [apply (ev_ok _ _ _ _ _ Hev)|..]. }
  assert (Hnext : forall q, n = tot \/ off mod BSIZE + (n - tot) <= q * BSIZE ->
    n = tot + m \/ (off + m) mod BSIZE + (n - (tot + m)) <= (q - 1) * BSIZE).
  { intros q Hq. destruct (Z.eq_dec n (tot + m)); [by left|right]. rewrite (next_chunk off m n tot) by (done || lia). destruct Hq; lia. }
  destruct (IH (set_lg l2 s1) (set_d d1 ip) (src + m) (off + m) (tot + m) n B1 (c - 1)) as (t & s2 & d2 & bs2 & B2 & K1 & K2);
    change (V (set_lg l2 s1)) with (view (bio l2)) in *; change (sb (set_lg l2 s1)) with (sb s1) in *;
    change (um (set_lg l2 s1)) with (um s1) in *; rewrite ?Hv2, ?Hsb1, ?Hum1 in *; try done; try lia.
  { apply Hev2. } { apply Hev2. } { by apply Hev2. }
  { destruct (Hnext _ Hfu); [by left|right; lia]. } { by apply Hnext. } { by etrans. }
  exists (m + t), s2, d2, (bs ++ bs2), B2. rewrite K1, !Z.add_assoc. split; [done|].
  replace (n - (tot + m)) with (n - tot - m) in K2 by lia.
  apply (loop_post_chunk s i ip user src off (n - tot) m B (set_lg l2 s1) d1 bs B1); try done.
  - change (V (set_lg l2 s1)) with (view (bio l2)). by rewrite Hv2.
  - by etrans.
Qed.
End Writei.

(** ** Updates outside the bitmap and the data blocks *)

Section Meta.
Context (sb0 : superblock) (v v' : Z -> block) (Hag : forall x, sb_bmapstart sb0 <= x -> v' x = v x).

Lemma meta_allocated b : 0 <= b < sb_size sb0 -> allocated sb0 v' b = allocated sb0 v b.
Proof. intros Hb. unfold allocated. rewrite Hag; [done|]. by apply bbloc_range. Qed.

Lemma meta_bitmap : bitmap_ok sb0 v -> bitmap_ok sb0 v'.
Proof.
  intros Hbm. pose proof Hbm as [K1 K2 K3 K4 K5]. split; [done|done| | |].
  - intros b Hb. rewrite Hag by (by apply bbloc_range). by apply K3.
  - intros b Hb. rewrite Hag by (by apply bbloc_range). by apply K4.
  - intros b Hb Hlt. rewrite meta_allocated by lia. by apply K5.
Qed.

Context (Hbm : bitmap_ok sb0 v).

Lemma meta_slot d k : inode_ok sb0 v d -> slot v' d k = slot v d k.
Proof.
  intros Hok. destruct (decide (k < 13)%nat); [by rewrite !slot_lt13 by lia|].
  rewrite (slot_ge13 v' d k), (slot_ge13 v d k) by lia.
  replace (slot v' d 12) with (slot v d 12) by (by rewrite !slot_lt13 by lia).
  destruct (Z.eqb_spec (slot v d 12) 0) as [|Hi]; [done|]. rewrite Hag; [done|].
  destruct (io_data _ _ _ Hok 12%nat ltac:(unfold NSLOT; lia) Hi). pose proof (datastart_pos _ _ Hbm). lia.
Qed.

Lemma meta_data d k : inode_ok sb0 v d -> (k < NSLOT)%nat -> slot v d k <> 0 -> v' (slot v d k) = v (slot v d k).
Proof.
  intros Hok Hk Hs. apply Hag. destruct (io_data _ _ _ Hok k Hk Hs). pose proof (datastart_pos _ _ Hbm). lia.
Qed.

Lemma meta_inode d : inode_ok sb0 v d -> inode_ok sb0 v' d.
Proof.
  intros Hok. pose proof (fun k => meta_slot d k Hok) as Hs. split; [apply Hok|apply Hok| | |].
  - intros k Hk. rewrite Hs. intros Hn. destruct (io_data _ _ _ Hok k Hk Hn). split; [done|].
    pose proof (datastart_pos _ _ Hbm). by rewrite meta_allocated by lia.
  - intros k k' Hk Hk'. rewrite !Hs. by apply (io_inj _ _ _ Hok).
  - rewrite Hs. intros Hn. rewrite meta_data by (done || (unfold NSLOT; lia)). by apply (io_ind _ _ _ Hok).
Qed.

Lemma meta_byte d o : inode_ok sb0 v d -> 0 <= o < MAXFILE * BSIZE -> iblk v d (o / BSIZE) <> 0 ->
  file_byte v' d o = file_byte v d o.
Proof.
  intros Hok Ho Hm. unfold file_byte, iblk in *. rewrite meta_slot by done.
  by rewrite meta_data by (done || by apply bslot_lt, offset_block).
Qed.
End Meta.

Lemma inode_ok_size sb0 v d z : inode_ok sb0 v d -> inode_ok sb0 v (set_size z d).
Proof. intros [H1 H2 H3 H4 H5]. by split. Qed.

Section WriteFile.
Context {U : Type} `{!UserMem U}.

(** A consistent file: an inode of the table and its blocks. *)
Record file_inv (s : fs U) (ip : inode) : Prop := {
  fi_bitmap : bitmap_ok (sb s) (V s);
  fi_inode : inode_ok (sb s) (V s) (i_d ip);
  fi_file : file_ok (V s) (i_d ip);
  fi_blocks : blocks_ok (V s);
  fi_inum : 0 <= i_inum ip;
  fi_iblock : IBLOCK (i_inum ip) (sb s) < sb_bmapstart (sb s);
  fi_wf : dinode_wf (i_d ip)
}.

(** Two files without common blocks. *)
Definition disjoint (v : Z -> block) (d d2 : dinode) : Prop :=
  forall k k', (k < NSLOT)%nat -> (k' < NSLOT)%nat -> slot v d k <> 0 -> slot v d k <> slot v d2 k'.

Lemma evolved_wf sb0 v d v' d' z : evolved sb0 v d v' d' -> bitmap_ok sb0 v -> dinode_wf d -> 0 <= z < 2 ^ 32 -> dinode_wf (set_size z d').
Proof.
  intros Hev Hbm [H1 H2 H3 H4 H5 H6 H7] Hz. pose proof (ev_ok _ _ _ _ _ Hev) as Hok.
  destruct (ev_meta _ _ _ _ _ Hev) as (M1 & M2 & M3 & M4 & _). pose proof (io_len _ _ _ Hok) as Hl.
  split; cbn [set_size d_type d_major d_minor d_nlink d_size d_addrs]; rewrite ?M1, ?M2, ?M3, ?M4; try done.
  apply Forall_lookup. intros k a Ha. pose proof (lookup_lt_Some _ _ _ Ha) as Hk. rewrite Hl in Hk.
  pose proof (slot_lt13 v' d' k Hk) as Hs. rewrite (nth_lookup_Some _ _ _ _ Ha) in Hs.
  destruct (decide (a = 0)); [lia|]. destruct (io_data _ _ _ Hok k) as [Hr _]; [unfold NSLOT; lia|lia|].
  pose proof (datastart_pos _ _ Hbm). pose proof (io_max _ _ _ Hok). lia.
Qed.

(** Other files see nothing of it. *)
Lemma evolved_other sb0 v d v' d' d2 : bitmap_ok sb0 v -> evolved sb0 v d v' d' -> inode_ok sb0 v d2 -> disjoint v d d2 ->
  forall k, (k < NSLOT)%nat -> slot v d2 k <> 0 -> v' (slot v d2 k) = v (slot v d2 k).
Proof.
  intros Hbm Hev Hok2 Hdis k Hk Hn. destruct (io_data _ _ _ Hok2 k Hk Hn) as [Hr Ha]. pose proof (datastart_pos _ _ Hbm).
  apply (ev_frame _ _ _ _ _ Hev); [done|lia|]. intros k' Hk' He.
  destruct (ev_fresh _ _ _ _ _ Hev k' Hk') as [Hs|Hs]; [congruence| |congruence].
  apply (Hdis k' k Hk' Hk); congruence.
Qed.

Lemma other_bytes sb0 (v v' : Z -> block) d2 : inode_ok sb0 v d2 ->
  (forall k, (k < NSLOT)%nat -> slot v d2 k <> 0 -> v' (slot v d2 k) = v (slot v d2 k)) ->
  forall o, 0 <= o < MAXFILE * BSIZE -> iblk v d2 (o / BSIZE) <> 0 -> file_byte v' d2 o = file_byte v d2 o.
Proof.
  intros Hok2 Hsame o Ho Hm. pose proof (bslot_lt _ (offset_block o Ho)) as Hk.
  assert (Hs : forall k, (k < NSLOT)%nat -> slot v' d2 k = slot v d2 k).
  { intros k Hk'. destruct (decide (k < 13)%nat); [by rewrite !slot_lt13 by lia|].
    rewrite (slot_ge13 v' d2 k), (slot_ge13 v d2 k) by lia.
    replace (slot v' d2 12) with (slot v d2 12) by (by rewrite !slot_lt13 by lia).
    destruct (Z.eqb_spec (slot v d2 12) 0) as [|Hi]; [done|]. by rewrite Hsame by (done || (unfold NSLOT; lia)). }
  unfold file_byte, iblk in *. rewrite Hs by done. by rewrite Hsame.
Qed.
(** The effect of a write of [bs] at [off], of which [r] bytes are reported. *)
Record write_post (s : fs U) (i : nat) (ip : inode) (off r : Z) (bs : list Z) (s' : fs U) (d' : dinode) : Prop := {
  wp_inode : upd_inode s i ip d' s';
  wp_inv : file_inv s' (set_d d' ip);
  wp_size : d_size d' = Z.max (d_size (i_d ip)) (off + r);
  wp_bytes o : 0 <= o < d_size d' ->
    file_byte (V s') d' o =
      if in_range o off bs then nth (Z.to_nat (o - off)) bs 0 else file_byte (V s) (i_d ip) o;
  wp_disk : disk_inode (sb s) (V s') (i_inum ip) = d';
  wp_inodes j : 0 <= j -> j <> i_inum ip -> 0 < IBLOCK j (sb s) < sb_bmapstart (sb s) ->
    disk_inode (sb s) (V s') j = disk_inode (sb s) (V s) j;
  wp_others d2 o : inode_ok (sb s) (V s) d2 -> disjoint (V s) (i_d ip) d2 -> 0 <= o < MAXFILE * BSIZE ->
    iblk (V s) d2 (o / BSIZE) <> 0 -> file_byte (V s') d2 o = file_byte (V s) d2 o
}.

(** From the blocks written to the inode stored. *)
Lemma wrote_post (s s1 s' : fs U) i ip d1 off r bs :
  itable s !! i = Some ip -> file_inv s ip -> upd_inode s i ip d1 s1 ->
  wrote (sb s) (V s) (i_d ip) (V s1) d1 off bs -> 0 <= off <= d_size (i_d ip) -> 0 <= r <= Z.of_nat (length bs) ->
  off + Z.of_nat (length bs) <= MAXFILE * BSIZE ->
  let d' := set_size (Z.max (d_size (i_d ip)) (off + r)) d1 in
  upd_inode s i ip d' s' -> V s' = store_inode (sb s) (V s1) (i_inum ip) d' ->
  write_post s i ip off r bs s' d'.
Proof.
  intros Hi [Hbm Hok Hf Hblk Hin Hib Hwf] Hu1 Hwr Hoff Hr Hmax d' Hu' HV.
  pose proof (wr_ev _ _ _ _ _ _ _ Hwr) as Hev. pose proof (fo_size _ _ Hf) as Hsz. assert (Hmx : MAXFILE * BSIZE < 2 ^ 32) by done.
  assert (Hsize : d_size d' = Z.max (d_size (i_d ip)) (off + r)) by done.
  pose proof (evolved_wf _ _ _ _ _ (d_size d') Hev Hbm Hwf ltac:(lia)) as Hwf'.
  pose proof (ev_bitmap _ _ _ _ _ Hev) as Hbm1. pose proof (inode_ok_size _ _ _ (d_size d') (ev_ok _ _ _ _ _ Hev)) as Hok1.
  pose proof (ev_blocks _ _ _ _ _ Hev Hblk) as Hblk1. change (set_size (d_size d') d1) with d' in Hok1, Hwf'.
  assert (Hag : forall x, sb_bmapstart (sb s) <= x -> V s' x = V s1 x).
  { intros x Hx. rewrite HV. unfold store_inode. apply updb_ne. lia. }
  assert (Hmap : forall o, 0 <= o < d_size d' -> iblk (V s1) d' (o / BSIZE) <> 0).
  { intros o Ho. change (iblk (V s1) d' (o / BSIZE)) with (iblk (V s1) d1 (o / BSIZE)).
    destruct (in_range o off bs) eqn:Hrg; [by apply (wr_mapped _ _ _ _ _ _ _ Hwr)|].
    apply not_true_iff_false in Hrg. rewrite in_range_iff in Hrg.
    destruct (fo_block _ _ Hf (o / BSIZE)) as (Hne & _).
    { apply Z.div_pos; [lia|done]. }
    { pose proof (Z.div_mod o BSIZE ltac:(done)). pose proof (Z.mod_pos_bound o BSIZE ltac:(done)). lia. }
    unfold iblk in *. rewrite (ev_keep _ _ _ _ _ Hev); [done| |done]. apply bslot_lt, offset_block. lia. }
  assert (Hbyte : forall o, 0 <= o < d_size d' -> file_byte (V s') d' o = file_byte (V s1) d1 o).
  { intros o Ho. rewrite (meta_byte (sb s) (V s1) (V s') Hag Hbm1 d' o Hok1); [done|lia|by apply Hmap]. }
  assert (Hblk' : blocks_ok (V s')) by (rewrite HV; apply store_inode_blocks; [apply Hwf'|done]).
  pose proof Hu' as (Hsb' & _ & _).
  assert (Hbs1 : bsize (V s1 (IBLOCK (i_inum ip) (sb s)))) by apply Hblk1.
  split; [done| |done| | | |].
  - split; cbn [i_d i_inum set_d]; rewrite ?Hsb'; try done.
    + by apply (meta_bitmap (sb s) (V s1)).
    + by apply (meta_inode (sb s) (V s1)).
    + split; [lia|]. intros bn Hbn Hlt.
      assert (Hne : iblk (V s') d' bn <> 0).
      { unfold iblk. rewrite (meta_slot (sb s) (V s1) (V s') Hag Hbm1) by done.
        rewrite <- (Z.div_mul bn BSIZE) by done. apply Hmap. split; [unfold BSIZE; lia|lia]. }
      split; [done|]. apply Hblk'.
  - intros o Ho. rewrite Hbyte by done. apply (wr_bytes _ _ _ _ _ _ _ Hwr); [lia|].
    destruct (in_range o off bs) eqn:Hrg; [by left|right]. apply not_true_iff_false in Hrg. rewrite in_range_iff in Hrg.
    apply (fo_block _ _ Hf (o / BSIZE)); [apply Z.div_pos; [lia|done]|].
    pose proof (Z.div_mod o BSIZE ltac:(done)). pose proof (Z.mod_pos_bound o BSIZE ltac:(done)). lia.
  - rewrite HV. apply store_inode_same; [done|apply Hwf'|done].
  - intros j Hj Hne Hjb. rewrite HV, store_inode_other by (done || apply Hwf'). unfold disk_inode. do 3 f_equal.
    apply (ev_frame _ _ _ _ _ Hev); [lia|lia|]. intros k Hk He.
    destruct (decide (slot (V s1) d1 k = 0)) as [H0|H0]; [lia|].
    destruct (io_data _ _ _ (ev_ok _ _ _ _ _ Hev) k Hk H0). pose proof (datastart_pos _ _ Hbm). lia.
  - intros d2 o Hok2 Hdis Ho Hm. apply (other_bytes (sb s)); [done| |done|done]. intros k Hk Hs.
    rewrite Hag; [by apply (evolved_other (sb s) (V s) (i_d ip) (V s1) d1)|].
    destruct (io_data _ _ _ Hok2 k Hk Hs). pose proof (datastart_pos _ _ Hbm). lia.
Qed.

(** Blocks of a file that a write touches. *)
Definition chunks (off n : Z) : Z := (off mod BSIZE + n + BSIZE - 1) / BSIZE.

(** The chunks cover the request, and so does the fuel. *)
Lemma chunks_enough off n : 0 <= n -> 0 <= chunks off n /\ off mod BSIZE + n <= chunks off n * BSIZE.
Proof.
  intros Hn. pose proof (Z.mod_pos_bound off BSIZE ltac:(done)) as Hmb.
  unfold chunks. pose proof (Z.div_mod (off mod BSIZE + n + BSIZE - 1) BSIZE ltac:(done)).
  pose proof (Z.mod_pos_bound (off mod BSIZE + n + BSIZE - 1) BSIZE ltac:(done)). split; [apply Z.div_pos; [lia|done]|lia].
Qed.
Lemma copy_fuel_enough off n : 0 <= n -> off mod BSIZE + n <= Z.of_nat (copy_fuel n) * BSIZE.
Proof.
  intros Hn. pose proof (Z.mod_pos_bound off BSIZE ltac:(done)). unfold copy_fuel. pose proof (Z.div_mod n BSIZE ltac:(done)).
  pose proof (Z.mod_pos_bound n BSIZE ltac:(done)). pose proof (Z.div_pos n BSIZE ltac:(lia) ltac:(done)). unfold BSIZE in *. lia.
Qed.

(** The test for a request that wraps around or ends past the largest file. *)
Lemma write_too_big off n : 0 <= off < 2 ^ 32 -> 0 <= n < 2 ^ 32 ->
  (u32 (off + n) <? off) || (u32 (off + n) >? MAXFILE * BSIZE) = (MAXFILE * BSIZE <? off + n).
Proof.
  intros Ho Hn. assert (Hmx : MAXFILE * BSIZE < 2 ^ 32) by done. rewrite Z.gtb_ltb.
  destruct (Z.lt_ge_cases (off + n) (2 ^ 32)) as [Hlt|Hge].
  - rewrite u32_small by lia. by destruct (Z.ltb_spec (off + n) off); [lia|].
  - unfold u32. rewrite <- (Z.mod_unique (off + n) (2 ^ 32) 1 (off + n - 2 ^ 32)) by lia.
    destruct (Z.ltb_spec (off + n - 2 ^ 32) off); [|lia]. by destruct (Z.ltb_spec (MAXFILE * BSIZE) (off + n)); [|lia].
Qed.

(** The size is raised to the end of what was written. *)
Lemma grow_size_spec (s s1 : fs U) i ip d1 z :
  upd_inode s i ip d1 s1 -> d_size d1 = d_size (i_d ip) ->
  exists s2, (if z >? d_size (i_d (set_d d1 ip)) then puti i (set_d (set_size z (i_d (set_d d1 ip))) (set_d d1 ip)) else ret tt) s1 = Done tt s2 /\
    upd_inode s i ip (set_size (Z.max (d_size (i_d ip)) z) d1) s2 /\ lg s2 = lg s1.
Proof.
  intros (Q1 & Q2 & Q3) Hsz. cbn [i_d set_d]. rewrite Z.gtb_ltb. destruct (Z.ltb_spec (d_size d1) z) as [Hlt|Hge].
  - eexists. split; [reflexivity|]. split; [|done]. split; [done|]. split; [done|]. cbn [set_itable itable].
    by rewrite Q3, list_insert_insert_eq, Z.max_r by lia.
  - exists s1. split; [done|]. split; [|done]. split; [done|]. split; [done|]. rewrite Q3.
    rewrite Z.max_l, <- Hsz by lia. by destruct d1.
Qed.

Lemma writei_spec (s : fs U) (i : nat) (ip : inode) (user : bool) (src off n : Z) :
  itable s !! i = Some ip -> file_inv s ip -> side_ok (um s) ->
  0 <= src -> src + n < 2 ^ 64 -> 0 <= off < 2 ^ 32 -> 0 <= n < 2 ^ 32 ->
  log_room (lg s) (IBLOCK (i_inum ip) (sb s) :: bitmap_list (sb s)) (1 + chunks off n) ->
  if (d_size (i_d ip) <? off) || (MAXFILE * BSIZE <? off + n)
  then writei i user src off n s = Done (-1) s
  else exists r bs s' d', writei i user src off n s = Done r s' /\ write_post s i ip off r bs s' d' /\
    bytes_at (dbyte user (um s)) src (length bs) = Some bs /\
    0 <= r <= Z.of_nat (length bs) /\ Z.of_nat (length bs) <= n /\
    (r = n \/ short_write (sb s) (V s') user (um s) src n bs) /\ stops off n r /\
    logged_unless (lg s) (lg s') user (um s) src n r bs.
Proof.
  intros Hi Hinv Hw Hs Hsn Ho Hn Hroom. pose proof Hinv as [Hbm Hok Hf Hblk Hin Hib Hwf].
  unfold writei. rewrite (bind_Done _ _ _ _ _ (geti_eq s i ip Hi)). pose proof (fo_size _ _ Hf) as Hsz.
  assert (Hmx : MAXFILE * BSIZE < 2 ^ 32) by done. rewrite Z.gtb_ltb.
  destruct (Z.ltb_spec (d_size (i_d ip)) off) as [|Hle]; [done|]. cbn [orb].
  pose proof (write_too_big off n Ho Hn) as Hbig. pose proof (chunks_enough off n ltac:(lia)) as Hch.
  destruct (Z.ltb_spec (MAXFILE * BSIZE) (off + n)) as [Hgt|Hfit].
  { apply orb_true_iff in Hbig as [Hb|Hb]; rewrite Hb; [done|]. by destruct (_ <? off). }
  apply orb_false_iff in Hbig as [Hb1 Hb2]. rewrite Hb1, Hb2.
  destruct (writei_loop_spec i user (copy_fuel n) s ip src off 0 n (IBLOCK (i_inum ip) (sb s) :: bitmap_list (sb s)) (chunks off n))
    as (r & s1 & d1 & bs & B' & H1 & H2 & H3 & HB' & H4 & H5 & H6 & H7 & H8 & H9 & H10); try done; try lia.
  { right. rewrite Z.sub_0_r. apply copy_fuel_enough. lia. }
  { intros x Hx. by apply list_elem_of_further. } { right. log_room_from Hroom. }
  rewrite !Z.sub_0_r, Z.add_0_l in *. rewrite (bind_Done _ _ _ _ _ H1).
  pose proof (upd_inode_lookup _ _ _ _ _ Hi H2) as Hi1. rewrite (bind_Done _ _ _ _ _ (geti_eq s1 i _ Hi1)).
  set (d' := set_size (Z.max (d_size (i_d ip)) (off + r)) d1).
  assert (Hsz1 : d_size d1 = d_size (i_d ip)) by apply (ev_meta _ _ _ _ _ (wr_ev _ _ _ _ _ _ _ H3)).
  destruct (grow_size_spec s s1 i ip d1 (off + r) H2 Hsz1) as (s2 & Hput & Hu2 & Hlg). rewrite (bind_Done _ _ _ _ _ Hput).
  pose proof (upd_inode_lookup _ _ _ _ _ Hi Hu2) as Hi2.
  assert (HV2 : V s2 = V s1) by (unfold V; by rewrite Hlg). pose proof Hu2 as (Hsb2 & Hum2 & Htab2).
  destruct (iupdate_spec s2 i (set_d d' ip) B' 0 Hi2) as (l' & Hup & Hv' & _ & Hlw'); [|done|by rewrite Hlg|].
  { rewrite Hsb2. apply HB'. apply list_elem_of_here. }
  rewrite (bind_Done _ _ _ _ _ Hup). cbn [i_inum i_d set_d] in Hv'. rewrite Hsb2, HV2 in Hv'.
  exists r, bs, (set_lg l' s2), d'. split; [done|]. split; [|split; [done|split; [lia|split; [lia|split; [|split; [done|]]]]]].
  - apply (wrote_post s s1 (set_lg l' s2) i ip d1 off r bs); try done; lia.
  - destruct H8 as [?|[Hfull|?]]; [by left|right; left|by right; right].
    intros j Hj. rewrite (meta_allocated (sb s) (V s1)); [by apply Hfull| |done].
    intros x Hx. change (V (set_lg l' s2)) with (view (bio l')). rewrite Hv'. unfold store_inode. apply updb_ne. lia.
  - destruct H10 as [[Hl Hlr]|?]; [left|by right]. split; [|done]. etrans; [exact Hl|]. rewrite Hlg in Hlw'. exact Hlw'.
Qed.

(** C10: inside a transaction with room for the inode block, the bitmap, one
    indirect block and the data blocks of the range, [writei] refuses a write
    that starts past the end or would exceed the largest file, without any
    effect.  Otherwise it replaces bytes of the file by those of the source:
    all [n] and returns [n], unless the disk is full or the source unreadable;
    the file grows to the end of what it reports, the inode is stored on disk,
    the block map stays consistent, no byte of another file and no other
    inode changes, and everything is logged unless a user page was missing.  In a short write [bs] can be longer than the reported
    count: the part of the last block that could be read from user memory. *)
Theorem writei_writes_file (s : fs U) (i : nat) (ip : inode) (user : bool) (src off n : Z) :
  itable s !! i = Some ip -> file_inv s ip -> side_ok (um s) ->
  0 <= src -> src + n < 2 ^ 64 -> 0 <= off < 2 ^ 32 -> 0 <= n < 2 ^ 32 ->
  log_room (lg s) (IBLOCK (i_inum ip) (sb s) :: bitmap_list (sb s)) (1 + chunks off n) ->
  if (d_size (i_d ip) <? off) || (MAXFILE * BSIZE <? off + n)
  then writei i user src off n s = Done (-1) s
  else exists r bs s' d', writei i user src off n s = Done r s' /\ write_post s i ip off r bs s' d' /\
    bytes_at (dbyte user (um s)) src (length bs) = Some bs /\
    0 <= r <= Z.of_nat (length bs) /\ Z.of_nat (length bs) <= n /\
    (r = n \/ short_write (sb s) (V s') user (um s) src n bs) /\ stops off n r /\
    logged_unless (lg s) (lg s') user (um s) src n r bs.
Proof. apply writei_spec. Qed.
End WriteFile.

(** ** An empty file on the small disk *)

Definition demo_dinode : dinode := mkdinode T_FILE 0 0 1 0 (replicate 13 0).
Definition demo_inode : inode := mkinode ROOTDEV 2 1 true true demo_dinode.

Lemma demo_slot v k : slot v demo_dinode k = 0.
Proof.
  destruct (decide (k < 13)%nat) as [Hk|Hk].
  - rewrite slot_lt13 by done. cbn [demo_dinode d_addrs]. rewrite nth_lookup.
    by rewrite (lookup_replicate_2 13 0 k Hk).
  - rewrite slot_ge13 by lia. by rewrite slot_lt13 by lia.
Qed.

Lemma demo_blocks_ok : blocks_ok demo_view.
Proof.
  intros b. unfold demo_view. destruct (b =? 33).
  - split; [done|]. exact (bm_bytes _ _ demo_bitmap_ok 0 ltac:(done)).
  - split; [done|]. by apply Forall_replicate.
Qed.

Lemma demo_file_inv : file_inv (demo_fs (@nil Z) [demo_inode]) demo_inode.
Proof.
  split.
  - exact demo_bitmap_ok.
  - split; [done|done| | |]; cbn [demo_inode i_d].
    + intros k _. by rewrite demo_slot.
    + intros k k' _ _. by rewrite demo_slot.
    + by rewrite demo_slot.
  - split; [done|]. cbn [demo_inode i_d demo_dinode d_size]. unfold BSIZE. lia.
  - exact demo_blocks_ok.
  - done.
  - done.
  - split; try done. by apply Forall_replicate.
Qed.

Lemma writei_writes_file_witness :
  let s := demo_fs (U := list Z) [] [demo_inode] in
  exists r bs s' d', writei 0 false 100 0 5 s = Done r s' /\ write_post s 0 demo_inode 0 r bs s' d'.
Proof.
  intros s.
  assert (Hroom : log_room demo_log (IBLOCK 2 demo_sb :: bitmap_list demo_sb) 2) by (by apply empty_log_room; [..|repeat constructor]).
  pose proof (writei_writes_file s 0 demo_inode false 100 0 5 eq_refl demo_file_inv) as H.
  change ((d_size (i_d demo_inode) <? 0) || (MAXFILE * BSIZE <? 0 + 5)) with false in H.
  destruct H as (r & bs & s' & d' & H1 & H2 & _).
  - split; [apply List.Forall_nil|exact ramp_ok].
  - lia.
  - lia.
  - lia.
  - lia.
  - exact Hroom.
  - exists r, bs, s', d'. split; [exact H1|exact H2].
Defined.
