(* ===== verification/FsTrunc.v ===== *)
(** * Emptying and removing files: [itrunc] and [iput]

    [file_blocks] lists the blocks an inode holds.  [itrunc_spec]: truncation
    frees exactly those and stores an empty inode.  [iput_removes_unlinked]:
    dropping the last reference to a file without links does that and frees
    the inode itself; every other [iput] only counts. *)

From S2P Require Import Prelude CString Kalloc Vm UserMem Block Log Fs FsAlloc FsInode FsDinode FsFile FsWrite.

(** The blocks of an inode, the indirect block included. *)
Definition file_blocks (v : Z -> block) (d : dinode) : list Z := filter (fun b => b <> 0) (slot v d <$> seq 0 NSLOT).

Definition emptied (d : dinode) : dinode := mkdinode (d_type d) (d_major d) (d_minor d) (d_nlink d) 0 (replicate 13 0).

(** The inode with its first [k] addresses cleared. *)
Definition cleared (k : nat) (d : dinode) : dinode :=
  mkdinode (d_type d) (d_major d) (d_minor d) (d_nlink d) (d_size d) (replicate k 0 ++ drop k (d_addrs d)).

Lemma cleared_0 d : cleared 0 d = d.
Proof. by destruct d. Qed.

Lemma cleared_nth k d : length (d_addrs d) = 13%nat -> (k < 13)%nat -> nth k (d_addrs (cleared k d)) 0 = nth k (d_addrs d) 0.
Proof.
  intros Hl Hk. cbn [cleared d_addrs]. rewrite app_nth2 by (rewrite length_replicate; lia). rewrite length_replicate, Nat.sub_diag.
  rewrite !nth_lookup, lookup_drop. by rewrite Nat.add_0_r.
Qed.

Lemma cleared_S k d : length (d_addrs d) = 13%nat -> (k < 13)%nat -> set_addr k 0 (cleared k d) = cleared (S k) d.
Proof.
  intros Hl Hk. unfold set_addr, cleared. cbn [d_type d_major d_minor d_nlink d_size d_addrs]. f_equal.
  rewrite insert_app_r_alt by (rewrite length_replicate; lia). rewrite length_replicate, Nat.sub_diag.
  destruct (lookup_lt_is_Some_2 (d_addrs d) k) as [x Hx]; [lia|]. rewrite (drop_S _ _ _ Hx). cbn [insert list_insert].
  change (0 :: drop (S k) (d_addrs d)) with ([0] ++ drop (S k) (d_addrs d)).
  rewrite app_assoc. f_equal. by rewrite replicate_S_end.
Qed.

(** An address that is 0 already needs no clearing. *)
Lemma cleared_skip k d : length (d_addrs d) = 13%nat -> (k < 13)%nat -> nth k (d_addrs d) 0 = 0 -> cleared (S k) d = cleared k d.
Proof.
  intros Hl Hk H0. rewrite <- cleared_S by done. unfold set_addr. cbn [cleared d_type d_major d_minor d_nlink d_size d_addrs].
  unfold cleared. f_equal. apply list_insert_id. rewrite lookup_app_r by (rewrite length_replicate; lia).
  rewrite length_replicate, Nat.sub_diag, lookup_drop, Nat.add_0_r.
  destruct (lookup_lt_is_Some_2 (d_addrs d) k) as [x Hx]; [lia|]. rewrite Hx. f_equal. by rewrite (nth_lookup_Some _ _ _ _ Hx) in H0.
Qed.

Lemma cleared_all d : length (d_addrs d) = 13%nat -> set_size 0 (cleared 13 d) = emptied d.
Proof. intros Hl. unfold set_size, cleared, emptied. cbn [d_type d_major d_minor d_nlink d_size d_addrs]. rewrite drop_ge by lia. by rewrite app_nil_r. Qed.

(** ** Several frees *)

Lemma freed_nil sb0 v : bitmap_ok sb0 v -> freed sb0 v v [].
Proof. intros H. by split. Qed.

Lemma freed_trans sb0 v v1 v2 l1 l2 : freed sb0 v v1 l1 -> freed sb0 v1 v2 l2 -> freed sb0 v v2 (l1 ++ l2).
Proof.
  intros [A1 A2 A3 A4] [B1 B2 B3 B4]. split; [|intros x Hx; rewrite B2, A2 by done; done|done|auto].
  intros j Hj. rewrite B1, A1 by done. destruct (decide (j ∈ l1 ++ l2)) as [H|H]; rewrite elem_of_app in H; repeat case_decide; tauto || done.
Qed.

(** Blocks that may be freed: distinct data blocks in use. *)
Definition freeable (sb0 : superblock) (v : Z -> block) (l : list Z) : Prop :=
  NoDup l /\ Forall (fun b => datastart sb0 <= b < sb_size sb0 /\ allocated sb0 v b = true) l.

Lemma freeable_after sb0 v v' l1 l2 : bitmap_ok sb0 v -> freeable sb0 v (l1 ++ l2) -> freed sb0 v v' l1 -> freeable sb0 v' l2.
Proof.
  intros Hbm [Hnd Hall] Hf. apply NoDup_app in Hnd as (_ & Hdis & Hnd). apply Forall_app in Hall as [_ Hall]. split; [done|].
  rewrite Forall_forall in Hall |- *. intros b Hb. destruct (Hall b Hb) as [Hr Ha]. split; [done|].
  pose proof (datastart_pos _ _ Hbm). rewrite (fr_now _ _ _ _ Hf) by lia. rewrite decide_False; [done|]. intros Hin. by apply (Hdis b).
Qed.

Lemma freed_perm sb0 v v' l l' : l ≡ₚ l' -> freed sb0 v v' l -> freed sb0 v v' l'.
Proof. intros Hp [F1 F2 F3 F4]. split; [|done..]. intros j Hj. rewrite F1 by done. pose proof (elem_of_Permutation_proper j _ _ Hp) as Hiff. repeat case_decide; done || tauto. Qed.

Lemma freeable_perm sb0 v l l' : l ≡ₚ l' -> freeable sb0 v l -> freeable sb0 v l'.
Proof. intros Hp [H1 H2]. split; by rewrite <- Hp. Qed.

(** Distinct slots hold distinct blocks. *)
Lemma NoDup_nonzero (f : nat -> Z) : forall n a,
  (forall k k', (a <= k < a + n)%nat -> (a <= k' < a + n)%nat -> f k <> 0 -> f k = f k' -> k = k') -> NoDup (filter (fun b => b <> 0) (f <$> seq a n)).
Proof.
  induction n as [|n IH]; intros a Hinj; [constructor|]. cbn [seq fmap list_fmap]. rewrite filter_cons.
  assert (Hrest : NoDup (filter (fun b => b <> 0) (f <$> seq (S a) n))) by (apply IH; intros; apply Hinj; done || lia).
  case_decide as H0; [|done]. apply NoDup_cons. split; [|done]. rewrite list_elem_of_filter, list_elem_of_fmap.
  intros [_ (k & He & Hk)]. apply elem_of_seq in Hk. assert (a = k) by (apply Hinj; done || lia). lia.
Qed.

Lemma file_freeable sb0 v d : inode_ok sb0 v d -> freeable sb0 v (file_blocks v d).
Proof.
  intros Hok. split.
  - apply NoDup_nonzero. intros k k' Hk Hk'. apply (io_inj _ _ _ Hok); lia.
  - apply Forall_forall. intros b Hb. unfold file_blocks in Hb. apply list_elem_of_filter in Hb as [H0 Hb]. apply list_elem_of_fmap in Hb as (k & -> & Hk).
    apply elem_of_seq in Hk. apply (io_data _ _ _ Hok); [lia|done].
Qed.

Lemma filter_zeros (l : list Z) : Forall (fun b => b = 0) l -> filter (fun b => b <> 0) l = [].
Proof. intros H. induction H as [|b l Hb _ IH]; [done|]. rewrite filter_cons, decide_False by tauto. done. Qed.

(** In the order in which [itrunc] frees them. *)
Lemma file_blocks_split v d :
  file_blocks v d ≡ₚ filter (fun b => b <> 0) ((fun j => nth j (d_addrs d) 0) <$> seq 0 12) ++
    (let ind := nth 12 (d_addrs d) 0 in if ind =? 0 then [] else filter (fun b => b <> 0) ((fun j => rd32 (v ind) j) <$> seq 0 256) ++ [ind]).
Proof.
  unfold file_blocks. change (seq 0 NSLOT) with (seq 0 12 ++ [12%nat] ++ seq 13 256). rewrite !fmap_app, !filter_app.
  apply Permutation_app.
  - reflexivity.
  - cbv zeta. replace (seq 13 256) with (Nat.add 13 <$> seq 0 256) by apply fmap_add_seq. rewrite <- list_fmap_compose.
    change (slot v d <$> [12%nat]) with [slot v d 12]. rewrite (slot_lt13 v d 12) by lia.
    set (ind := nth 12 (d_addrs d) 0). rewrite filter_cons, filter_nil. destruct (Z.eqb_spec ind 0) as [H0|H0].
    + rewrite decide_False by tauto. apply reflexive_eq. cbn [app]. apply filter_zeros, Forall_fmap, Forall_forall. intros k _.
      unfold compose. rewrite slot_ge13, slot_lt13 by lia. fold ind. by rewrite H0.
    + rewrite decide_True by done. rewrite Permutation_app_comm. apply reflexive_eq. do 2 f_equal. apply list_fmap_ext. intros i k _.
      unfold compose. rewrite slot_ge13, slot_lt13 by lia. fold ind. destruct (Z.eqb_spec ind 0); [done|]. f_equal. lia.
Qed.

Section Trunc.
Context {U : Type} `{!UserMem U}.

(** The loop over the indirect block. *)
Lemma free_loop : forall l (s : fs U) B,
  bitmap_ok (sb s) (V s) -> bitmap_list (sb s) ⊆ B -> log_room (lg s) B 0 -> freeable (sb s) (V s) (filter (fun b => b <> 0) l) ->
  exists lg', for_each (fun b => if b =? 0 then ret tt else bfree b) l s = Done tt (set_lg lg' s) /\
    freed (sb s) (V s) (view (bio lg')) (filter (fun b => b <> 0) l) /\ log_room lg' B 0 /\ lwrites (lg s) lg'.
Proof.
  induction l as [|b l IH]; intros s B Hbm HB Hr Hf.
  { exists (lg s). split; [by destruct s|]. split; [by apply freed_nil|]. split; [done|apply rtc_refl]. }
  cbn [for_each]. rewrite filter_cons in Hf |- *. destruct (Z.eqb_spec b 0) as [->|Hb].
  - rewrite decide_False in Hf |- * by tauto. rewrite bind_ret. by apply IH.
  - rewrite decide_True in Hf |- * by done. pose proof Hf as [_ Hall]. apply Forall_cons in Hall as [[Hbr Hba] _].
    destruct (bfree_spec s b B 0 Hbm ltac:(lia) HB Hr Hbr Hba) as (l1 & H1 & F1 & R1 & W1). rewrite (bind_Done _ _ _ _ _ H1).
    destruct (IH (set_lg l1 s) B) as (l2 & H2 & F2 & R2 & W2); [apply F1|done|done| |].
    { change (b :: filter (fun b => b <> 0) l) with ([b] ++ filter (fun b => b <> 0) l) in Hf. by eapply freeable_after. }
    exists l2. split; [exact H2|]. split; [exact (freed_trans _ _ _ _ _ _ F1 F2)|]. split; [done|]. by etrans.
Qed.

Lemma for_each_fmap {S A B} (g : A -> B) (f : B -> M S unit) l s : for_each (fun a => f (g a)) l s = for_each f (g <$> l) s.
Proof. revert s. induction l as [|a l IH]; intros s; [done|]. cbn [for_each fmap list_fmap]. unfold bind. destruct (f (g a) s); [apply IH|done]. Qed.

(** The loop over the direct addresses, from [k] on. *)
Lemma direct_loop i ip d : length (d_addrs d) = 13%nat -> forall n k (s : fs U) B, (k + n <= 13)%nat ->
  itable s !! i = Some (set_d (cleared k d) ip) ->
  bitmap_ok (sb s) (V s) -> bitmap_list (sb s) ⊆ B -> log_room (lg s) B 0 ->
  freeable (sb s) (V s) (filter (fun b => b <> 0) ((fun j => nth j (d_addrs d) 0) <$> seq k n)) ->
  exists s', for_each (fun k =>
      let! ip := geti i in
      let addr := nth k (d_addrs (i_d ip)) 0 in
      if addr =? 0 then ret tt else bfree addr ;; puti i (set_d (set_addr k 0 (i_d ip)) ip)) (seq k n) s = Done tt s' /\
    upd_inode s i ip (cleared (k + n) d) s' /\
    freed (sb s) (V s) (V s') (filter (fun b => b <> 0) ((fun j => nth j (d_addrs d) 0) <$> seq k n)) /\
    log_room (lg s') B 0 /\ lwrites (lg s) (lg s').
Proof.
  intros Hl. induction n as [|n IH]; intros k s B Hk Hi Hbm HB Hr Hf.
  { exists s. split; [done|]. split; [|split; [by apply freed_nil|split; [done|apply rtc_refl]]].
    rewrite Nat.add_0_r. split; [done|]. split; [done|]. symmetry. by apply list_insert_id. }
  cbn [seq for_each fmap list_fmap]. cbn [seq fmap list_fmap] in Hf. set (a := nth k (d_addrs d) 0) in *.
  rewrite filter_cons in Hf |- *. rewrite bind_assoc, (bind_Done _ _ _ _ _ (geti_eq s i _ Hi)). cbn [i_d set_d]. cbv zeta.
  rewrite cleared_nth by (done || lia). fold a. replace (k + S n)%nat with (S k + n)%nat by lia. destruct (Z.eqb_spec a 0) as [Ha|Ha].
  - rewrite decide_False in Hf |- * by tauto. rewrite bind_ret. apply IH; try done; [lia|]. by rewrite cleared_skip by (done || lia).
  - rewrite decide_True in Hf |- * by done. pose proof Hf as [_ Hall]. apply Forall_cons in Hall as [[Hbr Hba] _].
    destruct (bfree_spec s a B 0 Hbm ltac:(lia) HB Hr Hbr Hba) as (l1 & H1 & F1 & R1 & W1). rewrite bind_assoc, (bind_Done _ _ _ _ _ H1).
    rewrite (cleared_S k d Hl) by lia. change (set_d (cleared (S k) d) (set_d (cleared k d) ip)) with (set_d (cleared (S k) d) ip).
    unfold puti at 1. rewrite bind_modify. set (s1 := set_itable _ (set_lg l1 s)).
    assert (Hi1 : itable s1 !! i = Some (set_d (cleared (S k) d) ip)) by (apply list_lookup_insert_eq; by eapply lookup_lt_Some).
    destruct (IH (S k) s1 B ltac:(lia) Hi1) as (s' & H2 & (U1 & U2 & U3) & F2 & R2 & W2); [apply F1|done|done| |].
    { change (a :: filter (fun b => b <> 0) ?l) with ([a] ++ filter (fun b => b <> 0) l) in Hf. by eapply freeable_after. }
    exists s'. split; [exact H2|]. split; [|split; [exact (freed_trans _ _ _ _ _ _ F1 F2)|split; [done|by etrans]]].
    split; [done|]. split; [done|]. rewrite U3. cbn [s1 itable set_itable]. by rewrite list_insert_insert_eq.
Qed.

(** What the removal of all blocks of a file leaves. *)
Record trunc_post (s : fs U) (ip : inode) (d' : dinode) (s' : fs U) : Prop := {
  tp_free b : 0 <= b < sb_size (sb s) ->
    allocated (sb s) (V s') b = if decide (b ∈ file_blocks (V s) (i_d ip)) then false else allocated (sb s) (V s) b;
  tp_bitmap : bitmap_ok (sb s) (V s');
  tp_blocks : blocks_ok (V s');
  tp_disk : disk_inode (sb s) (V s') (i_inum ip) = d';
  tp_inodes j : 0 <= j -> j <> i_inum ip -> 0 < IBLOCK j (sb s) < sb_bmapstart (sb s) ->
    disk_inode (sb s) (V s') j = disk_inode (sb s) (V s) j;
  tp_data x : datastart (sb s) <= x -> V s' x = V s x;
  tp_logged : lwrites (lg s) (lg s')
}.

Lemma emptied_wf d : dinode_wf d -> dinode_wf (emptied d).
Proof. intros [H1 H2 H3 H4 H5 H6 H7]. split; try done. by apply Forall_replicate. Qed.

Lemma itrunc_spec (s : fs U) i ip B : itable s !! i = Some ip -> file_inv s ip ->
  IBLOCK (i_inum ip) (sb s) ∈ B -> bitmap_list (sb s) ⊆ B -> log_room (lg s) B 0 ->
  exists s', itrunc i s = Done tt s' /\ upd_inode s i ip (emptied (i_d ip)) s' /\ trunc_post s ip (emptied (i_d ip)) s' /\ log_room (lg s') B 0.
Proof.
  intros Hi [Hbm Hok Hf Hblk Hin Hib Hwf] HiB HB Hr. pose proof (io_len _ _ _ Hok) as Hlen. set (d := i_d ip) in *.
  pose proof (file_freeable _ _ _ Hok) as Hfree. pose proof (freeable_perm _ _ _ _ (file_blocks_split (V s) d) Hfree) as Hfs.
  set (D := filter _ (_ <$> seq 0 12)) in Hfs. pose proof Hfs as [HndD HallD]. apply NoDup_app in HndD as (HndD & _ & _). apply Forall_app in HallD as [HallD _].
  unfold itrunc. destruct (direct_loop i ip d Hlen 12 0 s B) as (s1 & H1 & Hu1 & F1 & R1 & W1); [lia| |done..|done|by split|].
  { rewrite cleared_0. unfold d. by rewrite set_d_same. }
  rewrite (bind_Done _ _ _ _ _ H1). clear H1. fold D in F1. pose proof (freeable_after _ _ _ _ _ Hbm Hfs F1) as Hfs1. cbv zeta in Hfs1.
  pose proof (upd_inode_lookup _ _ _ _ _ Hi Hu1) as Hi1. rewrite (bind_Done _ _ _ _ _ (geti_eq s1 i _ Hi1)). cbn [i_d set_d Nat.add]. cbv zeta.
  rewrite cleared_nth by (done || lia). set (ind := nth 12 (d_addrs d) 0) in *. pose proof Hu1 as (Hsb1 & Hum1 & Htab1). cbn [Nat.add] in Htab1.
  assert (Hind : exists s2, (if ind =? 0 then ret tt else
       let! a := bread ind in
       for_each (fun j => if rd32 a j =? 0 then ret tt else bfree (rd32 a j)) (seq 0 (Z.to_nat NINDIRECT)) ;;
       bfree ind ;; puti i (set_d (set_addr 12 0 (cleared 12 d)) (set_d (cleared 12 d) ip))) s1 = Done tt s2 /\
     upd_inode s i ip (cleared 13 d) s2 /\ freed (sb s) (V s) (V s2) (file_blocks (V s) d) /\ log_room (lg s2) B 0 /\ lwrites (lg s) (lg s2)).
  { pose proof (file_blocks_split (V s) d) as Hsplit. cbv zeta in Hsplit. fold D ind in Hsplit.
    destruct (Z.eqb_spec ind 0) as [H0|H0].
    - exists s1. split; [done|]. split; [by rewrite cleared_skip by (done || lia)|]. split; [|done]. rewrite app_nil_r in Hsplit. by apply (freed_perm _ _ _ D).
    - assert (Hsl : slot (V s) d 12 = ind) by (by rewrite slot_lt13 by lia).
      destruct (io_data _ _ _ Hok 12%nat ltac:(unfold NSLOT; lia)) as [Hir _]; [by rewrite Hsl|]. rewrite Hsl in Hir.
      assert (Hva : V s1 ind = V s ind) by (apply (fr_other _ _ _ _ F1); lia).
      rewrite (bind_Done _ _ _ _ _ (bread_eq _ s1)), Hva. change (Z.to_nat NINDIRECT) with 256%nat.
      pose proof Hfs1 as [Hnd1 Hall1]. apply NoDup_app in Hnd1 as (HndI & _ & _). apply Forall_app in Hall1 as [HallI _].
      destruct (free_loop ((fun j => rd32 (V s ind) j) <$> seq 0 256) s1 B) as (l2 & H2 & F2 & R2 & W2); rewrite ?Hsb1; [apply F1|done|done|by split|].
      rewrite <- (for_each_fmap (fun j => rd32 (V s ind) j)) in H2. rewrite (bind_Done _ _ _ _ _ H2). rewrite Hsb1 in F2.
      pose proof (freeable_after _ _ _ _ _ (fr_bitmap _ _ _ _ F1) Hfs1 F2) as [_ Hall2]. apply Forall_singleton in Hall2 as [_ Hia].
      destruct (bfree_spec (set_lg l2 s1) ind B 0) as (l3 & H3 & F3 & R3 & W3); cbn [sb set_lg lg]; rewrite ?Hsb1; [apply F2|lia|done|done|done|done|].
      rewrite (bind_Done _ _ _ _ _ H3). cbn [sb set_lg] in F3. rewrite Hsb1 in F3. rewrite cleared_S by (done || lia).
      eexists. split; [reflexivity|]. split; [|split; [|split; [done|etrans; [exact W1|etrans; [exact W2|exact W3]]]]].
      + split; [done|]. split; [done|]. cbn [itable set_itable set_lg]. rewrite Htab1, list_insert_insert_eq. done.
      + eapply freed_perm; [symmetry; exact Hsplit|]. eapply freed_trans; [exact F1|]. eapply freed_trans; [exact F2|exact F3]. }
  destruct Hind as (s2 & H2 & Hu2 & F2 & R2 & W2). rewrite (bind_Done _ _ _ _ _ H2). clear H2.
  pose proof (upd_inode_lookup _ _ _ _ _ Hi Hu2) as Hi2. rewrite (bind_Done _ _ _ _ _ (geti_eq s2 i _ Hi2)). cbn [i_d set_d].
  rewrite cleared_all by done. unfold puti at 1. rewrite bind_modify. set (s3 := set_itable _ s2). pose proof Hu2 as (Hsb2 & Hum2 & Htab2).
  assert (Hi3 : itable s3 !! i = Some (set_d (emptied d) ip)) by (apply list_lookup_insert_eq; by eapply lookup_lt_Some).
  destruct (iupdate_spec s3 i (set_d (emptied d) ip) B 0 Hi3) as (l' & Hup & Hv' & R' & W'); [by cbn [i_inum set_d s3 sb set_itable]; rewrite Hsb2|lia|done|].
  cbn [i_inum i_d set_d s3 sb set_itable] in Hv'. rewrite Hsb2 in Hv'. change (V (set_itable (<[i := set_d (emptied d) (set_d (cleared 13 d) ip)]> (itable s2)) s2)) with (V s2) in Hv'.
  exists (set_lg l' s3). split; [exact Hup|]. split.
  { split; [done|]. split; [done|]. cbn [itable set_lg s3 set_itable]. rewrite Htab2, list_insert_insert_eq. done. }
  split; [|done]. pose proof (datastart_pos _ _ Hbm) as Hds.
  pose proof (fr_blocks _ _ _ _ F2 Hblk) as Hblk2. assert (HV : V (set_lg l' s3) = store_inode (sb s) (V s2) (i_inum ip) (emptied d)) by exact Hv'.
  assert (Hag : forall x, sb_bmapstart (sb s) <= x -> V (set_lg l' s3) x = V s2 x) by (intros x Hx; rewrite HV; unfold store_inode; apply updb_ne; lia).
  pose proof (emptied_wf d Hwf) as Hwf'. assert (Hbs : bsize (V s2 (IBLOCK (i_inum ip) (sb s)))) by apply Hblk2.
  split.
  - intros b Hb. rewrite (meta_allocated (sb s) (V s2)) by done. by apply F2.
  - apply (meta_bitmap (sb s) (V s2)); [done|apply F2].
  - rewrite HV. by apply store_inode_blocks.
  - rewrite HV. by apply store_inode_same.
  - intros j Hj Hne Hjb. rewrite HV, store_inode_other by done. unfold disk_inode. do 3 f_equal. apply (fr_other _ _ _ _ F2). lia.
  - intros x Hx. rewrite Hag by lia. apply (fr_other _ _ _ _ F2). lia.
  - by etrans.
Qed.

(** A later store of the inode. *)
Lemma trunc_store (s s1 s2 : fs U) ip d1 d2 : bitmap_ok (sb s) (V s) -> 0 <= i_inum ip -> IBLOCK (i_inum ip) (sb s) < sb_bmapstart (sb s) -> dinode_wf d2 ->
  trunc_post s ip d1 s1 -> V s2 = store_inode (sb s) (V s1) (i_inum ip) d2 -> lwrites (lg s1) (lg s2) -> trunc_post s ip d2 s2.
Proof.
  intros Hbm Hin Hib Hwf [T1 T2 T3 T4 T5 T6 T7] HV Hlw. pose proof (datastart_pos _ _ Hbm) as Hds.
  assert (Hag : forall x, sb_bmapstart (sb s) <= x -> V s2 x = V s1 x) by (intros x Hx; rewrite HV; unfold store_inode; apply updb_ne; lia).
  assert (Hbs : bsize (V s1 (IBLOCK (i_inum ip) (sb s)))) by apply T3. pose proof (dw_len _ Hwf) as Hlen. split.
  - intros b Hb. rewrite (meta_allocated (sb s) (V s1)) by done. by apply T1.
  - by apply (meta_bitmap (sb s) (V s1)).
  - rewrite HV. by apply store_inode_blocks.
  - rewrite HV. by apply store_inode_same.
  - intros j Hj Hne Hjb. rewrite HV, store_inode_other by done. by apply T5.
  - intros x Hx. rewrite Hag by lia. by apply T6.
  - by etrans.
Qed.

(** Other files keep their bytes. *)
Lemma trunc_others (s s' : fs U) ip d' d2 o : bitmap_ok (sb s) (V s) -> trunc_post s ip d' s' -> inode_ok (sb s) (V s) d2 ->
  0 <= o < MAXFILE * BSIZE -> iblk (V s) d2 (o / BSIZE) <> 0 -> file_byte (V s') d2 o = file_byte (V s) d2 o.
Proof.
  intros Hbm Ht Hok2 Ho Hm. apply (other_bytes (sb s)); [done| |done|done]. intros k Hk Hs.
  apply (tp_data _ _ _ _ Ht). by destruct (io_data _ _ _ Hok2 k Hk Hs) as [[? _] _].
Qed.

(** The inode as the last [iput] of an unlinked file leaves it. *)
Definition removed (ip : inode) : inode := mkinode (i_dev ip) (i_inum ip) 0 false false (set_type 0 (emptied (i_d ip))).

(** C9: [iput].  Dropping the last reference to a valid inode without links
    removes the file: inside a transaction with room for the inode block and
    the bitmap it never panics, exactly the blocks of the file - direct,
    indirect and the indirect block itself - become free, the inode stored on
    disk is free (type 0, size 0, no addresses), no other inode on disk and no
    byte of another file changes, every change is logged, and the table entry
    is left unreferenced, unlocked and invalid.  In all other cases [iput] only
    decrements the reference count. *)
Theorem iput_removes_unlinked (s : fs U) (i : nat) (ip : inode) :
  itable s !! i = Some ip -> ilocked ip = false -> file_inv s ip ->
  log_room (lg s) (IBLOCK (i_inum ip) (sb s) :: bitmap_list (sb s)) 0 ->
  if (i_ref ip =? 1) && i_valid ip && (d_nlink (i_d ip) =? 0)
  then exists s', iput i s = Done tt s' /\ sb s' = sb s /\ um s' = um s /\ itable s' = <[i := removed ip]> (itable s) /\
    disk_inode (sb s) (V s') (i_inum ip) = set_type 0 (emptied (i_d ip)) /\
    (forall b, 0 <= b < sb_size (sb s) ->
       allocated (sb s) (V s') b = if decide (b ∈ file_blocks (V s) (i_d ip)) then false else allocated (sb s) (V s) b) /\
    bitmap_ok (sb s) (V s') /\ blocks_ok (V s') /\
    (forall j, 0 <= j -> j <> i_inum ip -> 0 < IBLOCK j (sb s) < sb_bmapstart (sb s) ->
       disk_inode (sb s) (V s') j = disk_inode (sb s) (V s) j) /\
    (forall d2 o, inode_ok (sb s) (V s) d2 -> 0 <= o < MAXFILE * BSIZE -> iblk (V s) d2 (o / BSIZE) <> 0 ->
       file_byte (V s') d2 o = file_byte (V s) d2 o) /\
    lwrites (lg s) (lg s')
  else iput i s = Done tt (set_itable (<[i := set_ref (i_ref ip - 1) ip]> (itable s)) s).
Proof.
  intros Hi Hlk Hinv Hr. pose proof Hinv as [Hbm _ _ _ Hin Hib Hwf]. pose proof (lookup_lt_Some _ _ _ Hi) as Hlt.
  unfold iput. rewrite (bind_Done _ _ _ _ _ (geti_eq s i ip Hi)), Hlk.
  destruct ((i_ref ip =? 1) && i_valid ip && (d_nlink (i_d ip) =? 0)) eqn:Hc.
  2: { rewrite bind_ret, (bind_Done _ _ _ _ _ (geti_eq s i ip Hi)). reflexivity. }
  apply andb_true_iff in Hc as [[Href _]%andb_true_iff _]. apply Z.eqb_eq in Href.
  set (B := IBLOCK (i_inum ip) (sb s) :: bitmap_list (sb s)) in *. set (lip := set_locked true ip).
  set (s0 := set_itable (<[i := lip]> (itable s)) s).
  assert (Hi0 : itable s0 !! i = Some lip) by (by apply list_lookup_insert_eq).
  assert (Hinv0 : file_inv s0 lip) by (destruct Hinv as [I1 I2 I3 I4 I5 I6 I7]; by split).
  destruct (itrunc_spec s0 i lip B Hi0 Hinv0) as (s1 & H1 & Hu1 & Ht1 & R1); [by left|intros x Hx; by right|done|].
  pose proof (upd_inode_lookup _ _ _ _ _ Hi0 Hu1) as Hi1. destruct Hu1 as (U1 & U2 & U3). set (d2 := set_type 0 (emptied (i_d ip))).
  set (s2 := set_itable (<[i := set_d d2 lip]> (itable s1)) s1).
  assert (Hi2 : itable s2 !! i = Some (set_d d2 lip)) by (apply list_lookup_insert_eq; by eapply lookup_lt_Some).
  destruct (iupdate_spec s2 i (set_d d2 lip) B 0 Hi2) as (l' & Hup & Hv' & _ & W'); [cbn [i_inum set_d lip set_locked s2 sb set_itable]; rewrite U1; by left|lia|done|].
  set (s3 := set_lg l' s2) in *. assert (Hi3 : itable s3 !! i = Some (set_d d2 lip)) by exact Hi2.
  assert (Hwf2 : dinode_wf d2) by (destruct (emptied_wf _ Hwf) as [W1 W2 W3 W4 W5 W6 W7]; by split).
  assert (HV3 : V s3 = store_inode (sb s) (V s1) (i_inum ip) d2) by (unfold s3; cbn [i_inum i_d set_d lip set_locked s2 sb set_itable] in Hv'; rewrite U1 in Hv'; exact Hv').
  pose proof (trunc_store s0 s1 s3 lip _ d2 Hbm Hin Hib Hwf2 Ht1 HV3 W') as Ht.
  set (fip := set_locked false (set_valid false (set_d d2 lip))). set (s4 := set_itable (<[i := fip]> (itable s3)) s3).
  assert (Hi4 : itable s4 !! i = Some fip) by (apply list_lookup_insert_eq; by eapply lookup_lt_Some).
  exists (set_itable (<[i := removed ip]> (itable s4)) s4). split.
  - rewrite bind_assoc. change (puti i (set_locked true ip) s) with (Done tt s0). unfold puti at 1. rewrite bind_modify. fold lip s0.
    rewrite bind_assoc, (bind_Done _ _ _ _ _ H1), bind_assoc, (bind_Done _ _ _ _ _ (geti_eq s1 i _ Hi1)). cbn [i_d set_d].
    rewrite bind_assoc. unfold puti at 1. rewrite bind_modify. change (set_d (set_type 0 (emptied (i_d lip))) (set_d (emptied (i_d lip)) lip)) with (set_d d2 lip). fold s2.
    rewrite bind_assoc, (bind_Done _ _ _ _ _ Hup), bind_assoc, (bind_Done _ _ _ _ _ (geti_eq s3 i _ Hi3)). unfold puti at 1. rewrite bind_modify. fold fip s4.
    rewrite (bind_Done _ _ _ _ _ (geti_eq s4 i _ Hi4)). unfold puti. change (i_ref fip) with (i_ref ip). rewrite Href. reflexivity.
  - destruct Ht as [T1 T2 T3 T4 T5 T6 T7]. split; [exact U1|]. split; [exact U2|]. split.
    { cbn [itable set_itable s4 s3 set_lg s2]. rewrite U3. cbn [s0 itable set_itable]. by rewrite !list_insert_insert_eq. }
    split; [exact T4|]. split; [exact T1|]. split; [exact T2|]. split; [exact T3|]. split; [exact T5|]. split; [|exact T7].
    intros d3 o Hok3 Ho Hm. apply (trunc_others s0 s3 lip d2); [done|by split|done|done|done].
Qed.
End Trunc.

(** ** A five-byte file in block 34 whose last name is gone *)

Definition gone_dinode : dinode := mkdinode T_FILE 0 0 0 5 (34 :: replicate 12 0).
Definition gone_inode : inode := mkinode ROOTDEV 2 1 false true gone_dinode.

Lemma gone_slot v k : slot v gone_dinode k = if (k =? 0)%nat then 34 else 0.
Proof.
  destruct (decide (k < 13)%nat) as [Hk|Hk].
  - rewrite slot_lt13 by done. do 13 (destruct k as [|k]; [done|]). lia.
  - rewrite slot_ge13, slot_lt13 by lia. destruct k; [lia|done].
Qed.

Lemma gone_file_inv : file_inv (demo_fs1 (@nil Z) [gone_inode]) gone_inode.
Proof.
  assert (Hblk : blocks_ok demo_view1).
  { intros b. unfold demo_view1, updb. destruct (b =? 33); [|apply demo_blocks_ok].
    split; [apply bit_set_size; done|apply bit_set_bytes; exact (bm_bytes _ _ demo_bitmap_ok 0 ltac:(done))]. }
  split; [exact demo_bitmap_ok1| | |exact Hblk|done|done|].
  - split; [done|done| | |]; cbn [gone_inode i_d].
    + intros k _. rewrite gone_slot. destruct (k =? 0)%nat; [|done]. intros _. split; [done|]. vm_compute. reflexivity.
    + intros k k' _ _. rewrite !gone_slot. destruct (Nat.eqb_spec k 0), (Nat.eqb_spec k' 0); try done. lia.
    + by rewrite gone_slot.
  - split; [done|]. cbn [gone_inode i_d gone_dinode d_size]. intros bn H0 H1. assert (bn = 0) as -> by (unfold BSIZE in H1; lia).
    split; [done|]. apply Hblk.
  - split; try done. apply Forall_cons. split; [done|]. by apply Forall_replicate.
Qed.

Lemma iput_removes_unlinked_witness :
  let s := demo_fs1 (U := list Z) [] [gone_inode] in
  exists s', iput 0 s = Done tt s' /\ itable s' = [removed gone_inode] /\ allocated demo_sb (V s) 34 = true /\ allocated demo_sb (V s') 34 = false.
Proof.
  intros s. assert (Hroom : log_room demo_log1 (IBLOCK 2 demo_sb :: bitmap_list demo_sb) 0) by (by apply empty_log_room; [..|repeat constructor]).
  pose proof (iput_removes_unlinked s 0 gone_inode eq_refl eq_refl gone_file_inv Hroom) as H.
  change ((i_ref gone_inode =? 1) && i_valid gone_inode && (d_nlink (i_d gone_inode) =? 0)) with true in H.
  destruct H as (s' & H1 & _ & _ & H2 & _ & H3 & _). exists s'. split; [exact H1|]. split; [exact H2|].
  split; [vm_compute; reflexivity|]. specialize (H3 34 ltac:(cbn; lia)). rewrite decide_True in H3; [exact H3|].
  apply list_elem_of_filter. split; [lia|]. apply list_elem_of_fmap. exists 0%nat. split; [reflexivity|]. apply elem_of_seq. unfold NSLOT. lia.
Defined.
