(* ===== verification/FsDir.v ===== *)
(** * Directories: [dirlookup] and [dirlink]

    A directory is a file whose bytes are 16-byte entries.  [dir_entries] is the
    list it holds; an entry is in use when its inode number is not 0, and names
    are compared up to a NUL and at most [DIRSIZ] characters.

    Theorems: [dirlookup] finds the first entry with the name; [dirlink] adds an
    entry in the first free place, that later lookups find, leaving the other names as they were,
    and refuses a name that is there. *)

From S2P Require Import Prelude CString Kalloc Vm VmOps UserMem Block Log Fs FsAlloc FsInode FsDinode FsFile FsWrite.

(** ** Names *)

(** The characters before a NUL, at most [n]. *)
Fixpoint cut (n : nat) (l : list Z) : list Z :=
  match n, l with
  | S n', c :: l' => if c =? 0 then [] else c :: cut n' l'
  | _, _ => []
  end.
Definition same_name (a b : list Z) : Prop := cut DIRSIZ a = cut DIRSIZ b.

Lemma strncmp_arr_zero n : forall s t, strncmp_arr n s t = 0 <-> cut n s = cut n t.
Proof.
  induction n as [|n IH]; intros s t; [done|]. cbn [strncmp_arr cut].
  destruct s as [|a s], t as [|b t]; cbn [hd tl].
  - done.
  - destruct (Z.eqb_spec b 0) as [->|]; cbn; [done|]. split; [lia|done].
  - destruct (Z.eqb_spec a 0) as [->|]; cbn; [done|]. destruct (Z.eqb_spec a 0); [done|]. split; [lia|done].
  - destruct (Z.eqb_spec a 0) as [->|Ha]; cbn [negb andb].
    + destruct (Z.eqb_spec b 0) as [->|]; [done|]. split; [lia|done].
    + destruct (Z.eqb_spec a b) as [<-|Hab].
      * rewrite IH. destruct (Z.eqb_spec a 0); [done|]. split; [congruence|]. by injection 1.
      * split; [lia|]. destruct (Z.eqb_spec b 0); [done|]. by injection 1.
Qed.

Lemma namecmp_zero s t : namecmp s t = 0 <-> same_name s t.
Proof. apply strncmp_arr_zero. Qed.

Lemma cut_strncpy n : forall s, cut n (strncpy_arr n s) = cut n s.
Proof.
  induction n as [|n IH]; intros s; [done|]. cbn [strncpy_arr]. destruct s as [|c s]; cbn [hd tl]; [done|].
  cbn [cut]. destruct (Z.eqb_spec c 0) as [->|]; [done|]. rewrite IH. by destruct (Z.eqb_spec c 0).
Qed.

Lemma length_strncpy_arr n : forall s, length (strncpy_arr n s) = n.
Proof.
  induction n as [|n IH]; intros s; [done|]. cbn [strncpy_arr]. destruct (hd 0 s =? 0); [by rewrite length_replicate|].
  cbn [length]. by rewrite IH.
Qed.

Lemma strncpy_arr_range n : forall s, Forall (fun b => 0 <= b < 256) s -> Forall (fun b => 0 <= b < 256) (strncpy_arr n s).
Proof.
  induction n as [|n IH]; intros s Hs; [done|]. cbn [strncpy_arr].
  destruct (hd 0 s =? 0); [apply Forall_replicate; lia|]. apply Forall_cons.
  destruct s as [|c s]; cbn [hd tl]; [split; [lia|by apply IH]|]. apply Forall_cons in Hs as [? ?]. split; [done|by apply IH].
Qed.

(** ** Entries *)

Definition dir_entry (v : Z -> block) (d : dinode) (k : nat) : dirent :=
  parse_dirent (file_bytes v d (DIRENT * Z.of_nat k) 16).
Definition dir_count (d : dinode) : nat := Z.to_nat (d_size d / DIRENT).
Definition dir_entries (v : Z -> block) (d : dinode) : list dirent := dir_entry v d <$> seq 0 (dir_count d).

Definition has_name (name : list Z) (de : dirent) : Prop := de_inum de <> 0 /\ same_name name (de_name de).
#[export] Instance same_name_dec a b : Decision (same_name a b).
Proof. unfold same_name. apply _. Defined.
#[export] Instance has_name_dec name de : Decision (has_name name de).
Proof. unfold has_name. apply _. Defined.

Lemma length_dir_entries v d : length (dir_entries v d) = dir_count d.
Proof. unfold dir_entries. by rewrite length_fmap, length_seq. Qed.

Lemma dir_entries_drop v d k : (k < dir_count d)%nat ->
  drop k (dir_entries v d) = dir_entry v d k :: drop (S k) (dir_entries v d).
Proof.
  intros Hk. apply drop_S. unfold dir_entries. by rewrite list_lookup_fmap, lookup_seq_lt.
Qed.

Section Dir.
Context {U : Type} `{!UserMem U}.
Context (de_addr : Z) (Hde : 0 <= de_addr) (Hde' : de_addr + 16 < 2 ^ 64).

(** Only the entry buffer changes. *)
Definition scratch (s s' : fs U) : Prop :=
  exists m', s' = set_um ((um s).1, m') s /\ mem_ok m' /\
    forall a, 0 <= a -> ~ (de_addr <= a < de_addr + 16) -> m' a = (um s).2 a.

Lemma scratch_refl s : side_ok (um s) -> scratch s s.
Proof. intros [_ Hm]. exists (um s).2. by destruct s as [? ? ? [? ?] ?]. Qed.
Lemma scratch_trans s s1 s2 : scratch s s1 -> scratch s1 s2 -> scratch s s2.
Proof.
  intros (m1 & -> & _ & H1) (m2 & -> & H2 & H3). exists m2. split; [done|]. split; [done|].
  intros a Ha Hn. cbn [um set_um snd] in *. by rewrite H3, H1.
Qed.
Lemma scratch_fields s s' : scratch s s' ->
  sb s' = sb s /\ lg s' = lg s /\ itable s' = itable s /\ (um s').1 = (um s).1 /\ mem_ok (um s').2 /\ out s' = out s.
Proof. by intros (m' & -> & ? & _). Qed.
Lemma scratch_V s s' : scratch s s' -> V s' = V s.
Proof. intros H. unfold V. by rewrite (proj1 (proj2 (scratch_fields s s' H))). Qed.

Record dir_ok (s : fs U) (ip : inode) : Prop := {
  do_file : file_ok (V s) (i_d ip);
  do_size : d_size (i_d ip) mod DIRENT = 0;
  do_side : side_ok (um s)
}.

Lemma dir_ok_scratch s s' ip : dir_ok s ip -> scratch s s' -> dir_ok s' ip.
Proof.
  intros [H1 H2 [H3 _]] Hs. split; [by rewrite (scratch_V _ _ Hs)|done|].
  destruct (scratch_fields _ _ Hs) as (_ & _ & _ & E & Hm & _). split; [by rewrite E|done].
Qed.

Lemma read_dirent_spec s dp ip k msg :
  itable s !! dp = Some ip -> dir_ok s ip -> (k < dir_count (i_d ip))%nat ->
  exists s', read_dirent de_addr dp (DIRENT * Z.of_nat k) msg s = Done (dir_entry (V s) (i_d ip) k) s' /\ scratch s s'.
Proof.
  intros Hi [Hf Hm Hs] Hk. unfold read_dirent, dir_count in *. change DIRENT with 16 in *.
  pose proof (fo_size _ _ Hf) as Hsz. assert (Hmx : MAXFILE * BSIZE < 2 ^ 32) by done.
  pose proof (Z.div_mod (d_size (i_d ip)) 16 ltac:(done)).
  destruct (readi_spec s dp ip false de_addr (16 * Z.of_nat k) 16 Hi Hf Hs Hde ltac:(lia) ltac:(lia) ltac:(lia)) as (c & r & w' & H1 & H2 & H3).
  assert (Hcnt : (if (16 * Z.of_nat k >? d_size (i_d ip)) || (2 ^ 32 <=? 16 * Z.of_nat k + 16) then 0
     else Z.min 16 (d_size (i_d ip) - 16 * Z.of_nat k)) = 16).
  { rewrite Z.gtb_ltb. destruct (Z.ltb_spec (d_size (i_d ip)) (16 * Z.of_nat k)); [lia|].
    destruct (Z.leb_spec (2 ^ 32) (16 * Z.of_nat k + 16)); [lia|]. cbn [orb]. lia. }
  rewrite Hcnt in H3. destruct H3 as [[-> Hc]|(_ & ? & _)]; [|done]. rewrite (bind_Done _ _ _ _ _ H1). cbn [Z.eqb negb Pos.eqb].
  assert (c = 16%nat) as -> by lia. destruct H2 as ([Hu' Hm'] & Hside & Hb & _). cbn in Hside.
  assert (Hload : load_bytes w'.2 de_addr 16 = file_bytes (V s) (i_d ip) (16 * Z.of_nat k) 16).
  { unfold load_bytes. apply list_eq_same_length with (n := 16%nat); [apply length_file_bytes|by rewrite length_fmap, length_seq|].
    intros j x y Hj Hx Hy. rewrite list_lookup_fmap, lookup_seq_lt in Hx by done. apply Some_inj in Hx as <-.
    specialize (Hb (de_addr + Z.of_nat (0 + j)) ltac:(lia)). rewrite length_file_bytes in Hb.
    destruct (Z.leb_spec de_addr (de_addr + Z.of_nat (0 + j))); [|lia].
    destruct (Z.ltb_spec (de_addr + Z.of_nat (0 + j)) (de_addr + Z.of_nat 16)); [|lia]. cbn [andb dbyte] in Hb.
    replace (Z.to_nat (de_addr + Z.of_nat (0 + j) - de_addr)) with j in Hb by lia. rewrite Hy in Hb. by injection Hb. }
  exists (set_um w' s). split; [unfold gets; cbn [um set_um]; by rewrite Hload|].
  exists w'.2. split; [rewrite <- Hside; by destruct w'|]. split; [done|]. intros a Ha Hn. specialize (Hb a Ha).
  rewrite length_file_bytes in Hb.
  destruct (Z.leb_spec de_addr a), (Z.ltb_spec a (de_addr + Z.of_nat 16)); cbn [andb dbyte] in Hb; try lia; by injection Hb.
Qed.

(** ** Lookup *)

Definition lookup_result (dev : Z) (k : nat) (found : option (nat * dirent)) : M (fs U) (option (nat * Z)) :=
  match found with
  | None => ret None
  | Some (j, de) => let! i := iget dev (de_inum de) in ret (Some (i, DIRENT * Z.of_nat (k + j)))
  end.

Lemma dirlookup_loop_spec dp ip name : forall fuel s k,
  itable s !! dp = Some ip -> dir_ok s ip -> (k <= dir_count (i_d ip) < k + fuel)%nat ->
  exists s', scratch s s' /\
    dirlookup_loop de_addr fuel dp name (DIRENT * Z.of_nat k) s =
      lookup_result (i_dev ip) k (list_find (has_name name) (drop k (dir_entries (V s) (i_d ip)))) s'.
Proof.
  induction fuel as [|fuel IH]; intros s k Hi Hd Hk; [lia|]. cbn [dirlookup_loop].
  rewrite (bind_Done _ _ _ _ _ (geti_eq s dp ip Hi)). pose proof Hd as [Hf Hm Hs].
  pose proof (fo_size _ _ Hf) as Hsz. assert (Hmx : MAXFILE * BSIZE < 2 ^ 32 - 16) by done.
  pose proof (Z.div_mod (d_size (i_d ip)) DIRENT ltac:(done)) as Hdm. rewrite Hm in Hdm.
  unfold dir_count in *. destruct (Z.ltb_spec (DIRENT * Z.of_nat k) (d_size (i_d ip))) as [Hlt|Hge].
  2: { exists s. split; [by apply scratch_refl|]. rewrite drop_ge; [done|]. rewrite length_dir_entries. unfold dir_count, DIRENT in *. lia. }
  assert (Hk' : (k < dir_count (i_d ip))%nat) by (unfold dir_count, DIRENT in *; lia).
  destruct (read_dirent_spec s dp ip k "dirlookup read" Hi Hd Hk') as (s1 & H1 & Hs1). rewrite (bind_Done _ _ _ _ _ H1).
  rewrite dir_entries_drop by done. set (de := dir_entry (V s) (i_d ip) k).
  destruct (IH s1 (S k)) as (s2 & Hs2 & Hloop).
  { destruct (scratch_fields _ _ Hs1) as (_ & _ & -> & _). done. } { by eapply dir_ok_scratch. } { unfold dir_count in *. lia. }
  rewrite u32_small by (unfold DIRENT in *; lia).
  replace (DIRENT * Z.of_nat (S k)) with (DIRENT * Z.of_nat k + DIRENT) in Hloop by lia.
  rewrite (scratch_V _ _ Hs1) in Hloop. cbn [list_find].
  assert (Hnext : ~ has_name name de -> exists s', scratch s s' /\
    dirlookup_loop de_addr fuel dp name (DIRENT * Z.of_nat k + DIRENT) s1 =
    lookup_result (i_dev ip) k (if decide (has_name name de) then Some (0%nat, de)
      else prod_map S id <$> list_find (has_name name) (drop (S k) (dir_entries (V s) (i_d ip)))) s').
  { intros Hn. exists s2. split; [by eapply scratch_trans|]. rewrite Hloop, decide_False by done.
    destruct (list_find _ _) as [[j x]|]; [|done]. cbn. by replace (k + S j)%nat with (S (k + j)) by lia. }
  destruct (Z.eqb_spec (de_inum de) 0) as [Hz|Hnz]; [apply Hnext; unfold has_name; tauto|].
  destruct (Z.eqb_spec (namecmp name (de_name de)) 0) as [He|Hne].
  - exists s1. split; [done|]. rewrite decide_True by (split; [done|by apply namecmp_zero]).
    cbn [lookup_result]. by rewrite Nat.add_0_r.
  - apply Hnext. unfold has_name. rewrite <- namecmp_zero. tauto.
Qed.

Lemma dirlookup_spec s dp ip name :
  itable s !! dp = Some ip -> dir_ok s ip -> d_type (i_d ip) = T_DIR ->
  exists s', scratch s s' /\
    dirlookup de_addr dp name s =
      lookup_result (i_dev ip) 0 (list_find (has_name name) (dir_entries (V s) (i_d ip))) s'.
Proof.
  intros Hi Hd Ht. unfold dirlookup. rewrite (bind_Done _ _ _ _ _ (geti_eq s dp ip Hi)), Ht. cbn [Z.eqb negb T_DIR Pos.eqb].
  apply (dirlookup_loop_spec dp ip name (dir_fuel ip) s 0 Hi Hd). unfold dir_fuel, dir_count. lia.
Qed.

(** C27: [dirlookup] in a well-formed directory finds the first entry in use whose
    name agrees with the given one up to a NUL and 14 characters: it returns
    that entry's inode, referenced, with the offset of the entry, or the null
    pointer when there is none.  Apart from the reference and the kernel's
    entry buffer nothing changes.  On an inode that is not a directory it
    panics. *)
Theorem dirlookup_finds (s : fs U) (dp : nat) (ip : inode) (name : list Z) :
  itable s !! dp = Some ip -> dir_ok s ip ->
  if d_type (i_d ip) =? T_DIR then
    exists s', scratch s s' /\
      match list_find (has_name name) (dir_entries (V s) (i_d ip)) with
      | None => dirlookup de_addr dp name s = Done None s'
      | Some (j, de) =>
          dirlookup de_addr dp name s = (let! i := iget (i_dev ip) (de_inum de) in ret (Some (i, DIRENT * Z.of_nat j))) s'
      end
  else dirlookup de_addr dp name s = Panic "dirlookup not DIR".
Proof.
  intros Hi Hd. destruct (Z.eqb_spec (d_type (i_d ip)) T_DIR) as [Ht|Ht].
  - destruct (dirlookup_spec s dp ip name Hi Hd Ht) as (s' & Hs & He). exists s'. split; [done|].
    by destruct (list_find _ _) as [[j de]|].
  - unfold dirlookup. rewrite (bind_Done _ _ _ _ _ (geti_eq s dp ip Hi)). by destruct (Z.eqb_spec (d_type (i_d ip)) T_DIR).
Qed.

(** ** Adding an entry *)

(** The first free entry, or the end. *)
Definition free_index (l : list dirent) : nat :=
  match list_find (fun de => de_inum de = 0) l with Some (j, _) => j | None => length l end.

Lemma free_index_cons de l : free_index (de :: l) = if decide (de_inum de = 0) then 0%nat else S (free_index l).
Proof.
  unfold free_index. cbn [list_find]. case_decide; [done|]. by destruct (list_find _ l) as [[j x]|].
Qed.

Lemma find_empty_spec dp ip : forall fuel s k,
  itable s !! dp = Some ip -> dir_ok s ip -> (k <= dir_count (i_d ip) < k + fuel)%nat ->
  exists s', scratch s s' /\
    find_empty de_addr fuel dp (DIRENT * Z.of_nat k) s =
      Done (DIRENT * Z.of_nat (k + free_index (drop k (dir_entries (V s) (i_d ip))))) s'.
Proof.
  induction fuel as [|fuel IH]; intros s k Hi Hd Hk; [lia|]. cbn [find_empty].
  rewrite (bind_Done _ _ _ _ _ (geti_eq s dp ip Hi)). pose proof Hd as [Hf Hm Hs].
  pose proof (Z.div_mod (d_size (i_d ip)) DIRENT ltac:(done)) as Hdm. rewrite Hm in Hdm.
  pose proof (fo_size _ _ Hf) as Hsz.
  destruct (Z.ltb_spec (DIRENT * Z.of_nat k) (d_size (i_d ip))) as [Hlt|Hge].
  2: { exists s. split; [by apply scratch_refl|]. rewrite drop_ge; [by rewrite Nat.add_0_r|].
    rewrite length_dir_entries. unfold dir_count, DIRENT in *. lia. }
  assert (Hk' : (k < dir_count (i_d ip))%nat) by (unfold dir_count, DIRENT in *; lia).
  destruct (read_dirent_spec s dp ip k "dirlink read" Hi Hd Hk') as (s1 & H1 & Hs1). rewrite (bind_Done _ _ _ _ _ H1).
  rewrite dir_entries_drop, free_index_cons by done.
  destruct (Z.eqb_spec (de_inum (dir_entry (V s) (i_d ip) k)) 0) as [Hz|Hnz].
  - exists s1. split; [done|]. rewrite decide_True by done. by rewrite Nat.add_0_r.
  - rewrite decide_False by done. destruct (IH s1 (S k)) as (s2 & Hs2 & Hloop).
    { destruct (scratch_fields _ _ Hs1) as (_ & _ & -> & _). done. } { by eapply dir_ok_scratch. } { lia. }
    replace (DIRENT * Z.of_nat k + DIRENT) with (DIRENT * Z.of_nat (S k)) by lia.
    exists s2. split; [by eapply scratch_trans|]. rewrite Hloop, (scratch_V _ _ Hs1).
    do 3 f_equal. lia.
Qed.
End Dir.

Section Find.
Context (P : dirent -> Prop) `{!forall x, Decision (P x)} (l l' : list dirent) (j : nat) (new : dirent).
Context (Hj : (j <= length l)%nat) (Hl' : forall k, l' !! k = if decide (k = j) then Some new else l !! k).

Lemma find_inserted_new : P new -> list_find P l = None -> list_find P l' = Some (j, new).
Proof.
  intros HP Hn. apply list_find_None in Hn. rewrite Forall_lookup in Hn. apply list_find_Some. rewrite Hl', decide_True by done.
  split; [done|]. split; [done|]. intros k y Hy Hk. rewrite Hl', decide_False in Hy by lia. by eapply Hn.
Qed.

Lemma find_inserted_other : ~ P new -> (forall x, l !! j = Some x -> ~ P x) -> list_find P l' = list_find P l.
Proof.
  intros Hnew Hold. destruct (list_find P l) as [[k x]|] eqn:He.
  - apply list_find_Some in He as (H1 & H2 & H3). apply list_find_Some. rewrite Hl'. case_decide as Hk.
    { subst. by apply Hold in H1. }
    split; [done|]. split; [done|]. intros k' y Hy Hk'. rewrite Hl' in Hy. case_decide.
    + congruence.
    + by eapply H3.
  - apply list_find_None in He. apply list_find_None. rewrite Forall_lookup in He |- *. intros k y Hy.
    rewrite Hl' in Hy. case_decide; [congruence|by eapply He].
Qed.
End Find.

Lemma free_index_spec l : (free_index l <= length l)%nat /\ forall x, l !! free_index l = Some x -> de_inum x = 0.
Proof.
  unfold free_index. destruct (list_find _ l) as [[k y]|] eqn:He.
  - apply list_find_Some in He as (H1 & H2 & _). split; [apply lookup_lt_Some in H1; lia|]. congruence.
  - split; [lia|]. intros x Hx. apply lookup_lt_Some in Hx. lia.
Qed.

Lemma parse_dirent_bytes de : 0 <= de_inum de < 2 ^ 16 -> length (de_name de) = DIRSIZ ->
  parse_dirent (dirent_bytes de) = de.
Proof.
  intros Hi Hl. destruct de as [n nm]. cbn [de_inum de_name] in *. unfold parse_dirent, dirent_bytes. cbn [de_inum de_name].
  rewrite field_head, Z.mod_small by done. f_equal. rewrite drop_app_length' by (by rewrite length_le_bytes).
  by apply take_ge; rewrite Hl.
Qed.

(** Storing a fresh entry for [name] in a free slot changes the lookup of [name] only. *)
Lemma find_after_link l l' j name inum :
  inum <> 0 -> (j <= length l)%nat -> (forall x, l !! j = Some x -> de_inum x = 0) ->
  (forall k, l' !! k = if decide (k = j) then Some (mkdirent inum (strncpy_arr DIRSIZ name)) else l !! k) ->
  list_find (has_name name) l = None ->
  forall nm, list_find (has_name nm) l' =
    if decide (same_name nm name) then Some (j, mkdirent inum (strncpy_arr DIRSIZ name))
    else list_find (has_name nm) l.
Proof.
  intros Hi Hj Hfree Hent Hnone nm. set (new := mkdirent _ _) in *.
  assert (Hsame : same_name (de_name new) name) by apply cut_strncpy.
  case_decide as Hnm.
  - apply (find_inserted_new _ l); try done.
    + split; [done|]. unfold same_name in *. congruence.
    + assert (Hext : forall de, has_name nm de <-> has_name name de)
        by (unfold has_name, same_name in *; intros de; rewrite Hnm; done).
      apply list_find_None in Hnone. apply list_find_None.
      eapply Forall_impl; [exact Hnone|]. intros de. cbn. by rewrite Hext.
  - apply (find_inserted_other _ l _ j new); try done.
    + intros [_ H]. apply Hnm. unfold same_name in *. congruence.
    + intros x Hx [Hx0 _]. by apply Hx0, Hfree.
Qed.

(** Every entry, and the one that would be appended, starts within the directory. *)
Lemma entry_within d j : 0 <= d_size d -> (j <= dir_count d)%nat -> 0 <= DIRENT * Z.of_nat j <= d_size d.
Proof.
  intros Hs Hj. unfold dir_count in Hj.
  pose proof (Z.div_mod (d_size d) DIRENT ltac:(done)). pose proof (Z.mod_pos_bound (d_size d) DIRENT ltac:(done)).
  unfold DIRENT in *. lia.
Qed.

Section Dirlink.
Context {U : Type} `{!UserMem U}.
Context (de_addr : Z) (Hde : 0 <= de_addr) (Hde' : de_addr + 16 < 2 ^ 64).

Lemma file_bytes_ext v d v' d' off n :
  (forall o, off <= o < off + Z.of_nat n -> file_byte v' d' o = file_byte v d o) ->
  file_bytes v' d' off n = file_bytes v d off n.
Proof.
  intros H. unfold file_bytes. apply list_fmap_ext. intros k x Hx. apply lookup_seq in Hx as [-> Hk]. apply H. lia.
Qed.

(** The entries after one of them was written. *)
Lemma entries_written (s s' : fs U) i ip j new d' :
  write_post s i ip (DIRENT * Z.of_nat j) DIRENT (dirent_bytes new) s' d' ->
  d_size (i_d ip) mod DIRENT = 0 -> 0 <= d_size (i_d ip) -> (j <= dir_count (i_d ip))%nat ->
  0 <= de_inum new < 2 ^ 16 -> length (de_name new) = DIRSIZ ->
  forall k, dir_entries (V s') d' !! k = if decide (k = j) then Some new else dir_entries (V s) (i_d ip) !! k.
Proof.
  intros Hp Hm Hsz Hj Hn Hl k. pose proof (wp_size _ _ _ _ _ _ _ _ Hp) as Hs. pose proof (wp_bytes _ _ _ _ _ _ _ _ Hp) as Hb.
  pose proof (Z.div_mod (d_size (i_d ip)) DIRENT ltac:(done)) as Hdm. rewrite Hm in Hdm. unfold dir_count in Hj.
  assert (Hlen : length (dirent_bytes new) = 16%nat) by (unfold dirent_bytes; by rewrite length_app, length_le_bytes, Hl).
  assert (Hin : forall o, in_range o (DIRENT * Z.of_nat j) (dirent_bytes new) = (DIRENT * Z.of_nat j <=? o) && (o <? DIRENT * Z.of_nat j + 16)).
  { intros o. unfold in_range. by rewrite Hlen. }
  assert (Hsz' : d_size d' = DIRENT * Z.of_nat (Nat.max (dir_count (i_d ip)) (S j))) by (unfold dir_count, DIRENT in *; lia).
  assert (Hcnt : dir_count d' = Nat.max (dir_count (i_d ip)) (S j)).
  { unfold dir_count at 1. rewrite Hsz', Z.mul_comm, Z.div_mul by done. lia. }
  unfold dir_entries. rewrite !list_lookup_fmap, Hcnt. case_decide as Hk.
  - subst k. rewrite lookup_seq_lt by lia. cbn [fmap option_fmap option_map Nat.add]. f_equal. unfold dir_entry.
    rewrite <- (parse_dirent_bytes new Hn Hl). f_equal.
    apply list_eq_same_length with (n := 16%nat); [done|apply length_file_bytes|].
    intros x a b Hx Ha Hb'. rewrite file_bytes_lookup in Ha by done. apply Some_inj in Ha as <-.
    rewrite Hb by (unfold DIRENT in *; lia). rewrite Hin.
    destruct (Z.leb_spec (DIRENT * Z.of_nat j) (DIRENT * Z.of_nat j + Z.of_nat x)); [|lia].
    destruct (Z.ltb_spec (DIRENT * Z.of_nat j + Z.of_nat x) (DIRENT * Z.of_nat j + 16)); [|lia]. cbn [andb].
    replace (Z.to_nat _) with x by lia. by apply nth_lookup_Some.
  - destruct (decide (k < dir_count (i_d ip))%nat) as [Hlt|Hge].
    + rewrite !lookup_seq_lt by lia. cbn [fmap option_fmap option_map]. f_equal. unfold dir_entry. f_equal.
      apply file_bytes_ext. intros o Ho. rewrite Hb by (unfold DIRENT in *; lia). rewrite Hin.
      destruct (Z.leb_spec (DIRENT * Z.of_nat j) o), (Z.ltb_spec o (DIRENT * Z.of_nat j + 16)); cbn [andb]; try done.
      unfold DIRENT in *. lia.
    + rewrite !lookup_seq_ge; [done|lia|]. unfold dir_count in *. lia.
Qed.

Lemma entries_unwritten (s s' : fs U) i ip off d' :
  write_post s i ip off 0 [] s' d' -> 0 <= off <= d_size (i_d ip) -> dir_entries (V s') d' = dir_entries (V s) (i_d ip).
Proof.
  intros Hp Ho. pose proof (wp_size _ _ _ _ _ _ _ _ Hp) as Hs. pose proof (wp_bytes _ _ _ _ _ _ _ _ Hp) as Hb.
  assert (Hs' : d_size d' = d_size (i_d ip)) by lia. unfold dir_entries, dir_count. rewrite Hs'.
  apply list_fmap_ext. intros k x Hx. apply lookup_seq in Hx as [-> Hk]. unfold dir_entry. f_equal.
  apply file_bytes_ext. intros o Hoo. rewrite Hb, in_range_nil; [done|].
  pose proof (Z.div_mod (d_size (i_d ip)) DIRENT ltac:(done)). pose proof (Z.mod_pos_bound (d_size (i_d ip)) DIRENT ltac:(done)).
  unfold DIRENT in *. lia.
Qed.

Lemma chunks_entry j : chunks (DIRENT * Z.of_nat j) DIRENT = 1.
Proof.
  unfold chunks, DIRENT. change BSIZE with (16 * 64). rewrite Z.mul_mod_distr_l by done.
  pose proof (Z.mod_pos_bound (Z.of_nat j) 64 ltac:(lia)). symmetry. apply (Z.div_unique _ _ _ (16 * (Z.of_nat j mod 64) + 16 - 1)); lia.
Qed.

Lemma file_inv_eq (s s' : fs U) ip : sb s' = sb s -> lg s' = lg s -> file_inv s ip -> file_inv s' ip.
Proof.
  intros H1 H2 [K1 K2 K3 K4 K5 K6 K7]. assert (HV : V s' = V s) by (unfold V; by rewrite H2). split; rewrite ?H1, ?HV; done.
Qed.

(** Storing the new entry in the buffer and writing it. *)
Lemma write_entry_spec (s : fs U) dp ip j new :
  itable s !! dp = Some ip -> file_inv s ip -> dir_ok s ip -> (j <= dir_count (i_d ip))%nat ->
  0 <= de_inum new < 2 ^ 16 -> length (de_name new) = DIRSIZ -> Forall (fun b => 0 <= b < 256) (de_name new) ->
  log_room (lg s) (IBLOCK (i_inum ip) (sb s) :: bitmap_list (sb s)) 2 ->
  let s1 := set_um ((um s).1, store_bytes (um s).2 de_addr (dirent_bytes new)) s in
  (writei dp false de_addr (DIRENT * Z.of_nat j) DIRENT s1 = Done (-1) s1 /\ MAXFILE * BSIZE < DIRENT * Z.of_nat j + DIRENT) \/
  exists s' d', (writei dp false de_addr (DIRENT * Z.of_nat j) DIRENT s1 = Done DIRENT s' /\
      write_post s1 dp ip (DIRENT * Z.of_nat j) DIRENT (dirent_bytes new) s' d') \/
    (writei dp false de_addr (DIRENT * Z.of_nat j) DIRENT s1 = Done 0 s' /\
      write_post s1 dp ip (DIRENT * Z.of_nat j) 0 [] s' d' /\ disk_full (sb s) (V s')).
Proof.
  intros Hi Hinv [Hf Hm [Hu Hmem]] Hj Hn Hl Hnm Hroom s1. set (bytes := dirent_bytes new) in *.
  assert (Hlen : length bytes = 16%nat) by (unfold bytes, dirent_bytes; by rewrite length_app, length_le_bytes, Hl).
  assert (Hby : Forall (fun b => 0 <= b < 256) bytes) by (apply Forall_app_2; [apply le_bytes_range|done]).
  pose proof (fo_size _ _ Hf) as Hsz. assert (Hmx : MAXFILE * BSIZE < 2 ^ 32 - 16) by done.
  pose proof (Z.div_mod (d_size (i_d ip)) DIRENT ltac:(done)) as Hdm. unfold dir_count in Hj.
  assert (Hoff : 0 <= DIRENT * Z.of_nat j <= d_size (i_d ip)) by (unfold DIRENT in *; lia).
  pose proof (writei_spec s1 dp ip false de_addr (DIRENT * Z.of_nat j) DIRENT Hi (file_inv_eq s s1 ip eq_refl eq_refl Hinv)
    (conj Hu (store_bytes_ok _ _ _ Hmem)) Hde Hde' ltac:(lia) ltac:(unfold DIRENT; lia)) as Hw.
  rewrite chunks_entry in Hw. specialize (Hw Hroom).
  destruct (Z.ltb_spec (d_size (i_d ip)) (DIRENT * Z.of_nat j)); [lia|]. cbn [orb] in Hw.
  destruct (Z.ltb_spec (MAXFILE * BSIZE) (DIRENT * Z.of_nat j + DIRENT)); [by left|]. right.
  destruct Hw as (r & bs & s' & d' & Hw & Hp & Hat & Hr & Hbs & Hwhy & Hstop & [[_ Hk]|[_ ?]]); [|done].
  exists s', d'. change (dbyte false (um s1)) with (fun a => Some ((um s1).2 a)) in Hat.
  rewrite load_bytes_at in Hat. apply Some_inj in Hat.
  assert (Hcase : r = DIRENT \/ r = 0).
  { destruct Hstop as [?|[?|Hend]]; [by left|by right|]. pose proof (Z.div_mod (DIRENT * Z.of_nat j + r) BSIZE ltac:(done)) as Hq.
    unfold DIRENT, BSIZE in *. lia. }
  destruct Hcase as [Hr16|Hr0].
  - left. rewrite Hr16 in Hw. split; [exact Hw|]. assert (Hlb : length bs = 16%nat) by (unfold DIRENT in *; lia).
    assert (Hbb : bs = bytes); [|by rewrite Hbb, Hr16 in Hp].
    rewrite <- Hat, Hlb, <- Hlen. cbn [s1 um set_um snd]. exact (load_store_bytes _ de_addr bytes Hby).
  - right. rewrite Hr0 in *. split; [exact Hw|]. assert (bs = []) as -> by (destruct bs; [done|cbn [length] in Hk; lia]).
    split; [done|]. destruct Hwhy as [?|[?|[_ ?]]]; done.
Qed.

(** Taking a reference and dropping it again: the entries in use are as they were, and the free ones stay free. *)
Definition same_refs (t t' : list inode) : Prop := forall k,
  match t !! k, t' !! k with
  | Some x, Some x' => i_ref x' = i_ref x /\ (0 < i_ref x -> x' = x)
  | None, None => True
  | _, _ => False
  end.

Lemma same_refs_insert t i x y : t !! i = Some x -> i_ref y = i_ref x -> (0 < i_ref x -> y = x) -> same_refs t (<[i := y]> t).
Proof.
  intros Hx Hr Hy k. destruct (decide (i = k)) as [->|Hne].
  - rewrite list_lookup_insert_eq by (by eapply lookup_lt_Some). by rewrite Hx.
  - rewrite list_lookup_insert_ne by done. by destruct (t !! k).
Qed.

Lemma iget_iput (s : fs U) dev inum : (forall k x, itable s !! k = Some x -> 0 <= i_ref x) ->
  (exists t', (let! i := iget dev inum in iput i ;; ret (-1)) s = Done (-1) (set_itable t' s) /\ same_refs (itable s) t') \/
  ((let! i := iget dev inum in iput i ;; ret (-1)) s = Panic "iget: no inodes" /\
    forall k x, itable s !! k = Some x -> 0 < i_ref x /\ ~ (i_dev x = dev /\ i_inum x = inum)).
Proof.
  intros Hpos. unfold bind at 1 3, iget. destruct (list_find (fun ip => is_inode dev inum ip = true) (itable s)) as [[i x]|] eqn:Hf.
  - left. apply list_find_Some in Hf as (Hx & Hin & _). assert (Hr : 0 < i_ref x).
    { unfold is_inode in Hin. apply andb_true_iff in Hin as [Hin _]. apply andb_true_iff in Hin as [Hin _]. rewrite Z.gtb_ltb in Hin. by apply Z.ltb_lt. }
    assert (Hl : (i < length (itable s))%nat) by (by eapply lookup_lt_Some).
    eexists (<[i := x]> (itable s)). split; [|by apply (same_refs_insert _ _ x)].
    unfold iput, geti, puti, modify, bind, ret. cbn [itable set_itable]. rewrite list_lookup_insert_eq by done.
    cbn [i_ref set_ref]. destruct (Z.eqb_spec (i_ref x + 1) 1); [lia|]. cbn [andb itable set_itable].
    rewrite list_lookup_insert_eq by done. cbn [i_ref set_ref]. unfold set_itable at 1. cbn [itable set_itable]. rewrite list_insert_insert_eq.
    replace (set_ref (i_ref x + 1 - 1) (set_ref (i_ref x + 1) x)) with x; [reflexivity|]. destruct x; unfold set_ref; cbn. f_equal. lia.
  - destruct (list_find (fun ip => i_ref ip = 0) (itable s)) as [[i x]|] eqn:He; [left|right].
    + apply list_find_Some in He as (Hx & Hr & _). assert (Hl : (i < length (itable s))%nat) by (by eapply lookup_lt_Some).
      eexists. split.
      * unfold iput, geti, puti, modify, bind, ret. cbn [itable set_itable]. rewrite list_lookup_insert_eq by done.
        cbn [i_ref i_valid Z.eqb Pos.eqb andb itable set_itable]. rewrite list_lookup_insert_eq by done.
        unfold set_itable at 1. cbn [itable set_itable]. rewrite list_insert_insert_eq. reflexivity.
      * apply (same_refs_insert _ _ x); [done|by cbn; rewrite Hr|lia].
    + split; [done|]. intros k x Hx. apply list_find_None in Hf, He. rewrite Forall_lookup in Hf, He.
      specialize (He k x Hx). specialize (Hf k x Hx). specialize (Hpos k x Hx). cbn in He, Hf. split; [lia|]. intros [Hd Hn]. apply Hf.
      unfold is_inode. rewrite Z.gtb_ltb. destruct (Z.ltb_spec 0 (i_ref x)); [|lia]. by rewrite Hd, Hn, !Z.eqb_refl.
Qed.

(** Adding a name the directory does not have, at index [j] of its entries. *)
Definition link_added (s : fs U) (dp : nat) (ip : inode) (name : list Z) (inum : Z) (j : nat) (r : Z) (s' : fs U) (d' : dinode) : Prop :=
  let l := dir_entries (V s) (i_d ip) in
  let l' := dir_entries (V s') d' in
  let new := mkdirent inum (strncpy_arr DIRSIZ name) in
  (r = 0 /\ (forall k, l' !! k = if decide (k = j) then Some new else l !! k) /\
    forall nm, list_find (has_name nm) l' = if decide (same_name nm name) then Some (j, new) else list_find (has_name nm) l) \/
  (r = -1 /\ l' = l /\ (MAXFILE * BSIZE < DIRENT * Z.of_nat j + DIRENT \/ disk_full (sb s) (V s'))).

Lemma dirlink_absent (s : fs U) (dp : nat) (ip : inode) (name : list Z) (inum : Z) :
  itable s !! dp = Some ip -> file_inv s ip -> dir_ok s ip -> d_type (i_d ip) = T_DIR ->
  0 < inum < 2 ^ 16 -> Forall (fun b => 0 <= b < 256) name ->
  log_room (lg s) (IBLOCK (i_inum ip) (sb s) :: bitmap_list (sb s)) 2 ->
  list_find (has_name name) (dir_entries (V s) (i_d ip)) = None ->
  exists r s' d', dirlink de_addr dp name inum s = Done r s' /\
    itable s' = <[dp := set_d d' ip]> (itable s) /\ file_inv s' (set_d d' ip) /\
    (forall j, 0 <= j -> j <> i_inum ip -> 0 < IBLOCK j (sb s) < sb_bmapstart (sb s) ->
       disk_inode (sb s) (V s') j = disk_inode (sb s) (V s) j) /\
    link_added s dp ip name inum (free_index (dir_entries (V s) (i_d ip))) r s' d'.
Proof.
  intros Hi Hinv Hd Ht Hn Hnm Hroom Hnone. unfold dirlink.
  destruct (dirlookup_spec de_addr Hde Hde' s dp ip name Hi Hd Ht) as (s1 & Hs1 & H1). rewrite Hnone in H1. cbn [lookup_result] in H1.
  rewrite (bind_Done _ _ _ _ _ H1).
  destruct (scratch_fields _ _ _ Hs1) as (E1 & E2 & E3 & _). pose proof (scratch_V _ _ _ Hs1) as EV1.
  rewrite (bind_Done _ _ _ _ _ (geti_eq s1 dp ip ltac:(by rewrite E3))).
  destruct (find_empty_spec de_addr Hde Hde' dp ip (dir_fuel ip) s1 0) as (s2 & Hs2 & H2); [by rewrite E3|by eapply dir_ok_scratch|unfold dir_fuel, dir_count; lia|].
  change (DIRENT * Z.of_nat 0) with 0 in H2. rewrite EV1, drop_0, Nat.add_0_l in H2. rewrite (bind_Done _ _ _ _ _ H2), bind_modify.
  pose proof (scratch_trans _ _ _ _ Hs1 Hs2) as Hs.
  destruct (scratch_fields _ _ _ Hs) as (F1 & F2 & F3 & _). pose proof (scratch_V _ _ _ Hs) as FV.
  unfold link_added. set (l := dir_entries (V s) (i_d ip)) in *. set (j := free_index l).
  destruct (free_index_spec l) as [Hj Hfree]. fold j in Hj, Hfree.
  set (new := mkdirent inum (strncpy_arr DIRSIZ name)).
  assert (Hdok2 : dir_ok s2 ip) by (by eapply dir_ok_scratch).
  pose proof (file_inv_eq s s2 ip F1 F2 Hinv) as Hinv2.
  replace (u16 inum) with inum by (symmetry; apply Z.mod_small; lia).
  destruct (write_entry_spec s2 dp ip j new) as [[Hw Hbig]|(s' & d' & Hw)]; try done.
  { by rewrite F3. } { unfold l in Hj. by rewrite length_dir_entries in Hj. } { cbn; lia. }
  { apply length_strncpy_arr. } { by apply strncpy_arr_range. } { by rewrite F1, F2. }
  - rewrite (bind_Done _ _ _ _ _ Hw). eexists (-1), _, (i_d ip). split; [reflexivity|]. cbn [set_um itable].
    split; [by rewrite F3, set_d_same, list_insert_id|]. rewrite set_d_same.
    split; [by apply (file_inv_eq s2)|]. assert (HV : V (set_um ((um s2).1, store_bytes (um s2).2 de_addr (dirent_bytes new)) s2) = V s) by (by rewrite <- FV).
    split; [intros; by rewrite HV|]. right. split; [done|]. split; [unfold l; by rewrite HV|by left].
  - destruct Hw as [[Hw Hp]|(Hw & Hp & Hfull)]; rewrite (bind_Done _ _ _ _ _ Hw); pose proof (wp_inode _ _ _ _ _ _ _ _ Hp) as (_ & _ & Htab);
      pose proof (wp_inv _ _ _ _ _ _ _ _ Hp) as Hinv'; pose proof (wp_inodes _ _ _ _ _ _ _ _ Hp) as Hoth; cbn [set_um itable] in Htab; rewrite F3 in Htab;
      cbn [set_um sb] in Hoth; change (V (set_um ((um s2).1, store_bytes (um s2).2 de_addr (dirent_bytes new)) s2)) with (V s2) in Hoth; rewrite F1, FV in Hoth;
      eexists _, s', d'; (split; [reflexivity|]); (split; [done|]); (split; [done|]); (split; [exact Hoth|]).
    + left. split; [done|].
      assert (Hent : forall k, dir_entries (V s') d' !! k = if decide (k = j) then Some new else l !! k).
      { intros k. unfold l. rewrite <- FV. apply (entries_written _ _ _ _ _ _ _ Hp); try done.
        * apply Hd.
        * apply (fo_size _ _ (do_file _ _ Hd)).
        * unfold l in Hj. by rewrite length_dir_entries in Hj.
        * cbn. lia.
        * apply length_strncpy_arr. }
      split; [exact Hent|]. apply (find_after_link l); [lia|done|done|exact Hent|done].
    + right. split; [done|]. rewrite F1 in Hfull. split; [|by right]. rewrite (entries_unwritten _ _ _ _ _ _ Hp); [unfold l; by rewrite <- FV|].
      apply entry_within; [apply (fo_size _ _ (do_file _ _ Hd))|]. unfold l in Hj. by rewrite length_dir_entries in Hj.
Qed.

End Dirlink.

(** ** Small directories *)

(** An empty directory, and one whose only entry is "a" for inode 5. *)
Definition empty_dir : inode := mkinode ROOTDEV 2 1 true true (mkdinode T_DIR 0 0 1 0 (replicate 13 0)).
Definition a_dir : inode := mkinode ROOTDEV 2 1 true true (mkdinode T_DIR 0 0 1 16 (34 :: replicate 12 0)).
Definition a_view : Z -> block := updb demo_view1 34 (5 :: 0 :: 97 :: replicate 1021 0).
Definition a_fs : fs (list Z) :=
  mkfs demo_sb (mklog 2 30 1 false [] (mkbdev a_view demo_view [] [])) [a_dir; inode0] ([], ramp) [].

Lemma a_dir_ok : dir_ok a_fs a_dir.
Proof.
  split; [|done|split; [apply List.Forall_nil|exact ramp_ok]].
  split; [done|]. intros bn H0 Hlt. cbn [a_dir i_d d_size] in Hlt. unfold BSIZE in Hlt.
  assert (bn = 0) as -> by lia. split; [done|]. split; [done|].
  change (V a_fs (iblk (V a_fs) (i_d a_dir) 0)) with (5 :: 0 :: 97 :: replicate 1021 0).
  do 3 (apply Forall_cons; split; [lia|]). apply Forall_replicate. lia.
Qed.

Lemma a_dir_entries : dir_entries (V a_fs) (i_d a_dir) = [mkdirent 5 (97 :: replicate 13 0)].
Proof. vm_compute. reflexivity. Qed.

Lemma dirlookup_finds_witness :
  (exists s', scratch 512 a_fs s' /\
    dirlookup 512 0 [97] a_fs = (let! i := iget ROOTDEV 5 in ret (Some (i, 0))) s') /\
  (exists s', scratch 512 a_fs s' /\ dirlookup 512 0 [98] a_fs = Done None s').
Proof.
  pose proof (dirlookup_finds 512 ltac:(lia) ltac:(lia) a_fs 0 a_dir [97] eq_refl a_dir_ok) as H1.
  pose proof (dirlookup_finds 512 ltac:(lia) ltac:(lia) a_fs 0 a_dir [98] eq_refl a_dir_ok) as H2.
  rewrite a_dir_entries in H1, H2. split; [exact H1|exact H2].
Defined.

Lemma empty_dir_inv : file_inv (demo_fs (@nil Z) [empty_dir]) empty_dir.
Proof.
  destruct demo_file_inv as [H1 H2 H3 H4 H5 H6 H7]. split; [done| | |done|done|done|].
  - destruct H2 as [K1 K2 K3 K4 K5]. by split.
  - destruct H3 as [K1 K2]. by split.
  - destruct H7 as [K1 K2 K3 K4 K5 K6 K7]. by split.
Qed.

Lemma a_slot v k : slot v (i_d a_dir) k = if (k =? 0)%nat then 34 else 0.
Proof.
  destruct (decide (k < 13)%nat) as [Hk|Hk].
  - rewrite slot_lt13 by done. do 13 (destruct k as [|k]; [done|]). lia.
  - rewrite slot_ge13, slot_lt13 by lia. destruct k; [lia|done].
Qed.

Lemma a_dir_inv : file_inv a_fs a_dir.
Proof.
  assert (Hblk : blocks_ok a_view).
  { intros b. unfold a_view, updb at 1. destruct (b =? 34).
    - split; [done|]. do 3 (apply Forall_cons; split; [lia|]). apply Forall_replicate. lia.
    - unfold demo_view1, updb. destruct (b =? 33); [|apply demo_blocks_ok].
      split; [apply bit_set_size; done|apply bit_set_bytes; exact (bm_bytes _ _ demo_bitmap_ok 0 ltac:(done))]. }
  split; [| |apply a_dir_ok|exact Hblk|done|done|].
  - destruct demo_bitmap_ok1 as [B1 B2 B3 B4 B5].
    assert (HB : forall b, 0 <= b < sb_size demo_sb -> BBLOCK b demo_sb = 33).
    { intros b Hb. cbn [demo_sb sb_size] in Hb. unfold BBLOCK. rewrite BPB_eq, Z.div_small by lia. done. }
    split; [done|done| | |].
    + intros b _. apply Hblk.
    + intros b _. apply Hblk.
    + intros b Hb Hs. rewrite <- (B5 b Hb Hs). change (datastart (sb a_fs)) with 34 in Hb. cbn [a_fs sb demo_sb sb_size] in Hs.
      unfold allocated. cbn [a_fs sb]. rewrite HB by (cbn [demo_sb sb_size]; lia). done.
  - split; [done|done| | |].
    + intros k _. rewrite a_slot. destruct (k =? 0)%nat; [|done]. intros _. split; [done|]. vm_compute. reflexivity.
    + intros k k' _ _. rewrite !a_slot. destruct (Nat.eqb_spec k 0), (Nat.eqb_spec k' 0); try done. lia.
    + by rewrite a_slot.
  - split; try done. apply Forall_cons. split; [done|]. by apply Forall_replicate.
Qed.

Lemma a_name_ok : Forall (fun b => 0 <= b < 256) [97].
Proof. apply Forall_cons. split; [lia|apply List.Forall_nil]. Qed.

