(* ===== verification/FsPath.v ===== *)
(** * Path resolution: [iget], [iput] and [namex] against a directory tree

    [walk_path] resolves the elements of a path over the inodes and directory
    entries on disk, without inode table, locks or reference counts.  Theorem:
    on a quiet file system [namei] computes it, taking exactly one reference on
    the inode it returns and giving back every other reference and lock. *)

From S2P Require Import Prelude CString Kalloc Vm VmOps UserMem Block Log Fs FsAlloc FsInode FsDinode FsFile FsWrite FsDir FsName.

(** Resolving elements from inode [inum]. *)
Fixpoint walk_path (sb0 : superblock) (v : Z -> block) (inum : Z) (es : list (list Z)) : option Z :=
  match es with
  | [] => Some inum
  | e :: es' =>
      let d := disk_inode sb0 v inum in
      if negb (d_type d =? T_DIR) then None
      else
        match list_find (has_name e) (dir_entries v d) with
        | Some (_, de) => walk_path sb0 v (de_inum de) es'
        | None => None
        end
  end.

(** ** The inode table *)

Definition itable_uniq (tab : list inode) : Prop :=
  forall i j x y, tab !! i = Some x -> tab !! j = Some y -> 0 < i_ref x -> 0 < i_ref y ->
    i_dev x = i_dev y -> i_inum x = i_inum y -> i = j.

Section Iget.
Context {U : Type} `{!UserMem U}.

(** The entry that [iget] leaves in place of [y]. *)
Definition got_entry (dev inum : Z) (y : inode) : inode :=
  if i_ref y >? 0 then set_ref (i_ref y + 1) y else mkinode dev inum 1 (ilocked y) false (i_d y).

Lemma iget_spec (s : fs U) dev inum :
  itable_uniq (itable s) -> (forall i x, itable s !! i = Some x -> 0 <= i_ref x) ->
  (exists i y, iget dev inum s = Done i (set_itable (<[i := got_entry dev inum y]> (itable s)) s) /\
     itable s !! i = Some y /\
     (0 < i_ref y -> i_dev y = dev /\ i_inum y = inum) /\
     (i_ref y = 0 -> forall j x, itable s !! j = Some x -> 0 < i_ref x -> ~ (i_dev x = dev /\ i_inum x = inum))) \/
  (iget dev inum s = Panic "iget: no inodes" /\ forall i x, itable s !! i = Some x -> 0 < i_ref x).
Proof.
  intros Hu Hr. unfold iget. destruct (list_find (fun ip => is_inode dev inum ip = true) (itable s)) as [[i y]|] eqn:Hf.
  - left. apply list_find_Some in Hf as (H1 & H2 & _). unfold is_inode in H2.
    apply andb_true_iff in H2 as [H2 H4]. apply andb_true_iff in H2 as [H2 H3]. rewrite Z.gtb_ltb in H2.
    apply Z.ltb_lt in H2. apply Z.eqb_eq in H3. apply Z.eqb_eq in H4.
    exists i, y. unfold got_entry. rewrite Z.gtb_ltb. destruct (Z.ltb_spec 0 (i_ref y)); [|lia]. split; [done|]. split; [done|]. split; [done|lia].
  - apply list_find_None in Hf. rewrite Forall_lookup in Hf.
    assert (Hno : forall j x, itable s !! j = Some x -> 0 < i_ref x -> ~ (i_dev x = dev /\ i_inum x = inum)).
    { intros j x Hj Hx [E1 E2]. apply (Hf j x Hj). unfold is_inode. rewrite Z.gtb_ltb.
      destruct (Z.ltb_spec 0 (i_ref x)); [|lia]. by rewrite E1, E2, !Z.eqb_refl. }
    destruct (list_find (fun ip => i_ref ip = 0) (itable s)) as [[i y]|] eqn:Hf0.
    + left. apply list_find_Some in Hf0 as (H1 & H2 & _). exists i, y. unfold got_entry. rewrite H2. split; [done|]. split; [done|].
      split; [lia|done].
    + right. split; [done|]. intros i x Hi. apply list_find_None in Hf0. rewrite Forall_lookup in Hf0.
      specialize (Hf0 i x Hi). specialize (Hr i x Hi). cbn in Hf0. lia.
Qed.

Lemma got_entry_fields dev inum y : 0 <= i_ref y -> (0 < i_ref y -> i_dev y = dev /\ i_inum y = inum) ->
  i_dev (got_entry dev inum y) = dev /\ i_inum (got_entry dev inum y) = inum /\ i_ref (got_entry dev inum y) = i_ref y + 1.
Proof.
  intros Hr H. unfold got_entry. rewrite Z.gtb_ltb. destruct (Z.ltb_spec 0 (i_ref y)); cbn; [destruct H; [done|]; done|lia].
Qed.

Lemma got_entry_uniq tab i y dev inum :
  itable_uniq tab -> tab !! i = Some y -> 0 <= i_ref y -> (0 < i_ref y -> i_dev y = dev /\ i_inum y = inum) ->
  (i_ref y = 0 -> forall j x, tab !! j = Some x -> 0 < i_ref x -> ~ (i_dev x = dev /\ i_inum x = inum)) ->
  itable_uniq (<[i := got_entry dev inum y]> tab).
Proof.
  intros Hu Hi Hr H3 H4. destruct (got_entry_fields dev inum y Hr H3) as (X1 & X2 & X3). pose proof (lookup_lt_Some _ _ _ Hi) as Hlt.
  assert (Hother : forall j z, j <> i -> tab !! j = Some z -> 0 < i_ref z -> ~ (i_dev z = dev /\ i_inum z = inum)).
  { intros j z Hj Hz Hz0 [E1 E2]. destruct (decide (i_ref y = 0)) as [E|E]; [by eapply (H4 E j z)|].
    destruct H3; [lia|]. apply Hj. apply (Hu j i z y); try done; try lia; congruence. }
  intros a b p q Hp Hq. destruct (decide (a = i)) as [->|Ha], (decide (b = i)) as [->|Hb]; try done.
  - rewrite list_lookup_insert_eq in Hp by done. rewrite list_lookup_insert_ne in Hq by done. injection Hp as <-.
    intros _ Hq0 E1 E2. exfalso. apply (Hother b q Hb Hq Hq0). split; congruence.
  - rewrite list_lookup_insert_eq in Hq by done. rewrite list_lookup_insert_ne in Hp by done. injection Hq as <-.
    intros Hp0 _ E1 E2. exfalso. apply (Hother a p Ha Hp Hp0). split; congruence.
  - rewrite list_lookup_insert_ne in Hp, Hq by done. by apply Hu.
Qed.

(** [iget] returns one entry per inode: the table entry in use for that
    device and number, or else a free entry turned into one with a single
    reference and no valid contents; it panics only when all entries are in
    use by other inodes.  No two entries in use ever stand for the same inode,
    and no other entry changes. *)
Theorem iget_one_entry_per_inode (s : fs U) (dev inum : Z) :
  itable_uniq (itable s) -> (forall i x, itable s !! i = Some x -> 0 <= i_ref x) ->
  (exists i y x tab, iget dev inum s = Done i (set_itable tab s) /\ tab = <[i := x]> (itable s) /\
     itable s !! i = Some y /\ i_dev x = dev /\ i_inum x = inum /\ i_ref x = i_ref y + 1 /\
     (if decide (0 < i_ref y) then x = set_ref (i_ref y + 1) y else i_valid x = false) /\
     itable_uniq tab) \/
  (iget dev inum s = Panic "iget: no inodes" /\ forall i x, itable s !! i = Some x -> 0 < i_ref x).
Proof.
  intros Hu Hr. destruct (iget_spec s dev inum Hu Hr) as [(i & y & H1 & H2 & H3 & H4)|H]; [left|by right].
  exists i, y, (got_entry dev inum y), (<[i := got_entry dev inum y]> (itable s)). pose proof (Hr i y H2) as Hry.
  destruct (got_entry_fields dev inum y Hry H3) as (X1 & X2 & X3). split_and!; try done.
  - unfold got_entry. rewrite Z.gtb_ltb. destruct (Z.ltb_spec 0 (i_ref y)); case_decide; done || lia.
  - by apply got_entry_uniq.
Qed.
End Iget.

(** ** Resolution *)

Section Namex.
Context {U : Type} `{!UserMem U}.
Context (de_addr : Z) (Hde : 0 <= de_addr) (Hde' : de_addr + 16 < 2 ^ 64).
(** The disk, and a set of inodes closed under directory entries. *)
Context (sb0 : superblock) (v0 : Z -> block) (T : Z -> Prop).
Abbreviation dsk := (disk_inode sb0 v0).

Record tree_ok : Prop := {
  tr_live inum : T inum -> d_type (dsk inum) <> 0 /\ d_nlink (dsk inum) <> 0;
  tr_dir inum : T inum -> d_type (dsk inum) = T_DIR -> file_ok v0 (dsk inum) /\ d_size (dsk inum) mod DIRENT = 0;
  tr_closed inum de : T inum -> d_type (dsk inum) = T_DIR -> de ∈ dir_entries v0 (dsk inum) -> de_inum de <> 0 -> T (de_inum de)
}.

(** An entry of the table agrees with the disk. *)
Definition entry_ok (x : inode) : Prop :=
  0 <= i_ref x /\ (0 < i_ref x -> i_dev x = ROOTDEV /\ T (i_inum x) /\ (i_valid x = true -> i_d x = dsk (i_inum x))).

(** [tab] is [tab0] with [c k] more references to entry [k]; [L] is the entry
    whose lock is held. *)
Record names (tab0 : list inode) (c : nat -> Z) (L : option nat) (s : fs U) : Prop := {
  nm_sb : sb s = sb0;
  nm_V : V s = v0;
  nm_side : side_ok (um s);
  nm_len : length (itable s) = length tab0;
  nm_entry k x : itable s !! k = Some x -> entry_ok x;
  nm_lock k x : itable s !! k = Some x -> ilocked x = bool_decide (L = Some k);
  nm_uniq : itable_uniq (itable s);
  nm_refs k x y : itable s !! k = Some x -> tab0 !! k = Some y ->
    i_ref x = i_ref y + c k /\ (0 < i_ref y -> i_dev x = i_dev y /\ i_inum x = i_inum y)
}.

Definition plus (c : nat -> Z) (k : nat) (d : Z) : nat -> Z := fun j => if decide (j = k) then c j + d else c j.

Lemma names_scratch tab0 c L s s' : names tab0 c L s -> scratch de_addr s s' -> names tab0 c L s'.
Proof.
  intros [H1 H2 H3 H4 H5 H6 H7 H8] Hs. destruct (scratch_fields _ _ _ Hs) as (E1 & E2 & E3 & E4 & E5 & _).
  split; rewrite ?E3; try done; [congruence|by rewrite (scratch_V _ _ _ Hs)|]. destruct H3. split; [by rewrite E4|done].
Qed.

(** Changing one entry in place. *)
Lemma names_put tab0 c L L' s k x x' :
  names tab0 c L s -> itable s !! k = Some x -> i_dev x' = i_dev x -> i_inum x' = i_inum x -> entry_ok x' ->
  (0 < i_ref x' -> 0 < i_ref x) ->
  ilocked x' = bool_decide (L' = Some k) -> (forall j, j <> k -> bool_decide (L' = Some j) = bool_decide (L = Some j)) ->
  names tab0 (plus c k (i_ref x' - i_ref x)) L' (set_itable (<[k := x']> (itable s)) s).
Proof.
  intros [H1 H2 H3 H4 H5 H6 H7 H8] Hk Ed Ei He Hpos Hl Hl'. pose proof (lookup_lt_Some _ _ _ Hk) as Hlt.
  assert (Hget : forall j z, <[k := x']> (itable s) !! j = Some z -> (j = k /\ z = x') \/ (j <> k /\ itable s !! j = Some z)).
  { intros j z Hz. destruct (decide (j = k)) as [->|Hj].
    - rewrite list_lookup_insert_eq in Hz by done. left. split; congruence.
    - rewrite list_lookup_insert_ne in Hz by done. by right. }
  split; cbn [sb um itable set_itable]; [done|done|done|by rewrite length_insert| | | |].
  - intros j z Hz. destruct (Hget j z Hz) as [[-> ->]|[_ ?]]; [done|by eapply H5].
  - intros j z Hz. destruct (Hget j z Hz) as [[-> ->]|[? ?]]; [done|]. rewrite Hl' by done. by apply H6.
  - intros a b p q Hp Hq Hp0 Hq0 E1 E2. destruct (Hget a p Hp) as [[-> ->]|[Ha Hp']], (Hget b q Hq) as [[-> ->]|[Hb Hq']].
    + done.
    + apply (H7 k b x q); try done; [by apply Hpos|congruence|congruence].
    + apply (H7 a k p x); try done; [by apply Hpos|congruence|congruence].
    + by apply (H7 a b p q).
  - intros j z y Hz Hy. destruct (Hget j z Hz) as [[-> ->]|[Hj Hz']]; unfold plus.
    + destruct (H8 k x y Hk Hy) as [E1 E2]. rewrite decide_True by done. split; [lia|]. intros Hy0.
      destruct (E2 Hy0) as [<- <-]. done.
    + rewrite decide_False by done. by apply (H8 j z y).
Qed.

Lemma names_ext tab0 c c' L s : (forall k, c k = c' k) -> names tab0 c L s -> names tab0 c' L s.
Proof. intros Hc [H1 H2 H3 H4 H5 H6 H7 H8]. split; try done. intros k x y Hx Hy. rewrite <- Hc. by apply (H8 k x y). Qed.

Lemma ilock_names tab0 c s i x : tree_ok -> names tab0 c None s -> itable s !! i = Some x -> 0 < i_ref x ->
  let x' := mkinode (i_dev x) (i_inum x) (i_ref x) true true (dsk (i_inum x)) in
  ilock i s = Done tt (set_itable (<[i := x']> (itable s)) s) /\
  names tab0 c (Some i) (set_itable (<[i := x']> (itable s)) s).
Proof.
  intros Ht Hn Hi Hr x'. pose proof (nm_entry _ _ _ _ Hn i x Hi) as [_ He]. destruct (He Hr) as (Hdev & HT & Hval).
  split.
  - unfold ilock. rewrite (bind_Done _ _ _ _ _ (geti_eq s i x Hi)). destruct (Z.ltb_spec (i_ref x) 1); [lia|].
    rewrite (nm_lock _ _ _ _ Hn i x Hi), bool_decide_eq_false_2 by done. destruct (i_valid x) eqn:Ev.
    + unfold x'. rewrite <- (Hval eq_refl). destruct x. cbn in *. by subst.
    + rewrite bind_gets, (bind_Done _ _ _ _ _ (bread_eq _ s)), (nm_sb _ _ _ _ Hn), (nm_V _ _ _ _ Hn).
      change (parse_dinode _) with (dsk (i_inum x)). unfold puti. rewrite bind_modify.
      destruct (Z.eqb_spec (d_type (dsk (i_inum x))) 0) as [Hz|_]; [by destruct (tr_live Ht _ HT)|]. done.
  - apply (names_ext _ (plus c i (i_ref x' - i_ref x))).
    + intros k. unfold plus, x'. cbn [i_ref]. case_decide; lia.
    + apply (names_put tab0 c None (Some i) s i x x'); try done.
      * split; [cbn; lia|done].
      * by rewrite bool_decide_eq_true_2.
      * intros j Hj. rewrite !bool_decide_eq_false_2; [done|done|congruence].
Qed.

Lemma iunlockput_names tab0 c s i x : tree_ok -> names tab0 c (Some i) s -> itable s !! i = Some x -> 0 < i_ref x ->
  i_d x = dsk (i_inum x) ->
  exists s', iunlockput i s = Done tt s' /\ names tab0 (plus c i (-1)) None s' /\
    (forall k, k <> i -> itable s' !! k = itable s !! k) /\
    exists x', itable s' !! i = Some x' /\ i_inum x' = i_inum x.
Proof.
  intros Ht Hn Hi Hr Hd. pose proof (nm_entry _ _ _ _ Hn i x Hi) as [_ He]. destruct (He Hr) as (Hdev & HT & Hval).
  pose proof (lookup_lt_Some _ _ _ Hi) as Hlt. unfold iunlockput, iunlock.
  set (s1 := set_itable (<[i := set_locked false x]> (itable s)) s).
  assert (Hunl : (let! ip := geti i in if negb (ilocked ip) || (i_ref ip <? 1) then panic "iunlock" else puti i (set_locked false ip)) s = Done tt s1).
  { rewrite (bind_Done _ _ _ _ _ (geti_eq s i x Hi)), (nm_lock _ _ _ _ Hn i x Hi), bool_decide_eq_true_2 by done.
    destruct (Z.ltb_spec (i_ref x) 1); [lia|]. done. }
  rewrite (bind_Done _ _ _ _ _ Hunl). unfold iput.
  assert (Hi1 : itable s1 !! i = Some (set_locked false x)) by (by apply list_lookup_insert_eq).
  rewrite (bind_Done _ _ _ _ _ (geti_eq s1 i _ Hi1)). cbn [set_locked i_ref i_valid i_d].
  assert (Hnl : (d_nlink (i_d x) =? 0) = false) by (rewrite Hd; apply Z.eqb_neq; by apply (tr_live Ht)).
  rewrite Hnl, andb_false_r, bind_ret, (bind_Done _ _ _ _ _ (geti_eq s1 i _ Hi1)).
  set (x' := set_ref (i_ref x - 1) (set_locked false x)).
  exists (set_itable (<[i := x']> (itable s)) s). split; [|split; [|split]].
  - unfold puti, modify, s1. cbn [itable set_itable]. by rewrite list_insert_insert_eq.
  - apply (names_ext _ (plus c i (i_ref x' - i_ref x))).
    + intros k. unfold plus, x'. cbn [i_ref set_ref]. case_decide; lia.
    + apply (names_put tab0 c (Some i) None s i x x'); try done.
      * split; [cbn; lia|]. intros _. done.
      * intros j Hj. rewrite !bool_decide_eq_false_2; [done|congruence|done].
  - intros k Hk. by apply list_lookup_insert_ne.
  - exists x'. split; [by apply list_lookup_insert_eq|done].
Qed.

Lemma iget_names tab0 c L s inum k1 y1 :
  names tab0 c L s -> (forall k, 0 <= c k) -> T inum -> tab0 !! k1 = Some y1 -> i_ref y1 = 0 -> c k1 = 0 ->
  exists n s' x', iget ROOTDEV inum s = Done n s' /\ names tab0 (plus c n 1) L s' /\
    itable s' !! n = Some x' /\ i_inum x' = inum /\ 0 < i_ref x' /\
    forall k, k <> n -> itable s' !! k = itable s !! k.
Proof.
  intros Hn Hc HT Hk1 Hy1 Hck. pose proof Hn as [H1 H2 H3 H4 H5 H6 H7 H8].
  destruct (iget_spec s ROOTDEV inum H7) as [(n & y & Hg & Hy & G1 & G2)|[_ Hfull]].
  { intros k x Hx. apply (H5 k x Hx). }
  2: { destruct (lookup_lt_is_Some_2 (itable s) k1) as [x Hx]; [rewrite H4; by eapply lookup_lt_Some|].
    specialize (Hfull k1 x Hx). destruct (H8 k1 x y1 Hx Hk1) as [E _]. lia. }
  pose proof (H5 n y Hy) as [Hry He]. destruct (got_entry_fields ROOTDEV inum y Hry G1) as (X1 & X2 & X3).
  pose proof (lookup_lt_Some _ _ _ Hy) as Hlt. set (x' := got_entry ROOTDEV inum y) in *.
  exists n, (set_itable (<[n := x']> (itable s)) s), x'.
  split; [done|]. split; [|split; [by apply list_lookup_insert_eq|split; [done|split; [lia|]]]].
  2: { intros k Hk. by apply list_lookup_insert_ne. }
  assert (Hlk : ilocked x' = ilocked y) by (unfold x', got_entry; by destruct (_ >? _)).
  assert (Hget : forall j z, <[n := x']> (itable s) !! j = Some z -> (j = n /\ z = x') \/ (j <> n /\ itable s !! j = Some z)).
  { intros j z Hz. destruct (decide (j = n)) as [->|Hj].
    - rewrite list_lookup_insert_eq in Hz by done. left. split; congruence.
    - rewrite list_lookup_insert_ne in Hz by done. by right. }
  split; cbn [sb um itable set_itable]; [done|done|done|by rewrite length_insert| | | |].
  - intros j z Hz. destruct (Hget j z Hz) as [[-> ->]|[_ ?]]; [|by eapply H5]. split; [lia|]. intros _.
    rewrite X1, X2. split; [done|]. split; [done|]. unfold x', got_entry. rewrite Z.gtb_ltb.
    destruct (Z.ltb_spec 0 (i_ref y)) as [Hp|]; [|done]. cbn. destruct (G1 Hp) as [_ <-]. by apply He.
  - intros j z Hz. destruct (Hget j z Hz) as [[-> ->]|[? ?]]; [rewrite Hlk|]; by apply H6.
  - by apply got_entry_uniq.
  - intros j z y0 Hz Hy0. destruct (Hget j z Hz) as [[-> ->]|[Hj Hz']]; unfold plus.
    + rewrite decide_True by done. destruct (H8 n y y0 Hy Hy0) as [E1 E2]. split; [lia|]. intros Hp. destruct (E2 Hp) as [<- <-].
      specialize (Hc n). destruct (G1 ltac:(lia)) as [-> ->]. done.
    + rewrite decide_False by done. by apply (H8 j z y0).
Qed.

Definition none : nat -> Z := fun _ => 0.
Definition one (i : nat) : nat -> Z := plus none i 1.

(** Two free entries: room for the two references held at a time. *)
Definition two_free (tab0 : list inode) : Prop :=
  exists k1 k2 y1 y2, k1 <> k2 /\ tab0 !! k1 = Some y1 /\ tab0 !! k2 = Some y2 /\ i_ref y1 = 0 /\ i_ref y2 = 0.

Lemma two_free_other tab0 i : two_free tab0 -> exists k y, k <> i /\ tab0 !! k = Some y /\ i_ref y = 0.
Proof. intros (k1 & k2 & y1 & y2 & ? & ? & ? & ? & ?). destruct (decide (k1 = i)); [exists k2, y2|exists k1, y1]; naive_solver. Qed.

Lemma find_same_name (P Q : dirent -> Prop) `{!forall x, Decision (P x)} `{!forall x, Decision (Q x)} l :
  (forall x, P x <-> Q x) -> list_find P l = list_find Q l.
Proof.
  intros Hpq. induction l as [|x l IH]; [done|]. cbn [list_find]. rewrite IH.
  destruct (decide (P x)), (decide (Q x)); naive_solver.
Qed.

Lemma one_pos i k : 0 <= one i k.
Proof. unfold one, plus, none. case_decide; lia. Qed.

(** [iget] keeps the contents and the number of every entry in use. *)
Lemma iget_keeps_entry tab0 c L s dev inum n s' i x :
  names tab0 c L s -> iget dev inum s = Done n s' -> itable s !! i = Some x -> 0 < i_ref x ->
  exists x', itable s' !! i = Some x' /\ 0 < i_ref x' /\ i_d x' = i_d x /\ i_inum x' = i_inum x.
Proof.
  intros Hn Hg Hi Hr.
  destruct (iget_spec s dev inum (nm_uniq _ _ _ _ Hn)) as [(n' & y & Hg' & Hy & _)|[Hg' _]]; [| |congruence].
  { intros q w Hw. apply (nm_entry _ _ _ _ Hn q w Hw). }
  rewrite Hg in Hg'. injection Hg' as <- ->. cbn [itable set_itable]. destruct (decide (i = n)) as [->|Hne].
  - rewrite Hi in Hy. injection Hy as <-. rewrite list_lookup_insert_eq by (by eapply lookup_lt_Some).
    eexists. split; [done|]. unfold got_entry. rewrite Z.gtb_ltb. destruct (Z.ltb_spec 0 (i_ref x)); [|lia].
    cbn. split; [lia|done].
  - exists x. by rewrite list_lookup_insert_ne.
Qed.

(** The entry a walk holds its one reference to. *)
Lemma one_entry tab0 n s : (forall k y, tab0 !! k = Some y -> 0 <= i_ref y) -> names tab0 (one n) None s ->
  (n < length tab0)%nat -> exists z, itable s !! n = Some z /\ 0 < i_ref z.
Proof.
  intros Hpos Hn Hlt. destruct (lookup_lt_is_Some_2 tab0 n Hlt) as [y Hy].
  destruct (lookup_lt_is_Some_2 (itable s) n) as [z Hz]; [by rewrite (nm_len _ _ _ _ Hn)|].
  exists z. split; [done|]. destruct (nm_refs _ _ _ _ Hn n z y Hz Hy) as [-> _]. specialize (Hpos n y Hy).
  unfold one, plus, none. rewrite decide_True by done. lia.
Qed.

Lemma namex_loop_spec tab0 : tree_ok -> two_free tab0 -> (forall k y, tab0 !! k = Some y -> 0 <= i_ref y) -> forall fuel path name (s : fs U) i x,
  Forall (fun c => c <> 0) path -> (length path < fuel)%nat ->
  names tab0 (one i) None s -> itable s !! i = Some x -> 0 < i_ref x ->
  exists r nm' s', namex_loop de_addr fuel i path false name s = Done (r, nm') s' /\
    match walk_path sb0 v0 (i_inum x) (elements path) with
    | Some n => exists j z, r = Some j /\ itable s' !! j = Some z /\ i_inum z = n /\ 0 < i_ref z /\ names tab0 (one j) None s'
    | None => r = None /\ names tab0 none None s'
    end.
Proof.
  intros Ht Hfree Hpos. induction fuel as [|fuel IH]; intros path name s i x Hp Hfu Hn Hi Hr; [lia|]. cbn [namex_loop].
  pose proof (skipelem_spec path name Hp) as Hsk. destruct (skipelem path name) as [[rest name']|].
  2: { rewrite Hsk. exists (Some i), name, s. split; [done|]. cbn [walk_path]. by exists i, x. }
  destruct Hsk as (e & Hel & Hcut & Hlen & Hnz). apply Forall_app in Hnz as [Hnze Hnzr].
  assert (Hname : same_name name' e) by (unfold same_name; by rewrite Hcut, cut_take).
  rewrite Hel. cbn [walk_path].
  destruct (ilock_names tab0 _ s i x Ht Hn Hi Hr) as [Hlock Hn1]. set (x1 := mkinode _ _ _ _ _ _) in *. set (s1 := set_itable _ s) in *.
  rewrite (bind_Done _ _ _ _ _ Hlock).
  assert (Hi1 : itable s1 !! i = Some x1) by (apply list_lookup_insert_eq; by eapply lookup_lt_Some).
  rewrite (bind_Done _ _ _ _ _ (geti_eq s1 i x1 Hi1)). cbn [x1 i_d].
  assert (Hback : forall k, plus (one i) i (-1) k = none k) by (intros k; unfold one, plus, none; case_decide; lia).
  assert (HT : T (i_inum x)) by (destruct (nm_entry _ _ _ _ Hn i x Hi) as [_ He]; by apply He).
  destruct (Z.eqb_spec (d_type (dsk (i_inum x))) T_DIR) as [Hdir|Hdir]; cbn [negb].
  2: { destruct (iunlockput_names tab0 _ s1 i x1 Ht Hn1 Hi1 Hr eq_refl) as (s2 & H2 & Hn2 & _). rewrite (bind_Done _ _ _ _ _ H2).
    exists None, name', s2. split; [done|]. split; [done|]. by eapply names_ext. }
  cbn [andb].
  assert (Hdok : dir_ok s1 x1).
  { destruct (tr_dir Ht _ HT Hdir) as [Hf Hm]. split; cbn [x1 i_d]; [by rewrite (nm_V _ _ _ _ Hn1)|done|apply (nm_side _ _ _ _ Hn1)]. }
  destruct (dirlookup_spec de_addr Hde Hde' s1 i x1 name' Hi1 Hdok Hdir) as (s2 & Hs2 & Hl).
  rewrite (nm_V _ _ _ _ Hn1) in Hl. cbn [x1 i_d i_dev] in Hl.
  rewrite (find_same_name _ (has_name e)) in Hl by (intros de; unfold has_name, same_name in *; by rewrite Hname).
  pose proof (names_scratch _ _ _ _ _ Hn1 Hs2) as Hn2. destruct (scratch_fields _ _ _ Hs2) as (_ & _ & Etab & _).
  destruct (list_find (has_name e) (dir_entries v0 (dsk (i_inum x)))) as [[j de]|] eqn:Hfind; cbn [lookup_result] in Hl.
  2: { rewrite (bind_Done _ _ _ _ _ Hl). rewrite <- Etab in Hi1.
    destruct (iunlockput_names tab0 _ s2 i x1 Ht Hn2 Hi1 Hr eq_refl) as (s3 & H3 & Hn3 & _). rewrite (bind_Done _ _ _ _ _ H3).
    exists None, name', s3. split; [done|]. split; [done|]. by eapply names_ext. }
  apply list_find_Some in Hfind as (Hj & [Hinum _] & _).
  assert (HTn : T (de_inum de)) by (apply (tr_closed Ht (i_inum x)); [done|done|by eapply list_elem_of_lookup_2|done]).
  destruct (two_free_other tab0 i Hfree) as (k & y & Hki & Hk & Hy).
  destruct (iget_names tab0 (one i) (Some i) s2 (de_inum de) k y Hn2 (one_pos i) HTn Hk Hy) as (n & s3 & z & Hg & Hn3 & Hz & Hzn & Hzr & Hoth).
  { unfold one, plus, none. by rewrite decide_False. }
  assert (Hdev : i_dev x = ROOTDEV) by (destruct (nm_entry _ _ _ _ Hn i x Hi) as [_ He]; by apply He).
  rewrite Hdev in Hl.
  rewrite (bind_Done _ _ _ _ _ Hg) in Hl. cbn [ret] in Hl. rewrite (bind_Done _ _ _ _ _ Hl).
  rewrite <- Etab in Hi1. destruct (iget_keeps_entry _ _ _ _ _ _ _ _ i x1 Hn2 Hg Hi1 Hr) as (x3 & Hi3 & Hr3 & Hd3 & Hx3).
  destruct (iunlockput_names tab0 _ s3 i x3 Ht Hn3 Hi3 Hr3 ltac:(by rewrite Hd3, Hx3)) as (s4 & H4 & Hn4 & Hoth4 & x4 & Hx4 & Hx4n). rewrite (bind_Done _ _ _ _ _ H4).
  assert (Hc4 : forall q, plus (plus (one i) n 1) i (-1) q = one n q) by (intros q; unfold one, plus, none; repeat case_decide; lia).
  apply (names_ext _ _ _ _ _ Hc4) in Hn4.
  destruct (one_entry tab0 n s4 Hpos Hn4) as (z4 & Hz4 & Hz4r).
  { rewrite <- (nm_len _ _ _ _ Hn3). by eapply lookup_lt_Some. }
  assert (Hnum : i_inum z4 = de_inum de).
  { destruct (decide (n = i)) as [->|Hne]; [congruence|]. rewrite Hoth4 in Hz4 by done. congruence. }
  rewrite <- Hnum. exact (IH rest name' s4 n z4 Hnzr ltac:(lia) Hn4 Hz4 Hz4r).
Qed.

(** The first step: the root for absolute paths, the current directory for
    the others. *)
Lemma start_names s cwd cw (path : list Z) :
  names (itable s) none None s -> two_free (itable s) -> T ROOTINO -> itable s !! cwd = Some cw -> 0 < i_ref cw ->
  exists i s1 x, (if hd 0 path =? SLASH then iget ROOTDEV ROOTINO else idup cwd) s = Done i s1 /\
    names (itable s) (one i) None s1 /\ itable s1 !! i = Some x /\ 0 < i_ref x /\
    i_inum x = (if hd 0 path =? SLASH then ROOTINO else i_inum cw).
Proof.
  intros Hn Hfree HT Hcw Hr. destruct (hd 0 path =? SLASH).
  - destruct (two_free_other _ 0 Hfree) as (k & y & _ & Hk & Hy).
    destruct (iget_names (itable s) none None s ROOTINO k y Hn (fun _ => Z.le_refl 0) HT Hk Hy eq_refl) as (n & s1 & x & H1 & H2 & H3 & H4 & H5 & _).
    by exists n, s1, x.
  - unfold idup. rewrite (bind_Done _ _ _ _ _ (geti_eq s cwd cw Hcw)). set (x := set_ref (i_ref cw + 1) cw).
    exists cwd, (set_itable (<[cwd := x]> (itable s)) s), x. split; [done|].
    destruct (nm_entry _ _ _ _ Hn cwd cw Hcw) as [_ He].
    split; [|split; [apply list_lookup_insert_eq; by eapply lookup_lt_Some|split; [cbn; lia|done]]].
    apply (names_ext _ (plus none cwd (i_ref x - i_ref cw))).
    + intros k. unfold one, plus, x. cbn [i_ref set_ref]. case_decide; lia.
    + apply (names_put (itable s) none None None s cwd cw x); try done.
      * split; [cbn; lia|]. intros _. by apply He.
      * by apply (nm_lock _ _ _ _ Hn cwd cw).
Qed.

Lemma namei_spec (s : fs U) (cwd : nat) (cw : inode) (path name : list Z) :
  tree_ok -> names (itable s) none None s -> two_free (itable s) -> T ROOTINO ->
  itable s !! cwd = Some cw -> 0 < i_ref cw -> Forall (fun c => c <> 0) path ->
  exists r s', namei de_addr cwd path name s = Done r s' /\
    match walk_path sb0 v0 (if hd 0 path =? SLASH then ROOTINO else i_inum cw) (elements path) with
    | Some n => exists j z, r = Some j /\ itable s' !! j = Some z /\ i_inum z = n /\ names (itable s) (one j) None s'
    | None => r = None /\ names (itable s) none None s'
    end.
Proof.
  intros Ht Hn Hfree HT Hcw Hr Hp.
  destruct (start_names s cwd cw path Hn Hfree HT Hcw Hr) as (i & s1 & x & H1 & H2 & H3 & H4 & H5).
  assert (Hpos : forall k y, itable s !! k = Some y -> 0 <= i_ref y) by (intros k y Hy; apply (nm_entry _ _ _ _ Hn k y Hy)).
  destruct (namex_loop_spec (itable s) Ht Hfree Hpos (S (length path)) path name s1 i x Hp ltac:(lia) H2 H3 H4) as (r & nm' & s' & H6 & H7).
  exists r, s'. rewrite <- H5. split.
  - unfold namei. assert (Hx : namex de_addr cwd path false name s = Done (r, nm') s') by (unfold namex; by rewrite (bind_Done _ _ _ _ _ H1)).
    by rewrite (bind_Done _ _ _ _ _ Hx).
  - destruct (walk_path _ _ _ _) as [n|]; [|done]. destruct H7 as (j & z & -> & ? & ? & _ & ?). by exists j, z.
Qed.

(** C5: on a file system at rest (no inode locked, the table agreeing with the
    disk and two entries free), [namei] resolves a path exactly as the
    directory tree on disk says, starting from the root for absolute paths and
    from the current directory otherwise.  It returns the table entry of that
    inode with one new reference, or null when an element is missing or is not
    in a directory; every other reference is given back, every lock released,
    and the disk is not changed. *)
Theorem namei_resolves (s : fs U) (cwd : nat) (cw : inode) (path name : list Z) :
  tree_ok -> names (itable s) none None s -> two_free (itable s) -> T ROOTINO ->
  itable s !! cwd = Some cw -> 0 < i_ref cw -> Forall (fun c => c <> 0) path ->
  exists r s', namei de_addr cwd path name s = Done r s' /\
    match walk_path sb0 v0 (if hd 0 path =? SLASH then ROOTINO else i_inum cw) (elements path) with
    | Some n => exists j z, r = Some j /\ itable s' !! j = Some z /\ i_inum z = n /\ names (itable s) (one j) None s'
    | None => r = None /\ names (itable s) none None s'
    end.
Proof. apply namei_spec. Qed.
End Namex.

(** ** A root directory with one file *)

Definition root_dinode : dinode := mkdinode T_DIR 0 0 1 16 (34 :: replicate 12 0).
Definition file_dinode : dinode := mkdinode T_FILE 0 0 1 0 (replicate 13 0).
Definition root_block : block :=
  replicate 64 0 ++ dinode_bytes root_dinode ++ dinode_bytes file_dinode ++ replicate 832 0.
Definition root_view : Z -> block := updb (updb demo_view 34 (2 :: 0 :: 97 :: replicate 1021 0)) 32 root_block.
Definition root_tab : list inode := [mkinode ROOTDEV 1 1 false false (i_d inode0); inode0; inode0].
Definition root_fs : fs (list Z) :=
  mkfs demo_sb (mklog 2 30 1 false [] (mkbdev root_view root_view [] [])) root_tab ([], ramp) [].
Definition root_T (inum : Z) : Prop := inum = 1 \/ inum = 2.

Lemma root_disk : disk_inode demo_sb root_view 1 = root_dinode /\ disk_inode demo_sb root_view 2 = file_dinode.
Proof. split; vm_compute; reflexivity. Qed.
Lemma root_entries : dir_entries root_view root_dinode = [mkdirent 2 (97 :: replicate 13 0)].
Proof. vm_compute. reflexivity. Qed.

Lemma root_tree_ok : tree_ok demo_sb root_view root_T.
Proof.
  destruct root_disk as [E1 E2]. split.
  - intros inum [->| ->]; rewrite ?E1, ?E2; done.
  - intros inum [->| ->]; rewrite ?E1, ?E2; [|done]. intros _. split; [|done]. split; [done|].
    intros bn H0 Hlt. cbn [root_dinode d_size] in Hlt. unfold BSIZE in Hlt. assert (bn = 0) as -> by lia.
    split; [done|]. split; [done|].
    change (root_view (iblk root_view root_dinode 0)) with (2 :: 0 :: 97 :: replicate 1021 0).
    do 3 (apply Forall_cons; split; [lia|]). apply Forall_replicate. lia.
  - intros inum de [->| ->]; rewrite ?E1, ?E2; [|done]. rewrite root_entries, list_elem_of_singleton. intros _ -> _. by right.
Qed.

Lemma root_names : names demo_sb root_view root_T root_tab none None root_fs.
Proof.
  split; [done|done|split; [apply List.Forall_nil|exact ramp_ok]|done| | | |].
  - intros k x Hk. destruct k as [|[|[|k]]]; cbn in Hk; try discriminate Hk; injection Hk as <-; (split; [cbn; lia|]); cbn; intros; try lia.
    split; [done|]. split; [by left|done].
  - intros k x Hk. rewrite bool_decide_eq_false_2 by done.
    destruct k as [|[|[|k]]]; cbn in Hk; try discriminate Hk; by injection Hk as <-.
  - intros i j x y Hi Hj Hx Hy _ _.
    destruct i as [|[|[|i]]], j as [|[|[|j]]]; cbn in Hi, Hj; try discriminate Hi; try discriminate Hj;
      injection Hi as <-; injection Hj as <-; cbn in Hx, Hy; done || lia.
  - intros k x y Hx Hy. cbn [root_fs itable] in Hx. assert (x = y) as -> by congruence. unfold none. split; [lia|done].
Qed.

Lemma namei_resolves_witness :
  exists r s', namei 512 0 (bytes_of_string "/a") (replicate 14 0) root_fs = Done r s' /\
    exists j z, r = Some j /\ itable s' !! j = Some z /\ i_inum z = 2.
Proof.
  destruct (namei_resolves 512 ltac:(lia) ltac:(lia) demo_sb root_view root_T root_fs 0 (mkinode ROOTDEV 1 1 false false (i_d inode0)) (bytes_of_string "/a") (replicate 14 0)
    root_tree_ok root_names) as (r & s' & H1 & H2).
  - exists 1%nat, 2%nat, inode0, inode0. split_and!; done.
  - by left.
  - reflexivity.
  - cbn. lia.
  - repeat (apply Forall_cons; split; [done|]). apply List.Forall_nil.
  - exists r, s'. split; [exact H1|]. change (hd 0 (bytes_of_string "/a") =? SLASH) with true in H2.
    change (elements (bytes_of_string "/a")) with [[97]] in H2. cbn [walk_path] in H2. change ROOTINO with 1 in H2. destruct root_disk as [E1 E2].
    rewrite E1, root_entries in H2. cbn in H2.
    destruct H2 as (j & z & H3 & H4 & H5 & _). exists j, z. split_and!; done.
Defined.

Lemma iget_one_entry_per_inode_witness :
  exists i tab, iget ROOTDEV 7 root_fs = Done i (set_itable tab root_fs) /\ itable_uniq tab.
Proof.
  destruct (iget_one_entry_per_inode root_fs ROOTDEV 7 (nm_uniq _ _ _ _ _ _ _ root_names)) as [(i & y & x & tab & H1 & _ & _ & _ & _ & _ & _ & H2)|[_ H]].
  - intros k x Hk. apply (nm_entry _ _ _ _ _ _ _ root_names k x Hk).
  - exists i, tab. split; [exact H1|exact H2].
  - specialize (H 1%nat inode0 eq_refl). cbn in H. lia.
Defined.
