(* ===== verification/Mkfs.v ===== *)
(** * Making a file system image: [mkfs/mkfs.c]

    [mkfs] runs on the build machine.  Its state is the image file [img] (a
    block per sector; [nsect] sectors have been written, sectors that were
    skipped read as zeros), the super block and the counters [freeinode] and
    [freeblock].  The machine is little-endian, so [xint] and [xshort] read the
    converted bytes back as such.  Seeking and writing in the image file
    succeed, as on a regular file; reading past its end does not, and then
    [die] ends the program, which is the outcome [Panic], as is a failed
    [assert].  Messages are not part of the state.

    The files to copy come from the build machine: [host] says for each path
    whether [open] succeeds and what successive [read] calls return until the
    first that returns 0 or fails.  [MkfsImage.v] proves what is on the image. *)

From stdpp Require Import list_numbers.
From S2P Require Import Prelude CString Kalloc Vm UserMem Block Log Fs.

Definition NINODES : Z := 200.
Definition nbitmap : Z := FSSIZE / BPB + 1.
Definition ninodeblocks : Z := NINODES / IPB + 1.
Definition nlog : Z := LOGSIZE.
Definition nmeta : Z := 2 + nlog + ninodeblocks + nbitmap.
Definition nblocks : Z := FSSIZE - nmeta.

Definition zeroes : block := replicate (Z.to_nat BSIZE) 0.

Record image := mkimage {
  img : Z -> block;
  nsect : Z;
  isb : superblock;
  freeinode : Z;
  freeblock : Z
}.
Abbreviation W := (M image).

(** The globals before [main]. *)
Definition image0 : image := mkimage (fun _ => zeroes) 0 (mksb 0 0 0 0 0 0 0 0) 1 0.

(** ** Byte order *)

Definition xshort (x : Z) : Z := of_le [u8 x; u8 (Z.shiftr x 8)].
Definition xint (x : Z) : Z :=
  of_le [u8 x; u8 (Z.shiftr x 8); u8 (Z.shiftr x 16); u8 (Z.shiftr x 24)].

(** [struct superblock] in memory. *)
Definition sb_bytes (s : superblock) : list Z :=
  concat (le_bytes 4 <$> [sb_magic s; sb_size s; sb_nblocks s; sb_ninodes s;
                          sb_nlog s; sb_logstart s; sb_inodestart s; sb_bmapstart s]).

(** ** Sectors *)

(** The position is the [uint] product [sec * BSIZE]. *)
Definition sector (sec : Z) : Z := u32 (sec * BSIZE) / BSIZE.

Definition wsect (sec : Z) (buf : block) : W unit := modify (fun s =>
  mkimage (updb (img s) (sector sec) buf) (Z.max (nsect s) (sector sec + 1)) (isb s) (freeinode s) (freeblock s)).

Definition rsect (sec : Z) : W block := fun s =>
  if sector sec <? nsect s then Done (img s (sector sec)) s else Panic "read".

(** ** Inodes *)

Definition winode (inum : Z) (ip : dinode) : W unit :=
  let! s0 := gets isb in
  let bn := IBLOCK inum s0 in
  let! buf := rsect bn in
  wsect bn (splice (ioff inum) (dinode_bytes ip) buf).

Definition rinode (inum : Z) : W dinode :=
  let! s0 := gets isb in
  let bn := IBLOCK inum s0 in
  let! buf := rsect bn in
  ret (parse_dinode (take 64 (drop (ioff inum) buf))).

Definition ialloc (type : Z) : W Z :=
  let! inum := gets freeinode in
  modify (fun s => mkimage (img s) (nsect s) (isb s) (u32 (inum + 1)) (freeblock s)) ;;
  winode inum (mkdinode (s16 (xshort type)) 0 0 (s16 (xshort 1)) (xint 0) (replicate 13 0)) ;;
  ret inum.

(** ** The bitmap *)

(** The loop of [balloc]: [bit_set buf i] is
    [buf[i/8] = buf[i/8] | (0x1 << (i%8))]. *)
Definition used_bits (used : Z) : block := foldl bit_set zeroes (seqZ 0 used).

Definition balloc (used : Z) : W unit :=
  if used <? BPB then
    let! s0 := gets isb in
    wsect (sb_bmapstart s0) (used_bits used)
  else panic "used < BPB".

(** ** Appending to a file *)

(** [freeblock++] *)
Definition next_block : W Z := fun s =>
  Done (freeblock s) (mkimage (img s) (nsect s) (isb s) (freeinode s) (u32 (freeblock s + 1))).

(** [if(xint(din.addrs[k]) == 0) din.addrs[k] = xint(freeblock++);] *)
Definition need_addr (k : nat) (din : dinode) : W dinode :=
  if xint (nth k (d_addrs din) 0) =? 0 then
    let! b := next_block in ret (set_addr k (xint b) din)
  else ret din.

(** The sector [x] of file block [fbn]. *)
Definition file_sector (din : dinode) (fbn : Z) : W (dinode * Z) :=
  if fbn <? NDIRECT then
    let! din := need_addr (Z.to_nat fbn) din in
    ret (din, xint (nth (Z.to_nat fbn) (d_addrs din) 0))
  else
    let! din := need_addr (Z.to_nat NDIRECT) din in
    let ind := xint (nth (Z.to_nat NDIRECT) (d_addrs din) 0) in
    let j := Z.to_nat (fbn - NDIRECT) in
    let! indirect := rsect ind in
    let! indirect :=
      (if rd32 indirect j =? 0 then
         let! b := next_block in
         let indirect := wr32 indirect j (xint b) in
         wsect ind indirect ;; ret indirect
       else ret indirect) in
    ret (din, xint (rd32 indirect j)).

(** The loop of [iappend]; [p] is what is left to write. *)
Fixpoint iappend_loop (fuel : nat) (din : dinode) (off : Z) (p : list Z) : W (dinode * Z) :=
  match fuel with
  | O => ret (din, off)
  | S fuel' =>
      if 0 <? Z.of_nat (length p) then
        let fbn := off / BSIZE in
        if fbn <? MAXFILE then
          let! r := file_sector din fbn in
          let '(din, x) := r in
          let n1 := Z.min (Z.of_nat (length p)) ((fbn + 1) * BSIZE - off) in
          let! buf := rsect x in
          wsect x (splice (Z.to_nat (off - fbn * BSIZE)) (take (Z.to_nat n1) p) buf) ;;
          iappend_loop fuel' din (u32 (off + n1)) (drop (Z.to_nat n1) p)
        else panic "fbn < MAXFILE"
      else ret (din, off)
  end.

Definition iappend (inum : Z) (xp : list Z) : W unit :=
  let! din := rinode inum in
  let! r := iappend_loop (copy_fuel (Z.of_nat (length xp))) din (xint (d_size din)) xp in
  let '(din, off) := r in
  winode inum (set_size (xint off) din).

(** ** The program *)

(** [host path]: [None] when [open] fails, else the data of the [read] calls. *)
Definition host_fs : Type := list Z -> option (list (list Z)).

Definition USER : list Z := [117; 115; 101; 114; 47].     (* "user/" *)
Definition strip_user (arg : list Z) : list Z :=
  if strncmp_arr 5 arg USER =? 0 then drop 5 arg else arg.
Definition strip_underscore (shortname : list Z) : list Z :=
  if hd 0 shortname =? 95 then tl shortname else shortname.

(** One iteration of the loop over [argv[2..]]. *)
Definition add_file (host : host_fs) (rootino : Z) (arg : list Z) : W unit :=
  let shortname := strip_user arg in
  if bool_decide (SLASH ∈ shortname) then panic "index(shortname, '/') == 0"
  else
    match host arg with
    | None => panic "open"
    | Some reads =>
        let shortname := strip_underscore shortname in
        if (length shortname <=? DIRSIZ)%nat then
          let! inum := ialloc T_FILE in
          iappend rootino (dirent_bytes (mkdirent (xshort inum) (strncpy_arr DIRSIZ shortname))) ;;
          for_each (iappend inum) reads
        else panic "strlen(shortname) <= DIRSIZ"
    end.

Definition mkfs_sb : superblock :=
  mksb FSMAGIC (xint FSSIZE) (xint nblocks) (xint NINODES) (xint nlog) (xint 2)
    (xint (2 + nlog)) (xint (2 + nlog + ninodeblocks)).

Definition dot_name : list Z := 46 :: replicate 13 0.            (* strcpy(de.name, ".") *)
Definition dotdot_name : list Z := 46 :: 46 :: replicate 12 0.   (* strcpy(de.name, "..") *)

Definition fix_root_size (rootino : Z) : W unit :=
  let! din := rinode rootino in
  let off := xint (d_size din) in
  let off := u32 ((off / BSIZE + 1) * BSIZE) in
  winode rootino (set_size (xint off) din).

(** [can_open]: whether [open(argv[1], O_RDWR|O_CREAT|O_TRUNC)] succeeds. *)
Definition main (can_open : bool) (host : host_fs) (argv : list (list Z)) : W unit :=
  match argv with
  | _ :: _ :: files =>
      if negb (BSIZE mod 64 =? 0) || negb (BSIZE mod DIRENT =? 0) then panic "assert"
      else if negb can_open then panic "open"
      else
        modify (fun s => mkimage (img s) (nsect s) mkfs_sb (freeinode s) nmeta) ;;
        for_each (fun i => wsect i zeroes) (seqZ 0 FSSIZE) ;;
        wsect 1 (splice 0 (sb_bytes mkfs_sb) zeroes) ;;
        let! rootino := ialloc T_DIR in
        if negb (rootino =? ROOTINO) then panic "rootino == ROOTINO"
        else
          iappend rootino (dirent_bytes (mkdirent (xshort rootino) dot_name)) ;;
          iappend rootino (dirent_bytes (mkdirent (xshort rootino) dotdot_name)) ;;
          for_each (add_file host rootino) files ;;
          fix_root_size rootino ;;
          let! used := gets freeblock in
          balloc used
  | _ => panic "Usage: mkfs fs.img files..."
  end.
