(* ===== verification/MkfsFile.v ===== *)
(** * [mkfs]: the blocks of a file and [iappend]

    While [mkfs] runs, the bitmap is not on the image yet: the blocks in use
    are those below [freeblock].  [on_image s v] says that [v] is the image
    with the bitmap block that [balloc] will write, so that the relations of
    [FsInode.v] and [FsWrite.v] about the kernel's blocks and files apply to
    it.  [holds v d bs n] says that the first [n] blocks of inode [d] are there
    and hold [bs] followed by zeros. *)

From stdpp Require Import list_numbers.
From S2P Require Import Prelude CString Kalloc Vm VmOps UserMem Block Log Fs FsAlloc FsInode FsDinode FsFile FsWrite FsDir Mkfs.

Lemma mkfs_sb_eq : mkfs_sb = mksb FSMAGIC 2000 1954 200 30 2 32 45.
Proof. vm_compute. reflexivity. Qed.
Lemma mkfs_datastart : datastart mkfs_sb = 46.
Proof. vm_compute. reflexivity. Qed.
Lemma mkfs_bmap : sb_bmapstart mkfs_sb = 45.
Proof. vm_compute. reflexivity. Qed.
Lemma mkfs_size : sb_size mkfs_sb = 2000.
Proof. vm_compute. reflexivity. Qed.
Lemma FSSIZE_eq : FSSIZE = 2000.
Proof. reflexivity. Qed.
Lemma zeroes_ok : block_ok zeroes.
Proof. split; [unfold bsize, zeroes; by rewrite length_replicate|]. by apply Forall_replicate. Qed.

Lemma xint_small x : 0 <= x < 2 ^ 32 -> xint x = x.
Proof.
  intros Hx. unfold xint, u8. rewrite !Z.shiftr_div_pow2 by done. 
  transitivity (of_le (le_bytes 4 x)); [|by apply of_le_le_bytes_small].
  cbn [le_bytes]. by rewrite ?Z.div_div by done.
Qed.
Lemma xshort_small x : 0 <= x < 2 ^ 16 -> xshort x = x.
Proof.
  intros Hx. unfold xshort, u8. rewrite !Z.shiftr_div_pow2 by done. 
  transitivity (of_le (le_bytes 2 x)); [|by apply of_le_le_bytes_small].
  cbn [le_bytes]. by rewrite ?Z.div_div by done.
Qed.

Lemma sector_small b : 0 <= b < 2 ^ 22 -> sector b = b.
Proof. intros Hb. unfold sector. rewrite u32_small by (unfold BSIZE; lia). by apply Z.div_mul. Qed.

(** ** The bitmap that [balloc] writes *)

Lemma used_bits_succ n : 0 <= n -> used_bits (n + 1) = bit_set (used_bits n) n.
Proof.
  intros Hn. unfold used_bits. rewrite seqZ_app by lia. rewrite foldl_app, Z.add_0_l. reflexivity.
Qed.

Lemma used_bits_spec n : (Z.of_nat n <= BPB) ->
  block_ok (used_bits (Z.of_nat n)) /\
  forall b, 0 <= b < BPB -> bit_test (used_bits (Z.of_nat n)) b = (b <? Z.of_nat n).
Proof.
  rewrite BPB_eq. induction n as [|n IH]; intros Hn.
  - split; [exact zeroes_ok|]. intros b Hb. change (used_bits (Z.of_nat 0)) with zeroes.
    destruct (Z.ltb_spec b (Z.of_nat 0)); [lia|]. unfold bit_test.
    rewrite nth_lookup. unfold zeroes. destruct (replicate _ 0 !! _) as [x|] eqn:Hx; [|done].
    apply lookup_replicate in Hx as [-> _]. done.
  - destruct IH as [[IH1 IH2] IH3]; [lia|]. replace (Z.of_nat (S n)) with (Z.of_nat n + 1) by lia.
    rewrite used_bits_succ by lia. split; [split; [by apply bit_set_size|by apply bit_set_bytes]|].
    intros b Hb. rewrite bit_set_spec by (rewrite ?BPB_eq; done || lia). rewrite IH3 by done.
    destruct (Z.eqb_spec b (Z.of_nat n)), (Z.ltb_spec b (Z.of_nat n)), (Z.ltb_spec b (Z.of_nat n + 1)); done || lia.
Qed.

(** ** The image with its bitmap *)

Record on_image (s : image) (v : Z -> block) : Prop := {
  oi_sb : isb s = mkfs_sb;
  oi_nsect : nsect s = FSSIZE;
  oi_free : 46 <= freeblock s <= FSSIZE;
  oi_bits : v 45 = used_bits (freeblock s);
  oi_img x : x <> 45 -> img s x = v x;
  oi_zero b : freeblock s <= b < FSSIZE -> v b = zeroes;
  oi_blocks : blocks_ok v
}.

Section OnImage.
Context (s : image) (v : Z -> block) (Hs : on_image s v).

Lemma used_allocated b : 0 <= b < FSSIZE -> allocated mkfs_sb v b = (b <? freeblock s).
Proof.
  rewrite FSSIZE_eq. intros Hb. unfold allocated, BBLOCK. rewrite mkfs_bmap, BPB_eq, Z.div_small, Z.mod_small by lia.
  change (0 + 45) with 45. rewrite (oi_bits _ _ Hs). pose proof (oi_free _ _ Hs) as Hf. rewrite FSSIZE_eq in Hf.
  rewrite <- (Z2Nat.id (freeblock s)) by lia. apply used_bits_spec; rewrite BPB_eq; lia.
Qed.

Lemma image_bitmap : bitmap_ok mkfs_sb v.
Proof.
  assert (HB : forall b, 0 <= b < sb_size mkfs_sb -> BBLOCK b mkfs_sb = 45).
  { rewrite mkfs_size. intros b Hb. unfold BBLOCK. by rewrite mkfs_bmap, BPB_eq, Z.div_small by lia. }
  split; rewrite ?mkfs_bmap; try (rewrite ?mkfs_size; lia).
  - intros b Hb. apply (oi_blocks _ _ Hs).
  - intros b Hb. apply (oi_blocks _ _ Hs).
  - rewrite mkfs_datastart, mkfs_size. intros b Hb Hlt. rewrite used_allocated by (rewrite FSSIZE_eq; lia).
    pose proof (oi_free _ _ Hs). apply Z.ltb_lt. lia.
Qed.

End OnImage.

Section Sectors.
Context (s : image) (v : Z -> block) (Hs : on_image s v).

Lemma rsect_spec x : 0 <= x < FSSIZE -> x <> 45 -> rsect x s = Done (v x) s.
Proof.
  rewrite FSSIZE_eq. intros Hx Hne. unfold rsect. rewrite sector_small by lia. rewrite (oi_nsect _ _ Hs), FSSIZE_eq.
  destruct (Z.ltb_spec x 2000); [|lia]. by rewrite (oi_img _ _ Hs).
Qed.

Lemma wsect_spec x d : 0 <= x < freeblock s -> x <> 45 -> block_ok d ->
  exists s', wsect x d s = Done tt s' /\ on_image s' (updb v x d) /\
    freeblock s' = freeblock s /\ freeinode s' = freeinode s.
Proof.
  intros Hx Hne Hd. pose proof Hs as [H1 H2 H3 H4 H5 H6 H7]. rewrite FSSIZE_eq in H3.
  eexists. split; [reflexivity|]. split; [|done]. rewrite sector_small by lia. split; cbn [isb nsect freeblock img].
  - done.
  - rewrite H2, FSSIZE_eq. lia.
  - rewrite FSSIZE_eq. lia.
  - by rewrite updb_ne.
  - intros y Hy. unfold updb. destruct (y =? x); [done|by apply H5].
  - intros b Hb. rewrite updb_ne by lia. by apply H6.
  - intros b. unfold updb. by destruct (b =? x).
Qed.

Lemma next_block_spec : freeblock s < FSSIZE ->
  exists s' v', next_block s = Done (freeblock s) s' /\ on_image s' v' /\ took mkfs_sb v v' (freeblock s) /\
    freeblock s' = freeblock s + 1 /\ freeinode s' = freeinode s.
Proof.
  intros Hlt. pose proof Hs as [H1 H2 H3 H4 H5 H6 H7]. rewrite FSSIZE_eq in *.
  set (v' := updb v 45 (used_bits (freeblock s + 1))).
  set (s' := mkimage (img s) (nsect s) (isb s) (freeinode s) (u32 (freeblock s + 1))).
  assert (Hf : freeblock s' = freeblock s + 1) by (cbn; apply u32_small; lia).
  assert (Hs' : on_image s' v').
  { split; rewrite ?Hf, ?FSSIZE_eq; cbn [isb nsect img]; try done.
    - lia.
    - intros x Hx. unfold v'. rewrite updb_ne by done. by apply H5.
    - intros b Hb. unfold v'. rewrite updb_ne by lia. apply H6. lia.
    - intros b. unfold v', updb. destruct (b =? 45); [|done].
      rewrite <- (Z2Nat.id (freeblock s + 1)) by lia. apply used_bits_spec. rewrite BPB_eq. lia. }
  exists s', v'. split; [reflexivity|]. split; [done|]. split; [|done].
  split; rewrite ?mkfs_datastart, ?mkfs_size, ?mkfs_bmap.
  - lia.
  - rewrite (used_allocated s v Hs) by (rewrite FSSIZE_eq; lia). apply Z.ltb_irrefl.
  - intros b Hb. rewrite (used_allocated s' v' Hs'), (used_allocated s v Hs), Hf by (rewrite ?FSSIZE_eq; lia).
    destruct (Z.eqb_spec b (freeblock s)), (Z.ltb_spec b (freeblock s + 1)), (Z.ltb_spec b (freeblock s)); done || lia.
  - unfold v'. rewrite updb_ne by lia. apply H6. lia.
  - intros x _ Hx. unfold v'. apply updb_ne. lia.
  - by apply (image_bitmap s').
Qed.
End Sectors.

(** ** Files under construction *)

(** The first [n] blocks of inode [d] are there, and its indirect block if
    [ind]; they hold [bs] and then zeros. *)
Record holds (v : Z -> block) (d : dinode) (bs : list Z) (n : Z) (ind : bool) : Prop := {
  hd_ok : inode_ok mkfs_sb v d;
  hd_max : 0 <= n <= MAXFILE;
  hd_len : Z.of_nat (length bs) <= n * BSIZE;
  hd_map bn : 0 <= bn < MAXFILE -> iblk v d bn <> 0 <-> bn < n;
  hd_ind : slot v d 12 <> 0 <-> ind = true;
  hd_byte o : 0 <= o < n * BSIZE -> file_byte v d o = nth (Z.to_nat o) bs 0
}.

Lemma slot_small v d k : inode_ok mkfs_sb v d -> (k < NSLOT)%nat -> 0 <= nth k (d_addrs d) 0 < 2 ^ 32 \/ (13 <= k)%nat.
Proof.
  intros Hok Hk. destruct (decide (k < 13)%nat); [left|right; lia]. rewrite <- (slot_lt13 v) by done.
  destruct (decide (slot v d k = 0)) as [->|Hn]; [lia|]. destruct (io_data _ _ _ Hok k Hk Hn) as [Hr _].
  rewrite mkfs_datastart, mkfs_size in Hr. lia.
Qed.
Lemma xint_addr v d k : inode_ok mkfs_sb v d -> (k < 13)%nat -> xint (nth k (d_addrs d) 0) = slot v d k.
Proof.
  intros Hok Hk. rewrite slot_lt13 by done. apply xint_small.
  destruct (slot_small v d k Hok) as [?|?]; [unfold NSLOT; lia|done|lia].
Qed.

(** A data block is below [freeblock]. *)
Lemma slot_used s v d k : on_image s v -> inode_ok mkfs_sb v d -> (k < NSLOT)%nat -> slot v d k <> 0 ->
  46 <= slot v d k < freeblock s.
Proof.
  intros Hs Hok Hk Hn. destruct (io_data _ _ _ Hok k Hk Hn) as [Hr Ha]. rewrite mkfs_datastart, mkfs_size in Hr.
  rewrite (used_allocated s v Hs) in Ha by (rewrite FSSIZE_eq; lia). apply Z.ltb_lt in Ha. lia.
Qed.

(** One block more: no other slot gets a block. *)
Section GrowOne.
Context (s s1 : image) (v v1 : Z -> block) (d d1 : dinode) (k0 : nat).
Context (Hs : on_image s v) (Hs1 : on_image s1 v1) (Hf : freeblock s1 = freeblock s + 1).
Context (Hg : grew mkfs_sb v d v1 d1) (Hk0 : (k0 < NSLOT)%nat) (Hr : slot v1 d1 k0 = freeblock s).

Lemma grow_one_slots k : (k < NSLOT)%nat -> k <> k0 -> slot v1 d1 k = slot v d k.
Proof.
  intros Hk Hne. pose proof (gw_ev _ _ _ _ _ Hg) as He. destruct (decide (slot v d k = 0)) as [H0|H0]; [|by apply (ev_keep _ _ _ _ _ He)].
  destruct (decide (slot v1 d1 k = 0)) as [H1|H1]; [congruence|]. exfalso. apply Hne.
  pose proof (slot_used s1 v1 d1 k Hs1 (ev_ok _ _ _ _ _ He) Hk H1) as Hu.
  destruct (ev_fresh _ _ _ _ _ He k Hk H1) as [?|Ha]; [congruence|]. pose proof (oi_free _ _ Hs1) as Hf1.
  rewrite (used_allocated s v Hs) in Ha by lia. apply Z.ltb_ge in Ha.
  apply (io_inj _ _ _ (ev_ok _ _ _ _ _ He)); [done|done|done|lia].
Qed.

(** The next block of the file, still empty. *)
Lemma holds_grow bs n ind ind1 :
  holds v d bs n ind -> n < MAXFILE -> k0 = bslot n -> v1 (freeblock s) = zeroes ->
  (slot v1 d1 12 <> 0 <-> ind1 = true) -> holds v1 d1 bs (n + 1) ind1.
Proof.
  intros [H1 H2 H3 H4 H5 H6] Hn Hk Hz Hind. pose proof (gw_ev _ _ _ _ _ Hg) as He. pose proof (oi_free _ _ Hs) as Hfr.
  assert (Hm : forall bn, 0 <= bn < MAXFILE -> iblk v1 d1 bn = if bn =? n then freeblock s else iblk v d bn).
  { intros bn Hbn. destruct (Z.eqb_spec bn n) as [->|Hne]; [unfold iblk; by rewrite <- Hk|].
    apply grow_one_slots; [by apply bslot_lt|]. rewrite Hk. intros E. apply Hne. apply bslot_inj; [lia|lia|done]. }
  split; [by apply (ev_ok _ _ _ _ _ He)|lia| | |done|].
  - unfold BSIZE in *. lia.
  - intros bn Hbn. rewrite Hm by done. destruct (Z.eqb_spec bn n); [lia|]. rewrite H4 by done. lia.
  - intros o Ho. assert (Hob : 0 <= o < MAXFILE * BSIZE) by (unfold BSIZE in *; lia). pose proof (offset_block o Hob) as Hbn.
    pose proof (Z.div_mod o BSIZE ltac:(done)). pose proof (Z.mod_pos_bound o BSIZE ltac:(done)). unfold file_byte.
    rewrite Hm by done. destruct (Z.eqb_spec (o / BSIZE) n) as [En|En].
    + rewrite Hz. rewrite (nth_overflow bs) by (unfold BSIZE in *; lia).
      rewrite nth_lookup. unfold zeroes. destruct (replicate _ 0 !! _) as [x|] eqn:Hx; [|done]. by apply lookup_replicate in Hx as [-> _].
    + assert (Hlt : 0 <= o < n * BSIZE) by (unfold BSIZE in *; lia). rewrite <- (H6 o Hlt). unfold file_byte.
      assert (Hmap : iblk v d (o / BSIZE) <> 0) by (apply H4; [done|unfold BSIZE in *; lia]).
      f_equal. apply (gw_data _ _ _ _ _ Hg); [by apply bslot_lt|apply bslot_ne12; lia|done].
Qed.

(** The indirect block, still without entries. *)
Lemma holds_indirect bs n : holds v d bs n false -> k0 = 12%nat -> holds v1 d1 bs n true.
Proof.
  intros [H1 H2 H3 H4 H5 H6] Hk. pose proof (gw_ev _ _ _ _ _ Hg) as He. pose proof (oi_free _ _ Hs) as Hfr.
  assert (Hm : forall bn, 0 <= bn < MAXFILE -> iblk v1 d1 bn = iblk v d bn).
  { intros bn Hbn. apply grow_one_slots; [by apply bslot_lt|]. rewrite Hk. apply bslot_ne12. lia. }
  split; [by apply (ev_ok _ _ _ _ _ He)|done|done| | |].
  - intros bn Hbn. rewrite Hm by done. by apply H4.
  - rewrite <- Hk, Hr. split; [done|lia].
  - intros o Ho. rewrite <- (H6 o Ho). assert (Hob : 0 <= o < MAXFILE * BSIZE) by (unfold BSIZE in *; lia).
    pose proof (offset_block o Hob) as Hbn. unfold file_byte. rewrite Hm by done. f_equal.
    assert (Hmap : iblk v d (o / BSIZE) <> 0).
    { apply H4; [done|]. pose proof (Z.div_mod o BSIZE ltac:(done)). pose proof (Z.mod_pos_bound o BSIZE ltac:(done)). unfold BSIZE in *. lia. }
    apply (gw_data _ _ _ _ _ Hg); [by apply bslot_lt|apply bslot_ne12; lia|done].
Qed.
End GrowOne.

(** ** Finding or adding a block *)

Lemma need_addr_old s v d k : inode_ok mkfs_sb v d -> (k < 13)%nat -> slot v d k <> 0 -> need_addr k d s = Done d s.
Proof.
  intros Hok Hk Hn. unfold need_addr. rewrite (xint_addr v) by done. by destruct (Z.eqb_spec (slot v d k) 0).
Qed.

Lemma need_addr_new s v d k : on_image s v -> inode_ok mkfs_sb v d -> (k < 13)%nat -> slot v d k = 0 -> freeblock s < FSSIZE ->
  exists s1 v1 d1, need_addr k d s = Done d1 s1 /\ on_image s1 v1 /\ grew mkfs_sb v d v1 d1 /\
    slot v1 d1 k = freeblock s /\ v1 (freeblock s) = zeroes /\ freeblock s1 = freeblock s + 1 /\ freeinode s1 = freeinode s.
Proof.
  intros Hs Hok Hk H0 Hlt. destruct (next_block_spec s v Hs Hlt) as (s1 & v1 & H1 & Hs1 & Ht & Hf & Hi).
  pose proof (oi_free _ _ Hs) as Hfr. rewrite FSSIZE_eq in *. pose proof (image_bitmap s v Hs) as Hbm.
  exists s1, v1, (set_addr k (freeblock s) d). split.
  { unfold need_addr. rewrite (xint_addr v), H0 by done. cbn [Z.eqb]. rewrite (bind_Done _ _ _ _ _ H1), xint_small by lia. done. }
  split; [done|]. split; [by apply grew_set_addr|]. split; [|split; [apply (tk_zero _ _ _ _ Ht)|done]].
  rewrite (slots_set_addr mkfs_sb v v1 d (freeblock s) k) by (done || (unfold NSLOT; lia)). by rewrite decide_True.
Qed.

(** Blocks on disk of a file of [n] blocks, with its indirect block. *)
Definition ndisk (n : Z) : Z := n + (if 12 <? n then 1 else 0).

(** The entry of the indirect block. *)
Lemma entry_spec s v d bs n fbn : on_image s v -> holds v d bs n true -> 12 <= fbn <= n -> fbn < MAXFILE ->
  (fbn = n -> freeblock s < FSSIZE) ->
  exists s1 v1, (let! indirect := rsect (slot v d 12) in
      let! indirect :=
        (if rd32 indirect (Z.to_nat (fbn - 12)) =? 0 then
           let! b := next_block in
           let indirect := wr32 indirect (Z.to_nat (fbn - 12)) (xint b) in
           wsect (slot v d 12) indirect ;; ret indirect
         else ret indirect) in
      ret (d, xint (rd32 indirect (Z.to_nat (fbn - 12))))) s = Done (d, iblk v1 d fbn) s1 /\
    on_image s1 v1 /\ evolved mkfs_sb v d v1 d /\ holds v1 d bs (Z.max n (fbn + 1)) true /\
    freeblock s1 = freeblock s + (Z.max n (fbn + 1) - n) /\ freeinode s1 = freeinode s.
Proof.
  intros Hs Hh Hb Hm Hroom. pose proof Hh as [Hok H2 H3 H4 H5 H6]. pose proof (image_bitmap s v Hs) as Hbm. pose proof (oi_free _ _ Hs) as Hfr.
  assert (Hind : slot v d 12 <> 0) by (by apply H5). pose proof (slot_used s v d 12 Hs Hok ltac:(unfold NSLOT; lia) Hind) as Hu.
  rewrite (bind_Done _ _ _ _ _ (rsect_spec s v Hs (slot v d 12) ltac:(lia) ltac:(lia))). set (j := Z.to_nat (fbn - 12)).
  change MAXFILE with 268 in *.
  assert (Hbs : bslot fbn = (13 + j)%nat) by (unfold bslot, j; destruct (Z.ltb_spec fbn 12); lia).
  assert (Hslot : forall w, slot w d 12 = slot v d 12 -> slot w d (13 + j) = rd32 (w (slot v d 12)) j).
  { intros w E. rewrite slot_ge13, E by lia. destruct (Z.eqb_spec (slot v d 12) 0); [done|]. f_equal. lia. }
  rewrite <- (Hslot v eq_refl), <- Hbs. change (slot v d (bslot fbn)) with (iblk v d fbn).
  destruct (Z.eqb_spec (iblk v d fbn) 0) as [H0|H0].
  - assert (fbn = n) as ->. { destruct (decide (fbn < n)) as [Hlt|]; [|lia]. apply (H4 fbn) in Hlt; [done|change MAXFILE with 268; lia]. }
    destruct (next_block_spec s v Hs (Hroom eq_refl)) as (s1 & v1 & K1 & Hs1 & Ht & Hf & Hi). rewrite bind_assoc, (bind_Done _ _ _ _ _ K1).
    assert (Hj : (j < 256)%nat) by (unfold j; lia).
    assert (H0' : slot v d (13 + j) = 0) by (by rewrite <- Hbs).
    destruct (grew_set_entry mkfs_sb v v1 d (freeblock s) j Hbm Hok Ht Hj Hind H0') as (Hg & Hsl & Hz).
    rewrite xint_small by (rewrite FSSIZE_eq in *; lia). set (y := wr32 (v (slot v d 12)) j (freeblock s)) in *.
    assert (Hy : block_ok y) by (apply wr32_ok; [done|apply (oi_blocks _ _ Hs)]).
    destruct (wsect_spec s1 v1 Hs1 (slot v d 12) y ltac:(lia) ltac:(lia) Hy) as (s2 & K2 & Hs2 & Hf2 & Hi2).
    rewrite bind_assoc, (bind_Done _ _ _ _ _ K2), bind_ret. exists s2, (updb v1 (slot v d 12) y).
    assert (Hrd : rd32 y j = freeblock s) by (rewrite Hslot, updb_eq in Hsl by done; exact Hsl).
    split.
    { rewrite Hrd, xint_small by (rewrite FSSIZE_eq in *; lia). unfold ret, iblk. by rewrite Hbs, Hsl. }
    split; [done|]. split; [by apply (gw_ev _ _ _ _ _ Hg)|]. rewrite Z.max_r by lia. split; [|split; [lia|congruence]].
    apply (holds_grow s s2 v _ d d (bslot n) Hs Hs2 ltac:(lia) Hg) with (ind := true); try done.
    + apply bslot_lt. change MAXFILE with 268. lia.
    + by rewrite Hbs.
  - rewrite bind_ret. exists s, v.
    assert (Hlt : fbn < n) by (apply H4; [change MAXFILE with 268; lia|done]).
    pose proof (slot_used s v d (bslot fbn) Hs Hok ltac:(apply bslot_lt; change MAXFILE with 268; lia) H0) as Hu2.
    split; [rewrite <- (Hslot v eq_refl), <- Hbs, xint_small by (rewrite FSSIZE_eq in *; lia); done|].
    split; [done|]. split; [by apply evolved_refl|]. rewrite Z.max_l by lia. split; [done|]. split; [lia|done].
Qed.

Lemma file_sector_spec s v d bs n fbn : on_image s v -> holds v d bs n (12 <? n) -> 0 <= fbn <= n -> fbn < MAXFILE ->
  (fbn = n -> freeblock s + ndisk (n + 1) - ndisk n <= FSSIZE) ->
  exists s1 v1 d1, file_sector d fbn s = Done (d1, iblk v1 d1 fbn) s1 /\ on_image s1 v1 /\ evolved mkfs_sb v d v1 d1 /\
    holds v1 d1 bs (Z.max n (fbn + 1)) (12 <? Z.max n (fbn + 1)) /\
    freeblock s1 = freeblock s + ndisk (Z.max n (fbn + 1)) - ndisk n /\ freeinode s1 = freeinode s.
Proof.
  intros Hs Hh Hb Hm Hroom. pose proof Hh as [Hok H2 H3 H4 H5 H6]. pose proof (image_bitmap s v Hs) as Hbm.
  unfold file_sector. change NDIRECT with 12. destruct (Z.ltb_spec fbn 12) as [Hlt|Hge].
  - assert (Hbs : bslot fbn = Z.to_nat fbn) by (unfold bslot; by destruct (Z.ltb_spec fbn 12); [|lia]).
    assert (Hk : (Z.to_nat fbn < 13)%nat) by lia.
    destruct (decide (fbn < n)) as [Hfn|Hfn].
    + assert (Hn : iblk v d fbn <> 0) by (by apply H4; [lia|]). unfold iblk in Hn. rewrite Hbs in Hn.
      rewrite (bind_Done _ _ _ _ _ (need_addr_old s v d _ Hok Hk Hn)), (xint_addr v) by done.
      exists s, v, d. unfold iblk. rewrite Hbs. rewrite Z.max_l by lia. split; [done|]. split; [done|].
      split; [by apply evolved_refl|]. split; [done|]. split; [lia|done].
    + assert (fbn = n) as -> by lia. unfold ndisk in *. destruct (Z.ltb_spec 12 n); [lia|].
      destruct (Z.ltb_spec 12 (n + 1)) as [|_]; [lia|].
      assert (H0 : slot v d (Z.to_nat n) = 0).
      { destruct (decide (iblk v d n = 0)) as [E|E]; [unfold iblk in E; by rewrite Hbs in E|]. apply H4 in E; [lia|lia]. }
      destruct (need_addr_new s v d _ Hs Hok Hk H0) as (s1 & v1 & d1 & K1 & Hs1 & Hg & Hsl & Hz & Hf & Hi); [lia|].
      rewrite (bind_Done _ _ _ _ _ K1). pose proof (gw_ev _ _ _ _ _ Hg) as He. rewrite (xint_addr v1) by (done || apply (ev_ok _ _ _ _ _ He)).
      exists s1, v1, d1. unfold iblk. rewrite Hbs, Z.max_r by lia. split; [done|]. split; [done|]. split; [done|].
      destruct (Z.ltb_spec 12 (n + 1)); [lia|]. split; [|split; [lia|done]].
      assert (Hkn : (Z.to_nat n < NSLOT)%nat) by (unfold NSLOT; lia).
      apply (holds_grow s s1 v v1 d d1 (Z.to_nat n) Hs Hs1 Hf Hg Hkn Hsl bs n false); try done.
      rewrite (grow_one_slots s s1 v v1 d d1 (Z.to_nat n)); try done; [unfold NSLOT; lia|lia].
  - change (Z.to_nat 12) with 12%nat. unfold ndisk in *.
    destruct (Z.ltb_spec 12 n) as [Hn|Hn].
    + assert (Hind : slot v d 12 <> 0) by (by apply H5).
      rewrite (bind_Done _ _ _ _ _ (need_addr_old s v d 12 Hok ltac:(lia) Hind)), (xint_addr v) by (done || lia).
      destruct (entry_spec s v d bs n fbn Hs Hh ltac:(lia) Hm) as (s1 & v1 & K1 & Hs1 & He & Hh1 & Hf & Hi).
      { intros E. specialize (Hroom E). destruct (Z.ltb_spec 12 (n + 1)); lia. }
      exists s1, v1, d. destruct (Z.ltb_spec 12 (Z.max n (fbn + 1))); [|lia]. do 4 (split; [done|]). split; [lia|done].
    + assert (fbn = 12 /\ n = 12) as [-> ->] by lia. specialize (Hroom eq_refl). change (12 <? 12 + 1) with true in Hroom. cbv iota in Hroom.
      assert (H0 : slot v d 12 = 0) by (destruct (decide (slot v d 12 = 0)) as [|E]; [done|by apply H5 in E]).
      destruct (need_addr_new s v d 12 Hs Hok ltac:(lia) H0) as (s1 & v1 & d1 & K1 & Hs1 & Hg & Hsl & Hz & Hf & Hi); [lia|].
      rewrite (bind_Done _ _ _ _ _ K1). pose proof (gw_ev _ _ _ _ _ Hg) as He. rewrite (xint_addr v1) by (apply (ev_ok _ _ _ _ _ He) || lia).
      pose proof (holds_indirect s s1 v v1 d d1 12 Hs Hs1 Hf Hg ltac:(unfold NSLOT; lia) Hsl bs 12 Hh eq_refl) as Hh1.
      destruct (entry_spec s1 v1 d1 bs 12 12 Hs1 Hh1 ltac:(lia) Hm) as (s2 & v2 & K2 & Hs2 & He2 & Hh2 & Hf2 & Hi2); [lia|].
      exists s2, v2, d1. split; [done|]. split; [done|]. split; [by eapply evolved_trans|]. split; [done|]. split; [|congruence].
      change (Z.max 12 (12 + 1)) with 13 in *. change (12 <? 13) with true. cbv iota. lia.
Qed.

(** ** Appending bytes *)

Definition is_byte (b : Z) : Prop := 0 <= b < 256.

(** Storing [c] after [bs], inside a block that is there. *)
Lemma holds_write v d bs n ind c : blocks_ok v -> bitmap_ok mkfs_sb v -> holds v d bs n ind ->
  let off := Z.of_nat (length bs) in
  off / BSIZE < n -> off mod BSIZE + Z.of_nat (length c) <= BSIZE -> Forall is_byte c ->
  let v' := updb v (iblk v d (off / BSIZE)) (splice (Z.to_nat (off mod BSIZE)) c (v (iblk v d (off / BSIZE)))) in
  holds v' d (bs ++ c) n ind /\ evolved mkfs_sb v d v' d.
Proof.
  intros Hblk Hbm [H1 H2 H3 H4 H5 H6] off Hlt Hc Hbc v'. assert (Hoff : 0 <= off) by (unfold off; lia).
  pose proof (Z.div_mod off BSIZE ltac:(done)) as Hdm. pose proof (Z.mod_pos_bound off BSIZE ltac:(done)) as Hmb.
  pose proof (Z.div_pos off BSIZE Hoff ltac:(done)) as Hq.
  assert (Hmax : 0 <= off < MAXFILE * BSIZE) by (unfold BSIZE in *; lia). pose proof (offset_block off Hmax) as Hbn.
  assert (Hne : iblk v d (off / BSIZE) <> 0) by (by apply H4).
  pose proof (wrote_data mkfs_sb v d off c Hbm H1 Hmax Hc Hne (Hblk _) Hbc) as Hw. fold v' in Hw. destruct Hw as [He _ Hb].
  assert (Hs : forall k, (k < NSLOT)%nat -> slot v' d k = slot v d k).
  { apply (data_slots mkfs_sb v d (bslot (off / BSIZE)) _ H1); [by apply bslot_lt|apply bslot_ne12; lia]. }
  split; [|done]. split; [apply (ev_ok _ _ _ _ _ He)|done| | | |].
  - rewrite length_app. unfold off, BSIZE in *. lia.
  - intros bn Hn. unfold iblk. rewrite Hs by (by apply bslot_lt). by apply H4.
  - rewrite Hs by (unfold NSLOT; lia). done.
  - intros o Ho. assert (Hom : 0 <= o < MAXFILE * BSIZE) by (unfold BSIZE in *; lia).
    assert (Hmap : iblk v d (o / BSIZE) <> 0).
    { apply H4; [by apply offset_block|]. apply Z.div_lt_upper_bound; [done|]. unfold BSIZE in *. lia. }
    rewrite (Hb o Hom (or_intror Hmap)), (H6 o Ho). destruct (in_range o off c) eqn:Hr.
    + apply in_range_iff in Hr. rewrite app_nth2 by (unfold off in *; lia). f_equal. unfold off. lia.
    + apply not_true_iff_false in Hr. rewrite in_range_iff in Hr. destruct (Z.lt_ge_cases o off).
      * by rewrite app_nth1 by (unfold off in *; lia).
      * rewrite !nth_overflow by (rewrite ?length_app; unfold off in *; lia). done.
Qed.

(** Blocks of a file of [len] bytes. *)
Definition nblk (len : Z) : Z := (len + BSIZE - 1) / BSIZE.

Lemma nblk_chunk len m : 0 <= len -> 0 < m -> len mod BSIZE + m <= BSIZE ->
  nblk (len + m) = len / BSIZE + 1 /\ len / BSIZE <= nblk len <= len / BSIZE + 1.
Proof.
  intros Hl Hm Hle. unfold nblk. pose proof (Z.div_mod len BSIZE ltac:(done)). pose proof (Z.mod_pos_bound len BSIZE ltac:(done)).
  unfold BSIZE in *. split; [symmetry; apply (Z.div_unique _ _ _ (len mod 1024 + m - 1)); lia|].
  split; [apply Z.div_le_lower_bound; lia|]. apply Z.lt_succ_r, Z.div_lt_upper_bound; lia.
Qed.
Lemma nblk_mono a b : a <= b -> nblk a <= nblk b.
Proof. intros H. apply Z.div_le_mono; [done|lia]. Qed.
Lemma ndisk_mono a b : a <= b -> ndisk a <= ndisk b.
Proof. intros H. unfold ndisk. destruct (Z.ltb_spec 12 a), (Z.ltb_spec 12 b); lia. Qed.

(** Blocks in use for [bs]. *)
Definition dblk (bs : list Z) : Z := ndisk (nblk (Z.of_nat (length bs))).
(** [d] is a file with contents [bs]. *)
Definition is_file (v : Z -> block) (d : dinode) (bs : list Z) : Prop :=
  let n := nblk (Z.of_nat (length bs)) in holds v d bs n (12 <? n).

Lemma iappend_loop_spec : forall fuel s v d bs p,
  on_image s v -> is_file v d bs -> Forall is_byte p ->
  Z.of_nat (length bs + length p) <= MAXFILE * BSIZE ->
  freeblock s + dblk (bs ++ p) - dblk bs <= FSSIZE ->
  (p = [] \/ Z.of_nat (length bs) mod BSIZE + Z.of_nat (length p) <= Z.of_nat fuel * BSIZE) ->
  exists s' v' d', iappend_loop fuel d (Z.of_nat (length bs)) p s = Done (d', Z.of_nat (length bs + length p)) s' /\
    on_image s' v' /\ evolved mkfs_sb v d v' d' /\ is_file v' d' (bs ++ p) /\
    freeblock s' = freeblock s + dblk (bs ++ p) - dblk bs /\ freeinode s' = freeinode s.
Proof.
  induction fuel as [|fuel IH]; intros s v d bs p Hs Hh Hp Hmax Hroom Hfu;
    [|destruct p as [|b0 p0]; [clear Hfu|]]; cbn [iappend_loop].
  1, 2: assert (p = []) as -> || idtac.
  1: { destruct Hfu as [|Hfu]; [done|]. destruct p; [done|]. cbn [length] in Hfu. unfold BSIZE in Hfu.
       pose proof (Z.mod_pos_bound (Z.of_nat (length bs)) 1024 ltac:(lia)). lia. }
  1, 2: cbn [length] in *; rewrite app_nil_r, Nat.add_0_r in *; exists s, v, d; split; [done|]; split; [done|];
     (split; [apply evolved_refl; [by apply (image_bitmap s)|apply (hd_ok _ _ _ _ _ Hh)]|]); split; [done|]; split; [lia|done].
  destruct Hfu as [|Hfu]; [done|]. set (p := b0 :: p0) in *. assert (Hp0 : 0 < Z.of_nat (length p)) by (unfold p; cbn [length]; lia).
  clearbody p. clear b0 p0. destruct (Z.ltb_spec 0 (Z.of_nat (length p))) as [_|]; [|lia].
  set (len := Z.of_nat (length bs)) in *. set (n1 := Z.min (Z.of_nat (length p)) ((len / BSIZE + 1) * BSIZE - len)).
  assert (Hlen : 0 <= len) by (unfold len; lia).
  pose proof (Z.div_mod len BSIZE ltac:(done)) as Hdm. pose proof (Z.mod_pos_bound len BSIZE ltac:(done)) as Hmb.
  pose proof (Z.div_pos len BSIZE Hlen ltac:(done)) as Hq. change MAXFILE with 268 in *.
  assert (Hn1 : 0 < n1 <= Z.of_nat (length p) /\ len mod BSIZE + n1 <= BSIZE) by (unfold n1, BSIZE in *; lia).
  destruct (nblk_chunk len n1 Hlen ltac:(lia) ltac:(lia)) as [Hnb Hnb0].
  assert (Hq268 : len / BSIZE < 268) by (unfold BSIZE in *; lia). destruct (Z.ltb_spec (len / BSIZE) 268) as [_|]; [|lia].
  assert (Hmx : Z.max (nblk len) (len / BSIZE + 1) = nblk (len + n1)) by lia.
  set (c := take (Z.to_nat n1) p). assert (Hc : Z.of_nat (length c) = n1) by (unfold c; rewrite length_take; lia).
  assert (Hsplit : bs ++ p = (bs ++ c) ++ drop (Z.to_nat n1) p) by (unfold c; by rewrite <- app_assoc, take_drop).
  assert (Hbc : Z.of_nat (length (bs ++ c)) = len + n1) by (rewrite length_app; lia).
  assert (Hd1 : dblk (bs ++ c) = ndisk (nblk (len + n1))) by (unfold dblk; by rewrite Hbc).
  assert (Hd2 : dblk (bs ++ c) <= dblk (bs ++ p)).
  { apply ndisk_mono, nblk_mono. rewrite Hsplit, (length_app (bs ++ c)). lia. }
  destruct (file_sector_spec s v d bs (nblk len) (len / BSIZE) Hs Hh) as (s1 & v1 & d1 & K1 & Hs1 & He1 & Hh1 & Hf1 & Hi1); [lia|done| |].
  { intros E. rewrite <- E, <- Hnb, E. change (ndisk (nblk len)) with (dblk bs). lia. }
  rewrite (bind_Done _ _ _ _ _ K1). rewrite Hmx in Hh1, Hf1. change (ndisk (nblk len)) with (dblk bs) in Hf1.
  pose proof (hd_ok _ _ _ _ _ Hh1) as Hok1. pose proof (bslot_lt (len / BSIZE) ltac:(change MAXFILE with 268; lia)) as Hbl.
  assert (Hmap : iblk v1 d1 (len / BSIZE) <> 0) by (apply (hd_map _ _ _ _ _ Hh1); change MAXFILE with 268; lia).
  pose proof (slot_used s1 v1 d1 _ Hs1 Hok1 Hbl Hmap) as Hu. fold (iblk v1 d1 (len / BSIZE)) in Hu. pose proof (oi_free _ _ Hs1) as Hfr1.
  rewrite (bind_Done _ _ _ _ _ (rsect_spec s1 v1 Hs1 (iblk v1 d1 (len / BSIZE)) ltac:(lia) ltac:(lia))). fold n1. fold c.
  replace (len - len / BSIZE * BSIZE) with (len mod BSIZE) by lia.
  assert (Hcb : Forall is_byte c) by (by apply Forall_take).
  destruct (holds_write v1 d1 bs _ _ c (oi_blocks _ _ Hs1) (image_bitmap s1 v1 Hs1) Hh1) as [Hh2 He2]; fold len; [lia|lia|done|]. fold len in Hh2, He2.
  set (y := splice _ c _) in *. assert (Hy : block_ok y).
  { apply splice_ok; [unfold BSIZE in *; lia|apply (oi_blocks _ _ Hs1)|done]. }
  destruct (wsect_spec s1 v1 Hs1 (iblk v1 d1 (len / BSIZE)) y ltac:(lia) ltac:(lia) Hy) as (s2 & K2 & Hs2 & Hf2 & Hi2).
  rewrite (bind_Done _ _ _ _ _ K2), u32_small by (unfold BSIZE in *; lia). rewrite <- Hbc.
  destruct (IH s2 _ d1 (bs ++ c) (drop (Z.to_nat n1) p) Hs2) as (s3 & v3 & d3 & K3 & Hs3 & He3 & Hh3 & Hf3 & Hi3).
  - unfold is_file. rewrite Hbc. exact Hh2.
  - by apply Forall_drop.
  - rewrite length_app, length_drop. change MAXFILE with 268. lia.
  - rewrite <- Hsplit. lia.
  - destruct (decide (n1 = Z.of_nat (length p))) as [E|E]; [left; apply drop_ge; lia|right].
    rewrite Hbc, length_drop. replace (len + n1) with ((len / BSIZE + 1) * BSIZE) by (unfold n1 in *; lia).
    rewrite Z.mod_mul by done. unfold BSIZE in *. lia.
  - exists s3, v3, d3. rewrite K3, Hsplit. split; [do 2 f_equal; rewrite length_app, length_drop; lia|].
    split; [done|]. split; [eapply evolved_trans; [exact He1|]; by eapply evolved_trans|]. split; [done|].
    split; [lia|congruence].
Qed.
