(* ===== verification/MkfsImage.v ===== *)
(** * [mkfs]: the image it makes

    [built s v fl] is the invariant of [mkfs]: inodes 1, 2, ... of the image are
    the files [fl] (type and contents), without common blocks, and the blocks
    in use are exactly those below [freeblock].  The operations [ialloc] and
    [iappend] keep it; [main] ends with the bitmap on the image and the size of
    the root directory rounded up.

    Theorems: [main] makes an image with every file's contents under its name,
    and the kernel that starts on it accepts the super block, finds an empty
    log, and resolves every name to its file. *)

From stdpp Require Import list_numbers.
From S2P Require Import Prelude CString Kalloc Vm VmOps UserMem Block Log Fs FsAlloc FsInode FsDinode FsFile FsWrite FsDir FsName FsPath Mkfs MkfsFile.

Abbreviation dsk v := (disk_inode mkfs_sb v).

(** Inode [inum] on the image is a file of type [ty] with contents [c]. *)
Record file_at (v : Z -> block) (inum ty : Z) (c : list Z) : Prop := {
  fa_wf : dinode_wf (dsk v inum);
  fa_meta : dsk v inum = mkdinode ty 0 0 1 (Z.of_nat (length c)) (d_addrs (dsk v inum));
  fa_file : is_file v (dsk v inum) c
}.

Definition inum_of (k : nat) : Z := 1 + Z.of_nat k.
Definition sum_dblk (fl : list (Z * list Z)) : Z := foldr (fun f t => dblk f.2 + t) 0 fl.

Record built (s : image) (v : Z -> block) (fl : list (Z * list Z)) : Prop := {
  bt_on : on_image s v;
  bt_inum : freeinode s = inum_of (length fl);
  bt_max : freeinode s <= NINODES;
  bt_used : freeblock s = nmeta + sum_dblk fl;
  bt_file k f : fl !! k = Some f -> file_at v (inum_of k) f.1 f.2;
  bt_apart k k' : (k < length fl)%nat -> (k' < length fl)%nat -> k <> k' ->
    disjoint v (dsk v (inum_of k)) (dsk v (inum_of k'));
  bt_sb : v 1 = splice 0 (sb_bytes mkfs_sb) zeroes;
  bt_log b : 2 <= b < 32 -> v b = zeroes
}.

(** ** Blocks that keep a file *)

Section SameBlocks.
Context (v v' : Z -> block) (d : dinode) (Hok : inode_ok mkfs_sb v d).
Context (Hsame : forall k, (k < NSLOT)%nat -> slot v d k <> 0 -> v' (slot v d k) = v (slot v d k)).
Context (Hal : forall b, 0 <= b < FSSIZE -> allocated mkfs_sb v b = true -> allocated mkfs_sb v' b = true).

Lemma same_slots k : (k < NSLOT)%nat -> slot v' d k = slot v d k.
Proof.
  intros Hk. destruct (decide (k < 13)%nat); [by rewrite !slot_lt13 by lia|].
  rewrite (slot_ge13 v' d k), (slot_ge13 v d k) by lia.
  replace (slot v' d 12) with (slot v d 12) by (by rewrite !slot_lt13 by lia).
  destruct (Z.eqb_spec (slot v d 12) 0) as [|Hi]; [done|]. by rewrite Hsame by (done || (unfold NSLOT; lia)).
Qed.

Lemma same_inode_ok : inode_ok mkfs_sb v' d.
Proof.
  split; [apply Hok|apply Hok| | |].
  - intros k Hk. rewrite same_slots by done. intros Hn. destruct (io_data _ _ _ Hok k Hk Hn) as [Hr Ha]. split; [done|].
    apply Hal; [|done]. rewrite mkfs_datastart, mkfs_size in Hr. rewrite FSSIZE_eq. lia.
  - intros k k' Hk Hk'. rewrite !same_slots by done. by apply (io_inj _ _ _ Hok).
  - rewrite same_slots by (unfold NSLOT; lia). intros Hn. rewrite Hsame by (done || (unfold NSLOT; lia)). by apply (io_ind _ _ _ Hok).
Qed.

Lemma same_holds bs n ind : holds v d bs n ind -> holds v' d bs n ind.
Proof.
  intros [H1 H2 H3 H4 H5 H6]. split; [exact same_inode_ok|done|done| | |].
  - intros bn Hbn. unfold iblk. rewrite same_slots by (by apply bslot_lt). by apply H4.
  - by rewrite same_slots by (unfold NSLOT; lia).
  - intros o Ho. rewrite <- (H6 o Ho). assert (Hm : 0 <= o < MAXFILE * BSIZE) by (unfold BSIZE in *; lia).
    apply (other_bytes mkfs_sb v v' d Hok Hsame o Hm). apply H4; [by apply offset_block|].
    apply Z.div_lt_upper_bound; [done|]. unfold BSIZE in *. lia.
Qed.
End SameBlocks.

(** ** Storing an inode *)

Lemma iblock_inum inum : 0 <= inum < NINODES -> 32 <= IBLOCK inum mkfs_sb <= 44.
Proof.
  intros H. unfold IBLOCK. rewrite mkfs_sb_eq. cbn [sb_inodestart]. change IPB with 16. change NINODES with 200 in H.
  pose proof (Z.div_pos inum 16 ltac:(lia) ltac:(lia)). assert (inum / 16 < 13) by (apply Z.div_lt_upper_bound; lia). lia.
Qed.

Section Inodes.
Context (s : image) (v : Z -> block) (Hs : on_image s v) (inum : Z) (Hi : 0 <= inum < NINODES).

Lemma rinode_spec : rinode inum s = Done (dsk v inum) s.
Proof.
  pose proof (iblock_inum inum Hi). unfold rinode. rewrite bind_gets, (oi_sb _ _ Hs).
  rewrite (bind_Done _ _ _ _ _ (rsect_spec s v Hs (IBLOCK inum mkfs_sb) ltac:(rewrite FSSIZE_eq; lia) ltac:(lia))). done.
Qed.

Lemma winode_spec d : length (d_addrs d) = 13%nat ->
  exists s', winode inum d s = Done tt s' /\ on_image s' (store_inode mkfs_sb v inum d) /\
    freeblock s' = freeblock s /\ freeinode s' = freeinode s.
Proof.
  intros Hl. pose proof (iblock_inum inum Hi). pose proof (oi_free _ _ Hs). unfold winode. rewrite bind_gets, (oi_sb _ _ Hs).
  rewrite (bind_Done _ _ _ _ _ (rsect_spec s v Hs (IBLOCK inum mkfs_sb) ltac:(rewrite FSSIZE_eq; lia) ltac:(lia))).
  apply (wsect_spec s v Hs); [lia|lia|]. apply splice_ok; [|apply (oi_blocks _ _ Hs)|apply dinode_bytes_range].
  rewrite length_dinode_bytes by done. pose proof (ioff_range inum). unfold BSIZE. lia.
Qed.

(** The data blocks and the bitmap do not change. *)
Lemma store_high d x : 45 <= x -> store_inode mkfs_sb v inum d x = v x.
Proof. intros Hx. pose proof (iblock_inum inum Hi). unfold store_inode. apply updb_ne. lia. Qed.
Lemma store_low d x : x < 32 -> store_inode mkfs_sb v inum d x = v x.
Proof. intros Hx. pose proof (iblock_inum inum Hi). unfold store_inode. apply updb_ne. lia. Qed.
Lemma store_allocated d b : 0 <= b < FSSIZE -> allocated mkfs_sb (store_inode mkfs_sb v inum d) b = allocated mkfs_sb v b.
Proof.
  rewrite FSSIZE_eq. intros Hb. unfold allocated, BBLOCK. rewrite mkfs_bmap, BPB_eq, Z.div_small by lia. by rewrite store_high.
Qed.
Lemma store_slot d d2 k : inode_ok mkfs_sb v d2 -> (k < NSLOT)%nat -> slot (store_inode mkfs_sb v inum d) d2 k = slot v d2 k.
Proof.
  intros Hok Hk. apply same_slots; [|done]. intros k' Hk' Hn. apply store_high.
  destruct (io_data _ _ _ Hok k' Hk' Hn) as [Hr _]. rewrite mkfs_datastart in Hr. lia.
Qed.
Lemma store_holds d d2 bs n ind : holds v d2 bs n ind -> holds (store_inode mkfs_sb v inum d) d2 bs n ind.
Proof.
  intros Hh. pose proof (hd_ok _ _ _ _ _ Hh) as Hok. apply (same_holds v); [done| | |done].
  - intros k Hk Hn. apply store_high. destruct (io_data _ _ _ Hok k Hk Hn) as [Hr _]. rewrite mkfs_datastart in Hr. lia.
  - intros b Hb. by rewrite store_allocated.
Qed.
End Inodes.

Lemma sum_dblk_app l1 l2 : sum_dblk (l1 ++ l2) = sum_dblk l1 + sum_dblk l2.
Proof. unfold sum_dblk. induction l1 as [|f l1 IH]; [done|]. cbn [app foldr]. rewrite IH. lia. Qed.
Lemma sum_dblk_insert fl k f f' : fl !! k = Some f -> sum_dblk (<[k := f']> fl) = sum_dblk fl + dblk f'.2 - dblk f.2.
Proof.
  revert k. induction fl as [|g fl IH]; intros [|k] Hk; try done.
  - injection Hk as ->. change (<[0%nat := f']> (f :: fl)) with (f' :: fl). unfold sum_dblk. cbn [foldr]. lia.
  - cbn in Hk. specialize (IH k Hk). change (<[S k := f']> (g :: fl)) with (g :: <[k := f']> fl).
    unfold sum_dblk in *. cbn [foldr]. lia.
Qed.

(** ** [ialloc] *)

Definition new_dinode (ty : Z) : dinode := mkdinode ty 0 0 1 0 (replicate 13 0).

Lemma new_slot v ty k : slot v (new_dinode ty) k = 0.
Proof.
  destruct (decide (k < 13)%nat) as [Hk|Hk].
  - rewrite slot_lt13 by done. cbn [new_dinode d_addrs]. rewrite nth_lookup. by rewrite (lookup_replicate_2 13 0 k Hk).
  - rewrite slot_ge13 by lia. by rewrite slot_lt13 by lia.
Qed.

Lemma new_is_file v ty : is_file v (new_dinode ty) [].
Proof.
  unfold is_file. cbn [length]. change (nblk (Z.of_nat 0)) with 0.
  split; [|done|done| |by rewrite new_slot|intros o Ho; lia].
  - split; [rewrite mkfs_size; lia|done| | |].
    + intros k _. by rewrite new_slot.
    + intros k k' _ _. by rewrite new_slot.
    + by rewrite new_slot.
  - intros bn Hbn. unfold iblk. rewrite new_slot. split; [done|lia].
Qed.

Lemma dsk_wf ty c v inum : 0 <= ty < 2 ^ 15 -> Z.of_nat (length c) <= MAXFILE * BSIZE ->
  dsk v inum = mkdinode ty 0 0 1 (Z.of_nat (length c)) (d_addrs (dsk v inum)) -> is_file v (dsk v inum) c -> dinode_wf (dsk v inum).
Proof.
  intros Ht Hc Hd Hf. pose proof (hd_ok _ _ _ _ _ Hf) as Hok. pose proof (io_len _ _ _ Hok) as Hl. assert (Hmx : MAXFILE * BSIZE < 2 ^ 32) by done.
  rewrite Hd. split; cbn [d_type d_major d_minor d_nlink d_size d_addrs]; unfold is_short; try lia.
  apply Forall_lookup. intros k a Ha. pose proof (lookup_lt_Some _ _ _ Ha) as Hk. rewrite Hl in Hk.
  rewrite <- (nth_lookup_Some _ _ 0 _ Ha). destruct (slot_small v (dsk v inum) k Hok); [unfold NSLOT; lia|done|lia].
Qed.

Lemma ialloc_spec s v fl ty : built s v fl -> freeinode s < NINODES -> 0 < ty < 2 ^ 15 ->
  exists s' v', ialloc ty s = Done (inum_of (length fl)) s' /\ built s' v' (fl ++ [(ty, [])]).
Proof.
  intros [H1 H2 H3 H4 H5 H6 H7 H8] Hlt Ht. change NINODES with 200 in *. set (inum := inum_of (length fl)) in *.
  assert (Hi : 0 <= inum < NINODES) by (change NINODES with 200; unfold inum, inum_of in *; lia).
  set (s1 := mkimage (img s) (nsect s) (isb s) (u32 (inum + 1)) (freeblock s)).
  assert (Hs1 : on_image s1 v) by (destruct H1; by split).
  destruct (winode_spec s1 v Hs1 inum Hi (new_dinode ty) eq_refl) as (s' & K1 & Hs' & Hf & Hn).
  exists s', (store_inode mkfs_sb v inum (new_dinode ty)). split.
  { unfold ialloc. rewrite bind_gets, H2, bind_modify. fold s1.
    replace (mkdinode _ 0 0 _ _ _) with (new_dinode ty); [by rewrite (bind_Done _ _ _ _ _ K1)|].
    unfold new_dinode. rewrite (xshort_small ty) by lia. f_equal. unfold s16. rewrite Z.mod_small by lia. lia. }
  set (v' := store_inode _ _ _ _) in *. pose proof (oi_blocks _ _ H1 (IBLOCK inum mkfs_sb)) as [Hbs _].
  assert (Hold : forall k, (k < length fl)%nat -> dsk v' (inum_of k) = dsk v (inum_of k)).
  { intros k Hk. apply store_inode_other; [lia|done|done|unfold inum_of; lia|unfold inum, inum_of; lia]. }
  assert (Hnew : dsk v' inum = new_dinode ty).
  { apply store_inode_same; [done|done|]. split; cbn [new_dinode d_type d_major d_minor d_nlink d_size d_addrs]; unfold is_short; try (done || lia); by apply Forall_replicate. }
  assert (Hsl : forall d2 k, inode_ok mkfs_sb v d2 -> (k < NSLOT)%nat -> slot v' d2 k = slot v d2 k) by (intros; by apply store_slot).
  assert (Hin : inum_of (length fl) = inum) by done.
  split; rewrite ?length_app; cbn [length].
  - done.
  - rewrite Hn. cbn [freeinode s1]. rewrite u32_small by lia. unfold inum, inum_of. lia.
  - rewrite Hn. cbn [freeinode s1]. rewrite u32_small by lia. change NINODES with 200. lia.
  - rewrite Hf, sum_dblk_app. cbn [freeblock s1]. rewrite H4. change (sum_dblk [(ty, [])]) with 0. lia.
  - intros k f Hk. apply lookup_app_Some in Hk as [Hk|[Hk1 Hk2]].
    + pose proof (lookup_lt_Some _ _ _ Hk) as Hkl. destruct (H5 k f Hk) as [F1 F2 F3]. split; rewrite Hold by done; [done|done|].
      by apply store_holds.
    + apply list_lookup_singleton_Some in Hk2 as [Hz <-]. assert (k = length fl) as -> by lia. rewrite Hin. cbn [fst snd].
      assert (Hfile : is_file v' (dsk v' inum) []) by (rewrite Hnew; apply new_is_file).
      assert (Hmeta : dsk v' inum = mkdinode ty 0 0 1 (Z.of_nat (length (@nil Z))) (d_addrs (dsk v' inum))) by (by rewrite Hnew).
      split; [|done|done]. apply (dsk_wf ty []); [lia|done|done|done].
  - intros k k' Hk Hk' Hne a b Ha Hb. destruct (decide (k = length fl)) as [->|].
    { rewrite Hin, Hnew, new_slot. done. }
    assert (Hkl : (k < length fl)%nat) by lia. rewrite Hold by done. destruct (lookup_lt_is_Some_2 fl k Hkl) as [f Hf1].
    pose proof (hd_ok _ _ _ _ _ (fa_file _ _ _ _ (H5 k f Hf1))) as Hok. rewrite Hsl by done.
    destruct (decide (k' = length fl)) as [->|]. { rewrite Hin, Hnew, new_slot. done. }
    assert (Hkl' : (k' < length fl)%nat) by lia. rewrite Hold by done. destruct (lookup_lt_is_Some_2 fl k' Hkl') as [f' Hf1'].
    rewrite Hsl by (done || apply (hd_ok _ _ _ _ _ (fa_file _ _ _ _ (H5 k' f' Hf1')))).
    by apply H6.
  - unfold v'. rewrite store_low by (done || lia). done.
  - intros b Hb. unfold v'. rewrite store_low by (done || lia). by apply H8.
Qed.

(** ** [iappend] *)

Lemma holds_size v d bs n ind z : holds v d bs n ind -> holds v (set_size z d) bs n ind.
Proof. intros [? ? ? ? ? ?]. split; try done. by apply inode_ok_size. Qed.

(** A file that evolves leaves the others. *)
Section Others.
Context (s s1 : image) (v v1 : Z -> block) (d d1 : dinode).
Context (Hs : on_image s v) (Hs1 : on_image s1 v1) (He : evolved mkfs_sb v d v1 d1).

Lemma evolved_dsk inum : 0 <= inum < NINODES -> dsk v1 inum = dsk v inum.
Proof.
  intros Hi. pose proof (iblock_inum inum Hi). unfold disk_inode. do 3 f_equal. apply (ev_frame _ _ _ _ _ He).
  - lia.
  - rewrite mkfs_bmap, mkfs_datastart. lia.
  - intros k Hk Hc. pose proof (slot_used s1 v1 d1 k Hs1 (ev_ok _ _ _ _ _ He) Hk ltac:(lia)). lia.
Qed.

Lemma evolved_low x : 1 <= x < 45 -> v1 x = v x.
Proof.
  intros Hx. apply (ev_frame _ _ _ _ _ He); [lia|rewrite mkfs_bmap; lia|]. intros k Hk Hc.
  pose proof (slot_used s1 v1 d1 k Hs1 (ev_ok _ _ _ _ _ He) Hk ltac:(lia)). lia.
Qed.

Context (d2 : dinode) (Hok2 : inode_ok mkfs_sb v d2) (Hdis : disjoint v d d2).

Lemma evolved_blocks k : (k < NSLOT)%nat -> slot v d2 k <> 0 -> v1 (slot v d2 k) = v (slot v d2 k).
Proof. by apply (evolved_other mkfs_sb v d v1 d1 d2 (image_bitmap s v Hs)). Qed.

Lemma evolved_holds bs n ind : holds v d2 bs n ind -> holds v1 d2 bs n ind.
Proof.
  intros Hh. apply (same_holds v v1 d2 Hok2 evolved_blocks); [|done]. intros b Hb. apply (ev_alloc _ _ _ _ _ He). by rewrite mkfs_size.
Qed.

Lemma evolved_slots k : (k < NSLOT)%nat -> slot v1 d2 k = slot v d2 k.
Proof. by apply (same_slots v v1 d2 evolved_blocks). Qed.

Lemma evolved_apart : disjoint v1 d1 d2 /\ disjoint v1 d2 d1.
Proof.
  assert (H : forall k k', (k < NSLOT)%nat -> (k' < NSLOT)%nat -> slot v1 d1 k <> 0 -> slot v1 d1 k <> slot v1 d2 k').
  { intros k k' Hk Hk' Hn. rewrite evolved_slots by done. destruct (ev_fresh _ _ _ _ _ He k Hk Hn) as [E|E].
    - rewrite E in *. by apply Hdis.
    - intros Heq. rewrite Heq in *. destruct (io_data _ _ _ Hok2 k' Hk' Hn) as [_ Ha]. congruence. }
  split; [exact H|]. intros k k' Hk Hk' Hn Heq. apply (H k' k); congruence.
Qed.
End Others.

Lemma built_inum s v fl j : built s v fl -> (j < length fl)%nat -> 0 <= inum_of j < NINODES.
Proof. intros Hb Hj. pose proof (bt_max _ _ _ Hb) as H. rewrite (bt_inum _ _ _ Hb) in H. unfold inum_of in *. lia. Qed.

(** Storing the inode of file [k] after [p] was appended to it keeps the invariant. *)
Section Appended.
Context (s s1 s2 : image) (v v1 : Z -> block) (fl : list (Z * list Z)) (k : nat) (ty : Z) (c p : list Z) (d1 : dinode).
Context (Hb : built s v fl) (Hk : fl !! k = Some (ty, c)) (Hmax : Z.of_nat (length (c ++ p)) <= MAXFILE * BSIZE).
Context (Hs1 : on_image s1 v1) (He : evolved mkfs_sb v (dsk v (inum_of k)) v1 d1) (Hf1 : is_file v1 d1 (c ++ p)).
Let d' := set_size (Z.of_nat (length (c ++ p))) d1.
Let v2 := store_inode mkfs_sb v1 (inum_of k) d'.
Context (Hs2 : on_image s2 v2).

Lemma appended_wf : dinode_wf d'.
Proof.
  apply (evolved_wf mkfs_sb v (dsk v (inum_of k)) v1 d1); [done|exact (image_bitmap s v (bt_on _ _ _ Hb))| |].
  - exact (fa_wf _ _ _ _ (bt_file _ _ _ Hb k _ Hk)).
  - assert (MAXFILE * BSIZE < 2 ^ 32) by done. lia.
Qed.

Lemma appended_same : dsk v2 (inum_of k) = d'.
Proof.
  apply store_inode_same; [apply (oi_blocks _ _ Hs1)|apply (dw_len _ appended_wf)|exact appended_wf].
Qed.
Lemma appended_other j : (j < length fl)%nat -> j <> k -> dsk v2 (inum_of j) = dsk v (inum_of j).
Proof.
  intros Hj Hne. transitivity (dsk v1 (inum_of j)); [|by apply (evolved_dsk s1 v v1 (dsk v (inum_of k)) d1 Hs1 He), (built_inum s v fl)].
  apply store_inode_other; [|apply (oi_blocks _ _ Hs1)|apply (dw_len _ appended_wf)| |]; unfold inum_of; lia.
Qed.
Lemma appended_slot d2 j : inode_ok mkfs_sb v1 d2 -> (j < NSLOT)%nat -> slot v2 d2 j = slot v1 d2 j.
Proof. intros. apply store_slot; [|done|done]. apply (built_inum s v fl); [done|by eapply lookup_lt_Some]. Qed.

(** The other files before and after. *)
Lemma appended_others j : (j < length fl)%nat -> j <> k ->
  inode_ok mkfs_sb v (dsk v (inum_of j)) /\ inode_ok mkfs_sb v1 (dsk v (inum_of j)) /\ disjoint v (dsk v (inum_of k)) (dsk v (inum_of j)).
Proof.
  intros Hj Hne. destruct (lookup_lt_is_Some_2 fl j Hj) as [f Hf]. pose proof (fa_file _ _ _ _ (bt_file _ _ _ Hb j f Hf)) as Hh.
  assert (Hd : disjoint v (dsk v (inum_of k)) (dsk v (inum_of j))) by (apply (bt_apart _ _ _ Hb); [by eapply lookup_lt_Some|done|done]).
  split; [apply (hd_ok _ _ _ _ _ Hh)|]. split; [|done].
  eapply hd_ok. apply (evolved_holds s v v1 _ d1 (bt_on _ _ _ Hb) He _ (hd_ok _ _ _ _ _ Hh) Hd). exact Hh.
Qed.

Lemma appended_files j f : <[k := (ty, c ++ p)]> fl !! j = Some f -> file_at v2 (inum_of j) f.1 f.2.
Proof.
  pose proof (lookup_lt_Some _ _ _ Hk) as Hkl. intros Hj. destruct (decide (j = k)) as [->|Hne].
  - rewrite list_lookup_insert_eq in Hj by done. apply Some_inj in Hj as <-. cbn [fst snd]. split; rewrite appended_same; [exact appended_wf| |].
    + unfold d'. destruct (ev_meta _ _ _ _ _ He) as (M1 & M2 & M3 & M4 & _). unfold set_size. cbn [d_addrs].
      rewrite M1, M2, M3, M4, (fa_meta _ _ _ _ (bt_file _ _ _ Hb k _ Hk)). done.
    + apply (store_holds v1 (inum_of k) (built_inum s v fl k Hb Hkl)). by apply holds_size.
  - rewrite list_lookup_insert_ne in Hj by done. pose proof (lookup_lt_Some _ _ _ Hj) as Hjl. destruct (bt_file _ _ _ Hb j f Hj) as [G1 G2 G3].
    destruct (appended_others j Hjl Hne) as (Ho & _ & Hd). split; rewrite appended_other by done; [done|done|].
    apply store_holds; [by apply (built_inum s v fl)|]. by apply (evolved_holds s v v1 (dsk v (inum_of k)) d1 (bt_on _ _ _ Hb)).
Qed.

Lemma appended_apart j j' : (j < length fl)%nat -> (j' < length fl)%nat -> j <> j' ->
  disjoint v2 (dsk v2 (inum_of j)) (dsk v2 (inum_of j')).
Proof.
  intros Hj Hj' Hne a b Ha Hc. pose proof (bt_on _ _ _ Hb) as H1. pose proof (inode_ok_size _ _ _ (Z.of_nat (length (c ++ p))) (ev_ok _ _ _ _ _ He)) as Hokd'. fold d' in Hokd'.
  destruct (decide (j = k)) as [->|Hjk]; [|destruct (decide (j' = k)) as [->|Hjk']].
  - destruct (appended_others j' Hj' ltac:(lia)) as (Ho & Ho1 & Hd). rewrite appended_same, appended_other, !appended_slot by done || lia.
    exact (proj1 (evolved_apart s v v1 _ d1 H1 He _ Ho Hd) a b Ha Hc).
  - destruct (appended_others j Hj Hjk) as (Ho & Ho1 & Hd). rewrite appended_same, appended_other, !appended_slot by done || lia.
    exact (proj2 (evolved_apart s v v1 _ d1 H1 He _ Ho Hd) a b Ha Hc).
  - destruct (appended_others j Hj Hjk) as (Ho & Ho1 & Hd), (appended_others j' Hj' Hjk') as (Ho' & Ho1' & Hd').
    rewrite !appended_other, !appended_slot, !(evolved_slots s v v1 (dsk v (inum_of k)) d1 H1 He) by done. by apply (bt_apart _ _ _ Hb).
Qed.

Lemma built_append : freeblock s2 = freeblock s + dblk (c ++ p) - dblk c -> freeinode s2 = freeinode s ->
  built s2 v2 (<[k := (ty, c ++ p)]> fl).
Proof.
  intros Hfb Hfi. pose proof (lookup_lt_Some _ _ _ Hk) as Hkl. pose proof (built_inum s v fl k Hb Hkl) as Hi.
  assert (Hlow : forall b, 1 <= b < 32 -> v2 b = v b).
  { intros b Hlt. unfold v2. rewrite store_low by (done || lia). apply (evolved_low s1 v v1 _ d1 Hs1 He). lia. }
  split; rewrite ?length_insert.
  - done.
  - rewrite Hfi. apply (bt_inum _ _ _ Hb).
  - rewrite Hfi. apply (bt_max _ _ _ Hb).
  - rewrite (sum_dblk_insert _ _ _ _ Hk), Hfb, (bt_used _ _ _ Hb). cbn [snd]. lia.
  - apply appended_files.
  - apply appended_apart.
  - rewrite Hlow by lia. apply (bt_sb _ _ _ Hb).
  - intros b Hlt. rewrite Hlow by lia. by apply (bt_log _ _ _ Hb).
Qed.
End Appended.

Lemma iappend_spec s v fl k ty c p : built s v fl -> fl !! k = Some (ty, c) -> 0 < ty < 2 ^ 15 -> Forall is_byte p ->
  Z.of_nat (length c + length p) <= MAXFILE * BSIZE -> freeblock s + dblk (c ++ p) - dblk c <= FSSIZE ->
  exists s' v', iappend (inum_of k) p s = Done tt s' /\ built s' v' (<[k := (ty, c ++ p)]> fl).
Proof.
  intros Hb Hk Ht Hp Hmax Hroom. pose proof (lookup_lt_Some _ _ _ Hk) as Hkl. pose proof (built_inum s v fl k Hb Hkl) as Hi.
  pose proof (bt_on _ _ _ Hb) as H1. pose proof (bt_file _ _ _ Hb k _ Hk) as [F1 F2 F3]. cbn [fst snd] in *.
  assert (Hmx : MAXFILE * BSIZE < 2 ^ 32) by done.
  destruct (iappend_loop_spec (copy_fuel (Z.of_nat (length p))) s v _ c p H1 F3 Hp Hmax Hroom) as (s1 & v1 & d1 & K1 & Hs1 & He & Hf1 & Hfb & Hfi).
  { right. unfold copy_fuel. pose proof (Z.div_mod (Z.of_nat (length p)) BSIZE ltac:(done)). pose proof (Z.mod_pos_bound (Z.of_nat (length p)) BSIZE ltac:(done)).
    pose proof (Z.mod_pos_bound (Z.of_nat (length c)) BSIZE ltac:(done)). pose proof (Z.div_pos (Z.of_nat (length p)) BSIZE ltac:(lia) ltac:(done)). unfold BSIZE in *. lia. }
  destruct (winode_spec s1 v1 Hs1 (inum_of k) Hi (set_size (Z.of_nat (length (c ++ p))) d1)) as (s2 & K2 & Hs2 & Hfb2 & Hfi2).
  { apply (io_len _ _ _ (ev_ok _ _ _ _ _ He)). }
  exists s2. eexists. split; [|apply (built_append s s1 s2 v v1 fl k ty c p d1 Hb Hk); [by rewrite length_app|done|done|done|done|lia|congruence]].
  unfold iappend. rewrite (bind_Done _ _ _ _ _ (rinode_spec s v H1 (inum_of k) Hi)).
  assert (Hsz : xint (d_size (dsk v (inum_of k))) = Z.of_nat (length c)) by (rewrite F2; cbn [d_size]; apply xint_small; lia).
  rewrite Hsz, (bind_Done _ _ _ _ _ K1), xint_small by lia. rewrite <- length_app. exact K2.
Qed.

(** ** The program *)

(** The empty image. *)
Lemma zero_sectors n : forall s a, 0 <= a -> a + Z.of_nat n <= FSSIZE -> 0 <= nsect s <= a ->
  (forall x, img s x = zeroes) ->
  exists s', for_each (fun i => wsect i zeroes) (seqZ a (Z.of_nat n)) s = Done tt s' /\
    (forall x, img s' x = zeroes) /\ (n = 0%nat \/ nsect s' = a + Z.of_nat n) /\
    isb s' = isb s /\ freeinode s' = freeinode s /\ freeblock s' = freeblock s.
Proof.
  rewrite FSSIZE_eq. induction n as [|n IH]; intros s a Ha Hle Hns Hz.
  - exists s. split; [done|]. split; [done|]. split; [by left|done].
  - rewrite seqZ_cons by lia. replace (Z.pred (Z.of_nat (S n))) with (Z.of_nat n) by lia. cbn [for_each].
    unfold wsect at 1. rewrite bind_modify. rewrite sector_small by lia. set (s1 := mkimage _ _ _ _ _).
    destruct (IH s1 (Z.succ a)) as (s' & K1 & K2 & K3 & K4); [lia|lia|cbn [nsect s1]; lia| |].
    { intros x. cbn [img s1]. unfold updb. by destruct (x =? a). }
    exists s'. split; [exact K1|]. split; [done|]. split; [right|done].
    destruct K3 as [->|K3]; [|lia]. cbn [Z.of_nat] in K1. change (seqZ (Z.succ a) 0) with (@nil Z) in K1.
    cbn [for_each] in K1. unfold ret in K1. injection K1 as <-. cbn [nsect s1]. lia.
Qed.

(** Successive reads of one file. *)
Lemma append_reads reads : forall s v fl k ty c, built s v fl -> fl !! k = Some (ty, c) -> 0 < ty < 2 ^ 15 ->
  Forall (Forall is_byte) reads -> Z.of_nat (length c + length (concat reads)) <= MAXFILE * BSIZE ->
  freeblock s + dblk (c ++ concat reads) - dblk c <= FSSIZE ->
  exists s' v', for_each (iappend (inum_of k)) reads s = Done tt s' /\ built s' v' (<[k := (ty, c ++ concat reads)]> fl).
Proof.
  induction reads as [|r reads IH]; intros s v fl k ty c Hb Hk Ht Hr Hmax Hroom; cbn [for_each concat] in *.
  - exists s, v. split; [done|]. by rewrite app_nil_r, list_insert_id.
  - apply Forall_cons in Hr as [Hr Hrs]. rewrite length_app in Hmax. pose proof (lookup_lt_Some _ _ _ Hk) as Hkl.
    assert (Hd : dblk (c ++ r) <= dblk (c ++ r ++ concat reads)).
    { apply ndisk_mono, nblk_mono. rewrite !length_app. lia. }
    destruct (iappend_spec s v fl k ty c r Hb Hk Ht Hr) as (s1 & v1 & K1 & Hb1); [lia|lia|]. rewrite (bind_Done _ _ _ _ _ K1).
    assert (Hf1 : freeblock s1 = freeblock s + dblk (c ++ r) - dblk c).
    { rewrite (bt_used _ _ _ Hb1), (sum_dblk_insert _ _ _ _ Hk), (bt_used _ _ _ Hb). cbn [snd]. lia. }
    destruct (IH s1 v1 _ k ty (c ++ r) Hb1) as (s2 & v2 & K2 & Hb2); [by apply list_lookup_insert_eq|done|done| | |].
    + rewrite length_app. lia.
    + rewrite <- app_assoc. lia.
    + exists s2, v2. split; [done|]. by rewrite list_insert_insert_eq, <- app_assoc in Hb2.
Qed.

Definition short_name (arg : list Z) : list Z := strip_underscore (strip_user arg).
Definition content (host : host_fs) (arg : list Z) : list Z := concat (default [] (host arg)).
(** The entry of a file: its inode number and name. *)
Definition file_entry (inum : Z) (arg : list Z) : dirent := mkdirent inum (strncpy_arr DIRSIZ (short_name arg)).
Definition file_entries (inum : Z) (files : list (list Z)) : list dirent := imap (fun k => file_entry (inum + Z.of_nat k)) files.
Definition dir_bytes (es : list dirent) : list Z := concat (dirent_bytes <$> es).

Lemma dir_bytes_cons de es : dir_bytes (de :: es) = dirent_bytes de ++ dir_bytes es.
Proof. done. Qed.

(** A file that [mkfs] accepts. *)
Record arg_ok (host : host_fs) (arg : list Z) : Prop := {
  ao_slash : ~ (SLASH ∈ strip_user arg);
  ao_name : (length (short_name arg) <= DIRSIZ)%nat;
  ao_bytes : Forall is_byte arg;
  ao_open : exists reads, host arg = Some reads /\ Forall (Forall is_byte) reads;
  ao_max : Z.of_nat (length (content host arg)) <= MAXFILE * BSIZE
}.

Lemma strip_bytes arg : Forall is_byte arg -> Forall is_byte (short_name arg).
Proof.
  intros H. unfold short_name, strip_underscore, strip_user.
  assert (H1 : Forall is_byte (if strncmp_arr 5 arg USER =? 0 then drop 5 arg else arg)) by (destruct (_ =? _); [by apply Forall_drop|done]).
  destruct (hd 0 _ =? 95); [|done]. by apply Forall_tail in H1.
Qed.

Lemma length_dirent_bytes de : length (de_name de) = DIRSIZ -> length (dirent_bytes de) = 16%nat.
Proof. intros H. unfold dirent_bytes. by rewrite length_app, length_le_bytes, H. Qed.

Lemma file_entry_bytes inum arg : Forall is_byte arg ->
  length (dirent_bytes (file_entry inum arg)) = 16%nat /\ Forall is_byte (dirent_bytes (file_entry inum arg)).
Proof.
  intros Ha. split; [apply length_dirent_bytes, length_strncpy_arr|]. apply Forall_app_2; [apply le_bytes_range|].
  by apply strncpy_arr_range, strip_bytes.
Qed.

Lemma dblk_pos c : 0 <= dblk c.
Proof.
  unfold dblk, ndisk. pose proof (Z.div_pos (Z.of_nat (length c) + BSIZE - 1) BSIZE ltac:(unfold BSIZE; lia) ltac:(done)).
  unfold nblk. destruct (12 <? _); lia.
Qed.
Lemma sum_dblk_pos fl : 0 <= sum_dblk fl.
Proof. unfold sum_dblk. induction fl as [|f fl IH]; cbn [foldr]; [lia|]. pose proof (dblk_pos f.2). lia. Qed.
Lemma dblk_app_le c p : dblk c <= dblk (c ++ p).
Proof. apply ndisk_mono, nblk_mono. rewrite length_app. lia. Qed.

Lemma freeinode_small s v fl : built s v fl -> 0 <= inum_of (length fl) <= 200.
Proof. intros Hb. pose proof (bt_inum _ _ _ Hb). pose proof (bt_max _ _ _ Hb). change NINODES with 200 in *. unfold inum_of in *. lia. Qed.

Lemma add_file_spec host arg s v de fl : built s v ((T_DIR, de) :: fl) -> arg_ok host arg -> freeinode s < NINODES ->
  Z.of_nat (length de) = 16 * (2 + Z.of_nat (length fl)) ->
  let e := dirent_bytes (file_entry (2 + Z.of_nat (length fl)) arg) in
  freeblock s + dblk (de ++ e) - dblk de + dblk (content host arg) <= FSSIZE ->
  exists s' v', add_file host ROOTINO arg s = Done tt s' /\
    built s' v' ((T_DIR, de ++ e) :: fl ++ [(T_FILE, content host arg)]).
Proof.
  intros Hb [A1 A2 A3 (reads & A4 & A5) A6] Hn Hde e Hroom. pose proof (freeinode_small _ _ _ Hb) as Hsm. cbn [length] in Hsm.
  pose proof (bt_inum _ _ _ Hb) as Hin. change NINODES with 200 in *.
  assert (He0 : content host arg = concat reads) by (unfold content; by rewrite A4). rewrite He0 in *.
  destruct (file_entry_bytes (2 + Z.of_nat (length fl)) arg A3) as [He1 He2]. fold e in He1, He2.
  pose proof (dblk_pos (concat reads)) as Hd0.
  destruct (ialloc_spec s v _ T_FILE Hb) as (s1 & v1 & K1 & Hb1); [done|done|]. cbn [length app] in K1, Hb1.
  pose proof (bt_used _ _ _ Hb) as Hu0. pose proof (bt_used _ _ _ Hb1) as Hu1. change ((T_DIR, de) :: fl ++ [(T_FILE, [])]) with (((T_DIR, de) :: fl) ++ [(T_FILE, [])]) in Hu1.
  rewrite sum_dblk_app in Hu1. change (sum_dblk [(T_FILE, [])]) with 0 in Hu1.
  destruct (iappend_spec s1 v1 _ 0 T_DIR de e Hb1 eq_refl) as (s2 & v2 & K2 & Hb2); [done|done| |lia|].
  { rewrite He1. change MAXFILE with 268. unfold BSIZE, inum_of in *. lia. }
  change (<[0%nat := (T_DIR, de ++ e)]> ((T_DIR, de) :: fl ++ [(T_FILE, [])])) with ((T_DIR, de ++ e) :: fl ++ [(T_FILE, [])]) in Hb2.
  pose proof (bt_used _ _ _ Hb2) as Hu2. unfold sum_dblk in Hu0, Hu1, Hu2. cbn [foldr snd] in Hu0, Hu1, Hu2.
  fold (sum_dblk fl) in Hu0, Hu1. fold (sum_dblk (fl ++ [(T_FILE, [])])) in Hu2. rewrite sum_dblk_app in Hu2. change (sum_dblk [(T_FILE, [])]) with 0 in Hu2.
  assert (Hlast : ((T_DIR, de ++ e) :: fl ++ [(T_FILE, [])]) !! S (length fl) = Some (T_FILE, [])).
  { change ((fl ++ [(T_FILE, @nil Z)]) !! length fl = Some (T_FILE, [])). rewrite lookup_app_r by lia. by rewrite Nat.sub_diag. }
  destruct (append_reads reads s2 v2 _ (S (length fl)) T_FILE [] Hb2 Hlast) as (s3 & v3 & K3 & Hb3); [done|done|cbn [length]; lia| |].
  { cbn [app]. change (dblk []) with 0. lia. }
  exists s3, v3. split.
  - unfold add_file. rewrite bool_decide_eq_false_2 by done. rewrite A4. fold (short_name arg).
    destruct (Nat.leb_spec (length (short_name arg)) DIRSIZ); [|lia]. rewrite (bind_Done _ _ _ _ _ K1).
    rewrite xshort_small by (unfold inum_of in *; lia). change ROOTINO with (inum_of 0).
    replace (mkdirent (inum_of (S (length fl))) _) with (file_entry (2 + Z.of_nat (length fl)) arg) by (unfold file_entry, inum_of; f_equal; lia).
    fold e. by rewrite (bind_Done _ _ _ _ _ K2).
  - change ((<[S (length fl) := (T_FILE, [] ++ concat reads)]> ((T_DIR, de ++ e) :: fl ++ [(T_FILE, [])]))) with
      ((T_DIR, de ++ e) :: <[length fl := (T_FILE, concat reads)]> (fl ++ [(T_FILE, [])])) in Hb3.
    by rewrite insert_app_r_alt, Nat.sub_diag in Hb3 by lia.
Qed.

Definition files_of (host : host_fs) (files : list (list Z)) : list (Z * list Z) := (fun arg => (T_FILE, content host arg)) <$> files.

Lemma file_entries_cons inum arg files : file_entries inum (arg :: files) = file_entry inum arg :: file_entries (inum + 1) files.
Proof.
  unfold file_entries. cbn [imap]. rewrite Z.add_0_r. f_equal. apply imap_ext. intros k x _. cbn. f_equal. lia.
Qed.

Lemma add_files_spec host files : forall s v de fl, built s v ((T_DIR, de) :: fl) -> Forall (arg_ok host) files ->
  freeinode s + Z.of_nat (length files) <= NINODES -> Z.of_nat (length de) = 16 * (2 + Z.of_nat (length fl)) ->
  let es := dir_bytes (file_entries (2 + Z.of_nat (length fl)) files) in
  nmeta + sum_dblk ((T_DIR, de ++ es) :: fl ++ files_of host files) <= FSSIZE ->
  exists s' v', for_each (add_file host ROOTINO) files s = Done tt s' /\
    built s' v' ((T_DIR, de ++ es) :: fl ++ files_of host files).
Proof.
  induction files as [|arg files IH]; intros s v de fl Hb Hok Hn Hde es Hroom.
  - unfold es. cbn [for_each files_of fmap list_fmap]. change (dir_bytes (file_entries _ [])) with (@nil Z). rewrite !app_nil_r. by exists s, v.
  - apply Forall_cons in Hok as [Ha Hok]. cbn [for_each length] in *. subst es. rewrite file_entries_cons, dir_bytes_cons in Hroom |- *.
    set (e := dirent_bytes _) in *. set (es' := dir_bytes _) in *. cbn [files_of fmap list_fmap] in *. fold (files_of host files) in *.
    assert (Hle : dblk (de ++ e) <= dblk (de ++ e ++ es')) by (rewrite (app_assoc de); apply dblk_app_le).
    pose proof (bt_used _ _ _ Hb) as Hu. pose proof (sum_dblk_pos (files_of host files)) as Hp.
    rewrite app_comm_cons, sum_dblk_app in Hroom. unfold sum_dblk in Hroom, Hu, Hp. cbn [foldr snd] in Hroom, Hu.
    destruct (add_file_spec host arg s v de fl Hb Ha) as (s1 & v1 & K1 & Hb1); [lia|done|fold e; lia|]. fold e in Hb1.
    pose proof (bt_inum _ _ _ Hb) as Hi0. pose proof (bt_inum _ _ _ Hb1) as Hi1. cbn [length] in Hi0, Hi1. rewrite length_app in Hi1. cbn [length] in Hi1.
    rewrite (bind_Done _ _ _ _ _ K1). pose proof (file_entry_bytes (2 + Z.of_nat (length fl)) arg (ao_bytes _ _ Ha)) as [He1 _]. fold e in He1.
    destruct (IH s1 v1 (de ++ e) (fl ++ [(T_FILE, content host arg)]) Hb1 Hok) as (s2 & v2 & K2 & Hb2).
    + unfold inum_of in *. lia.
    + rewrite !length_app, He1. cbn [length]. lia.
    + rewrite length_app. cbn [length]. replace (2 + Z.of_nat (length fl + 1)) with (2 + Z.of_nat (length fl) + 1) by lia. fold es'.
      rewrite <- !app_assoc. cbn [app]. rewrite app_comm_cons, sum_dblk_app. unfold sum_dblk. cbn [foldr snd]. lia.
    + rewrite length_app in Hb2. cbn [length] in Hb2. replace (2 + Z.of_nat (length fl + 1)) with (2 + Z.of_nat (length fl) + 1) in Hb2 by lia. fold es' in Hb2.
      rewrite <- !app_assoc in Hb2. cbn [app] in Hb2. by exists s2, v2.
Qed.

(** ** The start and the end of [main] *)

Lemma start_spec : exists s v,
  (modify (fun s => mkimage (img s) (nsect s) mkfs_sb (freeinode s) nmeta) ;;
   for_each (fun i => wsect i zeroes) (seqZ 0 FSSIZE) ;;
   wsect 1 (splice 0 (sb_bytes mkfs_sb) zeroes)) image0 = Done tt s /\ built s v [].
Proof.
  rewrite bind_modify. set (s0 := mkimage _ _ _ _ _).
  destruct (zero_sectors 2000 s0 0) as (s1 & K1 & K2 & K3 & K4 & K5 & K6); [lia|rewrite FSSIZE_eq; lia|done|done|].
  change (Z.of_nat 2000) with FSSIZE in *. rewrite (bind_Done _ _ _ _ _ K1). destruct K3 as [?|K3]; [done|].
  set (sbb := splice 0 (sb_bytes mkfs_sb) zeroes). change nmeta with 46 in *.
  set (s2 := mkimage (updb (img s1) 1 sbb) FSSIZE mkfs_sb 1 46). exists s2, (updb (img s2) 45 (used_bits 46)). split.
  { unfold wsect, modify. rewrite sector_small by lia. rewrite K3, K4, K5, K6. change (Z.max (0 + FSSIZE) (1 + 1)) with FSSIZE. done. }
  assert (Hsb : block_ok sbb).
  { apply splice_ok; [change (length (sb_bytes mkfs_sb)) with 32%nat; unfold BSIZE; lia|exact zeroes_ok|]. unfold sb_bytes.
    generalize [sb_magic mkfs_sb; sb_size mkfs_sb; sb_nblocks mkfs_sb; sb_ninodes mkfs_sb; sb_nlog mkfs_sb; sb_logstart mkfs_sb; sb_inodestart mkfs_sb; sb_bmapstart mkfs_sb].
    intros l. induction l; [done|]. cbn [fmap list_fmap concat]. apply Forall_app_2; [apply le_bytes_range|done]. }
  split; cbn [s2 freeinode freeblock img length sum_dblk foldr]; try done; try lia.
  - split; cbn [isb nsect freeblock img]; try done; try (rewrite FSSIZE_eq; lia).
    + intros x Hx. by rewrite updb_ne.
    + intros b Hb. change (freeblock s2) with 46 in Hb. rewrite !updb_ne by lia. apply K2.
    + intros b. unfold updb. destruct (b =? 45); [|destruct (b =? 1); [done|rewrite K2; exact zeroes_ok]].
      change 46 with (Z.of_nat 46). apply used_bits_spec. rewrite BPB_eq. lia.
  - intros b Hb. rewrite !updb_ne by lia. apply K2.
Qed.

(** The image that [mkfs] leaves, with root directory [de] and files [fl]. *)
Record fs_image (s : image) (de : list Z) (fl : list (Z * list Z)) : Prop := {
  fm_nsect : nsect s = FSSIZE;
  fm_used : freeblock s = nmeta + sum_dblk ((T_DIR, de) :: fl);
  fm_sb : parse_sb (img s 1) = mkfs_sb;
  fm_log b : 2 <= b < 2 + nlog -> img s b = zeroes;
  fm_blocks : blocks_ok (img s);
  fm_bitmap : bitmap_ok mkfs_sb (img s);
  fm_alloc b : 0 <= b < FSSIZE -> allocated mkfs_sb (img s) b = (b <? freeblock s);
  fm_meta : dsk (img s) ROOTINO =
    mkdinode T_DIR 0 0 1 ((Z.of_nat (length de) / BSIZE + 1) * BSIZE) (d_addrs (dsk (img s) ROOTINO));
  fm_root : is_file (img s) (dsk (img s) ROOTINO) de;
  fm_file k f : fl !! k = Some f -> file_at (img s) (2 + Z.of_nat k) f.1 f.2;
  fm_apart i j : 1 <= i < 2 + Z.of_nat (length fl) -> 1 <= j < 2 + Z.of_nat (length fl) -> i <> j ->
    disjoint (img s) (dsk (img s) i) (dsk (img s) j)
}.

(** The end of [main]: the root inode with its new size, then the bitmap. *)
Section Finish.
Context (s : image) (v : Z -> block) (de : list Z) (fl : list (Z * list Z)).
Context (Hb : built s v ((T_DIR, de) :: fl)) (Hde : Z.of_nat (length de) <= 16 * 202).
Let d := dsk v ROOTINO.
Let sz := (Z.of_nat (length de) / BSIZE + 1) * BSIZE.
Let v1 := store_inode mkfs_sb v ROOTINO (set_size sz d).

Lemma root_at : file_at v ROOTINO T_DIR de.
Proof. exact (bt_file _ _ _ Hb 0%nat _ eq_refl). Qed.

Lemma new_size : 0 <= sz < 2 ^ 32.
Proof.
  pose proof (Z.div_pos (Z.of_nat (length de)) BSIZE ltac:(lia) ltac:(done)) as Hq.
  assert (Hq2 : Z.of_nat (length de) / BSIZE < 10) by (apply Z.div_lt_upper_bound; [done|unfold BSIZE; lia]). unfold sz, BSIZE in *. lia.
Qed.

Lemma finish_runs : exists s1 s2,
  (fix_root_size ROOTINO ;; let! used := gets freeblock in balloc used) s = Done tt s2 /\ on_image s1 v1 /\
  (forall x, img s2 x = v1 x) /\ nsect s2 = FSSIZE /\ freeblock s2 = freeblock s1 /\ freeblock s1 = freeblock s.
Proof.
  pose proof (bt_on _ _ _ Hb) as H1. pose proof root_at as [F1 F2 F3]. fold d in F1, F2, F3. pose proof new_size as Hsz.
  destruct (winode_spec s v H1 ROOTINO ltac:(done) (set_size sz d) (dw_len _ F1)) as (s1 & K1 & Hs1 & Hf1 & _). fold v1 in Hs1.
  pose proof (oi_free _ _ Hs1) as Hfr. rewrite FSSIZE_eq in Hfr.
  exists s1, (mkimage (updb (img s1) 45 (used_bits (freeblock s1))) (Z.max (nsect s1) 46) (isb s1) (freeinode s1) (freeblock s1)).
  split; [|split; [exact Hs1|split; [|split; [cbn [nsect]; rewrite (oi_nsect _ _ Hs1), FSSIZE_eq; lia|done]]]].
  - assert (Hfix : fix_root_size ROOTINO s = Done tt s1).
    { unfold fix_root_size. rewrite (bind_Done _ _ _ _ _ (rinode_spec s v H1 ROOTINO ltac:(done))). fold d.
      assert (Hx : xint (d_size d) = Z.of_nat (length de)) by (rewrite F2; cbn [d_size]; apply xint_small; lia).
      rewrite Hx. fold sz. rewrite u32_small, xint_small by done. exact K1. }
    rewrite (bind_Done _ _ _ _ _ Hfix), bind_gets. unfold balloc. rewrite BPB_eq. destruct (Z.ltb_spec (freeblock s1) 8192); [|lia].
    rewrite bind_gets, (oi_sb _ _ Hs1), mkfs_bmap. unfold wsect, modify. rewrite sector_small, (oi_sb _ _ Hs1) by lia. reflexivity.
  - intros x. cbn [img]. destruct (decide (x = 45)) as [->|Hne]; [by rewrite updb_eq, (oi_bits _ _ Hs1)|].
    by rewrite updb_ne, (oi_img _ _ Hs1).
Qed.

Lemma finish_root : dsk v1 ROOTINO = set_size sz d.
Proof.
  pose proof root_at as [F1 _ _]. fold d in F1. pose proof new_size. apply store_inode_same; [|apply (dw_len _ F1)|destruct F1; by split].
  apply (oi_blocks _ _ (bt_on _ _ _ Hb)).
Qed.
Lemma finish_other k : (0 < k < S (length fl))%nat -> dsk v1 (inum_of k) = dsk v (inum_of k).
Proof.
  pose proof root_at as [F1 _ _]. intros Hk. apply store_inode_other; [done|apply (oi_blocks _ _ (bt_on _ _ _ Hb))|apply (dw_len _ F1)|unfold inum_of; lia|unfold inum_of, ROOTINO; lia].
Qed.
Lemma finish_slot k a : (k < S (length fl))%nat -> (a < NSLOT)%nat -> slot v1 (dsk v1 (inum_of k)) a = slot v (dsk v (inum_of k)) a.
Proof.
  intros Hk Ha. destruct (lookup_lt_is_Some_2 ((T_DIR, de) :: fl) k Hk) as [f Hf].
  pose proof (hd_ok _ _ _ _ _ (fa_file _ _ _ _ (bt_file _ _ _ Hb k f Hf))) as Hok.
  destruct (decide (k = 0%nat)) as [->|]; [change (inum_of 0) with ROOTINO in *; rewrite finish_root|rewrite finish_other by lia];
    unfold v1; by rewrite store_slot by (done || by apply inode_ok_size).
Qed.

Lemma finish_spec : exists s', (fix_root_size ROOTINO ;; let! used := gets freeblock in balloc used) s = Done tt s' /\ fs_image s' de fl.
Proof.
  destruct finish_runs as (s1 & s2 & K1 & Hs1 & Hv & Hns & Hf2 & Hf1). exists s2. split; [exact K1|]. pose proof root_at as [_ F2 F3]. fold d in F2, F3.
  assert (Hd : forall i, dsk (img s2) i = dsk v1 i) by (intros i; unfold disk_inode; by rewrite Hv).
  assert (Hal : forall b, allocated mkfs_sb (img s2) b = allocated mkfs_sb v1 b) by (intros b; unfold allocated; by rewrite Hv).
  assert (Hh : forall e bs n ind, holds v e bs n ind -> holds (img s2) e bs n ind).
  { intros e bs n ind He. apply (same_holds v1); [|intros; apply Hv|intros b _; by rewrite Hal|by apply store_holds].
    apply (hd_ok _ _ _ _ _ (store_holds v ROOTINO ltac:(done) (set_size sz d) e bs n ind He)). }
  split.
  - done.
  - rewrite Hf2, Hf1. apply (bt_used _ _ _ Hb).
  - rewrite Hv. unfold v1. rewrite store_low, (bt_sb _ _ _ Hb) by (done || lia). vm_compute. reflexivity.
  - intros b Hb2. rewrite Hv. unfold v1. change (2 + nlog) with 32 in Hb2. rewrite store_low by (done || lia). by apply (bt_log _ _ _ Hb).
  - intros b. rewrite Hv. apply (oi_blocks _ _ Hs1).
  - apply (meta_bitmap mkfs_sb v1); [intros; apply Hv|by apply (image_bitmap s1)].
  - intros b Hb2. rewrite Hal, (used_allocated s1 v1 Hs1), Hf2 by done. done.
  - rewrite Hd, finish_root. unfold set_size. cbn [d_addrs]. rewrite F2. done.
  - rewrite Hd, finish_root. by apply Hh, holds_size.
  - intros k f Hk. pose proof (lookup_lt_Some _ _ _ Hk) as Hkl. destruct (bt_file _ _ _ Hb (S k) f Hk) as [G1 G2 G3].
    replace (2 + Z.of_nat k) with (inum_of (S k)) by (unfold inum_of; lia).
    split; rewrite Hd, finish_other by lia; [done|done|by apply Hh].
  - intros i j Hi Hj Hne a b Ha Hc. replace i with (inum_of (Z.to_nat (i - 1))) by (unfold inum_of; lia).
    replace j with (inum_of (Z.to_nat (j - 1))) by (unfold inum_of; lia). rewrite !Hd.
    rewrite !(same_slots v1 (img s2)), !finish_slot by (done || lia || (intros; apply Hv)). apply (bt_apart _ _ _ Hb); cbn [length]; done || lia.
Qed.
End Finish.

Definition mkfs_entries (files : list (list Z)) : list dirent :=
  mkdirent ROOTINO dot_name :: mkdirent ROOTINO dotdot_name :: file_entries 2 files.
(** Blocks needed: the metadata, the root directory and the files. *)
Definition blocks_needed (host : host_fs) (files : list (list Z)) : Z :=
  nmeta + sum_dblk ((T_DIR, dir_bytes (mkfs_entries files)) :: files_of host files).

Lemma length_dir_bytes es : Forall (fun de => length (de_name de) = DIRSIZ) es -> length (dir_bytes es) = (16 * length es)%nat.
Proof.
  induction es as [|de es IH]; [done|]. intros [H1 H2]%Forall_cons. rewrite dir_bytes_cons, length_app, IH, length_dirent_bytes by done.
  cbn [length]. lia.
Qed.
Lemma mkfs_entries_names files : Forall (fun de => length (de_name de) = DIRSIZ) (mkfs_entries files).
Proof.
  repeat (apply Forall_cons; split; [done|]). apply Forall_lookup. intros k de Hk. unfold file_entries in Hk.
  rewrite list_lookup_imap in Hk. destruct (files !! k); [|done]. apply Some_inj in Hk as <-. apply length_strncpy_arr.
Qed.
Lemma length_mkfs_entries files : length (mkfs_entries files) = (2 + length files)%nat.
Proof. unfold mkfs_entries, file_entries. cbn [length]. by rewrite length_imap. Qed.

Lemma main_spec host files prog name : Forall (arg_ok host) files -> 2 + Z.of_nat (length files) <= NINODES ->
  blocks_needed host files <= FSSIZE ->
  exists s, main true host (prog :: name :: files) image0 = Done tt s /\
    fs_image s (dir_bytes (mkfs_entries files)) (files_of host files).
Proof.
  intros Hok Hn Hroom. destruct start_spec as (s1 & v1 & K1 & Hb1). unfold blocks_needed in Hroom. change NINODES with 200 in Hn.
  set (e1 := dirent_bytes (mkdirent ROOTINO dot_name)). set (e2 := dirent_bytes (mkdirent ROOTINO dotdot_name)).
  assert (He1 : length e1 = 16%nat /\ Forall is_byte e1).
  { split; [done|]. apply Forall_app_2; [apply le_bytes_range|]. apply Forall_cons. split; [unfold is_byte; lia|]. by apply Forall_replicate. }
  assert (He2 : length e2 = 16%nat /\ Forall is_byte e2).
  { split; [done|]. apply Forall_app_2; [apply le_bytes_range|]. do 2 (apply Forall_cons; split; [unfold is_byte; lia|]). by apply Forall_replicate. }
  destruct He1 as [He1 Hy1], He2 as [He2 Hy2]. set (es := dir_bytes (file_entries 2 files)).
  assert (Hes : dir_bytes (mkfs_entries files) = (e1 ++ e2) ++ es) by (unfold mkfs_entries; rewrite !dir_bytes_cons, app_assoc; done).
  rewrite Hes in *. pose proof (bt_used _ _ _ Hb1) as Hu1. pose proof (bt_inum _ _ _ Hb1) as Hi1. change (sum_dblk []) with 0 in Hu1.
  destruct (ialloc_spec s1 v1 [] T_DIR Hb1) as (s2 & v2 & K2 & Hb2); [rewrite Hi1; done|done|]. cbn [app length] in K2, Hb2.
  pose proof (bt_used _ _ _ Hb2) as Hu2. change (sum_dblk [(T_DIR, [])]) with 0 in Hu2. change nmeta with 46 in *.
  assert (D1 : dblk ([] ++ e1) = 1) by (unfold dblk; cbn [app]; by rewrite He1).
  assert (D2 : dblk (e1 ++ e2) = 1) by (unfold dblk; by rewrite length_app, He1, He2).
  destruct (iappend_spec s2 v2 _ 0 T_DIR [] e1 Hb2 eq_refl) as (s3 & v3 & K3 & Hb3); [done|done|by rewrite He1| |].
  { rewrite D1, Hu2. done. }
  change (<[0%nat := (T_DIR, [] ++ e1)]> [(T_DIR, [])]) with [(T_DIR, e1)] in Hb3.
  pose proof (bt_used _ _ _ Hb3) as Hu3. unfold sum_dblk in Hu3. cbn [foldr snd] in Hu3. cbn [app] in D1. rewrite D1 in Hu3.
  destruct (iappend_spec s3 v3 _ 0 T_DIR e1 e2 Hb3 eq_refl) as (s4 & v4 & K4 & Hb4); [done|done|by rewrite He1, He2| |].
  { rewrite D2, D1, Hu3. done. }
  change (<[0%nat := (T_DIR, e1 ++ e2)]> [(T_DIR, e1)]) with [(T_DIR, e1 ++ e2)] in Hb4.
  destruct (add_files_spec host files s4 v4 (e1 ++ e2) [] Hb4 Hok) as (s5 & v5 & K5 & Hb5).
  { rewrite (bt_inum _ _ _ Hb4). change NINODES with 200. unfold inum_of. cbn [length]. lia. }
  { by rewrite length_app, He1, He2. }
  { change nmeta with 46. exact Hroom. }
  change (2 + Z.of_nat (length [])) with 2 in Hb5. fold es in Hb5. cbn [app] in Hb5.
  destruct (finish_spec s5 v5 _ _ Hb5) as (s6 & K6 & Him).
  { rewrite <- Hes, length_dir_bytes, length_mkfs_entries by apply mkfs_entries_names. lia. }
  exists s6. split; [|done]. unfold main. change (negb (BSIZE mod 64 =? 0) || negb (BSIZE mod DIRENT =? 0)) with false. cbv iota. cbn [negb].
  destruct (bind_Done_inv _ _ _ _ _ K1) as ([] & t1 & T1 & T2). destruct (bind_Done_inv _ _ _ _ _ T2) as ([] & t2 & T3 & T4).
  rewrite (bind_Done _ _ _ _ _ T1), (bind_Done _ _ _ _ _ T3), (bind_Done _ _ _ _ _ T4), (bind_Done _ _ _ _ _ K2).
  change (negb (inum_of 0 =? ROOTINO)) with false. cbv iota. change (xshort (inum_of 0)) with ROOTINO.
  rewrite (bind_Done _ _ _ _ _ K3), (bind_Done _ _ _ _ _ K4). change (inum_of 0) with ROOTINO. rewrite (bind_Done _ _ _ _ _ K5). exact K6.
Qed.

(** ** Reading the image back *)

Lemma holds_bytes v d bs n ind off m : holds v d bs n ind -> Z.of_nat (off + m) <= n * BSIZE ->
  file_bytes v d (Z.of_nat off) m = (fun i => nth (off + i) bs 0) <$> seq 0 m.
Proof.
  intros Hh Hle. unfold file_bytes. apply list_fmap_ext. intros i x Hx. apply lookup_seq in Hx as [-> Hi].
  rewrite (hd_byte _ _ _ _ _ Hh) by lia. f_equal. lia.
Qed.

Lemma nths_take bs off m : (off + m <= length bs)%nat -> (fun i => nth (off + i) bs 0) <$> seq 0 m = take m (drop off bs).
Proof.
  intros Hle. apply list_eq_same_length with (n := m); [rewrite length_take, length_drop; lia|by rewrite length_fmap, length_seq|].
  intros i x y Hi Hx Hy. rewrite list_lookup_fmap, lookup_seq_lt in Hx by done. apply Some_inj in Hx as <-.
  rewrite lookup_take_lt, lookup_drop in Hy by done. by apply nth_lookup_Some.
Qed.

Lemma nblk_cover len : 0 <= len -> len <= nblk len * BSIZE.
Proof.
  intros H. unfold nblk. pose proof (Z.div_mod (len + BSIZE - 1) BSIZE ltac:(done)). pose proof (Z.mod_pos_bound (len + BSIZE - 1) BSIZE ltac:(done)). lia.
Qed.

Lemma is_file_content v d c : is_file v d c -> file_bytes v d 0 (length c) = c.
Proof.
  intros Hf. change 0 with (Z.of_nat 0). rewrite (holds_bytes _ _ _ _ _ 0 (length c) Hf) by (apply nblk_cover; lia).
  rewrite nths_take by lia. by rewrite drop_0, take_ge.
Qed.

Lemma is_file_ok v d c : blocks_ok v -> is_file v d c -> 0 <= d_size d -> d_size d <= nblk (Z.of_nat (length c)) * BSIZE -> file_ok v d.
Proof.
  intros Hb Hf H0 Hs. pose proof (hd_max _ _ _ _ _ Hf) as Hm. split; [unfold BSIZE in *; lia|]. intros bn Hbn Hlt.
  split; [|apply Hb]. apply (hd_map _ _ _ _ _ Hf); unfold BSIZE in *; lia.
Qed.

(** Entry [k] of a directory whose contents are [dir_bytes es]. *)
Lemma dir_bytes_entry es k de : Forall (fun de => length (de_name de) = DIRSIZ) es -> es !! k = Some de ->
  take 16 (drop (16 * k) (dir_bytes es)) = dirent_bytes de.
Proof.
  revert k. induction es as [|x es IH]; intros k Hf Hk; [done|]. apply Forall_cons in Hf as [Hx Hes]. rewrite dir_bytes_cons.
  pose proof (length_dirent_bytes x Hx) as Hl. destruct k as [|k].
  - injection Hk as ->. rewrite Nat.mul_0_r, drop_0. by rewrite take_app_length' by done.
  - rewrite drop_app_ge by lia. rewrite Hl. replace (16 * S k - 16)%nat with (16 * k)%nat by lia. by apply IH.
Qed.

Section RootDir.
Context (v : Z -> block) (d : dinode) (es : list dirent).
Context (Hf : is_file v d (dir_bytes es)) (Hn : Forall (fun de => length (de_name de) = DIRSIZ) es) (Hi : Forall (fun de => 0 <= de_inum de < 2 ^ 16) es).

Lemma root_entry k de : es !! k = Some de -> dir_entry v d k = de.
Proof.
  intros Hk. pose proof (lookup_lt_Some _ _ _ Hk) as Hkl. pose proof (length_dir_bytes es Hn) as Hl. unfold dir_entry.
  replace (DIRENT * Z.of_nat k) with (Z.of_nat (16 * k)) by (unfold DIRENT; lia).
  rewrite (holds_bytes _ _ _ _ _ (16 * k) 16 Hf).
  - rewrite nths_take, (dir_bytes_entry es k de Hn Hk) by lia. rewrite Forall_lookup in Hn, Hi. apply parse_dirent_bytes; eauto.
  - pose proof (nblk_cover (Z.of_nat (length (dir_bytes es)))). lia.
Qed.

(** The rest of the last block: entries not in use. *)
Lemma root_entry_free k : (length es <= k)%nat -> Z.of_nat (16 * k + 16) <= nblk (Z.of_nat (length (dir_bytes es))) * BSIZE ->
  de_inum (dir_entry v d k) = 0.
Proof.
  intros Hk Hle. pose proof (length_dir_bytes es Hn) as Hl. unfold dir_entry.
  replace (DIRENT * Z.of_nat k) with (Z.of_nat (16 * k)) by (unfold DIRENT; lia).
  rewrite (holds_bytes _ _ _ _ _ (16 * k) 16 Hf) by lia. cbn [parse_dirent de_inum seq fmap list_fmap].
  by rewrite !nth_overflow by lia.
Qed.
End RootDir.

Lemma mkfs_entries_inums files : 2 + Z.of_nat (length files) <= NINODES -> Forall (fun de => 0 <= de_inum de < 2 ^ 16) (mkfs_entries files).
Proof.
  intros Hn. change NINODES with 200 in Hn. repeat (apply Forall_cons; split; [done|]). apply Forall_lookup. intros k de Hk. unfold file_entries in Hk.
  rewrite list_lookup_imap in Hk. destruct (files !! k) as [a|] eqn:Ha; [|done]. apply Some_inj in Hk as <-.
  apply lookup_lt_Some in Ha. cbn [file_entry de_inum]. lia.
Qed.

(** C17: on files that open, with names of at most 14 characters after the
    prefixes [user/] and [_] are dropped, fewer than the 200 inodes and not
    more blocks than the image has, [mkfs] ends normally.  The image then has
    the super block, an empty log, a bitmap that marks exactly the first
    blocks as used, and a root directory with the entries [.], [..] and one
    per file in order; file number [k] is inode [2 + k], its contents are the
    bytes read, and no two files share a block. *)
Theorem mkfs_makes_image (host : host_fs) (files : list (list Z)) (prog name : list Z) :
  Forall (arg_ok host) files -> 2 + Z.of_nat (length files) <= NINODES -> blocks_needed host files <= FSSIZE ->
  exists s, main true host (prog :: name :: files) image0 = Done tt s /\
    let v := img s in
    nsect s = FSSIZE /\ parse_sb (v 1) = mkfs_sb /\ (forall b, 2 <= b < 2 + nlog -> v b = zeroes) /\ bitmap_ok mkfs_sb v /\
    (forall b, 0 <= b < FSSIZE -> allocated mkfs_sb v b = (b <? blocks_needed host files)) /\
    (let d := disk_inode mkfs_sb v ROOTINO in
     d_type d = T_DIR /\ d_nlink d = 1 /\ inode_ok mkfs_sb v d /\ take (2 + length files) (dir_entries v d) = mkfs_entries files) /\
    (forall k arg, files !! k = Some arg ->
       let d := disk_inode mkfs_sb v (2 + Z.of_nat k) in
       d_type d = T_FILE /\ d_nlink d = 1 /\ inode_ok mkfs_sb v d /\ file_ok v d /\
       d_size d = Z.of_nat (length (content host arg)) /\
       file_bytes v d 0 (length (content host arg)) = content host arg) /\
    (forall i j, 1 <= i < 2 + Z.of_nat (length files) -> 1 <= j < 2 + Z.of_nat (length files) -> i <> j ->
       disjoint v (disk_inode mkfs_sb v i) (disk_inode mkfs_sb v j)).
Proof.
  intros Hok Hn Hroom. destruct (main_spec host files prog name Hok Hn Hroom) as (s & Hm & Him). exists s. split; [exact Hm|]. cbv zeta.
  pose proof Him as [I1 I2 I3 I4 I5 I6 I7 I8 I9 I10 I11]. pose proof (mkfs_entries_names files) as Hnm. pose proof (mkfs_entries_inums files Hn) as Hin.
  pose proof (length_dir_bytes _ Hnm) as Hdl. rewrite length_mkfs_entries in Hdl.
  split; [exact I1|]. split; [exact I3|]. split; [exact I4|]. split; [exact I6|].
  split; [intros b Hb; rewrite I7 by done; by rewrite I2|]. split; [|split].
  - split; [by rewrite I8|]. split; [by rewrite I8|]. split; [apply (hd_ok _ _ _ _ _ I9)|].
    apply list_eq_same_length with (n := (2 + length files)%nat); [by rewrite length_mkfs_entries| |].
    + rewrite length_take, length_dir_entries. unfold dir_count. rewrite I8. cbn [d_size]. rewrite Hdl. change BSIZE with (64 * 16). change DIRENT with 16.
      rewrite Z.mul_assoc, Z.div_mul by done. pose proof (Z.div_mod (Z.of_nat (16 * (2 + length files))) (64 * 16) ltac:(done)).
      pose proof (Z.mod_pos_bound (Z.of_nat (16 * (2 + length files))) (64 * 16) ltac:(done)). lia.
    + intros k x y Hk Hx Hy. rewrite lookup_take_lt in Hx by done. unfold dir_entries in Hx. rewrite list_lookup_fmap in Hx.
      destruct (seq 0 _ !! k) as [k'|] eqn:Hs; [|done]. apply lookup_seq in Hs as [-> _]. apply Some_inj in Hx as <-. cbn [Nat.add].
      by apply (root_entry (img s) _ (mkfs_entries files)).
  - intros k arg Hk. assert (Hk2 : files_of host files !! k = Some (T_FILE, content host arg)) by (unfold files_of; by rewrite list_lookup_fmap, Hk).
    destruct (I10 k _ Hk2) as [F1 F2 F3]. cbn [fst snd] in *. split; [by rewrite F2|]. split; [by rewrite F2|]. split; [apply (hd_ok _ _ _ _ _ F3)|].
    split; [|split; [by rewrite F2|by apply is_file_content]].
    apply (is_file_ok _ _ (content host arg)); [done|done|rewrite F2; cbn [d_size]; lia|rewrite F2; cbn [d_size]; apply nblk_cover; lia].
  - intros i j Hi Hj. apply I11; unfold files_of; by rewrite length_fmap.
Qed.

(** Two files of the build machine: [_a] and [user/b]. *)
Definition demo_files : list (list Z) := [[95; 97]; USER ++ [98]].
Definition demo_host : host_fs := fun path =>
  if decide (path = [95; 97]) then Some [[7; 8]; [9]]
  else if decide (path = USER ++ [98]) then Some [] else None.

Lemma demo_args_ok : Forall (arg_ok demo_host) demo_files.
Proof.
  apply Forall_cons; split; [|apply Forall_cons; split; [|done]]; split.
  - apply (bool_decide_eq_true_1 (~ (SLASH ∈ _))). vm_compute. reflexivity.
  - vm_compute. lia.
  - repeat (apply Forall_cons; split; [unfold is_byte; lia|]); done.
  - exists [[7; 8]; [9]]. split; [reflexivity|]. repeat (apply Forall_cons; split); unfold is_byte; done || lia.
  - vm_compute. done.
  - apply (bool_decide_eq_true_1 (~ (SLASH ∈ _))). vm_compute. reflexivity.
  - vm_compute. lia.
  - repeat (apply Forall_cons; split; [unfold is_byte; lia|]); done.
  - exists []. split; [reflexivity|done].
  - vm_compute. done.
Qed.

Lemma mkfs_makes_image_witness :
  exists s, main true demo_host ([] :: [] :: demo_files) image0 = Done tt s /\
    file_bytes (img s) (disk_inode mkfs_sb (img s) 2) 0 3 = [7; 8; 9] /\
    d_size (disk_inode mkfs_sb (img s) 3) = 0.
Proof.
  destruct (mkfs_makes_image demo_host demo_files [] [] demo_args_ok) as (s & H1 & _ & _ & _ & _ & _ & _ & H2 & _).
  - vm_compute. discriminate.
  - vm_compute. discriminate.
  - exists s. split; [exact H1|]. split; [apply (H2 0%nat [95; 97] eq_refl)|].
    apply (H2 1%nat (USER ++ [98]) eq_refl).
Defined.
