(* ===== verification/MkfsBoot.v ===== *)
(** * From [mkfs] to the kernel

    The kernel of [Fs.v] started on an image made by [mkfs]: [fsinit] accepts
    the super block and the empty log, the root directory is a well-formed tree
    for path resolution, and [namei] finds every file by its name. *)

From stdpp Require Import list_numbers.
From S2P Require Import Prelude CString Kalloc Vm VmOps UserMem Block Log Fs FsAlloc FsInode FsDinode FsFile FsWrite FsDir FsName FsPath Mkfs MkfsFile MkfsImage.

(** ** [fsinit] *)

Lemma zero_header : header_blocks zeroes = [] /\ wr32s zeroes 0 [0] = zeroes.
Proof. split; vm_compute; reflexivity. Qed.

Lemma initlog_clean (l : log) st n : view (bio l) st = zeroes ->
  exists l', initlog st n l = Done tt l' /\ log_start l' = st /\ log_size l' = n /\ lh l' = [] /\
    outstanding l' = outstanding l /\ forall b, view (bio l') b = view (bio l) b.
Proof.
  intros Hz. destruct zero_header as [Hh Hw]. unfold initlog, recover_from_log, read_head, install_trans, write_head, Log.bread.
  rewrite bind_modify. set (l1 := mklog st n _ _ _ _).
  assert (H1 : (let! start := gets log_start in let! h := gets (fun s => view (bio s) start) in modify (set_lh (header_blocks h))) l1 = Done tt (set_lh [] l1)).
  { rewrite !bind_gets. cbn [l1 log_start bio]. rewrite Hz, Hh. done. }
  rewrite (bind_Done _ _ _ _ _ H1).
  assert (H2 : (let! bs := gets lh in install_loop true 0 bs) (set_lh [] l1) = Done tt (set_lh [] l1)) by done.
  rewrite (bind_Done _ _ _ _ _ H2), bind_modify, !bind_gets. cbn [l1 set_lh log_start lh bio length]. rewrite Hz.
  change (Z.of_nat 0) with 0. rewrite Hw. unfold bstore. rewrite bind_modify. eexists. split; [reflexivity|].
  split_and!; try done. intros b. cbn [bio set_bio view]. unfold updb. destruct (Z.eqb_spec b st) as [->|]; [by rewrite Hz|done].
Qed.

Section Boot.
Context {U : Type} `{!UserMem U}.

Lemma fsinit_image (k : fs U) s de fl : fs_image s de fl -> (forall b, V k b = img s b) ->
  exists k1, fsinit k = Done tt k1 /\ sb k1 = mkfs_sb /\ lh (lg k1) = [] /\
    log_start (lg k1) = 2 /\ log_size (lg k1) = nlog /\ itable k1 = itable k /\ um k1 = um k /\ forall b, V k1 b = img s b.
Proof.
  intros Him Hv. assert (Hz : view (bio (lg k)) 2 = zeroes).
  { change (view (bio (lg k)) 2) with (V k 2). rewrite Hv. apply (fm_log _ _ _ Him). done. }
  destruct (initlog_clean (lg k) 2 nlog Hz) as (l' & K1 & K2 & K3 & K4 & K5 & K6).
  exists (mkfs mkfs_sb l' (itable k) (um k) (out k)). split; [|split_and!; try done; intros b; rewrite <- Hv; apply K6].
  unfold fsinit, readsb. rewrite bind_assoc, (bind_Done _ _ _ _ _ (bread_eq 1 k)), bind_ret, bind_modify, Hv, (fm_sb _ _ _ Him).
  change (negb (sb_magic mkfs_sb =? FSMAGIC)) with false. cbv iota. change (sb_logstart mkfs_sb) with 2. change (sb_nlog mkfs_sb) with nlog.
  unfold onlog. cbn [lg]. by rewrite K1.
Qed.
End Boot.

(** ** The tree *)

(** Names the kernel can look up: no NUL, not empty, not [.] or [..], no two
    the same. *)
Record names_ok (files : list (list Z)) : Prop := {
  nk_nul arg : arg ∈ files -> Forall (fun c => c <> 0) (short_name arg);
  nk_dots arg : arg ∈ files -> short_name arg <> [] /\ short_name arg <> [46] /\ short_name arg <> [46; 46];
  nk_dup : NoDup (short_name <$> files)
}.

Section Tree.
Context (v : Z -> block) (host : host_fs) (files : list (list Z)).
Context (Hblk : blocks_ok v).
Context (Hmeta : dsk v ROOTINO = mkdinode T_DIR 0 0 1 ((Z.of_nat (length (dir_bytes (mkfs_entries files))) / BSIZE + 1) * BSIZE) (d_addrs (dsk v ROOTINO))).
Context (Hroot : is_file v (dsk v ROOTINO) (dir_bytes (mkfs_entries files))).
Context (Hfiles : forall k arg, files !! k = Some arg -> file_at v (2 + Z.of_nat k) T_FILE (content host arg)).
Context (Hn : 2 + Z.of_nat (length files) <= NINODES) (Hpart : (2 + Z.of_nat (length files)) mod 64 <> 0).

Definition tree_inums (i : Z) : Prop := 1 <= i < 2 + Z.of_nat (length files).

Lemma root_size : d_size (dsk v ROOTINO) = nblk (Z.of_nat (length (dir_bytes (mkfs_entries files)))) * BSIZE /\ d_size (dsk v ROOTINO) mod DIRENT = 0.
Proof.
  rewrite Hmeta. cbn [d_size]. rewrite length_dir_bytes, length_mkfs_entries by apply mkfs_entries_names. unfold nblk. change BSIZE with (64 * 16). change DIRENT with 16.
  split; [|rewrite Z.mul_assoc; by apply Z.mod_mul]. f_equal. set (m := 2 + Z.of_nat (length files)) in *.
  replace (Z.of_nat (16 * (2 + length files))) with (m * 16) by (unfold m; lia). rewrite Z.div_mul_cancel_r by done.
  pose proof (Z.div_mod m 64 ltac:(done)). pose proof (Z.mod_pos_bound m 64 ltac:(done)).
  apply (Z.div_unique _ _ _ ((m mod 64 - 1) * 16 + 15)); lia.
Qed.

(** The directory as the kernel reads it: the entries, then free ones. *)
Lemma root_dir_lookup k : dir_entries v (dsk v ROOTINO) !! k = mkfs_entries files !! k \/
  exists de, dir_entries v (dsk v ROOTINO) !! k = Some de /\ mkfs_entries files !! k = None /\ de_inum de = 0.
Proof.
  pose proof (mkfs_entries_names files) as Hnm. pose proof (mkfs_entries_inums files Hn) as Hin. destruct root_size as [Hs _].
  pose proof (length_dir_bytes _ Hnm) as Hdl. pose proof (nblk_cover (Z.of_nat (length (dir_bytes (mkfs_entries files)))) ltac:(lia)) as Hcov.
  unfold dir_entries. rewrite list_lookup_fmap. destruct (decide (k < dir_count (dsk v ROOTINO))%nat) as [Hk|Hk].
  - rewrite lookup_seq_lt by done. cbn [fmap option_fmap option_map Nat.add]. destruct (mkfs_entries files !! k) as [de|] eqn:He.
    + left. f_equal. by apply (root_entry v _ (mkfs_entries files)).
    + right. eexists. split; [done|]. split; [done|]. apply lookup_ge_None in He.
      apply (root_entry_free v _ (mkfs_entries files)); [done|done|done|]. rewrite <- Hs. unfold dir_count in Hk. change DIRENT with 16 in Hk.
      pose proof (Z.div_mod (d_size (dsk v ROOTINO)) 16 ltac:(done)). pose proof (Z.mod_pos_bound (d_size (dsk v ROOTINO)) 16 ltac:(done)). lia.
  - left. rewrite lookup_seq_ge by lia. cbn. symmetry. apply lookup_ge_None. unfold dir_count in Hk. rewrite Hs in Hk. change DIRENT with 16 in Hk.
    assert (Z.of_nat (length (mkfs_entries files)) <= nblk (Z.of_nat (length (dir_bytes (mkfs_entries files)))) * BSIZE / 16).
    { apply Z.div_le_lower_bound; lia. } lia.
Qed.

Lemma tree_dinode i : tree_inums i -> i <> ROOTINO -> d_type (dsk v i) = T_FILE /\ d_nlink (dsk v i) = 1.
Proof.
  unfold tree_inums, ROOTINO. intros Hi Hne. destruct (lookup_lt_is_Some_2 files (Z.to_nat (i - 2)) ltac:(lia)) as [arg Ha].
  destruct (Hfiles _ _ Ha) as [_ F2 _]. replace (2 + Z.of_nat (Z.to_nat (i - 2))) with i in F2 by lia. by rewrite F2.
Qed.

Lemma image_tree_ok : tree_ok mkfs_sb v tree_inums.
Proof.
  destruct root_size as [Hs Hmod]. split.
  - intros i Hi. destruct (decide (i = ROOTINO)) as [->|Hne]; [by rewrite Hmeta|]. by destruct (tree_dinode i Hi Hne) as [-> ->].
  - intros i Hi Hd. destruct (decide (i = ROOTINO)) as [->|Hne]; [|destruct (tree_dinode i Hi Hne) as [E _]; by rewrite E in Hd].
    split; [|exact Hmod]. pose proof (hd_max _ _ _ _ _ Hroot). apply (is_file_ok v _ (dir_bytes (mkfs_entries files))); [done|done|unfold BSIZE in *; lia|lia].
  - intros i de Hi Hd Hin Hnz. destruct (decide (i = ROOTINO)) as [->|Hne]; [|destruct (tree_dinode i Hi Hne) as [E _]; by rewrite E in Hd].
    apply list_elem_of_lookup in Hin as [k Hk]. unfold tree_inums.
    destruct (root_dir_lookup k) as [He|(de' & He & _ & Hz)]; [|congruence]. rewrite Hk in He. symmetry in He. unfold mkfs_entries in He.
    destruct k as [|[|k]]; [apply Some_inj in He as <-; cbn; unfold ROOTINO; lia..|].
    change (file_entries 2 files !! k = Some de) in He. unfold file_entries in He.
    rewrite list_lookup_imap in He. destruct (files !! k) as [a|] eqn:Ha; [|done]. apply Some_inj in He as <-. apply lookup_lt_Some in Ha. cbn. lia.
Qed.
End Tree.

(** ** Looking a file up *)

Section Lookup.
Context (v : Z -> block) (host : host_fs) (files : list (list Z)).
Context (Hargs : Forall (arg_ok host) files) (Hnames : names_ok files).
Context (Hdir : forall k, dir_entries v (dsk v ROOTINO) !! k = mkfs_entries files !! k \/
  exists de, dir_entries v (dsk v ROOTINO) !! k = Some de /\ mkfs_entries files !! k = None /\ de_inum de = 0).
Context (Hroot : d_type (dsk v ROOTINO) = T_DIR).

Lemma file_entries_lookup k : mkfs_entries files !! S (S k) = file_entry (2 + Z.of_nat k) <$> files !! k.
Proof. change (mkfs_entries files !! S (S k)) with (file_entries 2 files !! k). unfold file_entries. by rewrite list_lookup_imap. Qed.

Lemma short_name_cut arg : arg ∈ files -> cut DIRSIZ (short_name arg) = short_name arg.
Proof.
  intros Ha. rewrite cut_take by (by apply (nk_nul _ Hnames)). apply take_ge. rewrite Forall_forall in Hargs. apply (ao_name _ _ (Hargs _ Ha)).
Qed.

(** Entries before the file's own have other names. *)
Lemma entry_name_other n arg j de : files !! n = Some arg -> mkfs_entries files !! j = Some de -> (j < 2 + n)%nat ->
  ~ has_name (short_name arg) de.
Proof.
  intros Hn Hj Hlt [_ Hs]. assert (Ha : arg ∈ files) by (by eapply list_elem_of_lookup_2). destruct (nk_dots _ Hnames arg Ha) as (_ & D1 & D2).
  unfold same_name in Hs. rewrite short_name_cut in Hs by done. destruct j as [|[|j]].
  - apply Some_inj in Hj as <-. apply D1. by rewrite Hs.
  - apply Some_inj in Hj as <-. apply D2. by rewrite Hs.
  - rewrite file_entries_lookup in Hj. destruct (files !! j) as [arg'|] eqn:Hj'; [|done]. apply Some_inj in Hj as <-.
    cbn [file_entry de_name] in Hs. rewrite cut_strncpy, short_name_cut in Hs by (by eapply list_elem_of_lookup_2).
    assert (n = j); [|lia]. apply (NoDup_lookup (short_name <$> files) n j (short_name arg) (nk_dup _ Hnames)).
    + by rewrite list_lookup_fmap, Hn.
    + by rewrite list_lookup_fmap, Hj', Hs.
Qed.

Lemma find_file n arg : files !! n = Some arg ->
  list_find (has_name (short_name arg)) (dir_entries v (dsk v ROOTINO)) = Some ((2 + n)%nat, file_entry (2 + Z.of_nat n) arg).
Proof.
  intros Hn. apply list_find_Some. split; [|split].
  - destruct (Hdir (2 + n)) as [->|(de & _ & E & _)].
    + change (2 + n)%nat with (S (S n)). by rewrite file_entries_lookup, Hn.
    + change (2 + n)%nat with (S (S n)) in E. by rewrite file_entries_lookup, Hn in E.
  - split; [cbn [file_entry de_inum]; lia|]. unfold same_name. cbn [file_entry de_name]. by rewrite cut_strncpy.
  - intros j de Hj Hlt. destruct (Hdir j) as [E|(de' & _ & E & _)].
    + rewrite E in Hj. by apply (entry_name_other n arg j de).
    + exfalso. apply lookup_ge_None in E. rewrite length_mkfs_entries in E. apply lookup_lt_Some in Hn. lia.
Qed.

Lemma walk_file n arg : files !! n = Some arg -> walk_path mkfs_sb v ROOTINO (elements (SLASH :: short_name arg)) = Some (2 + Z.of_nat n).
Proof.
  intros Hn. assert (Ha : arg ∈ files) by (by eapply list_elem_of_lookup_2). destruct (nk_dots _ Hnames arg Ha) as (D0 & _).
  assert (He : elements (SLASH :: short_name arg) = [short_name arg]).
  { rewrite elements_slash, <- (app_nil_r (short_name arg)), elements_cons; [by rewrite app_nil_r|done| |by left].
    rewrite Forall_forall in Hargs. pose proof (ao_slash _ _ (Hargs _ Ha)) as Hs. apply Forall_forall. intros c Hc ->. apply Hs.
    unfold short_name, strip_underscore in Hc. destruct (hd 0 _ =? 95); [|done]. destruct (strip_user arg); [done|by apply list_elem_of_further]. }
  rewrite He. cbn [walk_path]. rewrite Hroot. cbn [negb Z.eqb T_DIR Pos.eqb]. by rewrite (find_file n arg Hn).
Qed.
End Lookup.

(** ** Booting *)

Section Kernel.
Context {U : Type} `{!UserMem U}.
Context (de_addr : Z) (Hde : 0 <= de_addr) (Hde' : de_addr + 16 < 2 ^ 64).

(** C16: the kernel accepts what [mkfs] makes.  On every image that [mkfs] makes
    (the number of directory entries not a multiple of 64), [fsinit] returns
    with the image's super block and an empty log, and changes no block.  From
    then on, while the disk is as [mkfs] left it and the inode table at rest,
    [namei] of [/name] finds the inode of the file that was copied under this
    name, and its bytes are those of the original. *)
Theorem mkfs_image_boots (host : host_fs) (files : list (list Z)) (prog name : list Z) :
  Forall (arg_ok host) files -> names_ok files -> 2 + Z.of_nat (length files) <= NINODES ->
  (2 + Z.of_nat (length files)) mod 64 <> 0 -> blocks_needed host files <= FSSIZE ->
  exists s, main true host (prog :: name :: files) image0 = Done tt s /\
    forall k : fs U, (forall b, V k b = img s b) ->
    exists k1, fsinit k = Done tt k1 /\ sb k1 = mkfs_sb /\ lh (lg k1) = [] /\ (forall b, V k1 b = V k b) /\
      forall (k2 : fs U) cwd cw nm, names mkfs_sb (V k1) (tree_inums files) (itable k2) none None k2 -> two_free (itable k2) ->
        itable k2 !! cwd = Some cw -> 0 < i_ref cw ->
        forall n arg, files !! n = Some arg ->
        exists j z k3, namei de_addr cwd (SLASH :: short_name arg) nm k2 = Done (Some j) k3 /\
          itable k3 !! j = Some z /\ i_inum z = 2 + Z.of_nat n /\
          file_bytes (V k3) (disk_inode mkfs_sb (V k3) (i_inum z)) 0 (length (content host arg)) = content host arg.
Proof.
  intros Hargs Hnames Hn Hpart Hroom. destruct (main_spec host files prog name Hargs Hn Hroom) as (s & Hm & Him). exists s. split; [exact Hm|].
  intros k Hk. destruct (fsinit_image k s _ _ Him Hk) as (k1 & K1 & K2 & K3 & _ & _ & _ & _ & HV). exists k1. split; [exact K1|].
  split; [exact K2|]. split; [exact K3|]. split; [intros b; by rewrite HV, Hk|].
  assert (Hd : forall i, dsk (V k1) i = dsk (img s) i) by (intros i; unfold disk_inode; by rewrite HV).
  assert (Hh : forall d c, is_file (img s) d c -> is_file (V k1) d c).
  { intros d c Hf. apply (same_holds (img s)); [apply (hd_ok _ _ _ _ _ Hf)|intros; apply HV| |done]. intros b _. unfold allocated. by rewrite HV. }
  assert (Hblk : blocks_ok (V k1)) by (intros b; rewrite HV; apply (fm_blocks _ _ _ Him)).
  assert (Hmeta := fm_meta _ _ _ Him). rewrite <- Hd in Hmeta.
  assert (Hroot : is_file (V k1) (dsk (V k1) ROOTINO) (dir_bytes (mkfs_entries files))) by (rewrite Hd; apply Hh, (fm_root _ _ _ Him)).
  assert (Hfiles : forall k arg, files !! k = Some arg -> file_at (V k1) (2 + Z.of_nat k) T_FILE (content host arg)).
  { intros i arg Hi. destruct (fm_file _ _ _ Him i (T_FILE, content host arg)) as [F1 F2 F3]; [unfold files_of; by rewrite list_lookup_fmap, Hi|].
    split; rewrite Hd; [done|done|by apply Hh]. }
  pose proof (root_dir_lookup (V k1) files Hmeta Hroot Hn Hpart) as Hdir.
  pose proof (image_tree_ok (V k1) host files Hblk Hmeta Hroot Hfiles Hn Hpart) as Htree.
  intros k2 cwd cw nm Hq Hfree Hcw Href n arg Ha.
  assert (HT : tree_inums files ROOTINO) by (unfold tree_inums, ROOTINO; lia).
  assert (Hpath : Forall (fun c => c <> 0) (SLASH :: short_name arg)).
  { apply Forall_cons. split; [done|]. apply (nk_nul _ Hnames). by eapply list_elem_of_lookup_2. }
  destruct (namei_spec de_addr Hde Hde' mkfs_sb (V k1) (tree_inums files) k2 cwd cw (SLASH :: short_name arg) nm Htree Hq Hfree HT Hcw Href Hpath)
    as (r & k3 & N1 & N2).
  cbn [hd] in N2. rewrite Z.eqb_refl in N2.
  rewrite (walk_file (V k1) host files Hargs Hnames Hdir) with (n := n) in N2; [|by rewrite Hmeta|done].
  destruct N2 as (j & z & -> & Hz & Hzi & Hq3). exists j, z, k3. split; [exact N1|]. split; [done|]. split; [done|].
  rewrite (nm_V _ _ _ _ _ _ _ Hq3), Hzi. by apply is_file_content, (Hfiles n arg Ha).
Qed.
End Kernel.

(** The kernel after [fsinit], with the root directory in the inode table. *)
Definition booted (l : log) : fs (list Z) := mkfs mkfs_sb l root_tab ([], ramp) [].

Lemma booted_names l (T : Z -> Prop) : T 1 -> names mkfs_sb (view (bio l)) T root_tab none None (booted l).
Proof.
  intros HT. pose proof root_names as [_ _ R3 R4 R5 R6 R7 R8]. split; [done|done|exact R3|done| |exact R6|exact R7|exact R8].
  intros k x Hk. destruct k as [|[|[|k]]]; cbn in Hk; try discriminate Hk; injection Hk as <-; (split; [cbn; lia|]); cbn; intros; try lia. done.
Qed.

Lemma demo_names_ok : names_ok demo_files.
Proof.
  assert (Hf : forall arg, arg ∈ demo_files -> short_name arg = [97] \/ short_name arg = [98]).
  { intros arg Ha. unfold demo_files in Ha. apply elem_of_cons in Ha as [->|Ha]; [by left|].
    apply list_elem_of_singleton in Ha as ->. by right. }
  split.
  - intros arg Ha. by destruct (Hf arg Ha) as [-> | ->]; apply Forall_singleton.
  - intros arg Ha. by destruct (Hf arg Ha) as [-> | ->].
  - change (short_name <$> demo_files) with [[97]; [98]]. apply NoDup_cons. split; [|apply NoDup_singleton].
    rewrite list_elem_of_singleton. done.
Qed.

Lemma mkfs_image_boots_witness :
  exists s, main true demo_host ([] :: [] :: demo_files) image0 = Done tt s /\
  exists k1, fsinit (mkfs mkfs_sb (mklog 0 0 0 false [] (mkbdev (img s) (img s) [] [])) root_tab (@nil Z, ramp) []) = Done tt k1 /\
  exists j z k3, namei 512 0 [SLASH; 97] (replicate 14 0) (booted (lg k1)) = Done (Some j) k3 /\ itable k3 !! j = Some z /\ i_inum z = 2.
Proof.
  destruct (mkfs_image_boots (U := list Z) 512 ltac:(lia) ltac:(lia) demo_host demo_files [] [] demo_args_ok demo_names_ok) as (s & H1 & H2).
  - vm_compute. discriminate.
  - vm_compute. discriminate.
  - vm_compute. discriminate.
  - exists s. split; [exact H1|].
    destruct (H2 (mkfs mkfs_sb (mklog 0 0 0 false [] (mkbdev (img s) (img s) [] [])) root_tab (@nil Z, ramp) [])) as (k1 & K1 & _ & _ & _ & K2); [reflexivity|].
    exists k1. split; [exact K1|].
    destruct (K2 (booted (lg k1)) 0%nat (mkinode ROOTDEV 1 1 false false (i_d inode0)) (replicate 14 0)) with (n := 0%nat) (arg := [95; 97]) as (j & z & k3 & N1 & N2 & N3 & _).
    + apply booted_names. unfold tree_inums. cbn. lia.
    + exists 1%nat, 2%nat, inode0, inode0. split_and!; done.
    + reflexivity.
    + cbn. lia.
    + reflexivity.
    + exists j, z, k3. split; [exact N1|]. split; [exact N2|exact N3].
Defined.
