(* ===== verification/File.v ===== *)
(** * Open files: [kernel/file.c] and [pipealloc] of [kernel/pipe.c]

    The state joins the file system of [Fs.v], the table of open files, the
    pipes (keyed by the page that holds them), the page allocator's free list
    (the abstract state that [Kalloc.v] proves [kalloc] and [kfree] to
    implement), and the descriptors and current directory of the calling
    process.  A file pointer is an index into [ftable].

    A call that would sleep in a pipe ends with [FSleep]; one that would sleep
    for an inode lock or for log space is the outcome [blocked] of [Fs.v]. *)

From stdpp Require Import gmap.
From S2P Require Import Prelude CString Kalloc Vm UserMem Block Log Pipe Fs.

(** [struct file] *)
Inductive ftype := FD_NONE | FD_PIPE | FD_INODE | FD_DEVICE.
#[export] Instance ftype_eq : EqDecision ftype.
Proof. solve_decision. Defined.

Record file := mkfile {
  f_type : ftype;
  f_ref : Z;
  readable : Z;
  writable : Z;
  f_pipe : Z;       (* page of the pipe *)
  f_ip : nat;
  f_off : Z;
  f_major : Z
}.

Record kfs (U : Type) := mkkfs {
  fsys : fs U;
  ftable : list file;              (* NFILE entries *)
  pipes : gmap Z pipe;
  freepages : list Z;
  wakes : list (Z * pchan);        (* wakeups sent, latest first *)
  ofile : list (option nat);       (* NOFILE descriptors of the caller *)
  cwd : nat
}.
Arguments mkkfs {U}. Arguments fsys {U}. Arguments ftable {U}. Arguments pipes {U}.
Arguments freepages {U}. Arguments wakes {U}. Arguments ofile {U}. Arguments cwd {U}.

(** The end of a read or write: a result, or asleep in pipe [pi]. *)
Inductive fout := FRet (r : Z) | FSleep (pi i : Z) (on : pchan).

Definition set_f_ref (v : Z) (f : file) : file :=
  mkfile (f_type f) v (readable f) (writable f) (f_pipe f) (f_ip f) (f_off f) (f_major f).
Definition set_f_off (v : Z) (f : file) : file :=
  mkfile (f_type f) (f_ref f) (readable f) (writable f) (f_pipe f) (f_ip f) v (f_major f).
Definition set_f_closed (f : file) : file :=
  mkfile FD_NONE 0 (readable f) (writable f) (f_pipe f) (f_ip f) (f_off f) (f_major f).
Definition set_f_pipe (rd wr pi : Z) (f : file) : file :=
  mkfile FD_PIPE (f_ref f) rd wr pi (f_ip f) (f_off f) (f_major f).

Section File.
Context {U : Type} `{!UserMem U}.
Abbreviation FM := (M (kfs U)).

(** [devsw]: the read and write functions of a device, on a user address. *)
Context (dev_read dev_write : Z -> option (Z -> Z -> FM fout)).

Definition set_fsys (v : fs U) (s : kfs U) : kfs U :=
  mkkfs v (ftable s) (pipes s) (freepages s) (wakes s) (ofile s) (cwd s).
Definition set_ftable (v : list file) (s : kfs U) : kfs U :=
  mkkfs (fsys s) v (pipes s) (freepages s) (wakes s) (ofile s) (cwd s).
Definition set_pipes (v : gmap Z pipe) (s : kfs U) : kfs U :=
  mkkfs (fsys s) (ftable s) v (freepages s) (wakes s) (ofile s) (cwd s).
Definition set_freepages (v : list Z) (s : kfs U) : kfs U :=
  mkkfs (fsys s) (ftable s) (pipes s) v (wakes s) (ofile s) (cwd s).
Definition set_ofile (v : list (option nat)) (s : kfs U) : kfs U :=
  mkkfs (fsys s) (ftable s) (pipes s) (freepages s) (wakes s) v (cwd s).
Definition set_cwd (v : nat) (s : kfs U) : kfs U :=
  mkkfs (fsys s) (ftable s) (pipes s) (freepages s) (wakes s) (ofile s) v.
Definition wakeup_pipe (pi : Z) (cs : list pchan) : FM unit :=
  modify (fun s => mkkfs (fsys s) (ftable s) (pipes s) (freepages s) (((fun c => (pi, c)) <$> rev cs) ++ wakes s) (ofile s) (cwd s)).

(** Running the file system. *)
Definition onfs {A} (c : M (fs U) A) : FM A := fun s =>
  match c (fsys s) with
  | Done a f => Done a (set_fsys f s)
  | Panic msg => Panic msg
  end.
Definition begin_op : FM unit := onfs (let! ok := onlog Log.begin_op in if (ok : bool) then ret tt else blocked).
Definition end_op : FM unit := onfs (onlog Log.end_op).

(** A wild file pointer faults. *)
Definition getf (f : nat) : FM file := fun s =>
  match ftable s !! f with Some x => Done x s | None => Panic "kerneltrap" end.
Definition putf (f : nat) (x : file) : FM unit := modify (fun s => set_ftable (<[f := x]> (ftable s)) s).
Definition getpipe (pi : Z) : FM pipe := fun s =>
  match pipes s !! pi with Some x => Done x s | None => Panic "kerneltrap" end.

(** [kalloc] and [kfree] on the free list. *)
Definition kalloc_page : FM Z := fun s =>
  match freepages s with [] => Done 0 s | p :: l => Done p (set_freepages l s) end.
Definition kfree_page (p : Z) : FM unit := modify (fun s => set_freepages (p :: freepages s) s).

Definition file0 : file := mkfile FD_NONE 0 0 0 0 0 0 0.
(** [fileinit] sets up the lock of a zeroed table. *)
Definition fileinit : FM unit := modify (set_ftable (replicate NFILE file0)).

Definition filealloc : FM (option nat) := fun s =>
  match list_find (fun x => f_ref x = 0) (ftable s) with
  | Some (f, x) => Done (Some f) (set_ftable (<[f := set_f_ref 1 x]> (ftable s)) s)
  | None => Done None s
  end.

Definition filedup (f : nat) : FM nat :=
  let! x := getf f in
  if f_ref x <? 1 then panic "filedup" else putf f (set_f_ref (f_ref x + 1) x) ;; ret f.

(** [pipeclose], freeing the page with the second end. *)
Definition pipeclose_at (pi writable : Z) : FM unit :=
  let! p := getpipe pi in
  let '(p', c, freed) := pipeclose p writable in
  wakeup_pipe pi [c] ;;
  if (freed : bool) then modify (fun s => set_pipes (delete pi (pipes s)) s) ;; kfree_page pi
  else modify (fun s => set_pipes (<[pi := p']> (pipes s)) s).

Definition fileclose (f : nat) : FM unit :=
  let! x := getf f in
  if f_ref x <? 1 then panic "fileclose"
  else if f_ref x - 1 >? 0 then putf f (set_f_ref (f_ref x - 1) x)
  else
    putf f (set_f_closed x) ;;
    match f_type x with
    | FD_PIPE => pipeclose_at (f_pipe x) (writable x)
    | FD_INODE | FD_DEVICE => begin_op ;; onfs (iput (f_ip x)) ;; end_op
    | FD_NONE => ret tt
    end.

(** The bytes of [struct stat]: two ints, two shorts, padding, a 64-bit size. *)
Definition stat_bytes (pad : list Z) (st : stat) : list Z :=
  le_bytes 4 (st_dev st) ++ le_bytes 4 (st_ino st) ++ le_bytes 2 (st_type st) ++ le_bytes 2 (st_nlink st) ++
  pad ++ le_bytes 8 (st_size st).

(** [copyout(p->pagetable, ...)] *)
Definition copyout_user (va : Z) (bs : list Z) : FM Z := fun s =>
  let '(r, u') := ucopyout va bs (um (fsys s)).1 in
  Done r (set_fsys (set_um (u', (um (fsys s)).2) (fsys s)) s).

(** [pad] is what the stack holds in the padding of [st]. *)
Definition filestat (pad : list Z) (f : nat) (addr : Z) : FM Z :=
  let! x := getf f in
  match f_type x with
  | FD_INODE | FD_DEVICE =>
      onfs (ilock (f_ip x)) ;;
      let! st := onfs (stati (f_ip x)) in
      onfs (iunlock (f_ip x)) ;;
      let! r := copyout_user addr (stat_bytes pad st) in
      ret (if r <? 0 then -1 else 0)
  | _ => ret (-1)
  end.

(** A run of a pipe operation on pipe [pi]. *)
Definition end_pipe (pi : Z) (p' : pipe) (o : outcome) : FM fout :=
  modify (fun s => set_pipes (<[pi := p']> (pipes s)) s) ;;
  match o with
  | Return r w => wakeup_pipe pi w ;; ret (FRet r)
  | Sleep i w on => wakeup_pipe pi w ;; ret (FSleep pi i on)
  end.

Definition dev_ok (major : Z) : bool := (0 <=? major) && (major <? NDEV).

Definition fileread (killed : bool) (f : nat) (addr n : Z) : FM fout :=
  let! x := getf f in
  if readable x =? 0 then ret (FRet (-1))
  else
    match f_type x with
    | FD_PIPE =>
        let! p := getpipe (f_pipe x) in
        let! u := gets (fun s => (um (fsys s)).1) in
        let '(o, p', u') := piperead p u killed addr n in
        modify (fun s => set_fsys (set_um (u', (um (fsys s)).2) (fsys s)) s) ;;
        end_pipe (f_pipe x) p' o
    | FD_DEVICE =>
        if negb (dev_ok (f_major x)) then ret (FRet (-1))
        else match dev_read (f_major x) with None => ret (FRet (-1)) | Some rd => rd addr n end
    | FD_INODE =>
        onfs (ilock (f_ip x)) ;;
        let! r := onfs (readi (f_ip x) true addr (f_off x) (u32 n)) in
        let r := s32 r in
        (if r >? 0 then putf f (set_f_off (u32 (f_off x + r)) x) else ret tt) ;;
        onfs (iunlock (f_ip x)) ;;
        ret (FRet r)
    | FD_NONE => panic "fileread"
    end.

(** Bytes per transaction: [((MAXOPBLOCKS-1-1-2) / 2) * BSIZE]. *)
Definition write_max : Z := (MAXOPBLOCKS - 1 - 1 - 2) / 2 * BSIZE.

(** One transaction of [filewrite]: [n1] bytes at [addr]. *)
Definition filewrite_txn (f : nat) (addr n1 : Z) : FM Z :=
  begin_op ;;
  let! x := getf f in
  onfs (ilock (f_ip x)) ;;
  let! r := onfs (writei (f_ip x) true addr (f_off x) n1) in
  (if s32 r >? 0 then putf f (set_f_off (u32 (f_off x + s32 r)) x) else ret tt) ;;
  onfs (iunlock (f_ip x)) ;;
  end_op ;;
  ret (s32 r).

(** The loop of [filewrite]: the count reached. *)
Fixpoint filewrite_loop (fuel : nat) (f : nat) (addr i n : Z) : FM Z :=
  match fuel with
  | O => ret i
  | S fuel' =>
      if i <? n then
        let n1 := Z.min (n - i) write_max in
        let! r := filewrite_txn f (u64 (addr + i)) n1 in
        if negb (r =? n1) then ret i else filewrite_loop fuel' f addr (i + r) n
      else ret i
  end.

Definition filewrite (killed : Z -> bool) (f : nat) (addr n : Z) : FM fout :=
  let! x := getf f in
  if writable x =? 0 then ret (FRet (-1))
  else
    match f_type x with
    | FD_PIPE =>
        let! p := getpipe (f_pipe x) in
        let! u := gets (fun s => (um (fsys s)).1) in
        let '(o, p') := pipewrite p u killed addr 0 n in
        end_pipe (f_pipe x) p' o
    | FD_DEVICE =>
        if negb (dev_ok (f_major x)) then ret (FRet (-1))
        else match dev_write (f_major x) with None => ret (FRet (-1)) | Some wr => wr addr n end
    | FD_INODE =>
        let! i := filewrite_loop (S (Z.to_nat n)) f addr 0 n in
        ret (FRet (if i =? n then n else -1))
    | FD_NONE => panic "filewrite"
    end.

(** [pipealloc]: the read and write ends, or [None] for -1. *)
Definition pipealloc : FM (option (nat * nat)) :=
  let! f0 := filealloc in
  match f0 with
  | None => ret None
  | Some f0 =>
      let! f1 := filealloc in
      match f1 with
      | None => fileclose f0 ;; ret None
      | Some f1 =>
          let! pi := kalloc_page in
          if pi =? 0 then fileclose f0 ;; fileclose f1 ;; ret None
          else
            modify (fun s => set_pipes (<[pi := new_pipe]> (pipes s)) s) ;;
            let! x0 := getf f0 in
            putf f0 (set_f_pipe 1 0 pi x0) ;;
            let! x1 := getf f1 in
            putf f1 (set_f_pipe 0 1 pi x1) ;;
            ret (Some (f0, f1))
      end
  end.
End File.
