(* ===== verification/Sysfile.v ===== *)
(** * File system calls: [kernel/sysfile.c]

    Every handler but [sys_exec] (which is with [exec]), over the state of [File.v].
    [args] are the argument registers [a0]..[a5] of the calling process, [sz] its
    size; [junk] is what the stack holds in an uninitialised [name[DIRSIZ]]; the
    directory entry buffers of [kernel/fs.c] and of [sys_unlink] are at the
    stack addresses [de_addr] and [ude]. *)

From stdpp Require Import gmap.
From S2P Require Import Prelude CString Kalloc Vm UserMem Block Log Pipe Fs File.

(** [kernel/fcntl.h] *)
Definition O_RDONLY : Z := 0x000.
Definition O_WRONLY : Z := 0x001.
Definition O_RDWR : Z := 0x002.
Definition O_CREATE : Z := 0x200.
Definition O_TRUNC : Z := 0x400.

Section Sysfile.
Context {U : Type} `{!UserMem U}.
Abbreviation FM := (M (kfs U)).
Context (dev_read dev_write : Z -> option (Z -> Z -> FM fout)).
Context (args : nat -> Z) (sz : Z) (junk : list Z) (de_addr ude : Z).

(** ** Arguments *)

Definition argint (n : nat) : Z := s32 (args n).
Definition argaddr (n : nat) : Z := args n.

(** [fetchaddr]: the value read, or [None] for -1. *)
Definition fetchaddr (addr : Z) : FM (option Z) := fun s =>
  if (addr >=? sz) || (u64 (addr + 8) >? sz) then Done None s
  else
    let '(r, bs) := ucopyin addr 8 (um (fsys s)).1 in
    Done (if negb (r =? 0) then None else Some (of_le bs)) s.

(** [fetchstr]: the string without its NUL, or [None] for -1. *)
Definition fetchstr (addr max : Z) : FM (option (list Z)) := fun s =>
  Done (@removelast Z <$> ucopyinstr addr max (um (fsys s)).1) s.

Definition argstr (n : nat) (max : Z) : FM (option (list Z)) := fetchstr (argaddr n) max.

(** [argfd]: the descriptor and its file. *)
Definition argfd (n : nat) : FM (option (Z * nat)) := fun s =>
  let fd := argint n in
  if (fd <? 0) || (fd >=? Z.of_nat NOFILE) then Done None s
  else
    match ofile s !! Z.to_nat fd with
    | Some (Some f) => Done (Some (fd, f)) s
    | _ => Done None s
    end.

Definition set_fd (fd : nat) (v : option nat) : FM unit :=
  modify (fun s => set_ofile (<[fd := v]> (ofile s)) s).

Definition fdalloc (f : nat) : FM Z := fun s =>
  match list_find (fun o => o = None) (ofile s) with
  | Some (fd, _) => Done (Z.of_nat fd) (set_ofile (<[fd := Some f]> (ofile s)) s)
  | None => Done (-1) s
  end.

(** ** Descriptors *)

Definition sys_dup : FM Z :=
  let! a := argfd 0 in
  match a with
  | None => ret (-1)
  | Some (_, f) =>
      let! fd := fdalloc f in
      if fd <? 0 then ret (-1) else let! _ := filedup f in ret fd
  end.

Definition sys_read (killed : bool) : FM fout :=
  let! a := argfd 0 in
  match a with
  | None => ret (FRet (-1))
  | Some (_, f) => fileread dev_read killed f (argaddr 1) (argint 2)
  end.

Definition sys_write (killed : Z -> bool) : FM fout :=
  let! a := argfd 0 in
  match a with
  | None => ret (FRet (-1))
  | Some (_, f) => filewrite dev_write killed f (argaddr 1) (argint 2)
  end.

Definition sys_close : FM Z :=
  let! a := argfd 0 in
  match a with
  | None => ret (-1)
  | Some (fd, f) => set_fd (Z.to_nat fd) None ;; fileclose f ;; ret 0
  end.

Definition sys_fstat (pad : list Z) : FM Z :=
  let! a := argfd 0 in
  match a with
  | None => ret (-1)
  | Some (_, f) => filestat pad f (argaddr 1)
  end.

(** ** Links *)

Definition upd_dinode (i : nat) (g : dinode -> dinode) : FM unit :=
  onfs (let! ip := geti i in puti i (set_d (g (i_d ip)) ip)).
Definition add_nlink (k : Z) (d : dinode) : dinode := set_nlink (s16 (d_nlink d + k)) d.
Definition inode_of (i : nat) : FM inode := onfs (geti i).

Definition sys_link : FM Z :=
  let! old := argstr 0 MAXPATH in
  match old with
  | None => ret (-1)
  | Some old =>
      let! new := argstr 1 MAXPATH in
      match new with
      | None => ret (-1)
      | Some new =>
          begin_op ;;
          let! c := gets cwd in
          let! ip := onfs (namei de_addr c old junk) in
          match ip with
          | None => end_op ;; ret (-1)
          | Some ip =>
              onfs (ilock ip) ;;
              let! x := inode_of ip in
              if d_type (i_d x) =? T_DIR then onfs (iunlockput ip) ;; end_op ;; ret (-1)
              else
                upd_dinode ip (add_nlink 1) ;;
                onfs (iupdate ip) ;;
                onfs (iunlock ip) ;;
                let bad : FM Z :=
                  onfs (ilock ip) ;;
                  upd_dinode ip (add_nlink (-1)) ;;
                  onfs (iupdate ip) ;;
                  onfs (iunlockput ip) ;;
                  end_op ;;
                  ret (-1) in
                let! r := onfs (nameiparent de_addr c new junk) in
                match r with
                | (None, _) => bad
                | (Some dp, name) =>
                    onfs (ilock dp) ;;
                    let! y := inode_of dp in
                    let! x := inode_of ip in
                    let! r := if negb (i_dev y =? i_dev x) then ret (-1)
                              else onfs (dirlink de_addr dp name (i_inum x)) in
                    if r <? 0 then onfs (iunlockput dp) ;; bad
                    else
                      onfs (iunlockput dp) ;;
                      onfs (iput ip) ;;
                      end_op ;;
                      ret 0
                end
          end
      end
  end.

(** The loop of [isdirempty] at [off]. *)
Fixpoint isdirempty_loop (fuel : nat) (dp : nat) (off : Z) : M (fs U) bool :=
  match fuel with
  | O => ret true
  | S fuel' =>
      let! ip := geti dp in
      if off <? d_size (i_d ip) then
        let! de := read_dirent ude dp off "isdirempty: readi" in
        if negb (de_inum de =? 0) then ret false else isdirempty_loop fuel' dp (off + DIRENT)
      else ret true
  end.
Definition isdirempty (dp : nat) : M (fs U) bool :=
  let! ip := geti dp in isdirempty_loop (dir_fuel ip) dp (2 * DIRENT).

Definition DOT : list Z := [46; 0].
Definition DOTDOT : list Z := [46; 46; 0].

Definition sys_unlink : FM Z :=
  let! path := argstr 0 MAXPATH in
  match path with
  | None => ret (-1)
  | Some path =>
      begin_op ;;
      let! c := gets cwd in
      let! r := onfs (nameiparent de_addr c path junk) in
      match r with
      | (None, _) => end_op ;; ret (-1)
      | (Some dp, name) =>
          onfs (ilock dp) ;;
          let bad : FM Z := onfs (iunlockput dp) ;; end_op ;; ret (-1) in
          if (namecmp name DOT =? 0) || (namecmp name DOTDOT =? 0) then bad
          else
            let! found := onfs (dirlookup de_addr dp name) in
            match found with
            | None => bad
            | Some (ip, off) =>
                onfs (ilock ip) ;;
                let! x := inode_of ip in
                if d_nlink (i_d x) <? 1 then panic "unlink: nlink < 1"
                else
                  let! empty := if d_type (i_d x) =? T_DIR then onfs (isdirempty ip) else ret true in
                  if negb empty then onfs (iunlockput ip) ;; bad
                  else
                    onfs (modify (fun s => set_um ((um s).1, store_bytes (um s).2 ude (replicate 16 0)) s)) ;;
                    let! w := onfs (writei dp false ude off DIRENT) in
                    if negb (w =? DIRENT) then panic "unlink: writei"
                    else
                      (if d_type (i_d x) =? T_DIR
                       then upd_dinode dp (add_nlink (-1)) ;; onfs (iupdate dp) else ret tt) ;;
                      onfs (iunlockput dp) ;;
                      upd_dinode ip (add_nlink (-1)) ;;
                      onfs (iupdate ip) ;;
                      onfs (iunlockput ip) ;;
                      end_op ;;
                      ret 0
            end
      end
  end.

(** ** Creating and opening *)

(** [create]: the new or existing inode, locked. *)
Definition create (path : list Z) (type major minor : Z) : FM (option nat) :=
  let! c := gets cwd in
  let! r := onfs (nameiparent de_addr c path junk) in
  match r with
  | (None, _) => ret None
  | (Some dp, name) =>
      onfs (ilock dp) ;;
      let! found := onfs (dirlookup de_addr dp name) in
      match found with
      | Some (ip, _) =>
          onfs (iunlockput dp) ;;
          onfs (ilock ip) ;;
          let! x := inode_of ip in
          if (type =? T_FILE) && ((d_type (i_d x) =? T_FILE) || (d_type (i_d x) =? T_DEVICE)) then ret (Some ip)
          else onfs (iunlockput ip) ;; ret None
      | None =>
          let! y := inode_of dp in
          let! a := onfs (ialloc (i_dev y) type) in
          match a with
          | None => onfs (iunlockput dp) ;; ret None
          | Some ip =>
              onfs (ilock ip) ;;
              upd_dinode ip (fun d => set_nlink 1 (set_dev_nums major minor d)) ;;
              onfs (iupdate ip) ;;
              let! x := inode_of ip in
              let! y := inode_of dp in
              let! r1 := if type =? T_DIR then onfs (dirlink de_addr ip DOT (i_inum x)) else ret 0 in
              let! r2 := if r1 <? 0 then ret r1
                         else if type =? T_DIR then onfs (dirlink de_addr ip DOTDOT (i_inum y)) else ret 0 in
              let! r3 := if r2 <? 0 then ret r2 else onfs (dirlink de_addr dp name (i_inum x)) in
              if r3 <? 0 then
                upd_dinode ip (set_nlink 0) ;;
                onfs (iupdate ip) ;;
                onfs (iunlockput ip) ;;
                onfs (iunlockput dp) ;;
                ret None
              else
                (if type =? T_DIR then upd_dinode dp (add_nlink 1) ;; onfs (iupdate dp) else ret tt) ;;
                onfs (iunlockput dp) ;;
                ret (Some ip)
          end
      end
  end.

(** [f->type], [f->ip] and the access bits of a file just opened. *)
Definition open_file (x : inode) (ip : nat) (omode : Z) (f : file) : file :=
  let rd := if Z.land omode O_WRONLY =? 0 then 1 else 0 in
  let wr := if negb (Z.land omode O_WRONLY =? 0) || negb (Z.land omode O_RDWR =? 0) then 1 else 0 in
  if d_type (i_d x) =? T_DEVICE
  then mkfile FD_DEVICE (f_ref f) rd wr (f_pipe f) ip (f_off f) (d_major (i_d x))
  else mkfile FD_INODE (f_ref f) rd wr (f_pipe f) ip 0 (f_major f).

Definition sys_open : FM Z :=
  let omode := argint 1 in
  let! path := argstr 0 MAXPATH in
  match path with
  | None => ret (-1)
  | Some path =>
      begin_op ;;
      let! ip :=
        if negb (Z.land omode O_CREATE =? 0) then create path T_FILE 0 0
        else
          let! c := gets cwd in
          let! ip := onfs (namei de_addr c path junk) in
          match ip with
          | None => ret None
          | Some ip =>
              onfs (ilock ip) ;;
              let! x := inode_of ip in
              if (d_type (i_d x) =? T_DIR) && negb (omode =? O_RDONLY)
              then onfs (iunlockput ip) ;; ret None else ret (Some ip)
          end in
      match ip with
      | None => end_op ;; ret (-1)
      | Some ip =>
          let! x := inode_of ip in
          if (d_type (i_d x) =? T_DEVICE) && negb (dev_ok (d_major (i_d x)))
          then onfs (iunlockput ip) ;; end_op ;; ret (-1)
          else
            let! f := filealloc in
            let! fd := match f with None => ret (-1) | Some f => fdalloc f end in
            if fd <? 0 then
              (match f with None => ret tt | Some f => fileclose f end) ;;
              onfs (iunlockput ip) ;;
              end_op ;;
              ret (-1)
            else
              match f with
              | None => ret (-1)
              | Some f =>
                  let! fx := getf f in
                  putf f (open_file x ip omode fx) ;;
                  (if negb (Z.land omode O_TRUNC =? 0) && (d_type (i_d x) =? T_FILE)
                   then onfs (itrunc ip) else ret tt) ;;
                  onfs (iunlock ip) ;;
                  end_op ;;
                  ret fd
              end
      end
  end.

(** The common end of [sys_mkdir] and [sys_mknod]. *)
Definition made (ip : option nat) : FM Z :=
  match ip with
  | None => end_op ;; ret (-1)
  | Some ip => onfs (iunlockput ip) ;; end_op ;; ret 0
  end.

Definition sys_mkdir : FM Z :=
  begin_op ;;
  let! path := argstr 0 MAXPATH in
  let! ip := match path with None => ret None | Some p => create p T_DIR 0 0 end in
  made ip.

Definition sys_mknod : FM Z :=
  begin_op ;;
  let! path := argstr 0 MAXPATH in
  let! ip := match path with None => ret None | Some p => create p T_DEVICE (s16 (argint 1)) (s16 (argint 2)) end in
  made ip.

Definition sys_chdir : FM Z :=
  begin_op ;;
  let! path := argstr 0 MAXPATH in
  let! c := gets cwd in
  let! ip := match path with None => ret None | Some p => onfs (namei de_addr c p junk) end in
  match ip with
  | None => end_op ;; ret (-1)
  | Some ip =>
      onfs (ilock ip) ;;
      let! x := inode_of ip in
      if negb (d_type (i_d x) =? T_DIR) then onfs (iunlockput ip) ;; end_op ;; ret (-1)
      else
        onfs (iunlock ip) ;;
        onfs (iput c) ;;
        end_op ;;
        modify (set_cwd ip) ;;
        ret 0
  end.

Definition sys_pipe : FM Z :=
  let fdarray := argaddr 0 in
  let! p := pipealloc in
  match p with
  | None => ret (-1)
  | Some (rf, wf) =>
      let! fd0 := fdalloc rf in
      let! fd1 := if fd0 <? 0 then ret (-1) else fdalloc wf in
      if fd1 <? 0 then
        (if fd0 >=? 0 then set_fd (Z.to_nat fd0) None else ret tt) ;;
        fileclose rf ;;
        fileclose wf ;;
        ret (-1)
      else
        let! r0 := copyout_user fdarray (le_bytes 4 fd0) in
        let! r1 := if r0 <? 0 then ret (-1) else copyout_user (u64 (fdarray + 4)) (le_bytes 4 fd1) in
        if r1 <? 0 then
          set_fd (Z.to_nat fd0) None ;;
          set_fd (Z.to_nat fd1) None ;;
          fileclose rf ;;
          fileclose wf ;;
          ret (-1)
        else ret 0
  end.
End Sysfile.
