(* ===== verification/FileWrite.v ===== *)
(** * Writing through a descriptor: [filewrite] as a sequence of transactions

    [filewrite] splits a write into transactions small enough for the log.  The
    theorem composes the file table, [writei], and the log: with no other
    operation in progress, a readable buffer is written completely, or up to
    where the disk is full or the file at its largest size, and what was
    written is on disk when the call returns. *)

From S2P Require Import Prelude CString Kalloc Vm VmOps UserMem Block Log LogSafe Pipe Fs FsAlloc FsInode FsDinode FsFile FsWrite File.

(** ** Transactions *)

(** Between operations. *)
Record log_idle (l : log) : Prop := {
  li_ok : log_ok l;
  li_out : outstanding l = 0;
  li_com : committing l = false;
  li_lh : lh l = []
}.

Lemma begin_op_idle l : log_idle l -> Log.begin_op l = Done true (set_outstanding 1 l).
Proof.
  intros [_ Ho Hc Hl]. unfold Log.begin_op. rewrite Hc, Hl, Ho. done.
Qed.

Lemma log_ok_outstanding l k : log_ok l -> log_ok (set_outstanding k l).
Proof. intros [H1 H2 H3 H4 H5]. by split. Qed.

Lemma lwrite_same l l' : lwrite l l' ->
  outstanding l' = outstanding l /\ committing l' = committing l /\ log_start l' = log_start l /\ log_size l' = log_size l.
Proof.
  intros [b d _ H]. unfold bstore in H. rewrite bind_modify in H. unfold log_write in H. rewrite !bind_gets in H.
  destruct (_ || _); [done|]. destruct (_ <? _); [done|]. case_decide; by injection H as <-.
Qed.

Lemma lwrites_same l l' : lwrites l l' ->
  outstanding l' = outstanding l /\ committing l' = committing l /\ log_start l' = log_start l /\ log_size l' = log_size l.
Proof.
  induction 1 as [|l l1 l' H _ IH]; [done|]. destruct (lwrite_same _ _ H) as (? & ? & ? & ?).
  destruct IH as (? & ? & ? & ?). split_and!; congruence.
Qed.

Lemma lwrites_ok l l' : lwrites l l' -> log_ok l -> log_ok l'.
Proof.
  induction 1 as [|l l1 l' [b d [H0 Hb] H] _ IH]; [done|]. intros Hok. apply IH. eapply log_ok_step; [exact Hok|].
  apply (step_write _ _ b d); [|lia|exact H]. destruct (lo_fits _ Hok) as (_ & _ & Hs & _). lia.
Qed.

Lemma apply_writes_keep ws (f : Z -> block) x : (forall y, (x, y) ∈ ws -> y = f x) -> apply_writes ws f x = f x.
Proof.
  revert f. induction ws as [|[b y] ws IH]; intros f H; [done|]. rewrite apply_writes_cons.
  assert (Hx : updb f b y x = f x).
  { unfold updb. destruct (Z.eqb_spec x b) as [<-|]; [|done]. apply H, list_elem_of_here. }
  rewrite IH; [done|]. intros z Hz. rewrite Hx. apply H. by apply list_elem_of_further.
Qed.

Lemma commit_writes_keep st size v bs x y : fits st size bs -> 0 <= st -> st + size <= x -> (x, y) ∈ commit_writes st v bs -> y = v x.
Proof.
  intros (_ & _ & Hl & _) Hst Hx. unfold commit_writes. rewrite elem_of_app, elem_of_cons, elem_of_app, list_elem_of_singleton.
  intros [H|[H|[H|H]]].
  - assert (Hf : x ∈ (log_writes v (st + 1) bs).*1) by (apply list_elem_of_fmap; by exists (x, y)).
    apply log_writes_fst in Hf. lia.
  - unfold header_write in H. injection H as -> _. lia.
  - unfold home_writes in H. apply list_elem_of_fmap in H as (b & [= -> ->] & _). done.
  - unfold header_write in H. injection H as -> _. lia.
Qed.

Lemma apply_writes_blocks ws f : blocks_ok f -> (forall x y, (x, y) ∈ ws -> block_ok y) -> blocks_ok (apply_writes ws f).
Proof.
  revert f. induction ws as [|[b y] ws IH]; intros f Hf H; [done|]. rewrite apply_writes_cons. apply IH.
  - intros x. unfold updb. destruct (_ =? _); [|done]. eapply H, list_elem_of_here.
  - intros x z Hz. eapply H. by apply list_elem_of_further.
Qed.

Lemma wr32s_ok vs : forall b i, (i + length vs <= 256)%nat -> block_ok b -> block_ok (wr32s b i vs).
Proof.
  induction vs as [|v vs IH]; intros b i Hi Hb; [done|]. cbn [wr32s length] in *. apply IH; [lia|]. apply wr32_ok; [lia|done].
Qed.

Lemma commit_writes_blocks st size v bs x y : fits st size bs -> blocks_ok v -> (x, y) ∈ commit_writes st v bs -> block_ok y.
Proof.
  intros (_ & Hl & _) Hv. unfold commit_writes. rewrite elem_of_app, elem_of_cons, elem_of_app, list_elem_of_singleton.
  intros [H|[H|[H|H]]].
  - clear Hl. revert H. generalize (st + 1). induction bs as [|b bs IH]; intros pos H; [by apply not_elem_of_nil in H|].
    cbn [log_writes] in H. apply elem_of_cons in H as [[= -> ->]|H]; [apply Hv|by eapply IH].
  - apply (f_equal snd) in H. unfold header_write in H. cbn [snd] in H. rewrite H. apply wr32s_ok; [cbn [length]; lia|apply Hv].
  - unfold home_writes in H. apply list_elem_of_fmap in H as (b & [= -> ->] & _). apply Hv.
  - apply (f_equal snd) in H. unfold header_write in H. cbn [snd] in H. rewrite H. apply wr32s_ok; [cbn [length]; lia|].
    apply wr32s_ok; [cbn [length]; lia|apply Hv].
Qed.

Lemma end_op_idle l : log_ok l -> outstanding l = 1 -> committing l = false -> 0 <= log_start l ->
  exists l', Log.end_op l = Done tt l' /\ log_idle l' /\ log_start l' = log_start l /\ log_size l' = log_size l /\
    (forall x, log_start l + log_size l <= x -> view (bio l') x = view (bio l) x) /\
    (blocks_ok (view (bio l)) -> blocks_ok (view (bio l'))).
Proof.
  intros Hok Ho Hc Hst. unfold Log.end_op. rewrite bind_modify, bind_gets. cbn [committing set_outstanding]. rewrite Hc, bind_gets.
  cbn [outstanding set_outstanding]. rewrite Ho. change (1 - 1 =? 0) with true. cbv iota. rewrite bind_modify.
  set (s1 := set_committing true _). assert (Hok1 : log_ok s1) by (destruct Hok as [H1 H2 H3 H4 H5]; by split).
  destruct (decide (lh s1 = [])) as [Hnil|Hne].
  - unfold commit. rewrite bind_assoc, bind_gets, Hnil. cbn [length]. change (0 <? Z.of_nat 0) with false. cbv iota. rewrite bind_ret.
    eexists. split; [reflexivity|]. split; [|done]. split; try done. destruct Hok1 as [H1 H2 H3 H4 H5]. by split.
  - pose proof (commit_eq s1 (lo_fits _ Hok1) Hne) as Hcm. pose proof (log_ok_committed s1 Hok1 Hne _ Hcm) as Hok2.
    rewrite (bind_Done _ _ _ _ _ Hcm). eexists. split; [reflexivity|]. split; [|split; [done|split; [done|split]]].
    + split; try done. destruct Hok2 as [H1 H2 H3 H4 H5]. by split.
    + intros x Hx. cbn [bio set_committing set_lh set_bio after_writes view set_pins].
      apply apply_writes_keep. intros y Hy. eapply commit_writes_keep; [exact (lo_fits _ Hok1)|done|done|exact Hy].
    + intros Hb. cbn [bio set_committing set_lh set_bio after_writes view set_pins].
      apply apply_writes_blocks; [done|]. intros x y Hy. eapply commit_writes_blocks; [exact (lo_fits _ Hok1)|exact Hb|exact Hy].
Qed.

(** ** One transaction *)

Section FileWrite.
Context {U : Type} `{!UserMem U}.
Context (dev_write : Z -> option (Z -> Z -> M (kfs U) fout)).

(** The blocks a write sets apart in the log. *)
Definition write_blocks (s : fs U) (y : inode) : list Z := IBLOCK (i_inum y) (sb s) :: bitmap_list (sb s).

(** An open inode file [x] of inode [y], with no operation in progress. *)
Record writable_file (s : kfs U) (f : nat) (x : file) (y : inode) : Prop := {
  wf_file : ftable s !! f = Some x;
  wf_entry : itable (fsys s) !! f_ip x = Some y;
  wf_unlocked : ilocked y = false;
  wf_ref : 1 <= i_ref y;
  wf_valid : i_valid y = true;
  wf_inv : file_inv (fsys s) y;
  wf_side : side_ok (um (fsys s));
  wf_log : log_idle (lg (fsys s));
  wf_start : 0 <= log_start (lg (fsys s));
  wf_after : Forall (after_log (lg (fsys s))) (write_blocks (fsys s) y);
  wf_room : Z.of_nat (length (write_blocks (fsys s) y)) + 5 < Z.min LOGSIZE (log_size (lg (fsys s)) - 1);
  wf_off : 0 <= f_off x <= d_size (i_d y)
}.

(** Writing [bs] at the file offset. *)
Record wrote_file (s : kfs U) (f : nat) (x : file) (y : inode) (bs : list Z) (s' : kfs U) (d' : dinode) : Prop := {
  wt_state : s' = mkkfs (fsys s') (<[f := set_f_off (f_off x + Z.of_nat (length bs)) x]> (ftable s))
      (pipes s) (freepages s) (wakes s) (ofile s) (cwd s);
  wt_ready : writable_file s' f (set_f_off (f_off x + Z.of_nat (length bs)) x) (set_d d' y);
  wt_table : itable (fsys s') = <[f_ip x := set_d d' y]> (itable (fsys s));
  wt_um : um (fsys s') = um (fsys s);
  wt_sb : sb (fsys s') = sb (fsys s);
  wt_size : d_size d' = Z.max (d_size (i_d y)) (f_off x + Z.of_nat (length bs));
  wt_bytes o : 0 <= o < d_size d' ->
    file_byte (V (fsys s')) d' o =
      if in_range o (f_off x) bs then nth (Z.to_nat (o - f_off x)) bs 0 else file_byte (V (fsys s)) (i_d y) o
}.

Lemma chunks_max off n : 0 <= off -> 0 <= n <= write_max -> chunks off n <= 4.
Proof.
  intros Ho Hn. change write_max with 3072 in Hn. unfold chunks. pose proof (Z.mod_pos_bound off BSIZE ltac:(done)).
  enough ((off mod BSIZE + n + BSIZE - 1) / BSIZE < 5) by lia. apply Z.div_lt_upper_bound; unfold BSIZE in *; lia.
Qed.

(** The invariant of a file only depends on the blocks after the log. *)
Lemma file_inv_agree (s s' : fs U) y d L :
  sb s' = sb s -> L <= sb_bmapstart (sb s) -> (forall x, L <= x -> V s' x = V s x) -> blocks_ok (V s') ->
  file_inv s (set_d d y) -> file_inv s' (set_d d y).
Proof.
  intros Hsb HL Hag Hb [K1 K2 K3 K4 K5 K6 K7].
  assert (Hag' : forall x, sb_bmapstart (sb s) <= x -> V s' x = V s x) by (intros x Hx; apply Hag; lia).
  split; rewrite ?Hsb; try done.
  - by apply (meta_bitmap (sb s) (V s)).
  - by apply (meta_inode (sb s) (V s)).
  - destruct K3 as [F1 F2]. split; [done|]. intros bn H0 Hlt. destruct (F2 bn H0 Hlt) as (F3 & _).
    assert (He : iblk (V s') (i_d (set_d d y)) bn = iblk (V s) (i_d (set_d d y)) bn) by (by apply (meta_slot (sb s) (V s))).
    rewrite He. split; [done|]. apply Hb.
Qed.

Lemma bytes_at_lookup (g : Z -> option Z) a n bs : bytes_at g a n = Some bs ->
  length bs = n /\ forall k, (k < n)%nat -> g (a + Z.of_nat k) = bs !! k.
Proof.
  revert a bs. induction n as [|n IH]; intros a bs H; cbn [bytes_at] in H.
  - injection H as <-. split; [done|lia].
  - destruct (g a) as [b|] eqn:Hb; [|done]. destruct (bytes_at g (a + 1) n) as [l|] eqn:Hl; [|done]. injection H as <-.
    destruct (IH _ _ Hl) as [H1 H2]. split; [cbn; lia|]. intros [|k] Hk; [by rewrite Z.add_0_r|].
    cbn [lookup list_lookup]. rewrite <- H2 by lia. f_equal. lia.
Qed.

Lemma bytes_at_prefix (g : Z -> option Z) a n bs0 k bs :
  bytes_at g a n = Some bs0 -> bytes_at g a k = Some bs -> (k <= n)%nat -> bs = take k bs0.
Proof.
  intros H0 Hk Hle. destruct (bytes_at_lookup _ _ _ _ H0) as [L0 E0]. destruct (bytes_at_lookup _ _ _ _ Hk) as [L1 E1].
  apply list_eq. intros j. destruct (decide (j < k)%nat).
  - rewrite lookup_take_lt by done. by rewrite <- E1, <- E0 by lia.
  - rewrite !lookup_ge_None_2; [done|rewrite length_take; lia|lia].
Qed.

(** Leaving the transaction. *)
Lemma finish_txn (s : kfs U) ip z (v : Z) :
  itable (fsys s) !! ip = Some z -> ilocked z = true -> 1 <= i_ref z ->
  log_ok (lg (fsys s)) -> outstanding (lg (fsys s)) = 1 -> committing (lg (fsys s)) = false -> 0 <= log_start (lg (fsys s)) ->
  exists l', (onfs (iunlock ip) ;; end_op ;; ret v) s =
      Done v (set_fsys (set_lg l' (set_itable (<[ip := set_locked false z]> (itable (fsys s))) (fsys s))) s) /\
    log_idle l' /\ log_start l' = log_start (lg (fsys s)) /\ log_size l' = log_size (lg (fsys s)) /\
    (forall b, log_start l' + log_size l' <= b -> view (bio l') b = V (fsys s) b) /\
    (blocks_ok (V (fsys s)) -> blocks_ok (view (bio l'))).
Proof.
  intros Hz Hlk Hr Hok Ho Hc Hst. destruct (end_op_idle _ Hok Ho Hc Hst) as (l' & He & Hid & E1 & E2 & Hv & Hb).
  exists l'. split; [|by rewrite E1, E2].
  set (f1 := set_itable (<[ip := set_locked false z]> (itable (fsys s))) (fsys s)).
  assert (Hu : onfs (iunlock ip) s = Done tt (set_fsys f1 s)).
  { unfold onfs, iunlock. rewrite (bind_Done _ _ _ _ _ (geti_eq (fsys s) ip z Hz)), Hlk.
    destruct (Z.ltb_spec (i_ref z) 1); [lia|]. done. }
  rewrite (bind_Done _ _ _ _ _ Hu).
  assert (Hend : end_op (set_fsys f1 s) = Done tt (set_fsys (set_lg l' f1) s)).
  { unfold end_op, onfs, onlog. cbn [fsys set_fsys]. change (lg f1) with (lg (fsys s)). by rewrite He. }
  by rewrite (bind_Done _ _ _ _ _ Hend).
Qed.

(** The start of the transaction: the inode locked, one operation open. *)
Definition in_txn (s : fs U) (ip : nat) (y : inode) : fs U :=
  set_itable (<[ip := set_locked true y]> (itable s)) (set_lg (set_outstanding 1 (lg s)) s).

Lemma start_txn s f x y {A} (k : file -> M (kfs U) A) : writable_file s f x y ->
  (begin_op ;; let! x := getf f in onfs (ilock (f_ip x)) ;; k x) s = k x (set_fsys (in_txn (fsys s) (f_ip x) y) s).
Proof.
  intros [H1 H2 H3 H4 H5 H6 H7 H8 H9 H10 H11 H12].
  set (f1 := set_lg (set_outstanding 1 (lg (fsys s))) (fsys s)).
  assert (Hb : begin_op s = Done tt (set_fsys f1 s)).
  { unfold begin_op, onfs, onlog, bind. by rewrite (begin_op_idle _ H8). }
  rewrite (bind_Done _ _ _ _ _ Hb).
  assert (Hg : getf f (set_fsys f1 s) = Done x (set_fsys f1 s)) by (unfold getf; cbn [ftable set_fsys]; by rewrite H1).
  rewrite (bind_Done _ _ _ _ _ Hg).
  assert (Hl : onfs (ilock (f_ip x)) (set_fsys f1 s) = Done tt (set_fsys (in_txn (fsys s) (f_ip x) y) s)).
  { unfold onfs, ilock. cbn [fsys set_fsys]. rewrite (bind_Done _ _ _ _ _ (geti_eq f1 (f_ip x) y H2)).
    destruct (Z.ltb_spec (i_ref y) 1); [lia|]. by rewrite H3, H5. }
  by rewrite (bind_Done _ _ _ _ _ Hl).
Qed.

Lemma in_txn_inv s f x y : writable_file s f x y ->
  let s1 := in_txn (fsys s) (f_ip x) y in
  itable s1 !! f_ip x = Some (set_locked true y) /\ file_inv s1 (set_locked true y) /\ log_ok (lg s1) /\
  forall k, Z.of_nat (length (write_blocks (fsys s) y)) + k < Z.min LOGSIZE (log_size (lg (fsys s)) - 1) ->
    log_room (lg s1) (write_blocks (fsys s) y) k.
Proof.
  intros [H1 H2 H3 H4 H5 H6 H7 H8 H9 H10 H11 H12] s1. split; [|split; [|split]].
  - apply list_lookup_insert_eq. by eapply lookup_lt_Some.
  - destruct H6 as [K1 K2 K3 K4 K5 K6 K7]. by split.
  - apply log_ok_outstanding, H8.
  - intros k Hk. apply empty_log_room; [done|apply H8|done|]. exact H10.
Qed.

Lemma set_f_off_same x : set_f_off (f_off x) x = x.
Proof. by destruct x. Qed.

Lemma advance_off (s : kfs U) f x r : ftable s !! f = Some x -> 0 <= r -> 0 <= f_off x -> f_off x + r < 2 ^ 32 ->
  (if r >? 0 then putf f (set_f_off (u32 (f_off x + r)) x) else ret tt) s =
  Done tt (set_ftable (<[f := set_f_off (f_off x + r) x]> (ftable s)) s).
Proof.
  intros Hf Hr Ho Hlt. rewrite Z.gtb_ltb. destruct (Z.ltb_spec 0 r).
  - by rewrite u32_small by lia.
  - assert (r = 0) as -> by lia. rewrite Z.add_0_r, set_f_off_same, list_insert_id by done. by destruct s.
Qed.

(** The log lies before the bitmap. *)
Lemma log_before_bitmap (s : kfs U) f x y : writable_file s f x y ->
  log_start (lg (fsys s)) + log_size (lg (fsys s)) <= sb_bmapstart (sb (fsys s)).
Proof.
  intros [H1 H2 H3 H4 H5 H6 H7 H8 H9 H10 H11 H12].
  rewrite Forall_forall in H10. destruct (H10 (BBLOCK 0 (sb (fsys s)))) as [_ [Hx _]].
  - apply list_elem_of_further. apply bbloc_in; [|done]. pose proof (bm_size _ _ (fi_bitmap _ _ H6)). lia.
  - unfold BBLOCK in Hx. rewrite Z.div_0_l in Hx by done. lia.
Qed.

(** Blocks that agree from the bitmap on hold the same bytes of a file. *)
Lemma file_byte_agree (s1 : fs U) ip (v' : Z -> block) o :
  file_inv s1 ip -> (forall b, sb_bmapstart (sb s1) <= b -> v' b = V s1 b) -> 0 <= o < d_size (i_d ip) ->
  file_byte v' (i_d ip) o = file_byte (V s1) (i_d ip) o.
Proof.
  intros Hinv Hag Ho. pose proof (fo_size _ _ (fi_file _ _ Hinv)) as Hsz.
  apply (meta_byte (sb s1) (V s1)); [done|apply (fi_bitmap _ _ Hinv)|apply (fi_inode _ _ Hinv)|lia|].
  apply (fo_block _ _ (fi_file _ _ Hinv) (o / BSIZE)); [apply Z.div_pos; [lia|done]|].
  pose proof (Z.div_mod o BSIZE ltac:(done)). pose proof (Z.mod_pos_bound o BSIZE ltac:(done)). lia.
Qed.

(** The offset is advanced by what was written. *)
Lemma advance_txn (s : kfs U) f x r (bs : list Z) :
  ftable s !! f = Some x -> Z.of_nat (length bs) <= 3072 -> r = Z.of_nat (length bs) \/ (r = -1 /\ bs = []) ->
  0 <= f_off x -> f_off x + Z.of_nat (length bs) < 2 ^ 32 ->
  (if r >? 0 then putf f (set_f_off (u32 (f_off x + r)) x) else ret tt) s =
  Done tt (set_ftable (<[f := set_f_off (f_off x + Z.of_nat (length bs)) x]> (ftable s)) s).
Proof.
  intros Hf Hl [->|[-> ->]] Ho Hm; [apply advance_off; done || lia|].
  exact (advance_off s f x 0 Hf ltac:(lia) ltac:(lia) ltac:(cbn [length] in Hm; lia)).
Qed.

(** Closing a transaction that wrote [bs]; [r] is the result of [writei]. *)
Lemma close_txn (s : kfs U) f x y (s1 : fs U) d' r bs :
  writable_file s f x y -> Z.of_nat (length bs) <= 3072 -> r = Z.of_nat (length bs) \/ (r = -1 /\ bs = []) ->
  upd_inode (in_txn (fsys s) (f_ip x) y) (f_ip x) (set_locked true y) d' s1 ->
  lwrites (lg (in_txn (fsys s) (f_ip x) y)) (lg s1) ->
  file_inv s1 (set_d d' (set_locked true y)) ->
  d_size d' = Z.max (d_size (i_d y)) (f_off x + Z.of_nat (length bs)) ->
  (forall o, 0 <= o < d_size d' -> file_byte (V s1) d' o =
     if in_range o (f_off x) bs then nth (Z.to_nat (o - f_off x)) bs 0 else file_byte (V (fsys s)) (i_d y) o) ->
  exists s', (let! _ := (if s32 r >? 0 then putf f (set_f_off (u32 (f_off x + s32 r)) x) else ret tt) in
      onfs (iunlock (f_ip x)) ;; end_op ;; ret (s32 r)) (set_fsys s1 s) = Done r s' /\
    wrote_file s f x y bs s' d' /\
    (forall b, log_start (lg (fsys s)) + log_size (lg (fsys s)) <= b -> V (fsys s') b = V s1 b).
Proof.
  intros Hwf Hr Hrl Hu Hlw Hinv1 Hsize Hbytes. pose proof Hwf as [H1 H2 H3 H4 H5 H6 H7 H8 H9 H10 H11 H12].
  pose proof (fo_size _ _ (fi_file _ _ Hinv1)) as Hsz. cbn [i_d set_d] in Hsz.
  assert (Hmx : MAXFILE * BSIZE < 2 ^ 32) by done.
  rewrite s32_small by (destruct Hrl as [?|[? _]]; lia).
  rewrite (bind_Done _ _ _ _ _ (advance_txn (set_fsys s1 s) f x r bs H1 Hr Hrl ltac:(lia) ltac:(lia))).
  cbn [ftable set_fsys]. set (sA := set_ftable _ (set_fsys s1 s)). destruct Hu as (Hsb & Hum & Htab).
  destruct (in_txn_inv s f x y Hwf) as (_ & _ & Hok1 & _).
  destruct (lwrites_same _ _ Hlw) as (L1 & L2 & L3 & L4). pose proof (lwrites_ok _ _ Hlw Hok1) as Hok.
  assert (Hlt : (f_ip x < length (itable (fsys s)))%nat) by (by eapply lookup_lt_Some).
  destruct (finish_txn sA (f_ip x) (set_d d' (set_locked true y)) r) as (l' & Hfin & Hid & E1 & E2 & Hv & Hb);
    cbn [sA fsys set_ftable set_fsys].
  { rewrite Htab. unfold in_txn. cbn [itable set_itable]. apply list_lookup_insert_eq. by rewrite length_insert. }
  { done. } { done. } { done. } { by rewrite L1. } { rewrite L2. apply H8. } { rewrite L3. done. }
  cbn [sA fsys set_ftable set_fsys] in Hfin, E1, E2, Hv, Hb. rewrite L3 in E1. rewrite L4 in E2.
  change (log_start (lg (in_txn (fsys s) (f_ip x) y))) with (log_start (lg (fsys s))) in *.
  change (log_size (lg (in_txn (fsys s) (f_ip x) y))) with (log_size (lg (fsys s))) in *.
  set (s' := set_fsys _ sA) in Hfin. exists s'. split; [exact Hfin|].
  assert (Hag : forall b, log_start (lg (fsys s)) + log_size (lg (fsys s)) <= b -> V (fsys s') b = V s1 b).
  { intros b Hbb. rewrite E1, E2 in Hv. by apply Hv. }
  split; [|done].
  assert (Hsb' : sb (fsys s') = sb (fsys s)) by exact Hsb.
  assert (Hy : set_locked false (set_d d' (set_locked true y)) = set_d d' y) by (destruct y; cbn in *; by subst).
  assert (Htab' : itable (fsys s') = <[f_ip x := set_d d' y]> (itable (fsys s))).
  { cbn [s' sA fsys set_fsys set_ftable itable set_lg set_itable]. rewrite Htab, Hy. unfold in_txn. cbn [itable set_itable].
    by rewrite !list_insert_insert_eq. }
  pose proof (log_before_bitmap s f x y Hwf) as HL.
  assert (Hinv' : file_inv (fsys s') (set_d d' y)).
  { apply (file_inv_agree s1 (fsys s') y d' (log_start (lg (fsys s)) + log_size (lg (fsys s)))); try done.
    - rewrite Hsb. exact HL.
    - apply Hb. apply (fi_blocks _ _ Hinv1).
    - destruct Hinv1 as [K1 K2 K3 K4 K5 K6 K7]. by split. }
  split; [done| |exact Htab'|done|done|done|].
  - split; try done.
    + cbn [s' sA ftable set_fsys set_ftable]. apply list_lookup_insert_eq. by eapply lookup_lt_Some.
    + cbn [f_ip set_f_off]. rewrite Htab'. by apply list_lookup_insert_eq.
    + cbn [s' sA fsys set_fsys set_ftable um set_lg set_itable]. by rewrite Hum.
    + cbn [s' sA fsys set_fsys lg set_lg]. by rewrite E1.
    + unfold write_blocks. rewrite Hsb'. cbn [i_inum set_d]. unfold after_log in *. cbn [s' sA fsys set_fsys lg set_lg]. by rewrite E1, E2.
    + unfold write_blocks. rewrite Hsb'. cbn [s' sA fsys set_fsys lg set_lg]. by rewrite E2.
    + cbn [f_off set_f_off i_d set_d]. lia.
  - intros o Ho. transitivity (file_byte (V s1) d' o); [|by apply Hbytes].
    apply (file_byte_agree s1 (set_d d' (set_locked true y)) _ o Hinv1); [|done].
    intros b Hbb. apply Hag. rewrite Hsb in Hbb. change (sb (in_txn _ _ _)) with (sb (fsys s)) in Hbb. lia.
Qed.

Lemma filewrite_txn_spec s f x y a n1 bs0 :
  writable_file s f x y -> 0 <= a -> a + n1 < 2 ^ 64 -> 0 < n1 <= write_max ->
  bytes_at (ubyte (um (fsys s)).1) a (Z.to_nat n1) = Some bs0 ->
  exists r (k : nat) s' d', filewrite_txn f a n1 s = Done r s' /\ wrote_file s f x y (take k bs0) s' d' /\ (k <= length bs0)%nat /\
    ((r = n1 /\ k = length bs0) \/
     (r <> n1 /\ (disk_full (sb (fsys s)) (V (fsys s')) \/ MAXFILE * BSIZE < f_off x + n1))).
Proof.
  intros Hwf Ha Han Hn1 Hread. pose proof Hwf as [H1 H2 H3 H4 H5 H6 H7 H8 H9 H10 H11 H12].
  destruct (bytes_at_lookup _ _ _ _ Hread) as [Hlen Hsome]. change write_max with 3072 in Hn1.
  destruct (in_txn_inv s f x y Hwf) as (Hi1 & Hinv1 & Hok1 & Hroom). set (s1 := in_txn (fsys s) (f_ip x) y) in *.
  pose proof (fo_size _ _ (fi_file _ _ H6)) as Hsz. assert (Hmx : MAXFILE * BSIZE < 2 ^ 32) by done.
  pose proof (chunks_max (f_off x) n1 ltac:(lia) ltac:(change write_max with 3072; lia)) as Hch.
  pose proof (writei_spec s1 (f_ip x) (set_locked true y) true a (f_off x) n1 Hi1 Hinv1 H7 Ha Han ltac:(lia) ltac:(lia)
    (Hroom (1 + chunks (f_off x) n1) ltac:(lia))) as Hw.
  unfold filewrite_txn. rewrite (start_txn s f x y _ Hwf). fold s1. cbn [i_d set_locked] in Hw.
  destruct (Z.ltb_spec (d_size (i_d y)) (f_off x)); [lia|]. cbn [orb] in Hw.
  destruct (Z.ltb_spec (MAXFILE * BSIZE) (f_off x + n1)) as [Hbig|Hfit].
  - assert (Hw' : onfs (writei (f_ip x) true a (f_off x) n1) (set_fsys s1 s) = Done (-1) (set_fsys s1 s)) by (unfold onfs; cbn [fsys set_fsys]; by rewrite Hw).
    rewrite (bind_Done _ _ _ _ _ Hw').
    destruct (close_txn s f x y s1 (i_d y) (-1) []) as (s' & Hc & Hwr & Hag); try done.
    + by right.
    + split; [done|]. split; [done|]. cbn [s1 in_txn itable set_itable]. by rewrite list_insert_insert_eq.
    + cbn [length]. change (Z.of_nat 0) with 0. lia.
    + intros o Ho. by rewrite in_range_nil.
    + exists (-1), 0%nat, s', (i_d y). split; [exact Hc|]. rewrite take_0. split; [done|]. split; [lia|]. right. split; [lia|by right].
  - destruct Hw as (r & bs & s2 & d' & Hw & Hp & Hat & Hr & Hbs & Hshort & _ & Hlog).
    assert (Hread' : forall j, (j < Z.to_nat n1)%nat -> dbyte true (um s1) (a + Z.of_nat j) <> None).
    { intros j Hj. change (dbyte true (um s1) (a + Z.of_nat j)) with (ubyte (um (fsys s)).1 (a + Z.of_nat j)).
      rewrite Hsome by done.
      destruct (lookup_lt_is_Some_2 bs0 j) as [b Hb]; [lia|]. by rewrite Hb. }
    assert (Hnone : ~ (Z.of_nat (length bs) < n1 /\ dbyte true (um s1) (a + Z.of_nat (length bs)) = None)).
    { intros [Hlt Hn]. by apply (Hread' (length bs)); [lia|]. }
    destruct Hlog as [[Hlw Hrl]|?]; [|done].
    assert (Hpre : bs = take (length bs) bs0) by (eapply bytes_at_prefix; [exact Hread|exact Hat|lia]).
    assert (Hw' : onfs (writei (f_ip x) true a (f_off x) n1) (set_fsys s1 s) = Done r (set_fsys s2 s)) by (unfold onfs; cbn [fsys set_fsys]; by rewrite Hw).
    rewrite (bind_Done _ _ _ _ _ Hw').
    destruct (close_txn s f x y s2 d' r bs) as (s' & Hc & Hwr & Hag); try done.
    + lia.
    + by left.
    + exact (wp_inode _ _ _ _ _ _ _ _ Hp).
    + exact (wp_inv _ _ _ _ _ _ _ _ Hp).
    + rewrite (wp_size _ _ _ _ _ _ _ _ Hp). cbn [i_d set_locked]. lia.
    + exact (wp_bytes _ _ _ _ _ _ _ _ Hp).
    + exists r, (length bs), s', d'. rewrite <- Hpre. split; [exact Hc|]. split; [done|]. split; [lia|].
      destruct (decide (r = n1)) as [->|Hne]; [left; split; [done|lia]|right]. split; [done|]. left.
      destruct Hshort as [?|[Hfull|?]]; [done| |done]. intros j Hj. specialize (Hfull j Hj). cbn [s1 in_txn sb set_itable set_lg] in Hfull.
      rewrite <- Hfull. unfold allocated. rewrite Hag; [done|]. pose proof (bbloc_range (sb (fsys s)) j Hj).
      rewrite Forall_forall in H10. destruct (H10 (BBLOCK j (sb (fsys s)))) as [_ [Hx _]]; [|done].
      apply list_elem_of_further. by apply bbloc_in.
Qed.

Lemma bytes_at_intro (g : Z -> option Z) l : forall a,
  (forall k, (k < length l)%nat -> g (a + Z.of_nat k) = l !! k) -> bytes_at g a (length l) = Some l.
Proof.
  induction l as [|b l IH]; intros a H; [done|]. cbn [length bytes_at].
  pose proof (H 0%nat ltac:(cbn; lia)) as H0. rewrite Z.add_0_r in H0. rewrite H0. cbn.
  rewrite (IH (a + 1)); [done|]. intros k Hk. change (l !! k) with ((b :: l) !! S k). rewrite <- (H (S k) ltac:(cbn; lia)). f_equal. lia.
Qed.

Lemma bytes_at_sub (g : Z -> option Z) a n bs i m : bytes_at g a n = Some bs -> (i + m <= n)%nat ->
  bytes_at g (a + Z.of_nat i) m = Some (take m (drop i bs)).
Proof.
  intros H Him. destruct (bytes_at_lookup _ _ _ _ H) as [Hl Hg].
  assert (Hlen : length (take m (drop i bs)) = m) by (rewrite length_take, length_drop; lia).
  pose proof (bytes_at_intro g (take m (drop i bs)) (a + Z.of_nat i)) as Hi. rewrite Hlen in Hi. apply Hi.
  intros k Hk. rewrite lookup_take_lt, lookup_drop by done. rewrite <- Hg by lia. f_equal. lia.
Qed.

(** ** The loop *)

Lemma wrote_file_nil s f x y : writable_file s f x y -> wrote_file s f x y [] s (i_d y).
Proof.
  intros Hwf. pose proof Hwf as [H1 H2 H3 H4 H5 H6 H7 H8 H9 H10 H11 H12].
  split; cbn [length]; change (Z.of_nat 0) with 0; rewrite ?Z.add_0_r, ?set_f_off_same, ?set_d_same, ?list_insert_id; try done.
  - by destruct s.
  - lia.
  - intros o Ho. by rewrite in_range_nil.
Qed.

Lemma wrote_file_app s f x y bs1 s1 d1 bs2 s2 d2 :
  writable_file s f x y -> wrote_file s f x y bs1 s1 d1 ->
  wrote_file s1 f (set_f_off (f_off x + Z.of_nat (length bs1)) x) (set_d d1 y) bs2 s2 d2 ->
  wrote_file s f x y (bs1 ++ bs2) s2 d2.
Proof.
  intros Hwf [A1 A2 A3 A4 A5 A6 A7] [B1 B2 B3 B4 B5 B6 B7]. cbn [f_off set_f_off f_ip i_d set_d] in *.
  pose proof (wf_off _ _ _ _ Hwf) as Hoff. pose proof (wf_off _ _ _ _ A2) as Hoff1. cbn [f_off set_f_off i_d set_d] in Hoff1.
  rewrite <- Z.add_assoc, <- Nat2Z.inj_add, <- length_app in B1, B2, B6.
  assert (Hset : forall v w, set_f_off v (set_f_off w x) = set_f_off v x) by done.
  assert (Hd : set_d d2 (set_d d1 y) = set_d d2 y) by done. rewrite Hset in B1, B2. rewrite Hd in B2, B3.
  split; [|done| |congruence|congruence|rewrite length_app in *; lia|].
  - rewrite B1. f_equal; rewrite A1; try done. cbn [ftable]. by rewrite list_insert_insert_eq.
  - rewrite B3, A3. by rewrite list_insert_insert_eq.
  - intros o Ho. rewrite (B7 o Ho).
    assert (Hr : in_range o (f_off x) (bs1 ++ bs2) =
      in_range o (f_off x) bs1 || in_range o (f_off x + Z.of_nat (length bs1)) bs2).
    { apply eq_true_iff_eq. rewrite orb_true_iff, !in_range_iff, length_app. lia. }
    rewrite Hr. destruct (in_range o (f_off x + Z.of_nat (length bs1)) bs2) eqn:H2.
    + rewrite orb_true_r. apply in_range_iff in H2. rewrite app_nth2 by lia. f_equal. lia.
    + rewrite orb_false_r. apply not_true_iff_false in H2. rewrite in_range_iff in H2.
      rewrite A7 by (rewrite length_app in B6; lia). destruct (in_range o (f_off x) bs1) eqn:H1; [|done].
      apply in_range_iff in H1. rewrite app_nth1 by lia. done.
Qed.

Lemma filewrite_loop_spec f addr n bs0 u : 0 <= addr -> addr + n < 2 ^ 64 -> 0 <= n < 2 ^ 31 ->
  bytes_at (ubyte u) addr (Z.to_nat n) = Some bs0 ->
  forall fuel s x y i, writable_file s f x y -> (um (fsys s)).1 = u -> (i <= Z.to_nat n)%nat -> (Z.to_nat n - i < fuel)%nat ->
  exists j (k : nat) s' d', filewrite_loop fuel f addr (Z.of_nat i) n s = Done j s' /\
    wrote_file s f x y (take k (drop i bs0)) s' d' /\ (k <= Z.to_nat n - i)%nat /\
    ((j = n /\ k = (Z.to_nat n - i)%nat) \/
     (j <> n /\ (disk_full (sb (fsys s)) (V (fsys s')) \/ MAXFILE * BSIZE < f_off x + (n - Z.of_nat i)))).
Proof.
  intros Ha Han Hn Hread. destruct (bytes_at_lookup _ _ _ _ Hread) as [Hlen _].
  induction fuel as [|fuel IH]; intros s x y i Hwf Hu Hi Hfu; [lia|]. cbn [filewrite_loop].
  destruct (Z.ltb_spec (Z.of_nat i) n) as [Hlt|Hge].
  2: { exists (Z.of_nat i), 0%nat, s, (i_d y). split; [done|]. rewrite take_0. split; [by apply wrote_file_nil|]. split; [lia|]. left. lia. }
  set (n1 := Z.min (n - Z.of_nat i) write_max).
  assert (Hn1 : 0 < n1 <= write_max /\ n1 <= n - Z.of_nat i) by (unfold n1; change write_max with 3072; lia).
  rewrite u64_small by lia.
  pose proof (bytes_at_sub _ _ _ _ i (Z.to_nat n1) Hread ltac:(lia)) as Hsub. rewrite <- Hu in Hsub.
  destruct (filewrite_txn_spec s f x y (addr + Z.of_nat i) n1 _ Hwf ltac:(lia) ltac:(lia) ltac:(lia) Hsub) as (r & k & s1 & d1 & H1 & H2 & Hk & H3).
  rewrite (bind_Done _ _ _ _ _ H1). rewrite length_take, length_drop in Hk, H3. rewrite take_take in H2.
  replace (k `min` Z.to_nat n1)%nat with k in H2 by lia. destruct H3 as [[-> ->]|[Hne Hwhy]].
  - rewrite Z.eqb_refl. cbn [negb]. replace (Z.to_nat n1 `min` (length bs0 - i))%nat with (Z.to_nat n1) in H2 by lia.
    set (c := take (Z.to_nat n1) (drop i bs0)) in *. assert (Hc : Z.of_nat (length c) = n1) by (unfold c; rewrite length_take, length_drop; lia).
    destruct (IH s1 (set_f_off (f_off x + Z.of_nat (length c)) x) (set_d d1 y) (i + Z.to_nat n1)%nat) as (j & k2 & s2 & d2 & K1 & K2 & K3 & K4).
    { exact (wt_ready _ _ _ _ _ _ _ H2). } { by rewrite (wt_um _ _ _ _ _ _ _ H2). } { lia. } { lia. }
    replace (Z.of_nat (i + Z.to_nat n1)) with (Z.of_nat i + n1) in K1, K4 by lia.
    exists j, (Z.to_nat n1 + k2)%nat, s2, d2. split; [exact K1|]. split; [|split; [lia|]].
    + assert (Happ : take (Z.to_nat n1 + k2) (drop i bs0) = c ++ take k2 (drop (i + Z.to_nat n1) bs0)).
      { rewrite <- drop_drop. unfold c. symmetry. apply take_take_drop. }
      rewrite Happ. eapply wrote_file_app; done.
    + destruct K4 as [[-> ->]|[Hne Hwhy]]; [left; split; [done|lia]|right]. split; [done|].
      rewrite (wt_sb _ _ _ _ _ _ _ H2) in Hwhy. cbn [f_off set_f_off] in Hwhy. destruct Hwhy; [by left|right; lia].
  - apply Z.eqb_neq in Hne. rewrite Hne. cbn [negb]. exists (Z.of_nat i), k, s1, d1. split; [done|]. split; [done|]. split; [lia|].
    right. split; [lia|]. destruct Hwhy; [by left|right; lia].
Qed.

(** C11: writing a readable buffer to an open file, with no other file system
    operation in progress.  [filewrite] returns [n] when all bytes were
    written at the file's offset, and -1 only when the disk is full or the
    file would exceed its largest size; then a prefix was written.  The offset
    advances past what was written, no transaction exceeds the log, and when
    the call returns everything written is on disk: no block outside the log
    differs from its disk copy. *)
Theorem filewrite_durable (s : kfs U) (f : nat) (x : file) (y : inode) (killed : Z -> bool) (addr n : Z) (bs : list Z) :
  writable_file s f x y -> f_type x = FD_INODE -> writable x <> 0 ->
  0 <= addr -> addr + n < 2 ^ 64 -> 0 <= n < 2 ^ 31 ->
  bytes_at (ubyte (um (fsys s)).1) addr (Z.to_nat n) = Some bs ->
  exists r (k : nat) s' d', filewrite dev_write killed f addr n s = Done (FRet r) s' /\
    wrote_file s f x y (take k bs) s' d' /\
    ((r = n /\ k = length bs) \/
     (r = -1 /\ (disk_full (sb (fsys s)) (V (fsys s')) \/ MAXFILE * BSIZE < f_off x + n))) /\
    let l := lg (fsys s') in
    lh l = [] /\ forall b, ~ (log_start l <= b < log_start l + log_size l) -> disk (bio l) b = V (fsys s') b.
Proof.
  intros Hwf Ht Hwr Ha Han Hn Hread. destruct (bytes_at_lookup _ _ _ _ Hread) as [Hlen _].
  destruct (filewrite_loop_spec f addr n bs _ Ha Han Hn Hread (S (Z.to_nat n)) s x y 0 Hwf eq_refl ltac:(lia) ltac:(lia))
    as (j & k & s' & d' & H1 & H2 & H3 & H4).
  rewrite drop_0 in H2. change (Z.of_nat 0) with 0 in *. rewrite Z.sub_0_r in H4. rewrite Nat.sub_0_r in H4.
  exists (if j =? n then n else -1), k, s', d'. split; [|split; [done|split]].
  - unfold filewrite. assert (Hg : getf f s = Done x s) by (unfold getf; by rewrite (wf_file _ _ _ _ Hwf)).
    rewrite (bind_Done _ _ _ _ _ Hg). apply Z.eqb_neq in Hwr. rewrite Hwr, Ht. by rewrite (bind_Done _ _ _ _ _ H1).
  - destruct H4 as [[-> ->]|[Hne Hwhy]]; [left; rewrite Z.eqb_refl; split; [done|lia]|right]. apply Z.eqb_neq in Hne. by rewrite Hne.
  - pose proof (wf_log _ _ _ _ (wt_ready _ _ _ _ _ _ _ H2)) as [Hok _ _ Hlh]. split; [done|]. intros b Hb.
    symmetry. apply (lo_clean _ Hok b Hb). rewrite Hlh. apply not_elem_of_nil.
Qed.
End FileWrite.

(** ** Writing five bytes to an empty file *)

Definition idle_fs : fs (list Z) :=
  mkfs demo_sb (mklog 2 30 0 false [] (mkbdev demo_view demo_view [] []))
    [set_locked false demo_inode] (replicate 16 7, ramp) [].
Definition open_state : kfs (list Z) :=
  mkkfs idle_fs [mkfile FD_INODE 1 0 1 0 0 0 0] ∅ [] [] [] 0.

Lemma idle_log : log_idle (lg idle_fs).
Proof.
  split; try done. split; try done.
  split; [apply NoDup_nil_2|]. split; [cbn; lia|]. split; [done|]. intros b Hb. by apply not_elem_of_nil in Hb.
Qed.

Lemma open_state_ok : writable_file open_state 0 (mkfile FD_INODE 1 0 1 0 0 0 0) (set_locked false demo_inode).
Proof.
  split; try done.
  - destruct demo_file_inv as [K1 K2 K3 K4 K5 K6 K7]. by split.
  - split; [apply Forall_replicate; lia|exact ramp_ok].
  - exact idle_log.
  - repeat constructor; done.
Qed.

Lemma filewrite_durable_witness :
  exists r (k : nat) s' d', filewrite (fun _ => None) (fun _ => false) 0 3 5 open_state = Done (FRet r) s' /\
    wrote_file open_state 0 (mkfile FD_INODE 1 0 1 0 0 0 0) (set_locked false demo_inode) (take k (replicate 5 7)) s' d'.
Proof.
  destruct (filewrite_durable (fun _ => None) open_state 0 _ _ (fun _ => false) 3 5 (replicate 5 7) open_state_ok)
    as (r & k & s' & d' & H1 & H2 & _).
  - reflexivity.
  - done.
  - lia.
  - lia.
  - lia.
  - reflexivity.
  - exists r, k, s', d'. split; [exact H1|exact H2].
Defined.
