(* ===== verification/FileRefs.v ===== *)
(** * References to open files and pipe ends

    The invariant [refs_ok]: the reference count of every open file is the given
    number of references, a file without references has no type, every open
    pipe end has its pipe with that end open, each end belongs to one file, and no
    page of a pipe is free.  Each operation of [File.v] changes the
    number of references as it should: [filealloc] and [filedup] add one,
    [fileclose] gives one back, [pipealloc] makes two files with one each, and reading,
    writing and the file system itself keep them. *)

From stdpp Require Import gmap.
From S2P Require Import Prelude CString Kalloc Vm UserMem Block Log Pipe Fs File Sysfile.

Section Refs.
Context {U : Type} `{!UserMem U}.
Abbreviation FM := (M (kfs U)).

(** Descriptors that refer to [f]. *)
Definition count (f : nat) (t : list (option nat)) : Z := Z.of_nat (length (filter (fun o => o = Some f) t)).

(** An open end of the pipe in page [pi]. *)
Definition live_pipe (x : file) (pi : Z) (wr : bool) : Prop :=
  0 < f_ref x /\ f_type x = FD_PIPE /\ f_pipe x = pi /\ negb (writable x =? 0) = wr.

Definition is_open (p : pipe) (wr : bool) : Prop := (if wr then writeopen p else readopen p) <> 0.

(** [r f] is the number of references to file [f]. *)
Record refs_ok (r : nat -> Z) (s : kfs U) : Prop := {
  ro_ref f : r f = default 0 (f_ref <$> ftable s !! f);
  ro_free f x : ftable s !! f = Some x -> f_ref x = 0 -> f_type x = FD_NONE;
  ro_pipe f x pi wr : ftable s !! f = Some x -> live_pipe x pi wr -> exists p, pipes s !! pi = Some p /\ is_open p wr;
  ro_uniq f g x y pi wr : ftable s !! f = Some x -> ftable s !! g = Some y ->
    live_pipe x pi wr -> live_pipe y pi wr -> f = g;
  ro_pages : NoDup (freepages s) /\ forall pi, pi ∈ freepages s -> pipes s !! pi = None
}.

Definition held (r : nat -> Z) (f : nat) (d : Z) : nat -> Z := fun g => if decide (g = f) then r g + d else r g.

Lemma held_same r f d : held r f d f = r f + d.
Proof. unfold held. by rewrite decide_True. Qed.
Lemma held_other r f d g : g <> f -> held r f d g = r g.
Proof. intros. unfold held. by rewrite decide_False. Qed.
Lemma held_held r f d e g : held (held r f d) f e g = held r f (d + e) g.
Proof. unfold held. case_decide; lia. Qed.

Lemma refs_ext r r' s : (forall f, r f = r' f) -> refs_ok r s -> refs_ok r' s.
Proof. intros Hc [H1 H2 H3 H4 H5]. split; try done. intros f. rewrite <- Hc. by apply H1. Qed.

(** Only these three fields matter. *)
Lemma refs_frame r s s' : ftable s' = ftable s -> pipes s' = pipes s -> freepages s' = freepages s ->
  refs_ok r s -> refs_ok r s'.
Proof. intros Hf Hp Hg [H1 H2 H3 H4 H5]. split; rewrite ?Hf, ?Hp, ?Hg; done. Qed.

Lemma refs_lookup r s f x : refs_ok r s -> ftable s !! f = Some x -> f_ref x = r f.
Proof. intros Hr Hf. rewrite (ro_ref _ _ Hr f), Hf. done. Qed.

Lemma count_insert f t fd o v : t !! fd = Some o ->
  count f (<[fd := v]> t) = count f t - (if decide (o = Some f) then 1 else 0) + (if decide (v = Some f) then 1 else 0).
Proof.
  unfold count. revert fd. induction t as [|a t IH]; intros fd H; [done|]. destruct fd as [|fd].
  - apply Some_inj in H as ->. change (<[0%nat := v]> (o :: t)) with (v :: t).
    rewrite !filter_cons. repeat case_decide; cbn [length]; lia.
  - change (t !! fd = Some o) in H. change (<[S fd := v]> (a :: t)) with (a :: <[fd := v]> t).
    rewrite !filter_cons. specialize (IH fd H). repeat case_decide; cbn [length]; lia.
Qed.

Lemma count_pos f t fd : t !! fd = Some (Some f) -> 1 <= count f t.
Proof.
  unfold count. revert fd. induction t as [|a t IH]; intros fd H; [done|]. rewrite filter_cons. destruct fd as [|fd].
  - apply Some_inj in H as ->. rewrite decide_True by done. cbn [length]. lia.
  - specialize (IH fd H). case_decide; cbn [length]; lia.
Qed.

Lemma count_nonneg f t : 0 <= count f t.
Proof. unfold count. lia. Qed.

(** ** Changing one file *)

Lemma refs_put r s f x x' :
  refs_ok r s -> ftable s !! f = Some x -> (f_ref x' = 0 -> f_type x' = FD_NONE) ->
  (forall pi wr, live_pipe x' pi wr ->
     (exists p, pipes s !! pi = Some p /\ is_open p wr) /\
     forall g y, g <> f -> ftable s !! g = Some y -> live_pipe y pi wr -> False) ->
  refs_ok (held r f (f_ref x' - f_ref x)) (set_ftable (<[f := x']> (ftable s)) s).
Proof.
  intros [H1 H2 H3 H4 H5] Hf Hfree Hlive. pose proof (lookup_lt_Some _ _ _ Hf) as Hlt.
  assert (Hget : forall g y, <[f := x']> (ftable s) !! g = Some y -> (g = f /\ y = x') \/ (g <> f /\ ftable s !! g = Some y)).
  { intros g y Hy. destruct (decide (g = f)) as [->|Hg].
    - rewrite list_lookup_insert_eq in Hy by done. left. split; congruence.
    - rewrite list_lookup_insert_ne in Hy by done. by right. }
  split; cbn [ftable ofile pipes freepages set_ftable]; try done.
  - intros g. destruct (decide (g = f)) as [->|Hg].
    + rewrite held_same, list_lookup_insert_eq, (H1 f), Hf by done. cbn. lia.
    + rewrite held_other, list_lookup_insert_ne by done. apply H1.
  - intros g y Hy. destruct (Hget g y Hy) as [[-> ->]|[_ Hy']]; [done|by eapply H2].
  - intros g y pi wr Hy Hl. destruct (Hget g y Hy) as [[-> ->]|[_ Hy']]; [by apply Hlive|by eapply H3].
  - intros g h y z pi wr Hy Hz Hly Hlz.
    destruct (Hget g y Hy) as [[-> ->]|[Hg Hy']], (Hget h z Hz) as [[-> ->]|[Hh Hz']].
    + done.
    + destruct (Hlive _ _ Hly) as [_ Hn]. by destruct (Hn h z Hh Hz' Hlz).
    + destruct (Hlive _ _ Hlz) as [_ Hn]. by destruct (Hn g y Hg Hy' Hly).
    + by eapply (H4 g h y z).
Qed.

(** A change that opens no pipe end. *)
Lemma refs_put_same r s f x x' d :
  refs_ok r s -> ftable s !! f = Some x -> (f_ref x' = 0 -> f_type x' = FD_NONE) ->
  (forall pi wr, live_pipe x' pi wr -> live_pipe x pi wr) -> d = f_ref x' - f_ref x ->
  refs_ok (held r f d) (set_ftable (<[f := x']> (ftable s)) s).
Proof.
  intros Hr Hf Hfree Hlive ->. apply refs_put; try done. intros pi wr Hl. apply Hlive in Hl as Hx. split; [by eapply ro_pipe|].
  intros g y Hg Hy Hly. apply Hg. by eapply (ro_uniq _ _ Hr g f y x pi wr).
Qed.

Lemma filealloc_refs r s o s' : refs_ok r s -> filealloc s = Done o s' ->
  match o with
  | None => s' = s
  | Some f => exists x, ftable s !! f = Some x /\ f_ref x = 0 /\ f_type x = FD_NONE /\
      s' = set_ftable (<[f := set_f_ref 1 x]> (ftable s)) s /\ refs_ok (held r f 1) s'
  end.
Proof.
  intros Hr H. unfold filealloc in H. destruct (list_find _ _) as [[f x]|] eqn:Hf; injection H as <- <-; [|done].
  apply list_find_Some in Hf as (Hx & H0 & _). pose proof (ro_free _ _ Hr f x Hx H0) as Ht. exists x. split_and!; try done.
  apply (refs_put_same r s f x); try done; [|cbn; lia]. intros pi wr (_ & Hp & _). cbn in Hp. congruence.
Qed.

Lemma filedup_refs r s f g s' : refs_ok r s -> filedup f s = Done g s' ->
  g = f /\ refs_ok (held r f 1) s' /\ ofile s' = ofile s.
Proof.
  intros Hr H. unfold filedup, getf, bind in H. destruct (ftable s !! f) as [x|] eqn:Hx; [|done].
  destruct (Z.ltb_spec (f_ref x) 1); [done|]. injection H as <- <-. split_and!; try done.
  apply (refs_put_same r s f x); try done; [cbn; lia| |cbn; lia]. intros pi wr (? & ? & ? & ?). split; [lia|done].
Qed.

(** ** Steps that touch neither files nor pipes *)

Definition same_files (s s' : kfs U) : Prop :=
  ftable s' = ftable s /\ pipes s' = pipes s /\ freepages s' = freepages s /\ ofile s' = ofile s.

Definition only_fs {A} (m : FM A) : Prop := forall s a s', m s = Done a s' -> same_files s s'.

Lemma same_files_refl s : same_files s s.
Proof. done. Qed.
Lemma same_files_trans s1 s2 s3 : same_files s1 s2 -> same_files s2 s3 -> same_files s1 s3.
Proof. unfold same_files. intuition congruence. Qed.

Lemma refs_same r s s' : same_files s s' -> refs_ok r s -> refs_ok r s'.
Proof. intros (? & ? & ? & _). by apply refs_frame. Qed.

Lemma only_fs_ret {A} (a : A) : only_fs (ret a).
Proof. intros s b s' H. injection H as <- <-. done. Qed.
Lemma only_fs_panic {A} msg : only_fs (panic msg : FM A).
Proof. done. Qed.
Lemma only_fs_gets {A} (f : kfs U -> A) : only_fs (gets f).
Proof. intros s b s' H. injection H as <- <-. done. Qed.
Lemma only_fs_bind {A B} (m : FM A) (k : A -> FM B) : only_fs m -> (forall a, only_fs (k a)) -> only_fs (bind m k).
Proof. intros Hm Hk s b s' H. apply bind_Done_inv in H as (a & s1 & H1 & H2). eapply same_files_trans; [by eapply Hm|by eapply Hk]. Qed.
Lemma only_fs_onfs {A} (m : M (fs U) A) : only_fs (onfs m).
Proof. intros s a s' H. unfold onfs in H. destruct (m (fsys s)); [|done]. injection H as <- <-. done. Qed.
Lemma only_fs_copyout va bs : only_fs (copyout_user va bs).
Proof. intros s a s' H. unfold copyout_user in H. destruct (ucopyout _ _ _). injection H as <- <-. done. Qed.
Lemma only_fs_getf f : only_fs (getf f).
Proof. intros s a s' H. unfold getf in H. destruct (ftable s !! f); [|done]. injection H as <- <-. done. Qed.
Lemma only_fs_fetchstr addr max : only_fs (fetchstr addr max).
Proof. intros s a s' H. injection H as <- <-. done. Qed.
Lemma only_fs_cwd i : only_fs (modify (set_cwd i)).
Proof. intros s a s' H. injection H as <- <-. done. Qed.
Lemma only_fs_begin : only_fs begin_op.
Proof. apply only_fs_onfs. Qed.
Lemma only_fs_end : only_fs end_op.
Proof. apply only_fs_onfs. Qed.
Lemma only_fs_dinode i g : only_fs (upd_dinode i g).
Proof. apply only_fs_onfs. Qed.
Lemma only_fs_inode i : only_fs (inode_of i).
Proof. apply only_fs_onfs. Qed.

End Refs.

Ltac only_fs_step :=
  first [ assumption | apply only_fs_ret | apply only_fs_panic | apply only_fs_gets | apply only_fs_onfs | apply only_fs_copyout
        | apply only_fs_getf | apply only_fs_fetchstr | apply only_fs_cwd | apply only_fs_begin | apply only_fs_end
        | apply only_fs_dinode | apply only_fs_inode
        | apply only_fs_bind; [|intros] | progress cbv zeta | progress cbv beta
        | match goal with
          | |- only_fs (match ?x with _ => _ end) => destruct x
          | |- only_fs (let '(_, _) := ?x in _) => destruct x
          end ].
Ltac only_fs_tac := repeat only_fs_step.

Section Ops.
Context {U : Type} `{!UserMem U}.
Abbreviation FM := (M (kfs U)).
Implicit Types s : kfs U.

Lemma create_only_fs junk de path t ma mi : only_fs (create junk de path t ma mi).
Proof. unfold create. only_fs_tac. Qed.
Lemma sys_link_only_fs args junk de : only_fs (sys_link args junk de).
Proof. unfold sys_link, argstr. only_fs_tac. Qed.
Lemma sys_unlink_only_fs args junk de ude : only_fs (sys_unlink args junk de ude).
Proof. unfold sys_unlink, argstr. only_fs_tac. Qed.
Lemma made_only_fs ip : only_fs (made ip : FM Z).
Proof. unfold made. only_fs_tac. Qed.
Lemma sys_chdir_only_fs args junk de : only_fs (sys_chdir args junk de).
Proof. unfold sys_chdir, argstr. only_fs_tac. Qed.
Lemma filestat_only_fs pad f addr : only_fs (filestat pad f addr).
Proof. unfold filestat. only_fs_tac. Qed.

(** ** Closing *)

Lemma refs_set_pipe r s pi p' :
  refs_ok r s -> pi ∉ freepages s ->
  (forall f x wr, ftable s !! f = Some x -> live_pipe x pi wr -> is_open p' wr) ->
  refs_ok r (set_pipes (<[pi := p']> (pipes s)) s).
Proof.
  intros [H1 H2 H3 H4 [H5 H6]] Hpi Hopen. split; cbn [ftable pipes freepages set_pipes]; try done.
  - intros f x q wr Hx Hl. destruct (decide (q = pi)) as [->|Hq].
    + exists p'. rewrite lookup_insert_eq. split; [done|by eapply Hopen].
    + rewrite lookup_insert_ne by done. by eapply H3.
  - split; [done|]. intros q Hq. rewrite lookup_insert_ne by set_solver. by apply H6.
Qed.

Lemma refs_del_pipe r s pi p :
  refs_ok r s -> pipes s !! pi = Some p -> (forall f x wr, ftable s !! f = Some x -> live_pipe x pi wr -> False) ->
  refs_ok r (set_freepages (pi :: freepages s) (set_pipes (delete pi (pipes s)) s)).
Proof.
  intros [H1 H2 H3 H4 [H5 H6]] Hpi Hno. split; cbn [ftable pipes freepages set_pipes set_freepages]; try done.
  - intros f x q wr Hx Hl. destruct (decide (q = pi)) as [->|Hq]; [by destruct (Hno f x wr)|].
    rewrite lookup_delete_ne by done. by eapply H3.
  - split; [constructor; [|done]; intros Hin; rewrite (H6 pi Hin) in Hpi; done|].
    intros q [->|Hq]%elem_of_cons; [apply lookup_delete_eq|].
    destruct (decide (q = pi)) as [->|]; [apply lookup_delete_eq|rewrite lookup_delete_ne by done; by apply H6].
Qed.

Lemma is_open_close p w wr : is_open p wr -> wr <> negb (w =? 0) -> is_open (pipeclose p w).1.1 wr.
Proof. unfold is_open, pipeclose. intros H Hw. destruct (w =? 0), wr; done. Qed.

Lemma pipeclose_refs r s pi w u s' :
  refs_ok r s -> (forall f x, ftable s !! f = Some x -> live_pipe x pi (negb (w =? 0)) -> False) ->
  pipeclose_at pi w s = Done u s' -> refs_ok r s' /\ ofile s' = ofile s.
Proof.
  intros Hr Hno H. unfold pipeclose_at, getpipe, bind in H. destruct (pipes s !! pi) as [p|] eqn:Hp; [|done].
  assert (Hlive : forall f x wr, ftable s !! f = Some x -> live_pipe x pi wr -> is_open (pipeclose p w).1.1 wr).
  { intros f x wr Hx Hl. destruct (ro_pipe _ _ Hr f x pi wr Hx Hl) as (q & Hq & Ho). rewrite Hp in Hq. apply Some_inj in Hq as <-.
    apply is_open_close; [done|]. intros ->. by eapply Hno. }
  assert (Hfree : pi ∉ freepages s). { intros Hin. rewrite (proj2 (ro_pages _ _ Hr) pi Hin) in Hp. done. }
  destruct (pipeclose p w) as [[p' c] b] eqn:Hc. cbn in Hlive, H. destruct b.
  - injection H as <- <-. split; [|done]. assert (readopen p' = 0 /\ writeopen p' = 0) as [Hro Hwo].
    { unfold pipeclose in Hc. destruct (negb (w =? 0)); injection Hc as <- <- ?; cbn in *; lia. }
    refine (refs_frame r _ _ _ _ _ (refs_del_pipe r s pi p Hr Hp _)); try done.
    intros f x wr Hx Hl. specialize (Hlive f x wr Hx Hl). unfold is_open in Hlive. destruct wr; done.
  - injection H as <- <-. split; [|done]. refine (refs_frame r _ _ _ _ _ (refs_set_pipe r s pi p' Hr Hfree Hlive)); done.
Qed.

Lemma iput_txn_only_fs i : only_fs (begin_op ;; onfs (iput i) ;; end_op : FM unit).
Proof. only_fs_tac. Qed.

(** [fileclose] gives back one reference. *)
Lemma fileclose_refs r s f u s' : refs_ok r s -> fileclose f s = Done u s' -> refs_ok (held r f (-1)) s' /\ ofile s' = ofile s.
Proof.
  intros Hr H. unfold fileclose in H. apply bind_Done_inv in H as (x & s1 & Hx & H). unfold getf in Hx.
  destruct (ftable s !! f) as [y|] eqn:Hf; [|done]. injection Hx as -> <-. destruct (Z.ltb_spec (f_ref x) 1); [done|].
  rewrite Z.gtb_ltb in H. destruct (Z.ltb_spec 0 (f_ref x - 1)).
  - injection H as <- <-. split; [|done]. apply (refs_put_same r s f x); try done; [cbn; lia| |cbn; lia].
    intros pi wr (? & ? & ? & ?). split; [lia|done].
  - apply bind_Done_inv in H as ([] & s2 & H2 & H). injection H2 as <-.
    assert (Hr2 : refs_ok (held r f (-1)) (set_ftable (<[f := set_f_closed x]> (ftable s)) s)).
    { apply (refs_put_same r s f x); try done; [|cbn; lia]. intros pi wr (? & _). cbn in *. lia. }
    destruct (f_type x) eqn:Ht.
    + injection H as <- <-. done.
    + eapply pipeclose_refs in H; [done|done|]. cbn [ftable set_ftable]. intros g y Hy Hl.
      destruct (decide (g = f)) as [->|Hg].
      * rewrite list_lookup_insert_eq in Hy by (by eapply lookup_lt_Some). apply Some_inj in Hy as <-. destruct Hl as (? & _). cbn in *. lia.
      * rewrite list_lookup_insert_ne in Hy by done. apply Hg. eapply (ro_uniq _ _ Hr g f y x); try done. split_and!; [lia|done..].
    + apply iput_txn_only_fs in H. split; [by eapply refs_same|apply H].
    + apply iput_txn_only_fs in H. split; [by eapply refs_same|apply H].
Qed.

(** ** Reading and writing *)

Definition keeps {A} (m : FM A) : Prop :=
  forall r s a s', refs_ok r s -> m s = Done a s' -> refs_ok r s' /\ ofile s' = ofile s.

Lemma keeps_only {A} (m : FM A) : only_fs m -> keeps m.
Proof. intros Hm r s a s' Hr H. apply Hm in H. split; [by eapply refs_same|apply H]. Qed.
Lemma refs_keeps_bind {A B} (m : FM A) (k : A -> FM B) : keeps m -> (forall a, keeps (k a)) -> keeps (bind m k).
Proof.
  intros Hm Hk r s b s' Hr H. apply bind_Done_inv in H as (a & s1 & H1 & H2). destruct (Hm r s a s1 Hr H1) as [Hr1 Ho].
  destruct (Hk a r s1 b s' Hr1 H2) as [Hr2 Ho2]. split; [done|congruence].
Qed.

(** Moving the offset of a file that was read before [m]. *)
Lemma keeps_offset {A B} (f : nat) (m : file -> FM A) (off : file -> A -> Z) (upd : A -> bool) (k : file -> A -> FM B) :
  (forall x, only_fs (m x)) -> (forall x a, only_fs (k x a)) ->
  keeps (let! x := getf f in let! a := m x in (if upd a then putf f (set_f_off (off x a) x) else ret tt) ;; k x a).
Proof.
  intros Hm Hk r s b s' Hr H. apply bind_Done_inv in H as (x & s1 & Hx & H). unfold getf in Hx.
  destruct (ftable s !! f) as [y|] eqn:Hf; [|done]. injection Hx as -> <-.
  apply bind_Done_inv in H as (a & s2 & Ha & H). apply Hm in Ha. assert (Hr2 : refs_ok r s2) by (by eapply refs_same).
  apply bind_Done_inv in H as ([] & s3 & H3 & H). apply Hk in H.
  assert (refs_ok r s3 /\ ofile s3 = ofile s2) as [Hr3 Ho3].
  { destruct (upd a); injection H3 as <-; [|done]. split; [|done].
    eapply refs_ext; [|apply (refs_put_same r s2 f x _ 0 Hr2)].
    - intros g. unfold held. case_decide; lia.
    - destruct Ha as (-> & _). done.
    - exact (ro_free _ _ Hr f x Hf).
    - done.
    - cbn. lia. }
  split; [by eapply refs_same|]. destruct H as (_ & _ & _ & ->), Ha as (_ & _ & _ & <-). done.
Qed.

Lemma keeps_end_pipe pi p p' o r s a s' : refs_ok r s -> pipes s !! pi = Some p ->
  readopen p' = readopen p -> writeopen p' = writeopen p -> end_pipe pi p' o s = Done a s' ->
  refs_ok r s' /\ ofile s' = ofile s.
Proof.
  intros Hr Hp Hro Hwo H. assert (Hn : refs_ok r (set_pipes (<[pi := p']> (pipes s)) s)).
  { apply refs_set_pipe; [done| |].
    - intros Hin. rewrite (proj2 (ro_pages _ _ Hr) pi Hin) in Hp. done.
    - intros f x wr Hx Hl. destruct (ro_pipe _ _ Hr f x pi wr Hx Hl) as (q & Hq & Ho). rewrite Hp in Hq. apply Some_inj in Hq as <-.
      unfold is_open in *. destruct wr; congruence. }
  unfold end_pipe in H. destruct o; injection H as <- <-; (split; [refine (refs_frame r _ _ _ _ _ Hn); done|done]).
Qed.

Lemma pipewrite_loop_open fuel p (u : U) kl addr i n w j p' : pipewrite_loop fuel p u kl addr i n = (w, j, p') ->
  readopen p' = readopen p /\ writeopen p' = writeopen p.
Proof.
  revert p i. induction fuel as [|fuel IH]; intros p i H; cbn [pipewrite_loop] in H; [by injection H as <- <- <-|].
  destruct (i <? n); [|by injection H as <- <- <-]. destruct (_ || _); [by injection H as <- <- <-|].
  destruct (_ =? _); [by injection H as <- <- <-|]. destruct (ucopyin _ _ _) as [c bs].
  destruct (c =? -1); [by injection H as <- <- <-|]. apply IH in H. done.
Qed.

Lemma piperead_loop_open fuel p (u : U) addr i n j p' u' : piperead_loop fuel p u addr i n = (j, p', u') ->
  readopen p' = readopen p /\ writeopen p' = writeopen p.
Proof.
  revert p u i. induction fuel as [|fuel IH]; intros p u i H; cbn [piperead_loop] in H; [by injection H as <- <- <-|].
  destruct (i <? n); [|by injection H as <- <- <-]. destruct (_ =? _); [by injection H as <- <- <-|].
  destruct (ucopyout _ _ _) as [c v]. destruct (c =? -1); [by injection H as <- <- <-|]. apply IH in H. done.
Qed.

Lemma pipewrite_open p (u : U) kl addr i n o p' : pipewrite p u kl addr i n = (o, p') ->
  readopen p' = readopen p /\ writeopen p' = writeopen p.
Proof.
  unfold pipewrite. destruct (pipewrite_loop _ _ _ _ _ _ _) as [[w j] q] eqn:Hl. apply pipewrite_loop_open in Hl.
  destruct w; injection 1 as <- <-; done.
Qed.
Lemma piperead_open p (u : U) kl addr n o p' u' : piperead p u kl addr n = (o, p', u') ->
  readopen p' = readopen p /\ writeopen p' = writeopen p.
Proof.
  unfold piperead. destruct (_ && _); [destruct kl; by injection 1 as <- <- <-|].
  destruct (piperead_loop _ _ _ _ _ _) as [[j q] v] eqn:Hl. apply piperead_loop_open in Hl. injection 1 as <- <- <-. done.
Qed.

Section Devices.
Context (dev_read dev_write : Z -> option (Z -> Z -> FM fout)).
(** A device driver touches neither open files nor pipes. *)
Hypothesis dev_read_fs : forall m rd addr n, dev_read m = Some rd -> only_fs (rd addr n).
Hypothesis dev_write_fs : forall m wr addr n, dev_write m = Some wr -> only_fs (wr addr n).

Lemma getpipe_Done pi (s : kfs U) p s' : getpipe pi s = Done p s' -> pipes s !! pi = Some p /\ s' = s.
Proof. unfold getpipe. destruct (pipes s !! pi); [|done]. injection 1 as <- <-. done. Qed.

Lemma fileread_keeps kl f addr n : keeps (fileread dev_read kl f addr n).
Proof.
  intros r s a s' Hr H. unfold fileread in H.
  apply bind_Done_inv in H as (x & s1 & Hx & H). unfold getf in Hx. destruct (ftable s !! f) as [y|] eqn:Hf; [|done]. injection Hx as -> <-.
  destruct (readable x =? 0) eqn:Hrd; [injection H as <- <-; done|]. destruct (f_type x) eqn:Ht; [done| | |].
  - apply bind_Done_inv in H as (p & s1 & [Hp ->]%getpipe_Done & H). rewrite bind_gets in H.
    destruct (piperead _ _ _ _ _) as [[o p'] u'] eqn:Hq. apply piperead_open in Hq as [Hro Hwo]. rewrite bind_modify in H.
    eapply keeps_end_pipe in H as [H1 H2]; [|by apply (refs_frame r s)|exact Hp|done|done]. done.
  - refine (keeps_offset f (fun x => onfs (ilock (f_ip x)) ;; onfs (readi (f_ip x) true addr (f_off x) (u32 n)))
      (fun x a => u32 (f_off x + s32 a)) (fun a => s32 a >? 0) (fun x a => onfs (iunlock (f_ip x)) ;; ret (FRet (s32 a))) _ _ r s a s' Hr _).
    + intros. only_fs_tac.
    + intros. only_fs_tac.
    + unfold bind in H |- *. unfold getf. rewrite Hf. destruct (onfs (ilock (f_ip x)) s); [|done]. exact H.
  - revert H. destruct (negb _); [intros H; injection H as <- <-; done|]. destruct (dev_read (f_major x)) as [rd|] eqn:Hd.
    + intros H. by eapply keeps_only; [eapply dev_read_fs| |].
    + intros H. injection H as <- <-. done.
Qed.

Lemma filewrite_txn_keeps f addr n1 : keeps (filewrite_txn f addr n1).
Proof.
  unfold filewrite_txn. apply refs_keeps_bind; [apply keeps_only, only_fs_begin|intros _]. intros r s a s' Hr H.
  refine (keeps_offset f (fun x => onfs (ilock (f_ip x)) ;; onfs (writei (f_ip x) true addr (f_off x) n1))
      (fun x a => u32 (f_off x + s32 a)) (fun a => s32 a >? 0) (fun x a => onfs (iunlock (f_ip x)) ;; end_op ;; ret (s32 a)) _ _ r s a s' Hr _).
  - intros. only_fs_tac.
  - intros. only_fs_tac.
  - unfold bind in H |- *. unfold getf in H |- *. destruct (ftable s !! f) as [x|]; [|done].
    destruct (onfs (ilock (f_ip x)) s); [|done]. exact H.
Qed.

Lemma filewrite_loop_keeps fuel f addr i n : keeps (filewrite_loop fuel f addr i n).
Proof.
  revert i. induction fuel as [|fuel IH]; intros i; cbn [filewrite_loop]; [apply keeps_only, only_fs_ret|].
  destruct (i <? n); [|apply keeps_only, only_fs_ret]. apply refs_keeps_bind; [apply filewrite_txn_keeps|intros a].
  destruct (negb _); [apply keeps_only, only_fs_ret|apply IH].
Qed.

Lemma filewrite_keeps kl f addr n : keeps (filewrite dev_write kl f addr n).
Proof.
  unfold filewrite. apply refs_keeps_bind; [apply keeps_only, only_fs_getf|intros x].
  destruct (writable x =? 0); [apply keeps_only, only_fs_ret|]. destruct (f_type x) eqn:Ht.
  - apply keeps_only, only_fs_panic.
  - intros r s a s' Hr H. apply bind_Done_inv in H as (p & s1 & [Hp ->]%getpipe_Done & H). rewrite bind_gets in H.
    destruct (pipewrite _ _ _ _ _) as [o p'] eqn:Hq. apply pipewrite_open in Hq as [Hro Hwo].
    by eapply keeps_end_pipe in H.
  - apply refs_keeps_bind; [apply filewrite_loop_keeps|intros]. apply keeps_only, only_fs_ret.
  - destruct (negb _); [apply keeps_only, only_fs_ret|]. destruct (dev_write (f_major x)) as [wr|] eqn:Hd.
    + apply keeps_only. by eapply dev_write_fs.
    + apply keeps_only, only_fs_ret.
Qed.
End Devices.

(** ** Opening a pipe *)

Lemma pipe_end_live a b rd wr pi x : f_ref x = 1 -> (live_pipe (set_f_pipe rd wr pi x) a b <-> a = pi /\ b = negb (wr =? 0)).
Proof. intros Hx. unfold live_pipe. cbn. rewrite Hx. intuition (congruence || lia). Qed.

(** A fresh file becomes an end of a pipe with no such end. *)
Lemma refs_new_end r s f x rd wr pi p :
  refs_ok r s -> ftable s !! f = Some x -> f_ref x = 1 -> pipes s !! pi = Some p -> is_open p (negb (wr =? 0)) ->
  (forall g y, ftable s !! g = Some y -> live_pipe y pi (negb (wr =? 0)) -> False) ->
  refs_ok r (set_ftable (<[f := set_f_pipe rd wr pi x]> (ftable s)) s).
Proof.
  intros Hr Hf Hx Hp Ho Hno.
  eapply refs_ext; [|apply (refs_put r s f x (set_f_pipe rd wr pi x) Hr Hf)].
  - intros g. unfold held. cbn. case_decide; lia.
  - cbn. lia.
  - intros q w. rewrite pipe_end_live by done. intros [-> ->]. split; [by exists p|]. intros g y _. apply Hno.
Qed.

Lemma kalloc_page_refs r s pi s' : refs_ok r s -> kalloc_page s = Done pi s' ->
  refs_ok r s' /\ ftable s' = ftable s /\ ofile s' = ofile s /\ pipes s' = pipes s /\
  (pi <> 0 -> (pi ∉ freepages s') /\ pipes s !! pi = None).
Proof.
  intros Hr H. unfold kalloc_page in H. destruct (freepages s) as [|p l] eqn:Hl; injection H as <- <-; [done|].
  destruct (ro_pages _ _ Hr) as [Hnd Hfree]. rewrite Hl in Hnd, Hfree. apply NoDup_cons in Hnd as [Hp Hnd].
  split_and!; try done.
  - destruct Hr as [H1 H2 H3 H4 _]. split; cbn; try done. split; [done|]. intros q Hq. apply Hfree. by right.
  - intros _. split; [done|]. apply Hfree. by left.
Qed.

(** The end of [pipealloc]: two fresh files around a new pipe. *)
Lemma refs_new_pipe r s f0 f1 x0 x1 pi o s' :
  refs_ok r s -> f0 <> f1 -> ftable s !! f0 = Some x0 -> ftable s !! f1 = Some x1 -> f_ref x0 = 1 -> f_ref x1 = 1 ->
  pi ∉ freepages s -> pipes s !! pi = None ->
  (modify (fun s => set_pipes (<[pi := new_pipe]> (pipes s)) s) ;;
   let! x0 := getf f0 in putf f0 (set_f_pipe 1 0 pi x0) ;;
   let! x1 := getf f1 in putf f1 (set_f_pipe 0 1 pi x1) ;; ret (Some (f0, f1))) s = Done o s' ->
  o = Some (f0, f1) /\ refs_ok r s' /\ ofile s' = ofile s.
Proof.
  intros Hr Hne Hx0 Hx1 H0 H1 Hnf Hnp H.
  assert (Hnl : forall f x wr, ftable s !! f = Some x -> live_pipe x pi wr -> False).
  { intros f x wr Hx Hl. destruct (ro_pipe _ _ Hr f x pi wr Hx Hl) as (q & Hq & _). congruence. }
  rewrite bind_modify in H. unfold getf, putf, bind, modify in H. cbn [ftable set_pipes set_ftable] in H. rewrite Hx0 in H.
  cbn [ftable set_pipes set_ftable] in H. rewrite list_lookup_insert_ne, Hx1 in H by done. injection H as <- <-. split_and!; try done.
  assert (Hr1 : refs_ok r (set_pipes (<[pi := new_pipe]> (pipes s)) s)).
  { apply refs_set_pipe; try done. intros f x wr Hx Hl. by destruct (Hnl f x wr). }
  assert (Hr2 : refs_ok r (set_ftable (<[f0 := set_f_pipe 1 0 pi x0]> (ftable s)) (set_pipes (<[pi := new_pipe]> (pipes s)) s))).
  { apply (refs_new_end r _ f0 x0 1 0 pi new_pipe Hr1); try done; [apply lookup_insert_eq|]. intros g y Hy. by apply (Hnl g y). }
  apply (refs_new_end r _ f1 x1 0 1 pi new_pipe Hr2); try done; cbn [ftable pipes set_ftable set_pipes].
  - by rewrite list_lookup_insert_ne.
  - apply lookup_insert_eq.
  - intros g y Hy Hl. destruct (decide (g = f0)) as [->|Hg].
    + rewrite list_lookup_insert_eq in Hy by (by eapply lookup_lt_Some). apply Some_inj in Hy as <-.
      apply pipe_end_live in Hl as [_ Hl]; done.
    + rewrite list_lookup_insert_ne in Hy by done. by apply (Hnl g y true).
Qed.

Lemma pipealloc_refs r s o s' : refs_ok r s -> pipealloc s = Done o s' ->
  ofile s' = ofile s /\
  match o with
  | None => refs_ok r s'
  | Some (f0, f1) => refs_ok (held (held r f0 1) f1 1) s'
  end.
Proof.
  intros Hr H. unfold pipealloc in H. apply bind_Done_inv in H as ([f0|] & s1 & H1 & H); apply (filealloc_refs r) in H1; try done;
    [|injection H as <- <-; by subst]. destruct H1 as (x0 & Hx0 & Hr0 & Ht0 & Hs1 & Hr1).
  apply bind_Done_inv in H as ([f1|] & s2 & H2 & H); apply (filealloc_refs (held r f0 1)) in H2; try done.
  2: { subst s2. apply bind_Done_inv in H as ([] & s3 & H3 & H). injection H as <- <-.
    apply (fileclose_refs _ _ _ _ _ Hr1) in H3 as [Hr3 Ho]. split; [by rewrite Ho, Hs1|].
    eapply refs_ext; [|exact Hr3]. intros g. rewrite held_held. unfold held. case_decide; lia. }
  destruct H2 as (x1 & Hx1 & Hr01 & Ht1 & Hs2 & Hr2).
  assert (Hf0 : ftable s1 !! f0 = Some (set_f_ref 1 x0)).
  { subst s1. apply list_lookup_insert_eq. by eapply lookup_lt_Some. }
  assert (Hne : f0 <> f1). { intros <-. rewrite Hf0 in Hx1. apply Some_inj in Hx1 as <-. done. }
  apply bind_Done_inv in H as (pi & s3 & H3 & H). apply (kalloc_page_refs _ _ _ _ Hr2) in H3 as (Hr3 & Hft & Hof & Hpp & Hpi).
  assert (Ho3 : ofile s3 = ofile s) by (rewrite Hof; by subst).
  destruct (Z.eqb_spec pi 0) as [->|Hnz].
  - apply bind_Done_inv in H as ([] & s4 & H4 & H). apply bind_Done_inv in H as ([] & s5 & H5 & H). injection H as <- <-.
    apply (fileclose_refs _ _ _ _ _ Hr3) in H4 as [Hr4 Ho4]. apply (fileclose_refs _ _ _ _ _ Hr4) in H5 as [Hr5 Ho5].
    split; [congruence|]. eapply refs_ext; [|exact Hr5]. intros g. unfold held. repeat case_decide; lia.
  - destruct (Hpi Hnz) as [Hnf Hnp]. rewrite <- Hpp in Hnp.
    apply (refs_new_pipe _ _ _ _ (set_f_ref 1 x0) (set_f_ref 1 x1) _ _ _ Hr3) in H as (-> & Hr4 & Ho4); try done.
    + split; [congruence|done].
    + rewrite Hft, Hs2. cbn [ftable set_ftable]. by rewrite list_lookup_insert_ne.
    + rewrite Hft, Hs2. apply list_lookup_insert_eq. by eapply lookup_lt_Some.
Qed.

End Ops.
