(* ===== verification/FileInv.v ===== *)
(** * Descriptors and open files

    A configuration is the kernel state with the descriptor table of the
    running process, and the tables of the other processes.  [dstep] runs a
    system call that returns or goes to sleep in a pipe, continues a writer that slept,
    switches to another process, or runs the descriptor loops of [fork] and [exit].  Theorem:
    in every reachable configuration the reference count of each open file is
    the number of descriptors that refer to it, over all processes, and the
    pipes satisfy [refs_ok] of [FileRefs.v]. *)

From stdpp Require Import gmap.
From S2P Require Import Prelude CString Kalloc Vm UserMem Block Log Pipe Fs File Sysfile FileRefs.

Section Inv.
Context {U : Type} `{!UserMem U}.
Abbreviation FM := (M (kfs U)).
Implicit Types s : kfs U.
Context (dev_read dev_write : Z -> option (Z -> Z -> FM fout)).

(** The descriptor loop of [fork], and its copy of the current directory. *)
Fixpoint dup_table (t : list (option nat)) : FM (list (option nat)) :=
  match t with
  | [] => ret []
  | None :: t => let! l := dup_table t in ret (None :: l)
  | Some f :: t => let! g := filedup f in let! l := dup_table t in ret (Some g :: l)
  end.
Definition fork_tables : FM (list (option nat) * nat) :=
  let! t := gets ofile in
  let! l := dup_table t in
  let! c := gets cwd in
  let! d := onfs (idup c) in
  ret (l, d).

(** The descriptor loop of [exit], and its release of the current directory. *)
Definition close_fd (fd : nat) : FM unit :=
  let! t := gets ofile in
  match t !! fd with
  | Some (Some f) => fileclose f ;; set_fd fd None
  | _ => ret tt
  end.
Definition exit_tables : FM unit :=
  for_each close_fd (seq 0 NOFILE) ;;
  let! c := gets cwd in
  begin_op ;; onfs (iput c) ;; end_op.

(** A writer that slept in pipe [pi] goes on at byte [i]. *)
Definition resume_write (killed : Z -> bool) (pi addr i n : Z) : FM fout :=
  let! p := getpipe pi in
  let! u := gets (fun s => (um (fsys s)).1) in
  let '(o, p') := pipewrite p u killed addr i n in
  end_pipe pi p' o.

(** System calls of the running process that return or sleep in a pipe. *)
Inductive runs : kfs U -> kfs U -> Prop :=
| r_dup args s r s' : sys_dup args s = Done r s' -> runs s s'
| r_read args killed s r s' : sys_read dev_read args killed s = Done r s' -> runs s s'
| r_write args killed s r s' : sys_write dev_write args killed s = Done r s' -> runs s s'
| r_resume killed pi addr i n s r s' : resume_write killed pi addr i n s = Done r s' -> runs s s'
| r_close args s r s' : sys_close args s = Done r s' -> runs s s'
| r_fstat args pad s r s' : sys_fstat args pad s = Done r s' -> runs s s'
| r_link args junk de s r s' : sys_link args junk de s = Done r s' -> runs s s'
| r_unlink args junk de ude s r s' : sys_unlink args junk de ude s = Done r s' -> runs s s'
| r_open args junk de s r s' : sys_open args junk de s = Done r s' -> runs s s'
| r_mkdir args junk de s r s' : sys_mkdir args junk de s = Done r s' -> runs s s'
| r_mknod args junk de s r s' : sys_mknod args junk de s = Done r s' -> runs s s'
| r_chdir args junk de s r s' : sys_chdir args junk de s = Done r s' -> runs s s'
| r_pipe args s r s' : sys_pipe args s = Done r s' -> runs s s'
| r_exit s s' : exit_tables s = Done tt s' -> runs s s'.

(** The running process and the descriptor tables and directories of the others. *)
Record conf := mkconf { cur : kfs U; rest : list (list (option nat) * nat) }.

Inductive dstep : conf -> conf -> Prop :=
| d_call s s' l : runs s s' -> dstep (mkconf s l) (mkconf s' l)
| d_fork s t s' l : fork_tables s = Done t s' -> dstep (mkconf s l) (mkconf s' (t :: l))
| d_switch s k t d l : l !! k = Some (t, d) ->
    dstep (mkconf s l) (mkconf (set_cwd d (set_ofile t s)) (<[k := (ofile s, cwd s)]> l)).

(** The descriptors of all processes. *)
Definition descriptors (c : conf) : list (option nat) := ofile (cur c) ++ concat (fst <$> rest c).

Definition conf_ok (c : conf) : Prop := refs_ok (fun f => count f (descriptors c)) (cur c).

(** After [fileinit], with no process holding a descriptor. *)
Definition start (s : kfs U) : conf :=
  mkconf (set_ofile (replicate NOFILE None) (set_ftable (replicate NFILE file0) (set_pipes ∅ s))) [].

(** ** Counting *)

Lemma count_app f l k : count f (l ++ k) = count f l + count f k.
Proof. unfold count. rewrite filter_app, length_app. lia. Qed.
Lemma count_cons f o l : count f (o :: l) = (if decide (o = Some f) then 1 else 0) + count f l.
Proof. unfold count. rewrite filter_cons. case_decide; cbn [length]; lia. Qed.
Lemma count_none f n : count f (replicate n None) = 0.
Proof. induction n as [|n IH]; [done|]. cbn [replicate]. rewrite count_cons, decide_False by done. lia. Qed.

(** Exchanging two tables. *)
Lemma count_concat_insert f (l : list (list (option nat) * nat)) k t d x : l !! k = Some (t, d) ->
  count f (concat (fst <$> <[k := x]> l)) = count f (concat (fst <$> l)) - count f t + count f x.1.
Proof.
  revert k. induction l as [|[a e] l IH]; intros k H; [done|]. destruct k as [|k].
  - apply Some_inj in H as [= -> ->]. change (<[0%nat := x]> ((t, d) :: l)) with (x :: l).
    rewrite !fmap_cons. cbn [concat fst]. rewrite !count_app. lia.
  - change (<[S k := x]> ((a, e) :: l)) with ((a, e) :: <[k := x]> l). rewrite !fmap_cons. cbn [concat fst].
    rewrite !count_app, (IH k H). lia.
Qed.

(** Emptying two slots that were just filled. *)
Lemma insert_back (t : list (option nat)) i j a b : t !! i = Some None -> t !! j = Some None -> i <> j ->
  <[j := None]> (<[i := None]> (<[j := a]> (<[i := b]> t))) = t.
Proof.
  intros Hi Hj Hne. apply list_eq. intros k.
  destruct (decide (k = j)) as [->|]; [by rewrite list_lookup_insert_eq by (rewrite !length_insert; by eapply lookup_lt_Some)|].
  rewrite list_lookup_insert_ne by done.
  destruct (decide (k = i)) as [->|]; [by rewrite list_lookup_insert_eq by (rewrite !length_insert; by eapply lookup_lt_Some)|].
  by rewrite !list_lookup_insert_ne by done.
Qed.

(** ** Calls *)

(** [o f] references are held by other processes. *)
Definition tab_ok (o : nat -> Z) (s : kfs U) : Prop := refs_ok (fun f => o f + count f (ofile s)) s.
Definition call_ok {A} (m : FM A) : Prop := forall o s a s', tab_ok o s -> m s = Done a s' -> tab_ok o s'.

Lemma call_keeps {A} (m : FM A) : keeps m -> call_ok m.
Proof. intros Hm o s a s' Hs H. destruct (Hm _ _ _ _ Hs H) as [Hr Ho]. unfold tab_ok. by rewrite Ho. Qed.
Lemma call_only {A} (m : FM A) : only_fs m -> call_ok m.
Proof. intros Hm. by apply call_keeps, keeps_only. Qed.
Lemma call_bind {A B} (m : FM A) (k : A -> FM B) : call_ok m -> (forall a, call_ok (k a)) -> call_ok (bind m k).
Proof. intros Hm Hk o s b s' Hs H. apply bind_Done_inv in H as (a & s1 & H1 & H2). eapply Hk; [|done]. by eapply Hm. Qed.
Lemma call_ret {A} (a : A) : call_ok (ret a).
Proof. apply call_only, only_fs_ret. Qed.

Lemma argfd_Done args n (s : kfs U) x s' : argfd args n s = Done x s' ->
  s' = s /\ match x with None => True | Some (fd, f) => ofile s !! Z.to_nat fd = Some (Some f) end.
Proof.
  unfold argfd. destruct (_ || _); [by injection 1 as <- <-|]. destruct (ofile s !! _) as [[f|]|] eqn:Hf; by injection 1 as <- <-.
Qed.

(** [argfd] in front of a call. *)
Lemma call_argfd {A} args n (k : option (Z * nat) -> FM A) : (forall x, call_ok (k x)) -> call_ok (bind (argfd args n) k).
Proof. intros Hk. apply call_bind; [|done]. intros o s x s' Hs H. apply argfd_Done in H as [-> _]. done. Qed.

Lemma fdalloc_Done f (s : kfs U) fd s' : fdalloc f s = Done fd s' ->
  (fd = -1 /\ s' = s) \/
  exists k, fd = Z.of_nat k /\ ofile s !! k = Some None /\ s' = set_ofile (<[k := Some f]> (ofile s)) s.
Proof.
  unfold fdalloc. destruct (list_find _ _) as [[k o]|] eqn:Hk; injection 1 as <- <-; [right|by left].
  apply list_find_Some in Hk as (Hk & -> & _). by exists k.
Qed.

(** Closes a goal [tab_ok o s'] from the references [Hr : refs_ok r s']. *)
Ltac recount Hr :=
  eapply refs_ext; [|exact Hr]; intros ?g; cbv beta; unfold held;
  repeat match goal with
  | H : ?l !! ?k = Some ?o |- context [count ?g (<[?k := ?v]> ?l)] => rewrite (count_insert g l k o v H)
  end; repeat case_decide; simplify_eq; lia.

Lemma sys_dup_ok args : call_ok (sys_dup args).
Proof.
  intros o s a s' Hs H. unfold sys_dup in H. apply bind_Done_inv in H as (x & s1 & [-> Hx]%argfd_Done & H).
  destruct x as [[fd f]|]; [|by injection H as <- <-].
  apply bind_Done_inv in H as (nfd & s1 & [[-> ->]|(k & -> & Hk & ->)]%fdalloc_Done & H); [by injection H as <- <-|].
  destruct (Z.ltb_spec (Z.of_nat k) 0); [lia|]. apply bind_Done_inv in H as (g & s2 & H2 & H). injection H as <- <-.
  assert (Hs' : refs_ok (fun f => o f + count f (ofile s)) (set_ofile (<[k := Some f]> (ofile s)) s)) by (by apply (refs_frame _ s)).
  apply (filedup_refs _ _ _ _ _ Hs') in H2 as (-> & Hr & Ho). unfold tab_ok. rewrite Ho. cbn [ofile set_ofile]. recount Hr.
Qed.

Lemma sys_close_ok args : call_ok (sys_close args).
Proof.
  intros o s a s' Hs H. unfold sys_close in H. apply bind_Done_inv in H as (x & s1 & [-> Hx]%argfd_Done & H).
  destruct x as [[fd f]|]; [|by injection H as <- <-]. unfold set_fd in H. rewrite bind_modify in H.
  apply bind_Done_inv in H as ([] & s2 & H2 & H). injection H as <- <-.
  assert (Hs' : refs_ok (fun f => o f + count f (ofile s)) (set_ofile (<[Z.to_nat fd := None]> (ofile s)) s)) by (by apply (refs_frame _ s)).
  apply (fileclose_refs _ _ _ _ _ Hs') in H2 as (Hr & Ho). unfold tab_ok. rewrite Ho. cbn [ofile set_ofile]. recount Hr.
Qed.

Lemma close_fd_ok fd : call_ok (close_fd fd).
Proof.
  intros o s a s' Hs H. unfold close_fd in H. rewrite bind_gets in H. destruct (ofile s !! fd) as [[f|]|] eqn:Hx; [|by injection H as <- <-..].
  apply bind_Done_inv in H as ([] & s2 & H2 & H). injection H as <- <-. apply (fileclose_refs _ _ _ _ _ Hs) in H2 as (Hr & Ho).
  apply (refs_frame _ _ (set_ofile (<[fd := None]> (ofile s2)) s2)) in Hr; try done.
  unfold tab_ok. cbn [ofile set_ofile]. rewrite Ho in *. recount Hr.
Qed.

Lemma exit_tables_ok : call_ok exit_tables.
Proof.
  unfold exit_tables. apply call_bind.
  - generalize (seq 0 NOFILE). intros l. induction l as [|fd l IH]; cbn [for_each]; [apply call_ret|].
    apply call_bind; [apply close_fd_ok|done].
  - intros _. apply call_only. only_fs_tac.
Qed.

Lemma open_file_not_pipe x ip m f : f_type (open_file x ip m f) <> FD_PIPE.
Proof. unfold open_file. by destruct (_ =? _). Qed.
Lemma open_file_ref x ip m f : f_ref (open_file x ip m f) = f_ref f.
Proof. unfold open_file. by destruct (_ =? _). Qed.

(** The end of [sys_open], once the inode is found. *)
Lemma open_tail_ok x ip omode (tail : Z -> FM Z) (undo : FM Z) : (forall fd, only_fs (tail fd)) -> only_fs undo ->
  call_ok (let! f := filealloc in
           let! fd := match f with None => ret (-1) | Some f => fdalloc f end in
           if fd <? 0 then (match f with None => ret tt | Some f => fileclose f end) ;; undo
           else match f with
                | None => ret (-1)
                | Some f => let! fx := getf f in putf f (open_file x ip omode fx) ;; tail fd
                end).
Proof.
  intros Htail Hundo o s a s' Hs H. apply bind_Done_inv in H as (g0 & s1 & H1 & H). apply (filealloc_refs _ _ _ _ Hs) in H1.
  destruct g0 as [f|].
  2: { subst s1. rewrite bind_ret in H. assert (Hk : only_fs (ret tt ;; undo)) by only_fs_tac. by eapply call_only. }
  destruct H1 as (fx & Hfx & H0 & Hty & Hs1 & Hr1). assert (Ho1 : ofile s1 = ofile s) by (by subst).
  apply bind_Done_inv in H as (fd & s2 & [[-> ->]|(k & -> & Hk & Hs2)]%fdalloc_Done & H).
  - change (-1 <? 0) with true in H. cbv iota in H.
    apply bind_Done_inv in H as ([] & s3 & H3 & H). apply (fileclose_refs _ _ _ _ _ Hr1) in H3 as (Hr3 & Ho3).
    eapply (call_only _ Hundo); [|exact H].
    unfold tab_ok. rewrite Ho3, Ho1. recount Hr3.
  - destruct (Z.ltb_spec (Z.of_nat k) 0); [lia|].
    assert (Hf2 : ftable s2 !! f = Some (set_f_ref 1 fx)).
    { subst s2 s1. apply list_lookup_insert_eq. by eapply lookup_lt_Some. }
    apply bind_Done_inv in H as (gx & s3 & Hg & H). unfold getf in Hg. rewrite Hf2 in Hg. injection Hg as <- <-.
    unfold putf in H. rewrite bind_modify in H.
    eapply (call_only _ (Htail (Z.of_nat k))); [|exact H]. unfold tab_ok. cbn [ofile set_ftable].
    assert (Hr2 : refs_ok (held (fun f => o f + count f (ofile s)) f 1) s2) by (subst s2; by apply (refs_frame _ s1)).
    apply (refs_put_same _ _ f (set_f_ref 1 fx) (open_file x ip omode (set_f_ref 1 fx)) 0) in Hr2; try done.
    + rewrite Hs2. cbn [ofile set_ofile]. rewrite Ho1 in *. rewrite Hs2 in Hr2. recount Hr2.
    + rewrite open_file_ref. done.
    + intros pi wr (_ & Hp & _). by apply open_file_not_pipe in Hp.
    + rewrite open_file_ref. lia.
Qed.

Lemma call_open_ip args junk de omode path :
  only_fs (if negb (Z.land omode O_CREATE =? 0) then create junk de path T_FILE 0 0
        else
          let! c := gets cwd in
          let! ip := onfs (namei de c path junk) in
          match ip with
          | None => ret None
          | Some ip =>
              onfs (ilock ip) ;;
              let! x := inode_of ip in
              if (d_type (i_d x) =? T_DIR) && negb (omode =? O_RDONLY)
              then onfs (iunlockput ip) ;; ret None else ret (Some ip : option nat)
          end : FM (option nat)) /\ only_fs (argstr args 0 MAXPATH : FM (option (list Z))).
Proof. split; [destruct (negb _); [apply create_only_fs|]|unfold argstr]; only_fs_tac. Qed.

Lemma sys_open_ok args junk de : call_ok (sys_open args junk de).
Proof.
  unfold sys_open. cbv zeta. destruct (call_open_ip args junk de (argint args 1) []) as [_ Hstr].
  apply call_bind; [by apply call_only|intros [path|]]; [|apply call_ret].
  apply call_bind; [apply call_only, only_fs_begin|intros _]. destruct (call_open_ip args junk de (argint args 1) path) as [Hip _].
  apply call_bind; [by apply call_only|intros [ip|]]; [|apply call_only; only_fs_tac].
  apply call_bind; [apply call_only, only_fs_inode|intros x]. destruct (_ && _); [apply call_only; only_fs_tac|].
  refine (open_tail_ok x ip (argint args 1)
    (fun fd => (if negb (Z.land (argint args 1) O_TRUNC =? 0) && (d_type (i_d x) =? T_FILE) then onfs (itrunc ip) else ret tt) ;;
       onfs (iunlock ip) ;; end_op ;; ret fd) (onfs (iunlockput ip) ;; end_op ;; ret (-1)) _ _); intros; only_fs_tac.
Qed.

(** Giving up on a new pipe. *)
Lemma close_both_ok r s f g a s' : refs_ok (held (held r f 1) g 1) s ->
  (fileclose f ;; fileclose g ;; ret (-1)) s = Done a s' -> refs_ok r s' /\ ofile s' = ofile s.
Proof.
  intros Hr H. apply bind_Done_inv in H as ([] & s1 & H1 & H). apply bind_Done_inv in H as ([] & s2 & H2 & H). injection H as <- <-.
  apply (fileclose_refs _ _ _ _ _ Hr) in H1 as [Hr1 Ho1]. apply (fileclose_refs _ _ _ _ _ Hr1) in H2 as [Hr2 Ho2].
  split; [|congruence]. eapply refs_ext; [|exact Hr2]. intros h. unfold held. repeat case_decide; lia.
Qed.

Lemma sys_pipe_ok args : call_ok (sys_pipe args).
Proof.
  intros o s a s' Hs H. unfold sys_pipe in H. cbv zeta in H.
  apply bind_Done_inv in H as (p & s1 & Hp & H). apply (pipealloc_refs _ _ _ _ Hs) in Hp as [Ho1 Hr1].
  destruct p as [[rf wf]|]; [|injection H as <- <-; unfold tab_ok; by rewrite Ho1].
  apply bind_Done_inv in H as (fd0 & s2 & [[-> ->]|(k0 & -> & Hk0 & ->)]%fdalloc_Done & H).
  { change (-1 <? 0) with true in H. cbv iota in H. rewrite bind_ret in H. change (-1 <? 0) with true in H.
    change (-1 >=? 0) with false in H. cbv iota in H. rewrite bind_ret in H.
    apply (close_both_ok _ _ _ _ _ _ Hr1) in H as [Hr2 Ho2]. unfold tab_ok. by rewrite Ho2, Ho1. }
  destruct (Z.ltb_spec (Z.of_nat k0) 0); [lia|]. rewrite Ho1 in Hk0, H.
  apply bind_Done_inv in H as (fd1 & s3 & [[-> ->]|(k1 & -> & Hk1 & ->)]%fdalloc_Done & H).
  { change (-1 <? 0) with true in H. cbv iota in H. rewrite Z.geb_leb in H. destruct (Z.leb_spec 0 (Z.of_nat k0)); [|lia].
    unfold set_fd in H. rewrite bind_modify in H. cbn [ofile set_ofile] in H. rewrite Nat2Z.id, list_insert_insert_eq in H.
    apply (close_both_ok (fun f => o f + count f (ofile s))) in H as [Hr2 Ho2]; [|by apply (refs_frame _ s1)].
    unfold tab_ok. rewrite Ho2. cbn [ofile set_ofile]. recount Hr2. }
  destruct (Z.ltb_spec (Z.of_nat k1) 0); [lia|]. cbn [ofile set_ofile] in Hk1, H.
  apply bind_Done_inv in H as (r0 & s4 & H4 & H). apply only_fs_copyout in H4.
  apply bind_Done_inv in H as (r1 & s5 & H5 & H). assert (Hsame : same_files s4 s5).
  { destruct (r0 <? 0); [by injection H5 as <- <-|by apply only_fs_copyout in H5]. }
  pose proof (same_files_trans _ _ _ H4 Hsame) as H6. assert (Ho5 : ofile s5 = <[k1 := Some wf]> (<[k0 := Some rf]> (ofile s))) by apply H6.
  assert (Hr5 : refs_ok (held (held (fun f => o f + count f (ofile s)) rf 1) wf 1) s5).
  { eapply refs_same; [exact H6|]. by apply (refs_frame _ s1). }
  assert (Hne : k0 <> k1). { intros <-. rewrite list_lookup_insert_eq in Hk1 by (by eapply lookup_lt_Some). done. }
  destruct (r1 <? 0).
  - unfold set_fd in H. rewrite !bind_modify in H. cbn [ofile set_ofile] in H. rewrite !Nat2Z.id in H.
    apply (close_both_ok (fun f => o f + count f (ofile s))) in H as [Hr2 Ho2]; [|by apply (refs_frame _ s5)].
    unfold tab_ok. rewrite Ho2. cbn [ofile set_ofile]. rewrite Ho5.
    rewrite list_lookup_insert_ne in Hk1 by done.
    rewrite (insert_back (ofile s) k0 k1) by done. done.
  - injection H as <- <-. unfold tab_ok. rewrite Ho5. recount Hr5.
Qed.

Lemma resume_write_ok kl pi addr i n : call_ok (resume_write kl pi addr i n).
Proof.
  apply call_keeps. intros r s a s' Hr H. unfold resume_write in H.
  apply bind_Done_inv in H as (p & s1 & [Hp ->]%getpipe_Done & H). rewrite bind_gets in H.
  destruct (pipewrite _ _ _ _ _) as [o p'] eqn:Hq. apply pipewrite_open in Hq as [Hro Hwo]. by eapply keeps_end_pipe in H.
Qed.

Lemma dup_table_ok r s t t' s' : refs_ok r s -> dup_table t s = Done t' s' ->
  t' = t /\ refs_ok (fun f => r f + count f t) s' /\ ofile s' = ofile s.
Proof.
  revert r s t' s'. induction t as [|[f|] t IH]; intros r s t' s' Hr H; cbn [dup_table] in H.
  - injection H as <- <-. split_and!; try done. eapply refs_ext; [|exact Hr]. intros f. unfold count. cbn. lia.
  - apply bind_Done_inv in H as (g & s1 & H1 & H). apply (filedup_refs _ _ _ _ _ Hr) in H1 as (-> & Hr1 & Ho1).
    apply bind_Done_inv in H as (l & s2 & H2 & H). injection H as <- <-. apply (IH _ _ _ _ Hr1) in H2 as (-> & Hr2 & Ho2).
    split_and!; [done| |congruence]. eapply refs_ext; [|exact Hr2]. intros h. cbv beta. rewrite count_cons. unfold held.
    repeat case_decide; simplify_eq; lia.
  - apply bind_Done_inv in H as (l & s2 & H2 & H). injection H as <- <-. apply (IH _ _ _ _ Hr) in H2 as (-> & Hr2 & Ho2).
    split_and!; [done| |congruence]. eapply refs_ext; [|exact Hr2]. intros h. cbv beta. rewrite count_cons, decide_False by done. lia.
Qed.

Lemma fork_tables_ok r s t s' : refs_ok r s -> fork_tables s = Done t s' ->
  t.1 = ofile s /\ refs_ok (fun f => r f + count f (ofile s)) s' /\ ofile s' = ofile s.
Proof.
  intros Hr H. unfold fork_tables in H. rewrite bind_gets in H. apply bind_Done_inv in H as (l & s1 & H1 & H).
  apply (dup_table_ok _ _ _ _ _ Hr) in H1 as (-> & Hr1 & Ho1). rewrite bind_gets in H.
  apply bind_Done_inv in H as (d & s2 & H2 & H). injection H as <- <-. apply only_fs_onfs in H2.
  split_and!; [done|by eapply refs_same|]. destruct H2 as (_ & _ & _ & ->). done.
Qed.

Section Drivers.
(** A device driver touches neither open files nor pipes. *)
Hypothesis dev_read_fs : forall m rd addr n, dev_read m = Some rd -> only_fs (rd addr n).
Hypothesis dev_write_fs : forall m wr addr n, dev_write m = Some wr -> only_fs (wr addr n).

Lemma mk_ok {A} args n (k : option (list Z) -> FM (option nat)) (j : option nat -> FM A) :
  (forall p, only_fs (k p)) -> (forall i, only_fs (j i)) ->
  call_ok (begin_op ;; let! path := argstr args n MAXPATH in let! ip := k path in j ip).
Proof. intros Hk Hj. apply call_only. unfold argstr. apply only_fs_bind; [apply only_fs_begin|intros _].
  apply only_fs_bind; [apply only_fs_fetchstr|intros p]. by apply only_fs_bind. Qed.

Lemma runs_ok o s s' : tab_ok o s -> runs s s' -> tab_ok o s'.
Proof.
  intros Hs H. destruct H as [? ? ? ? H|? ? ? ? ? H|? ? ? ? ? H|? ? ? ? ? ? ? ? H|? ? ? ? H|? ? ? ? ? H|? ? ? ? ? ? H
    |? ? ? ? ? ? ? H|? ? ? ? ? ? H|? ? ? ? ? ? H|? ? ? ? ? ? H|? ? ? ? ? ? H|? ? ? ? H|? ? H].
  - by eapply sys_dup_ok.
  - eapply (call_argfd args 0); [|exact Hs|exact H]. intros [[fd f]|]; [apply call_keeps, fileread_keeps, dev_read_fs|apply call_ret].
  - eapply (call_argfd args 0); [|exact Hs|exact H]. intros [[fd f]|]; [apply call_keeps, filewrite_keeps, dev_write_fs|apply call_ret].
  - by eapply resume_write_ok.
  - by eapply sys_close_ok.
  - eapply (call_argfd args 0); [|exact Hs|exact H]. intros [[fd f]|]; [apply call_only, filestat_only_fs|apply call_ret].
  - eapply call_only; [apply sys_link_only_fs|exact Hs|exact H].
  - eapply call_only; [apply sys_unlink_only_fs|exact Hs|exact H].
  - by eapply sys_open_ok.
  - eapply (mk_ok args 0); [| |exact Hs|exact H]; [intros [p|]; [apply create_only_fs|apply only_fs_ret]|apply made_only_fs].
  - eapply (mk_ok args 0); [| |exact Hs|exact H]; [intros [p|]; [apply create_only_fs|apply only_fs_ret]|apply made_only_fs].
  - eapply call_only; [apply sys_chdir_only_fs|exact Hs|exact H].
  - by eapply sys_pipe_ok.
  - by eapply exit_tables_ok.
Qed.

Lemma conf_tab c : conf_ok c <-> tab_ok (fun f => count f (concat (fst <$> rest c))) (cur c).
Proof. unfold conf_ok, tab_ok, descriptors. split; apply refs_ext; intros f; rewrite count_app; lia. Qed.

Lemma dstep_ok c c' : conf_ok c -> dstep c c' -> conf_ok c'.
Proof.
  intros Hc H. rewrite conf_tab in *. destruct H as [s s' l H|s t s' l H|s k t d l Hk]; cbn [cur rest] in *.
  - by eapply runs_ok.
  - apply (fork_tables_ok _ _ _ _ Hc) in H as (Ht & Hr & Ho). unfold tab_ok. rewrite Ho. eapply refs_ext; [|exact Hr].
    intros f. cbv beta. rewrite fmap_cons. cbn [concat]. rewrite Ht, count_app. lia.
  - unfold tab_ok. cbn [ofile set_ofile set_cwd]. eapply refs_ext; [|apply (refs_frame _ s); [done..|exact Hc]].
    intros f. cbv beta. rewrite (count_concat_insert f l k t d _ Hk). cbn [fst]. lia.
Qed.

Lemma start_ok s : NoDup (freepages s) -> conf_ok (start s).
Proof.
  intros Hn. unfold conf_ok, start, descriptors. cbn [cur rest]. split; cbn [ftable pipes freepages ofile set_ofile set_ftable set_pipes].
  - intros f. cbn [fmap list_fmap concat]. rewrite app_nil_r, count_none. destruct (replicate NFILE file0 !! f) eqn:Hf; [|done].
    by apply lookup_replicate in Hf as [-> _].
  - intros f x [-> _]%lookup_replicate _. done.
  - intros f x pi wr [-> _]%lookup_replicate (? & _). cbn in *. lia.
  - intros f g x y pi wr [-> _]%lookup_replicate _ (? & _). cbn in *. lia.
  - split; [done|]. intros. apply lookup_empty.
Qed.

(** C4: in every configuration reached from boot by system calls, pipe wakeups, process
    switches, [fork] and [exit], each open file's reference count is the
    number of descriptors, over all processes, that name it; so every descriptor names
    a file in use, an unreferenced file is free to be allocated again, each open
    end of a pipe has its pipe, with that end open, to itself, and no page of a pipe is free. *)
Theorem file_refs_count_descriptors s c :
  NoDup (freepages s) -> rtc dstep (start s) c ->
  (forall f x, ftable (cur c) !! f = Some x -> f_ref x = count f (descriptors c)) /\
  (forall f, Some f ∈ descriptors c -> exists x, ftable (cur c) !! f = Some x /\ 1 <= f_ref x) /\
  (forall f x, ftable (cur c) !! f = Some x -> 0 < f_ref x -> f_type x = FD_PIPE ->
     exists p, pipes (cur c) !! f_pipe x = Some p /\ is_open p (negb (writable x =? 0)) /\
       (f_pipe x ∉ freepages (cur c)) /\
       forall g y, ftable (cur c) !! g = Some y -> live_pipe y (f_pipe x) (negb (writable x =? 0)) -> g = f).
Proof.
  intros Hn H. assert (Hc : conf_ok c).
  { apply start_ok in Hn. revert Hn. induction H as [|? ? ? Hs _ IH]; [done|]. intros Hn. apply IH. by eapply dstep_ok. }
  split_and!.
  - intros f x Hf. by apply (refs_lookup _ _ _ _ Hc).
  - intros f [i Hi]%list_elem_of_lookup. apply count_pos in Hi. pose proof (ro_ref _ _ Hc f) as Hr. cbv beta in Hr.
    destruct (ftable (cur c) !! f) as [x|]; cbn in Hr; [exists x; split; [done|lia]|lia].
  - intros f x Hf Hpos Ht. assert (Hl : live_pipe x (f_pipe x) (negb (writable x =? 0))) by done.
    destruct (ro_pipe _ _ Hc f x _ _ Hf Hl) as (p & Hp & Ho). exists p. split_and!; try done.
    + intros Hin. rewrite (proj2 (ro_pages _ _ Hc) _ Hin) in Hp. done.
    + intros g y Hg Hly. by eapply (ro_uniq _ _ Hc g f y x).
Qed.
End Drivers.
End Inv.

(** ** A pipe shared with a child *)

Definition boot_state : kfs (list Z) :=
  mkkfs (mkfs (mksb FSMAGIC 64 30 16 30 2 32 33) (mklog 2 30 0 false [] (mkbdev (fun _ => []) (fun _ => []) [] []))
    [mkinode 1 1 1 false true (mkdinode T_DIR 0 0 1 0 [])] (replicate 16 0, fun _ => 0) []) [] ∅ [4096; 8192] [] [] 0.

(** A device that gives one letter to a reader. *)
Definition letter_dev (m : Z) : option (Z -> Z -> M (kfs (list Z)) fout) :=
  if m =? 1 then Some (fun addr n => let! r := copyout_user addr [65] in ret (FRet r)) else None.
Definition no_dev (m : Z) : option (Z -> Z -> M (kfs (list Z)) fout) := None.

Definition after_pipe : kfs (list Z) :=
  match sys_pipe (fun _ => 0) (cur (start boot_state)) with Done _ s => s | Panic _ => boot_state end.
Definition after_fork : conf :=
  match fork_tables after_pipe with Done t s => mkconf s [t] | Panic _ => start boot_state end.

Lemma letter_dev_fs m rd addr n : letter_dev m = Some rd -> only_fs (rd addr n).
Proof. unfold letter_dev. destruct (m =? 1); [|done]. intros [= <-]. only_fs_tac. Qed.

Lemma piped_and_forked : rtc (dstep letter_dev no_dev) (start boot_state) after_fork.
Proof.
  apply (rtc_l _ _ (mkconf after_pipe [])); [|apply rtc_once].
  - apply d_call, (r_pipe _ _ (fun _ => 0) _ 0). unfold after_pipe. vm_compute. reflexivity.
  - unfold after_fork. destruct (fork_tables after_pipe) as [t s|] eqn:H; [by apply d_fork|vm_compute in H; done].
Qed.

Lemma file_refs_count_descriptors_witness :
  f_ref <$> ftable (cur after_fork) !! 0%nat = Some 2 /\ count 0 (descriptors after_fork) = 2.
Proof.
  destruct (file_refs_count_descriptors letter_dev no_dev letter_dev_fs (fun m wr a n H => ltac:(discriminate H)) boot_state after_fork)
    as (H & _ & _).
  - change (freepages boot_state) with [4096; 8192]. apply (bool_decide_unpack _). vm_compute. exact I.
  - exact piped_and_forked.
  - split; [|vm_compute; reflexivity]. destruct (ftable (cur after_fork) !! 0%nat) as [x|] eqn:Hx; [|vm_compute in Hx; discriminate].
    cbn [fmap option_fmap option_map]. f_equal. rewrite (H 0%nat x Hx). vm_compute. reflexivity.
Defined.
