(* ===== verification/Exec.v ===== *)
(** * Running a program: [kernel/exec.c] and [sys_exec]

    The state joins the file system, the physical memory with its page
    allocator, and the calling process.  The kernel addresses memory directly,
    so the kernel memory that [readi] fills is the physical memory of the
    allocator: [onfs] runs a file system step on it.  The buffers [elf] and
    [ph] are at the stack addresses [elf_addr] and [ph_addr]; [argv] holds the
    addresses of the argument strings, pages that [sys_exec] allocated and
    filled. *)

From S2P Require Import Prelude CString Kalloc ProcDef Proc Vm UserMem Block Log Fs.

(** ** [kernel/elf.h] *)

Definition ELF_MAGIC : Z := 0x464C457F.
Definition ELF_PROG_LOAD : Z := 1.

Record elfhdr := mkelfhdr {
  e_magic : Z;
  e_elf : list Z;
  e_type : Z;
  e_machine : Z;
  e_version : Z;
  e_entry : Z;
  e_phoff : Z;
  e_shoff : Z;
  e_flags : Z;
  e_ehsize : Z;
  e_phentsize : Z;
  e_phnum : Z;
  e_shentsize : Z;
  e_shnum : Z;
  e_shstrndx : Z
}.
Record proghdr := mkproghdr {
  ph_type : Z;
  ph_flags : Z;
  ph_off : Z;
  ph_vaddr : Z;
  ph_paddr : Z;
  ph_filesz : Z;
  ph_memsz : Z;
  ph_align : Z
}.
Definition ELFHDR : Z := 64.    (* sizeof(struct elfhdr) *)
Definition PROGHDR : Z := 56.   (* sizeof(struct proghdr) *)

Definition parse_elfhdr (l : list Z) : elfhdr :=
  mkelfhdr (field l 0 4) (take 12 (drop 4 l)) (field l 16 2) (field l 18 2) (field l 20 4) (field l 24 8) (field l 32 8)
    (field l 40 8) (field l 48 4) (field l 52 2) (field l 54 2) (field l 56 2) (field l 58 2) (field l 60 2) (field l 62 2).
Definition parse_proghdr (l : list Z) : proghdr :=
  mkproghdr (field l 0 4) (field l 4 4) (field l 8 8) (field l 16 8) (field l 24 8) (field l 32 8) (field l 40 8) (field l 48 8).

Definition flags2perm (flags : Z) : Z :=
  let perm := if negb (Z.land flags 0x1 =? 0) then PTE_X else 0 in
  if negb (Z.land flags 0x2 =? 0) then Z.lor perm PTE_W else perm.

(** The characters of [path] after its last slash: [last]. *)
Fixpoint last_elem (last path : list Z) : list Z :=
  match path with
  | [] => last
  | c :: path' => last_elem (if c =? SLASH then path' else last) path'
  end.

Record exst (U : Type) := mkexst { ex_fs : fs U; ex_mem : kmem; ex_proc : proc }.
Arguments mkexst {U}. Arguments ex_fs {U}. Arguments ex_mem {U}. Arguments ex_proc {U}.

Section Exec.
Context {U : Type} `{!UserMem U}.
Abbreviation EM := (M (exst U)).
(** Linker symbols, stack addresses of the buffers and of the directory entry,
    the caller's directory, and the stack contents under [name[DIRSIZ]]. *)
Context (kend trampoline elf_addr ph_addr de_addr : Z) (cwd : nat) (junk : list Z).

(** A file system step, on the kernel's memory. *)
Definition onfs {A} (c : M (fs U) A) : EM A := fun s =>
  match c (set_um ((um (ex_fs s)).1, pmem (ex_mem s)) (ex_fs s)) with
  | Done a f => Done a (mkexst f (mkkmem (um f).2 (freelist (ex_mem s))) (ex_proc s))
  | Panic msg => Panic msg
  end.
Definition onvm {A} (c : M kmem A) : EM A := fun s =>
  match c (ex_mem s) with
  | Done a m => Done a (mkexst (ex_fs s) m (ex_proc s))
  | Panic msg => Panic msg
  end.
Definition modp (f : proc -> proc) : EM unit := modify (fun s => mkexst (ex_fs s) (ex_mem s) (f (ex_proc s))).
Definition ex_begin_op : EM unit := onfs (let! ok := onlog Log.begin_op in if (ok : bool) then ret tt else blocked).
Definition ex_end_op : EM unit := onfs (onlog Log.end_op).
Definition kernel_bytes (a n : Z) : EM (list Z) := gets (fun s => load_bytes (pmem (ex_mem s)) a (Z.to_nat n)).

(** ** Segments *)

(** The loop of [loadseg] at offset [i].  The fuel is the number of pages; a size
    within a page of [2^32] would let [i] wrap, but no file is that long. *)
Fixpoint loadseg_loop (fuel : nat) (pt va : Z) (ip : nat) (offset sz i : Z) : EM Z :=
  match fuel with
  | O => ret 0
  | S fuel' =>
      if i <? sz then
        let! pa := onvm (walkaddr pt (u64 (va + i))) in
        if pa =? 0 then panic "loadseg: address should exist"
        else
          let n := if sz - i <? PGSIZE then sz - i else PGSIZE in
          let! r := onfs (readi ip false pa (u32 (offset + i)) n) in
          if negb (r =? n) then ret (-1)
          else loadseg_loop fuel' pt va ip offset sz (i + PGSIZE)
      else ret 0
  end.
Definition loadseg (pt va : Z) (ip : nat) (offset sz : Z) : EM Z :=
  loadseg_loop (S (Z.to_nat (sz / PGSIZE))) pt va ip offset sz 0.

(** The loop over the [n] program headers left: the size reached, and [false] for the jump to [bad]. *)
Fixpoint load_segments (n : nat) (pt : Z) (ip : nat) (off sz : Z) : EM (Z * bool) :=
  match n with
  | O => ret (sz, true)
  | S n' =>
      let! r := onfs (readi ip false ph_addr (u32 off) PROGHDR) in
      if negb (r =? PROGHDR) then ret (sz, false)
      else
        let! bs := kernel_bytes ph_addr PROGHDR in
        let ph := parse_proghdr bs in
        if negb (ph_type ph =? ELF_PROG_LOAD) then load_segments n' pt ip (s32 (off + PROGHDR)) sz
        else if ph_memsz ph <? ph_filesz ph then ret (sz, false)
        else if u64 (ph_vaddr ph + ph_memsz ph) <? ph_vaddr ph then ret (sz, false)
        else if negb (ph_vaddr ph mod PGSIZE =? 0) then ret (sz, false)
        else
          let! sz1 := onvm (uvmalloc kend pt sz (u64 (ph_vaddr ph + ph_memsz ph)) (flags2perm (ph_flags ph))) in
          if sz1 =? 0 then ret (sz, false)
          else
            let! r := loadseg pt (ph_vaddr ph) ip (u32 (ph_off ph)) (u32 (ph_filesz ph)) in
            if r <? 0 then ret (sz1, false) else load_segments n' pt ip (s32 (off + PROGHDR)) sz1
  end.

(** ** Arguments *)

(** The string at [a] with its NUL; [sys_exec] puts one within the page. *)
Definition arg_string (a : Z) : EM (list Z) := fun s =>
  match strlen (pmem (ex_mem s)) a (Z.to_nat PGSIZE) with
  | Some n => Done (load_bytes (pmem (ex_mem s)) a (Z.to_nat (n + 1))) s
  | None => Panic "kerneltrap"
  end.

(** [sp] below [n] more bytes, aligned. *)
Definition push_sp (sp n : Z) : Z := u64 (u64 (sp - n) - u64 (sp - n) mod 16).

(** The loop that pushes the argument strings: the stack pointer and the
    pointers in order, [None] for the jump to [bad]. *)
Fixpoint push_args (argv : list Z) (pt sp stackbase : Z) (ustack : list Z) : EM (option (Z * list Z)) :=
  match argv with
  | [] => ret (Some (sp, ustack))
  | a :: argv' =>
      if (MAXARG <=? length ustack)%nat then ret None
      else
        let! str := arg_string a in
        let sp := push_sp sp (Z.of_nat (length str)) in
        if sp <? stackbase then ret None
        else
          let! r := onvm (copyout pt sp str) in
          if r <? 0 then ret None else push_args argv' pt sp stackbase (ustack ++ [sp])
  end.

(** [ustack[argc] = 0] and the array of pointers: the final stack pointer.  [ustack] has [MAXARG]
    elements; the store past its end, undefined in C, stops the model. *)
Definition push_argv (pt sp stackbase : Z) (ustack : list Z) : EM (option Z) :=
  if (MAXARG <=? length ustack)%nat then panic "undefined: ustack[MAXARG]"
  else
    let ptrs := concat (le_bytes 8 <$> (ustack ++ [0])) in
    let sp := push_sp sp (Z.of_nat (length ptrs)) in
    if sp <? stackbase then ret None
    else
      let! r := onvm (copyout pt sp ptrs) in
      ret (if r <? 0 then None else Some sp).

(** ** [exec] *)

Definition bad (pt sz : Z) (ip : option nat) : EM Z :=
  (if pt =? 0 then ret tt else onvm (proc_freepagetable kend pt sz)) ;;
  (match ip with Some i => onfs (iunlockput i) ;; ex_end_op | None => ret tt end) ;;
  ret (-1).

(** The stack and the arguments, from the end of the program at [sz]: the new
    size and stack pointer, and the size and failure for [bad]. *)
Definition setup_stack (pt sz : Z) (argv : list Z) : EM (Z * option Z) :=
  let sz := PGROUNDUP sz in
  let! sz1 := onvm (uvmalloc kend pt sz (u64 (sz + (USERSTACK + 1) * PGSIZE)) PTE_W) in
  if sz1 =? 0 then ret (sz, None)
  else
    let sz := sz1 in
    onvm (uvmclear pt (u64 (sz - (USERSTACK + 1) * PGSIZE))) ;;
    let stackbase := u64 (sz - USERSTACK * PGSIZE) in
    let! r := push_args argv pt sz stackbase [] in
    match r with
    | None => ret (sz, None)
    | Some (sp, ustack) =>
        let! r := push_argv pt sp stackbase ustack in
        ret (sz, r)
    end.

(** Committing to the new image. *)
Definition commit_image (pt sz sp entry : Z) (path : list Z) (p : proc) : proc :=
  let p := set_tf (<[TF_a1 := sp]> (tf p)) p in
  let p := set_name (safestrcpy_arr (name p) (last_elem path path) 15) p in
  let p := set_pagetable pt p in
  let p := set_sz sz p in
  let p := set_tf (<[TF_epc := entry]> (tf p)) p in
  set_tf (<[TF_sp := sp]> (tf p)) p.

Definition exec (path : list Z) (argv : list Z) : EM Z :=
  ex_begin_op ;;
  let! ip := onfs (namei de_addr cwd path junk) in
  match ip with
  | None => ex_end_op ;; ret (-1)
  | Some ip =>
      onfs (ilock ip) ;;
      let! r := onfs (readi ip false elf_addr 0 ELFHDR) in
      if negb (r =? ELFHDR) then bad 0 0 (Some ip)
      else
        let! bs := kernel_bytes elf_addr ELFHDR in
        let elf := parse_elfhdr bs in
        if negb (e_magic elf =? ELF_MAGIC) then bad 0 0 (Some ip)
        else
          let! p := gets ex_proc in
          let! pt := onvm (proc_pagetable kend trampoline (tf_page p)) in
          if pt =? 0 then bad 0 0 (Some ip)
          else
            let! r := load_segments (Z.to_nat (e_phnum elf)) pt ip (s32 (e_phoff elf)) 0 in
            match r with
            | (sz, false) => bad pt sz (Some ip)
            | (sz, true) =>
                onfs (iunlockput ip) ;;
                ex_end_op ;;
                let! p := gets ex_proc in
                let oldsz := ProcDef.sz p in
                let! r := setup_stack pt sz argv in
                match r with
                | (sz, None) => bad pt sz None
                | (sz, Some sp) =>
                    let oldpagetable := pagetable p in
                    modp (commit_image pt sz sp (e_entry elf) path) ;;
                    onvm (proc_freepagetable kend oldpagetable oldsz) ;;
                    ret (Z.of_nat (length argv))
                end
            end
  end.

(** ** [sys_exec] *)

(** [fetchaddr] and [fetchstr] in the caller's address space. *)
Definition fetch_addr (addr : Z) : EM (option Z) :=
  let! p := gets ex_proc in
  if (addr >=? ProcDef.sz p) || (u64 (addr + 8) >? ProcDef.sz p) then ret None
  else
    let! r := onvm (copyin (pagetable p) addr 8) in
    ret (if negb (r.1 =? 0) then None else Some (of_le r.2)).
Definition fetch_str (addr max : Z) : EM (option (list Z)) :=
  let! p := gets ex_proc in onvm (copyinstr (pagetable p) addr max).

(** The loop that reads the arguments, [n] entries of [argv] left: the pages
    allocated, and [false] for the jump to [bad]. *)
Fixpoint fetch_args (n : nat) (uargv : Z) (argv : list Z) : EM (list Z * bool) :=
  match n with
  | O => ret (argv, false)
  | S n' =>
      let! uarg := fetch_addr (u64 (uargv + 8 * Z.of_nat (length argv))) in
      match uarg with
      | None => ret (argv, false)
      | Some uarg =>
          if uarg =? 0 then ret (argv, true)
          else
            let! page := onvm kalloc in
            if page =? 0 then ret (argv, false)
            else
              let! str := fetch_str uarg PGSIZE in
              match str with
              | None => ret (argv ++ [page], false)
              | Some str =>
                  onvm (modify (fun m => mkkmem (store_bytes (pmem m) page str) (freelist m))) ;;
                  fetch_args n' uargv (argv ++ [page])
              end
      end
  end.

Definition free_args (argv : list Z) : EM unit := for_each (fun page => onvm (kfree kend page)) argv.

Definition sys_exec (a0 a1 : Z) : EM Z :=
  let! path := fetch_str a0 MAXPATH in
  match path with
  | None => ret (-1)
  | Some path =>
      let! r := fetch_args MAXARG a1 [] in
      match r with
      | (argv, false) => free_args argv ;; ret (-1)
      | (argv, true) =>
          let! r := exec (removelast path) argv in
          free_args argv ;;
          ret r
      end
  end.
End Exec.
