(* ===== verification/ExecArgs.v ===== *)
(** * What [exec] puts on the new stack

    [arg_layout] places the argument strings below the top of the stack, each
    at a multiple of 16.  Theorem: with fewer than [MAXARG] arguments, the loops of [exec] that push
    them succeed exactly when everything fits above the stack guard, and then user code finds every string
    at its pointer and the NULL-terminated array of pointers at the stack pointer. *)

From S2P Require Import Prelude CString Kalloc ProcDef Proc Vm VmFacts VmOps UserMem Block Log Fs FsAlloc FsInode FsFile Exec.

Definition align16 (a : Z) : Z := a / 16 * 16.

(** The lowest address used and the pointers, for strings with their NULs. *)
Fixpoint arg_layout (sp : Z) (strs : list (list Z)) : Z * list Z :=
  match strs with
  | [] => (sp, [])
  | str :: strs' =>
      let sp := align16 (sp - Z.of_nat (length str)) in
      let '(e, ps) := arg_layout sp strs' in (e, sp :: ps)
  end.
Definition argv_sp (sp : Z) (strs : list (list Z)) : Z :=
  align16 ((arg_layout sp strs).1 - 8 * (Z.of_nat (length strs) + 1)).

(** The bytes at [a], up to and with their NUL, in a page no user sees. *)
Definition arg_at (m : mem) (pt a : Z) (str : list Z) : Prop :=
  exists n, strlen m a (Z.to_nat PGSIZE) = Some n /\ str = load_bytes m a (Z.to_nat (n + 1)) /\
    forall i, 0 <= i <= n -> not_user m pt (a + i).

Lemma align16_bounds a : a - 16 < align16 a <= a /\ align16 a mod 16 = 0.
Proof.
  unfold align16. pose proof (Z.div_mod a 16 ltac:(lia)). pose proof (Z.mod_pos_bound a 16 ltac:(lia)).
  split; [lia|]. by rewrite Z.mod_mul.
Qed.

Lemma push_sp_eq sp n : 0 <= sp - n < 2 ^ 64 -> push_sp sp n = align16 (sp - n).
Proof.
  intros H. unfold push_sp. rewrite (u64_small (sp - n)) by done. pose proof (Z.div_mod (sp - n) 16 ltac:(lia)) as Hd.
  pose proof (Z.mod_pos_bound (sp - n) 16 ltac:(lia)). rewrite u64_small; unfold align16; lia.
Qed.

Lemma arg_layout_below sp strs : (arg_layout sp strs).1 <= sp /\ Forall (fun p => (arg_layout sp strs).1 <= p <= sp) (arg_layout sp strs).2 /\
  length (arg_layout sp strs).2 = length strs.
Proof.
  revert sp. induction strs as [|str strs IH]; intros sp; cbn [arg_layout]; [split; [cbn; lia|by split]|].
  destruct (align16_bounds (sp - Z.of_nat (length str))) as [Hb _]. set (sp1 := align16 _) in *.
  destruct (IH sp1) as (H1 & H2 & H3). destruct (arg_layout sp1 strs) as [e ps]. cbn [fst snd] in *.
  split; [lia|]. split; [|cbn; lia]. constructor; [lia|]. eapply Forall_impl; [exact H2|]. cbn. lia.
Qed.

(** ** Strings in memory *)

Lemma strlen_from_bounds m a k fuel n : strlen_from m a k fuel = Some n -> k <= n < k + Z.of_nat fuel.
Proof.
  revert k. induction fuel as [|fuel IH]; intros k H; cbn [strlen_from] in H; [done|].
  destruct (m (a + k) =? 0); [injection H as <-; lia|]. apply IH in H. lia.
Qed.

Lemma strlen_from_ext m m' a k fuel n : strlen_from m a k fuel = Some n ->
  (forall i, k <= i <= n -> m' (a + i) = m (a + i)) -> strlen_from m' a k fuel = Some n.
Proof.
  revert k. induction fuel as [|fuel IH]; intros k H He; cbn [strlen_from] in *; [done|].
  destruct (m (a + k) =? 0) eqn:H0.
  - injection H as <-. by rewrite He, H0 by lia.
  - pose proof (strlen_from_bounds _ _ _ _ _ H). rewrite He, H0 by lia. apply IH; [done|]. intros i Hi. apply He. lia.
Qed.

Lemma load_bytes_ext m m' a n : (forall i, (i < n)%nat -> m' (a + Z.of_nat i) = m (a + Z.of_nat i)) -> load_bytes m' a n = load_bytes m a n.
Proof. intros H. unfold load_bytes. apply list_fmap_ext. intros i x Hx. apply lookup_seq in Hx as [-> Hx]. by apply H. Qed.

Lemma length_load_bytes m a n : length (load_bytes m a n) = n.
Proof. unfold load_bytes. by rewrite length_fmap, length_seq. Qed.

Lemma arg_at_length m pt a str : arg_at m pt a str -> 1 <= Z.of_nat (length str) <= PGSIZE.
Proof. intros (n & Hn & -> & _). apply strlen_from_bounds in Hn. rewrite length_load_bytes. lia_pages. Qed.

(** Copying to user memory keeps the arguments. *)
Lemma arg_at_frame m m' pt a str : (forall va, pte_at m' pt va = pte_at m pt va) ->
  (forall x, not_user m pt x -> m' x = m x) -> arg_at m pt a str -> arg_at m' pt a str.
Proof.
  intros Hp Hf (n & Hn & -> & Hu). pose proof (strlen_from_bounds _ _ _ _ _ Hn). exists n. split_and!.
  - apply (strlen_from_ext m); [done|]. intros i Hi. by apply Hf, Hu.
  - symmetry. apply load_bytes_ext. intros i Hi. apply Hf, Hu. lia.
  - intros i Hi va Hva He. rewrite Hp. apply (Hu i Hi va Hva). rewrite <- He. unfold user_entry. by rewrite Hp.
Qed.

Lemma user_bytes_ext m m' pt va n : (forall a, va <= a < va + Z.of_nat n -> user_byte m' pt a = user_byte m pt a) ->
  user_bytes m' pt va n = user_bytes m pt va n.
Proof.
  revert va. induction n as [|n IH]; intros va H; cbn [user_bytes]; [done|]. rewrite H by lia.
  destruct (user_byte m pt va); [|done]. rewrite IH; [done|]. intros a Ha. apply H. lia.
Qed.

Section Args.
Context {U : Type} `{!UserMem U} (kend : Z).
Implicit Types s : exst U.

Definition set_mem (k : kmem) s : exst U := mkexst (ex_fs s) k (ex_proc s).
Lemma set_mem_id s : set_mem (ex_mem s) s = s.
Proof. by destruct s. Qed.

(** The address space of [pt], with the stack writable between [base] and [top]. *)
Record stack_ok (k : kmem) (pt : Z) (l : list Z) (base top : Z) : Prop := {
  so_inv : kmem_inv kend k l;
  so_wf : pt_wf kend (pmem k) pt l;
  so_space : space_ok kend (pmem k) pt l;
  so_write va : base <= va < top -> user_writable (pmem k) pt va = true;
  so_base : PGSIZE <= base;
  so_top : top <= MAXVA
}.

(** [user_byte] changes only between [lo] and [hi]. *)
Definition only_between (k k' : kmem) (pt lo hi : Z) : Prop :=
  forall va, 0 <= va -> ~ (lo <= va < hi) -> user_byte (pmem k') pt va = user_byte (pmem k) pt va.

(** Storing [bs] inside the stack. *)
Lemma copyout_stack s pt l base top sp bs :
  stack_ok (ex_mem s) pt l base top -> base <= sp -> sp + Z.of_nat (length bs) <= top -> Forall (fun b => 0 <= b < 256) bs ->
  exists k', onvm (copyout pt sp bs) s = Done 0 (set_mem k' s) /\ stack_ok k' pt l base top /\
    (forall va, pte_at (pmem k') pt va = pte_at (pmem (ex_mem s)) pt va) /\
    (forall a, not_user (pmem (ex_mem s)) pt a -> pmem k' a = pmem (ex_mem s) a) /\
    user_bytes (pmem k') pt sp (length bs) = Some bs /\ only_between (ex_mem s) k' pt sp (sp + Z.of_nat (length bs)).
Proof.
  intros [Hi Hw Hs Hwr Hb Ht] Hsp Hfit Hbs. assert (MAXVA < 2 ^ 64) by done. assert (HP : 0 < PGSIZE) by done.
  destruct (copyout_loop_spec kend pt l (S (length bs)) sp bs (ex_mem s)) as (k & r & k' & Hk & Hc); try done; [lia|lia|].
  destruct Hc as [Hi' Hw' Hs' Hp' Hwt Hr Hf]. destruct Hr as [[-> ->]|(-> & Hlt & Hno)]; [|rewrite Hwr in Hno by lia; done].
  rewrite take_ge in Hwt by done. exists k'. unfold onvm, copyout. rewrite Hk. split_and!; try done.
  - split; try done. intros va Hva. rewrite <- (Hwr va Hva). unfold user_writable, user_entry. by rewrite Hp'.
  - apply (written_bytes (pmem (ex_mem s))); [lia|done].
  - intros va Hva Hout. rewrite (Hwt va Hva).
    destruct (Z.leb_spec sp va), (Z.ltb_spec va (sp + Z.of_nat (length bs))); cbn [andb]; done || lia.
Qed.

(** Each string is where its pointer says. *)
Definition args_placed (k : kmem) (pt : Z) (ps : list Z) (strs : list (list Z)) : Prop :=
  Forall2 (fun p str => user_bytes (pmem k) pt p (length str) = Some str) ps strs.

Lemma args_placed_frame k k' pt ps strs lo hi : args_placed k pt ps strs -> only_between k k' pt lo hi ->
  Forall (fun p => hi <= p) ps -> 0 <= hi -> args_placed k' pt ps strs.
Proof.
  intros Hp Hb Hps Hhi. unfold args_placed in *. induction Hp as [|p str ps strs Hs _ IH]; [done|].
  apply Forall_cons in Hps as [Hhd Hps]. constructor; [|by apply IH].
  rewrite <- Hs. apply user_bytes_ext. intros a Ha. apply Hb; lia.
Qed.

Lemma only_between_trans k1 k2 k3 pt lo mid hi : only_between k1 k2 pt mid hi -> only_between k2 k3 pt lo mid ->
  lo <= mid <= hi -> only_between k1 k3 pt lo hi.
Proof. intros H1 H2 Hm va Hva Hout. rewrite H2, H1 by lia. done. Qed.

Lemma arg_string_eq s pt a str : arg_at (pmem (ex_mem s)) pt a str -> arg_string a s = Done str s.
Proof. intros (n & Hn & -> & _). unfold arg_string. by rewrite Hn. Qed.

Lemma arg_bytes k l pt a str : kmem_inv kend k l -> arg_at (pmem k) pt a str -> Forall (fun b => 0 <= b < 256) str.
Proof.
  intros (Hm & _) (n & _ & -> & _). unfold load_bytes. apply Forall_fmap, Forall_forall. intros i _. apply Hm.
Qed.

Lemma push_args_spec pt l base top : forall argv strs sp us s,
  stack_ok (ex_mem s) pt l base top -> base <= sp <= top -> Forall2 (arg_at (pmem (ex_mem s)) pt) argv strs ->
  let '(e, ps) := arg_layout sp strs in
  exists o k', push_args argv pt sp base us s = Done o (set_mem k' s) /\
    match o with
    | Some r => r = (e, us ++ ps) /\ (length us + length strs <= MAXARG \/ strs = [])%nat /\ base <= e /\
        stack_ok k' pt l base top /\ args_placed k' pt ps strs /\ only_between (ex_mem s) k' pt e sp
    | None => (MAXARG < length us + length strs)%nat \/ e < base
    end.
Proof.
  induction argv as [|a argv IH]; intros strs sp us s Hok Hsp Ha; inversion Ha as [|? str ? strs' Hstr Hrest]; subst; cbn [arg_layout push_args].
  - exists (Some (sp, us)), (ex_mem s). rewrite set_mem_id, app_nil_r. split; [done|]. split_and!; try done; [by right|lia|constructor].
  - pose proof (arg_at_length _ _ _ _ Hstr) as Hlen. pose proof (so_base _ _ _ _ _ Hok) as Hb. pose proof (so_top _ _ _ _ _ Hok) as Ht.
    assert (HM : MAXVA < 2 ^ 64) by done.
    destruct (align16_bounds (sp - Z.of_nat (length str))) as [Hal _].
    pose proof (push_sp_eq sp (Z.of_nat (length str)) ltac:(lia)) as Hpush. set (sp1 := align16 _) in *.
    destruct (arg_layout_below sp1 strs') as (Hlow & Hptrs & Hnum). specialize (IH strs' sp1 (us ++ [sp1])).
    destruct (arg_layout sp1 strs') as [e ps]. cbn [fst snd] in *.
    destruct (Nat.leb_spec MAXARG (length us)) as [Hmax|Hmax].
    { exists None, (ex_mem s). rewrite set_mem_id. split; [done|]. left. cbn. lia. }
    rewrite (bind_Done _ _ _ _ _ (arg_string_eq _ _ _ _ Hstr)). cbv zeta. rewrite Hpush.
    destruct (Z.ltb_spec sp1 base) as [Hlt|Hge].
    { exists None, (ex_mem s). rewrite set_mem_id. split; [done|]. right. lia. }
    destruct (copyout_stack s pt l base top sp1 str Hok) as (k1 & Hc & Hok1 & Hpt1 & Hf1 & Hub & Hbt); [lia|lia|by eapply arg_bytes; [apply Hok|]|].
    rewrite (bind_Done _ _ _ _ _ Hc). change (0 <? 0) with false. cbv iota.
    destruct (IH (set_mem k1 s)) as (o & k' & Hrun & Hres); [done|lia| |].
    { eapply Forall2_impl; [exact Hrest|]. intros x y. by apply arg_at_frame. }
    exists o, k'. split; [exact Hrun|]. cbn [ex_mem set_mem] in Hres. rewrite length_app in Hres. cbn [length] in Hres |- *.
    destruct o as [r|]; [|destruct Hres as [?|?]; [left; lia|by right]].
    destruct Hres as (-> & Hfit & He & Hok' & Hpl & Hbt'). split_and!; try done.
    + by rewrite <- app_assoc.
    + left. destruct Hfit as [?| ->]; cbn; lia.
    + constructor; [|done]. rewrite <- Hub. apply user_bytes_ext. intros x Hx. apply Hbt'; lia.
    + eapply only_between_trans; [|exact Hbt'|lia]. intros va Hva Hout. apply Hbt; lia.
Qed.

Lemma length_ptrs (l : list Z) : length (concat (le_bytes 8 <$> l)) = (8 * length l)%nat.
Proof. induction l as [|x l IH]; [done|]. rewrite fmap_cons. cbn [concat]. rewrite length_app, length_le_bytes, IH. cbn [length]. lia. Qed.

(** The two loops of [exec], one after the other. *)
Definition push_all (argv : list Z) (pt sp base : Z) : M (exst U) (option (Z * list Z)) :=
  let! r := push_args argv pt sp base [] in
  match r with
  | None => ret None
  | Some (sp, ustack) => let! r := push_argv pt sp base ustack in ret ((fun sp => (sp, ustack)) <$> r)
  end.

Lemma push_all_few pt l base top argv strs s :
  stack_ok (ex_mem s) pt l base top -> base <= top -> Forall2 (arg_at (pmem (ex_mem s)) pt) argv strs -> (length argv < MAXARG)%nat ->
  let ps := (arg_layout top strs).2 in
  let sp := argv_sp top strs in
  exists o k', push_all argv pt top base s = Done o (set_mem k' s) /\
    match o with
    | None => sp < base
    | Some r => r = (sp, ps) /\ base <= sp /\ sp mod 16 = 0 /\ args_placed k' pt ps strs /\
        user_bytes (pmem k') pt sp (8 * S (length argv)) = Some (concat (le_bytes 8 <$> (ps ++ [0]))) /\
        only_between (ex_mem s) k' pt sp top
    end.
Proof.
  intros Hok Hbt Ha Hmax ps sp. pose proof (Forall2_length _ _ _ Ha) as Hlen.
  pose proof (push_args_spec pt l base top argv strs top [] s Hok ltac:(lia) Ha) as Hpush.
  destruct (arg_layout_below top strs) as (Hlow & Hptrs & Hnum). unfold sp, argv_sp, ps in *. clear sp ps.
  destruct (arg_layout top strs) as [e ps]. cbn [fst snd] in *. destruct Hpush as (o & k1 & Hrun & Hres).
  destruct (align16_bounds (e - 8 * (Z.of_nat (length strs) + 1))) as [Hal Hmod]. set (sp := align16 _) in *.
  unfold push_all. rewrite (bind_Done _ _ _ _ _ Hrun). cbn [length Nat.add] in Hres.
  destruct o as [r|]; [|exists None, k1; split; [done|]; destruct Hres as [?|?]; lia].
  destruct Hres as (-> & Hfit & He & Hok1 & Hpl & Hbtw). cbn [app].
  pose proof (so_base _ _ _ _ _ Hok) as Hb. pose proof (so_top _ _ _ _ _ Hok) as Ht. assert (HM : MAXVA < 2 ^ 64) by done.
  assert (Hpl8 : length (concat (le_bytes 8 <$> (ps ++ [0]))) = (8 * S (length argv))%nat).
  { rewrite length_ptrs, length_app. cbn [length]. lia. }
  assert (Hsp : push_sp e (Z.of_nat (length (concat (le_bytes 8 <$> (ps ++ [0]))))) = sp).
  { rewrite Hpl8, push_sp_eq; [unfold sp; f_equal; lia|]. unfold MAXARG in Hmax. change PGSIZE with 4096 in Hb. lia. }
  unfold push_argv. destruct (Nat.leb_spec MAXARG (length ps)) as [?|_]; [lia|].
  cbv zeta. rewrite Hsp. destruct (Z.ltb_spec sp base) as [Hlt|Hge].
  { exists None, k1. split; [done|]. done. }
  destruct (copyout_stack (set_mem k1 s) pt l base top sp (concat (le_bytes 8 <$> (ps ++ [0])))) as (k2 & Hc & Hok2 & _ & _ & Hub & Hbt2);
    [done|done|rewrite Hpl8; lia|apply Forall_concat, Forall_fmap, Forall_forall; intros; apply le_bytes_range|].
  exists (Some (sp, ps)), k2. split.
  { rewrite (bind_Done _ _ _ (Some sp) (set_mem k2 s)); [done|]. rewrite (bind_Done _ _ _ _ _ Hc). done. }
  rewrite Hpl8 in Hbt2, Hub. split_and!; try done.
  - assert (0 < PGSIZE) by done. eapply args_placed_frame; [exact Hpl|exact Hbt2| |lia]. eapply Forall_impl; [exact Hptrs|]. cbn. lia.
  - eapply (only_between_trans _ _ _ _ _ e); [exact Hbtw| |lia]. intros va Hva Hout. apply Hbt2; lia.
Qed.

(** [sys_exec] needs an entry of its own array for the NULL pointer. *)
Lemma fetch_args_few : forall n uargv argv s args s', fetch_args n uargv argv s = Done (args, true) s' ->
  (length args < length argv + n)%nat.
Proof.
  induction n as [|n IH]; intros uargv argv s args s' H; cbn [fetch_args] in H; [done|].
  apply bind_Done_inv in H as (uarg & s1 & _ & H). destruct uarg as [uarg|]; [|done].
  destruct (uarg =? 0); [injection H as <- _; lia|]. apply bind_Done_inv in H as (page & s2 & _ & H).
  destruct (page =? 0); [done|]. apply bind_Done_inv in H as (str & s3 & _ & H). destruct str as [str|]; [|done].
  apply bind_Done_inv in H as (? & s4 & _ & H). apply IH in H. rewrite length_app in H. cbn in H. lia.
Qed.

(** C24: pushing fewer than [MAXARG] arguments never panics.  It fails exactly when the strings and
    the pointer array do not fit between the stack guard and the top; otherwise user code finds every string
    at its pointer, the array of pointers, closed by 0, at the 16-byte aligned stack pointer, and no other
    byte changed.  More than [MAXARG] arguments are refused; exactly [MAXARG] of them, when the strings fit,
    store past the end of [ustack], and [sys_exec] never hands over that many. *)
Theorem exec_pushes_arguments pt l base top argv strs s :
  stack_ok (ex_mem s) pt l base top -> base <= top -> Forall2 (arg_at (pmem (ex_mem s)) pt) argv strs ->
  let ps := (arg_layout top strs).2 in
  let sp := argv_sp top strs in
  ((length argv < MAXARG)%nat ->
     exists o k', push_all argv pt top base s = Done o (set_mem k' s) /\
       match o with
       | None => sp < base
       | Some r => r = (sp, ps) /\ base <= sp /\ sp mod 16 = 0 /\ args_placed k' pt ps strs /\
           user_bytes (pmem k') pt sp (8 * S (length argv)) = Some (concat (le_bytes 8 <$> (ps ++ [0]))) /\
           only_between (ex_mem s) k' pt sp top
       end) /\
  ((MAXARG < length argv)%nat -> exists k', push_all argv pt top base s = Done None (set_mem k' s)) /\
  (length argv = MAXARG -> base <= (arg_layout top strs).1 -> push_all argv pt top base s = Panic "undefined: ustack[MAXARG]") /\
  (forall uargv args s0 s', fetch_args MAXARG uargv [] s0 = Done (args, true) s' -> (length args < MAXARG)%nat).
Proof.
  intros Hok Hbt Ha ps sp. pose proof (Forall2_length _ _ _ Ha) as Hlen. split_and!.
  - intros Hmax. by apply (push_all_few pt l).
  - intros Hmax. pose proof (push_args_spec pt l base top argv strs top [] s Hok ltac:(lia) Ha) as Hpush.
    destruct (arg_layout top strs) as [e ps']. destruct Hpush as (o & k1 & Hrun & Hres). exists k1.
    unfold push_all. rewrite (bind_Done _ _ _ _ _ Hrun). destruct o as [r|]; [|done].
    destruct Hres as (_ & [?|?] & _); [cbn in *; lia|subst strs; cbn in *; lia].
  - intros Hmax Hfit. pose proof (push_args_spec pt l base top argv strs top [] s Hok ltac:(lia) Ha) as Hpush.
    destruct (arg_layout_below top strs) as (_ & _ & Hnum).
    destruct (arg_layout top strs) as [e ps']. cbn [fst snd] in *. destruct Hpush as (o & k1 & Hrun & Hres).
    unfold push_all. rewrite (bind_Done _ _ _ _ _ Hrun). destruct o as [r|]; [|cbn in Hres; lia]. destruct Hres as (-> & _). cbn [app].
    unfold push_argv. destruct (Nat.leb_spec MAXARG (length ps')); [done|lia].
  - intros uargv args s0 s' H. by apply fetch_args_few in H.
Qed.
End Args.

(** ** A program with one argument *)

(** One more page below the five of [VmOps.v], holding the string [hi]. *)
Definition kend6 : Z := kend5 - PGSIZE.
Definition hi : list Z := [104; 105; 0].

Lemma managed6 a : managed kend5 a -> managed kend6 a.
Proof. intros (? & ? & ?). split; [done|]. split; [done|]. unfold kend6. lia_pages. Qed.
Lemma kend6_managed : managed kend6 kend6.
Proof. by vm_compute. Qed.

Lemma free_pages6 m fl l : free_pages kend5 m fl l -> free_pages kend6 m fl l.
Proof. induction 1; constructor; [by apply managed6|done]. Qed.

Lemma one_argument : exists k l, stack_ok kend6 k (page5 1) l PGSIZE (2 * PGSIZE) /\ arg_at (pmem k) (page5 1) kend6 hi.
Proof.
  destruct (mapped_space_at PGSIZE ltac:(by right)) as (s & l & (Hm & Hfr & Hnd) & Hwf & Hp & Hl & Ht).
  assert (Hwf6 : pt_wf kend6 (pmem s) (page5 1) l).
  { destruct Hwf as [H1 H2]. split; [|exact H2]. intros va k p Hk Hn. destruct (H1 va k p Hk Hn). split; [by apply managed6|done]. }
  assert (Hnt : ~ in_tree (pmem s) (page5 1) kend6).
  { intros (va & k & Hk & Hn). destruct (wf_page _ _ _ _ Hwf va k kend6 Hk Hn) as [(_ & _ & H) _]. unfold kend6 in H. lia_pages. }
  set (m' := store_bytes (pmem s) kend6 hi).
  assert (Hout : forall x, x < kend6 \/ kend6 + PGSIZE <= x -> m' x = pmem s x).
  { intros x Hx. apply store_bytes_out. cbn [hi length]. lia_pages. }
  assert (Hpte : forall va, pte_at m' (page5 1) va = pte_at (pmem s) (page5 1) va).
  { intros va. by apply (outside_pte kend6 (pmem s) m' (page5 1) kend6 l Hwf6 kend6_managed Hnt). }
  assert (Hmap : forall v, 0 <= v < MAXVA -> pte_at m' (page5 1) v =
     if (PGSIZE <=? v) && (v <? PGSIZE + PGSIZE) then mk_pte (page5 0) urwx else 0) by (intros v Hv; rewrite Hpte; by apply Hp).
  exists (mkkmem m' (freelist s)), l. split; [split|]; cbn [pmem].
  - apply (kmem_inv_write kend6 s); [|by apply store_bytes_ok|].
    + split; [done|]. split; [by apply free_pages6|done].
    + intros pa i Hpa Hi. apply Hout. right. assert (Hmg : managed kend5 pa).
      { eapply free_pages_managed; [exact Hfr|by apply list_elem_of_In]. }
      destruct Hmg as (_ & _ & ? & _). unfold kend6. lia_pages.
  - apply (outside_wf kend6 (pmem s) m' (page5 1) kend6 l Hwf6 kend6_managed Hnt Hout). auto.
  - apply (mapped_space_ok_at kend6 _ PGSIZE); [by right|by apply managed6, page5_managed|done|done|].
    by rewrite (outside_tree kend6 (pmem s) m' (page5 1) kend6 l Hwf6 kend6_managed Hnt Hout).
  - intros va Hva. unfold user_writable, user_entry. assert (HM : MAXVA = 2 ^ 38) by done.
    rewrite Hmap by lia_pages. destruct mapped_entry_bits as (B0 & B4 & B2 & _).
    destruct (Z.leb_spec PGSIZE va), (Z.ltb_spec va (PGSIZE + PGSIZE)); try lia_pages. cbn [andb]. rewrite B0, B4, B2.
    by destruct (Z.ltb_spec va MAXVA); [|lia_pages].
  - done.
  - done.
  - exists 2. assert (H0 : m' kend6 = 104) by (change (m' kend6) with (m' (kend6 + Z.of_nat 0)); by apply (store_bytes_in _ _ hi 0 104)).
    assert (H1 : m' (kend6 + 1) = 105) by (by apply (store_bytes_in _ _ hi 1 105)).
    assert (H2 : m' (kend6 + 2) = 0) by (by apply (store_bytes_in _ _ hi 2 0)).
    split_and!.
    + assert (exists n, Z.to_nat PGSIZE = S (S (S n))) as [n ->] by (exists 4093%nat; vm_compute; reflexivity).
      unfold strlen. cbn [strlen_from]. rewrite Z.add_0_r, H0. change (0 + 1) with 1. rewrite H1. change (1 + 1) with 2. by rewrite H2.
    + change (Z.to_nat (2 + 1)) with 3%nat. unfold load_bytes, hi. cbn [seq fmap list_fmap].
      change (Z.of_nat 0) with 0. change (Z.of_nat 1) with 1. change (Z.of_nat 2) with 2. by rewrite Z.add_0_r, H0, H1, H2.
    + intros i Hi va Hva He. destruct (mapped_user m' PGSIZE ltac:(by right) Hmap va Hva He) as [_ ->]. left.
      unfold page5, kend6. lia_pages.
Qed.

Lemma exec_pushes_arguments_witness :
  exists (k : kmem) k', push_all [kend6] (page5 1) (2 * PGSIZE) PGSIZE (mkexst hi_fs k proc0) =
      Done (Some (8160, [8176])) (mkexst hi_fs k' proc0) /\
    user_bytes (pmem k') (page5 1) 8176 3 = Some hi /\
    user_bytes (pmem k') (page5 1) 8160 16 = Some (le_bytes 8 8176 ++ le_bytes 8 0).
Proof.
  destruct one_argument as (k & l & Hok & Harg). exists k.
  destruct (exec_pushes_arguments kend6 (page5 1) l PGSIZE (2 * PGSIZE) [kend6] [hi] (mkexst hi_fs k proc0) Hok)
    as (H & _); [by vm_compute|by repeat constructor|]. destruct H as (o & k' & Hrun & Hres); [vm_compute; lia|].
  exists k'. destruct o as [r|].
  - destruct Hres as (-> & _ & _ & Hp & Hub & _). split; [exact Hrun|]. split; [by inversion Hp|exact Hub].
  - exfalso. vm_compute in Hres. discriminate Hres.
Defined.
