(* ===== verification/ExecLoad.v ===== *)
(** * What [exec] loads, and what it leaves on failure

    Theorems: [loadseg] puts exactly the bytes of the file into the address
    range of the segment and fails when the file is too short; and [exec] is
    atomic for the calling process: when it fails, the process keeps its
    page table, size, registers and name. *)

From S2P Require Import Prelude CString Kalloc ProcDef Proc Vm VmFacts VmOps UserMem Block Log Fs FsAlloc FsInode FsFile Exec ExecArgs.

Section Load.
Context {U : Type} `{!UserMem U} (kend : Z).
Implicit Types s : exst U.

(** A state with the same process and file system, up to its user and kernel memory. *)
Definition loaded (w : U * mem) (k : kmem) s : exst U := mkexst (set_um w (ex_fs s)) k (ex_proc s).

(** The part of a file that [readi] returns for [n] bytes at [off]. *)
Definition avail (x : inode) (off n : Z) : Z := if off >? d_size (i_d x) then 0 else Z.min n (d_size (i_d x) - off).

Lemma readi_page s ip x pa off n :
  itable (ex_fs s) !! ip = Some x -> file_ok (V (ex_fs s)) (i_d x) -> uok (um (ex_fs s)).1 -> mem_ok (pmem (ex_mem s)) ->
  0 <= pa -> pa + n < 2 ^ 64 -> 0 <= off -> 0 <= n -> off + n < 2 ^ 32 ->
  exists w, uok w.1 /\ onfs (readi ip false pa off n) s =
    Done (avail x off n)
      (loaded w (mkkmem (store_bytes (pmem (ex_mem s)) pa (file_bytes (V (ex_fs s)) (i_d x) off (Z.to_nat (avail x off n))))
        (freelist (ex_mem s))) s).
Proof.
  intros Hi Hf Hu Hm Hpa Hpn Ho Hn Hon. set (f := set_um ((um (ex_fs s)).1, pmem (ex_mem s)) (ex_fs s)).
  assert (Hside : side_ok (um f)) by done.
  destruct (readi_spec f ip x false pa off n Hi Hf Hside Hpa Hpn ltac:(lia) ltac:(lia)) as (k & r & w' & Hr & (Hok & Hsame & _ & Hst) & Hcnt).
  assert (Hc : (if (off >? d_size (i_d x)) || (2 ^ 32 <=? off + n) then 0 else Z.min n (d_size (i_d x) - off)) = avail x off n).
  { destruct (Z.leb_spec (2 ^ 32) (off + n)); [lia|]. by rewrite orb_false_r. }
  rewrite Hc in Hcnt. destruct Hcnt as [[-> Hk]|(_ & ? & _)]; [|done].
  exists w'. split; [apply Hok|]. unfold onfs. fold f. rewrite Hr. unfold loaded. do 2 f_equal. cbn [um set_um].
  rewrite (Hst eq_refl). cbn [snd]. by rewrite <- Hk, Nat2Z.id.
Qed.

(** A segment's pages: [va] is aligned and user code can access [n] bytes there. *)
Definition seg_mapped (m : mem) (pt va n : Z) : Prop :=
  page_aligned va /\ 0 <= va /\ va + n <= MAXVA /\ forall a, va <= a < va + n -> user_entry m pt a = true.

Record space (k : kmem) (pt : Z) (l : list Z) : Prop := {
  sc_inv : kmem_inv kend k l;
  sc_wf : pt_wf kend (pmem k) pt l;
  sc_ok : space_ok kend (pmem k) pt l
}.

Lemma file_bytes_split v d off i n : 0 <= i -> i <= n ->
  file_bytes v d off (Z.to_nat n) = file_bytes v d off (Z.to_nat i) ++ file_bytes v d (off + i) (Z.to_nat (n - i)).
Proof.
  intros Hi Hn. replace (Z.to_nat n) with (Z.to_nat i + Z.to_nat (n - i))%nat by lia.
  rewrite file_bytes_app. by rewrite Z2Nat.id.
Qed.

Lemma user_page_pos k pt l a : space k pt l -> 0 <= a -> user_entry (pmem k) pt a = true ->
  user_page (pmem k) pt a = PTE2PA (pte_at (pmem k) pt a) /\ 0 < PTE2PA (pte_at (pmem k) pt a) < PHYSTOP.
Proof.
  intros [_ _ Hs] Ha He. rewrite user_page_entry, He. destruct (sp_page _ _ _ _ Hs a Ha He) as ((_ & ? & _ & ?) & _). done.
Qed.

(** Nothing stored, wherever. *)
Lemma written_nil m m' pt a : (forall b, 0 <= b -> user_byte m' pt b = user_byte m pt b) -> written m m' pt a [].
Proof.
  intros H b Hb. cbn [length]. change (Z.of_nat 0) with 0. rewrite (H b Hb).
  destruct (Z.leb_spec a b), (Z.ltb_spec b (a + 0)); cbn [andb]; done || lia.
Qed.
Lemma written_none m m' pt a a' : written m m' pt a [] -> written m m' pt a' [].
Proof.
  intros H. apply written_nil. intros b Hb. rewrite (H b Hb). cbn [length]. change (Z.of_nat 0) with 0.
  destruct (Z.leb_spec a b), (Z.ltb_spec b (a + 0)); cbn [andb]; done || lia.
Qed.

Lemma loadseg_loop_spec ip x pt va off sz l : forall fuel i s,
  space (ex_mem s) pt l -> seg_mapped (pmem (ex_mem s)) pt va sz ->
  itable (ex_fs s) !! ip = Some x -> file_ok (V (ex_fs s)) (i_d x) -> uok (um (ex_fs s)).1 ->
  0 <= off -> off + sz < 2 ^ 32 -> 0 <= i -> i mod PGSIZE = 0 -> sz <= i + Z.of_nat fuel * PGSIZE ->
  exists r w k', loadseg_loop fuel pt va ip off sz i s = Done r (loaded w k' s) /\ space k' pt l /\
    (forall a, pte_at (pmem k') pt a = pte_at (pmem (ex_mem s)) pt a) /\
    ((r = 0 /\ (i < sz -> off + sz <= d_size (i_d x)) /\
        written (pmem (ex_mem s)) (pmem k') pt (va + i) (file_bytes (V (ex_fs s)) (i_d x) (off + i) (Z.to_nat (sz - i)))) \/
     (r = -1 /\ i < sz /\ d_size (i_d x) < off + sz)).
Proof.
  assert (HP : 0 < PGSIZE) by done.
  assert (Hnil : forall k a, written (pmem k) (pmem k) pt a []) by (intros; by apply written_nil).
  induction fuel as [|fuel IH]; intros i s Hsp Hseg Hip Hfile Hu Hoff Hsz Hi Hal Hfuel; cbn [loadseg_loop].
  { exists 0, (um (ex_fs s)), (ex_mem s). split; [by destruct s as [[] ? ?]|]. split; [done|]. split; [done|]. left.
    split; [done|]. split; [lia|]. replace (Z.to_nat (sz - i)) with 0%nat by lia. apply Hnil. }
  destruct (Z.ltb_spec i sz) as [Hlt|Hge].
  2: { exists 0, (um (ex_fs s)), (ex_mem s). split; [by destruct s as [[] ? ?]|]. split; [done|]. split; [done|]. left.
       split; [done|]. split; [lia|]. replace (Z.to_nat (sz - i)) with 0%nat by lia. apply Hnil. }
  destruct Hseg as (Hva & Hva0 & Hmax & Hue). assert (HM : MAXVA = 2 ^ 38) by done.
  rewrite u64_small by lia. assert (Hent : user_entry (pmem (ex_mem s)) pt (va + i) = true) by (apply Hue; lia).
  destruct (user_page_pos _ _ _ (va + i) Hsp ltac:(lia) Hent) as [Hup Hpa].
  rewrite (bind_Done _ _ s (user_page (pmem (ex_mem s)) pt (va + i)) s).
  2: { unfold onvm. rewrite (walkaddr_eq kend _ _ _ l) by apply Hsp. by destruct s. }
  rewrite Hup. set (pa := PTE2PA (pte_at (pmem (ex_mem s)) pt (va + i))) in *. destruct (Z.eqb_spec pa 0) as [?|Hnz]; [lia|]. cbv zeta.
  set (n := if sz - i <? PGSIZE then sz - i else PGSIZE).
  assert (Hn : 0 < n <= PGSIZE /\ n <= sz - i /\ (n = PGSIZE \/ n = sz - i)) by (unfold n; destruct (Z.ltb_spec (sz - i) PGSIZE); lia).
  rewrite u32_small by lia. assert (HPH : PHYSTOP < 2 ^ 60) by done. assert (HP12 : PGSIZE = 4096) by done.
  destruct (readi_page s ip x pa (off + i) n) as (w & Hw & Hrd); try done; try lia; [apply Hsp|].
  rewrite (bind_Done _ _ _ _ _ Hrd). set (c := avail x (off + i) n) in *.
  assert (Hc : 0 <= c <= n /\ off + i + c <= Z.max (d_size (i_d x)) (off + i) /\ (c < n -> d_size (i_d x) < off + i + n)).
  { pose proof (fo_size _ _ Hfile). unfold c, avail. destruct (Z.gtb_spec (off + i) (d_size (i_d x))); lia. }
  assert (Hmod : (va + i) mod PGSIZE = 0).
  { unfold page_aligned in Hva. rewrite Z.add_mod, Hva, Hal by lia. by rewrite Z.mod_0_l by lia. }
  assert (Hfit : off + i + Z.of_nat (Z.to_nat c) <= d_size (i_d x) \/ c = 0) by lia.
  destruct (store_user kend (ex_mem s) l pt (va + i) (file_bytes (V (ex_fs s)) (i_d x) (off + i) (Z.to_nat c)))
    as (Hinv1 & Hwf1 & Hsp1 & Hpte1 & Hwr1 & _); try apply Hsp; try done; try lia.
  { rewrite length_file_bytes, Hmod. lia. }
  { destruct Hfit as [Hfit|Hc0]; [by apply file_bytes_range; [|lia|]|]. replace (Z.to_nat c) with 0%nat by lia. constructor. }
  rewrite Hmod, Z.add_0_r in Hinv1, Hwf1, Hsp1, Hpte1, Hwr1. fold pa in Hinv1, Hwf1, Hsp1, Hpte1, Hwr1.
  set (k1 := mkkmem _ _) in *. destruct (Z.eqb_spec c n) as [Hcn|Hcn]; cbn [negb].
  2: { exists (-1), w, k1. split; [done|]. split; [done|]. split; [done|]. right. split; [done|]. split; [done|lia]. }
  destruct (IH (i + PGSIZE) (loaded w k1 s)) as (r & w2 & k2 & Hrun & Hsp2 & Hpte2 & Hres); try done; try lia.
  { split_and!; try done. intros a Ha. unfold user_entry. cbn [loaded ex_mem]. rewrite Hpte1. by apply Hue. }
  { rewrite Z.add_mod, Hal, Z.mod_same by lia. done. }
  exists r, w2, k2. split; [exact Hrun|]. split; [done|]. split; [intros a; rewrite Hpte2; apply Hpte1|].
  destruct Hres as [(-> & Hlen & Hwr2)|(-> & _ & Hlen)]; [left|by right]. split; [done|]. cbn [loaded ex_mem ex_fs] in *.
  split; [intros _; destruct (decide (i + PGSIZE < sz)); [by apply Hlen|lia]|].
  rewrite (file_bytes_split _ _ _ n (sz - i)) by lia. apply (written_app _ (pmem k1)); [lia|by rewrite Hcn in Hwr1|].
  rewrite length_file_bytes, Z2Nat.id by lia. destruct (decide (n = sz - i)) as [->|Hne].
  - rewrite Z.sub_diag. rewrite (Z2Nat.nonpos (sz - (i + PGSIZE))) in Hwr2 by lia. by apply (written_none _ _ _ (va + (i + PGSIZE))).
  - replace n with PGSIZE by lia. replace (va + i + PGSIZE) with (va + (i + PGSIZE)) by lia.
    replace (off + i + PGSIZE) with (off + (i + PGSIZE)) by lia. by replace (sz - i - PGSIZE) with (sz - (i + PGSIZE)) by lia.
Qed.

(** C25: on a segment whose pages are mapped, [loadseg] never panics: it returns 0 exactly when the
    file holds all [sz] bytes at [off] (or none are asked for), and then user code
    sees exactly these bytes at [va] and no other byte changed; otherwise -1.  The page table, the free
    pages and the file system stay as they were. *)
Theorem loadseg_loads_segment ip x pt va off sz l s :
  space (ex_mem s) pt l -> seg_mapped (pmem (ex_mem s)) pt va sz ->
  itable (ex_fs s) !! ip = Some x -> file_ok (V (ex_fs s)) (i_d x) -> uok (um (ex_fs s)).1 ->
  0 <= off -> 0 <= sz -> off + sz < 2 ^ 32 ->
  exists r w k', loadseg pt va ip off sz s = Done r (loaded w k' s) /\ space k' pt l /\
    (forall a, pte_at (pmem k') pt a = pte_at (pmem (ex_mem s)) pt a) /\
    if (sz =? 0) || (off + sz <=? d_size (i_d x))
    then r = 0 /\ user_bytes (pmem k') pt va (Z.to_nat sz) = Some (file_bytes (V (ex_fs s)) (i_d x) off (Z.to_nat sz)) /\
      only_between (ex_mem s) k' pt va (va + sz)
    else r = -1.
Proof.
  intros Hsp Hseg Hip Hfile Hu Hoff H0 Hsz. assert (HP : PGSIZE = 4096) by done. unfold loadseg.
  pose proof (Z.div_mod sz PGSIZE ltac:(lia)). pose proof (Z.mod_pos_bound sz PGSIZE ltac:(lia)). pose proof (Z.div_pos sz PGSIZE ltac:(lia) ltac:(lia)).
  destruct (loadseg_loop_spec ip x pt va off sz l (S (Z.to_nat (sz / PGSIZE))) 0 s) as (r & w & k' & Hrun & Hsp' & Hpte & Hres); try done; [lia|].
  exists r, w, k'. split; [exact Hrun|]. split; [done|]. split; [done|]. destruct Hseg as (_ & Hva & _).
  rewrite !Z.add_0_r, Z.sub_0_r in Hres. destruct Hres as [(-> & Hlen & Hwr)|(-> & Hpos & Hlen)].
  - assert (Hok : (sz =? 0) || (off + sz <=? d_size (i_d x)) = true).
    { destruct (Z.eqb_spec sz 0); [done|]. apply Z.leb_le, Hlen. lia. }
    rewrite Hok. split; [done|]. split.
    + pose proof (written_bytes _ _ _ _ _ Hva Hwr) as Hb. by rewrite length_file_bytes in Hb.
    + intros a Ha Hout. rewrite (Hwr a Ha), length_file_bytes, Z2Nat.id by done.
      destruct (Z.leb_spec va a), (Z.ltb_spec a (va + sz)); cbn [andb]; done || lia.
  - destruct (Z.eqb_spec sz 0); [lia|]. by destruct (Z.leb_spec (off + sz) (d_size (i_d x))); [lia|].
Qed.

(** ** Failure of [exec] *)

Definition keeps_proc {A} (c : M (exst U) A) : Prop := forall s a s', c s = Done a s' -> ex_proc s' = ex_proc s.

Lemma keeps_proc_ret {A} (a : A) : keeps_proc (ret a).
Proof. intros s b s' H. injection H as <- <-. done. Qed.
Lemma keeps_proc_panic {A} msg : keeps_proc (panic msg : M (exst U) A).
Proof. done. Qed.
Lemma keeps_proc_gets {A} (f : exst U -> A) : keeps_proc (gets f).
Proof. intros s b s' H. injection H as <- <-. done. Qed.
Lemma keeps_proc_bind {A B} (c : M (exst U) A) (k : A -> M (exst U) B) : keeps_proc c -> (forall a, keeps_proc (k a)) -> keeps_proc (bind c k).
Proof. intros Hc Hk s b s' H. apply bind_Done_inv in H as (a & s1 & H1 & H2). rewrite (Hk _ _ _ _ H2). by eapply Hc. Qed.
Lemma keeps_proc_onfs {A} (c : M (fs U) A) : keeps_proc (onfs c).
Proof. intros s b s' H. unfold onfs in H. destruct (c _); [|done]. injection H as <- <-. done. Qed.
Lemma keeps_proc_onvm {A} (c : M kmem A) : keeps_proc (onvm c).
Proof. intros s b s' H. unfold onvm in H. destruct (c _); [|done]. injection H as <- <-. done. Qed.
Lemma keeps_proc_string a : keeps_proc (arg_string a).
Proof. intros s b s' H. unfold arg_string in H. destruct (strlen _ _ _); [|done]. injection H as <- <-. done. Qed.
End Load.

Ltac keeps_proc_tac :=
  repeat first [ assumption | apply keeps_proc_ret | apply keeps_proc_panic | apply keeps_proc_gets | apply keeps_proc_onfs
    | apply keeps_proc_onvm | apply keeps_proc_string | apply keeps_proc_bind; [|intros] | progress cbv zeta | progress cbv beta
    | match goal with
      | |- keeps_proc (match ?x with _ => _ end) => destruct x
      | |- keeps_proc (if ?x then _ else _) => destruct x
      end ].

Section Atomic.
Context {U : Type} `{!UserMem U}.
Context (kend trampoline elf_addr ph_addr de_addr : Z) (cwd : nat) (junk : list Z).
Implicit Types s : exst U.

Lemma loadseg_keeps fuel pt va ip offset sz i : keeps_proc (loadseg_loop fuel pt va ip offset sz i : M (exst U) Z).
Proof. revert i. induction fuel as [|fuel IH]; intros i; cbn [loadseg_loop]; keeps_proc_tac. apply IH. Qed.
Lemma segments_keep n pt ip : forall off sz, keeps_proc (load_segments kend ph_addr n pt ip off sz : M (exst U) _).
Proof.
  induction n as [|n IH]; intros off sz; cbn [load_segments]; [keeps_proc_tac|]. unfold kernel_bytes.
  keeps_proc_tac; try apply IH. apply loadseg_keeps.
Qed.
Lemma args_keep argv pt base : forall sp us, keeps_proc (push_args argv pt sp base us : M (exst U) _).
Proof. induction argv as [|a argv IH]; intros sp us; cbn [push_args]; keeps_proc_tac. apply IH. Qed.
Lemma argv_keep pt sp base us : keeps_proc (push_argv pt sp base us : M (exst U) _).
Proof. unfold push_argv. keeps_proc_tac. Qed.
Lemma stack_keep pt sz argv : keeps_proc (setup_stack kend pt sz argv : M (exst U) _).
Proof. unfold setup_stack. keeps_proc_tac; [apply args_keep|apply argv_keep]. Qed.
Lemma bad_result pt sz ip s r s' : bad kend pt sz ip s = Done r s' -> r = -1 /\ ex_proc s' = ex_proc s.
Proof.
  intros H. assert (Hk : keeps_proc (bad kend pt sz ip : M (exst U) Z)) by (unfold bad, ex_end_op; keeps_proc_tac).
  split; [|by eapply Hk]. unfold bad in H. apply bind_Done_inv in H as (? & ? & _ & H). apply bind_Done_inv in H as (? & ? & _ & H).
  by injection H as <- <-.
Qed.

(** [exec] changes the calling process only when it succeeds.  If it returns -1 the process keeps its page table,
    size, registers, name and everything else; otherwise it returns the number of arguments and the process is the
    old one with the new page table, size, entry point, stack pointer, argument pointer and name. *)
Theorem exec_atomic path argv s r s' :
  exec kend trampoline elf_addr ph_addr de_addr cwd junk path argv s = Done r s' ->
  (r = -1 /\ ex_proc s' = ex_proc s) \/
  (r = Z.of_nat (length argv) /\ exists pt sz sp entry, ex_proc s' = commit_image pt sz sp entry path (ex_proc s)).
Proof.
  intros H. unfold exec in H. set (p := ex_proc s). assert (Hp : ex_proc s = p) by done. clearbody p.
  apply bind_Done_inv in H as (? & s1 & H1 & H). apply keeps_proc_onfs in H1.
  apply bind_Done_inv in H as (ip & s2 & H2 & H). apply keeps_proc_onfs in H2.
  destruct ip as [ip|].
  2: { left. apply bind_Done_inv in H as (? & s3 & H3 & H). apply keeps_proc_onfs in H3. injection H as <- <-. split; [done|congruence]. }
  apply bind_Done_inv in H as (? & s3 & H3 & H). apply keeps_proc_onfs in H3.
  apply bind_Done_inv in H as (n & s4 & H4 & H). apply keeps_proc_onfs in H4.
  destruct (negb (n =? ELFHDR)). { left. apply bad_result in H as [-> H]. split; [done|congruence]. }
  apply bind_Done_inv in H as (bs & s5 & H5 & H). apply keeps_proc_gets in H5. cbv zeta in H.
  destruct (negb (e_magic _ =? _)). { left. apply bad_result in H as [-> H]. split; [done|congruence]. }
  rewrite bind_gets in H. apply bind_Done_inv in H as (pt & s6 & H6 & H). apply keeps_proc_onvm in H6.
  destruct (pt =? 0). { left. apply bad_result in H as [-> H]. split; [done|congruence]. }
  apply bind_Done_inv in H as ([sz ok] & s7 & H7 & H). apply segments_keep in H7.
  destruct ok. 2: { left. apply bad_result in H as [-> H]. split; [done|congruence]. }
  apply bind_Done_inv in H as (? & s8 & H8 & H). apply keeps_proc_onfs in H8.
  apply bind_Done_inv in H as (? & s9 & H9 & H). apply keeps_proc_onfs in H9.
  rewrite bind_gets in H. apply bind_Done_inv in H as ([sz' o] & s10 & H10 & H). apply stack_keep in H10.
  destruct o as [sp|]. 2: { left. apply bad_result in H as [-> H]. split; [done|congruence]. }
  right. unfold modp in H. rewrite bind_modify in H. apply bind_Done_inv in H as (? & s11 & H11 & H). apply keeps_proc_onvm in H11.
  injection H as <- <-. split; [done|]. exists pt, sz', sp, (e_entry (parse_elfhdr bs)). rewrite H11. cbn [ex_proc]. congruence.
Qed.
End Atomic.

(** ** Loading the file [hi], and refusing to run it *)

Definition hi_disk (outstanding : Z) (locked : bool) : fs (list Z) :=
  mkfs demo_sb (mklog 2 30 outstanding false [] (mkbdev hi_view demo_view [] []))
    [mkinode ROOTDEV 2 1 locked true hi_dinode] (replicate 8 0, ramp) [].

Lemma loadseg_loads_segment_witness :
  exists (k k' : kmem) w, loadseg (page5 1) PGSIZE 0 0 2 (mkexst (hi_disk 1 true) k proc0) =
      Done 0 (loaded w k' (mkexst (hi_disk 1 true) k proc0)) /\
    user_bytes (pmem k') (page5 1) PGSIZE 2 = Some [104; 105].
Proof.
  destruct (mapped_space_at PGSIZE ltac:(by right)) as (k & l & Hinv & Hwf & Hp & Hl & Ht). exists k.
  destruct (loadseg_loads_segment kend5 0 (mkinode ROOTDEV 2 1 true true hi_dinode) (page5 1) PGSIZE 0 2 l
    (mkexst (hi_disk 1 true) k proc0)) as (r & w & k' & Hrun & _ & _ & Hres).
  - split; [exact Hinv|exact Hwf|].
    apply (mapped_space_ok_at kend5 _ PGSIZE); [by right|by apply page5_managed|exact Hp|exact Hl|exact Ht].
  - split; [by vm_compute|]. split; [by vm_compute|]. split; [by vm_compute|]. intros a Ha. cbn [ex_mem].
    assert (HM : MAXVA = 2 ^ 38) by reflexivity. unfold user_entry. rewrite Hp by lia_pages.
    destruct mapped_entry_bits as (B0 & B4 & _).
    destruct (Z.leb_spec PGSIZE a), (Z.ltb_spec a (PGSIZE + PGSIZE)); try lia_pages. cbn [andb]. rewrite B0, B4.
    by destruct (Z.ltb_spec a MAXVA); [|lia_pages].
  - reflexivity.
  - exact hi_file_ok.
  - apply (Forall_replicate (fun b => 0 <= b < 256)). lia.
  - lia.
  - lia.
  - lia.
  - exists k', w. change ((2 =? 0) || (0 + 2 <=? d_size (i_d (mkinode ROOTDEV 2 1 true true hi_dinode)))) with true in Hres. cbv iota in Hres.
    destruct Hres as (-> & Hb & _). split; [exact Hrun|]. change (Z.to_nat 2) with 2%nat in Hb. rewrite Hb. reflexivity.
Defined.

(** The file is shorter than an ELF header. *)
Definition hi_state : exst (list Z) := mkexst (hi_disk 0 false) five_pages proc0.
Abbreviation run_hi := (exec kend5 0 1000 2000 3000 0 (replicate 14 0) [] [] hi_state).

Definition returned {S} (r : result S Z) : option Z := match r with Done z _ => Some z | Panic _ => None end.
Lemma run_hi_result : returned run_hi = Some (-1).
Proof. vm_compute. reflexivity. Qed.

Lemma not_done : -1 = Z.of_nat (length ([] : list Z)) -> False.
Proof. discriminate. Qed.
Lemma run_hi_done : exists s', run_hi = Done (-1) s'.
Proof. pose proof run_hi_result as Hr. destruct run_hi as [r s'|]; [|discriminate]. injection Hr as ->. by exists s'. Qed.

Lemma exec_atomic_witness : exists s', run_hi = Done (-1) s' /\ ex_proc s' = proc0.
Proof.
  destruct run_hi_done as [s' H]. exists s'. split; [exact H|].
  exact (match exec_atomic kend5 0 1000 2000 3000 0 (replicate 14 0) [] [] hi_state (-1) s' H with
         | or_introl (conj _ Hp) => Hp
         | or_intror (conj Hp _) => False_ind _ (not_done Hp)
         end).
Defined.
