(* ===== verification/Grep.v ===== *)
(** * Pattern search: [user/grep.c]

    A pattern or a text is the list of its characters before the NUL, so that
    [re[0] == '\0'] is the end of the list.  The matcher follows the source,
    with [matchstar]'s loop over the text inside the recursion on the pattern.
    [parse] reads a pattern as a list of items with its two anchors and
    [in_lang] is the language of the items.

    [grep] reads its input through a buffer of 1024 bytes; the file is the
    list of its bytes, and [sizes k] bounds what the [k]-th [read] returns.

    Theorems: [match] finds exactly the texts with a substring in the language
    of the pattern, at the ends the anchors ask for; and [grep] prints exactly the complete matching
    lines, in order, however the input is delivered. *)

From S2P Require Import Prelude.

Definition CARET : Z := 94.
Definition DOLLAR : Z := 36.
Definition STAR : Z := 42.
Definition DOT : Z := 46.
Definition NL : Z := 10.

(** ** The matcher *)

(** The loop of [matchstar], with [here] for [matchhere] on the rest of the pattern. *)
Fixpoint matchstar (here : list Z -> bool) (c : Z) (text : list Z) : bool :=
  if here text then true
  else
    match text with
    | [] => false
    | x :: text' => if (x =? c) || (c =? DOT) then matchstar here c text' else false
    end.

Fixpoint matchhere (re text : list Z) : bool :=
  match re with
  | [] => true
  | c :: re' =>
      let rest :=
        if (c =? DOLLAR) && bool_decide (re' = []) then bool_decide (text = [])
        else
          match text with
          | [] => false
          | x :: text' => if (c =? DOT) || (c =? x) then matchhere re' text' else false
          end in
      match re' with
      | d :: re'' => if d =? STAR then matchstar (matchhere re'') c text else rest
      | [] => rest
      end
  end.

Fixpoint match_from (re text : list Z) : bool :=
  if matchhere re text then true
  else match text with [] => false | _ :: text' => match_from re text' end.

Definition match_ (re text : list Z) : bool :=
  match re with
  | c :: re' => if c =? CARET then matchhere re' text else match_from re text
  | [] => match_from re text
  end.

(** ** Searching a file *)

Definition BUFSIZE : nat := 1024.

(** [strchr(p, '\n')]: the line before it and what follows it; [None] at a NUL or at the end. *)
Fixpoint take_line (p : list Z) : option (list Z * list Z) :=
  match p with
  | [] => None
  | x :: p' =>
      if x =? 0 then None
      else if x =? NL then Some ([], p')
      else match take_line p' with Some (line, rest) => Some (x :: line, rest) | None => None end
  end.

(** The loop over the lines in the buffer: what is written, and [p] at its end. *)
Fixpoint grep_lines (fuel : nat) (pattern p : list Z) : list Z * list Z :=
  match fuel with
  | O => ([], p)
  | S fuel' =>
      match take_line p with
      | None => ([], p)
      | Some (line, q) =>
          let '(out, p') := grep_lines fuel' pattern q in
          ((if match_ pattern line then line ++ [NL] else []) ++ out, p')
      end
  end.

(** [read(fd, ., req)] of a file: at least one byte unless it is at its end or
    none is asked for, and at most [req]. *)
Definition read_file (size req : nat) (input : list Z) : list Z * list Z :=
  let n := Nat.min req (S size) in (take n input, drop n input).

(** The loop of [grep] with the [m] bytes [buf] left in the buffer. *)
Fixpoint grep_loop (fuel : nat) (sizes : nat -> nat) (k : nat) (pattern buf input : list Z) : list Z :=
  match fuel with
  | O => []
  | S fuel' =>
      let '(got, input') := read_file (sizes k) (BUFSIZE - length buf - 1) input in
      match got with
      | [] => []
      | _ :: _ =>
          let '(out, p) := grep_lines (S (length buf + length got)) pattern (buf ++ got) in
          out ++ grep_loop fuel' sizes (S k) pattern p input'
      end
  end.
Definition grep (sizes : nat -> nat) (pattern input : list Z) : list Z :=
  grep_loop (S (length input)) sizes 0 pattern [] input.

(** ** The language of a pattern *)

Inductive item := One (c : Z) | Many (c : Z).

(** A character of the text fits [c]. *)
Definition fits (c x : Z) : Prop := c = DOT \/ c = x.

(** The items of a pattern without its caret, and whether it ends in the anchor. *)
Fixpoint parse (re : list Z) : list item * bool :=
  match re with
  | [] => ([], false)
  | c :: re' =>
      match re' with
      | [] => if c =? DOLLAR then ([], true) else ([One c], false)
      | d :: re'' =>
          if d =? STAR then let '(l, e) := parse re'' in (Many c :: l, e)
          else let '(l, e) := parse re' in (One c :: l, e)
      end
  end.

Inductive in_lang : list item -> list Z -> Prop :=
| l_nil : in_lang [] []
| l_one c x l t : fits c x -> in_lang l t -> in_lang (One c :: l) (x :: t)
| l_many c ts l t : Forall (fits c) ts -> in_lang l t -> in_lang (Many c :: l) (ts ++ t).

(** The text starts with a word of the language, the whole text when anchored. *)
Definition starts (p : list item * bool) (text : list Z) : Prop :=
  exists mid post, text = mid ++ post /\ in_lang p.1 mid /\ (p.2 = true -> post = []).

Lemma starts_nil e t : starts ([], e) t <-> (e = true -> t = []).
Proof.
  split.
  - intros (mid & post & -> & Hl & He). inversion Hl; subst. done.
  - intros He. exists [], t. split; [done|]. split; [constructor|done].
Qed.

Lemma starts_one c l e t : starts (One c :: l, e) t <-> exists x t', t = x :: t' /\ fits c x /\ starts (l, e) t'.
Proof.
  split.
  - intros (mid & post & -> & Hl & He). cbn in *. inversion Hl as [|c' x l' t' Hf Ht|]; subst. exists x, (t' ++ post).
    split; [done|]. split; [done|]. by exists t', post.
  - intros (x & t' & -> & Hf & (mid & post & -> & Hl & He)). exists (x :: mid), post. split; [done|]. split; [by constructor|done].
Qed.

Lemma starts_many c l e t : starts (Many c :: l, e) t <-> exists ts t', t = ts ++ t' /\ Forall (fits c) ts /\ starts (l, e) t'.
Proof.
  split.
  - intros (mid & post & -> & Hl & He). cbn in *. inversion Hl as [| |c' ts l' t' Hf Ht]; subst. exists ts, (t' ++ post).
    split; [by rewrite app_assoc|]. split; [done|]. by exists t', post.
  - intros (ts & t' & -> & Hf & (mid & post & -> & Hl & He)). exists (ts ++ mid), post. split; [by rewrite app_assoc|]. split; [by constructor|done].
Qed.

Lemma fits_test c x : (x =? c) || (c =? DOT) = true <-> fits c x.
Proof. unfold fits. rewrite orb_true_iff, !Z.eqb_eq. naive_solver. Qed.
Lemma fits_test' c x : (c =? DOT) || (c =? x) = true <-> fits c x.
Proof. unfold fits. by rewrite orb_true_iff, !Z.eqb_eq. Qed.

Lemma matchstar_spec here c text :
  matchstar here c text = true <-> exists ts t', text = ts ++ t' /\ Forall (fits c) ts /\ here t' = true.
Proof.
  induction text as [|x text IH]; cbn [matchstar].
  - destruct (here []) eqn:H; split; try done.
    + intros _. by exists [], [].
    + intros (ts & t' & Heq & _ & Ht). symmetry in Heq. apply app_eq_nil in Heq as [-> ->]. congruence.
  - destruct (here (x :: text)) eqn:H.
    + split; [|done]. intros _. by exists [], (x :: text).
    + destruct ((x =? c) || (c =? DOT)) eqn:Hf.
      * rewrite IH. apply fits_test in Hf. split.
        -- intros (ts & t' & -> & Hts & Ht). exists (x :: ts), t'. split; [done|]. split; [by constructor|done].
        -- intros (ts & t' & Heq & Hts & Ht). destruct ts as [|y ts]; [cbn in Heq; congruence|].
           injection Heq as -> ->. apply Forall_cons in Hts as [_ Hts]. by exists ts, t'.
      * split; [done|]. intros (ts & t' & Heq & Hts & Ht). destruct ts as [|y ts]; [cbn in Heq; congruence|].
        injection Heq as -> ->. apply Forall_cons in Hts as [Hy _]. apply fits_test in Hy. congruence.
Qed.

(** Matching one plain character. *)
Lemma one_spec (P : list Z -> bool) c l e text : (forall t, P t = true <-> starts (l, e) t) ->
  (match text with [] => false | x :: t => if (c =? DOT) || (c =? x) then P t else false end) = true <-> starts (One c :: l, e) text.
Proof.
  intros HP. rewrite starts_one. destruct text as [|x t]; [split; [done|intros (? & ? & ? & _); done]|].
  destruct ((c =? DOT) || (c =? x)) eqn:Hf.
  - rewrite HP. apply fits_test' in Hf. split; [intros; by exists x, t|intros (? & ? & [= -> ->] & _ & ?); done].
  - split; [done|]. intros (? & ? & [= -> ->] & Hx & _). apply fits_test' in Hx. congruence.
Qed.

Lemma matchhere_spec n : forall re text, (length re <= n)%nat -> matchhere re text = true <-> starts (parse re) text.
Proof.
  induction n as [|n IH]; intros re text Hn.
  { destruct re; [|cbn in Hn; lia]. cbn. rewrite starts_nil. done. }
  destruct re as [|c [|d re]]; [cbn; by rewrite starts_nil|..].
  - cbn [matchhere parse]. destruct (c =? DOLLAR) eqn:Hd.
    + rewrite bool_decide_eq_true_2 by done. cbn [andb]. rewrite bool_decide_eq_true, starts_nil. naive_solver.
    + cbn [andb]. apply (one_spec (matchhere [])). intros t. by rewrite starts_nil.
  - change (matchhere (c :: d :: re) text) with
      (if d =? STAR then matchstar (matchhere re) c text
       else if (c =? DOLLAR) && bool_decide (d :: re = []) then bool_decide (text = [])
       else match text with [] => false | x :: t => if (c =? DOT) || (c =? x) then matchhere (d :: re) t else false end).
    change (parse (c :: d :: re)) with
      (if d =? STAR then let '(l, e) := parse re in (Many c :: l, e) else let '(l, e) := parse (d :: re) in (One c :: l, e)).
    cbn [length] in Hn. destruct (d =? STAR).
    + pose proof (fun t => IH re t ltac:(lia)) as Hre. destruct (parse re) as [l e]. rewrite matchstar_spec, starts_many.
      split; intros (ts & t' & ? & ? & Ht); exists ts, t'; split_and!; try done; by apply Hre.
    + rewrite (bool_decide_eq_false_2 (d :: re = [])) by done. rewrite andb_false_r.
      pose proof (fun t => IH (d :: re) t ltac:(cbn; lia)) as Hre. destruct (parse (d :: re)) as [l e].
      by apply (one_spec (matchhere (d :: re))).
Qed.

Lemma match_from_spec re text : match_from re text = true <-> exists pre t, text = pre ++ t /\ matchhere re t = true.
Proof.
  induction text as [|x text IH]; cbn [match_from].
  - destruct (matchhere re []) eqn:H; split; try done.
    + intros _. by exists [], [].
    + intros (pre & t & Heq & Ht). symmetry in Heq. apply app_eq_nil in Heq as [-> ->]. congruence.
  - destruct (matchhere re (x :: text)) eqn:H; [split; [intros _; by exists [], (x :: text)|done]|]. rewrite IH. split.
    + intros (pre & t & -> & Ht). by exists (x :: pre), t.
    + intros (pre & t & Heq & Ht). destruct pre as [|y pre]; [cbn in Heq; congruence|]. injection Heq as -> ->. by exists pre, t.
Qed.

(** The pattern without its caret, and whether it had one. *)
Definition split_caret (re : list Z) : list Z * bool :=
  match re with c :: re' => if c =? CARET then (re', true) else (re, false) | [] => ([], false) end.

(** C37: [match] answers whether some part of the text, from its start if the
    pattern begins with a caret and to its end if it ends with a dollar, is in the
    language of the pattern, in which a dot stands for any character and a star for any
    number of the character before it. *)
Theorem match_finds_language (re text : list Z) :
  let '(body, caret) := split_caret re in
  let '(items, dollar) := parse body in
  match_ re text = true <->
  exists pre mid post, text = pre ++ mid ++ post /\ in_lang items mid /\
    (caret = true -> pre = []) /\ (dollar = true -> post = []).
Proof.
  assert (Hfrom : forall r, match_from r text = true <->
    exists pre mid post, text = pre ++ mid ++ post /\ in_lang (parse r).1 mid /\ (false = true -> pre = []) /\ ((parse r).2 = true -> post = [])).
  { intros r. rewrite match_from_spec. split.
    - intros (pre & t & -> & (mid & post & -> & Hl & He)%(matchhere_spec (length r))); [|done]. by exists pre, mid, post.
    - intros (pre & mid & post & -> & Hl & _ & He). exists pre, (mid ++ post). split; [done|].
      apply (matchhere_spec (length r)); [done|]. by exists mid, post. }
  destruct re as [|c re]; cbn [split_caret match_]; [exact (Hfrom [])|]. destruct (c =? CARET).
  - destruct (parse re) as [items dollar] eqn:Hp. rewrite (matchhere_spec (length re)) by done. rewrite Hp. split.
    + intros (mid & post & -> & Hl & He). by exists [], mid, post.
    + intros (pre & mid & post & -> & Hl & Hc & He). rewrite (Hc eq_refl). by exists mid, post.
  - specialize (Hfrom (c :: re)). by destruct (parse (c :: re)).
Qed.

(** ** Lines *)

(** The complete lines of a file and what follows the last newline. *)
Fixpoint split_lines (s : list Z) : list (list Z) * list Z :=
  match s with
  | [] => ([], [])
  | x :: s' =>
      let '(l, r) := split_lines s' in
      if x =? NL then ([] :: l, r)
      else match l with [] => ([], x :: r) | line :: l' => ((x :: line) :: l', r) end
  end.

(** The matching lines, each with its newline. *)
Definition print_lines (pattern : list Z) (l : list (list Z)) : list Z :=
  concat ((fun line => if match_ pattern line then line ++ [NL] else []) <$> l).

Definition nul_free (s : list Z) : Prop := Forall (fun x => x <> 0) s.

Lemma split_lines_cons x s : x <> NL ->
  split_lines (x :: s) = match (split_lines s).1 with [] => ([], x :: (split_lines s).2) | line :: l => ((x :: line) :: l, (split_lines s).2) end.
Proof. intros Hx. cbn [split_lines]. destruct (split_lines s) as [l r]. cbn [fst snd]. apply Z.eqb_neq in Hx. by rewrite Hx. Qed.

Lemma split_lines_nl s : split_lines (NL :: s) = ([] :: (split_lines s).1, (split_lines s).2).
Proof. cbn [split_lines]. by destruct (split_lines s). Qed.

Lemma split_lines_app s t :
  split_lines (s ++ t) = let '(l, r) := split_lines s in (l ++ (split_lines (r ++ t)).1, (split_lines (r ++ t)).2).
Proof.
  induction s as [|x s IH]; [cbn; by destruct (split_lines t)|]. change ((x :: s) ++ t) with (x :: (s ++ t)).
  destruct (decide (x = NL)) as [->|Hx].
  - rewrite !split_lines_nl, IH. by destruct (split_lines s).
  - rewrite !split_lines_cons, IH by done. destruct (split_lines s) as [[|line l] r]; cbn [fst snd app]; [|done].
    change ((x :: r) ++ t) with (x :: (r ++ t)). rewrite split_lines_cons by done. by destruct (split_lines (r ++ t)) as [[|? ?] ?].
Qed.

Lemma split_lines_rest s : (split_lines (split_lines s).2) = ([], (split_lines s).2) /\ (length (split_lines s).2 <= length s)%nat.
Proof.
  induction s as [|x s [IH1 IH2]]; [done|]. destruct (decide (x = NL)) as [->|Hx].
  - rewrite split_lines_nl. cbn [fst snd length]. split; [done|lia].
  - rewrite split_lines_cons by done. destruct (split_lines s) as [[|line l] r]; cbn [fst snd length] in *; [|split; [done|lia]].
    split; [|lia]. rewrite split_lines_cons by done. by rewrite IH1.
Qed.

(** A text without a complete line holds the start of every line that follows. *)
Lemma first_line_long s t line l : split_lines s = ([], s) -> (split_lines (s ++ t)).1 = line :: l -> (length s <= length line)%nat.
Proof.
  revert line l. induction s as [|x s IH]; intros line l Hs H; [cbn; lia|]. destruct (decide (x = NL)) as [->|Hx].
  { rewrite split_lines_nl in Hs. done. }
  rewrite split_lines_cons in Hs by done. change ((x :: s) ++ t) with (x :: (s ++ t)) in H. rewrite split_lines_cons in H by done.
  destruct (split_lines s) as [[|? ?] r] eqn:Hs'; [|done]. cbn [fst snd] in Hs. injection Hs as ->.
  destruct (split_lines (s ++ t)) as [[|line' l'] r']; cbn [fst] in *; [done|]. injection H as <- <-. cbn [length].
  specialize (IH line' l' eq_refl eq_refl). lia.
Qed.

Lemma take_line_spec s : nul_free s ->
  take_line s = match (split_lines s).1 with [] => None | line :: _ => Some (line, drop (S (length line)) s) end.
Proof.
  induction s as [|x s IH]; intros Hn; [done|]. apply Forall_cons in Hn as [Hx Hn]. cbn [take_line].
  apply Z.eqb_neq in Hx. rewrite Hx. destruct (decide (x = NL)) as [->|Hnl].
  - rewrite split_lines_nl. done.
  - rewrite split_lines_cons by done. rewrite (proj2 (Z.eqb_neq x NL)) by done. rewrite IH by done.
    by destruct (split_lines s) as [[|line l] r].
Qed.

Lemma drop_line s line l : (split_lines s).1 = line :: l ->
  split_lines (drop (S (length line)) s) = (l, (split_lines s).2) /\ (length (drop (S (length line)) s) < length s)%nat.
Proof.
  revert line l. induction s as [|x s IH]; intros line l H; [done|]. destruct (decide (x = NL)) as [->|Hnl].
  - rewrite split_lines_nl in *. cbn [fst snd] in *. injection H as <- <-. cbn [length]. change (drop 1 (NL :: s)) with (drop 0 s). rewrite drop_0. split; [by destruct (split_lines s)|lia].
  - rewrite split_lines_cons in * by done. destruct (split_lines s) as [[|line' l'] r] eqn:Hs; [done|]. cbn [fst snd] in *.
    injection H as <- <-. destruct (IH line' l' eq_refl) as [H1 H2]. cbn [length] in *. change (drop (S (S (length line'))) (x :: s)) with (drop (S (length line')) s).
    split; [done|lia].
Qed.

Lemma grep_lines_spec pattern : forall fuel s, nul_free s -> (length s < fuel)%nat ->
  grep_lines fuel pattern s = (print_lines pattern (split_lines s).1, (split_lines s).2).
Proof.
  induction fuel as [|fuel IH]; intros s Hn Hf; [lia|]. cbn [grep_lines]. rewrite take_line_spec by done.
  destruct (split_lines s) as [[|line l] r] eqn:Hs; cbn [fst snd].
  - f_equal. clear -Hs. revert r Hs. induction s as [|x s IH]; intros r Hs; [by injection Hs|]. destruct (decide (x = NL)) as [->|Hx].
    + by rewrite split_lines_nl in Hs.
    + rewrite split_lines_cons in Hs by done. destruct (split_lines s) as [[|? ?] r'] eqn:Hs'; [|done]. cbn in Hs. injection Hs as <-. f_equal. by apply IH.
  - destruct (drop_line s line l) as [H1 H2]; [by rewrite Hs|]. rewrite Hs in H1. cbn [snd] in H1.
    rewrite IH, H1; [done|by apply Forall_drop|lia].
Qed.

Definition short_lines (l : list (list Z)) : Prop := Forall (fun line => (length line + 2 <= BUFSIZE)%nat) l.

Lemma grep_loop_spec sizes pattern : forall fuel k buf input,
  nul_free (buf ++ input) -> split_lines buf = ([], buf) -> short_lines (split_lines (buf ++ input)).1 -> (length input < fuel)%nat ->
  grep_loop fuel sizes k pattern buf input = print_lines pattern (split_lines (buf ++ input)).1.
Proof.
  induction fuel as [|fuel IH]; intros k buf input Hn Hb Hs Hf; [lia|]. cbn [grep_loop].
  unfold read_file. set (n := Nat.min (BUFSIZE - length buf - 1) (S (sizes k))).
  destruct (take n input) as [|x got] eqn:Hg.
  - destruct input as [|y input]; [by rewrite app_nil_r, Hb|]. assert (Hn0 : n = 0%nat) by (destruct n; [done|by cbn in Hg]).
    destruct (split_lines (buf ++ y :: input)) as [[|line l] r] eqn:Hsp; [done|]. exfalso.
    assert (Hl : (length buf <= length line)%nat) by (eapply (first_line_long buf (y :: input)); [done|by rewrite Hsp]).
    apply Forall_cons in Hs as [Hs _]. unfold n, BUFSIZE in *. lia.
  - rewrite <- Hg. assert (Heq : buf ++ input = (buf ++ take n input) ++ drop n input) by (rewrite <- app_assoc, take_drop; done).
    assert (Hlen : (length (drop n input) < length input)%nat).
    { rewrite length_drop. destruct n; [by cbn in Hg|]. destruct input; [by cbn in Hg|cbn; lia]. }
    rewrite Heq in Hn, Hs |- *. apply Forall_app in Hn as [Hn1 Hn2].
    rewrite grep_lines_spec; [|done|rewrite length_app; lia].
    rewrite (split_lines_app (buf ++ take n input)) in Hs |- *. destruct (split_lines_rest (buf ++ take n input)) as [Hr _].
    destruct (split_lines (buf ++ take n input)) as [l1 r1] eqn:Hsp. cbn [fst snd] in *.
    apply Forall_app in Hs as [_ Hs]. rewrite IH; [|apply Forall_app; split; [|done]|done|done|lia].
    + unfold print_lines. by rewrite fmap_app, concat_app.
    + assert (Hsub : forall s, nul_free s -> nul_free (split_lines s).2).
      { clear. induction s as [|x s IH]; intros Hn; [done|]. apply Forall_cons in Hn as [Hx Hn]. destruct (decide (x = NL)) as [->|Hnl].
        - rewrite split_lines_nl. by apply IH.
        - rewrite split_lines_cons by done. specialize (IH Hn). destruct (split_lines s) as [[|? ?] r]; cbn [fst snd] in *; [by constructor|done]. }
      specialize (Hsub _ Hn1). by rewrite Hsp in Hsub.
Qed.

(** [grep] prints exactly the complete lines of its input that match, in order and each with its newline,
    whatever number of bytes each [read] returns, for inputs without NUL bytes whose complete lines
    have at most 1022 characters.  (A last line without a newline is not printed.) *)
Theorem grep_prints_matching_lines (sizes : nat -> nat) (pattern input : list Z) :
  nul_free input -> short_lines (split_lines input).1 ->
  grep sizes pattern input = print_lines pattern (split_lines input).1.
Proof. intros Hn Hs. unfold grep. by rewrite grep_loop_spec by (done || lia). Qed.

Lemma grep_prints_matching_lines_witness :
  let input := [97; 98; NL; 98; NL; 97; 99; NL; 97] in
  grep (fun _ => 1%nat) [94; 97; 46] input = [97; 98; NL; 97; 99; NL].
Proof.
  intros input. rewrite (grep_prints_matching_lines (fun _ => 1%nat) [94; 97; 46] input).
  - vm_compute. reflexivity.
  - repeat constructor; discriminate.
  - repeat constructor; vm_compute; lia.
Defined.
