(* ===== verification/Umalloc.v ===== *)
(** * The user-space allocator: [user/umalloc.c]

    A header sits at the start of every block; [hptr] and [hsize] give the two
    fields of the header at an address, the size in units of 16 bytes.  [base]
    is the address of the static header, below the heap.  [sbrk] grants a
    request while the break stays within [limit] and answers -1 otherwise.
    The searches around the circular list are bounded by twice the number of headers that
    fit below the break.

    [UmallocInv.v] proves the theorems. *)

From S2P Require Import Prelude.

Definition HDR : Z := 16.   (* sizeof(Header) *)

(** [base], [freep] and the headers in memory; [brk] is the process size. *)
Record heap := mkheap {
  hptr : Z -> Z;
  hsize : Z -> Z;
  freep : Z;
  brk : Z
}.

Section Umalloc.
Context (base limit : Z).

Definition set_ptr (a v : Z) (h : heap) : heap := mkheap (fun x => if x =? a then v else hptr h x) (hsize h) (freep h) (brk h).
Definition set_size (a v : Z) (h : heap) : heap := mkheap (hptr h) (fun x => if x =? a then v else hsize h x) (freep h) (brk h).
Definition set_freep (v : Z) (h : heap) : heap := mkheap (hptr h) (hsize h) v (brk h).
Definition set_brk (v : Z) (h : heap) : heap := mkheap (hptr h) (hsize h) (freep h) v.

(** More than the number of headers that fit between [base] and the break. *)
Definition headers (h : heap) : nat := 2 + Z.to_nat ((brk h - base) / HDR).

(** The loop of [free]: the free block to insert [bp] after. *)
Fixpoint free_find (fuel : nat) (h : heap) (bp p : Z) : option Z :=
  match fuel with
  | O => None
  | S fuel' =>
      if (bp >? p) && (bp <? hptr h p) then Some p
      else if (p >=? hptr h p) && ((bp >? p) || (bp <? hptr h p)) then Some p
      else free_find fuel' h bp (hptr h p)
  end.

Definition free (ap : Z) (h : heap) : option heap :=
  let bp := ap - HDR in
  match free_find (headers h) h bp (freep h) with
  | None => None
  | Some p =>
      let h :=
        if bp + HDR * hsize h bp =? hptr h p
        then set_ptr bp (hptr h (hptr h p)) (set_size bp (u32 (hsize h bp + hsize h (hptr h p))) h)
        else set_ptr bp (hptr h p) h in
      let h :=
        if p + HDR * hsize h p =? bp
        then set_ptr p (hptr h bp) (set_size p (u32 (hsize h p + hsize h bp)) h)
        else set_ptr p bp h in
      Some (set_freep p h)
  end.

(** [sbrk(n)]: the old break, or -1.  A negative [n] shrinks the process, unless that
    would take its size below 0. *)
Definition sbrk (n : Z) (h : heap) : Z * heap :=
  if brk h + n >? limit then (-1, h)
  else (brk h, set_brk (if brk h + n <? 0 then brk h else brk h + n) h).

(** [morecore]: [freep], or 0. *)
Definition morecore (nu : Z) (h : heap) : option (Z * heap) :=
  let nu := if nu <? 4096 then 4096 else nu in
  let '(p, h) := sbrk (s32 (nu * HDR)) h in
  if p =? -1 then Some (0, h)
  else
    match free (p + HDR) (set_size p nu h) with
    | None => None
    | Some h => Some (freep h, h)
    end.

(** Taking [nunits] from the block [p] after [prevp]: the pointer returned. *)
Definition take_block (nunits prevp p : Z) (h : heap) : Z * heap :=
  if hsize h p =? nunits then (p + HDR, set_freep prevp (set_ptr prevp (hptr h p) h))
  else
    let h := set_size p (u32 (hsize h p - nunits)) h in
    let p := p + HDR * hsize h p in
    (p + HDR, set_freep prevp (set_size p nunits h)).

(** The loop of [malloc]: the pointer, 0 for null. *)
Fixpoint malloc_loop (fuel : nat) (nunits prevp p : Z) (h : heap) : option (Z * heap) :=
  match fuel with
  | O => None
  | S fuel' =>
      if hsize h p >=? nunits then Some (take_block nunits prevp p h)
      else if p =? freep h then
        match morecore nunits h with
        | None => None
        | Some (p, h) => if p =? 0 then Some (0, h) else malloc_loop fuel' nunits p (hptr h p) h
        end
      else malloc_loop fuel' nunits p (hptr h p) h
  end.

Definition units (nbytes : Z) : Z := u32 ((nbytes + HDR - 1) / HDR + 1).

(** The loop bound covers a round before and a round after [morecore]. *)
Definition malloc_fuel (nunits : Z) (h : heap) : nat :=
  2 * headers (set_brk (brk h + HDR * (nunits + 4096)) h) + 2.

Definition malloc (nbytes : Z) (h : heap) : option (Z * heap) :=
  let nunits := units nbytes in
  let h := if freep h =? 0 then set_size base 0 (set_freep base (set_ptr base base h)) else h in
  malloc_loop (malloc_fuel nunits h) nunits (freep h) (hptr h (freep h)) h.
End Umalloc.
