(* ===== verification/UmallocInv.v ===== *)
(** * Correctness of the user-space allocator

    [F] are the free blocks in address order, [al] the blocks handed out; a
    block is its header's address and its size in units.  [cov x l] counts the blocks
    of [l] that contain address [x].  The invariant [heap_inv] says that the
    circular list from [base] visits exactly [F], that headers hold the
    sizes, and that no address is in two blocks or outside the heap.

    Theorems: over every sequence of [malloc], [free] of live blocks and client
    writes into live blocks, the live and the free blocks never overlap and
    lie in the heap; [malloc] gives a block large enough or fails because
    [sbrk] does. *)

From S2P Require Import Prelude Umalloc.
From Stdlib Require Import Sorted.

Abbreviation block := (Z * Z)%type.

Definition inside (x : Z) (b : block) : Z := if (b.1 <=? x) && (x <? b.1 + HDR * b.2) then 1 else 0.
Fixpoint cov (x : Z) (l : list block) : Z := match l with [] => 0 | b :: l' => inside x b + cov x l' end.

Lemma inside_01 x b : 0 <= inside x b <= 1.
Proof. unfold inside. destruct (_ && _); lia. Qed.
Lemma inside_iff x a s : inside x (a, s) = 1 <-> a <= x < a + HDR * s.
Proof. unfold inside. cbn. destruct (Z.leb_spec a x), (Z.ltb_spec x (a + HDR * s)); cbn; lia. Qed.
Lemma inside_join x a s t : 0 <= s -> 0 <= t -> inside x (a, s) + inside x (a + HDR * s, t) = inside x (a, s + t).
Proof.
  intros. unfold inside, HDR. cbn [fst snd]. repeat match goal with |- context [?p <=? ?q] => destruct (Z.leb_spec p q) | |- context [?p <? ?q] => destruct (Z.ltb_spec p q) end; cbn [andb]; lia.
Qed.
Lemma cov_app x l k : cov x (l ++ k) = cov x l + cov x k.
Proof. induction l as [|b l IH]; cbn [app cov]; lia. Qed.
Lemma cov_nonneg x l : 0 <= cov x l.
Proof. induction l as [|b l IH]; cbn [cov]; [lia|]. pose proof (inside_01 x b). lia. Qed.
Lemma cov_perm x l k : l ≡ₚ k -> cov x l = cov x k.
Proof. induction 1; cbn [cov]; lia. Qed.
Lemma cov_in x l b : b ∈ l -> inside x b <= cov x l.
Proof.
  intros [l1 [l2 ->]]%list_elem_of_split. rewrite cov_app. cbn [cov]. pose proof (cov_nonneg x l1). pose proof (cov_nonneg x l2). lia.
Qed.

(** Walking the list from [a]. *)
Fixpoint path (h : heap) (a : Z) (C : list Z) : Prop :=
  match C with [] => True | c :: C' => hptr h a = c /\ path h c C' end.

Lemma path_app h a C D : path h a (C ++ D) <-> path h a C /\ path h (List.last C a) D.
Proof.
  revert a. induction C as [|c C IH]; intros a; cbn [app path]; [tauto|]. rewrite IH.
  replace (List.last (c :: C) a) with (List.last C c); [tauto|]. clear. revert c. induction C as [|d C IH]; intros c; [done|].
  cbn in *. destruct C; [done|]. apply IH.
Qed.

Lemma path_frame h h' a C : (forall x, x ∈ removelast (a :: C) -> hptr h' x = hptr h x) -> path h a C -> path h' a C.
Proof.
  revert a. induction C as [|c C IH]; intros a Hx; cbn [path]; [done|]. intros [H1 H2]. split; [rewrite Hx; [done|by left]|].
  apply IH; [|done]. intros x Hin. apply Hx. right. done.
Qed.

(** From any element of a circular list one can walk once around it. *)
Lemma cycle h b T q : path h b (T ++ [b]) -> q ∈ b :: T -> exists C, path h q (C ++ [q]) /\ C ++ [q] ≡ₚ b :: T.
Proof.
  intros Hp [->|Hq]%elem_of_cons; [exists T; split; [done|by rewrite Permutation_app_comm]|].
  apply list_elem_of_split in Hq as (T1 & T2 & ->). exists (T2 ++ b :: T1).
  rewrite <- app_assoc in Hp. cbn in Hp. replace (T1 ++ q :: T2 ++ [b]) with ((T1 ++ [q]) ++ T2 ++ [b]) in Hp by (by rewrite <- app_assoc).
  apply path_app in Hp as [H1 H2]. rewrite last_last in H2. split.
  - rewrite <- app_assoc. cbn. replace (T2 ++ b :: T1 ++ [q]) with ((T2 ++ [b]) ++ T1 ++ [q]) by (by rewrite <- app_assoc).
    apply path_app. split; [done|]. by rewrite last_last.
  - rewrite <- app_assoc. cbn. rewrite Permutation_app_comm. cbn. constructor. rewrite <- app_assoc. cbn. done.
Qed.

Section Inv.
Context (base start limit : Z).

(** ** The search of [free] *)

Lemma next_of h T L1 q L2 : path h base (T ++ [base]) -> base :: T = L1 ++ q :: L2 -> hptr h q = hd base L2.
Proof.
  intros Hp Heq. destruct L1 as [|b L1]; injection Heq as Hb ->; [subst q|clear Hb].
  - destruct L2; apply Hp.
  - replace ((L1 ++ q :: L2) ++ [base]) with ((L1 ++ [q]) ++ L2 ++ [base]) in Hp by (by rewrite <- !app_assoc).
    apply path_app in Hp as [_ Hp]. rewrite last_last in Hp. destruct L2; apply Hp.
Qed.

Lemma sorted_after L1 (q : Z) L2 : StronglySorted Z.lt (L1 ++ q :: L2) -> Forall (fun x => q < x) L2.
Proof.
  induction L1 as [|b L1 IH]; cbn; intros Hs; apply StronglySorted_inv in Hs as [Hs Hf]; [done|by apply IH].
Qed.

Definition stops (h : heap) (bp q : Z) : bool :=
  ((bp >? q) && (bp <? hptr h q)) || ((q >=? hptr h q) && ((bp >? q) || (bp <? hptr h q))).

Lemma last_snoc (T1 : list Z) : exists A, base :: T1 = A ++ [List.last T1 base].
Proof.
  destruct (exists_last (l := base :: T1)) as (A & p & Heq); [done|]. exists A. rewrite Heq. do 2 f_equal.
  transitivity (List.last (base :: T1) base); [by rewrite Heq, last_last|]. by destruct T1.
Qed.

Section Find.
Context (h : heap) (bp : Z) (T1 T2 : list Z).
Context (Hp : path h base ((T1 ++ T2) ++ [base])) (Hs : StronglySorted Z.lt (base :: T1 ++ T2)).
Context (Hb : base < bp) (H1 : Forall (fun x => x < bp) T1) (H2 : Forall (fun x => bp < x) T2).
Let p : Z := List.last T1 base.

Lemma last_below : p < bp.
Proof.
  destruct (last_snoc T1) as [A HA]. fold p in HA. assert (Hin : p ∈ base :: T1) by (rewrite HA; set_solver).
  apply elem_of_cons in Hin as [->|Hin]; [done|]. rewrite Forall_forall in H1. by apply H1.
Qed.

Lemma stops_at_p : stops h bp p = true.
Proof.
  destruct (last_snoc T1) as [A HA]. fold p in HA. pose proof last_below as Hlt.
  assert (Hbp : base <= p).
  { assert (Hin : p ∈ base :: T1) by (rewrite HA; set_solver). apply elem_of_cons in Hin as [->|Hin]; [lia|].
    apply StronglySorted_inv in Hs as [_ Hf]. rewrite Forall_forall in Hf. specialize (Hf p ltac:(set_solver)). lia. }
  assert (Hn : hptr h p = hd base T2).
  { apply (next_of h (T1 ++ T2) A p T2 Hp). change (base :: T1 ++ T2) with ((base :: T1) ++ T2). rewrite HA, <- app_assoc. done. }
  unfold stops. rewrite Hn. destruct T2 as [|n T2']; cbn [hd].
  - destruct (Z.geb_spec p base), (Z.gtb_spec bp p), (Z.ltb_spec bp base); cbn; done || lia.
  - apply Forall_cons in H2 as [Hn2 _]. destruct (Z.gtb_spec bp p), (Z.ltb_spec bp n); cbn; done || lia.
Qed.

Lemma stops_only_p q : q ∈ base :: T1 ++ T2 -> q <> p -> stops h bp q = false.
Proof.
  intros Hq Hne. change (base :: T1 ++ T2) with ((base :: T1) ++ T2) in Hq. destruct (last_snoc T1) as [A HA]. fold p in HA.
  rewrite HA, <- app_assoc in Hq. cbn in Hq. unfold stops.
  apply elem_of_app in Hq as [Hq|[?|Hq]%elem_of_cons]; [|done|].
  - apply list_elem_of_split in Hq as (A1 & A2 & ->).
    assert (Heq : (base :: T1) ++ T2 = A1 ++ q :: (A2 ++ p :: T2)) by (rewrite HA, <- !app_assoc; done).
    rewrite (next_of h (T1 ++ T2) A1 q (A2 ++ p :: T2) Hp Heq). pose proof last_below.
    pose proof Hs as Haf. change (base :: T1 ++ T2) with ((base :: T1) ++ T2) in Haf. rewrite Heq in Haf. apply sorted_after in Haf.
    assert (Hn : exists n, hd base (A2 ++ p :: T2) = n /\ q < n < bp).
    { destruct A2 as [|n A2]; cbn [hd app] in *; apply Forall_cons in Haf as [? _]; [by exists p|]. exists n. split; [done|]. split; [done|].
      assert (Hin : n ∈ base :: T1) by (rewrite HA; set_solver). apply elem_of_cons in Hin as [->|Hin]; [done|]. rewrite Forall_forall in H1. by apply H1. }
    destruct Hn as (n & -> & Hn). destruct (Z.gtb_spec bp q), (Z.ltb_spec bp n), (Z.geb_spec q n); cbn; done || lia.
  - apply list_elem_of_split in Hq as (B1 & B2 & ->).
    assert (Heq : base :: T1 ++ B1 ++ q :: B2 = (base :: T1 ++ B1) ++ q :: B2) by (cbn; by rewrite <- app_assoc).
    rewrite (next_of h _ _ q B2 Hp Heq). pose proof Hs as Haf. change ((base :: T1) ++ B1 ++ q :: B2) with (base :: T1 ++ B1 ++ q :: B2) in Haf.
    rewrite Heq in Haf. apply sorted_after in Haf.
    rewrite Forall_app, Forall_cons in H2. destruct H2 as (_ & Hqb & _). destruct B2 as [|n B2]; cbn [hd].
    + destruct (Z.gtb_spec bp q), (Z.ltb_spec bp base), (Z.geb_spec q base); cbn; done || lia.
    + apply Forall_cons in Haf as [? _]. destruct (Z.gtb_spec bp q), (Z.ltb_spec bp n), (Z.geb_spec q n); cbn; done || lia.
Qed.

Lemma free_find_stop fuel q : stops h bp q = true -> free_find (S fuel) h bp q = Some q.
Proof. unfold stops. cbn [free_find]. destruct (_ && _); [done|]. cbn [orb]. intros ->. done. Qed.
Lemma free_find_go fuel q : stops h bp q = false -> free_find (S fuel) h bp q = free_find fuel h bp (hptr h q).
Proof. unfold stops. cbn [free_find]. destruct (_ && _); [done|]. cbn [orb]. intros ->. done. Qed.

(** Walking along [C] up to [p]. *)
Lemma free_find_walk : forall C q fuel, path h q C -> (forall x, x ∈ q :: C -> x ∈ base :: T1 ++ T2) -> p ∈ q :: C -> (length C < fuel)%nat ->
  free_find fuel h bp q = Some p.
Proof.
  induction C as [|c C IH]; intros q fuel Hc Hin Hpin Hf; (destruct fuel as [|fuel]; [cbn in Hf; lia|]).
  - apply list_elem_of_singleton in Hpin as <-. apply free_find_stop, stops_at_p.
  - destruct (decide (q = p)) as [->|Hne]; [apply free_find_stop, stops_at_p|].
    rewrite free_find_go by (apply stops_only_p; [apply Hin; by left|done]). destruct Hc as [-> Hc].
    apply IH; [done| | |cbn in Hf; lia].
    + intros x Hx. apply Hin. by right.
    + apply elem_of_cons in Hpin as [?|?]; [congruence|done].
Qed.

Lemma free_find_spec q fuel : q ∈ base :: T1 ++ T2 -> (length (base :: T1 ++ T2) < fuel)%nat -> free_find fuel h bp q = Some p.
Proof.
  intros Hq Hf. destruct (cycle h base (T1 ++ T2) q Hp Hq) as (C & HC & Hperm).
  apply (free_find_walk (C ++ [q]) q); [done| | |].
  - intros x [->|Hx]%elem_of_cons; [done|]. by rewrite <- Hperm.
  - right. rewrite Hperm. destruct (last_snoc T1) as [A HA]. fold p in HA. change (base :: T1 ++ T2) with ((base :: T1) ++ T2). rewrite HA. set_solver.
  - rewrite (Permutation_length Hperm). lia.
Qed.
End Find.

(** ** The invariant *)

Record heap_inv (h : heap) (F al : list block) : Prop := {
  hi_base : hsize h base = 0;
  hi_path : path h base (F.*1 ++ [base]);
  hi_size : Forall (fun b => hsize h b.1 = b.2 /\ 0 < b.2) (F ++ al);
  hi_sorted : StronglySorted Z.lt (base :: F.*1);
  hi_freep : freep h ∈ base :: F.*1;
  hi_once x : cov x (F ++ al) <= 1;
  hi_range x : 0 < cov x (F ++ al) -> start <= x < brk h;
  hi_start : 0 < base < start;
  hi_brk : start <= brk h <= limit;
  hi_limit : limit <= 2 ^ 36
}.

Lemma ss_app (l k : list Z) : StronglySorted Z.lt (l ++ k) <->
  StronglySorted Z.lt l /\ StronglySorted Z.lt k /\ forall x y, x ∈ l -> y ∈ k -> x < y.
Proof.
  induction l as [|a l IH]; cbn [app].
  - split; [intros H; split_and!; [constructor|done|]; intros x y Hx; by apply not_elem_of_nil in Hx|by intros (_ & ? & _)].
  - split.
    + intros [H1 H2]%StronglySorted_inv. apply IH in H1 as (H1 & H3 & H4). rewrite Forall_app in H2. destruct H2 as [H2 H5].
      split_and!; [by constructor|done|]. intros x y [->|Hx]%elem_of_cons Hy; [rewrite Forall_forall in H5; by apply H5|by apply H4].
    + intros ([H1 H2]%StronglySorted_inv & H3 & H4). constructor.
      * apply IH. split_and!; [done|done|]. intros x y Hx Hy. apply H4; [by right|done].
      * apply Forall_app. split; [done|]. apply Forall_forall. intros y Hy. apply H4; [by left|done].
Qed.

(** Two blocks never start at the same address. *)
Lemma other_addr b l : (forall x, cov x (b :: l) <= 1) -> 0 < b.2 -> Forall (fun c => 0 < c.2) l -> forall c, c ∈ l -> c.1 <> b.1.
Proof.
  intros Hc Hb Hl c Hin Heq. specialize (Hc b.1). cbn [cov] in Hc. pose proof (cov_in b.1 l c Hin) as Hci.
  rewrite Forall_forall in Hl. specialize (Hl c Hin). destruct b as [a s], c as [a' s']. cbn [fst snd] in *. subst a'.
  assert (H1 : inside a (a, s) = 1) by (apply inside_iff; unfold HDR; lia).
  assert (H2 : inside a (a, s') = 1) by (apply inside_iff; unfold HDR; lia). lia.
Qed.

Lemma split_at (F : list block) bp : StronglySorted Z.lt F.*1 -> bp ∉ F.*1 ->
  exists F1 F2, F = F1 ++ F2 /\ Forall (fun x => x < bp) F1.*1 /\ Forall (fun x => bp < x) F2.*1.
Proof.
  induction F as [|[a s] F IH]; intros Hs Hn; [by exists [], []|]. rewrite fmap_cons in *. cbn [fst] in *.
  apply StronglySorted_inv in Hs as [Hs Hf]. apply not_elem_of_cons in Hn as [Hne Hn].
  destruct (decide (a < bp)) as [Hlt|Hge].
  - destruct (IH Hs Hn) as (F1 & F2 & -> & H1 & H2). exists ((a, s) :: F1), F2. split; [done|]. rewrite fmap_cons. by split; [constructor|].
  - exists [], ((a, s) :: F). split; [done|]. split; [constructor|]. rewrite fmap_cons. constructor; [cbn; lia|].
    eapply Forall_impl; [exact Hf|]. cbn. lia.
Qed.

(** The free blocks fit in the heap. *)
Lemma count_fits (F : list block) (top : Z) : forall lo, StronglySorted Z.lt F.*1 -> Forall (fun b => lo <= b.1 /\ 0 < b.2) F ->
  (forall x, cov x F <= 1) -> (forall x, 0 < cov x F -> x < top) -> lo <= top -> lo + HDR * Z.of_nat (length F) <= top.
Proof.
  induction F as [|[a s] F IH]; intros lo Hs Hl Hc Hr Ht; [cbn; lia|].
  rewrite fmap_cons in Hs. apply StronglySorted_inv in Hs as [Hs Hf]. cbn [fst] in Hf.
  apply Forall_cons in Hl as [[Hlo Hpos] Hl]. cbn [fst snd] in *. unfold HDR in *.
  assert (Htop : a + 16 * s <= top).
  { specialize (Hr (a + 16 * s - 1)). cbn [cov] in Hr. assert (H1 : inside (a + 16 * s - 1) (a, s) = 1) by (apply inside_iff; unfold HDR; lia).
    pose proof (cov_nonneg (a + 16 * s - 1) F). lia. }
  cbn [length]. cut (a + 16 + 16 * Z.of_nat (length F) <= top); [lia|]. apply IH; [done| | | |lia].
  - apply Forall_forall. intros [a' s'] Hin. rewrite Forall_forall in Hl. destruct (Hl _ Hin) as [_ Hp]. cbn [fst snd] in *. split; [|done].
    rewrite Forall_forall in Hf. specialize (Hf a'). rewrite list_elem_of_fmap in Hf. specialize (Hf ltac:(by exists (a', s'))).
    specialize (Hc a'). cbn [cov] in Hc. pose proof (cov_in a' F (a', s') Hin).
    assert (H1 : inside a' (a', s') = 1) by (apply inside_iff; unfold HDR; lia).
    pose proof (inside_01 a' (a, s)). destruct (decide (a' < a + 16 * s)); [|lia].
    assert (H3 : inside a' (a, s) = 1) by (apply inside_iff; unfold HDR; lia). lia.
  - intros x. specialize (Hc x). cbn [cov] in Hc. pose proof (inside_01 x (a, s)). lia.
  - intros x Hx. apply Hr. cbn [cov]. pose proof (inside_01 x (a, s)). lia.
Qed.

Lemma headers_bound h F al : heap_inv h F al -> (length (base :: F.*1) < headers base h)%nat.
Proof.
  intros [_ _ Hsz Hs _ Hc Hr Hst Hb _]. apply StronglySorted_inv in Hs as [Hs Hf]. rewrite Forall_app in Hsz. destruct Hsz as [Hsz _].
  assert (Hfit : start + HDR * Z.of_nat (length F) <= brk h).
  { apply count_fits; [done| | | |lia].
    - apply Forall_forall. intros b Hin. rewrite Forall_forall in Hsz. destruct (Hsz b Hin) as [_ Hp]. split; [|done].
      apply (Hr b.1). rewrite cov_app. pose proof (cov_in b.1 F b Hin). pose proof (cov_nonneg b.1 al).
      assert (inside b.1 b = 1) by (destruct b as [a s]; apply inside_iff; unfold HDR; cbn in *; lia). lia.
    - intros x. specialize (Hc x). rewrite cov_app in Hc. pose proof (cov_nonneg x al). lia.
    - intros x Hx. apply Hr. rewrite cov_app. pose proof (cov_nonneg x al). lia. }
  unfold headers. cbn [length]. rewrite length_fmap. unfold HDR in *.
  assert (Z.of_nat (length F) <= (brk h - base) / 16) by (apply Z.div_le_lower_bound; lia). lia.
Qed.

Lemma inv_after_base h F al b : heap_inv h F al -> b ∈ F ++ al -> base < b.1.
Proof.
  intros Hi Hin. pose proof (hi_size _ _ _ Hi) as Hs. rewrite Forall_forall in Hs. destruct (Hs b Hin) as [_ Hp].
  pose proof (cov_in b.1 _ _ Hin). assert (inside b.1 b = 1) by (destruct b; apply inside_iff; unfold HDR; cbn in *; lia).
  pose proof (hi_range _ _ _ Hi b.1 ltac:(lia)). pose proof (hi_start _ _ _ Hi). lia.
Qed.

(** Blocks end below the break. *)
Lemma inv_end h F al b : heap_inv h F al -> b ∈ F ++ al -> b.1 + HDR * b.2 <= brk h.
Proof.
  intros Hi Hin. pose proof (hi_size _ _ _ Hi) as Hs. rewrite Forall_forall in Hs. destruct (Hs b Hin) as [_ Hp].
  destruct b as [a s]. cbn [fst snd] in *. pose proof (cov_in (a + HDR * s - 1) _ _ Hin).
  assert (inside (a + HDR * s - 1) (a, s) = 1) by (apply inside_iff; unfold HDR; lia).
  pose proof (hi_range _ _ _ Hi (a + HDR * s - 1) ltac:(lia)). lia.
Qed.

(** ** [free] *)

(** The list from the last block before [bp] on. *)
Lemma path_tail h h' (R : list Z) c : (exists q, path h q (R ++ [base])) -> hptr h' c = hd base R ->
  (forall x, x ∈ R -> hptr h' x = hptr h x) -> path h' c (R ++ [base]).
Proof.
  intros [q Hq] Hc Hx. destruct R as [|r R]; [done|]. split; [done|]. destruct Hq as [_ Hq].
  eapply path_frame; [|exact Hq]. intros x Hin. apply Hx. change (r :: R ++ [base]) with ((r :: R) ++ [base]) in Hin. by rewrite removelast_last in Hin.
Qed.

(** The first half of [free]: joining [bp] with the block after it. *)
Definition join_next (bp p : Z) (h : heap) : heap :=
  if bp + HDR * hsize h bp =? hptr h p
  then set_ptr bp (hptr h (hptr h p)) (set_size bp (u32 (hsize h bp + hsize h (hptr h p))) h)
  else set_ptr bp (hptr h p) h.

Lemma join_next_spec h F1 F2 bp s al : heap_inv h (F1 ++ F2) ((bp, s) :: al) ->
  Forall (fun x => x < bp) F1.*1 -> Forall (fun x => bp < x) F2.*1 -> base < bp ->
  let p := List.last F1.*1 base in let h1 := join_next bp p h in
  exists D R s1, F2 = D ++ R /\ s <= s1 /\ hptr h1 bp = hd base R.*1 /\ hsize h1 bp = s1 /\
    (forall x, x <> bp -> hptr h1 x = hptr h x /\ hsize h1 x = hsize h x) /\ brk h1 = brk h /\
    (forall x, cov x F2 + inside x (bp, s) = cov x R + inside x (bp, s1)).
Proof.
  intros Hi H1 H2 Hb p h1. pose proof (hi_path _ _ _ Hi) as Hp. rewrite fmap_app in Hp.
  destruct (last_snoc F1.*1) as [A HA]. fold p in HA.
  assert (Hn : hptr h p = hd base F2.*1).
  { apply (next_of h _ A p F2.*1 Hp). change (base :: F1.*1 ++ F2.*1) with ((base :: F1.*1) ++ F2.*1). rewrite HA, <- app_assoc. done. }
  pose proof (hi_size _ _ _ Hi) as Hsz. rewrite !Forall_app, Forall_cons in Hsz. destruct Hsz as ((_ & Hsz2) & (Hs & Hs0) & _). cbn [fst snd] in Hs, Hs0.
  unfold h1, join_next. rewrite Hn, Hs. destruct F2 as [|[n sn] F2]; cbn [fmap list_fmap hd fst] in *.
  - destruct (Z.eqb_spec (bp + HDR * s) base); [unfold HDR in *; lia|]. exists [], [], s. cbn [set_ptr hptr hsize brk]. rewrite Z.eqb_refl.
    split_and!; try done. intros x Hx. apply Z.eqb_neq in Hx. by rewrite Hx.
  - apply Forall_cons in Hsz2 as [[Hsn Hsn0] _]. apply Forall_cons in H2 as [Hnb _]. cbn [fst snd] in *.
    assert (Hnn : hptr h n = hd base F2.*1).
    { apply (next_of h _ (base :: F1.*1) n F2.*1 Hp). done. }
    destruct (Z.eqb_spec (bp + HDR * s) n) as [He|He].
    + assert (Hend : n + HDR * sn <= brk h).
      { apply (inv_end _ _ _ (n, sn) Hi). rewrite !elem_of_app. left. right. by left. }
      pose proof (hi_brk _ _ _ Hi). pose proof (hi_limit _ _ _ Hi). pose proof (hi_start _ _ _ Hi).
      exists [(n, sn)], F2, (s + sn). cbn [set_ptr set_size hptr hsize brk]. rewrite Z.eqb_refl, Hsn, u32_small by (unfold HDR in *; lia). split_and!; try done; try lia.
      * intros x Hx. apply Z.eqb_neq in Hx. by rewrite Hx.
      * intros x. cbn [cov]. rewrite <- inside_join, He by lia. lia.
    + exists [], ((n, sn) :: F2), s. cbn [set_ptr hptr hsize brk]. rewrite Z.eqb_refl. split_and!; try done.
      intros x Hx. apply Z.eqb_neq in Hx. by rewrite Hx.
Qed.

(** The second half of [free]: joining the block before with [bp], or linking it. *)
Definition join_prev (bp p : Z) (h : heap) : heap :=
  if p + HDR * hsize h p =? bp
  then set_ptr p (hptr h bp) (set_size p (u32 (hsize h p + hsize h bp)) h)
  else set_ptr p bp h.

Lemma join_prev_spec h h1 F1 F2 bp s s1 al : heap_inv h (F1 ++ F2) ((bp, s) :: al) -> base < bp -> 0 < s1 -> bp + HDR * s1 <= brk h ->
  Forall (fun x => x < bp) F1.*1 ->
  hsize h1 bp = s1 -> (forall x, x <> bp -> hptr h1 x = hptr h x /\ hsize h1 x = hsize h x) ->
  let p := List.last F1.*1 base in let h2 := join_prev bp p h1 in
  p < bp /\ brk h2 = brk h1 /\ (forall x, x <> p -> hptr h2 x = hptr h1 x /\ hsize h2 x = hsize h1 x) /\
  exists Q a s2, s1 <= s2 /\ hsize h2 a = s2 /\ p ∈ base :: (Q ++ [(a, s2)]).*1 /\
    (forall x, cov x F1 + inside x (bp, s1) = cov x Q + inside x (a, s2)) /\
    ((Q = F1 /\ a = bp /\ hptr h2 p = bp /\ hsize h2 p = hsize h1 p) \/
     (exists sp, F1 = Q ++ [(p, sp)] /\ a = p /\ hptr h2 p = hptr h1 bp)).
Proof.
  intros Hi Hb Hs1 Hend H1 Hbp Hx p h2. assert (Hlt : p < bp).
  { unfold p. destruct (last_snoc F1.*1) as [A HA]. fold p in HA |- *. assert (Hin : p ∈ base :: F1.*1) by (rewrite HA; set_solver).
    apply elem_of_cons in Hin as [->|Hin]; [done|]. rewrite Forall_forall in H1. by apply H1. }
  assert (Hpsize : hsize h1 p = hsize h p) by (apply Hx; lia).
  split; [done|]. unfold h2, join_prev. destruct (Z.eqb_spec (p + HDR * hsize h1 p) bp) as [He|He].
  - split; [done|]. split.
    { intros x Hne. cbn [set_ptr set_size hptr hsize]. apply Z.eqb_neq in Hne. by rewrite Hne. }
    destruct F1 as [|b F1 _] using rev_ind.
    { cbn in p. subst p. rewrite Hpsize, (hi_base _ _ _ Hi) in He. lia. }
    assert (Hpb : p = b.1) by (unfold p; rewrite fmap_app; change ([b].*1) with [b.1]; by rewrite last_last). destruct b as [a sp]. cbn [fst] in Hpb. clearbody p. subst a.
    pose proof (hi_size _ _ _ Hi) as Hsz. rewrite !Forall_app, Forall_singleton in Hsz. destruct Hsz as (((_ & Hsp & Hsp0) & _) & _). cbn [fst snd] in Hsp, Hsp0.
    assert (Hfit : 0 <= sp + s1 < 2 ^ 32).
    { pose proof (hi_brk _ _ _ Hi). pose proof (hi_limit _ _ _ Hi). pose proof (hi_start _ _ _ Hi).
      assert (base < p) by (apply (inv_after_base _ _ _ (p, sp) Hi); rewrite !elem_of_app; left; left; right; by left).
      rewrite Hpsize, Hsp in He. unfold HDR in *. lia. }
    exists F1, p, (sp + s1). cbn [set_ptr set_size hptr hsize]. rewrite Z.eqb_refl, Hpsize, Hsp, Hbp, u32_small by done. split_and!; try done; try lia.
    + rewrite fmap_app. cbn. set_solver.
    + intros x. rewrite cov_app. cbn [cov]. rewrite <- inside_join, <- Hsp, <- Hpsize, He by lia. lia.
    + right. by exists sp.
  - split; [done|]. split.
    { intros x Hne. cbn [set_ptr set_size hptr hsize]. apply Z.eqb_neq in Hne. by rewrite Hne. }
    exists F1, bp, s1. cbn [set_ptr hptr hsize]. rewrite Z.eqb_refl. split_and!; try done.
    + destruct (last_snoc F1.*1) as [A HA]. fold p in HA. rewrite fmap_app, app_comm_cons, HA. set_solver.
    + by left.
Qed.

Lemma addrs_nodup l : (forall x, cov x l <= 1) -> Forall (fun b : block => 0 < b.2) l -> NoDup l.*1.
Proof.
  induction l as [|b l IH]; intros Hc Hl; [constructor|]. pose proof Hl as [Hb Hl']%Forall_cons. rewrite fmap_cons. constructor.
  - rewrite list_elem_of_fmap. intros (c & Heq & Hc'). by apply (other_addr b l Hc Hb Hl' c Hc').
  - apply IH; [|done]. intros x. specialize (Hc x). cbn [cov] in Hc. pose proof (inside_01 x b). lia.
Qed.

Lemma inv_nodup h F al : heap_inv h F al -> NoDup (F ++ al).*1.
Proof. intros Hi. apply addrs_nodup; [apply Hi|]. eapply Forall_impl; [apply (hi_size _ _ _ Hi)|]. by intros b [_ ?]. Qed.

(** The sizes of the blocks that neither join nor are joined stay. *)
Lemma rebuild_sizes (h h2 : heap) F1 (D : list block) R bp (al Q : list block) : let p := List.last F1.*1 base in
  NoDup ((F1.*1 ++ D.*1 ++ R.*1) ++ bp :: al.*1) -> p < bp -> (forall x, x ∈ R.*1 -> bp < x) ->
  (forall x, x <> bp -> (x = p -> Q = F1) -> hsize h2 x = hsize h x) ->
  Q = F1 \/ (exists sp, F1 = Q ++ [(p, sp)]) ->
  forall b, b ∈ Q ++ R ++ al -> hsize h2 b.1 = hsize h b.1.
Proof.
  intros p Hnd Hlt HpR Hsz Hcase b Hin. apply NoDup_app in Hnd as (HndF & Hdis & [Hbpal Hndal]%NoDup_cons).
  apply Hsz; intros Heq; rewrite !elem_of_app in Hin.
  - destruct Hin as [Hin|[Hin|Hin]]; apply (list_elem_of_fmap_2 fst) in Hin; rewrite Heq in Hin.
    + apply (Hdis bp); [|by left]. rewrite !elem_of_app. left. destruct Hcase as [HQ|(sp & HF1)]; [by rewrite <- HQ|]. rewrite HF1, fmap_app, elem_of_app. by left.
    + specialize (HpR bp Hin). lia.
    + done.
  - destruct Hcase as [?|(sp & HF1)]; [done|]. exfalso. rewrite HF1, fmap_app in HndF, Hdis. change ([(p, sp)].*1) with [p] in HndF, Hdis.
    destruct Hin as [Hin|[Hin|Hin]]; apply (list_elem_of_fmap_2 fst) in Hin; rewrite Heq in Hin.
    + apply NoDup_app in HndF as (HndF & _). apply NoDup_app in HndF as (_ & Hd & _). apply (Hd p Hin). by left.
    + specialize (HpR p Hin). lia.
    + apply (Hdis p); [|by right]. rewrite !elem_of_app. left. right. by left.
Qed.

(** The heap with the joined block [(a, s2)] in place of the old ones. *)
Lemma free_rebuild h h2 F1 D R bp s al Q a s2 : let p := List.last F1.*1 base in
  heap_inv h (F1 ++ D ++ R) ((bp, s) :: al) -> base < bp -> p < bp ->
  Forall (fun x => x < bp) F1.*1 -> Forall (fun x => bp < x) (D ++ R).*1 -> brk h2 = brk h ->
  (forall x, x <> bp -> (x = p -> Q = F1) -> hsize h2 x = hsize h x) ->
  (forall x, x <> bp -> x <> p -> hptr h2 x = hptr h x) ->
  hsize h2 a = s2 -> 0 < s2 -> p ∈ base :: (Q ++ [(a, s2)]).*1 ->
  (forall x, cov x (Q ++ (a, s2) :: R) = cov x (F1 ++ D ++ R) + inside x (bp, s)) ->
  (Q = F1 /\ a = bp /\ hptr h2 p = bp /\ hptr h2 bp = hd base R.*1) \/
  (exists sp, F1 = Q ++ [(p, sp)] /\ a = p /\ hptr h2 p = hd base R.*1) ->
  heap_inv (set_freep p h2) (Q ++ (a, s2) :: R) al.
Proof.
  intros p Hi Hb Hlt H1 H2 Hbrk Hsz Hptr Hsa Hs2 Hpin Hcov Hcase.
  pose proof (inv_nodup _ _ _ Hi) as Hnd. rewrite !fmap_app, fmap_cons in Hnd. cbn [fst] in Hnd.
  pose proof (hi_path _ _ _ Hi) as Hp. pose proof (hi_sorted _ _ _ Hi) as Hs. rewrite !fmap_app in Hp, Hs.
  destruct (last_snoc F1.*1) as [A HA]. fold p in HA.
  rewrite app_comm_cons, HA in Hs. rewrite !ss_app in Hs. destruct Hs as ((HsA & _ & HAp) & (HsD & HsR & HDR) & HAR).
  assert (HpR : forall x, x ∈ R.*1 -> bp < x). { rewrite fmap_app, Forall_app in H2. destruct H2 as [_ H2]. by rewrite Forall_forall in H2. }
  assert (HpathR : forall c, hptr h2 c = hd base R.*1 -> path h2 c (R.*1 ++ [base])).
  { intros c Hc. apply (path_tail h); [|done|].
    - exists (List.last (F1.*1 ++ D.*1) base). rewrite <- !app_assoc, app_assoc in Hp. by apply path_app in Hp as [_ Hp].
    - intros x Hx. specialize (HpR x Hx). apply Hptr; lia. }
  assert (HpathF : path h2 base F1.*1).
  { apply (path_frame h); [|by rewrite <- app_assoc in Hp; apply path_app in Hp as [Hp _]].
    rewrite HA, removelast_last. intros x Hx. specialize (HAp x p Hx ltac:(by left)). apply Hptr; lia. }
  assert (Hold : forall b, b ∈ Q ++ R ++ al -> hsize h2 b.1 = hsize h b.1).
  { apply (rebuild_sizes h h2 F1 D R bp); try done. destruct Hcase as [(? & _)|(sp & ? & _)]; [by left|by right; exists sp]. }
  destruct Hi as [Ib _ Isz _ _ Ionce Irange Istart Ibrk Ilim].
  assert (Hperm : forall x, cov x ((Q ++ (a, s2) :: R) ++ al) = cov x ((F1 ++ D ++ R) ++ (bp, s) :: al)).
  { intros x. rewrite cov_app, Hcov, (cov_app x _ (_ :: _)). cbn [cov]. lia. }
  split; cbn [set_freep hptr hsize freep brk]; [..|lia| |lia].
  - rewrite <- Ib. apply Hsz; [lia|]. intros Heq. destruct Hcase as [(? & _)|(sp & HF1 & _)]; [done|]. exfalso.
    assert (Hb' : base ∈ A ++ [p]) by (rewrite <- HA; by left). rewrite HF1, fmap_app in HA.
    destruct Q as [|q Q]; destruct A as [|a0 A]; cbn in HA; try (injection HA as HA1 HA2); try done;
      (subst a0; specialize (HAp base p ltac:(by left) ltac:(by left)); lia).
  - rewrite fmap_app, fmap_cons. cbn [fst]. destruct Hcase as [(-> & -> & Hpp & Hbb)|(sp & HF1 & -> & Hpp)].
    + rewrite <- app_assoc. apply path_app. split; [by apply (path_frame h2)|]. fold p. split; [done|]. apply (path_frame h2); [done|]. by apply HpathR.
    + replace ((Q.*1 ++ p :: R.*1) ++ [base]) with (F1.*1 ++ R.*1 ++ [base]) by (rewrite HF1, fmap_app, <- !app_assoc; done).
      apply path_app. split; [by apply (path_frame h2)|]. fold p. apply (path_frame h2); [done|]. by apply HpathR.
  - apply Forall_app in Isz as [(I1 & (_ & I3)%Forall_app)%Forall_app [_ I5]%Forall_cons]. rewrite !Forall_app, Forall_cons.
    assert (HQ : Forall (fun b => hsize h b.1 = b.2 /\ 0 < b.2) Q).
    { destruct Hcase as [(-> & _)|(sp & HF1 & _)]; [done|]. rewrite HF1 in I1. by apply Forall_app in I1 as [? _]. }
    split_and!; [|done|done| |].
    + rewrite Forall_forall in HQ |- *. intros b Hin. rewrite Hold by (rewrite !elem_of_app; by left). by apply HQ.
    + rewrite Forall_forall in I3 |- *. intros b Hin. rewrite Hold by (rewrite !elem_of_app; right; by left). by apply I3.
    + rewrite Forall_forall in I5 |- *. intros b Hin. rewrite Hold by (rewrite !elem_of_app; right; by right). by apply I5.
  - assert (HsF : StronglySorted Z.lt (base :: F1.*1)) by (rewrite HA; apply ss_app; split_and!; [done|repeat constructor|done]).
    assert (HFR : forall x y, x ∈ base :: F1.*1 -> y ∈ R.*1 -> x < y).
    { intros x y Hx Hy. rewrite HA in Hx. apply HAR; [done|]. rewrite elem_of_app. by right. }
    rewrite fmap_app, fmap_cons, app_comm_cons. cbn [fst]. destruct Hcase as [(-> & -> & _)|(sp & HF1 & -> & _)].
    + apply ss_app. split_and!; [done| |].
      * constructor; [done|]. apply Forall_forall. intros y Hy. by apply HpR.
      * intros x y Hx [->|Hy]%elem_of_cons; [|by apply HFR]. apply elem_of_cons in Hx as [->|Hx]; [done|]. rewrite Forall_forall in H1. by apply H1.
    + replace ((base :: Q.*1) ++ p :: R.*1) with ((base :: F1.*1) ++ R.*1) by (rewrite HF1, fmap_app; cbn; by rewrite <- app_assoc).
      by apply ss_app.
  - rewrite fmap_app in Hpin |- *. rewrite fmap_cons. cbn [fst] in *. change ([(a, s2)].*1) with [a] in Hpin.
    rewrite elem_of_cons, elem_of_app, list_elem_of_singleton in Hpin. rewrite elem_of_cons, elem_of_app, elem_of_cons. tauto.
  - intros x. rewrite Hperm. apply Ionce.
  - intros x Hx. rewrite Hperm in Hx. rewrite Hbrk. by apply Irange.
  - by rewrite Hbrk.
Qed.

Lemma free_spec h F bp s al : heap_inv h F ((bp, s) :: al) ->
  exists h' F', free base (bp + HDR) h = Some h' /\ heap_inv h' F' al /\ brk h' = brk h /\
    (exists b, b ∈ F' /\ s <= b.2) /\ (forall x, cov x F' = cov x F + inside x (bp, s)).
Proof.
  intros Hi. pose proof (inv_nodup _ _ _ Hi) as Hnd. assert (Hb : base < bp) by (apply (inv_after_base h F _ (bp, s) Hi); set_solver).
  rewrite fmap_app, fmap_cons in Hnd. cbn [fst] in Hnd. apply NoDup_app in Hnd as (HndF & Hdis & Hnda).
  apply NoDup_cons in Hnda as [Hbpal Hnda].
  destruct (split_at F bp) as (F1 & F2 & -> & H1 & H2).
  { by apply (StronglySorted_inv (hi_sorted _ _ _ Hi)). } { intros Hin. apply (Hdis bp Hin). by left. }
  pose proof (hi_path _ _ _ Hi) as Hp. pose proof (hi_sorted _ _ _ Hi) as Hs. pose proof (hi_freep _ _ _ Hi) as Hfp. rewrite fmap_app in Hp, Hs, Hfp.
  pose proof (headers_bound _ _ _ Hi) as Hhd. rewrite fmap_app in Hhd.
  unfold free. replace (bp + HDR - HDR) with bp by lia.
  rewrite (free_find_spec h bp F1.*1 F2.*1 Hp Hs Hb H1 H2 (freep h) (headers base h) Hfp Hhd).
  set (p := List.last F1.*1 base). fold (join_next bp p h).
  destruct (join_next_spec h F1 F2 bp s al Hi H1 H2 Hb) as (D & R & s1 & HD & Hs1 & Hnb & Hsb & Hsame1 & Hbrk1 & Hcov1). fold p in Hnb, Hsb, Hsame1, Hbrk1.
  set (h1 := join_next bp p h) in *. fold (join_prev bp p h1).
  pose proof (hi_size _ _ _ Hi) as Hsz. rewrite Forall_app, Forall_cons in Hsz. destruct Hsz as (HszF & [_ Hs0] & Hszal). cbn [snd] in Hs0.
  assert (Hend1 : bp + HDR * s1 <= brk h).
  { pose proof (Hcov1 (bp + HDR * s1 - 1)) as Hc. assert (H0 : inside (bp + HDR * s1 - 1) (bp, s1) = 1) by (apply inside_iff; unfold HDR; lia).
    pose proof (cov_nonneg (bp + HDR * s1 - 1) R). pose proof (cov_nonneg (bp + HDR * s1 - 1) F1). pose proof (cov_nonneg (bp + HDR * s1 - 1) al).
    pose proof (hi_range _ _ _ Hi (bp + HDR * s1 - 1)) as Hr. rewrite !cov_app in Hr. cbn [cov] in Hr. lia. }
  destruct (join_prev_spec h h1 F1 F2 bp s s1 al Hi Hb ltac:(lia) Hend1 H1 Hsb Hsame1) as (Hlt & Hbrk2 & Hsame2 & Q & a & s2 & Hs2 & Hsa & Hpin & Hcov2 & Hcase).
  fold p in Hlt, Hbrk2, Hsame2, Hsa, Hpin, Hcase. set (h2 := join_prev bp p h1) in *.
  exists (set_freep p h2), (Q ++ (a, s2) :: R).
  assert (Hcov : forall x, cov x (Q ++ (a, s2) :: R) = cov x (F1 ++ F2) + inside x (bp, s)).
  { intros x. rewrite !cov_app. cbn [cov]. specialize (Hcov1 x). specialize (Hcov2 x). lia. }
  assert (Hsz2 : forall x, x <> bp -> (x = p -> Q = F1) -> hsize h2 x = hsize h x).
  { intros x Hxb Hxp. destruct (decide (x = p)) as [->|Hne].
    - destruct Hcase as [(_ & _ & _ & ->)|(sp & HF1 & _)]; [by apply Hsame1|]. exfalso. specialize (Hxp eq_refl). rewrite <- Hxp in HF1.
      apply (f_equal length) in HF1. rewrite length_app in HF1. cbn in HF1. lia.
    - destruct (Hsame2 x Hne) as [_ ->]. by apply Hsame1. }
  assert (Hp2 : forall x, x <> bp -> x <> p -> hptr h2 x = hptr h x).
  { intros x Hxb Hxp. destruct (Hsame2 x Hxp) as [-> _]. by apply Hsame1. }
  split; [done|]. split; [|split; [cbn; congruence|split; [exists (a, s2); split; [rewrite elem_of_app; right; by left|cbn; lia]|done]]].
  rewrite HD in Hi, H2, Hcov. apply (free_rebuild h h2 F1 D R bp s al Q a s2 Hi Hb Hlt H1 H2); try done; [congruence|lia|].
  destruct Hcase as [(? & ? & ? & _)|(sp & ? & ? & Hpp)]; [left|right; exists sp; rewrite <- Hnb; done].
  split_and!; try done. rewrite <- Hnb. apply Hsame2. lia.
Qed.

(** ** Taking a block *)

(** Only the order and contents of the live blocks matter up to permutation. *)
Lemma inv_perm h F al al' : al ≡ₚ al' -> heap_inv h F al -> heap_inv h F al'.
Proof.
  intros Hp [H1 H2 H3 H4 H5 H6 H7 H8 H9 H10]. assert (Hc : forall x, cov x (F ++ al') = cov x (F ++ al)) by (intros x; apply cov_perm; by rewrite Hp).
  split; try done; [by rewrite <- Hp| |]; intros x; rewrite Hc; auto.
Qed.

(** A block and the one before it in the list. *)
Lemma find_prev h F al prevp p : heap_inv h F al -> prevp ∈ base :: F.*1 -> hptr h prevp = p -> p <> base ->
  exists F1 sp F2, F = F1 ++ (p, sp) :: F2 /\ prevp = List.last F1.*1 base.
Proof.
  intros Hi Hin Hp Hne. apply list_elem_of_split in Hin as (L1 & L2 & Heq).
  rewrite (next_of h _ L1 prevp L2 (hi_path _ _ _ Hi) Heq) in Hp. destruct L2 as [|p' L2]; cbn [hd] in Hp; [congruence|]. subst p'.
  assert (Heq' : exists T1, base :: T1 = L1 ++ [prevp] /\ F.*1 = T1 ++ p :: L2).
  { destruct L1 as [|b L1]; injection Heq as Hb HF; [exists []; by subst prevp|]. exists (L1 ++ [prevp]). subst b. rewrite <- app_assoc. done. }
  destruct Heq' as (T1 & HT1 & HF). apply fmap_app_inv in HF as (F1 & F2 & HF1 & HF2 & ->).
  destruct F2 as [|[p' sp] F2]; [done|]. injection HF2 as -> _. exists F1, sp, F2. split; [done|]. rewrite <- HF1.
  transitivity (List.last (base :: T1) base); [by rewrite HT1, last_last|by destruct T1].
Qed.

(** What holds of the block [p] of the list. *)
Section Take.
Context (h : heap) (F1 F2 al : list block) (p sp : Z) (Hi : heap_inv h (F1 ++ (p, sp) :: F2) al).
Let prevp : Z := List.last F1.*1 base.

Lemma take_whole : heap_inv (set_freep prevp (set_ptr prevp (hptr h p) h)) (F1 ++ F2) ((p, sp) :: al).
Proof.
  assert (Hprev : prevp = List.last F1.*1 base) by done.
  pose proof (hi_size _ _ _ Hi) as Hsz. apply Forall_app in Hsz as [[HF1 [[Hsp Hsp0] HF2]%Forall_cons]%Forall_app Hal]. cbn [fst snd] in Hsp, Hsp0.
  pose proof (hi_path _ _ _ Hi) as Hpath. rewrite fmap_app, fmap_cons in Hpath. cbn [fst] in Hpath.
  destruct Hi as [Ib _ _ Is _ Ionce Irange Ist Ibrk Ilim].
  assert (Hc : forall x, cov x ((F1 ++ F2) ++ (p, sp) :: al) = cov x ((F1 ++ (p, sp) :: F2) ++ al)) by (intros x; rewrite !cov_app; cbn [cov]; lia).
  rewrite <- app_assoc in Hpath. apply path_app in Hpath as [Hp1 [_ Hp2]]. rewrite fmap_app, fmap_cons, app_comm_cons in Is. cbn [fst] in Is.
  apply ss_app in Is as (Is1 & [Is2 Is3]%StronglySorted_inv & Is4).
  assert (Hbelow : forall x, x ∈ base :: F1.*1 -> x < p) by (intros x Hx; apply Is4; [done|by left]).
  assert (HR : path (set_freep prevp (set_ptr prevp (hptr h p) h)) prevp (F2.*1 ++ [base])).
  { apply (path_tail h); [by exists p| |].
    - cbn. rewrite Z.eqb_refl. destruct F2; apply Hp2.
    - intros x Hx. cbn. destruct (Z.eqb_spec x prevp) as [->|]; [|done]. exfalso. rewrite Forall_forall in Is3. specialize (Is3 _ Hx).
      specialize (Hbelow prevp). destruct (last_snoc F1.*1) as [A HA]. rewrite <- Hprev in HA. rewrite HA in Hbelow. specialize (Hbelow ltac:(set_solver)). lia. }
  split; cbn [set_freep set_ptr hptr hsize freep brk]; try done.
  + rewrite fmap_app, <- app_assoc. apply path_app. rewrite <- Hprev. split; [|done]. apply (path_frame h); [|done].
    destruct (last_snoc F1.*1) as [A HA]. rewrite <- Hprev in HA. rewrite HA, removelast_last. intros x Hx. cbn.
    destruct (Z.eqb_spec x prevp) as [->|]; [|done]. rewrite HA in Is1. apply ss_app in Is1 as (_ & _ & Is1). specialize (Is1 prevp prevp Hx ltac:(by left)). lia.
  + rewrite !Forall_app, Forall_cons. by split_and!.
  + rewrite fmap_app, app_comm_cons. apply ss_app. split_and!; try done. intros x y Hx Hy. apply Is4; [done|by right].
  + destruct (last_snoc F1.*1) as [A HA]. rewrite <- Hprev in HA. rewrite fmap_app, app_comm_cons, HA. set_solver.
  + intros x. by rewrite Hc.
  + intros x. rewrite Hc. apply Irange.
Qed.

Lemma take_part n : 0 < n < sp ->
  let q := p + HDR * (sp - n) in let h' := set_size q n (set_size p (sp - n) h) in
  0 <= sp - n < 2 ^ 32 /\ heap_inv (set_freep prevp h') (F1 ++ (p, sp - n) :: F2) ((q, n) :: al).
Proof.
  intros Hn. assert (Hprev : prevp = List.last F1.*1 base) by done.
  pose proof (hi_size _ _ _ Hi) as Hsz. apply Forall_app in Hsz as [[HF1 [[Hsp Hsp0] HF2]%Forall_cons]%Forall_app Hal]. cbn [fst snd] in Hsp, Hsp0.
  pose proof (hi_path _ _ _ Hi) as Hpath. rewrite fmap_app, fmap_cons in Hpath. cbn [fst] in Hpath.
  assert (Hin : prevp ∈ base :: (F1 ++ (p, sp) :: F2).*1).
  { destruct (last_snoc F1.*1) as [A HA]. rewrite <- Hprev in HA. rewrite fmap_app, app_comm_cons, HA, <- app_assoc. rewrite elem_of_app. right. by left. }
  assert (Hcp : forall x q t, inside x (p, sp) = inside x (p, t) + inside x (q, n) -> cov x ((F1 ++ (p, t) :: F2) ++ (q, n) :: al) = cov x ((F1 ++ (p, sp) :: F2) ++ al)).
  { intros x q t Hx. rewrite !cov_app. cbn [cov]. lia. }
  destruct Hi as [Ib _ _ Is _ Ionce Irange Ist Ibrk Ilim].
  assert (Hend : p + HDR * sp <= brk h /\ start <= p).
  { assert (H1 : inside (p + HDR * sp - 1) (p, sp) = 1) by (apply inside_iff; unfold HDR; lia).
    assert (H2 : inside p (p, sp) = 1) by (apply inside_iff; unfold HDR; lia).
    pose proof (cov_in (p + HDR * sp - 1) ((F1 ++ (p, sp) :: F2) ++ al) (p, sp) ltac:(rewrite !elem_of_app; left; right; by left)).
    pose proof (cov_in p ((F1 ++ (p, sp) :: F2) ++ al) (p, sp) ltac:(rewrite !elem_of_app; left; right; by left)).
    pose proof (Irange (p + HDR * sp - 1) ltac:(lia)). pose proof (Irange p ltac:(lia)). lia. }
  intros q h'. split; [unfold HDR in *; lia|].
  assert (Hc : forall x, cov x ((F1 ++ (p, sp - n) :: F2) ++ (q, n) :: al) = cov x ((F1 ++ (p, sp) :: F2) ++ al)).
  { intros x. apply Hcp. unfold q. rewrite inside_join by lia. f_equal. f_equal. lia. }
  assert (Hq : forall b, b ∈ F1 ++ F2 ++ al -> 0 < b.2 -> b.1 <> q /\ b.1 <> p).
  { intros b Hb Hb0. assert (Hperm : forall x, inside x b + inside x (p, sp) <= 1).
    { intros x. specialize (Ionce x). apply list_elem_of_split in Hb as (B1 & B2 & Hb).
      assert (Hb' : (F1 ++ (p, sp) :: F2) ++ al ≡ₚ b :: (p, sp) :: B1 ++ B2).
      { rewrite <- app_assoc, <- app_comm_cons, <- Permutation_middle, Hb, <- Permutation_middle. apply perm_swap. }
      rewrite (cov_perm x _ _ Hb') in Ionce. cbn [cov] in Ionce. pose proof (cov_nonneg x (B1 ++ B2)). lia. }
    destruct b as [c t]. cbn [fst snd] in *. pose proof (Hperm c) as Hpc. assert (H1 : inside c (c, t) = 1) by (apply inside_iff; unfold HDR; lia).
    split; intros ->; [assert (inside q (p, sp) = 1) by (apply inside_iff; unfold q, HDR in *; lia)|assert (inside p (p, sp) = 1) by (apply inside_iff; unfold HDR; lia)]; lia. }
  assert (Hold : forall b, b ∈ F1 ++ F2 ++ al -> hsize h b.1 = b.2 /\ 0 < b.2 ->
    hsize h' b.1 = b.2 /\ 0 < b.2).
  { intros b Hb [Hs Hs0]. destruct (Hq b Hb Hs0) as [H1 H2]. cbn. apply Z.eqb_neq in H1, H2. by rewrite H1, H2. }
  assert (Hqp : q <> p) by (unfold q, HDR; lia).
  split; cbn [set_freep hptr freep brk]; try done.
  + cbn. pose proof Ist. destruct (Z.eqb_spec base q) as [Hbq|_]; [unfold q, HDR in *; lia|]. destruct (Z.eqb_spec base p); [lia|done].
  + rewrite fmap_app, fmap_cons. by apply (path_frame h).
  + rewrite !Forall_app, !Forall_cons. rewrite !Forall_forall in *. split_and!.
    * intros b Hb. apply Hold; [rewrite !elem_of_app; by left|by apply HF1].
    * cbn. rewrite Z.eqb_refl. apply Z.eqb_neq in Hqp. by rewrite Z.eqb_sym, Hqp.
    * cbn. lia.
    * intros b Hb. apply Hold; [rewrite !elem_of_app; right; by left|by apply HF2].
    * cbn. by rewrite Z.eqb_refl.
    * cbn; lia.
    * intros b Hb. apply Hold; [rewrite !elem_of_app; right; by right|by apply Hal].
  + by rewrite fmap_app, fmap_cons in Is |- *.
  + by rewrite fmap_app, fmap_cons in Hin |- *.
  + intros x. by rewrite Hc.
  + intros x. rewrite Hc. apply Irange.
Qed.
End Take.

Lemma take_block_spec h F al prevp p n : heap_inv h F al -> prevp ∈ base :: F.*1 -> hptr h prevp = p -> 0 < n -> n <= hsize h p ->
  exists q F' h', take_block n prevp p h = (q + HDR, h') /\ heap_inv h' F' ((q, n) :: al) /\ brk h' = brk h.
Proof.
  intros Hi Hin Hp Hn Hfit. destruct (decide (p = base)) as [->|Hne]; [rewrite (hi_base _ _ _ Hi) in Hfit; lia|].
  destruct (find_prev h F al prevp p Hi Hin Hp Hne) as (F1 & sp & F2 & -> & ->).
  pose proof (hi_size _ _ _ Hi) as Hsz. apply Forall_app in Hsz as [[_ [[Hsp _] _]%Forall_cons]%Forall_app _]. cbn [fst snd] in Hsp.
  unfold take_block. destruct (Z.eqb_spec (hsize h p) n) as [He|He].
  - eexists p, (F1 ++ F2), _. split; [done|]. split; [|done]. replace n with sp by lia. by apply take_whole.
  - destruct (take_part h F1 F2 al p sp Hi n ltac:(lia)) as [Hr Hi']. cbn [set_size hsize]. rewrite Z.eqb_refl, Hsp, u32_small by done.
    eexists _, (F1 ++ (p, sp - n) :: F2), _. split; [done|]. by split; [exact Hi'|].
Qed.

(** ** [malloc] *)

Definition core (n : Z) : Z := Z.max n 4096.

Lemma inv_freep_pos h F al : heap_inv h F al -> 0 < freep h.
Proof.
  intros Hi. pose proof (hi_start _ _ _ Hi). pose proof (hi_freep _ _ _ Hi) as Hin. apply elem_of_cons in Hin as [->|Hin]; [lia|].
  apply list_elem_of_fmap in Hin as (b & -> & Hb). pose proof (inv_after_base _ _ _ b Hi ltac:(rewrite elem_of_app; by left)). lia.
Qed.

Lemma morecore_spec h F al n : heap_inv h F al -> 0 < n -> HDR * n < 2 ^ 31 ->
  if brk h + HDR * core n >? limit then morecore base limit n h = Some (0, h)
  else exists h' F', morecore base limit n h = Some (freep h', h') /\ heap_inv h' F' al /\
    (exists b, b ∈ F' /\ n <= b.2) /\ brk h' = brk h + HDR * core n.
Proof.
  intros Hi Hn Hsmall. unfold morecore. assert (Hcore : (if n <? 4096 then 4096 else n) = core n) by (unfold core; destruct (Z.ltb_spec n 4096); lia).
  rewrite Hcore. cbv zeta. assert (Hc4 : 4096 <= core n /\ n <= core n /\ HDR * core n < 2 ^ 31) by (unfold core, HDR in *; lia).
  replace (core n * HDR) with (HDR * core n) by lia. rewrite s32_small by (unfold HDR in *; lia). unfold sbrk. destruct (Z.gtb_spec (brk h + HDR * core n) limit) as [Hlim|Hlim]; [done|].
  pose proof (hi_start _ _ _ Hi) as Hst. pose proof (hi_brk _ _ _ Hi) as Hbrk. destruct (Z.ltb_spec (brk h + HDR * core n) 0); [unfold HDR in *; lia|].
  cbn zeta. destruct (Z.eqb_spec (brk h) (-1)); [lia|].
  set (h0 := set_size (brk h) (core n) (set_brk (brk h + HDR * core n) h)).
  assert (Hnew : forall b, b ∈ F ++ al -> b.1 <> brk h).
  { intros b Hb Heq. pose proof (inv_end _ _ _ b Hi Hb). pose proof (hi_size _ _ _ Hi) as Hs. rewrite Forall_forall in Hs. destruct (Hs b Hb). unfold HDR in *. lia. }
  assert (Hi0 : heap_inv h0 F ((brk h, core n) :: al)).
  { destruct Hi as [I1 I2 I3 I4 I5 I6 I7 I8 I9 I10]. split; cbn [h0 set_size set_brk freep brk hptr]; try done; try lia.
    - cbn. destruct (Z.eqb_spec base (brk h)); [lia|done].
    - by apply (path_frame h).
    - assert (Hold : Forall (fun b => hsize h0 b.1 = b.2 /\ 0 < b.2) (F ++ al)).
      { rewrite Forall_forall in I3 |- *. intros b Hb. cbn. specialize (Hnew b Hb). apply Z.eqb_neq in Hnew. rewrite Hnew. by apply I3. }
      rewrite Forall_app in Hold |- *. rewrite Forall_cons. destruct Hold. split_and!; try done; cbn; [by rewrite Z.eqb_refl|lia].
    - intros x. specialize (I6 x). specialize (I7 x). rewrite !cov_app in *. cbn [cov]. unfold inside at 1. cbn [fst snd].
      destruct (Z.leb_spec (brk h) x); cbn [andb]; [|lia]. destruct (x <? _); pose proof (cov_nonneg x F); pose proof (cov_nonneg x al); lia.
    - intros x Hx. specialize (I7 x). rewrite !cov_app in *. cbn [cov] in Hx. unfold inside at 1 in Hx. cbn [fst snd] in Hx. unfold HDR in *.
      destruct (Z.leb_spec (brk h) x), (Z.ltb_spec x (brk h + 16 * core n)); cbn [andb] in Hx; lia.
    - unfold HDR in *. lia. }
  destruct (free_spec h0 F (brk h) (core n) al Hi0) as (h' & F' & Hf & Hi' & Hbrk' & (b & Hb & Hbs) & _).
  rewrite Hf. exists h', F'. split; [done|]. split; [done|]. split; [exists b; split; [done|lia]|]. by rewrite Hbrk'.
Qed.

(** One round of the search, from [freep] back to it. *)
Lemma malloc_scan h n : forall C prevp fuel, path h prevp (C ++ [freep h]) -> freep h ∉ C ->
  (exists q c, q ∈ prevp :: C /\ hptr h q = c /\ n <= hsize h c /\
     malloc_loop base limit (S (length C) + fuel) n prevp (hptr h prevp) h = Some (take_block n q c h)) \/
  (Forall (fun c => hsize h c < n) (C ++ [freep h]) /\
   malloc_loop base limit (S (length C) + fuel) n prevp (hptr h prevp) h =
     match morecore base limit n h with
     | None => None
     | Some (p, h) => if p =? 0 then Some (0, h) else malloc_loop base limit fuel n p (hptr h p) h
     end).
Proof.
  induction C as [|c C IH]; intros prevp fuel Hp Hn; cbn [length Nat.add malloc_loop].
  - destruct Hp as [Hp _]. rewrite Hp. destruct (Z.geb_spec (hsize h (freep h)) n) as [Hge|Hlt].
    + left. exists prevp, (freep h). split; [by left|]. split; [done|]. split; [lia|done].
    + right. rewrite Z.eqb_refl. split; [by constructor|done].
  - destruct Hp as [Hc Hp]. rewrite Hc. apply not_elem_of_cons in Hn as [Hne Hn]. destruct (Z.geb_spec (hsize h c) n) as [Hge|Hlt].
    + left. exists prevp, c. split; [by left|]. split; [done|]. split; [lia|done].
    + destruct (Z.eqb_spec c (freep h)); [congruence|]. destruct (IH c fuel Hp Hn) as [(q & d & Hq & Hd & Hs & Hrun)|[Hall Hrun]]; [left|right].
      * exists q, d. split; [by right|]. done.
      * split; [|done]. by constructor.
Qed.

(** A round over the whole list. *)
Lemma malloc_round h F al n fuel : heap_inv h F al -> 0 < n ->
  exists k, (k = length (base :: F.*1))%nat /\
  ((exists q F' h', malloc_loop base limit (k + fuel) n (freep h) (hptr h (freep h)) h = Some (q + HDR, h') /\
      heap_inv h' F' ((q, n) :: al) /\ brk h' = brk h) \/
   (Forall (fun b => b.2 < n) F /\
    malloc_loop base limit (k + fuel) n (freep h) (hptr h (freep h)) h =
     match morecore base limit n h with
     | None => None
     | Some (p, h) => if p =? 0 then Some (0, h) else malloc_loop base limit fuel n p (hptr h p) h
     end)).
Proof.
  intros Hi Hn. destruct (cycle h base F.*1 (freep h) (hi_path _ _ _ Hi) (hi_freep _ _ _ Hi)) as (C & HC & Hperm).
  exists (length (base :: F.*1)). split; [done|]. assert (Hlen : length (base :: F.*1) = S (length C)).
  { rewrite <- (Permutation_length Hperm), length_app. cbn. lia. }
  assert (Hnd : NoDup (base :: F.*1)).
  { pose proof (hi_sorted _ _ _ Hi) as Hs. clear -Hs. induction Hs as [|a l Hl IH Hf]; [constructor|]. constructor; [|done].
    intros Hin. rewrite Forall_forall in Hf. specialize (Hf a Hin). lia. }
  rewrite <- Hperm in Hnd. apply NoDup_app in Hnd as (_ & Hnd & _).
  destruct (malloc_scan h n C (freep h) fuel HC) as [(q & c & Hq & Hc & Hs & Hrun)|[Hall Hrun]]; [intros Hin; apply (Hnd _ Hin); by left|left|right]; rewrite Hlen, Hrun.
  - assert (Hq' : q ∈ base :: F.*1). { rewrite <- Hperm. apply elem_of_cons in Hq as [->|Hq]; rewrite elem_of_app; [right; by left|by left]. }
    destruct (take_block_spec h F al q c n Hi Hq' Hc Hn Hs) as (r & F' & h' & -> & Hi' & Hb). by exists r, F', h'.
  - split; [|done]. rewrite Hperm in Hall. apply Forall_cons in Hall as [_ Hall]. pose proof (hi_size _ _ _ Hi) as Hsz.
    apply Forall_app in Hsz as [Hsz _]. rewrite !Forall_forall in *. intros b Hb. destruct (Hsz b Hb) as [<- _]. apply Hall. by apply list_elem_of_fmap_2.
Qed.

Lemma malloc_inv_spec h F al n fuel : heap_inv h F al -> 0 < n -> HDR * n < 2 ^ 31 ->
  (2 * headers base (set_brk (brk h + HDR * (n + 4096)) h) <= fuel)%nat ->
  exists r h' F', malloc_loop base limit fuel n (freep h) (hptr h (freep h)) h = Some (r, h') /\
    ((r = 0 /\ limit < brk h + HDR * core n /\ Forall (fun b => b.2 < n) F /\ heap_inv h' F' al) \/
     (exists q, r = q + HDR /\ heap_inv h' F' ((q, n) :: al))).
Proof.
  intros Hi Hn Hsmall Hfuel.
  assert (Hmono : forall h', brk h' <= brk h + HDR * (n + 4096) -> (headers base h' <= headers base (set_brk (brk h + HDR * (n + 4096)) h))%nat).
  { intros h' Hb. unfold headers. cbn [set_brk brk]. assert ((brk h' - base) / HDR <= (brk h + HDR * (n + 4096) - base) / HDR) by (apply Z.div_le_mono; [done|lia]). lia. }
  set (H := headers base (set_brk (brk h + HDR * (n + 4096)) h)) in *.
  pose proof (headers_bound _ _ _ Hi) as Hh. pose proof (Hmono h ltac:(unfold HDR; lia)) as Hh1.
  destruct (malloc_round h F al n (fuel - length (base :: F.*1)) Hi Hn) as (k & Hk & Hround).
  replace (k + (fuel - length (base :: F.*1)))%nat with fuel in Hround by lia.
  destruct Hround as [(q & F' & h' & Hrun & Hi' & _)|[Hall Hrun]]; [exists (q + HDR), h', F'; split; [done|]; right; by exists q|].
  rewrite Hrun. pose proof (morecore_spec h F al n Hi Hn Hsmall) as Hm. destruct (Z.gtb_spec (brk h + HDR * core n) limit) as [Hlim|Hlim].
  { rewrite Hm. exists 0, h, F. split; [done|]. left. split_and!; try done. }
  destruct Hm as (h1 & F1 & Hm & Hi1 & (b & Hb & Hbn) & Hbrk1). rewrite Hm.
  pose proof (inv_freep_pos _ _ _ Hi1). destruct (Z.eqb_spec (freep h1) 0); [lia|].
  pose proof (headers_bound _ _ _ Hi1) as Hh2. pose proof (Hmono h1 ltac:(rewrite Hbrk1; unfold core, HDR; lia)) as Hh3.
  set (fuel1 := (fuel - length (base :: F.*1))%nat). destruct (malloc_round h1 F1 al n (fuel1 - length (base :: F1.*1)) Hi1 Hn) as (k1 & Hk1 & Hround1).
  replace (k1 + (fuel1 - length (base :: F1.*1)))%nat with fuel1 in Hround1 by (unfold fuel1; lia).
  destruct Hround1 as [(q & F' & h' & Hrun1 & Hi' & _)|[Hall1 _]]; [exists (q + HDR), h', F'; split; [done|]; right; by exists q|].
  exfalso. rewrite Forall_forall in Hall1. specialize (Hall1 b Hb). lia.
Qed.

(** Before the first call, or with some free blocks. *)
Definition heap_ok (h : heap) (al : list block) : Prop :=
  (freep h = 0 /\ al = [] /\ 0 < base < start /\ start <= brk h <= limit /\ limit <= 2 ^ 36) \/ exists F, heap_inv h F al.

(** Requests whose size in bytes fits in an [int]. *)
Definition small_request (nbytes : Z) : Prop := 0 <= nbytes <= 2 ^ 31 - 48.

Lemma units_eq nbytes : small_request nbytes ->
  0 < units nbytes /\ nbytes <= HDR * (units nbytes - 1) /\ HDR * units nbytes < 2 ^ 31.
Proof.
  intros Hn. unfold small_request in Hn. unfold units, HDR. pose proof (Z.div_mod (nbytes + 16 - 1) 16 ltac:(lia)).
  pose proof (Z.mod_pos_bound (nbytes + 16 - 1) 16 ltac:(lia)). rewrite u32_small; lia.
Qed.

Lemma malloc_spec h al nbytes : heap_ok h al -> small_request nbytes ->
  exists r h', malloc base limit nbytes h = Some (r, h') /\
    ((r = 0 /\ limit < brk h + HDR * core (units nbytes) /\ heap_ok h' al) \/
     (exists q, r = q + HDR /\ r <> 0 /\ heap_ok h' ((q, units nbytes) :: al))).
Proof.
  intros Hok Hn. destruct (units_eq nbytes Hn) as (Hu & _ & Hu31). unfold malloc. set (n := units nbytes) in *.
  set (h0 := if freep h =? 0 then _ else h). assert (exists F, heap_inv h0 F al /\ brk h0 = brk h) as (F & Hi & Hb).
  { destruct Hok as [(Hf & -> & Hst & Hb & Hl)|[F Hi]].
    - exists []. unfold h0. rewrite Hf. split; [|done]. split; cbn; try done; try lia.
      + by rewrite Z.eqb_refl.
      + by rewrite Z.eqb_refl.
      + repeat constructor.
      + by left.
    - exists F. pose proof (inv_freep_pos _ _ _ Hi). unfold h0. destruct (Z.eqb_spec (freep h) 0); [lia|]. done. }
  destruct (malloc_inv_spec h0 F al n (malloc_fuel base n h0) Hi Hu Hu31) as (r & h' & F' & Hrun & Hres); [unfold malloc_fuel; lia|].
  exists r, h'. split; [exact Hrun|]. destruct Hres as [(-> & Hlim & _ & Hi')|(q & -> & Hi')]; [left|right].
  - rewrite <- Hb. split_and!; try done. right. by exists F'.
  - exists q. pose proof (inv_after_base _ _ _ (q, n) Hi' ltac:(rewrite elem_of_app; right; by left)). pose proof (hi_start _ _ _ Hi').
    split; [done|]. split; [unfold HDR; cbn in *; lia|]. right. by exists F'.
Qed.

Lemma free_ok h al1 b al2 : heap_ok h (al1 ++ b :: al2) -> exists h', free base (b.1 + HDR) h = Some h' /\ heap_ok h' (al1 ++ al2).
Proof.
  intros [(_ & Heq & _)|[F Hi]]; [by destruct al1|]. destruct b as [bp s].
  destruct (free_spec h F bp s (al1 ++ al2)) as (h' & F' & Hf & Hi' & _); [|exists h'; split; [done|]; right; by exists F'].
  eapply inv_perm; [|exact Hi]. by rewrite <- Permutation_middle.
Qed.

(** Stores of the program into a block it owns keep the heap. *)
Lemma write_ok h al b x vp vs : heap_ok h al -> b ∈ al -> b.1 + HDR <= x < b.1 + HDR * b.2 ->
  heap_ok (set_size x vs (set_ptr x vp h)) al.
Proof.
  intros [(_ & -> & _)|[F Hi]] Hb Hx; [by apply not_elem_of_nil in Hb|]. right. exists F.
  pose proof (inv_after_base _ _ _ b Hi ltac:(rewrite elem_of_app; by right)) as Hab. unfold HDR in Hx.
  assert (Hnot : forall c, c ∈ F ++ al -> 0 < c.2 -> c.1 <> x).
  { intros c Hc Hc0 Heq. assert (Hbin : b ∈ F ++ al) by (rewrite elem_of_app; by right).
    apply list_elem_of_split in Hbin as (l1 & l2 & Hl). assert (Hperm : F ++ al ≡ₚ b :: l1 ++ l2) by (by rewrite Hl, <- Permutation_middle).
    pose proof (hi_once _ _ _ Hi x) as Ho. rewrite (cov_perm x _ _ Hperm) in Ho. cbn [cov] in Ho.
    rewrite Hperm in Hc. apply elem_of_cons in Hc as [->|Hc]; [lia|]. pose proof (cov_in x _ _ Hc).
    destruct b as [a s], c as [a' s']. cbn [fst snd] in *. subst a'.
    assert (inside x (a, s) = 1) by (apply inside_iff; unfold HDR; lia). assert (inside x (x, s') = 1) by (apply inside_iff; unfold HDR; lia). lia. }
  assert (Hbase : base <> x) by lia. pose proof (hi_size _ _ _ Hi) as Hs.
  destruct Hi as [I1 I2 I3 I4 I5 I6 I7 I8 I9 I10]. split; cbn [set_size set_ptr freep brk]; try done.
  - cbn. apply Z.eqb_neq in Hbase. by rewrite Hbase.
  - apply (path_frame h); [|done]. intros y Hy. cbn. destruct (Z.eqb_spec y x) as [->|]; [|done]. exfalso.
    change (base :: F.*1 ++ [base]) with ((base :: F.*1) ++ [base]) in Hy. rewrite removelast_last in Hy. apply elem_of_cons in Hy as [?|Hy]; [done|].
    apply list_elem_of_fmap in Hy as (c & -> & Hc). assert (Hc' : c ∈ F ++ al) by (rewrite elem_of_app; by left).
    rewrite Forall_forall in Hs. destruct (Hs c Hc'). by apply (Hnot c).
  - rewrite Forall_forall in Hs |- *. intros c Hc. destruct (Hs c Hc) as [H1 H2]. cbn. destruct (Z.eqb_spec c.1 x); [by destruct (Hnot c)|done].
Qed.

(** ** Programs *)

(** A program calls [malloc], frees blocks it owns and writes into them; [al] are
    its blocks. *)
Inductive mstep : heap * list block -> heap * list block -> Prop :=
| m_malloc h al nbytes r h' : small_request nbytes -> malloc base limit nbytes h = Some (r, h') ->
    mstep (h, al) (h', if r =? 0 then al else (r - HDR, units nbytes) :: al)
| m_free h al1 b al2 h' : free base (b.1 + HDR) h = Some h' -> mstep (h, al1 ++ b :: al2) (h', al1 ++ al2)
| m_write h al b x vp vs : b ∈ al -> b.1 + HDR <= x < b.1 + HDR * b.2 ->
    mstep (h, al) (set_size x vs (set_ptr x vp h), al).

Lemma mstep_ok s s' : heap_ok s.1 s.2 -> mstep s s' -> heap_ok s'.1 s'.2.
Proof.
  intros Hok Hstep. destruct Hstep as [h al nbytes r h' Hn Hm|h al1 b al2 h' Hf|h al b x vp vs Hb Hx]; cbn [fst snd] in *.
  - destruct (malloc_spec h al nbytes Hok Hn) as (r' & h'' & Hm' & Hres). rewrite Hm in Hm'. injection Hm' as <- <-.
    destruct Hres as [(-> & _ & Hok')|(q & -> & Hnz & Hok')]; [done|]. apply Z.eqb_neq in Hnz. rewrite Hnz. by replace (q + HDR - HDR) with q by lia.
  - destruct (free_ok _ _ _ _ Hok) as (h'' & Hf' & Hok'). rewrite Hf in Hf'. injection Hf' as <-. done.
  - by eapply write_ok.
Qed.

(** The free blocks: the circular list from [base], with the sizes in the headers; none before the first call. *)
Definition free_list (h : heap) (F : list block) : Prop :=
  (freep h = 0 /\ F = []) \/
  (path h base (F.*1 ++ [base]) /\ freep h ∈ base :: F.*1 /\ Forall (fun b => hsize h b.1 = b.2) F).

Definition apart (b c : block) : Prop := b.1 + HDR * b.2 <= c.1 \/ c.1 + HDR * c.2 <= b.1.

Lemma heap_ok_reachable h0 h al : freep h0 = 0 -> 0 < base < start -> start <= brk h0 <= limit -> limit <= 2 ^ 36 ->
  rtc mstep (h0, []) (h, al) -> heap_ok h al.
Proof.
  intros Hf Hst Hbrk Hlim Hrun. assert (H0 : heap_ok h0 []) by (by left).
  change (heap_ok (h, al).1 (h, al).2). change (heap_ok (h0, @nil block).1 (h0, @nil block).2) in H0.
  revert H0. induction Hrun as [|? ? ? Hs _ IH]; [done|]. intros H0. apply IH. by eapply mstep_ok.
Qed.

(** Blocks that cover no address twice are apart. *)
Lemma once_apart (l : list block) i j b c : (forall x, cov x l <= 1) -> Forall (fun b => 0 < b.2) l ->
  l !! i = Some b -> l !! j = Some c -> i <> j -> apart b c.
Proof.
  intros Ho Hs Hb Hc Hne. rewrite Forall_lookup in Hs. pose proof (Hs _ _ Hb) as Hb0. pose proof (Hs _ _ Hc) as Hc0. cbn in Hb0, Hc0.
  assert (Hc' : c ∈ delete i l).
  { apply list_elem_of_lookup. destruct (decide (j < i)%nat); [exists j; by rewrite list_lookup_delete_lt by lia|].
    exists (pred j). rewrite list_lookup_delete_ge by lia. by replace (S (pred j)) with j by lia. }
  assert (Hboth : forall x, inside x b + inside x c <= 1).
  { intros x. specialize (Ho x). rewrite (cov_perm x l (b :: delete i l)) in Ho by (by apply delete_Permutation).
    cbn [cov] in Ho. pose proof (cov_in x _ _ Hc'). lia. }
  destruct b as [a s], c as [a' s']. unfold apart. cbn [fst snd] in *. unfold HDR in *.
  destruct (decide (a + 16 * s <= a')); [by left|]. destruct (decide (a' + 16 * s' <= a)); [by right|]. exfalso.
  specialize (Hboth (Z.max a a')). assert (inside (Z.max a a') (a, s) = 1) by (apply inside_iff; unfold HDR; lia).
  assert (inside (Z.max a a') (a', s') = 1) by (apply inside_iff; unfold HDR; lia). lia.
Qed.

Lemma block_in_heap h F al b : heap_inv h F al -> b ∈ F ++ al -> start <= b.1 /\ b.1 + HDR * b.2 <= brk h.
Proof.
  intros Hi Hb. split; [|by apply (inv_end _ _ _ b Hi)]. pose proof (hi_size _ _ _ Hi) as Hs. rewrite Forall_forall in Hs.
  destruct (Hs b Hb) as [_ Hb0]. pose proof (cov_in b.1 _ _ Hb).
  assert (inside b.1 b = 1) by (destruct b; apply inside_iff; unfold HDR; cbn in *; lia). apply (hi_range _ _ _ Hi b.1). lia.
Qed.

Lemma heap_ok_blocks h al : heap_ok h al -> exists F, free_list h F /\
  (forall i j b c, (F ++ al) !! i = Some b -> (F ++ al) !! j = Some c -> i <> j -> apart b c) /\
  (forall b, b ∈ F ++ al -> start <= b.1 /\ b.1 + HDR * b.2 <= brk h).
Proof.
  intros [(Hf & -> & _)|[F Hi]].
  - exists []. split; [by left|]. split; [done|]. intros b Hb. by apply not_elem_of_nil in Hb.
  - exists F. pose proof (hi_size _ _ _ Hi) as Hs. split_and!.
    + right. split; [apply Hi|]. split; [apply Hi|]. apply Forall_app in Hs as [Hs _]. eapply Forall_impl; [exact Hs|]. by intros b [? _].
    + intros i j b c. apply once_apart; [apply Hi|]. eapply Forall_impl; [exact Hs|]. by intros d [_ ?].
    + intros b. by apply block_in_heap.
Qed.

(** C36: over every sequence of [malloc]s of at most [2^31 - 48] bytes, [free]s of live blocks and
    client writes into live blocks, the blocks handed out and the blocks of the free list lie in the heap and
    no two of them overlap; every live block can be freed; a [malloc] within that limit returns a
    block that holds the request, or null because [sbrk] refuses. *)
Theorem malloc_blocks_disjoint h0 h al :
  freep h0 = 0 -> 0 < base < start -> start <= brk h0 <= limit -> limit <= 2 ^ 36 -> rtc mstep (h0, []) (h, al) ->
  (exists F, free_list h F /\
    (forall i j b c, (F ++ al) !! i = Some b -> (F ++ al) !! j = Some c -> i <> j -> apart b c) /\
    (forall b, b ∈ F ++ al -> start <= b.1 /\ b.1 + HDR * b.2 <= brk h)) /\
  (forall b, b ∈ al -> exists h', free base (b.1 + HDR) h = Some h') /\
  (forall nbytes, small_request nbytes -> exists r h', malloc base limit nbytes h = Some (r, h') /\
     (if r =? 0 then limit < brk h + HDR * core (units nbytes) else nbytes <= HDR * (units nbytes - 1))).
Proof.
  intros Hf Hst Hbrk Hlim Hrun. pose proof (heap_ok_reachable h0 h al Hf Hst Hbrk Hlim Hrun) as Hok.
  split; [by apply heap_ok_blocks|]. split.
  - intros b (al1 & al2 & ->)%list_elem_of_split. destruct (free_ok _ _ _ _ Hok) as (h' & Hf' & _). by exists h'.
  - intros nbytes Hn. destruct (malloc_spec h al nbytes Hok Hn) as (r & h' & Hm & Hres). exists r, h'. split; [done|].
    destruct Hres as [(-> & Hl & _)|(q & -> & Hnz & _)]; [done|]. apply Z.eqb_neq in Hnz. rewrite Hnz. by apply units_eq.
Qed.
End Inv.

(** ** Two allocations *)

Definition heap0 : heap := mkheap (fun _ => 0) (fun _ => 0) 0 8192.
Definition after (nbytes : Z) (h : heap) : heap :=
  match malloc 4096 1048576 nbytes h with Some (_, h') => h' | None => h end.

Lemma after_step nbytes h al q n : small_request nbytes -> option_map fst (malloc 4096 1048576 nbytes h) = Some (q + HDR) ->
  (q + HDR =? 0) = false -> units nbytes = n -> mstep 4096 1048576 (h, al) (after nbytes h, (q, n) :: al).
Proof.
  intros Hn Hr Hnz <-. unfold after. destruct (malloc 4096 1048576 nbytes h) as [[r h']|] eqn:Hm; [|done]. injection Hr as ->.
  pose proof (m_malloc 4096 1048576 h al nbytes _ h' Hn Hm) as Hs. rewrite Hnz in Hs. by replace (q + HDR - HDR) with q in Hs by lia.
Qed.

(** The free list after them is the block [(8192, 4084)], below the two that were cut from its end. *)
Lemma malloc_blocks_disjoint_witness :
  rtc (mstep 4096 1048576) (heap0, []) (after 40 (after 100 heap0), [(73536, 4); (73600, 8)]) /\
  exists F, free_list 4096 (after 40 (after 100 heap0)) F /\ (F <> [] /\ forall b, b ∈ F -> apart b (73536, 4) /\ apart b (73600, 8)) /\
    apart (73536, 4) (73600, 8).
Proof.
  assert (Hrun : rtc (mstep 4096 1048576) (heap0, []) (after 40 (after 100 heap0), [(73536, 4); (73600, 8)])).
  { eapply rtc_l; [apply (after_step 100 heap0 [] 73600 8); [unfold small_request; lia|vm_compute; reflexivity..]|].
    apply rtc_once, (after_step 40 _ [(73600, 8)] 73536 4); [unfold small_request; lia|vm_compute; reflexivity..]. }
  split; [exact Hrun|].
  destruct (malloc_blocks_disjoint 4096 8192 1048576 heap0 (after 40 (after 100 heap0)) [(73536, 4); (73600, 8)]) as ((F & HF & H & _) & _);
    [reflexivity|lia|cbn; lia|lia|exact Hrun|].
  exists F. split; [exact HF|]. split; [split|].
  - intros ->. destruct HF as [[Hf _]|[Hp _]]; [vm_compute in Hf; discriminate Hf|]. destruct Hp as [Hp _]. vm_compute in Hp. discriminate Hp.
  - intros b (i & Hi)%list_elem_of_lookup. assert (Hlt := lookup_lt_Some _ _ _ Hi).
    split; [apply (H i (length F) b)|apply (H i (length F + 1)%nat b)]; try lia.
    + by rewrite lookup_app_l.
    + rewrite lookup_app_r by lia. by rewrite Nat.sub_diag.
    + by rewrite lookup_app_l.
    + rewrite lookup_app_r by lia. by replace (length F + 1 - length F)%nat with 1%nat by lia.
  - apply (H (length F) (length F + 1)%nat); [| |lia].
    + rewrite lookup_app_r by lia. by rewrite Nat.sub_diag.
    + rewrite lookup_app_r by lia. by replace (length F + 1 - length F)%nat with 1%nat by lia.
Defined.

(** A request of 2 GiB overflows the [int] that [sbrk] takes: the kernel grants nothing, and [malloc] still hands out a
    block, which lies beyond the break. *)
Lemma malloc_huge_not_granted fuel :
  exists h', malloc_loop 4096 1048576 (S (S fuel)) (units (2 ^ 31)) 4096 4096 (set_size 4096 0 (set_freep 4096 (set_ptr 4096 4096 heap0))) = Some (8208, h') /\
    brk h' = 8192 /\ hsize h' 8192 = 2 ^ 27 + 1.
Proof. eexists. split; [cbn -[morecore]; vm_compute; reflexivity|]. vm_compute. done. Qed.
