(* ===== verification/Sh.v ===== *)
(** * The shell: [user/sh.c]

    A command line is the list of its characters before the NUL, [es] is its
    length, and a [char*] into it is an index; the NUL at [es] is what
    [nth] returns out of range.  A parser is a function of the current
    position [*ps] that returns a command and moves the position, or calls
    [panic] with a message; [OutOfFuel] marks a run whose fuel was too small,
    which the theorems of [ShParse] exclude.  The parsing functions call each
    other through arguments ([line] is [parseline] on what follows a
    parenthesis), and only [parseline] spends fuel across calls.  The nodes
    come from [malloc], which is taken to succeed.

    [parseexec] keeps a pointer to the [execcmd] it made while [parseredirs]
    wraps it: [set_argv] updates that innermost node.

    [runcmd] is the tree of the processes it makes: what each forks, waits
    for, and with which descriptors it calls [exec].  The outcomes of [open],
    [fork] and [pipe] are arguments; descriptors are allocated lowest first,
    as [fdalloc] of the kernel does. *)

From S2P Require Import Prelude.

(** ** Parsed commands *)

Definition MAXARGS : nat := 10.

(** Arguments and file names are pairs of the pointers [q] and [eq]. *)
Inductive cmd :=
| EXEC (argv : list (nat * nat))
| REDIR (c : cmd) (file : nat * nat) (mode fd : Z)
| PIPE (left right : cmd)
| LIST (left right : cmd)
| BACK (c : cmd).

(** The execcmd node below the redirections around it gets its arguments. *)
Fixpoint set_argv (argv : list (nat * nat)) (c : cmd) : cmd :=
  match c with
  | EXEC _ => EXEC argv
  | REDIR c' file mode fd => REDIR (set_argv argv c') file mode fd
  | _ => c
  end.

Inductive parsed (A : Type) :=
| Parsed (a : A) (s : nat)
| ShPanic (msg : string)
| OutOfFuel.
Arguments Parsed {A} a s.
Arguments ShPanic {A} msg.
Arguments OutOfFuel {A}.

Definition parser (A : Type) : Type := nat -> parsed A.
Definition pbind {A B} (p : parser A) (k : A -> parser B) : parser B := fun s =>
  match p s with
  | Parsed a s' => k a s'
  | ShPanic msg => ShPanic msg
  | OutOfFuel => OutOfFuel
  end.
Definition pret {A} (a : A) : parser A := fun s => Parsed a s.
Definition ppanic {A} (msg : string) : parser A := fun _ => ShPanic msg.

Declare Scope sh_scope.
Notation "'let*' x := p 'in' k" := (pbind p (fun x => k)) (at level 100, x pattern, p at next level, k at level 200, right associativity) : sh_scope.
#[local] Open Scope sh_scope.

(** ** Tokens *)

Definition BAR : Z := 124.
Definition LPAR : Z := 40.
Definition RPAR : Z := 41.
Definition SEMI : Z := 59.
Definition AMP : Z := 38.
Definition LESS : Z := 60.
Definition MORE : Z := 62.
Definition PLUS : Z := 43.   (* the token >> *)
Definition WORD : Z := 97.   (* 'a' *)

Definition whitespace : list Z := [32; 9; 13; 10; 11].
Definition symbols : list Z := [LESS; BAR; MORE; AMP; SEMI; LPAR; RPAR].

(** [strchr(l, c)] as a truth value: it finds no NUL. *)
Definition chr (l : list Z) (c : Z) : bool := bool_decide (c ∈ l).

(** [while(s < es && test( *s)) s++], over the characters from [s]. *)
Fixpoint span (test : Z -> bool) (l : list Z) : nat :=
  match l with
  | [] => 0
  | c :: l' => if test c then S (span test l') else 0
  end.

Section Parser.
Context (txt : list Z).

Definition char_at (s : nat) : Z := nth s txt 0.
Definition skip (test : Z -> bool) (s : nat) : nat := s + span test (drop s txt).

(** The token, the pointers [q] and [eq], and the new position. *)
Definition gettoken (s : nat) : Z * nat * nat * nat :=
  let s := skip (chr whitespace) s in
  let q := s in
  let c := char_at s in
  let '(r, s) :=
    if c =? 0 then (c, s)
    else if chr [BAR; LPAR; RPAR; SEMI; AMP; LESS] c then (c, S s)
    else if c =? MORE then
      if char_at (S s) =? MORE then (PLUS, S (S s)) else (c, S s)
    else (WORD, skip (fun x => negb (chr whitespace x) && negb (chr symbols x)) s) in
  (r, q, s, skip (chr whitespace) s).

Definition get : parser (Z * (nat * nat)) := fun s =>
  let '(tok, q, eq, s') := gettoken s in Parsed (tok, (q, eq)) s'.

Definition peek (toks : list Z) : parser bool := fun s =>
  let s := skip (chr whitespace) s in
  Parsed (negb (char_at s =? 0) && chr toks (char_at s)) s.

(** ** The parser *)

Definition O_RDONLY : Z := 0x000.
Definition O_WRONLY : Z := 0x001.
Definition O_CREATE : Z := 0x200.
Definition O_TRUNC : Z := 0x400.

(** The switch on the kind of redirection. *)
Definition redirect (tok : Z) (c : cmd) (file : nat * nat) : cmd :=
  if tok =? LESS then REDIR c file O_RDONLY 0
  else if tok =? MORE then REDIR c file (Z.lor (Z.lor O_WRONLY O_CREATE) O_TRUNC) 1
  else if tok =? PLUS then REDIR c file (Z.lor O_WRONLY O_CREATE) 1
  else c.

Fixpoint parseredirs (fuel : nat) (c : cmd) : parser cmd :=
  match fuel with
  | O => fun _ => OutOfFuel
  | S fuel' =>
      let* b := peek [LESS; MORE] in
      if b then
        let* (tok, _) := get in
        let* (w, file) := get in
        if negb (w =? WORD) then ppanic "missing file for redirection"
        else parseredirs fuel' (redirect tok c file)
      else pret c
  end.

(** The loop over the arguments; [argv] are the ones stored in the node. *)
Fixpoint parseargs (fuel rfuel : nat) (argv : list (nat * nat)) (r : cmd) : parser cmd :=
  match fuel with
  | O => fun _ => OutOfFuel
  | S fuel' =>
      let* b := peek [BAR; RPAR; AMP; SEMI] in
      if b then pret (set_argv argv r)
      else
        let* (tok, w) := get in
        if tok =? 0 then pret (set_argv argv r)
        else if negb (tok =? WORD) then ppanic "syntax"
        else
          let argv := argv ++ [w] in
          if (MAXARGS <=? length argv)%nat then ppanic "too many args"
          else
            let* r' := parseredirs rfuel (set_argv argv r) in
            parseargs fuel' rfuel argv r'
  end.

Definition loops : nat := S (length txt).

Definition parseblock (line : parser cmd) : parser cmd :=
  let* b := peek [LPAR] in
  if negb b then ppanic "parseblock"
  else
    let* _ := get in
    let* c := line in
    let* b' := peek [RPAR] in
    if negb b' then ppanic "syntax - missing )"
    else
      let* _ := get in
      parseredirs loops c.

Definition parseexec (line : parser cmd) : parser cmd :=
  let* b := peek [LPAR] in
  if b then parseblock line
  else
    let* r := parseredirs loops (EXEC []) in
    parseargs loops loops [] r.

Fixpoint parsepipe (fuel : nat) (line : parser cmd) : parser cmd :=
  match fuel with
  | O => fun _ => OutOfFuel
  | S fuel' =>
      let* c := parseexec line in
      let* b := peek [BAR] in
      if b then
        let* _ := get in
        let* r := parsepipe fuel' line in
        pret (PIPE c r)
      else pret c
  end.

(** [while(peek(ps, es, "&"))] *)
Fixpoint parseback (fuel : nat) (c : cmd) : parser cmd :=
  match fuel with
  | O => fun _ => OutOfFuel
  | S fuel' =>
      let* b := peek [AMP] in
      if b then
        let* _ := get in
        parseback fuel' (BACK c)
      else pret c
  end.

Fixpoint parseline (fuel : nat) : parser cmd :=
  match fuel with
  | O => fun _ => OutOfFuel
  | S fuel' =>
      let* c := parsepipe loops (parseline fuel') in
      let* c' := parseback loops c in
      let* b := peek [SEMI] in
      if b then
        let* _ := get in
        let* r := parseline fuel' in
        pret (LIST c' r)
      else pret c'
  end.
End Parser.

(** [nulterminate]: the buffer with a NUL after each string of the command. *)
Definition put_nul (buf : list Z) (w : nat * nat) : list Z := <[w.2 := 0]> buf.
Fixpoint nulterminate (c : cmd) (buf : list Z) : list Z :=
  match c with
  | EXEC argv => foldl put_nul buf argv
  | REDIR c' file _ _ => put_nul (nulterminate c' buf) file
  | PIPE l r | LIST l r => nulterminate r (nulterminate l buf)
  | BACK c' => nulterminate c' buf
  end.

(** The command and the buffer, whose characters end with the NUL at [es]. *)
Definition parsecmd (txt : list Z) : parsed (cmd * list Z) :=
  (let* c := parseline txt (S (length txt)) in
   let* _ := peek txt [] in
   fun s =>
     if negb (s =? length txt)%nat then ShPanic "syntax"
     else Parsed (c, nulterminate c (txt ++ [0])) s) 0%nat.

(** ** Running a command *)

(** What a descriptor names: a file inherited from the shell, a file opened by
    a redirection, or an end of a pipe, named by its place in the command. *)
Inductive endpoint :=
| Inherited (k : nat)
| Opened (file : list Z) (mode : Z)
| ReadEnd (path : list bool)
| WriteEnd (path : list bool).

Definition fds := list (option endpoint).

(** A process: it exits, calls [exec], forks a child, or waits for one. *)
Inductive process :=
| Exit (status : Z)
| Exec (argv : list (list Z)) (t : fds)
| Fork (child parent : process)
| Wait (t : fds) (k : process).

(** The argument strings a command holds once they are terminated. *)
Inductive ast :=
| Simple (argv : list (list Z))
| Redirected (a : ast) (file : list Z) (mode fd : Z)
| Piped (l r : ast)
| Listed (l r : ast)
| Background (a : ast).

(** The C string at index [q] of the buffer. *)
Definition cstring (buf : list Z) (q : nat) : list Z := take (span (fun c => negb (c =? 0)) (drop q buf)) (drop q buf).

Fixpoint strings (buf : list Z) (c : cmd) : ast :=
  match c with
  | EXEC argv => Simple ((fun w => cstring buf w.1) <$> argv)
  | REDIR c' file mode fd => Redirected (strings buf c') (cstring buf file.1) mode fd
  | PIPE l r => Piped (strings buf l) (strings buf r)
  | LIST l r => Listed (strings buf l) (strings buf r)
  | BACK c' => Background (strings buf c')
  end.

Definition close (fd : nat) (t : fds) : fds := <[fd := None]> t.

(** The lowest free descriptor. *)
Fixpoint alloc (e : endpoint) (t : fds) : option (nat * fds) :=
  match t with
  | [] => None
  | None :: t' => Some (0%nat, Some e :: t')
  | Some x :: t' => match alloc e t' with Some (k, t'') => Some (S k, Some x :: t'') | None => None end
  end.

Definition dup (fd : nat) (t : fds) : fds :=
  match t !! fd with
  | Some (Some e) => match alloc e t with Some (_, t') => t' | None => t end
  | _ => t
  end.

Section Run.
Context (open_ok : list Z -> Z -> bool) (pipe_ok : list bool -> bool) (fork_ok : list bool -> bool -> bool).

(** [fork1]: the process whose fork fails panics. *)
Definition fork1 (path : list bool) (second : bool) (child parent : process) : process :=
  if fork_ok path second then Fork child parent else Exit 1.

Fixpoint runcmd (path : list bool) (c : ast) (t : fds) : process :=
  match c with
  | Simple [] => Exit 1
  | Simple argv => Exec argv t
  | Redirected c' file mode fd =>
      let t := close (Z.to_nat fd) t in
      if open_ok file mode then
        match alloc (Opened file mode) t with
        | Some (_, t') => runcmd (false :: path) c' t'
        | None => Exit 1
        end
      else Exit 1
  | Listed l r => fork1 path false (runcmd (false :: path) l t) (Wait t (runcmd (true :: path) r t))
  | Piped l r =>
      if pipe_ok path then
        match alloc (ReadEnd path) t with
        | Some (p0, t') =>
            match alloc (WriteEnd path) t' with
            | Some (p1, t'') =>
                fork1 path false (runcmd (false :: path) l (close p1 (close p0 (dup p1 (close 1 t'')))))
                  (fork1 path true (runcmd (true :: path) r (close p1 (close p0 (dup p0 (close 0 t'')))))
                     (let t3 := close p1 (close p0 t'') in Wait t3 (Wait t3 (Exit 0))))
            | None => Exit 1
            end
        | None => Exit 1
        end
      else Exit 1
  | Background c' => fork1 path false (runcmd (false :: path) c' t) (Exit 0)
  end.
End Run.
