(* ===== verification/ShParse.v ===== *)
(** * The shell parses its grammar

    [spells] relates a text to the tokens it is made of and [derives] is the
    grammar of commands over tokens, both independent of the code.  The
    theorem: [parsecmd] returns exactly the commands the grammar gives, with
    every argument and file name a terminated string of the final buffer, and
    otherwise panics; it always returns.

    [rem s ts]: the tokens [ts] are what is left of the text at position [s].
    Each parsing function has a lemma that a result consumes tokens of its
    grammar rule, with fuel enough ([*_sound]), and one that it accepts every
    derivation ([*_complete]). *)

From S2P Require Import Prelude Sh.
#[local] Open Scope sh_scope.

(** ** Texts and tokens *)

Inductive op := Bar | Lp | Rp | Semi | Amp | Lt | Gt | GtGt.
Inductive token := TWord (w : list Z) | TOp (o : op).

Definition op_text (o : op) : list Z :=
  match o with
  | Bar => [BAR] | Lp => [LPAR] | Rp => [RPAR] | Semi => [SEMI] | Amp => [AMP]
  | Lt => [LESS] | Gt => [MORE] | GtGt => [MORE; MORE]
  end.

Definition blank (c : Z) : Prop := chr whitespace c = true.
Definition word_char (c : Z) : bool := negb (chr whitespace c) && negb (chr symbols c).
Definition wordy (c : Z) : Prop := word_char c = true.

Inductive spells : list Z -> list token -> Prop :=
| spells_end l : Forall blank l -> spells l []
| spells_op pre o l ts :
    Forall blank pre -> (o = Gt -> head l <> Some MORE) -> spells l ts -> spells (pre ++ op_text o ++ l) (TOp o :: ts)
| spells_word pre w l ts :
    Forall blank pre -> w <> [] -> Forall wordy w -> (forall c, head l = Some c -> word_char c = false) ->
    spells l ts -> spells (pre ++ w ++ l) (TWord w :: ts).

(** ** The grammar *)

Inductive kind := RIn | ROut | RApp.
Definition kind_op (k : kind) : op := match k with RIn => Lt | ROut => Gt | RApp => GtGt end.
Definition kind_mode (k : kind) : Z :=
  match k with RIn => O_RDONLY | ROut => Z.lor (Z.lor O_WRONLY O_CREATE) O_TRUNC | RApp => Z.lor O_WRONLY O_CREATE end.
Definition kind_fd (k : kind) : Z := match k with RIn => 0 | _ => 1 end.

Definition redir := (kind * list Z)%type.
Definition redir_toks (r : redir) : list token := [TOp (kind_op r.1); TWord r.2].
Definition redirected (a : ast) (r : redir) : ast := Redirected a r.2 (kind_mode r.1) (kind_fd r.1).

(** A simple command is a sequence of words and redirections. *)
Inductive item := IWord (w : list Z) | IRedir (r : redir).
Definition item_toks (i : item) : list token := match i with IWord w => [TWord w] | IRedir r => redir_toks r end.
Definition words : list item -> list (list Z) := omap (fun i => match i with IWord w => Some w | IRedir _ => None end).
Definition redirs : list item -> list redir := omap (fun i => match i with IRedir r => Some r | IWord _ => None end).

Definition background (n : nat) (a : ast) : ast := Nat.iter n Background a.

Inductive nonterminal := Line | Pipeline | Command.

Inductive derives : nonterminal -> list token -> ast -> Prop :=
| d_line ts a n : derives Pipeline ts a -> derives Line (ts ++ replicate n (TOp Amp)) (background n a)
| d_list ts a n ts' a' : derives Pipeline ts a -> derives Line ts' a' ->
    derives Line (ts ++ replicate n (TOp Amp) ++ TOp Semi :: ts') (Listed (background n a) a')
| d_single ts a : derives Command ts a -> derives Pipeline ts a
| d_pipe ts a ts' a' : derives Command ts a -> derives Pipeline ts' a' ->
    derives Pipeline (ts ++ TOp Bar :: ts') (Piped a a')
| d_block ts a rs : derives Line ts a ->
    derives Command (TOp Lp :: ts ++ TOp Rp :: (rs ≫= redir_toks)) (foldl redirected a rs)
| d_simple its : (length (words its) < MAXARGS)%nat ->
    derives Command (its ≫= item_toks) (foldl redirected (Simple (words its)) (redirs its)).

(** ** Scanning *)

Lemma span_app (p : Z -> bool) pre l : Forall (fun c => p c = true) pre -> span p (pre ++ l) = (length pre + span p l)%nat.
Proof. induction 1 as [|c pre Hc _ IH]; [done|]. cbn. by rewrite Hc, IH. Qed.
Lemma span_stop (p : Z -> bool) l : (forall c, head l = Some c -> p c = false) -> span p l = 0%nat.
Proof. destruct l as [|c l]; [done|]. cbn. intros H. by rewrite (H c). Qed.
Lemma span_split (p : Z -> bool) l : exists pre l', l = pre ++ l' /\ Forall (fun c => p c = true) pre /\ (forall c, head l' = Some c -> p c = false).
Proof.
  induction l as [|c l (pre & l' & -> & Hp & Hl)]; [by exists [], []|].
  destruct (p c) eqn:Hc; [exists (c :: pre), l'; by rewrite Forall_cons|].
  exists [], (c :: pre ++ l'). split_and!; [done|done|]. cbn. by intros ? [= <-].
Qed.

Definition tok_char (t : token) : Z := match t with TOp o => hd 0 (op_text o) | TWord w => hd 0 w end.
Definition code (t : token) : Z := match t with TOp GtGt => PLUS | TOp o => hd 0 (op_text o) | TWord _ => WORD end.

Section Text.
Context (txt : list Z) (Hnul : 0 ∉ txt).

Definition rem (s : nat) (ts : list token) : Prop := (s <= length txt)%nat /\ spells (drop s txt) ts.

(** The text between the pointers [w] is the word [x]. *)
Definition word_at (w : nat * nat) (x : list Z) : Prop :=
  w.2 = (w.1 + length x)%nat /\ x <> [] /\ Forall wordy x /\
  exists l, drop w.1 txt = x ++ l /\ forall c, head l = Some c -> word_char c = false.

Lemma char_at_drop s : char_at txt s = hd 0 (drop s txt).
Proof. unfold char_at. revert s; induction txt as [|c t IH]; intros [|s]; cbn; try done. apply IH. set_solver. Qed.

Lemma drop_more s (pre l : list Z) : (s <= length txt)%nat -> drop s txt = pre ++ l ->
  drop (s + length pre) txt = l /\ (s + length pre <= length txt)%nat.
Proof.
  intros Hs Hd. rewrite <- drop_drop, Hd, drop_app_length. split; [done|].
  apply (f_equal length) in Hd. rewrite length_drop, length_app in Hd. lia.
Qed.

(** What follows the position once white space is skipped. *)
Definition tight (s : nat) (ts : list token) : Prop :=
  match ts with
  | [] => s = length txt
  | TOp o :: ts' => exists l, drop s txt = op_text o ++ l /\ (o = Gt -> head l <> Some MORE) /\ spells l ts'
  | TWord w :: ts' => exists l, drop s txt = w ++ l /\ w <> [] /\ Forall wordy w /\
      (forall c, head l = Some c -> word_char c = false) /\ spells l ts'
  end.

Lemma op_not_blank o c : head (op_text o) = Some c -> chr whitespace c = false.
Proof. by destruct o; intros [= <-]. Qed.
Lemma word_not_blank c : wordy c -> chr whitespace c = false.
Proof. unfold wordy, word_char. by destruct (chr whitespace c). Qed.

Lemma skip_spec s ts : rem s ts ->
  (s <= skip txt (chr whitespace) s <= length txt)%nat /\ tight (skip txt (chr whitespace) s) ts.
Proof.
  intros [Hs Hsp]. unfold skip. inversion Hsp as [l Hl Hd|pre o l ts' Hpre Hgt Hl Hd|pre w l ts' Hpre Hw Hc Hstop Hl Hd]; subst.
  - pose proof (span_app _ _ [] Hl) as Hn. rewrite app_nil_r in Hn. rewrite Hn, length_drop. cbn. lia.
  - symmetry in Hd. destruct (drop_more _ _ _ Hs Hd) as [Hd' Hle]. rewrite span_app, span_stop, Nat.add_0_r by
      (done || (intros c Hc; apply (op_not_blank o); by destruct o)). split; [lia|]. by exists l.
  - symmetry in Hd. destruct (drop_more _ _ _ Hs Hd) as [Hd' Hle]. destruct w as [|x w]; [done|].
    rewrite span_app, span_stop, Nat.add_0_r by (done || (intros c [= <-]; apply word_not_blank; by inversion Hc)).
    split; [lia|]. by exists l.
Qed.

Lemma tight_rem s ts : (s <= length txt)%nat -> tight s ts -> rem s ts.
Proof.
  intros Hs Ht. split; [done|]. destruct ts as [|[w|o] ts]; cbn in Ht.
  - subst s. rewrite drop_all. by constructor.
  - destruct Ht as (l & -> & ? & ? & ? & ?). by apply (spells_word []).
  - destruct Ht as (l & -> & ? & ?). by apply (spells_op []).
Qed.

Lemma rem_skip s ts : rem s ts -> rem (skip txt (chr whitespace) s) ts /\ (s <= skip txt (chr whitespace) s)%nat.
Proof. intros H. destruct (skip_spec _ _ H) as [[H1 H2] H3]. split; [by apply tight_rem|done]. Qed.

Lemma in_drop c s : c ∈ drop s txt -> c <> 0.
Proof. intros Hc ->. apply Hnul. rewrite <- (take_drop s txt). set_solver. Qed.

Lemma tight_char s ts : tight s ts -> char_at txt s = match ts with [] => 0 | t :: _ => tok_char t end.
Proof.
  rewrite char_at_drop. destruct ts as [|[w|o] ts]; cbn; [by intros ->; rewrite drop_all| |].
  - intros (l & -> & Hw & _). by destruct w.
  - intros (l & -> & _). by destruct o.
Qed.

Lemma tight_nonzero s t ts : tight s (t :: ts) -> tok_char t <> 0.
Proof.
  destruct t as [w|o]; cbn; [|by destruct o].
  intros (l & Hd & Hw & _). destruct w as [|c w]; [done|]. apply (in_drop c s). rewrite Hd. set_solver.
Qed.

(** The first token starts with one of [toks]. *)
Definition sees (toks : list Z) (ts : list token) : bool := match ts with [] => false | t :: _ => chr toks (tok_char t) end.

Lemma peek_step {B} toks (k : bool -> parser B) s ts : rem s ts ->
  exists s', pbind (peek txt toks) k s = k (sees toks ts) s' /\ rem s' ts /\ (s <= s')%nat.
Proof.
  intros H. destruct (skip_spec _ _ H) as [_ Ht]. exists (skip txt (chr whitespace) s). split; [|by apply rem_skip].
  unfold pbind, peek. rewrite (tight_char _ _ Ht). destruct ts as [|t ts]; [done|]. cbn [sees].
  by rewrite (proj2 (Z.eqb_neq _ _) (tight_nonzero _ _ _ Ht)).
Qed.

Definition names (w : nat * nat) (t : token) : Prop := match t with TWord x => word_at w x | TOp _ => True end.

Lemma get_end {B} (k : Z * (nat * nat) -> parser B) s : rem s [] ->
  exists w s', pbind (get txt) k s = k (0, w) s' /\ rem s' [] /\ (s <= s')%nat.
Proof.
  intros H. destruct (skip_spec _ _ H) as [_ Ht]. destruct (rem_skip _ _ H) as [Hr Hle]. destruct (rem_skip _ _ Hr) as [Hr' Hle'].
  unfold pbind, get, gettoken. rewrite (tight_char _ _ Ht). cbn [Z.eqb].
  eexists _, _. split; [reflexivity|]. split; [done|lia].
Qed.

Lemma get_step {B} (k : Z * (nat * nat) -> parser B) s t ts : rem s (t :: ts) ->
  exists w s', pbind (get txt) k s = k (code t, w) s' /\ rem s' ts /\ (s < s')%nat /\ names w t.
Proof.
  intros H. destruct (skip_spec _ _ H) as [[Hle Hlen] Ht]. set (q := skip txt (chr whitespace) s) in *.
  assert (Hend : forall e l, drop e txt = l -> (q < e <= length txt)%nat -> spells l ts -> rem e ts) by (intros e l <- He Hl; split; [lia|done]).
  assert (Hgo : forall e, rem e ts -> (q < e)%nat -> names (q, e) t -> gettoken txt s = (code t, q, e, skip txt (chr whitespace) e) ->
    exists w s', pbind (get txt) k s = k (code t, w) s' /\ rem s' ts /\ (s < s')%nat /\ names w t).
  { intros e He Hqe Hn Hg. exists (q, e), (skip txt (chr whitespace) e). destruct (rem_skip _ _ He). unfold pbind, get. rewrite Hg. split_and!; [done|done|lia|done]. }
  pose proof (tight_nonzero _ _ _ Ht) as Hnz. pose proof (tight_char _ _ Ht) as Hch. apply Z.eqb_neq in Hnz.
  destruct t as [w|o]; cbn [tight] in Ht.
  - destruct Ht as (l & Hd & Hw & Hwc & Hstop & Hl). destruct (drop_more _ _ _ Hlen Hd) as [Hd' Hle'].
    assert (Hwl : (0 < length w)%nat) by (destruct w; [done|cbn; lia]).
    apply (Hgo (q + length w)%nat); [by apply (Hend _ l); [|lia|]|lia| |].
    + cbn. split_and!; [done|done|done|by exists l].
    + unfold gettoken. fold q. rewrite Hch. cbn [tok_char] in Hnz |- *. destruct w as [|c w]; [done|]. cbn [hd] in Hnz |- *. rewrite Hnz.
      assert (Hc : wordy c) by (by inversion Hwc). unfold wordy, word_char in Hc. apply andb_true_iff in Hc as [_ Hc]. apply negb_true_iff in Hc.
      unfold chr in Hc. apply bool_decide_eq_false in Hc. unfold chr. rewrite bool_decide_eq_false_2 by (intros Hin; apply Hc; unfold symbols; set_solver).
      destruct (Z.eqb_spec c MORE) as [->|_]; [exfalso; apply Hc; unfold symbols; set_solver|]. cbn [code].
      replace (skip txt _ q) with (q + length (c :: w))%nat; [done|]. unfold skip. rewrite Hd, span_app, span_stop by done. lia.
  - destruct Ht as (l & Hd & Hgt & Hl). destruct (drop_more _ _ _ Hlen Hd) as [Hd' Hle'].
    assert (Hol : (0 < length (op_text o))%nat) by (destruct o; cbn; lia).
    apply (Hgo (q + length (op_text o))%nat); [by apply (Hend _ l); [|lia|]|lia|done|].
    unfold gettoken. fold q. rewrite Hch. cbn [tok_char] in Hnz |- *. rewrite Hnz.
    assert (Hnext : forall x l', drop q txt = x :: l' -> char_at txt (S q) = hd 0 l') by (intros x l' Hx; rewrite char_at_drop, <- Nat.add_1_r, <- drop_drop, Hx; done).
    destruct o; cbn [op_text hd length code] in *; try (rewrite Nat.add_1_r; reflexivity); rewrite (Hnext _ _ Hd).
    + change (chr [BAR; LPAR; RPAR; SEMI; AMP; LESS] MORE) with false. destruct l as [|c l]; [rewrite Nat.add_1_r; reflexivity|]. cbn [hd].
      destruct (Z.eqb_spec c MORE) as [->|_]; [by destruct (Hgt eq_refl)|rewrite Nat.add_1_r; reflexivity].
    + change (chr [BAR; LPAR; RPAR; SEMI; AMP; LESS] MORE) with false. replace (q + 2)%nat with (S (S q)) by lia; reflexivity.
Qed.

(** Every text without NULs has a spelling. *)
Lemma spells_total n : forall l, (length l <= n)%nat -> exists ts, spells l ts.
Proof.
  induction n as [|n IH]; intros l Hn; [destruct l; [|cbn in Hn; lia]; exists []; by constructor|].
  destruct (span_split (chr whitespace) l) as (pre & l' & -> & Hpre & Hstop). rewrite length_app in Hn.
  destruct l' as [|c l']; [exists []; rewrite app_nil_r; by constructor|]. cbn in Hn. specialize (Hstop c eq_refl).
  assert (Hop : forall o l1, c :: l' = op_text o ++ l1 -> (o = Gt -> head l1 <> Some MORE) -> exists ts, spells (pre ++ c :: l') ts).
  { intros o l1 He Hgt. rewrite He. destruct (IH l1) as [ts Hts]; [apply (f_equal length) in He; rewrite length_app in He; destruct o; cbn in He; lia|].
    exists (TOp o :: ts). by constructor. }
  destruct (chr symbols c) eqn:Hsym.
  - unfold chr in Hsym. apply bool_decide_eq_true in Hsym. unfold symbols in Hsym.
    rewrite !elem_of_cons, elem_of_nil in Hsym. destruct Hsym as [->|[->|[->|[->|[->|[->|[->|[]]]]]]]].
    + by apply (Hop Lt l').
    + by apply (Hop Bar l').
    + destruct l' as [|x l']; [by apply (Hop Gt [])|]. destruct (decide (x = MORE)) as [->|Hx]; [by apply (Hop GtGt l')|].
      apply (Hop Gt (x :: l')); [done|]. cbn. congruence.
    + by apply (Hop Amp l').
    + by apply (Hop Semi l').
    + by apply (Hop Lp l').
    + by apply (Hop Rp l').
  - destruct (span_split word_char (c :: l')) as (w & l1 & He & Hw & Hstop').
    assert (Hne : w <> []) by (intros ->; cbn in He; subst l1; specialize (Hstop' c eq_refl); unfold word_char in Hstop'; by rewrite Hstop, Hsym in Hstop').
    destruct (IH l1) as [ts Hts]; [apply (f_equal length) in He; rewrite length_app in He; destruct w; [done|cbn in He; lia]|].
    exists (TWord w :: ts). rewrite He. by constructor.
Qed.

Lemma rem_exists s : (s <= length txt)%nat -> exists ts, rem s ts.
Proof. intros Hs. destruct (spells_total _ (drop s txt) (Nat.le_refl _)) as [ts Hts]. by exists ts. Qed.

(** ** What a parsed command denotes *)

Inductive denotes : cmd -> ast -> Prop :=
| den_exec argv ws : Forall2 word_at argv ws -> denotes (EXEC argv) (Simple ws)
| den_redir c a f x mode fd : denotes c a -> word_at f x -> denotes (REDIR c f mode fd) (Redirected a x mode fd)
| den_pipe l r a b : denotes l a -> denotes r b -> denotes (PIPE l r) (Piped a b)
| den_list l r a b : denotes l a -> denotes r b -> denotes (LIST l r) (Listed a b)
| den_back c a : denotes c a -> denotes (BACK c) (Background a).

(** Redirections around a command, as the parser builds them. *)
Definition wraps (fs : list (kind * (nat * nat))) (c : cmd) : cmd :=
  foldl (fun c x => REDIR c x.2 (kind_mode x.1) (kind_fd x.1)) c fs.
Definition rmatch (x : kind * (nat * nat)) (r : redir) : Prop := x.1 = r.1 /\ word_at x.2 r.2.

Lemma denotes_wraps fs rs c a : Forall2 rmatch fs rs -> denotes c a -> denotes (wraps fs c) (foldl redirected a rs).
Proof.
  intros H. revert c a. induction H as [|x r fs rs [Hk Hw] _ IH]; intros c a Hc; [done|]. cbn. apply IH.
  unfold redirected. rewrite Hk. by constructor.
Qed.
Lemma set_argv_wraps fs av av' : set_argv av (wraps fs (EXEC av')) = wraps fs (EXEC av).
Proof.
  assert (H : forall c c', set_argv av c = c' -> set_argv av (wraps fs c) = wraps fs c'); [|by apply H].
  induction fs as [|x fs IH]; intros c c' Hc; [done|]. cbn. apply IH. cbn. by rewrite Hc.
Qed.
Lemma denotes_back n : forall c a, denotes c a -> denotes (Nat.iter n BACK c) (background n a).
Proof. induction n as [|n IH]; intros c a H; [done|]. apply den_back, IH, H. Qed.

(** What [peek] sees among the symbols. *)
Definition sees_op (toks : list Z) (ts : list token) : bool := match ts with TOp o :: _ => chr toks (hd 0 (op_text o)) | _ => false end.

Lemma peek_op {B} toks (k : bool -> parser B) s ts : (forall c, c ∈ toks -> c ∈ symbols) -> rem s ts ->
  exists s', pbind (peek txt toks) k s = k (sees_op toks ts) s' /\ rem s' ts /\ (s <= s')%nat.
Proof.
  intros Ht H. destruct (peek_step toks k s ts H) as (s' & Hp & Hr & Hle). exists s'. split; [|done]. rewrite Hp. f_equal.
  destruct ts as [|[w|o] ts]; [done| |done]. cbn. destruct (skip_spec _ _ H) as [_ (l & _ & Hw & Hwc & _)]. destruct w as [|c w]; [done|].
  inversion Hwc as [|? ? Hc _]; subst. unfold wordy, word_char in Hc. apply andb_true_iff in Hc as [_ Hc]. apply negb_true_iff, bool_decide_eq_false in Hc.
  apply bool_decide_eq_false. auto.
Qed.

Lemma sees_redir ts : sees_op [LESS; MORE] ts = true -> exists k ts', ts = TOp (kind_op k) :: ts'.
Proof. destruct ts as [|[|[]] ts]; try done; intros _; [by exists RIn, ts|by exists ROut, ts|by exists RApp, ts]. Qed.
Lemma sees_one o c ts : op_text o = [c] -> c <> MORE -> sees_op [c] ts = true -> exists ts', ts = TOp o :: ts'.
Proof.
  destruct ts as [|[|o'] ts]; try done. cbn. intros Ho Hc H. apply bool_decide_eq_true, list_elem_of_singleton in H.
  exists ts. do 2 f_equal. by destruct o, o'; cbn in Ho, H; injection Ho as <-.
Qed.
Lemma redirect_kind k c f : redirect (code (TOp (kind_op k))) c f = REDIR c f (kind_mode k) (kind_fd k).
Proof. by destruct k. Qed.

Ltac in_symbols := intros ? ?; unfold symbols; set_solver.
(** Runs the next [peek] or [get] of the goal, at a position with tokens [H]. *)
Ltac run_peek H H' := match goal with |- context [pbind (peek txt ?t) ?k ?s] =>
  let s' := fresh "s" in let E := fresh in let L := fresh "L" in
  destruct (peek_op t k s _ ltac:(in_symbols) H) as (s' & E & H' & L); rewrite E; clear E; cbv beta iota end.
Ltac run_get H w H' := match goal with |- context [pbind (get txt) ?k ?s] =>
  let s' := fresh "s" in let E := fresh in let L := fresh "L" in let N := fresh "N" in
  destruct (get_step k s _ _ H) as (w & s' & E & H' & L & N); rewrite E; clear E; cbv beta iota end.

(** ** Soundness, with fuel enough *)

Lemma parseredirs_sound : forall fuel c s ts, rem s ts -> (length txt - s < fuel)%nat ->
  match parseredirs txt fuel c s with
  | Parsed c' s' => exists fs rs ts', c' = wraps fs c /\ Forall2 rmatch fs rs /\ ts = (rs ≫= redir_toks) ++ ts' /\ rem s' ts' /\ (s <= s')%nat
  | ShPanic _ => True
  | OutOfFuel => False
  end.
Proof.
  induction fuel as [|fuel IH]; intros c s ts H Hf; [lia|]. cbn [parseredirs]. run_peek H H1.
  destruct (sees_op _ ts) eqn:Hs; [|by exists [], [], ts].
  apply sees_redir in Hs as (k & ts1 & ->). run_get H1 w0 H2.
  destruct ts1 as [|[x|o] ts1].
  - destruct (get_end (fun '(w, file) => if negb (w =? WORD) then ppanic "missing file for redirection" else parseredirs txt fuel (redirect (code (TOp (kind_op k))) c file)) _ H2) as (w & s2 & E & _). by rewrite E.
  - run_get H2 w H3. change (code (TWord x) =? WORD) with true. cbn [negb]. rewrite redirect_kind.
    specialize (IH (REDIR c w (kind_mode k) (kind_fd k)) _ _ H3 ltac:(destruct H3; lia)). destruct (parseredirs _ _ _ _) as [c' s'| |]; [|done|done].
    destruct IH as (fs & rs & ts' & -> & Hfs & -> & Hr & Hle).
    exists ((k, w) :: fs), ((k, x) :: rs), ts'. split_and!; [done| |done|done|lia]. by constructor.
  - run_get H2 w H3. by destruct o.
Qed.

Lemma words_app l l' : words (l ++ l') = words l ++ words l'.
Proof. apply omap_app. Qed.
Lemma redirs_app l l' : redirs (l ++ l') = redirs l ++ redirs l'.
Proof. apply omap_app. Qed.
Lemma words_redirs rs : words (IRedir <$> rs) = [] /\ redirs (IRedir <$> rs) = rs /\ (IRedir <$> rs) ≫= item_toks = rs ≫= redir_toks.
Proof. induction rs as [|r rs (H1 & H2 & H3)]; [done|]. cbn. unfold words, redirs in *. cbn in *. split_and!; [done|by rewrite H2|by rewrite H3]. Qed.

Lemma parseargs_sound : forall fuel argv fs s ts, rem s ts -> (length txt - s < fuel)%nat -> (length argv < MAXARGS)%nat ->
  match parseargs txt fuel (loops txt) argv (wraps fs (EXEC argv)) s with
  | Parsed c' s' => exists its av fs' ts', c' = wraps (fs ++ fs') (EXEC (argv ++ av)) /\ Forall2 word_at av (words its) /\
      Forall2 rmatch fs' (redirs its) /\ (length (argv ++ av) < MAXARGS)%nat /\ ts = (its ≫= item_toks) ++ ts' /\ rem s' ts' /\ (s <= s')%nat
  | ShPanic _ => True
  | OutOfFuel => False
  end.
Proof.
  induction fuel as [|fuel IH]; intros argv fs s ts H Hf Ha; [lia|]. cbn [parseargs]. run_peek H H1.
  assert (Hret : forall s', rem s' ts -> (s <= s')%nat -> exists its av fs' ts', set_argv argv (wraps fs (EXEC argv)) = wraps (fs ++ fs') (EXEC (argv ++ av)) /\
    Forall2 word_at av (words its) /\ Forall2 rmatch fs' (redirs its) /\ (length (argv ++ av) < MAXARGS)%nat /\ ts = (its ≫= item_toks) ++ ts' /\ rem s' ts' /\ (s <= s')%nat).
  { intros s' Hr Hle. exists [], [], [], ts. rewrite !app_nil_r, set_argv_wraps. by split_and!. }
  destruct (sees_op _ ts) eqn:Hs; [by apply Hret|].
  destruct ts as [|[x|o] ts].
  - match goal with |- context [pbind (get txt) ?k _] => destruct (get_end k _ H1) as (w & s2 & E & Hr & Hle) end. rewrite E. apply Hret; [done|lia].
  - run_get H1 w H2. change (code (TWord x) =? 0) with false. change (code (TWord x) =? WORD) with true. cbn [negb].
    destruct (Nat.leb_spec MAXARGS (length (argv ++ [w]))) as [|Hlt]; [done|]. rewrite set_argv_wraps. unfold pbind at 1.
    pose proof (parseredirs_sound (loops txt) (wraps fs (EXEC (argv ++ [w]))) _ _ H2 ltac:(unfold loops; lia)) as Hrd.
    destruct (parseredirs txt _ _ _) as [c1 s2| |]; [|done|done]. destruct Hrd as (fs1 & rs & ts1 & -> & Hfs1 & -> & H3 & Hle3).
    assert (Hw : wraps fs1 (wraps fs (EXEC (argv ++ [w]))) = wraps (fs ++ fs1) (EXEC (argv ++ [w]))) by (unfold wraps; by rewrite foldl_app).
    rewrite Hw. specialize (IH (argv ++ [w]) (fs ++ fs1) _ _ H3 ltac:(destruct H3; lia) Hlt).
    destruct (parseargs _ _ _ _ _ _) as [c' s'| |]; [|done|done]. destruct IH as (its & av & fs' & ts' & -> & Hav & Hfs' & Hlen & -> & Hr & Hle).
    exists (IWord x :: (IRedir <$> rs) ++ its), (w :: av), (fs1 ++ fs'), ts'. destruct (words_redirs rs) as (W1 & W2 & W3).
    change (words (IWord x :: ?l)) with (x :: words l). change (redirs (IWord x :: ?l)) with (redirs l). rewrite words_app, redirs_app, W1, W2.
    rewrite <- app_assoc in Hlen. split_and!; [by rewrite <- !app_assoc|by constructor|by apply Forall2_app|done| |done|lia].
    rewrite bind_cons, bind_app, W3. cbn [item_toks app]. by rewrite <- app_assoc.
  - run_get H1 w H2. by destruct o.
Qed.

(** The parser [p] of a nonterminal, on a text of less than [n] characters. *)
Definition sound (nt : nonterminal) (p : parser cmd) (n : nat) : Prop := forall s ts, rem s ts -> (length txt - s < n)%nat ->
  match p s with
  | Parsed c s' => exists used ts' a, ts = used ++ ts' /\ rem s' ts' /\ (s <= s')%nat /\ derives nt used a /\ denotes c a
  | ShPanic _ => True
  | OutOfFuel => False
  end.

Lemma parseblock_sound line n : sound Line line n -> sound Command (parseblock txt line) (S n).
Proof.
  intros Hline s ts H Hf. unfold parseblock. run_peek H H1. destruct (sees_op _ ts) eqn:Hs; [|done]. cbn [negb].
  apply (sees_one Lp) in Hs as [ts1 ->]; [|done|done]. run_get H1 w H2. unfold pbind at 1.
  specialize (Hline _ _ H2 ltac:(destruct H2; lia)). destruct (line _) as [c s2| |]; [|done|done].
  destruct Hline as (used & ts2 & a & -> & H3 & Hle & Hd & Hden). run_peek H3 H4.
  destruct (sees_op _ ts2) eqn:Hs2; [|done]. cbn [negb]. apply (sees_one Rp) in Hs2 as [ts3 ->]; [|done|done]. run_get H4 w' H5.
  match goal with |- context [parseredirs txt _ _ ?s] => pose proof (parseredirs_sound (loops txt) c s _ H5 ltac:(unfold loops; lia)) as Hrd end.
  destruct (parseredirs _ _ _ _) as [c1 s5| |]; [|done|done]. destruct Hrd as (fs & rs & ts' & -> & Hfs & -> & H6 & Hle6).
  exists (TOp Lp :: used ++ TOp Rp :: (rs ≫= redir_toks)), ts', (foldl redirected a rs).
  split_and!; [by rewrite <- !app_comm_cons, <- app_assoc, <- app_comm_cons|done|lia|by constructor|by apply denotes_wraps].
Qed.

Lemma parseexec_sound line n : sound Line line n -> sound Command (parseexec txt line) (S n).
Proof.
  intros Hline s ts H Hf. unfold parseexec. run_peek H H1. destruct (sees_op _ ts).
  - pose proof (parseblock_sound _ _ Hline _ _ H1 ltac:(lia)) as Hb. destruct (parseblock _ _ _) as [c s'| |]; [|done|done].
    destruct Hb as (used & ts' & a & ? & ? & ? & ? & ?). exists used, ts', a. split_and!; try done. lia.
  - unfold pbind at 1. pose proof (parseredirs_sound (loops txt) (EXEC []) _ _ H1 ltac:(unfold loops; lia)) as Hrd.
    destruct (parseredirs _ _ _ _) as [c1 s1| |]; [|done|done]. destruct Hrd as (fs & rs & ts' & -> & Hfs & -> & H2 & Hle).
    pose proof (parseargs_sound (loops txt) [] fs _ _ H2 ltac:(unfold loops; lia) ltac:(unfold MAXARGS; cbn; lia)) as Hpa.
    destruct (parseargs _ _ _ _ _ _) as [c s'| |]; [|done|done]. destruct Hpa as (its & av & fs' & ts2 & -> & Hav & Hfs' & Hlen & -> & Hr & Hle').
    destruct (words_redirs rs) as (W1 & W2 & W3). cbn [app] in Hlen |- *. rewrite (Forall2_length _ _ _ Hav) in Hlen.
    exists (((IRedir <$> rs) ++ its) ≫= item_toks), ts2, (foldl redirected (Simple (words ((IRedir <$> rs) ++ its))) (redirs ((IRedir <$> rs) ++ its))).
    split_and!; [by rewrite bind_app, W3, <- app_assoc|done|lia|constructor; by rewrite words_app, W1|].
    rewrite words_app, redirs_app, W1, W2. apply denotes_wraps; [by apply Forall2_app|by constructor].
Qed.

Lemma parsepipe_sound line n : sound Line line n -> forall fuel, sound Pipeline (parsepipe txt fuel line) (Nat.min fuel (S n)).
Proof.
  intros Hline. induction fuel as [|fuel IH]; intros s ts H Hf; [lia|]. cbn [parsepipe]. unfold pbind at 1.
  pose proof (parseexec_sound _ _ Hline _ _ H ltac:(lia)) as He. destruct (parseexec _ _ _) as [c s1| |]; [|done|done].
  destruct He as (used & ts1 & a & -> & H1 & Hle & Hd & Hden). run_peek H1 H2. destruct (sees_op _ ts1) eqn:Hs.
  - apply (sees_one Bar) in Hs as [ts2 ->]; [|done|done]. run_get H2 w H3. unfold pbind.
    specialize (IH _ _ H3 ltac:(destruct H3; lia)). destruct (parsepipe _ _ _ _) as [r s3| |]; [|done|done].
    destruct IH as (used' & ts' & a' & -> & H4 & Hle4 & Hd' & Hden').
    exists (used ++ TOp Bar :: used'), ts', (Piped a a'). split_and!; [by rewrite <- app_assoc|done|lia|by constructor|by constructor].
  - exists used, ts1, a. split_and!; try done; [lia|by constructor].
Qed.

Lemma parseback_sound : forall fuel c s ts, rem s ts -> (length txt - s < fuel)%nat ->
  match parseback txt fuel c s with
  | Parsed c' s' => exists n ts', c' = Nat.iter n BACK c /\ ts = replicate n (TOp Amp) ++ ts' /\ rem s' ts' /\ (s <= s')%nat
  | ShPanic _ => False
  | OutOfFuel => False
  end.
Proof.
  induction fuel as [|fuel IH]; intros c s ts H Hf; [lia|]. cbn [parseback]. run_peek H H1.
  destruct (sees_op _ ts) eqn:Hs; [|by exists 0%nat, ts]. apply (sees_one Amp) in Hs as [ts1 ->]; [|done|done]. run_get H1 w H2.
  specialize (IH (BACK c) _ _ H2 ltac:(destruct H2; lia)). destruct (parseback _ _ _ _) as [c' s'| |]; [|done|done].
  destruct IH as (n & ts' & -> & -> & Hr & Hle). exists (S n), ts'. split_and!; [by rewrite Nat.iter_succ_r|done|done|lia].
Qed.

Lemma parseline_sound : forall fuel, sound Line (parseline txt fuel) fuel.
Proof.
  induction fuel as [|fuel IH]; intros s ts H Hf; [lia|]. cbn [parseline]. unfold pbind at 1.
  pose proof (parsepipe_sound _ _ IH (loops txt) s ts H ltac:(unfold loops; lia)) as Hp. destruct (parsepipe _ _ _ _) as [c s1| |]; [|done|done].
  destruct Hp as (used & ts1 & a & -> & H1 & Hle & Hd & Hden). unfold pbind at 1.
  pose proof (parseback_sound (loops txt) c _ _ H1 ltac:(unfold loops; lia)) as Hb. destruct (parseback _ _ _ _) as [c2 s2| |]; [|done|done].
  destruct Hb as (n & ts2 & -> & -> & H2 & Hle2). run_peek H2 H3. destruct (sees_op _ ts2) eqn:Hs.
  - apply (sees_one Semi) in Hs as [ts3 ->]; [|done|done]. run_get H3 w H4. unfold pbind.
    specialize (IH _ _ H4 ltac:(destruct H4; lia)). destruct (parseline _ _ _) as [r s5| |]; [|done|done].
    destruct IH as (used' & ts' & a' & -> & H5 & Hle5 & Hd' & Hden').
    exists (used ++ replicate n (TOp Amp) ++ TOp Semi :: used'), ts', (Listed (background n a) a').
    split_and!; [by rewrite <- !app_assoc|done|lia|by constructor|]. constructor; [by apply denotes_back|done].
  - exists (used ++ replicate n (TOp Amp)), ts2, (background n a). split_and!; [by rewrite <- app_assoc|done|lia|by constructor|by apply denotes_back].
Qed.

(** ** Completeness *)

Lemma parseredirs_complete : forall rs fuel c s rest, rem s ((rs ≫= redir_toks) ++ rest) -> sees_op [LESS; MORE] rest = false ->
  (length txt - s < fuel)%nat ->
  exists fs s', parseredirs txt fuel c s = Parsed (wraps fs c) s' /\ rem s' rest /\ (s <= s')%nat /\ Forall2 rmatch fs rs.
Proof.
  induction rs as [|[k x] rs IH]; intros fuel c s rest H Hrest Hf; (destruct fuel as [|fuel]; [lia|]); cbn [parseredirs].
  - cbn in H. run_peek H H1. rewrite Hrest. eexists [], _. split; [reflexivity|]. split_and!; [done|lia|constructor].
  - rewrite bind_cons, <- app_assoc in H. cbn [redir_toks fst snd app] in H. run_peek H H1. assert (Hk : forall ts, sees_op [LESS; MORE] (TOp (kind_op k) :: ts) = true) by (by destruct k).
    rewrite Hk. run_get H1 w0 H2. run_get H2 w H3. change (code (TWord x) =? WORD) with true. cbn [negb]. rewrite redirect_kind.
    destruct (IH fuel (REDIR c w (kind_mode k) (kind_fd k)) _ _ H3 Hrest ltac:(destruct H3; lia)) as (fs & s' & He & Hr & Hle & Hfs).
    exists ((k, w) :: fs), s'. split_and!; [done|done|lia|]. by constructor.
Qed.

(** What may follow a nonterminal. *)
Definition follow (nt : nonterminal) (ts : list token) : Prop :=
  match ts with
  | [] => True
  | TOp Rp :: _ => True
  | TOp Semi :: _ | TOp Amp :: _ => nt <> Line
  | TOp Bar :: _ => nt = Command
  | _ => False
  end.

Lemma follow_weaken nt ts : follow nt ts -> follow Command ts.
Proof. destruct ts as [|[|[]] ts]; done. Qed.
Lemma follow_pipeline ts : follow Line ts -> follow Pipeline ts.
Proof. destruct ts as [|[|[]] ts]; done. Qed.
Lemma follow_lpar nt ts : follow nt ts -> sees_op [LPAR] ts = false.
Proof. by destruct ts as [|[|[]] ts]. Qed.
Lemma follow_bar ts : follow Pipeline ts -> sees_op [BAR] ts = false.
Proof. by destruct ts as [|[|[]] ts]. Qed.
Lemma follow_line ts : follow Line ts -> sees_op [AMP] ts = false /\ sees_op [SEMI] ts = false.
Proof. by destruct ts as [|[|[]] ts]. Qed.
Lemma follow_redir nt ts : follow nt ts -> sees_op [LESS; MORE] ts = false.
Proof. by destruct ts as [|[|[]] ts]. Qed.
Lemma follow_args ts : follow Command ts -> ts = [] \/ sees_op [BAR; RPAR; AMP; SEMI] ts = true.
Proof. destruct ts as [|[|[]] ts]; try done; auto. Qed.

(** A simple command starts with redirections. *)
Lemma split_items its : exists rs its', its = (IRedir <$> rs) ++ its' /\ (length its' <= length its)%nat /\ match its' with IRedir _ :: _ => False | _ => True end.
Proof.
  induction its as [|[w|r] its (rs & its' & He & Hle & Hh)]; [by exists [], []|by exists [], (IWord w :: its)|].
  exists (r :: rs), its'. split_and!; [by rewrite He|cbn; lia|done].
Qed.

Lemma items_sees its rest : follow Command rest -> match its with IRedir _ :: _ => False | _ => True end ->
  sees_op [LESS; MORE] ((its ≫= item_toks) ++ rest) = false.
Proof. destruct its as [|[|] its]; intros; [by eapply follow_redir|done|done]. Qed.

Lemma parseargs_end fuel argv fs s rest : rem s rest -> follow Command rest -> (0 < fuel)%nat ->
  exists s', parseargs txt fuel (loops txt) argv (wraps fs (EXEC argv)) s = Parsed (wraps fs (EXEC argv)) s' /\ rem s' rest /\ (s <= s')%nat.
Proof.
  intros H Hfol Hf. destruct fuel as [|fuel]; [lia|]. cbn [parseargs]. run_peek H H1. rewrite set_argv_wraps.
  destruct (follow_args rest Hfol) as [->|Hs]; [|rewrite Hs; by eexists].
  cbn [sees_op]. match goal with |- context [pbind (get txt) ?k _] => destruct (get_end k _ H1) as (w & s2 & E & Hr & Hle) end.
  rewrite E. exists s2. split_and!; [done|done|lia].
Qed.

Lemma parseargs_complete : forall n its, (length its <= n)%nat -> forall fuel argv fs s rest, rem s ((its ≫= item_toks) ++ rest) -> follow Command rest ->
  match its with IRedir _ :: _ => False | _ => True end -> (length txt - s < fuel)%nat -> (length argv + length (words its) < MAXARGS)%nat ->
  exists av fs' s', parseargs txt fuel (loops txt) argv (wraps fs (EXEC argv)) s = Parsed (wraps (fs ++ fs') (EXEC (argv ++ av))) s' /\
    rem s' rest /\ (s <= s')%nat /\ Forall2 word_at av (words its) /\ Forall2 rmatch fs' (redirs its).
Proof.
  induction n as [|n IH]; intros [|[x|r] its] Hn fuel argv fs s rest H Hfol Hh Hf Hlen; try done; try (cbn in Hn; lia).
  all: try (destruct (parseargs_end fuel argv fs s rest H Hfol ltac:(lia)) as (s' & -> & Hr & Hle); exists [], [], s'; rewrite !app_nil_r; by split_and!).
  destruct fuel as [|fuel]; [lia|]. cbn [parseargs]. cbn [length] in Hn.
  rewrite bind_cons in H. cbn [item_toks app] in H. run_peek H H1. cbn [sees_op]. run_get H1 w H2.
  change (code (TWord x) =? 0) with false. change (code (TWord x) =? WORD) with true. cbn [negb].
  change (words (IWord x :: its)) with (x :: words its) in Hlen |- *. change (redirs (IWord x :: its)) with (redirs its). cbn [length] in Hlen.
  destruct (Nat.leb_spec MAXARGS (length (argv ++ [w]))) as [Hge|Hlt]; [rewrite length_app in Hge; cbn in Hge; lia|]. rewrite set_argv_wraps.
  destruct (split_items its) as (rs & its' & -> & Hle & Hh'). destruct (words_redirs rs) as (W1 & W2 & W3). rewrite words_app, redirs_app, W1, W2 in *.
  rewrite bind_app, W3, <- app_assoc in H2.
  match goal with |- context [pbind (parseredirs txt _ ?c) _ ?s] => destruct (parseredirs_complete rs (loops txt) c s _ H2 (items_sees _ _ Hfol Hh') ltac:(unfold loops; lia)) as (fs1 & s2 & E & H3 & Hle3 & Hfs1) end.
  unfold pbind at 1. rewrite E. assert (Hw : wraps fs1 (wraps fs (EXEC (argv ++ [w]))) = wraps (fs ++ fs1) (EXEC (argv ++ [w]))) by (unfold wraps; by rewrite foldl_app).
  rewrite Hw. cbn [app] in Hlen. destruct (IH its' ltac:(lia) fuel (argv ++ [w]) (fs ++ fs1) _ _ H3 Hfol Hh' ltac:(destruct H3; lia) ltac:(rewrite length_app; cbn; lia)) as (av & fs' & s' & -> & Hr & Hle' & Hav & Hfs').
  exists (w :: av), (fs1 ++ fs'), s'. rewrite <- !app_assoc. split_and!; [done|done|lia|by constructor|by apply Forall2_app].
Qed.

Definition complete (nt : nonterminal) (p : parser cmd) (n : nat) : Prop := forall s used rest a,
  rem s (used ++ rest) -> (length txt - s < n)%nat -> derives nt used a -> follow nt rest ->
  exists c s', p s = Parsed c s' /\ rem s' rest /\ (s <= s')%nat /\ denotes c a.

Lemma parseexec_complete line n : complete Line line n -> complete Command (parseexec txt line) (S n).
Proof.
  intros Hline s used rest a H Hf Hd Hfol. unfold parseexec. inversion Hd as [| | | |ts a' rs Hl|its Hlen]; subst; clear Hd.
  - run_peek H H1. change (sees_op [LPAR] _) with true. cbv iota. unfold parseblock.
    rewrite <- app_comm_cons in H1. run_peek H1 H2. change (sees_op [LPAR] _) with true. cbn [negb]. run_get H2 w H3. rewrite <- app_assoc in H3.
    destruct (Hline _ _ _ _ H3 ltac:(destruct H3; lia) Hl I) as (c & s4 & E & H4 & Hle & Hden). unfold pbind at 1. rewrite E.
    rewrite <- app_comm_cons in H4. run_peek H4 H5. change (sees_op [RPAR] _) with true. cbn [negb]. run_get H5 w' H6.
    match goal with |- context [parseredirs txt _ _ ?s] => destruct (parseredirs_complete rs (loops txt) c s _ H6 (follow_redir _ _ Hfol) ltac:(unfold loops; lia)) as (fs & s7 & E7 & H7 & Hle7 & Hfs) end.
    rewrite E7. eexists _, _. split; [reflexivity|]. split_and!; [done|lia|by apply denotes_wraps].
  - run_peek H H1. assert (Hs : sees_op [LPAR] ((its ≫= item_toks) ++ rest) = false).
    { destruct its as [|[|[[] ?]] its]; try done. by eapply follow_lpar. }
    rewrite Hs. destruct (split_items its) as (rs & its' & -> & Hle & Hh'). destruct (words_redirs rs) as (W1 & W2 & W3). rewrite words_app, redirs_app, W1, W2 in *.
    rewrite bind_app, W3, <- app_assoc in H1. cbn [app] in Hlen.
    match goal with |- context [pbind (parseredirs txt _ ?c) _ ?s] => destruct (parseredirs_complete rs (loops txt) c s _ H1 (items_sees _ _ Hfol Hh') ltac:(unfold loops; lia)) as (fs1 & s2 & E & H3 & Hle3 & Hfs1) end.
    unfold pbind at 1. rewrite E.
    destruct (parseargs_complete _ its' (Nat.le_refl _) (loops txt) [] fs1 _ _ H3 Hfol Hh' ltac:(unfold loops; lia) ltac:(cbn; lia)) as (av & fs' & s' & -> & Hr & Hle' & Hav & Hfs').
    eexists _, _. split; [reflexivity|]. split_and!; [done|lia|]. apply denotes_wraps; [by apply Forall2_app|by constructor].
Qed.

Lemma parsepipe_complete line n : complete Line line n -> forall fuel, complete Pipeline (parsepipe txt fuel line) (Nat.min fuel (S n)).
Proof.
  intros Hline. induction fuel as [|fuel IH]; intros s used rest a H Hf Hd Hfol; [lia|]. cbn [parsepipe].
  inversion Hd as [| |ts a' Hc|ts a1 ts' a2 Hc Hp| |]; subst; clear Hd.
  - destruct (parseexec_complete _ _ Hline _ _ _ _ H ltac:(lia) Hc (follow_weaken _ _ Hfol)) as (c & s1 & E & H1 & Hle & Hden). unfold pbind at 1. rewrite E.
    run_peek H1 H2. rewrite (follow_bar _ Hfol). eexists _, _. split; [reflexivity|]. split_and!; [done|lia|done].
  - rewrite <- app_assoc in H. destruct (parseexec_complete _ _ Hline _ _ _ _ H ltac:(lia) Hc eq_refl) as (c & s1 & E & H1 & Hle & Hden). unfold pbind at 1. rewrite E.
    rewrite <- app_comm_cons in H1. run_peek H1 H2. change (sees_op [BAR] _) with true. cbv iota. run_get H2 w H3. unfold pbind.
    destruct (IH _ _ _ _ H3 ltac:(destruct H3; lia) Hp Hfol) as (r & s4 & -> & H4 & Hle4 & Hden4). eexists _, _. split; [reflexivity|]. split_and!; [done|lia|by constructor].
Qed.

Lemma parseback_complete : forall n fuel c s rest, rem s (replicate n (TOp Amp) ++ rest) -> sees_op [AMP] rest = false -> (length txt - s < fuel)%nat ->
  exists s', parseback txt fuel c s = Parsed (Nat.iter n BACK c) s' /\ rem s' rest /\ (s <= s')%nat.
Proof.
  induction n as [|n IH]; intros fuel c s rest H Hrest Hf; (destruct fuel as [|fuel]; [lia|]); cbn [parseback].
  - cbn in H. run_peek H H1. rewrite Hrest. by eexists.
  - cbn [replicate app] in H. run_peek H H1. change (sees_op [AMP] _) with true. cbv iota. run_get H1 w H2.
    destruct (IH fuel (BACK c) _ _ H2 Hrest ltac:(destruct H2; lia)) as (s' & -> & Hr & Hle). rewrite Nat.iter_succ_r. exists s'. split_and!; [done|done|lia].
Qed.

Lemma parseline_complete : forall fuel, complete Line (parseline txt fuel) fuel.
Proof.
  induction fuel as [|fuel IH]; intros s used rest a H Hf Hd Hfol; [lia|]. cbn [parseline].
  inversion Hd as [ts a1 n Hp|ts a1 n ts' a2 Hp Hl| | | |]; subst; clear Hd.
  all: rewrite <- !app_assoc in H; edestruct (parsepipe_complete _ _ IH (loops txt) _ _ _ _ H ltac:(unfold loops; lia) Hp) as (c & s1 & E & H1 & Hle & Hden).
  { destruct n; [by apply follow_pipeline|done]. }
  2: { by destruct n. }
  all: unfold pbind at 1; rewrite E; edestruct (parseback_complete n (loops txt) c _ _ H1) as (s2 & E2 & H2 & Hle2); [| unfold loops; lia |].
  { by apply follow_line. }
  2: done.
  all: unfold pbind at 1; rewrite E2; rewrite <- ?app_comm_cons in H2; run_peek H2 H3.
  - rewrite (proj2 (follow_line _ Hfol)). eexists _, _. split; [reflexivity|]. split_and!; [done|lia|by apply denotes_back].
  - change (sees_op [SEMI] _) with true. cbv iota. run_get H3 w H4. unfold pbind.
    destruct (IH _ _ _ _ H4 ltac:(destruct H4; lia) Hl Hfol) as (r & s5 & -> & H5 & Hle5 & Hden5). eexists _, _. split; [reflexivity|].
    split_and!; [done|lia|]. constructor; [by apply denotes_back|done].
Qed.

(** ** The strings in the buffer *)

Fixpoint ends (c : cmd) : list nat :=
  match c with
  | EXEC argv => argv.*2
  | REDIR c' f _ _ => ends c' ++ [f.2]
  | PIPE l r | LIST l r => ends l ++ ends r
  | BACK c' => ends c'
  end.

Definition zeros (es : list nat) (buf : list Z) : list Z := foldl (fun b e => <[e := 0]> b) buf es.

Lemma nulterminate_zeros c : forall buf, nulterminate c buf = zeros (ends c) buf.
Proof.
  unfold zeros. induction c as [argv|c IH f mode fd|l IHl r IHr|l IHl r IHr|c IH]; intros buf; cbn.
  - revert buf. induction argv as [|w argv IH]; intros buf; [done|]. apply IH.
  - by rewrite foldl_app, IH.
  - by rewrite foldl_app, IHl, IHr.
  - by rewrite foldl_app, IHl, IHr.
  - done.
Qed.

Lemma zeros_lookup es : forall buf i, (i ∉ es -> zeros es buf !! i = buf !! i) /\ (i ∈ es -> (i < length buf)%nat -> zeros es buf !! i = Some 0).
Proof.
  unfold zeros. induction es as [|e es IH]; intros buf i; cbn; [split; [done|set_solver]|].
  destruct (IH (<[e := 0]> buf) i) as [IH1 IH2]. rewrite length_insert in IH2. split.
  - intros Hi. rewrite IH1 by set_solver. apply list_lookup_insert_ne. set_solver.
  - intros Hi Hlt. destruct (decide (i ∈ es)); [auto|]. rewrite IH1 by done. assert (i = e) as -> by set_solver. by apply list_lookup_insert_eq.
Qed.

Lemma cstring_at buf : forall x q, (forall i c, x !! i = Some c -> buf !! (q + i)%nat = Some c) -> buf !! (q + length x)%nat = Some 0 -> 0 ∉ x -> cstring buf q = x.
Proof.
  unfold cstring. induction x as [|c x IH]; intros q Hx He Hz.
  - rewrite Nat.add_0_r in He. rewrite (drop_S buf 0 q He). done.
  - pose proof (Hx 0%nat c eq_refl) as Hc. rewrite Nat.add_0_r in Hc. rewrite (drop_S buf c q Hc). cbn [span].
    destruct (Z.eqb_spec c 0) as [->|_]; [set_solver|]. cbn [negb take]. f_equal. apply IH; [|by rewrite Nat.add_succ_comm|set_solver].
    intros i y Hi. rewrite Nat.add_succ_comm. by apply (Hx (S i)).
Qed.

(** The end of a word is not a character of a word. *)
Lemma word_end w x : word_at w x -> (w.2 <= length txt)%nat /\ forall c, txt !! w.2 = Some c -> word_char c = false.
Proof.
  intros (Hq & Hne & Hx & l & Hd & Hl). destruct (decide (w.1 <= length txt)%nat) as [Hs|]; [|rewrite drop_ge in Hd by lia; by destruct x].
  destruct (drop_more _ _ _ Hs Hd) as [Hd' Hle]. rewrite <- Hq in *. split; [done|]. intros c Hc. apply Hl. rewrite <- Hd'.
  rewrite (drop_S txt c w.2 Hc). done.
Qed.

Lemma denotes_ends c a : denotes c a -> forall e, e ∈ ends c -> (e <= length txt)%nat /\ forall x, txt !! e = Some x -> word_char x = false.
Proof.
  induction 1 as [argv ws Hw|c a f x mode fd _ IH Hf| | |]; cbn; intros e He; [| |set_solver|set_solver|auto].
  - apply list_elem_of_fmap in He as (w & -> & Hin). apply list_elem_of_lookup in Hin as [i Hi].
    destruct (Forall2_lookup_l _ _ _ _ _ Hw Hi) as (x & _ & Hx). by eapply word_end.
  - apply elem_of_app in He as [He|He%list_elem_of_singleton]; [auto|]. subst. by eapply word_end.
Qed.

Lemma word_string buf w x : (forall i c, txt !! i = Some c -> word_char c = true -> buf !! i = Some c) -> buf !! w.2 = Some 0 -> word_at w x -> cstring buf w.1 = x.
Proof.
  intros Hbuf He (Hq & _ & Hx & l & Hd & _). apply cstring_at.
  - intros i c Hi. apply Hbuf; [|rewrite Forall_lookup in Hx; by apply (Hx i)]. rewrite <- lookup_drop, Hd. by apply lookup_app_l_Some.
  - by rewrite <- Hq.
  - intros H0. apply (in_drop 0 w.1); [rewrite Hd; set_solver|done].
Qed.

Lemma denotes_strings buf c a : (forall i c, txt !! i = Some c -> word_char c = true -> buf !! i = Some c) ->
  denotes c a -> (forall e, e ∈ ends c -> buf !! e = Some 0) -> strings buf c = a.
Proof.
  intros Hbuf. induction 1 as [argv ws Hw|c a f x mode fd _ IH Hf|l r a b _ IHl _ IHr|l r a b _ IHl _ IHr|c a _ IH]; cbn; intros He.
  - f_equal. revert He. induction Hw as [|w x argv ws Hw _ IH]; intros He; [done|]. cbn. f_equal; [apply word_string; [done|apply He; cbn; set_solver|done]|].
    apply IH. intros e Hin. apply He. cbn. set_solver.
  - rewrite IH by set_solver. f_equal. apply word_string; [done|apply He; set_solver|done].
  - rewrite IHl, IHr by set_solver. done.
  - rewrite IHl, IHr by set_solver. done.
  - by rewrite IH.
Qed.

Lemma terminated_strings c a : denotes c a -> strings (nulterminate c (txt ++ [0])) c = a.
Proof.
  intros H. rewrite nulterminate_zeros. pose proof (denotes_ends _ _ H) as He. apply denotes_strings; [|done|].
  - intros i x Hi Hx. destruct (zeros_lookup (ends c) (txt ++ [0]) i) as [Hz _]. rewrite Hz; [by apply lookup_app_l_Some|].
    intros Hin. destruct (He _ Hin) as [_ Hc]. specialize (Hc _ Hi). congruence.
  - intros e Hin. apply zeros_lookup; [done|]. rewrite length_app. cbn. destruct (He _ Hin). lia.
Qed.

Lemma rem_all ts : rem (length txt) ts -> ts = [].
Proof. intros H. destruct (skip_spec _ _ H) as [Hle Ht]. assert (Hs : skip txt (chr whitespace) (length txt) = length txt) by lia. rewrite Hs in Ht.
  destruct ts as [|[w|o] ts]; [done| |]; cbn in Ht; rewrite drop_all in Ht; [destruct Ht as (l & Hd & Hw & _); by destruct w|destruct Ht as (l & Hd & _); by destruct o]. Qed.
End Text.

(** C19: The shell parses exactly its grammar: for a line without NULs,
    [parsecmd] returns the command [a], with every argument and file name a
    terminated string of the buffer, iff the line spells tokens from which the
    grammar derives [a]; on every other line it panics, and it always returns. *)
Theorem parsecmd_parses_grammar (txt : list Z) : 0 ∉ txt ->
  (forall a, (exists c buf s, parsecmd txt = Parsed (c, buf) s /\ strings buf c = a) <-> (exists ts, spells txt ts /\ derives Line ts a)) /\
  parsecmd txt <> OutOfFuel.
Proof.
  intros Hnul. assert (Hrem : forall ts, rem txt 0 ts <-> spells txt ts) by (intros ts; unfold rem; rewrite drop_0; split; [by intros [_ ?]|intros; split; [lia|done]]).
  destruct (rem_exists txt 0 ltac:(lia)) as [ts0 H0]. pose proof (parseline_sound txt Hnul (S (length txt)) 0%nat ts0 H0 ltac:(lia)) as Hsound.
  unfold parsecmd, pbind at 1. split; [intros a; split|].
  - intros (c & buf & s & Hp & Ha). destruct (parseline txt _ _) as [c0 s0| |]; [|done|done].
    destruct Hsound as (used & ts' & a' & -> & H1 & _ & Hd & Hden). destruct (peek_op txt Hnul [] (fun _ s => if negb (s =? length txt)%nat then ShPanic "syntax" else Parsed (c0, nulterminate c0 (txt ++ [0])) s) s0 ts' ltac:(set_solver) H1) as (s1 & E & H2 & _).
    rewrite E in Hp. clear E. destruct (Nat.eqb_spec s1 (length txt)) as [Hs|]; [|done]. injection Hp as <- <- _. rewrite Hs in H2. apply (rem_all txt) in H2 as ->.
    rewrite (terminated_strings txt Hnul c0 a' Hden) in Ha. subst a'. exists used. rewrite app_nil_r in H0. by rewrite <- Hrem.
  - intros (ts & Hts & Hd). apply Hrem in Hts. rewrite <- (app_nil_r ts) in Hts.
    destruct (parseline_complete txt Hnul (S (length txt)) 0%nat ts [] a Hts ltac:(lia) Hd I) as (c & s1 & -> & H1 & _ & Hden).
    destruct (skip_spec txt _ _ H1) as [_ Hs]. unfold pbind, peek. cbn [tight] in Hs. rewrite Hs, Nat.eqb_refl. cbn [negb].
    eexists _, _, _. split; [reflexivity|]. by apply terminated_strings.
  - unfold pbind, peek. destruct (parseline txt _ _) as [c0 s0| |]; [|done|done]. by case_match.
Qed.

Definition sh_line : list Z := bytes_of_string "echo hi > f | wc".
Lemma parsecmd_parses_grammar_witness : (0 ∉ sh_line) /\ exists ts, spells sh_line ts /\
  derives Line ts (Piped (Redirected (Simple [bytes_of_string "echo"; bytes_of_string "hi"]) (bytes_of_string "f") 1537 1) (Simple [bytes_of_string "wc"])).
Proof.
  assert (Hn : 0 ∉ sh_line) by (apply (bool_decide_unpack _); vm_compute; exact I). split; [exact Hn|].
  apply (proj1 (parsecmd_parses_grammar sh_line Hn)). eexists _, _, _. split; [vm_compute; reflexivity|vm_compute; reflexivity].
Defined.
