(* ===== verification/ShRun.v ===== *)
(** * What the shell runs

    [expected] gives the programs a command runs and the three files each
    gets, by recursion on the command: a redirection replaces the input or the
    output, a pipe connects the output of its left side to the input of its
    right side.  The theorem: whatever fails, the processes [runcmd] makes
    call [exec] only as [expected] says, with no other descriptor left open
    (so that a reader of a pipe sees its end), and wait only with nothing but
    three files open; when no call fails they run all of it. *)

From S2P Require Import Prelude Sh ShParse.

(** Standard input, output and error. *)
Record stdio := mkstdio { s_in : endpoint; s_out : endpoint; s_err : endpoint }.

(** The descriptor table of a process with these three files only. *)
Definition table (f : stdio) : fds := [Some (s_in f); Some (s_out f); Some (s_err f)] ++ replicate (NOFILE - 3) None.

Fixpoint expected (path : list bool) (c : ast) (f : stdio) : list (list (list Z) * stdio) :=
  match c with
  | Simple [] => []
  | Simple argv => [(argv, f)]
  | Redirected c' file mode fd =>
      expected (false :: path) c'
        (if fd =? 0 then mkstdio (Opened file mode) (s_out f) (s_err f) else mkstdio (s_in f) (Opened file mode) (s_err f))
  | Piped l r =>
      expected (false :: path) l (mkstdio (s_in f) (WriteEnd path) (s_err f)) ++
      expected (true :: path) r (mkstdio (ReadEnd path) (s_out f) (s_err f))
  | Listed l r => expected (false :: path) l f ++ expected (true :: path) r f
  | Background c' => expected (false :: path) c' f
  end.

(** The calls of [exec] made by a process and its descendants. *)
Fixpoint execs (p : process) : list (list (list Z) * fds) :=
  match p with
  | Exit _ => []
  | Exec argv t => [(argv, t)]
  | Fork child parent => execs child ++ execs parent
  | Wait _ k => execs k
  end.

(** The tables they call [wait] with. *)
Fixpoint waits (p : process) : list fds :=
  match p with
  | Exit _ | Exec _ _ => []
  | Fork child parent => waits child ++ waits parent
  | Wait t k => t :: waits k
  end.

(** The redirections of a command are of input and output. *)
Fixpoint std_redirs (c : ast) : Prop :=
  match c with
  | Simple _ => True
  | Redirected c' _ _ fd => (fd = 0 \/ fd = 1) /\ std_redirs c'
  | Piped l r | Listed l r => std_redirs l /\ std_redirs r
  | Background c' => std_redirs c'
  end.

Lemma std_redirected rs : forall a, std_redirs a -> std_redirs (foldl redirected a rs).
Proof. induction rs as [|[k x] rs IH]; intros a Ha; [done|]. apply IH. split; [destruct k; auto|done]. Qed.
Lemma std_background n a : std_redirs a -> std_redirs (background n a).
Proof. by induction n. Qed.

Lemma derives_std nt ts a : derives nt ts a -> std_redirs a.
Proof.
  induction 1; cbn; eauto using std_background, std_redirected.
  apply std_redirected. done.
Qed.

(** ** The descriptors of a redirection and of the two sides of a pipe *)

Lemma redirect_table f e k : k = 0 \/ k = 1 ->
  alloc e (close (Z.to_nat k) (table f)) =
    Some (Z.to_nat k, table (if k =? 0 then mkstdio e (s_out f) (s_err f) else mkstdio (s_in f) e (s_err f))).
Proof. by intros [-> | ->]. Qed.

Definition piped_table (r w : endpoint) (f : stdio) : fds :=
  [Some (s_in f); Some (s_out f); Some (s_err f); Some r; Some w] ++ replicate (NOFILE - 5) None.

Lemma pipe_tables r w f :
  (exists t, alloc r (table f) = Some (3%nat, t) /\ alloc w t = Some (4%nat, piped_table r w f)) /\
  close 4 (close 3 (dup 4 (close 1 (piped_table r w f)))) = table (mkstdio (s_in f) w (s_err f)) /\
  close 4 (close 3 (dup 3 (close 0 (piped_table r w f)))) = table (mkstdio r (s_out f) (s_err f)) /\
  close 4 (close 3 (piped_table r w f)) = table f.
Proof. split; [by eexists|done]. Qed.

Section Run.
Context (open_ok : list Z -> Z -> bool) (pipe_ok : list bool -> bool) (fork_ok : list bool -> bool -> bool).

Abbreviation run := (runcmd open_ok pipe_ok fork_ok).
Abbreviation with_tables := (fmap (M := list) (prod_map id table)).

Lemma execs_fork1 path b p q l l' : execs p `sublist_of` l -> execs q `sublist_of` l' -> execs (fork1 fork_ok path b p q) `sublist_of` l ++ l'.
Proof. intros H1 H2. unfold fork1. destruct (fork_ok path b); cbn; [by apply sublist_app|apply sublist_nil_l]. Qed.

Lemma runcmd_sublist c : forall path f, std_redirs c -> execs (run path c (table f)) `sublist_of` with_tables (expected path c f).
Proof.
  induction c as [argv|c IH file mode fd|l IHl r IHr|l IHl r IHr|c IH]; intros path f Hc; cbn [runcmd expected].
  - by destruct argv.
  - destruct Hc as [Hfd Hc]. cbv zeta. rewrite redirect_table by done. destruct (open_ok file mode); [by apply IH|apply sublist_nil_l].
  - destruct Hc as [Hl Hr]. destruct (pipe_ok path); [|apply sublist_nil_l].
    destruct (pipe_tables (ReadEnd path) (WriteEnd path) f) as [(t & -> & ->) (-> & -> & ->)]. rewrite fmap_app.
    apply execs_fork1; [by apply IHl|]. rewrite <- (app_nil_r (with_tables _)). by apply execs_fork1; [apply IHr|].
  - destruct Hc. rewrite fmap_app. apply execs_fork1; [by apply IHl|by apply IHr].
  - rewrite <- (app_nil_r (with_tables _)). by apply execs_fork1; [apply IH|].
Qed.

Definition standard (t : fds) : Prop := exists f, t = table f.

Lemma waits_fork1 path b p q : Forall standard (waits p) -> Forall standard (waits q) -> Forall standard (waits (fork1 fork_ok path b p q)).
Proof. intros Hp Hq. unfold fork1. destruct (fork_ok path b); cbn; [by apply Forall_app_2|done]. Qed.

Lemma runcmd_waits c : forall path f, std_redirs c -> Forall standard (waits (run path c (table f))).
Proof.
  induction c as [argv|c IH file mode fd|l IHl r IHr|l IHl r IHr|c IH]; intros path f Hc; cbn [runcmd].
  - by destruct argv.
  - destruct Hc as [Hfd Hc]. cbv zeta. rewrite redirect_table by done. destruct (open_ok file mode); [by apply IH|done].
  - destruct Hc as [Hl Hr]. destruct (pipe_ok path); [|done].
    destruct (pipe_tables (ReadEnd path) (WriteEnd path) f) as [(t & -> & ->) (-> & -> & ->)].
    apply waits_fork1; [by apply IHl|]. apply waits_fork1; [by apply IHr|].
    repeat (apply Forall_cons; split; [by exists f|]). done.
  - destruct Hc. apply waits_fork1; [by apply IHl|]. apply Forall_cons. split; [by exists f|by apply IHr].
  - by apply waits_fork1; [apply IH|].
Qed.

Lemma runcmd_all c : (forall x m, open_ok x m = true) -> (forall p, pipe_ok p = true) -> (forall p b, fork_ok p b = true) ->
  forall path f, std_redirs c -> execs (run path c (table f)) = with_tables (expected path c f).
Proof.
  intros Ho Hp Hf. induction c as [argv|c IH file mode fd|l IHl r IHr|l IHl r IHr|c IH]; intros path f Hc; cbn [runcmd expected]; unfold fork1; rewrite ?Ho, ?Hp, ?Hf.
  - by destruct argv.
  - destruct Hc as [Hfd Hc]. cbv zeta. rewrite redirect_table by done. auto.
  - destruct Hc as [Hl Hr]. destruct (pipe_tables (ReadEnd path) (WriteEnd path) f) as [(t & -> & ->) (-> & -> & ->)].
    cbn [execs]. rewrite fmap_app, IHl, IHr, app_nil_r by done. done.
  - destruct Hc. cbn [execs]. by rewrite fmap_app, IHl, IHr.
  - cbn [execs]. by rewrite app_nil_r, IH.
Qed.
End Run.

(** C35: For a command line the shell accepts, run with the three standard
    files open: whatever calls of [open], [pipe] or [fork] fail, every program
    started is one the command names, with the redirections and pipe ends it
    asks for as its files 0, 1 and 2 and every other descriptor closed; a
    shell process that waits for its children has closed its pipe ends too, so
    that the programs of a pipe see its end; and when none fails, all programs
    are started. *)
Theorem runcmd_connects ts c open_ok pipe_ok fork_ok path f : derives Line ts c ->
  execs (runcmd open_ok pipe_ok fork_ok path c (table f)) `sublist_of` (prod_map id table <$> expected path c f) /\
  Forall (fun t => exists g, t = table g) (waits (runcmd open_ok pipe_ok fork_ok path c (table f))) /\
  ((forall x m, open_ok x m = true) -> (forall p, pipe_ok p = true) -> (forall p b, fork_ok p b = true) ->
   execs (runcmd open_ok pipe_ok fork_ok path c (table f)) = prod_map id table <$> expected path c f).
Proof. intros H%derives_std. split; [by apply runcmd_sublist|]. split; [by apply runcmd_waits|]. intros. by apply runcmd_all. Qed.

Definition console3 : stdio := mkstdio (Inherited 0) (Inherited 1) (Inherited 2).
Lemma runcmd_connects_witness :
  execs (runcmd (fun _ _ => true) (fun _ => true) (fun _ _ => true) [] (Piped (Simple [[97]]) (Simple [[98]])) (table console3)) =
  [([[97]], table (mkstdio (Inherited 0) (WriteEnd []) (Inherited 2))); ([[98]], table (mkstdio (ReadEnd []) (Inherited 1) (Inherited 2)))].
Proof.
  assert (Hd : derives Line (([IWord [97]] ≫= item_toks) ++ TOp Bar :: ([IWord [98]] ≫= item_toks)) (Piped (Simple [[97]]) (Simple [[98]]))).
  { rewrite <- (app_nil_r (_ ++ _ :: _)). apply (d_line _ _ 0). apply d_pipe; [|apply d_single]; [apply (d_simple [IWord [97]])|apply (d_simple [IWord [98]])]; apply Nat.ltb_lt; reflexivity. }
  apply (proj2 (proj2 (runcmd_connects _ _ (fun _ _ => true) (fun _ => true) (fun _ _ => true) [] console3 Hd))); reflexivity.
Defined.
