(* ===== verification/Printf.v ===== *)
(** * Formatted output: [kernel/printf.c] and [user/printf.c]

    Output is the list of characters sent to [consputc] or [putc].  A format is
    the list of its characters before the NUL, a variable argument either a
    number (its 64-bit register) or a string ([None] is the null pointer), and
    [va_arg] of another kind than was passed is undefined: the answer is [None],
    as it is when the digits of a number do not fit the 16 bytes of [buf].

    The two files have the same chain of tests on a conversion ([conversion]);
    they differ in the digits, in the width of [printint]'s argument, and in the
    loop over the format, which is a two-state machine in the user library.

    Theorems: what [printint] prints reads back as the number; the kernel's
    [printint] stays in its buffer for every [int] printed with [%d] and
    overruns it exactly from 16 digits on, as [%u] of a number above [2^31]
    does; and the machine of [vprintf] prints what the plain loop prints. *)

From S2P Require Import Prelude.

Definition PERCENT : Z := 37.
Definition MINUS : Z := 45.

(** [digits]: of the kernel (lower case) and of the user library. *)
Definition kdigits : list Z := bytes_of_string "0123456789abcdef".
Definition udigits : list Z := bytes_of_string "0123456789ABCDEF".

(** ** Numbers *)

(** [do { buf[i++] = digits[x % base]; } while((x /= base) != 0);] *)
Fixpoint put_digits (fuel : nat) (digits : list Z) (x base : Z) : list Z :=
  match fuel with
  | O => []
  | S fuel' =>
      nth (Z.to_nat (x mod base)) digits 0 ::
      (if x / base =? 0 then [] else put_digits fuel' digits (x / base) base)
  end.

(** The sizes of [buf] and of the loop: 64 turns print any 64-bit number. *)
Definition BUFLEN : nat := 16.
Definition print_number (digits : list Z) (x base : Z) (neg : bool) : option (list Z) :=
  let buf := put_digits 64 digits x base ++ (if neg then [MINUS] else []) in
  if (length buf <=? BUFLEN)%nat then Some (rev buf) else None.

(** The kernel's [printint], on a [long long]; [sign] is reused as a flag. *)
Definition kprintint (xx base : Z) (sign : bool) : option (list Z) :=
  let neg := sign && (xx <? 0) in
  print_number kdigits (u64 (if neg then - xx else xx)) base neg.

(** The user library's [printint], on an [int]. *)
Definition uprintint (xx base : Z) (sgn : bool) : option (list Z) :=
  let neg := sgn && (xx <? 0) in
  print_number udigits (u32 (if neg then - xx else xx)) base neg.

(** [printptr]: the top four bits, sixteen times. *)
Fixpoint ptr_digits (n : nat) (digits : list Z) (x : Z) : list Z :=
  match n with
  | O => []
  | S n' => nth (Z.to_nat (Z.shiftr x 60)) digits 0 :: ptr_digits n' digits (u64 (Z.shiftl x 4))
  end.
Definition printptr (digits : list Z) (x : Z) : list Z := [48; 120] ++ ptr_digits 16 digits x.

(** ** Conversions *)

Inductive arg := Num (v : Z) | Str (s : option (list Z)).

(** What follows a percent sign, and how many more characters it takes. *)
Inductive conversion :=
| Number (wide : bool) (base : Z) (sign : bool)
| Pointer
| Text
| Percent
| Unknown.

Definition chr_is (c : Z) (a : string) : bool := c =? hd 0 (bytes_of_string a).

Definition decode (c0 c1 c2 : Z) : conversion * nat :=
  if chr_is c0 "d" then (Number false 10 true, 0%nat)
  else if chr_is c0 "l" && chr_is c1 "d" then (Number true 10 true, 1%nat)
  else if chr_is c0 "l" && chr_is c1 "l" && chr_is c2 "d" then (Number true 10 true, 2%nat)
  else if chr_is c0 "u" then (Number false 10 false, 0%nat)
  else if chr_is c0 "l" && chr_is c1 "u" then (Number true 10 false, 1%nat)
  else if chr_is c0 "l" && chr_is c1 "l" && chr_is c2 "u" then (Number true 10 false, 2%nat)
  else if chr_is c0 "x" then (Number false 16 false, 0%nat)
  else if chr_is c0 "l" && chr_is c1 "x" then (Number true 16 false, 1%nat)
  else if chr_is c0 "l" && chr_is c1 "l" && chr_is c2 "x" then (Number true 16 false, 2%nat)
  else if chr_is c0 "p" then (Pointer, 0%nat)
  else if chr_is c0 "s" then (Text, 0%nat)
  else if chr_is c0 "%" then (Percent, 0%nat)
  else (Unknown, 0%nat).

(** One conversion: the text and the arguments left. *)
Definition convert (printint : Z -> Z -> bool -> option (list Z)) (digits : list Z) (c : conversion) (c0 : Z) (args : list arg) :
    option (list Z * list arg) :=
  match c with
  | Number wide base sign =>
      match args with
      | Num v :: args' => match printint (if wide then v else s32 v) base sign with Some t => Some (t, args') | None => None end
      | _ => None
      end
  | Pointer => match args with Num v :: args' => Some (printptr digits (u64 v), args') | _ => None end
  | Text => match args with Str s :: args' => Some (default (bytes_of_string "(null)") s, args') | _ => None end
  | Percent => Some ([PERCENT], args)
  | Unknown => Some ([PERCENT; c0], args)
  end.

(** ** The loops *)

(** [%l] arguments of the kernel are [uint64]s passed as [long long]. *)
Definition s64 (z : Z) : Z := (z + 2 ^ 63) mod 2 ^ 64 - 2 ^ 63.
Definition kernel_int (v base : Z) (sign : bool) : option (list Z) := kprintint (s64 v) base sign.
(** [%l] arguments of the user library are converted to [int]. *)
Definition user_int (v base : Z) (sign : bool) : option (list Z) := uprintint (s32 v) base sign.

(** The loop of the kernel's [printf]: [fmt[i]] is the head of [fmt]. *)
Section Loop.
Context (printint : Z -> Z -> bool -> option (list Z)) (digits : list Z).
Fixpoint print_loop (fuel : nat) (fmt : list Z) (args : list arg) : option (list Z) :=
  match fuel with
  | O => None
  | S fuel' =>
      match fmt with
      | [] => Some []
      | cx :: rest =>
          if negb (cx =? PERCENT) then match print_loop fuel' rest args with Some t => Some (cx :: t) | None => None end
          else
            match rest with
            | [] => Some []
            | c0 :: rest' =>
                let '(c, more) := decode c0 (nth 0 rest' 0) (nth 1 rest' 0) in
                match convert printint digits c c0 args with
                | Some (t, args') => match print_loop fuel' (drop more rest') args' with Some t' => Some (t ++ t') | None => None end
                | None => None
                end
            end
      end
  end.
End Loop.

(** [vprintf]: [state] is set after a percent sign. *)
Fixpoint vprintf (fuel : nat) (state : bool) (fmt : list Z) (args : list arg) : option (list Z) :=
  match fuel with
  | O => None
  | S fuel' =>
      match fmt with
      | [] => Some []
      | c0 :: rest =>
          if negb state then
            if c0 =? PERCENT then vprintf fuel' true rest args
            else match vprintf fuel' false rest args with Some t => Some (c0 :: t) | None => None end
          else
            let '(c, more) := decode c0 (nth 0 rest 0) (nth 1 rest 0) in
            match convert user_int udigits c c0 args with
            | Some (t, args') => match vprintf fuel' false (drop more rest) args' with Some t' => Some (t ++ t') | None => None end
            | None => None
            end
      end
  end.

Definition printf (fmt : list Z) (args : list arg) : option (list Z) := vprintf (S (length fmt)) false fmt args.
Definition kernel_printf (fmt : list Z) (args : list arg) : option (list Z) := print_loop kernel_int kdigits (S (length fmt)) fmt args.

(** ** Digits *)

(** The value of digits, least significant first. *)
Fixpoint value (base : Z) (ds : list Z) : Z := match ds with [] => 0 | d :: ds' => d + base * value base ds' end.

(** The characters stored are the digits of [x], as many as it has. *)
Lemma put_digits_spec digits base : 2 <= base -> forall fuel x, (0 < fuel)%nat -> 0 <= x < base ^ Z.of_nat fuel ->
  exists ds, put_digits fuel digits x base = (fun d => nth (Z.to_nat d) digits 0) <$> ds /\ Forall (fun d => 0 <= d < base) ds /\
    value base ds = x /\ (0 < length ds <= fuel)%nat /\ (x < base ^ Z.of_nat (length ds)) /\ (length ds = 1%nat \/ base ^ Z.of_nat (length ds - 1) <= x).
Proof.
  intros Hb. induction fuel as [|fuel IH]; intros x Hf Hx; [lia|]. cbn [put_digits].
  pose proof (Z.div_mod x base ltac:(lia)) as Hdm. pose proof (Z.mod_pos_bound x base ltac:(lia)) as Hm. pose proof (Z.div_pos x base ltac:(lia) ltac:(lia)) as Hq.
  destruct (Z.eqb_spec (x / base) 0) as [H0|H0].
  - exists [x mod base]. split_and!; [done|by apply Forall_singleton|cbn; lia|cbn; lia|cbn; lia| |by left]. cbn [length]. change (Z.of_nat 1) with 1. rewrite Z.pow_1_r. nia.
  - rewrite Nat2Z.inj_succ, Z.pow_succ_r in Hx by lia. assert (Hq' : x / base < base ^ Z.of_nat fuel) by (apply Z.div_lt_upper_bound; lia).
    destruct fuel as [|fuel]; [change (Z.of_nat 0) with 0 in Hq'; rewrite Z.pow_0_r in Hq'; lia|].
    destruct (IH (x / base) ltac:(lia) ltac:(lia)) as (ds & E & Hds & Hv & Hl & Hu & Hlo). exists (x mod base :: ds).
    assert (Hp : base ^ Z.of_nat (S (length ds)) = base * base ^ Z.of_nat (length ds)) by (rewrite Nat2Z.inj_succ; apply Z.pow_succ_r; lia).
    split_and!; [by rewrite fmap_cons, <- E|by constructor|cbn; lia|cbn [length]; lia|cbn [length]; lia| |].
    + cbn [length]. rewrite Hp. nia.
    + right. cbn [length]. replace (S (length ds) - 1)%nat with (length ds) by lia.
      destruct Hlo as [H1|Hlo]; [rewrite H1; change (Z.of_nat 1) with 1; rewrite Z.pow_1_r; nia|].
      destruct (length ds) as [|n] eqn:En; [lia|]. replace (S n - 1)%nat with n in Hlo by lia. rewrite Nat2Z.inj_succ, Z.pow_succ_r by lia. nia.
Qed.

(** A number fits [buf] iff it has at most 16 characters. *)
Lemma print_number_fits digits x base neg : 2 <= base -> 0 <= x < 2 ^ 64 ->
  (exists t, print_number digits x base neg = Some t) <-> x < base ^ (if neg then 15 else 16).
Proof.
  intros Hb Hx. assert (H64 : 2 ^ 64 <= base ^ Z.of_nat 64) by (apply Z.pow_le_mono_l; lia).
  destruct (put_digits_spec digits base Hb 64 x ltac:(lia) ltac:(lia)) as (ds & E & _ & _ & Hl & Hu & Hlo).
  unfold print_number. rewrite E, length_app, length_fmap. set (k := if neg then 15 else 16). assert (Hk : 0 <= k) by (destruct neg; cbn; lia).
  assert (Hfit : (length ds + length (if neg then [MINUS] else []) <=? BUFLEN)%nat = true <-> Z.of_nat (length ds) <= k).
  { rewrite Nat.leb_le. unfold BUFLEN, k. destruct neg; cbn; lia. }
  transitivity (Z.of_nat (length ds) <= k).
  - rewrite <- Hfit. destruct (_ <=? _)%nat; split; try done; [by eexists|]. by intros [? ?].
  - split; [intros H; eapply Z.lt_le_trans; [done|]; apply Z.pow_le_mono_r; lia|].
    intros H. destruct Hlo as [H1|Hlo]; [rewrite H1; destruct neg; cbn; lia|]. assert (Hlt : base ^ Z.of_nat (length ds - 1) < base ^ k) by lia.
    apply Z.pow_lt_mono_r_iff in Hlt; lia.
Qed.

(** C38: The kernel's [printint] and its 16-byte buffer: every [int] printed with
    [%d] and every number printed in hexadecimal fits; a decimal number is
    written past the end of the buffer exactly when it has more than 16
    characters, which [%u] of any negative [int] has. *)
Theorem kernel_printint_bounds (xx : Z) : - 2 ^ 63 <= xx < 2 ^ 63 ->
  (- 2 ^ 31 <= xx < 2 ^ 31 -> is_Some (kprintint xx 10 true)) /\
  is_Some (kprintint xx 16 false) /\
  (is_Some (kprintint xx 10 true) <-> - 10 ^ 15 < xx < 10 ^ 16) /\
  (is_Some (kprintint xx 10 false) <-> 0 <= xx < 10 ^ 16).
Proof.
  intros Hx. assert (Hneg : (xx <? 0) = true -> u64 (- xx) = - xx) by (intros H%Z.ltb_lt; apply u64_small; lia).
  assert (Hpos : 0 <= xx -> u64 xx = xx) by (intros H; apply u64_small; lia). pose proof (u64_range xx) as Hr.
  assert (Hd : is_Some (kprintint xx 10 true) <-> - 10 ^ 15 < xx < 10 ^ 16).
  { unfold kprintint. cbn [andb]. destruct (xx <? 0) eqn:E.
    - pose proof (Hneg eq_refl) as Hn. apply Z.ltb_lt in E. rewrite Hn. etransitivity; [apply (print_number_fits kdigits (- xx) 10 true); lia|]. lia.
    - apply Z.ltb_ge in E. rewrite Hpos by lia. etransitivity; [apply (print_number_fits kdigits xx 10 false); lia|]. lia. }
  split_and!; [intros; apply Hd; lia| |done|].
  - unfold kprintint. cbn [andb]. apply (print_number_fits kdigits (u64 xx) 16 false); [lia|done|]. change (16 ^ 16) with (2 ^ 64). lia.
  - unfold kprintint. cbn [andb]. etransitivity; [apply (print_number_fits kdigits (u64 xx) 10 false); [lia|done]|].
    destruct (decide (0 <= xx)); [rewrite Hpos by lia; lia|]. unfold u64. rewrite <- (Z.mod_add xx 1 (2 ^ 64)), Z.mod_small by lia. lia.
Qed.

Lemma kernel_printint_bounds_witness : kprintint (-1) 10 false = None /\ (is_Some (kprintint (-1) 10 false) <-> 0 <= -1 < 10 ^ 16).
Proof. split; [reflexivity|]. apply (kernel_printint_bounds (-1)). lia. Defined.

(** ** Reading a printed number back *)

(** A number as a C reader takes it: a sign and decimal digits. *)
Definition read_digits (t : list Z) : Z := foldl (fun n c => n * 10 + (c - 48)) 0 t.
Definition read_int (t : list Z) : Z := match t with c :: t' => if c =? MINUS then - read_digits t' else read_digits t | [] => 0 end.

Definition decimal (digits : list Z) : Prop := forall d, 0 <= d < 10 -> nth (Z.to_nat d) digits 0 = 48 + d.
Lemma kdigits_decimal : decimal kdigits.
Proof. intros d Hd. assert (d = 0 \/ d = 1 \/ d = 2 \/ d = 3 \/ d = 4 \/ d = 5 \/ d = 6 \/ d = 7 \/ d = 8 \/ d = 9) as H by lia. by repeat destruct H as [->|H]; [..|subst]. Qed.
Lemma udigits_decimal : decimal udigits.
Proof. intros d Hd. assert (d = 0 \/ d = 1 \/ d = 2 \/ d = 3 \/ d = 4 \/ d = 5 \/ d = 6 \/ d = 7 \/ d = 8 \/ d = 9) as H by lia. by repeat destruct H as [->|H]; [..|subst]. Qed.

Lemma read_digits_rev digits ds : decimal digits -> Forall (fun d => 0 <= d < 10) ds ->
  read_digits (rev ((fun d => nth (Z.to_nat d) digits 0) <$> ds)) = value 10 ds.
Proof.
  intros Hdec. induction 1 as [|d ds Hd _ IH]; [done|]. cbn. unfold read_digits in *. rewrite foldl_app, IH. cbn. rewrite (Hdec d Hd). lia.
Qed.

(** The digits printed for [x], when they fit. *)
Lemma print_number_decimal digits x neg : decimal digits -> 0 <= x < 10 ^ 15 ->
  exists t, print_number digits x 10 neg = Some t /\ read_int t = (if neg then - x else x) /\
    (neg = false -> t <> [] /\ Forall (fun c => 48 <= c <= 57) t /\ read_digits t = x).
Proof.
  intros Hdec Hx. destruct (put_digits_spec digits 10 ltac:(lia) 64 x ltac:(lia) ltac:(lia)) as (ds & E & Hds & Hv & Hl & _).
  destruct (proj2 (print_number_fits digits x 10 neg ltac:(lia) ltac:(lia))) as [t Ht]; [destruct neg; lia|]. exists t. split; [done|].
  unfold print_number in Ht. destruct (_ <=? _)%nat; [|discriminate]. apply Some_inj in Ht. subst t. rewrite E, rev_app_distr.
  pose proof (read_digits_rev digits ds Hdec Hds) as Hr. set (l := rev _) in *.
  assert (Hl48 : Forall (fun c => 48 <= c <= 57) l).
  { unfold l. apply Forall_rev, Forall_fmap. eapply Forall_impl; [exact Hds|]. intros d Hd. cbn beta in Hd. cbn. rewrite (Hdec d Hd). lia. }
  assert (Hne : l <> []) by (intros Hn; apply (f_equal length) in Hn; unfold l in Hn; rewrite length_rev, length_fmap in Hn; cbn in Hn; lia).
  split.
  - destruct neg; cbn [rev app read_int]; [by rewrite Hr, Hv|]. destruct l as [|c l']; [done|]. inversion Hl48 as [|? ? Hc _]; subst.
    cbn [read_int]. destruct (Z.eqb_spec c MINUS) as [->|_]; [unfold MINUS in Hc; lia|]. by rewrite Hr.
  - intros ->. cbn [rev app]. by rewrite Hr.
Qed.

Lemma put_digits_ext : forall fuel x, put_digits fuel kdigits x 10 = put_digits fuel udigits x 10.
Proof.
  induction fuel as [|fuel IH]; intros x; [done|]. cbn [put_digits]. rewrite kdigits_decimal, udigits_decimal, IH by (apply Z.mod_pos_bound; lia). done.
Qed.
Lemma print_number_ext x neg : print_number kdigits x 10 neg = print_number udigits x 10 neg.
Proof. unfold print_number. by rewrite put_digits_ext. Qed.

(** [%d] prints every [int], in the kernel and in the user library, as the
    same text, and the text reads back as the number. *)
Theorem printint_roundtrip (xx : Z) : - 2 ^ 31 <= xx < 2 ^ 31 ->
  exists t, uprintint xx 10 true = Some t /\ kprintint xx 10 true = Some t /\ read_int t = xx.
Proof.
  intros Hx. unfold uprintint, kprintint. cbn [andb]. destruct (Z.ltb_spec xx 0) as [Hn|Hn].
  - rewrite u32_small, u64_small by lia. destruct (print_number_decimal udigits (- xx) true udigits_decimal ltac:(lia)) as (t & Et & Hr & _).
    exists t. split_and!; [done| |lia]. rewrite <- Et. apply print_number_ext.
  - rewrite u32_small, u64_small by lia. destruct (print_number_decimal udigits xx false udigits_decimal ltac:(lia)) as (t & Et & Hr & _).
    exists t. split_and!; [done| |lia]. rewrite <- Et. apply print_number_ext.
Qed.

Lemma printint_roundtrip_witness : exists t, uprintint (-42) 10 true = Some t /\ kprintint (-42) 10 true = Some t /\ read_int t = -42.
Proof. apply (printint_roundtrip (-42)). lia. Defined.

(** ** The user library's state machine *)

Lemma loop_fuel printint digits : forall fuel fuel' fmt args, (length fmt < fuel)%nat -> (length fmt < fuel')%nat ->
  print_loop printint digits fuel fmt args = print_loop printint digits fuel' fmt args.
Proof.
  induction fuel as [|fuel IH]; intros fuel' fmt args H H'; [lia|]. destruct fuel' as [|fuel']; [lia|]. cbn [print_loop].
  destruct fmt as [|cx rest]; [done|]. cbn [length] in H, H'. rewrite (IH fuel' rest args) by lia. destruct (negb _); [done|].
  destruct rest as [|c0 rest]; [done|]. cbn [length] in H, H'. destruct (decode _ _ _) as [c more]. destruct (convert _ _ _ _ _) as [[t args']|]; [|done].
  rewrite (IH fuel' (drop more rest) args'); [done|rewrite length_drop; lia|rewrite length_drop; lia].
Qed.

Lemma vprintf_plain : forall n fuel fmt args, (length fmt <= n)%nat -> (length fmt < fuel)%nat ->
  vprintf fuel false fmt args = print_loop user_int udigits (S (length fmt)) fmt args.
Proof.
  induction n as [|n IH]; intros fuel fmt args Hn Hf; (destruct fuel as [|fuel]; [lia|]); (destruct fmt as [|cx rest]; [done|]); cbn [length] in Hn, Hf; [lia|].
  cbn [vprintf print_loop negb]. destruct (Z.eqb_spec cx PERCENT) as [->|Hc]; cbn [negb].
  - destruct fuel as [|fuel]; [lia|]. destruct rest as [|c0 rest]; [done|]. cbn [vprintf negb length] in *. destruct (decode _ _ _) as [c more].
    destruct (convert _ _ _ _ _) as [[t args']|]; [|done]. rewrite IH by (rewrite length_drop; lia).
    rewrite (loop_fuel user_int udigits (S (length (drop more rest))) (S (S (length rest)))) by (rewrite length_drop; lia). done.
  - by rewrite (IH fuel rest args) by lia.
Qed.

(** The two-state machine of the user library's [printf] prints exactly what
    a loop like the kernel's prints with the user library's conversions. *)
Theorem printf_state_machine (fmt : list Z) (args : list arg) :
  printf fmt args = print_loop user_int udigits (S (length fmt)) fmt args.
Proof. by apply (vprintf_plain (length fmt)); [|lia]. Qed.
