(* ===== verification/Ulib.v ===== *)
(** * User library: [atoi] and [gets] of [user/ulib.c]

    A string is the list of its characters before the NUL.  Standard input is
    the list of the bytes still to be read; [read] of one byte answers 0 at its
    end, and -1 when the call fails ([fails]).

    Theorems: [atoi] inverts the [%d] of [printf] on every non-negative [int],
    whatever follows the digits; [gets] takes one line, or what fits its
    buffer, and leaves the rest of the input to the next call. *)

From S2P Require Import Prelude Printf.

(** [while('0' <= *s && *s <= '9') n = n*10 + *s++ - '0';] on an [int] that wraps. *)
Fixpoint atoi_loop (n : Z) (s : list Z) : Z :=
  match s with
  | [] => n
  | c :: s' => if (48 <=? c) && (c <=? 57) then atoi_loop (s32 (n * 10 + c - 48)) s' else n
  end.
Definition atoi (s : list Z) : Z := atoi_loop 0 s.

(** [gets(buf, max)]: the string stored, and the input left; [fails k] is an
    error of the [k]-th read. *)
Fixpoint gets_loop (room : nat) (fails : nat -> bool) (k : nat) (input : list Z) : list Z * list Z :=
  match room with
  | O => ([], input)
  | S room' =>
      if fails k then ([], input)
      else
        match input with
        | [] => ([], input)
        | c :: input' =>
            if (c =? 10) || (c =? 13) then ([c], input')
            else let '(s, rest) := gets_loop room' fails (S k) input' in (c :: s, rest)
        end
  end.
Definition gets (max : Z) (fails : nat -> bool) (input : list Z) : list Z * list Z := gets_loop (Z.to_nat (max - 1)) fails 0 input.

(** ** [atoi] *)

(** Appending digits to the number read so far. *)
Definition read_more (n : Z) (t : list Z) : Z := foldl (fun n c => n * 10 + (c - 48)) n t.

Lemma read_more_mono t : forall n, Forall (fun c => 48 <= c <= 57) t -> 0 <= n -> n <= read_more n t.
Proof. unfold read_more. induction t as [|c t IH]; intros n Ht Hn; cbn; [lia|]. apply Forall_cons in Ht as [Hc Ht]. specialize (IH (n * 10 + (c - 48)) Ht ltac:(lia)). lia. Qed.

Lemma atoi_digits t rest : forall n, Forall (fun c => 48 <= c <= 57) t -> 0 <= n -> read_more n t < 2 ^ 31 ->
  (forall c, head rest = Some c -> c < 48 \/ 57 < c) -> atoi_loop n (t ++ rest) = read_more n t.
Proof.
  induction t as [|c t IH]; intros n Ht Hn Hb Hrest; cbn [app atoi_loop].
  - cbn. destruct rest as [|c rest]; [done|]. cbn [atoi_loop]. specialize (Hrest c eq_refl). destruct (Z.leb_spec 48 c), (Z.leb_spec c 57); cbn [andb]; lia || done.
  - apply Forall_cons in Ht as [Hc Ht]. destruct (Z.leb_spec 48 c), (Z.leb_spec c 57); [|lia..]. cbn [andb].
    change (read_more n (c :: t)) with (read_more (n * 10 + (c - 48)) t) in *. pose proof (read_more_mono t (n * 10 + (c - 48)) Ht ltac:(lia)).
    replace (n * 10 + c - 48) with (n * 10 + (c - 48)) by lia. rewrite s32_small by lia. apply IH; [done|lia|done|done].
Qed.

Lemma atoi_printed x rest : 0 <= x < 2 ^ 31 -> (forall c, head rest = Some c -> c < 48 \/ 57 < c) ->
  exists t, uprintint x 10 true = Some t /\ t <> [] /\ Forall (fun c => 48 <= c <= 57) t /\ atoi (t ++ rest) = x.
Proof.
  intros Hx Hrest. unfold uprintint. cbn [andb]. destruct (Z.ltb_spec x 0); [lia|]. rewrite u32_small by lia.
  destruct (print_number_decimal udigits x false udigits_decimal ltac:(lia)) as (t & -> & _ & Ht). destruct (Ht eq_refl) as (Hne & Hd & Hr).
  exists t. split_and!; [done|done|done|]. unfold atoi. rewrite atoi_digits; [done|done|lia| |done]. change (read_more 0 t) with (read_digits t). lia.
Qed.

(** [atoi] inverts [printf("%d")]: applied to the text of a non-negative
    [int] followed by anything that is not a digit, it returns the number. *)
Theorem atoi_inverts_printf (x : Z) (rest : list Z) : 0 <= x < 2 ^ 31 -> (forall c, head rest = Some c -> c < 48 \/ 57 < c) ->
  exists t, printf (bytes_of_string "%d") [Num x] = Some t /\ atoi (t ++ rest) = x.
Proof.
  intros Hx Hrest. destruct (atoi_printed x rest Hx Hrest) as (t & Et & _ & _ & Ha). exists t. split; [|done].
  unfold printf. change (bytes_of_string "%d") with [PERCENT; 100]. cbn [length vprintf negb]. change (PERCENT =? PERCENT) with true. cbv iota.
  change (decode 100 (nth 0 [] 0) (nth 1 [] 0)) with (Number false 10 true, 0%nat). cbn [convert]. unfold user_int. rewrite !(s32_small x) by lia. rewrite Et. cbn. by rewrite app_nil_r.
Qed.

Lemma atoi_inverts_printf_witness : exists t, printf (bytes_of_string "%d") [Num 2147483647] = Some t /\ atoi (t ++ [32; 57]) = 2147483647.
Proof. apply atoi_inverts_printf; [lia|]. intros c [= <-]. lia. Defined.

(** ** [gets] *)

(** The characters up to the first end of line, with it. *)
Fixpoint first_line (s : list Z) : list Z :=
  match s with
  | [] => []
  | c :: s' => if (c =? 10) || (c =? 13) then [c] else c :: first_line s'
  end.

Lemma gets_loop_spec room fails : forall k input, (forall j, fails j = false) ->
  gets_loop room fails k input = (take room (first_line input), drop (length (take room (first_line input))) input).
Proof.
  induction room as [|room IH]; intros k input Hf; [done|]. cbn [gets_loop]. rewrite Hf. destruct input as [|c input]; [done|]. cbn [first_line].
  destruct (_ || _); cbn [take]; [by rewrite take_nil|]. by rewrite IH.
Qed.

(** [gets] stores the first line of the input with its end, or as much of it
    as the buffer holds beside the NUL, and leaves exactly the rest unread. *)
Theorem gets_takes_line (max : Z) (fails : nat -> bool) (input : list Z) : 0 < max -> (forall j, fails j = false) ->
  let '(s, rest) := gets max fails input in
  s = take (Z.to_nat (max - 1)) (first_line input) /\ input = s ++ rest /\ Z.of_nat (length s) < max.
Proof.
  intros Hm Hf. unfold gets. rewrite gets_loop_spec by done. split; [done|]. split; [|rewrite length_take; lia].
  assert (Hp : exists l, input = first_line input ++ l).
  { clear. induction input as [|c input [l IH]]; [by exists []|]. cbn. destruct (_ || _); [by exists input|]. exists l. cbn. by rewrite <- IH. }
  destruct Hp as [l Hp]. set (p := take _ (first_line input)).
  assert (Hi : input = p ++ drop (Z.to_nat (max - 1)) (first_line input) ++ l) by (unfold p; by rewrite app_assoc, take_drop).
  clearbody p. rewrite Hi at 1. f_equal. rewrite Hi at 2. by rewrite drop_app_length.
Qed.

Lemma gets_takes_line_witness : let '(s, rest) := gets 4 (fun _ => false) [97; 98; 99; 100; 10] in
  s = take (Z.to_nat (4 - 1)) (first_line [97; 98; 99; 100; 10]) /\ [97; 98; 99; 100; 10] = s ++ rest /\ Z.of_nat (length s) < 4.
Proof. apply (gets_takes_line 4 (fun _ => false)); [lia|reflexivity]. Defined.
