(* ===== verification/Commands.v ===== *)
(** * Commands: [cp.c], [mv.c], [touch.c], [cat.c], [wc.c], [fact.c], [echo.c], [ls.c]

    What a command sees of the file system is [world]: the inode a path names,
    the contents of an inode, and what was written to standard output.  System
    calls act on it as their kernel code does; which calls fail, how many bytes
    a [read] delivers ([rd]: at most one more than the number given, [None] an
    error) and a [write] accepts ([wr]: [None] is all) are arguments, so the
    theorems hold for every behaviour of the kernel.  A command returns its exit
    status.

    Theorems: [cp] makes the destination start with the source and keeps what
    was beyond it; [mv] never loses the file; [wc] counts lines, words and
    characters however the input is delivered; [fact] prints the factorial of a
    number up to 12. *)

From S2P Require Import Prelude Block Printf Ulib.

Abbreviation str := (list Z).
Record world := mkworld { names : str -> option nat; contents : nat -> list Z; out : list Z }.

Definition set_name (a : str) (i : option nat) (w : world) : world :=
  mkworld (fun x => if decide (x = a) then i else names w x) (contents w) (out w).
Definition set_contents (i : nat) (d : list Z) (w : world) : world := mkworld (names w) (upd (contents w) i d) (out w).
Definition print (s : list Z) (w : world) : world := mkworld (names w) (contents w) (out w ++ s).

(** ** System calls *)

(** [open(a, O_RDONLY)] *)
Definition open_read (ok : bool) (a : str) (w : world) : option nat := if ok then names w a else None.
(** [open(a, O_CREATE | O_WRONLY)]: [new] is the inode allocated for a new file. *)
Definition open_create (ok : bool) (new : nat) (a : str) (w : world) : option (nat * world) :=
  if ok then
    match names w a with
    | Some i => Some (i, w)
    | None => Some (new, set_contents new [] (set_name a (Some new) w))
    end
  else None.
Definition link (ok : bool) (a b : str) (w : world) : option world :=
  match names w a, names w b with
  | Some i, None => if ok then Some (set_name b (Some i) w) else None
  | _, _ => None
  end.
Definition unlink (ok : bool) (a : str) (w : world) : option world :=
  match names w a with
  | Some _ => if ok then Some (set_name a None w) else None
  | None => None
  end.

(** A [read] of up to [req] bytes of a file from offset [off]. *)
Definition read_at (req m off : nat) (d : list Z) : list Z := take (Nat.min req (S m)) (drop off d).

(** ** The commands *)

(** The loop of [cp]: both offsets are [off]. *)
Fixpoint cp_loop (fuel : nat) (rd : nat -> option nat) (wr : nat -> option nat) (k src dst off : nat) (w : world) : Z * world :=
  match fuel with
  | O => (1, w)
  | S fuel' =>
      match rd k with
      | None => (0, w)
      | Some m =>
          match read_at 512 m off (contents w src) with
          | [] => (0, w)
          | buf =>
              let n := match wr k with None => length buf | Some a => Nat.min a (length buf) end in
              let w' := set_contents dst (splice off (take n buf) (contents w dst)) w in
              if (n =? length buf)%nat then cp_loop fuel' rd wr (S k) src dst (off + length buf) w' else (1, w')
          end
      end
  end.
Definition cp (argv : list str) (ok1 ok2 : bool) (new : nat) (rd wr : nat -> option nat) (w : world) : Z * world :=
  match argv with
  | [_; a; b] =>
      match open_read ok1 a w with
      | None => (1, w)
      | Some src =>
          match open_create ok2 new b w with
          | None => (1, w)
          | Some (dst, w') => cp_loop (S (length (contents w' src))) rd wr 0 src dst 0 w'
          end
      end
  | _ => (1, w)
  end.

Definition mv (argv : list str) (ok1 ok2 : bool) (w : world) : Z * world :=
  match argv with
  | [_; a; b] =>
      match link ok1 a b w with
      | None => (1, w)
      | Some w' => match unlink ok2 a w' with None => (1, w') | Some w'' => (0, w'') end
      end
  | _ => (1, w)
  end.

Definition touch (argv : list str) (ok1 ok2 : bool) (new : nat) (w : world) : Z * world :=
  match argv with
  | [_; a] =>
      match open_read ok1 a w with
      | Some _ => (1, w)
      | None => match open_create ok2 new a w with None => (1, w) | Some (_, w') => (0, w') end
      end
  | _ => (1, w)
  end.

(** [cat(fd)] of one file; the status is 1 on an error. *)
Fixpoint cat_loop (fuel : nat) (rd wr : nat -> option nat) (k off : nat) (d : list Z) (w : world) : Z * world :=
  match fuel with
  | O => (1, w)
  | S fuel' =>
      match rd k with
      | None => (1, w)
      | Some m =>
          match read_at 512 m off d with
          | [] => (0, w)
          | buf =>
              let n := match wr k with None => length buf | Some a => Nat.min a (length buf) end in
              let w' := print (take n buf) w in
              if (n =? length buf)%nat then cat_loop fuel' rd wr (S k) (off + length buf) d w' else (1, w')
          end
      end
  end.
Definition cat (rd wr : nat -> option nat) (d : list Z) (w : world) : Z * world := cat_loop (S (length d)) rd wr 0 0 d w.

(** [wc]: the counters [l], [w], [c] and [inword]. *)
Definition counts : Type := Z * Z * Z * bool.
Definition wc_space : list Z := [32; 13; 9; 10; 11].
Definition wc_char (x : Z) (s : counts) : counts :=
  let '(l, w, c, inword) := s in
  let c := s32 (c + 1) in
  let l := if x =? 10 then s32 (l + 1) else l in
  if bool_decide (x ∈ wc_space) then (l, w, c, false)
  else if negb inword then (l, s32 (w + 1), c, true)
  else (l, w, c, inword).
Definition wc_buf (buf : list Z) (s : counts) : counts := foldl (fun s x => wc_char x s) s buf.

Fixpoint wc_loop (fuel : nat) (rd : nat -> option nat) (k off : nat) (d : list Z) (s : counts) : option counts :=
  match fuel with
  | O => None
  | S fuel' =>
      match rd k with
      | None => None
      | Some m =>
          match read_at 512 m off d with
          | [] => Some s
          | buf => wc_loop fuel' rd (S k) (off + length buf) d (wc_buf buf s)
          end
      end
  end.
(** The text it prints. *)
Definition wc (rd : nat -> option nat) (d name : list Z) : option (list Z) :=
  match wc_loop (S (length d)) rd 0 0 d (0, 0, 0, false) with
  | None => Some (bytes_of_string "wc: read error" ++ [10])
  | Some (l, w, c, _) => printf (bytes_of_string "%d %d %d %s" ++ [10]) [Num l; Num w; Num c; Str (Some name)]
  end.

(** [fact] *)
Definition is_positive_number (s : str) : bool := forallb (fun c => (48 <=? c) && (c <=? 57)) s.
Fixpoint fact_loop (turns : nat) (i result : Z) : Z :=
  match turns with O => result | S n => fact_loop n (i + 1) (s32 (result * i)) end.
Definition fact_of (n : Z) : Z := fact_loop (Z.to_nat (n - 1)) 2 1.
(** The text on standard output and the exit status. *)
Definition fact (argv : list str) : option (list Z) * Z :=
  match argv with
  | [_; a] =>
      if negb (is_positive_number a) then (Some [], 1)
      else let n := atoi a in (printf (bytes_of_string "Factorial of %d is %d" ++ [10]) [Num n; Num (fact_of n)], 0)
  | _ => (Some [], 1)
  end.

(** [echo] *)
Fixpoint echo_args (args : list str) : list Z :=
  match args with
  | [] => []
  | [a] => a ++ [10]
  | a :: args' => a ++ [32] ++ echo_args args'
  end.
Definition echo (argv : list str) : list Z := echo_args (drop 1 argv).

(** [fmtname] of [ls]: the last element of the path, padded with blanks. *)
Definition DIRSIZ : nat := 14.
Fixpoint after_last_slash (p : list Z) : list Z :=
  match p with
  | [] => []
  | c :: p' => if bool_decide (47 ∈ p') then after_last_slash p' else if c =? 47 then p' else p
  end.
Definition fmtname (path : str) : str :=
  let p := after_last_slash path in
  if (DIRSIZ <=? length p)%nat then p else p ++ replicate (DIRSIZ - length p) 32.

(** ** [cp] *)

Lemma read_at_spec req m off d : (0 < req)%nat ->
  (read_at req m off d = [] <-> (length d <= off)%nat) /\
  take (off + length (read_at req m off d)) d = take off d ++ read_at req m off d.
Proof.
  intros Hreq. unfold read_at. split.
  - rewrite <- length_zero_iff_nil, length_take, length_drop. lia.
  - rewrite length_take, length_drop. set (k := Nat.min req (S m)). rewrite <- (take_drop off (take (off + _) d)) at 1.
    rewrite take_take, skipn_firstn_comm. replace (off `min` (off + k `min` (length d - off)))%nat with off by lia. f_equal.
    replace (off + k `min` (length d - off) - off)%nat with (k `min` (length d - off))%nat by lia.
    destruct (decide (k <= length d - off)%nat); [by rewrite Nat.min_l by lia|]. rewrite Nat.min_r by lia. rewrite !take_ge; rewrite ?length_drop; done || lia.
Qed.

Lemma splice_next (S O buf : list Z) off : take (off + length buf) S = take off S ++ buf -> (off <= length S)%nat ->
  splice off buf (take off S ++ drop off O) = take (off + length buf) S ++ drop (off + length buf) O.
Proof.
  intros Ht Hoff. unfold splice. assert (Hl : length (take off S) = off) by (rewrite length_take; lia).
  rewrite take_app_length' by done. rewrite Ht, <- app_assoc. do 2 f_equal.
  rewrite drop_app, Hl. rewrite drop_ge by lia. cbn [app]. rewrite drop_drop. f_equal. lia.
Qed.

Lemma cp_loop_spec rd src dst S O : (forall k, rd k <> None) -> forall fuel k off w, (length S - off < fuel)%nat -> (off <= length S)%nat ->
  contents w src = S -> contents w dst = take off S ++ drop off O ->
  exists w', cp_loop fuel rd (fun _ => None) k src dst off w = (0, w') /\ contents w' dst = S ++ drop (length S) O /\
    (forall i, i <> dst -> contents w' i = contents w i) /\ names w' = names w.
Proof.
  intros Hrd. induction fuel as [|fuel IH]; intros k off w Hf Hoff Hs Hd; [lia|]. cbn [cp_loop].
  destruct (rd k) as [m|] eqn:Hk; [|by destruct (Hrd k)]. rewrite Hs. destruct (read_at_spec 512 m off S ltac:(lia)) as [Hnil Htake].
  destruct (read_at 512 m off S) as [|x buf] eqn:Hbuf.
  - exists w. split; [done|]. assert (Ho : off = length S) by (pose proof (proj1 Hnil eq_refl); lia). split; [|done]. rewrite Hd, Ho. by rewrite take_ge by lia.
  - rewrite firstn_all, Nat.eqb_refl, Hd. set (b := x :: buf) in *. assert (Hb : (0 < length b)%nat) by (cbn; lia).
    assert (Hle : (off + length b <= length S)%nat) by (apply (f_equal length) in Htake; rewrite length_app, !length_take in Htake; lia).
    rewrite (splice_next S O b off Htake Hoff). clearbody b.
    match goal with |- context [cp_loop fuel _ _ _ _ _ _ ?w1] => set (w' := w1) end.
    assert (Hd' : contents w' dst = take (off + length b) S ++ drop (off + length b) O) by (cbn; apply upd_eq).
    assert (Hs' : contents w' src = S).
    { cbn. unfold upd. destruct (decide (src = dst)) as [He|]; [|done]. rewrite <- He, Hs in Hd.
      assert (HSO : drop off S = drop off O) by (rewrite Hd at 1; by rewrite drop_app_length' by (rewrite length_take; lia)).
      assert (HSO' : drop (off + length b) O = drop (off + length b) S) by (rewrite <- !drop_drop, HSO; done). by rewrite HSO', take_drop. }
    destruct (IH (1 + k)%nat (off + length b)%nat w' ltac:(lia) Hle Hs' Hd') as (w2 & E & H1 & H2 & H3).
    exists w2. split; [exact E|]. split; [done|]. split; [|done]. intros i Hi. rewrite H2 by done. cbn. by apply upd_ne.
Qed.

(** [cp a b], when no call fails, exits with 0 and leaves in [b] the bytes of
    [a] followed by whatever [b] held beyond them: the destination is not
    truncated.  Every other file keeps its contents, whatever the sizes of the
    reads. *)
Theorem cp_copies c a b new rd w src : names w a = Some src -> (forall x, names w x <> Some new) -> (forall k, rd k <> None) ->
  exists w' dst, cp [c; a; b] true true new rd (fun _ => None) w = (0, w') /\ names w' b = Some dst /\
    contents w' dst = contents w src ++ drop (length (contents w src)) (match names w b with Some _ => contents w dst | None => [] end) /\
    (forall i, i <> dst -> contents w' i = contents w i) /\ (forall x, x <> b -> names w' x = names w x).
Proof.
  intros Ha Hnew Hrd. unfold cp, open_read, open_create. rewrite Ha. assert (Hsn : src <> new) by (intros ->; by destruct (Hnew a)).
  destruct (names w b) as [dst|] eqn:Hb.
  - destruct (cp_loop_spec rd src dst (contents w src) (contents w dst) Hrd (1 + length (contents w src)) 0 0 w ltac:(lia) ltac:(lia) eq_refl eq_refl) as (w' & E & H1 & H2 & H3).
    exists w', dst. rewrite H3. by split_and!.
  - set (w1 := set_contents new [] (set_name b (Some new) w)). assert (Hs1 : contents w1 src = contents w src) by (cbn; by apply upd_ne).
    assert (Hd1 : contents w1 new = take 0 (contents w src) ++ drop 0 []) by (cbn; by rewrite upd_eq).
    destruct (cp_loop_spec rd src new (contents w src) [] Hrd (1 + length (contents w1 src)) 0 0 w1 ltac:(rewrite Hs1; lia) ltac:(lia) Hs1 Hd1) as (w' & E & H1 & H2 & H3).
    exists w', new. rewrite H3. split_and!; [done|by cbn; rewrite decide_True|done| |].
    + intros i Hi. rewrite H2 by done. cbn. by apply upd_ne.
    + intros x Hx. cbn. by rewrite decide_False.
Qed.

(** A longer destination keeps its tail. *)
Lemma cp_copies_witness : let w := mkworld (fun x => if decide (x = [97]) then Some 1%nat else if decide (x = [98]) then Some 2%nat else None)
    (fun i => if (i =? 1)%nat then [1; 2] else [7; 8; 9]) [] in
  exists w' dst, cp [[]; [97]; [98]] true true 3 (fun _ => Some 0%nat) (fun _ => None) w = (0, w') /\ names w' [98] = Some dst /\
    contents w' dst = [1; 2; 9].
Proof.
  intros w. destruct (cp_copies [] [97] [98] 3 (fun _ => Some 0%nat) w 1) as (w' & dst & H1 & H2 & H3 & _ & H5).
  - reflexivity.
  - intros x. cbn. destruct (decide (x = [97])); [done|]. by destruct (decide (x = [98])).
  - done.
  - exists w', dst. split; [exact H1|]. split; [exact H2|]. rewrite H3.
    assert (Hd : Some dst = Some 2%nat) by (rewrite <- H2; vm_compute in H1; by injection H1 as <-). injection Hd as ->. reflexivity.
Defined.

(** ** [mv] *)

(** [mv a b] never loses the file: when it exits with 0 the file is named by
    [b] instead of [a]; otherwise [a] still names it, and [b] either is
    unchanged or names it too.  No contents and no other names change. *)
Theorem mv_never_loses c a b ok1 ok2 w : let '(status, w') := mv [c; a; b] ok1 ok2 w in
  contents w' = contents w /\ (forall x, x <> a -> x <> b -> names w' x = names w x) /\
  if status =? 0 then names w' a = None /\ names w' b = names w a /\ names w a <> None
  else names w' a = names w a /\ (names w' b = names w b \/ names w b = None /\ names w' b = names w a).
Proof.
  unfold mv, link. destruct (names w a) as [i|] eqn:Ha; [|by cbn; rewrite Ha; auto]. destruct (names w b) as [j|] eqn:Hb; [by cbn; rewrite Ha, Hb; auto|].
  assert (Hne : a <> b) by (intros ->; congruence). destruct ok1; [|by cbn; rewrite Ha, Hb; auto].
  unfold unlink. cbn [names set_name]. rewrite decide_False, Ha by done. destruct ok2; cbn.
  - rewrite decide_True by done. rewrite (decide_False (P := b = a)), decide_True by done. split_and!; [done| |done|done|done].
    intros x H1 H2. by rewrite !decide_False.
  - rewrite decide_False, Ha, decide_True by done. split_and!; [done| |done|by right]. intros x H1 H2. by rewrite decide_False.
Qed.

(** ** [wc] *)

(** The reference: the maximal runs of characters between white space. *)
Fixpoint words_from (cur : list Z) (s : list Z) : list (list Z) :=
  match s with
  | [] => if decide (cur = []) then [] else [cur]
  | x :: s' =>
      if bool_decide (x ∈ wc_space) then (if decide (cur = []) then words_from [] s' else cur :: words_from [] s')
      else words_from (cur ++ [x]) s'
  end.
Definition words_of (s : list Z) : list (list Z) := words_from [] s.
Definition lines_of (s : list Z) : nat := length (filter (fun x => x = 10) s).

(** The words that begin in [s], inside a word or not. *)
Fixpoint starts_in (inword : bool) (s : list Z) : nat :=
  match s with
  | [] => 0
  | x :: s' => if bool_decide (x ∈ wc_space) then starts_in false s' else (if inword then 0 else 1) + starts_in true s'
  end.
Fixpoint ends_in (inword : bool) (s : list Z) : bool :=
  match s with [] => inword | x :: s' => ends_in (negb (bool_decide (x ∈ wc_space))) s' end.

Lemma starts_words s : forall cur, length (words_from cur s) = ((if decide (cur = []) then 0 else 1) + starts_in (negb (bool_decide (cur = []))) s)%nat.
Proof.
  induction s as [|x s IH]; intros cur; cbn [words_from starts_in].
  - by destruct (decide (cur = [])).
  - destruct (bool_decide (x ∈ wc_space)).
    + destruct (decide (cur = [])); cbn [length]; by rewrite IH.
    + rewrite IH. assert (Hne : cur ++ [x] <> []) by (by destruct cur). rewrite decide_False, (bool_decide_eq_false_2 (cur ++ [x] = [])) by done.
      destruct (decide (cur = [])) as [->|Hc]; [by rewrite bool_decide_eq_true_2|]. by rewrite bool_decide_eq_false_2.
Qed.

Lemma wc_buf_spec s : forall l w c inword, 0 <= l -> 0 <= w -> 0 <= c -> l + Z.of_nat (length s) < 2 ^ 31 -> w + Z.of_nat (length s) < 2 ^ 31 -> c + Z.of_nat (length s) < 2 ^ 31 ->
  wc_buf s (l, w, c, inword) = (l + Z.of_nat (lines_of s), w + Z.of_nat (starts_in inword s), c + Z.of_nat (length s), ends_in inword s).
Proof.
  unfold wc_buf, lines_of. induction s as [|x s IH]; intros l w c inword Hl Hw Hc H1 H2 H3; [cbn; by rewrite !Z.add_0_r|].
  cbn [foldl length] in *. rewrite filter_cons.
  assert (Hstep : wc_char x (l, w, c, inword) = ((if decide (x = 10) then l + 1 else l),
    (if bool_decide (x ∈ wc_space) then w else if inword then w else w + 1), c + 1, negb (bool_decide (x ∈ wc_space)))).
  { unfold wc_char. rewrite !s32_small by lia. destruct (Z.eqb_spec x 10), (decide (x = 10)); try done; destruct (bool_decide (x ∈ wc_space)), inword; done. }
  rewrite Hstep, IH by (repeat case_match; lia). cbn [starts_in ends_in].
  destruct (decide (x = 10)), (bool_decide (x ∈ wc_space)), inword; cbn [negb length];
    (apply (f_equal2 pair); [apply (f_equal2 pair); [apply (f_equal2 pair)|]|done]; lia).
Qed.

Lemma wc_loop_spec rd d : (forall k, rd k <> None) -> forall fuel k off s, (length d - off < fuel)%nat -> (off <= length d)%nat ->
  wc_loop fuel rd k off d (wc_buf (take off d) s) = Some (wc_buf d s).
Proof.
  intros Hrd. induction fuel as [|fuel IH]; intros k off s Hf Hoff; [lia|]. cbn [wc_loop]. destruct (rd k) as [m|] eqn:Hk; [|by destruct (Hrd k)].
  destruct (read_at_spec 512 m off d ltac:(lia)) as [Hnil Htake]. destruct (read_at 512 m off d) as [|x buf].
  - pose proof (proj1 Hnil eq_refl). by rewrite take_ge by lia.
  - set (b := x :: buf) in *. assert (Hb : (0 < length b)%nat) by (cbn; lia). clearbody b.
    assert (Hle : (off + length b <= length d)%nat) by (apply (f_equal length) in Htake; rewrite length_app, !length_take in Htake; lia).
    replace (wc_buf b (wc_buf (take off d) s)) with (wc_buf (take (off + length b) d) s) by (rewrite Htake; unfold wc_buf; apply foldl_app). apply IH; lia.
Qed.

(** [wc] prints the number of lines, of words and of characters of its
    input, however the reads cut it. *)
Theorem wc_counts rd d name : (forall k, rd k <> None) -> Z.of_nat (length d) < 2 ^ 31 ->
  wc rd d name = printf (bytes_of_string "%d %d %d %s" ++ [10])
    [Num (Z.of_nat (lines_of d)); Num (Z.of_nat (length (words_of d))); Num (Z.of_nat (length d)); Str (Some name)].
Proof.
  intros Hrd Hlen. unfold wc. pose proof (wc_loop_spec rd d Hrd (S (length d)) 0 0 (0, 0, 0, false) ltac:(lia) ltac:(lia)) as E.
  change (wc_buf (take 0 d) (0, 0, 0, false)) with ((0, 0, 0, false) : counts) in E. rewrite E, wc_buf_spec by lia. cbv iota beta. rewrite !Z.add_0_l.
  unfold words_of. by rewrite starts_words, decide_True.
Qed.

Lemma wc_counts_witness : wc (fun _ => Some 2%nat) (bytes_of_string "a bc" ++ [10]) [120] =
  printf (bytes_of_string "%d %d %d %s" ++ [10]) [Num 1; Num 2; Num 5; Str (Some [120])].
Proof. exact (wc_counts (fun _ => Some 2%nat) (bytes_of_string "a bc" ++ [10]) [120] ltac:(done) ltac:(cbn; lia)). Defined.

(** ** [fact] *)

(** [i * (i + 1) * ... ], [n] factors, and the factorial. *)
Fixpoint product (n : nat) (i : Z) : Z := match n with O => 1 | S n' => i * product n' (i + 1) end.
Definition factorial (n : Z) : Z := product (Z.to_nat n) 1.

Lemma s32_mul a b : s32 (s32 a * b) = s32 (a * b).
Proof.
  unfold s32 at 2. rewrite (Z.mod_eq (a + 2 ^ 31)) by lia. set (k := (a + 2 ^ 31) / 2 ^ 32).
  unfold s32. f_equal. rewrite <- (Z.mod_add (a * b + 2 ^ 31) (- k * b) (2 ^ 32)) by lia. f_equal. lia.
Qed.

Lemma fact_loop_spec n : forall i r, fact_loop n i (s32 r) = s32 (r * product n i).
Proof.
  induction n as [|n IH]; intros i r; cbn [fact_loop product]; [by rewrite Z.mul_1_r|]. rewrite s32_mul, IH. f_equal. lia.
Qed.

Lemma fact_of_spec n : 0 <= n -> fact_of n = s32 (factorial n).
Proof.
  intros Hn. unfold fact_of, factorial. change 1 with (s32 1) at 2. rewrite fact_loop_spec. f_equal.
  destruct (decide (n = 0)) as [->|]; [done|]. replace (Z.to_nat n) with (S (Z.to_nat (n - 1))) by lia. cbn [product]. change (1 + 1) with 2. lia.
Qed.

(** [fact] accepts the decimal text of every non-negative [int] [n] and
    prints [n] with its factorial reduced to 32 bits, which up to 12 is the
    factorial itself. *)
Theorem fact_prints c n : 0 <= n < 2 ^ 31 ->
  exists t, uprintint n 10 true = Some t /\
    fact [c; t] = (printf (bytes_of_string "Factorial of %d is %d" ++ [10]) [Num n; Num (s32 (factorial n))], 0) /\
    (n <= 12 -> s32 (factorial n) = factorial n).
Proof.
  intros Hn. destruct (atoi_printed n [] Hn ltac:(done)) as (t & Et & _ & Hd & Ha). rewrite app_nil_r in Ha. exists t. split; [done|]. split.
  - unfold fact. assert (Hp : is_positive_number t = true).
    { apply forallb_forall. intros x Hx. rewrite Forall_forall in Hd. specialize (Hd x ltac:(by apply list_elem_of_In)). apply andb_true_iff. rewrite !Z.leb_le. lia. }
    rewrite Hp. cbn [negb]. cbv zeta. rewrite Ha, fact_of_spec by lia. done.
  - intros H12. assert (Hs : Forall (fun k => s32 (factorial k) = factorial k) (Z.of_nat <$> seq 0 13)) by (repeat constructor).
    rewrite Forall_forall in Hs. apply Hs. apply list_elem_of_fmap. exists (Z.to_nat n). rewrite elem_of_seq. lia.
Qed.

Lemma fact_prints_witness : exists t, uprintint 12 10 true = Some t /\
  fact [[]; t] = (printf (bytes_of_string "Factorial of %d is %d" ++ [10]) [Num 12; Num (s32 (factorial 12))], 0) /\ (12 <= 12 -> s32 (factorial 12) = factorial 12).
Proof. apply (fact_prints [] 12). lia. Defined.

(** ** [cat] *)

Lemma cat_loop_spec rd d : (forall k, rd k <> None) -> forall fuel k off w, (length d - off < fuel)%nat -> (off <= length d)%nat ->
  cat_loop fuel rd (fun _ => None) k off d w = (0, print (drop off d) w).
Proof.
  intros Hrd. induction fuel as [|fuel IH]; intros k off w Hf Hoff; [lia|]. cbn [cat_loop]. destruct (rd k) as [m|] eqn:Hk; [|by destruct (Hrd k)].
  destruct (read_at_spec 512 m off d ltac:(lia)) as [Hnil Htake]. destruct (read_at 512 m off d) as [|x buf].
  - pose proof (proj1 Hnil eq_refl). rewrite drop_ge by lia. unfold print. rewrite app_nil_r. by destruct w.
  - rewrite firstn_all, Nat.eqb_refl. set (b := x :: buf) in *. assert (Hb : (0 < length b)%nat) by (cbn; lia). clearbody b.
    assert (Hle : (off + length b <= length d)%nat) by (apply (f_equal length) in Htake; rewrite length_app, !length_take in Htake; lia).
    rewrite IH by lia. unfold print. cbn [names contents out]. rewrite <- app_assoc. do 3 f_equal.
    assert (Hsplit : drop off (take (off + length b) d) = b) by (rewrite Htake; apply drop_app_length'; rewrite length_take; lia).
    rewrite <- Hsplit at 1. rewrite skipn_firstn_comm. replace (off + length b - off)%nat with (length b) by lia. rewrite <- drop_drop. apply take_drop.
Qed.

(** [cat] prints its input, however the reads cut it. *)
Lemma cat_prints rd d w : (forall k, rd k <> None) -> cat rd (fun _ => None) d w = (0, print d w).
Proof. intros Hrd. unfold cat. by rewrite cat_loop_spec by (done || lia). Qed.
