(* ===== verification/ShMain.v ===== *)
(** * The shell's loop and [init]: [main] and [getcmd] of [sh.c], [init.c]

    The shell reads lines from standard input ([gets] of [Ulib.v]), changes
    directory itself and runs every other line in a child, which parses it and
    calls [runcmd] ([Sh.v]).  A run is the list of its [event]s.  Which reads
    and forks fail are arguments.

    Theorems: the shell first makes sure that descriptors 0, 1 and 2 are open
    and leaves no other one open; it then handles every line of the input, in
    order and once.  [init] starts one shell after another. *)

From S2P Require Import Prelude Ulib Sh ShParse ShRun.

(** ** The three descriptors *)

Definition O_RDWR : Z := 0x002.
Definition console : endpoint := Opened (bytes_of_string "console") O_RDWR.

(** [ok k]: the [k]-th [open("console", O_RDWR)] succeeds. *)
Fixpoint open_console (fuel : nat) (ok : nat -> bool) (k : nat) (t : fds) : fds :=
  match fuel with
  | O => t
  | S fuel' =>
      if ok k then
        match alloc console t with
        | None => t
        | Some (fd, t') => if (3 <=? fd)%nat then close fd t' else open_console fuel' ok (S k) t'
        end
      else t
  end.

(** Three descriptors can be missing: at most four calls. *)
Definition ensure_fds (ok : nat -> bool) (t : fds) : fds := open_console 4 ok 0 t.

Lemma close_alloc e t fd t' : alloc e t = Some (fd, t') -> close fd t' = t.
Proof.
  revert fd t'. induction t as [|[x|] t IH]; intros fd t' H; cbn [alloc] in H; [done| |].
  - destruct (alloc e t) as [[k t'']|]; [|done]. injection H as <- <-. cbn. f_equal. by apply IH.
  - by injection H as <- <-.
Qed.

(** The loop ends with the first three descriptors open; those that were open
    keep their files, the others are the console, and no descriptor above
    them changes. *)
Lemma ensure_fds_opens ok a b c t : (forall k, ok k = true) ->
  let or_console := fun x : option endpoint => Some (default console x) in
  ensure_fds ok (a :: b :: c :: t) = or_console a :: or_console b :: or_console c :: t.
Proof.
  intros Hok. unfold ensure_fds.
  assert (Hend : forall fuel k x y z, (0 < fuel)%nat -> open_console fuel ok k (Some x :: Some y :: Some z :: t) = Some x :: Some y :: Some z :: t).
  { intros [|fuel] k x y z Hf; [lia|]. cbn [open_console alloc]. rewrite Hok. destruct (alloc console t) as [[fd t']|] eqn:Ha; [|done].
    cbn [Nat.leb]. unfold close. cbn. do 3 f_equal. by apply (close_alloc console). }
  assert (Hstep : forall fuel k u fd u', alloc console u = Some (fd, u') -> (fd < 3)%nat -> open_console (S fuel) ok k u = open_console fuel ok (S k) u').
  { intros fuel k u fd u' Ha Hlt. cbn [open_console]. rewrite Hok, Ha. by destruct (Nat.leb_spec 3 fd); [lia|]. }
  destruct a as [x|], b as [y|], c as [z|];
    repeat (first [apply Hend; lia|erewrite Hstep; [|reflexivity|lia]]).
Qed.

(** ** The loop *)

(** [getcmd(buf, 100)]: the string in [buf], [None] at the end of the input. *)
Definition getcmd (fails : nat -> bool) (input : list Z) : option (list Z) * list Z :=
  let '(s, rest) := gets 100 fails input in
  let buf := cstring s 0 in
  if hd 0 buf =? 0 then (None, rest) else (Some buf, rest).

Definition is_cd (buf : list Z) : bool := (nth 0 buf 0 =? 99) && (nth 1 buf 0 =? 100) && (nth 2 buf 0 =? 32).
(** [buf[strlen(buf)-1] = 0], then [buf+3]. *)
Definition cd_path (buf : list Z) : list Z := drop 3 (removelast buf).

Inductive event :=
| Chdir (path : list Z)
| Command (buf : list Z) (child : process)
| Exited (status : Z).

Section Shell.
Context (open_ok : list Z -> Z -> bool) (pipe_ok : list bool -> bool) (fork_ok : list bool -> bool -> bool).
Context (fails : nat -> nat -> bool) (shell_fork : nat -> bool) (t : fds).

(** [runcmd(parsecmd(buf))] in the child. *)
Definition child (buf : list Z) : process :=
  match parsecmd buf with
  | Parsed (c, buf') _ => runcmd open_ok pipe_ok fork_ok [] (strings buf' c) t
  | _ => Exit 1
  end.

Fixpoint sh_loop (fuel : nat) (k : nat) (input : list Z) : list event :=
  match fuel with
  | O => []
  | S fuel' =>
      match getcmd (fails k) input with
      | (None, _) => [Exited 0]
      | (Some buf, rest) =>
          if is_cd buf then Chdir (cd_path buf) :: sh_loop fuel' (S k) rest
          else if shell_fork k then Command buf (child buf) :: sh_loop fuel' (S k) rest
          else [Exited 1]
      end
  end.

(** Every command takes at least one character of the input. *)
Definition sh_main (input : list Z) : list event := sh_loop (S (length input)) 0 input.

(** What a line asks for. *)
Definition line_event (l : list Z) : event :=
  if decide (take 3 l = [99; 100; 32]) then Chdir (drop 3 l) else Command (l ++ [10]) (child (l ++ [10])).
Definition line_ok (l : list Z) : Prop := Forall (fun c => c <> 0 /\ c <> 10 /\ c <> 13) l /\ (length l <= 98)%nat.

Lemma first_line_app l rest : Forall (fun c => c <> 0 /\ c <> 10 /\ c <> 13) l -> first_line (l ++ 10 :: rest) = l ++ [10].
Proof.
  induction l as [|c l IH]; [done|]. intros [(_ & H1 & H2) Hl]%Forall_cons. cbn [app first_line].
  destruct (Z.eqb_spec c 10), (Z.eqb_spec c 13); try done. cbn [orb]. by rewrite IH.
Qed.

Lemma cstring_all s : Forall (fun c => c <> 0) s -> cstring s 0 = s.
Proof.
  intros Hs. unfold cstring. rewrite drop_0. induction Hs as [|c s Hc Hs IH]; [done|]. cbn [span].
  destruct (Z.eqb_spec c 0); [done|]. cbn [negb take]. by rewrite IH.
Qed.

Lemma getcmd_line k l rest : (forall i j, fails i j = false) -> line_ok l -> getcmd (fails k) (l ++ 10 :: rest) = (Some (l ++ [10]), rest).
Proof.
  intros Hf [Hl Hn]. unfold getcmd, gets. rewrite gets_loop_spec by apply Hf. rewrite first_line_app by done.
  change (Z.to_nat (100 - 1)) with 99%nat. rewrite take_ge by (rewrite length_app; cbn [length]; lia).
  rewrite cstring_all.
  - assert (Hh : hd 0 (l ++ [10]) <> 0) by (destruct Hl as [|c l [Hc _] _]; done).
    destruct (Z.eqb_spec (hd 0 (l ++ [10])) 0); [done|]. f_equal. replace (l ++ 10 :: rest) with ((l ++ [10]) ++ rest) by (by rewrite <- app_assoc).
    by rewrite drop_app_length.
  - apply Forall_app_2; [|by apply Forall_singleton]. eapply Forall_impl; [exact Hl|]. by intros c [? _].
Qed.

Lemma is_cd_line l : is_cd (l ++ [10]) = bool_decide (take 3 l = [99; 100; 32]).
Proof.
  unfold is_cd. destruct l as [|a [|b [|c l]]]; cbn [app nth take].
  1-3: rewrite bool_decide_eq_false_2 by done; rewrite ?andb_false_r; done.
  destruct (Z.eqb_spec a 99) as [->|], (Z.eqb_spec b 100) as [->|], (Z.eqb_spec c 32) as [->|]; cbn [andb]; symmetry;
    first [apply bool_decide_eq_true_2; done|apply bool_decide_eq_false_2; congruence].
Qed.

Lemma sh_loop_lines lines : (forall i j, fails i j = false) -> (forall k, shell_fork k = true) -> Forall line_ok lines ->
  forall fuel k, (length lines < fuel)%nat ->
  sh_loop fuel k (concat ((fun l => l ++ [10]) <$> lines)) = (line_event <$> lines) ++ [Exited 0].
Proof.
  intros Hf Hk. induction lines as [|l lines IH]; intros Hl fuel k Hfuel; destruct fuel as [|fuel]; cbn [length] in Hfuel; try lia.
  - cbn [fmap list_fmap concat sh_loop]. unfold getcmd, gets. rewrite gets_loop_spec by apply Hf. done.
  - apply Forall_cons in Hl as [Hl Hls]. cbn [fmap list_fmap concat sh_loop]. rewrite <- app_assoc. cbn [app].
    rewrite getcmd_line, is_cd_line, Hk by done. rewrite (IH Hls) by lia. unfold line_event.
    case_decide as Hc.
    + rewrite bool_decide_eq_true_2 by done. unfold cd_path. by rewrite removelast_last.
    + by rewrite bool_decide_eq_false_2.
Qed.

(** Given lines of at most 98 characters without NULs or carriage returns,
    and reads and forks that succeed, the shell treats each line once and in
    order: it changes directory itself for [cd], with the rest of the line as
    the path, runs every other line in a child of its own, and exits with 0
    at the end of the input. *)
Theorem sh_handles_lines lines : (forall i j, fails i j = false) -> (forall k, shell_fork k = true) -> Forall line_ok lines ->
  sh_main (concat ((fun l => l ++ [10]) <$> lines)) = (line_event <$> lines) ++ [Exited 0].
Proof.
  intros Hf Hk Hl. apply sh_loop_lines; [done|done|done|]. clear. induction lines as [|l lines IH]; [cbn; lia|].
  cbn [fmap list_fmap concat length]. rewrite !length_app. cbn [length]. unfold fmap in *. lia.
Qed.
End Shell.

Lemma sh_handles_lines_witness :
  let lines := [bytes_of_string "cd /a"; bytes_of_string "ls"] in
  exists p, sh_main (fun _ _ => true) (fun _ => true) (fun _ _ => true) (fun _ _ => false) (fun _ => true) []
    (concat ((fun l => l ++ [10]) <$> lines)) = [Chdir (bytes_of_string "/a"); Command (bytes_of_string "ls" ++ [10]) p; Exited 0].
Proof.
  intros lines. eexists. unfold lines. rewrite (sh_handles_lines (fun _ _ => true) (fun _ => true) (fun _ _ => true) (fun _ _ => false) (fun _ => true) []).
  - reflexivity.
  - reflexivity.
  - reflexivity.
  - repeat constructor; discriminate.
Defined.

(** ** [init] *)

(** Where [init] is: about to fork, waiting for the shell [pid], in the child
    that becomes the shell, or gone. *)
Inductive init_pc := IFork | IWait (pid : Z) | IChild | IExit (status : Z).

(** One system call with the kernel's answer: [fork], then [wait]. *)
Definition init_step (pc : init_pc) (answer : Z) : init_pc :=
  match pc with
  | IFork => if answer <? 0 then IExit 1 else if answer =? 0 then IChild else IWait answer
  | IWait pid => if answer =? pid then IFork else if answer <? 0 then IExit 1 else IWait pid
  | _ => pc
  end.

(** While the kernel reports orphans, [init] keeps waiting for its shell; when
    the shell itself ends, it forks the next one. *)
Lemma init_restarts pid orphans : 0 < pid -> Forall (fun p => 0 < p /\ p <> pid) orphans ->
  foldl init_step (init_step IFork pid) orphans = IWait pid /\
  foldl init_step (init_step IFork pid) (orphans ++ [pid]) = IFork.
Proof.
  intros Hp Ho. assert (H0 : init_step IFork pid = IWait pid).
  { cbn. destruct (Z.ltb_spec pid 0), (Z.eqb_spec pid 0); done || lia. }
  assert (Hw : foldl init_step (IWait pid) orphans = IWait pid).
  { induction Ho as [|p l [H1 H2] Hl IH]; [done|]. cbn [foldl init_step]. destruct (Z.eqb_spec p pid), (Z.ltb_spec p 0); done || lia. }
  rewrite foldl_app, H0, Hw. split; [done|]. cbn. by rewrite Z.eqb_refl.
Qed.
