(* ===== verification/Ls.v ===== *)
(** * Small commands: [ls.c], [rm.c], [mkdir.c], [ln.c], [kill.c], [add.c]

    [ls] sees the file system through [view]: which paths open, what [stat]
    answers, and the entries of a directory.  The other commands act on the
    [world] of [Commands.v]; [ok k] says whether the [k]-th system call succeeds.
    Only standard output is modelled, messages for standard error are not.

    Theorems: [ls] of a directory prints one line for each entry in use, with
    its name padded to 14 columns; [rm] removes its arguments up to the first
    that it cannot remove, and nothing else; [add] prints the sum. *)

From S2P Require Import Prelude Block Printf Ulib Commands.

(** ** [ls] *)

Record view := mkview {
  v_open : str -> bool;                      (* open(path, O_RDONLY) >= 0 *)
  v_fstat : str -> option (Z * Z * Z);       (* fstat: type, ino, size *)
  v_stat : str -> option (Z * Z * Z);        (* stat *)
  v_entries : str -> list (Z * list Z)       (* struct dirent: inum, name[14] *)
}.

Definition say (fmt : string) (args : list arg) : list Z := default [] (printf (bytes_of_string fmt) args).

Definition ls_line (path : str) (st : Z * Z * Z) : list Z :=
  let '(type, ino, size) := st in
  say "%s %d %d %d" [Str (Some (fmtname path)); Num (s32 type); Num (s32 ino); Num (s32 size)] ++ [10].

(** The string after [memmove(p, de.name, DIRSIZ); p[DIRSIZ] = 0]. *)
Fixpoint upto_nul (n : nat) (s : list Z) : list Z :=
  match n, s with
  | S n', c :: s' => if c =? 0 then [] else c :: upto_nul n' s'
  | _, _ => []
  end.
Definition entry_path (path : str) (name : list Z) : str := path ++ [47] ++ upto_nul DIRSIZ name.

Definition ls_entry (v : view) (path : str) (de : Z * list Z) : list Z :=
  if de.1 =? 0 then []
  else
    let buf := entry_path path de.2 in
    match v_stat v buf with
    | None => say "ls: cannot stat %s" [Str (Some buf)] ++ [10]
    | Some st => ls_line buf st
    end.

Definition ls (v : view) (path : str) : list Z :=
  if negb (v_open v path) then []
  else
    match v_fstat v path with
    | None => []
    | Some (type, ino, size) =>
        if (type =? 3) || (type =? 2) then ls_line path (type, ino, size)
        else if type =? 1 then
          if (512 <? length path + 1 + DIRSIZ + 1)%nat then say "ls: path too long" [] ++ [10]
          else concat (ls_entry v path <$> v_entries v path)
        else []
    end.
Definition ls_main (v : view) (argv : list str) : list Z :=
  match argv with
  | [] | [_] => ls v [46]
  | _ :: args => concat (ls v <$> args)
  end.

Lemma after_last_slash_name p name : 47 ∉ name -> after_last_slash (p ++ 47 :: name) = name.
Proof.
  intros Hn. induction p as [|c p IH]; cbn [app after_last_slash].
  - by rewrite bool_decide_eq_false_2.
  - rewrite bool_decide_eq_true_2; [done|]. apply elem_of_app. right. apply list_elem_of_here.
Qed.

Definition pad14 (name : list Z) : list Z := name ++ replicate (DIRSIZ - length name) 32.

Lemma length_upto_nul n s : (length (upto_nul n s) <= n)%nat.
Proof. revert s. induction n as [|n IH]; intros [|c s]; cbn; try lia. destruct (c =? 0); cbn; [lia|]. specialize (IH s). lia. Qed.

Lemma fmtname_entry path name : 47 ∉ upto_nul DIRSIZ name -> fmtname (entry_path path name) = pad14 (upto_nul DIRSIZ name).
Proof.
  intros Hn. unfold fmtname, entry_path. cbn [app]. rewrite after_last_slash_name by done. unfold pad14.
  pose proof (length_upto_nul DIRSIZ name). destruct (Nat.leb_spec DIRSIZ (length (upto_nul DIRSIZ name))); [|done].
  replace (DIRSIZ - _)%nat with 0%nat by lia. by rewrite app_nil_r.
Qed.

(** [ls] of a directory whose entries in use have no slash in their names and
    can be examined prints a line for each of them, in the order of the
    directory: the name padded to 14 columns, the type, the inode number and
    the size. *)
Theorem ls_lists_directory v path ino size : v_open v path = true -> v_fstat v path = Some (1, ino, size) ->
  (length path <= 496)%nat ->
  (forall de, de ∈ v_entries v path -> de.1 <> 0 -> (47 ∉ upto_nul DIRSIZ de.2) /\ v_stat v (entry_path path de.2) <> None) ->
  ls v path = concat ((fun de =>
    let '(type, ino, size) := default (0, 0, 0) (v_stat v (entry_path path de.2)) in
    say "%s %d %d %d" [Str (Some (pad14 (upto_nul DIRSIZ de.2))); Num (s32 type); Num (s32 ino); Num (s32 size)] ++ [10])
    <$> filter (fun de => de.1 <> 0) (v_entries v path)).
Proof.
  intros Ho Hf Hl He. unfold ls. rewrite Ho, Hf. cbn [negb]. change ((1 =? 3) || (1 =? 2)) with false. change (1 =? 1) with true. cbv iota.
  destruct (Nat.ltb_spec 512 (length path + 1 + DIRSIZ + 1)) as [Hc|_]; [unfold DIRSIZ in Hc; lia|].
  revert He. generalize (v_entries v path). intros l. induction l as [|de l IH]; intros He; [done|].
  cbn [fmap list_fmap concat]. rewrite IH by (intros x Hx; apply He; by apply list_elem_of_further).
  unfold ls_entry. destruct (Z.eqb_spec (de.1) 0) as [Hz|Hz].
  - rewrite filter_cons_False by tauto. done.
  - rewrite filter_cons_True by done. cbn [fmap list_fmap concat]. f_equal.
    destruct (He de (list_elem_of_here _ _) Hz) as [Hn Hs]. destruct (v_stat v (entry_path path de.2)) as [[[ty i] sz]|]; [|done].
    cbn [default ls_line]. unfold id. by rewrite fmtname_entry.
Qed.

(** ** [rm], [mkdir], [ln] *)

Fixpoint rm_loop (ok : nat -> bool) (k : nat) (args : list str) (w : world) : world :=
  match args with
  | [] => w
  | a :: args' => match unlink (ok k) a w with None => w | Some w' => rm_loop ok (S k) args' w' end
  end.
Definition rm (argv : list str) (ok : nat -> bool) (w : world) : Z * world :=
  match argv with
  | [] | [_] => (1, w)
  | _ :: args => (0, rm_loop ok 0 args w)
  end.

(** [mkdir(a)]: [new] is the inode allocated. *)
Definition mkdir_call (ok : bool) (new : nat) (a : str) (w : world) : option world :=
  match names w a with
  | Some _ => None
  | None => if ok then Some (set_name a (Some new) w) else None
  end.
Fixpoint mkdir_loop (ok : nat -> bool) (new : nat -> nat) (k : nat) (args : list str) (w : world) : world :=
  match args with
  | [] => w
  | a :: args' => match mkdir_call (ok k) (new k) a w with None => w | Some w' => mkdir_loop ok new (S k) args' w' end
  end.
Definition mkdir (argv : list str) (ok : nat -> bool) (new : nat -> nat) (w : world) : Z * world :=
  match argv with
  | [] | [_] => (1, w)
  | _ :: args => (0, mkdir_loop ok new 0 args w)
  end.

Definition ln (argv : list str) (ok : bool) (w : world) : Z * world :=
  match argv with
  | [_; a; b] => (0, default w (link ok a b w))
  | _ => (1, w)
  end.

(** [rm] removes a prefix of its arguments and nothing else, leaves the
    contents of files alone, and stops early only at an argument that does
    not exist or that the kernel refuses to remove. *)
Theorem rm_removes ok : forall args k w, exists n, (n <= length args)%nat /\
  (forall x, names (rm_loop ok k args w) x = if decide (x ∈ take n args) then None else names w x) /\
  contents (rm_loop ok k args w) = contents w /\
  (n = length args \/ exists a, args !! n = Some a /\ (ok (k + n)%nat = false \/ names (rm_loop ok k args w) a = None)).
Proof.
  induction args as [|a args IH]; intros k w; cbn [rm_loop].
  - exists 0%nat. split; [done|]. split; [intros x; rewrite decide_False; [done|]; rewrite ?take_0, elem_of_nil; tauto|]. split; [done|by left].
  - assert (Hstop : unlink (ok k) a w = None -> ok k = false \/ names w a = None).
    { unfold unlink. destruct (names w a); [|by right]. destruct (ok k); [done|by left]. }
    destruct (unlink (ok k) a w) as [w'|] eqn:Hu.
    + assert (w' = set_name a None w) as ->.
      { unfold unlink in Hu. destruct (names w a); [|done]. destruct (ok k); [|done]. by injection Hu as <-. }
      destruct (IH (S k) (set_name a None w)) as (n & H1 & H2 & H3 & H4). exists (S n). cbn [length take]. split; [lia|]. split; [|split].
      * intros x. rewrite H2. cbn [set_name names]. destruct (decide (x ∈ take n args)) as [Hx|Hx].
        { rewrite decide_True; [done|by apply list_elem_of_further]. }
        destruct (decide (x = a)) as [->|Hne].
        { rewrite decide_True; [done|apply list_elem_of_here]. }
        rewrite decide_False; [done|]. rewrite elem_of_cons. tauto.
      * exact H3.
      * destruct H4 as [->|(b & Hb & H4)]; [by left|right]. exists b. split; [done|]. by rewrite Nat.add_succ_r, <- Nat.add_succ_l.
    + exists 0%nat. split; [lia|]. split; [intros x; rewrite decide_False; [done|]; rewrite ?take_0, elem_of_nil; tauto|]. split; [done|]. right. exists a.
      split; [done|]. rewrite Nat.add_0_r. exact (Hstop eq_refl).
Qed.

(** ** [kill] and [add] *)

(** The numbers [kill] passes to the kernel. *)
Definition kill_pids (argv : list str) : option (list Z) :=
  match argv with
  | [] | [_] => None
  | _ :: args => Some (atoi <$> args)
  end.

(** A text that does not start with a digit stands for process 0. *)
Lemma kill_not_a_number c s : c < 48 \/ 57 < c -> atoi (c :: s) = 0.
Proof. intros H. unfold atoi. cbn [atoi_loop]. destruct (Z.leb_spec 48 c), (Z.leb_spec c 57); cbn [andb]; done || lia. Qed.

Definition add (a b : str) : list Z := say "Sum = %d" [Num (s32 (atoi a + atoi b))] ++ [10].

(** [add] prints the sum of two numbers whose sum is an [int]. *)
Theorem add_prints_sum x y : 0 <= x -> 0 <= y -> x + y < 2 ^ 31 ->
  exists tx ty ts, uprintint x 10 true = Some tx /\ uprintint y 10 true = Some ty /\ uprintint (x + y) 10 true = Some ts /\
    add tx ty = bytes_of_string "Sum = " ++ ts ++ [10].
Proof.
  intros Hx Hy Hs. destruct (atoi_printed x [] ltac:(lia)) as (tx & Ex & _ & _ & Ax); [done|].
  destruct (atoi_printed y [] ltac:(lia)) as (ty & Ey & _ & _ & Ay); [done|]. destruct (atoi_printed (x + y) [] ltac:(lia)) as (ts & Es & _ & _ & _); [done|].
  exists tx, ty, ts. split; [done|]. split; [done|]. split; [done|]. rewrite app_nil_r in Ax, Ay. unfold add, say. rewrite Ax, Ay, s32_small by lia.
  enough (H : printf (bytes_of_string "Sum = %d") [Num (x + y)] = Some (bytes_of_string "Sum = " ++ ts)) by (rewrite H; cbn [default]; unfold id; by rewrite <- app_assoc).
  unfold printf. change (bytes_of_string "Sum = %d") with ([83; 117; 109; 32; 61; 32] ++ [PERCENT; 100]).
  cbn [length app vprintf negb Z.eqb Pos.eqb PERCENT]. change (decode 100 (nth 0 [] 0) (nth 1 [] 0)) with (Number false 10 true, 0%nat).
  cbn [convert]. unfold user_int. rewrite !(s32_small (x + y)) by lia. rewrite Es. cbn. by rewrite app_nil_r.
Qed.
