(* ===== verification/Multi.v ===== *)
(** * A running system: user programs under the scheduler and the trap handlers

    The whole of [trap.c], [syscall.c], [sysproc.c] and [proc.c] at work on one
    CPU: user processes are programs that make system calls, every call goes
    through [usertrap], a process that sleeps or exits gives the CPU back to
    [scheduler], and the clock interrupts when the argument [clock] says so.
    What a slot of the process table is doing while it does not run is its
    [thread]: what is left of the kernel function it sleeps in, and of its
    program.

    The kernel of this machine is exactly that of the files it uses; the
    memory and files of the processes are any instance of [Services], with
    [load_int] for what a program reads of its memory.  [tiny] is an instance
    that computes. *)

From S2P Require Import Prelude Block ProcDef Proc Sched ProcTable Sysproc Trap.

(** ** Programs *)

(** The process system calls, with their numbers in [kernel/syscall.h]. *)
Inductive pcall := Pfork | Pexit | Pwait | Pkill | Pgetpid | Psleep | Puptime.
Definition sysno (c : pcall) : Z :=
  match c with Pfork => 1 | Pexit => 2 | Pwait => 3 | Pkill => 6 | Pgetpid => 11 | Psleep => 13 | Puptime => 14 end.
#[export] Instance pcall_eq_dec : EqDecision pcall.
Proof. solve_decision. Defined.

(** [Call c a0 k]: the stub of [user/usys.pl], an [ecall] with [a7] the number
    of [c]; [k] has the [int] it returns.  [Load a k]: the [int] at address [a].
    [Forever c a0]: the call in an infinite loop. *)
Inductive prog :=
| Call (c : pcall) (a0 : Z) (k : Z -> prog)
| Load (a : Z) (k : Z -> prog)
| Forever (c : pcall) (a0 : Z).

Definition fork_ (k : Z -> prog) : prog := Call Pfork 0 k.
Definition wait_ (addr : Z) (k : Z -> prog) : prog := Call Pwait addr k.
Definition kill_ (pid : Z) (k : Z -> prog) : prog := Call Pkill pid k.
Definition sleep_ (n : Z) (k : Z -> prog) : prog := Call Psleep n k.
Definition getpid_ (k : Z -> prog) : prog := Call Pgetpid 0 k.
(** [exit] does not return. *)
Definition exit_ (status : Z) : prog := Call Pexit status (fun _ => Forever Pexit status).

(** ** The machine *)

Inductive thread :=
| User (p : prog)                             (* in user mode *)
| Forked (p : prog)                           (* about to run forkret *)
| Preempted (p : prog)                        (* in yield, in usertrap *)
| Waiting (addr : Z) (k : Z -> prog)          (* asleep in wait *)
| Sleeping (n ticks0 : Z) (k : Z -> prog).    (* asleep in sys_sleep *)

(** The [int] at an address of the user memory of a page table. *)
Class Loads (E : Type) := load_int : Z -> Z -> E -> Z.

Section Machine.
Context {E : Type} `{!Services E, !Loads E}.

Record machine := mkm { sys : @sysstate E; threads : list (option thread) }.

Abbreviation X := (M machine).

Definition onsys {A} (c : M (@sysstate E) A) : X A := fun m =>
  match c (sys m) with Done a s => Done a (mkm s (threads m)) | Panic msg => Panic msg end.
Definition onk {A} (c : M (kernel E) A) : X A := onsys (lift c).
Definition set_thread (i : nat) (t : option thread) : X unit := modify (fun m => mkm (sys m) (<[i := t]> (threads m))).
Definition get_thread (i : nat) : X (option thread) := gets (fun m => default None (threads m !! i)).

(** File system calls and device interrupts do not occur here. *)
Definition no_files (f : sysfn) : M (@sysstate E) outcome := panic "file call".
Definition no_device : M (@sysstate E) unit := panic "device".

(** Trap registers: an [ecall], and the timer, from user mode and from the scheduler. *)
Definition g_ecall : trapregs := mkregs 0 8 0 0 0 0 0.
Definition g_timer : trapregs := mkregs 0 0x8000000000000005 0 0 0 0 0.
Definition g_idle : trapregs := mkregs 0 0x8000000000000005 0 SSTATUS_SPP 0 0 0.

Definition trap (g : trapregs) : X trapped := onsys (usertrap no_files no_device no_device 0 0 g).

(** [a0] as an [int]. *)
Definition result_of (i : nat) : X Z := let! p := onk (getp i) in ret (s32 (default 0 (tf p !! TF_a0))).

(** What a call that switched away left to do. *)
Definition suspended (i : nat) (c : pcall) (a0 ticks0 : Z) (k : Z -> prog) : X (option thread) :=
  let! p := onk (getp i) in
  ret (if decide (state p = ZOMBIE) then None
       else if decide (c = Pwait) then Some (Waiting a0 k)
       else Some (Sleeping (Z.max 0 (s32 a0)) ticks0 k)).

(** The child of a [fork], a process without a thread, continues behind the
    same call. *)
Definition is_ready (p : proc) : bool := bool_decide (state p = RUNNABLE \/ state p = SLEEPING).
Definition adopt_thread (t : thread) (p : proc) (o : option thread) : option thread :=
  match o with Some _ => o | None => if is_ready p then Some t else None end.
Definition start_child (p : prog) : X unit :=
  modify (fun m => mkm (sys m) (zip_with (adopt_thread (Forked p)) (procs (kern (sys m))) (threads m))).

Definition ecall (i : nat) (c : pcall) (a0 : Z) (k : Z -> prog) : X unit :=
  let! t0 := onk (gets ticks) in
  onk (modp i (fun p => set_tf (<[TF_a7 := u64 (sysno c)]> (<[TF_a0 := u64 a0]> (tf p))) p)) ;;
  let! r := trap g_ecall in
  (if decide (c = Pfork) then start_child (k 0) else ret tt) ;;
  match r with
  | ToUser _ => let! v := result_of i in set_thread i (Some (User (k v)))
  | Away =>
      let! t := suspended i c a0 t0 k in
      set_thread i t ;;
      onk (scheduler_return i)
  end.

(** A process in user mode takes a step, or the timer interrupts it. *)
Definition user_step (timer : bool) (i : nat) (p : prog) : X unit :=
  if timer then
    let! r := trap g_timer in
    match r with
    | ToUser _ => ret tt
    | Away =>
        let! q := onk (getp i) in
        set_thread i (if decide (state q = ZOMBIE) then None else Some (Preempted p)) ;;
        onk (scheduler_return i)
    end
  else
    match p with
    | Call c a0 k => ecall i c a0 k
    | Load a k =>
        let! q := onk (getp i) in
        let! e := onk (gets env) in
        set_thread i (Some (User (k (load_int (pagetable q) a e))))
    | Forever c a0 => ecall i c a0 (fun _ => Forever c a0)
    end.

(** The end of [usertrap] after a system call returned [r]. *)
Definition resumed (i : nat) (r : outcome) (k : Z -> prog) : X unit :=
  match r with
  | Switched => onk (scheduler_return i)
  | Returns v =>
      onk (set_tf_word i TF_a0 v) ;;
      let! killed_ := onk (is_killed i) in
      if negb (killed_ =? 0) then onk (exit (-1)) ;; set_thread i None ;; onk (scheduler_return i)
      else
        let! _ := onk (usertrapret 0 0 g_ecall) in
        let! w := result_of i in
        set_thread i (Some (User (k w)))
  end.

(** A process continues where it gave up the CPU. *)
Definition resume (i : nat) (t : thread) : X unit :=
  match t with
  | User _ => panic "running twice"
  | Forked p => let! _ := onk (forkret 0 0 false (ret tt) g_ecall) in set_thread i (Some (User p))
  | Preempted p =>
      onk yield_return ;; let! _ := onk (usertrapret 0 0 g_ecall) in set_thread i (Some (User p))
  | Waiting a k => let! r := onk (sys_wait_resume a) in resumed i r k
  | Sleeping n t0 k => let! r := onk (sys_sleep_resume n t0) in resumed i r k
  end.

(** One step of the CPU: in a process, or in the scheduler, which waits for the
    timer when nothing is RUNNABLE. *)
Definition cpu_step (timer : bool) : X unit :=
  let! c := onk (gets curproc) in
  match c with
  | Some i =>
      let! t := get_thread i in
      match t with Some (User p) => user_step timer i p | _ => panic "no program" end
  | None =>
      let! r := onk scheduler_iter in
      match r with
      | Some i => let! t := get_thread i in match t with Some t => resume i t | None => panic "no thread" end
      | None => let! _ := onsys (kerneltrap no_device no_device false g_idle) in ret tt
      end
  end.

(** Steps number [n], [n + 1], ... *)
Fixpoint cycles (count : nat) (clock : Z -> bool) (n : Z) : X unit :=
  match count with O => ret tt | S count' => cpu_step (clock n) ;; cycles count' clock (n + 1) end.

(** Steps from number [n] on, until slot 1 has exited: its status. *)
Fixpoint steps (fuel : nat) (clock : Z -> bool) (n : Z) : X Z :=
  match fuel with
  | O => panic "fuel"
  | S fuel' =>
      let! p := onk (getp 1) in
      if decide (state p = ZOMBIE) then ret (xstate p)
      else cpu_step (clock n) ;; steps fuel' clock (n + 1)
  end.

(** The machine after [procinit] and [userinit], with the scheduler mode and
    the services given; the first process runs [p]. *)
Definition zero_kernel (mode : Z) (e : E) : kernel E :=
  mkkernel (replicate NPROC proc0) [] None None 1 0 mode 0 0 0 0 [] e.
Definition boot (mode : Z) (e : E) (p : prog) : result machine unit :=
  match boot_procs (zero_kernel mode e) with
  | Done _ k => Done tt (mkm (mksys k 0 0 0) (zip_with (adopt_thread (Forked p)) (procs k) (replicate NPROC None)))
  | Panic msg => Panic msg
  end.
End Machine.
Arguments machine E : clear implicits.

(** ** Services that compute *)

(** Free pages, and what [copyout] stored in each page table's memory. *)
Definition tiny : Type := list Z * list (Z * Z * list Z).
Definition tiny_take (e : tiny) : Z * tiny := match e.1 with [] => (0, e) | pa :: l => (pa, (l, e.2)) end.
#[export] Instance tiny_services : Services tiny := {|
  kalloc_page := tiny_take;
  kfree_page := fun pa e => Done tt (pa :: e.1, e.2);
  make_pagetable := fun _ e => let '(pa, e') := tiny_take e in Done pa e';
  free_pagetable := fun pt _ e => Done tt (pt :: e.1, filter (fun x => x.1.1 <> pt) e.2);
  uvm_copy := fun old new _ e =>
    Done 0 (e.1, ((fun x => (new, x.1.2, x.2)) <$> filter (fun x => x.1.1 = old) e.2) ++ e.2);
  uvm_alloc := fun _ _ newsz _ e => Done newsz e;
  uvm_dealloc := fun _ _ newsz e => Done newsz e;
  uvm_first := fun _ e => Done tt e;
  copy_out := fun pt a bs e => Done 0 (e.1, (pt, a, bs) :: filter (fun x => x.1 <> (pt, a)) e.2);
  file_dup := fun f e => Done f e;
  file_close := fun f e => Done [] e;
  inode_dup := fun ip e => Done ip e;
  inode_put := fun _ e => Done [] e;
  root_inode := fun e => Done 1 e;
  uninit_byte := 0;
  forkret_pc := 0x80001000
|}.
#[export] Instance tiny_loads : Loads tiny := fun pt a e =>
  match list_find (fun x => x.1 = (pt, a)) e.2 with Some (_, x) => s32 (of_le x.2) | None => 0 end.
