(* ===== verification/MultiSafe.v ===== *)
(** * A running system never panics

    Theorem [system_never_panics]: whatever the user programs do with the
    process system calls and whenever the clock interrupts, the machine of
    [Multi.v] never stops in a panic of the kernel, except the one it has for
    the exit of init.  Every step keeps [sys_ok]: the invariant of the process
    table ([ProcTable.v]) holds, the running process and no other is in user
    mode, and every process that waits for the CPU or for an event has
    something to continue with.  [ProcRuns.v] has the progress of the kernel
    functions, this file their composition in [usertrap], [syscall] and the
    scheduler. *)

From S2P Require Import Prelude ProcDef Proc ProcFacts Sched ProcLife ProcInv ProcTable ProcRuns Sysproc Trap Multi.

(** ** Computations that return, or panic because init exits *)

Definition survives {S A} (c : M S A) (s : S) (Q : A -> S -> Prop) : Prop :=
  (exists a t, c s = Done a t /\ Q a t) \/ c s = Panic "init exiting".

Lemma survives_ret {S A} (a : A) (s : S) (Q : A -> S -> Prop) : Q a s -> survives (ret a) s Q.
Proof. intros H. left. by exists a, s. Qed.
Lemma survives_bind {S A B} (c : M S A) (k : A -> M S B) s Q :
  survives c s (fun a t => survives (k a) t Q) -> survives (bind c k) s Q.
Proof.
  intros [(a & t & Ha & H)|Hp].
  - destruct H as [(b & u & Hb & Hu)|Hp]; [left|right]; [exists b, u; split; [|done]|]; by rewrite (bind_Done _ _ _ _ _ Ha).
  - right. unfold bind. by rewrite Hp.
Qed.
Lemma survives_post {S A} (c : M S A) s (Q R : A -> S -> Prop) :
  survives c s R -> (forall a t, R a t -> Q a t) -> survives c s Q.
Proof. intros [(a & t & Ha & H)|Hp] HQ; [left; exists a, t; auto|by right]. Qed.
Lemma survives_Done {S A} (c : M S A) s a t (Q : A -> S -> Prop) : c s = Done a t -> Q a t -> survives c s Q.
Proof. intros Hc HQ. left. eauto. Qed.

Lemma survives_step {S A B} (c : M S A) (k : A -> M S B) s a t Q :
  c s = Done a t -> survives (k a) t Q -> survives (bind c k) s Q.
Proof. intros Hc Hk. apply survives_bind. left. eauto. Qed.

Section Kernel.
Context {E : Type} `{!Services E, !TotalServices E}.
Abbreviation K := (M (kernel E)).
Implicit Types (k : kernel E) (me : option nat).

(** ** Steps that leave every process where it is *)

(** Only sleeping processes other than the current one change state, to RUNNABLE. *)
Definition tame k k' : Prop :=
  same_globals k k' /\ forall i p, procs k !! i = Some p -> exists p', procs k' !! i = Some p' /\
    pid p' = pid p /\ parent p' = parent p /\
    (state p' = state p \/ (state p = SLEEPING /\ state p' = RUNNABLE /\ curproc k <> Some i)).

#[global] Instance tame_preorder : PreOrder tame.
Proof.
  split.
  - intros k. split; [done|]. intros i p Hp. exists p. auto 10.
  - intros k1 k2 k3 ((Hc & Hi & Hn & Hl) & H1) ((Hc' & Hi' & Hn' & Hl') & H2).
    split; [split_and!; congruence|]. intros i p Hp.
    destruct (H1 i p Hp) as (p1 & Hp1 & ? & ? & S1). destruct (H2 i p1 Hp1) as (p2 & Hp2 & ? & ? & S2).
    exists p2. split; [done|]. split; [congruence|]. split; [congruence|].
    destruct S1 as [?|(? & ? & ?)], S2 as [?|(? & ? & ?)]; first [left; congruence | right; split_and!; congruence].
Qed.

Lemma quiet_tame k k' : quiet k k' -> tame k k'.
Proof.
  intros (Hg & _ & H). split; [done|]. intros i p Hp. destruct (H i p Hp) as (p' & ? & ? & ? & _ & _ & ?). eauto 10.
Qed.

Lemma table_ok_tame k k' : table_ok k -> tame k k' -> held k' = [] -> table_ok k'.
Proof.
  intros Hok ((Hc & Hi & Hn & Hl) & Hs) Hh.
  assert (Hpull : forall i p', procs k' !! i = Some p' -> exists p, procs k !! i = Some p /\ pid p' = pid p /\
    parent p' = parent p /\ (state p' = state p \/ (state p = SLEEPING /\ state p' = RUNNABLE /\ curproc k <> Some i))).
  { intros i p' Hp'. destruct (lookup_lt_is_Some_2 (procs k) i) as [p Hp]; [rewrite <- Hl; by eapply lookup_lt_Some|].
    exists p. split; [done|]. destruct (Hs i p Hp) as (p1 & ? & ?). by simplify_eq. }
  apply (table_ok_relabel k); [done| |done| |].
  - split; [done|]. split; [done|]. split; [done|]. intros i p' Hp'.
    destruct (Hpull i p' Hp') as (p & Hp & ? & ? & Hst). exists p. repeat (split; [done|]).
    destruct Hst as [?|(Hsl & ? & _)]; [by left|right]. split; [by left|]. unfold live. by rewrite Hsl.
  - intros i p' Hp'. rewrite Hc. destruct (Hpull i p' Hp') as (p & Hp & _ & _ & Hst).
    rewrite <- (ok_running k Hok i p Hp). destruct Hst as [->|(-> & -> & _)]; done.
  - intros i. rewrite Hc. by apply (ok_curproc k Hok).
Qed.

Lemma tame_getp i : keeps tame (getp i).
Proof. intros k a k' H. by apply quiet_tame, (keeps_getp i k a). Qed.
Lemma tame_svc {A} (f : E -> result E A) : keeps tame (svc f).
Proof. intros k a k' H. by apply quiet_tame, (keeps_svc f k a). Qed.
Lemma tame_wakeup c : keeps tame (wakeup c).
Proof. intros k a k' H. by apply quiet_tame, (keeps_wakeup c k a). Qed.
Lemma tame_modp i (f : proc -> proc) :
  (forall p, pid (f p) = pid p /\ parent (f p) = parent p /\ state (f p) = state p) -> keeps tame (modp i f).
Proof.
  intros Hf k a k' H. injection H as _ <-. split; [split_and!; try done; cbn; by rewrite length_alter|].
  intros j p Hp. cbn [procs set_procs]. destruct (decide (j = i)) as [->|Hne].
  - rewrite list_lookup_alter_eq, Hp. destruct (Hf p) as (? & ? & ?). eexists. eauto 10.
  - rewrite list_lookup_alter_ne by done. eauto 10.
Qed.
Lemma tame_modify (f : kernel E -> kernel E) :
  (forall k, same_globals k (f k) /\ procs (f k) = procs k) -> keeps tame (modify f).
Proof.
  intros Hf k a k' H. injection H as _ <-. destruct (Hf k) as [Hg Hp]. split; [done|].
  intros i p Hi. rewrite Hp. eauto 10.
Qed.
Lemma tame_acquire l : keeps tame (acquire l).
Proof. intros k a k' H. apply acquire_inv in H as [_ ->]. split; [done|]. intros i p Hp. cbn. eauto 10. Qed.
Lemma tame_release l : keeps tame (release l).
Proof. intros k a k' H. unfold release in H. case_decide; [|done]. injection H as _ <-. split; [done|]. intros i p Hp. cbn. eauto 10. Qed.

Create HintDb tame discriminated.
#[local] Hint Resolve tame_getp tame_svc tame_wakeup tame_acquire tame_release : tame.
Ltac tame_tac :=
  repeat match goal with
  | |- keeps tame (bind _ _) => apply (keeps_bind _); [|intros ?]
  | |- keeps tame (for_each _ _) => apply (keeps_for_each _); intros ?
  | |- keeps tame (when _ _) => apply (keeps_when _)
  | |- keeps tame (modp _ _) => apply tame_modp; intros ?; by auto
  | |- keeps tame (modify _) => apply tame_modify; intros ?; unfold same_globals; cbn; by auto 10
  | |- keeps tame (match ?x with _ => _ end) => destruct x
  | |- keeps tame (ret _) => apply (keeps_ret _)
  | |- keeps tame (gets _) => apply (keeps_gets _)
  | |- _ => by auto with tame
  end.

(** ** What a step of the kernel leaves *)

Definition ready k (i : nat) : Prop := exists p, procs k !! i = Some p /\ (state p = RUNNABLE \/ state p = SLEEPING).

Lemma tame_ready k k' i : tame k k' -> ready k' i -> ready k i.
Proof.
  intros ((_ & _ & _ & Hl) & H) (p' & Hp' & Hs). destruct (lookup_lt_is_Some_2 (procs k) i) as [p Hp].
  { rewrite <- Hl. by eapply lookup_lt_Some. }
  destruct (H i p Hp) as (p1 & Hp1 & _ & _ & Hst). simplify_eq. exists p. split; [done|].
  destruct Hst as [<-|(-> & _)]; auto.
Qed.

(** The current process is still [me]; no process became ready. *)
Definition calm me k k' : Prop :=
  table_ok k' /\ curproc k' = me /\ nextpid k' = nextpid k /\ forall j, ready k' j -> ready k j.
(** Process [i] is about to switch to the scheduler. *)
Definition away (i : nat) k k' : Prop :=
  curproc k' = Some i /\ held k' = [LProc i] /\ table_ok (set_curproc None (set_held [] k')) /\
  nextpid k' = nextpid k /\ forall j, j <> i -> ready k' j -> ready k j.

Lemma calm_refl me k : table_ok k -> curproc k = me -> calm me k k.
Proof. intros Hok Hc. split_and!; auto. Qed.
Lemma calm_trans me k1 k2 k3 : calm me k1 k2 -> calm me k2 k3 -> calm me k1 k3.
Proof. intros (? & ? & ? & ?) (? & ? & ? & ?). split_and!; auto; congruence. Qed.
Lemma calm_away me i k1 k2 k3 : calm me k1 k2 -> away i k2 k3 -> away i k1 k3.
Proof. intros (? & ? & ? & ?) (? & ? & ? & ? & ?). split_and!; auto; congruence. Qed.

Lemma shape_of me k : table_ok k -> curproc k = me -> shape me [] k.
Proof. intros Hok Hc. split; [apply (ok_len k Hok)|]. split; [apply (ok_held k Hok)|done]. Qed.

(** A computation that returns with the locks it started with, and is tame. *)
Lemma calm_of {A} me (c : K A) k :
  runs (shape me []) c (fun _ => shape me []) -> keeps tame c -> table_ok k -> curproc k = me ->
  survives c k (fun _ k' => calm me k k').
Proof.
  intros Hr Ht Hok Hc. destruct (Hr k (shape_of me k Hok Hc)) as (a & k' & Hd & _ & Hh & Hc').
  apply (survives_Done _ _ _ _ _ Hd). pose proof (Ht _ _ _ Hd) as Hk. split; [by apply (table_ok_tame k)|].
  split; [done|]. split; [apply Hk|]. intros j. by apply (tame_ready k k').
Qed.

Lemma current_lt k i : table_ok k -> curproc k = Some i -> (i < NPROC)%nat.
Proof. intros Hok. by apply (ok_curproc k Hok). Qed.

(** ** Switching away *)

Lemma exit_zombie i status k : table_ok k -> curproc k = Some i ->
  survives (exit status) k (fun _ k' => away i k k' /\ ~ ready k' i).
Proof.
  intros Hok Hc. destruct (decide (initproc k = Some i)) as [Hi|Hi].
  { right. by apply (exit_init_panics _ _ i). }
  pose proof (current_lt k i Hok Hc) as Hlt.
  destruct (runs_exit i status Hlt k) as ([] & k' & Hd & Hl & Hh & Hc'); [by split; [apply shape_of|]|].
  apply (survives_Done _ _ _ _ _ Hd).
  apply (exit_inv i) in Hd; [|done|done|apply (ok_len k Hok)|apply (ok_held k Hok)].
  split.
  - split; [done|]. split; [done|]. split; [by apply (table_ok_exited i status k)|].
    split; [apply (exit_globals _ _ _ _ Hd)|]. intros j Hne (p' & Hp' & Hs).
    destruct (exit_effect_pull _ _ _ _ _ _ Hd Hp') as (p & Hp & _ & _ & _ & Hst). rewrite decide_False in Hst by done.
    exists p. split; [done|]. destruct Hst as [<-|[-> _]]; auto.
  - intros (p' & Hp' & Hs). destruct (exit_effect_pull _ _ _ _ _ _ Hd Hp') as (p & _ & _ & _ & _ & Hst).
    rewrite decide_True in Hst by done. rewrite Hst in Hs. by destruct Hs.
Qed.
Lemma away_exit i status k : table_ok k -> curproc k = Some i ->
  survives (exit status) k (fun _ k' => away i k k').
Proof. intros Hok Hc. eapply survives_post; [by apply exit_zombie|]. by intros ? ? []. Qed.

(** The current process stops in a waiting state. *)
Lemma away_switch i k k' f : table_ok k -> curproc k = Some i ->
  (forall p, pid (f p) = pid p /\ parent (f p) = parent p /\ waiting_state (f p)) ->
  k' = set_held [LProc i] (set_procs (alter f i (procs k)) k) -> away i k k'.
Proof.
  intros Hok Hc Hf ->. split; [done|]. split; [done|]. split; [by apply (table_ok_switch_out i k _ f)|].
  split; [done|]. intros j Hne (p & Hp & Hs). cbn [procs set_held set_procs] in Hp.
  rewrite list_lookup_alter_ne in Hp by done. by exists p.
Qed.

Lemma away_yield i k : table_ok k -> curproc k = Some i -> survives yield_enter k (fun _ k' => away i k k').
Proof.
  intros Hok Hc. destruct (table_ok_current k i Hok Hc) as (p & Hp & _).
  eapply survives_Done; [by apply (yield_enter_Done i p); [|apply ok_held|]|].
  apply (away_switch i k _ (set_state RUNNABLE)); try done. intros q. repeat split. by left.
Qed.

(** The scheduler takes over. *)
Lemma away_return i k k' : away i k k' -> scheduler_return i k' = Done tt (set_curproc None (set_held [] k')).
Proof.
  intros (_ & Hh & _). unfold scheduler_return. by rewrite (bind_release _ []) by (done || apply not_elem_of_nil).
Qed.

(** ** System calls *)

Definition returned (i : nat) k (r : option Z) k' : Prop :=
  match r with Some _ => calm (Some i) k k' | None => away i k k' end.

Lemma wait_round_survives i addr k : table_ok k -> curproc k = Some i ->
  survives (wait_round addr) (set_held [LWait] k) (returned i k).
Proof.
  intros Hok Hc. pose proof (current_lt k i Hok Hc) as Hlt. set (s := set_held [LWait] k).
  assert (Hs : table_ok (set_held [] s)) by (by apply table_ok_drop_held).
  destruct (runs_wait_round i addr Hlt s) as (r & t & Hd & Hl & Hh & Hc').
  { split; [apply (ok_len k Hok)|done]. }
  apply (survives_Done _ _ _ _ _ Hd). apply (wait_round_inv _ i) in Hd; [|done|apply (ok_len k Hok)|done].
  destruct r as [v|]; cbn [returned].
  - split; [by apply (table_ok_wait i s v)|]. split; [done|]. inversion Hd as [j p e Hp|j p e Hp|Hn|]; subst; (split; [done|]).
    + intros x (q & Hq & Hst). cbn [procs set_env set_procs set_held] in Hq. destruct (decide (x = j)) as [->|Hne].
      * rewrite list_lookup_insert_eq in Hq by (by eapply lookup_lt_Some). injection Hq as <-. cbn in Hst. by destruct Hst.
      * rewrite list_lookup_insert_ne in Hq by done. by exists q.
    + intros x (q & Hq & Hst). by exists q.
    + intros x (q & Hq & Hst). by exists q.
  - inversion Hd; subst. eapply (away_switch i k _ (fun p => set_state SLEEPING (set_chan (ProcChan i) p))); [done|done| |].
    + intros q. repeat split. by right.
    + done.
Qed.

Lemma sleep_round_survives i n t0 k : table_ok k -> curproc k = Some i ->
  survives (sleep_round n t0) (set_held [LTicks] k)
    (fun r k' => match r with Returns _ => calm (Some i) k k' | Switched => away i k k' end).
Proof.
  intros Hok Hc. pose proof (current_lt k i Hok Hc) as Hlt. set (s := set_held [LTicks] k).
  destruct (table_ok_current k i Hok Hc) as (p & Hp & _).
  assert (Hback : set_held [] s = k) by (destruct k; pose proof (ok_held _ Hok) as Hh; cbn in *; by subst).
  assert (Hrel : forall v, survives (release LTicks ;; ret (Returns v)) s
    (fun r k' => match r with Returns _ => calm (Some i) k k' | Switched => away i k k' end)).
  { intros v. eapply survives_Done; [by rewrite (bind_release _ []) by (done || apply not_elem_of_nil)|].
    cbn beta iota. rewrite Hback. by apply calm_refl. }
  unfold sleep_round. apply (survives_step _ _ _ (ticks s) s); [done|]. destruct (u32 _ <? n); [|apply Hrel].
  apply (survives_step _ _ _ i s). { unfold cur. cbn [curproc set_held s]. by rewrite Hc. }
  apply (survives_step _ _ _ (killed p) s). { apply is_killed_Done; [done|]. cbn. set_solver. }
  destruct (negb _); [apply Hrel|].
  destruct (runs_sleep_enter i TicksChan LTicks Hlt ltac:(done) s) as ([] & t & Hd & _).
  { split; [apply (ok_len k Hok)|done]. }
  apply survives_bind, (survives_Done _ _ _ _ _ Hd), survives_ret.
  apply (sleep_enter_inv i) in Hd as ->; [|done|done|done].
  apply (away_switch i k _ (fun p => set_state SLEEPING (set_chan TicksChan p))); try done.
  intros q. repeat split. by right.
Qed.

(** Back in user mode, or gone to the scheduler; a [fork] may add a process. *)
Definition back (fk : bool) (i : nat) k k' : Prop :=
  table_ok k' /\ curproc k' = Some i /\ nextpid k' <= nextpid k + 1 /\
  (fk = false -> forall j, ready k' j -> ready k j).
Definition gone (fk : bool) (i : nat) k k' : Prop :=
  curproc k' = Some i /\ held k' = [LProc i] /\ table_ok (set_curproc None (set_held [] k')) /\
  nextpid k' <= nextpid k + 1 /\ (fk = false -> forall j, j <> i -> ready k' j -> ready k j).

Lemma calm_back fk i k k' : calm (Some i) k k' -> back fk i k k'.
Proof. intros (? & ? & ? & ?). split_and!; auto. lia. Qed.
Lemma away_gone fk i k k' : away i k k' -> gone fk i k k'.
Proof. intros (? & ? & ? & ? & ?). split_and!; auto. lia. Qed.
Lemma back_calm fk i k1 k2 k3 : back fk i k1 k2 -> calm (Some i) k2 k3 -> back fk i k1 k3.
Proof. intros (? & ? & ? & ?) (? & ? & ? & ?). split_and!; auto. lia. Qed.
Lemma calm_back_trans fk i k1 k2 k3 : calm (Some i) k1 k2 -> back fk i k2 k3 -> back fk i k1 k3.
Proof. intros (? & ? & ? & ?) (? & ? & ? & ?). split_and!; auto. lia. Qed.
Lemma calm_gone_trans fk i k1 k2 k3 : calm (Some i) k1 k2 -> gone fk i k2 k3 -> gone fk i k1 k3.
Proof. intros (? & ? & ? & ?) (? & ? & ? & ? & ?). split_and!; auto. lia. Qed.
Lemma back_away fk i k1 k2 k3 : back fk i k1 k2 -> away i k2 k3 -> gone fk i k1 k3.
Proof. intros (? & ? & ? & ?) (? & ? & ? & ? & ?). split_and!; auto. lia. Qed.

Definition served (fk : bool) i k (r : outcome) k' : Prop :=
  match r with Returns _ => back fk i k k' | Switched => gone fk i k k' end.

Lemma argraw_survives i n k : (n < 6)%nat -> table_ok k -> curproc k = Some i -> exists v, argraw n k = Done v k.
Proof.
  intros Hn Hok Hc. destruct (table_ok_current k i Hok Hc) as (p & Hp & _). eexists.
  unfold argraw, cur, bind. rewrite Hc, (getp_Done i p k Hp). apply Nat.ltb_lt in Hn. by rewrite Hn.
Qed.

(** [with_arg]: fetch an argument. *)
Lemma with_arg {A} i (f : Z -> K A) k Q : table_ok k -> curproc k = Some i ->
  (forall v, survives (f v) k Q) -> survives (bind (argint 0) f) k Q.
Proof.
  intros Hok Hc Hf. destruct (argraw_survives i 0 k) as [v Hv]; [lia|done|done|].
  apply survives_bind, (survives_Done _ _ (s32 v) k); [|apply Hf]. unfold argint, bind. by rewrite Hv.
Qed.
Lemma with_addr {A} i (f : Z -> K A) k Q : table_ok k -> curproc k = Some i ->
  (forall v, survives (f v) k Q) -> survives (bind (argaddr 0) f) k Q.
Proof.
  intros Hok Hc Hf. destruct (argraw_survives i 0 k) as [v Hv]; [lia|done|done|].
  apply survives_bind, (survives_Done _ _ v k); [exact Hv|apply Hf].
Qed.

Lemma fork_survives i k : table_ok k -> curproc k = Some i -> nextpid k < 2 ^ 31 - 1 ->
  survives sys_fork k (served true i k).
Proof.
  intros Hok Hc Hn. destruct (runs_fork i (current_lt k i Hok Hc) k (shape_of _ k Hok Hc)) as (v & t & Hd & _ & _ & Hct).
  apply survives_bind, (survives_Done _ _ _ _ _ Hd), survives_ret.
  split; [by apply (table_ok_fork i k v)|]. split; [done|]. split; [|done].
  destruct (table_ok_current k i Hok Hc) as (p & Hp & Hr). pose proof (ok_nextpid k Hok).
  apply (fork_inv i p) in Hd; [|done|done|congruence|by apply table_ok_free|rewrite (ok_held k Hok); set_solver..].
  assert (Hs : s32 (nextpid k + 1) = nextpid k + 1) by (apply s32_small; lia).
  destruct Hd; kproj; rewrite ?Hs; lia.
Qed.

Lemma wait_survives i k : table_ok k -> curproc k = Some i -> survives sys_wait k (served false i k).
Proof.
  intros Hok Hc. apply (with_addr i); [done..|]. intros v. apply survives_bind. unfold wait.
  eapply survives_step; [apply acquire_Done; rewrite (ok_held k Hok); apply not_elem_of_nil|]. rewrite (ok_held k Hok).
  eapply survives_post; [by apply (wait_round_survives i)|]. intros [w|] t Ht; apply survives_ret; cbn; [by apply calm_back|by apply away_gone].
Qed.

Lemma sleep_survives i k : table_ok k -> curproc k = Some i -> survives sys_sleep k (served false i k).
Proof.
  intros Hok Hc. apply (with_arg i); [done..|]. intros v. cbv zeta.
  eapply survives_step; [apply acquire_Done; rewrite (ok_held k Hok); apply not_elem_of_nil|]. rewrite (ok_held k Hok).
  eapply survives_step; [reflexivity|]. eapply survives_post; [by apply (sleep_round_survives i)|].
  intros [w|] t Ht; cbn; [by apply calm_back|by apply away_gone].
Qed.

Lemma exit_survives i k : table_ok k -> curproc k = Some i -> survives sys_exit k (served false i k).
Proof.
  intros Hok Hc. apply (with_arg i); [done..|]. intros v. apply survives_bind.
  eapply survives_post; [by apply away_exit|]. intros [] t Ht. apply survives_ret. by apply away_gone.
Qed.

Lemma kill_calm (x : Z) k me : table_ok k -> curproc k = me -> survives (kill x) k (fun _ k' => calm me k k').
Proof.
  intros Hok Hc. destruct (kill x k) as [v t|] eqn:Hk; rewrite (kill_Done x k (table_ok_free k Hok)) in Hk.
  2: { by destruct (list_find _ _) as [[]|]. }
  eapply survives_Done; [rewrite (kill_Done x k (table_ok_free k Hok)); exact Hk|].
  pose proof (table_ok_kill x k v t Hok) as Ht. rewrite (kill_Done x k (table_ok_free k Hok)) in Ht. specialize (Ht Hk).
  destruct (list_find _ _) as [[i p]|] eqn:Hf; injection Hk as <- <-; [|by apply calm_refl].
  split; [done|]. split; [done|]. split; [done|]. intros j (q & Hq & Hs). apply list_find_Some in Hf as (Hp & _).
  cbn [procs set_procs] in Hq. destruct (decide (j = i)) as [->|Hne].
  - rewrite list_lookup_insert_eq in Hq by (by eapply lookup_lt_Some). injection Hq as <-. exists p. split; [done|].
    unfold kill_proc in Hs. case_decide as Hsl; [by right|exact Hs].
  - rewrite list_lookup_insert_ne in Hq by done. by exists q.
Qed.

(** ** Traps *)

Implicit Types (s : @sysstate E).
Context (file_call : sysfn -> M (@sysstate E) outcome) (uartintr virtio_disk_intr : M (@sysstate E) unit).
Context (usertrap_addr uservec_addr : Z).

Lemma survives_lift {A} (c : K A) s (Q : A -> kernel E -> Prop) :
  survives c (kern s) Q -> survives (lift c) s (fun a s' => Q a (kern s')).
Proof.
  intros [(a & k & Hd & Hk)|Hp]; [left|right].
  - exists a, (mksys k (syscall_counter s) (kbd_intr_count s) (seed s)). split; [by apply lift_Done|done].
  - unfold lift. by rewrite Hp.
Qed.

Lemma steady_set_tf me H i w v : steady me H (set_tf_word (E := E) i w v).
Proof. apply steady_modp. Qed.
Lemma tame_set_tf i w v : keeps tame (set_tf_word (E := E) i w v).
Proof. apply tame_modp. by intros. Qed.
#[local] Hint Resolve tame_set_tf : tame.

Lemma set_tf_calm i w v k : table_ok k -> curproc k = Some i ->
  survives (set_tf_word i w v) k (fun _ k' => calm (Some i) k k').
Proof. intros. apply calm_of; [apply steady_set_tf|apply tame_set_tf|done|done]. Qed.

Lemma usertrapret_calm i g k : table_ok k -> curproc k = Some i ->
  survives (usertrapret usertrap_addr uservec_addr g) k (fun _ k' => calm (Some i) k k').
Proof.
  intros Hok Hc. pose proof (current_lt k i Hok Hc) as Hi. apply calm_of; [|unfold usertrapret|done|done].
  - unfold usertrapret. apply runs_cur.
    apply (steady_bind (Some i) []); [by apply steady_getp|]. intros p.
    repeat (apply (steady_bind (Some i) []); [apply steady_set_tf|intros _]).
    apply (steady_bind (Some i) []); [by apply steady_getp|]. intros q. apply steady_ret.
  - apply (keeps_bind _); [|intros x; tame_tac]. intros k1 a k2 H. unfold cur in H. destruct (curproc k1); [|done].
    by injection H as _ <-.
Qed.

Lemma steady_update_time me H : no_proc_lock H -> steady me H (update_time (E := E)).
Proof.
  intros Hn k Hs. eexists tt, _. rewrite (update_time_Done k) by (by apply (shape_free me H)).
  split; [done|]. destruct Hs as (Hl & Hh & Hc). split; [cbn; by rewrite length_imap|done].
Qed.

Lemma clock_calm me k : table_ok k -> curproc k = me -> survives (clockintr 0) k (fun _ k' => calm me k k').
Proof.
  intros Hok Hc. apply calm_of; [| |done|done].
  - unfold clockintr. cbn [when Z.eqb]. assert (Hn : no_proc_lock [LTicks]) by (intros ?; set_solver).
    apply runs_acquire_then; [apply not_elem_of_nil|].
    apply runs_skip; [by apply steady_modify; intros|intros _]. apply runs_skip; [by apply steady_update_time|intros _].
    apply runs_skip; [by apply steady_wakeup|intros _]. apply runs_release, not_elem_of_nil.
  - unfold clockintr, update_time. tame_tac.
Qed.

(** The end of [usertrap]. *)
Definition tail (i : nat) (g : trapregs) (which_dev : Z) : M (@sysstate E) trapped :=
  let! kd := lift (is_killed i) in
  if negb (kd =? 0) then lift (exit (-1)) ;; ret Away
  else if which_dev =? 2 then lift yield_enter ;; ret Away
  else let! u := lift (usertrapret usertrap_addr uservec_addr g) in ret (ToUser u).

Lemma tail_survives i g which_dev s : table_ok (kern s) -> curproc (kern s) = Some i ->
  survives (tail i g which_dev) s (fun r s' =>
    match r with ToUser _ => calm (Some i) (kern s) (kern s') | Away => away i (kern s) (kern s') end).
Proof.
  intros Hok Hc. destruct (table_ok_current _ i Hok Hc) as (p & Hp & _). unfold tail.
  eapply survives_step.
  { apply lift_Done, (is_killed_Done i p); [done|]. rewrite (ok_held _ Hok). apply not_elem_of_nil. }
  assert (He : mksys (kern s) (syscall_counter s) (kbd_intr_count s) (seed s) = s) by (by destruct s). rewrite He.
  destruct (negb _); [|destruct (which_dev =? 2)]; apply survives_bind.
  - eapply survives_post; [by apply survives_lift, away_exit|]. intros [] t Ht. by apply survives_ret.
  - eapply survives_post; [by apply survives_lift, away_yield|]. intros [] t Ht. by apply survives_ret.
  - eapply survives_post; [by apply survives_lift, usertrapret_calm|]. intros u t Ht. by apply survives_ret.
Qed.

(** The timer interrupts a process. *)
Lemma timer_survives i g s : table_ok (kern s) -> curproc (kern s) = Some i ->
  r_scause g = 0x8000000000000005 -> Z.land (r_sstatus g) SSTATUS_SPP = 0 -> r_tp g = 0 ->
  survives (usertrap file_call uartintr virtio_disk_intr usertrap_addr uservec_addr g) s (fun r s' =>
    match r with ToUser _ => calm (Some i) (kern s) (kern s') | Away => away i (kern s) (kern s') end).
Proof.
  intros Hok Hc Hg Hspp Htp. unfold usertrap. rewrite Hspp. cbn [negb Z.eqb].
  eapply survives_step; [apply lift_Done; unfold cur; by rewrite Hc|].
  apply survives_bind. eapply survives_post; [by apply survives_lift, set_tf_calm|].
  intros [] s1 (Hok1 & Hc1 & Hn1 & Hr1). cbn [kern] in Hok1, Hc1, Hn1, Hr1. rewrite Hg. cbn [Z.eqb]. cbv zeta.
  apply survives_bind. unfold devintr. rewrite Hg, Htp. cbn [Z.eqb]. apply survives_bind.
  eapply survives_post; [by apply survives_lift, clock_calm|]. intros [] s2 H2. apply survives_ret.
  cbn [negb Z.eqb]. destruct H2 as (Hok2 & Hc2 & Hn2 & Hr2).
  eapply survives_post; [by apply (tail_survives i g 2)|].
  assert (H02 : calm (Some i) (kern s) (kern s2)) by (split_and!; auto; congruence).
  intros [u|] s3 H3; [by apply (calm_trans _ _ (kern s2))|by apply (calm_away (Some i) _ _ (kern s2))].
Qed.

Definition fn (c : pcall) : sysfn :=
  match c with
  | Pfork => Sys_fork | Pexit => Sys_exit | Pwait => Sys_wait | Pkill => Sys_kill | Pgetpid => Sys_getpid
  | Psleep => Sys_sleep | Puptime => Sys_uptime
  end.
Definition forks (c : pcall) : bool := bool_decide (c = Pfork).

Lemma handler_survives c i s : table_ok (kern s) -> curproc (kern s) = Some i -> nextpid (kern s) < 2 ^ 31 - 1 ->
  survives (handler file_call (fn c)) s (fun r s' => served (forks c) i (kern s) r (kern s')).
Proof.
  intros Hok Hc Hn. destruct (table_ok_current _ i Hok Hc) as (p & Hp & _).
  destruct c; cbn [fn handler forks]; apply survives_lift.
  - by apply fork_survives.
  - by apply exit_survives.
  - by apply wait_survives.
  - apply (with_arg i); [done..|]. intros v. apply survives_bind. eapply survives_post; [by apply kill_calm|].
    intros w t Ht. apply survives_ret. by apply calm_back.
  - eapply survives_step; [unfold cur; by rewrite Hc|]. eapply survives_step; [by apply (getp_Done i p)|].
    apply survives_ret. by apply calm_back, calm_refl.
  - by apply sleep_survives.
  - eapply survives_step; [apply acquire_Done; rewrite (ok_held _ Hok); apply not_elem_of_nil|]. rewrite (ok_held _ Hok).
    eapply survives_step; [reflexivity|]. eapply survives_step; [by apply (release_head _ []); [|apply not_elem_of_nil]|].
    apply survives_ret. apply calm_back. split_and!; [by apply table_ok_drop_held|done|done|].
    intros j (q & Hq & Hs). by exists q.
Qed.

Lemma lookup_fn c : lookup_syscall (sysno c) = Some (fn c).
Proof. by destruct c. Qed.

Lemma syscall_survives c i p s :
  table_ok (kern s) -> curproc (kern s) = Some i -> procs (kern s) !! i = Some p -> nextpid (kern s) < 2 ^ 31 - 1 ->
  s32 (default 0 (tf p !! TF_a7)) = sysno c \/ s32 (default 0 (tf p !! TF_a7)) = 0 ->
  survives (syscall file_call) s (fun r s' => served (forks c) i (kern s) r (kern s')).
Proof.
  intros Hok Hc Hp Hn Hnum. unfold syscall. eapply survives_step; [reflexivity|]. set (s1 := mksys (kern s) _ _ _).
  eapply survives_step; [apply lift_Done; unfold cur; cbn [kern s1]; by rewrite Hc|].
  eapply survives_step; [apply lift_Done; by apply (getp_Done i p)|]. cbv zeta.
  destruct Hnum as [-> | ->].
  - rewrite lookup_fn. apply survives_bind. eapply survives_post; [by apply (handler_survives c i)|].
    intros [v|] s2 H2; [|by apply survives_ret]. cbn [served kern s1] in H2. apply survives_bind.
    pose proof H2 as (Hok2 & Hc2 & _).
    eapply survives_post; [by apply survives_lift, set_tf_calm|]. intros [] s3 H3. apply survives_ret.
    by apply (back_calm _ _ _ (kern s2)).
  - change (lookup_syscall 0) with (@None sysfn). cbv iota. apply survives_bind.
    eapply survives_post; [apply survives_lift, (calm_of (Some i)); [| |done|done]|].
    { apply steady_modify. by intros. }
    { unfold printf. tame_tac. }
    intros [] s2 H2. pose proof H2 as (Hok2 & Hc2 & _). apply survives_bind.
    eapply survives_post; [by apply survives_lift, set_tf_calm|]. intros [] s3 H3. apply survives_ret.
    apply calm_back. by apply (calm_trans _ _ (kern s2)).
Qed.

(** Storing a word of the trapframe. *)
Lemma set_tf_step i p w v k : table_ok k -> curproc k = Some i -> procs k !! i = Some p ->
  exists k', set_tf_word i w v k = Done tt k' /\ calm (Some i) k k' /\
    procs k' !! i = Some (set_tf (<[w := u64 v]> (tf p)) p).
Proof.
  intros Hok Hc Hp. destruct (set_tf_calm i w v k Hok Hc) as [([] & k' & Hd & H)|]; [|done].
  exists k'. split; [done|]. split; [done|]. injection Hd as <-. cbn [procs set_procs].
  by rewrite list_lookup_alter_eq, Hp.
Qed.

Lemma epc_not_a7 v (l : trapframe) : <[TF_epc := v]> l !! TF_a7 = l !! TF_a7.
Proof. by apply (list_lookup_insert_ne (A := Z)). Qed.

Lemma ecall_survives c i p g s :
  table_ok (kern s) -> curproc (kern s) = Some i -> procs (kern s) !! i = Some p -> nextpid (kern s) < 2 ^ 31 - 1 ->
  s32 (default 0 (tf p !! TF_a7)) = sysno c \/ s32 (default 0 (tf p !! TF_a7)) = 0 ->
  r_scause g = 8 -> Z.land (r_sstatus g) SSTATUS_SPP = 0 ->
  survives (usertrap file_call uartintr virtio_disk_intr usertrap_addr uservec_addr g) s (fun r s' =>
    match r with ToUser _ => back (forks c) i (kern s) (kern s') | Away => gone (forks c) i (kern s) (kern s') end).
Proof.
  intros Hok Hc Hp Hn Hnum Hg Hspp. unfold usertrap. rewrite Hspp. cbn [negb Z.eqb].
  eapply survives_step; [apply lift_Done; unfold cur; by rewrite Hc|]. rewrite Hg. cbn [Z.eqb]. cbv zeta.
  destruct (set_tf_step i p TF_epc (r_sepc g) (kern s) Hok Hc Hp) as (k1 & Hd1 & H1 & Hp1).
  eapply survives_step; [by apply lift_Done|]. cbn [syscall_counter kbd_intr_count seed].
  pose proof H1 as (Hok1 & Hc1 & Hn1 & _).
  eapply survives_step.
  { apply lift_Done, (is_killed_Done i _ _ Hp1). cbn [kern]. rewrite (ok_held _ Hok1). apply not_elem_of_nil. }
  destruct (negb _).
  { apply survives_bind. eapply survives_post; [by apply survives_lift, (away_exit i)|]. intros [] t Ht. apply survives_ret.
    apply away_gone. by apply (calm_away (Some i) _ _ k1). }
  eapply survives_step; [apply lift_Done; by apply (getp_Done i)|].
  match goal with |- context[set_tf_word i TF_epc ?v] =>
    destruct (set_tf_step i _ TF_epc v k1 Hok1 Hc1 Hp1) as (k2 & Hd2 & H2 & Hp2) end.
  eapply survives_step; [by apply lift_Done|]. cbn [syscall_counter kbd_intr_count seed].
  assert (H02 : calm (Some i) (kern s) k2) by (by apply (calm_trans _ _ k1)). pose proof H02 as (Hok2 & Hc2 & Hn2 & _).
  apply survives_bind. eapply survives_post; [eapply (syscall_survives c i); cbn [kern]; [exact Hok2|exact Hc2|exact Hp2|lia|]|].
  { cbn [tf set_tf]. by rewrite !epc_not_a7. }
  intros [v|] s3 H3; cbn [served kern] in H3.
  - apply (calm_back_trans _ _ (kern s)) in H3; [|done]. pose proof H3 as (Hok3 & Hc3 & _).
    eapply survives_post; [by apply (tail_survives i g 0)|].
    intros [u|] s4 H4; [by apply (back_calm _ _ _ (kern s3))|by apply (back_away _ _ _ (kern s3))].
  - apply survives_ret. by apply (calm_gone_trans _ _ _ k2).
Qed.

(** ** The scheduler *)

Definition dispatched (i : nat) k k' : Prop :=
  shape (Some i) [LProc i] k' /\ table_ok (set_held [] k') /\ nextpid k' = nextpid k /\
  forall j, ready k' j -> ready k j.

Lemma scheduler_survives k : table_ok k -> curproc k = None ->
  survives scheduler_iter k (fun r k' => match r with None => k' = k | Some i => ready k i /\ dispatched i k k' end).
Proof.
  intros Hok Hc. pose proof (table_ok_free k Hok) as Hf.
  assert (Hch : exists r, scheduler_choose k = Done r (with_choice r k)).
  { destruct (decide (0 <= sched_mode k <= 2)) as [Hm|Hm].
    - destruct (scheduler_choose_spec k Hf Hm) as (r & Hr & _). by exists r.
    - exists None. unfold scheduler_choose, gets, bind, SCHED_ROUND_ROBIN, SCHED_FCFS, SCHED_PRIORITY.
      destruct (Z.eqb_spec (sched_mode k) 0), (Z.eqb_spec (sched_mode k) 1), (Z.eqb_spec (sched_mode k) 2); try lia.
      by destruct k. }
  destruct Hch as (r & Hr). destruct r as [i|]; last first.
  { apply (survives_Done _ _ None k); [|done]. unfold scheduler_iter. rewrite (bind_Done _ _ _ _ _ Hr). by destruct k. }
  destruct (scheduler_iter k) as [r t|] eqn:Hit; unfold scheduler_iter in Hit; rewrite (bind_Done _ _ _ _ _ Hr) in Hit; [|done].
  assert (r = Some i) as -> by (by injection Hit).
  assert (Hd : scheduler_iter k = Done (Some i) t) by (unfold scheduler_iter; by rewrite (bind_Done _ _ _ _ _ Hr)).
  apply (survives_Done _ _ _ _ _ Hd). clear Hit.
  apply scheduler_iter_inv in Hd as (p & f & Hp & Hs & Hfp & ->); [|done].
  split; [exists p; auto|]. rewrite (ok_held k Hok).
  split; [split; [cbn; rewrite length_alter; apply (ok_len k Hok)|done]|].
  split; [by apply (table_ok_dispatched k i p f)|]. split; [done|].
  intros j (q & Hq & Hst). cbn [procs set_curproc set_held set_procs] in Hq. destruct (decide (j = i)) as [->|Hne].
  - exists p. auto.
  - rewrite list_lookup_alter_ne in Hq by done. by exists q.
Qed.

(** A dispatched process leaves the [sleep] it was in. *)
Lemma sleep_return_step lk i k k' : dispatched i k k' -> (forall j, lk <> LProc j) ->
  exists k2, sleep_return lk k' = Done tt (set_held [lk] k2) /\ calm (Some i) k k2.
Proof.
  intros ((Hl & Hh & Hc) & Hok & Hn & Hr) Hlk.
  set (k2 := set_held [] (set_procs (alter (set_chan NullChan) i (procs k')) k')). exists k2. split.
  - unfold sleep_return, cur, bind at 1. rewrite Hc. unfold modp, modify, bind at 1.
    rewrite (bind_release _ []) by (done || apply not_elem_of_nil). rewrite acquire_Done by apply not_elem_of_nil.
    reflexivity.
  - assert (Ht : tame k' k2).
    { pose proof (tame_modp i (set_chan NullChan) ltac:(by intros) k' tt _ eq_refl) as Ht. exact Ht. }
    split; [apply (table_ok_tame (set_held [] k')); [done|exact Ht|done]|]. split; [done|]. split; [done|].
    intros j Hj. by apply Hr, (tame_ready k' k2).
Qed.

(** ... or the [yield], or starts in [forkret]: only its lock is released. *)
Lemma unlock_step i k k' : dispatched i k k' -> release (LProc i) k' = Done tt (set_held [] k') /\ calm (Some i) k (set_held [] k').
Proof.
  intros ((Hl & Hh & Hc) & Hok & Hn & Hr). split; [by apply (release_head _ []); [|apply not_elem_of_nil]|].
  split_and!; try done.
Qed.
End Kernel.

(** ** The machine *)

Section Machine.
Context {E : Type} `{!Services E, !TotalServices E, !Loads E}.
Abbreviation machine := (machine E).
Implicit Types (m : machine).

Definition parked (t : thread) : Prop := match t with User _ => False | _ => True end.

(** The invariant: the table is consistent; the current process, and no other,
    is in user mode; every process that is ready has a thread. *)
Record inv (k : kernel E) (ths : list (option thread)) : Prop := {
  inv_table : table_ok k;
  inv_len : length ths = NPROC;
  inv_user i : curproc k = Some i -> exists p, ths !! i = Some (Some (User p));
  inv_only i p : ths !! i = Some (Some (User p)) -> curproc k = Some i;
  inv_ready i : ready k i -> exists t, ths !! i = Some (Some t)
}.
Definition sys_ok (m : machine) : Prop := inv (kern (sys m)) (threads m).

(** The threads of all processes but [i] fit the state [k]. *)
Definition prep (i : nat) (k : kernel E) (ths : list (option thread)) : Prop :=
  length ths = NPROC /\ (forall j p, ths !! j = Some (Some (User p)) -> j = i) /\
  forall j, j <> i -> ready k j -> exists t, ths !! j = Some (Some t).

Lemma prep_inv i k k' ths : inv k ths -> (forall j p, ths !! j = Some (Some (User p)) -> j = i) ->
  (forall j, j <> i -> ready k' j -> ready k j) -> prep i k' ths.
Proof.
  intros Hi Ho Hr. split; [apply (inv_len _ _ Hi)|]. split; [done|]. intros j Hne Hj. by apply (inv_ready _ _ Hi), Hr.
Qed.

Lemma inv_current i k ths : inv k ths -> curproc k = Some i -> forall j p, ths !! j = Some (Some (User p)) -> j = i.
Proof. intros Hi Hc j p Hj. apply (inv_only _ _ Hi) in Hj. congruence. Qed.

(** A child takes the first free thread. *)
Lemma prep_fork i k k' ths p :
  inv k ths -> curproc k = Some i -> length (procs k') = NPROC ->
  prep i k' (zip_with (adopt_thread (Forked p)) (procs k') ths).
Proof.
  intros Hi Hc Hl. pose proof (inv_len _ _ Hi) as Hlen. split; [rewrite length_zip_with; lia|]. split.
  - intros j q Hj. apply lookup_zip_with_Some in Hj as (x & o & He & _ & Ho). apply (inv_current i k ths Hi Hc j q).
    rewrite Ho. f_equal. unfold adopt_thread in He. destruct o; [done|]. destruct (is_ready x); [|done]. by injection He.
  - intros j Hne (x & Hx & Hs). destruct (lookup_lt_is_Some_2 ths j) as [o Ho].
    { rewrite Hlen, <- Hl. by eapply lookup_lt_Some. }
    rewrite lookup_zip_with, Hx. cbn. rewrite Ho. cbn. destruct o as [t|]; [by exists t|]. cbn.
    unfold is_ready. rewrite bool_decide_eq_true_2 by done. by eexists.
Qed.

Lemma inv_running i k ths p : prep i k ths -> table_ok k -> curproc k = Some i -> inv k (<[i := Some (User p)]> ths).
Proof.
  intros (Hl & Ho & Hr) Hok Hc. pose proof (current_lt k i Hok Hc) as Hi.
  assert (Hn : <[i := Some (User p)]> ths !! i = Some (Some (User p))) by (apply list_lookup_insert_eq; lia).
  split; [done|by rewrite length_insert| | |].
  - intros j Hj. assert (j = i) as -> by congruence. eauto.
  - intros j q Hj. destruct (decide (j = i)) as [->|Hne]; [done|]. rewrite list_lookup_insert_ne in Hj by done.
    by apply Ho in Hj.
  - intros j Hj. destruct (decide (j = i)) as [->|Hne]; [eauto|]. rewrite list_lookup_insert_ne by done. by apply Hr.
Qed.

Lemma inv_switched i k ths o :
  prep i k ths -> (i < NPROC)%nat -> table_ok (set_curproc None (set_held [] k)) ->
  match o with Some t => parked t | None => ~ ready k i end ->
  inv (set_curproc None (set_held [] k)) (<[i := o]> ths).
Proof.
  intros (Hl & Ho & Hr) Hi Hok Hpk.
  assert (Hn : <[i := o]> ths !! i = Some o) by (apply list_lookup_insert_eq; lia).
  split; [done|by rewrite length_insert|done| |].
  - intros j q Hj. destruct (decide (j = i)) as [->|Hne].
    + rewrite Hn in Hj. injection Hj as ->. done.
    + rewrite list_lookup_insert_ne in Hj by done. by apply Ho in Hj.
  - intros j Hj. destruct (decide (j = i)) as [->|Hne].
    + destruct o as [t|]; [by exists t|]. done.
    + rewrite list_lookup_insert_ne by done. by apply Hr.
Qed.

Lemma survives_onsys {A} (c : M (@sysstate E) A) m (Q : A -> sysstate -> Prop) :
  survives c (sys m) Q -> survives (onsys c) m (fun a m' => Q a (sys m') /\ threads m' = threads m).
Proof.
  intros [(a & s & Hd & HQ)|Hp]; [left|right]; unfold onsys.
  - exists a, (mkm s (threads m)). by rewrite Hd.
  - by rewrite Hp.
Qed.
Lemma survives_onk {A} (c : M (kernel E) A) m (Q : A -> kernel E -> Prop) :
  survives c (kern (sys m)) Q -> survives (onk c) m (fun a m' => Q a (kern (sys m')) /\ threads m' = threads m).
Proof. intros H. apply (survives_onsys (lift c) m (fun a s => Q a (kern s))). by apply survives_lift. Qed.

(** What a step leaves: the invariant, and at most one pid used. *)
Definition stepped (k : kernel E) (m : machine) : Prop := sys_ok m /\ nextpid (kern (sys m)) <= nextpid k + 1.

Lemma onk_Done {A} (c : M (kernel E) A) m a : c (kern (sys m)) = Done a (kern (sys m)) -> onk c m = Done a m.
Proof. intros H. unfold onk, onsys, lift. rewrite H. by destruct m as [[] ?]. Qed.

Lemma table_current_lookup (k : kernel E) i : length (procs k) = NPROC -> (i < NPROC)%nat -> exists p, procs k !! i = Some p.
Proof. intros Hl Hi. apply lookup_lt_is_Some_2. lia. Qed.

Lemma inv_calm (k k' : kernel E) ths : inv k ths -> calm (curproc k) k k' -> inv k' ths.
Proof.
  intros Hi (Hok & Hc & _ & Hr). split; [done|apply (inv_len _ _ Hi)| | |].
  - intros i. rewrite Hc. apply (inv_user _ _ Hi).
  - intros i p. rewrite Hc. apply (inv_only _ _ Hi).
  - intros i Hj. by apply (inv_ready _ _ Hi), Hr.
Qed.

(** Process [i] hands the CPU back, with [o] left to do. *)
Lemma leave_survives fk i (k : kernel E) m o :
  gone fk i k (kern (sys m)) -> (i < NPROC)%nat -> prep i (kern (sys m)) (threads m) ->
  match o with Some t => parked t | None => ~ ready (kern (sys m)) i end ->
  survives (set_thread i o ;; onk (scheduler_return i)) m (fun _ m' => stepped k m').
Proof.
  intros (Hc & Hh & Hok & Hn & _) Hi Hp Ho. eapply survives_step; [reflexivity|].
  eapply survives_Done.
  { unfold onk, onsys, lift. cbn [sys]. unfold scheduler_return.
    rewrite (bind_release _ []) by (done || apply not_elem_of_nil). reflexivity. }
  split; [|exact Hn]. cbn [sys kern threads]. by apply inv_switched.
Qed.

Lemma not_ready_zombie (k : kernel E) i p : procs k !! i = Some p -> state p = ZOMBIE -> ~ ready k i.
Proof. intros Hp Hz (q & Hq & Hs). simplify_eq. rewrite Hz in Hs. by destruct Hs. Qed.

Lemma gone_length fk i (k k' : kernel E) : gone fk i k k' -> length (procs k') = NPROC.
Proof. intros (_ & _ & Hok & _). apply (ok_len _ Hok). Qed.

(** A process that the timer interrupts. *)
Lemma timer_step_survives i p m : sys_ok m -> curproc (kern (sys m)) = Some i -> threads m !! i = Some (Some (User p)) ->
  survives (user_step true i p) m (fun _ m' => stepped (kern (sys m)) m').
Proof.
  intros Hi Hc Hth. pose proof (inv_table _ _ Hi) as Hok. pose proof (current_lt _ _ Hok Hc) as Hlt.
  cbn [user_step]. apply survives_bind.
  eapply survives_post; [by apply survives_onsys, (timer_survives no_files no_device no_device 0 0 i g_timer)|].
  intros [u|] m1 (H1 & Hth1).
  - apply survives_ret. split; [|pose proof H1 as (_ & _ & -> & _); lia].
    unfold sys_ok. rewrite Hth1. apply (inv_calm (kern (sys m))); [done|]. by rewrite Hc.
  - assert (Hp : prep i (kern (sys m1)) (threads m1)).
    { rewrite Hth1. apply (prep_inv i (kern (sys m))); [done|by apply (inv_current _ _ _ Hi)|apply H1]. }
    apply (away_gone false) in H1. destruct (table_current_lookup _ i (gone_length _ _ _ _ H1) Hlt) as [q Hq].
    eapply survives_step; [by apply onk_Done, getp_Done|].
    apply (leave_survives false); [done|done|done|]. case_decide; [by apply (not_ready_zombie _ i q)|done].
Qed.

Lemma suspended_spec i c a0 t0 f (m : machine) : length (procs (kern (sys m))) = NPROC -> (i < NPROC)%nat ->
  exists o, suspended i c a0 t0 f m = Done o m /\ match o with Some t => parked t | None => ~ ready (kern (sys m)) i end.
Proof.
  intros Hl Hi. destruct (table_current_lookup _ i Hl Hi) as [q Hq]. eexists. split.
  { unfold suspended. by rewrite (bind_Done _ _ _ _ _ (onk_Done _ _ _ (getp_Done i q _ Hq))). }
  case_decide; [by apply (not_ready_zombie _ i q)|]. by case_decide.
Qed.

(** The trapframe a call leaves: its number, if the frame has such a word. *)
Lemma a7_set n a (l : trapframe) :
  default 0 (<[TF_a7 := n]> (<[TF_a0 := a]> l) !! TF_a7) = n \/ default 0 (<[TF_a7 := n]> (<[TF_a0 := a]> l) !! TF_a7) = 0.
Proof.
  destruct (decide (TF_a7 < length (<[TF_a0 := a]> l))%nat) as [Hl|Hl].
  - left. by rewrite (list_lookup_insert_eq (A := Z)).
  - right. rewrite (lookup_ge_None_2 (A := Z)); [done|]. rewrite (length_insert (A := Z)). lia.
Qed.

Lemma sysno_s32 c : s32 (u64 (sysno c)) = sysno c.
Proof. by destruct c. Qed.

(** A process makes a system call. *)
Lemma ecall_step_survives i c a0 f m : sys_ok m -> curproc (kern (sys m)) = Some i -> nextpid (kern (sys m)) < 2 ^ 31 - 1 ->
  survives (ecall i c a0 f) m (fun _ m' => stepped (kern (sys m)) m').
Proof.
  intros Hi Hc Hn. pose proof (inv_table _ _ Hi) as Hok. pose proof (current_lt _ _ Hok Hc) as Hlt.
  destruct (table_ok_current _ i Hok Hc) as (q & Hq & _). set (k := kern (sys m)) in *.
  unfold ecall. eapply survives_step; [by apply onk_Done|].
  set (ftf := fun p : proc => set_tf (<[TF_a7 := u64 (sysno c)]> (<[TF_a0 := u64 a0]> (tf p))) p).
  assert (H1 : survives (modp i ftf) k (fun _ k1 => calm (Some i) k k1 /\ procs k1 !! i = Some (ftf q))).
  { eapply survives_Done; [reflexivity|]. split; [|cbn [procs set_procs]; by rewrite list_lookup_alter_eq, Hq].
    destruct (calm_of (Some i) (modp i ftf) k) as [(? & ? & [= _ <-] & H)|]; [apply steady_modp|by apply tame_modp|done|done|done|done]. }
  apply survives_bind. eapply survives_post; [apply (survives_onk _ m _ H1)|]. intros [] m1 ((H1' & Hq1) & Hth1).
  pose proof H1' as (Hok1 & Hc1 & Hn1 & Hr1). apply survives_bind.
  eapply survives_post.
  { apply survives_onsys, (ecall_survives no_files no_device no_device 0 0 c i (ftf q) g_ecall); try done; [lia|].
    cbn [tf set_tf ftf]. destruct (a7_set (u64 (sysno c)) (u64 a0) (tf q)) as [-> | ->]; [left; apply sysno_s32|by right]. }
  cbn beta. intros r m2 (H2 & Hth2).
  assert (Hlen2 : length (procs (kern (sys m2))) = NPROC).
  { destruct r; [apply (ok_len _ (proj1 H2))|by apply (gone_length _ _ _ _ H2)]. }
  assert (Hadopt : survives (if decide (c = Pfork) then start_child (f 0) else ret tt) m2
    (fun _ m3 => sys m3 = sys m2 /\ prep i (kern (sys m3)) (threads m3))).
  { case_decide as Hck; (eapply survives_Done; [reflexivity|]); (split; [done|]); cbn [sys threads].
    - rewrite Hth2, Hth1. by apply (prep_fork i k).
    - rewrite Hth2, Hth1. apply (prep_inv i k); [done|by apply (inv_current _ _ _ Hi)|].
      assert (Hf : forks c = false) by (unfold forks; by rewrite bool_decide_eq_false_2).
      intros j Hne Hj. apply Hr1. destruct r; [by apply (proj2 (proj2 (proj2 H2)) Hf)|].
      destruct H2 as (_ & _ & _ & _ & H2). by apply (H2 Hf). }
  apply survives_bind. eapply survives_post; [exact Hadopt|]. intros [] m3 (Hs3 & Hp3). rewrite <- Hs3 in H2, Hlen2.
  destruct r as [u|].
  - apply (calm_back_trans _ _ k) in H2; [|done]. destruct H2 as (Hok3 & Hc3 & Hn3 & _).
    destruct (table_current_lookup _ i Hlen2 Hlt) as [q3 Hq3].
    eapply survives_step. { unfold result_of. rewrite (bind_Done _ _ _ _ _ (onk_Done _ _ _ (getp_Done i q3 _ Hq3))). reflexivity. }
    eapply survives_Done; [reflexivity|]. split; [|exact Hn3]. by apply inv_running.
  - apply (calm_gone_trans _ _ k) in H2; [|done].
    destruct (suspended_spec i c a0 (ticks k) f m3 Hlen2 Hlt) as (o & Ho & Hpk).
    eapply survives_step; [exact Ho|]. by apply (leave_survives (forks c)).
Qed.

Lemma user_step_survives b i p m : sys_ok m -> curproc (kern (sys m)) = Some i -> threads m !! i = Some (Some (User p)) ->
  nextpid (kern (sys m)) < 2 ^ 31 - 1 -> survives (user_step b i p) m (fun _ m' => stepped (kern (sys m)) m').
Proof.
  intros Hi Hc Hth Hn. destruct b; [by apply timer_step_survives|]. cbn [user_step]. destruct p as [c a0 f|a f|c a0].
  - by apply ecall_step_survives.
  - pose proof (inv_table _ _ Hi) as Hok. destruct (table_ok_current _ i Hok Hc) as (q & Hq & _).
    eapply survives_step; [by apply onk_Done, getp_Done|]. eapply survives_step; [by apply onk_Done|].
    eapply survives_Done; [reflexivity|]. split; [|cbn [sys]; lia]. apply inv_running; [|done|done].
    by apply (prep_inv i (kern (sys m))); [|apply (inv_current _ _ _ Hi)|].
  - by apply ecall_step_survives.
Qed.

(** A process gets the CPU and goes back to user mode. *)
Lemma enter_user i p (k : kernel E) m :
  calm (Some i) k (kern (sys m)) -> prep i (kern (sys m)) (threads m) ->
  survives (let! _ := onk (usertrapret 0 0 g_ecall) in set_thread i (Some (User p))) m (fun _ m' => stepped k m').
Proof.
  intros H (Hl & Ho & Hr). pose proof H as (Hok & Hc & Hn & _). apply survives_bind.
  eapply survives_post; [by apply survives_onk, (usertrapret_calm 0 0 i)|].
  intros u m1 (H1 & Hth1). destruct H1 as (Hok1 & Hc1 & Hn1 & Hr1). eapply survives_Done; [reflexivity|].
  split; [|cbn [sys]; lia]. apply inv_running; [|done|done]. cbn [threads]. rewrite Hth1.
  split; [done|]. split; [done|]. intros j Hne Hj. by apply Hr, Hr1.
Qed.

(** A sleeping call goes on: it returns to the program, or sleeps again. *)
Lemma resumed_survives i r f (k : kernel E) m :
  (i < NPROC)%nat -> match r with Returns _ => calm (Some i) k (kern (sys m)) | Switched => away i k (kern (sys m)) end ->
  prep i (kern (sys m)) (threads m) -> (exists t, threads m !! i = Some (Some t) /\ parked t) ->
  survives (resumed i r f) m (fun _ m' => stepped k m').
Proof.
  intros Hlt Hr Hp (t & Ht & Hpk). destruct r as [v|]; cbn [resumed].
  - pose proof Hr as (Hok & Hc & Hn & _). apply survives_bind.
    eapply survives_post; [by apply survives_onk, (set_tf_calm i)|]. intros [] m1 (H1 & Hth1).
    pose proof H1 as (Hok1 & Hc1 & Hn1 & Hr1). destruct (table_ok_current _ i Hok1 Hc1) as (q & Hq & _).
    assert (Hp1 : prep i (kern (sys m1)) (threads m1)).
    { destruct Hp as (? & ? & Hpr). rewrite Hth1. split; [done|]. split; [done|]. intros j Hne Hj. by apply Hpr, Hr1. }
    eapply survives_step. { apply onk_Done, (is_killed_Done i q); [done|]. rewrite (ok_held _ Hok1). apply not_elem_of_nil. }
    destruct (negb _).
    + apply survives_bind. eapply survives_post; [by apply survives_onk, (exit_zombie i)|]. intros [] m2 ((H2 & Hz) & Hth2).
      apply (leave_survives false); [|done| |done].
      * apply away_gone, (calm_away (Some i) _ _ (kern (sys m1))); [|done]. by apply (calm_trans _ _ (kern (sys m))).
      * destruct Hp1 as (? & ? & Hpr). rewrite Hth2. split; [done|]. split; [done|]. intros j Hne Hj. apply Hpr; [done|].
        by apply H2.
    + apply survives_bind. eapply survives_post; [by apply survives_onk, (usertrapret_calm 0 0 i)|]. intros u m2 (H2 & Hth2).
      pose proof H2 as (Hok2 & Hc2 & Hn2 & Hr2). destruct (table_ok_current _ i Hok2 Hc2) as (q2 & Hq2 & _).
      eapply survives_step. { unfold result_of. rewrite (bind_Done _ _ _ _ _ (onk_Done _ _ _ (getp_Done i q2 _ Hq2))). reflexivity. }
      eapply survives_Done; [reflexivity|]. split; [|cbn [sys]; lia]. apply inv_running; [|done|done]. cbn [threads sys].
      destruct Hp1 as (? & ? & Hpr). rewrite Hth2. split; [done|]. split; [done|]. intros j Hne Hj. by apply Hpr, Hr2.
  - apply (away_gone false) in Hr. destruct Hr as (Hc & Hh & Hok & Hn & _). eapply survives_Done.
    { unfold onk, onsys, lift, scheduler_return. rewrite (bind_release _ []) by (done || apply not_elem_of_nil). reflexivity. }
    split; [|exact Hn]. cbn [sys kern threads]. rewrite <- (list_insert_id (threads m) i (Some t)) by done.
    by apply inv_switched.
Qed.

Lemma forkret_survives i (k k1 : kernel E) : dispatched i k k1 ->
  survives (forkret 0 0 false (ret tt) g_ecall) k1 (fun _ k' => calm (Some i) k k').
Proof.
  intros Hd. destruct (unlock_step i k k1 Hd) as [Hu Hc]. unfold forkret.
  eapply survives_step; [unfold cur; by rewrite (proj2 (proj2 (proj1 Hd)))|].
  eapply survives_step; [exact Hu|]. eapply survives_step; [reflexivity|]. pose proof Hc as (Hok & Hcur & _).
  eapply survives_post; [by apply (usertrapret_calm 0 0 i)|]. intros u k2 H2. by apply (calm_trans _ _ (set_held [] k1)).
Qed.

Lemma resume_survives i t (k : kernel E) m :
  dispatched i k (kern (sys m)) -> (i < NPROC)%nat -> inv k (threads m) -> curproc k = None ->
  threads m !! i = Some (Some t) -> survives (resume i t) m (fun _ m' => stepped k m').
Proof.
  intros Hd Hlt Hi Hc Ht. set (k1 := kern (sys m)) in *.
  assert (Hpk : parked t). { destruct t; try done. apply (inv_only _ _ Hi) in Ht. congruence. }
  assert (Hnone : forall j p, threads m !! j = Some (Some (User p)) -> j = i).
  { intros j p Hj. apply (inv_only _ _ Hi) in Hj. congruence. }
  assert (Hbase : forall k2 : kernel E, (forall j, j <> i -> ready k2 j -> ready k j) -> prep i k2 (threads m)).
  { intros k2. by apply prep_inv. }
  destruct t as [p|p|p|a f|n t0 f]; cbn [resume]; [done| | | |].
  - apply survives_bind. eapply survives_post; [by apply survives_onk, forkret_survives|].
    intros u m1 (H1 & Hth1). eapply survives_Done; [reflexivity|]. pose proof H1 as (Hok & Hcur & Hn & Hr).
    split; [|cbn [sys]; lia]. apply inv_running; [|done|done]. cbn [sys threads]. rewrite Hth1. auto.
  - destruct (unlock_step i k k1 Hd) as [Hu Hcalm]. apply survives_bind.
    eapply survives_post; [apply survives_onk, (survives_Done _ _ tt (set_held [] k1) (fun _ k' => calm (Some i) k k')); [|done]|].
    { unfold yield_return, cur, bind. fold k1. rewrite (proj2 (proj2 (proj1 Hd))). exact Hu. }
    intros [] m1 (H1 & Hth1). apply enter_user; [done|]. rewrite Hth1. apply Hbase. intros j _. apply H1.
  - destruct (sleep_return_step LWait i k k1 Hd ltac:(done)) as (k2 & Hd2 & H2). pose proof H2 as (Hok2 & Hc2 & _).
    apply survives_bind. eapply survives_post.
    { apply survives_onk, survives_bind. eapply survives_step; [exact Hd2|].
      eapply survives_post; [by apply (wait_round_survives i)|]. intros r k3 H3. apply survives_ret.
      instantiate (1 := fun r k' => match r with Returns _ => calm (Some i) k k' | Switched => away i k k' end).
      destruct r; cbn in *; [by apply (calm_trans _ _ k2)|by apply (calm_away (Some i) _ _ k2)]. }
    intros r m1 (H1 & Hth1). apply resumed_survives; [done|done| |rewrite Hth1; eauto].
    rewrite Hth1. apply Hbase. intros j Hne. destruct r; apply H1; done.
  - destruct (sleep_return_step LTicks i k k1 Hd ltac:(done)) as (k2 & Hd2 & H2). pose proof H2 as (Hok2 & Hc2 & _).
    apply survives_bind. eapply survives_post.
    { apply survives_onk. eapply survives_step; [exact Hd2|].
      eapply survives_post; [by apply (sleep_round_survives i)|]. intros r k3 H3.
      instantiate (1 := fun r k' => match r with Returns _ => calm (Some i) k k' | Switched => away i k k' end).
      destruct r; cbn in *; [by apply (calm_trans _ _ k2)|by apply (calm_away (Some i) _ _ k2)]. }
    intros r m1 (H1 & Hth1). apply resumed_survives; [done|done| |rewrite Hth1; eauto].
    rewrite Hth1. apply Hbase. intros j Hne. destruct r; apply H1; done.
Qed.

(** ** One step, and all of them *)

Lemma cpu_step_survives b m : sys_ok m -> nextpid (kern (sys m)) < 2 ^ 31 - 1 ->
  survives (cpu_step b) m (fun _ m' => stepped (kern (sys m)) m').
Proof.
  intros Hi Hn. pose proof (inv_table _ _ Hi) as Hok. unfold cpu_step.
  eapply survives_step; [by apply onk_Done|]. destruct (curproc (kern (sys m))) as [i|] eqn:Hc.
  - destruct (inv_user _ _ Hi i Hc) as [p Hp]. eapply survives_step; [reflexivity|]. rewrite Hp. by apply user_step_survives.
  - apply survives_bind. eapply survives_post; [by apply survives_onk, scheduler_survives|].
    intros [i|] m1 (H1 & Hth1).
    + destruct H1 as [Hr Hd]. destruct (inv_ready _ _ Hi i Hr) as [t Ht]. eapply survives_step; [reflexivity|]. rewrite Hth1, Ht. cbn [default].
      apply resume_survives; [done| |by rewrite Hth1|done|by rewrite Hth1].
      destruct Hr as (q & Hq & _). apply lookup_lt_Some in Hq. by rewrite (ok_len _ Hok) in Hq.
    + apply survives_bind. eapply survives_post.
      { apply survives_onsys. instantiate (1 := fun _ s => calm None (kern (sys m)) (kern s)). rewrite <- H1.
        unfold kerneltrap. cbn [g_idle r_sstatus]. change (Z.land SSTATUS_SPP SSTATUS_SPP =? 0) with false. cbv iota.
        apply survives_bind. unfold devintr. cbn [g_idle r_scause r_tp Z.eqb]. apply survives_bind.
        eapply survives_post; [apply survives_lift, (clock_calm None); rewrite H1; done|]. intros [] s2 H2. apply survives_ret.
        cbn [Z.eqb]. eapply survives_step; [apply lift_Done; reflexivity|]. pose proof H2 as (_ & Hc2 & _). rewrite Hc2.
        rewrite bool_decide_eq_false_2 by (by intros []). cbn [andb]. apply survives_ret. by destruct s2. }
      intros x m2 (H2 & Hth2). apply survives_ret. split; [|destruct H2 as (_ & _ & -> & _); lia].
      unfold sys_ok. rewrite Hth2, Hth1. apply (inv_calm (kern (sys m))); [done|by rewrite Hc].
Qed.

Lemma cycles_survive count clock : forall n m, sys_ok m -> nextpid (kern (sys m)) + Z.of_nat count < 2 ^ 31 ->
  survives (cycles count clock n) m (fun _ m' => sys_ok m').
Proof.
  induction count as [|count IH]; intros n m Hi Hn; cbn [cycles]; [by apply survives_ret|].
  apply survives_bind. eapply survives_post; [apply cpu_step_survives; [done|lia]|].
  intros [] m1 [Hi1 Hn1]. apply IH; [done|lia].
Qed.

Lemma boot_sys_ok mode (e : E) p m : boot mode e p = Done tt m -> sys_ok m /\ nextpid (kern (sys m)) = 2.
Proof.
  unfold boot. destruct (boot_procs (zero_kernel mode e)) as [[] k|] eqn:Hb; [|done]. intros H.
  match type of H with Done _ ?x = _ => assert (x = m) as <- by congruence end.
  assert (Hz : zeroed (zero_kernel mode e)).
  { split; [exact (length_replicate NPROC proc0)|]. repeat (split; [reflexivity|]).
    intros i q Hq. apply lookup_replicate in Hq as [-> _]. done. }
  pose proof (table_ok_boot _ _ Hz Hb) as Hok. apply (boot_inv _ _ Hz) in Hb as (i & q & _ & _ & _ & _ & _ & _ & Hc & _ & Hn).
  split; [|exact Hn]. unfold sys_ok. cbn [sys kern threads].
  assert (Hth : forall j o, zip_with (adopt_thread (Forked p)) (procs k) (replicate NPROC None) !! j = Some o ->
    exists x, procs k !! j = Some x /\ o = (if is_ready x then Some (Forked p) else None)).
  { intros j o Hj. apply lookup_zip_with_Some in Hj as (x & y & -> & Hx & Hy). apply lookup_replicate in Hy as [-> _]. eauto. }
  split; [done|rewrite length_zip_with, length_replicate, (ok_len k Hok); lia|by rewrite Hc| |].
  - intros j r Hj. destruct (Hth _ _ Hj) as (x & _ & He). by destruct (is_ready x).
  - intros j (x & Hx & Hs). exists (Forked p). pose proof (lookup_lt_Some _ _ _ Hx) as Hlt. rewrite (ok_len k Hok) in Hlt.
    apply lookup_zip_with_Some. exists x, None. split; [|split; [done|by apply lookup_replicate_2]].
    unfold adopt_thread, is_ready. by rewrite bool_decide_eq_true_2.
Qed.


End Machine.

#[export] Instance tiny_total : TotalServices tiny.
Proof.
  split; intros; intros e; cbn; try by eexists _, _.
  destruct (tiny_take e) as [pa e']. by eexists _, _.
Qed.

(** A program that forks a child, which spins, and kills it. *)
Definition demo_prog : prog :=
  fork_ (fun pid => if pid =? 0 then Forever Pgetpid 0 else sleep_ 1 (fun _ => kill_ pid (fun _ => wait_ 0 (fun _ => Forever Psleep 5)))).
Definition demo_pages : tiny := ([0x87000000; 0x87001000; 0x87002000; 0x87003000], []).
Definition demo_machine : machine tiny :=
  match boot 0 demo_pages demo_prog with
  | Done _ m => m
  | Panic _ => mkm (mksys (zero_kernel 0 ([], [])) 0 0 0) []
  end.

