(* ===== verification/Proctests.v ===== *)
(** * Processes under test: process tests of [user/usertests.c], [user/forktest.c], [user/zombie.c]

    Programs for the machine of [Multi.v].  A message with [exit(1)] is
    [exit_ 1].  [init] forks the test driver and reaps orphans; the driver runs
    a test in a child of its own and passes its status on. *)

From S2P Require Import Prelude Block ProcDef Proc Sched Sysproc Trap Multi.

(** [xst], [xstate] and [xstatus] of the programs: an [int] in memory. *)
Definition XST : Z := 0x1000.

(** A [for] loop over [n] values from [i]. *)
Fixpoint loop (n : nat) (i : Z) (body : Z -> prog -> prog) (rest : prog) : prog :=
  match n with O => rest | S n' => body i (loop n' (i + 1) body rest) end.

Definition killstatus : prog :=
  loop 100 0 (fun _ next =>
    fork_ (fun pid1 =>
      if pid1 <? 0 then exit_ 1
      else if pid1 =? 0 then Forever Pgetpid 0
      else
        sleep_ 1 (fun _ =>
        kill_ pid1 (fun _ =>
        wait_ XST (fun _ =>
        Load XST (fun xst => if negb (xst =? -1) then exit_ 1 else next))))))
  (exit_ 0).

Definition exitwait : prog :=
  loop 100 0 (fun i next =>
    fork_ (fun pid =>
      if pid <? 0 then exit_ 1
      else if negb (pid =? 0) then
        wait_ XST (fun w =>
          if negb (w =? pid) then exit_ 1
          else Load XST (fun xstate => if negb (i =? xstate) then exit_ 1 else next))
      else exit_ i))
  (exit_ 0).

Definition reparent : prog :=
  getpid_ (fun master_pid =>
    loop 200 0 (fun _ next =>
      fork_ (fun pid =>
        if pid <? 0 then exit_ 1
        else if negb (pid =? 0) then wait_ 0 (fun w => if negb (w =? pid) then exit_ 1 else next)
        else fork_ (fun pid2 => if pid2 <? 0 then kill_ master_pid (fun _ => exit_ 1) else exit_ 0)))
    (exit_ 0)).

Definition forkfork : prog :=
  loop 2 0 (fun _ next =>
    fork_ (fun pid =>
      if pid <? 0 then exit_ 1
      else if pid =? 0 then
        loop 200 0 (fun _ next' =>
          fork_ (fun pid1 =>
            if pid1 <? 0 then exit_ 1
            else if pid1 =? 0 then exit_ 0
            else wait_ 0 (fun _ => next')))
        (exit_ 0)
      else next))
  (loop 2 0 (fun _ next => wait_ XST (fun _ => Load XST (fun xstatus => if negb (xstatus =? 0) then exit_ 1 else next)))
  (exit_ 0)).

(** The loops of [forktest]: [left] forks are left, [n] children exist. *)
Fixpoint reap (n : nat) : prog :=
  match n with
  | O => wait_ 0 (fun w => if negb (w =? -1) then exit_ 1 else exit_ 0)
  | S n' => wait_ 0 (fun w => if w <? 0 then exit_ 1 else reap n')
  end.
Fixpoint forks (left n : nat) (stop : nat -> prog) : prog :=
  match left with
  | O => stop n
  | S left' =>
      fork_ (fun pid => if pid <? 0 then stop n else if pid =? 0 then exit_ 0 else forks left' (S n) stop)
  end.
Definition forktest : prog :=
  forks 1000 0 (fun n => if (n =? 0)%nat then exit_ 1 else if (n =? 1000)%nat then exit_ 1 else reap n).

(** [user/forktest.c]; what it prints is left out. *)
Definition forktest_main : prog :=
  forks 1000 0 (fun n => if (n =? 1000)%nat then exit_ 1 else reap n).

(** [user/zombie.c] *)
Definition zombie : prog := fork_ (fun pid => if pid >? 0 then sleep_ 5 (fun _ => exit_ 0) else exit_ 0).

(** ** Running one *)

(** [run] of [usertests.c]: the test in a child, its status as the driver's. *)
Definition driver (test : prog) : prog :=
  fork_ (fun pid =>
    if pid <? 0 then exit_ 1
    else if pid =? 0 then test
    else wait_ XST (fun _ => Load XST (fun xstatus => if xstatus =? 0 then exit_ 0 else exit_ 1))).
Definition init (test : prog) : prog :=
  fork_ (fun pid => if pid <? 0 then exit_ 1 else if pid =? 0 then driver test else Forever Pwait 0).

Definition status (fuel : nat) (clock : Z -> bool) (mode : Z) (pages : list Z) (test : prog) : Z + string :=
  match boot mode ((pages, []) : tiny) (init test) with
  | Done _ m => match steps fuel clock 0 m with Done r _ => inl r | Panic msg => inr msg end
  | Panic msg => inr msg
  end.

(** ** The verdicts *)

(** The timer interrupts at every fifth step; 200 free pages. *)
Definition every_5th (n : Z) : bool := n mod 5 =? 0.
Definition pages200 : list Z := (fun i => 0x87000000 + PGSIZE * i) <$> seqZ 0 200.
Definition verdict (mode : Z) (test : prog) : Z + string := status (Z.to_nat 60000) every_5th mode pages200 test.

Definition passing : list (Z * prog) :=
  [(SCHED_ROUND_ROBIN, exitwait); (SCHED_ROUND_ROBIN, killstatus); (SCHED_ROUND_ROBIN, forkfork);
   (SCHED_ROUND_ROBIN, forktest); (SCHED_ROUND_ROBIN, forktest_main); (SCHED_ROUND_ROBIN, zombie);
   (SCHED_FCFS, reparent);
   (SCHED_PRIORITY, exitwait)].

Lemma verdicts_computed :
  forallb (fun x => bool_decide (verdict x.1 x.2 = inl 0)) passing &&
  bool_decide (verdict SCHED_ROUND_ROBIN reparent = inl 1) && bool_decide (verdict SCHED_PRIORITY reparent = inl 1) = true.
Proof. vm_compute. reflexivity. Qed.

(** On one CPU, with the timer ticking, the kernel passes the process tests:
    every child is created, killed, waited for and reported with the right
    status, in the scheduler modes listed in [passing].  One test shows that two
    of the modes are not fair: [reparent] passes in FCFS mode but fails in
    round-robin and priority mode, because there the scheduler prefers the
    lowest RUNNABLE slot, the orphaned grandchildren in higher slots never run
    and are never reaped, and [fork] runs out of slots. *)
Theorem process_tests_on_one_cpu :
  Forall (fun x => verdict x.1 x.2 = inl 0) passing /\
  verdict SCHED_ROUND_ROBIN reparent = inl 1 /\ verdict SCHED_PRIORITY reparent = inl 1.
Proof.
  pose proof verdicts_computed as H. apply andb_true_iff in H as [H H3]. apply andb_true_iff in H as [H1 H2].
  split; [|split; [exact (bool_decide_eq_true_1 _ H2)|exact (bool_decide_eq_true_1 _ H3)]].
  apply Forall_forall. intros x Hx. rewrite forallb_forall in H1.
  exact (bool_decide_eq_true_1 _ (H1 x (proj1 (list_elem_of_In _ _) Hx))).
Qed.
