(* ===== verification/Userprog.v ===== *)
(** * User programs on the kernel

    A user program is a computation on the kernel's state: what the library
    function of a system call does is put its arguments in registers and run
    the handler of [Sysfile.v].  The process has [USZ] bytes of memory: its
    text and constants, below [DATA], which it can read, and its data, which it
    can also write; memory it never wrote holds zeros.  The argument strings of
    a call are constants at [STR0] and [STR1].

    [boot_disk] is the disk as [mkfs] leaves it with the two files [README] and
    [echo] ([boot_disk_is_mkfs]), [booted] the kernel after [fsinit] and the
    start of [init]. *)

From stdpp Require Import gmap.
From S2P Require Import Prelude CString Kalloc Vm UserMem Console Block Log Pipe Fs Mkfs File Sysfile.

Definition USZ : Z := 0x5000.
Definition DATA : Z := 0x1000.
Definition STR0 : Z := 0x100.
Definition STR1 : Z := 0x800.
(** The global [buf] of the test programs, and an array on the stack. *)
Definition BUF : Z := 0x1000.
Definition STACKBUF : Z := 0x4800.

(** ** The memory of the process *)

(** A map from addresses to bytes as a binary tree. *)
Inductive trie := Leaf | Node (l : trie) (v : option Z) (r : trie).

Fixpoint get (p : positive) (t : trie) : option Z :=
  match t with
  | Leaf => None
  | Node l v r => match p with xH => v | xO p' => get p' l | xI p' => get p' r end
  end.
Fixpoint put (p : positive) (b : Z) (t : trie) : trie :=
  let '(l, v, r) := match t with Leaf => (Leaf, None, Leaf) | Node l v r => (l, v, r) end in
  match p with xH => Node l (Some b) r | xO p' => Node (put p' b l) v r | xI p' => Node l v (put p' b r) end.

Lemma get_put p b t : get p (put p b t) = Some b.
Proof. revert t. induction p as [p IH|p IH|]; intros [|l v r]; cbn; auto. Qed.
Lemma get_put_ne p q b t : p <> q -> get q (put p b t) = get q t.
Proof.
  revert q t. induction p as [p IH|p IH|]; intros [q|q|] [|l v r] Hne; cbn; try done; rewrite ?IH by congruence; done || (by destruct q).
Qed.

(** Addresses from 0; the key is one more. *)
Definition key (a : Z) : positive := Z.to_pos (a + 1).
Lemma key_ne a b : 0 <= a -> 0 <= b -> a <> b -> key a <> key b.
Proof. unfold key. intros Ha Hb Hne He. apply Hne. apply (f_equal Z.pos) in He. rewrite !Z2Pos.id in He by lia. lia. Qed.

Definition sparse_byte (u : trie) (a : Z) : option Z :=
  if (0 <=? a) && (a <? USZ) then Some (default 0 (get (key a) u)) else None.

Fixpoint sparse_copyin (va : Z) (n : nat) (u : trie) : Z * list Z :=
  match n with
  | O => (0, [])
  | S n' =>
      match sparse_byte u va with
      | None => (-1, [])
      | Some b => let '(r, bs) := sparse_copyin (va + 1) n' u in (r, b :: bs)
      end
  end.

(** A page that is not writable stops a copy. *)
Fixpoint sparse_copyout (va : Z) (bs : list Z) (u : trie) : Z * trie :=
  match bs with
  | [] => (0, u)
  | b :: bs' => if (DATA <=? va) && (va <? USZ) then sparse_copyout (va + 1) bs' (put (key va) b u) else (-1, u)
  end.

Lemma sparse_copyin_spec u n : forall va,
  let '(r, bs) := sparse_copyin va n u in
  bytes_at (sparse_byte u) va (length bs) = Some bs /\
  ((r = 0 /\ length bs = n) \/
   (r = -1 /\ (length bs < n)%nat /\ sparse_byte u (va + Z.of_nat (length bs)) = None)).
Proof.
  induction n as [|n IH]; intros va; cbn [sparse_copyin]; [by auto|].
  destruct (sparse_byte u va) as [b|] eqn:Hb; [|cbn; rewrite Z.add_0_r; auto with lia].
  specialize (IH (va + 1)). destruct (sparse_copyin (va + 1) n u) as [r bs]. destruct IH as [H1 H2].
  cbn [length bytes_at]. rewrite Hb, H1. split; [done|].
  destruct H2 as [[-> <-]|(-> & ? & Hn)]; [by left|right]. split; [done|]. split; [lia|].
  rewrite <- Hn. f_equal. lia.
Qed.

Lemma sparse_copyout_spec bs : forall va u,
  exists (k : nat) r u', sparse_copyout va bs u = (r, u') /\
    ((r = 0 /\ k = length bs) \/ (r = -1 /\ (k < length bs)%nat)) /\
    forall a, sparse_byte u' a = if (va <=? a) && (a <? va + Z.of_nat k) then bs !! Z.to_nat (a - va) else sparse_byte u a.
Proof.
  induction bs as [|b bs IH]; intros va u; cbn [sparse_copyout].
  - exists 0%nat, 0, u. split; [done|]. split; [by left|]. intros a.
    change (Z.of_nat 0) with 0. destruct (Z.leb_spec va a), (Z.ltb_spec a (va + 0)); cbn [andb]; done || lia.
  - destruct ((DATA <=? va) && (va <? USZ)) eqn:Hw.
    2: { exists 0%nat, (-1), u. split; [done|]. split; [right; cbn; lia|]. intros a.
         change (Z.of_nat 0) with 0. destruct (Z.leb_spec va a), (Z.ltb_spec a (va + 0)); cbn [andb]; done || lia. }
    apply andb_true_iff in Hw as [Hlo%Z.leb_le Hhi%Z.ltb_lt]. unfold DATA in Hlo.
    destruct (IH (va + 1) (put (key va) b u)) as (k & r & u' & He & Hr & Hb).
    exists (S k), r, u'. split; [done|]. split; [cbn; destruct Hr as [[-> ->]|[-> ?]]; [by left|right; lia]|].
    intros a. rewrite (Hb a). unfold sparse_byte. destruct (decide (a = va)) as [->|Hne].
    + destruct (Z.leb_spec (va + 1) va); [lia|]. destruct (Z.leb_spec va va), (Z.ltb_spec va (va + Z.of_nat (S k))); try lia.
      cbn [andb]. rewrite Z.sub_diag. cbn. rewrite get_put. destruct (Z.leb_spec 0 va), (Z.ltb_spec va USZ); done || lia.
    + assert (Hg : (if (0 <=? a) && (a <? USZ) then Some (default 0 (get (key a) (put (key va) b u))) else None) =
        (if (0 <=? a) && (a <? USZ) then Some (default 0 (get (key a) u)) else None)).
      { destruct (Z.leb_spec 0 a); [|done]. by rewrite get_put_ne by (apply key_ne; lia). }
      rewrite Hg. destruct (Z.leb_spec (va + 1) a), (Z.leb_spec va a), (Z.ltb_spec a (va + 1 + Z.of_nat k)),
        (Z.ltb_spec a (va + Z.of_nat (S k))); cbn [andb]; try lia; try done.
      replace (Z.to_nat (a - va)) with (S (Z.to_nat (a - (va + 1)))) by lia. done.
Qed.

Definition sparse_ok (u : trie) : Prop := forall p b, get p u = Some b -> 0 <= b < 256.

Lemma sparse_copyout_ok bs : forall va u, sparse_ok u -> Forall (fun b => 0 <= b < 256) bs -> sparse_ok (sparse_copyout va bs u).2.
Proof.
  induction bs as [|b bs IH]; intros va u Hu Hbs; cbn [sparse_copyout]; [done|]. apply Forall_cons in Hbs as [Hb Hbs].
  destruct (_ && _); [|done]. apply IH; [|done]. intros p c. destruct (decide (key va = p)) as [<-|Hne]; [rewrite get_put; by intros [= <-]|].
  rewrite get_put_ne by done. apply Hu.
Qed.

#[export, refine] Instance sparse_user : UserMem trie := {|
  uok := sparse_ok;
  ubyte := sparse_byte;
  ucopyin := fun va n u => sparse_copyin va (Z.to_nat n) u;
  ucopyout := sparse_copyout;
  ucopyinstr := fun va max u => str_at (sparse_byte u) va (Z.to_nat max)
|}.
Proof.
  - intros u a b Hu. unfold sparse_byte. destruct (_ && _); [|done]. intros [= <-]. destruct (get (key a) u) as [c|] eqn:Hc; [by apply (Hu (key a) c)|cbn; lia].
  - intros va n u Hu Hva Hn. pose proof (sparse_copyin_spec u (Z.to_nat n) va) as H.
    destruct (sparse_copyin va (Z.to_nat n) u) as [r bs]. destruct H as [H1 [[-> H2]|(-> & H2 & H3)]].
    + split; [done|]. left. split; [done|lia].
    + split; [done|]. right. split; [done|]. split; [lia|done].
  - intros va bs u Hu Hva Hbs. destruct (sparse_copyout_spec bs va u) as (k & r & u' & H1 & H2 & H3).
    exists k, r, u'. split; [done|]. split; [|split; [done|]].
    + pose proof (sparse_copyout_ok bs va u Hu Hbs) as Hok. by rewrite H1 in Hok.
    + intros a _. apply H3.
  - done.
Defined.

(** ** Programs *)

Abbreviation P := (M (kfs trie)).

(** A constant of the program, or a store of its own. *)
Fixpoint store (a : Z) (bs : list Z) (u : trie) : trie :=
  match bs with [] => u | b :: bs' => store (a + 1) bs' (put (key a) b u) end.
Definition poke (a : Z) (bs : list Z) : P unit :=
  modify (fun s => set_fsys (set_um (store a bs (um (fsys s)).1, (um (fsys s)).2) (fsys s)) s).
Definition peek (a : Z) : P Z := gets (fun s => default 0 (get (key a) (um (fsys s)).1)).
(** The [int] at an address. *)
Definition peek_int (a : Z) : P Z :=
  let! b0 := peek a in let! b1 := peek (a + 1) in let! b2 := peek (a + 2) in let! b3 := peek (a + 3) in
  ret (s32 (of_le [b0; b1; b2; b3])).

Definition cstr (a : Z) (p : list Z) : P unit := poke a (p ++ [0]).

(** The console's entry of [devsw] for a program that only looks at the result:
    a [write] returns the number of bytes that could be read, which is what
    [consolewrite] returns whenever it returns ([tty_write_consolewrite]).
    Nothing is typed, so a read from it would wait. *)
Definition tty_write (major : Z) : option (Z -> Z -> P fout) :=
  if major =? 1 then Some (fun addr n s => Done (FRet (Z.of_nat (length (ucopyin addr n (um (fsys s)).1).2))) s) else None.
Definition tty_read (major : Z) : option (Z -> Z -> P fout) := None.

Lemma consolewrite_count (u : trie) (km : mem) (panicked : bool) (src n r : Z) (t' : uart) : forall fuel i t lsr,
  0 <= src + i < 2 ^ 64 -> 0 <= i <= n -> n - i < Z.of_nat fuel ->
  consolewrite fuel t (u, km) panicked true src i n lsr = (WReturn r, t') ->
  r = i + Z.of_nat (length (sparse_copyin (src + i) (Z.to_nat (n - i)) u).2).
Proof.
  induction fuel as [|fuel IH]; intros i t lsr Hs Hi Hf; [lia|]. cbn [consolewrite].
  destruct (Z.ltb_spec i n) as [Hlt|Hge].
  2: { intros [= <- _]. replace (n - i) with 0 by lia. change (Z.to_nat 0) with 0%nat. cbn [sparse_copyin snd length]. lia. }
  replace (Z.to_nat (n - i)) with (S (Z.to_nat (n - (i + 1)))) by lia.
  unfold u64. rewrite (Z.mod_small (src + i)) by lia. cbn [either_copyin ucopyin sparse_user fst].
  change (Z.to_nat 1) with 1%nat. cbn [sparse_copyin].
  destruct (sparse_byte u (src + i)) as [b|] eqn:Hb; cbn [Z.eqb Pos.eqb snd length]; [|intros [= <- _]; cbn [length]; lia].
  destruct (uartputc panicked t _ _) as [| |t1 w]; [done|done|]. intros H.
  assert (Ha : src + i < USZ).
  { unfold sparse_byte in Hb. destruct (Z.ltb_spec (src + i) USZ); [done|]. by rewrite andb_false_r in Hb. }
  apply IH in H as ->; [|unfold USZ in Ha; lia|lia|lia].
  replace (src + (i + 1)) with (src + i + 1) by lia.
  destruct (sparse_copyin (src + i + 1) (Z.to_nat (n - (i + 1))) u) as [r1 bs]. cbn [snd length]. lia.
Qed.

(** Whatever the UART does, if [consolewrite] returns then with this result. *)
Lemma tty_write_consolewrite (s : kfs trie) (t t' : uart) (panicked : bool) (addr n r : Z) (fuel : nat) (lsr : list (list bool)) :
  0 <= addr < 2 ^ 64 -> 0 <= n < Z.of_nat fuel ->
  consolewrite fuel t (um (fsys s)) panicked true addr 0 n lsr = (WReturn r, t') ->
  exists w, tty_write 1 = Some w /\ w addr n s = Done (FRet r) s.
Proof.
  intros Ha Hn H. eexists. split; [reflexivity|]. destruct (um (fsys s)) as [u km] eqn:Hu.
  apply consolewrite_count in H as ->; [|lia|lia|lia]. rewrite Z.add_0_r, Z.sub_0_r, Z.add_0_l. cbv beta. by rewrite Hu.
Qed.

Definition args3 (a b c : Z) (n : nat) : Z := nth n [a; b; c] 0.
(** Uninitialised kernel stack, and the addresses of its directory entries. *)
Definition kjunk : list Z := replicate 14 0.
Definition kde : Z := 0.
Definition kude : Z := 16.

Definition returned (r : fout) : P Z := match r with FRet z => ret z | FSleep _ _ _ => panic "sleep" end.

(** The stubs of [user/usys.pl] for the file system calls. *)
Definition open (path : list Z) (omode : Z) : P Z := cstr STR0 path ;; sys_open (args3 STR0 omode 0) kjunk kde.
Definition open_at (addr omode : Z) : P Z := sys_open (args3 addr omode 0) kjunk kde.
Definition read (fd addr n : Z) : P Z := let! r := sys_read tty_read (args3 fd addr n) false in returned r.
Definition write (fd addr n : Z) : P Z := let! r := sys_write tty_write (args3 fd addr n) (fun _ => false) in returned r.
Definition write_str (fd : Z) (t : string) (n : Z) : P Z := cstr STR0 (bytes_of_string t) ;; write fd STR0 n.
Definition close (fd : Z) : P Z := sys_close (args3 fd 0 0).
Definition dup (fd : Z) : P Z := sys_dup (args3 fd 0 0).
Definition link (old new : list Z) : P Z := cstr STR0 old ;; cstr STR1 new ;; sys_link (args3 STR0 STR1 0) kjunk kde.
Definition unlink (path : list Z) : P Z := cstr STR0 path ;; sys_unlink (args3 STR0 0 0) kjunk kde kude.
Definition mkdir (path : list Z) : P Z := cstr STR0 path ;; sys_mkdir (args3 STR0 0 0) kjunk kde.
Definition mknod (path : list Z) (major minor : Z) : P Z := cstr STR0 path ;; sys_mknod (args3 STR0 major minor) kjunk kde.
Definition chdir (path : list Z) : P Z := cstr STR0 path ;; sys_chdir (args3 STR0 0 0) kjunk kde.
Definition pipe (fds : Z) : P Z := sys_pipe (args3 fds 0 0).

(** [printf] of a message and [exit(1)]. *)
Definition complain {A} (msg : string) : P A := panic msg.
Definition check (bad : bool) (msg : string) : P unit := if bad then complain msg else ret tt.

(** ** A booted system *)

Definition entry (inum : Z) (name : list Z) : list Z := dirent_bytes (mkdirent inum (name ++ replicate (14 - length name) 0)).
Definition bytes (t : string) : list Z := bytes_of_string t.

(** What [README] and the program [echo] hold on the host. *)
Definition readme : list Z := bytes "xv6 is a re-implementation of Unix Version 6".
Definition echo_elf : list Z := [0x7f; 69; 76; 70] ++ replicate 1196 0.

Definition file_inode (type size : Z) (addrs : list Z) : dinode :=
  mkdinode type 0 0 1 size (addrs ++ replicate (13 - length addrs) 0).
Definition inode_block0 : block :=
  splice 64 (dinode_bytes (file_inode T_DIR 1024 [46]) ++ dinode_bytes (file_inode T_FILE (Z.of_nat (length readme)) [47]) ++
    dinode_bytes (file_inode T_FILE (Z.of_nat (length echo_elf)) [48; 49])) zeroes.
Definition boot_disk (b : Z) : block :=
  if b =? 1 then splice 0 (sb_bytes mkfs_sb) zeroes
  else if b =? 32 then inode_block0
  else if b =? 45 then replicate 6 255 ++ [3] ++ replicate 1017 0
  else if b =? 46 then splice 0 (entry 1 (bytes ".") ++ entry 1 (bytes "..") ++ entry 2 (bytes "README") ++ entry 3 (bytes "echo")) zeroes
  else if b =? 47 then splice 0 readme zeroes
  else if b =? 48 then take 1024 echo_elf
  else if b =? 49 then splice 0 (drop 1024 echo_elf) zeroes
  else zeroes.

(** What successive reads of [BSIZE] bytes return. *)
Definition host : host_fs := fun path =>
  if bool_decide (path = bytes "README") then Some [readme]
  else if bool_decide (path = bytes "user/_echo") then Some [take 1024 echo_elf; drop 1024 echo_elf] else None.

Definition mkfs_agrees : bool :=
  match main true host [bytes "mkfs"; bytes "fs.img"; bytes "README"; bytes "user/_echo"] image0 with
  | Done _ s => forallb (fun b => bool_decide (img s b = boot_disk b)) (seqZ 0 FSSIZE)
  | Panic _ => false
  end.

(** [boot_disk] is the image [mkfs] makes of the two files, block for block. *)
Lemma boot_disk_is_mkfs : mkfs_agrees = true.
Proof. vm_compute. reflexivity. Qed.

(** The kernel before the first process runs; the free pages are for pipes. *)
Definition at_boot : kfs trie :=
  mkkfs (mkfs (mksb 0 0 0 0 0 0 0 0) (mklog 0 0 0 false [] (mkbdev boot_disk boot_disk [] [])) (replicate NINODE inode0) (Leaf, fun _ => 0) [])
    (replicate NFILE file0) ∅ [0x87fff000; 0x87ffe000] [] (replicate NOFILE None) 0.

(** [p->cwd = namei("/")] in [userinit]. *)
Definition start_cwd : P unit :=
  let! ip := onfs (namei kde 0 [SLASH] kjunk) in
  match ip with Some i => modify (set_cwd i) | None => panic "userinit" end.

(** The start of [main] in [user/init.c]. *)
Definition init_start : P unit :=
  let! fd := open (bytes "console") O_RDWR in
  (if fd <? 0 then let! _ := mknod (bytes "console") 1 0 in let! _ := open (bytes "console") O_RDWR in ret tt else ret tt) ;;
  let! _ := dup 0 in
  let! _ := dup 0 in
  ret tt.

Definition boot : P unit := start_cwd ;; onfs fsinit ;; init_start.
Definition booted : kfs trie := match boot at_boot with Done _ s => s | Panic _ => at_boot end.
