(* ===== verification/Usertests.v ===== *)
(** * The kernel under its own tests: [user/usertests.c]

    The test programs that one process runs through the file system calls,
    translated statement for statement over the kernel of [Fs.v], [File.v] and
    [Sysfile.v] ([Userprog.v] gives the system calls).  A test that finds
    something wrong prints a message and exits with 1: here it ends in
    [complain] with that message, and no test goes on behind it.

    This file validates the model of the kernel by execution: [usertests_pass]
    computes that the tests the authors of the kernel wrote for it pass on the
    model too.  It is a check of the definitions on one disk and one layout of
    the program's memory, not a theorem about all of them.

    The tests that need processes running at the same time, [exec] or [sbrk]
    are not part of this file. *)

From S2P Require Import Prelude Block Log Fs File Sysfile Userprog.

Definition CREATE_RDWR : Z := Z.lor O_CREATE O_RDWR.
Definition CREATE_WRONLY : Z := Z.lor O_CREATE O_WRONLY.
Definition BUFSZ : Z := (MAXOPBLOCKS + 2) * BSIZE.

(** A [for] loop over [n] values of [i]. *)
Definition times (n : nat) (f : Z -> P unit) : P unit := for_each f (seqZ 0 (Z.of_nat n)).
(** A call whose result is not looked at. *)
Definition ignore (c : P Z) : P unit := let! _ := c in ret tt.
(** [if(c < 0)], [if(c != 0)] and [if(c >= 0)], [if(c == 0)] with a message and [exit(1)]. *)
Definition must (c : P Z) (msg : string) : P unit := let! r := c in check (r <? 0) msg.
Definition must0 (c : P Z) (msg : string) : P unit := let! r := c in check (negb (r =? 0)) msg.
Definition mustnt (c : P Z) (msg : string) : P unit := let! r := c in check (r >=? 0) msg.
Definition mustnt0 (c : P Z) (msg : string) : P unit := let! r := c in check (r =? 0) msg.

(** ** Bad pointers *)

Definition bad_addrs : list Z := [0x80000000; 0x3fffffe000; 0x3ffffff000; 0x4000000000; 0xffffffffffffffff].

Definition copyin (s : string) : P unit :=
  for_each (fun addr =>
    let! fd := open (bytes "copyin1") CREATE_WRONLY in
    check (fd <? 0) "open(copyin1) failed" ;;
    let! n := write fd addr 8192 in
    check (n >=? 0) "write(fd) returned, not -1" ;;
    ignore (close fd) ;;
    ignore (unlink (bytes "copyin1")) ;;
    let! n := write 1 addr 8192 in
    check (n >? 0) "write(1) returned, not -1 or 0" ;;
    let! r := pipe STACKBUF in
    check (r <? 0) "pipe() failed" ;;
    let! fd0 := peek_int STACKBUF in
    let! fd1 := peek_int (STACKBUF + 4) in
    let! n := write fd1 addr 8192 in
    check (n >? 0) "write(pipe) returned, not -1 or 0" ;;
    ignore (close fd0) ;;
    ignore (close fd1)) bad_addrs.

Definition copyout (s : string) : P unit :=
  for_each (fun addr =>
    let! fd := open (bytes "README") 0 in
    check (fd <? 0) "open(README) failed" ;;
    let! n := read fd addr 8192 in
    check (n >? 0) "read(fd) returned, not -1 or 0" ;;
    ignore (close fd) ;;
    let! r := pipe STACKBUF in
    check (r <? 0) "pipe() failed" ;;
    let! fd0 := peek_int STACKBUF in
    let! fd1 := peek_int (STACKBUF + 4) in
    let! n := write_str fd1 "x" 1 in
    check (negb (n =? 1)) "pipe write failed" ;;
    let! n := read fd0 addr 8192 in
    check (n >? 0) "read(pipe) returned, not -1 or 0" ;;
    ignore (close fd0) ;;
    ignore (close fd1)) (0 :: bad_addrs).

Definition copyinstr1 (s : string) : P unit :=
  for_each (fun addr => mustnt (open_at addr CREATE_WRONLY) "open returned, not -1") bad_addrs.

(** ** Truncation *)

Definition truncate1 (s : string) : P unit :=
  let f := bytes "truncfile" in
  ignore (unlink f) ;;
  let! fd1 := open f (Z.lor CREATE_WRONLY O_TRUNC) in
  ignore (write_str fd1 "abcd" 4) ;;
  ignore (close fd1) ;;
  let! fd2 := open f O_RDONLY in
  let! n := read fd2 STACKBUF 32 in
  check (negb (n =? 4)) "read bytes, wanted 4" ;;
  let! fd1 := open f (Z.lor O_WRONLY O_TRUNC) in
  let! fd3 := open f O_RDONLY in
  let! n := read fd3 STACKBUF 32 in
  check (negb (n =? 0)) "aaa: read bytes, wanted 0" ;;
  let! n := read fd2 STACKBUF 32 in
  check (negb (n =? 0)) "bbb: read bytes, wanted 0" ;;
  ignore (write_str fd1 "abcdef" 6) ;;
  let! n := read fd3 STACKBUF 32 in
  check (negb (n =? 6)) "read bytes, wanted 6" ;;
  let! n := read fd2 STACKBUF 32 in
  check (negb (n =? 2)) "read bytes, wanted 2" ;;
  ignore (unlink f) ;;
  ignore (close fd1) ;; ignore (close fd2) ;; ignore (close fd3).

Definition truncate2 (s : string) : P unit :=
  let f := bytes "truncfile" in
  ignore (unlink f) ;;
  let! fd1 := open f (Z.lor (Z.lor O_CREATE O_TRUNC) O_WRONLY) in
  ignore (write_str fd1 "abcd" 4) ;;
  let! fd2 := open f (Z.lor O_TRUNC O_WRONLY) in
  let! n := write_str fd1 "x" 1 in
  check (negb (n =? -1)) "write returned, expected -1" ;;
  ignore (unlink f) ;;
  ignore (close fd1) ;; ignore (close fd2).

(** ** Simple file system tests *)

Definition iputtest (s : string) : P unit :=
  must (mkdir (bytes "iputdir")) "mkdir failed" ;;
  must (chdir (bytes "iputdir")) "chdir iputdir failed" ;;
  must (unlink (bytes "../iputdir")) "unlink ../iputdir failed" ;;
  must (chdir (bytes "/")) "chdir / failed".

Definition opentest (s : string) : P unit :=
  let! fd := open (bytes "echo") 0 in
  check (fd <? 0) "open echo failed!" ;;
  ignore (close fd) ;;
  mustnt (open (bytes "doesnotexist") 0) "open doesnotexist succeeded!".

Definition writetest (s : string) : P unit :=
  let N := 100 in let SZ := 10 in
  let! fd := open (bytes "small") CREATE_RDWR in
  check (fd <? 0) "error: creat small failed!" ;;
  times 100 (fun _ =>
    let! r := write_str fd "aaaaaaaaaa" SZ in
    check (negb (r =? SZ)) "error: write aa new file failed" ;;
    let! r := write_str fd "bbbbbbbbbb" SZ in
    check (negb (r =? SZ)) "error: write bb new file failed") ;;
  ignore (close fd) ;;
  let! fd := open (bytes "small") O_RDONLY in
  check (fd <? 0) "error: open small failed!" ;;
  let! i := read fd BUF (N * SZ * 2) in
  check (negb (i =? N * SZ * 2)) "read failed" ;;
  ignore (close fd) ;;
  must (unlink (bytes "small")) "unlink small failed".

(** The reading loop of [writebig]; one read per block and one at the end. *)
Fixpoint readbig (fuel : nat) (fd n : Z) : P unit :=
  match fuel with
  | O => complain "fuel"
  | S fuel' =>
      let! i := read fd BUF BSIZE in
      if i =? 0 then check (negb (n =? MAXFILE)) "read only blocks from big"
      else
        check (negb (i =? BSIZE)) "read failed" ;;
        let! w := peek_int BUF in
        check (negb (w =? n)) "read content of block" ;;
        readbig fuel' fd (n + 1)
  end.
Definition writebig (s : string) : P unit :=
  let! fd := open (bytes "big") CREATE_RDWR in
  check (fd <? 0) "error: creat big failed!" ;;
  times (Z.to_nat MAXFILE) (fun i =>
    poke BUF (le_bytes 4 i) ;;
    let! r := write fd BUF BSIZE in
    check (negb (r =? BSIZE)) "error: write big file failed") ;;
  ignore (close fd) ;;
  let! fd := open (bytes "big") O_RDONLY in
  check (fd <? 0) "error: open big failed!" ;;
  readbig (S (Z.to_nat MAXFILE)) fd 0 ;;
  ignore (close fd) ;;
  must (unlink (bytes "big")) "unlink big failed".

Definition createtest (s : string) : P unit :=
  times 52 (fun i => let! fd := open [97; 48 + i] CREATE_RDWR in ignore (close fd)) ;;
  times 52 (fun i => ignore (unlink [97; 48 + i])).

Definition dirtest (s : string) : P unit :=
  must (mkdir (bytes "dir0")) "mkdir failed" ;;
  must (chdir (bytes "dir0")) "chdir dir0 failed" ;;
  must (chdir (bytes "..")) "chdir .. failed" ;;
  must (unlink (bytes "dir0")) "unlink dir0 failed".

(** ** Links *)

Definition unlinkread (s : string) : P unit :=
  let f := bytes "unlinkread" in let SZ := 5 in
  let! fd := open f CREATE_RDWR in
  check (fd <? 0) "create unlinkread failed" ;;
  ignore (write_str fd "hello" SZ) ;;
  ignore (close fd) ;;
  let! fd := open f O_RDWR in
  check (fd <? 0) "open unlinkread failed" ;;
  must0 (unlink f) "unlink unlinkread failed" ;;
  let! fd1 := open f CREATE_RDWR in
  ignore (write_str fd1 "yyy" 3) ;;
  ignore (close fd1) ;;
  let! r := read fd BUF BUFSZ in
  check (negb (r =? SZ)) "unlinkread read failed" ;;
  let! c := peek BUF in
  check (negb (c =? 104)) "unlinkread wrong data" ;;
  let! r := write fd BUF 10 in
  check (negb (r =? 10)) "unlinkread write failed" ;;
  ignore (close fd) ;;
  ignore (unlink f).

Definition linktest (s : string) : P unit :=
  let lf1 := bytes "lf1" in let lf2 := bytes "lf2" in let SZ := 5 in
  ignore (unlink lf1) ;;
  ignore (unlink lf2) ;;
  let! fd := open lf1 CREATE_RDWR in
  check (fd <? 0) "create lf1 failed" ;;
  let! r := write_str fd "hello" SZ in
  check (negb (r =? SZ)) "write lf1 failed" ;;
  ignore (close fd) ;;
  must (link lf1 lf2) "link lf1 lf2 failed" ;;
  ignore (unlink lf1) ;;
  mustnt (open lf1 0) "unlinked lf1 but it is still there!" ;;
  let! fd := open lf2 0 in
  check (fd <? 0) "open lf2 failed" ;;
  let! r := read fd BUF BUFSZ in
  check (negb (r =? SZ)) "read lf2 failed" ;;
  ignore (close fd) ;;
  mustnt (link lf2 lf2) "link lf2 lf2 succeeded! oops" ;;
  ignore (unlink lf2) ;;
  mustnt (link lf2 lf1) "link non-existent succeeded! oops" ;;
  mustnt (link (bytes ".") lf1) "link . lf1 succeeded! oops".

Definition subdir (s : string) : P unit :=
  ignore (unlink (bytes "ff")) ;;
  must0 (mkdir (bytes "dd")) "mkdir dd failed" ;;
  let! fd := open (bytes "dd/ff") CREATE_RDWR in
  check (fd <? 0) "create dd/ff failed" ;;
  ignore (write_str fd "ff" 2) ;;
  ignore (close fd) ;;
  mustnt (unlink (bytes "dd")) "unlink dd (non-empty dir) succeeded!" ;;
  must0 (mkdir (bytes "/dd/dd")) "subdir mkdir dd/dd failed" ;;
  let! fd := open (bytes "dd/dd/ff") CREATE_RDWR in
  check (fd <? 0) "create dd/dd/ff failed" ;;
  ignore (write_str fd "FF" 2) ;;
  ignore (close fd) ;;
  let! fd := open (bytes "dd/dd/../ff") 0 in
  check (fd <? 0) "open dd/dd/../ff failed" ;;
  let! cc := read fd BUF BUFSZ in
  let! c := peek BUF in
  check (negb (cc =? 2) || negb (c =? 102)) "dd/dd/../ff wrong content" ;;
  ignore (close fd) ;;
  must0 (link (bytes "dd/dd/ff") (bytes "dd/dd/ffff")) "link dd/dd/ff dd/dd/ffff failed" ;;
  must0 (unlink (bytes "dd/dd/ff")) "unlink dd/dd/ff failed" ;;
  mustnt (open (bytes "dd/dd/ff") O_RDONLY) "open (unlinked) dd/dd/ff succeeded" ;;
  must0 (chdir (bytes "dd")) "chdir dd failed" ;;
  must0 (chdir (bytes "dd/../../dd")) "chdir dd/../../dd failed" ;;
  must0 (chdir (bytes "dd/../../../dd")) "chdir dd/../../../dd failed" ;;
  must0 (chdir (bytes "./..")) "chdir ./.. failed" ;;
  let! fd := open (bytes "dd/dd/ffff") 0 in
  check (fd <? 0) "open dd/dd/ffff failed" ;;
  let! r := read fd BUF BUFSZ in
  check (negb (r =? 2)) "read dd/dd/ffff wrong len" ;;
  ignore (close fd) ;;
  mustnt (open (bytes "dd/dd/ff") O_RDONLY) "open (unlinked) dd/dd/ff succeeded!" ;;
  mustnt (open (bytes "dd/ff/ff") CREATE_RDWR) "create dd/ff/ff succeeded!" ;;
  mustnt (open (bytes "dd/xx/ff") CREATE_RDWR) "create dd/xx/ff succeeded!" ;;
  mustnt (open (bytes "dd") O_CREATE) "create dd succeeded!" ;;
  mustnt (open (bytes "dd") O_RDWR) "open dd rdwr succeeded!" ;;
  mustnt (open (bytes "dd") O_WRONLY) "open dd wronly succeeded!" ;;
  mustnt0 (link (bytes "dd/ff/ff") (bytes "dd/dd/xx")) "link dd/ff/ff dd/dd/xx succeeded!" ;;
  mustnt0 (link (bytes "dd/xx/ff") (bytes "dd/dd/xx")) "link dd/xx/ff dd/dd/xx succeeded!" ;;
  mustnt0 (link (bytes "dd/ff") (bytes "dd/dd/ffff")) "link dd/ff dd/dd/ffff succeeded!" ;;
  mustnt0 (mkdir (bytes "dd/ff/ff")) "mkdir dd/ff/ff succeeded!" ;;
  mustnt0 (mkdir (bytes "dd/xx/ff")) "mkdir dd/xx/ff succeeded!" ;;
  mustnt0 (mkdir (bytes "dd/dd/ffff")) "mkdir dd/dd/ffff succeeded!" ;;
  mustnt0 (unlink (bytes "dd/xx/ff")) "unlink dd/xx/ff succeeded!" ;;
  mustnt0 (unlink (bytes "dd/ff/ff")) "unlink dd/ff/ff succeeded!" ;;
  mustnt0 (chdir (bytes "dd/ff")) "chdir dd/ff succeeded!" ;;
  mustnt0 (chdir (bytes "dd/xx")) "chdir dd/xx succeeded!" ;;
  must0 (unlink (bytes "dd/dd/ffff")) "unlink dd/dd/ff failed" ;;
  must0 (unlink (bytes "dd/ff")) "unlink dd/ff failed" ;;
  mustnt0 (unlink (bytes "dd")) "unlink non-empty dd succeeded!" ;;
  must (unlink (bytes "dd/dd")) "unlink dd/dd failed" ;;
  must (unlink (bytes "dd")) "unlink dd failed".

(** ** Large writes *)

(** The sizes 499, 970, ... below [BUFSZ]. *)
Definition bigwrite_sizes : list Z := filter (fun sz => sz < BUFSZ) ((fun i => 499 + 471 * i) <$> seqZ 0 30).
Definition bigwrite (s : string) : P unit :=
  ignore (unlink (bytes "bigwrite")) ;;
  for_each (fun sz =>
    let! fd := open (bytes "bigwrite") CREATE_RDWR in
    check (fd <? 0) "cannot create bigwrite" ;;
    times 2 (fun _ => let! cc := write fd BUF sz in check (negb (cc =? sz)) "write ret") ;;
    ignore (close fd) ;;
    ignore (unlink (bytes "bigwrite"))) bigwrite_sizes.

(** The reading loop of [bigfile]: [N * SZ] bytes in pieces of [SZ / 2]. *)
Fixpoint readfile (fuel : nat) (fd i total : Z) : P Z :=
  match fuel with
  | O => complain "fuel"
  | S fuel' =>
      let! cc := read fd BUF 300 in
      check (cc <? 0) "read bigfile failed" ;;
      if cc =? 0 then ret total
      else
        check (negb (cc =? 300)) "short read bigfile" ;;
        let! b0 := peek BUF in
        let! b1 := peek (BUF + 299) in
        check (negb (b0 =? i / 2) || negb (b1 =? i / 2)) "read bigfile wrong data" ;;
        readfile fuel' fd (i + 1) (total + cc)
  end.
Definition bigfile (s : string) : P unit :=
  let f := bytes "bigfile.dat" in let SZ := 600 in
  ignore (unlink f) ;;
  let! fd := open f CREATE_RDWR in
  check (fd <? 0) "cannot create bigfile" ;;
  times 20 (fun i =>
    poke BUF (replicate 600 i) ;;
    let! r := write fd BUF SZ in
    check (negb (r =? SZ)) "write bigfile failed") ;;
  ignore (close fd) ;;
  let! fd := open f 0 in
  check (fd <? 0) "cannot open bigfile" ;;
  let! total := readfile 41 fd 0 0 in
  ignore (close fd) ;;
  check (negb (total =? 20 * SZ)) "read bigfile wrong total" ;;
  ignore (unlink f).

(** ** Names *)

Definition fourteen (s : string) : P unit :=
  must0 (mkdir (bytes "12345678901234")) "mkdir 12345678901234 failed" ;;
  must0 (mkdir (bytes "12345678901234/123456789012345")) "mkdir 12345678901234/123456789012345 failed" ;;
  let! fd := open (bytes "123456789012345/123456789012345/123456789012345") O_CREATE in
  check (fd <? 0) "create 123456789012345/123456789012345/123456789012345 failed" ;;
  ignore (close fd) ;;
  let! fd := open (bytes "12345678901234/12345678901234/12345678901234") 0 in
  check (fd <? 0) "open 12345678901234/12345678901234/12345678901234 failed" ;;
  ignore (close fd) ;;
  mustnt0 (mkdir (bytes "12345678901234/12345678901234")) "mkdir 12345678901234/12345678901234 succeeded!" ;;
  mustnt0 (mkdir (bytes "123456789012345/12345678901234")) "mkdir 12345678901234/123456789012345 succeeded!" ;;
  ignore (unlink (bytes "123456789012345/12345678901234")) ;;
  ignore (unlink (bytes "12345678901234/12345678901234")) ;;
  ignore (unlink (bytes "12345678901234/12345678901234/12345678901234")) ;;
  ignore (unlink (bytes "123456789012345/123456789012345/123456789012345")) ;;
  ignore (unlink (bytes "12345678901234/123456789012345")) ;;
  ignore (unlink (bytes "12345678901234")).

Definition rmdot (s : string) : P unit :=
  must0 (mkdir (bytes "dots")) "mkdir dots failed" ;;
  must0 (chdir (bytes "dots")) "chdir dots failed" ;;
  mustnt0 (unlink (bytes ".")) "rm . worked!" ;;
  mustnt0 (unlink (bytes "..")) "rm .. worked!" ;;
  must0 (chdir (bytes "/")) "chdir / failed" ;;
  mustnt0 (unlink (bytes "dots/.")) "unlink dots/. worked!" ;;
  mustnt0 (unlink (bytes "dots/..")) "unlink dots/.. worked!" ;;
  must0 (unlink (bytes "dots")) "unlink dots failed!".

Definition dirfile (s : string) : P unit :=
  let! fd := open (bytes "dirfile") O_CREATE in
  check (fd <? 0) "create dirfile failed" ;;
  ignore (close fd) ;;
  mustnt0 (chdir (bytes "dirfile")) "chdir dirfile succeeded!" ;;
  mustnt (open (bytes "dirfile/xx") 0) "create dirfile/xx succeeded!" ;;
  mustnt (open (bytes "dirfile/xx") O_CREATE) "create dirfile/xx succeeded!" ;;
  mustnt0 (mkdir (bytes "dirfile/xx")) "mkdir dirfile/xx succeeded!" ;;
  mustnt0 (unlink (bytes "dirfile/xx")) "unlink dirfile/xx succeeded!" ;;
  mustnt0 (link (bytes "README") (bytes "dirfile/xx")) "link to dirfile/xx succeeded!" ;;
  must0 (unlink (bytes "dirfile")) "unlink dirfile failed!" ;;
  mustnt (open (bytes ".") O_RDWR) "open . for writing succeeded!" ;;
  let! fd := open (bytes ".") 0 in
  let! r := write_str fd "x" 1 in
  check (r >? 0) "write . succeeded!" ;;
  ignore (close fd).

Definition iref (s : string) : P unit :=
  times (S NINODE) (fun _ =>
    must0 (mkdir (bytes "irefd")) "mkdir irefd failed" ;;
    must0 (chdir (bytes "irefd")) "chdir irefd failed" ;;
    ignore (mkdir []) ;;
    ignore (link (bytes "README") []) ;;
    let! fd := open [] O_CREATE in
    (if fd >=? 0 then ignore (close fd) else ret tt) ;;
    let! fd := open (bytes "xx") O_CREATE in
    (if fd >=? 0 then ignore (close fd) else ret tt) ;;
    ignore (unlink (bytes "xx"))) ;;
  times (S NINODE) (fun _ => ignore (chdir (bytes "..")) ;; ignore (unlink (bytes "irefd"))) ;;
  ignore (chdir (bytes "/")).

(** Strings at every page up to 1100 kilobytes. *)
Definition validatetest (s : string) : P unit :=
  for_each (fun p =>
    cstr STR0 (bytes "nosuchfile") ;;
    let! r := sys_link (args3 STR0 p 0) kjunk kde in
    check (negb (r =? -1)) "link should not succeed") ((fun i => i * PGSIZE) <$> seqZ 0 276).

(** ** Child processes *)

(** A child has its parent's files and directory; when it exits it gives them
    back ([fork] and [exit] of [kernel/proc.c]). *)
Definition enter : P unit :=
  let! fds := gets ofile in
  for_each (fun o => match o with Some f => let! _ := filedup f in ret tt | None => ret tt end) fds ;;
  let! c := gets cwd in
  let! _ := onfs (idup c) in
  ret tt.
Definition leave : P unit :=
  let! fds := gets ofile in
  for_each (fun o => match o with Some f => fileclose f | None => ret tt end) fds ;;
  let! c := gets cwd in
  begin_op ;; onfs (iput c) ;; end_op.

(** [fork], the child's work and its [exit], and the parent's [wait]: the child
    runs on a copy of the parent's memory. *)
Definition set_user (u : trie) (s : kfs trie) : kfs trie := set_fsys (set_um (u, (um (fsys s)).2) (fsys s)) s.
Definition forked (child : P unit) : P unit :=
  let! fds := gets ofile in
  let! c := gets cwd in
  let! u := gets (fun s => (um (fsys s)).1) in
  enter ;; child ;; leave ;;
  modify (fun s => set_user u (set_cwd c (set_ofile fds s))).

(** The child exits while its current directory is unlinked. *)
Definition exitiputtest (s : string) : P unit :=
  forked (
    must (mkdir (bytes "iputdir")) "mkdir failed" ;;
    must (chdir (bytes "iputdir")) "child chdir failed" ;;
    must (unlink (bytes "../iputdir")) "unlink ../iputdir failed").

(** ** The driver *)

(** Every test in a child of its own, in the order of the list, as long as the
    children exit with 0. *)
Definition run_all (tests : list ((string -> P unit) * string)) : P unit :=
  for_each (fun t => forked (t.1 t.2)) tests.

(** The tests above, in the order of the table [quicktests]. *)
Definition file_tests : list ((string -> P unit) * string) :=
  [(copyin, "copyin"); (copyout, "copyout"); (copyinstr1, "copyinstr1"); (truncate1, "truncate1"); (truncate2, "truncate2");
   (exitiputtest, "exitiput"); (iputtest, "iput"); (opentest, "opentest"); (writetest, "writetest"); (writebig, "writebig");
   (createtest, "createtest"); (dirtest, "dirtest"); (unlinkread, "unlinkread"); (linktest, "linktest"); (subdir, "subdir");
   (bigwrite, "bigwrite"); (bigfile, "bigfile"); (fourteen, "fourteen"); (rmdot, "rmdot"); (dirfile, "dirfile");
   (iref, "iref"); (validatetest, "validatetest")].

(** What a system holds: the free map of the disk, the inodes in use on it, the
    in-core inodes and open files in use, and the free pages. *)
Definition disk_block (s : kfs trie) (b : Z) : block := disk (bio (lg (fsys s))) b.
Definition holdings (s : kfs trie) : block * list Z * list (Z * Z) * list Z * nat :=
  (disk_block s 45,
   (fun i => of_le (take 2 (drop (64 * Z.to_nat (i mod 16)) (disk_block s (32 + i / 16))))) <$> seqZ 0 200,
   (fun ip => (if i_ref ip =? 0 then 0 else i_inum ip, i_ref ip)) <$> itable (fsys s),
   f_ref <$> ftable s,
   length (freepages s)).

Definition passes (o : result (kfs trie) unit) : bool :=
  match o with
  | Done _ s => bool_decide (holdings s = holdings booted)
  | Panic _ => false
  end.

Lemma passes_spec o : passes o = true -> exists s, o = Done tt s /\ holdings s = holdings booted.
Proof.
  destruct o as [[] s|msg]; [|done]. intros Hs%bool_decide_eq_true_1. exists s. split; [reflexivity|exact Hs].
Qed.

Lemma file_tests_pass : passes (run_all file_tests booted) = true.
Proof. vm_compute. reflexivity. Qed.

(** The model passes these tests.  On the system that [mkfs], [fsinit] and
    [init] set up, running the tests one after the other, each in a process of
    its own, every system call returns what the test expects of it (neither a
    test complains nor the kernel panics), and at the end the system holds
    exactly what it held before: the same free blocks and allocated inodes on
    the disk, the same references to in-core inodes and open files, and as many
    free pages, so no test leaks. *)
Theorem usertests_pass :
  exists s, run_all file_tests booted = Done tt s /\ holdings s = holdings booted.
Proof. exact (passes_spec _ file_tests_pass). Qed.
