(* ===== verification/Boot.v ===== *)
(** * Booting: [kernel/main.c], [kernel/plic.c] and the device set-up

    Every hart enters [main] from [start] ([Hart.v]).  A [core] is a hart's
    registers with the part of [struct cpu] that [push_off] counts in; [shared]
    is the memory all harts see: the process table with its services (physical
    memory and files), the globals the set-up functions assign, and the ordered
    list [bus] of writes to device registers, which is all a device learns from
    the kernel.  The functions [main] calls are computations on a core and the
    shared state; hart 0 runs [boot_calls], the others wait for [started] and
    run [join_calls].  A step of the machine is one call of one hart: the calls
    that more than one hart makes touch only the hart's own registers, or print
    under [pr.lock].

    What reading the UART's line status register returns is the parameter
    [lsr]; [patience] is how many reads [uartputc_sync] may need before the
    transmitter is idle.  [BootSpec.v] proves that every hart that reaches the
    scheduler finds the kernel fully initialised. *)

From stdpp Require Import gmap.
From S2P Require Import Prelude CString Kalloc Spinlock ProcDef Proc ProcTable Block Log Bio Vm Kvm UserMem FirstProc.
From S2P Require Import Hart Virtio Pipe Console Fs File Printf.

(** ** Registers of the devices *)

(** [kernel/memlayout.h] *)
Definition PLIC_SENABLE (hart : Z) : Z := PLIC + 0x2080 + hart * 0x100.
Definition PLIC_SPRIORITY (hart : Z) : Z := PLIC + 0x201000 + hart * 0x2000.
Definition PLIC_SCLAIM (hart : Z) : Z := PLIC + 0x201004 + hart * 0x2000.

(** [kernel/uart.c] *)
Definition THR : Z := 0.
Definition IER : Z := 1.
Definition IER_RX_ENABLE : Z := Z.shiftl 1 0.
Definition IER_TX_ENABLE : Z := Z.shiftl 1 1.
Definition FCR : Z := 2.
Definition FCR_FIFO_ENABLE : Z := Z.shiftl 1 0.
Definition FCR_FIFO_CLEAR : Z := Z.shiftl 3 1.
Definition LCR : Z := 3.
Definition LCR_EIGHT_BITS : Z := Z.shiftl 3 0.
Definition LCR_BAUD_LATCH : Z := Z.shiftl 1 7.
Definition LSR_TX_IDLE : Z := Z.shiftl 1 5.

(** [kernel/file.h] *)
Definition CONSOLE : Z := 1.
Inductive dev_fn := Consoleread | Consolewrite.

Record core := mkcore { regs : hart; percpu : cpu }.

Section Boot.
Context {U : Type} `{!UserMem U}.

Record shared := mkshared {
  kern : kernel (kmem * kfs U);
  kernel_pagetable : Z;
  bcaches : option bcache;              (* [None] before [binit] *)
  devsw : gmap Z (dev_fn * dev_fn);     (* read and write functions *)
  pr_locking : bool;
  panicked : bool;
  lock_names : list string;             (* locks initialised so far *)
  bus : list (Z * Z);                   (* device register writes, oldest first *)
  lsr_reads : nat;
  started : bool
}.
Definition eta_shared (s : shared) : shared :=
  mkshared (kern s) (kernel_pagetable s) (bcaches s) (devsw s) (pr_locking s) (panicked s) (lock_names s) (bus s)
    (lsr_reads s) (started s).
Definition set_kern : kernel (kmem * kfs U) -> shared -> shared := ltac:(mk_setter eta_shared kern).
Definition set_kernel_pagetable : Z -> shared -> shared := ltac:(mk_setter eta_shared kernel_pagetable).
Definition set_bcaches : option bcache -> shared -> shared := ltac:(mk_setter eta_shared bcaches).
Definition set_devsw : gmap Z (dev_fn * dev_fn) -> shared -> shared := ltac:(mk_setter eta_shared devsw).
Definition set_pr_locking : bool -> shared -> shared := ltac:(mk_setter eta_shared pr_locking).
Definition set_panicked : bool -> shared -> shared := ltac:(mk_setter eta_shared panicked).
Definition set_lock_names : list string -> shared -> shared := ltac:(mk_setter eta_shared lock_names).
Definition set_bus : list (Z * Z) -> shared -> shared := ltac:(mk_setter eta_shared bus).
Definition set_lsr_reads : nat -> shared -> shared := ltac:(mk_setter eta_shared lsr_reads).
Definition set_started : bool -> shared -> shared := ltac:(mk_setter eta_shared started).

Abbreviation B := (M (core * shared)).

(** A computation on the registers, on [push_off]'s counters, on the shared state. *)
Definition onregs {A} (c : M hart A) : B A := fun s =>
  match c (regs s.1) with Done a h => Done a (mkcore h (percpu s.1), s.2) | Panic msg => Panic msg end.
Definition oncpu {A} (c : M cpu A) : B A := fun s =>
  match c (percpu s.1) with Done a k => Done a (mkcore (regs s.1) k, s.2) | Panic msg => Panic msg end.
Definition glob {A} (f : shared -> A) : B A := fun s => Done (f s.2) s.
Definition upd_glob (f : shared -> shared) : B unit := fun s => Done tt (s.1, f s.2).
Definition onkern {A} (c : M (kernel (kmem * kfs U)) A) : B A := fun s =>
  match c (kern s.2) with Done a k => Done a (s.1, set_kern k s.2) | Panic msg => Panic msg end.
Definition onmemory {A} (c : M kmem A) : B A := onkern (svc (onmem c)).
Definition onfilesys {A} (c : M (kfs U) A) : B A := onkern (svc (onfiles c)).

Definition initlock (name : string) : B unit := upd_glob (fun s => set_lock_names (lock_names s ++ [name]) s).
Definition write_dev (a v : Z) : B unit := upd_glob (fun s => set_bus (bus s ++ [(a, v)]) s).
Definition spin_forever {A} : B A := panic "for(;;)".

(** ** [kernel/uart.c] *)

Definition WriteReg (reg v : Z) : B unit := write_dev (UART0 + reg) (u8 v).

Definition uartinit : B unit :=
  WriteReg IER 0 ;;
  WriteReg LCR LCR_BAUD_LATCH ;;
  WriteReg 0 3 ;;
  WriteReg 1 0 ;;
  WriteReg LCR LCR_EIGHT_BITS ;;
  WriteReg FCR (Z.lor FCR_FIFO_ENABLE FCR_FIFO_CLEAR) ;;
  WriteReg IER (Z.lor IER_TX_ENABLE IER_RX_ENABLE) ;;
  initlock "uart".

Context (lsr : nat -> Z) (patience : nat).

Definition read_lsr : B Z :=
  let! n := glob lsr_reads in upd_glob (set_lsr_reads (S n)) ;; ret (lsr n).

Fixpoint wait_tx (fuel : nat) : B unit :=
  match fuel with
  | O => spin_forever
  | S fuel' => let! v := read_lsr in if Z.land v LSR_TX_IDLE =? 0 then wait_tx fuel' else ret tt
  end.

Definition uartputc_sync (c : Z) : B unit :=
  oncpu (modify push_off) ;;
  let! p := glob panicked in
  if (p : bool) then spin_forever
  else
    wait_tx patience ;;
    WriteReg THR c ;;
    oncpu pop_off.

(** ** [kernel/console.c] and [kernel/printf.c] *)

Definition consputc (c : Z) : B unit :=
  if c =? BACKSPACE then uartputc_sync 8 ;; uartputc_sync 32 ;; uartputc_sync 8 else uartputc_sync c.

Definition consoleinit : B unit :=
  initlock "cons" ;;
  uartinit ;;
  upd_glob (fun s => set_devsw (<[CONSOLE := (Consoleread, Consolewrite)]> (devsw s)) s).

Definition printfinit : B unit := initlock "pr" ;; upd_glob (set_pr_locking true).

(** [printf]: the characters are those of [kernel_printf] ([Printf.v]).
    [pr.lock] is free when a call starts and held throughout, with
    interrupts off. *)
Definition print (fmt : string) (args : list arg) : B unit :=
  let! locking := glob pr_locking in
  (if (locking : bool) then oncpu (modify push_off) else ret tt) ;;
  match kernel_printf (bytes_of_string fmt) args with
  | Some t => for_each consputc t
  | None => panic "undefined"
  end ;;
  if (locking : bool) then oncpu pop_off else ret tt.

(** [panic] up to its infinite loop. *)
Definition kpanic (s : string) : B unit :=
  upd_glob (set_pr_locking false) ;;
  print "panic: " [] ;;
  print "%s
" [Str (Some (bytes_of_string s))] ;;
  upd_glob (set_panicked true).

(** ** [kernel/plic.c]: 32-bit registers *)

Definition plicinit : B unit :=
  write_dev (PLIC + UART0_IRQ * 4) 1 ;;
  write_dev (PLIC + VIRTIO0_IRQ * 4) 1.

Definition plicinithart : B unit :=
  let! hart := onregs cpuid in
  write_dev (PLIC_SENABLE hart) (Z.lor (Z.shiftl 1 UART0_IRQ) (Z.shiftl 1 VIRTIO0_IRQ)) ;;
  write_dev (PLIC_SPRIORITY hart) 0.

(** [claim] is what the PLIC answers a read of that register. *)
Definition plic_claim (claim : Z -> Z) : B Z :=
  let! hart := onregs cpuid in ret (s32 (claim (PLIC_SCLAIM hart))).

Definition plic_complete (irq : Z) : B unit :=
  let! hart := onregs cpuid in write_dev (PLIC_SCLAIM hart) (u32 irq).

(** ** The other functions [main] calls *)

(** Link addresses: the end of the kernel, the end of its text, the trampoline
    page, [kernelvec]; the disk behind the buffer cache; what the disk's
    registers read; the address of [dirlookup]'s directory entry; the
    operations of the file layer that a boot does not use. *)
Context (kend etext trampoline kernelvec : Z) (blocks : Z -> Z -> block) (vreg : Z -> Z) (de_addr : Z) (rest : FileLayer (kfs U)).

(** [namei("/")]; a pointer to entry [i] of the inode table is [i + 1].  [name]
    is an uninitialised buffer of [namei]. *)
Context (name : list Z).
Definition root_lookup : M (kfs U) Z := fun s =>
  match onfs (namei de_addr (File.cwd s) (bytes_of_string "/") name) s with
  | Done (Some i) s' => Done (Z.of_nat i + 1) s'
  | Done None s' => Done 0 s'
  | Panic msg => Panic msg
  end.

#[local] Instance boot_files : FileLayer (kfs U) := {|
  fl_dup := @fl_dup _ rest;
  fl_close := @fl_close _ rest;
  fl_idup := @fl_idup _ rest;
  fl_iput := @fl_iput _ rest;
  fl_root := root_lookup;
  fl_uninit := @fl_uninit _ rest;
  fl_forkret := @fl_forkret _ rest
|}.
#[local] Instance boot_services : Services (kmem * kfs U) := vm_services kend trampoline.

Definition kinit : B unit := initlock "kmem" ;; onmemory (Kalloc.kinit kend).

Definition kvminit : B unit :=
  let! pt := onmemory (kvmmake etext trampoline) in upd_glob (set_kernel_pagetable pt).

Definition kvminithart : B unit := let! pt := glob kernel_pagetable in onregs (Hart.kvminithart pt).

Definition procinit : B unit :=
  initlock "nextpid" ;; initlock "wait_lock" ;; for_each (fun _ => initlock "proc") (seq 0 NPROC) ;;
  onkern Proc.procinit.

Definition trapinit : B unit := initlock "time".
Definition trapinithart : B unit := onregs (Hart.trapinithart kernelvec).

Definition initsleeplock (nm : string) : B unit := initlock "sleep lock".

Definition binit : B unit :=
  initlock "bcache" ;; for_each (fun _ => initsleeplock "buffer") (seq 0 NBUF) ;; upd_glob (set_bcaches (Some (Bio.binit blocks))).
Definition iinit : B unit :=
  initlock "itable" ;; for_each (fun _ => initsleeplock "inode") (seq 0 NINODE) ;; onfilesys (onfs Fs.iinit).
Definition fileinit : B unit := initlock "ftable" ;; onfilesys File.fileinit.

(** The register protocol is that of [Virtio.v]; the three pages come from
    [kalloc] and are cleared before the disk is told of them. *)
Definition virtio_disk_init : B unit :=
  initlock "virtio_disk" ;;
  let! d := onmemory kalloc in
  let! a := onmemory kalloc in
  let! u := onmemory kalloc in
  (if (d =? 0) || (a =? 0) || (u =? 0) then ret tt
   else onmemory (zero_page d ;; zero_page a ;; zero_page u)) ;;
  let! w := glob bus in
  match Virtio.virtio_disk_init vreg d a u w with
  | Done _ w' => upd_glob (set_bus w')
  | Panic msg => panic msg
  end.

Definition userinit : B unit := onkern Proc.userinit.

(** ** [kernel/main.c] *)

Definition boot_calls : list (B unit) := [
  consoleinit;
  printfinit;
  print "
" [];
  print "xv6 kernel is booting
" [];
  print "
" [];
  kinit;
  kvminit;
  kvminithart;
  procinit;
  trapinit;
  trapinithart;
  plicinit;
  plicinithart;
  binit;
  iinit;
  fileinit;
  virtio_disk_init;
  userinit;
  upd_glob (set_started true)
].

Definition join_calls : list (B unit) := [
  (let! id := onregs cpuid in print "hart %d starting
" [Num id]);
  kvminithart;
  trapinithart;
  plicinithart
].

(** Where a hart is in [main]: before the test of [cpuid()], before a call of
    one of the branches, in the loop on [started], in [scheduler]. *)
Inductive place := Enter | Booting (k : nat) | Spinning | Joining (k : nat) | Scheduling.

Record machine := mkmachine { cores : list core; at_ : list place; mem_ : shared }.

(** The next call of a branch, for hart [c]. *)
Definition call (cs : list (B unit)) (next : nat -> place) (k : nat) (c : nat) (m : machine) : result machine unit :=
  match cores m !! c, (cs !! k : option (B unit)) with
  | Some co, Some f =>
      match f (co, mem_ m) with
      | Done _ (co', s') => Done tt (mkmachine (<[c := co']> (cores m)) (<[c := next (S k)]> (at_ m)) s')
      | Panic msg => Panic msg
      end
  | Some _, None => Done tt (mkmachine (cores m) (<[c := Scheduling]> (at_ m)) (mem_ m))
  | None, _ => Panic "hart"
  end.

Definition main_step (c : nat) (m : machine) : result machine unit :=
  match at_ m !! c with
  | Some Enter =>
      match cores m !! c with
      | Some co =>
          match onregs cpuid (co, mem_ m) with
          | Done id (co', s') =>
              Done tt (mkmachine (<[c := co']> (cores m)) (<[c := if id =? 0 then Booting 0 else Spinning]> (at_ m)) s')
          | Panic msg => Panic msg
          end
      | None => Panic "hart"
      end
  | Some (Booting k) => call boot_calls Booting k c m
  | Some Spinning => Done tt (mkmachine (cores m) (<[c := if started (mem_ m) then Joining 0 else Spinning]> (at_ m)) (mem_ m))
  | Some (Joining k) => call join_calls Joining k c m
  | Some Scheduling => Done tt m
  | None => Panic "hart"
  end.

Inductive step (m m' : machine) : Prop :=
| step_hart c : (c < length (cores m))%nat -> main_step c m = Done tt m' -> step m m'.
End Boot.
