(* ===== verification/BootSpec.v ===== *)
(** * Correctness of the boot: [kernel/main.c]

    [uart_of] and [plic_delivers] replay the device register writes as the
    16550 UART and the interrupt controller understand them.  [ready] is the
    state the set-up functions must reach before [started] is set; [joined]
    what a hart has done of its own set-up.  [boot_reaches_scheduler]: on every
    interleaving of the harts no call panics, every hart in the scheduler
    finds [ready] memory and its own registers set up, and all harts can get
    there. *)

From stdpp Require Import gmap.
From S2P Require Import Prelude CString Kalloc Spinlock ProcDef Proc ProcTable Block Log Bio Vm VmFacts VmOps Kvm VmFrame.
From S2P Require Import UserMem FirstProc Hart Virtio Pipe Console Fs File Printf Boot.

(** ** The devices' view of the bus *)

(** What a register was last told. *)
Definition reg_value (ws : list (Z * Z)) (a : Z) : Z := foldl (fun v w => if w.1 =? a then w.2 else v) 0 ws.

(** Interrupt [irq] reaches a hart when its priority exceeds the hart's
    threshold and the hart enabled it. *)
Definition plic_delivers (ws : list (Z * Z)) (hart irq : Z) : bool :=
  (reg_value ws (PLIC_SPRIORITY hart) <? reg_value ws (PLIC + irq * 4)) && Z.testbit (reg_value ws (PLIC_SENABLE hart)) irq.

(** The UART: bit 7 of the line control register turns the first two registers
    into the baud rate divisor. *)
Record uart := mkuart { u_lcr : Z; u_divisor : Z * Z; u_ier : Z; u_fcr : Z; sent : list Z }.
Definition uart_write (d : uart) (w : Z * Z) : uart :=
  let latch := Z.testbit (u_lcr d) 7 in
  if w.1 =? UART0 + THR then
    if latch then mkuart (u_lcr d) (w.2, (u_divisor d).2) (u_ier d) (u_fcr d) (sent d)
    else mkuart (u_lcr d) (u_divisor d) (u_ier d) (u_fcr d) (sent d ++ [w.2])
  else if w.1 =? UART0 + IER then
    if latch then mkuart (u_lcr d) ((u_divisor d).1, w.2) (u_ier d) (u_fcr d) (sent d)
    else mkuart (u_lcr d) (u_divisor d) w.2 (u_fcr d) (sent d)
  else if w.1 =? UART0 + FCR then mkuart (u_lcr d) (u_divisor d) (u_ier d) w.2 (sent d)
  else if w.1 =? UART0 + LCR then mkuart w.2 (u_divisor d) (u_ier d) (u_fcr d) (sent d)
  else d.
Definition uart_of (ws : list (Z * Z)) : uart := foldl uart_write (mkuart 0 (0, 0) 0 0 []) ws.

(** 38400 baud, eight bits, FIFOs on, both interrupts enabled. *)
Definition line_up (sent : list Z) : uart := mkuart 3 (3, 0) 3 7 sent.

Lemma reg_value_app ws ws' a : Forall (fun w => w.1 <> a) ws' -> reg_value (ws ++ ws') a = reg_value ws a.
Proof.
  intros H. unfold reg_value. rewrite foldl_app. generalize (foldl (fun v w => if w.1 =? a then w.2 else v) 0 ws) as v.
  induction H as [|w ws' Hw _ IH]; intros v; [done|]. cbn [foldl]. destruct (Z.eqb_spec (w.1) a); [done|]. apply IH.
Qed.
Lemma reg_value_last ws a v : reg_value (ws ++ [(a, v)]) a = v.
Proof. unfold reg_value. rewrite foldl_app. cbn. by rewrite Z.eqb_refl. Qed.

Definition tx (c : Z) : Z * Z := (UART0 + THR, u8 c).

Lemma uart_tx ws t cs : uart_of ws = line_up t -> uart_of (ws ++ (tx <$> cs)) = line_up (t ++ (u8 <$> cs)).
Proof.
  intros Hw. unfold uart_of in *. rewrite foldl_app, Hw. clear ws Hw. revert t.
  induction cs as [|c cs IH]; intros t; [by rewrite app_nil_r|]. cbn [fmap list_fmap foldl].
  change (uart_write (line_up t) (tx c)) with (line_up (t ++ [u8 c])). rewrite IH, <- app_assoc. done.
Qed.
(** Writes outside the UART. *)
Definition not_uart (w : Z * Z) : Prop := w.1 < UART0 \/ UART0 + PGSIZE <= w.1.
Lemma uart_other ws ws' : Forall not_uart ws' -> uart_of (ws ++ ws') = uart_of ws.
Proof.
  intros H. unfold uart_of. rewrite foldl_app. generalize (foldl uart_write (mkuart 0 (0, 0) 0 0 []) ws) as d.
  induction H as [|w ws' Hw _ IH]; intros d; [done|]. cbn [foldl]. rewrite IH. unfold uart_write, not_uart, THR, IER, FCR, LCR in *.
  destruct (Z.eqb_spec (w.1) (UART0 + 0)), (Z.eqb_spec (w.1) (UART0 + 1)), (Z.eqb_spec (w.1) (UART0 + 2)), (Z.eqb_spec (w.1) (UART0 + 3));
    try lia_pages; done.
Qed.

(** ** Sequences of calls *)

Section Calls.
Context {S : Type}.
Definition in_turn (cs : list (M S unit)) : M S unit := for_each (fun c => c) cs.

Lemma in_turn_app cs cs' s : in_turn (cs ++ cs') s = bind (in_turn cs) (fun _ => in_turn cs') s.
Proof.
  revert s. induction cs as [|c cs IH]; intros s; [done|]. unfold in_turn in *. cbn [app for_each].
  rewrite bind_assoc. unfold bind at 1 2. destruct (c s) as [[] s1|]; [apply IH|done].
Qed.

(** Every prefix of calls that succeed together succeeds, and so does its next call. *)
Lemma in_turn_prefix cs s s' k : in_turn cs s = Done tt s' ->
  exists s1, in_turn (take k cs) s = Done tt s1 /\ (forall c : M S unit, cs !! k = Some c -> exists s2, c s1 = Done tt s2).
Proof.
  intros H. rewrite <- (take_drop k cs), in_turn_app in H. apply bind_Done_inv in H as ([] & s1 & H1 & H2).
  exists s1. split; [done|]. intros c Hc. rewrite (drop_S _ _ _ Hc) in H2. unfold in_turn in H2. cbn [for_each] in H2.
  apply bind_Done_inv in H2 as ([] & s2 & H2 & _). by exists s2.
Qed.
Lemma in_turn_next cs s s1 k (c : M S unit) : in_turn (take k cs) s = Done tt s1 -> cs !! k = Some c ->
  in_turn (take (Datatypes.S k) cs) s = c s1.
Proof.
  intros H Hc. rewrite (take_S_r _ _ _ Hc), in_turn_app, (bind_Done _ _ _ _ _ H). unfold in_turn. cbn [for_each].
  unfold bind. by destruct (c s1) as [[] ?|].
Qed.

Lemma in_turn_cons (c : M S unit) cs s s1 : c s = Done tt s1 -> in_turn (c :: cs) s = in_turn cs s1.
Proof. intros H. unfold in_turn. cbn [for_each]. by rewrite (bind_Done _ _ _ _ _ H). Qed.
End Calls.

Section BootSpec.
Context {U : Type} `{!UserMem U}.
Abbreviation shared := (@shared U).
Implicit Types (s : shared) (co : core).

(** ** Printing *)

Context (lsr : nat -> Z) (patience : nat).
(** The transmitter becomes idle within [patience] reads of its status. *)
Context (Hidle : forall n, exists k, (k < patience)%nat /\ Z.land (lsr (n + k)) LSR_TX_IDLE <> 0).

Definition cpu_off (n : Z) : Spinlock.cpu := Spinlock.mkcpu n false false.
Definition grow_bus (ws : list (Z * Z)) (n : nat) (s : shared) : shared := set_lsr_reads n (set_bus (bus s ++ ws) s).

Lemma grow_grow ws ws' n n' s : grow_bus ws' n' (grow_bus ws n s) = grow_bus (ws ++ ws') n' s.
Proof. unfold grow_bus, set_lsr_reads, set_bus. cbn. by rewrite app_assoc. Qed.

Lemma wait_tx_Done co : forall fuel s k, (k < fuel)%nat -> Z.land (lsr (lsr_reads s + k)) LSR_TX_IDLE <> 0 ->
  exists n, wait_tx lsr fuel (co, s) = Done tt (co, set_lsr_reads n s).
Proof.
  induction fuel as [|fuel IH]; intros s k Hk Hi; [lia|]. cbn [wait_tx]. unfold read_lsr, glob, upd_glob, bind, ret. cbn [fst snd].
  destruct (Z.eqb_spec (Z.land (lsr (lsr_reads s)) LSR_TX_IDLE) 0) as [H0|]; [|by eexists].
  destruct k as [|k]; [by rewrite Nat.add_0_r in Hi|].
  destruct (IH (set_lsr_reads (S (lsr_reads s)) s) k ltac:(lia)) as [n Hn].
  { cbn [lsr_reads set_lsr_reads]. by replace (S (lsr_reads s) + k)%nat with (lsr_reads s + S k)%nat by lia. }
  exists n. exact Hn.
Qed.

Lemma uartputc_sync_Done co s c n0 : percpu co = cpu_off n0 -> 0 <= n0 -> panicked s = false ->
  exists n, uartputc_sync lsr patience c (co, s) = Done tt (co, grow_bus [tx c] n s).
Proof.
  intros Hc Hn0 Hp. destruct co as [h k]. cbn in Hc. subst k. destruct (Hidle (lsr_reads s)) as (k & Hk & Hi).
  destruct (wait_tx_Done (mkcore h (cpu_off (n0 + 1))) patience s k Hk Hi) as [n Hn].
  exists n. unfold uartputc_sync, oncpu, glob, modify, bind. cbn [percpu regs fst snd]. unfold push_off. cbn [cpu_off noff intena intr].
  replace (if n0 =? 0 then false else false) with false by (by destruct (n0 =? 0)). rewrite Hp. fold (cpu_off (n0 + 1)). rewrite Hn.
  unfold WriteReg, write_dev, upd_glob. cbn [percpu regs fst snd]. unfold pop_off. cbn [cpu_off noff intena intr].
  rewrite (proj2 (Z.ltb_ge _ _)) by lia. rewrite andb_false_r. replace (n0 + 1 - 1) with n0 by lia. done.
Qed.

Lemma puts_Done co n0 : percpu co = cpu_off n0 -> 0 <= n0 -> forall t s, panicked s = false -> Forall (fun c => c <> BACKSPACE) t ->
  exists n, for_each (consputc lsr patience) t (co, s) = Done tt (co, grow_bus (tx <$> t) n s).
Proof.
  intros Hc Hn0. induction t as [|c t IH]; intros s Hp Ht; [exists (lsr_reads s); cbn; unfold ret; f_equal; f_equal|].
  { unfold grow_bus, set_lsr_reads, set_bus. cbn. rewrite app_nil_r. by destruct s. }
  apply Forall_cons in Ht as [Hcb Ht]. destruct (uartputc_sync_Done co s c n0 Hc Hn0 Hp) as [n Hn]. cbn [for_each].
  destruct (IH (grow_bus [tx c] n s) Hp Ht) as [n' Hn']. exists n'.
  assert (Hput : consputc lsr patience c (co, s) = Done tt (co, grow_bus [tx c] n s)).
  { unfold consputc. destruct (Z.eqb_spec c BACKSPACE); [done|]. exact Hn. }
  rewrite (bind_Done _ _ _ _ _ Hput), Hn', grow_grow. done.
Qed.

Lemma print_Done co s fmt args t : percpu co = cpu_off 0 -> panicked s = false ->
  kernel_printf (bytes_of_string fmt) args = Some t -> Forall (fun c => c <> BACKSPACE) t ->
  exists n, print lsr patience fmt args (co, s) = Done tt (co, grow_bus (tx <$> t) n s).
Proof.
  intros Hc Hp Ht Hb. unfold print. rewrite Ht. unfold glob, bind at 1. cbn [fst snd]. destruct (pr_locking s).
  - destruct co as [h k]. cbn in Hc. subst k.
    destruct (puts_Done (mkcore h (cpu_off 1)) 1 eq_refl ltac:(lia) t s Hp Hb) as [n Hn]. exists n.
    assert (Ho : oncpu (modify push_off) (mkcore h (cpu_off 0), s) = Done tt (mkcore h (cpu_off 1), s)) by done.
    rewrite (bind_Done _ _ _ _ _ Ho). rewrite (bind_Done _ _ _ _ _ Hn). done.
  - destruct (puts_Done co 0 Hc ltac:(lia) t s Hp Hb) as [n Hn]. exists n. rewrite bind_ret.
    rewrite (bind_Done _ _ _ _ _ Hn). done.
Qed.

(** [panic] prints its message and freezes the UART: no hart prints anything more. *)
Lemma kpanic_Done co s msg : percpu co = cpu_off 0 -> panicked s = false ->
  Forall (fun c => c <> BACKSPACE) (bytes_of_string msg) ->
  exists n, kpanic lsr patience msg (co, s) = Done tt (co, set_panicked true (grow_bus (tx <$> bytes_of_string "panic: " ++ bytes_of_string msg ++ [10]) n
    (set_pr_locking false s))).
Proof.
  intros Hc Hp Hm. unfold kpanic, upd_glob, bind at 1. cbn [fst snd].
  destruct (print_Done co (set_pr_locking false s) "panic: " [] (bytes_of_string "panic: ") Hc Hp eq_refl) as [n Hn].
  { repeat (apply Forall_cons; split; [done|]). apply Forall_nil_2. }
  rewrite (bind_Done _ _ _ _ _ Hn).
  destruct (print_Done co (grow_bus (tx <$> bytes_of_string "panic: ") n (set_pr_locking false s)) "%s
" [Str (Some (bytes_of_string msg))] (bytes_of_string msg ++ [10]) Hc Hp) as [n' Hn'].
  { unfold kernel_printf. cbn. reflexivity. }
  { apply Forall_app. split; [done|]. repeat (apply Forall_cons; split; [done|]). apply Forall_nil_2. }
  exists n'. rewrite (bind_Done _ _ _ _ _ Hn'), grow_grow, <- fmap_app. done.
Qed.
Lemma panicked_silent co s c r : panicked s = true -> uartputc_sync lsr patience c (co, s) <> Done tt r.
Proof. intros Hp H. unfold uartputc_sync, oncpu, glob, modify, bind in H. cbn [fst snd] in H. rewrite Hp in H. done. Qed.

(** ** Hart 0 *)

Context (kend etext trampoline kernelvec : Z) (blocks : Z -> Z -> block) (vreg : Z -> Z) (de_addr : Z) (rest : FileLayer (kfs U)) (name : list Z).
Context (Het : page_aligned etext) (Het0 : KERNBASE < etext <= kend) (Hend : kend + 413 * PGSIZE <= PHYSTOP).
Context (Htr : page_aligned trampoline) (Htr0 : KERNBASE <= trampoline < etext).

(** The disk is there: what its registers read. *)
Record disk_present : Prop := {
  dp_magic : vreg VIRTIO_MMIO_MAGIC_VALUE = 0x74726976;
  dp_version : vreg VIRTIO_MMIO_VERSION = 2;
  dp_id : vreg VIRTIO_MMIO_DEVICE_ID = 2;
  dp_vendor : vreg VIRTIO_MMIO_VENDOR_ID = 0x554d4551;
  dp_features : Z.land (vreg VIRTIO_MMIO_STATUS) VIRTIO_CONFIG_S_FEATURES_OK <> 0;
  dp_ready : vreg VIRTIO_MMIO_QUEUE_READY = 0;
  dp_max : Z.of_nat NUM <= vreg VIRTIO_MMIO_QUEUE_NUM_MAX
}.
Context (Hdisk : disk_present).

Definition in_disk (w : Z * Z) : Prop := VIRTIO0 <= w.1 < VIRTIO0 + PGSIZE.

Lemma disk_init_Done d a u w : d <> 0 -> a <> 0 -> u <> 0 ->
  exists ws, Virtio.virtio_disk_init vreg d a u w = Done tt (w ++ ws) /\ Forall in_disk ws.
Proof.
  intros Hd Ha Hu. destruct Hdisk as [D1 D2 D3 D4 D5 D6 D7]. unfold Virtio.virtio_disk_init. rewrite D1, D2, D3, D4, D6. cbn [negb Z.eqb Pos.eqb orb].
  destruct (Z.eqb_spec (vreg VIRTIO_MMIO_QUEUE_NUM_MAX) 0) as [H0|_]; [unfold NUM in D7; lia|].
  rewrite (proj2 (Z.ltb_ge _ _)) by done. rewrite (proj2 (Z.eqb_neq _ _) Hd), (proj2 (Z.eqb_neq _ _) Ha), (proj2 (Z.eqb_neq _ _) Hu).
  unfold write_reg, bind, modify. cbn [orb]. rewrite (proj2 (Z.eqb_neq _ _) D5).
  eexists. split; [rewrite <- !app_assoc; reflexivity|].
  cbn [app]. repeat (apply Forall_cons; split; [split; done|]). apply Forall_nil_2.
Qed.

Abbreviation bfiles := (boot_files de_addr rest name).
#[local] Instance bsvc : Services (kmem * kfs U) := @vm_services kend trampoline (kfs U) bfiles.

Lemma onmemory_Done {A} (c : M kmem A) co s m f a m' : env (kern s) = (m, f) -> c m = Done a m' ->
  onmemory c (co, s) = Done a (co, set_kern (set_env (m', f) (kern s)) s).
Proof. intros He Hc. unfold onmemory, onkern, svc, onmem. cbn [fst snd]. rewrite He. cbn [fst snd]. by rewrite Hc. Qed.

Lemma initlocks_Done nm co s (l : list nat) :
  for_each (fun _ => initlock nm) l (co, s) = Done tt (co, set_lock_names (lock_names s ++ replicate (length l) nm) s).
Proof.
  revert s. induction l as [|x l IH]; intros s; cbn [for_each].
  { cbn. rewrite app_nil_r. by destruct s. }
  unfold initlock at 1, upd_glob, bind at 1. cbn [fst snd]. rewrite IH. cbn [length replicate]. do 2 f_equal.
  unfold set_lock_names. cbn. by rewrite <- app_assoc.
Qed.

Abbreviation calls := (boot_calls lsr patience kend etext trampoline kernelvec blocks vreg de_addr rest name).

(** The state before [main]: zeroed globals, memory as it is. *)
Definition shared0 (m : mem) (f : kfs U) : shared :=
  mkshared (kernel0 (mkkmem m 0, f)) 0 None ∅ false false [] [] 0 false.

Definition banner : list Z := bytes_of_string "
xv6 kernel is booting

".

(** Every lock, in the order of its initialisation. *)
Definition boot_locks : list string :=
  ["cons"; "uart"; "pr"; "kmem"; "nextpid"; "wait_lock"] ++ replicate NPROC "proc" ++ ["time"; "bcache"] ++
  replicate NBUF "sleep lock" ++ ["itable"] ++ replicate NINODE "sleep lock" ++ ["ftable"; "virtio_disk"].

(** What must hold of the shared state before the other harts go on. *)
Record ready (s : shared) : Prop := {
  rd_quiet : panicked s = false;
  rd_map : exists l stacks q, let m := (env (kern s)).1 in
    maps kend (kernel_pagetable s) m l (kernel_entry etext trampoline stacks) /\ length stacks = NPROC /\
    aside kend (kernel_pagetable s) m l stacks /\
    @first_ready kend (kfs U) bfiles (kern s) l q 1;
  rd_root : exists ip, itable (fsys (env (kern s)).2) !! 0%nat = Some ip /\ i_dev ip = ROOTDEV /\ i_inum ip = ROOTINO /\ i_ref ip = 1;
  rd_files : ftable (env (kern s)).2 = replicate NFILE file0;
  rd_cache : bcaches s = Some (Bio.binit blocks);
  rd_console : devsw s !! CONSOLE = Some (Consoleread, Consolewrite);
  rd_locks : lock_names s = boot_locks;
  rd_line : exists t, uart_of (bus s) = line_up (banner ++ t);
  rd_priority : reg_value (bus s) (PLIC + UART0_IRQ * 4) = 1 /\ reg_value (bus s) (PLIC + VIRTIO0_IRQ * 4) = 1
}.

Definition plic_on (ws : list (Z * Z)) (c : Z) : Prop :=
  reg_value ws (PLIC_SENABLE c) = 0x402 /\ reg_value ws (PLIC_SPRIORITY c) = 0.

(** The registers of hart [c] after [start], and after [kvminithart] and [trapinithart]. *)
Definition hart_ok (c : Z) (co : core) : Prop := mode (regs co) = PrivS /\ tp (regs co) = c /\ percpu co = cpu_off 0.
Definition paging (pt : Z) (co : core) : Prop := satp (regs co) = MAKE_SATP pt /\ stale (regs co) = false.

Lemma bytes_no_backspace t : forallb (fun c => c <? 256) t = true -> Forall (fun c => c <> BACKSPACE) t.
Proof. intros H. apply Forall_forall. intros c Hc ->. apply forallb_forall with (x := BACKSPACE) in H; [done|]. by apply list_elem_of_In. Qed.

(** The first five calls. *)
Lemma boot_console co m f : percpu co = cpu_off 0 ->
  exists n ws, in_turn calls (co, shared0 m f) = in_turn (drop 5 calls) (co,
    mkshared (kernel0 (mkkmem m 0, f)) 0 None {[CONSOLE := (Consoleread, Consolewrite)]} true false ["cons"; "uart"; "pr"] ws n false) /\
    uart_of ws = line_up banner /\ Forall (fun w => UART0 <= w.1) ws.
Proof.
  intros Hc. set (line := bytes_of_string "xv6 kernel is booting
"). set (dv := {[CONSOLE := _]} : gmap Z (dev_fn * dev_fn)).
  set (w0 := [(UART0 + IER, 0); (UART0 + LCR, 128); (UART0 + 0, 3); (UART0 + 1, 0); (UART0 + LCR, 3); (UART0 + FCR, 7); (UART0 + IER, 3)]).
  set (s2 := mkshared (kernel0 (mkkmem m 0, f)) 0 None dv true false ["cons"; "uart"; "pr"] w0 0 false).
  destruct (print_Done co s2 "
" [] [10] Hc eq_refl eq_refl (bytes_no_backspace [10] eq_refl)) as [n1 H1].
  destruct (print_Done co (grow_bus (tx <$> [10]) n1 s2) "xv6 kernel is booting
" [] line Hc eq_refl eq_refl (bytes_no_backspace line eq_refl)) as [n2 H2]. rewrite grow_grow in H2.
  destruct (print_Done co (grow_bus ((tx <$> [10]) ++ (tx <$> line)) n2 s2) "
" [] [10] Hc eq_refl eq_refl (bytes_no_backspace [10] eq_refl)) as [n3 H3]. rewrite grow_grow in H3.
  eexists n3, _. split.
  - unfold boot_calls. rewrite (in_turn_cons consoleinit _ _ (co, set_pr_locking false (set_lock_names ["cons"; "uart"] s2))) by reflexivity.
    rewrite (in_turn_cons printfinit _ _ (co, s2)) by reflexivity. rewrite (in_turn_cons _ _ _ _ H1), (in_turn_cons _ _ _ _ H2), (in_turn_cons _ _ _ _ H3).
    reflexivity.
  - split; [reflexivity|]. repeat (apply Forall_cons; split; [done|]). apply Forall_nil_2.
Qed.

Lemma kvminithart_Done h pt : mode h = PrivS -> Hart.kvminithart pt h = Done tt (set_stale false (set_satp (MAKE_SATP pt) h)).
Proof.
  intros Hm. destruct h. cbn in Hm. subst. reflexivity.
Qed.
Lemma trapinithart_Done h v : mode h = PrivS -> Hart.trapinithart v h = Done tt (set_stvec v h).
Proof. intros Hm. destruct h. cbn in Hm. subst. reflexivity. Qed.

(** Physical memory, paging, the process table. *)
Lemma boot_memory co m f dv locks ws n : mem_ok m -> hart_ok 0 co ->
  exists pt m2 l stacks co', in_turn (drop 5 calls) (co, mkshared (kernel0 (mkkmem m 0, f)) 0 None dv true false locks ws n false) =
    in_turn (drop 9 calls) (co', mkshared (set_procs (imap init_slot (replicate NPROC proc0)) (kernel0 (m2, f))) pt None dv true false
      (locks ++ ["kmem"; "nextpid"; "wait_lock"] ++ replicate NPROC "proc") ws n false) /\
    maps kend pt m2 l (kernel_entry etext trampoline stacks) /\ length stacks = NPROC /\ aside kend pt m2 l stacks /\
    (12 <= length l)%nat /\ hart_ok 0 co' /\ paging pt co'.
Proof.
  intros Hm [Hs [Ht Hp]].
  destruct (kinit_frees_all_pages kend m Hm) as (m1 & Hi & Hinv & _); [lia_pages|].
  set (l0 := reverse _) in Hinv. assert (Hl0 : (412 <= length l0)%nat).
  { unfold l0. rewrite length_reverse, pgroundup_eq by lia_pages. unfold pages_from. rewrite length_fmap, length_seq.
    pose proof (Z.div_mod (kend + PGSIZE - 1) PGSIZE ltac:(lia_pages)). pose proof (Z.mod_pos_bound (kend + PGSIZE - 1) PGSIZE ltac:(lia_pages)).
    pose proof (Z.div_le_lower_bound (PHYSTOP - (kend + PGSIZE - 1) / PGSIZE * PGSIZE) PGSIZE 412 ltac:(lia_pages) ltac:(lia_pages)). lia. }
  destruct (kvmmake_spec kend etext trampoline Het Het0 Htr Htr0 m1 l0 Hinv ltac:(lia)) as (pt & m2 & l & stacks & Hk & Hmaps & Hlen & Has & Hl).
  set (mk := fun k pt locks => mkshared (U := U) k pt None dv true false locks ws n false).
  exists pt, m2, l, stacks, (mkcore (set_stale false (set_satp (MAKE_SATP pt) (regs co))) (percpu co)).
  split; [|split; [done|split; [done|split; [done|split; [lia|done]]]]].
  change (mkshared (kernel0 (mkkmem m 0, f)) 0 None dv true false locks ws n false) with (mk (kernel0 (mkkmem m 0, f)) 0 locks).
  assert (H1 : kinit kend (co, mk (kernel0 (mkkmem m 0, f)) 0 locks) = Done tt (co, mk (kernel0 (m1, f)) 0 (locks ++ ["kmem"]))).
  { unfold kinit, initlock, upd_glob, bind at 1. cbn [fst snd]. erewrite onmemory_Done; [reflexivity|reflexivity|exact Hi]. }
  assert (H2 : kvminit etext trampoline (co, mk (kernel0 (m1, f)) 0 (locks ++ ["kmem"])) = Done tt (co, mk (kernel0 (m2, f)) pt (locks ++ ["kmem"]))).
  { unfold kvminit. erewrite bind_Done; [|eapply onmemory_Done; [reflexivity|exact Hk]]. reflexivity. }
  set (co1 := mkcore _ (percpu co)).
  assert (H3 : kvminithart (co, mk (kernel0 (m2, f)) pt (locks ++ ["kmem"])) = Done tt (co1, mk (kernel0 (m2, f)) pt (locks ++ ["kmem"]))).
  { unfold kvminithart, glob, bind, onregs. cbn [fst snd kernel_pagetable mk]. by rewrite kvminithart_Done. }
  unfold boot_calls. cbn [drop]. rewrite (in_turn_cons _ _ _ _ H1), (in_turn_cons _ _ _ _ H2), (in_turn_cons _ _ _ _ H3).
  apply in_turn_cons. unfold procinit. unfold initlock at 1 2, upd_glob, bind at 1 2. cbn [fst snd].
  rewrite (bind_Done _ _ _ _ _ (initlocks_Done _ _ _ _)). unfold onkern. cbn [fst snd].
  match goal with |- match Proc.procinit ?k with _ => _ end = _ => change k with (kernel0 (E := kmem * kfs U) (m2, f)) end.
  rewrite procinit_Done by reflexivity. unfold mk. rewrite length_seq. do 2 f_equal. unfold set_kern, set_lock_names. cbn [lock_names mk kern].
  by rewrite <- !app_assoc.
Qed.

Lemma plicinithart_Done co s c : tp (regs co) = c -> 0 <= c < 2 ^ 31 -> plicinithart (co, s) =
  Done tt (co, set_bus (bus s ++ [(PLIC_SENABLE c, 0x402); (PLIC_SPRIORITY c, 0)]) s).
Proof.
  intros Ht Hc. unfold plicinithart, onregs, cpuid, r_tp, gets, bind, ret. cbn [fst snd regs percpu]. rewrite Ht, s32_small by lia.
  unfold write_dev, upd_glob. cbn [fst snd]. unfold set_bus. cbn. rewrite <- app_assoc. by destruct co.
Qed.

Definition init_files (f : kfs U) : kfs U := set_ftable (replicate NFILE file0) (set_fsys (set_itable (replicate NINODE inode0) (fsys f)) f).

(** Traps, the interrupt controller, the tables of the file system. *)
Lemma boot_tables co k m f pt dv locks ws n : hart_ok 0 co -> env k = (m, f) ->
  in_turn (drop 9 calls) (co, mkshared k pt None dv true false locks ws n false) =
  in_turn (drop 16 calls) (mkcore (set_stvec kernelvec (regs co)) (percpu co),
    mkshared (set_env (m, init_files f) k) pt (Some (Bio.binit blocks)) dv true false
      (locks ++ ["time"; "bcache"] ++ replicate NBUF "sleep lock" ++ ["itable"] ++ replicate NINODE "sleep lock" ++ ["ftable"])
      (ws ++ [(PLIC + UART0_IRQ * 4, 1); (PLIC + VIRTIO0_IRQ * 4, 1); (PLIC_SENABLE 0, 0x402); (PLIC_SPRIORITY 0, 0)]) n false).
Proof.
  intros [Hs [Ht Hp]] He. unfold boot_calls. cbn [drop]. set (co' := mkcore (set_stvec _ _) _).
  set (mk := fun k bc locks ws => mkshared (U := U) k pt bc dv true false locks ws n false).
  rewrite (in_turn_cons trapinit _ _ (co, mk k None (locks ++ ["time"]) ws)) by reflexivity.
  rewrite (in_turn_cons (trapinithart kernelvec) _ _ (co', mk k None (locks ++ ["time"]) ws))
    by (unfold trapinithart, onregs; cbn [fst]; by rewrite trapinithart_Done).
  rewrite (in_turn_cons plicinit _ _ (co', mk k None (locks ++ ["time"]) (ws ++ [(PLIC + UART0_IRQ * 4, 1); (PLIC + VIRTIO0_IRQ * 4, 1)])))
    by (unfold plicinit, write_dev, upd_glob, bind, set_bus, mk; cbn; by rewrite <- app_assoc).
  set (ws' := ws ++ _). set (wp := ws ++ [_; _; _; _]).
  rewrite (in_turn_cons plicinithart _ _ (co', mk k None (locks ++ ["time"]) wp))
    by (rewrite (plicinithart_Done co' _ 0 Ht ltac:(lia)); unfold set_bus, mk, wp, ws'; cbn; by rewrite <- app_assoc).
  set (L1 := ((locks ++ ["time"]) ++ ["bcache"]) ++ replicate NBUF "sleep lock"). set (L2 := (L1 ++ ["itable"]) ++ replicate NINODE "sleep lock").
  rewrite (in_turn_cons (binit blocks) _ _ (co', mk k (Some (Bio.binit blocks)) L1 wp)).
  2: { unfold binit, initlock at 1, upd_glob at 1, bind at 1. cbn [fst snd]. unfold initsleeplock.
    by rewrite (bind_Done _ _ _ _ _ (initlocks_Done _ _ _ _)). }
  set (f1 := set_fsys (set_itable (replicate NINODE inode0) (fsys f)) f).
  rewrite (in_turn_cons iinit _ _ (co', mk (set_env (m, f1) k) (Some (Bio.binit blocks)) L2 wp)).
  2: { unfold iinit, initlock at 1, upd_glob at 1, bind at 1. cbn [fst snd]. unfold initsleeplock.
    rewrite (bind_Done _ _ _ _ _ (initlocks_Done _ _ _ _)). unfold onfilesys, onkern, svc, onfiles. cbn [fst snd kern set_lock_names mk].
    by rewrite He. }
  rewrite (in_turn_cons fileinit _ _ (co', mk (set_env (m, init_files f) k) (Some (Bio.binit blocks)) (L2 ++ ["ftable"]) wp)) by reflexivity.
  unfold L2, L1, mk. do 3 f_equal. by rewrite <- !app_assoc.
Qed.

(** A page just taken is cleared. *)
Lemma zero_page_kept m0 l0 m l p : kept kend m0 l0 m l -> kmem_inv kend m l -> managed kend p -> p ∈ l0 -> p ∉ l ->
  exists m', zero_page p m = Done tt m' /\ kept kend m0 l0 m' l /\ kmem_inv kend m' l.
Proof.
  intros Hk Hinv Hp Hin Hn. assert (Hout : forall x, x < p \/ p + PGSIZE <= x -> memset (pmem m) p 0 PGSIZE x = pmem m x)
    by (intros x Hx; apply memset_out; [lia_pages|done]).
  eexists. split; [reflexivity|]. split; [by eapply kept_write|].
  apply kmem_inv_write; [done|apply memset_ok; [lia_pages|apply Hinv]|]. intros q i Hq Hi. apply Hout.
  apply (other_page_out kend q p); [|done|congruence|done].
  destruct Hinv as (_ & Hf & _). eapply free_pages_managed; [done|by apply list_elem_of_In].
Qed.

Lemma boot_disk co s m f l : env (kern s) = (m, f) -> kmem_inv kend m l -> (3 <= length l)%nat ->
  exists m' ws, virtio_disk_init vreg (co, s) =
      Done tt (co, set_kern (set_env (m', f) (kern s)) (set_lock_names (lock_names s ++ ["virtio_disk"]) (set_bus (bus s ++ ws) s))) /\
    kept kend m l m' (drop 3 l) /\ kmem_inv kend m' (drop 3 l) /\ Forall in_disk ws.
Proof.
  intros He Hinv Hl. destruct l as [|d [|a [|u l]]]; cbn [length] in Hl; try lia.
  assert (Hman : forall p, p ∈ d :: a :: u :: l -> managed kend p) by (intros p Hp; eapply free_pages_managed; [apply Hinv|by apply list_elem_of_In]).
  assert (Hnz : forall p, p ∈ d :: a :: u :: l -> p <> 0) by (intros p Hp; destruct (Hman p Hp) as (_ & ? & _); lia).
  assert (Hnd : NoDup (d :: a :: u :: l)) by apply Hinv.
  assert (Hd : d ∈ d :: a :: u :: l) by (by left). assert (Ha : a ∈ d :: a :: u :: l) by (by right; left). assert (Hu : u ∈ d :: a :: u :: l) by (by right; right; left).
  apply NoDup_cons in Hnd as [Nd Hnd]. apply NoDup_cons in Hnd as [Na Hnd]. apply NoDup_cons in Hnd as [Nu _].
  destruct (kalloc_pop kend m d _ Hinv) as (m1 & K1 & I1 & _). destruct (kalloc_pop kend m1 a _ I1) as (m2 & K2 & I2 & _).
  destruct (kalloc_pop kend m2 u _ I2) as (m3 & K3 & I3 & _).
  assert (Hk : kept kend m (d :: a :: u :: l) m3 l).
  { eapply kept_trans; [by apply kept_kalloc|]. eapply kept_trans; by apply kept_kalloc. }
  destruct (zero_page_kept _ _ m3 l d Hk I3 (Hman d Hd) Hd ltac:(intros ?; apply Nd; by do 2 right)) as (m4 & Z1 & Hk4 & I4).
  destruct (zero_page_kept _ _ m4 l a Hk4 I4 (Hman a Ha) Ha ltac:(intros ?; apply Na; by right)) as (m5 & Z2 & Hk5 & I5).
  destruct (zero_page_kept _ _ m5 l u Hk5 I5 (Hman u Hu) Hu Nu) as (m6 & Z3 & Hk6 & I6).
  destruct (disk_init_Done d a u (bus s) (Hnz d Hd) (Hnz a Ha) (Hnz u Hu)) as (ws & Hw & Hin).
  exists m6, ws. split; [|done]. unfold virtio_disk_init, initlock, upd_glob, bind at 1. cbn [fst snd].
  set (s0 := set_lock_names _ s).
  rewrite (bind_Done _ _ _ _ _ (onmemory_Done kalloc co s0 m f d m1 He K1)). set (s1 := set_kern _ s0).
  rewrite (bind_Done _ _ _ _ _ (onmemory_Done kalloc co s1 m1 f a m2 eq_refl K2)). set (s2 := set_kern _ s1).
  rewrite (bind_Done _ _ _ _ _ (onmemory_Done kalloc co s2 m2 f u m3 eq_refl K3)). set (s3 := set_kern _ s2).
  rewrite (proj2 (Z.eqb_neq d 0)), (proj2 (Z.eqb_neq a 0)), (proj2 (Z.eqb_neq u 0)) by auto. cbn [orb].
  assert (Hz : (zero_page d ;; zero_page a ;; zero_page u) m3 = Done tt m6).
  { by rewrite (bind_Done _ _ _ _ _ Z1), (bind_Done _ _ _ _ _ Z2). }
  rewrite (bind_Done _ _ _ _ _ (onmemory_Done _ co s3 m3 f tt m6 eq_refl Hz)). unfold glob, bind. cbn [fst snd].
  match goal with |- context [Virtio.virtio_disk_init vreg d a u ?w] => change w with (bus s) end. rewrite Hw. reflexivity.
Qed.

Lemma not_uart_disk ws : Forall in_disk ws -> Forall not_uart ws.
Proof. intros H. eapply Forall_impl; [exact H|]. intros w [? ?]. unfold not_uart, in_disk, VIRTIO0, UART0 in *. lia_pages. Qed.

(** What is appended to the bus after the console is up. *)
Definition plic_boot (c : Z) : list (Z * Z) := [(PLIC_SENABLE c, 0x402); (PLIC_SPRIORITY c, 0)].

Lemma plic_regs (c : Z) : 0 <= c < Z.of_nat NCPU ->
  PLIC + 0x2000 <= PLIC_SENABLE c < PLIC + 0x3000 /\ PLIC + 0x200000 <= PLIC_SPRIORITY c < PLIC + 0x220000.
Proof. unfold PLIC_SENABLE, PLIC_SPRIORITY, NCPU. lia. Qed.

(** The whole of hart 0's branch. *)
Lemma boot_runs co m f : mem_ok m -> hart_ok 0 co ->
  exists co' s', in_turn calls (co, shared0 m f) = Done tt (co', s') /\ started s' = true /\ ready s' /\
    hart_ok 0 co' /\ paging (kernel_pagetable s') co' /\ stvec (regs co') = kernelvec /\ plic_on (bus s') 0.
Proof.
  intros Hm Hok. destruct (boot_console co m f (proj2 (proj2 Hok))) as (n & ws & H1 & Hu & Hws). rewrite H1. clear H1.
  destruct (boot_memory co m f {[CONSOLE := (Consoleread, Consolewrite)]} ["cons"; "uart"; "pr"] ws n Hm Hok)
    as (pt & m2 & l & stacks & co1 & -> & Hmaps & Hlen & Has & Hl & Hok1 & Hpg).
  rewrite (boot_tables co1 _ m2 f) by done. set (co2 := mkcore (set_stvec kernelvec (regs co1)) _). set (s2 := mkshared _ _ _ _ _ _ _ _ _ _).
  destruct (boot_disk co2 s2 m2 (init_files f) l eq_refl (mp_inv _ _ _ _ _ Hmaps) ltac:(lia)) as (m3 & wd & Hd & Hk3 & Hi3 & Hwd).
  unfold boot_calls. cbn [drop]. rewrite (in_turn_cons _ _ _ _ Hd). set (s3 := set_kern _ _).
  destruct (@userinit_spec kend trampoline Htr ltac:(lia_pages) (kfs U) bfiles (kern s3) (replicate NPROC proc0) m3 (init_files f) (drop 3 l) 1
    (set_fsys (set_itable (<[0%nat := mkinode ROOTDEV ROOTINO 1 false false (i_d inode0)]> (replicate NINODE inode0)) (fsys (init_files f))) (init_files f)))
    as (k' & l' & q & Hrun & Hfr & Hh & Hk4 & Hf'); try reflexivity.
  { exact Hi3. } { rewrite length_drop. lia. }
  assert (Hui : userinit kend trampoline de_addr rest name (co2, s3) = Done tt (co2, set_kern k' s3)).
  { unfold userinit, onkern. cbn [fst snd]. unfold boot_services. unfold svcs in Hrun. rewrite Hrun. reflexivity. }
  rewrite (in_turn_cons _ _ _ _ Hui). eexists co2, (set_started true (set_kern k' s3)). split; [reflexivity|]. split; [reflexivity|].
  assert (Hkk : kept kend m2 l (env k').1 l') by (by eapply kept_trans).
  assert (Hplic : forall a, a < UART0 -> reg_value (bus s3) a =
    reg_value [(PLIC + UART0_IRQ * 4, 1); (PLIC + VIRTIO0_IRQ * 4, 1); (PLIC_SENABLE 0, 0x402); (PLIC_SPRIORITY 0, 0)] a).
  { intros a Ha. change (bus s3) with ((ws ++ [(PLIC + UART0_IRQ * 4, 1); (PLIC + VIRTIO0_IRQ * 4, 1); (PLIC_SENABLE 0, 0x402); (PLIC_SPRIORITY 0, 0)]) ++ wd).
    rewrite reg_value_app by (eapply Forall_impl; [exact Hwd|]; intros w [? _]; unfold VIRTIO0, UART0 in *; lia).
    unfold reg_value. rewrite foldl_app. f_equal. apply (reg_value_app [] ws). eapply Forall_impl; [exact Hws|]. intros w Hw. cbn in Hw. lia. }
  split; [|split; [exact Hok1|split; [exact Hpg|split; [reflexivity|]]]].
  2: { split; cbn [bus set_started set_kern]; rewrite Hplic; reflexivity. }
  split; try reflexivity.
  - exists l', stacks, q. cbv zeta. split; [|split; [exact Hlen|split; [|exact Hfr]]].
    + eapply kept_maps; [exact Hmaps|exact Hkk|apply Hfr].
    + eapply kept_aside; [apply Hmaps|exact Has|exact Hkk].
  - cbn [kern set_started set_kern]. rewrite Hf'. eexists. split; [reflexivity|done].
  - cbn [kern set_started set_kern]. rewrite Hf'. reflexivity.
  - exists []. rewrite app_nil_r. change (bus (set_started true (set_kern k' s3))) with ((ws ++ [(PLIC + UART0_IRQ * 4, 1); (PLIC + VIRTIO0_IRQ * 4, 1); (PLIC_SENABLE 0, 0x402); (PLIC_SPRIORITY 0, 0)]) ++ wd).
    rewrite uart_other by (by apply not_uart_disk). rewrite uart_other; [exact Hu|].
    repeat (apply Forall_cons; split; [left; done|]). apply Forall_nil_2.
  - cbn [bus set_started set_kern]. rewrite !Hplic by reflexivity. split; reflexivity.
Qed.

(** ** [started] is set by the last call only *)

Definition keeps {A} (c : M (core * shared) A) : Prop := forall st a st', c st = Done a st' -> started st'.2 = started st.2.

Lemma boot_keeps_bind {A B} (c : M (core * shared) A) (k : A -> M (core * shared) B) : keeps c -> (forall a, keeps (k a)) -> keeps (bind c k).
Proof. intros H1 H2 st b st' H. apply bind_Done_inv in H as (a & st1 & Hc & Hk). rewrite (H2 _ _ _ _ Hk). by eapply H1. Qed.
Lemma boot_keeps_ret {A} (a : A) : keeps (ret a).
Proof. intros st b st' [= _ <-]. done. Qed.
Lemma keeps_panic {A} msg : keeps (panic (A := A) msg).
Proof. intros st b st' H. discriminate H. Qed.
Lemma keeps_onregs {A} (c : M hart A) : keeps (onregs c).
Proof. intros st a st' H. unfold onregs in H. destruct (c _); [injection H as _ <-; done|discriminate H]. Qed.
Lemma keeps_oncpu {A} (c : M Spinlock.cpu A) : keeps (oncpu c).
Proof. intros st a st' H. unfold oncpu in H. destruct (c _); [injection H as _ <-; done|discriminate H]. Qed.
Lemma keeps_onkern {A} (c : M (kernel (kmem * kfs U)) A) : keeps (onkern c).
Proof. intros st a st' H. unfold onkern in H. destruct (c _); [injection H as _ <-; done|discriminate H]. Qed.
Lemma keeps_glob {A} (f : shared -> A) : keeps (glob f).
Proof. intros st a st' H. injection H as _ <-. done. Qed.
Lemma keeps_upd (f : shared -> shared) : (forall s, started (f s) = started s) -> keeps (upd_glob f).
Proof. intros Hf st a st' H. injection H as _ <-. apply Hf. Qed.
Lemma boot_keeps_for_each {A} (f : A -> M (core * shared) unit) l : (forall a, keeps (f a)) -> keeps (for_each f l).
Proof. intros Hf. induction l as [|a l IH]; [apply boot_keeps_ret|]. by apply boot_keeps_bind. Qed.

Ltac keep_by tac := repeat first
  [ tac | lazymatch goal with
    | |- keeps (bind _ _) => apply boot_keeps_bind; [|intros ?]
    | |- keeps (ret _) => apply boot_keeps_ret
    | |- keeps (panic _) => apply keeps_panic
    | |- keeps (onregs _) => apply keeps_onregs
    | |- keeps (oncpu _) => apply keeps_oncpu
    | |- keeps (onkern _) => apply keeps_onkern
    | |- keeps (glob _) => apply keeps_glob
    | |- keeps (upd_glob _) => apply keeps_upd; reflexivity
    | |- keeps (for_each _ _) => apply boot_keeps_for_each; intros ?
    | |- keeps (if ?b then _ else _) => destruct b
    | |- keeps (match ?x with _ => _ end) => destruct x
    end ].
Ltac keep := keep_by fail.

Lemma keeps_wait fuel : keeps (wait_tx lsr fuel).
Proof. induction fuel as [|fuel IH]; cbn [wait_tx]; unfold read_lsr, spin_forever; keep. exact IH. Qed.
Lemma keeps_print fmt args : keeps (print lsr patience fmt args).
Proof.
  assert (Hu : forall c, keeps (uartputc_sync lsr patience c)).
  { intros c. unfold uartputc_sync, WriteReg, write_dev, spin_forever. keep. apply keeps_wait. }
  unfold print, consputc. keep_by ltac:(apply Hu).
Qed.
Lemma boot_keeps : Forall keeps (take 18 calls).
Proof.
  unfold boot_calls. cbn [take].
  repeat (apply Forall_cons; split; [
    lazymatch goal with |- keeps (print _ _ _ _) => apply keeps_print | _ =>
      unfold consoleinit, printfinit, uartinit, WriteReg, kinit, kvminit, kvminithart, procinit, trapinit, trapinithart, plicinit,
        plicinithart, binit, iinit, fileinit, virtio_disk_init, userinit, initsleeplock, initlock, write_dev, onmemory, onfilesys; keep end|]).
  apply Forall_nil_2.
Qed.
Lemma boot_not_started k co s co' s' : (k <= 18)%nat -> in_turn (take k calls) (co, s) = Done tt (co', s') -> started s' = started s.
Proof.
  revert co' s'. induction k as [|k IH]; intros co' s' Hk H; [injection H as <- <-; done|].
  destruct (lookup_lt_is_Some_2 calls k) as [c Hc]; [cbn; lia|].
  rewrite (take_S_r _ _ _ Hc), in_turn_app in H. apply bind_Done_inv in H as ([] & [co1 s1] & H1 & H2).
  apply bind_Done_inv in H2 as ([] & st2 & H2 & H3). injection H3 as ->.
  assert (Hkc : keeps c) by (apply (Forall_lookup_1 keeps (take 18 calls) k c boot_keeps); rewrite lookup_take_lt by lia; exact Hc).
  pose proof (Hkc _ _ _ H2) as Hq. cbn [fst snd] in Hq. rewrite Hq. apply (IH co1 s1); [lia|exact H1].
Qed.

(** ** The other harts *)

Abbreviation jcalls := (join_calls (U := U) lsr patience kernelvec).

(** What hart [c] has done before call [k] of its branch. *)
Record set_up (k : nat) (c : Z) (co : core) (s : shared) : Prop := {
  su_ok : hart_ok c co;
  su_paging : (2 <= k)%nat -> paging (kernel_pagetable s) co;
  su_traps : (3 <= k)%nat -> stvec (regs co) = kernelvec;
  su_plic : (4 <= k)%nat -> plic_on (bus s) c
}.

(** The writes hart [c] makes after the boot: characters, and its own controller registers. *)
Definition benign (c : Z) (ws : list (Z * Z)) : Prop := (exists t, ws = tx <$> t) \/ ws = plic_boot c.

Lemma benign_reg c ws a : benign c ws -> a < UART0 -> a <> PLIC_SENABLE c -> a <> PLIC_SPRIORITY c -> Forall (fun w => w.1 <> a) ws.
Proof.
  intros [[t ->]| ->] Ha H1 H2.
  - apply Forall_fmap, Forall_forall. intros x _. unfold compose, tx, THR. cbn [fst]. lia.
  - repeat (apply Forall_cons; split; [cbn [fst]; congruence|]). apply Forall_nil_2.
Qed.

Lemma plic_on_other c c' ws ws' : benign c' ws' -> 0 <= c < Z.of_nat NCPU -> 0 <= c' < Z.of_nat NCPU -> c <> c' ->
  plic_on ws c -> plic_on (ws ++ ws') c.
Proof.
  intros Hb Hc Hc' Hne [H1 H2]. destruct (plic_regs c Hc), (plic_regs c' Hc'). unfold plic_on, UART0, PLIC in *.
  rewrite !reg_value_app; [done|apply (benign_reg c'); try done..]; unfold UART0, PLIC, PLIC_SENABLE, PLIC_SPRIORITY, PLIC in *; lia.
Qed.

Lemma ready_grow s c ws n : ready s -> benign c ws -> 0 <= c < Z.of_nat NCPU -> ready (grow_bus ws n s).
Proof.
  intros [R1 R2 R3 R4 R5 R6 R7 [t R8] [R9 R10]] Hb Hc. destruct (plic_regs c Hc). split; try done; cbn [grow_bus set_lsr_reads set_bus bus].
  - destruct Hb as [[cs ->]| ->].
    + exists (t ++ (u8 <$> cs)). rewrite app_assoc. by apply uart_tx.
    + exists t. rewrite uart_other; [done|]. repeat (apply Forall_cons; split; [left; cbn [fst]; unfold UART0, PLIC in *; lia|]). apply Forall_nil_2.
  - rewrite !reg_value_app; [done|apply (benign_reg c); try done..]; unfold UART0, UART0_IRQ, VIRTIO0_IRQ, PLIC in *; lia.
Qed.

Lemma set_up_other k c c' co s ws n : benign c' ws -> 0 <= c < Z.of_nat NCPU -> 0 <= c' < Z.of_nat NCPU -> c <> c' ->
  set_up k c co s -> set_up k c co (grow_bus ws n s).
Proof. intros Hb Hc Hc' Hne [S1 S2 S3 S4]. split; [done|done|done|]. intros Hk. eapply plic_on_other; eauto. Qed.

Lemma hart_line c : 0 <= c < Z.of_nat NCPU ->
  exists t, kernel_printf (bytes_of_string "hart %d starting
") [Num c] = Some t /\ Forall (fun c => c <> BACKSPACE) t.
Proof.
  intros Hc. unfold NCPU in Hc.
  assert (c = 0 \/ c = 1 \/ c = 2 \/ c = 3 \/ c = 4 \/ c = 5 \/ c = 6 \/ c = 7) as Hcs by lia.
  repeat destruct Hcs as [->|Hcs]; subst; (eexists; split; [reflexivity|]); (apply bytes_no_backspace; reflexivity).
Qed.

(** Each call of the branch does its part. *)
Lemma join_call k c co s f : jcalls !! k = Some f -> set_up k c co s -> panicked s = false -> 0 <= c < Z.of_nat NCPU ->
  exists co' ws n, f (co, s) = Done tt (co', grow_bus ws n s) /\ benign c ws /\ set_up (S k) c co' (grow_bus ws n s).
Proof.
  intros Hf [[Hs [Ht Hp]] S2 S3 S4] Hq Hc.
  assert (Hnil : grow_bus [] (lsr_reads s) s = s) by (destruct s; unfold grow_bus, set_lsr_reads, set_bus; cbn; by rewrite app_nil_r).
  assert (Hb : benign c []) by (left; by exists []).
  destruct k as [|[|[|[|k]]]]; [injection Hf as <-..|destruct k; done].
  - destruct (hart_line c Hc) as (t & Hl & Hno). destruct (print_Done co s _ _ t Hp Hq Hl Hno) as [n Hn].
    exists co, (tx <$> t), n. split; [|split; [left; by exists t|split; [done|lia|lia|lia]]].
    unfold onregs, cpuid, r_tp, gets, bind at 1 2, ret. cbn [fst snd]. rewrite Ht, s32_small by (unfold NCPU in Hc; lia).
    destruct co as [h k]. exact Hn.
  - exists (mkcore (set_stale false (set_satp (MAKE_SATP (kernel_pagetable s)) (regs co))) (percpu co)), [], (lsr_reads s). rewrite Hnil.
    split; [|split; [done|split; [done|done|lia|lia]]]. unfold kvminithart, glob, bind, onregs. cbn [fst snd]. by rewrite kvminithart_Done.
  - exists (mkcore (set_stvec kernelvec (regs co)) (percpu co)), [], (lsr_reads s). rewrite Hnil.
    split; [|split; [done|split; [done| |done|lia]]]. { unfold trapinithart, onregs. cbn [fst snd]. by rewrite trapinithart_Done. }
    intros _. destruct (S2 ltac:(lia)) as [P1 P2]. by split.
  - exists co, (plic_boot c), (lsr_reads s). split; [|split; [by right|]].
    + by rewrite (plicinithart_Done co s c Ht) by (unfold NCPU in Hc; lia).
    + split; [done|intros _; by apply S2; lia|intros _; by apply S3; lia|]. intros _. destruct (plic_regs c Hc).
      unfold plic_on, plic_boot, grow_bus. cbn [set_lsr_reads set_bus bus].
      change (bus s ++ [(PLIC_SENABLE c, 1026); (PLIC_SPRIORITY c, 0)]) with (bus s ++ ([(PLIC_SENABLE c, 1026)] ++ [(PLIC_SPRIORITY c, 0)])).
      rewrite app_assoc, reg_value_last. split; [|done].
      rewrite reg_value_app by (apply Forall_singleton; cbn [fst]; unfold PLIC in *; lia). apply reg_value_last.
Qed.

(** ** All harts *)

Abbreviation machine := (@machine U).
Abbreviation main_step := (main_step lsr patience kend etext trampoline kernelvec blocks vreg de_addr rest name).
Abbreviation bstep := (step lsr patience kend etext trampoline kernelvec blocks vreg de_addr rest name).

Section Harts.
Context (n : nat) (Hn : (0 < n <= NCPU)%nat) (m0 : mem) (f0 : kfs U) (Hm0 : mem_ok m0) (co0 : core) (Hco0 : hart_ok 0 co0).

Definition place_ok (c : nat) (p : place) (co : core) (s : shared) : Prop :=
  match p with
  | Enter | Spinning => c <> 0%nat /\ set_up 0 (Z.of_nat c) co s
  | Booting k => c = 0%nat /\ k = 19%nat /\ set_up 4 (Z.of_nat c) co s
  | Joining k => (k <= 4)%nat /\ set_up k (Z.of_nat c) co s
  | Scheduling => set_up 4 (Z.of_nat c) co s
  end.

(** Before [started] is set: hart 0 has run some of its calls, the others wait. *)
Record booting (m : machine) : Prop := {
  bt_boot : (at_ m !! 0%nat = Some Enter /\ cores m !! 0%nat = Some co0 /\ mem_ m = shared0 m0 f0) \/
    exists k co, (k <= 18)%nat /\ at_ m !! 0%nat = Some (Booting k) /\ cores m !! 0%nat = Some co /\
      in_turn (take k calls) (co0, shared0 m0 f0) = Done tt (co, mem_ m);
  bt_wait c : (0 < c < n)%nat -> exists co, cores m !! c = Some co /\ hart_ok (Z.of_nat c) co /\
    (at_ m !! c = Some Enter \/ at_ m !! c = Some Spinning)
}.

(** After. *)
Record joining (m : machine) : Prop := {
  jn_started : started (mem_ m) = true;
  jn_ready : ready (mem_ m);
  jn_harts c : (c < n)%nat -> exists co p, cores m !! c = Some co /\ at_ m !! c = Some p /\ place_ok c p co (mem_ m)
}.

Definition machine_ok (m : machine) : Prop :=
  length (cores m) = n /\ length (at_ m) = n /\ (booting m \/ joining m).

Lemma booting_quiet m : booting m -> started (mem_ m) = false.
Proof.
  intros [[(_ & _ & ->)|(k & co & Hk & _ & _ & Hr)] _]; [done|]. by rewrite (boot_not_started k _ _ _ _ Hk Hr).
Qed.

Lemma call_Done (cs : list (M (core * shared) unit)) next k c (m : machine) co (g : M (core * shared) unit) co' s' :
  cores m !! c = Some co -> cs !! k = Some g -> g (co, mem_ m) = Done tt (co', s') ->
  call cs next k c m = Done tt (mkmachine (<[c := co']> (cores m)) (<[c := next (S k)]> (at_ m)) s').
Proof. intros Hco Hg Hr. unfold call. rewrite Hco. rewrite Hg. by rewrite Hr. Qed.
Lemma call_end (cs : list (M (core * shared) unit)) next k c (m : machine) co : cores m !! c = Some co -> cs !! k = None ->
  call cs next k c m = Done tt (mkmachine (cores m) (<[c := Scheduling]> (at_ m)) (mem_ m)).
Proof. intros Hco Hg. unfold call. rewrite Hco. by rewrite Hg. Qed.

(** Hart 0's next call. *)
Lemma boot_step m k co : length (cores m) = n -> length (at_ m) = n -> booting m -> (k <= 18)%nat -> at_ m !! 0%nat = Some (Booting k) ->
  cores m !! 0%nat = Some co -> in_turn (take k calls) (co0, shared0 m0 f0) = Done tt (co, mem_ m) ->
  exists m', main_step 0 m = Done tt m' /\ machine_ok m' /\ at_ m' !! 0%nat = Some (Booting (S k)) /\ at_ m' = <[0%nat := Booting (S k)]> (at_ m).
Proof.
  intros Hl1 Hl2 Hb Hk Hat Hco Hr. destruct (boot_runs co0 m0 f0 Hm0 Hco0) as (cf & sf & Hall & Hst & Hrd & Hf1 & Hf2 & Hf3 & Hf4).
  destruct (in_turn_prefix calls _ _ k Hall) as ([co' s'] & Hr' & Hnext). rewrite Hr in Hr'. injection Hr' as <- <-.
  destruct (lookup_lt_is_Some_2 calls k) as [c Hc]; [cbn; lia|]. destruct (Hnext c Hc) as ([co1 s1] & Hrun).
  assert (H0 : (0 < length (at_ m))%nat) by lia. assert (H0' : (0 < length (cores m))%nat) by lia.
  exists (mkmachine (<[0%nat := co1]> (cores m)) (<[0%nat := Booting (S k)]> (at_ m)) s1).
  assert (Hstep : main_step 0 m = Done tt (mkmachine (<[0%nat := co1]> (cores m)) (<[0%nat := Booting (S k)]> (at_ m)) s1)).
  { unfold Boot.main_step. rewrite Hat. exact (call_Done _ _ _ _ _ _ _ _ _ Hco Hc Hrun). }
  split; [done|]. split; [|split; [by apply list_lookup_insert_eq|done]].
  split; [cbn [cores]; by rewrite length_insert|]. split; [cbn [at_]; by rewrite length_insert|].
  pose proof (in_turn_next _ _ _ _ _ Hr Hc) as Hnx. rewrite Hrun in Hnx.
  destruct (decide (k = 18%nat)) as [->|Hne].
  - right. change (take 19 calls) with calls in Hnx. rewrite Hall in Hnx. injection Hnx as <- <-. split; [done|done|].
    intros c' Hc'. cbn [cores at_ mem_]. destruct (decide (c' = 0%nat)) as [->|Hc0].
    + exists cf, (Booting 19). rewrite !list_lookup_insert_eq by done. do 2 (split; [done|]). do 2 (split; [done|]). by split.
    + rewrite !list_lookup_insert_ne by done. destruct (bt_wait m Hb c' ltac:(lia)) as (co' & H1 & H2 & H3).
      destruct H3 as [H3|H3]; eexists co', _; (split; [done|]); (split; [exact H3|]); (split; [done|split; [done|lia|lia|lia]]).
  - left. split.
    + right. exists (S k), co1. cbn [cores at_ mem_]. rewrite !list_lookup_insert_eq by done. split; [lia|done].
    + intros c' Hc'. cbn [cores at_ mem_]. rewrite !list_lookup_insert_ne by lia. by apply (bt_wait m Hb).
Qed.

Lemma cpuid_core co s c : hart_ok (Z.of_nat c) co -> (c < n)%nat -> onregs cpuid (co, s) = Done (Z.of_nat c) (co, s).
Proof.
  intros (_ & Ht & _) Hc. unfold onregs, cpuid, r_tp, gets, bind, ret. cbn [fst snd]. unfold NCPU in Hn.
  rewrite Ht, s32_small by lia. by destruct co.
Qed.

(** A hart that only moves: its registers and memory stay. *)
Lemma move_joining m c p co : joining m -> length (cores m) = n -> length (at_ m) = n -> (c < n)%nat -> cores m !! c = Some co -> place_ok c p co (mem_ m) ->
  machine_ok (mkmachine (cores m) (<[c := p]> (at_ m)) (mem_ m)).
Proof.
  intros [J1 J2 J3] Hl1 Hl2 Hc Hco Hp. split; [done|]. split; [cbn [at_]; by rewrite length_insert|]. right. split; [done|done|].
  intros c' Hc'. cbn [cores at_ mem_]. destruct (decide (c' = c)) as [->|Hne].
  - exists co, p. by rewrite list_lookup_insert_eq by lia.
  - rewrite list_lookup_insert_ne by done. by apply J3.
Qed.

Lemma place_other c c' p co s ws k : benign (Z.of_nat c') ws -> (c < n)%nat -> (c' < n)%nat -> c <> c' -> place_ok c p co s -> place_ok c p co (grow_bus ws k s).
Proof.
  intros Hb Hc Hc' Hne Hp.
  assert (Hs : forall j, set_up j (Z.of_nat c) co s -> set_up j (Z.of_nat c) co (grow_bus ws k s)) by (intros j; apply (set_up_other j _ (Z.of_nat c')); done || lia).
  destruct p; cbn [place_ok] in *; intuition.
Qed.

Lemma join_step m c k co : joining m -> length (cores m) = n -> length (at_ m) = n -> (c < n)%nat -> cores m !! c = Some co -> at_ m !! c = Some (Joining k) ->
  (k <= 4)%nat -> set_up k (Z.of_nat c) co (mem_ m) ->
  exists m', main_step c m = Done tt m' /\ machine_ok m' /\ at_ m' = <[c := if (k <? 4)%nat then Joining (S k) else Scheduling]> (at_ m).
Proof.
  intros Hj Hl1 Hl2 Hc Hco Hat Hk Hs. unfold Boot.main_step. rewrite Hat.
  destruct (jcalls !! k) as [g|] eqn:Hg.
  - destruct (join_call k (Z.of_nat c) co (mem_ m) g Hg Hs (rd_quiet _ (jn_ready m Hj)) ltac:(lia)) as (co' & ws & j & Hrun & Hb & Hs').
    assert (Hk4 : (k < 4)%nat) by (apply lookup_lt_Some in Hg; exact Hg). rewrite (proj2 (Nat.ltb_lt k 4)) by done.
    rewrite (call_Done _ _ _ _ _ _ _ _ _ Hco Hg Hrun). eexists. split; [reflexivity|]. split; [|done].
    split; [cbn [cores]; by rewrite length_insert|]. split; [cbn [at_]; by rewrite length_insert|]. right. destruct Hj as [J1 J2 J3].
    split; [done|apply (ready_grow _ (Z.of_nat c)); done || lia|]. intros c' Hc'. cbn [cores at_ mem_]. destruct (decide (c' = c)) as [->|Hne].
    + exists co', (Joining (S k)). rewrite !list_lookup_insert_eq by lia. split; [done|]. split; [done|]. split; [lia|done].
    + rewrite !list_lookup_insert_ne by done. destruct (J3 c' Hc') as (co2 & p & H1 & H2 & H3). exists co2, p. do 2 (split; [done|]).
      by apply (place_other c' c).
  - assert (k = 4%nat) as -> by (apply lookup_ge_None_1 in Hg; cbn in Hg; lia). rewrite (call_end _ _ _ _ _ _ Hco Hg). eexists. split; [reflexivity|]. split; [|done].
    by apply (move_joining m c Scheduling co).
Qed.

(** Steps a hart may still take before the scheduler. *)
Definition left (p : place) : nat :=
  match p with Enter => 30 | Booting k => 25 - k | Spinning => 6 | Joining k => 5 - k | Scheduling => 0 end.

Lemma insert_self (l : list place) c p : l !! c = Some p -> <[c := p]> l = l.
Proof. apply list_insert_id. Qed.

(** A waiting hart during the boot. *)
Lemma wait_step m c co p : booting m -> length (cores m) = n -> length (at_ m) = n -> (0 < c < n)%nat -> cores m !! c = Some co ->
  hart_ok (Z.of_nat c) co -> p = Enter \/ p = Spinning -> at_ m !! c = Some p ->
  main_step c m = Done tt (mkmachine (cores m) (<[c := Spinning]> (at_ m)) (mem_ m)) /\
  machine_ok (mkmachine (cores m) (<[c := Spinning]> (at_ m)) (mem_ m)).
Proof.
  intros Hb Hl1 Hl2 Hc Hco Hok Hp Hat. split.
  - unfold Boot.main_step. rewrite Hat. destruct Hp as [->| ->].
    + rewrite Hco, (cpuid_core co (mem_ m) c Hok) by lia. destruct (Z.eqb_spec (Z.of_nat c) 0); [lia|]. by rewrite (list_insert_id (cores m) c co) by done.
    + by rewrite (booting_quiet m Hb).
  - split; [done|]. split; [cbn [at_]; by rewrite length_insert|]. left. destruct Hb as [B1 B2]. split; cbn [cores at_ mem_].
    + rewrite list_lookup_insert_ne by lia. exact B1.
    + intros c' Hc'. destruct (B2 c' Hc') as (co' & H1 & H2 & H3). exists co'. do 2 (split; [done|]).
      destruct (decide (c' = c)) as [->|Hne]; [right; apply list_lookup_insert_eq; lia|by rewrite list_lookup_insert_ne by done].
Qed.

(** Hart 0 enters [main]. *)
Lemma enter_step m : booting m -> length (cores m) = n -> length (at_ m) = n -> at_ m !! 0%nat = Some Enter -> cores m !! 0%nat = Some co0 ->
  mem_ m = shared0 m0 f0 ->
  main_step 0 m = Done tt (mkmachine (cores m) (<[0%nat := Booting 0]> (at_ m)) (mem_ m)) /\
  machine_ok (mkmachine (cores m) (<[0%nat := Booting 0]> (at_ m)) (mem_ m)).
Proof.
  intros Hb Hl1 Hl2 Hat Hco Hmem. split.
  - unfold Boot.main_step. rewrite Hat, Hco, (cpuid_core co0 (mem_ m) 0 Hco0) by lia. by rewrite (list_insert_id (cores m) 0 co0) by done.
  - split; [done|]. split; [cbn [at_]; by rewrite length_insert|]. left. split; cbn [cores at_ mem_].
    + right. exists 0%nat, co0. rewrite list_lookup_insert_eq by lia. split; [lia|]. split; [done|]. split; [done|]. by rewrite Hmem.
    + intros c' Hc'. rewrite list_lookup_insert_ne by lia. by apply (bt_wait m Hb).
Qed.

(** Every hart can always take a step, which stays inside [machine_ok] and,
    unless the hart is waiting or done, brings it nearer to the scheduler. *)
Lemma step_ok m c : machine_ok m -> (c < n)%nat ->
  exists m' p p', main_step c m = Done tt m' /\ machine_ok m' /\ at_ m !! c = Some p /\ at_ m' = <[c := p']> (at_ m) /\
    ((left p' < left p)%nat \/ (p' = p /\ (p = Scheduling \/ (p = Spinning /\ booting m)))).
Proof.
  intros (Hl1 & Hl2 & [Hb|Hj]) Hc.
  - destruct (decide (c = 0%nat)) as [->|Hc0].
    + destruct (bt_boot m Hb) as [(Hat & Hco & Hmem)|(k & co & Hk & Hat & Hco & Hr)].
      * destruct (enter_step m Hb Hl1 Hl2 Hat Hco Hmem) as [Hs Hok]. eexists _, Enter, (Booting 0). split; [exact Hs|]. split; [exact Hok|]. split; [done|]. split; [done|cbn; lia].
      * destruct (boot_step m k co Hl1 Hl2 Hb Hk Hat Hco Hr) as (m' & Hs & Hok & _ & Hat'). exists m', (Booting k), (Booting (S k)).
        split; [done|]. split; [done|]. split; [done|]. split; [done|cbn [left]; lia].
    + destruct (bt_wait m Hb c ltac:(lia)) as (co & Hco & Hok & Hp).
      assert (exists p, (p = Enter \/ p = Spinning) /\ at_ m !! c = Some p) as (p & Hp' & Hat) by (destruct Hp; eauto).
      destruct (wait_step m c co p Hb Hl1 Hl2 ltac:(lia) Hco Hok Hp' Hat) as [Hs Hm]. eexists _, p, Spinning.
      split; [exact Hs|]. split; [exact Hm|]. split; [done|]. split; [done|]. destruct Hp' as [->| ->]; [left; cbn; lia|right; split; [done|by right]].
  - destruct (jn_harts m Hj c Hc) as (co & p & Hco & Hat & Hp).
    assert (Hmv : forall p', main_step c m = Done tt (mkmachine (cores m) (<[c := p']> (at_ m)) (mem_ m)) -> place_ok c p' co (mem_ m) -> (left p' < left p)%nat ->
      exists m' p p', main_step c m = Done tt m' /\ machine_ok m' /\ at_ m !! c = Some p /\ at_ m' = <[c := p']> (at_ m) /\
        ((left p' < left p)%nat \/ (p' = p /\ (p = Scheduling \/ (p = Spinning /\ booting m))))).
    { intros p' Hs Hp' Hlt. eexists _, p, p'. split; [exact Hs|]. split; [by apply (move_joining m c p' co)|]. split; [done|]. split; [done|by left]. }
    destruct p as [|k| |k|]; cbn [place_ok] in Hp.
    + destruct Hp as [Hc0 Hs]. apply (Hmv Spinning); [|done|cbn; lia]. unfold Boot.main_step. rewrite Hat, Hco, (cpuid_core co (mem_ m) c (su_ok _ _ _ _ Hs) Hc).
      destruct (Z.eqb_spec (Z.of_nat c) 0); [lia|]. by rewrite (list_insert_id (cores m) c co) by done.
    + destruct Hp as (-> & -> & Hs). apply (Hmv Scheduling); [|done|cbn; lia]. unfold Boot.main_step. rewrite Hat. exact (call_end calls Booting 19 0 m co Hco eq_refl).
    + destruct Hp as [Hc0 Hs]. apply (Hmv (Joining 0)); [|split; [lia|done]|cbn; lia]. unfold Boot.main_step. rewrite Hat. by rewrite (jn_started m Hj).
    + destruct Hp as [Hk Hs]. destruct (join_step m c k co Hj Hl1 Hl2 Hc Hco Hat Hk Hs) as (m' & Hst & Hok & Hat').
      eexists m', (Joining k), _. split; [done|]. split; [done|]. split; [done|]. split; [exact Hat'|]. left. destruct (Nat.ltb_spec k 4); cbn [left]; lia.
    + exists m, Scheduling, Scheduling. split; [unfold Boot.main_step; by rewrite Hat|]. split; [split; [done|split; [done|by right]]|]. split; [done|].
      rewrite insert_self by done. split; [done|]. right. split; [done|by left].
Qed.

Lemma machine_ok_step m m' : machine_ok m -> bstep m m' -> machine_ok m'.
Proof.
  intros Hok [c Hc Hs]. rewrite (proj1 Hok) in Hc. destruct (step_ok m c Hok Hc) as (m1 & p & p' & Hs1 & Hok1 & _).
  assert (m1 = m') as -> by congruence. done.
Qed.
Lemma machine_ok_reachable m m' : machine_ok m -> rtc bstep m m' -> machine_ok m'.
Proof. intros Hok Hr. induction Hr; [done|]. eauto using machine_ok_step. Qed.

Lemma sum_insert (l : list place) c p p' : l !! c = Some p -> (left p' < left p)%nat -> (sum_list (left <$> <[c := p']> l) < sum_list (left <$> l))%nat.
Proof.
  revert c. induction l as [|q l IH]; intros [|c] Hc Hlt; try done; cbn.
  - apply Some_inj in Hc. cbn in Hc. subst q. by apply Nat.add_lt_mono_r.
  - apply Nat.add_lt_mono_l. by apply (IH c).
Qed.

(** The harts can all reach the scheduler from wherever they are. *)
Lemma all_reach m : machine_ok m -> exists m', rtc bstep m m' /\ at_ m' = replicate n Scheduling.
Proof.
  remember (sum_list (left <$> at_ m)) as w eqn:Hw. revert m Hw. induction (lt_wf w) as [w _ IH]. intros m -> Hok.
  assert (Hgo : forall c, (c < n)%nat -> at_ m !! c <> Some Scheduling -> (c = 0%nat \/ joining m) -> exists m', rtc bstep m m' /\ at_ m' = replicate n Scheduling).
  { intros c Hc Hns Hor. destruct (step_ok m c Hok Hc) as (m1 & p & p' & Hs & Hok1 & Hp & Hat & Hlt).
    assert (Hlt' : (left p' < left p)%nat).
    { destruct Hlt as [?|[_ [->|[-> Hb]]]]; [done|done|]. exfalso. destruct Hor as [->|Hj].
      - destruct (bt_boot m Hb) as [(H & _)|(k & co & _ & H & _)]; congruence.
      - pose proof (booting_quiet m Hb). pose proof (jn_started m Hj). congruence. }
    destruct (IH (sum_list (left <$> at_ m1)) ltac:(rewrite Hat; by eapply sum_insert) m1 eq_refl Hok1) as (m' & Hr & Hlast).
    exists m'. split; [|done]. eapply rtc_l; [|exact Hr]. exists c; [by rewrite (proj1 Hok)|done]. }
  destruct Hok as (Hl1 & Hl2 & Hph). destruct (decide (Forall (fun p => left p = 0%nat) (at_ m))) as [Hall|Hex].
  - exists m. split; [done|]. apply list_eq_same_length with n; [by rewrite length_replicate|done|]. intros i x y Hi Hx Hy.
    apply lookup_replicate in Hy as [-> _]. pose proof (Forall_lookup_1 _ _ _ _ Hall Hx) as H0.
    destruct Hph as [Hb|Hj].
    + exfalso. destruct (bt_boot m Hb) as [(H & _)|(k & co & Hk & H & _)]; pose proof (Forall_lookup_1 _ _ _ _ Hall H) as H2; cbn [left] in H2; lia.
    + destruct (jn_harts m Hj i Hi) as (co & p & _ & Hp & Hpl). assert (p = x) as -> by congruence.
      destruct x; cbn [left place_ok] in *; try lia; done.
  - apply not_Forall_Exists in Hex; [|intros p; apply _]. apply Exists_exists in Hex as (p & Hp & Hne). apply list_elem_of_lookup in Hp as [c Hc].
    assert (Hcn : (c < n)%nat) by (rewrite <- Hl2; by eapply lookup_lt_Some).
    destruct Hph as [Hb|Hj].
    + apply (Hgo 0%nat); [lia| |by left]. destruct (bt_boot m Hb) as [(H & _)|(k & co & _ & H & _)]; congruence.
    + apply (Hgo c Hcn); [|by right]. rewrite Hc. intros [= ->]. by apply Hne.
Qed.
End Harts.

(** ** The theorem *)

Definition boot_machine (cos : list core) (m0 : mem) (f0 : kfs U) : machine :=
  mkmachine cos (replicate (length cos) Enter) (shared0 m0 f0).

(** The interrupts that reach a hart are those of the two devices. *)
Lemma plic_on_delivers ws c irq : plic_on ws c -> reg_value ws (PLIC + UART0_IRQ * 4) = 1 -> reg_value ws (PLIC + VIRTIO0_IRQ * 4) = 1 -> 0 < irq < 32 ->
  plic_delivers ws c irq = true <-> irq = UART0_IRQ \/ irq = VIRTIO0_IRQ.
Proof.
  intros [H1 H2] Hu Hv Hi. unfold plic_delivers. rewrite H1, H2. split.
  - intros [_ Hb]%andb_true_iff. unfold UART0_IRQ, VIRTIO0_IRQ.
    destruct (decide (irq = 10)) as [->|N1]; [by left|]. destruct (decide (irq = 1)) as [->|N2]; [by right|]. exfalso.
    rewrite (Z.lor_spec 1024 2 irq : Z.testbit 0x402 irq = _) in Hb. change 1024 with (2 ^ 10) in Hb. change 2 with (2 ^ 1) in Hb.
    rewrite !Z.pow2_bits_false in Hb by lia. done.
  - intros [->| ->]; [by rewrite Hu|by rewrite Hv].
Qed.

(** C3: the boot.  Any number of harts up to [NCPU] run [start] from reset and
    then [main], interleaved in any order over arbitrary memory.  No call of
    any hart ever panics.  A hart that is in the scheduler, whichever it is and
    whatever the others are doing, runs in supervisor mode on the kernel's page
    table with no stale translation, takes traps at [kernelvec], and is
    delivered exactly the interrupts of the UART and the disk; the kernel it
    sees is initialised: the page table maps [kernel_entry] and nothing else,
    the first process is ready to run [initcode] in a working directory that
    is the root inode, the file, inode and buffer tables, every lock, the
    console device and the serial line are set up, and the banner has been
    sent.  And from any point all harts can reach the scheduler. *)
Theorem boot_reaches_scheduler (edeleg ideleg main : Z) (hs : list hart) (cos : list core) (m0 : mem) (f0 : kfs U) (m : machine) :
  (forall i, i ∈ [1; 5; 9] -> Z.testbit ideleg i = true) ->
  (0 < length hs <= NCPU)%nat -> (forall c h, hs !! c = Some h -> mode h = PrivM /\ mhartid h = Z.of_nat c) ->
  Forall2 (fun h co => start edeleg ideleg main h = Done tt (regs co) /\ percpu co = cpu_off 0) hs cos ->
  mem_ok m0 -> rtc bstep (boot_machine cos m0 f0) m ->
  (forall c, (c < length hs)%nat -> exists m', main_step c m = Done tt m') /\
  (forall c co, cores m !! c = Some co -> at_ m !! c = Some Scheduling ->
     started (mem_ m) = true /\ ready (mem_ m) /\ mode (regs co) = PrivS /\ tp (regs co) = Z.of_nat c /\
     satp (regs co) = MAKE_SATP (kernel_pagetable (mem_ m)) /\ stale (regs co) = false /\ stvec (regs co) = kernelvec /\
     forall irq, 0 < irq < 32 -> plic_delivers (bus (mem_ m)) (Z.of_nat c) irq = true <-> irq = UART0_IRQ \/ irq = VIRTIO0_IRQ) /\
  exists m', rtc bstep m m' /\ at_ m' = replicate (length hs) Scheduling.
Proof.
  intros Hdeleg Hn Hhs Hcos Hm Hr. set (n := length hs) in *. assert (Hlen : length cos = n) by (symmetry; by eapply Forall2_length).
  assert (Hok : forall c co, cos !! c = Some co -> hart_ok (Z.of_nat c) co).
  { intros c co Hc. destruct (Forall2_lookup_r _ _ _ _ _ Hcos Hc) as (h & Hh & Hst & Hp). destruct (Hhs c h Hh) as [H1 H2].
    assert (Hcn : (c < n)%nat) by (rewrite <- Hlen; by eapply lookup_lt_Some).
    destruct (start_enters_main edeleg ideleg Hdeleg main h H1) as (h' & Hs & Hm' & _ & Ht & _); [unfold NCPU in Hn; lia|].
    assert (regs co = h') as E by congruence. split; [by rewrite E|]. split; [by rewrite E, Ht|done]. }
  destruct (lookup_lt_is_Some_2 cos 0) as [co0 Hco0]; [lia|]. pose proof (Hok 0%nat co0 Hco0) as Hok0.
  assert (H0 : machine_ok n m0 f0 co0 (boot_machine cos m0 f0)).
  { split; [done|]. split; [cbn [at_ boot_machine]; by rewrite length_replicate|]. left. split; cbn [at_ cores mem_ boot_machine].
    - left. split; [|done]. apply lookup_replicate. split; [done|lia].
    - intros c Hc. destruct (lookup_lt_is_Some_2 cos c) as [co Hco]; [lia|]. exists co. split; [done|]. split; [by apply Hok|].
      left. apply lookup_replicate. split; [done|lia]. }
  pose proof (machine_ok_reachable n Hn m0 f0 Hm co0 Hok0 _ m H0 Hr) as HI. split; [|split].
  - intros c Hc. destruct (step_ok n Hn m0 f0 Hm co0 Hok0 m c HI Hc) as (m' & p & p' & Hs & _). by exists m'.
  - intros c co Hco Hat. destruct HI as (Hl1 & Hl2 & [Hb|Hj]).
    { exfalso. destruct (decide (c = 0%nat)) as [->|Hc0].
      - destruct (bt_boot _ _ _ _ _ Hb) as [(H & _)|(k & co' & _ & H & _)]; congruence.
      - assert (Hcn : (c < n)%nat) by (rewrite <- Hl1; by eapply lookup_lt_Some).
        destruct (bt_wait _ _ _ _ _ Hb c ltac:(lia)) as (co' & _ & _ & [H|H]); congruence. }
    assert (Hcn : (c < n)%nat) by (rewrite <- Hl1; by eapply lookup_lt_Some).
    destruct (jn_harts _ _ Hj c Hcn) as (co' & p & Hco' & Hp & Hpl). assert (co' = co) as -> by congruence. assert (p = Scheduling) as -> by congruence.
    destruct Hpl as [[S1 [S1' _]] S2 S3 S4]. destruct (S2 ltac:(lia)) as [P1 P2]. pose proof (jn_ready _ _ Hj) as Hrd.
    split; [apply (jn_started _ _ Hj)|]. split; [done|]. do 2 (split; [done|]). do 2 (split; [done|]). split; [by apply S3; lia|].
    intros irq Hirq. destruct (rd_priority _ Hrd) as [R1 R2]. apply plic_on_delivers; [by apply S4; lia|done..].
  - exact (all_reach n Hn m0 f0 Hm co0 Hok0 m HI).
Qed.
End BootSpec.

(** ** An instance: three harts, a UART that is always idle *)

Definition demo_files : kfs (list Z) :=
  mkkfs (mkfs (mksb 0 0 0 0 0 0 0 0) (mklog 0 0 0 false [] (mkbdev (fun _ => []) (fun _ => []) [] [])) [] ([], fun _ => 0) [])
    [] ∅ [] [] [] 0.
Definition demo_layer : FileLayer (kfs (list Z)) := {|
  fl_dup := fun f s => Done f s;
  fl_close := fun _ s => Done ([], []) s;
  fl_idup := fun ip s => Done ip s;
  fl_iput := fun _ s => Done [] s;
  fl_root := fun s => Done 1 s;
  fl_uninit := 0;
  fl_forkret := KERNBASE + 0x1000
|}.
Definition demo_vreg (r : Z) : Z :=
  if r =? VIRTIO_MMIO_MAGIC_VALUE then 0x74726976 else if r =? VIRTIO_MMIO_VERSION then 2 else if r =? VIRTIO_MMIO_DEVICE_ID then 2
  else if r =? VIRTIO_MMIO_VENDOR_ID then 0x554d4551 else if r =? VIRTIO_MMIO_STATUS then 11 else if r =? VIRTIO_MMIO_QUEUE_NUM_MAX then 1024 else 0.
Definition demo_harts : list hart := reset_hart <$> [0; 1; 2].
Definition after_start (h : hart) : core :=
  match start 0xffff 0x222 0x80000a00 h with Done _ h' => mkcore h' (cpu_off 0) | Panic _ => mkcore h (cpu_off 0) end.

Lemma boot_reaches_scheduler_witness : exists m',
  rtc (step (fun _ => LSR_TX_IDLE) 1 (KERNBASE + 0x22000) (KERNBASE + 0x8000) (KERNBASE + 0x7000) (KERNBASE + 0x5000) (fun _ _ => []) demo_vreg 0 demo_layer [])
    (boot_machine (after_start <$> demo_harts) (fun _ => 0) demo_files) m' /\
  at_ m' = replicate 3 Scheduling.
Proof.
  destruct (boot_reaches_scheduler (fun _ => LSR_TX_IDLE) 1) with (kend := KERNBASE + 0x22000) (etext := KERNBASE + 0x8000)
    (trampoline := KERNBASE + 0x7000) (kernelvec := KERNBASE + 0x5000) (blocks := fun _ _ : Z => [] : block) (vreg := demo_vreg) (de_addr := 0)
    (rest := demo_layer) (name := [] : list Z) (edeleg := 0xffff) (ideleg := 0x222) (main := 0x80000a00) (hs := demo_harts)
    (cos := after_start <$> demo_harts) (m0 := fun _ : Z => 0) (f0 := demo_files)
    (m := boot_machine (after_start <$> demo_harts) (fun _ => 0) demo_files) as (_ & _ & m' & Hr & Hend).
  - intros n. exists 0%nat. split; [lia|done].
  - reflexivity.
  - lia_pages.
  - lia_pages.
  - reflexivity.
  - lia_pages.
  - split; done.
  - intros i Hi. repeat (apply elem_of_cons in Hi as [->|Hi]; [reflexivity|]). by apply not_elem_of_nil in Hi.
  - unfold NCPU, demo_harts. cbn. lia.
  - intros c h Hc. unfold demo_harts in Hc. cbn [fmap list_fmap] in Hc.
    do 3 (destruct c as [|c]; [apply Some_inj in Hc; rewrite <- Hc; split; reflexivity|]). destruct c; discriminate Hc.
  - unfold demo_harts. cbn [fmap list_fmap]. repeat (apply Forall2_cons; split; [split; vm_compute; reflexivity|]). apply Forall2_nil_2.
  - intros a. lia.
  - apply rtc_refl.
  - exists m'. split; [exact Hr|exact Hend].
Defined.
